(* ===== verification/_CoqProject ===== *)
-Q . S2P
Prelude.v
Effects.v
Async.v
Clock.v
Reducer.v
GenState.v
GenInv.v
GenReach.v
GenPublish.v
GenProps.v
GenCredits.v
GenTheorems.v
ObjectState.v
ObjectProps.v
ObjectTheorems.v
ObjectQueue.v
Recovery.v
Bytes.v
Header.v
Transport.v
Operation.v
PreparationOrder.v
Transfer.v
UncPath.v
Compression.v
CompressionProps.v
Cmac.v
WireOut.v
Crypto.v
CmacBatcher.v
Dialects.v
Session.v
Wire.v
WireProps.v
WireTheorems.v
Setup.v
SetupTheorems.v
GenEffects.v
Engine.v
EngineInv.v
EngineSteps.v
EngineTheorems.v
RecoveryDriver.v
RecoveryDriverTheorems.v
Stream.v
Codec.v
Security.v
SecurityTheorems.v
ChainedList.v
CreateContexts.v
Negotiate.v
Fsctl.v
TreeConnect.v
Messages.v
Queries.v
QueryProps.v
Content.v
ContentTheorems.v
FileInfo.v
DirectoryInfo.v
InfoClasses.v
Dfs.v
FsctlResponses.v
Tree.v
Resource.v
TreeProps.v
TreeSystem.v
TreeTheorems.v
ResourceTheorems.v
Directory.v
InfoTheorems.v
Ndr.v
Rpc.v
RpcCalls.v
RpcPipe.v
Srvsvc.v
Lsarpc.v
RpcTheorems.v
