(* ===== verification/Prelude.v ===== *)
(** * smb-rs: a verified model of an SMB2/3 client

    smb-rs is an asynchronous SMB2/3 client in Rust. The crate smb holds the client, its
    runtime and its domain objects, smb-msg the wire messages, smb-dtyp the Windows data
    types, smb-fscc the file system structures, smb-rpc the RPC interfaces and
    smb-transport the byte transports. This library models the parts that decide: who is
    answered what and when, what a credit or an identity is worth, which handle is still
    good, and what the bytes of a message mean.

    ** The runtime (crates/smb/src/runtime)

    A connection lives in generations. One task, the owner, has a generation's state and
    is driven by events: commands of callers, results of preparing and decoding messages,
    progress of the transport, and time. Below it are reducers without I/O: functions from
    a state and an event to a new state and a list of effects. They are modelled as such;
    a handler is one definition, its early returns are the branches of a match, and
    [&mut self] is a state passed through.

    - [Clock] (clock.rs): saturating time arithmetic.
    - [Reducer] (reducer.rs): the record of one request; a caller is told one outcome.
    - [GenState] (state.rs): [GenerationState], its admission control, credits, message
      and async identities and the heap of deadlines. [GenInv] and [GenReach] prove the
      invariant of every reachable state, [GenPublish] who is told what, [GenProps] that
      passed deadlines are enforced, [GenCredits] the credit ledger, [GenTheorems] the
      accounting, identities, disconnection and cancellation, [GenEffects] what the owner
      relies on.
    - [ObjectState] (object_state.rs): the tree of connection, sessions, shares and
      resources with its tokens and epochs, and the queue of commands that wait for a
      recovering object. [ObjectProps], [ObjectTheorems] and [ObjectQueue] prove what
      tokens and closes are worth and that a waiting command is resolved once.
    - [Recovery] (recovery.rs): the reconnect coordinator with its backoff.
    - [Operation] (operation.rs, parts of smb-msg/src/plain.rs): typed operations, their
      replay and response policies and their credit charge.
    - [PreparationOrder] (preparation_order.rs): results that finish in any order and are
      released in the order of reservation, as a refinement of a list of slots.
    - [Engine] (engine.rs): the owner task itself. Its variables are the record [Engine],
      the tables of callers the record [RequestAuthority], an event of its loop is one of
      [EngineEvent] and [eng_step] is the arm that handles it; [eng_shutdown] is what
      happens after the loop. [EngineInv] has the invariant of the tables, [EngineSteps]
      that every handler keeps it and loses no reply channel, and [EngineTheorems] that the
      same holds of whole runs, that every caller is answered exactly once (but for the
      control commands still queued and the preparations still running when the owner shuts
      down, which are dropped), that the owner panics only through the pipeline below it, and the
      runs in which it does something it does not mean to.
    - [RecoveryDriver] (recovery_driver.rs): the task that replaces a lost generation, the
      operations that wait for the new one and the calls that close it, as events of their
      critical sections in any order, with the invariant of what they share.
      [RecoveryDriverTheorems] has what an operation can see and that a recovery ends.

    ** Messages, paths and transfers

    - [Bytes] has fixed-width integers and readers over a buffer, [Header]
      (smb-msg/src/header.rs) the 64-byte header, its command and status codes.
    - [Transport] (crates/smb-transport/src): frames and their 4-byte header, the cursor
      over a frame that is written in parts, and the loops that send and receive one.
    - [Compression] and [CompressionProps] (smb/src/compression.rs,
      smb-msg/src/compressed.rs): the compressed message, its writer and reader, the
      compressor and the decompressor.
    - [UncPath] (client/unc_path.rs): UNC paths, their parser and printer.
    - [Transfer] (domain/transfer.rs): the loop that copies a file
      with several chunks in flight, for every order in which the chunks complete.

    ** Security (crates/smb/src/crypto, session, runtime/wire.rs, smb-msg/src/wire_out.rs)

    - [WireOut] (wire_out.rs): the arena in which a request or a compound is laid out, the
      states it goes through, the signatures that are patched into it, and what is sealed.
    - [Cmac] (crypto/cmac_batch.rs): the CMAC of several messages computed in four lanes,
      proved equal to RFC 4493 message by message.
    - [Crypto] (crypto/signing.rs, crypto/encryption, session/signer.rs,
      session/encryptor_decryptor.rs, smb-msg/src/encrypted.rs): signers, ciphers, nonces,
      the transform header; what is encrypted is decrypted, what is signed verifies.
    - [CmacBatcher] (runtime/cmac_batcher.rs): the queue of CMAC jobs and its leader, as events
      of critical sections that interleave; every job is answered once, with its own CMAC.
    - [Dialects] (dialects.rs, connection/config.rs, signing.rs, connection_info.rs,
      preauth_hash.rs): what negotiation settles.
    - [Session] (session/state.rs, session/channel.rs): key derivation, the states of a
      session, which protection a request gets and which response is accepted.
    - [Wire] (runtime/wire.rs): the pipeline from a request to a frame and from a frame to
      responses, as a state monad with errors and panics. [WireProps] has the logic for its
      calls and the invariant of a pipeline in use, [WireTheorems] what responses are worth and
      which frames can panic the pipeline: those that panic decompression or a body reader.
    - [Setup] (session/setup.rs): the exchange that sets a session up or binds a channel to
      one, over any authenticator and any runtime. [SetupTheorems] says what each of its steps
      changes and what a session in use has been through.
    - [Effects]: the monad of the calls above (a state, errors and panics) and its rules.

    ** Message bodies (crates/smb-msg/src, smb-dtyp/src, smb-fscc/src)

    The bodies of the messages are declared in the source as structs with binrw attributes: a
    field is written where the stream stands, an offset or a length is a marker that is
    written as zeros and filled in when what it points to has been written, a reader seeks,
    asserts and takes parts of its stream. A struct is a record here, and its writer and
    its reader are one definition each, field by field in the order of the attributes.

    - [Stream] (smb-dtyp/src/binrw_util): a byte buffer with a position, the primitives of
      binrw that the attributes use, and the source's own position markers, booleans,
      48-bit integers and sized strings. [Codec] has the laws by which a reader that undoes
      a writer is put together from the fields, and by which a reader refuses bytes.
    - [Security] (smb-dtyp/src/guid.rs, security/): SIDs, access control entries and lists
      and security descriptors. [SecurityTheorems]: the descriptor is read back and the offsets
      and sizes in it are those of its members, and [order_aces] sorts into the order it documents without reordering within a group.
    - [ChainedList] (smb-fscc/src/chained_list.rs): lists whose entries carry the offset of
      the next.
    - [CreateContexts] (create.rs, common_info.rs): the contexts of CREATE.
    - [Negotiate] (negotiate.rs): NEGOTIATE with its contexts.
    - [Fsctl] (ioctl/, dfsc.rs): the payloads of IOCTL requests.
    - [TreeConnect] (tree_connect.rs), [Messages] (session_setup.rs, create.rs, file.rs, lock.rs, ioctl/msg.rs, echo.rs, cancel.rs), [Queries] and
      [QueryProps] (query_dir.rs, notify.rs, info/, oplock.rs, error.rs, and the quotas,
      notifications and class tables of smb-fscc): the other bodies.
    - [Content] (plain.rs): the enums of bodies and the choice by command.
      [ContentTheorems]: a request or a response whose fields fit is written, and read back
      from the bytes of its message, but for the cases that the statements list (empty names,
      contexts that another version's reader takes, quotas, variants that others shadow, what
      the reader refuses); what becomes of an error response, and that the length an IOCTL request
      declares is the one it has.
    - [FileInfo] and [DirectoryInfo] (smb-fscc/src/common_info.rs, query_file_info.rs,
      set_file_info.rs, filesystem_info.rs, directory_info.rs, smb-dtyp's file_time.rs and
      fixed_string.rs): the structures of file, file system and directory information.
      [InfoClasses] (info_classes.rs, info/common.rs) is what the macro
      [file_info_classes!] generates, once over a class of tables, with the five tables as
      instances. [InfoTheorems]: what is written for a class is read back by it, and the
      trial of the variants comes to the reader of the class that was asked for.
    - [Dfs] (dfsc.rs): referrals of the four versions, and that the names of an entry are
      found where its offsets point.
    - [FsctlResponses] (ioctl/fsctl.rs, multi_sz.rs): the payloads of IOCTL responses and
      that they are read back, but for the one control whose answer its type does not claim.

    ** Shares and resources (crates/smb/src/tree.rs, resource.rs, resource/)

    The functions of these files are async and shared by every task that uses the share, so
    that another task may run at each of their awaits and a caller may drop them there. They
    are programs of [Async]: a tree whose nodes are calls (a load or a store of the shared
    context, a lock, a request to the session) and whose branches are the answers. A theorem
    about such a program holds for every answer at every call, hence for every interleaving.

    - [Async]: programs of calls, what they do on given answers, and the disciplines by which a
      property of every call made is proved from the properties of the parts.
    - [Tree] (tree.rs, runtime/recovery_attempt.rs): connecting, reconnecting, executing and
      disconnecting.
    - [Resource] (resource.rs, resource/file.rs, resource/pipe.rs): opening files and pipes, durable
      reconnects, queries, control codes, reads, writes and closing.
    - [TreeProps]: all the operations of a share as one inductive, and the class
      [ShareDiscipline] of what is shown once for each call and holds for all of them.
      [TreeSystem] lets any number of them run interleaved over one shared context, with the lock
      of its recovery and the lock of every resource, dropped callers and spawned reconnects, and has
      the invariant of the runs.
    - [TreeTheorems]: what is sent on an encrypted share is encrypted, the context of a share
      stays consistent, and its tasks do not wait for each other in a circle.
    - [ResourceTheorems]: what an open file has been granted, which failed opens are left open at
      the server, how often a reconnect is tried, what a query that overflows answers.
    - [Directory] (resource/directory.rs): queries, the stream of entries as the fetching task and
      its consumer, and watches; the entries come in order, and a consumer that asks for more
      gets it.

    ** Remote procedure calls (crates/smb-rpc/src, smb/src/domain/rpc.rs)

    - [Ndr] (ndr64/): alignment, pointers, strings and arrays that are written in two passes.
    - [Rpc] (pdu.rs): the packets. [RpcCalls] (lib.rs, interface/base.rs): a call as a class of
      its number, writer and reader, and the class of bound connections the interfaces use.
    - [RpcPipe] (domain/rpc.rs): binding a pipe and exchanging one request for one reply. The
      operations of the pipe are calls of [Async], answered by the environment.
    - [Srvsvc] and [Lsarpc] (interface/): listing shares and looking up the names of SIDs.
    - [RpcTheorems]: packets are read back, a bound pipe has settled on NDR64, every call has a
      number of its own and takes data only from a response in its context (whose number is not
      compared), and the shares of a server are listed when its answer fits one fragment.

    ** Conventions

    A w-bit integer is a [Z]; wrapping, saturating and checked operations are written out,
    and hypotheses such as [event_ok] state nothing but the ranges of Rust's types; the
    predicates [.._ok] of message bodies also say that what is pointed to by an offset or
    counted by a length fits the field. A
    [HashMap] is a [gmap]; where the source iterates over one, the order is the class
    [HashOrder] and the theorems hold for every order. [Option] and [Result] are [option]
    and [result]; a panic is [None]. Code outside the repository (LZ4, the tokio channels,
    the operating system's transports, the cryptographic crates) is a class with the laws
    its documentation gives, or an argument of the event that carries its answer.

    ** Bounds and fuel

    The loops that are not structural run on fuel: the deadline loop of [gs_advance_time]
    on the weight of its heap, parent walks of the object registry on the number of records,
    the transfer loop on the chunks that are left, readers of repeated items on the length
    of the input, the lanes of [Cmac] on the blocks that are left, the walk over a compound on
    the bytes that are left. For each it is proved that the fuel used is enough:
    [gs_advance_loop_drains] for the heap, [read_chained_items_fuel] for repeated items,
    [sign_batch_spec] for the lanes, [walk_compound_total] for the compound, and theorems of
    their own for the parent walks ([ObjectTheorems]) and the transfer ([Transfer]); items up to
    the end of the input and lists of strings by [until_eof_law] and [multi_wsz_law]. The
    attempts of a reconnect are structural on the number the policy allows and need none.

    ** Not modelled

    The sockets under the transport, connecting them, and NetBIOS and QUIC; the ciphers and
    hashes themselves and the authenticators, which are other crates; the pool of the executor,
    of which only the answers reach the pipeline; the client facade and the domain objects, except
    the transfer and RPC over pipes; of connection.rs and session.rs all but what session setup
    uses; the port between the API and the owner; the loop that restarts a directory watch; the text
    forms of SIDs, GUIDs and times, and the replacement of units that are not UTF-16; tests,
    examples and the command line tool. A TREE CONNECT request with the extension is modelled
    but has no round trip, since its writer and its reader disagree (see [TreeConnect]). *)
From stdpp Require Export base numbers option list gmap sorting.
From Stdlib Require Export ZArith Lia.

#[export] Set Default Goal Selector "!".

(** * Machine integers

    A w-bit unsigned integer of the source is a [Z]; the constants below are the
    maxima of the Rust types and the operations are the ones of the Rust standard
    library, each with its own overflow behaviour. [usize] is 64 bits wide. *)

Declare Scope smb_scope.
Delimit Scope smb_scope with smb.

(** The lemmas that close the routine side conditions of the development. *)
Create HintDb smb.

Definition u8_max : Z := 255.
Definition u16_max : Z := 65535.
Definition u32_max : Z := 4294967295.
Definition u64_max : Z := 18446744073709551615.
Definition usize_max : Z := 18446744073709551615.
Definition i64_min : Z := -9223372036854775808.
Definition i64_max : Z := 9223372036854775807.

(** [a.checked_add(b)] at the type whose maximum is [m]. *)
Definition checked_add (m a b : Z) : option Z :=
  if bool_decide (a + b <= m)%Z then Some (a + b)%Z else None.

(** [a.saturating_add(b)], [a.saturating_sub(b)], [a.saturating_mul(b)]. *)
Definition saturating_add (m a b : Z) : Z := Z.min (a + b) m.
Definition saturating_sub (a b : Z) : Z := Z.max (a - b) 0.
Definition saturating_mul (m a b : Z) : Z := Z.min (a * b) m.

(** The plain operators [-] and [+] in a release build: they wrap. A debug build
    panics instead, so a theorem that no operand pair wraps covers both. *)
Definition wrapping_sub (m a b : Z) : Z := ((a - b) mod (m + 1))%Z.
Definition wrapping_add (m a b : Z) : Z := ((a + b) mod (m + 1))%Z.
Definition wrapping_mul (m a b : Z) : Z := ((a * b) mod (m + 1))%Z.

(** [a as uN]: truncation to the type whose maximum is [m]. *)
Definition as_uint (m a : Z) : Z := (a mod (m + 1))%Z.

Definition in_range (m a : Z) : Prop := (0 <= a <= m)%Z.

#[export] Instance in_range_dec m a : Decision (in_range m a).
Proof. unfold in_range. apply _. Defined.

#[global] Arguments u8_max : simpl never.
#[global] Arguments u16_max : simpl never.
#[global] Arguments u32_max : simpl never.
#[global] Arguments u64_max : simpl never.
#[global] Arguments usize_max : simpl never.
#[global] Arguments checked_add : simpl never.
#[global] Arguments saturating_add : simpl never.
#[global] Arguments saturating_sub : simpl never.
#[global] Arguments saturating_mul : simpl never.
#[global] Arguments wrapping_sub : simpl never.
#[global] Arguments wrapping_add : simpl never.
#[global] Arguments wrapping_mul : simpl never.
#[global] Arguments as_uint : simpl never.
#[global] Arguments in_range : simpl never.

(** Conversion unfolds this vocabulary before the integer operations under it. *)
#[global] Strategy expand [in_range saturating_add saturating_sub saturating_mul
  u8_max u16_max u32_max u64_max usize_max i64_min i64_max].

(** [ints] unfolds the integer vocabulary and calls [lia]. *)
Ltac ints_unfold :=
  unfold saturating_add, saturating_sub, saturating_mul, in_range,
    u8_max, u16_max, u32_max, u64_max, usize_max, i64_min, i64_max in *.

Ltac ints := ints_unfold; lia.

Lemma checked_add_Some m a b c :
  checked_add m a b = Some c <-> (a + b <= m)%Z /\ c = (a + b)%Z.
Proof. unfold checked_add. case_bool_decide; naive_solver. Qed.

Lemma checked_add_None m a b : checked_add m a b = None <-> (m < a + b)%Z.
Proof. unfold checked_add. case_bool_decide; split; intros; (done || lia). Qed.

Lemma wrapping_sub_small m a b :
  in_range m a -> (0 <= b <= a)%Z -> wrapping_sub m a b = (a - b)%Z.
Proof. intros Ha Hb. unfold wrapping_sub. apply Z.mod_small. ints. Qed.

Lemma wrapping_add_small m a b :
  (0 <= a + b <= m)%Z -> wrapping_add m a b = (a + b)%Z.
Proof. intros H. unfold wrapping_add. apply Z.mod_small. lia. Qed.

Lemma as_uint_small m a : in_range m a -> as_uint m a = a.
Proof. intros H. unfold as_uint. apply Z.mod_small. ints. Qed.

(** * Errors

    [Result<T, E>] with the source's constructors and the [?] operator as the
    monadic bind. *)

Inductive result (E A : Type) : Type :=
| Ok (a : A)
| Err (e : E).
Arguments Ok {E A} a.
Arguments Err {E A} e.

#[export] Instance result_ret E : MRet (result E) := fun A a => Ok a.
#[export] Instance result_bind E : MBind (result E) :=
  fun A B f r => match r with Ok a => f a | Err e => Err e end.

Definition ok_or {E A} (e : E) (o : option A) : result E A :=
  match o with Some a => Ok a | None => Err e end.

Definition is_ok {E A} (r : result E A) : bool :=
  match r with Ok _ => true | Err _ => false end.

#[export] Instance result_eq_dec E A `{EqDecision E, EqDecision A} :
  EqDecision (result E A).
Proof. solve_decision. Defined.

Lemma result_bind_Ok {E A B} (r : result E A) (f : A -> result E B) b :
  (r ≫= f) = Ok b <-> exists a, r = Ok a /\ f a = Ok b.
Proof. destruct r; naive_solver. Qed.

Lemma ok_or_Ok {E A} (e : E) (o : option A) a : ok_or e o = Ok a <-> o = Some a.
Proof. destruct o; naive_solver. Qed.

(** * Record update

    [r <| field := v |>] is the assignment [r.field = v]. A record opts in with
    an instance of [Eta], its constructor applied to its own projections. *)

Class Eta (R : Type) := eta : R -> R.
Class Setter {R T : Type} (proj : R -> T) := setter : (T -> T) -> R -> R.

Ltac build_setter :=
  match goal with
  | |- @Setter ?R ?T ?proj =>
      exact (fun (f : T -> T) (r : R) =>
        ltac:(let e := constr:(@eta R _ r) in
              let b := eval cbv [eta] in e in
              let h := head b in
              let b' := eval unfold h in b in
              let b'' := eval cbv beta in b' in
              match eval pattern (proj r) in b'' with
              | ?g _ => let t := eval cbv beta in (g (f (proj r))) in exact t
              end))
  end
with head t := match t with ?f _ => head f | _ => t end.

#[export] Hint Extern 1 (Setter _) => build_setter : typeclass_instances.

Notation "r <| f := v |>" := (setter (proj := f) (fun _ => v) r)
  (at level 1, f at level 200, left associativity,
   format "r  <| f  :=  v |>").

(** * Hash maps

    A [HashMap] of the source is a [gmap]. Iterating one visits its entries in an
    order the source cannot rely on: [hash_order] is that order, and a model that
    iterates takes it as a class argument, so its theorems hold for every order. *)

Class HashOrder (K : Type) `{Countable K} := {
  hash_keys : forall {V : Type}, gmap K V -> list K;
  hash_keys_perm : forall {V : Type} (m : gmap K V),
    hash_keys m ≡ₚ (map_to_list m).*1
}.

(** The order of [map_to_list], the one the examples run with. *)
Definition canonical_order (K : Type) `{Countable K} : HashOrder K := {|
  hash_keys := fun V m => (map_to_list m).*1;
  hash_keys_perm := fun V m => reflexivity _
|}.

Section hash_order.
Context {K : Type} `{Countable K} `{!HashOrder K} {V : Type}.
Implicit Types m : gmap K V.

Lemma elem_of_hash_keys m k : k ∈ hash_keys m <-> is_Some (m !! k).
Proof.
  rewrite (hash_keys_perm m), list_elem_of_fmap. split.
  - intros ([k' v] & -> & Hin%elem_of_map_to_list). eauto.
  - intros [v Hv]. exists (k, v). split; [done|]. by apply elem_of_map_to_list.
Qed.

Lemma NoDup_hash_keys m : NoDup (hash_keys m).
Proof. rewrite (hash_keys_perm m). apply NoDup_fst_map_to_list. Qed.

(** The values of a map in iteration order. *)
Definition hash_values m : list V := omap (fun k => m !! k) (hash_keys m).

Lemma elem_of_hash_values m v : v ∈ hash_values m <-> exists k, m !! k = Some v.
Proof.
  unfold hash_values. rewrite list_elem_of_omap. split; [naive_solver|].
  intros [k Hk]. exists k. split; [|done]. rewrite elem_of_hash_keys. eauto.
Qed.
End hash_order.

(** * Sums over a map

    [map_sum f m] is the sum of [f v] over the values of [m]: the quantity a
    counter kept beside the map should be equal to. *)

Definition map_sum {K V} `{Countable K} (f : V -> Z) (m : gmap K V) : Z :=
  map_fold (fun _ v acc => (f v + acc)%Z) 0%Z m.

Section map_sum.
Context {K V : Type} `{Countable K} (f : V -> Z).
Implicit Types m : gmap K V.
Local Open Scope Z_scope.

Lemma map_sum_empty : map_sum f (∅ : gmap K V) = 0.
Proof. apply map_fold_empty. Qed.

Lemma map_sum_insert m k v :
  m !! k = None -> map_sum f (<[k:=v]> m) = f v + map_sum f m.
Proof.
  intros Hk. unfold map_sum. apply (map_fold_insert_L (fun _ v acc => f v + acc)); [|done].
  intros. lia.
Qed.

Lemma map_sum_delete m k v :
  m !! k = Some v -> map_sum f m = f v + map_sum f (delete k m).
Proof.
  intros Hk. rewrite <- (insert_delete_id m k v Hk) at 1.
  rewrite map_sum_insert; [done|]. apply lookup_delete_eq.
Qed.

Lemma map_sum_update m k v v' :
  m !! k = Some v -> map_sum f (<[k:=v']> m) = map_sum f m - f v + f v'.
Proof.
  intros Hk. rewrite (map_sum_delete m k v Hk), <- insert_delete_eq.
  rewrite map_sum_insert by apply lookup_delete_eq. lia.
Qed.

Lemma map_sum_nonneg m :
  (forall k v, m !! k = Some v -> 0 <= f v) -> 0 <= map_sum f m.
Proof.
  induction m as [|k v m Hk IH] using map_ind; intros Hnn.
  - rewrite map_sum_empty. lia.
  - rewrite map_sum_insert by done.
    assert (0 <= f v) by (apply (Hnn k); by simplify_map_eq).
    assert (0 <= map_sum f m); [|lia]. apply IH. intros k' v' Hk'.
    apply (Hnn k'). rewrite lookup_insert_ne; [done|]. congruence.
Qed.

Lemma map_sum_zero m :
  (forall k v, m !! k = Some v -> f v = 0) -> map_sum f m = 0.
Proof.
  induction m as [|k v m Hk IH] using map_ind; intros Hz.
  - apply map_sum_empty.
  - rewrite map_sum_insert by done. rewrite (Hz k v) by by simplify_map_eq.
    rewrite IH; [done|]. intros k' v' Hk'. apply (Hz k').
    rewrite lookup_insert_ne; [done|]. congruence.
Qed.

(** One entry's share is bounded by the sum. *)
Lemma map_sum_ge m k v :
  m !! k = Some v -> (forall k' v', m !! k' = Some v' -> 0 <= f v') ->
  f v <= map_sum f m.
Proof.
  intros Hk Hnn. rewrite (map_sum_delete m k v Hk).
  assert (0 <= map_sum f (delete k m)); [|lia].
  apply map_sum_nonneg. intros k' v' [_ Hk']%lookup_delete_Some. eauto.
Qed.
End map_sum.

Lemma map_sum_fmap {K A B} `{Countable K} (g : A -> B) (f : B -> Z) (m : gmap K A) :
  map_sum f (g <$> m) = map_sum (fun a => f (g a)) m.
Proof.
  induction m as [|k v m Hk IH] using map_ind.
  - by rewrite fmap_empty, !map_sum_empty.
  - rewrite fmap_insert, !map_sum_insert, IH; [done|done|]. by rewrite lookup_fmap, Hk.
Qed.

(** The same over a list. *)
Fixpoint list_sum {A} (f : A -> Z) (l : list A) : Z :=
  match l with [] => 0%Z | x :: l => (f x + list_sum f l)%Z end.

Lemma list_sum_app {A} (f : A -> Z) l1 l2 : list_sum f (l1 ++ l2) = (list_sum f l1 + list_sum f l2)%Z.
Proof. induction l1 as [|x l1 IH]; cbn; [done|]. rewrite IH. lia. Qed.

(** Removes the first occurrence of an element. *)
Fixpoint remove_one {A} `{EqDecision A} (x : A) (l : list A) : list A :=
  match l with
  | [] => []
  | y :: l => if decide (x = y) then l else y :: remove_one x l
  end.

Lemma remove_one_perm {A} `{EqDecision A} (x : A) l : x ∈ l -> l ≡ₚ x :: remove_one x l.
Proof.
  induction l as [|y l IH]; [by intros ?%not_elem_of_nil|]. cbn. case_decide as E; [by subst|].
  intros [->|Hin]%elem_of_cons; [done|]. rewrite (IH Hin) at 1. constructor.
Qed.

Lemma list_sum_perm {A} (f : A -> Z) l1 l2 : l1 ≡ₚ l2 -> list_sum f l1 = list_sum f l2.
Proof. induction 1; cbn; lia. Qed.

(** Sums are reasoned about through their lemmas only. *)
#[global] Opaque map_sum.
