(* ===== verification/Effects.v ===== *)
(** Calls that thread a state, may fail and may panic.

    [eff S E A] is a call on a state [S] that answers an [A] or an error [E], and leaves the
    state changed in either case; [None] is a panic. The source writes such calls as methods on
    [&mut self] (or on a state behind a lock) that return [Result]. With them come the rules
    to reason about a call by its steps. *)
From S2P Require Import Prelude.

Definition eff (S E A : Type) : Type := S -> option (S * result E A).

#[export] Instance eff_ret {S E} : MRet (eff S E) := fun A a s => Some (s, Ok a).
#[export] Instance eff_bind {S E} : MBind (eff S E) := fun A B f m s =>
  match m s with
  | None => None
  | Some (s, Err error) => Some (s, Err error)
  | Some (s, Ok a) => f a s
  end.

Definition e_lift {S E A} (r : result E A) : eff S E A := fun s => Some (s, r).
Definition e_may_panic {S E A} (r : option (result E A)) : eff S E A := fun s => (fun r => (s, r)) <$> r.
Definition e_get {S E} : eff S E S := fun s => Some (s, Ok s).
Definition e_modify {S E} (f : S -> S) : eff S E unit := fun s => Some (f s, Ok tt).
Definition e_panic {S E A} : eff S E A := fun _ => None.

(** [.map_err(f)] *)
Definition e_map_err {S E A} (f : E -> E) (m : eff S E A) : eff S E A := fun s =>
  match m s with
  | Some (s, Err error) => Some (s, Err (f error))
  | other => other
  end.

(** ** Successful calls, step by step *)

Section steps.
Context {S E : Type}.
Implicit Types s : S.

Lemma eff_bind_Ok {A B} (m : eff S E A) (f : A -> eff S E B) s s' b :
  (m ≫= f) s = Some (s', Ok b) <-> exists s1 a, m s = Some (s1, Ok a) /\ f a s1 = Some (s', Ok b).
Proof. unfold mbind, eff_bind. destruct (m s) as [[s1 [a|e]]|]; naive_solver. Qed.

Lemma e_lift_Ok {A} (r : result E A) s s' a : e_lift r s = Some (s', Ok a) <-> s' = s /\ r = Ok a.
Proof. unfold e_lift. naive_solver. Qed.

Lemma e_may_panic_Ok {A} (r : option (result E A)) s s' a :
  e_may_panic r s = Some (s', Ok a) <-> s' = s /\ r = Some (Ok a).
Proof. unfold e_may_panic. destruct r; cbn; naive_solver. Qed.

Lemma eff_ret_Ok {A} (x a : A) s s' : (mret x : eff S E A) s = Some (s', Ok a) <-> s' = s /\ x = a.
Proof. unfold mret, eff_ret. naive_solver. Qed.

Lemma e_map_err_Ok {A} f (m : eff S E A) s s' a : e_map_err f m s = Some (s', Ok a) <-> m s = Some (s', Ok a).
Proof. unfold e_map_err. destruct (m s) as [[s1 [x|e]]|]; naive_solver. Qed.

Lemma e_map_err_None {A} f (m : eff S E A) s : e_map_err f m s = None <-> m s = None.
Proof. unfold e_map_err. destruct (m s) as [[s1 [x|e]]|]; naive_solver. Qed.

(** A call of several steps panics in one of them. *)
Lemma eff_bind_None {A B} (m : eff S E A) (f : A -> eff S E B) s :
  (m ≫= f) s = None <-> m s = None \/ exists s1 a, m s = Some (s1, Ok a) /\ f a s1 = None.
Proof. unfold mbind, eff_bind. destruct (m s) as [[s1 [a|e]]|]; naive_solver. Qed.

Lemma e_may_panic_None {A} (r : option (result E A)) s : e_may_panic r s = None <-> r = None.
Proof. unfold e_may_panic. destruct r; naive_solver. Qed.

(** ** Invariants of calls

    [m] keeps [P], and its value, if it has one, satisfies [Q]. *)
Definition triple {A} (P : S -> Prop) (m : eff S E A) (Q : A -> Prop) : Prop :=
  forall s s' r, P s -> m s = Some (s', r) -> P s' /\ forall a, r = Ok a -> Q a.

Lemma triple_bind {A B} P (m : eff S E A) (f : A -> eff S E B) Q R :
  triple P m Q -> (forall a, Q a -> triple P (f a) R) -> triple P (m ≫= f) R.
Proof.
  intros Hm Hf s s' r Hp H. unfold mbind, eff_bind in H. destruct (m s) as [[s1 [a|e]]|] eqn:E1; [| |done].
  - destruct (Hm s s1 (Ok a) Hp E1) as [Hp1 Ha]. eapply Hf; eauto.
  - injection H as <- <-. destruct (Hm s s1 (Err e) Hp E1) as [Hp1 _]. split; [done|]. intros a [=].
Qed.

Lemma triple_lift {A} P (r : result E A) Q : (forall a, r = Ok a -> Q a) -> triple P (e_lift r) Q.
Proof. intros H s s' r' Hp [= <- <-]. done. Qed.

Lemma triple_lift_eq {A} P (r : result E A) : triple P (e_lift r) (fun a => r = Ok a).
Proof. by apply triple_lift. Qed.

Lemma triple_panic {A} P (r : option (result E A)) : triple P (e_may_panic r) (fun a => r = Some (Ok a)).
Proof. intros s s' r' Hp H. unfold e_may_panic in H. destruct r as [r|]; [|done]. injection H as <- <-. naive_solver. Qed.

Lemma triple_ret {A} P (a : A) (Q : A -> Prop) : Q a -> triple P (mret a) Q.
Proof. intros H s s' r Hp [= <- <-]. split; [done|]. by intros ? [= <-]. Qed.

Lemma triple_get P : triple P e_get P.
Proof. intros s s' r Hp [= <- <-]. split; [done|]. by intros ? [= <-]. Qed.

Lemma triple_modify (P : S -> Prop) f : (forall s, P s -> P (f s)) -> triple P (e_modify f) (fun _ => True).
Proof. intros H s s' r Hp [= <- <-]. split; [auto|done]. Qed.

Lemma triple_weaken {A} P (m : eff S E A) (Q Q' : A -> Prop) : triple P m Q -> (forall a, Q a -> Q' a) -> triple P m Q'.
Proof. intros H HQ s s' r Hp E1. destruct (H s s' r Hp E1). naive_solver. Qed.

Lemma triple_map_err {A} P f (m : eff S E A) Q : triple P m Q -> triple P (e_map_err f m) Q.
Proof.
  intros H s s' r Hp E1. unfold e_map_err in E1. destruct (m s) as [[s1 [x|e]]|] eqn:Em; [| |done]; injection E1 as <- <-;
    destruct (H s s1 _ Hp Em) as [Hp' HQ]; naive_solver.
Qed.
End steps.

(** ** Calls that never panic *)

Section total.
Context {S E : Type}.

Definition total {A} (m : eff S E A) : Prop := forall s, m s <> None.

Lemma total_bind {A B} (m : eff S E A) (f : A -> eff S E B) : total m -> (forall a, total (f a)) -> total (m ≫= f).
Proof. intros Hm Hf s H. apply eff_bind_None in H as [H|(s1 & a & _ & H)]; [by apply Hm in H|by apply Hf in H]. Qed.

Lemma total_lift {A} (r : result E A) : total (e_lift r).
Proof. by intros s. Qed.

Lemma total_ret {A} (a : A) : total (mret a).
Proof. by intros s. Qed.

Lemma total_get : total e_get.
Proof. by intros s. Qed.

Lemma total_modify f : total (e_modify f).
Proof. by intros s. Qed.

Lemma total_map_err {A} f (m : eff S E A) : total m -> total (e_map_err f m).
Proof. intros H s Hn. apply e_map_err_None in Hn. by apply H in Hn. Qed.
End total.

#[export] Hint Resolve total_bind total_lift total_ret total_get total_modify total_map_err : smb.

(** [run_ok] inverts a successful call in a hypothesis into the equations of its steps. *)
Ltac run_ok :=
  repeat match goal with
  | H : (_ ≫= _) _ = Some (_, Ok _) |- _ => apply eff_bind_Ok in H as (? & ? & ? & ?)
  | H : e_lift _ _ = Some (_, Ok _) |- _ => apply e_lift_Ok in H as [? H]
  | H : e_may_panic _ _ = Some (_, Ok _) |- _ => apply e_may_panic_Ok in H as [? H]
  | H : e_map_err _ _ _ = Some (_, Ok _) |- _ => apply e_map_err_Ok in H
  | H : mret _ _ = Some (_, Ok _) |- _ => apply eff_ret_Ok in H as [? ?]
  | H : e_get _ = Some (_, Ok _) |- _ => unfold e_get in H; injection H as ? ?
  | H : e_modify _ _ = Some (_, Ok _) |- _ => unfold e_modify in H; injection H as ? ?
  end; subst.
