(* ===== verification/Async.v ===== *)
(** Asynchronous calls.

    An [async] function of the source is a tree of calls: at each node it issues a call (a message to
    the server, an atomic load or store of memory it shares with other tasks, a lock, a sleep) and goes on
    with whatever it is answered. The answers come from the environment, so that what is proved of a
    call holds for every server and for every interleaving with other tasks. A future may be dropped
    wherever it awaits, so a run may also end with no value. The operations of a client are a type of
    calls with a type of answers for each. *)
From S2P Require Import Prelude.

Inductive async (C : Type) (ans : C -> Type) (A : Type) : Type :=
| a_ret (a : A)
| a_call (c : C) (k : ans c -> async C ans A).
Arguments a_ret {C ans A} a.
Arguments a_call {C ans A} c k.

Record event (C : Type) (ans : C -> Type) := Ev { ev_call : C; ev_answer : ans ev_call }.
Arguments Ev {C ans} ev_call ev_answer.
Arguments ev_call {C ans} e.
Arguments ev_answer {C ans} e.

Section async.
Context {C : Type} {ans : C -> Type}.

#[export] Instance async_ret : MRet (async C ans) := fun A a => a_ret a.

Fixpoint async_bind_def {A B} (f : A -> async C ans B) (p : async C ans A) : async C ans B :=
  match p with
  | a_ret a => f a
  | a_call c k => a_call c (fun r => async_bind_def f (k r))
  end.
#[export] Instance async_bind : MBind (async C ans) := @async_bind_def.

Definition then_bind {A B} (p : async C ans A) (f : A -> async C ans B) : async C ans B := p ≫= f.

(** A call and its answer. *)
Definition issue (c : C) : async C ans (ans c) := a_call c a_ret.

(** ** Runs

    [runs p events o]: [p] has issued the calls of [events] and was answered as they say, and has
    returned [o], or with [None] has not returned. *)
Fixpoint runs {A} (p : async C ans A) (events : list (event C ans)) (o : option A) : Prop :=
  (events = [] /\ o = None) \/
  match p with
  | a_ret a => events = [] /\ o = Some a
  | a_call c k => exists r events', events = Ev c r :: events' /\ runs (k r) events' o
  end.

Lemma runs_bind {A B} (p : async C ans A) (f : A -> async C ans B) events o :
  runs (p ≫= f) events o ->
  (runs p events None /\ o = None) \/
  exists events1 events2 a, events = events1 ++ events2 /\ runs p events1 (Some a) /\ runs (f a) events2 o.
Proof.
  unfold mbind, async_bind. revert events. induction p as [a|c k IH]; intros events; cbn.
  - intros H. right. exists [], events, a. cbn. auto.
  - intros [[-> ->]|(r & events' & -> & H)]; [by left; split; [left|]|].
    destruct (IH r events' H) as [[H1 ->]|(events1 & events2 & a & -> & H1 & H2)].
    + left. split; [|done]. right. eauto.
    + right. exists (Ev c r :: events1), events2, a. cbn. split; [done|]. split; [|done]. right. eauto.
Qed.

(** ** Disciplines

    What a call does is described by a state that its calls change: [allowed] says which calls it may issue,
    [possible] what the environment may answer, [next] how the state goes on. [follows s p Q]: from
    [s], [p] issues only calls that are allowed, and returns what [Q] says. *)
Section discipline.
Context {S : Type} (allowed : S -> C -> Prop) (possible : S -> forall c, ans c -> Prop) (next : S -> forall c, ans c -> S).

Fixpoint follows {A} (s : S) (p : async C ans A) (Q : S -> A -> Prop) : Prop :=
  match p with
  | a_ret a => Q s a
  | a_call c k => allowed s c /\ forall r, possible s c r -> follows (next s c r) (k r) Q
  end.

Lemma follows_weaken {A} (p : async C ans A) s (P Q : S -> A -> Prop) :
  follows s p P -> (forall s a, P s a -> Q s a) -> follows s p Q.
Proof.
  intros H HQ. revert s H. induction p as [a|c k IH]; cbn; intros s H; [by apply HQ|].
  destruct H as [Ha Hk]. split; [done|]. intros r Hr. by apply IH, Hk.
Qed.

Lemma follows_bind {A B} (p : async C ans A) (f : A -> async C ans B) s (P : S -> A -> Prop) Q :
  follows s p P -> (forall s a, P s a -> follows s (f a) Q) -> follows s (p ≫= f) Q.
Proof.
  intros H Hf. revert s H. unfold mbind, async_bind. induction p as [a|c k IH]; cbn; intros s H; [by apply Hf|].
  destruct H as [Ha Hk]. split; [done|]. intros r Hr. by apply IH, Hk.
Qed.

Lemma follows_then {A B} (p : async C ans A) (f : A -> async C ans B) s (P : S -> A -> Prop) Q :
  follows s p P -> (forall s a, P s a -> follows s (f a) Q) -> follows s (then_bind p f) Q.
Proof. apply follows_bind. Qed.

Lemma follows_try {E A B} (p : async C ans (result E A)) (f : A -> async C ans (result E B)) s P Q :
  follows s p P -> (forall s a, P s (Ok a) -> follows s (f a) Q) -> (forall s e, P s (Err e) -> Q s (Err e)) ->
  follows s (p ≫= fun r => match r with Ok a => f a | Err e => a_ret (Err e) end) Q.
Proof. intros Hp Hf He. apply (follows_bind _ _ _ _ _ Hp). intros s' [a|e] H; cbn; auto. Qed.

(** [keeps I p]: wherever [I] holds, [p] follows the discipline and [I] holds when it returns. *)
Definition keeps {A} (I : S -> Prop) (p : async C ans A) : Prop := forall s, I s -> follows s p (fun s _ => I s).

Lemma keeps_ret {A} I (a : A) : keeps I (a_ret a).
Proof. by intros s H. Qed.

Lemma keeps_issue I c : (forall s, I s -> allowed s c /\ forall r, possible s c r -> I (next s c r)) -> keeps I (issue c).
Proof. intros H s Hs. destruct (H s Hs). by split. Qed.

Lemma keeps_then {A B} I (p : async C ans A) (f : A -> async C ans B) :
  keeps I p -> (forall a, keeps I (f a)) -> keeps I (then_bind p f).
Proof. intros Hp Hf s Hs. apply (follows_then _ _ _ _ _ (Hp s Hs)). intros s' a Hs'. by apply Hf. Qed.

Lemma keeps_try {E A B} I (p : async C ans (result E A)) (f : A -> async C ans (result E B)) :
  keeps I p -> (forall a, keeps I (f a)) -> keeps I (p ≫= fun r => match r with Ok a => f a | Err e => a_ret (Err e) end).
Proof. intros Hp Hf s Hs. apply (follows_try _ _ _ _ _ (Hp s Hs)); [|done]. intros s' a Hs'. by apply Hf. Qed.

(** Every event of a run was allowed where it was issued, and a value was returned as [Q] says. *)
Fixpoint after (s : S) (events : list (event C ans)) : S :=
  match events with
  | [] => s
  | e :: events => after (next s (ev_call e) (ev_answer e)) events
  end.

Fixpoint possible_all (s : S) (events : list (event C ans)) : Prop :=
  match events with
  | [] => True
  | e :: events => possible s (ev_call e) (ev_answer e) /\ possible_all (next s (ev_call e) (ev_answer e)) events
  end.

Lemma after_app s events1 events2 : after s (events1 ++ events2) = after (after s events1) events2.
Proof. revert s. induction events1 as [|e events1 IH]; intros s; cbn; [done|]. apply IH. Qed.

Lemma follows_allowed {A} (p : async C ans A) s Q events o events1 e events2 :
  follows s p Q -> runs p events o -> possible_all s events -> events = events1 ++ e :: events2 ->
  allowed (after s events1) (ev_call e).
Proof.
  revert s events events1. induction p as [a|c k IH]; cbn; intros s events events1 H Hr Hp ->.
  - destruct Hr as [[Hr _]|[Hr _]]; by destruct events1.
  - destruct Hr as [[Hr _]|(r & events' & Hr & Hk)]; [by destruct events1|]. destruct H as [Ha H].
    destruct events1 as [|e1 events1]; cbn in *; injection Hr as -> <-; [done|].
    destruct Hp as [Hp1 Hp2]. eapply (IH r); [by apply H|exact Hk|exact Hp2|done].
Qed.

Lemma follows_returns {A} (p : async C ans A) s Q events a :
  follows s p Q -> runs p events (Some a) -> possible_all s events -> Q (after s events) a.
Proof.
  revert s events. induction p as [x|c k IH]; cbn; intros s events H Hr Hp.
  - by destruct Hr as [[_ [=]]|[-> [= ->]]].
  - destruct Hr as [[_ [=]]|(r & events' & -> & Hk)]. destruct H as [_ H]. destruct Hp as [Hp1 Hp2].
    cbn in *. exact (IH r _ _ (H r Hp1) Hk Hp2).
Qed.

End discipline.

(** ** Calls that fail *)

Section fallible.
Context {E : Type}.

(** The [?] operator after a call. *)
Definition try_bind {A B} (p : async C ans (result E A)) (f : A -> async C ans (result E B)) : async C ans (result E B) :=
  p ≫= fun r => match r with Ok a => f a | Err e => a_ret (Err e) end.

Definition a_lift {A} (r : result E A) : async C ans (result E A) := a_ret r.

End fallible.

(** What a run that returns has done before. *)
Lemma runs_then_Some {A B} (p : async C ans A) (f : A -> async C ans B) events b :
  runs (then_bind p f) events (Some b) ->
  exists events1 events2 a, events = events1 ++ events2 /\ runs p events1 (Some a) /\ runs (f a) events2 (Some b).
Proof. intros H. by destruct (runs_bind _ _ _ _ H) as [[_ [=]]|H']. Qed.

Lemma runs_try_Ok {E A B} (p : async C ans (result E A)) (f : A -> async C ans (result E B)) events b :
  runs (try_bind p f) events (Some (Ok b)) ->
  exists events1 events2 a, events = events1 ++ events2 /\ runs p events1 (Some (Ok a)) /\ runs (f a) events2 (Some (Ok b)).
Proof.
  intros H. destruct (runs_bind _ _ _ _ H) as [[_ [=]]|(events1 & events2 & [a|e] & -> & H1 & H2)]; [by eauto 7|].
  cbn in H2. by destruct H2 as [[_ [=]]|[_ [=]]].
Qed.

Lemma runs_issue_Some c events (r : ans c) : runs (issue c) events (Some r) -> events = [Ev c r].
Proof.
  cbn. intros [[_ [=]]|(r' & events' & -> & H)]. by destruct H as [[_ [=]]|[-> [= ->]]].
Qed.

Lemma runs_ret_Some {A} (a b : A) events : runs (a_ret a) events (Some b) -> events = [] /\ a = b.
Proof. cbn. intros [[_ [=]]|[-> [= ->]]]. done. Qed.

(** ** Environments that answer the same call the same way *)

Section environment.
Context (environment : forall c, ans c).

Fixpoint play {A} (p : async C ans A) : list (event C ans) * A :=
  match p with
  | a_ret a => ([], a)
  | a_call c k => let '(events, a) := play (k (environment c)) in (Ev c (environment c) :: events, a)
  end.

Lemma play_runs {A} (p : async C ans A) events a : play p = (events, a) -> runs p events (Some a).
Proof.
  revert events a. induction p as [x|c k IH]; cbn; intros events a; [intros [= <- <-]; by right|].
  destruct (play (k (environment c))) as [events' a'] eqn:E. intros [= <- <-]. right. eauto.
Qed.

End environment.

(** ** Deadlines

    [run_bounded_attempt]: the attempt is dropped when its deadline passes while it awaits a call. The
    raced call is then answered [None], and nothing is known of what it did. *)
Context (awaits : C -> bool) (race : C -> C) (raced : forall c, ans (race c) -> option (ans c)).

Fixpoint bounded {A} (p : async C ans A) : async C ans (option A) :=
  match p with
  | a_ret a => a_ret (Some a)
  | a_call c k =>
      if awaits c then
        a_call (race c) (fun r => match raced c r with None => a_ret None | Some r => bounded (k r) end)
      else a_call c (fun r => bounded (k r))
  end.

Lemma follows_allow {S A} (allowed allowed' : S -> C -> Prop) (possible : S -> forall c, ans c -> Prop)
    (next : S -> forall c, ans c -> S) (p : async C ans A) s Q :
  (forall s c, allowed s c -> allowed' s c) ->
  follows allowed possible next s p Q -> follows allowed' possible next s p Q.
Proof.
  intros H. revert s. induction p as [a|c k IH]; cbn; intros s; [done|]. intros [Hc Hk]. split; [auto|].
  intros r Hr. by apply IH, Hk.
Qed.

(** [I] holds wherever the future can be dropped. *)
Definition stable {S} (I : S -> Prop) (allowed : S -> C -> Prop) (s : S) (c : C) : Prop :=
  allowed s c /\ (awaits c = true -> I s).

Section race.
Context {S : Type} (allowed : S -> C -> Prop) (possible : S -> forall c, ans c -> Prop) (next : S -> forall c, ans c -> S).
Hypothesis race_allowed : forall s c, awaits c = true -> allowed s c -> allowed s (race c).
Hypothesis race_answered : forall s c r x, raced c r = Some x -> possible s (race c) r ->
  possible s c x /\ next s (race c) r = next s c x.
(** A bounded attempt follows the discipline of the attempt; when it is dropped nothing but [I] is known. *)
Lemma follows_bounded {A} (p : async C ans A) I s (P : S -> A -> Prop) (Q : S -> option A -> Prop) :
  (forall s a, P s a -> Q s (Some a)) ->
  (forall s c r, I s -> allowed s c -> raced c r = None -> Q (next s (race c) r) None) ->
  follows (stable I allowed) possible next s p P -> follows (stable I allowed) possible next s (bounded p) Q.
Proof.
  intros HP HI. revert s. induction p as [a|c k IH]; cbn; intros s H; [by apply HP|]. destruct H as [[Hc Hi] Hk].
  destruct (awaits c) eqn:E; cbn.
  - split; [split; auto|]. intros r Hr. destruct (raced c r) as [x|] eqn:Er; cbn; [|by apply HI; auto].
    destruct (race_answered _ _ _ _ Er Hr) as [Hx ->]. by apply IH, Hk.
  - split; [by split; rewrite ?E|]. intros r Hr. by apply IH, Hk.
Qed.

Lemma keeps_bounded {A} (I : S -> Prop) (p : async C ans A) :
  (forall s c r, I s -> allowed s c -> raced c r = None -> I (next s (race c) r)) ->
  keeps (stable I allowed) possible next I p -> keeps (stable I allowed) possible next I (bounded p).
Proof. intros Hl Hp s Hs. by apply (follows_bounded _ _ _ (fun s _ => I s)), Hp. Qed.

End race.

End async.

Declare Scope async_scope.
Delimit Scope async_scope with async.
(** [let x = p?;] *)
Notation "x <-? p ; q" := (try_bind p (fun x => q))
  (at level 100, p at next level, q at level 200, right associativity) : async_scope.
(** [let x = p;] *)
Notation "x <-- p ; q" := (then_bind p (fun x => q))
  (at level 100, p at next level, q at level 200, right associativity) : async_scope.
