(* ===== verification/Clock.v ===== *)
(** The monotonic clock's arithmetic (crates/smb/src/clock.rs).

    A [Duration] of the standard library is its number of nanoseconds, at most
    [duration_max]; a [MonotonicTime] is a [u64] number of nanoseconds. *)
From S2P Require Import Prelude.
Local Open Scope Z_scope.

(** [Duration::MAX]: [u64::MAX] seconds and 999999999 nanoseconds. *)
Definition duration_max : Z := u64_max * 1000000000 + 999999999.

Abbreviation Duration := Z.
Abbreviation MonotonicTime := Z.

Definition time_zero : MonotonicTime := 0.

Definition duration_ok (d : Duration) : Prop := in_range duration_max d.
Definition time_ok (t : MonotonicTime) : Prop := in_range u64_max t.

(** [u64::try_from(duration.as_nanos()).unwrap_or(u64::MAX)] *)
Definition duration_nanos_u64 (d : Duration) : Z :=
  if bool_decide (d <= u64_max) then d else u64_max.

(** [MonotonicTime::saturating_add] *)
Definition time_add (t : MonotonicTime) (d : Duration) : MonotonicTime :=
  saturating_add u64_max t (duration_nanos_u64 d).

(** [Duration::saturating_mul(u32)] and [Duration::min] of the standard library. *)
Definition duration_saturating_mul (d : Duration) (k : Z) : Duration :=
  if bool_decide (d * k <= duration_max) then d * k else duration_max.

Lemma time_add_eq t d :
  in_range u64_max t -> 0 <= d -> time_add t d = Z.min (t + d) u64_max.
Proof.
  intros Ht Hd. unfold time_add, duration_nanos_u64. case_bool_decide; ints.
Qed.

Lemma time_add_ok t d : time_ok t -> 0 <= d -> time_ok (time_add t d).
Proof. intros Ht Hd. unfold time_ok. rewrite time_add_eq by done. unfold time_ok in *. ints. Qed.

Lemma time_add_le t d : time_ok t -> 0 <= d -> t <= time_add t d.
Proof. intros Ht Hd. rewrite time_add_eq by done. unfold time_ok in *. ints. Qed.

Lemma time_add_mono t t' d :
  time_ok t -> time_ok t' -> 0 <= d -> t <= t' -> time_add t d <= time_add t' d.
Proof. intros ????. rewrite !time_add_eq by done. lia. Qed.

#[export] Hint Resolve time_add_ok time_add_le : smb.
