(* ===== verification/Reducer.v ===== *)
(** One request's lifecycle (crates/smb/src/runtime/reducer.rs).

    [RequestRecord] keeps four orthogonal facts about a request: what its caller
    was told, how much of it was sent, what the server answered, and whether the
    record is only a tombstone for a response that may still come. [rr_reduce] is
    [RequestRecord::reduce], an update of the record and an effect. *)
From S2P Require Import Prelude.
Local Open Scope Z_scope.

(** ** Data *)

(** error.rs: the portable network failures. *)
Inductive NetworkFailure :=
| NF_ConnectionLost | NF_TimedOut | NF_SessionInvalidated.

(** A newtype over [u64]. *)
Abbreviation GenerationId := Z.

Definition generation_checked_next (g : GenerationId) : option GenerationId :=
  checked_add u64_max g 1.

Record RequestKey := mkKey { rk_generation : GenerationId; rk_message_id : Z }.

Inductive SendProgress :=
| SP_NotQueued | SP_Queued | SP_Partial (bytes : Z) | SP_Complete.

Definition sp_committed (p : SendProgress) : bool :=
  match p with SP_Partial _ | SP_Complete => true | _ => false end.

Inductive ResponseProgress :=
| RP_None | RP_AsyncPending (async_id : Z) | RP_Final.

Inductive TerminalOutcome :=
| TO_Response | TO_SessionInvalidated | TO_Cancelled | TO_TimedOut
| TO_OutcomeUnknown | TO_NetworkOutcomeUnknown (f : NetworkFailure)
| TO_PreparationFailed | TO_GenerationLost | TO_GenerationClosed.

Inductive CallerOutcome := CO_Open | CO_Terminal (o : TerminalOutcome).

Inductive RequestEvent :=
| RE_Queued
| RE_WriteProgress (bytes : Z)
| RE_WriteComplete
| RE_AsyncPending (key : RequestKey) (async_id : Z)
| RE_FinalResponse (key : RequestKey)
| RE_RecoveryHint (key : RequestKey)
| RE_Cancel
| RE_Deadline
| RE_Disconnect (network : option NetworkFailure).

Inductive ReduceEffect :=
| Eff_None | Eff_Publish (o : TerminalOutcome) | Eff_BookkeepingOnly
| Eff_IgnoredForeignGeneration.

Record RequestRecord := mkRecord {
  rr_key : RequestKey;
  rr_caller : CallerOutcome;
  rr_send : SendProgress;
  rr_response : ResponseProgress;
  rr_tombstone : bool
}.

#[export] Instance eta_RequestRecord : Eta RequestRecord := fun r =>
  mkRecord (rr_key r) (rr_caller r) (rr_send r) (rr_response r) (rr_tombstone r).

#[export] Instance NetworkFailure_eq : EqDecision NetworkFailure.
Proof. solve_decision. Defined.
#[export] Instance RequestKey_eq : EqDecision RequestKey.
Proof. solve_decision. Defined.
#[export] Instance RequestKey_countable : Countable RequestKey.
Proof.
  apply (inj_countable' (fun k => (rk_generation k, rk_message_id k))
                        (fun p => mkKey p.1 p.2)). by intros [].
Defined.
#[export] Instance SendProgress_eq : EqDecision SendProgress.
Proof. solve_decision. Defined.
#[export] Instance ResponseProgress_eq : EqDecision ResponseProgress.
Proof. solve_decision. Defined.
#[export] Instance TerminalOutcome_eq : EqDecision TerminalOutcome.
Proof. solve_decision. Defined.
#[export] Instance CallerOutcome_eq : EqDecision CallerOutcome.
Proof. solve_decision. Defined.
#[export] Instance ReduceEffect_eq : EqDecision ReduceEffect.
Proof. solve_decision. Defined.

(** ** Operations *)

Definition rr_new (key : RequestKey) : RequestRecord :=
  mkRecord key CO_Open SP_NotQueued RP_None false.

Definition rr_caller_is_open (r : RequestRecord) : bool :=
  match rr_caller r with CO_Open => true | _ => false end.

Definition rr_wire_committed (r : RequestRecord) : bool := sp_committed (rr_send r).

Definition rr_observe_response_commitment (r : RequestRecord) : RequestRecord :=
  if sp_committed (rr_send r) then r else r <| rr_send := SP_Complete |>.

Definition rr_publish_once (r : RequestRecord) (o : TerminalOutcome)
    : RequestRecord * ReduceEffect :=
  if bool_decide (rr_caller r = CO_Open)
  then (r <| rr_caller := CO_Terminal o |>, Eff_Publish o)
  else (r, Eff_BookkeepingOnly).

Definition rr_publish_terminal := rr_publish_once.

Definition rr_finish_without_response (r : RequestRecord) (uncommitted : TerminalOutcome)
    : RequestRecord * ReduceEffect :=
  if sp_committed (rr_send r) then
    let r := r <| rr_tombstone := bool_decide (rr_response r ≠ RP_Final) |> in
    rr_publish_once r
      (if bool_decide (uncommitted = TO_TimedOut)
       then TO_NetworkOutcomeUnknown NF_TimedOut else TO_OutcomeUnknown)
  else rr_publish_once r uncommitted.

(** The outcome [RequestEvent::Disconnect] publishes. *)
Definition disconnect_outcome (committed : bool) (network : option NetworkFailure)
    : TerminalOutcome :=
  if committed then
    match network with
    | None => TO_OutcomeUnknown
    | Some f => TO_NetworkOutcomeUnknown f
    end
  else
    match network with
    | Some NF_ConnectionLost => TO_GenerationLost
    | Some NF_TimedOut => TO_TimedOut
    | Some NF_SessionInvalidated => TO_SessionInvalidated
    | None => TO_GenerationClosed
    end.

Definition rr_reduce (r : RequestRecord) (event : RequestEvent)
    : RequestRecord * ReduceEffect :=
  match event with
  | RE_Queued =>
      (if bool_decide (rr_send r = SP_NotQueued) then r <| rr_send := SP_Queued |> else r,
       Eff_None)
  | RE_WriteProgress bytes =>
      (if bool_decide (bytes > 0) && negb (bool_decide (rr_send r = SP_Complete)) then
         let previous := match rr_send r with SP_Partial b => b | _ => 0 end in
         r <| rr_send := SP_Partial (saturating_add usize_max previous bytes) |>
       else r,
       Eff_None)
  | RE_WriteComplete => (r <| rr_send := SP_Complete |>, Eff_None)
  | RE_AsyncPending key async_id =>
      if bool_decide (rk_generation key ≠ rk_generation (rr_key r))
      then (r, Eff_IgnoredForeignGeneration)
      else if bool_decide (key ≠ rr_key r) || bool_decide (rr_response r = RP_Final)
      then (r, Eff_BookkeepingOnly)
      else (r <| rr_response := RP_AsyncPending async_id |>, Eff_BookkeepingOnly)
  | RE_FinalResponse key =>
      if bool_decide (rk_generation key ≠ rk_generation (rr_key r))
      then (r, Eff_IgnoredForeignGeneration)
      else if bool_decide (key ≠ rr_key r) then (r, Eff_BookkeepingOnly)
      else rr_publish_once
             (r <| rr_response := RP_Final |> <| rr_tombstone := false |>) TO_Response
  | RE_RecoveryHint key =>
      if bool_decide (rk_generation key ≠ rk_generation (rr_key r))
      then (r, Eff_IgnoredForeignGeneration)
      else if bool_decide (key ≠ rr_key r) then (r, Eff_BookkeepingOnly)
      else rr_publish_once (r <| rr_tombstone := false |>) TO_SessionInvalidated
  | RE_Cancel => rr_finish_without_response r TO_Cancelled
  | RE_Deadline => rr_finish_without_response r TO_TimedOut
  | RE_Disconnect network =>
      let r := r <| rr_tombstone := false |> in
      rr_publish_once r (disconnect_outcome (sp_committed (rr_send r)) network)
  end.

(** ** Lemmas on one step *)

(** [reduce_cases] splits an [rr_reduce] on every test it makes. *)
Ltac reduce_cases :=
  unfold rr_reduce, rr_finish_without_response, rr_publish_terminal, rr_publish_once,
    rr_observe_response_commitment in *; cbn in *;
  repeat (case_match; cbn in *; simplify_eq);
  repeat match goal with
  | H : _ || _ = false |- _ => apply orb_false_iff in H as [??]
  | H : bool_decide _ = true |- _ => apply bool_decide_eq_true in H
  | H : bool_decide _ = false |- _ => apply bool_decide_eq_false in H
  | H : _ && _ = true |- _ => apply andb_true_iff in H as [??]
  | H : negb _ = true |- _ => apply negb_true_iff in H
  end; cbn in *; simplify_eq.

Lemma rr_reduce_key r e : rr_key (rr_reduce r e).1 = rr_key r.
Proof. destruct e; reduce_cases; done. Qed.

(** The caller's outcome changes only by a publication, and only once. *)
Lemma rr_reduce_caller r e :
  match (rr_reduce r e).2 with
  | Eff_Publish o => rr_caller r = CO_Open /\ rr_caller (rr_reduce r e).1 = CO_Terminal o
  | _ => rr_caller (rr_reduce r e).1 = rr_caller r
  end.
Proof. destruct e; reduce_cases; done. Qed.

Lemma rr_reduce_committed r e :
  rr_wire_committed r = true -> rr_wire_committed (rr_reduce r e).1 = true.
Proof.
  unfold rr_wire_committed. destruct r as [key caller send response tomb]. intros H.
  destruct e, send; reduce_cases; done.
Qed.

Lemma rr_reduce_commit_source r e :
  rr_wire_committed (rr_reduce r e).1 = true ->
  rr_wire_committed r = true \/
  e = RE_WriteComplete \/ exists b, e = RE_WriteProgress b /\ b > 0.
Proof.
  unfold rr_wire_committed. destruct r as [key caller send response tomb]. intros H.
  destruct e, send; reduce_cases; eauto 6.
Qed.

Lemma rr_reduce_terminal_event r e :
  match e with RE_FinalResponse k | RE_RecoveryHint k => k = rr_key r
             | RE_Cancel | RE_Deadline | RE_Disconnect _ => True | _ => False end ->
  rr_caller (rr_reduce r e).1 <> CO_Open.
Proof. intros H. destruct e; try done; reduce_cases; congruence. Qed.

(** A tombstone is a committed request whose caller was answered and whose final
    response is still due. *)
Definition rr_wf (r : RequestRecord) : Prop :=
  rr_tombstone r = true ->
  rr_wire_committed r = true /\ rr_response r <> RP_Final /\ rr_caller r <> CO_Open.

Lemma rr_wf_new key : rr_wf (rr_new key).
Proof. done. Qed.

Lemma rr_wf_reduce r e : rr_wf r -> rr_wf (rr_reduce r e).1.
Proof.
  unfold rr_wf, rr_wire_committed. destruct r as [key caller send response tomb]. cbn.
  intros Hwf. destruct e, send; reduce_cases;
    intros Ht; try (apply bool_decide_eq_true in Ht); intuition congruence.
Qed.

Lemma rr_wf_publish r o : rr_wf r -> rr_wf (rr_publish_terminal r o).1.
Proof. unfold rr_wf, rr_wire_committed. intros Hwf. reduce_cases; intuition congruence. Qed.

Lemma rr_wf_observe r : rr_wf r -> rr_wf (rr_observe_response_commitment r).
Proof.
  unfold rr_wf, rr_wire_committed, rr_observe_response_commitment. intros Hwf.
  case_match; cbn; intuition congruence.
Qed.

#[export] Hint Resolve rr_wf_new rr_wf_reduce rr_wf_publish rr_wf_observe : smb.

(** The only event that makes a response final is the request's own final response. *)
Lemma rr_reduce_response_final r e :
  rr_response (rr_reduce r e).1 = RP_Final ->
  rr_response r = RP_Final \/ e = RE_FinalResponse (rr_key r).
Proof.
  destruct r as [key caller send response tomb]. cbn. intros H.
  destruct e, send; reduce_cases; auto; right; f_equal;
    match goal with H : ¬ (_ ≠ _) |- _ => by apply dec_stable in H end.
Qed.

(** ** Runs *)

Fixpoint rr_run (r : RequestRecord) (events : list RequestEvent)
    : RequestRecord * list ReduceEffect :=
  match events with
  | [] => (r, [])
  | e :: events =>
      let '(r, eff) := rr_reduce r e in
      let '(r, effs) := rr_run r events in
      (r, eff :: effs)
  end.

(** The outcomes a list of effects published, in order. *)
Definition publications (effs : list ReduceEffect) : list TerminalOutcome :=
  omap (fun eff => match eff with Eff_Publish o => Some o | _ => None end) effs.

Lemma rr_run_caller_terminal r events o :
  rr_caller r = CO_Terminal o -> rr_caller (rr_run r events).1 = CO_Terminal o.
Proof.
  revert r. induction events as [|e events IH]; intros r Hr; cbn; [done|].
  pose proof (rr_reduce_caller r e) as Hc. specialize (IH (rr_reduce r e).1).
  destruct (rr_reduce r e) as [r' eff]. cbn in *.
  destruct (rr_run r' events) as [r'' effs]. cbn in *.
  apply IH. destruct eff; naive_solver congruence.
Qed.

Lemma rr_run_publications r events :
  publications (rr_run r events).2 =
  match rr_caller r, rr_caller (rr_run r events).1 with
  | CO_Open, CO_Terminal o => [o]
  | _, _ => []
  end.
Proof.
  revert r. induction events as [|e events IH]; intros r; cbn.
  - by destruct (rr_caller r).
  - pose proof (rr_reduce_caller r e) as Hc. specialize (IH (rr_reduce r e).1).
    destruct (rr_reduce r e) as [r' eff]. cbn in *.
    pose proof (rr_run_caller_terminal r' events) as Ht.
    destruct (rr_run r' events) as [r'' effs]. cbn in *.
    unfold publications in *. destruct eff; cbn; rewrite IH.
    2: { destruct Hc as [-> Hc]. by rewrite (Ht _ Hc), Hc. }
    all: by rewrite Hc.
Qed.

(** An event that puts at least one byte of the request on the wire. *)
Definition sends_bytes (e : RequestEvent) : bool :=
  match e with
  | RE_WriteComplete => true
  | RE_WriteProgress b => bool_decide (b > 0)
  | _ => false
  end.

Lemma rr_reduce_commit_iff r e :
  rr_wire_committed (rr_reduce r e).1 = rr_wire_committed r || sends_bytes e.
Proof.
  unfold rr_wire_committed, sends_bytes.
  destruct r as [key caller send response tomb]. cbn.
  destruct e, send; reduce_cases; repeat case_bool_decide; cbn in *; congruence.
Qed.

Lemma rr_run_committed r events :
  rr_wire_committed (rr_run r events).1 = rr_wire_committed r || existsb sends_bytes events.
Proof.
  revert r. induction events as [|e events IH]; intros r; cbn.
  - by rewrite orb_false_r.
  - specialize (IH (rr_reduce r e).1). rewrite rr_reduce_commit_iff in IH.
    destruct (rr_reduce r e) as [r' eff]. cbn in *.
    destruct (rr_run r' events) as [r'' effs]. cbn in *.
    by rewrite IH, orb_assoc.
Qed.

(** ** Properties *)

(** C4: whatever the order and number of the events, the outcomes published for a
    request are exactly the outcome its caller holds at the end: none while it is
    open, one afterwards, never a second one. *)
Theorem publishes_exactly_once key events :
  let '(r, effs) := rr_run (rr_new key) events in
  publications effs = match rr_caller r with CO_Open => [] | CO_Terminal o => [o] end.
Proof.
  pose proof (rr_run_publications (rr_new key) events) as H. cbn in H.
  destruct (rr_run (rr_new key) events). cbn in *. by destruct (rr_caller _).
Qed.

(** The outcomes that tell the caller its request had no effect. *)
Definition asserts_unsent (o : TerminalOutcome) : bool :=
  match o with
  | TO_Cancelled | TO_TimedOut | TO_GenerationLost | TO_GenerationClosed => true
  | _ => false
  end.

Definition asserts_unknown (o : TerminalOutcome) : bool :=
  match o with TO_OutcomeUnknown | TO_NetworkOutcomeUnknown _ => true | _ => false end.

Lemma rr_reduce_definite r e o :
  (rr_reduce r e).2 = Eff_Publish o ->
  match e with RE_Cancel | RE_Deadline | RE_Disconnect _ => True | _ => False end ->
  if rr_wire_committed r then asserts_unknown o = true
  else asserts_unsent o = true \/ o = TO_SessionInvalidated.
Proof.
  unfold rr_wire_committed. intros H He. destruct e; try done; reduce_cases; eauto.
  all: destruct network as [[]|]; cbn; eauto.
Qed.

Lemma rr_reduce_asserts_unsent r e o :
  (rr_reduce r e).2 = Eff_Publish o -> asserts_unsent o = true ->
  match e with RE_Cancel | RE_Deadline | RE_Disconnect _ => True | _ => False end.
Proof. intros H Ho. destruct e; try done; reduce_cases; done. Qed.

(** a cancelled, timed out or disconnected request reports an outcome that
    denies any effect exactly when no byte of it was ever written; once a byte is
    on the wire the outcome is reported as unknown (a server-side session
    invalidation apart, which makes no such claim). *)
Lemma definite_outcome_iff_unsent key events e o :
  (rr_reduce (rr_run (rr_new key) events).1 e).2 = Eff_Publish o ->
  (asserts_unsent o = true -> existsb sends_bytes events = false) /\
  (existsb sends_bytes events = true ->
   (e = RE_Cancel \/ e = RE_Deadline \/ exists n, e = RE_Disconnect n) ->
   asserts_unknown o = true).
Proof.
  intros H. pose proof (rr_run_committed (rr_new key) events) as Hc. cbn in Hc.
  split.
  - intros Ho. pose proof (rr_reduce_definite _ _ _ H (rr_reduce_asserts_unsent _ _ _ H Ho)) as Hd.
    rewrite <- Hc. case_match; [by destruct o|done].
  - intros Hs He. rewrite Hs in Hc. pose proof (rr_reduce_definite _ _ _ H) as Hd.
    rewrite Hc in Hd. apply Hd. naive_solver.
Qed.

