(* ===== verification/GenState.v ===== *)
(** The request authority of one connection generation
    (crates/smb/src/runtime/state.rs): its data and its operations.

    [GenerationState] is the single owner of a generation's requests: admission,
    credits, message identities, async identities and deadlines. [gs_reduce] is
    [GenerationState::reduce]; every handler is a function from the state to the
    new state and the effects it returns. *)
From S2P Require Import Prelude Clock Reducer.
Local Open Scope Z_scope.

(** ** Data *)

Record AdmissionLimits := mkLimits { max_operations : Z; max_payload_bytes : Z }.

Inductive AdmissionError :=
| AE_OperationsExhausted
| AE_PayloadBytesExhausted
| AE_CreditsExhausted (available : Z) (requested : Z)
| AE_MessageIdExhausted
| AE_InvalidCreditCharge.

Record PreparationPlan := mkPlan {
  pp_key : RequestKey;
  pp_payload_bytes : Z;
  pp_credit_charge : Z;
  pp_credit_request : Z;
  pp_caller_deadline : option MonotonicTime
}.

Inductive ResponseEvent := RV_Pending (async_id : Z) | RV_Final.

Inductive RequestProgress :=
| PG_Queued | PG_WriteProgress (bytes : Z) | PG_WriteComplete.

Inductive DeadlineKind := DK_Caller | DK_Tombstone.

Record DeadlineEntry := mkEntry {
  de_at : MonotonicTime;
  de_sequence : Z;
  de_key : RequestKey;
  de_kind : DeadlineKind;
  de_version : Z
}.

Inductive OwnerEvent :=
| OE_Admit (payload_bytes : Z) (credit_charge : Z) (caller_deadline : option MonotonicTime)
| OE_Request (key : RequestKey) (event : RequestProgress)
| OE_PrepareFailed (key : RequestKey)
| OE_Cancel (key : RequestKey) (now : MonotonicTime)
| OE_Response (key : RequestKey) (event : ResponseEvent) (credit_grant : Z)
| OE_RecoveryHint (key : RequestKey)
| OE_AdvanceTime (now : MonotonicTime)
| OE_Disconnect (network : option NetworkFailure).

Inductive OwnerEffect :=
| OF_Admitted (plan : PreparationPlan)
| OF_AdmissionRejected (error : AdmissionError)
| OF_Request (key : RequestKey) (effect : ReduceEffect)
| OF_ReservationRolledBack (key : RequestKey)
| OF_CreditGrantApplied (key : RequestKey) (grant : Z) (available : Z)
| OF_DuplicateResponse (key : RequestKey)
| OF_CancelControlQueued (key : RequestKey)
| OF_DuplicateCancel (key : RequestKey)
| OF_BestEffortWireCancel (key : RequestKey)
| OF_StaleDeadlineIgnored (key : RequestKey)
| OF_GenerationUnhealthy (key : RequestKey)
| OF_AsyncIdConflict (async_id : Z) (existing incoming : RequestKey)
| OF_AsyncIdChanged (key : RequestKey) (existing incoming : Z)
| OF_CreditLedgerOverflow (key : RequestKey) (available : Z) (grant : Z)
| OF_UnknownRequest (key : RequestKey).

Record OwnedRequest := mkOwned {
  or_lifecycle : RequestRecord;
  or_payload_bytes : Z;
  or_credit_charge : Z;
  or_requested_extra_credits : Z;
  or_credit_response_seen : bool;
  or_admission_held : bool;
  or_payload_held : bool;
  or_credit_obligation : bool;
  or_cancel_seen : bool;
  or_deadline_version : Z
}.

#[export] Instance eta_OwnedRequest : Eta OwnedRequest := fun r =>
  mkOwned (or_lifecycle r) (or_payload_bytes r) (or_credit_charge r)
    (or_requested_extra_credits r) (or_credit_response_seen r) (or_admission_held r)
    (or_payload_held r) (or_credit_obligation r) (or_cancel_seen r) (or_deadline_version r).

Record GenerationState := mkGen {
  gs_generation : GenerationId;
  gs_limits : AdmissionLimits;
  gs_next_message_id : option Z;
  gs_available_credits : Z;
  gs_total_credits : Z;
  gs_pending_extra_credits : Z;
  gs_target_credits : Z;
  gs_admitted_operations : Z;
  gs_retained_payload_bytes : Z;
  gs_requests : gmap RequestKey OwnedRequest;
  gs_async_index : gmap Z RequestKey;
  gs_deadlines : list DeadlineEntry;
  gs_next_deadline_sequence : Z;
  gs_tombstone_drain_timeout : Duration;
  gs_unhealthy : bool
}.

#[export] Instance eta_GenerationState : Eta GenerationState := fun s =>
  mkGen (gs_generation s) (gs_limits s) (gs_next_message_id s) (gs_available_credits s)
    (gs_total_credits s) (gs_pending_extra_credits s) (gs_target_credits s)
    (gs_admitted_operations s) (gs_retained_payload_bytes s) (gs_requests s)
    (gs_async_index s) (gs_deadlines s) (gs_next_deadline_sequence s)
    (gs_tombstone_drain_timeout s) (gs_unhealthy s).

#[export] Instance DeadlineKind_eq : EqDecision DeadlineKind.
Proof. solve_decision. Defined.
#[export] Instance DeadlineEntry_eq : EqDecision DeadlineEntry.
Proof. solve_decision. Defined.

(** ** The deadline heap

    [BinaryHeap<Reverse<DeadlineEntry>>] of the standard library, as the multiset
    of its entries: [push] adds one, [pop] takes out the least in the derived
    lexicographic order of [DeadlineEntry]. *)

Definition entry_rank (e : DeadlineEntry) : list Z :=
  [de_at e; de_sequence e; rk_generation (de_key e); rk_message_id (de_key e);
   match de_kind e with DK_Caller => 0 | DK_Tombstone => 1 end; de_version e].

Fixpoint lex_leb (a b : list Z) : bool :=
  match a, b with
  | [], _ => true
  | _, [] => false
  | x :: a, y :: b => (x <? y) || ((x =? y) && lex_leb a b)
  end.

Definition entry_leb (a b : DeadlineEntry) : bool := lex_leb (entry_rank a) (entry_rank b).

#[global] Arguments entry_leb : simpl never.

Definition heap_push (e : DeadlineEntry) (h : list DeadlineEntry) : list DeadlineEntry := e :: h.

Fixpoint heap_pop (h : list DeadlineEntry) : option (DeadlineEntry * list DeadlineEntry) :=
  match h with
  | [] => None
  | e :: h =>
      match heap_pop h with
      | None => Some (e, [])
      | Some (m, rest) => Some (if entry_leb e m then (e, h) else (m, e :: rest))
      end
  end.

Definition heap_peek (h : list DeadlineEntry) : option DeadlineEntry := fst <$> heap_pop h.

(** ** Operations *)

Definition gs_new (generation : GenerationId) (initial_message_id initial_credits
    target_credits : Z) (limits : AdmissionLimits) (tombstone_drain_timeout : Duration)
    : GenerationState :=
  mkGen generation limits (Some initial_message_id) initial_credits initial_credits 0
    target_credits 0 0 ∅ ∅ [] 0 tombstone_drain_timeout false.

Definition gs_set_target_credits (s : GenerationState) (target : Z) : GenerationState :=
  s <| gs_target_credits := Z.max target 1 |>.

(** [self.requests.get_mut(&key)] assigned: the request of [key] becomes [r]. *)
Definition put_request (s : GenerationState) (key : RequestKey) (r : OwnedRequest)
    : GenerationState := s <| gs_requests := <[key := r]> (gs_requests s) |>.

Definition gs_schedule_deadline (s : GenerationState) (key : RequestKey)
    (at_ : MonotonicTime) (kind : DeadlineKind) : GenerationState * bool :=
  match gs_requests s !! key with
  | None => (s, false)
  | Some request =>
      match checked_add u64_max (or_deadline_version request) 1 with
      | None => (s <| gs_unhealthy := true |>, false)
      | Some version =>
          let s := put_request s key (request <| or_deadline_version := version |>) in
          let sequence := gs_next_deadline_sequence s in
          let s := s <| gs_next_deadline_sequence := saturating_add u64_max sequence 1 |> in
          let s := s <| gs_deadlines :=
                     heap_push (mkEntry at_ sequence key kind version) (gs_deadlines s) |> in
          (s, true)
      end
  end.

Definition gs_release_payload (s : GenerationState) (key : RequestKey) : GenerationState :=
  match gs_requests s !! key with
  | None => s
  | Some request =>
      if or_payload_held request then
        let s := s <| gs_retained_payload_bytes :=
          wrapping_sub u64_max (gs_retained_payload_bytes s) (or_payload_bytes request) |> in
        put_request s key (request <| or_payload_held := false |>)
      else s
  end.

Definition gs_release_request_ownership (s : GenerationState) (key : RequestKey)
    : GenerationState :=
  let s := gs_release_payload s key in
  match gs_requests s !! key with
  | None => s
  | Some request =>
      if or_admission_held request then
        let s := s <| gs_admitted_operations :=
          wrapping_sub usize_max (gs_admitted_operations s) 1 |> in
        put_request s key (request <| or_admission_held := false |>)
      else s
  end.

Definition gs_rollback (s : GenerationState) (key : RequestKey) : GenerationState * bool :=
  match gs_requests s !! key with
  | None => (s, false)
  | Some request =>
      if negb (or_credit_obligation request) && negb (or_admission_held request)
      then (s, false)
      else if or_credit_obligation request then
        match checked_add u32_max (gs_available_credits s) (or_credit_charge request) with
        | None => (s, false)
        | Some available =>
            let s := s <| gs_available_credits := available |>
                       <| gs_pending_extra_credits :=
                            saturating_sub (gs_pending_extra_credits s)
                              (or_requested_extra_credits request) |> in
            let s := put_request s key (request <| or_credit_obligation := false |>) in
            (gs_release_request_ownership s key, true)
        end
      else (gs_release_request_ownership s key, true)
  end.

Definition admission_rejection (s : GenerationState) (payload_bytes credit_charge : Z)
    : option AdmissionError :=
  if bool_decide (credit_charge = 0) then Some AE_InvalidCreditCharge
  else if bool_decide (gs_admitted_operations s >= max_operations (gs_limits s))
  then Some AE_OperationsExhausted
  else if match checked_add u64_max (gs_retained_payload_bytes s) payload_bytes with
          | None => true
          | Some total => bool_decide (total > max_payload_bytes (gs_limits s))
          end
  then Some AE_PayloadBytesExhausted
  else if bool_decide (credit_charge > gs_available_credits s)
  then Some (AE_CreditsExhausted (gs_available_credits s) credit_charge)
  else if bool_decide (gs_next_message_id s = None) then Some AE_MessageIdExhausted
  else None.

(** The credits a request asks for: its own charge plus what is missing to the
    target window, at most [u16::MAX]. *)
Definition credit_request_for (s : GenerationState) (credit_charge : Z) : Z :=
  let projected_total :=
    saturating_add u32_max (gs_total_credits s) (gs_pending_extra_credits s) in
  let requested_extra_credits := saturating_sub (gs_target_credits s) projected_total in
  as_uint u16_max
    (Z.min (saturating_add u32_max credit_charge requested_extra_credits) u16_max).

Definition gs_admit (s : GenerationState) (payload_bytes credit_charge : Z)
    (caller_deadline : option MonotonicTime) : GenerationState * OwnerEffect :=
  match admission_rejection s payload_bytes credit_charge with
  | Some error => (s, OF_AdmissionRejected error)
  | None =>
      match gs_next_message_id s with
      | None => (s, OF_AdmissionRejected AE_MessageIdExhausted)
      | Some message_id =>
          let credit_request := credit_request_for s credit_charge in
          let requested_extra_credits := wrapping_sub u32_max credit_request credit_charge in
          let key := mkKey (gs_generation s) message_id in
          let plan := mkPlan key payload_bytes credit_charge credit_request caller_deadline in
          let s := s <| gs_next_message_id := checked_add u64_max message_id credit_charge |> in
          let s := s <| gs_available_credits :=
            wrapping_sub u32_max (gs_available_credits s) credit_charge |> in
          let s := s <| gs_pending_extra_credits :=
            saturating_add u32_max (gs_pending_extra_credits s) requested_extra_credits |> in
          let s := s <| gs_admitted_operations :=
            wrapping_add usize_max (gs_admitted_operations s) 1 |> in
          let s := s <| gs_retained_payload_bytes :=
            wrapping_add u64_max (gs_retained_payload_bytes s) payload_bytes |> in
          let s := put_request s key
            (mkOwned (rr_new key) payload_bytes credit_charge requested_extra_credits
               false true true true false 0) in
          let s := match caller_deadline with
                   | Some deadline => (gs_schedule_deadline s key deadline DK_Caller).1
                   | None => s
                   end in
          (s, OF_Admitted plan)
      end
  end.

Definition foreign (key : RequestKey) : list OwnerEffect :=
  [OF_Request key Eff_IgnoredForeignGeneration].

Definition progress_event (event : RequestProgress) : RequestEvent :=
  match event with
  | PG_Queued => RE_Queued
  | PG_WriteProgress bytes => RE_WriteProgress bytes
  | PG_WriteComplete => RE_WriteComplete
  end.

Definition gs_request_event (s : GenerationState) (key : RequestKey) (event : RequestProgress)
    : GenerationState * list OwnerEffect :=
  if bool_decide (rk_generation key ≠ gs_generation s) then (s, foreign key)
  else match gs_requests s !! key with
  | None => (s, [OF_UnknownRequest key])
  | Some request =>
      let '(lifecycle, effect) := rr_reduce (or_lifecycle request) (progress_event event) in
      let s := put_request s key (request <| or_lifecycle := lifecycle |>) in
      let s := match event with PG_WriteComplete => gs_release_payload s key | _ => s end in
      (s, [OF_Request key effect])
  end.

(** What [cancel] and an expired caller deadline do after the lifecycle was told:
    a committed request becomes a tombstone with a drain deadline, an uncommitted
    one gives its reservation back. *)
Definition gs_settle_unanswered (s : GenerationState) (key : RequestKey)
    (now : MonotonicTime) (committed : bool) : GenerationState * list OwnerEffect :=
  if committed then
    let '(s, scheduled) :=
      gs_schedule_deadline s key (time_add now (gs_tombstone_drain_timeout s)) DK_Tombstone in
    (s, OF_BestEffortWireCancel key ::
        if scheduled then [] else [OF_GenerationUnhealthy key])
  else
    let '(s, rolled_back) := gs_rollback s key in
    (s, if rolled_back then [OF_ReservationRolledBack key] else []).

Definition gs_cancel (s : GenerationState) (key : RequestKey) (now : MonotonicTime)
    : GenerationState * list OwnerEffect :=
  if bool_decide (rk_generation key ≠ gs_generation s) then (s, foreign key)
  else match gs_requests s !! key with
  | None => (s, [OF_UnknownRequest key])
  | Some request =>
      if or_cancel_seen request then (s, [OF_DuplicateCancel key])
      else if negb (rr_caller_is_open (or_lifecycle request)) then
        (put_request s key (request <| or_cancel_seen := true |>), [OF_DuplicateCancel key])
      else
        let committed := rr_wire_committed (or_lifecycle request) in
        let '(lifecycle, effect) := rr_reduce (or_lifecycle request) RE_Cancel in
        let s := put_request s key
          (request <| or_cancel_seen := true |> <| or_lifecycle := lifecycle |>) in
        let '(s, effects) := gs_settle_unanswered s key now committed in
        (s, OF_CancelControlQueued key :: OF_Request key effect :: effects)
  end.

(** One iteration of [advance_time]'s loop, for the entry just popped. *)
Definition gs_expire (s : GenerationState) (now : MonotonicTime) (entry : DeadlineEntry)
    : GenerationState * list OwnerEffect :=
  let key := de_key entry in
  match gs_requests s !! key with
  | None => (s, [OF_StaleDeadlineIgnored key])
  | Some request =>
      if bool_decide (or_deadline_version request ≠ de_version entry)
      then (s, [OF_StaleDeadlineIgnored key])
      else match de_kind entry with
      | DK_Caller =>
          if negb (rr_caller_is_open (or_lifecycle request))
          then (s, [OF_StaleDeadlineIgnored key])
          else
            let committed := rr_wire_committed (or_lifecycle request) in
            let '(lifecycle, effect) := rr_reduce (or_lifecycle request) RE_Deadline in
            let s := put_request s key (request <| or_lifecycle := lifecycle |>) in
            let '(s, effects) := gs_settle_unanswered s key now committed in
            (s, OF_Request key effect :: effects)
      | DK_Tombstone =>
          if rr_tombstone (or_lifecycle request) &&
             bool_decide (rr_response (or_lifecycle request) ≠ RP_Final)
          then (s <| gs_unhealthy := true |>, [OF_GenerationUnhealthy key])
          else (s, [OF_StaleDeadlineIgnored key])
      end
  end.

(** The loop of [advance_time]. An expired caller deadline may schedule one drain
    deadline, an expired drain deadline schedules nothing: [heap_weight] bounds the
    number of iterations. *)
Definition entry_weight (e : DeadlineEntry) : nat :=
  match de_kind e with DK_Caller => 2 | DK_Tombstone => 1 end.

Definition heap_weight (h : list DeadlineEntry) : nat := sum_list_with entry_weight h.

Fixpoint gs_advance_loop (fuel : nat) (s : GenerationState) (now : MonotonicTime)
    (effects : list OwnerEffect) : GenerationState * list OwnerEffect :=
  match fuel with
  | O => (s, effects)
  | S fuel =>
      match heap_pop (gs_deadlines s) with
      | Some (entry, rest) =>
          if bool_decide (de_at entry <= now) then
            let '(s, more) := gs_expire (s <| gs_deadlines := rest |>) now entry in
            gs_advance_loop fuel s now (effects ++ more)
          else (s, effects)
      | None => (s, effects)
      end
  end.

Definition gs_advance_time (s : GenerationState) (now : MonotonicTime)
    : GenerationState * list OwnerEffect :=
  gs_advance_loop (S (heap_weight (gs_deadlines s))) s now [].

Definition gs_prepare_failed (s : GenerationState) (key : RequestKey)
    : GenerationState * list OwnerEffect :=
  if bool_decide (rk_generation key ≠ gs_generation s) then (s, foreign key)
  else match gs_requests s !! key with
  | None => (s, [OF_UnknownRequest key])
  | Some request =>
      if rr_wire_committed (or_lifecycle request)
      then (s, [OF_Request key Eff_BookkeepingOnly])
      else
        let '(lifecycle, effect) :=
          rr_publish_terminal (or_lifecycle request) TO_PreparationFailed in
        let s := put_request s key (request <| or_lifecycle := lifecycle |>) in
        let '(s, rolled_back) := gs_rollback s key in
        (s, OF_Request key effect ::
            if rolled_back then [OF_ReservationRolledBack key] else [])
  end.

(** The async identity of a pending response already belongs to another request. *)
Definition async_conflict (s : GenerationState) (key : RequestKey) (event : ResponseEvent)
    : option (Z * RequestKey) :=
  match event with
  | RV_Pending async_id =>
      match gs_async_index s !! async_id with
      | Some existing =>
          if bool_decide (existing ≠ key) then Some (async_id, existing) else None
      | None => None
      end
  | RV_Final => None
  end.

(** The request is already pending under another async identity. *)
Definition async_changed (request : OwnedRequest) (event : ResponseEvent) : option (Z * Z) :=
  match event, rr_response (or_lifecycle request) with
  | RV_Pending async_id, RP_AsyncPending existing =>
      if bool_decide (existing ≠ async_id) then Some (existing, async_id) else None
  | _, _ => None
  end.

(** The credit ledger's share of a response: the first response settles the
    request's charge and its pending extra credits. *)
Definition settle_credit_totals (s : GenerationState) (request : OwnedRequest)
    (credit_grant : Z) : GenerationState :=
  if negb (or_credit_response_seen request) then
    s <| gs_pending_extra_credits :=
           saturating_sub (gs_pending_extra_credits s) (or_requested_extra_credits request) |>
      <| gs_total_credits :=
           saturating_add u32_max
             (saturating_sub (gs_total_credits s) (or_credit_charge request)) credit_grant |>
  else s <| gs_total_credits := saturating_add u32_max (gs_total_credits s) credit_grant |>.

(** The bookkeeping that precedes the caller's completion: totals, commitment and
    the outbound payload. *)
Definition response_bookkeeping (s : GenerationState) (key : RequestKey)
    (request : OwnedRequest) (credit_grant : Z) : GenerationState * OwnedRequest :=
  let s := settle_credit_totals s request credit_grant in
  let held := or_payload_held request in
  let request' := request <| or_credit_response_seen := true |>
    <| or_lifecycle := rr_observe_response_commitment (or_lifecycle request) |>
    <| or_payload_held := false |> in
  let s := if held then
      s <| gs_retained_payload_bytes :=
        wrapping_sub u64_max (gs_retained_payload_bytes s) (or_payload_bytes request) |>
    else s in
  (put_request s key request', request').

(** The tail of [response] for a final response. *)
Definition finalize_response (s : GenerationState) (key : RequestKey)
    (request : OwnedRequest) (previous : ResponseProgress)
    : GenerationState * list OwnerEffect :=
  let s := match previous with
           | RP_AsyncPending async_id =>
               s <| gs_async_index := delete async_id (gs_async_index s) |>
           | _ => s
           end in
  let request := request <| or_credit_obligation := false |> in
  match checked_add u64_max (or_deadline_version request) 1 with
  | Some version =>
      let s := put_request s key (request <| or_deadline_version := version |>) in
      (gs_release_request_ownership s key, [])
  | None =>
      let s := put_request (s <| gs_unhealthy := true |>) key request in
      (gs_release_request_ownership s key, [OF_GenerationUnhealthy key])
  end.

Definition gs_response (s : GenerationState) (key : RequestKey) (event : ResponseEvent)
    (credit_grant : Z) : GenerationState * list OwnerEffect :=
  if bool_decide (rk_generation key ≠ gs_generation s) then (s, foreign key)
  else match async_conflict s key event with
  | Some (async_id, existing) =>
      (s <| gs_unhealthy := true |>,
       [OF_AsyncIdConflict async_id existing key; OF_GenerationUnhealthy key])
  | None =>
  match gs_requests s !! key with
  | None => (s, [OF_UnknownRequest key])
  | Some request =>
  match async_changed request event with
  | Some (existing, incoming) =>
      (s <| gs_unhealthy := true |>,
       [OF_AsyncIdChanged key existing incoming; OF_GenerationUnhealthy key])
  | None =>
  if bool_decide (rr_response (or_lifecycle request) = RP_Final)
  then (s, [OF_DuplicateResponse key])
  else
  let previous := rr_response (or_lifecycle request) in
  let '(s, request) := response_bookkeeping s key request credit_grant in
  match checked_add u32_max (gs_available_credits s) credit_grant with
  | None =>
      (s <| gs_unhealthy := true |>,
       [OF_CreditLedgerOverflow key (gs_available_credits s) credit_grant;
        OF_GenerationUnhealthy key])
  | Some available =>
      let s := s <| gs_available_credits := available |> in
      let '(lifecycle, effect) := rr_reduce (or_lifecycle request)
        match event with
        | RV_Pending async_id => RE_AsyncPending key async_id
        | RV_Final => RE_FinalResponse key
        end in
      let request := request <| or_lifecycle := lifecycle |> in
      let s := put_request s key request in
      let effects := [OF_CreditGrantApplied key credit_grant available;
                      OF_Request key effect] in
      match event with
      | RV_Pending async_id =>
          (s <| gs_async_index := <[async_id := key]> (gs_async_index s) |>, effects)
      | RV_Final =>
          let '(s, more) := finalize_response s key request previous in
          (s, effects ++ more)
      end
  end end end end.

Definition gs_recovery_hint (s : GenerationState) (key : RequestKey)
    : GenerationState * list OwnerEffect :=
  if bool_decide (rk_generation key ≠ gs_generation s) then (s, foreign key)
  else match gs_requests s !! key with
  | None => (s, [OF_UnknownRequest key])
  | Some request =>
      let '(lifecycle, effect) := rr_reduce (or_lifecycle request) (RE_RecoveryHint key) in
      let s := put_request s key (request <| or_lifecycle := lifecycle |>) in
      (gs_release_request_ownership s key, [OF_Request key effect])
  end.

(** One iteration of [disconnect]'s loop. *)
Definition gs_disconnect_one (network : option NetworkFailure)
    (acc : GenerationState * list OwnerEffect) (key : RequestKey)
    : GenerationState * list OwnerEffect :=
  let '(s, effects) := acc in
  let '(s, effects) :=
    match gs_requests s !! key with
    | Some request =>
        let '(lifecycle, effect) := rr_reduce (or_lifecycle request) (RE_Disconnect network) in
        (put_request s key (request <| or_lifecycle := lifecycle |>),
         effects ++ [OF_Request key effect])
    | None => (s, effects)
    end in
  (gs_release_request_ownership s key, effects).

(** The keys are visited in the hash map's order. *)
Definition gs_disconnect `{!HashOrder RequestKey} (s : GenerationState)
    (network : option NetworkFailure) : GenerationState * list OwnerEffect :=
  foldl (gs_disconnect_one network) (s, []) (hash_keys (gs_requests s)).

Definition gs_reduce `{!HashOrder RequestKey} (s : GenerationState) (event : OwnerEvent)
    : GenerationState * list OwnerEffect :=
  match event with
  | OE_Admit payload_bytes credit_charge caller_deadline =>
      let '(s, effect) := gs_admit s payload_bytes credit_charge caller_deadline in
      (s, [effect])
  | OE_Request key event => gs_request_event s key event
  | OE_PrepareFailed key => gs_prepare_failed s key
  | OE_Cancel key now => gs_cancel s key now
  | OE_Response key event credit_grant => gs_response s key event credit_grant
  | OE_RecoveryHint key => gs_recovery_hint s key
  | OE_AdvanceTime now => gs_advance_time s now
  | OE_Disconnect network => gs_disconnect s network
  end.

(** ** Queries *)

Definition gs_request (s : GenerationState) (key : RequestKey) : option RequestRecord :=
  or_lifecycle <$> gs_requests s !! key.

Definition gs_request_for_async_id (s : GenerationState) (async_id : Z) : option RequestKey :=
  gs_async_index s !! async_id.

Definition gs_next_deadline (s : GenerationState) : option MonotonicTime :=
  de_at <$> heap_peek (gs_deadlines s).

Definition caller_open (r : OwnedRequest) : bool :=
  bool_decide (rr_caller (or_lifecycle r) = CO_Open).

(** [self.requests.values().filter(caller open).count()] *)
Definition gs_unresolved_callers (s : GenerationState) : Z :=
  map_sum (fun r => if caller_open r then 1 else 0) (gs_requests s).

Definition gs_terminal_outcome (s : GenerationState) (key : RequestKey)
    : option TerminalOutcome :=
  gs_requests s !! key ≫= fun r =>
    match rr_caller (or_lifecycle r) with CO_Open => None | CO_Terminal o => Some o end.

(** ** The unit tests of state.rs, on the model *)

Module Examples.
#[local] Existing Instance canonical_order.

Definition limits := mkLimits 2 1024.
Definition start := gs_new 3 40 4 4 limits 5000000000.

Fixpoint run (s : GenerationState) (events : list OwnerEvent)
    : GenerationState * list (list OwnerEffect) :=
  match events with
  | [] => (s, [])
  | e :: events => let '(s, eff) := gs_reduce s e in
                   let '(s, effs) := run s events in (s, eff :: effs)
  end.

Example first_write_byte_forbids_local_credit_rollback :
  let k := mkKey 3 40 in
  let '(s, effs) := run start
    [OE_Admit 100 2 None; OE_Request k (PG_WriteProgress 1); OE_Cancel k 0] in
  gs_available_credits s = 2 /\ gs_admitted_operations s = 1 /\
  effs !! 2%nat = Some [OF_CancelControlQueued k;
    OF_Request k (Eff_Publish TO_OutcomeUnknown); OF_BestEffortWireCancel k].
Proof. vm_compute. done. Qed.

Example committed_deadline_then_drain_expiry :
  let k := mkKey 3 40 in
  let '(s, effs) := run start
    [OE_Admit 200 2 (Some 10); OE_Request k PG_WriteComplete; OE_AdvanceTime 10;
     OE_AdvanceTime 5000000010] in
  gs_unhealthy s = true /\ effs !! 3%nat = Some [OF_GenerationUnhealthy k].
Proof. vm_compute. done. Qed.
End Examples.
