(* ===== verification/GenInv.v ===== *)
(** The accounting, identity and lifecycle invariants of a generation
    (crates/smb/src/runtime/state.rs), and that every event preserves them. *)
From S2P Require Import Prelude Clock Reducer GenState.
Local Open Scope Z_scope.

(** ** The invariant *)

Definition admission_units (r : OwnedRequest) : Z := if or_admission_held r then 1 else 0.
Definition payload_units (r : OwnedRequest) : Z :=
  if or_payload_held r then or_payload_bytes r else 0.

(** The two admission counters are the sums the request table owes them, and both
    stay within the limits. *)
Record accounting (s : GenerationState) : Prop := {
  acc_admitted : gs_admitted_operations s = map_sum admission_units (gs_requests s);
  acc_retained : gs_retained_payload_bytes s = map_sum payload_units (gs_requests s);
  acc_ops_limit : gs_admitted_operations s <= max_operations (gs_limits s) <= usize_max;
  acc_bytes_limit :
    gs_retained_payload_bytes s <= max_payload_bytes (gs_limits s) <= u64_max;
  acc_payload : map_Forall (fun _ r => 0 <= or_payload_bytes r <= u64_max) (gs_requests s)
}.

(** The message identities of a request: [or_credit_charge] consecutive numbers
    from its own. *)
Definition before (k1 : RequestKey) (r1 : OwnedRequest) (k2 : RequestKey) : Prop :=
  rk_message_id k1 + or_credit_charge r1 <= rk_message_id k2.

(** Every request is of this generation, its window of message identities is below
    the next one to allocate, and the windows are pairwise disjoint. *)
Record identity (s : GenerationState) : Prop := {
  id_next : forall n, gs_next_message_id s = Some n -> in_range u64_max n;
  id_key : map_Forall (fun k r =>
    rk_generation k = gs_generation s /\ in_range u64_max (rk_message_id k) /\
    1 <= or_credit_charge r <= u16_max /\
    forall n, gs_next_message_id s = Some n -> rk_message_id k + or_credit_charge r <= n)
    (gs_requests s);
  id_disjoint : forall k1 r1 k2 r2,
    gs_requests s !! k1 = Some r1 -> gs_requests s !! k2 = Some r2 -> k1 <> k2 ->
    before k1 r1 k2 \/ before k2 r2 k1
}.

(** The async index is the inverse of the pending responses. *)
Definition async_ok (s : GenerationState) : Prop :=
  forall id k, gs_async_index s !! id = Some k <->
    exists r, gs_requests s !! k = Some r /\ rr_response (or_lifecycle r) = RP_AsyncPending id.

(** What one request owns, by how far its lifecycle has come. *)
Record or_wf (k : RequestKey) (r : OwnedRequest) : Prop := {
  wf_key : rr_key (or_lifecycle r) = k;
  wf_lifecycle : rr_wf (or_lifecycle r);
  wf_payload : or_payload_held r = true -> or_admission_held r = true;
  wf_open : caller_open r = true ->
    or_admission_held r = true /\ or_credit_obligation r = true;
  wf_final : rr_response (or_lifecycle r) = RP_Final ->
    or_admission_held r = false /\ or_payload_held r = false /\
    or_credit_obligation r = false /\ rr_caller (or_lifecycle r) <> CO_Open;
  wf_pending : forall id, rr_response (or_lifecycle r) = RP_AsyncPending id ->
    or_credit_response_seen r = true /\ rr_wire_committed (or_lifecycle r) = true;
  wf_seen : or_credit_response_seen r = true -> rr_wire_committed (or_lifecycle r) = true;
  wf_version : in_range u64_max (or_deadline_version r);
  wf_admission : or_admission_held r = true -> or_credit_obligation r = true
}.

Record inv (s : GenerationState) : Prop := {
  inv_accounting : accounting s;
  inv_identity : identity s;
  inv_async : async_ok s;
  inv_requests : map_Forall or_wf (gs_requests s)
}.

(** The arguments an event can carry, by their Rust types. *)
Definition event_ok (e : OwnerEvent) : Prop :=
  match e with
  | OE_Admit payload charge deadline =>
      in_range u64_max payload /\ in_range u16_max charge /\
      (forall d, deadline = Some d -> time_ok d)
  | OE_Response _ _ grant => in_range u16_max grant
  | OE_Cancel _ now | OE_AdvanceTime now => time_ok now
  | _ => True
  end.

(** ** Closed forms of the shared steps *)

Definition released (r : OwnedRequest) : OwnedRequest :=
  r <| or_payload_held := false |> <| or_admission_held := false |>.

(** Two states with the same fields are equal. *)
Lemma gs_ext s s' :
  gs_generation s = gs_generation s' -> gs_limits s = gs_limits s' ->
  gs_next_message_id s = gs_next_message_id s' ->
  gs_available_credits s = gs_available_credits s' ->
  gs_total_credits s = gs_total_credits s' ->
  gs_pending_extra_credits s = gs_pending_extra_credits s' ->
  gs_target_credits s = gs_target_credits s' ->
  gs_admitted_operations s = gs_admitted_operations s' ->
  gs_retained_payload_bytes s = gs_retained_payload_bytes s' ->
  gs_requests s = gs_requests s' -> gs_async_index s = gs_async_index s' ->
  gs_deadlines s = gs_deadlines s' ->
  gs_next_deadline_sequence s = gs_next_deadline_sequence s' ->
  gs_tombstone_drain_timeout s = gs_tombstone_drain_timeout s' ->
  gs_unhealthy s = gs_unhealthy s' -> s = s'.
Proof. destruct s, s'. cbn. intros. by subst. Qed.

(** [gs_simpl] computes projections of updated states. *)
Ltac gs_simpl := unfold put_request; cbn.

Lemma gs_release_payload_eq s k r :
  gs_requests s !! k = Some r ->
  gs_release_payload s k =
  s <| gs_retained_payload_bytes :=
         if or_payload_held r
         then wrapping_sub u64_max (gs_retained_payload_bytes s) (or_payload_bytes r)
         else gs_retained_payload_bytes s |>
    <| gs_requests := <[k := r <| or_payload_held := false |>]> (gs_requests s) |>.
Proof.
  intros Hk. unfold gs_release_payload. rewrite Hk. destruct s, r as [??????[]???]; cbn in *.
  - done.
  - unfold setter. cbn. by rewrite insert_id.
Qed.

Lemma gs_release_eq s k r :
  gs_requests s !! k = Some r ->
  gs_release_request_ownership s k =
  s <| gs_retained_payload_bytes :=
         if or_payload_held r
         then wrapping_sub u64_max (gs_retained_payload_bytes s) (or_payload_bytes r)
         else gs_retained_payload_bytes s |>
    <| gs_admitted_operations :=
         if or_admission_held r
         then wrapping_sub usize_max (gs_admitted_operations s) 1
         else gs_admitted_operations s |>
    <| gs_requests := <[k := released r]> (gs_requests s) |>.
Proof.
  intros Hk. unfold gs_release_request_ownership.
  rewrite (gs_release_payload_eq s k r Hk). cbn. rewrite lookup_insert_eq.
  destruct s, r as [?????[]????]; cbn in *; unfold put_request, released, setter; cbn.
  - by rewrite insert_insert_eq.
  - done.
Qed.

Lemma gs_release_absent s k :
  gs_requests s !! k = None -> gs_release_request_ownership s k = s.
Proof.
  intros Hk. unfold gs_release_request_ownership, gs_release_payload. by rewrite Hk, Hk.
Qed.

(** ** Accounting *)

Lemma map_sum_admission_nonneg (m : gmap RequestKey OwnedRequest) :
  0 <= map_sum admission_units m.
Proof. apply map_sum_nonneg. intros. unfold admission_units. case_match; lia. Qed.

Lemma map_sum_payload_nonneg (m : gmap RequestKey OwnedRequest) :
  map_Forall (fun _ r => 0 <= or_payload_bytes r <= u64_max) m ->
  0 <= map_sum payload_units m.
Proof.
  intros H. apply map_sum_nonneg. intros k r Hk. specialize (H k r Hk). cbn in H.
  unfold payload_units. case_match; lia.
Qed.

Lemma accounting_put s k r r' :
  accounting s -> gs_requests s !! k = Some r ->
  or_payload_bytes r' = or_payload_bytes r ->
  or_admission_held r' = or_admission_held r ->
  or_payload_held r' = or_payload_held r ->
  accounting (put_request s k r').
Proof.
  intros [Ha Hr Ho Hb Hp] Hk E1 E2 E3. split; gs_simpl.
  - rewrite (map_sum_update _ _ k r) by done. unfold admission_units in *. rewrite E2. lia.
  - rewrite (map_sum_update _ _ k r) by done. unfold payload_units in *. rewrite E1, E3. lia.
  - exact Ho.
  - exact Hb.
  - apply map_Forall_insert_2; [|done]. rewrite E1. by apply (Hp k r).
Qed.

(** Dropping the payload of one request: the retained bytes do not underflow. *)
Lemma accounting_drop_payload s k r r' :
  accounting s -> gs_requests s !! k = Some r ->
  or_payload_bytes r' = or_payload_bytes r ->
  or_admission_held r' = or_admission_held r ->
  or_payload_held r' = false ->
  accounting (put_request (s <| gs_retained_payload_bytes :=
    if or_payload_held r
    then wrapping_sub u64_max (gs_retained_payload_bytes s) (or_payload_bytes r)
    else gs_retained_payload_bytes s |>) k r').
Proof.
  intros [Ha Hr Ho Hb Hp] Hk E1 E2 E3.
  assert (Hge : payload_units r <= map_sum payload_units (gs_requests s)).
  { apply (map_sum_ge _ _ k); [done|]. intros k' v' Hk'. specialize (Hp k' v' Hk').
    unfold payload_units. case_match; cbn in *; lia. }
  assert (Hs : (if or_payload_held r
    then wrapping_sub u64_max (gs_retained_payload_bytes s) (or_payload_bytes r)
    else gs_retained_payload_bytes s) = gs_retained_payload_bytes s - payload_units r).
  { unfold payload_units in *. specialize (Hp k r Hk). cbn in Hp.
    destruct (or_payload_held r); [|lia]. apply wrapping_sub_small; ints. }
  pose proof (Hp k r Hk) as Hpk. cbn in Hpk.
  assert (0 <= payload_units r) by (unfold payload_units; case_match; lia).
  split; gs_simpl; rewrite ?Hs.
  - rewrite (map_sum_update _ _ k r) by done. unfold admission_units in *. rewrite E2. lia.
  - rewrite (map_sum_update _ _ k r) by done. unfold payload_units in *.
    rewrite E3. lia.
  - exact Ho.
  - lia.
  - apply map_Forall_insert_2; [|done]. rewrite E1. lia.
Qed.

(** Releasing the admission slot of a request: the counter does not underflow. *)
Lemma accounting_drop_admission s k r r' :
  accounting s -> gs_requests s !! k = Some r ->
  or_payload_bytes r' = or_payload_bytes r ->
  or_payload_held r' = or_payload_held r ->
  or_admission_held r' = false ->
  accounting (put_request (s <| gs_admitted_operations :=
    if or_admission_held r then wrapping_sub usize_max (gs_admitted_operations s) 1
    else gs_admitted_operations s |>) k r').
Proof.
  intros [Ha Hr Ho Hb Hp] Hk E1 E2 E3.
  assert (Hge : admission_units r <= map_sum admission_units (gs_requests s)).
  { apply (map_sum_ge _ _ k); [done|]. intros. unfold admission_units. case_match; lia. }
  assert (Hs : (if or_admission_held r
    then wrapping_sub usize_max (gs_admitted_operations s) 1
    else gs_admitted_operations s) = gs_admitted_operations s - admission_units r).
  { unfold admission_units in *. destruct (or_admission_held r); [|lia].
    apply wrapping_sub_small; ints. }
  assert (0 <= admission_units r) by (unfold admission_units; case_match; lia).
  split; gs_simpl; rewrite ?Hs.
  - rewrite (map_sum_update _ _ k r) by done. unfold admission_units in *. rewrite E3. lia.
  - rewrite (map_sum_update _ _ k r) by done. unfold payload_units in *. rewrite E1, E2. lia.
  - lia.
  - exact Hb.
  - apply map_Forall_insert_2; [|done]. rewrite E1. by apply (Hp k r).
Qed.

Lemma accounting_release_payload s k : accounting s -> accounting (gs_release_payload s k).
Proof.
  intros H. destruct (gs_requests s !! k) as [r|] eqn:Hk.
  - rewrite (gs_release_payload_eq s k r Hk). by apply (accounting_drop_payload s k r).
  - unfold gs_release_payload. by rewrite Hk.
Qed.

Lemma accounting_release s k : accounting s -> accounting (gs_release_request_ownership s k).
Proof.
  intros H%(accounting_release_payload _ k). unfold gs_release_request_ownership.
  destruct (gs_requests (gs_release_payload s k) !! k) as [r|] eqn:Hk; [|done].
  pose proof (accounting_drop_admission _ k r (r <| or_admission_held := false |>) H Hk) as Hd.
  case_match; [by apply Hd|done].
Qed.

#[export] Hint Resolve accounting_release_payload accounting_release : smb.

(** ** What no event undoes

    [evolves r r'] is how one request may change: its static data never, its
    obligations only by being discharged, its facts only by being added. *)

Record evolves (r r' : OwnedRequest) : Prop := {
  ev_payload : or_payload_bytes r' = or_payload_bytes r;
  ev_charge : or_credit_charge r' = or_credit_charge r;
  ev_extra : or_requested_extra_credits r' = or_requested_extra_credits r;
  ev_key : rr_key (or_lifecycle r') = rr_key (or_lifecycle r);
  ev_caller : rr_caller (or_lifecycle r) <> CO_Open ->
    rr_caller (or_lifecycle r') = rr_caller (or_lifecycle r);
  ev_committed : rr_wire_committed (or_lifecycle r) = true ->
    rr_wire_committed (or_lifecycle r') = true;
  ev_final : rr_response (or_lifecycle r) = RP_Final ->
    rr_response (or_lifecycle r') = RP_Final;
  ev_admission : or_admission_held r = false -> or_admission_held r' = false;
  ev_payload_held : or_payload_held r = false -> or_payload_held r' = false;
  ev_obligation : or_credit_obligation r = false -> or_credit_obligation r' = false;
  ev_seen : or_credit_response_seen r = true -> or_credit_response_seen r' = true;
  ev_version : or_deadline_version r <= or_deadline_version r';
  ev_open : rr_caller (or_lifecycle r') = CO_Open ->
    or_deadline_version r' = or_deadline_version r
}.

#[export] Instance evolves_preorder : PreOrder evolves.
Proof.
  split.
  - intros r. by split.
  - intros r1 r2 r3 [] []. split; try congruence; try (by auto); try lia.
    + intros Hc. rewrite ev_caller1; [auto|]. by rewrite ev_caller0.
    + intros Hc. rewrite ev_open1 by done. apply ev_open0.
      destruct (decide (rr_caller (or_lifecycle r2) = CO_Open)); [done|].
      by rewrite ev_caller1 in Hc.
Qed.

(** How a state may change between two admissions. *)
Record frame (s s' : GenerationState) : Prop := {
  fr_generation : gs_generation s' = gs_generation s;
  fr_limits : gs_limits s' = gs_limits s;
  fr_next : gs_next_message_id s' = gs_next_message_id s;
  fr_drain : gs_tombstone_drain_timeout s' = gs_tombstone_drain_timeout s;
  fr_requests : forall k, option_Forall2 evolves (gs_requests s !! k) (gs_requests s' !! k)
}.

#[export] Instance frame_preorder : PreOrder frame.
Proof.
  split.
  - intros s. by split.
  - intros s1 s2 s3 [?????] [?????]. split; try congruence.
    intros k. by transitivity (gs_requests s2 !! k).
Qed.

(** A change that leaves the server's answers alone too. *)
Definition response_of (r : OwnedRequest) : ResponseProgress := rr_response (or_lifecycle r).

Record quiet (s s' : GenerationState) : Prop := {
  qt_frame : frame s s';
  qt_async : gs_async_index s' = gs_async_index s;
  qt_response : forall k, response_of <$> gs_requests s' !! k = response_of <$> gs_requests s !! k
}.

#[export] Instance quiet_preorder : PreOrder quiet.
Proof.
  split.
  - intros s. by split.
  - intros s1 s2 s3 [F1 ? R1] [F2 ? R2]. split; [by etrans|congruence|].
    intros k. by rewrite R2.
Qed.

Lemma frame_lookup s s' k r :
  frame s s' -> gs_requests s !! k = Some r ->
  exists r', gs_requests s' !! k = Some r' /\ evolves r r'.
Proof. intros F Hk. pose proof (fr_requests _ _ F k) as H. rewrite Hk in H. inversion H; eauto. Qed.

Lemma frame_lookup_inv s s' k r' :
  frame s s' -> gs_requests s' !! k = Some r' ->
  exists r, gs_requests s !! k = Some r /\ evolves r r'.
Proof. intros F Hk. pose proof (fr_requests _ _ F k) as H. rewrite Hk in H. inversion H; eauto. Qed.

(** A change of the fields that [frame] does not mention. *)
Lemma frame_fields s s' :
  gs_generation s' = gs_generation s -> gs_limits s' = gs_limits s ->
  gs_next_message_id s' = gs_next_message_id s ->
  gs_tombstone_drain_timeout s' = gs_tombstone_drain_timeout s ->
  gs_requests s' = gs_requests s -> frame s s'.
Proof. intros ???? E. split; try done. intros k. by rewrite E. Qed.

Lemma quiet_fields s s' :
  gs_generation s' = gs_generation s -> gs_limits s' = gs_limits s ->
  gs_next_message_id s' = gs_next_message_id s ->
  gs_tombstone_drain_timeout s' = gs_tombstone_drain_timeout s ->
  gs_async_index s' = gs_async_index s -> gs_requests s' = gs_requests s -> quiet s s'.
Proof.
  intros ????? E. split; [by apply frame_fields|done|]. intros k. by rewrite E.
Qed.

Lemma frame_put s k r r' :
  gs_requests s !! k = Some r -> evolves r r' -> frame s (put_request s k r').
Proof.
  intros Hk He. split; try done. intros k'. gs_simpl.
  destruct (decide (k = k')) as [<-|Hne].
  - rewrite Hk, lookup_insert_eq. by constructor.
  - rewrite lookup_insert_ne by done. by destruct (gs_requests s !! k'); constructor.
Qed.

Lemma quiet_put s k r r' :
  gs_requests s !! k = Some r -> evolves r r' ->
  rr_response (or_lifecycle r') = rr_response (or_lifecycle r) ->
  quiet s (put_request s k r').
Proof.
  intros Hk He Hr. split; [by apply (frame_put s k r)|done|]. intros k'. gs_simpl.
  destruct (decide (k = k')) as [<-|Hne].
  - rewrite Hk, lookup_insert_eq. cbn. unfold response_of. by rewrite Hr.
  - by rewrite lookup_insert_ne.
Qed.

(** [evolve] proves [evolves] for an explicit update of a request. *)
Ltac evolve := split; cbn; try done; try (intros; congruence); try ints.

(** The lifecycle steps of the model are evolutions. *)
Lemma evolves_lifecycle r e :
  evolves r (r <| or_lifecycle := (rr_reduce (or_lifecycle r) e).1 |>).
Proof.
  split; cbn; try done.
  - apply rr_reduce_key.
  - intros Hc. pose proof (rr_reduce_caller (or_lifecycle r) e) as H.
    case_match; naive_solver.
  - apply rr_reduce_committed.
  - intros Hf. destruct (or_lifecycle r) as [key caller send response tomb]; cbn in *.
    subst. destruct e, send; reduce_cases; congruence.
Qed.

(** Only a final or a pending response moves the response. *)
Lemma rr_reduce_response r e :
  (forall k id, e <> RE_AsyncPending k id) -> (forall k, e <> RE_FinalResponse k) ->
  rr_response (rr_reduce r e).1 = rr_response r.
Proof.
  intros H1 H2. destruct r as [key caller send response tomb].
  destruct e, send; try (exfalso; by eapply H1); try (exfalso; by eapply H2);
    reduce_cases; done.
Qed.

Lemma quiet_lifecycle s k r e :
  gs_requests s !! k = Some r ->
  (forall k id, e <> RE_AsyncPending k id) -> (forall k, e <> RE_FinalResponse k) ->
  quiet s (put_request s k (r <| or_lifecycle := (rr_reduce (or_lifecycle r) e).1 |>)).
Proof.
  intros Hk H1 H2. apply (quiet_put s k r); [done|apply evolves_lifecycle|].
  cbn. by apply rr_reduce_response.
Qed.

Lemma quiet_release_payload s k : quiet s (gs_release_payload s k).
Proof.
  unfold gs_release_payload. destruct (gs_requests s !! k) as [r|] eqn:Hk; [|done].
  destruct (or_payload_held r); [|done].
  etrans; [|apply (quiet_put _ k r); [done|evolve|done]]. by apply quiet_fields.
Qed.

Lemma quiet_release s k : quiet s (gs_release_request_ownership s k).
Proof.
  unfold gs_release_request_ownership. etrans; [apply (quiet_release_payload s k)|].
  destruct (gs_requests (gs_release_payload s k) !! k) as [r|] eqn:Hk; [|done].
  destruct (or_admission_held r); [|done].
  etrans; [|apply (quiet_put _ k r); [done|evolve|done]]. by apply quiet_fields.
Qed.

Lemma quiet_rollback s k : quiet s (gs_rollback s k).1.
Proof.
  unfold gs_rollback. destruct (gs_requests s !! k) as [r|] eqn:Hk; [|done].
  destruct (_ && _); [done|]. destruct (or_credit_obligation r).
  - destruct (checked_add _ _ _); cbn; [|done].
    etrans; [|apply quiet_release].
    etrans; [|apply (quiet_put _ k r); [done|evolve|done]]. by apply quiet_fields.
  - apply quiet_release.
Qed.

(** The request of [k] is absent or its caller was answered. *)
Definition closed_at (s : GenerationState) (k : RequestKey) : Prop :=
  forall r, gs_requests s !! k = Some r -> rr_caller (or_lifecycle r) <> CO_Open.

Lemma quiet_schedule s k at_ kind :
  closed_at s k -> quiet s (gs_schedule_deadline s k at_ kind).1.
Proof.
  intros Hc. unfold gs_schedule_deadline. destruct (gs_requests s !! k) as [r|] eqn:Hk; [|done].
  specialize (Hc r Hk).
  destruct (checked_add u64_max _ 1) as [v|] eqn:Hv; cbn; [|by apply quiet_fields].
  apply checked_add_Some in Hv as [Hv ->].
  etrans; [apply (quiet_put s k r (r <| or_deadline_version := or_deadline_version r + 1 |>));
           [done|evolve|done]|].
  by apply quiet_fields.
Qed.

Lemma quiet_settle s k now committed :
  closed_at s k -> quiet s (gs_settle_unanswered s k now committed).1.
Proof.
  intros Hc. unfold gs_settle_unanswered. destruct committed.
  - pose proof (quiet_schedule s k (time_add now (gs_tombstone_drain_timeout s)) DK_Tombstone Hc).
    by destruct (gs_schedule_deadline _ _ _ _).
  - pose proof (quiet_rollback s k). by destruct (gs_rollback s k).
Qed.

(** A lifecycle event that answers the caller leaves it answered in the table. *)
Lemma closed_put s k (r' : OwnedRequest) :
  rr_caller (or_lifecycle r') <> CO_Open -> closed_at (put_request s k r') k.
Proof. intros Hc r. gs_simpl. rewrite lookup_insert_eq. by intros [= <-]. Qed.

#[export] Hint Resolve quiet_release_payload quiet_release quiet_rollback : smb.

(** ** Every handler but admission only evolves the table *)

Lemma quiet_request_event s k e : quiet s (gs_request_event s k e).1.
Proof.
  unfold gs_request_event. case_bool_decide; [done|].
  destruct (gs_requests s !! k) as [r|] eqn:Hk; [|done].
  pose proof (quiet_lifecycle s k r (progress_event e) Hk) as Hq.
  destruct (rr_reduce _ _) as [l eff]. cbn in *.
  etrans; [apply Hq; intros; by destruct e|]. destruct e; eauto with smb; done.
Qed.

Lemma quiet_cancel s k now : quiet s (gs_cancel s k now).1.
Proof.
  unfold gs_cancel. case_bool_decide; [done|].
  destruct (gs_requests s !! k) as [r|] eqn:Hk; [|done].
  destruct (or_cancel_seen r); [done|]. destruct (negb _).
  { apply (quiet_put s k r); [done|evolve|done]. }
  pose proof (evolves_lifecycle r RE_Cancel) as He.
  pose proof (rr_reduce_response (or_lifecycle r) RE_Cancel ltac:(done) ltac:(done)) as Hr.
  pose proof (rr_reduce_terminal_event (or_lifecycle r) RE_Cancel I) as Hc.
  destruct (rr_reduce _ _) as [l eff]. cbn in *.
  pose proof (quiet_settle (put_request s k (r <| or_cancel_seen := true |> <| or_lifecycle := l |>))
    k now (rr_wire_committed (or_lifecycle r)) ltac:(by apply closed_put)) as Hs.
  destruct (gs_settle_unanswered _ _ _ _). cbn in *.
  etrans; [|exact Hs]. apply (quiet_put s k r); [done| |done].
  etrans; [exact He|evolve].
Qed.

Lemma quiet_expire s now e : quiet s (gs_expire s now e).1.
Proof.
  unfold gs_expire. destruct (gs_requests s !! de_key e) as [r|] eqn:Hk; [|done].
  case_bool_decide; [done|]. destruct (de_kind e).
  - destruct (negb _); [done|].
    pose proof (quiet_lifecycle s _ r RE_Deadline Hk ltac:(done) ltac:(done)) as Hq.
    pose proof (rr_reduce_terminal_event (or_lifecycle r) RE_Deadline I) as Hc.
    destruct (rr_reduce _ _) as [l eff]. cbn in *.
    pose proof (quiet_settle (put_request s (de_key e) (r <| or_lifecycle := l |>))
      (de_key e) now (rr_wire_committed (or_lifecycle r)) ltac:(by apply closed_put)) as Hs.
    destruct (gs_settle_unanswered _ _ _ _). cbn in *. by etrans.
  - destruct (_ && _); [by apply quiet_fields|done].
Qed.

Lemma quiet_advance_loop fuel s now effs : quiet s (gs_advance_loop fuel s now effs).1.
Proof.
  revert s effs. induction fuel as [|fuel IH]; intros s effs; cbn; [done|].
  destruct (heap_pop _) as [[e rest]|]; [|done]. case_bool_decide; [|done].
  pose proof (quiet_expire (s <| gs_deadlines := rest |>) now e) as Hq.
  destruct (gs_expire _ _ _) as [s' more]. cbn in *.
  etrans; [|apply IH]. etrans; [|exact Hq]. by apply quiet_fields.
Qed.

Lemma quiet_publish s k r o :
  gs_requests s !! k = Some r ->
  quiet s (put_request s k (r <| or_lifecycle := (rr_publish_terminal (or_lifecycle r) o).1 |>)).
Proof.
  intros Hk. unfold rr_publish_terminal, rr_publish_once.
  case_bool_decide; apply (quiet_put s k r); try done; evolve.
Qed.

Lemma quiet_prepare_failed s k : quiet s (gs_prepare_failed s k).1.
Proof.
  unfold gs_prepare_failed. case_bool_decide; [done|].
  destruct (gs_requests s !! k) as [r|] eqn:Hk; [|done].
  destruct (rr_wire_committed _); [done|].
  pose proof (quiet_publish s k r TO_PreparationFailed Hk) as Hq.
  destruct (rr_publish_terminal _ _) as [l eff]. cbn in *.
  pose proof (quiet_rollback (put_request s k (r <| or_lifecycle := l |>)) k) as Hs.
  destruct (gs_rollback _ _). cbn in *. by etrans.
Qed.

Lemma quiet_recovery_hint s k : quiet s (gs_recovery_hint s k).1.
Proof.
  unfold gs_recovery_hint. case_bool_decide; [done|].
  destruct (gs_requests s !! k) as [r|] eqn:Hk; [|done].
  pose proof (quiet_lifecycle s k r (RE_RecoveryHint k) Hk ltac:(done) ltac:(done)) as Hq.
  destruct (rr_reduce _ _) as [l eff]. cbn in *. etrans; [exact Hq|]. apply quiet_release.
Qed.

Lemma quiet_disconnect_one network s effs k : quiet s (gs_disconnect_one network (s, effs) k).1.
Proof.
  unfold gs_disconnect_one. destruct (gs_requests s !! k) as [r|] eqn:Hk.
  - pose proof (quiet_lifecycle s k r (RE_Disconnect network) Hk ltac:(done) ltac:(done)) as Hq.
    destruct (rr_reduce _ _) as [l eff]. cbn in *. etrans; [exact Hq|]. apply quiet_release.
  - cbn. apply quiet_release.
Qed.

Lemma quiet_disconnect_all network s effs keys :
  quiet s (foldl (gs_disconnect_one network) (s, effs) keys).1.
Proof.
  revert s effs. induction keys as [|k keys IH]; intros s effs; cbn -[gs_disconnect_one]; [done|].
  pose proof (quiet_disconnect_one network s effs k) as Hq.
  destruct (gs_disconnect_one _ _ _) as [s' effs']. cbn in *. etrans; [exact Hq|]. apply IH.
Qed.

Lemma quiet_bookkeeping s k r grant :
  gs_requests s !! k = Some r -> quiet s (response_bookkeeping s k r grant).1.
Proof.
  intros Hk. unfold response_bookkeeping. cbn.
  etrans; [|apply (quiet_put _ k r); [|split; cbn; try done|]].
  - by apply quiet_fields; unfold settle_credit_totals; repeat case_match.
  - unfold settle_credit_totals. by repeat case_match.
  - unfold rr_observe_response_commitment. by case_match.
  - unfold rr_observe_response_commitment. by case_match.
  - unfold rr_observe_response_commitment, rr_wire_committed. by case_match.
  - unfold rr_observe_response_commitment. by case_match.
  - cbn. unfold rr_observe_response_commitment. by case_match.
Qed.

#[export] Hint Resolve quiet_request_event quiet_cancel quiet_expire quiet_advance_loop
  quiet_prepare_failed quiet_recovery_hint quiet_disconnect_one quiet_disconnect_all : smb.

(** ** Every handler keeps the accounting *)

Lemma accounting_fields s s' :
  accounting s -> gs_limits s' = gs_limits s ->
  gs_admitted_operations s' = gs_admitted_operations s ->
  gs_retained_payload_bytes s' = gs_retained_payload_bytes s ->
  gs_requests s' = gs_requests s -> accounting s'.
Proof. intros [] E1 E2 E3 E4. split; rewrite ?E1, ?E2, ?E3, ?E4; assumption. Qed.

(** An update of a request that moves neither of its two reservations. *)
Lemma accounting_touch s s' k r r' :
  accounting s -> gs_limits s' = gs_limits s ->
  gs_admitted_operations s' = gs_admitted_operations s ->
  gs_retained_payload_bytes s' = gs_retained_payload_bytes s ->
  gs_requests s' = gs_requests s -> gs_requests s !! k = Some r ->
  or_payload_bytes r' = or_payload_bytes r ->
  or_admission_held r' = or_admission_held r ->
  or_payload_held r' = or_payload_held r ->
  accounting (put_request s' k r').
Proof.
  intros Ha E1 E2 E3 E4 Hk ???. apply (accounting_put s' k r); [|by rewrite E4|done..].
  by apply (accounting_fields s).
Qed.

Lemma accounting_rollback s k : accounting s -> accounting (gs_rollback s k).1.
Proof.
  intros Ha. unfold gs_rollback. destruct (gs_requests s !! k) as [r|] eqn:Hk; [|done].
  destruct (_ && _); [done|]. destruct (or_credit_obligation r); [|by apply accounting_release].
  destruct (checked_add _ _ _); [|done]. apply accounting_release.
  by eapply (accounting_touch s _ k r).
Qed.

Lemma accounting_schedule s k at_ kind :
  accounting s -> accounting (gs_schedule_deadline s k at_ kind).1.
Proof.
  intros Ha. unfold gs_schedule_deadline.
  destruct (gs_requests s !! k) as [r|] eqn:Hk; [|done].
  destruct (checked_add u64_max _ 1) as [v|]; cbn; [|by apply (accounting_fields s)].
  apply (accounting_fields (put_request s k (r <| or_deadline_version := v |>)));
    [|reflexivity..]. by apply (accounting_touch s s k r).
Qed.

Lemma accounting_settle s k now committed :
  accounting s -> accounting (gs_settle_unanswered s k now committed).1.
Proof.
  intros Ha. unfold gs_settle_unanswered. destruct committed.
  - pose proof (accounting_schedule s k (time_add now (gs_tombstone_drain_timeout s))
      DK_Tombstone Ha). by destruct (gs_schedule_deadline _ _ _ _).
  - pose proof (accounting_rollback s k Ha). by destruct (gs_rollback s k).
Qed.

Lemma accounting_request_event s k e :
  accounting s -> accounting (gs_request_event s k e).1.
Proof.
  intros Ha. unfold gs_request_event. case_bool_decide; [done|].
  destruct (gs_requests s !! k) as [r|] eqn:Hk; [|done].
  destruct (rr_reduce _ _) as [l eff]. cbn.
  assert (accounting (put_request s k (r <| or_lifecycle := l |>)))
    by by apply (accounting_touch s s k r).
  destruct e; [done..|]. by apply accounting_release_payload.
Qed.

Lemma accounting_cancel s k now : accounting s -> accounting (gs_cancel s k now).1.
Proof.
  intros Ha. unfold gs_cancel. case_bool_decide; [done|].
  destruct (gs_requests s !! k) as [r|] eqn:Hk; [|done].
  destruct (or_cancel_seen r); [done|].
  destruct (negb _); [by apply (accounting_touch s s k r)|].
  destruct (rr_reduce _ _) as [l eff]. cbn.
  pose proof (accounting_settle
    (put_request s k (r <| or_cancel_seen := true |> <| or_lifecycle := l |>))
    k now (rr_wire_committed (or_lifecycle r))) as Hs.
  destruct (gs_settle_unanswered _ _ _ _). cbn in *. apply Hs.
  by apply (accounting_touch s s k r).
Qed.

Lemma accounting_expire s now e : accounting s -> accounting (gs_expire s now e).1.
Proof.
  intros Ha. unfold gs_expire. destruct (gs_requests s !! de_key e) as [r|] eqn:Hk; [|done].
  case_bool_decide; [done|]. destruct (de_kind e).
  - destruct (negb _); [done|]. destruct (rr_reduce _ _) as [l eff]. cbn.
    pose proof (accounting_settle (put_request s (de_key e) (r <| or_lifecycle := l |>))
      (de_key e) now (rr_wire_committed (or_lifecycle r))) as Hs.
    destruct (gs_settle_unanswered _ _ _ _). cbn in *. apply Hs.
    by apply (accounting_touch s s (de_key e) r).
  - destruct (_ && _); [by apply (accounting_fields s)|done].
Qed.

Lemma accounting_prepare_failed s k : accounting s -> accounting (gs_prepare_failed s k).1.
Proof.
  intros Ha. unfold gs_prepare_failed. case_bool_decide; [done|].
  destruct (gs_requests s !! k) as [r|] eqn:Hk; [|done].
  destruct (rr_wire_committed _); [done|].
  destruct (rr_publish_terminal _ _) as [l eff]. cbn.
  pose proof (accounting_rollback (put_request s k (r <| or_lifecycle := l |>)) k) as Hs.
  destruct (gs_rollback _ _). cbn in *. apply Hs. by apply (accounting_touch s s k r).
Qed.

Lemma accounting_recovery_hint s k : accounting s -> accounting (gs_recovery_hint s k).1.
Proof.
  intros Ha. unfold gs_recovery_hint. case_bool_decide; [done|].
  destruct (gs_requests s !! k) as [r|] eqn:Hk; [|done].
  destruct (rr_reduce _ _) as [l eff]. cbn. apply accounting_release.
  by apply (accounting_touch s s k r).
Qed.

Lemma accounting_disconnect_one network s effs k :
  accounting s -> accounting (gs_disconnect_one network (s, effs) k).1.
Proof.
  intros Ha. unfold gs_disconnect_one. destruct (gs_requests s !! k) as [r|] eqn:Hk.
  - destruct (rr_reduce _ _) as [l eff]. cbn. apply accounting_release.
    by apply (accounting_touch s s k r).
  - cbn. by apply accounting_release.
Qed.

Lemma accounting_bookkeeping s k r grant :
  accounting s -> gs_requests s !! k = Some r ->
  accounting (response_bookkeeping s k r grant).1.
Proof.
  intros Ha Hk. unfold response_bookkeeping. cbn.
  set (s1 := settle_credit_totals s r grant).
  assert (E : gs_limits s1 = gs_limits s /\ gs_admitted_operations s1 = gs_admitted_operations s
    /\ gs_retained_payload_bytes s1 = gs_retained_payload_bytes s /\
    gs_requests s1 = gs_requests s) by (subst s1; unfold settle_credit_totals; by case_match).
  destruct E as (E1 & E2 & E3 & E4).
  assert (Ha1 : accounting s1) by by apply (accounting_fields s).
  set (r' := r <| or_credit_response_seen := _ |> <| or_lifecycle := _ |>
               <| or_payload_held := _ |>).
  pose proof (accounting_drop_payload s1 k r r' Ha1) as Hd. rewrite E4 in Hd.
  specialize (Hd Hk eq_refl eq_refl eq_refl).
  destruct (or_payload_held r); [exact Hd|].
  apply (accounting_fields _ _ Hd); done.
Qed.

Lemma accounting_response s k e grant : accounting s -> accounting (gs_response s k e grant).1.
Proof.
  intros Ha. unfold gs_response. case_bool_decide; [done|].
  destruct (async_conflict s k e) as [[??]|]; [by apply (accounting_fields s)|].
  destruct (gs_requests s !! k) as [r|] eqn:Hk; [|done].
  destruct (async_changed r e) as [[??]|]; [by apply (accounting_fields s)|].
  case_bool_decide; [done|].
  pose proof (accounting_bookkeeping s k r grant Ha Hk) as Hb.
  set (b := response_bookkeeping s k r grant) in *.
  assert (Hk1 : gs_requests b.1 !! k = Some b.2).
  { subst b. cbn. gs_simpl. apply lookup_insert_eq. }
  destruct b as [s1 r1]. cbn in *.
  destruct (checked_add u32_max _ grant) as [av|]; [|by apply (accounting_fields s1)].
  destruct (rr_reduce _ _) as [l eff]. cbn in *.
  set (s2 := put_request (s1 <| gs_available_credits := av |>) k (r1 <| or_lifecycle := l |>)).
  assert (Ha2 : accounting s2) by by eapply (accounting_touch s1 _ k r1).
  destruct e; cbn; [by apply (accounting_fields s2)|].
  unfold finalize_response. set (s3 := match rr_response _ with RP_AsyncPending _ => _ | _ => s2 end).
  assert (Ha3 : accounting s3) by (subst s3; case_match; try by apply (accounting_fields s2)).
  assert (Hk3 : gs_requests s3 !! k = Some (r1 <| or_lifecycle := l |>)).
  { subst s3 s2. case_match; gs_simpl; apply lookup_insert_eq. }
  destruct (checked_add u64_max _ 1); cbn; apply accounting_release;
    by eapply (accounting_touch s3 _ k).
Qed.

(** ** Every handler keeps each request well formed *)

Lemma caller_open_true r : caller_open r = true <-> rr_caller (or_lifecycle r) = CO_Open.
Proof. unfold caller_open. apply bool_decide_eq_true. Qed.

Lemma caller_is_open_true l : rr_caller_is_open l = true <-> rr_caller l = CO_Open.
Proof. unfold rr_caller_is_open. destruct (rr_caller l); naive_solver. Qed.

Lemma or_wf_released k r :
  or_wf k r -> rr_caller (or_lifecycle r) <> CO_Open -> or_wf k (released r).
Proof.
  intros [] Hc. split; cbn; try assumption; try done.
  - intros H%caller_open_true. done.
  - intros H. specialize (wf_final0 H). tauto.
Qed.

Lemma or_wf_drop_payload k r : or_wf k r -> or_wf k (r <| or_payload_held := false |>).
Proof.
  intros []. split; cbn; try assumption; try done.
  intros H. specialize (wf_final0 H). tauto.
Qed.

Lemma or_wf_lifecycle k r e :
  (forall k id, e <> RE_AsyncPending k id) -> (forall k, e <> RE_FinalResponse k) ->
  or_wf k r -> or_wf k (r <| or_lifecycle := (rr_reduce (or_lifecycle r) e).1 |>).
Proof.
  intros H1 H2 [].
  pose proof (rr_reduce_response (or_lifecycle r) e H1 H2) as Hr.
  pose proof (evolves_lifecycle r e) as He.
  split; cbn; rewrite ?Hr.
  - by rewrite rr_reduce_key.
  - by apply rr_wf_reduce.
  - done.
  - intros Hc%caller_open_true. apply wf_open0. apply caller_open_true. cbn in Hc.
    destruct (decide (rr_caller (or_lifecycle r) = CO_Open)) as [?|Hn]; [done|].
    pose proof (ev_caller _ _ He Hn) as E. cbn in E. congruence.
  - intros Hf. destruct (wf_final0 Hf) as (?&?&?&Hn). repeat split; try done.
    pose proof (ev_caller _ _ He Hn) as E. cbn in E. congruence.
  - intros id Hid. destruct (wf_pending0 id Hid). split; [done|by apply (ev_committed _ _ He)].
  - intros Hs. by apply (ev_committed _ _ He), wf_seen0.
  - done.
  - done.
Qed.

Abbreviation wf_table s := (map_Forall or_wf (gs_requests s)).

Lemma wf_put s k r' : wf_table s -> or_wf k r' -> wf_table (put_request s k r').
Proof. intros H Hr. gs_simpl. by apply map_Forall_insert_2. Qed.

Lemma wf_release s k :
  wf_table s ->
  closed_at s k ->
  wf_table (gs_release_request_ownership s k).
Proof.
  intros H Hc. destruct (gs_requests s !! k) as [r|] eqn:Hk.
  - rewrite (gs_release_eq s k r Hk). cbn. apply map_Forall_insert_2; [|done].
    apply or_wf_released; [by apply H|by apply Hc].
  - by rewrite gs_release_absent.
Qed.

Lemma wf_rollback s k :
  wf_table s ->
  closed_at s k ->
  wf_table (gs_rollback s k).1.
Proof.
  intros H Hc. unfold gs_rollback. destruct (gs_requests s !! k) as [r|] eqn:Hk; [|done].
  specialize (Hc r Hk). pose proof (H k r Hk) as Hr.
  destruct (_ && _); [done|]. destruct (or_credit_obligation r) eqn:Ho.
  - destruct (checked_add _ _ _); [|done]. cbn [fst].
    erewrite gs_release_eq by (gs_simpl; apply lookup_insert_eq). gs_simpl.
    rewrite insert_insert_eq. apply map_Forall_insert_2; [|done].
    destruct Hr. split; cbn; try assumption; try done.
    + by intros ?%caller_open_true.
  - apply wf_release; [done|]. intros r' Hr'. congruence.
Qed.

Lemma wf_schedule s k at_ kind : wf_table s -> wf_table (gs_schedule_deadline s k at_ kind).1.
Proof.
  intros H. unfold gs_schedule_deadline. destruct (gs_requests s !! k) as [r|] eqn:Hk; [|done].
  destruct (checked_add u64_max _ 1) as [v|] eqn:Hv; cbn; [|done].
  apply checked_add_Some in Hv as [Hv ->].
  apply map_Forall_insert_2; [|done]. destruct (H k r Hk). split; cbn; try assumption. ints.
Qed.

Lemma wf_settle s k now committed :
  wf_table s ->
  closed_at s k ->
  wf_table (gs_settle_unanswered s k now committed).1.
Proof.
  intros H Hc. unfold gs_settle_unanswered. destruct committed.
  - pose proof (wf_schedule s k (time_add now (gs_tombstone_drain_timeout s)) DK_Tombstone H).
    by destruct (gs_schedule_deadline _ _ _ _).
  - pose proof (wf_rollback s k H Hc). by destruct (gs_rollback s k).
Qed.

Lemma wf_request_event s k e : wf_table s -> wf_table (gs_request_event s k e).1.
Proof.
  intros H. unfold gs_request_event. case_bool_decide; [done|].
  destruct (gs_requests s !! k) as [r|] eqn:Hk; [|done].
  pose proof (or_wf_lifecycle k r (progress_event e)) as Hl.
  destruct (rr_reduce _ _) as [l eff]. cbn in *.
  assert (Hr : or_wf k (r <| or_lifecycle := l |>)).
  { apply Hl; [intros; by destruct e..|by apply H]. }
  destruct e; cbn; try by apply wf_put.
  rewrite (gs_release_payload_eq _ k (r <| or_lifecycle := l |>));
    [|gs_simpl; apply lookup_insert_eq].
  cbn. apply map_Forall_insert_2; [by apply or_wf_drop_payload|]. by apply wf_put.
Qed.

Lemma wf_cancel s k now : wf_table s -> wf_table (gs_cancel s k now).1.
Proof.
  intros H. unfold gs_cancel. case_bool_decide; [done|].
  destruct (gs_requests s !! k) as [r|] eqn:Hk; [|done].
  pose proof (H k r Hk) as Hr. destruct (or_cancel_seen r); [done|].
  destruct (negb _); [apply wf_put; [done|by destruct Hr; split]|].
  pose proof (or_wf_lifecycle k r RE_Cancel ltac:(done) ltac:(done) Hr) as Hl.
  pose proof (rr_reduce_terminal_event (or_lifecycle r) RE_Cancel I) as Hc.
  destruct (rr_reduce _ _) as [l eff]. cbn in *.
  pose proof (wf_settle
    (put_request s k (r <| or_cancel_seen := true |> <| or_lifecycle := l |>))
    k now (rr_wire_committed (or_lifecycle r))) as Hs.
  destruct (gs_settle_unanswered _ _ _ _). cbn in *. apply Hs.
  - apply wf_put; [done|by destruct Hl; split].
  - by apply closed_put.
Qed.

Lemma wf_expire s now e : wf_table s -> wf_table (gs_expire s now e).1.
Proof.
  intros H. unfold gs_expire. destruct (gs_requests s !! de_key e) as [r|] eqn:Hk; [|done].
  case_bool_decide; [done|]. destruct (de_kind e); [|by destruct (_ && _)].
  destruct (negb _); [done|].
  pose proof (or_wf_lifecycle _ r RE_Deadline ltac:(done) ltac:(done) (H _ r Hk)) as Hl.
  pose proof (rr_reduce_terminal_event (or_lifecycle r) RE_Deadline I) as Hc.
  destruct (rr_reduce _ _) as [l eff]. cbn in *.
  pose proof (wf_settle (put_request s (de_key e) (r <| or_lifecycle := l |>))
      (de_key e) now (rr_wire_committed (or_lifecycle r))) as Hs.
  destruct (gs_settle_unanswered _ _ _ _). cbn in *. apply Hs.
  - by apply wf_put.
  - by apply closed_put.
Qed.

Lemma or_wf_publish k r o :
  or_wf k r -> or_wf k (r <| or_lifecycle := (rr_publish_terminal (or_lifecycle r) o).1 |>).
Proof.
  intros Hr. unfold rr_publish_terminal, rr_publish_once. case_bool_decide as Ho; [|by destruct r].
  destruct Hr. split; cbn; try assumption; try done.
  - unfold rr_wf, rr_wire_committed in *. cbn. intros Ht. specialize (wf_lifecycle0 Ht).
    intuition congruence.
  - intros Hf. specialize (wf_final0 Hf). naive_solver.
Qed.

Lemma wf_prepare_failed s k : wf_table s -> wf_table (gs_prepare_failed s k).1.
Proof.
  intros H. unfold gs_prepare_failed. case_bool_decide; [done|].
  destruct (gs_requests s !! k) as [r|] eqn:Hk; [|done].
  destruct (rr_wire_committed _); [done|].
  pose proof (or_wf_publish k r TO_PreparationFailed (H k r Hk)) as Hl.
  assert (Hc : rr_caller (rr_publish_terminal (or_lifecycle r) TO_PreparationFailed).1 <> CO_Open)
    by (unfold rr_publish_terminal, rr_publish_once; by case_bool_decide).
  destruct (rr_publish_terminal _ _) as [l eff]. cbn in *.
  pose proof (wf_rollback (put_request s k (r <| or_lifecycle := l |>)) k) as Hs.
  destruct (gs_rollback _ _). cbn in *. apply Hs; [by apply wf_put|].
  by apply closed_put.
Qed.

Lemma wf_recovery_hint s k : wf_table s -> wf_table (gs_recovery_hint s k).1.
Proof.
  intros H. unfold gs_recovery_hint. case_bool_decide; [done|].
  destruct (gs_requests s !! k) as [r|] eqn:Hk; [|done]. pose proof (H k r Hk) as Hr.
  pose proof (or_wf_lifecycle k r (RE_RecoveryHint k) ltac:(done) ltac:(done) Hr) as Hl.
  pose proof (rr_reduce_terminal_event (or_lifecycle r) (RE_RecoveryHint k)) as Hc.
  destruct (rr_reduce _ _) as [l eff]. cbn in *. apply wf_release; [by apply wf_put|].
  apply closed_put. apply Hc. by rewrite (wf_key _ _ Hr).
Qed.

Lemma wf_disconnect_one network s effs k :
  wf_table s -> wf_table (gs_disconnect_one network (s, effs) k).1.
Proof.
  intros H. unfold gs_disconnect_one. destruct (gs_requests s !! k) as [r|] eqn:Hk.
  - pose proof (or_wf_lifecycle k r (RE_Disconnect network) ltac:(done) ltac:(done) (H k r Hk)) as Hl.
    pose proof (rr_reduce_terminal_event (or_lifecycle r) (RE_Disconnect network) I) as Hc.
    destruct (rr_reduce _ _) as [l eff]. cbn in *. apply wf_release; [by apply wf_put|].
    by apply closed_put.
  - cbn. by rewrite gs_release_absent.
Qed.
