(* ===== verification/GenReach.v ===== *)
(** Admission and responses keep the invariant of a generation, hence every
    reachable state of [GenerationState] has it
    (crates/smb/src/runtime/state.rs). *)
From S2P Require Import Prelude Clock Reducer GenState GenInv.
Local Open Scope Z_scope.

(** ** Responses *)

(** The request after the bookkeeping of a response. *)
Definition answered (r : OwnedRequest) : OwnedRequest :=
  r <| or_credit_response_seen := true |>
    <| or_lifecycle := rr_observe_response_commitment (or_lifecycle r) |>
    <| or_payload_held := false |>.

Lemma response_bookkeeping_request s k r grant :
  (response_bookkeeping s k r grant).2 = answered r.
Proof. done. Qed.

Lemma response_bookkeeping_requests s k r grant :
  gs_requests (response_bookkeeping s k r grant).1 = <[k := answered r]> (gs_requests s) /\
  gs_async_index (response_bookkeeping s k r grant).1 = gs_async_index s.
Proof.
  unfold response_bookkeeping, settle_credit_totals, answered. cbn.
  destruct (or_credit_response_seen r), (or_payload_held r); done.
Qed.

Lemma rr_observe_props l :
  rr_key (rr_observe_response_commitment l) = rr_key l /\
  rr_caller (rr_observe_response_commitment l) = rr_caller l /\
  rr_response (rr_observe_response_commitment l) = rr_response l /\
  rr_wire_committed (rr_observe_response_commitment l) = true.
Proof. unfold rr_observe_response_commitment, rr_wire_committed. by case_match. Qed.

Lemma or_wf_answered k r :
  or_wf k r -> rr_response (or_lifecycle r) <> RP_Final -> or_wf k (answered r).
Proof.
  intros [Wkey Wlc Wpay Wopen Wfin Wpend Wseen Wver Wadm] Hf. destruct (rr_observe_props (or_lifecycle r)) as (E1 & E2 & E3 & E4).
  split; cbn; rewrite ?E1, ?E2, ?E3, ?E4; try assumption; try done.
  - by apply rr_wf_observe.
  - intros Hc. apply Wopen. rewrite caller_open_true in *. cbn in Hc. by rewrite <- E2.
Qed.

Lemma rr_reduce_pending_own l k id :
  rr_key l = k -> rr_response l <> RP_Final ->
  rr_reduce l (RE_AsyncPending k id) =
  (l <| rr_response := RP_AsyncPending id |>, Eff_BookkeepingOnly).
Proof. intros <- Hf. cbn. rewrite !bool_decide_eq_false_2 by naive_solver. done. Qed.

Lemma rr_reduce_final_own l k :
  rr_key l = k ->
  rr_reduce l (RE_FinalResponse k) =
  rr_publish_once (l <| rr_response := RP_Final |> <| rr_tombstone := false |>) TO_Response.
Proof. intros <-. cbn. by rewrite !bool_decide_eq_false_2 by naive_solver. Qed.

Lemma or_wf_pending k r id :
  or_wf k r -> rr_response (or_lifecycle r) <> RP_Final ->
  or_credit_response_seen r = true ->
  or_wf k (r <| or_lifecycle := (rr_reduce (or_lifecycle r) (RE_AsyncPending k id)).1 |>).
Proof.
  intros [Wkey Wlc Wpay Wopen Wfin Wpend Wseen Wver Wadm] Hf Hs. rewrite rr_reduce_pending_own by done.
  split; cbn; try assumption; try done.
  - unfold rr_wf, rr_wire_committed in *. cbn. intros Ht. specialize (Wlc Ht).
    intuition congruence.
  - intros id' _. split; [done|]. by apply Wseen.
Qed.

(** A request whose final response has been accounted for. *)
Definition finished (r : OwnedRequest) (l : RequestRecord) (version : Z) : OwnedRequest :=
  released (r <| or_lifecycle := l |> <| or_credit_obligation := false |>
              <| or_deadline_version := version |>).

Lemma or_wf_finished k r version :
  or_wf k r -> in_range u64_max version ->
  or_wf k (finished r (rr_reduce (or_lifecycle r) (RE_FinalResponse k)).1 version).
Proof.
  intros [Wkey Wlc Wpay Wopen Wfin Wpend Wseen Wver Wadm] Hv. rewrite rr_reduce_final_own by done.
  pose proof (rr_wf_reduce (or_lifecycle r) (RE_FinalResponse k) Wlc) as Hl.
  rewrite rr_reduce_final_own in Hl by done.
  assert (Hc : rr_caller (rr_publish_once ((or_lifecycle r) <| rr_response := RP_Final |>
     <| rr_tombstone := false |>) TO_Response).1 <> CO_Open)
    by (unfold rr_publish_once; by case_bool_decide).
  unfold rr_publish_once in *.
  case_bool_decide as Hb; cbn [fst snd] in *; split; cbn; try assumption; try done;
    by intros H%caller_open_true.
Qed.

(** The state a final response leaves behind. *)
Lemma finalize_response_requests s k r previous :
  gs_requests s !! k = Some r -> in_range u64_max (or_deadline_version r) ->
  exists version, in_range u64_max version /\
  gs_requests (finalize_response s k r previous).1 =
    <[k := finished r (or_lifecycle r) version]> (gs_requests s) /\
  gs_async_index (finalize_response s k r previous).1 =
    match previous with
    | RP_AsyncPending id => delete id (gs_async_index s)
    | _ => gs_async_index s
    end.
Proof.
  intros Hk Hv. unfold finalize_response.
  set (s1 := match previous with RP_AsyncPending _ => _ | _ => s end).
  assert (E1 : gs_requests s1 = gs_requests s) by (by subst s1; destruct previous).
  assert (E2 : gs_async_index s1 = match previous with
    | RP_AsyncPending id => delete id (gs_async_index s) | _ => gs_async_index s end)
    by (by subst s1; destruct previous).
  clearbody s1.
  destruct (checked_add u64_max _ 1) as [v|] eqn:Ev.
  - apply checked_add_Some in Ev as [Hle ->]. cbn [or_deadline_version] in *.
    exists (or_deadline_version r + 1). split; [cbn in *; ints|]. cbn [fst].
    erewrite gs_release_eq by (gs_simpl; apply lookup_insert_eq). gs_simpl.
    rewrite insert_insert_eq, E1, E2. done.
  - exists (or_deadline_version r). split; [done|]. cbn [fst].
    erewrite gs_release_eq by (gs_simpl; apply lookup_insert_eq). gs_simpl.
    rewrite insert_insert_eq, E1, E2. by destruct r.
Qed.

(** What a response does to the request table and to the async index. *)
Inductive response_outcome (s : GenerationState) (k : RequestKey) (e : ResponseEvent)
    (s' : GenerationState) : Prop :=
| RO_ignored :
    gs_requests s' = gs_requests s -> gs_async_index s' = gs_async_index s ->
    response_outcome s k e s'
| RO_overflow r :
    gs_requests s !! k = Some r -> rr_response (or_lifecycle r) <> RP_Final ->
    gs_requests s' = <[k := answered r]> (gs_requests s) ->
    gs_async_index s' = gs_async_index s ->
    response_outcome s k e s'
| RO_pending r id :
    e = RV_Pending id ->
    gs_requests s !! k = Some r -> rr_response (or_lifecycle r) <> RP_Final ->
    (forall id', rr_response (or_lifecycle r) = RP_AsyncPending id' -> id' = id) ->
    (forall k', gs_async_index s !! id = Some k' -> k' = k) ->
    gs_requests s' = <[k := (answered r) <| or_lifecycle :=
      (rr_reduce (or_lifecycle (answered r)) (RE_AsyncPending k id)).1 |>]> (gs_requests s) ->
    gs_async_index s' = <[id := k]> (gs_async_index s) ->
    response_outcome s k e s'
| RO_final r version :
    e = RV_Final ->
    gs_requests s !! k = Some r -> rr_response (or_lifecycle r) <> RP_Final ->
    in_range u64_max version ->
    gs_requests s' = <[k := finished (answered r)
      (rr_reduce (or_lifecycle (answered r)) (RE_FinalResponse k)).1 version]> (gs_requests s) ->
    gs_async_index s' =
      match rr_response (or_lifecycle r) with
      | RP_AsyncPending id => delete id (gs_async_index s)
      | _ => gs_async_index s
      end ->
    response_outcome s k e s'.

Lemma async_conflict_None s k id k' :
  async_conflict s k (RV_Pending id) = None -> gs_async_index s !! id = Some k' -> k' = k.
Proof.
  unfold async_conflict. intros H Hk. rewrite Hk in H. by case_bool_decide.
Qed.

Lemma async_changed_None r id id' :
  async_changed r (RV_Pending id) = None ->
  rr_response (or_lifecycle r) = RP_AsyncPending id' -> id' = id.
Proof.
  unfold async_changed. intros H Hr. rewrite Hr in H. by case_bool_decide.
Qed.

Lemma gs_response_outcome s k e grant :
  wf_table s -> response_outcome s k e (gs_response s k e grant).1.
Proof.
  intros Hwf. unfold gs_response. case_bool_decide; [by apply RO_ignored|].
  destruct (async_conflict s k e) as [[??]|] eqn:Hconf; [by apply RO_ignored|].
  destruct (gs_requests s !! k) as [r|] eqn:Hk; [|by apply RO_ignored].
  destruct (async_changed r e) as [[??]|] eqn:Hch; [by apply RO_ignored|].
  case_bool_decide as Hf; [by apply RO_ignored|].
  pose proof (response_bookkeeping_requests s k r grant) as [Ereq Easync].
  pose proof (response_bookkeeping_request s k r grant) as Er.
  destruct (response_bookkeeping s k r grant) as [s1 r1]. cbn in Ereq, Easync, Er. subst r1.
  destruct (checked_add u32_max _ grant) as [av|]; [|by eapply RO_overflow].
  destruct e as [id|].
  - cbv beta iota zeta.
    destruct (rr_reduce (or_lifecycle (answered r)) (RE_AsyncPending k id)) as [l eff] eqn:El.
    eapply RO_pending; [done|done|done| | | |].
    + intros id'. by apply (async_changed_None r).
    + intros k'. by apply (async_conflict_None s).
    + rewrite El. cbn [fst]. gs_simpl. by rewrite Ereq, insert_insert_eq.
    + gs_simpl. by rewrite Easync.
  - cbv beta iota zeta.
    destruct (rr_reduce (or_lifecycle (answered r)) (RE_FinalResponse k)) as [l eff] eqn:El.
    set (s2 := put_request _ k _).
    destruct (finalize_response_requests s2 k ((answered r) <| or_lifecycle := l |>)
      (rr_response (or_lifecycle r))) as (v & Hv & F1 & F2).
    { subst s2. gs_simpl. apply lookup_insert_eq. }
    { apply (wf_version _ _ (Hwf k r Hk)). }
    destruct (finalize_response _ _ _ _) as [s3 more]. cbn in F1, F2 |- *.
    apply (RO_final s k RV_Final _ r v); try done.
    + rewrite El. cbn [fst snd]. rewrite F1. subst s2. gs_simpl.
      by rewrite Ereq, !insert_insert_eq.
    + rewrite F2. subst s2. gs_simpl. by rewrite Easync.
Qed.

Lemma wf_response s k e grant : wf_table s -> wf_table (gs_response s k e grant).1.
Proof.
  intros H. destruct (gs_response_outcome s k e grant H)
    as [-> _|r Hk Hf -> _|r id -> Hk Hf _ _ -> _|r v -> Hk Hf Hv -> _]; [done| | |];
    apply map_Forall_insert_2; try done; pose proof (or_wf_answered k r (H k r Hk) Hf) as Ha.
  - done.
  - apply or_wf_pending; [done| |done]. cbn. by rewrite (proj1 (proj2 (proj2 (rr_observe_props _)))).
  - by apply or_wf_finished.
Qed.

Lemma frame_finalize s k r previous :
  gs_requests s !! k = Some r -> rr_caller (or_lifecycle r) <> CO_Open ->
  frame s (finalize_response s k r previous).1.
Proof.
  intros Hk Hv. unfold finalize_response.
  set (s1 := match previous with RP_AsyncPending _ => _ | _ => s end).
  assert (Hs1 : frame s s1) by (by subst s1; destruct previous; apply frame_fields).
  assert (Hk1 : gs_requests s1 !! k = Some r) by (by subst s1; destruct previous).
  destruct (checked_add u64_max _ 1) as [v|] eqn:Ev; cbn.
  - apply checked_add_Some in Ev as [? ->]. cbn in *.
    etrans; [exact Hs1|]. etrans; [|apply quiet_release].
    apply (frame_put s1 k r); [done|evolve].
  - etrans; [exact Hs1|]. etrans; [|apply quiet_release].
    etrans; [|apply (frame_put _ k r); [exact Hk1|evolve]]. by apply frame_fields.
Qed.

Lemma frame_response s k e grant :
  wf_table s -> frame s (gs_response s k e grant).1.
Proof.
  intros Hwf. unfold gs_response. case_bool_decide; [done|].
  destruct (async_conflict s k e) as [[??]|]; [by apply frame_fields|].
  destruct (gs_requests s !! k) as [r|] eqn:Hk; [|done].
  destruct (async_changed r e) as [[??]|]; [by apply frame_fields|].
  case_bool_decide; [done|].
  pose proof (quiet_bookkeeping s k r grant Hk) as [Hb _ _].
  set (b := response_bookkeeping s k r grant) in *.
  assert (Hk1 : gs_requests b.1 !! k = Some b.2).
  { subst b. cbn. gs_simpl. apply lookup_insert_eq. }
  assert (Hkey : rr_key (or_lifecycle b.2) = k).
  { subst b. cbn. rewrite (proj1 (rr_observe_props _)). apply (Hwf k r Hk). }
  destruct b as [s1 r1]. cbn in *.
  destruct (checked_add u32_max _ grant) as [av|];
    [|by etrans; [exact Hb|]; apply frame_fields].
  pose proof (evolves_lifecycle r1 match e with RV_Pending id => RE_AsyncPending k id
                                   | RV_Final => RE_FinalResponse k end) as He.
  pose proof (rr_reduce_terminal_event (or_lifecycle r1) (RE_FinalResponse k) (eq_sym Hkey)) as Hc.
  set (ev := match e with RV_Pending _ => _ | RV_Final => _ end) in *.
  destruct (rr_reduce (or_lifecycle r1) ev) as [l eff] eqn:El. cbn [fst] in He.
  assert (Hp : frame s (put_request (s1 <| gs_available_credits := av |>) k
                          (r1 <| or_lifecycle := l |>))).
  { etrans; [exact Hb|]. etrans; [|apply (frame_put _ k r1); [exact Hk1|done]].
    by apply frame_fields. }
  destruct e; cbn; [by etrans; [exact Hp|]; apply frame_fields|].
  pose proof (frame_finalize (put_request (s1 <| gs_available_credits := av |>) k
    (r1 <| or_lifecycle := l |>)) k (r1 <| or_lifecycle := l |>)
    (rr_response (or_lifecycle r))) as Hf.
  destruct (finalize_response _ _ _ _). cbn in *. etrans; [exact Hp|]. apply Hf.
  - gs_simpl. apply lookup_insert_eq.
  - subst ev. by rewrite El in Hc.
Qed.

(** ** The async index *)

Lemma async_quiet s s' : quiet s s' -> async_ok s -> async_ok s'.
Proof.
  intros [_ E R] H id k. rewrite E, (H id k). specialize (R k).
  unfold response_of in R.
  destruct (gs_requests s !! k) as [r|], (gs_requests s' !! k) as [r'|]; cbn in R;
    simplify_eq; naive_solver congruence.
Qed.

Lemma async_response s k e grant :
  wf_table s -> async_ok s -> async_ok (gs_response s k e grant).1.
Proof.
  intros Hwf H. destruct (gs_response_outcome s k e grant Hwf)
    as [E1 E2|r Hk Hf E1 E2|r id -> Hk Hf Hch Hco E1 E2|r v -> Hk Hf Hv E1 E2];
    intros id' k'; rewrite E1, E2.
  - apply H.
  - rewrite (H id' k'). destruct (decide (k = k')) as [<-|Hne].
    + rewrite Hk, lookup_insert_eq. split; intros (r' & [= <-] & Hr); eexists; split; eauto;
        cbn in *; by rewrite (proj1 (proj2 (proj2 (rr_observe_props _)))) in *.
    + by rewrite lookup_insert_ne.
  - assert (Hresp : rr_response (rr_reduce (or_lifecycle (answered r)) (RE_AsyncPending k id)).1
      = RP_AsyncPending id).
    { pose proof (or_wf_answered k r (Hwf k r Hk) Hf) as Ha. rewrite rr_reduce_pending_own.
      - done.
      - apply Ha.
      - cbn. by rewrite (proj1 (proj2 (proj2 (rr_observe_props _)))). }
    set (l := (rr_reduce (or_lifecycle (answered r)) (RE_AsyncPending k id)).1) in *.
    clearbody l. destruct (decide (k = k')) as [<-|Hne].
    + rewrite lookup_insert_eq. split.
      * intros Hid. eexists; split; [done|]. cbn. rewrite Hresp.
        destruct (decide (id = id')) as [->|Hid']; [done|].
        rewrite lookup_insert_ne in Hid by done.
        apply (H id' k) in Hid as (r' & Hr' & Hp). simplify_eq. by rewrite (Hch _ Hp) in Hid'.
      * intros (r' & [= <-] & Hr'). cbn in Hr'. rewrite Hresp in Hr'. simplify_eq.
        by rewrite lookup_insert_eq.
    + rewrite (lookup_insert_ne (gs_requests s) k k') by done. destruct (decide (id = id')) as [->|Hid'].
      * rewrite lookup_insert_eq. split; [naive_solver|].
        intros Hr. apply H in Hr. by rewrite (Hco _ Hr).
      * rewrite lookup_insert_ne by done. apply H.
  - assert (Hresp : rr_response (rr_reduce (or_lifecycle (answered r)) (RE_FinalResponse k)).1
      = RP_Final).
    { pose proof (or_wf_answered k r (Hwf k r Hk) Hf) as Ha. rewrite rr_reduce_final_own.
      - unfold rr_publish_once. by case_bool_decide.
      - apply Ha. }
    set (l := (rr_reduce (or_lifecycle (answered r)) (RE_FinalResponse k)).1) in *.
    clearbody l.
    assert (Hdel : forall id'' k'', match rr_response (or_lifecycle r) with
      | RP_AsyncPending id => delete id (gs_async_index s) | _ => gs_async_index s end
      !! id'' = Some k'' <-> k'' <> k /\ gs_async_index s !! id'' = Some k'').
    { intros id'' k''. destruct (rr_response (or_lifecycle r)) as [|idp|] eqn:Hp.
      - split; [|naive_solver]. intros Hin. split; [|done]. intros ->.
        apply H in Hin as (? & ? & ?). congruence.
      - rewrite lookup_delete_Some. split.
        + intros [Hn Hin]. split; [|done]. intros ->. apply H in Hin as (? & ? & ?). congruence.
        + intros [Hn Hin]. split; [|done]. intros ->. apply Hn.
          assert (gs_async_index s !! id'' = Some k) by (apply H; eauto). congruence.
      - done. }
    rewrite Hdel, (H id' k'). destruct (decide (k = k')) as [<-|Hne].
    + rewrite lookup_insert_eq. split; [naive_solver|]. intros (r' & [= <-] & Hr').
      cbn in Hr'. congruence.
    + rewrite lookup_insert_ne by done. naive_solver.
Qed.

(** ** Identities *)

Lemma identity_frame s s' : frame s s' -> identity s -> identity s'.
Proof.
  intros F [Hn Hk Hd]. split.
  - intros n. rewrite (fr_next _ _ F). apply Hn.
  - intros k r' Hr'. destruct (frame_lookup_inv _ _ _ _ F Hr') as (r & Hr & He).
    cbn. rewrite (fr_generation _ _ F), (fr_next _ _ F), (ev_charge _ _ He). by apply Hk.
  - intros k1 r1' k2 r2' H1 H2 Hne.
    destruct (frame_lookup_inv _ _ _ _ F H1) as (r1 & Hr1 & He1).
    destruct (frame_lookup_inv _ _ _ _ F H2) as (r2 & Hr2 & He2).
    unfold before. rewrite (ev_charge _ _ He1), (ev_charge _ _ He2).
    by apply (Hd k1 r1 k2 r2).
Qed.

Lemma inv_quiet s s' : inv s -> quiet s s' -> accounting s' -> wf_table s' -> inv s'.
Proof.
  intros [] Q Ha Hw. split; [done| | |done].
  - eapply identity_frame; [apply Q|done].
  - by eapply async_quiet.
Qed.

(** ** Admission *)

(** The reservation [gs_admit] makes, with the version of its deadline. *)
Definition reserved (s : GenerationState) (payload charge message_id version : Z)
    : GenerationState :=
  let extra := wrapping_sub u32_max (credit_request_for s charge) charge in
  let key := mkKey (gs_generation s) message_id in
  put_request
    (s <| gs_next_message_id := checked_add u64_max message_id charge |>
       <| gs_available_credits := wrapping_sub u32_max (gs_available_credits s) charge |>
       <| gs_pending_extra_credits :=
            saturating_add u32_max (gs_pending_extra_credits s) extra |>
       <| gs_admitted_operations := wrapping_add usize_max (gs_admitted_operations s) 1 |>
       <| gs_retained_payload_bytes :=
            wrapping_add u64_max (gs_retained_payload_bytes s) payload |>)
    key (mkOwned (rr_new key) payload charge extra false true true true false version).

(** The state of a successful admission. *)
Definition admitted (s : GenerationState) (payload charge message_id : Z)
    (deadline : option MonotonicTime) : GenerationState :=
  match deadline with
  | None => reserved s payload charge message_id 0
  | Some d =>
      (reserved s payload charge message_id 1)
        <| gs_next_deadline_sequence :=
             saturating_add u64_max (gs_next_deadline_sequence s) 1 |>
        <| gs_deadlines :=
             heap_push (mkEntry d (gs_next_deadline_sequence s)
               (mkKey (gs_generation s) message_id) DK_Caller 1) (gs_deadlines s) |>
  end.

Lemma gs_admit_cases s payload charge deadline :
  (exists error, gs_admit s payload charge deadline = (s, OF_AdmissionRejected error)) \/
  exists message_id,
    admission_rejection s payload charge = None /\ gs_next_message_id s = Some message_id /\
    gs_admit s payload charge deadline =
    (admitted s payload charge message_id deadline,
     OF_Admitted (mkPlan (mkKey (gs_generation s) message_id) payload charge
       (credit_request_for s charge) deadline)).
Proof.
  unfold gs_admit. destruct (admission_rejection s payload charge) as [e|]; [eauto|].
  destruct (gs_next_message_id s) as [m|]; [|eauto]. right. exists m.
  destruct deadline as [d|]; [|done]. split; [done|]. split; [done|]. f_equal.
  unfold admitted, reserved, gs_schedule_deadline.
  generalize (credit_request_for s charge) as request. intros request.
  cbn. rewrite lookup_insert_eq. cbn.
  assert (checked_add u64_max 0 1 = Some 1) as -> by done.
  apply gs_ext; try reflexivity. gs_simpl. apply insert_insert_eq.
Qed.

Lemma admission_rejection_None s payload charge :
  admission_rejection s payload charge = None ->
  charge <> 0 /\ gs_admitted_operations s < max_operations (gs_limits s) /\
  gs_retained_payload_bytes s + payload <= max_payload_bytes (gs_limits s) /\
  gs_retained_payload_bytes s + payload <= u64_max /\
  charge <= gs_available_credits s.
Proof.
  unfold admission_rejection. intros H.
  case_bool_decide; [done|]. case_bool_decide; [done|].
  destruct (checked_add u64_max _ payload) as [t|] eqn:Ht; [|done].
  apply checked_add_Some in Ht as [? ->]. case_bool_decide; [done|].
  repeat case_bool_decide; try done. lia.
Qed.

(** The identity to allocate is fresh. *)
Lemma identity_fresh s n :
  identity s -> gs_next_message_id s = Some n -> gs_requests s !! mkKey (gs_generation s) n = None.
Proof.
  intros [_ Hk _] Hn. destruct (gs_requests s !! _) as [r|] eqn:E; [|done].
  destruct (Hk _ _ E) as (_ & _ & Hc & Hle). specialize (Hle n Hn). cbn in Hle. lia.
Qed.

Lemma accounting_reserved s payload charge n v :
  accounting s -> gs_requests s !! mkKey (gs_generation s) n = None ->
  in_range u64_max payload -> admission_rejection s payload charge = None ->
  accounting (reserved s payload charge n v).
Proof.
  intros [Ha Hr Ho Hb Hp] Hfresh Hpay Hrej.
  apply admission_rejection_None in Hrej as (_ & H1 & H2 & H3 & _).
  pose proof (map_sum_admission_nonneg (gs_requests s)).
  pose proof (map_sum_payload_nonneg (gs_requests s) Hp).
  assert (Ea : wrapping_add usize_max (gs_admitted_operations s) 1 =
    gs_admitted_operations s + 1) by (apply wrapping_add_small; ints).
  assert (Er : wrapping_add u64_max (gs_retained_payload_bytes s) payload =
    gs_retained_payload_bytes s + payload) by (apply wrapping_add_small; ints).
  split; unfold reserved; gs_simpl; rewrite ?Ea, ?Er.
  - rewrite map_sum_insert by done. rewrite <- Ha. unfold admission_units. cbn. lia.
  - rewrite map_sum_insert by done. rewrite <- Hr. unfold payload_units. cbn. lia.
  - lia.
  - lia.
  - apply map_Forall_insert_2; [|done]. cbn. ints.
Qed.

Lemma identity_reserved s payload charge n v :
  identity s -> gs_next_message_id s = Some n -> 1 <= charge <= u16_max ->
  identity (reserved s payload charge n v).
Proof.
  intros Hid Hn Hc. pose proof Hid as [Hrng Hk Hd].
  pose proof (Hrng n Hn) as Hnr.
  assert (Hbefore : forall k r, gs_requests s !! k = Some r -> before k r (mkKey (gs_generation s) n)).
  { intros k r Hkr. by apply (Hk k r Hkr). }
  split; unfold reserved; gs_simpl.
  - intros m [Hm ->]%checked_add_Some. ints.
  - apply map_Forall_insert_2.
    + cbn. repeat split; try done; try ints. intros m [Hm ->]%checked_add_Some. lia.
    + intros k r Hkr. destruct (Hk k r Hkr) as (H1 & H2 & H3 & H4).
      repeat split; try done; try apply H3; try apply H2.
      intros m [Hm ->]%checked_add_Some. specialize (H4 n Hn). lia.
  - intros k1 r1 k2 r2 H1 H2 Hne.
    apply lookup_insert_Some in H1 as [[<- <-]|[Hn1 H1]];
      apply lookup_insert_Some in H2 as [[<- <-]|[Hn2 H2]]; try done.
    + right. by apply Hbefore.
    + left. by apply Hbefore.
    + by apply (Hd k1 r1 k2 r2).
Qed.

Lemma inv_admit s payload charge deadline :
  inv s -> in_range u64_max payload -> in_range u16_max charge ->
  inv (gs_admit s payload charge deadline).1.
Proof.
  intros Hinv Hp Hc. destruct (gs_admit_cases s payload charge deadline)
    as [[e ->]|(n & Hrej & Hn & ->)]; [done|]. cbn [fst].
  pose proof Hinv as [Ha Hi Hx Hw].
  pose proof (identity_fresh s n Hi Hn) as Hfresh.
  pose proof (admission_rejection_None _ _ _ Hrej) as (Hc0 & _).
  assert (Hr : forall v, in_range u64_max v -> inv (reserved s payload charge n v)).
  { intros v Hv. split.
    - by apply accounting_reserved.
    - apply identity_reserved; [done..|ints].
    - intros id k. unfold reserved. gs_simpl. rewrite (Hx id k).
      split; intros (r & Hk & Hr).
      + exists r. split; [|done]. rewrite lookup_insert_ne; [done|]. congruence.
      + exists r. by apply lookup_insert_Some in Hk as [[<- <-]|[_ Hk]].
    - unfold reserved. gs_simpl. apply map_Forall_insert_2; [|done]. by split. }
  destruct deadline as [d|]; cbn [admitted]; [|apply Hr; ints].
  eapply (inv_quiet (reserved s payload charge n 1)); [apply Hr; ints|by apply quiet_fields| |].
  - eapply accounting_fields; [apply (Hr 1); ints|reflexivity..].
  - apply (Hr 1). ints.
Qed.

(** ** Reachable states *)

Section reachable.
Context `{!HashOrder RequestKey}.

Lemma inv_advance_loop fuel s now effs : inv s -> inv (gs_advance_loop fuel s now effs).1.
Proof.
  revert s effs. induction fuel as [|fuel IH]; intros s effs Hinv; cbn; [done|].
  destruct (heap_pop _) as [[e rest]|]; [|done]. case_bool_decide; [|done].
  set (s1 := s <| gs_deadlines := rest |>).
  assert (H1 : inv s1).
  { eapply (inv_quiet s); [done|by apply quiet_fields| |apply Hinv].
    by eapply accounting_fields; [apply Hinv|..]. }
  pose proof (quiet_expire s1 now e) as Hq.
  pose proof (accounting_expire s1 now e (inv_accounting _ H1)) as Ha.
  pose proof (wf_expire s1 now e (inv_requests _ H1)) as Hw.
  destruct (gs_expire _ _ _) as [s2 more]. cbn in *. apply IH. by eapply inv_quiet.
Qed.

Lemma inv_disconnect_all network keys s effs :
  inv s -> inv (foldl (gs_disconnect_one network) (s, effs) keys).1.
Proof.
  revert s effs. induction keys as [|k keys IH]; intros s effs Hinv; [done|].
  cbn -[gs_disconnect_one].
  pose proof (quiet_disconnect_one network s effs k) as Hq.
  pose proof (accounting_disconnect_one network s effs k (inv_accounting _ Hinv)) as Ha.
  pose proof (wf_disconnect_one network s effs k (inv_requests _ Hinv)) as Hw.
  destruct (gs_disconnect_one _ _ _) as [s2 effs2]. cbn in *. apply IH. by eapply inv_quiet.
Qed.

Lemma inv_reduce s e : inv s -> event_ok e -> inv (gs_reduce s e).1.
Proof.
  intros Hinv He. pose proof Hinv as [Ha Hi Hx Hw]. destruct e; cbn [gs_reduce] in *.
  - destruct He as (Hp & Hc & _).
    pose proof (inv_admit s payload_bytes credit_charge caller_deadline Hinv Hp Hc).
    by destruct (gs_admit _ _ _ _).
  - eapply inv_quiet; eauto using quiet_request_event, accounting_request_event, wf_request_event.
  - eapply inv_quiet; eauto using quiet_prepare_failed, accounting_prepare_failed, wf_prepare_failed.
  - eapply inv_quiet; eauto using quiet_cancel, accounting_cancel, wf_cancel.
  - split.
    + by apply accounting_response.
    + eapply identity_frame; [|done]. by apply frame_response.
    + by apply async_response.
    + by apply wf_response.
  - eapply inv_quiet; eauto using quiet_recovery_hint, accounting_recovery_hint, wf_recovery_hint.
  - by apply inv_advance_loop.
  - by apply inv_disconnect_all.
Qed.

(** What [GenerationState::new] may be given. *)
Definition new_ok (initial_message_id initial_credits target : Z) (limits : AdmissionLimits)
    (drain : Duration) : Prop :=
  in_range u64_max initial_message_id /\ in_range u32_max initial_credits /\
  in_range u32_max target /\ in_range usize_max (max_operations limits) /\
  in_range u64_max (max_payload_bytes limits) /\ duration_ok drain.

Lemma inv_new g m c t limits d : new_ok m c t limits d -> inv (gs_new g m c t limits d).
Proof.
  intros (Hm & Hc & Ht & Ho & Hb & Hd). split.
  - split; cbn; rewrite ?map_sum_empty; [reflexivity..|ints|ints|]. apply map_Forall_empty.
  - split; cbn; try done. by intros n [= ->].
  - intros id k. cbn. rewrite lookup_empty. split; [done|]. intros (r & Hr & _). done.
  - done.
Qed.

(** The states of a generation: a new one, the client setting its credit target,
    and any event. *)
Inductive reachable : GenerationState -> Prop :=
| reach_new g m c t limits d : new_ok m c t limits d -> reachable (gs_new g m c t limits d)
| reach_target s t : reachable s -> in_range u32_max t -> reachable (gs_set_target_credits s t)
| reach_event s e : reachable s -> event_ok e -> reachable (gs_reduce s e).1.

Lemma reachable_inv s : reachable s -> inv s.
Proof.
  induction 1 as [g m c t limits d H|s t _ IH _|s e _ IH He].
  - by apply inv_new.
  - eapply (inv_quiet s); [done|by apply quiet_fields| |apply IH].
    by eapply accounting_fields; [apply IH|..].
  - by apply inv_reduce.
Qed.
End reachable.

(** [concrete_new] and [concrete_events] check the ranges of literal arguments. *)
Ltac concrete_new := unfold new_ok, duration_ok, duration_max; cbn; ints.

Ltac concrete_events :=
  rewrite ?Forall_cons, ?Forall_nil; cbn; unfold time_ok;
  repeat match goal with
  | |- _ /\ _ => split
  | |- forall d, _ = Some d -> _ => intros ? ?; simplify_eq
  | |- True => exact I
  | |- _ => ints
  end.
