(* ===== verification/GenPublish.v ===== *)
(** Who is told what, and when (crates/smb/src/runtime/state.rs): the effects a
    generation returns publish the callers' outcomes, each exactly once. *)
From S2P Require Import Prelude Clock Reducer GenState GenInv GenReach.
Local Open Scope Z_scope.

(** ** Observations *)

Definition caller_at (s : GenerationState) (k : RequestKey) : option CallerOutcome :=
  (fun r => rr_caller (or_lifecycle r)) <$> gs_requests s !! k.

(** The outcomes a list of owner effects publishes for one request. *)
Definition owner_publications (k : RequestKey) (effs : list OwnerEffect)
    : list TerminalOutcome :=
  omap (fun eff => match eff with
                   | OF_Request k' (Eff_Publish o) =>
                       if bool_decide (k' = k) then Some o else None
                   | _ => None
                   end) effs.

(** The outcome a caller got between two observations. *)
Definition answer (before after : option CallerOutcome) : list TerminalOutcome :=
  match before, after with
  | Some CO_Open, Some (CO_Terminal o) => [o]
  | _, _ => []
  end.

(** The effects of a transition publish exactly the change of the caller's state. *)
Definition publishes (s s' : GenerationState) (effs : list OwnerEffect) : Prop :=
  forall k, owner_publications k effs = answer (caller_at s k) (caller_at s' k).

Lemma answer_refl c : answer c c = [].
Proof. by destruct c as [[]|]. Qed.

Lemma answer_trans s1 s2 s3 k :
  frame s1 s2 -> frame s2 s3 ->
  answer (caller_at s1 k) (caller_at s2 k) ++ answer (caller_at s2 k) (caller_at s3 k) =
  answer (caller_at s1 k) (caller_at s3 k).
Proof.
  intros F1 F2.
  pose proof (fr_requests _ _ F1 k) as R1. pose proof (fr_requests _ _ F2 k) as R2.
  unfold caller_at.
  destruct R1 as [r1 r2 E1|]; inversion R2 as [? r3 E2 Ha Hb|Ha Hb]; cbn; [|done].
  pose proof (ev_caller _ _ E1) as C1. pose proof (ev_caller _ _ E2) as C2.
  destruct (rr_caller (or_lifecycle r1)) as [|o1]; cbn.
  - destruct (rr_caller (or_lifecycle r2)) as [|o2]; cbn; [done|]. by rewrite C2.
  - by rewrite C1.
Qed.

Definition same_callers (s s' : GenerationState) : Prop :=
  forall k, caller_at s' k = caller_at s k.

#[export] Instance same_callers_preorder : PreOrder same_callers.
Proof.
  split; [done|]. intros s1 s2 s3 H1 H2 k. by rewrite H2, H1.
Qed.

Lemma same_callers_fields s s' : gs_requests s' = gs_requests s -> same_callers s s'.
Proof. intros E k. unfold caller_at. by rewrite E. Qed.

Lemma same_callers_put s k r r' :
  gs_requests s !! k = Some r -> rr_caller (or_lifecycle r') = rr_caller (or_lifecycle r) ->
  same_callers s (put_request s k r').
Proof.
  intros Hk E k'. unfold caller_at. gs_simpl. destruct (decide (k = k')) as [<-|Hne].
  - rewrite lookup_insert_eq, Hk. cbn. by rewrite E.
  - by rewrite lookup_insert_ne.
Qed.

Lemma same_callers_release_payload s k : same_callers s (gs_release_payload s k).
Proof.
  unfold gs_release_payload. destruct (gs_requests s !! k) as [r|] eqn:Hk; [|done].
  destruct (or_payload_held r); [|done].
  etrans; [|by apply (same_callers_put _ k r)]. by apply same_callers_fields.
Qed.

Lemma same_callers_release s k : same_callers s (gs_release_request_ownership s k).
Proof.
  unfold gs_release_request_ownership. etrans; [apply (same_callers_release_payload s k)|].
  destruct (gs_requests (gs_release_payload s k) !! k) as [r|] eqn:Hk; [|done].
  destruct (or_admission_held r); [|done].
  etrans; [|by apply (same_callers_put _ k r)]. by apply same_callers_fields.
Qed.

Lemma same_callers_rollback s k : same_callers s (gs_rollback s k).1.
Proof.
  unfold gs_rollback. destruct (gs_requests s !! k) as [r|] eqn:Hk; [|done].
  destruct (_ && _); [done|]. destruct (or_credit_obligation r); [|apply same_callers_release].
  destruct (checked_add _ _ _); [|done]. etrans; [|apply same_callers_release].
  etrans; [|by apply (same_callers_put _ k r)]. by apply same_callers_fields.
Qed.

Lemma same_callers_schedule s k at_ kind : same_callers s (gs_schedule_deadline s k at_ kind).1.
Proof.
  unfold gs_schedule_deadline. destruct (gs_requests s !! k) as [r|] eqn:Hk; [|done].
  destruct (checked_add u64_max _ 1) as [v|]; cbn; [|by apply same_callers_fields].
  etrans; [by apply (same_callers_put s k r (r <| or_deadline_version := v |>))|].
  by apply same_callers_fields.
Qed.

Lemma same_callers_settle s k now committed :
  same_callers s (gs_settle_unanswered s k now committed).1 /\
  forall k', owner_publications k' (gs_settle_unanswered s k now committed).2 = [].
Proof.
  unfold gs_settle_unanswered. destruct committed.
  - pose proof (same_callers_schedule s k (time_add now (gs_tombstone_drain_timeout s)) DK_Tombstone).
    destruct (gs_schedule_deadline _ _ _ _) as [? []]; done.
  - pose proof (same_callers_rollback s k). by destruct (gs_rollback s k) as [? []].
Qed.

(** ** Publications compose *)

Lemma publishes_refl s effs :
  (forall k, owner_publications k effs = []) -> publishes s s effs.
Proof. intros H k. by rewrite H, answer_refl. Qed.

Lemma owner_publications_app k e1 e2 :
  owner_publications k (e1 ++ e2) = owner_publications k e1 ++ owner_publications k e2.
Proof. apply omap_app. Qed.

Lemma publishes_trans s1 s2 s3 e1 e2 :
  frame s1 s2 -> frame s2 s3 -> publishes s1 s2 e1 -> publishes s2 s3 e2 ->
  publishes s1 s3 (e1 ++ e2).
Proof.
  intros F1 F2 P1 P2 k. rewrite owner_publications_app, P1, P2. by apply answer_trans.
Qed.

(** The shape all handlers share: one lifecycle step, then bookkeeping. *)
Lemma publishes_step s s' k r r' eff effs :
  gs_requests s !! k = Some r ->
  match eff with
  | Eff_Publish o => rr_caller (or_lifecycle r) = CO_Open /\
                     rr_caller (or_lifecycle r') = CO_Terminal o
  | _ => rr_caller (or_lifecycle r') = rr_caller (or_lifecycle r)
  end ->
  same_callers (put_request s k r') s' ->
  (forall k', owner_publications k' effs = owner_publications k' [OF_Request k eff]) ->
  publishes s s' effs.
Proof.
  intros Hk Heff Hs He k'. rewrite He, (Hs k'). unfold caller_at. gs_simpl.
  destruct (decide (k = k')) as [<-|Hne].
  - rewrite Hk, lookup_insert_eq. cbn. rewrite bool_decide_eq_true_2 by done.
    destruct eff; try (rewrite Heff; by destruct (rr_caller (or_lifecycle r))).
    by destruct Heff as [-> ->].
  - rewrite lookup_insert_ne by done. rewrite bool_decide_eq_false_2 by done.
    destruct eff; cbn; by destruct (gs_requests s !! k') as [x|]; cbn; [destruct (rr_caller (or_lifecycle x))|].
Qed.

Lemma publishes_fields s s' effs :
  gs_requests s' = gs_requests s -> (forall k, owner_publications k effs = []) ->
  publishes s s' effs.
Proof.
  intros E H k. rewrite H. unfold caller_at. rewrite E. by destruct (gs_requests s !! k) as [r|];
    cbn; [destruct (rr_caller (or_lifecycle r))|].
Qed.

(** ** Every handler publishes what it changes *)

Lemma publishes_request_event s k e : publishes s (gs_request_event s k e).1 (gs_request_event s k e).2.
Proof.
  unfold gs_request_event. case_bool_decide; [by apply publishes_refl|].
  destruct (gs_requests s !! k) as [r|] eqn:Hk; [|by apply publishes_refl].
  pose proof (rr_reduce_caller (or_lifecycle r) (progress_event e)) as Hc.
  destruct (rr_reduce _ _) as [l eff]. cbn in *.
  eapply (publishes_step s _ k r (r <| or_lifecycle := l |>)); [done|exact Hc| |done].
  destruct e; [done..|]. apply same_callers_release_payload.
Qed.

Lemma publishes_cancel s k now : publishes s (gs_cancel s k now).1 (gs_cancel s k now).2.
Proof.
  unfold gs_cancel. case_bool_decide; [by apply publishes_refl|].
  destruct (gs_requests s !! k) as [r|] eqn:Hk; [|by apply publishes_refl].
  destruct (or_cancel_seen r); [by apply publishes_refl|]. destruct (negb _).
  { by apply (publishes_step s _ k r (r <| or_cancel_seen := true |>) Eff_None). }
  pose proof (rr_reduce_caller (or_lifecycle r) RE_Cancel) as Hc.
  destruct (rr_reduce _ _) as [l eff]. cbn [fst snd] in Hc.
  set (r' := r <| or_cancel_seen := true |> <| or_lifecycle := l |>).
  pose proof (same_callers_settle (put_request s k r') k now
    (rr_wire_committed (or_lifecycle r))) as [Hs Hp].
  destruct (gs_settle_unanswered _ _ _ _) as [s' effs]. cbn [fst snd] in *.
  eapply (publishes_step s s' k r r' eff); [done|exact Hc|exact Hs|].
  intros k'. specialize (Hp k'). unfold owner_publications in *. cbn. rewrite Hp.
  by destruct eff; cbn; try case_bool_decide.
Qed.

Lemma publishes_expire s now e : publishes s (gs_expire s now e).1 (gs_expire s now e).2.
Proof.
  unfold gs_expire. destruct (gs_requests s !! de_key e) as [r|] eqn:Hk; [|by apply publishes_refl].
  case_bool_decide; [by apply publishes_refl|]. destruct (de_kind e).
  - destruct (negb _); [by apply publishes_refl|].
    pose proof (rr_reduce_caller (or_lifecycle r) RE_Deadline) as Hc.
    destruct (rr_reduce _ _) as [l eff]. cbn [fst snd] in Hc.
    set (r' := r <| or_lifecycle := l |>).
    pose proof (same_callers_settle (put_request s (de_key e) r') (de_key e) now
      (rr_wire_committed (or_lifecycle r))) as [Hs Hp].
    destruct (gs_settle_unanswered _ _ _ _) as [s' effs]. cbn [fst snd] in *.
    eapply (publishes_step s s' (de_key e) r r' eff); [done|exact Hc|exact Hs|].
    intros k'. specialize (Hp k'). unfold owner_publications in *. cbn. rewrite Hp.
    by destruct eff; cbn; try case_bool_decide.
  - destruct (_ && _); [by apply publishes_fields|by apply publishes_refl].
Qed.

Lemma publishes_advance_loop fuel s now effs k :
  owner_publications k (gs_advance_loop fuel s now effs).2 =
  owner_publications k effs ++
  answer (caller_at s k) (caller_at (gs_advance_loop fuel s now effs).1 k).
Proof.
  revert s effs. induction fuel as [|fuel IH]; intros s effs; cbn.
  { by rewrite answer_refl, app_nil_r. }
  destruct (heap_pop _) as [[e rest]|]; [|by rewrite answer_refl, app_nil_r].
  case_bool_decide; [|by rewrite answer_refl, app_nil_r].
  pose proof (publishes_expire (s <| gs_deadlines := rest |>) now e k) as Hp.
  pose proof (quiet_expire (s <| gs_deadlines := rest |>) now e) as Hq.
  destruct (gs_expire _ now e) as [s2 more]. cbn [fst snd] in *.
  pose proof (quiet_advance_loop fuel s2 now (effs ++ more)) as Hq'.
  rewrite IH, owner_publications_app, <- app_assoc, Hp. f_equal.
  change (caller_at s k) with (caller_at (s <| gs_deadlines := rest |>) k).
  by apply answer_trans; [apply Hq|apply Hq'].
Qed.

Lemma publishes_prepare_failed s k :
  publishes s (gs_prepare_failed s k).1 (gs_prepare_failed s k).2.
Proof.
  unfold gs_prepare_failed. case_bool_decide; [by apply publishes_refl|].
  destruct (gs_requests s !! k) as [r|] eqn:Hk; [|by apply publishes_refl].
  destruct (rr_wire_committed _); [by apply publishes_refl|].
  destruct (rr_publish_terminal (or_lifecycle r) TO_PreparationFailed) as [l eff] eqn:El.
  pose proof (same_callers_rollback (put_request s k (r <| or_lifecycle := l |>)) k) as Hs.
  destruct (gs_rollback _ _) as [s' rb]. cbn [fst snd] in *.
  eapply (publishes_step s s' k r (r <| or_lifecycle := l |>) eff); [done| |exact Hs|].
  - unfold rr_publish_terminal, rr_publish_once in El. by case_bool_decide; simplify_eq.
  - intros k'. by destruct rb.
Qed.

Lemma publishes_recovery_hint s k :
  publishes s (gs_recovery_hint s k).1 (gs_recovery_hint s k).2.
Proof.
  unfold gs_recovery_hint. case_bool_decide; [by apply publishes_refl|].
  destruct (gs_requests s !! k) as [r|] eqn:Hk; [|by apply publishes_refl].
  pose proof (rr_reduce_caller (or_lifecycle r) (RE_RecoveryHint k)) as Hc.
  destruct (rr_reduce _ _) as [l eff]. cbn [fst snd] in *.
  eapply (publishes_step s _ k r (r <| or_lifecycle := l |>) eff); [done|exact Hc| |done].
  apply same_callers_release.
Qed.

Lemma publishes_disconnect_one network s effs k :
  exists more, (gs_disconnect_one network (s, effs) k).2 = effs ++ more /\
  publishes s (gs_disconnect_one network (s, effs) k).1 more.
Proof.
  unfold gs_disconnect_one. destruct (gs_requests s !! k) as [r|] eqn:Hk.
  - pose proof (rr_reduce_caller (or_lifecycle r) (RE_Disconnect network)) as Hc.
    destruct (rr_reduce _ _) as [l eff]. cbn [fst snd] in *.
    exists [OF_Request k eff]. split; [done|].
    eapply (publishes_step s _ k r (r <| or_lifecycle := l |>) eff); [done|exact Hc| |done].
    apply same_callers_release.
  - exists []. cbn. rewrite app_nil_r. split; [done|].
    rewrite gs_release_absent by done. by apply publishes_refl.
Qed.

Lemma publishes_disconnect_all network keys s effs :
  exists more, (foldl (gs_disconnect_one network) (s, effs) keys).2 = effs ++ more /\
  publishes s (foldl (gs_disconnect_one network) (s, effs) keys).1 more.
Proof.
  revert s effs. induction keys as [|k keys IH]; intros s effs; cbn -[gs_disconnect_one].
  { exists []. rewrite app_nil_r. split; [done|]. by apply publishes_refl. }
  destruct (publishes_disconnect_one network s effs k) as (m1 & E1 & P1).
  pose proof (quiet_disconnect_one network s effs k) as [F1 _ _].
  destruct (gs_disconnect_one network (s, effs) k) as [s1 effs1]. cbn [fst snd] in *. subst.
  destruct (IH s1 (effs ++ m1)) as (m2 & E2 & P2).
  pose proof (quiet_disconnect_all network s1 (effs ++ m1) keys) as [F2 _ _].
  exists (m1 ++ m2). rewrite E2, app_assoc. split; [done|]. by eapply publishes_trans.
Qed.

Lemma same_callers_finalize s k r previous :
  gs_requests s !! k = Some r ->
  same_callers s (finalize_response s k r previous).1 /\
  forall k', owner_publications k' (finalize_response s k r previous).2 = [].
Proof.
  intros Hk. unfold finalize_response.
  set (s1 := match previous with RP_AsyncPending _ => _ | _ => s end).
  assert (Hs1 : gs_requests s1 = gs_requests s) by (by subst s1; destruct previous).
  clearbody s1. destruct (checked_add u64_max _ 1) as [v|]; cbn; (split; [|done]);
    (etrans; [|apply same_callers_release]).
  - etrans; [apply (same_callers_fields s s1 Hs1)|].
    apply (same_callers_put s1 k r); [by rewrite Hs1|done].
  - etrans; [apply (same_callers_fields s (s1 <| gs_unhealthy := true |>)); exact Hs1|].
    apply (same_callers_put _ k r); [cbn; by rewrite Hs1|done].
Qed.

Lemma publishes_on_response s k e grant :
  publishes s (gs_response s k e grant).1 (gs_response s k e grant).2.
Proof.
  unfold gs_response. case_bool_decide; [by apply publishes_refl|].
  destruct (async_conflict s k e) as [[??]|]; [by apply publishes_fields|].
  destruct (gs_requests s !! k) as [r|] eqn:Hk; [|by apply publishes_refl].
  destruct (async_changed r e) as [[??]|]; [by apply publishes_fields|].
  case_bool_decide; [by apply publishes_refl|].
  pose proof (response_bookkeeping_requests s k r grant) as [Ereq _].
  pose proof (response_bookkeeping_request s k r grant) as Er.
  destruct (response_bookkeeping s k r grant) as [s1 r1]. cbn [fst snd] in Ereq, Er. subst r1.
  assert (Hput : same_callers (put_request s k (answered r)) s1)
    by (apply same_callers_fields; by rewrite Ereq).
  assert (Hca : rr_caller (or_lifecycle (answered r)) = rr_caller (or_lifecycle r))
    by apply rr_observe_props.
  destruct (checked_add u32_max _ grant) as [av|].
  2: { by apply (publishes_step s _ k r (answered r) Eff_None). }
  set (ev := match e with RV_Pending _ => _ | RV_Final => _ end).
  pose proof (rr_reduce_caller (or_lifecycle (answered r)) ev) as Hc.
  destruct (rr_reduce (or_lifecycle (answered r)) ev) as [l eff]. cbn [fst snd] in Hc.
  rewrite Hca in Hc.
  set (r2 := (answered r) <| or_lifecycle := l |>).
  set (s2 := put_request (s1 <| gs_available_credits := av |>) k r2).
  assert (Hs2 : same_callers (put_request s k r2) s2).
  { apply same_callers_fields. subst s2. gs_simpl. by rewrite Ereq, insert_insert_eq. }
  destruct e as [id|]; cbn [fst snd].
  - eapply (publishes_step s _ k r r2 eff); [done|exact Hc|exact Hs2|done].
  - destruct (same_callers_finalize s2 k r2 (rr_response (or_lifecycle r))) as [Hf Hp].
    { subst s2. gs_simpl. apply lookup_insert_eq. }
    destruct (finalize_response _ _ _ _) as [s3 more]. cbn [fst snd] in *.
    eapply (publishes_step s s3 k r r2 eff); [done|exact Hc|by etrans|].
    intros k'. rewrite owner_publications_app, Hp, app_nil_r. done.
Qed.

(** ** Runs *)

Section runs.
Context `{!HashOrder RequestKey}.

Fixpoint gs_run (s : GenerationState) (events : list OwnerEvent)
    : GenerationState * list OwnerEffect :=
  match events with
  | [] => (s, [])
  | e :: events =>
      let '(s, effs) := gs_reduce s e in
      let '(s, more) := gs_run s events in
      (s, effs ++ more)
  end.

(** A request is answered only by being published; a request not yet admitted is
    not answered at all. *)
Lemma gs_reduce_answers s e k :
  inv s ->
  owner_publications k (gs_reduce s e).2 = answer (caller_at s k) (caller_at (gs_reduce s e).1 k) /\
  (caller_at s k = None -> caller_at (gs_reduce s e).1 k = None \/
     caller_at (gs_reduce s e).1 k = Some CO_Open) /\
  (forall o, caller_at s k = Some (CO_Terminal o) ->
     caller_at (gs_reduce s e).1 k = Some (CO_Terminal o)).
Proof.
  intros Hinv.
  assert (Hframe : forall s', frame s s' -> publishes s s' (gs_reduce s e).2 ->
    (gs_reduce s e).1 = s' ->
    owner_publications k (gs_reduce s e).2 = answer (caller_at s k) (caller_at s' k) /\
    (caller_at s k = None -> caller_at s' k = None \/ caller_at s' k = Some CO_Open) /\
    (forall o, caller_at s k = Some (CO_Terminal o) -> caller_at s' k = Some (CO_Terminal o))).
  { intros s' F P _. split; [apply P|]. pose proof (fr_requests _ _ F k) as R. unfold caller_at.
    destruct R as [r r' E|]; cbn; [|by split; [left|]].
    split; [done|]. intros o [= Ho]. f_equal. rewrite (ev_caller _ _ E); congruence. }
  destruct e; cbn [gs_reduce] in *.
  - clear Hframe. destruct (gs_admit_cases s payload_bytes credit_charge caller_deadline)
      as [[err ->]|(n & _ & Hn & ->)]; cbn [fst snd].
    + rewrite answer_refl. eauto.
    + pose proof (identity_fresh s n (inv_identity _ Hinv) Hn) as Hfresh.
      assert (Hreq : caller_at (admitted s payload_bytes credit_charge n caller_deadline) k =
        if bool_decide (mkKey (gs_generation s) n = k) then Some CO_Open else caller_at s k).
      { unfold caller_at, admitted, reserved. destruct caller_deadline; gs_simpl;
          rewrite lookup_insert; case_bool_decide; case_decide; done. }
      rewrite Hreq. case_bool_decide as Hk; [subst k|by rewrite answer_refl; eauto].
      assert (caller_at s (mkKey (gs_generation s) n) = None) as ->
        by (unfold caller_at; by rewrite Hfresh).
      cbn. naive_solver.
  - apply Hframe; [apply quiet_request_event|apply publishes_request_event|done].
  - apply Hframe; [apply quiet_prepare_failed|apply publishes_prepare_failed|done].
  - apply Hframe; [apply quiet_cancel|apply publishes_cancel|done].
  - apply Hframe; [apply frame_response, Hinv|apply publishes_on_response|done].
  - apply Hframe; [apply quiet_recovery_hint|apply publishes_recovery_hint|done].
  - apply Hframe; [apply quiet_advance_loop| |done].
    intros k'. unfold gs_advance_time. by rewrite publishes_advance_loop.
  - apply Hframe; [apply quiet_disconnect_all| |done].
    destruct (publishes_disconnect_all network (hash_keys (gs_requests s)) s [])
      as (more & E & P). unfold gs_disconnect. rewrite E. exact P.
Qed.

Lemma gs_run_answers events : forall s k,
  inv s -> Forall event_ok events ->
  owner_publications k (gs_run s events).2 =
  match caller_at s k with
  | Some (CO_Terminal _) => []
  | _ => match caller_at (gs_run s events).1 k with Some (CO_Terminal o) => [o] | _ => [] end
  end /\
  (forall o, caller_at s k = Some (CO_Terminal o) ->
     caller_at (gs_run s events).1 k = Some (CO_Terminal o)).
Proof.
  induction events as [|e events IH]; intros s k Hinv Hev; cbn.
  { split; [|done]. by destruct (caller_at s k) as [[]|]. }
  apply Forall_cons in Hev as [He Hev].
  destruct (gs_reduce_answers s e k Hinv) as (A1 & A2 & A3).
  pose proof (inv_reduce s e Hinv He) as Hinv'.
  destruct (gs_reduce s e) as [s1 effs]. cbn [fst snd] in *.
  destruct (IH s1 k Hinv' Hev) as [B1 B2].
  destruct (gs_run s1 events) as [s2 more]. cbn [fst snd] in *.
  rewrite owner_publications_app, A1, B1.
  destruct (caller_at s k) as [[|o]|].
  - split; [|done]. cbn. destruct (caller_at s1 k) as [[|o]|] eqn:E1; cbn; try done.
    by rewrite (B2 o eq_refl).
  - rewrite (A3 o eq_refl) in *. split; [done|]. intros o' [= <-]. by apply B2.
  - split; [|done]. cbn. destruct (A2 eq_refl) as [-> | ->]; done.
Qed.

(** over any run of a generation, the outcomes published for a request are
    exactly the terminal outcome the generation holds for it at the end: none for
    a request that is unknown or still open, one and only one otherwise. *)
Lemma generation_publishes_once g m c t limits drain events k :
  new_ok m c t limits drain -> Forall event_ok events ->
  let '(s, effs) := gs_run (gs_new g m c t limits drain) events in
  owner_publications k effs =
  match gs_terminal_outcome s k with Some o => [o] | None => [] end.
Proof.
  intros Hnew Hev. pose proof (inv_new g m c t limits drain Hnew) as Hinv.
  destruct (gs_run_answers events _ k Hinv Hev) as [H _].
  destruct (gs_run _ events) as [s effs]. cbn [fst snd] in H. rewrite H.
  unfold caller_at at 1. cbn. rewrite lookup_empty. cbn.
  unfold gs_terminal_outcome, caller_at. destruct (gs_requests s !! k) as [r|]; cbn; [|done].
  by destruct (rr_caller (or_lifecycle r)).
Qed.
End runs.

