(* ===== verification/GenProps.v ===== *)
(** The deadline heap of a generation (crates/smb/src/runtime/state.rs) and the callers
    of its requests: a deadline that has passed answers its caller. *)
From S2P Require Import Prelude Clock Reducer GenState GenInv GenReach GenPublish.
Local Open Scope Z_scope.

(** ** The deadline heap *)

Lemma heap_pop_None h : heap_pop h = None <-> h = [].
Proof.
  destruct h as [|e h]; cbn; [done|]. split; [|done].
  by destruct (heap_pop h) as [[m rest]|].
Qed.

Lemma lex_leb_refl a : lex_leb a a = true.
Proof. induction a as [|x a IH]; cbn; [done|]. by rewrite Z.eqb_refl, IH, orb_true_r. Qed.

Lemma lex_leb_trans a b c : lex_leb a b = true -> lex_leb b c = true -> lex_leb a c = true.
Proof.
  revert b c. induction a as [|x a IH]; intros [|y b] [|z c]; cbn; try done.
  rewrite !orb_true_iff, !andb_true_iff, !Z.ltb_lt, !Z.eqb_eq.
  intros [?|[-> ?]] [?|[-> ?]]; try (left; lia). right. eauto.
Qed.

Lemma lex_leb_total a b : lex_leb a b = true \/ lex_leb b a = true.
Proof.
  revert b. induction a as [|x a IH]; intros [|y b]; cbn; auto.
  rewrite !orb_true_iff, !andb_true_iff, !Z.ltb_lt, !Z.eqb_eq.
  destruct (Z.lt_trichotomy x y) as [?|[->|?]]; auto. destruct (IH b); auto.
Qed.

(** [pop] takes a least entry out of the multiset. *)
Lemma heap_pop_Some h e rest :
  heap_pop h = Some (e, rest) ->
  h ≡ₚ e :: rest /\ Forall (fun e' => entry_leb e e' = true) rest.
Proof.
  revert e rest. induction h as [|x h IH]; intros e rest; cbn [heap_pop]; [done|].
  destruct (heap_pop h) as [[m rest']|] eqn:Hp.
  - destruct (IH m rest' eq_refl) as [Hperm Hmin].
    destruct (entry_leb x m) eqn:Hle; cbn; intros [= <- <-].
    + split; [done|]. rewrite Hperm. constructor; [done|].
      eapply Forall_impl; [exact Hmin|]. intros e' He'.
      exact (lex_leb_trans _ _ _ Hle He').
    + split; [rewrite Hperm; constructor|]. constructor; [|done].
      destruct (lex_leb_total (entry_rank m) (entry_rank x)) as [H|H]; [done|].
      unfold entry_leb in Hle. congruence.
  - apply heap_pop_None in Hp as ->. intros [= <- <-]. split; [done|constructor].
Qed.

Lemma entry_leb_at e e' : entry_leb e e' = true -> de_at e <= de_at e'.
Proof.
  unfold entry_leb. cbn. rewrite orb_true_iff, andb_true_iff, Z.ltb_lt, Z.eqb_eq. lia.
Qed.

(** ** What expiring one entry does to the heap *)

Lemma gs_release_deadlines s k : gs_deadlines (gs_release_request_ownership s k) = gs_deadlines s.
Proof.
  destruct (gs_requests s !! k) as [r|] eqn:Hk.
  - by rewrite (gs_release_eq s k r Hk).
  - by rewrite gs_release_absent.
Qed.

Lemma gs_rollback_deadlines s k : gs_deadlines (gs_rollback s k).1 = gs_deadlines s.
Proof.
  unfold gs_rollback. destruct (gs_requests s !! k) as [r|]; [|done].
  destruct (_ && _); [done|]. destruct (or_credit_obligation r); [|apply gs_release_deadlines].
  destruct (checked_add _ _ _); [|done]. cbn. by rewrite gs_release_deadlines.
Qed.

Lemma gs_schedule_deadlines s k at_ kind :
  gs_deadlines (gs_schedule_deadline s k at_ kind).1 = gs_deadlines s \/
  exists q v, gs_deadlines (gs_schedule_deadline s k at_ kind).1 =
              mkEntry at_ q k kind v :: gs_deadlines s.
Proof.
  unfold gs_schedule_deadline. destruct (gs_requests s !! k) as [r|]; [|by left].
  destruct (checked_add u64_max _ 1); cbn; [|by left]. right. by do 2 eexists.
Qed.

Lemma gs_settle_deadlines s k now committed :
  gs_deadlines (gs_settle_unanswered s k now committed).1 = gs_deadlines s \/
  exists e, de_kind e = DK_Tombstone /\ de_key e = k /\
    gs_deadlines (gs_settle_unanswered s k now committed).1 = e :: gs_deadlines s.
Proof.
  unfold gs_settle_unanswered. destruct committed.
  - destruct (gs_schedule_deadlines s k (time_add now (gs_tombstone_drain_timeout s)) DK_Tombstone)
      as [H|(q & v & H)]; destruct (gs_schedule_deadline _ _ _ _); cbn in *; eauto.
    right. by exists (mkEntry (time_add now (gs_tombstone_drain_timeout s)) q k DK_Tombstone v).
  - pose proof (gs_rollback_deadlines s k). destruct (gs_rollback s k). cbn in *. auto.
Qed.

Lemma gs_expire_deadlines s now e :
  gs_deadlines (gs_expire s now e).1 = gs_deadlines s \/
  exists e', de_kind e = DK_Caller /\ de_kind e' = DK_Tombstone /\
    gs_deadlines (gs_expire s now e).1 = e' :: gs_deadlines s.
Proof.
  unfold gs_expire. destruct (gs_requests s !! de_key e) as [r|]; [|by left].
  case_bool_decide; [by left|]. destruct (de_kind e); [|destruct (_ && _); by left].
  destruct (negb _); [by left|]. destruct (rr_reduce _ _) as [l eff].
  destruct (gs_settle_deadlines (put_request s (de_key e) (r <| or_lifecycle := l |>))
    (de_key e) now (rr_wire_committed (or_lifecycle r))) as [Hd|(e' & H1 & _ & H2)];
    destruct (gs_settle_unanswered _ _ _ _); cbn in *; eauto.
Qed.

Lemma heap_weight_perm h h' : h ≡ₚ h' -> heap_weight h = heap_weight h'.
Proof. unfold heap_weight. induction 1; cbn in *; lia. Qed.

(** The loop of [advance_time] ends because nothing due is left, not because the
    fuel ran out. *)
Lemma gs_advance_loop_drains fuel s now effs :
  (heap_weight (gs_deadlines s) < fuel)%nat ->
  Forall (fun e => now < de_at e) (gs_deadlines (gs_advance_loop fuel s now effs).1).
Proof.
  revert s effs. induction fuel as [|fuel IH]; intros s effs Hf; [lia|]. cbn.
  destruct (heap_pop (gs_deadlines s)) as [[e rest]|] eqn:Hp.
  - apply heap_pop_Some in Hp as [Hperm Hmin]. case_bool_decide as Hle.
    + assert (Hw : heap_weight (gs_deadlines s) = (entry_weight e + heap_weight rest)%nat)
        by by rewrite (heap_weight_perm _ _ Hperm).
      destruct (gs_expire_deadlines (s <| gs_deadlines := rest |>) now e)
        as [Hd|(e' & K1 & K2 & Hd)];
        destruct (gs_expire _ now e) as [s2 more]; cbn [fst snd gs_deadlines] in *;
        apply IH; rewrite Hd; cbn [gs_deadlines setter] in *.
      * unfold entry_weight in Hw. destruct (de_kind e); lia.
      * unfold entry_weight in Hw. rewrite K1 in Hw. unfold heap_weight in *. cbn.
        unfold entry_weight at 1. rewrite K2. lia.
    + cbn. rewrite Hperm. constructor; [lia|].
      eapply Forall_impl; [exact Hmin|]. intros e' He'%entry_leb_at. lia.
  - apply heap_pop_None in Hp. cbn. by rewrite Hp.
Qed.

(** ** Deadlines are enforced *)

(** While its caller waits, a request's own deadline is in the heap. *)
Definition armed (s : GenerationState) (k : RequestKey) (d : MonotonicTime) : Prop :=
  caller_at s k = Some CO_Open ->
  exists e r, e ∈ gs_deadlines s /\ de_at e = d /\ de_key e = k /\ de_kind e = DK_Caller /\
    gs_requests s !! k = Some r /\ de_version e = or_deadline_version r.

Lemma caller_at_lookup s k r c :
  gs_requests s !! k = Some r -> caller_at s k = Some c -> rr_caller (or_lifecycle r) = c.
Proof. unfold caller_at. intros ->. cbn. congruence. Qed.

Lemma frame_caller_open s s' k :
  frame s s' -> caller_at s' k = Some CO_Open -> caller_at s k = Some CO_Open.
Proof.
  intros F. pose proof (fr_requests _ _ F k) as R. unfold caller_at.
  destruct R as [r r' E|]; cbn; [|done]. intros [= Ho]. f_equal.
  destruct (decide (rr_caller (or_lifecycle r) = CO_Open)) as [|Hn]; [done|].
  by rewrite (ev_caller _ _ E Hn) in Ho.
Qed.

Lemma armed_frame s s' k d :
  frame s s' -> (forall e, e ∈ gs_deadlines s -> e ∈ gs_deadlines s') ->
  armed s k d -> armed s' k d.
Proof.
  intros F Hin Ha Ho. destruct (Ha (frame_caller_open _ _ _ F Ho)) as (e & r & He & ? & ? & ? & Hr & Hv).
  destruct (frame_lookup _ _ _ _ F Hr) as (r' & Hr' & E).
  exists e, r'. repeat split; try done; [by apply Hin|]. rewrite Hv.
  symmetry. apply (ev_open _ _ E). by apply (caller_at_lookup _ _ _ _ Hr').
Qed.

(** Popping and expiring an entry: the deadline stays armed, or its caller is told. *)
Lemma armed_expire s rest now e k d :
  gs_deadlines s ≡ₚ e :: rest -> armed s k d ->
  armed (gs_expire (s <| gs_deadlines := rest |>) now e).1 k d.
Proof.
  intros Hperm Ha. set (s1 := s <| gs_deadlines := rest |>).
  pose proof (quiet_expire s1 now e) as [F _ _].
  intros Ho. pose proof (frame_caller_open _ _ _ F Ho) as Ho1.
  destruct (Ha Ho1) as (e0 & r & He0 & Hat & Hkey & Hkind & Hr & Hv).
  destruct (frame_lookup _ _ _ _ F Hr) as (r' & Hr' & E).
  assert (Hv' : or_deadline_version r' = or_deadline_version r).
  { apply (ev_open _ _ E). by apply (caller_at_lookup _ _ _ _ Hr'). }
  rewrite Hperm in He0. apply elem_of_cons in He0 as [->|Hin].
  - exfalso. revert Ho. unfold gs_expire. rewrite Hkey, Hkind. cbn. rewrite Hr.
    rewrite bool_decide_eq_false_2 by congruence.
    assert (Hc : rr_caller (or_lifecycle r) = CO_Open)
      by by apply (caller_at_lookup s1 k).
    rewrite (proj2 (caller_is_open_true _) Hc). cbn.
    pose proof (rr_reduce_terminal_event (or_lifecycle r) RE_Deadline I) as Ht. cbn in Ht.
    destruct (rr_finish_without_response (or_lifecycle r) TO_TimedOut) as [l eff].
    pose proof (same_callers_settle (put_request s1 k (r <| or_lifecycle := l |>)) k now
      (rr_wire_committed (or_lifecycle r))) as [Hs _].
    destruct (gs_settle_unanswered _ _ _ _) as [s2 effs]. cbn [fst snd] in *. rewrite (Hs k).
    unfold caller_at. gs_simpl. rewrite lookup_insert_eq. cbn in *. congruence.
  - exists e0, r'. repeat split; try done; [|congruence].
    destruct (gs_expire_deadlines s1 now e) as [->|(e' & _ & _ & ->)]; [done|]. by right.
Qed.

Lemma armed_advance_loop fuel s now effs k d :
  armed s k d -> armed (gs_advance_loop fuel s now effs).1 k d.
Proof.
  revert s effs. induction fuel as [|fuel IH]; intros s effs Ha; cbn; [done|].
  destruct (heap_pop _) as [[e rest]|] eqn:Hp; [|done]. case_bool_decide; [|done].
  apply heap_pop_Some in Hp as [Hperm _].
  pose proof (armed_expire s rest now e k d Hperm Ha) as H'.
  destruct (gs_expire _ now e) as [s2 more]. by apply IH.
Qed.

(** The handlers outside [advance_time] only push deadlines. *)
Lemma deadlines_request_event s k e :
  gs_deadlines (gs_request_event s k e).1 = gs_deadlines s.
Proof.
  unfold gs_request_event. case_bool_decide; [done|].
  destruct (gs_requests s !! k) as [r|]; [|done].
  destruct (rr_reduce _ _) as [l eff]. destruct e; try done. cbn.
  unfold gs_release_payload. gs_simpl. rewrite lookup_insert_eq. by case_match.
Qed.

Lemma deadlines_cancel s k now e :
  e ∈ gs_deadlines s -> e ∈ gs_deadlines (gs_cancel s k now).1.
Proof.
  intros He. unfold gs_cancel. case_bool_decide; [done|].
  destruct (gs_requests s !! k) as [r|]; [|done]. destruct (or_cancel_seen r); [done|].
  destruct (negb _); [done|]. destruct (rr_reduce _ _) as [l eff].
  destruct (gs_settle_deadlines (put_request s k (r <| or_cancel_seen := true |>
    <| or_lifecycle := l |>)) k now (rr_wire_committed (or_lifecycle r)))
    as [Hd|(e' & _ & _ & Hd)]; destruct (gs_settle_unanswered _ _ _ _);
    cbn [fst snd] in *; rewrite Hd; [done|by right].
Qed.

Lemma deadlines_prepare_failed s k : gs_deadlines (gs_prepare_failed s k).1 = gs_deadlines s.
Proof.
  unfold gs_prepare_failed. case_bool_decide; [done|].
  destruct (gs_requests s !! k) as [r|]; [|done]. destruct (rr_wire_committed _); [done|].
  destruct (rr_publish_terminal _ _) as [l eff].
  pose proof (gs_rollback_deadlines (put_request s k (r <| or_lifecycle := l |>)) k) as Hd.
  by destruct (gs_rollback _ _).
Qed.

Lemma deadlines_recovery_hint s k : gs_deadlines (gs_recovery_hint s k).1 = gs_deadlines s.
Proof.
  unfold gs_recovery_hint. case_bool_decide; [done|].
  destruct (gs_requests s !! k) as [r|]; [|done].
  destruct (rr_reduce _ _) as [l eff]. cbn. by rewrite gs_release_deadlines.
Qed.

Lemma deadlines_response s k e grant :
  gs_deadlines (gs_response s k e grant).1 = gs_deadlines s.
Proof.
  unfold gs_response. case_bool_decide; [done|].
  destruct (async_conflict s k e) as [[??]|]; [done|].
  destruct (gs_requests s !! k) as [r|]; [|done].
  destruct (async_changed r e) as [[??]|]; [done|]. case_bool_decide; [done|].
  assert (Hb : gs_deadlines (response_bookkeeping s k r grant).1 = gs_deadlines s).
  { unfold response_bookkeeping, settle_credit_totals. cbn.
    by destruct (or_credit_response_seen r), (or_payload_held r). }
  destruct (response_bookkeeping s k r grant) as [s1 r1]. cbn [fst] in Hb.
  destruct (checked_add u32_max _ grant); [|done].
  destruct (rr_reduce _ _) as [l eff]. destruct e; [done|].
  set (s2 := put_request _ k _).
  assert (Hf : gs_deadlines (finalize_response s2 k (r1 <| or_lifecycle := l |>)
    (rr_response (or_lifecycle r))).1 = gs_deadlines s2).
  { unfold finalize_response.
    destruct (checked_add u64_max _ 1); cbn; rewrite gs_release_deadlines; gs_simpl;
      by case_match. }
  destruct (finalize_response _ _ _ _). cbn [fst] in *. rewrite Hf. exact Hb.
Qed.

Lemma deadlines_disconnect_all network keys s effs :
  gs_deadlines (foldl (gs_disconnect_one network) (s, effs) keys).1 = gs_deadlines s.
Proof.
  revert s effs. induction keys as [|k keys IH]; intros s effs; [done|].
  cbn -[gs_disconnect_one].
  assert (H1 : gs_deadlines (gs_disconnect_one network (s, effs) k).1 = gs_deadlines s).
  { unfold gs_disconnect_one. destruct (gs_requests s !! k); cbn -[rr_reduce].
    - destruct (rr_reduce _ _). cbn. by rewrite gs_release_deadlines.
    - by rewrite gs_release_deadlines. }
  destruct (gs_disconnect_one _ _ _) as [s1 effs1]. cbn [fst] in H1. by rewrite IH.
Qed.

Section properties.
Context `{!HashOrder RequestKey}.

(** A request known to the generation stays armed through every event. *)
Lemma armed_reduce s e k d :
  inv s -> is_Some (gs_requests s !! k) -> armed s k d -> armed (gs_reduce s e).1 k d.
Proof.
  intros Hinv Hk Ha. destruct e; cbn [gs_reduce].
  - destruct (gs_admit_cases s payload_bytes credit_charge caller_deadline)
      as [[err ->]|(n & _ & Hn & ->)]; [done|]. cbn [fst snd].
    pose proof (identity_fresh s n (inv_identity _ Hinv) Hn) as Hfresh.
    assert (Hne : mkKey (gs_generation s) n <> k) by (intros <-; destruct Hk; congruence).
    assert (Hreq : gs_requests (admitted s payload_bytes credit_charge n caller_deadline) !! k
      = gs_requests s !! k).
    { unfold admitted, reserved. destruct caller_deadline; gs_simpl; by rewrite lookup_insert_ne. }
    intros Ho. unfold caller_at in Ho. rewrite Hreq in Ho.
    destruct (Ha Ho) as (e & r & He & ? & ? & ? & ? & ?). exists e, r. rewrite Hreq.
    repeat split; try done. unfold admitted. destruct caller_deadline; [by right|done].
  - apply (armed_frame s); [apply quiet_request_event| |done].
    intros e. by rewrite deadlines_request_event.
  - apply (armed_frame s); [apply quiet_prepare_failed| |done].
    intros e. by rewrite deadlines_prepare_failed.
  - apply (armed_frame s); [apply quiet_cancel| |done]. intros e. apply deadlines_cancel.
  - apply (armed_frame s); [apply frame_response, Hinv| |done].
    intros e. by rewrite deadlines_response.
  - apply (armed_frame s); [apply quiet_recovery_hint| |done].
    intros e. by rewrite deadlines_recovery_hint.
  - by apply armed_advance_loop.
  - apply (armed_frame s); [apply quiet_disconnect_all| |done].
    intros e. unfold gs_disconnect. by rewrite deadlines_disconnect_all.
Qed.

(** The generation never forgets a request. *)
Lemma gs_reduce_keeps s e k :
  inv s -> is_Some (gs_requests s !! k) -> is_Some (gs_requests (gs_reduce s e).1 !! k).
Proof.
  intros Hinv [r Hr].
  assert (HF : forall s', frame s s' -> is_Some (gs_requests s' !! k)).
  { intros s' F. destruct (frame_lookup _ _ _ _ F Hr) as (r' & -> & _). eauto. }
  destruct e; cbn [gs_reduce].
  - destruct (gs_admit_cases s payload_bytes credit_charge caller_deadline)
      as [[err ->]|(n & _ & Hn & ->)]; cbn [fst]; [eauto|].
    unfold admitted, reserved. destruct caller_deadline; gs_simpl;
      rewrite lookup_insert; case_decide; eauto.
  - apply HF, quiet_request_event.
  - apply HF, quiet_prepare_failed.
  - apply HF, quiet_cancel.
  - apply HF, frame_response, Hinv.
  - apply HF, quiet_recovery_hint.
  - apply HF, quiet_advance_loop.
  - apply HF, quiet_disconnect_all.
Qed.

Lemma gs_run_step s e events :
  gs_run s (e :: events) = ((gs_run (gs_reduce s e).1 events).1,
                            (gs_reduce s e).2 ++ (gs_run (gs_reduce s e).1 events).2).
Proof. cbn. destruct (gs_reduce s e) as [s1 effs]. cbn. by destruct (gs_run s1 events). Qed.

Lemma armed_run events : forall s k d,
  inv s -> Forall event_ok events -> is_Some (gs_requests s !! k) -> armed s k d ->
  inv (gs_run s events).1 /\ is_Some (gs_requests (gs_run s events).1 !! k) /\
  armed (gs_run s events).1 k d.
Proof.
  induction events as [|e events IH]; intros s k d Hinv Hev Hk Ha; [done|].
  apply Forall_cons in Hev as [He Hev]. rewrite gs_run_step. cbn [fst].
  apply IH; eauto using inv_reduce, gs_reduce_keeps, armed_reduce.
Qed.

Lemma armed_admitted s payload charge n d :
  armed (admitted s payload charge n (Some d)) (mkKey (gs_generation s) n) d.
Proof.
  intros _. eexists _, _. split; [by left|]. repeat split.
  - unfold admitted, reserved. gs_simpl. apply lookup_insert_eq.
  - done.
Qed.

(** A request admitted with a deadline is answered once the clock passes it,
    whatever happened in between: after [AdvanceTime now] with [deadline <= now]
    its caller holds a terminal outcome. *)
Lemma passed_deadline_answers_caller s payload charge deadline plan events now :
  reachable s -> event_ok (OE_Admit payload charge (Some deadline)) ->
  (gs_admit s payload charge (Some deadline)).2 = OF_Admitted plan ->
  Forall event_ok events -> deadline <= now ->
  is_Some (gs_terminal_outcome
    (gs_advance_time (gs_run (gs_admit s payload charge (Some deadline)).1 events).1 now).1
    (pp_key plan)).
Proof.
  intros Hreach (Hp & Hc & _) Hadm Hev Hnow. pose proof (reachable_inv s Hreach) as Hinv.
  pose proof (inv_admit s payload charge (Some deadline) Hinv Hp Hc) as Hinv1.
  destruct (gs_admit_cases s payload charge (Some deadline))
    as [[err E]|(n & _ & Hn & E)]; rewrite E in *; cbn [fst snd] in *; simplify_eq.
  cbn [pp_key]. set (k := mkKey (gs_generation s) n).
  assert (Hk : is_Some (gs_requests (admitted s payload charge n (Some deadline)) !! k)).
  { unfold admitted, reserved. gs_simpl. rewrite lookup_insert_eq. eauto. }
  destruct (armed_run events _ k deadline Hinv1 Hev Hk (armed_admitted _ _ _ _ _))
    as (Hinv2 & Hk2 & Ha2).
  set (s2 := (gs_run _ events).1) in *. clearbody s2.
  pose proof (armed_advance_loop (S (heap_weight (gs_deadlines s2))) s2 now [] k deadline Ha2) as Ha3.
  pose proof (gs_advance_loop_drains (S (heap_weight (gs_deadlines s2))) s2 now [] ltac:(lia)) as Hd.
  pose proof (gs_reduce_keeps s2 (OE_AdvanceTime now) k Hinv2 Hk2) as [r Hr].
  cbn [gs_reduce] in Hr. fold (gs_advance_time s2 now) in *.
  set (s3 := (gs_advance_time s2 now).1) in *. clearbody s3.
  unfold gs_terminal_outcome. rewrite Hr. cbn.
  destruct (rr_caller (or_lifecycle r)) as [|o] eqn:Ho; [|eauto].
  assert (Hopen : caller_at s3 k = Some CO_Open) by (unfold caller_at; rewrite Hr; cbn; congruence).
  destruct (Ha3 Hopen) as (e & r' & He & Hat & _).
  rewrite Forall_forall in Hd. specialize (Hd e He). lia.
Qed.
End properties.

