(* ===== verification/GenCredits.v ===== *)
(** The credit ledger of a generation (crates/smb/src/runtime/state.rs).

    Every event is classified by the one move it makes on the ledger: none, an
    admission that spends, a rollback that gives back, a response that grants. The
    two theorems about credits are inductions over these moves. *)
From S2P Require Import Prelude Clock Reducer GenState GenInv GenReach GenPublish.
Local Open Scope Z_scope.

(** ** What the ledger sees of a request *)

Record CreditShare := mkShare {
  cs_charge : Z; cs_extra : Z; cs_seen : bool; cs_obligation : bool
}.

Definition share_of (r : OwnedRequest) : CreditShare :=
  mkShare (or_credit_charge r) (or_requested_extra_credits r)
    (or_credit_response_seen r) (or_credit_obligation r).

(** The request still waits for the response that settles its charge. *)
Definition unsettled (c : CreditShare) : bool := cs_obligation c && negb (cs_seen c).

Definition charge_outstanding (c : CreditShare) : Z := if unsettled c then cs_charge c else 0.
Definition extra_outstanding (c : CreditShare) : Z := if unsettled c then cs_extra c else 0.

Definition shares (s : GenerationState) : gmap RequestKey CreditShare :=
  share_of <$> gs_requests s.

Definition outstanding_charges (s : GenerationState) : Z := map_sum charge_outstanding (shares s).
Definition outstanding_extras (s : GenerationState) : Z := map_sum extra_outstanding (shares s).

(** The credits an effect reports as moved, with the charges of rolled back
    requests looked up by [charge_of]. *)
Definition effect_flow (charge_of : RequestKey -> Z) (e : OwnerEffect) : Z :=
  match e with
  | OF_Admitted plan => - pp_credit_charge plan
  | OF_ReservationRolledBack key => charge_of key
  | OF_CreditGrantApplied _ grant _ => grant
  | _ => 0
  end.

Definition credit_flow (charge_of : RequestKey -> Z) (effs : list OwnerEffect) : Z :=
  foldr (fun e acc => effect_flow charge_of e + acc) 0 effs.

Lemma credit_flow_app ch e1 e2 : credit_flow ch (e1 ++ e2) = credit_flow ch e1 + credit_flow ch e2.
Proof. unfold credit_flow. induction e1; cbn in *; lia. Qed.

(** ** The moves *)

Record same_ledger (s s' : GenerationState) : Prop := {
  sl_available : gs_available_credits s' = gs_available_credits s;
  sl_total : gs_total_credits s' = gs_total_credits s;
  sl_pending : gs_pending_extra_credits s' = gs_pending_extra_credits s;
  sl_target : gs_target_credits s' = gs_target_credits s;
  sl_shares : shares s' = shares s;
  sl_unhealthy : gs_unhealthy s = true -> gs_unhealthy s' = true
}.

#[export] Instance same_ledger_preorder : PreOrder same_ledger.
Proof.
  split; [by intros s|]. intros s1 s2 s3 [] []. split; try congruence. auto.
Qed.

Definition share_settled (c : CreditShare) (obligation : bool) : CreditShare :=
  mkShare (cs_charge c) (cs_extra c) true obligation.
Definition share_returned (c : CreditShare) : CreditShare :=
  mkShare (cs_charge c) (cs_extra c) (cs_seen c) false.

Inductive credit_move : GenerationState -> GenerationState -> list OwnerEffect -> Prop :=
| CM_same s s' effs :
    same_ledger s s' -> (forall ch, credit_flow ch effs = 0) -> credit_move s s' effs
| CM_admit s s' k charge extra effs :
    gs_requests s !! k = None -> 1 <= charge <= gs_available_credits s ->
    0 <= extra <= saturating_sub (gs_target_credits s)
      (saturating_add u32_max (gs_total_credits s) (gs_pending_extra_credits s)) ->
    gs_available_credits s' = gs_available_credits s - charge ->
    gs_total_credits s' = gs_total_credits s ->
    gs_pending_extra_credits s' = saturating_add u32_max (gs_pending_extra_credits s) extra ->
    gs_target_credits s' = gs_target_credits s ->
    shares s' = <[k := mkShare charge extra false true]> (shares s) ->
    (gs_unhealthy s = true -> gs_unhealthy s' = true) ->
    (forall ch, credit_flow ch effs = - charge) -> credit_move s s' effs
| CM_rollback s s' k c effs :
    shares s !! k = Some c -> unsettled c = true ->
    gs_available_credits s + cs_charge c <= u32_max ->
    gs_available_credits s' = gs_available_credits s + cs_charge c ->
    gs_total_credits s' = gs_total_credits s ->
    gs_pending_extra_credits s' =
      saturating_sub (gs_pending_extra_credits s) (cs_extra c) ->
    gs_target_credits s' = gs_target_credits s ->
    shares s' = <[k := share_returned c]> (shares s) ->
    (gs_unhealthy s = true -> gs_unhealthy s' = true) ->
    (forall ch, credit_flow ch effs = ch k) -> credit_move s s' effs
| CM_response s s' k c grant obligation effs :
    shares s !! k = Some c -> 0 <= grant ->
    (if cs_seen c then
       gs_pending_extra_credits s' = gs_pending_extra_credits s /\
       gs_total_credits s' = saturating_add u32_max (gs_total_credits s) grant
     else
       gs_pending_extra_credits s' =
         saturating_sub (gs_pending_extra_credits s) (cs_extra c) /\
       gs_total_credits s' = saturating_add u32_max
         (saturating_sub (gs_total_credits s) (cs_charge c)) grant) ->
    gs_target_credits s' = gs_target_credits s ->
    shares s' = <[k := share_settled c obligation]> (shares s) ->
    (gs_unhealthy s = true -> gs_unhealthy s' = true) ->
    (gs_available_credits s + grant <= u32_max /\
       gs_available_credits s' = gs_available_credits s + grant /\
       (forall ch, credit_flow ch effs = grant) \/
     gs_unhealthy s' = true /\ gs_available_credits s' = gs_available_credits s /\
       (forall ch, credit_flow ch effs = 0)) ->
    credit_move s s' effs
| CM_trans s1 s2 s3 e1 e2 :
    credit_move s1 s2 e1 -> credit_move s2 s3 e2 -> credit_move s1 s3 (e1 ++ e2).

(** ** Handlers that leave the ledger alone *)

Lemma same_ledger_fields s s' :
  gs_available_credits s' = gs_available_credits s ->
  gs_total_credits s' = gs_total_credits s ->
  gs_pending_extra_credits s' = gs_pending_extra_credits s ->
  gs_target_credits s' = gs_target_credits s ->
  gs_requests s' = gs_requests s ->
  (gs_unhealthy s = true -> gs_unhealthy s' = true) -> same_ledger s s'.
Proof. intros ???? E ?. split; try done. unfold shares. by rewrite E. Qed.

Lemma shares_lookup s k r : gs_requests s !! k = Some r -> shares s !! k = Some (share_of r).
Proof. intros Hk. unfold shares. by rewrite lookup_fmap, Hk. Qed.

Lemma same_ledger_touch s s' k r r' :
  gs_requests s !! k = Some r -> gs_requests s' = <[k := r']> (gs_requests s) ->
  share_of r' = share_of r ->
  gs_available_credits s' = gs_available_credits s ->
  gs_total_credits s' = gs_total_credits s ->
  gs_pending_extra_credits s' = gs_pending_extra_credits s ->
  gs_target_credits s' = gs_target_credits s ->
  (gs_unhealthy s = true -> gs_unhealthy s' = true) -> same_ledger s s'.
Proof.
  intros Hk Hr E ?????. split; try done. unfold shares. rewrite Hr, fmap_insert, E.
  apply insert_id. by apply shares_lookup.
Qed.

Lemma same_ledger_put s k r r' :
  gs_requests s !! k = Some r -> share_of r' = share_of r -> same_ledger s (put_request s k r').
Proof. intros Hk E. by apply (same_ledger_touch s _ k r r'). Qed.

Lemma same_ledger_release_payload s k : same_ledger s (gs_release_payload s k).
Proof.
  destruct (gs_requests s !! k) as [r|] eqn:Hk.
  - rewrite (gs_release_payload_eq s k r Hk). by eapply (same_ledger_touch s _ k r); [done|reflexivity|..].
  - unfold gs_release_payload. by rewrite Hk.
Qed.

Lemma same_ledger_release s k : same_ledger s (gs_release_request_ownership s k).
Proof.
  destruct (gs_requests s !! k) as [r|] eqn:Hk.
  - rewrite (gs_release_eq s k r Hk). by eapply (same_ledger_touch s _ k r); [done|reflexivity|..].
  - by rewrite gs_release_absent.
Qed.

Lemma same_ledger_schedule s k at_ kind : same_ledger s (gs_schedule_deadline s k at_ kind).1.
Proof.
  unfold gs_schedule_deadline. destruct (gs_requests s !! k) as [r|] eqn:Hk; [|done].
  destruct (checked_add _ _ 1); [|by apply same_ledger_fields].
  by eapply (same_ledger_touch s _ k r); [done|reflexivity|..].
Qed.

Lemma move_same s s' effs :
  same_ledger s s' -> Forall (fun e => forall ch, effect_flow ch e = 0) effs ->
  credit_move s s' effs.
Proof.
  intros H He. apply CM_same; [done|]. intros ch. induction He as [|e effs E _ IH]; [done|].
  cbn. rewrite E. unfold credit_flow in IH. lia.
Qed.

(** A step without a move first. *)
Lemma move_after s1 s2 s3 effs : same_ledger s1 s2 -> credit_move s2 s3 effs -> credit_move s1 s3 effs.
Proof. intros H1 H2. apply (CM_trans s1 s2 s3 [] effs); [|done]. by apply move_same. Qed.

(** Effects that report no move. *)
Lemma move_effects s s' effs effs' :
  credit_move s s' effs -> Forall (fun e => forall ch, effect_flow ch e = 0) effs' ->
  credit_move s s' (effs' ++ effs).
Proof. intros H1 H2. eapply CM_trans; [|done]. by apply move_same. Qed.

(** ** Rollback *)

(** The reservation of [k] can only be given back whole. *)
Definition returnable (s : GenerationState) (k : RequestKey) : Prop :=
  forall r, gs_requests s !! k = Some r ->
    or_credit_response_seen r = false /\
    (or_admission_held r = true -> or_credit_obligation r = true).

Lemma move_rollback s k :
  returnable s k ->
  credit_move s (gs_rollback s k).1
    (if (gs_rollback s k).2 then [OF_ReservationRolledBack k] else []).
Proof.
  intros Hs. unfold gs_rollback.
  destruct (gs_requests s !! k) as [r|] eqn:Hk; [|by apply move_same].
  destruct (Hs r Hk) as [Hseen Hadm].
  destruct (or_credit_obligation r) eqn:Ho; cbn [negb andb].
  - destruct (checked_add _ _ _) as [av|] eqn:Hc; [|by apply move_same].
    apply checked_add_Some in Hc as [Hle ->]. cbn [fst snd].
    erewrite gs_release_eq by (gs_simpl; apply lookup_insert_eq).
    apply (CM_rollback _ _ k (share_of r)); gs_simpl; try done.
    + by apply shares_lookup.
    + unfold unsettled. cbn. by rewrite Ho, Hseen.
    + unfold shares. cbn. by rewrite insert_insert_eq, fmap_insert.
    + intros ch. lia.
  - destruct (or_admission_held r); [by specialize (Hadm eq_refl)|]. by apply move_same.
Qed.

Lemma move_settle s k now committed :
  (committed = false -> returnable s k) ->
  credit_move s (gs_settle_unanswered s k now committed).1
    (gs_settle_unanswered s k now committed).2.
Proof.
  intros Hs. unfold gs_settle_unanswered. destruct committed.
  - pose proof (same_ledger_schedule s k (time_add now (gs_tombstone_drain_timeout s))
      DK_Tombstone) as H.
    destruct (gs_schedule_deadline _ _ _ _) as [s1 []]; apply move_same; try done;
      by repeat constructor.
  - pose proof (move_rollback s k (Hs eq_refl)) as H.
    by destruct (gs_rollback s k) as [s1 []].
Qed.

(** A request that is not on the wire has seen no response. *)
Lemma uncommitted_returnable s k r r' :
  or_wf k r -> rr_wire_committed (or_lifecycle r) = false ->
  share_of r' = share_of r -> or_admission_held r' = or_admission_held r ->
  gs_requests s !! k = Some r' -> returnable s k.
Proof.
  intros W Hc [= _ _ Es Eo] Ea Hk r'' Hr''. rewrite Hk in Hr''. injection Hr'' as <-.
  rewrite Es, Eo, Ea. split; [|by apply (wf_admission _ _ W)].
  destruct (or_credit_response_seen r) eqn:E; [|done]. by rewrite (wf_seen _ _ W E) in Hc.
Qed.

Lemma move_request_event s k e :
  credit_move s (gs_request_event s k e).1 (gs_request_event s k e).2.
Proof.
  unfold gs_request_event. case_bool_decide; [by apply move_same; repeat constructor|].
  destruct (gs_requests s !! k) as [r|] eqn:Hk; [|by apply move_same; repeat constructor].
  destruct (rr_reduce _ _) as [l eff]. cbn [fst snd].
  apply move_same; [|by repeat constructor].
  assert (H0 : same_ledger s (put_request s k (r <| or_lifecycle := l |>)))
    by by apply (same_ledger_put s k r).
  destruct e; try exact H0. etrans; [exact H0|]. apply same_ledger_release_payload.
Qed.

Lemma move_recovery_hint s k :
  credit_move s (gs_recovery_hint s k).1 (gs_recovery_hint s k).2.
Proof.
  unfold gs_recovery_hint. case_bool_decide; [by apply move_same; repeat constructor|].
  destruct (gs_requests s !! k) as [r|] eqn:Hk; [|by apply move_same; repeat constructor].
  destruct (rr_reduce _ _) as [l eff]. cbn [fst snd].
  apply move_same; [|by repeat constructor].
  etrans; [|apply same_ledger_release]. by apply (same_ledger_put s k r).
Qed.

Lemma move_cancel s k now : wf_table s -> credit_move s (gs_cancel s k now).1 (gs_cancel s k now).2.
Proof.
  intros Hwf. unfold gs_cancel. case_bool_decide; [by apply move_same; repeat constructor|].
  destruct (gs_requests s !! k) as [r|] eqn:Hk; [|by apply move_same; repeat constructor].
  destruct (or_cancel_seen r); [by apply move_same; repeat constructor|].
  destruct (negb _).
  { apply move_same; [|by repeat constructor]. by apply (same_ledger_put s k r). }
  destruct (rr_reduce (or_lifecycle r) RE_Cancel) as [l eff].
  set (s1 := put_request s k _).
  assert (H1 : same_ledger s s1) by by apply (same_ledger_put s k r).
  pose proof (move_settle s1 k now (rr_wire_committed (or_lifecycle r))) as H2.
  destruct (gs_settle_unanswered _ _ _ _) as [s2 effs]. cbn [fst snd] in *.
  apply (move_effects s s2 effs [_; _]); [|by repeat constructor].
  eapply move_after; [exact H1|]. apply H2. intros Hc.
  eapply (uncommitted_returnable s1 k r); [by apply Hwf|done| | |].
  3: { unfold s1. gs_simpl. apply lookup_insert_eq. } 1-2: done.
Qed.

Lemma move_expire s now e : wf_table s -> credit_move s (gs_expire s now e).1 (gs_expire s now e).2.
Proof.
  intros Hwf. unfold gs_expire.
  destruct (gs_requests s !! de_key e) as [r|] eqn:Hk; [|by apply move_same; repeat constructor].
  case_bool_decide; [by apply move_same; repeat constructor|].
  destruct (de_kind e).
  - destruct (negb _); [by apply move_same; repeat constructor|].
    destruct (rr_reduce (or_lifecycle r) RE_Deadline) as [l eff].
    set (s1 := put_request s (de_key e) _).
    assert (H1 : same_ledger s s1) by by apply (same_ledger_put s (de_key e) r).
    pose proof (move_settle s1 (de_key e) now (rr_wire_committed (or_lifecycle r))) as H2.
    destruct (gs_settle_unanswered _ _ _ _) as [s2 effs]. cbn [fst snd] in *.
    apply (move_effects s s2 effs [_]); [|by repeat constructor].
    eapply move_after; [exact H1|]. apply H2. intros Hc.
    eapply (uncommitted_returnable s1 (de_key e) r); [by apply Hwf|done| | |].
    3: { unfold s1. gs_simpl. apply lookup_insert_eq. } 1-2: done.
  - destruct (_ && _); apply move_same; try (by repeat constructor).
Qed.

Lemma move_prepare_failed s k :
  wf_table s -> credit_move s (gs_prepare_failed s k).1 (gs_prepare_failed s k).2.
Proof.
  intros Hwf. unfold gs_prepare_failed.
  case_bool_decide; [by apply move_same; repeat constructor|].
  destruct (gs_requests s !! k) as [r|] eqn:Hk; [|by apply move_same; repeat constructor].
  destruct (rr_wire_committed (or_lifecycle r)) eqn:Hc; [by apply move_same; repeat constructor|].
  destruct (rr_publish_terminal _ _) as [l eff]. set (s1 := put_request s k _).
  assert (H1 : same_ledger s s1) by by apply (same_ledger_put s k r).
  assert (Hr : returnable s1 k).
  { eapply (uncommitted_returnable s1 k r); [by apply Hwf|done| | |].
    3: { unfold s1. gs_simpl. apply lookup_insert_eq. } 1-2: done. }
  pose proof (move_rollback s1 k Hr) as H2.
  destruct (gs_rollback s1 k) as [s2 b]. cbn [fst snd] in *.
  apply (move_effects s s2 _ [_]); [|by repeat constructor]. by eapply move_after.
Qed.

Lemma move_disconnect_all network keys s effs :
  exists more, (foldl (gs_disconnect_one network) (s, effs) keys).2 = effs ++ more /\
    credit_move s (foldl (gs_disconnect_one network) (s, effs) keys).1 more.
Proof.
  revert s effs. induction keys as [|k keys IH]; intros s effs.
  - exists []. rewrite app_nil_r. split; [done|]. by apply move_same.
  - cbn -[gs_disconnect_one].
    assert (H1 : exists more, (gs_disconnect_one network (s, effs) k).2 = effs ++ more /\
      credit_move s (gs_disconnect_one network (s, effs) k).1 more).
    { unfold gs_disconnect_one. destruct (gs_requests s !! k) as [r|] eqn:Hk.
      - destruct (rr_reduce _ _) as [l eff]. exists [OF_Request k eff]. split; [done|].
        apply move_same; [|by repeat constructor].
        etrans; [|apply same_ledger_release]. by apply (same_ledger_put s k r).
      - exists []. rewrite app_nil_r. split; [done|]. apply move_same; [|done].
        apply same_ledger_release. }
    destruct H1 as (m1 & E1 & C1). destruct (gs_disconnect_one _ _ _) as [s1 effs1].
    cbn [fst snd] in *. subst effs1. destruct (IH s1 (effs ++ m1)) as (m2 & E2 & C2).
    exists (m1 ++ m2). rewrite E2, <- app_assoc. split; [done|]. by eapply CM_trans.
Qed.

(** ** Responses and admissions *)

Lemma same_ledger_finalize s k r previous :
  gs_requests s !! k = Some r ->
  let s' := (finalize_response s k r previous).1 in
  gs_available_credits s' = gs_available_credits s /\
  gs_total_credits s' = gs_total_credits s /\
  gs_pending_extra_credits s' = gs_pending_extra_credits s /\
  gs_target_credits s' = gs_target_credits s /\
  shares s' = <[k := share_returned (share_of r)]> (shares s) /\
  (gs_unhealthy s = true -> gs_unhealthy s' = true) /\
  (forall ch, credit_flow ch (finalize_response s k r previous).2 = 0).
Proof.
  intros Hk. unfold finalize_response.
  set (s1 := match previous with RP_AsyncPending _ => _ | _ => s end).
  assert (H1 : same_ledger s s1 /\ gs_requests s1 = gs_requests s).
  { subst s1. by destruct previous. }
  destruct H1 as [[] E]. clearbody s1.
  destruct (checked_add u64_max _ 1); cbn [fst snd];
    (erewrite gs_release_eq by (gs_simpl; apply lookup_insert_eq)); gs_simpl;
    unfold shares; cbn; rewrite insert_insert_eq, fmap_insert, E; repeat split; auto.
Qed.

Lemma move_response s k e grant :
  in_range u16_max grant -> credit_move s (gs_response s k e grant).1 (gs_response s k e grant).2.
Proof.
  intros Hg. unfold gs_response. case_bool_decide; [by apply move_same; repeat constructor|].
  destruct (async_conflict s k e) as [[??]|].
  { apply move_same; [by apply same_ledger_fields|by repeat constructor]. }
  destruct (gs_requests s !! k) as [r|] eqn:Hk; [|by apply move_same; repeat constructor].
  destruct (async_changed r e) as [[??]|].
  { apply move_same; [by apply same_ledger_fields|by repeat constructor]. }
  case_bool_decide; [by apply move_same; repeat constructor|].
  pose proof (shares_lookup s k r Hk) as Hc.
  pose proof (response_bookkeeping_request s k r grant) as Er.
  assert (B : let s1 := (response_bookkeeping s k r grant).1 in
    gs_available_credits s1 = gs_available_credits s /\
    (if or_credit_response_seen r then
       gs_pending_extra_credits s1 = gs_pending_extra_credits s /\
       gs_total_credits s1 = saturating_add u32_max (gs_total_credits s) grant
     else
       gs_pending_extra_credits s1 =
         saturating_sub (gs_pending_extra_credits s) (or_requested_extra_credits r) /\
       gs_total_credits s1 = saturating_add u32_max
         (saturating_sub (gs_total_credits s) (or_credit_charge r)) grant) /\
    gs_target_credits s1 = gs_target_credits s /\ gs_unhealthy s1 = gs_unhealthy s /\
    shares s1 = <[k := share_settled (share_of r) (or_credit_obligation r)]> (shares s)).
  { unfold response_bookkeeping, settle_credit_totals, shares. cbn.
    destruct (or_credit_response_seen r), (or_payload_held r); cbn;
      rewrite fmap_insert; repeat split; done. }
  destruct (response_bookkeeping s k r grant) as [s1 r1]. cbn in Er. subst r1.
  cbn [fst] in B. destruct B as (B1 & B2 & B3 & B4 & B5).
  rewrite B1. destruct (checked_add u32_max _ grant) as [av|] eqn:Hav.
  - apply checked_add_Some in Hav as [Hle ->].
    destruct e as [id|]; cbv beta iota zeta.
    + destruct (rr_reduce _ _) as [l eff].
      eapply (CM_response s _ k (share_of r) grant (or_credit_obligation r)); gs_simpl; try done.
      * ints.
      * unfold shares in *. cbn. rewrite fmap_insert, B5, insert_insert_eq. done.
      * by rewrite B4.
      * left. split; [done|]. split; [done|]. intros ch. cbn. lia.
    + destruct (rr_reduce _ _) as [l eff]. set (s2 := put_request _ k _).
      destruct (same_ledger_finalize s2 k ((answered r) <| or_lifecycle := l |>)
        (rr_response (or_lifecycle r))) as (F1 & F2 & F3 & F4 & F5 & F6 & F7).
      { unfold s2. gs_simpl. apply lookup_insert_eq. }
      destruct (finalize_response _ _ _ _) as [s3 more]. cbn [fst snd] in *.
      eapply (CM_response s s3 k (share_of r) grant false); try done.
      * ints.
      * rewrite F2, F3. exact B2.
      * rewrite F4. exact B3.
      * rewrite F5. unfold s2, shares in *. cbn.
        rewrite fmap_insert, B5, !insert_insert_eq. done.
      * intros Hu. apply F6. unfold s2. cbn. by rewrite B4.
      * left. rewrite F1. split; [done|]. split; [done|]. intros ch. rewrite credit_flow_app, F7. cbn. lia.
  - eapply (CM_response s _ k (share_of r) grant (or_credit_obligation r)); gs_simpl; try done.
    + ints.
    + right. done.
Qed.

(** The credits a request asks for beyond its charge: what is missing to the
    target window, at most. *)
Lemma credit_request_extra s charge :
  in_range u16_max charge -> in_range u32_max (gs_target_credits s) ->
  0 <= gs_total_credits s -> 0 <= gs_pending_extra_credits s ->
  charge <= credit_request_for s charge <= u16_max /\
  wrapping_sub u32_max (credit_request_for s charge) charge =
    credit_request_for s charge - charge /\
  credit_request_for s charge - charge <= saturating_sub (gs_target_credits s)
    (saturating_add u32_max (gs_total_credits s) (gs_pending_extra_credits s)).
Proof.
  intros Hc Ht H1 H2. unfold credit_request_for.
  set (extra := saturating_sub _ _).
  assert (He : 0 <= extra <= u32_max) by (subst extra; ints).
  clearbody extra. rewrite as_uint_small by ints.
  rewrite wrapping_sub_small by ints. ints.
Qed.

Record ledger (s : GenerationState) : Prop := {
  lg_available : in_range u32_max (gs_available_credits s);
  lg_total : in_range u32_max (gs_total_credits s);
  lg_pending : in_range u32_max (gs_pending_extra_credits s);
  lg_target : in_range u32_max (gs_target_credits s);
  lg_shares : map_Forall (fun _ c => 1 <= cs_charge c /\ 0 <= cs_extra c) (shares s);
  lg_extras : gs_pending_extra_credits s <= outstanding_extras s;
  lg_held : gs_unhealthy s = false ->
    gs_total_credits s <= gs_available_credits s + outstanding_charges s
}.

Lemma move_admit s payload charge deadline :
  identity s -> ledger s -> in_range u16_max charge ->
  credit_move s (gs_admit s payload charge deadline).1 [(gs_admit s payload charge deadline).2].
Proof.
  intros Hid Hl Hc. destruct (gs_admit_cases s payload charge deadline)
    as [[e ->]|(n & Hrej & Hn & ->)]; cbn [fst snd]; [by apply move_same; repeat constructor|].
  pose proof (identity_fresh s n Hid Hn) as Hfresh.
  apply admission_rejection_None in Hrej as (Hc0 & _ & _ & _ & Hav).
  destruct (credit_request_extra s charge Hc (lg_target _ Hl)) as (Hx1 & Hx2 & Hx3);
    [apply Hl..|].
  pose proof (lg_available _ Hl) as Ha.
  eapply (CM_admit s _ (mkKey (gs_generation s) n) charge (credit_request_for s charge - charge)).
  - exact Hfresh.
  - ints.
  - lia.
  - unfold admitted, reserved. destruct deadline; gs_simpl; apply wrapping_sub_small; ints.
  - unfold admitted, reserved. by destruct deadline.
  - unfold admitted, reserved. destruct deadline; gs_simpl; by rewrite Hx2.
  - unfold admitted, reserved. by destruct deadline.
  - unfold admitted, reserved, shares. destruct deadline; gs_simpl; rewrite fmap_insert;
      unfold share_of; cbn; by rewrite Hx2.
  - unfold admitted, reserved. by destruct deadline.
  - intros ch. cbn. lia.
Qed.

(** ** The ledger is an invariant *)

Lemma outstanding_nonneg (m : gmap RequestKey CreditShare) :
  map_Forall (fun _ c => 1 <= cs_charge c /\ 0 <= cs_extra c) m ->
  (forall k c, m !! k = Some c -> 0 <= charge_outstanding c) /\
  (forall k c, m !! k = Some c -> 0 <= extra_outstanding c).
Proof.
  intros H. unfold charge_outstanding, extra_outstanding.
  split; intros k c Hk; destruct (H k c Hk); case_match; lia.
Qed.

Lemma ledger_settle s s' k c c' :
  shares s !! k = Some c -> shares s' = <[k := c']> (shares s) ->
  cs_charge c' = cs_charge c -> cs_extra c' = cs_extra c -> unsettled c' = false ->
  map_Forall (fun _ c => 1 <= cs_charge c /\ 0 <= cs_extra c) (shares s) ->
  map_Forall (fun _ c => 1 <= cs_charge c /\ 0 <= cs_extra c) (shares s') /\
  outstanding_charges s' = outstanding_charges s - charge_outstanding c /\
  outstanding_extras s' = outstanding_extras s - extra_outstanding c /\
  charge_outstanding c <= outstanding_charges s /\
  extra_outstanding c <= outstanding_extras s.
Proof.
  intros Hk E Hc Hx Hu H. destruct (outstanding_nonneg _ H) as [N1 N2].
  unfold outstanding_charges, outstanding_extras. rewrite E.
  rewrite !(map_sum_update _ _ k c) by done. split_and!.
  - apply map_Forall_insert_2; [|done]. rewrite Hc, Hx. by apply (H k).
  - unfold charge_outstanding at 3. rewrite Hu. lia.
  - unfold extra_outstanding at 3. rewrite Hu. lia.
  - by apply (map_sum_ge _ _ k).
  - by apply (map_sum_ge _ _ k).
Qed.

Lemma still_healthy s s' :
  (gs_unhealthy s = true -> gs_unhealthy s' = true) ->
  gs_unhealthy s' = false -> gs_unhealthy s = false.
Proof. intros H H'. destruct (gs_unhealthy s); [|done]. by rewrite H in H'. Qed.

Lemma ledger_same s s' : same_ledger s s' -> ledger s -> ledger s'.
Proof.
  intros [Sa St Sp Sg Ss Su] [L1 L2 L3 L4 L5 L6 L7].
  split; unfold outstanding_charges, outstanding_extras;
    rewrite ?Sa, ?St, ?Sp, ?Sg, ?Ss; try assumption.
  intros H%(still_healthy s s' Su). by apply L7.
Qed.

Lemma ledger_admit s s' k charge extra :
  gs_requests s !! k = None -> 1 <= charge <= gs_available_credits s ->
  0 <= extra <= saturating_sub (gs_target_credits s)
    (saturating_add u32_max (gs_total_credits s) (gs_pending_extra_credits s)) ->
  gs_available_credits s' = gs_available_credits s - charge ->
  gs_total_credits s' = gs_total_credits s ->
  gs_pending_extra_credits s' = saturating_add u32_max (gs_pending_extra_credits s) extra ->
  gs_target_credits s' = gs_target_credits s ->
  shares s' = <[k := mkShare charge extra false true]> (shares s) ->
  (gs_unhealthy s = true -> gs_unhealthy s' = true) -> ledger s -> ledger s'.
Proof.
  intros Hk Hc Hx Ea Et Ep Eg Es Hu [L1 L2 L3 L4 L5 L6 L7].
  assert (Hfresh : shares s !! k = None) by (unfold shares; by rewrite lookup_fmap, Hk).
  assert (Eo : outstanding_charges s' = charge + outstanding_charges s)
    by (unfold outstanding_charges; rewrite Es, map_sum_insert by exact Hfresh; reflexivity).
  assert (Ee : outstanding_extras s' = extra + outstanding_extras s)
    by (unfold outstanding_extras; rewrite Es, map_sum_insert by exact Hfresh; reflexivity).
  split; rewrite ?Ea, ?Et, ?Ep, ?Eg, ?Eo, ?Ee; try ints.
  - rewrite Es. apply map_Forall_insert_2; [cbn; lia|done].
  - intros H%(still_healthy s s' Hu). specialize (L7 H). lia.
Qed.

Lemma ledger_rollback s s' k c :
  shares s !! k = Some c -> unsettled c = true ->
  gs_available_credits s + cs_charge c <= u32_max ->
  gs_available_credits s' = gs_available_credits s + cs_charge c ->
  gs_total_credits s' = gs_total_credits s ->
  gs_pending_extra_credits s' = saturating_sub (gs_pending_extra_credits s) (cs_extra c) ->
  gs_target_credits s' = gs_target_credits s ->
  shares s' = <[k := share_returned c]> (shares s) ->
  (gs_unhealthy s = true -> gs_unhealthy s' = true) -> ledger s -> ledger s'.
Proof.
  intros Hk Hun Hle Ea Et Ep Eg Es Hu [L1 L2 L3 L4 L5 L6 L7].
  destruct (ledger_settle s s' k c (share_returned c) Hk Es eq_refl eq_refl eq_refl L5)
    as (F & Eo & Ee & G1 & G2).
  unfold charge_outstanding, extra_outstanding in *. rewrite Hun in *.
  pose proof (L5 k c Hk) as [P1 P2].
  split; rewrite ?Ea, ?Et, ?Ep, ?Eg, ?Eo, ?Ee; try assumption; try ints.
  intros H%(still_healthy s s' Hu). specialize (L7 H). lia.
Qed.

Lemma ledger_response s s' k c grant ob :
  shares s !! k = Some c -> 0 <= grant ->
  (if cs_seen c then
     gs_pending_extra_credits s' = gs_pending_extra_credits s /\
     gs_total_credits s' = saturating_add u32_max (gs_total_credits s) grant
   else
     gs_pending_extra_credits s' =
       saturating_sub (gs_pending_extra_credits s) (cs_extra c) /\
     gs_total_credits s' = saturating_add u32_max
       (saturating_sub (gs_total_credits s) (cs_charge c)) grant) ->
  gs_target_credits s' = gs_target_credits s ->
  shares s' = <[k := share_settled c ob]> (shares s) ->
  (gs_unhealthy s = true -> gs_unhealthy s' = true) ->
  (gs_available_credits s + grant <= u32_max /\
     gs_available_credits s' = gs_available_credits s + grant \/
   gs_unhealthy s' = true /\ gs_available_credits s' = gs_available_credits s) ->
  ledger s -> ledger s'.
Proof.
  intros Hk Hg Etp Eg Es Hu Ha [L1 L2 L3 L4 L5 L6 L7].
  destruct (ledger_settle s s' k c (share_settled c ob) Hk Es eq_refl eq_refl)
    as (F & Eo & Ee & G1 & G2); [by destruct ob|exact L5|].
  pose proof (L5 k c Hk) as [P1 P2].
  assert (Q1 : 0 <= extra_outstanding c <= if cs_seen c then 0 else cs_extra c)
    by (unfold extra_outstanding, unsettled; destruct (cs_obligation c), (cs_seen c); cbn; lia).
  assert (Q2 : 0 <= charge_outstanding c <= if cs_seen c then 0 else cs_charge c)
    by (unfold charge_outstanding, unsettled; destruct (cs_obligation c), (cs_seen c); cbn; lia).
  split; rewrite ?Eg, ?Eo, ?Ee; try assumption.
  - destruct Ha as [(?&->)|(_&->)]; ints.
  - destruct (cs_seen c), Etp as [_ ->]; ints.
  - destruct (cs_seen c), Etp as [-> _]; ints.
  - destruct (cs_seen c), Etp as [-> _]; ints.
  - intros H. pose proof (L7 (still_healthy s s' Hu H)) as L.
    destruct Ha as [(?&->)|(Hh&_)]; [|congruence].
    destruct (cs_seen c), Etp as [_ ->]; ints.
Qed.

Lemma ledger_move s s' effs : credit_move s s' effs -> ledger s -> ledger s'.
Proof.
  induction 1 as [| | |s s' k c grant ob effs ?????? Ha|]; [| | | |by auto].
  - by apply ledger_same.
  - by eapply ledger_admit.
  - by eapply ledger_rollback.
  - eapply (ledger_response s s' k c grant ob); try eassumption.
    destruct Ha as [(?&?&_)|(?&?&_)]; [by left|by right].
Qed.

Section moves.
Context `{!HashOrder RequestKey}.

Lemma move_advance_loop fuel s now effs :
  inv s -> exists more, (gs_advance_loop fuel s now effs).2 = effs ++ more /\
    credit_move s (gs_advance_loop fuel s now effs).1 more.
Proof.
  revert s effs. induction fuel as [|fuel IH]; intros s effs Hinv; cbn.
  { exists []. rewrite app_nil_r. split; [done|]. by apply move_same. }
  assert (Hnone : exists more, effs = effs ++ more /\ credit_move s s more).
  { exists []. rewrite app_nil_r. split; [done|]. by apply move_same. }
  destruct (heap_pop _) as [[e rest]|]; [|exact Hnone].
  case_bool_decide; [|exact Hnone].
  set (s1 := s <| gs_deadlines := rest |>).
  assert (H1 : inv s1).
  { eapply (inv_quiet s); [done|by apply quiet_fields| |apply Hinv].
    by eapply accounting_fields; [apply Hinv|..]. }
  pose proof (move_expire s1 now e (inv_requests _ H1)) as Hm.
  assert (H2 : inv (gs_expire s1 now e).1).
  { eapply (inv_quiet s1); eauto using quiet_expire, accounting_expire, wf_expire,
      inv_accounting, inv_requests. }
  destruct (gs_expire s1 now e) as [s2 m1]. cbn [fst snd] in *.
  destruct (IH s2 (effs ++ m1) H2) as (m2 & E2 & C2). exists (m1 ++ m2).
  rewrite E2, <- app_assoc. split; [done|]. eapply CM_trans; [|exact C2].
  eapply move_after; [|exact Hm]. by apply same_ledger_fields.
Qed.

Lemma move_reduce s e :
  inv s -> ledger s -> event_ok e -> credit_move s (gs_reduce s e).1 (gs_reduce s e).2.
Proof.
  intros Hinv Hl He. pose proof (inv_requests _ Hinv) as Hw. destruct e; cbn [gs_reduce] in *.
  - destruct He as (_ & Hc & _).
    pose proof (move_admit s payload_bytes credit_charge caller_deadline
      (inv_identity _ Hinv) Hl Hc) as H1. by destruct (gs_admit _ _ _ _).
  - apply move_request_event.
  - by apply move_prepare_failed.
  - by apply move_cancel.
  - by apply move_response.
  - apply move_recovery_hint.
  - unfold gs_advance_time.
    destruct (move_advance_loop (S (heap_weight (gs_deadlines s))) s now [] Hinv)
      as (m & -> & H1). exact H1.
  - unfold gs_disconnect.
    destruct (move_disconnect_all network (hash_keys (gs_requests s)) s []) as (m & -> & H1).
    exact H1.
Qed.

Lemma ledger_new g m c t limits d : new_ok m c t limits d -> ledger (gs_new g m c t limits d).
Proof.
  intros (Hm & Hc & Ht & _). split; cbn; try assumption.
  - ints.
  - unfold shares. cbn. rewrite fmap_empty. apply map_Forall_empty.
  - unfold outstanding_extras, shares. cbn. rewrite fmap_empty, map_sum_empty. lia.
  - intros _. unfold outstanding_charges, shares. cbn. rewrite fmap_empty, map_sum_empty. lia.
Qed.

Lemma reachable_ledger s : reachable s -> ledger s.
Proof.
  induction 1 as [g m c t limits d H|s t _ IH Ht|s e Hr IH He].
  - by apply (ledger_new g m c t limits d).
  - destruct IH as [L1 L2 L3 L4 L5 L6 L7]. split; try assumption. cbn. ints.
  - eapply ledger_move; [apply move_reduce|]; eauto using reachable_inv.
Qed.

(** ** The effects report every credit that moved *)

Lemma credit_move_keeps s s' effs : credit_move s s' effs ->
  forall k c, shares s !! k = Some c ->
    exists c', shares s' !! k = Some c' /\ cs_charge c' = cs_charge c.
Proof.
  induction 1 as [s s' effs S _|s s' k0 ch x effs Hk _ _ _ _ _ _ Es _ _
    |s s' k0 c0 effs Hk _ _ _ _ _ _ Es _ _|s s' k0 c0 g ob effs Hk _ _ _ Es _ _
    |s1 s2 s3 e1 e2 _ IH1 _ IH2]; intros k c Hc.
  - rewrite (sl_shares _ _ S). eauto.
  - rewrite Es, lookup_insert_ne; [eauto|]. intros <-. unfold shares in Hc.
    rewrite lookup_fmap, Hk in Hc. done.
  - rewrite Es, lookup_insert. case_decide; simplify_eq; eauto.
  - rewrite Es, lookup_insert. case_decide; simplify_eq; eauto.
  - destruct (IH1 k c Hc) as (c2 & H2 & <-). by apply IH2.
Qed.

Lemma credit_move_flow s s' effs : credit_move s s' effs ->
  forall ch, (forall k c, shares s' !! k = Some c -> ch k = cs_charge c) ->
  gs_available_credits s' = gs_available_credits s + credit_flow ch effs.
Proof.
  induction 1 as [s s' effs S Hf|s s' k0 c x effs Hk _ _ Ea _ _ _ _ _ Hf
    |s s' k0 c0 effs Hk _ _ Ea _ _ _ Es _ Hf|s s' k0 c0 g ob effs Hk _ _ _ _ _ Ha
    |s1 s2 s3 e1 e2 M1 IH1 M2 IH2]; intros ch Hch.
  - rewrite Hf, (sl_available _ _ S). lia.
  - rewrite Hf, Ea. lia.
  - rewrite Hf, Ea. rewrite (Hch k0 (share_returned c0)); [done|].
    rewrite Es. apply lookup_insert_eq.
  - destruct Ha as [(_ & -> & ->)|(_ & -> & ->)]; lia.
  - rewrite credit_flow_app, (IH2 ch Hch), (IH1 ch); [lia|].
    intros k c Hc. destruct (credit_move_keeps _ _ _ M2 k c Hc) as (c' & Hc' & <-). eauto.
Qed.

Lemma move_run events : forall s, inv s -> ledger s -> Forall event_ok events ->
  credit_move s (gs_run s events).1 (gs_run s events).2.
Proof.
  induction events as [|e events IH]; intros s Hinv Hl Hev; [by apply move_same|].
  apply Forall_cons in Hev as [He Hev]. pose proof (move_reduce s e Hinv Hl He) as M.
  pose proof (inv_reduce s e Hinv He) as Hinv'. cbn.
  destruct (gs_reduce s e) as [s1 e1]. cbn [fst snd] in *.
  pose proof (IH s1 Hinv' (ledger_move _ _ _ M Hl) Hev) as M2.
  destruct (gs_run s1 events) as [s2 e2]. by eapply CM_trans.
Qed.

(** The charge a request was admitted with. *)
Definition charge_of (s : GenerationState) (k : RequestKey) : Z :=
  match gs_requests s !! k with Some r => or_credit_charge r | None => 0 end.

(** C5: every spendable credit is accounted for by an effect: over any run of events
    the available credits change by exactly what the effects report, minus the charge
    of each admission, plus each applied grant, plus the charge of each rolled back
    reservation. Nothing else mints or loses a credit. *)
Theorem credit_effects_are_exact s events :
  reachable s -> Forall event_ok events ->
  gs_available_credits (gs_run s events).1 =
  gs_available_credits s
    + credit_flow (charge_of (gs_run s events).1) (gs_run s events).2.
Proof.
  intros Hr Hev. eapply credit_move_flow.
  - apply move_run; eauto using reachable_inv, reachable_ledger.
  - intros k c Hc. unfold shares in Hc. rewrite lookup_fmap in Hc. unfold charge_of.
    destruct (_ !! k); cbn in Hc; by simplify_eq.
Qed.

(** the ledger never overstates what the server owes: in every reachable state the
    counters keep their widths, the pending extra credits are covered by requests
    still waiting for their first response and, while the generation is healthy, the
    total is at most the available credits plus the charges of those requests. *)
Lemma credit_ledger_never_overstated s :
  reachable s ->
  in_range u32_max (gs_available_credits s) /\ in_range u32_max (gs_total_credits s) /\
  gs_pending_extra_credits s <= outstanding_extras s /\
  (gs_unhealthy s = false ->
   gs_total_credits s <= gs_available_credits s + outstanding_charges s).
Proof. intros [L1 L2 L3 L4 L5 L6 L7]%reachable_ledger. auto. Qed.

(** admission asks for at least its own charge, for at most 65535 credits, and
    never for more than what is missing to the client's target window. *)
Lemma admission_credit_request s payload charge deadline plan :
  reachable s -> in_range u16_max charge ->
  (gs_admit s payload charge deadline).2 = OF_Admitted plan ->
  charge <= pp_credit_request plan <= u16_max /\
  (pp_credit_request plan = charge \/
   gs_total_credits s + gs_pending_extra_credits s + (pp_credit_request plan - charge)
     <= gs_target_credits s).
Proof.
  intros Hr Hc Hadm. destruct (reachable_ledger s Hr) as [L1 L2 L3 L4 _ _ _].
  destruct (gs_admit_cases s payload charge deadline) as [[e E]|(n & _ & _ & E)];
    rewrite E in Hadm; cbn in Hadm; simplify_eq. cbn.
  destruct (credit_request_extra s charge Hc L4) as (H1 & _ & H3); [ints..|].
  split; [exact H1|]. ints.
Qed.
End moves.

Lemma credit_effects_are_exact_witness :
  let '(s, effs) := gs_run (HashOrder0 := canonical_order RequestKey)
    (gs_new 3 40 4 4 (mkLimits 2 1024) 5000000000)
    [OE_Admit 0 3 None; OE_Cancel (mkKey 3 40) 0; OE_Admit 10 1 None;
     OE_Response (mkKey 3 43) RV_Final 7] in
  gs_available_credits s = 4 + credit_flow (charge_of s) effs.
Proof.
  pose proof (credit_effects_are_exact (HashOrder0 := canonical_order RequestKey)
    (gs_new 3 40 4 4 (mkLimits 2 1024) 5000000000)
    [OE_Admit 0 3 None; OE_Cancel (mkKey 3 40) 0; OE_Admit 10 1 None;
     OE_Response (mkKey 3 43) RV_Final 7]) as H.
  destruct (gs_run _ _) as [s effs]. apply H.
  - apply reach_new. concrete_new.
  - concrete_events.
Defined.

Lemma admission_credit_request_witness :
  2 <= 6 <= u16_max /\ (6 = 2 \/ 4 + 0 + (6 - 2) <= 8).
Proof.
  apply (admission_credit_request (HashOrder0 := canonical_order RequestKey)
    (gs_new 3 40 4 8 (mkLimits 2 1024) 5000000000) 100 2 None
    (mkPlan (mkKey 3 40) 100 2 6 None)).
  - apply reach_new. concrete_new.
  - ints.
  - vm_compute. reflexivity.
Defined.
