(* ===== verification/GenTheorems.v ===== *)
(** What a generation guarantees (crates/smb/src/runtime/state.rs): exact admission
    accounting, fresh message identities, a consistent async index, disconnection,
    cancellation before sending, and inert refused responses. *)
From S2P Require Import Prelude Clock Reducer GenState GenInv GenReach GenPublish GenProps.
From S2P Require Import GenCredits.
Local Open Scope Z_scope.

(** ** Disconnection in closed form *)

Definition disconnected (network : option NetworkFailure) (r : OwnedRequest) : OwnedRequest :=
  released (r <| or_lifecycle := (rr_reduce (or_lifecycle r) (RE_Disconnect network)).1 |>).

Definition disconnect_effect (network : option NetworkFailure) (s : GenerationState)
    (k : RequestKey) : option OwnerEffect :=
  (fun r => OF_Request k (rr_reduce (or_lifecycle r) (RE_Disconnect network)).2)
    <$> gs_requests s !! k.

Lemma gs_disconnect_one_eq network s effs k r :
  gs_requests s !! k = Some r ->
  exists a p, gs_disconnect_one network (s, effs) k =
    (s <| gs_requests := <[k := disconnected network r]> (gs_requests s) |>
       <| gs_admitted_operations := a |> <| gs_retained_payload_bytes := p |>,
     effs ++ [OF_Request k (rr_reduce (or_lifecycle r) (RE_Disconnect network)).2]).
Proof.
  intros Hk. unfold gs_disconnect_one, disconnected. rewrite Hk.
  destruct (rr_reduce _ _) as [l eff].
  erewrite gs_release_eq by (gs_simpl; apply lookup_insert_eq).
  eexists _, _. f_equal. apply gs_ext; try reflexivity. gs_simpl. by rewrite insert_insert_eq.
Qed.

Lemma gs_disconnect_all_eq network keys : forall s effs,
  NoDup keys -> (forall k, k ∈ keys -> is_Some (gs_requests s !! k)) ->
  exists m a p,
    foldl (gs_disconnect_one network) (s, effs) keys =
      (s <| gs_requests := m |> <| gs_admitted_operations := a |>
         <| gs_retained_payload_bytes := p |>,
       effs ++ omap (disconnect_effect network s) keys) /\
    forall k, m !! k = (if bool_decide (k ∈ keys) then disconnected network else id)
                         <$> gs_requests s !! k.
Proof.
  induction keys as [|k keys IH]; intros s effs Hnd Hin.
  - exists (gs_requests s), (gs_admitted_operations s), (gs_retained_payload_bytes s).
    split.
    + cbn. rewrite app_nil_r. f_equal. by apply gs_ext.
    + intros k. rewrite bool_decide_eq_false_2; [by rewrite option_fmap_id|]. apply not_elem_of_nil.
  - apply NoDup_cons in Hnd as [Hk Hnd]. destruct (Hin k) as [r Hr]; [by left|].
    destruct (gs_disconnect_one_eq network s effs k r Hr) as (a & p & E).
    cbn -[gs_disconnect_one]. rewrite E.
    set (s1 := s <| gs_requests := _ |> <| gs_admitted_operations := a |>
       <| gs_retained_payload_bytes := p |>).
    assert (Hreq : forall k', k' ∈ keys -> gs_requests s1 !! k' = gs_requests s !! k').
    { intros k' Hk'. unfold s1. cbn. apply lookup_insert_ne. by intros ->. }
    destruct (IH s1 (effs ++ [OF_Request k (rr_reduce (or_lifecycle r) (RE_Disconnect network)).2]))
      as (m & a' & p' & E' & Hm); [done| |].
    { intros k' Hk'. rewrite Hreq by done. apply Hin. by right. }
    exists m, a', p'. rewrite E'. split.
    + f_equal. rewrite <- app_assoc. cbn.
      unfold disconnect_effect at 2. rewrite Hr. cbn. do 2 f_equal.
      apply list_omap_ext, Forall_Forall2_diag, Forall_forall. intros k' Hk'.
      unfold disconnect_effect. by rewrite Hreq.
    + intros k'. rewrite Hm. destruct (decide (k' = k)) as [->|Hne].
      * rewrite bool_decide_eq_false_2 by done. rewrite bool_decide_eq_true_2 by by left.
        unfold s1. cbn. by rewrite lookup_insert_eq, Hr.
      * replace (gs_requests s1 !! k') with (gs_requests s !! k')
          by (unfold s1; cbn; by rewrite lookup_insert_ne).
        by rewrite (bool_decide_ext (k' ∈ k :: keys) (k' ∈ keys)) by set_solver.
Qed.

Section theorems.
Context `{!HashOrder RequestKey}.

Lemma gs_disconnect_eq s network :
  exists a p,
    (gs_disconnect s network).1 =
      s <| gs_requests := disconnected network <$> gs_requests s |>
        <| gs_admitted_operations := a |> <| gs_retained_payload_bytes := p |> /\
    (gs_disconnect s network).2 =
      omap (disconnect_effect network s) (hash_keys (gs_requests s)).
Proof.
  destruct (gs_disconnect_all_eq network (hash_keys (gs_requests s)) s [])
    as (m & a & p & E & Hm).
  { apply NoDup_hash_keys. }
  { intros k. apply elem_of_hash_keys. }
  exists a, p. unfold gs_disconnect. rewrite E. split; [|done]. cbn [fst].
  apply gs_ext; try reflexivity. cbn. apply map_eq. intros k. rewrite Hm, lookup_fmap.
  case_bool_decide as Hk; [done|]. rewrite elem_of_hash_keys in Hk.
  by destruct (gs_requests s !! k); [destruct Hk|].
Qed.

Lemma disconnected_closed network r : caller_open (disconnected network r) = false.
Proof.
  unfold caller_open, disconnected. cbn. apply bool_decide_eq_false_2.
  unfold rr_publish_once. by case_bool_decide.
Qed.

(** The state after a disconnect, with the counters at zero. *)
Lemma gs_disconnect_state s network :
  inv s -> (gs_disconnect s network).1 =
      s <| gs_requests := disconnected network <$> gs_requests s |>
        <| gs_admitted_operations := 0 |> <| gs_retained_payload_bytes := 0 |>.
Proof.
  intros Hinv. pose proof (inv_disconnect_all network (hash_keys (gs_requests s)) s [] Hinv)
    as [[Ha Hp _ _ _] _ _ _].
  fold (gs_disconnect s network) in *. destruct (gs_disconnect_eq s network) as (a & p & E & _).
  rewrite E in *. cbn in Ha, Hp. rewrite Ha, Hp, !map_sum_fmap, !map_sum_zero; [done|done|done].
Qed.

Lemma disconnect_resolves s network : inv s -> gs_unresolved_callers (gs_disconnect s network).1 = 0.
Proof.
  intros Hinv. rewrite gs_disconnect_state by done. unfold gs_unresolved_callers. cbn.
  rewrite map_sum_fmap. apply map_sum_zero. intros k r _. by rewrite disconnected_closed.
Qed.

(** C36: admission control is exact. In every reachable state the two counters are the
    sums over the request table of what is still held, and both stay between zero and
    their limit, so neither the increments of an admission nor the decrements of a
    release ever wrap. *)
Theorem admission_accounting_exact s :
  reachable s ->
  gs_admitted_operations s = map_sum admission_units (gs_requests s) /\
  gs_retained_payload_bytes s = map_sum payload_units (gs_requests s) /\
  0 <= gs_admitted_operations s <= max_operations (gs_limits s) /\
  0 <= gs_retained_payload_bytes s <= max_payload_bytes (gs_limits s).
Proof.
  intros [[Ha Hp Ho Hb Hw] _ _ _]%reachable_inv.
  pose proof (map_sum_admission_nonneg (gs_requests s)).
  pose proof (map_sum_payload_nonneg _ Hw). lia.
Qed.

(** no message identity is ever used twice. Every request of a reachable state owns
    [credit_charge] consecutive identities of its own generation, and no identity
    belongs to two requests. *)
Lemma message_windows_disjoint s k1 r1 k2 r2 id :
  reachable s -> gs_requests s !! k1 = Some r1 -> gs_requests s !! k2 = Some r2 ->
  rk_message_id k1 <= id < rk_message_id k1 + or_credit_charge r1 ->
  rk_message_id k2 <= id < rk_message_id k2 + or_credit_charge r2 ->
  k1 = k2 /\ rk_generation k1 = gs_generation s.
Proof.
  intros [_ [_ Hk Hd] _ _]%reachable_inv H1 H2 W1 W2. split; [|by apply (Hk k1 r1)].
  destruct (decide (k1 = k2)) as [|Hne]; [done|exfalso].
  destruct (Hd k1 r1 k2 r2 H1 H2 Hne) as [B|B]; unfold before in B; lia.
Qed.

(** the async index and the requests agree in every reachable state: an async
    identity is indexed exactly while one request waits for a response under it, and
    it names that request. *)
Lemma async_index_names_pending s id k :
  reachable s ->
  gs_request_for_async_id s id = Some k <->
  exists l, gs_request s k = Some l /\ rr_response l = RP_AsyncPending id.
Proof.
  intros [_ _ Hx _]%reachable_inv. unfold gs_request_for_async_id, gs_request.
  rewrite (Hx id k). split.
  - intros (r & Hk & Hr). exists (or_lifecycle r). by rewrite Hk.
  - intros (l & Hl & Hr). destruct (gs_requests s !! k) as [r|]; [|done].
    exists r. cbn in Hl. by simplify_eq.
Qed.

(** A disconnect settles the generation: no caller waits, nothing is held, and
    every caller that waited was told the outcome its wire commitment calls for. *)
Lemma disconnect_settles_generation s network :
  reachable s ->
  let '(s', effs) := gs_disconnect s network in
  gs_unresolved_callers s' = 0 /\
  gs_admitted_operations s' = 0 /\ gs_retained_payload_bytes s' = 0 /\
  forall k r, gs_requests s !! k = Some r -> caller_open r = true ->
    OF_Request k (Eff_Publish
      (disconnect_outcome (rr_wire_committed (or_lifecycle r)) network)) ∈ effs.
Proof.
  intros Hinv%reachable_inv. pose proof (gs_disconnect_state s network Hinv) as E.
  pose proof (disconnect_resolves s network Hinv) as Hres.
  destruct (gs_disconnect_eq s network) as (_ & _ & _ & E2).
  destruct (gs_disconnect s network) as [s' effs]. cbn [fst snd] in *. subst s' effs.
  split_and!; [done..|].
  intros k r Hk Ho%caller_open_true. apply list_elem_of_omap. exists k. split.
  - apply elem_of_hash_keys. eauto.
  - unfold disconnect_effect. rewrite Hk. cbn. unfold rr_publish_once. cbn.
    by rewrite bool_decide_eq_true_2.
Qed.

(** A request nobody has sent, in full possession of its reservation. *)
Definition unsent (r : OwnedRequest) : Prop :=
  rr_caller (or_lifecycle r) = CO_Open /\ rr_wire_committed (or_lifecycle r) = false /\
  or_cancel_seen r = false /\ or_admission_held r = true /\ or_payload_held r = true /\
  or_credit_obligation r = true.

Lemma gs_cancel_unsent s k r now :
  gs_requests s !! k = Some r -> unsent r -> rk_generation k = gs_generation s ->
  gs_available_credits s + or_credit_charge r <= u32_max ->
  let s' :=
    s <| gs_available_credits := gs_available_credits s + or_credit_charge r |>
      <| gs_pending_extra_credits :=
           saturating_sub (gs_pending_extra_credits s) (or_requested_extra_credits r) |>
      <| gs_admitted_operations := wrapping_sub usize_max (gs_admitted_operations s) 1 |>
      <| gs_retained_payload_bytes :=
           wrapping_sub u64_max (gs_retained_payload_bytes s) (or_payload_bytes r) |>
      <| gs_requests := <[k := released (r <| or_cancel_seen := true |>
           <| or_lifecycle := (or_lifecycle r) <| rr_caller := CO_Terminal TO_Cancelled |> |>
           <| or_credit_obligation := false |>)]> (gs_requests s) |> in
  (gs_cancel s k now).1 = s' /\ gs_cancel s' k now = (s', [OF_DuplicateCancel k]).
Proof.
  intros Hk (Hcl & Hcm & Hcs & Hah & Hph & Hco) Hg Hle. cbv zeta. split.
  - unfold gs_cancel. rewrite bool_decide_eq_false_2 by congruence. rewrite Hk, Hcs.
    rewrite (proj2 (caller_is_open_true _) Hcl), Hcm. cbn [negb].
    assert (rr_reduce (or_lifecycle r) RE_Cancel =
      ((or_lifecycle r) <| rr_caller := CO_Terminal TO_Cancelled |>, Eff_Publish TO_Cancelled)) as ->.
    { cbn. unfold rr_finish_without_response, rr_publish_once.
      unfold rr_wire_committed in Hcm. by rewrite Hcm, bool_decide_eq_true_2. }
    unfold gs_settle_unanswered, gs_rollback. gs_simpl. rewrite lookup_insert_eq. cbn.
    rewrite Hco. cbn. destruct (checked_add u32_max _ _) as [av|] eqn:Hav;
      [|apply checked_add_None in Hav; lia].
    apply checked_add_Some in Hav as [_ ->]. cbn [fst].
    erewrite gs_release_eq by (gs_simpl; apply lookup_insert_eq).
    apply gs_ext; gs_simpl; rewrite ?Hah, ?Hph; try reflexivity.
    by rewrite !insert_insert_eq.
  - unfold gs_cancel. cbn. rewrite bool_decide_eq_false_2 by congruence.
    by rewrite lookup_insert_eq.
Qed.

(** An admission in numbers: nothing wraps and nothing saturates. *)
Lemma admitted_fields s payload charge deadline plan :
  reachable s -> in_range u64_max payload -> in_range u16_max charge ->
  (gs_admit s payload charge deadline).2 = OF_Admitted plan ->
  let s1 := (gs_admit s payload charge deadline).1 in
  exists v extra, 0 <= extra /\
    gs_requests s1 !! pp_key plan =
      Some (mkOwned (rr_new (pp_key plan)) payload charge extra false true true true false v) /\
    gs_available_credits s1 = gs_available_credits s - charge /\
    gs_total_credits s1 = gs_total_credits s /\
    gs_pending_extra_credits s1 = gs_pending_extra_credits s + extra /\
    gs_admitted_operations s1 = gs_admitted_operations s + 1 /\
    gs_retained_payload_bytes s1 = gs_retained_payload_bytes s + payload /\
    gs_generation s1 = gs_generation s /\
    gs_admitted_operations s < max_operations (gs_limits s) /\
    gs_retained_payload_bytes s + payload <= max_payload_bytes (gs_limits s) /\
    charge <= gs_available_credits s /\ rk_generation (pp_key plan) = gs_generation s.
Proof.
  intros Hr Hp Hc Hadm. pose proof (reachable_inv s Hr) as [[Ha Hb Ho Hl Hw] _ _ _].
  pose proof (reachable_ledger s Hr) as [L1 L2 L3 L4 _ _ _].
  destruct (credit_request_extra s charge Hc L4) as (X1 & X2 & X3); [ints..|].
  pose proof (map_sum_admission_nonneg (gs_requests s)).
  pose proof (map_sum_payload_nonneg _ Hw).
  destruct (gs_admit_cases s payload charge deadline) as [[e E]|(n & Hrej & _ & E)];
    rewrite E in *; cbn [fst snd] in *; simplify_eq. cbn [pp_key].
  apply admission_rejection_None in Hrej as (_ & A1 & A2 & A3 & A4).
  exists (if deadline then 1 else 0), (credit_request_for s charge - charge).
  unfold admitted, reserved. rewrite X2.
  destruct deadline; gs_simpl; rewrite lookup_insert_eq; split_and!; try reflexivity;
    first [apply wrapping_sub_small; ints|apply wrapping_add_small; ints|ints].
Qed.

(** cancelling a request before any of its bytes were sent undoes its admission:
    the credits, the pending extra credits and both admission counters are what they
    were, its caller holds [Cancelled], its message identities stay burnt, and a
    second cancellation changes nothing. *)
Lemma cancel_before_send_restores s payload charge deadline plan now :
  reachable s -> in_range u64_max payload -> in_range u16_max charge ->
  (gs_admit s payload charge deadline).2 = OF_Admitted plan ->
  let s1 := (gs_admit s payload charge deadline).1 in
  let s2 := (gs_cancel s1 (pp_key plan) now).1 in
  gs_available_credits s2 = gs_available_credits s /\
  gs_total_credits s2 = gs_total_credits s /\
  gs_pending_extra_credits s2 = gs_pending_extra_credits s /\
  gs_admitted_operations s2 = gs_admitted_operations s /\
  gs_retained_payload_bytes s2 = gs_retained_payload_bytes s /\
  gs_terminal_outcome s2 (pp_key plan) = Some TO_Cancelled /\
  gs_next_message_id s2 = gs_next_message_id s1 /\
  gs_cancel s2 (pp_key plan) now = (s2, [OF_DuplicateCancel (pp_key plan)]).
Proof.
  intros Hr Hp Hc Hadm. pose proof (reachable_inv s Hr) as [[Ha Hb Ho Hl Hw] _ _ _].
  pose proof (reachable_ledger s Hr) as [L1 _ L3 _ _ _ _].
  pose proof (map_sum_admission_nonneg (gs_requests s)).
  pose proof (map_sum_payload_nonneg _ Hw).
  destruct (admitted_fields s payload charge deadline plan Hr Hp Hc Hadm)
    as (v & extra & Hx & Hk & F1 & F2 & F3 & F4 & F5 & F6 & A1 & A2 & A3 & G).
  destruct (gs_admit s payload charge deadline) as [s1 eff]. cbn [fst] in *. cbv zeta.
  destruct (gs_cancel_unsent s1 (pp_key plan) _ now Hk) as [E1 E2]; cbn; try done; [congruence|ints|].
  rewrite E1, E2. cbn. split_and!; try reflexivity.
  - lia.
  - exact F2.
  - rewrite F3. ints.
  - rewrite F4, wrapping_sub_small by ints. lia.
  - rewrite F5, wrapping_sub_small by ints. lia.
  - unfold gs_terminal_outcome. cbn. by rewrite lookup_insert_eq.
Qed.
End theorems.

(** a disconnect does not depend on the order in which the hash map yields its
    keys: any two orders leave the same state and the same effects up to
    rearrangement. *)
Lemma disconnect_order_independent (h1 h2 : HashOrder RequestKey) s network :
  reachable (HashOrder0 := h1) s ->
  (gs_disconnect (HashOrder0 := h1) s network).1 =
    (gs_disconnect (HashOrder0 := h2) s network).1 /\
  (gs_disconnect (HashOrder0 := h1) s network).2 ≡ₚ
    (gs_disconnect (HashOrder0 := h2) s network).2.
Proof.
  intros Hinv%reachable_inv. split.
  - rewrite (gs_disconnect_state (HashOrder0 := h1) s network Hinv).
    by rewrite (gs_disconnect_state (HashOrder0 := h2) s network Hinv).
  - destruct (gs_disconnect_eq (HashOrder0 := h1) s network) as (_ & _ & _ & ->).
    destruct (gs_disconnect_eq (HashOrder0 := h2) s network) as (_ & _ & _ & ->).
    apply omap_Permutation.
    by rewrite (hash_keys_perm (HashOrder := h1)), (hash_keys_perm (HashOrder := h2)).
Qed.

(** What makes a response one that the generation refuses. *)
Definition refused_response (s : GenerationState) (k : RequestKey) : Prop :=
  rk_generation k <> gs_generation s \/ gs_requests s !! k = None \/
  exists r, gs_requests s !! k = Some r /\ rr_response (or_lifecycle r) = RP_Final.

Ltac inert b := split_and!; [by exists b|done|done|intros ?; cbn; by repeat case_bool_decide].

(** a response to another generation's request, to an unknown request or to one
    already answered applies no grant and changes nothing but the health of the
    generation; without an async identity conflict it changes nothing at all. *)
Lemma refused_response_is_inert s k e grant :
  refused_response s k ->
  (exists b, (gs_response s k e grant).1 = s <| gs_unhealthy := b |>) /\
  (e = RV_Final -> (gs_response s k e grant).1 = s) /\
  (forall ch, credit_flow ch (gs_response s k e grant).2 = 0) /\
  (forall k', owner_publications k' (gs_response s k e grant).2 = []).
Proof.
  assert (Hs : s = s <| gs_unhealthy := gs_unhealthy s |>) by by apply gs_ext.
  intros Href. unfold gs_response. case_bool_decide as Hg; [by inert (gs_unhealthy s)|].
  destruct Href as [|Href]; [congruence|].
  destruct (async_conflict s k e) as [[id k0]|] eqn:Hconf; [by destruct e; inert true|].
  destruct Href as [->|(r & -> & Hf)]; [by inert (gs_unhealthy s)|].
  assert (async_changed r e = None) as ->
    by (unfold async_changed; rewrite Hf; by destruct e).
  rewrite bool_decide_eq_true_2 by done. by inert (gs_unhealthy s).
Qed.

(** ** Witnesses *)

Definition sample_start : GenerationState := gs_new 3 40 4 4 (mkLimits 2 1024) 5000000000.

(** Two admitted requests, the first one sent and pending asynchronously. *)
Definition sample_events : list OwnerEvent :=
  [OE_Admit 100 2 None; OE_Admit 50 1 (Some 9);
   OE_Request (mkKey 3 40) PG_WriteComplete; OE_Response (mkKey 3 40) (RV_Pending 77) 1].

Definition sample_state : GenerationState :=
  foldl (fun s e => (gs_reduce (HashOrder0 := canonical_order RequestKey) s e).1)
    sample_start sample_events.

Lemma sample_reachable : reachable (HashOrder0 := canonical_order RequestKey) sample_state.
Proof.
  assert (Hrun : forall events s, reachable (HashOrder0 := canonical_order RequestKey) s ->
    Forall event_ok events ->
    reachable (HashOrder0 := canonical_order RequestKey)
      (foldl (fun s e => (gs_reduce (HashOrder0 := canonical_order RequestKey) s e).1) s events)).
  { induction events as [|e events IH]; intros s Hs Hev; [done|].
    apply Forall_cons in Hev as [He Hev]. cbn. apply IH; [by apply reach_event|done]. }
  apply Hrun; [apply reach_new; concrete_new|]. unfold sample_events. concrete_events.
Qed.

Lemma admission_accounting_exact_witness :
  gs_admitted_operations sample_state = 2 /\ gs_retained_payload_bytes sample_state = 50 /\
  0 <= gs_admitted_operations sample_state <= 2.
Proof.
  split; [vm_compute; reflexivity|]. split; [vm_compute; reflexivity|].
  apply (admission_accounting_exact (HashOrder0 := canonical_order RequestKey)).
  apply sample_reachable.
Defined.

