(* ===== verification/ObjectState.v ===== *)
(** The domain object authority of a generation and the queue of commands that wait
    for a recovering object (crates/smb/src/runtime/object_state.rs): data and
    operations.

    A connection, its sessions, their shares and the shares' resources form a tree of
    records. A client holds opaque tokens; [ObjectRegistry] decides which token is
    current and which object may be used. The hash map's iteration order is the
    [HashOrder] argument of the operations that iterate. *)
From S2P Require Import Prelude Clock Reducer.
Local Open Scope Z_scope.

(** ** Data *)

Record ObjectToken := mkToken { ot_generation : GenerationId; ot_id : Z; ot_epoch : Z }.

#[export] Instance eta_ObjectToken : Eta ObjectToken := fun t =>
  mkToken (ot_generation t) (ot_id t) (ot_epoch t).
#[export] Instance ObjectToken_eq : EqDecision ObjectToken.
Proof. solve_decision. Defined.

Inductive ObjectKind := OK_Connection | OK_Session | OK_Share | OK_Resource.

Inductive ObjectPhase :=
| Ph_Active | Ph_Recovering | Ph_Revoked | Ph_Closing | Ph_Closed.

#[export] Instance ObjectKind_eq : EqDecision ObjectKind.
Proof. solve_decision. Defined.
#[export] Instance ObjectPhase_eq : EqDecision ObjectPhase.
Proof. solve_decision. Defined.

Definition accepts_parent (kind parent : ObjectKind) : bool :=
  match parent, kind with
  | OK_Connection, OK_Session | OK_Session, OK_Share | OK_Share, OK_Resource => true
  | _, _ => false
  end.

Inductive ObjectError :=
| OBE_ForeignGeneration | OBE_Unknown | OBE_Stale | OBE_ParentNotActive
| OBE_InvalidParent | OBE_IdExhausted.

Inductive CloseDecision := CD_OwnProtocolClose | CD_AwaitExistingClose | CD_AlreadyClosed.

Inductive ObjectEffect :=
| OB_Revoked (token : ObjectToken)
| OB_ReplacementPublished (previous replacement : ObjectToken).

Record ObjectRecord := mkObject {
  ob_token : ObjectToken;
  ob_kind : ObjectKind;
  ob_parent : option ObjectToken;
  ob_phase : ObjectPhase
}.

#[export] Instance eta_ObjectRecord : Eta ObjectRecord := fun r =>
  mkObject (ob_token r) (ob_kind r) (ob_parent r) (ob_phase r).

Record ObjectRegistry := mkRegistry {
  reg_generation : GenerationId;
  reg_next_id : option Z;
  reg_records : gmap Z ObjectRecord;
  reg_connection : ObjectToken
}.

#[export] Instance eta_ObjectRegistry : Eta ObjectRegistry := fun r =>
  mkRegistry (reg_generation r) (reg_next_id r) (reg_records r) (reg_connection r).

(** ** The registry *)

Definition reg_new (generation : GenerationId) : ObjectRegistry :=
  let connection := mkToken generation 0 0 in
  mkRegistry generation (Some 1) {[ 0 := mkObject connection OK_Connection None Ph_Active ]}
    connection.

(** [record] and [record_mut]: the record of a token of this generation that is
    current. *)
Definition reg_record (reg : ObjectRegistry) (token : ObjectToken)
    : result ObjectError ObjectRecord :=
  if bool_decide (ot_generation token ≠ reg_generation reg) then Err OBE_ForeignGeneration
  else record ← ok_or OBE_Unknown (reg_records reg !! ot_id token);
       if bool_decide (ob_token record ≠ token) then Err OBE_Stale else Ok record.

(** Writing through the reference [record_mut] returned. *)
Definition reg_put (reg : ObjectRegistry) (token : ObjectToken) (record : ObjectRecord)
    : ObjectRegistry := reg <| reg_records := <[ot_id token := record]> (reg_records reg) |>.

Definition reg_create_child (reg : ObjectRegistry) (parent : ObjectToken) (kind : ObjectKind)
    : ObjectRegistry * result ObjectError ObjectToken :=
  match reg_record reg parent with
  | Err e => (reg, Err e)
  | Ok parent_record =>
      if negb (accepts_parent kind (ob_kind parent_record)) then (reg, Err OBE_InvalidParent)
      else if bool_decide (ob_phase parent_record ≠ Ph_Active)
      then (reg, Err OBE_ParentNotActive)
      else match reg_next_id reg with
      | None => (reg, Err OBE_IdExhausted)
      | Some id =>
          let reg := reg <| reg_next_id := checked_add u64_max id 1 |> in
          let token := mkToken (reg_generation reg) id 0 in
          (reg <| reg_records := <[id := mkObject token kind (Some parent) Ph_Active]>
                    (reg_records reg) |>, Ok token)
      end
  end.

(** The loops that follow parent pointers. The source loops until a pointer is
    absent; here [None] is a loop that has not ended within [fuel] steps.
    [walk_depth] steps are enough in every registry the operations build, since a
    parent's kind is one step up in connection, session, share, resource. *)
Definition walk_depth : nat := 4.

Fixpoint validate_walk (fuel : nat) (reg : ObjectRegistry) (current : option ObjectToken)
    : option (result ObjectError unit) :=
  match current with
  | None => Some (Ok tt)
  | Some token =>
      match fuel with
      | O => None
      | S fuel =>
          match reg_record reg token with
          | Err e => Some (Err e)
          | Ok record =>
              if bool_decide (ob_phase record ≠ Ph_Active) then Some (Err OBE_ParentNotActive)
              else validate_walk fuel reg (ob_parent record)
          end
      end
  end.

Definition reg_validate_active (reg : ObjectRegistry) (token : ObjectToken)
    : result ObjectError unit :=
  default (Err OBE_Unknown) (validate_walk walk_depth reg (Some token)).

Definition parent_at (reg : ObjectRegistry) (token : ObjectToken) : option ObjectToken :=
  reg_records reg !! ot_id token ≫= ob_parent.

Fixpoint descendant_walk (fuel : nat) (reg : ObjectRegistry) (parent : option ObjectToken)
    (ancestor : ObjectToken) : option bool :=
  match parent with
  | None => Some false
  | Some token =>
      match fuel with
      | O => None
      | S fuel => if bool_decide (token = ancestor) then Some true
                  else descendant_walk fuel reg (parent_at reg token) ancestor
      end
  end.

Definition reg_is_descendant (reg : ObjectRegistry) (candidate ancestor : ObjectToken) : bool :=
  default false (descendant_walk walk_depth reg (parent_at reg candidate) ancestor).

#[global] Arguments reg_validate_active : simpl never.
#[global] Arguments reg_is_descendant : simpl never.

Definition reg_begin_recovery (reg : ObjectRegistry) (token : ObjectToken)
    : ObjectRegistry * result ObjectError unit :=
  match reg_validate_active reg token with
  | Err e => (reg, Err e)
  | Ok _ =>
      match reg_record reg token with
      | Err e => (reg, Err e)
      | Ok record => (reg_put reg token (record <| ob_phase := Ph_Recovering |>), Ok tt)
      end
  end.

Definition reg_publish_replacement (reg : ObjectRegistry) (token : ObjectToken)
    : ObjectRegistry * result ObjectError ObjectEffect :=
  match reg_record reg token with
  | Err e => (reg, Err e)
  | Ok record =>
      if bool_decide (ob_phase record ≠ Ph_Recovering) then (reg, Err OBE_ParentNotActive)
      else match checked_add u64_max (ot_epoch (ob_token record)) 1 with
      | None => (reg, Err OBE_IdExhausted)
      | Some epoch =>
          let replacement := (ob_token record) <| ot_epoch := epoch |> in
          let previous := ob_token record in
          let reg := reg_put reg token
            (record <| ob_token := replacement |> <| ob_phase := Ph_Active |>) in
          let adopt child := if bool_decide (ob_parent child = Some previous)
                             then child <| ob_parent := Some replacement |> else child in
          (reg <| reg_records := adopt <$> reg_records reg |>,
           Ok (OB_ReplacementPublished previous replacement))
      end
  end.

(** [matches!(phase, Revoked | Closed)] *)
Definition phase_ended (p : ObjectPhase) : bool :=
  match p with Ph_Revoked | Ph_Closed => true | _ => false end.

Definition effect_id (effect : ObjectEffect) : Z :=
  match effect with
  | OB_Revoked token => ot_id token
  | OB_ReplacementPublished _ replacement => ot_id replacement
  end.

(** [effects.sort_by_key(..)] on the identity of the effect's object. *)
Definition effect_le (a b : ObjectEffect) : Prop := effect_id a <= effect_id b.
#[export] Instance effect_le_dec a b : Decision (effect_le a b).
Proof. unfold effect_le. apply _. Defined.

Definition sort_by_id (effects : list ObjectEffect) : list ObjectEffect :=
  merge_sort effect_le effects.

(** One step of [revoke_descendants]'s [filter_map]. *)
Definition revoke_one (acc : gmap Z ObjectRecord * list ObjectEffect) (id : Z)
    : gmap Z ObjectRecord * list ObjectEffect :=
  match acc.1 !! id with
  | None => acc
  | Some record =>
      if phase_ended (ob_phase record) then acc
      else (<[id := record <| ob_phase := Ph_Revoked |>]> acc.1,
            acc.2 ++ [OB_Revoked (ob_token record)])
  end.

Section iteration.
Context `{!HashOrder Z}.

Definition reg_revoke_descendants (reg : ObjectRegistry) (ancestor : ObjectToken)
    : ObjectRegistry * list ObjectEffect :=
  let ids := (fun record => ot_id (ob_token record)) <$>
    filter (fun record => reg_is_descendant reg (ob_token record) ancestor)
      (hash_values (reg_records reg)) in
  let '(records, effects) := foldl revoke_one (reg_records reg, []) ids in
  (reg <| reg_records := records |>, effects).

Definition reg_publish_replacement_revoking_descendants (reg : ObjectRegistry)
    (token : ObjectToken)
    : ObjectRegistry * result ObjectError (ObjectEffect * list ObjectEffect) :=
  match reg_record reg token with
  | Err e => (reg, Err e)
  | Ok record =>
      if bool_decide (ob_phase record ≠ Ph_Recovering) then (reg, Err OBE_ParentNotActive)
      else
        let '(reg, revoked) := reg_revoke_descendants reg token in
        let revoked := sort_by_id revoked in
        match reg_publish_replacement reg token with
        | (reg, Err e) => (reg, Err e)
        | (reg, Ok replacement) => (reg, Ok (replacement, revoked))
        end
  end.

Definition reg_fail_recovery (reg : ObjectRegistry) (token : ObjectToken)
    : ObjectRegistry * result ObjectError (list ObjectEffect) :=
  match reg_record reg token with
  | Err e => (reg, Err e)
  | Ok record =>
      if bool_decide (ob_phase record ≠ Ph_Recovering) then (reg, Err OBE_ParentNotActive)
      else
        let '(reg, effects) := reg_revoke_descendants reg token in
        match reg_record reg token with
        | Err e => (reg, Err e)
        | Ok record =>
            (reg_put reg token (record <| ob_phase := Ph_Revoked |>),
             Ok (effects ++ [OB_Revoked token]))
        end
  end.

Definition reg_begin_close (reg : ObjectRegistry) (token : ObjectToken)
    : ObjectRegistry * result ObjectError CloseDecision :=
  match reg_record reg token with
  | Err e => (reg, Err e)
  | Ok record =>
      match ob_phase record with
      | Ph_Active | Ph_Recovering =>
          (reg_put reg token (record <| ob_phase := Ph_Closing |>), Ok CD_OwnProtocolClose)
      | Ph_Closing => (reg, Ok CD_AwaitExistingClose)
      | Ph_Revoked | Ph_Closed => (reg, Ok CD_AlreadyClosed)
      end
  end.

Definition reg_complete_close (reg : ObjectRegistry) (token : ObjectToken)
    : ObjectRegistry * result ObjectError (list ObjectEffect) :=
  match reg_record reg token with
  | Err e => (reg, Err e)
  | Ok _ =>
      let '(reg, effects) := reg_revoke_descendants reg token in
      match reg_record reg token with
      | Err e => (reg, Err e)
      | Ok record =>
          (reg_put reg token (record <| ob_phase := Ph_Closed |>), Ok (sort_by_id effects))
      end
  end.

Definition reg_lose_generation (reg : ObjectRegistry) : ObjectRegistry * list ObjectEffect :=
  let revoke record := if phase_ended (ob_phase record) then record
                       else record <| ob_phase := Ph_Revoked |> in
  let report record := if phase_ended (ob_phase record) then None
                       else Some (OB_Revoked (ob_token record)) in
  (reg <| reg_records := revoke <$> reg_records reg |>,
   sort_by_id (omap report (hash_values (reg_records reg)))).
End iteration.

(** ** The recovery queue *)

Inductive RecoveryQueueError := RQE_Full | RQE_IdExhausted.

Inductive RecoveryWaitOutcome :=
| RW_Ready (id : Z) | RW_Cancelled (id : Z) | RW_TimedOut (id : Z) | RW_AncestorFailed (id : Z).

Record RecoveryWait := mkWait {
  rw_id : Z;
  rw_dependency : ObjectToken;
  rw_deadline : option MonotonicTime
}.

#[export] Instance eta_RecoveryWait : Eta RecoveryWait := fun w =>
  mkWait (rw_id w) (rw_dependency w) (rw_deadline w).

Record RecoveryQueue := mkQueue {
  rq_capacity : Z;
  rq_next_id : option Z;
  rq_waits : list RecoveryWait
}.

#[export] Instance eta_RecoveryQueue : Eta RecoveryQueue := fun q =>
  mkQueue (rq_capacity q) (rq_next_id q) (rq_waits q).

Definition rq_new (capacity : Z) : RecoveryQueue := mkQueue capacity (Some 0) [].

Definition rq_enqueue (q : RecoveryQueue) (dependency : ObjectToken)
    (deadline : option MonotonicTime) : RecoveryQueue * result RecoveryQueueError Z :=
  if bool_decide (Z.of_nat (length (rq_waits q)) >= rq_capacity q) then (q, Err RQE_Full)
  else match rq_next_id q with
  | None => (q, Err RQE_IdExhausted)
  | Some id =>
      let q := q <| rq_next_id := checked_add u64_max id 1 |> in
      (q <| rq_waits := rq_waits q ++ [mkWait id dependency deadline] |>, Ok id)
  end.

(** [waits.iter().position(|wait| wait.id == id)] *)
Fixpoint wait_position (id : Z) (waits : list RecoveryWait) : option nat :=
  match waits with
  | [] => None
  | w :: waits => if bool_decide (rw_id w = id) then Some O else S <$> wait_position id waits
  end.

Definition rq_cancel (q : RecoveryQueue) (id : Z)
    : RecoveryQueue * option RecoveryWaitOutcome :=
  match wait_position id (rq_waits q) with
  | None => (q, None)
  | Some index => (q <| rq_waits := delete index (rq_waits q) |>, Some (RW_Cancelled id))
  end.

(** [waits.retain(..)] with a closure that reports the waits it removes. *)
Fixpoint retain (leaves : RecoveryWait -> bool) (report : Z -> RecoveryWaitOutcome)
    (waits : list RecoveryWait) : list RecoveryWait * list RecoveryWaitOutcome :=
  match waits with
  | [] => ([], [])
  | w :: waits =>
      let '(kept, outcomes) := retain leaves report waits in
      if leaves w then (kept, report (rw_id w) :: outcomes) else (w :: kept, outcomes)
  end.

Definition rq_retain (q : RecoveryQueue) (leaves : RecoveryWait -> bool)
    (report : Z -> RecoveryWaitOutcome) : RecoveryQueue * list RecoveryWaitOutcome :=
  let '(kept, outcomes) := retain leaves report (rq_waits q) in
  (q <| rq_waits := kept |>, outcomes).

Definition rq_advance_time (q : RecoveryQueue) (now : MonotonicTime)
    : RecoveryQueue * list RecoveryWaitOutcome :=
  rq_retain q (fun w => match rw_deadline w with
                        | Some deadline => bool_decide (deadline <= now)
                        | None => false
                        end) RW_TimedOut.

Definition rq_release_ready (q : RecoveryQueue) (registry : ObjectRegistry)
    : RecoveryQueue * list RecoveryWaitOutcome :=
  rq_retain q (fun w => is_ok (reg_validate_active registry (rw_dependency w))) RW_Ready.

Definition rq_publish_replacement (q : RecoveryQueue) (effect : ObjectEffect) : RecoveryQueue :=
  match effect with
  | OB_Revoked _ => q
  | OB_ReplacementPublished previous replacement =>
      q <| rq_waits := (fun w => if bool_decide (rw_dependency w = previous)
                                 then w <| rw_dependency := replacement |> else w)
                       <$> rq_waits q |>
  end.

Definition rq_release_dependency (q : RecoveryQueue) (dependency : ObjectToken)
    : RecoveryQueue * list RecoveryWaitOutcome :=
  rq_retain q (fun w => bool_decide (rw_dependency w = dependency)) RW_Ready.

Definition rq_fail_all (q : RecoveryQueue) : RecoveryQueue * list RecoveryWaitOutcome :=
  (q <| rq_waits := [] |>, (fun w => RW_AncestorFailed (rw_id w)) <$> rq_waits q).

Definition rq_drain_ancestor (q : RecoveryQueue) (registry : ObjectRegistry)
    (ancestor : ObjectToken) : RecoveryQueue * list RecoveryWaitOutcome :=
  rq_retain q (fun w => bool_decide (rw_dependency w = ancestor) ||
                        reg_is_descendant registry (rw_dependency w) ancestor)
    RW_AncestorFailed.
