(* ===== verification/ObjectProps.v ===== *)
(** What the object registry guarantees (crates/smb/src/runtime/object_state.rs). *)
From S2P Require Import Prelude Clock Reducer ObjectState.
Local Open Scope Z_scope.

(** ** The invariant *)

Definition kind_rank (k : ObjectKind) : nat :=
  match k with OK_Connection => 0 | OK_Session => 1 | OK_Share => 2 | OK_Resource => 3 end.

Lemma accepts_parent_rank kind parent :
  accepts_parent kind parent = true -> kind_rank kind = S (kind_rank parent).
Proof. by destruct kind, parent. Qed.

(** A record is filed under its own identity, and its parent pointer is the current
    token of a record that may be its parent. *)
Record record_wf (reg : ObjectRegistry) (id : Z) (r : ObjectRecord) : Prop := {
  rec_generation : ot_generation (ob_token r) = reg_generation reg;
  rec_id : ot_id (ob_token r) = id;
  rec_epoch : in_range u64_max (ot_epoch (ob_token r));
  rec_range : in_range u64_max id;
  rec_next : forall n, reg_next_id reg = Some n -> id < n;
  rec_root : ob_parent r = None -> ob_kind r = OK_Connection /\ id = 0;
  rec_parent : forall p, ob_parent r = Some p ->
    exists pr, reg_records reg !! ot_id p = Some pr /\ ob_token pr = p /\
      accepts_parent (ob_kind r) (ob_kind pr) = true;
  (** Below an object that ended, everything has ended. *)
  rec_ended : forall p pr, ob_parent r = Some p -> reg_records reg !! ot_id p = Some pr ->
    phase_ended (ob_phase pr) = true -> phase_ended (ob_phase r) = true
}.

Record registry_wf (reg : ObjectRegistry) : Prop := {
  reg_wf_records : map_Forall (record_wf reg) (reg_records reg);
  reg_wf_next : forall n, reg_next_id reg = Some n -> in_range u64_max n
}.

(** ** Looking up tokens *)

Lemma reg_record_Ok reg t r :
  reg_record reg t = Ok r <->
  ot_generation t = reg_generation reg /\ reg_records reg !! ot_id t = Some r /\ ob_token r = t.
Proof.
  unfold reg_record. case_bool_decide as Hg; [split; [done|]; intros [? _]; done|].
  destruct (reg_records reg !! ot_id t) as [r'|]; cbn; [|naive_solver].
  case_bool_decide as Ht; naive_solver.
Qed.

(** In a well-formed registry the record under a token's identity with that token is
    what [reg_record] finds. *)
Lemma reg_record_current reg id r :
  registry_wf reg -> reg_records reg !! id = Some r -> reg_record reg (ob_token r) = Ok r.
Proof.
  intros [Hw _] Hr. destruct (Hw id r Hr). apply reg_record_Ok. by rewrite rec_id0.
Qed.

(** ** The loops end *)

Lemma parent_step reg id r p :
  registry_wf reg -> reg_records reg !! id = Some r -> ob_parent r = Some p ->
  exists pr, reg_records reg !! ot_id p = Some pr /\ ob_token pr = p /\
    reg_record reg p = Ok pr /\ kind_rank (ob_kind r) = S (kind_rank (ob_kind pr)).
Proof.
  intros Hreg Hr Hp. destruct (rec_parent _ _ _ (reg_wf_records _ Hreg id r Hr) p Hp)
    as (pr & Hpr & Htok & Hacc).
  exists pr. repeat split; try done; [|by apply accepts_parent_rank].
  rewrite <- Htok. by apply (reg_record_current reg (ot_id p)).
Qed.

(** The ancestors of a token: the chain of parent pointers above it. *)
Inductive ancestor_of (reg : ObjectRegistry) : ObjectToken -> ObjectToken -> Prop :=
| anc_parent t p : parent_at reg t = Some p -> ancestor_of reg t p
| anc_up t p a : parent_at reg t = Some p -> ancestor_of reg p a -> ancestor_of reg t a.

Lemma parent_at_record reg id r :
  registry_wf reg -> reg_records reg !! id = Some r -> parent_at reg (ob_token r) = ob_parent r.
Proof.
  intros Hreg Hr. unfold parent_at.
  rewrite (rec_id _ _ _ (reg_wf_records _ Hreg id r Hr)), Hr. done.
Qed.

(** [descendant_walk] with enough fuel decides ancestry. *)
Lemma descendant_walk_spec reg a : registry_wf reg ->
  forall fuel id r, reg_records reg !! id = Some r -> (kind_rank (ob_kind r) <= fuel)%nat ->
  exists b, descendant_walk fuel reg (ob_parent r) a = Some b /\
    (b = true <-> ancestor_of reg (ob_token r) a).
Proof.
  intros Hreg. induction fuel as [|fuel IH]; intros id r Hr Hf;
    pose proof (parent_at_record reg id r Hreg Hr) as Hpa;
    destruct (ob_parent r) as [p|] eqn:Hp.
  - destruct (parent_step reg id r p Hreg Hr Hp) as (pr & _ & _ & _ & Hrk). lia.
  - exists false. split; [done|]. split; [done|]. intros H. inversion H; congruence.
  - destruct (parent_step reg id r p Hreg Hr Hp) as (pr & Hpr & Htok & _ & Hrk). cbn.
    case_bool_decide as Heq.
    + exists true. split; [done|]. split; [|done]. intros _. subst a. by apply anc_parent.
    + destruct (IH (ot_id p) pr Hpr ltac:(lia)) as (b & Hb & Hspec).
      assert (parent_at reg p = ob_parent pr) as Hpp by (unfold parent_at; by rewrite Hpr).
      exists b. rewrite Hpp. split; [done|]. rewrite Hspec, Htok. split.
      * by apply anc_up.
      * intros H. inversion H; simplify_eq; congruence.
  - exists false. split; [done|]. split; [done|]. intros H. inversion H; congruence.
Qed.

Lemma reg_is_descendant_spec reg id r a :
  registry_wf reg -> reg_records reg !! id = Some r ->
  reg_is_descendant reg (ob_token r) a = true <-> ancestor_of reg (ob_token r) a.
Proof.
  intros Hreg Hr. unfold reg_is_descendant. rewrite (parent_at_record reg id r Hreg Hr).
  destruct (descendant_walk_spec reg a Hreg walk_depth id r Hr) as (b & -> & H).
  - unfold walk_depth. destruct (ob_kind r); cbn; lia.
  - exact H.
Qed.

Lemma validate_walk_spec reg : registry_wf reg ->
  forall fuel id r, reg_records reg !! id = Some r -> (kind_rank (ob_kind r) < fuel)%nat ->
  exists res, validate_walk fuel reg (Some (ob_token r)) = Some res /\
    (res = Ok tt <-> ob_phase r = Ph_Active /\
      forall a ar, ancestor_of reg (ob_token r) a -> reg_record reg a = Ok ar ->
        ob_phase ar = Ph_Active).
Proof.
  intros Hreg. induction fuel as [|fuel IH]; intros id r Hr Hf; [lia|].
  cbn [validate_walk]. rewrite (reg_record_current reg id r Hreg Hr).
  pose proof (parent_at_record reg id r Hreg Hr) as Hpa.
  case_bool_decide as Hph; [eexists; split; [done|]; split; [done|]; by intros []|].
  destruct (decide (ob_phase r = Ph_Active)) as [Ha|]; [clear Hph|by destruct Hph].
  destruct (ob_parent r) as [p|] eqn:Hp.
  - destruct (parent_step reg id r p Hreg Hr Hp) as (pr & Hpr & Htok & Hrec & Hrk).
    destruct (IH (ot_id p) pr Hpr ltac:(lia)) as (res & Hres & Hspec).
    exists res. rewrite <- Htok at 1. split; [done|]. rewrite Hspec, Htok. split.
    + intros [Hpa' Hup]. split; [done|]. intros a ar Hanc Har.
      inversion Hanc; simplify_eq; [congruence|]. by eapply Hup; [simplify_eq|].
    + intros [_ Hup]. split; [eapply (Hup p); [by apply anc_parent|done]|].
      intros a ar Hanc. apply Hup. by apply (anc_up reg _ p).
  - destruct fuel; cbn; eexists; (split; [done|]; split; [intros _|done]);
      (split; [done|]; intros a ar Hanc; inversion Hanc; congruence).
Qed.

(** ** Changing phases only *)

(** [same_shape reg reg']: tokens, kinds and parents are the same, and nothing that
    ended comes back. *)
Record same_shape (reg reg' : ObjectRegistry) : Prop := {
  sh_generation : reg_generation reg' = reg_generation reg;
  sh_next : reg_next_id reg' = reg_next_id reg;
  sh_records : forall id, option_Forall2 (fun r r' =>
    ob_token r' = ob_token r /\ ob_kind r' = ob_kind r /\ ob_parent r' = ob_parent r /\
    (phase_ended (ob_phase r) = true -> phase_ended (ob_phase r') = true))
    (reg_records reg !! id) (reg_records reg' !! id)
}.

Lemma same_shape_lookup reg reg' id r' :
  same_shape reg reg' -> reg_records reg' !! id = Some r' ->
  exists r, reg_records reg !! id = Some r /\ ob_token r' = ob_token r /\
    ob_kind r' = ob_kind r /\ ob_parent r' = ob_parent r /\
    (phase_ended (ob_phase r) = true -> phase_ended (ob_phase r') = true).
Proof.
  intros S Hr'. pose proof (sh_records _ _ S id) as H. rewrite Hr' in H.
  inversion H; subst. eauto.
Qed.

Lemma same_shape_lookup_2 reg reg' id r :
  same_shape reg reg' -> reg_records reg !! id = Some r ->
  exists r', reg_records reg' !! id = Some r' /\ ob_token r' = ob_token r /\
    ob_kind r' = ob_kind r /\ ob_parent r' = ob_parent r /\
    (phase_ended (ob_phase r) = true -> phase_ended (ob_phase r') = true).
Proof.
  intros S Hr. pose proof (sh_records _ _ S id) as H. rewrite Hr in H.
  inversion H; subst. eauto.
Qed.

(** Such a change keeps the registry well formed if what ends, ends downwards. *)
Lemma registry_wf_same_shape reg reg' :
  registry_wf reg -> same_shape reg reg' ->
  (forall id r' p pr', reg_records reg' !! id = Some r' -> ob_parent r' = Some p ->
     reg_records reg' !! ot_id p = Some pr' -> phase_ended (ob_phase pr') = true ->
     phase_ended (ob_phase r') = true) ->
  registry_wf reg'.
Proof.
  intros [Hw Hn] S Hended. split; [|by rewrite (sh_next _ _ S)].
  intros id r' Hr'. destruct (same_shape_lookup _ _ _ _ S Hr') as (r & Hr & Et & Ek & Ep & _).
  destruct (Hw id r Hr) as [W1 W2 W3 W4 W5 W6 W7 W8].
  split; rewrite ?Et, ?Ek, ?Ep, ?(sh_generation _ _ S), ?(sh_next _ _ S); try assumption.
  - intros p Hp. destruct (W7 p Hp) as (pr & Hpr & Htok & Hacc).
    destruct (same_shape_lookup_2 _ _ _ _ S Hpr) as (pr' & Hpr' & Et' & Ek' & _).
    exists pr'. by rewrite Et', Ek'.
  - intros p pr' Hp. eapply Hended; [exact Hr'|]. by rewrite Ep.
Qed.

(** Assigning the phase of one record. *)
Lemma same_shape_put reg t r ph :
  reg_record reg t = Ok r ->
  (phase_ended (ob_phase r) = true -> phase_ended ph = true) ->
  same_shape reg (reg_put reg t (r <| ob_phase := ph |>)).
Proof.
  intros (_ & Hr & _)%reg_record_Ok Hph. split; try done. intros id. cbn.
  destruct (decide (ot_id t = id)) as [<-|Hne].
  - rewrite Hr, lookup_insert_eq. by constructor.
  - rewrite lookup_insert_ne by done. by destruct (reg_records reg !! id); constructor.
Qed.

Lemma registry_wf_put reg t r ph :
  registry_wf reg -> reg_record reg t = Ok r ->
  phase_ended ph = phase_ended (ob_phase r) ->
  registry_wf (reg_put reg t (r <| ob_phase := ph |>)).
Proof.
  intros Hreg Hr Hph.
  apply (registry_wf_same_shape reg); [done|apply same_shape_put; [done|congruence]|].
  apply reg_record_Ok in Hr as (_ & Hr & _). cbn.
  assert (Hback : forall id x, <[ot_id t := r <| ob_phase := ph |>]> (reg_records reg) !! id = Some x ->
    exists y, reg_records reg !! id = Some y /\ ob_parent x = ob_parent y /\
      phase_ended (ob_phase x) = phase_ended (ob_phase y)).
  { intros id x [[<- <-]|[Hne Hx]]%lookup_insert_Some; eauto. }
  intros id r' p pr' (y & Hy & Ep & Ee)%Hback Hp (z & Hz & _ & Ez)%Hback.
  rewrite Ee, Ez. apply (rec_ended _ _ _ (reg_wf_records _ Hreg id y Hy) p z); [congruence|done].
Qed.

(** Ending an object whose children have all ended. *)
Lemma registry_wf_end reg t r ph :
  registry_wf reg -> reg_record reg t = Ok r -> phase_ended ph = true ->
  (forall id c, reg_records reg !! id = Some c -> ob_parent c = Some t ->
     phase_ended (ob_phase c) = true) ->
  registry_wf (reg_put reg t (r <| ob_phase := ph |>)).
Proof.
  intros Hreg Hr Hph Hch.
  apply (registry_wf_same_shape reg); [done|by apply same_shape_put|].
  apply reg_record_Ok in Hr as (_ & Hr & Htok). cbn.
  intros id r' p pr' [[<- <-]|[Hne Hr']]%lookup_insert_Some Hp Hpr' Hend; [by destruct ph|].
  apply lookup_insert_Some in Hpr' as [[Hid <-]|[Hne' Hpr']].
  - apply (Hch id r' Hr'). rewrite Hp. f_equal.
    destruct (rec_parent _ _ _ (reg_wf_records _ Hreg id r' Hr') p Hp) as (pr & Hpr & <- & _).
    rewrite <- Hid in Hpr. simplify_eq. done.
  - by apply (rec_ended _ _ _ (reg_wf_records _ Hreg id r' Hr') p pr').
Qed.

(** ** Revoking the descendants of an object *)

Definition revoked (r : ObjectRecord) : ObjectRecord :=
  if phase_ended (ob_phase r) then r else r <| ob_phase := Ph_Revoked |>.

Definition report (r : ObjectRecord) : option ObjectEffect :=
  if phase_ended (ob_phase r) then None else Some (OB_Revoked (ob_token r)).

Lemma revoked_ended r : phase_ended (ob_phase (revoked r)) = true.
Proof. unfold revoked. by destruct (phase_ended (ob_phase r)) eqn:E. Qed.

Lemma revoked_shape r :
  ob_token (revoked r) = ob_token r /\ ob_kind (revoked r) = ob_kind r /\
  ob_parent (revoked r) = ob_parent r.
Proof. unfold revoked. by destruct (phase_ended (ob_phase r)). Qed.

Lemma revoke_fold ids : forall records effs,
  NoDup ids ->
  exists records', foldl revoke_one (records, effs) ids =
      (records', effs ++ omap (fun id => records !! id ≫= report) ids) /\
    forall id, records' !! id =
      (if bool_decide (id ∈ ids) then revoked else fun r => r) <$> records !! id.
Proof.
  induction ids as [|id ids IH]; intros records effs Hnd.
  - exists records. split; [by rewrite app_nil_r|]. intros id.
    rewrite bool_decide_eq_false_2; [|apply not_elem_of_nil].
    by destruct (records !! id).
  - apply NoDup_cons in Hnd as [Hid Hnd]. cbn [foldl].
    assert (Hstep : exists records1, revoke_one (records, effs) id =
        (records1, effs ++ option_list (records !! id ≫= report)) /\
      forall id', records1 !! id' =
        (if bool_decide (id' = id) then revoked else fun r => r) <$> records !! id').
    { unfold revoke_one. cbn [fst snd]. destruct (records !! id) as [r|] eqn:Hr; cbn.
      - unfold report, revoked. destruct (phase_ended (ob_phase r)) eqn:He; cbn.
        + exists records. rewrite app_nil_r. split; [done|]. intros id'.
          case_bool_decide; [subst; rewrite Hr; cbn; by rewrite He|]. by destruct (records !! id').
        + eexists. split; [done|]. intros id'. case_bool_decide.
          * subst. rewrite lookup_insert_eq, Hr. cbn. by rewrite He.
          * rewrite lookup_insert_ne by done. by destruct (records !! id').
      - exists records. rewrite app_nil_r. split; [done|]. intros id'.
        case_bool_decide; [by subst; rewrite Hr|]. by destruct (records !! id'). }
    destruct Hstep as (records1 & -> & H1).
    destruct (IH records1 (effs ++ option_list (records !! id ≫= report)) Hnd)
      as (records2 & -> & H2).
    exists records2. split.
    + rewrite <- app_assoc. do 2 f_equal. cbn [omap list_omap].
      assert (E : omap (fun id => records1 !! id ≫= report) ids =
                  omap (fun id => records !! id ≫= report) ids).
      { apply list_omap_ext, Forall_Forall2_diag, Forall_forall. intros id' Hin.
        rewrite H1, bool_decide_eq_false_2 by (by intros ->). by destruct (records !! id'). }
      rewrite E. by destruct (records !! id ≫= report).
    + intros id'. rewrite H2, H1. destruct (decide (id' = id)) as [->|Hne].
      * rewrite bool_decide_eq_false_2, !bool_decide_eq_true_2; [|by left|done|done].
        by destruct (records !! id).
      * rewrite (bool_decide_eq_false_2 (id' = id)) by done.
        rewrite (bool_decide_ext (id' ∈ id :: ids) (id' ∈ ids)) by set_solver.
        by destruct (records !! id').
Qed.

Section registry.
Context `{!HashOrder Z}.

Lemma hash_values_ids reg :
  registry_wf reg ->
  (fun r => ot_id (ob_token r)) <$> hash_values (reg_records reg) = hash_keys (reg_records reg).
Proof.
  intros [Hw _]. unfold hash_values.
  assert (H : Forall (fun k => is_Some (reg_records reg !! k)) (hash_keys (reg_records reg))).
  { apply Forall_forall. intros k. apply elem_of_hash_keys. }
  induction H as [|k ks [r Hr] _ IH]; [done|]. cbn. rewrite Hr. cbn. f_equal; [|done].
  apply (rec_id _ _ _ (Hw k r Hr)).
Qed.

Definition is_below (reg : ObjectRegistry) (a : ObjectToken) (r : ObjectRecord) : bool :=
  reg_is_descendant reg (ob_token r) a.

Lemma reg_revoke_descendants_eq reg a :
  registry_wf reg ->
  exists records, reg_revoke_descendants reg a =
      (reg <| reg_records := records |>,
       omap report (filter (fun r => is_below reg a r) (hash_values (reg_records reg)))) /\
    forall id, records !! id =
      (fun r => if is_below reg a r then revoked r else r) <$> reg_records reg !! id.
Proof.
  intros Hreg. unfold reg_revoke_descendants.
  set (below := filter _ (hash_values (reg_records reg))).
  set (ids := (fun record => ot_id (ob_token record)) <$> below).
  assert (Hbelow : forall r, r ∈ below <-> is_below reg a r = true /\
    reg_records reg !! ot_id (ob_token r) = Some r).
  { intros r. unfold below. rewrite list_elem_of_filter, elem_of_hash_values. unfold is_below.
    split; (intros [Hb Hr]; split; [by destruct (reg_is_descendant _ _ _)|]).
    - destruct Hr as [k Hk].
      by rewrite (rec_id _ _ _ (reg_wf_records _ Hreg k r Hk)).
    - eauto. }
  assert (Hnd : NoDup ids).
  { unfold ids, below. eapply (sublist_NoDup _ (hash_keys (reg_records reg)));
      [apply NoDup_hash_keys|].
    rewrite <- (hash_values_ids reg Hreg). apply fmap_sublist, sublist_filter. }
  destruct (revoke_fold ids (reg_records reg) [] Hnd) as (records & -> & Hrec).
  exists records. split.
  - f_equal. cbn. unfold ids. apply list_omap_ext. apply Forall2_fmap_l, Forall_Forall2_diag.
    apply Forall_forall. intros r [_ Hr]%Hbelow. cbn. by rewrite Hr.
  - intros id. rewrite Hrec. destruct (reg_records reg !! id) as [r|] eqn:Hr; [|done]. cbn.
    f_equal. assert (Hid := rec_id _ _ _ (reg_wf_records _ Hreg id r Hr)).
    destruct (is_below reg a r) eqn:Hb.
    + rewrite bool_decide_eq_true_2; [done|]. apply list_elem_of_fmap. exists r.
      split; [done|]. apply Hbelow. by rewrite Hid.
    + rewrite bool_decide_eq_false_2; [done|]. intros (r' & E & [Hb' Hr']%Hbelow)%list_elem_of_fmap.
      rewrite <- E, Hr in Hr'. simplify_eq. congruence.
Qed.

(** ** Every operation keeps the registry well formed *)

Lemma revoke_same_shape reg a :
  registry_wf reg -> same_shape reg (reg_revoke_descendants reg a).1.
Proof.
  intros Hreg. destruct (reg_revoke_descendants_eq reg a Hreg) as (records & -> & Hrec).
  split; try done. intros id. cbn. rewrite Hrec.
  destruct (reg_records reg !! id) as [r|]; cbn; constructor.
  destruct (revoked_shape r) as (E1 & E2 & E3).
  destruct (is_below reg a r); [|done]. rewrite E1, E2, E3. repeat split; try done.
  intros _. apply revoked_ended.
Qed.

(** After revoking below [a], everything below [a] has ended. *)
Lemma revoke_ends reg a id r :
  registry_wf reg -> reg_records reg !! id = Some r -> ancestor_of reg (ob_token r) a ->
  exists r', reg_records (reg_revoke_descendants reg a).1 !! id = Some r' /\
    phase_ended (ob_phase r') = true.
Proof.
  intros Hreg Hr Hanc. destruct (reg_revoke_descendants_eq reg a Hreg) as (records & -> & Hrec).
  cbn. rewrite Hrec, Hr. cbn. unfold is_below.
  rewrite (proj2 (reg_is_descendant_spec reg id r a Hreg Hr) Hanc).
  eexists. split; [done|]. apply revoked_ended.
Qed.

Lemma wf_revoke reg a : registry_wf reg -> registry_wf (reg_revoke_descendants reg a).1.
Proof.
  intros Hreg. pose proof (revoke_same_shape reg a Hreg) as S.
  apply (registry_wf_same_shape reg); [done|done|].
  intros id r' p pr' Hr' Hp Hpr' Hend.
  destruct (same_shape_lookup _ _ _ _ S Hr') as (r & Hr & _ & _ & Ep & Hmono).
  rewrite Ep in Hp. destruct (parent_step reg id r p Hreg Hr Hp) as (pr & Hpr & Htok & _ & _).
  destruct (phase_ended (ob_phase pr)) eqn:Hpe.
  { apply Hmono. by apply (rec_ended _ _ _ (reg_wf_records _ Hreg id r Hr) p pr). }
  assert (Hb : ancestor_of reg p a).
  { destruct (reg_revoke_descendants_eq reg a Hreg) as (records & E & Hrec).
    rewrite E in Hpr'. cbn in Hpr'. rewrite Hrec, Hpr in Hpr'. cbn in Hpr'. simplify_eq.
    unfold is_below in Hend. destruct (reg_is_descendant reg (ob_token pr) a) eqn:Hd.
    - by apply (reg_is_descendant_spec reg (ot_id (ob_token pr)) pr a).
    - congruence. }
  destruct (revoke_ends reg a id r Hreg Hr) as (r2 & Hr2 & He); [|congruence].
  apply (anc_up reg _ p); [|done]. by rewrite (parent_at_record reg id r Hreg Hr).
Qed.

(** The record of a current token after a revocation below it. *)
Lemma revoke_record reg t r :
  registry_wf reg -> reg_record reg t = Ok r ->
  exists r', reg_record (reg_revoke_descendants reg t).1 t = Ok r' /\
    forall id c, reg_records (reg_revoke_descendants reg t).1 !! id = Some c ->
      ob_parent c = Some t -> phase_ended (ob_phase c) = true.
Proof.
  intros Hreg (Hg & Hr & Ht)%reg_record_Ok.
  pose proof (revoke_same_shape reg t Hreg) as S.
  destruct (same_shape_lookup_2 _ _ _ _ S Hr) as (r' & Hr' & Et & _).
  exists r'. split.
  { apply reg_record_Ok. by rewrite (sh_generation _ _ S), Et. }
  intros id c Hc Hp. destruct (same_shape_lookup _ _ _ _ S Hc) as (c0 & Hc0 & _ & _ & Ep & _).
  destruct (revoke_ends reg t id c0 Hreg Hc0) as (c1 & Hc1 & He); [|congruence].
  apply anc_parent. rewrite (parent_at_record reg id c0 Hreg Hc0). congruence.
Qed.

Lemma wf_create_child reg p k : registry_wf reg -> registry_wf (reg_create_child reg p k).1.
Proof.
  intros Hreg. unfold reg_create_child. destruct (reg_record reg p) as [pr|e] eqn:Hp; [|done].
  destruct (accepts_parent k (ob_kind pr)) eqn:Hacc; [|done]. cbn [negb].
  case_bool_decide as Hph; [done|]. destruct (reg_next_id reg) as [n|] eqn:Hn; [|done].
  apply reg_record_Ok in Hp as (Hg & Hp & Htok). destruct Hreg as [Hw Hnx].
  pose proof (Hnx n Hn) as Hrange. cbn [fst].
  assert (Hlt : forall id r, reg_records reg !! id = Some r -> id < n).
  { intros id r Hr. by apply (rec_next _ _ _ (Hw id r Hr)). }
  assert (Hactive : phase_ended (ob_phase pr) = false).
  { destruct (ob_phase pr); try done; by destruct Hph. }
  split; cbn; [|intros m [Hm ->]%checked_add_Some; ints].
  intros id r [[<- <-]|[Hne Hr]]%lookup_insert_Some.
  - split; cbn; try done; try ints.
    + intros m [Hm ->]%checked_add_Some. lia.
    + intros q [= <-]. exists pr. rewrite lookup_insert_ne; [done|].
      specialize (Hlt _ _ Hp). lia.
    + intros q qr [= <-]. rewrite lookup_insert_ne by (specialize (Hlt _ _ Hp); lia).
      intros Hq. rewrite Hp in Hq. injection Hq as <-. by rewrite Hactive.
  - destruct (Hw id r Hr) as [W1 W2 W3 W4 W5 W6 W7 W8]. split; cbn; try assumption.
    + intros m [Hm ->]%checked_add_Some. specialize (Hlt id r Hr). lia.
    + intros q Hq. destruct (W7 q Hq) as (qr & Hqr & ? & ?). exists qr.
      rewrite lookup_insert_ne; [done|]. specialize (Hlt _ _ Hqr). lia.
    + intros q qr Hq Hqr. destruct (W7 q Hq) as (qr' & Hqr' & _).
      rewrite lookup_insert_ne in Hqr by (specialize (Hlt _ _ Hqr'); lia). by apply (W8 q qr).
Qed.

Lemma wf_begin_recovery reg t : registry_wf reg -> registry_wf (reg_begin_recovery reg t).1.
Proof.
  intros Hreg. unfold reg_begin_recovery.
  destruct (reg_validate_active reg t) as [[]|] eqn:Hv; [|done].
  destruct (reg_record reg t) as [r|] eqn:Hr; [|done]. cbn [fst].
  apply registry_wf_put; [done|done|].
  unfold reg_validate_active, walk_depth in Hv. cbn [validate_walk] in Hv. rewrite Hr in Hv.
  case_bool_decide as Hph; [done|]. by destruct (ob_phase r); try done; destruct Hph.
Qed.

Lemma wf_begin_close reg t : registry_wf reg -> registry_wf (reg_begin_close reg t).1.
Proof.
  intros Hreg. unfold reg_begin_close. destruct (reg_record reg t) as [r|] eqn:Hr; [|done].
  destruct (ob_phase r) eqn:Hph; cbn [fst]; try done; apply registry_wf_put; try done;
    by rewrite Hph.
Qed.

Lemma wf_complete_close reg t : registry_wf reg -> registry_wf (reg_complete_close reg t).1.
Proof.
  intros Hreg. unfold reg_complete_close. destruct (reg_record reg t) as [r|] eqn:Hr; [|done].
  destruct (revoke_record reg t r Hreg Hr) as (r' & Hr' & Hch).
  pose proof (wf_revoke reg t Hreg) as Hw.
  destruct (reg_revoke_descendants reg t) as [reg1 effs]. cbn [fst] in *. rewrite Hr'. cbn [fst].
  by apply registry_wf_end.
Qed.

Lemma wf_fail_recovery reg t : registry_wf reg -> registry_wf (reg_fail_recovery reg t).1.
Proof.
  intros Hreg. unfold reg_fail_recovery. destruct (reg_record reg t) as [r|] eqn:Hr; [|done].
  case_bool_decide; [done|].
  destruct (revoke_record reg t r Hreg Hr) as (r' & Hr' & Hch).
  pose proof (wf_revoke reg t Hreg) as Hw.
  destruct (reg_revoke_descendants reg t) as [reg1 effs]. cbn [fst] in *. rewrite Hr'. cbn [fst].
  by apply registry_wf_end.
Qed.

Lemma wf_lose_generation reg : registry_wf reg -> registry_wf (reg_lose_generation reg).1.
Proof.
  intros Hreg. apply (registry_wf_same_shape reg); [done| |].
  - split; try done. intros id. cbn. rewrite lookup_fmap.
    destruct (reg_records reg !! id) as [r|]; cbn; constructor.
    destruct (revoked_shape r) as (E1 & E2 & E3).
    fold (revoked r). rewrite E1, E2, E3. repeat split; try done. intros _. apply revoked_ended.
  - intros id r' p pr' Hr'. cbn in Hr'. rewrite lookup_fmap in Hr'.
    destruct (reg_records reg !! id) as [r|]; [|done]. cbn in Hr'. simplify_eq.
    intros _ _ _. apply revoked_ended.
Qed.
End registry.
