(* ===== verification/ObjectTheorems.v ===== *)
(** Theorems about the object registry over its reachable states
    (crates/smb/src/runtime/object_state.rs): the walks end and decide what they
    should, replaced tokens stay stale, ended objects stay ended with everything below
    them, and one caller owns the protocol close of an object. *)
From S2P Require Import Prelude Clock Reducer ObjectState ObjectProps.
Local Open Scope Z_scope.

(** ** Publishing a replacement *)

Lemma publish_replacement_cases reg t :
  (exists e, reg_publish_replacement reg t = (reg, Err e)) \/
  exists r, reg_record reg t = Ok r /\ ob_phase r = Ph_Recovering /\
    ot_epoch t + 1 <= u64_max /\
    reg_publish_replacement reg t =
    (let next := t <| ot_epoch := ot_epoch t + 1 |> in
     reg <| reg_records :=
       (fun c => if bool_decide (ob_parent c = Some t)
                 then c <| ob_parent := Some next |> else c) <$>
       <[ot_id t := r <| ob_token := next |> <| ob_phase := Ph_Active |>]> (reg_records reg) |>,
     Ok (OB_ReplacementPublished t (t <| ot_epoch := ot_epoch t + 1 |>))).
Proof.
  unfold reg_publish_replacement. destruct (reg_record reg t) as [r|e] eqn:Hr; [|eauto].
  case_bool_decide as Hph; [eauto|].
  pose proof Hr as (_ & _ & Ht)%reg_record_Ok. rewrite Ht.
  destruct (checked_add u64_max (ot_epoch t) 1) as [n|] eqn:Hn; [|eauto].
  apply checked_add_Some in Hn as [Hle ->]. right. exists r.
  by repeat split.
Qed.

(** A record after its ancestors' or its own replacement: only its token, its parent
    pointer and a recovering phase move. *)
Lemma publish_lookup reg t r (id : Z) x :
  reg_records reg !! ot_id t = Some r ->
  (let next := t <| ot_epoch := ot_epoch t + 1 |> in
   (fun c => if bool_decide (ob_parent c = Some t)
             then c <| ob_parent := Some next |> else c) <$>
   <[ot_id t := r <| ob_token := next |> <| ob_phase := Ph_Active |>]> (reg_records reg)) !! id
    = Some x ->
  exists y, reg_records reg !! id = Some y /\ ob_kind x = ob_kind y /\
    ob_parent x = (if bool_decide (ob_parent y = Some t)
                   then Some (t <| ot_epoch := ot_epoch t + 1 |>) else ob_parent y) /\
    ((id = ot_id t /\ y = r /\ ob_token x = t <| ot_epoch := ot_epoch t + 1 |> /\
        ob_phase x = Ph_Active) \/
     (id <> ot_id t /\ ob_token x = ob_token y /\ ob_phase x = ob_phase y)).
Proof.
  intros Hr. cbv zeta. rewrite lookup_fmap. destruct (decide (id = ot_id t)) as [->|Hne].
  - rewrite lookup_insert_eq. cbn. intros [= <-]. exists r. split; [done|].
    case_bool_decide; split; try done; split; try done; left; done.
  - rewrite lookup_insert_ne by done. destruct (reg_records reg !! id) as [y|]; [|done].
    cbn. intros [= <-]. exists y. split; [done|].
    case_bool_decide; split; try done; split; try done; right; done.
Qed.

Lemma wf_publish_replacement reg t :
  registry_wf reg -> registry_wf (reg_publish_replacement reg t).1.
Proof.
  intros Hreg. destruct (publish_replacement_cases reg t)
    as [[e ->]|(r & Hrec & Hph & Hle & ->)]; [done|].
  pose proof Hrec as (Hg & Hr & Htok)%reg_record_Ok.
  cbn [fst]. set (next := t <| ot_epoch := ot_epoch t + 1 |>) in *.
  destruct Hreg as [Hw Hn]. split; [|done].
  set (m := _ <$> _) in *. cbn. intros id x Hx.
  destruct (publish_lookup reg t r id x Hr Hx) as (y & Hy & Ek & Ep & Hcase).
  destruct (Hw id y Hy) as [W1 W2 W3 W4 W5 W6 W7 W8].
  assert (Hphase : phase_ended (ob_phase x) = phase_ended (ob_phase y)).
  { destruct Hcase as [(_ & -> & _ & ->)|(_ & _ & ->)]; [by rewrite Hph|done]. }
  assert (Hparent : forall p, ob_parent y = Some p -> exists pr qr,
    reg_records reg !! ot_id p = Some pr /\ ob_token pr = p /\
    accepts_parent (ob_kind y) (ob_kind pr) = true /\
    m !! ot_id p = Some qr /\ ob_kind qr = ob_kind pr /\
    ob_token qr = (if bool_decide (p = t) then next else p) /\
    phase_ended (ob_phase qr) = phase_ended (ob_phase pr)).
  { intros p Hp. destruct (W7 p Hp) as (pr & Hpr & Htp & Hacc).
    destruct (m !! ot_id p) as [qr|] eqn:Hq.
    - exists pr, qr. destruct (publish_lookup reg t r (ot_id p) qr Hr Hq)
        as (pr' & Hpr' & Ekq & _ & Hc). rewrite Hpr in Hpr'. injection Hpr' as <-.
      split_and!; try done.
      + destruct Hc as [(E & -> & -> & _)|(E & -> & _)].
        * rewrite bool_decide_eq_true_2; [done|]. congruence.
        * rewrite bool_decide_eq_false_2; [done|]. intros ->. done.
      + destruct Hc as [(_ & -> & _ & ->)|(_ & _ & ->)]; [by rewrite Hph|done].
    - exfalso. unfold m in Hq. cbv zeta in Hq. rewrite lookup_fmap in Hq.
      rewrite lookup_insert in Hq. case_decide; [done|]. by rewrite Hpr in Hq. }
  split; cbn; rewrite ?Ek, ?Hphase; try assumption.
  - destruct Hcase as [(_ & -> & -> & _)|(_ & -> & _)]; [|done]. cbn. congruence.
  - destruct Hcase as [(-> & -> & -> & _)|(_ & -> & _)]; [done|done].
  - destruct Hcase as [(_ & -> & -> & _)|(_ & -> & _)]; [|done]. rewrite Htok in W3. cbn. ints.
  - rewrite Ep. case_bool_decide; [done|]. exact W6.
  - intros p. rewrite Ep. case_bool_decide as Hpt.
    + intros [= <-]. destruct (Hparent t Hpt) as (pr & qr & _ & _ & Ha & Hq & Ekq & Etq & _).
      exists qr. rewrite Ekq, Etq, bool_decide_eq_true_2 by done. by cbn.
    + intros Hp. destruct (Hparent p Hp) as (pr & qr & _ & _ & Ha & Hq & Ekq & Etq & _).
      exists qr. rewrite Ekq, Etq, bool_decide_eq_false_2; [done|]. congruence.
  - intros p qr'. rewrite Ep. case_bool_decide as Hpt.
    + intros [= <-]. cbn. destruct (Hparent t Hpt) as (pr & qr & Hpr & _ & _ & Hq & _ & _ & Ee).
      rewrite Hq. intros [= <-]. rewrite Ee. by apply (W8 t pr).
    + intros Hp. destruct (Hparent p Hp) as (pr & qr & Hpr & _ & _ & Hq & _ & _ & Ee).
      rewrite Hq. intros [= <-]. rewrite Ee. by apply (W8 p pr).
Qed.

(** ** Reachable registries *)

Inductive RegistryOp :=
| RO_CreateChild (parent : ObjectToken) (kind : ObjectKind)
| RO_BeginRecovery (token : ObjectToken)
| RO_PublishReplacement (token : ObjectToken)
| RO_PublishRevoking (token : ObjectToken)
| RO_FailRecovery (token : ObjectToken)
| RO_BeginClose (token : ObjectToken)
| RO_CompleteClose (token : ObjectToken)
| RO_LoseGeneration.

Section registry_runs.
Context `{!HashOrder Z}.

Definition reg_apply (reg : ObjectRegistry) (op : RegistryOp) : ObjectRegistry :=
  match op with
  | RO_CreateChild parent kind => (reg_create_child reg parent kind).1
  | RO_BeginRecovery token => (reg_begin_recovery reg token).1
  | RO_PublishReplacement token => (reg_publish_replacement reg token).1
  | RO_PublishRevoking token => (reg_publish_replacement_revoking_descendants reg token).1
  | RO_FailRecovery token => (reg_fail_recovery reg token).1
  | RO_BeginClose token => (reg_begin_close reg token).1
  | RO_CompleteClose token => (reg_complete_close reg token).1
  | RO_LoseGeneration => (reg_lose_generation reg).1
  end.

(** The registry after a sequence of calls, whatever each of them returned. *)
Definition reg_run (reg : ObjectRegistry) (ops : list RegistryOp) : ObjectRegistry :=
  foldl reg_apply reg ops.

Lemma wf_publish_revoking reg t :
  registry_wf reg -> registry_wf (reg_publish_replacement_revoking_descendants reg t).1.
Proof.
  intros Hreg. unfold reg_publish_replacement_revoking_descendants.
  destruct (reg_record reg t) as [r|]; [|done]. case_bool_decide; [done|].
  pose proof (wf_revoke reg t Hreg) as H1.
  destruct (reg_revoke_descendants reg t) as [reg1 effs]. cbn [fst] in H1.
  pose proof (wf_publish_replacement reg1 t H1) as H2.
  by destruct (reg_publish_replacement reg1 t) as [reg2 [|]].
Qed.

Lemma wf_apply reg op : registry_wf reg -> registry_wf (reg_apply reg op).
Proof.
  destruct op; cbn [reg_apply]; auto using wf_create_child, wf_begin_recovery,
    wf_publish_replacement, wf_publish_revoking, wf_fail_recovery, wf_begin_close,
    wf_complete_close, wf_lose_generation.
Qed.

Lemma wf_new g : registry_wf (reg_new g).
Proof.
  split; cbn; [|intros n [= <-]; ints].
  intros id r [<- <-]%lookup_singleton_Some. split; cbn; try done; try ints. by intros n [= <-].
Qed.

Lemma wf_run ops reg : registry_wf reg -> registry_wf (reg_run reg ops).
Proof.
  revert reg. induction ops as [|op ops IH]; intros reg Hreg; [done|].
  apply IH. by apply wf_apply.
Qed.

Lemma reachable_wf g ops : registry_wf (reg_run (reg_new g) ops).
Proof. apply wf_run, wf_new. Qed.

(** The ancestors of a current token are current. *)
Lemma ancestor_current reg t r a :
  registry_wf reg -> reg_record reg t = Ok r -> ancestor_of reg t a ->
  exists ar, reg_record reg a = Ok ar.
Proof.
  intros Hreg Hr Hanc. revert r Hr. induction Hanc as [t p Hp|t p a Hp _ IH]; intros r Hr;
    pose proof Hr as (_ & Hl & Ht)%reg_record_Ok;
    (unfold parent_at in Hp; rewrite Hl in Hp; cbn in Hp);
    destruct (parent_step reg _ r p Hreg Hl Hp) as (pr & _ & _ & Hpr & _); eauto.
Qed.

(** ** What an operation may do to one record *)

(** [rec_step r r'] relates a record before and after any operation: its identity and
    kind stay, its epoch only grows, what ended stays ended, and an object being
    closed never becomes usable again. *)
Record rec_step (r r' : ObjectRecord) : Prop := {
  rs_id : ot_id (ob_token r') = ot_id (ob_token r);
  rs_kind : ob_kind r' = ob_kind r;
  rs_epoch : ot_epoch (ob_token r) <= ot_epoch (ob_token r');
  rs_ended : phase_ended (ob_phase r) = true -> phase_ended (ob_phase r') = true;
  rs_closing : ob_phase r = Ph_Closing ->
    ob_phase r' = Ph_Closing \/ phase_ended (ob_phase r') = true
}.

#[export] Instance rec_step_preorder : PreOrder rec_step.
Proof.
  split.
  - intros r. split; auto. lia.
  - intros r1 r2 r3 [A1 A2 A3 A4 A5] [B1 B2 B3 B4 B5]. split; try congruence; try lia; auto.
    intros Hc. destruct (A5 Hc) as [Hc2|He]; auto.
Qed.

Definition reg_steps (reg reg' : ObjectRegistry) : Prop :=
  reg_generation reg' = reg_generation reg /\
  forall id r, reg_records reg !! id = Some r ->
    exists r', reg_records reg' !! id = Some r' /\ rec_step r r'.

#[export] Instance reg_steps_preorder : PreOrder reg_steps.
Proof.
  split.
  - intros reg. split; [done|]. intros id r Hr. exists r. by split.
  - intros r1 r2 r3 [G1 H1] [G2 H2]. split; [congruence|]. intros id r Hr.
    destruct (H1 id r Hr) as (r' & Hr' & S1). destruct (H2 id r' Hr') as (r'' & Hr'' & S2).
    exists r''. split; [done|]. by etrans.
Qed.

Lemma steps_put reg t r r' :
  reg_record reg t = Ok r -> rec_step r r' -> reg_steps reg (reg_put reg t r').
Proof.
  intros (_ & Hr & _)%reg_record_Ok Hs. split; [done|]. intros id x Hx. cbn.
  destruct (decide (ot_id t = id)) as [<-|Hne].
  - rewrite lookup_insert_eq. rewrite Hr in Hx. injection Hx as <-. eauto.
  - rewrite lookup_insert_ne by done. exists x. by split.
Qed.

Lemma rec_step_revoked r : rec_step r (revoked r).
Proof.
  unfold revoked. destruct (phase_ended (ob_phase r)) eqn:E; [done|].
  split; cbn; auto; lia.
Qed.

Lemma steps_revoke reg t : registry_wf reg -> reg_steps reg (reg_revoke_descendants reg t).1.
Proof.
  intros Hreg. destruct (reg_revoke_descendants_eq reg t Hreg) as (records & -> & Hrec).
  split; [done|]. intros id r Hr. cbn. rewrite Hrec, Hr. cbn. eexists. split; [done|].
  destruct (is_below reg t r); [apply rec_step_revoked|done].
Qed.

Lemma steps_publish reg t : reg_steps reg (reg_publish_replacement reg t).1.
Proof.
  destruct (publish_replacement_cases reg t) as [[e ->]|(r & Hrec & Hph & Hle & ->)]; [done|].
  pose proof Hrec as (_ & Hr & Htok)%reg_record_Ok. split; [done|].
  intros id x Hx. cbn. rewrite lookup_fmap, lookup_insert. case_decide as Heq.
  - subst id. rewrite Hr in Hx. injection Hx as <-. cbn. eexists. split; [done|].
    case_bool_decide; split; cbn; rewrite ?Hph, ?Htok; try done; lia.
  - rewrite Hx. cbn. eexists. split; [done|]. case_bool_decide; [|done].
    split; cbn; auto; lia.
Qed.

Lemma steps_apply reg op : registry_wf reg -> reg_steps reg (reg_apply reg op).
Proof.
  intros Hreg. destruct op; cbn [reg_apply].
  - unfold reg_create_child. destruct (reg_record reg parent) as [pr|]; [|done].
    destruct (negb _); [done|]. case_bool_decide; [done|].
    destruct (reg_next_id reg) as [n|] eqn:Hn; [|done]. split; [done|]. intros id r Hr. cbn.
    rewrite lookup_insert_ne; [by exists r|].
    pose proof (rec_next _ _ _ (reg_wf_records _ Hreg id r Hr) n Hn). lia.
  - unfold reg_begin_recovery. destruct (reg_validate_active reg token) as [[]|] eqn:Hv; [|done].
    destruct (reg_record reg token) as [r|] eqn:Hr; [|done]. apply (steps_put _ _ r); [done|].
    unfold reg_validate_active, walk_depth in Hv. cbn [validate_walk] in Hv. rewrite Hr in Hv.
    case_bool_decide as Hph; [done|]. split; cbn; try done; try lia; by rewrite Hph.
  - apply steps_publish.
  - unfold reg_publish_replacement_revoking_descendants.
    destruct (reg_record reg token) as [r|]; [|done]. case_bool_decide; [done|].
    pose proof (steps_revoke reg token Hreg) as H1.
    destruct (reg_revoke_descendants reg token) as [reg1 effs]. cbn [fst] in H1.
    pose proof (steps_publish reg1 token) as H2.
    destruct (reg_publish_replacement reg1 token) as [reg2 [|]]; by etrans.
  - unfold reg_fail_recovery. destruct (reg_record reg token) as [r|]; [|done].
    case_bool_decide; [done|]. pose proof (steps_revoke reg token Hreg) as H1.
    destruct (reg_revoke_descendants reg token) as [reg1 effs]. cbn [fst] in H1.
    destruct (reg_record reg1 token) as [r'|] eqn:Hr'; [|done]. etrans; [exact H1|].
    apply (steps_put _ _ r'); [done|]. split; cbn; auto; lia.
  - unfold reg_begin_close. destruct (reg_record reg token) as [r|] eqn:Hr; [|done].
    destruct (ob_phase r) eqn:Hph; try done; apply (steps_put _ _ r); try done;
      split; cbn; rewrite ?Hph; auto; try done; lia.
  - unfold reg_complete_close. destruct (reg_record reg token) as [r|]; [|done].
    pose proof (steps_revoke reg token Hreg) as H1.
    destruct (reg_revoke_descendants reg token) as [reg1 effs]. cbn [fst] in H1.
    destruct (reg_record reg1 token) as [r'|] eqn:Hr'; [|done]. etrans; [exact H1|].
    apply (steps_put _ _ r'); [done|]. split; cbn; auto; lia.
  - split; [done|]. intros id r Hr. cbn. rewrite lookup_fmap, Hr. cbn. eexists.
    split; [done|]. apply rec_step_revoked.
Qed.

Lemma steps_run ops reg : registry_wf reg -> reg_steps reg (reg_run reg ops).
Proof.
  revert reg. induction ops as [|op ops IH]; intros reg Hreg; [done|].
  etrans; [by apply (steps_apply reg op)|]. apply IH. by apply wf_apply.
Qed.

(** ** Properties *)

(** the two loops that follow parent pointers end within [walk_depth] steps on
    every registry the operations can build, for any token, current or not. *)
Lemma hierarchy_walks_terminate g ops token ancestor :
  let reg := reg_run (reg_new g) ops in
  is_Some (validate_walk walk_depth reg (Some token)) /\
  is_Some (descendant_walk walk_depth reg (parent_at reg token) ancestor).
Proof.
  cbv zeta. pose proof (reachable_wf g ops) as Hreg. set (reg := reg_run _ ops) in *.
  split.
  - destruct (reg_record reg token) as [r|e] eqn:Hr.
    + pose proof Hr as (_ & Hl & Ht)%reg_record_Ok. rewrite <- Ht.
      destruct (validate_walk_spec reg Hreg walk_depth (ot_id token) r Hl) as (res & -> & _);
        [|eauto]. unfold walk_depth. destruct (ob_kind r); cbn; lia.
    + unfold walk_depth. cbn [validate_walk]. rewrite Hr. eauto.
  - unfold parent_at at 1. destruct (reg_records reg !! ot_id token) as [r|] eqn:Hr; [|by eexists].
    destruct (descendant_walk_spec reg ancestor Hreg walk_depth _ r Hr) as (b & E & _).
    + unfold walk_depth. destruct (ob_kind r); cbn; lia.
    + cbn [mbind option_bind]. rewrite E. eauto.
Qed.

Lemma validate_active_iff reg token :
  registry_wf reg ->
  reg_validate_active reg token = Ok tt <->
  exists r, reg_record reg token = Ok r /\ ob_phase r = Ph_Active /\
    forall a ar, ancestor_of reg token a -> reg_record reg a = Ok ar -> ob_phase ar = Ph_Active.
Proof.
  intros Hreg. unfold reg_validate_active. destruct (reg_record reg token) as [r|e] eqn:Hr.
  - pose proof Hr as (_ & Hl & Ht)%reg_record_Ok.
    destruct (validate_walk_spec reg Hreg walk_depth (ot_id token) r Hl) as (res & Hres & Hspec).
    { unfold walk_depth. destruct (ob_kind r); cbn; lia. }
    rewrite Ht in *. rewrite Hres. cbn. rewrite Hspec. naive_solver.
  - unfold walk_depth. cbn [validate_walk]. rewrite Hr. cbn. naive_solver.
Qed.

(** a token validates exactly when it is current, its object is active, and so is
    every object above it. *)
Lemma validate_active_spec g ops token :
  let reg := reg_run (reg_new g) ops in
  reg_validate_active reg token = Ok tt <->
  exists r, reg_record reg token = Ok r /\ ob_phase r = Ph_Active /\
    forall a ar, ancestor_of reg token a -> reg_record reg a = Ok ar -> ob_phase ar = Ph_Active.
Proof. cbv zeta. apply validate_active_iff, reachable_wf. Qed.

(** once an object has ended, no token for it validates again, whatever is called
    next, and neither does a token of any object below it. *)
Lemma ended_objects_never_validate g ops token r ops' token' :
  let reg := reg_run (reg_new g) ops in
  reg_record reg token = Ok r -> phase_ended (ob_phase r) = true ->
  let reg' := reg_run reg ops' in
  ot_id token' = ot_id token \/
    (exists r' a, reg_record reg' token' = Ok r' /\ ancestor_of reg' token' a /\
       ot_id a = ot_id token) ->
  reg_validate_active reg' token' <> Ok tt.
Proof.
  cbv zeta. intros Hr He Hwhich Hv. pose proof (reachable_wf g ops) as Hreg.
  set (reg := reg_run _ ops) in *. pose proof (wf_run ops' reg Hreg) as Hreg'.
  pose proof Hr as (_ & Hl & _)%reg_record_Ok.
  destruct (steps_run ops' reg Hreg) as [_ Hsteps].
  destruct (Hsteps _ r Hl) as (r1 & Hl1 & Hs). pose proof (rs_ended _ _ Hs He) as He1.
  apply (validate_active_iff _ _ Hreg') in Hv as (r2 & Hr2 & Hact & Hup).
  destruct Hwhich as [Hid|(r3 & a & Hr3 & Hanc & Hid)].
  - apply reg_record_Ok in Hr2 as (_ & Hl2 & _). rewrite Hid, Hl1 in Hl2. injection Hl2 as <-.
    by rewrite Hact in He1.
  - destruct (ancestor_current _ _ _ _ Hreg' Hr3 Hanc) as (ar & Har).
    pose proof (Hup a ar Hanc Har) as Ha.
    apply reg_record_Ok in Har as (_ & Hla & _). rewrite Hid, Hl1 in Hla. injection Hla as <-.
    by rewrite Ha in He1.
Qed.

(** C6: a token that has been replaced is stale for good: no later sequence of calls
    makes it current or valid again. *)
Theorem replaced_token_stays_stale g ops token reg' effect ops' :
  reg_publish_replacement (reg_run (reg_new g) ops) token = (reg', Ok effect) ->
  effect = OB_ReplacementPublished token (token <| ot_epoch := ot_epoch token + 1 |>) /\
  reg_record (reg_run reg' ops') token = Err OBE_Stale /\
  reg_validate_active (reg_run reg' ops') token = Err OBE_Stale.
Proof.
  intros Hpub. pose proof (reachable_wf g ops) as Hreg. set (reg := reg_run _ ops) in *.
  pose proof (wf_publish_replacement reg token Hreg) as Hw'. rewrite Hpub in Hw'. cbn [fst] in Hw'.
  destruct (publish_replacement_cases reg token) as [[e E]|(r & Hrec & Hph & Hle & E)];
    rewrite E in Hpub; [done|].
  injection Hpub as Ereg <-. split; [done|].
  pose proof Hrec as (Hg & Hl & Htok)%reg_record_Ok.
  destruct (reg_records reg' !! ot_id token) as [x|] eqn:Hx.
  2: { rewrite <- Ereg in Hx. cbn in Hx. by rewrite lookup_fmap, lookup_insert_eq in Hx. }
  pose proof Hx as Hx'. rewrite <- Ereg in Hx'. cbn in Hx'.
  destruct (publish_lookup reg token r _ x Hl Hx') as (y & _ & _ & _ & [(_ & _ & Et & _)|[? _]]);
    [|done].
  destruct (steps_run ops' reg' Hw') as [Hgen Hsteps].
  destruct (Hsteps _ x Hx) as (z & Hz & Hs). pose proof (rs_epoch _ _ Hs) as Hep.
  rewrite Et in Hep. cbn in Hep.
  assert (Hst : reg_record (reg_run reg' ops') token = Err OBE_Stale).
  { unfold reg_record. rewrite bool_decide_eq_false_2.
    - rewrite Hz. cbn. rewrite bool_decide_eq_true_2; [done|]. intros Hzt. rewrite Hzt in Hep. lia.
    - rewrite Hgen, <- Ereg. cbn. congruence. }
  split; [done|]. unfold reg_validate_active, walk_depth. cbn [validate_walk]. by rewrite Hst.
Qed.

(** at most one caller is told to send the protocol close of an object: after
    [begin_close] returned [OwnProtocolClose] for it, no later call does, with the same
    token or with any other token for the same object. *)
Lemma one_owner_of_the_protocol_close g ops token reg' ops' token' :
  reg_begin_close (reg_run (reg_new g) ops) token = (reg', Ok CD_OwnProtocolClose) ->
  ot_id token' = ot_id token ->
  (reg_begin_close (reg_run reg' ops') token').2 <> Ok CD_OwnProtocolClose.
Proof.
  intros Hc Hid. pose proof (reachable_wf g ops) as Hreg. set (reg := reg_run _ ops) in *.
  pose proof (wf_begin_close reg token Hreg) as Hw'. rewrite Hc in Hw'. cbn [fst] in Hw'.
  assert (Hx : exists x, reg_records reg' !! ot_id token = Some x /\ ob_phase x = Ph_Closing).
  { unfold reg_begin_close in Hc. destruct (reg_record reg token) as [r|] eqn:Hr; [|done].
    destruct (ob_phase r); simplify_eq; cbn; rewrite lookup_insert_eq; by eexists. }
  destruct Hx as (x & Hx & Hph). destruct (steps_run ops' reg' Hw') as [_ Hsteps].
  destruct (Hsteps _ x Hx) as (z & Hz & Hs). pose proof (rs_closing _ _ Hs Hph) as Hend.
  unfold reg_begin_close. destruct (reg_record _ token') as [w|] eqn:Hw; [|done].
  apply reg_record_Ok in Hw as (_ & Hw & _). rewrite Hid, Hz in Hw. injection Hw as <-.
  destruct Hend as [-> | He]; [done|]. by destruct (ob_phase z).
Qed.
End registry_runs.

(** ** Order independence and completeness of revocation *)

Section revocation.

Lemma NoDup_reports {h : HashOrder Z} reg (below : ObjectRecord -> bool) :
  registry_wf reg ->
  NoDup (effect_id <$> omap report (filter (fun r => below r) (hash_values (reg_records reg)))).
Proof.
  intros Hreg. eapply (sublist_NoDup _ (hash_keys (reg_records reg))); [apply NoDup_hash_keys|].
  rewrite <- (hash_values_ids reg Hreg). generalize (hash_values (reg_records reg)) as l.
  induction l as [|r l IH]; [done|]. rewrite filter_cons. case_decide; cbn.
  - unfold report. destruct (phase_ended (ob_phase r)); [by apply sublist_cons|by apply sublist_skip].
  - by apply sublist_cons.
Qed.

Lemma sort_by_id_perm l1 l2 :
  NoDup (effect_id <$> l1) -> l1 ≡ₚ l2 -> sort_by_id l1 = sort_by_id l2.
Proof.
  intros Hnd Hp. unfold sort_by_id.
  assert (Transitive effect_le) by (intros a b c; unfold effect_le; lia).
  assert (Total effect_le) by (intros a b; unfold effect_le; lia).
  apply (StronglySorted_unique_strong effect_le).
  - intros x1 x2 H1 H2 Hle Hle'. rewrite merge_sort_Permutation in H1, H2. rewrite <- Hp in H2.
    apply list_elem_of_lookup in H1 as [i Hi], H2 as [j Hj].
    assert (i = j) as ->; [|congruence].
    apply (NoDup_lookup (effect_id <$> l1) i j (effect_id x1)); [done|..];
      rewrite list_lookup_fmap; [by rewrite Hi|]. rewrite Hj. cbn. f_equal.
    unfold effect_le in *. lia.
  - by apply StronglySorted_merge_sort.
  - by apply StronglySorted_merge_sort.
  - by rewrite !merge_sort_Permutation.
Qed.

Lemma hash_values_perm (h1 h2 : HashOrder Z) (m : gmap Z ObjectRecord) :
  hash_values (HashOrder0 := h1) m ≡ₚ hash_values (HashOrder0 := h2) m.
Proof.
  unfold hash_values. apply omap_Permutation.
  by rewrite (hash_keys_perm (HashOrder := h1)), (hash_keys_perm (HashOrder := h2)).
Qed.

(** Revoking below an object in any two orders: the same records, the same effects up
    to rearrangement. *)
Lemma revoke_order (h1 h2 : HashOrder Z) reg t :
  registry_wf reg ->
  (reg_revoke_descendants (HashOrder0 := h1) reg t).1 =
    (reg_revoke_descendants (HashOrder0 := h2) reg t).1 /\
  sort_by_id (reg_revoke_descendants (HashOrder0 := h1) reg t).2 =
    sort_by_id (reg_revoke_descendants (HashOrder0 := h2) reg t).2.
Proof.
  intros Hreg.
  destruct (reg_revoke_descendants_eq (HashOrder0 := h1) reg t Hreg) as (m1 & -> & H1).
  destruct (reg_revoke_descendants_eq (HashOrder0 := h2) reg t Hreg) as (m2 & -> & H2).
  cbn [fst snd]. split.
  - assert (m1 = m2) as -> by (apply map_eq; intros id; by rewrite H1, H2). done.
  - apply sort_by_id_perm; [by apply NoDup_reports|].
    apply omap_Permutation. by rewrite (hash_values_perm h1 h2).
Qed.

Lemma ancestor_rank reg id r a ar :
  registry_wf reg -> reg_records reg !! id = Some r -> reg_records reg !! ot_id a = Some ar ->
  ancestor_of reg (ob_token r) a -> (kind_rank (ob_kind ar) < kind_rank (ob_kind r))%nat.
Proof.
  intros Hreg Hr Har Hanc. remember (ob_token r) as t eqn:Et. revert id r Hr Et.
  induction Hanc as [t p Hp|t p a Hp _ IH]; intros id r Hr ->;
    rewrite (parent_at_record reg id r Hreg Hr) in Hp;
    destruct (parent_step reg id r p Hreg Hr Hp) as (pr & Hpr & Htok & _ & Hrk).
  - rewrite Hpr in Har. injection Har as <-. lia.
  - specialize (IH Har (ot_id p) pr Hpr (eq_sym Htok)). lia.
Qed.

(** No object is below itself. *)
Lemma not_below_itself reg t r :
  registry_wf reg -> reg_record reg t = Ok r -> is_below reg t r = false.
Proof.
  intros Hreg (_ & Hl & Ht)%reg_record_Ok. unfold is_below.
  destruct (reg_is_descendant reg (ob_token r) t) eqn:E; [|done].
  apply (reg_is_descendant_spec reg _ r t Hreg Hl) in E.
  pose proof (ancestor_rank reg _ r t r Hreg Hl Hl E). lia.
Qed.

(** closing an object ends everything below it and nothing else. Its own record is
    closed, each record below it that had not ended is revoked and reported exactly
    once, in the order of the identities, and every other record is untouched. *)
Lemma complete_close_ends_subtree `{!HashOrder Z} g ops token reg' effects :
  let reg := reg_run (reg_new g) ops in
  reg_complete_close reg token = (reg', Ok effects) ->
  (forall id r, reg_records reg !! id = Some r ->
     reg_records reg' !! id = Some
       (if bool_decide (ob_token r = token) then r <| ob_phase := Ph_Closed |>
        else if reg_is_descendant reg (ob_token r) token then revoked r else r)) /\
  (forall e, e ∈ effects <-> exists id r, reg_records reg !! id = Some r /\
     ancestor_of reg (ob_token r) token /\ phase_ended (ob_phase r) = false /\
     e = OB_Revoked (ob_token r)) /\
  NoDup (effect_id <$> effects) /\ StronglySorted effect_le effects.
Proof.
  cbv zeta. intros Hc. pose proof (reachable_wf g ops) as Hreg. set (reg := reg_run _ ops) in *.
  unfold reg_complete_close in Hc. destruct (reg_record reg token) as [r0|] eqn:Hr0; [|done].
  pose proof (not_below_itself reg token r0 Hreg Hr0) as Hself.
  pose proof (NoDup_reports reg (is_below reg token) Hreg) as Hnd.
  destruct (reg_revoke_descendants_eq reg token Hreg) as (m & E & Hm). rewrite E in Hc.
  pose proof Hr0 as (Hg & Hl0 & Ht0)%reg_record_Ok.
  assert (Hr1 : reg_record (reg <| reg_records := m |>) token = Ok r0).
  { apply reg_record_Ok. cbn. split; [done|]. by rewrite Hm, Hl0; cbn; rewrite Hself. }
  rewrite Hr1 in Hc. injection Hc as <- <-. split_and!.
  - intros id r Hr. cbn. pose proof (rec_id _ _ _ (reg_wf_records _ Hreg id r Hr)) as Hid.
    destruct (decide (ot_id token = id)) as [<-|Hne].
    + rewrite lookup_insert_eq. rewrite Hl0 in Hr. injection Hr as <-.
      by rewrite bool_decide_eq_true_2.
    + rewrite lookup_insert_ne, Hm, Hr by done. cbn.
      rewrite bool_decide_eq_false_2; [done|]. congruence.
  - intros e. unfold sort_by_id. rewrite merge_sort_Permutation, list_elem_of_omap.
    setoid_rewrite list_elem_of_filter. setoid_rewrite elem_of_hash_values. unfold report. split.
    + intros (r & [Hb [id Hr]] & He). exists id, r. split; [done|].
      destruct (phase_ended (ob_phase r)); [done|injection He as <-]. split; [|done].
      apply (reg_is_descendant_spec reg id r _ Hreg Hr). unfold is_below in Hb.
      by destruct (reg_is_descendant _ _ _).
    + intros (id & r & Hr & Hanc & Hend & ->). exists r. rewrite Hend. split; [|done].
      split; [|eauto]. unfold is_below. by rewrite (proj2 (reg_is_descendant_spec reg id r token Hreg Hr) Hanc).
  - unfold sort_by_id. by rewrite merge_sort_Permutation.
  - apply StronglySorted_merge_sort; intros a b; unfold effect_le; try intros c; lia.
Qed.

(** closing an object, replacing it with its descendants revoked, and losing the
    generation do not depend on the hash map's iteration order: both the registry and
    the reported effects are the same for any two orders. *)
Lemma revocation_order_independent (h1 h2 : HashOrder Z) g ops token :
  let reg := reg_run (HashOrder0 := h1) (reg_new g) ops in
  reg_complete_close (HashOrder0 := h1) reg token =
    reg_complete_close (HashOrder0 := h2) reg token /\
  reg_publish_replacement_revoking_descendants (HashOrder0 := h1) reg token =
    reg_publish_replacement_revoking_descendants (HashOrder0 := h2) reg token /\
  reg_lose_generation (HashOrder0 := h1) reg = reg_lose_generation (HashOrder0 := h2) reg.
Proof.
  cbv zeta. pose proof (reachable_wf (HashOrder0 := h1) g ops) as Hreg.
  set (reg := reg_run _ ops) in *. clearbody reg.
  destruct (revoke_order h1 h2 reg token Hreg) as [E1 E2].
  unfold reg_complete_close, reg_publish_replacement_revoking_descendants, reg_lose_generation.
  destruct (reg_revoke_descendants (HashOrder0 := h1) reg token) as [r1 e1].
  destruct (reg_revoke_descendants (HashOrder0 := h2) reg token) as [r2 e2].
  cbn [fst snd] in *. subst r2. rewrite E2. split_and!; [done..|]. f_equal.
  apply sort_by_id_perm.
  - pose proof (NoDup_reports (h := h1) reg (fun _ => true) Hreg) as Hnd.
    assert (Hall : forall l : list ObjectRecord, filter (fun _ => true) l = l).
    { induction l as [|x l IH]; [done|]. by rewrite filter_cons_True, IH. }
    by rewrite Hall in Hnd.
  - apply omap_Permutation. apply (hash_values_perm h1 h2).
Qed.
End revocation.

(** ** Witnesses *)

#[local] Existing Instance canonical_order.

(** A connection with a session, a share and a resource. *)
Definition sample_tree : list RegistryOp :=
  [RO_CreateChild (mkToken 7 0 0) OK_Session; RO_CreateChild (mkToken 7 1 0) OK_Share;
   RO_CreateChild (mkToken 7 2 0) OK_Resource].

Lemma replaced_token_stays_stale_witness :
  exists reg', reg_record (reg_run reg' [RO_BeginRecovery (mkToken 7 1 1)]) (mkToken 7 1 0)
    = Err OBE_Stale.
Proof.
  eexists. refine (proj1 (proj2 (replaced_token_stays_stale 7
    (sample_tree ++ [RO_BeginRecovery (mkToken 7 1 0)]) (mkToken 7 1 0) _ _ _ _))).
  vm_compute. reflexivity.
Defined.

