(* ===== verification/ObjectQueue.v ===== *)
(** The bounded queue of commands that wait for a recovering object
    (crates/smb/src/runtime/object_state.rs, [RecoveryQueue]). *)
From S2P Require Import Prelude Clock Reducer ObjectState.
Local Open Scope Z_scope.

(** ** The queue's operations as one step function *)

Inductive QueueOp :=
| QO_Enqueue (dependency : ObjectToken) (deadline : option MonotonicTime)
| QO_Cancel (id : Z)
| QO_AdvanceTime (now : MonotonicTime)
| QO_ReleaseReady (registry : ObjectRegistry)
| QO_PublishReplacement (effect : ObjectEffect)
| QO_ReleaseDependency (dependency : ObjectToken)
| QO_FailAll
| QO_DrainAncestor (registry : ObjectRegistry) (ancestor : ObjectToken).

Definition outcome_id (o : RecoveryWaitOutcome) : Z :=
  match o with RW_Ready id | RW_Cancelled id | RW_TimedOut id | RW_AncestorFailed id => id end.

(** What a call hands out: the identity it enqueued and the outcomes it published. *)
Definition rq_apply (q : RecoveryQueue) (op : QueueOp)
    : RecoveryQueue * (list Z * list RecoveryWaitOutcome) :=
  match op with
  | QO_Enqueue dependency deadline =>
      match rq_enqueue q dependency deadline with
      | (q, Ok id) => (q, ([id], []))
      | (q, Err _) => (q, ([], []))
      end
  | QO_Cancel id => let '(q, o) := rq_cancel q id in (q, ([], option_list o))
  | QO_AdvanceTime now => let '(q, os) := rq_advance_time q now in (q, ([], os))
  | QO_ReleaseReady registry => let '(q, os) := rq_release_ready q registry in (q, ([], os))
  | QO_PublishReplacement effect => (rq_publish_replacement q effect, ([], []))
  | QO_ReleaseDependency dependency =>
      let '(q, os) := rq_release_dependency q dependency in (q, ([], os))
  | QO_FailAll => let '(q, os) := rq_fail_all q in (q, ([], os))
  | QO_DrainAncestor registry ancestor =>
      let '(q, os) := rq_drain_ancestor q registry ancestor in (q, ([], os))
  end.

Fixpoint rq_run (q : RecoveryQueue) (ops : list QueueOp)
    : RecoveryQueue * (list Z * list RecoveryWaitOutcome) :=
  match ops with
  | [] => (q, ([], []))
  | op :: ops =>
      let '(q, (ids, os)) := rq_apply q op in
      let '(q, (ids', os')) := rq_run q ops in
      (q, (ids ++ ids', os ++ os'))
  end.

(** ** Lemmas *)

Lemma Forall_sublist {A} (P : A -> Prop) l l' : l' `sublist_of` l -> Forall P l -> Forall P l'.
Proof.
  intros Hsub. rewrite !Forall_forall. intros H x Hx. apply H. by eapply elem_of_sublist.
Qed.

Abbreviation wait_ids q := (rw_id <$> rq_waits q).

(** Each [retain] splits the queue into the waits it keeps, in order, and the waits
    it reports, in order. *)
Lemma retain_split leaves report waits :
  (forall id, outcome_id (report id) = id) ->
  let '(kept, outcomes) := retain leaves report waits in
  kept = filter (fun w => negb (leaves w)) waits /\
  outcome_id <$> outcomes = rw_id <$> filter (fun w => leaves w) waits.
Proof.
  intros Hid. induction waits as [|w waits IH]; [done|]. cbn [retain].
  destruct (retain leaves report waits) as [kept outcomes]. destruct IH as [-> IH].
  rewrite !filter_cons. destruct (leaves w); cbn; [|done]. split; [done|]. by rewrite IH, Hid.
Qed.

Lemma filter_split_perm {A} (p : A -> bool) (l : list A) :
  filter (fun a => negb (p a)) l ++ filter (fun a => p a) l ≡ₚ l.
Proof.
  induction l as [|a l IH]; [done|]. rewrite !filter_cons. destruct (p a).
  - rewrite decide_False, decide_True by (cbn; auto). by rewrite <- Permutation_middle, IH.
  - rewrite decide_True, decide_False by (cbn; auto). cbn. by rewrite IH.
Qed.

Record queue_wf (q : RecoveryQueue) : Prop := {
  qw_bound : Z.of_nat (length (rq_waits q)) <= Z.max 0 (rq_capacity q);
  qw_sorted : StronglySorted Z.lt (wait_ids q);
  qw_next : forall n, rq_next_id q = Some n -> 0 <= n <= u64_max /\ Forall (fun id => id < n) (wait_ids q);
  qw_done : rq_next_id q = None -> Forall (fun id => id <= u64_max) (wait_ids q)
}.

(** A step that only drops waits, in order, and reports what it drops. *)
Record drops (q q' : RecoveryQueue) (os : list RecoveryWaitOutcome) : Prop := {
  dr_capacity : rq_capacity q' = rq_capacity q;
  dr_next : rq_next_id q' = rq_next_id q;
  dr_order : wait_ids q' `sublist_of` wait_ids q;
  dr_perm : wait_ids q ≡ₚ wait_ids q' ++ (outcome_id <$> os)
}.

Lemma rq_retain_drops q leaves report :
  (forall id, outcome_id (report id) = id) ->
  drops q (rq_retain q leaves report).1 (rq_retain q leaves report).2.
Proof.
  intros Hid. unfold rq_retain. pose proof (retain_split leaves report (rq_waits q) Hid) as H.
  destruct (retain leaves report (rq_waits q)) as [kept os]. destruct H as [-> Hos].
  split; cbn; try done.
  - apply fmap_sublist, sublist_filter.
  - by rewrite Hos, <- fmap_app, filter_split_perm.
Qed.

Lemma wait_position_split id waits i :
  wait_position id waits = Some i ->
  exists l1 w l2, waits = l1 ++ w :: l2 /\ length l1 = i /\ rw_id w = id.
Proof.
  revert i. induction waits as [|w waits IH]; intros i Hi; cbn in Hi; [done|].
  case_bool_decide as Hw.
  - simplify_eq. by exists [], w, waits.
  - destruct (wait_position id waits) as [j|]; [|done]. cbn in Hi. simplify_eq.
    destruct (IH j eq_refl) as (l1 & w' & l2 & -> & <- & Hid). by exists (w :: l1), w', l2.
Qed.

Lemma rq_cancel_drops q id :
  drops q (rq_cancel q id).1 (option_list (rq_cancel q id).2).
Proof.
  unfold rq_cancel. destruct (wait_position id (rq_waits q)) as [i|] eqn:Hp.
  - apply wait_position_split in Hp as (l1 & w & l2 & E & <- & <-).
    split; cbn; try done; rewrite E, delete_middle, !fmap_app; cbn.
    + apply sublist_app; [done|]. by apply sublist_cons.
    + by rewrite <- app_assoc, (Permutation_app_comm (rw_id <$> l2)).
  - split; cbn; try done. by rewrite app_nil_r.
Qed.

Lemma rq_fail_all_drops q : drops q (rq_fail_all q).1 (rq_fail_all q).2.
Proof.
  unfold rq_fail_all. split; cbn; try done.
  - apply sublist_nil_l.
  - rewrite <- list_fmap_compose. done.
Qed.

Lemma queue_wf_drops q q' os : drops q q' os -> queue_wf q -> queue_wf q'.
Proof.
  intros [D1 D2 D3 D4] [W1 W2 W3 W4].
  assert (Hin : forall P : Z -> Prop, Forall P (wait_ids q) -> Forall P (wait_ids q')).
  { intros P. by apply Forall_sublist. }
  split; rewrite ?D1, ?D2; auto.
  - pose proof (sublist_length _ _ D3) as Hlen. rewrite !length_fmap in Hlen. lia.
  - clear -D3 W2. revert W2. generalize (wait_ids q') (wait_ids q) D3. intros l' l Hsub.
    induction Hsub as [|x l' l Hsub IH|x l' l Hsub IH]; intros W; [constructor|..];
      apply StronglySorted_inv in W as [W Hx]; [constructor; [auto|by eapply Forall_sublist]|auto].
  - intros n Hn. destruct (W3 n Hn). auto.
Qed.

Lemma drops_refl q : drops q q [].
Proof. split; try done. by rewrite app_nil_r. Qed.

(** Every call either appends one fresh wait or drops waits and reports them. *)
Lemma rq_apply_cases q op :
  let '(q', (ids, os)) := rq_apply q op in
  (exists n, ids = [n] /\ os = [] /\ rq_next_id q = Some n /\
     Z.of_nat (length (rq_waits q)) < rq_capacity q /\
     rq_capacity q' = rq_capacity q /\ rq_next_id q' = checked_add u64_max n 1 /\
     wait_ids q' = wait_ids q ++ [n]) \/
  (ids = [] /\ drops q q' os).
Proof.
  assert (Hret : forall leaves report, (forall id, outcome_id (report id) = id) ->
    let '(q', os) := rq_retain q leaves report in drops q q' os).
  { intros leaves report Hid. pose proof (rq_retain_drops q leaves report Hid).
    by destruct (rq_retain q leaves report). }
  destruct op; cbn [rq_apply].
  - unfold rq_enqueue. case_bool_decide as Hfull; [right; split; [done|apply drops_refl]|].
    destruct (rq_next_id q) as [n|] eqn:Hn; [|right; split; [done|apply drops_refl]].
    left. exists n. cbn. rewrite fmap_app. repeat split; lia.
  - pose proof (rq_cancel_drops q id). by destruct (rq_cancel q id); right.
  - specialize (Hret (fun w => match rw_deadline w with
      | Some deadline => bool_decide (deadline <= now) | None => false end) RW_TimedOut).
    unfold rq_advance_time. destruct (rq_retain _ _ _). right. auto.
  - specialize (Hret (fun w => is_ok (reg_validate_active registry (rw_dependency w))) RW_Ready).
    unfold rq_release_ready. destruct (rq_retain _ _ _). right. auto.
  - right. split; [done|]. destruct effect; [apply drops_refl|].
    assert (E : rw_id <$> ((fun w => if bool_decide (rw_dependency w = previous)
      then w <| rw_dependency := replacement |> else w) <$> rq_waits q) = wait_ids q).
    { rewrite <- list_fmap_compose. apply list_fmap_ext. intros i w _. cbn. by case_bool_decide. }
    split; cbn; rewrite ?E, ?app_nil_r; done.
  - specialize (Hret (fun w => bool_decide (rw_dependency w = dependency)) RW_Ready).
    unfold rq_release_dependency. destruct (rq_retain _ _ _). right. auto.
  - pose proof (rq_fail_all_drops q). by destruct (rq_fail_all q); right.
  - specialize (Hret (fun w => bool_decide (rw_dependency w = ancestor) ||
      reg_is_descendant registry (rw_dependency w) ancestor) RW_AncestorFailed).
    unfold rq_drain_ancestor. destruct (rq_retain _ _ _). right. auto.
Qed.

Lemma rq_apply_wf q op : queue_wf q -> queue_wf (rq_apply q op).1.
Proof.
  intros Hq. pose proof (rq_apply_cases q op) as Hcase.
  destruct (rq_apply q op) as [q' [ids os]]. cbn [fst].
  destruct Hcase as [(n & _ & _ & Hn & Hlen & Ec & En & Ew)|[_ D]]; [|by eapply queue_wf_drops].
  destruct Hq as [W1 W2 W3 W4]. destruct (W3 n Hn) as [Hr Hlt].
  assert (Hl : length (rq_waits q') = S (length (rq_waits q))).
  { rewrite <- (length_fmap rw_id (rq_waits q')), Ew, length_app, length_fmap. cbn. lia. }
  split; rewrite ?Ew, ?Ec, ?En, ?Hl.
  - lia.
  - apply StronglySorted_app_2; [|done|by repeat constructor].
    intros x y Hx Hy%list_elem_of_singleton. rewrite Forall_forall in Hlt. subst y. by apply Hlt.
  - intros m [Hm ->]%checked_add_Some. split; [lia|]. rewrite Forall_app.
    split; [eapply Forall_impl; [exact Hlt|]; cbn; lia|]. repeat constructor. lia.
  - intros _. rewrite Forall_app.
    split; [eapply Forall_impl; [exact Hlt|]; cbn; lia|]. repeat constructor. lia.
Qed.

Lemma rq_run_wf ops q : queue_wf q -> queue_wf (rq_run q ops).1.
Proof.
  revert q. induction ops as [|op ops IH]; intros q Hq; [done|]. cbn.
  pose proof (rq_apply_wf q op Hq) as Hq'. destruct (rq_apply q op) as [q1 [ids os]].
  specialize (IH q1 Hq'). by destruct (rq_run q1 ops) as [q2 [ids' os']].
Qed.

(** The identities a run hands out are fresh and increasing. *)
Lemma rq_run_ids ops : forall q, queue_wf q ->
  wait_ids q ++ (rq_run q ops).2.1 ≡ₚ
    wait_ids (rq_run q ops).1 ++ (outcome_id <$> (rq_run q ops).2.2) /\
  StronglySorted Z.lt (rq_run q ops).2.1 /\
  (forall n, rq_next_id q = Some n -> Forall (fun id => n <= id) (rq_run q ops).2.1) /\
  (rq_next_id q = None -> (rq_run q ops).2.1 = []).
Proof.
  induction ops as [|op ops IH]; intros q Hq; cbn.
  { rewrite !app_nil_r. split_and!; try done. constructor. }
  pose proof (rq_apply_wf q op Hq) as Hq'. pose proof (rq_apply_cases q op) as Hcase.
  destruct (rq_apply q op) as [q1 [ids os]]. cbn [fst] in Hq'.
  destruct (IH q1 Hq') as (I1 & I2 & I3 & I4).
  destruct (rq_run q1 ops) as [q2 [ids' os']]. cbn [fst snd] in *.
  destruct Hcase as [(n & -> & -> & Hn & Hlen & Ec & En & Ew)|[-> [D1 D2 D3 D4]]].
  - assert (Hge : Forall (fun id => n < id) ids').
    { destruct (checked_add u64_max n 1) as [m|] eqn:Hm; [|by rewrite I4].
      pose proof Hm as [_ ->]%checked_add_Some.
      eapply Forall_impl; [by apply I3|]. cbn. lia. }
    split_and!.
    + rewrite Ew, <- app_assoc in I1. exact I1.
    + cbn. by constructor.
    + intros m Hm. rewrite Hn in Hm. injection Hm as <-. constructor; [lia|].
      eapply Forall_impl; [exact Hge|]. cbn. lia.
    + congruence.
  - rewrite D2 in *. split_and!; try done. cbn.
    rewrite D4, fmap_app, <- app_assoc, (Permutation_app_comm (outcome_id <$> os)), app_assoc, I1.
    by rewrite <- app_assoc, (Permutation_app_comm (outcome_id <$> os')).
Qed.

Lemma rq_run_capacity ops : forall q, rq_capacity (rq_run q ops).1 = rq_capacity q.
Proof.
  induction ops as [|op ops IH]; intros q; [done|]. cbn.
  pose proof (rq_apply_cases q op) as Hcase. destruct (rq_apply q op) as [q1 [ids os]].
  specialize (IH q1). destruct (rq_run q1 ops) as [q2 [ids' os']]. cbn in *. rewrite IH.
  by destruct Hcase as [(n & _ & _ & _ & _ & ? & _)|[_ []]].
Qed.

Lemma queue_wf_new capacity : queue_wf (rq_new capacity).
Proof.
  split; cbn; try done; [lia|constructor|]. intros n [= <-]. split; [ints|constructor].
Qed.

(** Over any run of the queue, every wait that was enqueued is either still waiting
    or was reported exactly once, with one outcome; the waits left are in arrival order
    and never more than the capacity. *)
Lemma recovery_queue_resolves_each_wait_once capacity ops :
  let '(q, (enqueued, outcomes)) := rq_run (rq_new capacity) ops in
  wait_ids q ++ (outcome_id <$> outcomes) ≡ₚ enqueued /\
  NoDup (outcome_id <$> outcomes) /\
  StronglySorted Z.lt (wait_ids q) /\
  Z.of_nat (length (rq_waits q)) <= Z.max 0 capacity.
Proof.
  pose proof (rq_run_ids ops _ (queue_wf_new capacity)) as (I1 & I2 & _).
  pose proof (rq_run_wf ops _ (queue_wf_new capacity)) as [W1 W2 _ _].
  pose proof (rq_run_capacity ops (rq_new capacity)) as Hcap.
  destruct (rq_run (rq_new capacity) ops) as [q [ids os]]. cbn [fst snd] in *.
  rewrite Hcap in W1. split_and!; [by rewrite <- I1| |done|done].
  assert (Hnd : NoDup ids).
  { clear -I2. induction I2 as [|x l _ IH Hx]; constructor; [|done].
    intros Hin. rewrite Forall_forall in Hx. specialize (Hx x Hin). lia. }
  cbn in I1. rewrite I1 in Hnd. by apply NoDup_app in Hnd as (_ & _ & ?).
Qed.
