(* ===== verification/Recovery.v ===== *)
(** The connection recovery policy (crates/smb/src/runtime/recovery.rs).

    [rc_reduce] is [RecoveryCoordinator::reduce]: it decides when the next connection
    attempt starts, when one succeeded and when recovery is over. *)
From S2P Require Import Prelude Clock Reducer.
Local Open Scope Z_scope.

(** ** Data *)

Record RecoveryPolicy := mkPolicy {
  rp_max_attempts : Z;
  rp_attempt_timeout : Duration;
  rp_total_timeout : Duration;
  rp_initial_backoff : Duration;
  rp_maximum_backoff : Duration;
  rp_maximum_jitter : Duration;
  rp_max_waiting_operations : Z
}.

Definition rp_disabled : RecoveryPolicy := mkPolicy 0 0 0 0 0 0 0.

Inductive RecoveryState :=
| RS_Connected (generation : GenerationId)
| RS_Waiting (attempt : Z) (wake_at total_deadline : MonotonicTime)
| RS_Connecting (attempt : Z) (attempt_deadline total_deadline : MonotonicTime)
| RS_Failed
| RS_Closed.

Inductive RecoveryEvent :=
| RCE_TransportLost (generation : GenerationId) (now : MonotonicTime)
| RCE_Wake (now : MonotonicTime)
| RCE_AttemptSucceeded (generation : GenerationId)
| RCE_AttemptFailed (now : MonotonicTime) (jitter : Duration)
| RCE_Close.

Inductive RecoveryEffect :=
| RCF_ScheduleAttempt (attempt : Z) (at_ : MonotonicTime)
| RCF_StartAttempt (attempt : Z) (deadline : MonotonicTime)
| RCF_PublishGeneration (generation : GenerationId)
| RCF_RecoveryFailed
| RCF_Closed.

Record RecoveryCoordinator := mkCoordinator {
  rc_policy : RecoveryPolicy;
  rc_state : RecoveryState
}.

#[export] Instance eta_RecoveryCoordinator : Eta RecoveryCoordinator := fun c =>
  mkCoordinator (rc_policy c) (rc_state c).

(** ** Operations *)

Definition rp_backoff (p : RecoveryPolicy) (failed_attempt : Z) : Duration :=
  if bool_decide (failed_attempt = 0) then 0
  else
    let shift := Z.min (saturating_sub failed_attempt 1) 31 in
    Z.min (duration_saturating_mul (rp_initial_backoff p) (Z.shiftl 1 shift))
      (rp_maximum_backoff p).

Definition rc_new (generation : GenerationId) (policy : RecoveryPolicy) : RecoveryCoordinator :=
  mkCoordinator policy (RS_Connected generation).

Definition rc_schedule (c : RecoveryCoordinator) (attempt : Z) (now total_deadline : MonotonicTime)
    : RecoveryCoordinator * option RecoveryEffect :=
  let at_ := Z.min (time_add now (rp_backoff (rc_policy c) (saturating_sub attempt 1)))
               total_deadline in
  (c <| rc_state := RS_Waiting attempt at_ total_deadline |>,
   Some (RCF_ScheduleAttempt attempt at_)).

Definition rc_fail (c : RecoveryCoordinator) : RecoveryCoordinator * option RecoveryEffect :=
  (c <| rc_state := RS_Failed |>, Some RCF_RecoveryFailed).

Definition rc_reduce (c : RecoveryCoordinator) (event : RecoveryEvent)
    : RecoveryCoordinator * option RecoveryEffect :=
  let policy := rc_policy c in
  match rc_state c, event with
  | RS_Closed, _ | RS_Failed, _ => (c, None)
  | _, RCE_Close => (c <| rc_state := RS_Closed |>, Some RCF_Closed)
  | RS_Connected active, RCE_TransportLost generation now =>
      if bool_decide (active = generation) then
        if bool_decide (rp_max_attempts policy = 0)
        then (c <| rc_state := RS_Failed |>, Some RCF_RecoveryFailed)
        else rc_schedule c 1 now (time_add now (rp_total_timeout policy))
      else (c, None)
  | RS_Waiting attempt wake_at total_deadline, RCE_Wake now =>
      if bool_decide (now >= wake_at) then
        if bool_decide (now >= total_deadline) then rc_fail c
        else
          let deadline := Z.min (time_add now (rp_attempt_timeout policy)) total_deadline in
          (c <| rc_state := RS_Connecting attempt deadline total_deadline |>,
           Some (RCF_StartAttempt attempt deadline))
      else (c, None)
  | RS_Connecting _ _ _, RCE_AttemptSucceeded generation =>
      (c <| rc_state := RS_Connected generation |>, Some (RCF_PublishGeneration generation))
  | RS_Connecting attempt _ total_deadline, RCE_AttemptFailed now jitter =>
      if bool_decide (attempt >= rp_max_attempts policy) || bool_decide (now >= total_deadline)
      then rc_fail c
      else rc_schedule c (wrapping_add u32_max attempt 1)
             (time_add now (Z.min jitter (rp_maximum_jitter policy))) total_deadline
  | _, _ => (c, None)
  end.

Fixpoint rc_run (c : RecoveryCoordinator) (events : list RecoveryEvent)
    : RecoveryCoordinator * list RecoveryEffect :=
  match events with
  | [] => (c, [])
  | e :: events =>
      let '(c, eff) := rc_reduce c e in
      let '(c, effs) := rc_run c events in
      (c, option_list eff ++ effs)
  end.

(** ** The backoff *)

Definition policy_ok (p : RecoveryPolicy) : Prop :=
  in_range u32_max (rp_max_attempts p) /\ duration_ok (rp_attempt_timeout p) /\
  duration_ok (rp_total_timeout p) /\ duration_ok (rp_initial_backoff p) /\
  duration_ok (rp_maximum_backoff p) /\ duration_ok (rp_maximum_jitter p).

Lemma duration_saturating_mul_eq d k :
  duration_saturating_mul d k = Z.min (d * k) duration_max.
Proof. unfold duration_saturating_mul. case_bool_decide; lia. Qed.

Lemma rp_backoff_eq p n :
  policy_ok p -> 1 <= n ->
  rp_backoff p n =
  Z.min (rp_initial_backoff p * 2 ^ Z.min (n - 1) 31) (rp_maximum_backoff p).
Proof.
  intros (_ & _ & _ & _ & Hmax & _) Hn. unfold rp_backoff.
  rewrite bool_decide_eq_false_2 by lia. cbv zeta.
  rewrite duration_saturating_mul_eq, Z.shiftl_1_l.
  replace (Z.min (saturating_sub n 1) 31) with (Z.min (n - 1) 31) by ints.
  unfold duration_ok, in_range in Hmax. lia.
Qed.

(** the delay before a retry is zero for the first attempt, doubles from the initial
    backoff with each failed attempt, never shrinks, and never exceeds the maximum;
    the shift amount stays below the width of the multiplier. *)
Lemma backoff_doubles_up_to_maximum p n :
  policy_ok p -> 0 <= n ->
  rp_backoff p 0 = 0 /\
  0 <= rp_backoff p n <= rp_maximum_backoff p /\
  rp_backoff p n <= rp_backoff p (n + 1) /\
  (1 <= n <= 31 -> rp_backoff p (n + 1) =
     Z.min (2 * (rp_initial_backoff p * 2 ^ (n - 1))) (rp_maximum_backoff p)) /\
  (32 <= n -> rp_backoff p n = rp_backoff p 32).
Proof.
  intros Hp Hn. pose proof Hp as (_ & _ & _ & Hi & Hmax & _).
  unfold duration_ok, in_range in Hi, Hmax.
  assert (H0 : rp_backoff p 0 = 0) by reflexivity.
  assert (Hpos : forall k, 0 <= rp_initial_backoff p * 2 ^ k).
  { intros k. apply Z.mul_nonneg_nonneg; [lia|apply Z.pow_nonneg; lia]. }
  split; [done|]. split; [|split; [|split]].
  - destruct (decide (n = 0)) as [->|Hne]; [rewrite H0; lia|].
    rewrite rp_backoff_eq by (done || lia). specialize (Hpos (Z.min (n - 1) 31)). lia.
  - rewrite (rp_backoff_eq p (n + 1)) by (done || lia).
    destruct (decide (n = 0)) as [->|Hne].
    { rewrite H0. specialize (Hpos (Z.min (0 + 1 - 1) 31)). lia. }
    rewrite (rp_backoff_eq p n) by (done || lia).
    assert (2 ^ Z.min (n - 1) 31 <= 2 ^ Z.min (n + 1 - 1) 31) by (apply Z.pow_le_mono_r; lia).
    apply Z.min_le_compat_r, Z.mul_le_mono_nonneg_l; lia.
  - intros Hr. rewrite rp_backoff_eq by (done || lia).
    replace (Z.min (n + 1 - 1) 31) with (Z.succ (n - 1)) by lia.
    rewrite Z.pow_succ_r by lia. f_equal. ring.
  - intros Hr. rewrite !rp_backoff_eq by (done || lia). do 3 f_equal. lia.
Qed.

(** ** Bounds on every recovery *)

Definition event_times_ok (e : RecoveryEvent) : Prop :=
  match e with
  | RCE_TransportLost _ now | RCE_Wake now => time_ok now
  | RCE_AttemptFailed now jitter => time_ok now /\ duration_ok jitter
  | _ => True
  end.

(** An attempt in progress is within the policy's number of attempts and ends by the
    total deadline. *)
Definition recovery_inv (c : RecoveryCoordinator) : Prop :=
  match rc_state c with
  | RS_Waiting attempt wake_at total =>
      1 <= attempt <= rp_max_attempts (rc_policy c) /\ wake_at <= total
  | RS_Connecting attempt deadline total =>
      1 <= attempt <= rp_max_attempts (rc_policy c) /\ deadline <= total
  | _ => True
  end.

(** The attempts that may still start before the outage is over. *)
Definition budget (c : RecoveryCoordinator) : Z :=
  match rc_state c with
  | RS_Waiting attempt _ _ => rp_max_attempts (rc_policy c) - attempt + 1
  | RS_Connecting attempt _ _ => rp_max_attempts (rc_policy c) - attempt
  | _ => 0
  end.

Definition is_start (e : RecoveryEffect) : bool :=
  match e with RCF_StartAttempt _ _ => true | _ => false end.
Definition is_outage (e : RecoveryEffect) : bool :=
  match e with RCF_ScheduleAttempt attempt _ => bool_decide (attempt = 1) | _ => false end.
Definition count (f : RecoveryEffect -> bool) (effs : list RecoveryEffect) : Z :=
  Z.of_nat (length (filter (fun e => f e) effs)).

Definition terminal_state (s : RecoveryState) : bool :=
  match s with RS_Failed | RS_Closed => true | _ => false end.
Definition terminal_effect (e : RecoveryEffect) : bool :=
  match e with RCF_RecoveryFailed | RCF_Closed => true | _ => false end.

(** [reduce_states] splits a step of the coordinator on every test it makes. *)
Ltac reduce_states :=
  unfold rc_reduce, rc_schedule, rc_fail in *; cbn in *;
  repeat (case_match; cbn in *; simplify_eq);
  repeat match goal with
  | H : bool_decide _ = true |- _ => apply bool_decide_eq_true in H
  | H : bool_decide _ = false |- _ => apply bool_decide_eq_false in H
  | H : _ || _ = false |- _ => apply orb_false_iff in H as [??]
  end.

Lemma rc_reduce_policy c e : rc_policy (rc_reduce c e).1 = rc_policy c.
Proof. destruct c as [p s]. destruct s, e; reduce_states; done. Qed.

Lemma count_cons f e effs : count f (e :: effs) = (if f e then 1 else 0) + count f effs.
Proof. unfold count. rewrite filter_cons. destruct (f e); cbn [Is_true]; case_decide; cbn; (done || lia). Qed.

Lemma count_app f l1 l2 : count f (l1 ++ l2) = count f l1 + count f l2.
Proof. unfold count. rewrite filter_app, length_app. lia. Qed.

Lemma rc_reduce_step c e :
  policy_ok (rc_policy c) -> recovery_inv c -> event_times_ok e ->
  let '(c', eff) := rc_reduce c e in
  recovery_inv c' /\
  count is_start (option_list eff) + budget c' <=
    budget c + rp_max_attempts (rc_policy c) * count is_outage (option_list eff).
Proof.
  intros Hp Hinv He. destruct c as [p s]. cbn [rc_policy] in *.
  pose proof Hp as ([Hm1 Hm2] & _).
  assert (Hbud : forall st, recovery_inv (mkCoordinator p st) -> 0 <= budget (mkCoordinator p st)).
  { intros st Hst. unfold recovery_inv, budget in *. cbn in *. destruct st; lia. }
  pose proof (Hbud _ Hinv) as Hb. unfold recovery_inv, budget in *. cbn [rc_state rc_policy] in *.
  destruct s, e; unfold rc_reduce, rc_schedule, rc_fail; cbn -[rp_backoff time_add];
    repeat case_bool_decide; cbn -[rp_backoff time_add];
    rewrite ?count_cons; cbn -[rp_backoff time_add]; change (count is_start []) with 0;
    change (count is_outage []) with 0; try (split; [|]); try lia; try done.
  all: try (rewrite wrapping_add_small by ints); repeat case_bool_decide; try lia.
Qed.

Lemma rc_run_bounds events : forall c,
  policy_ok (rc_policy c) -> recovery_inv c -> Forall event_times_ok events ->
  let '(c', effs) := rc_run c events in
  recovery_inv c' /\ rc_policy c' = rc_policy c /\
  count is_start effs + budget c' <=
    budget c + rp_max_attempts (rc_policy c) * count is_outage effs.
Proof.
  induction events as [|e events IH]; intros c Hp Hinv Hev; cbn [rc_run].
  { split; [done|]. split; [done|]. change (count is_start []) with 0.
    change (count is_outage []) with 0. lia. }
  apply Forall_cons in Hev as [He Hev]. pose proof (rc_reduce_step c e Hp Hinv He) as H1.
  pose proof (rc_reduce_policy c e) as Ep. destruct (rc_reduce c e) as [c1 eff].
  cbn [fst] in Ep. destruct H1 as [Hinv1 H1].
  specialize (IH c1). rewrite Ep in IH. specialize (IH Hp Hinv1 Hev).
  destruct (rc_run c1 events) as [c2 effs]. destruct IH as (I1 & I2 & I3).
  split; [done|]. split; [congruence|]. rewrite !count_app. lia.
Qed.

(** recovery is bounded. Over any run, the connection attempts that start number at
    most [max_attempts] per outage, an attempt in progress is numbered between 1 and
    [max_attempts], and neither its wake-up nor its deadline is later than the outage's
    total deadline. *)
Lemma recovery_attempts_bounded generation policy events :
  policy_ok policy -> Forall event_times_ok events ->
  let '(c, effs) := rc_run (rc_new generation policy) events in
  count is_start effs <= rp_max_attempts policy * count is_outage effs /\
  match rc_state c with
  | RS_Waiting attempt wake_at total => 1 <= attempt <= rp_max_attempts policy /\ wake_at <= total
  | RS_Connecting attempt deadline total =>
      1 <= attempt <= rp_max_attempts policy /\ deadline <= total
  | _ => True
  end.
Proof.
  intros Hp Hev.
  pose proof (rc_run_bounds events (rc_new generation policy) Hp I Hev) as H.
  destruct (rc_run (rc_new generation policy) events) as [c effs].
  destruct H as (Hinv & Epol & Hle). change (rc_policy (rc_new generation policy)) with policy in *.
  change (budget (rc_new generation policy)) with 0 in Hle.
  unfold recovery_inv in Hinv. rewrite Epol in Hinv. split; [|done].
  assert (0 <= budget c); [|lia]. unfold budget. rewrite Epol. destruct (rc_state c); lia.
Qed.

(** A terminal coordinator stays as it is. *)
Lemma rc_run_terminal events : forall c,
  terminal_state (rc_state c) = true -> rc_run c events = (c, []).
Proof.
  induction events as [|e events IH]; intros c Hc; [done|]. cbn [rc_run].
  assert (rc_reduce c e = (c, None)) as ->.
  { unfold rc_reduce. by destruct (rc_state c). }
  by rewrite IH.
Qed.

Lemma rc_reduce_terminal c e :
  terminal_state (rc_state c) = false ->
  let '(c', eff) := rc_reduce c e in
  terminal_state (rc_state c') = match eff with Some f => terminal_effect f | None => false end.
Proof.
  intros Hc. destruct c as [p s]. cbn in Hc.
  destruct s, e; try done; unfold rc_reduce, rc_schedule, rc_fail; cbn -[rp_backoff time_add];
    repeat case_bool_decide; done.
Qed.

(** recovery ends once and for good. The coordinator is failed or closed exactly when
    the effects contain [RecoveryFailed] or [Closed], and that effect is the last one:
    nothing is published, scheduled or started afterwards. *)
Lemma recovery_ends_once generation policy events :
  let '(c, effs) := rc_run (rc_new generation policy) events in
  if terminal_state (rc_state c)
  then exists before e, effs = before ++ [e] /\ terminal_effect e = true /\
    Forall (fun e => terminal_effect e = false) before
  else Forall (fun e => terminal_effect e = false) effs.
Proof.
  assert (Hgen : forall events c, terminal_state (rc_state c) = false ->
    let '(c', effs) := rc_run c events in
    if terminal_state (rc_state c')
    then exists before e, effs = before ++ [e] /\ terminal_effect e = true /\
      Forall (fun e => terminal_effect e = false) before
    else Forall (fun e => terminal_effect e = false) effs).
  { clear. induction events as [|e events IH]; intros c Hc; cbn [rc_run]; [by rewrite Hc|].
    pose proof (rc_reduce_terminal c e Hc) as Ht. destruct (rc_reduce c e) as [c1 eff].
    destruct (terminal_state (rc_state c1)) eqn:H1.
    - rewrite (rc_run_terminal events c1 H1), H1. destruct eff as [f|]; [|done].
      exists [], f. by repeat split.
    - specialize (IH c1 H1). destruct (rc_run c1 events) as [c2 effs].
      destruct (terminal_state (rc_state c2)).
      + destruct IH as (before & e' & -> & He' & Hb). exists (option_list eff ++ before), e'.
        rewrite app_assoc. repeat split; [done|]. apply Forall_app. split; [|done].
        destruct eff; repeat constructor. done.
      + apply Forall_app. split; [|done]. destruct eff; repeat constructor. done. }
  by apply Hgen.
Qed.
