(* ===== verification/Bytes.v ===== *)
(** Bytes on the wire: little- and big-endian integers of a fixed width, and readers
    that consume a prefix of a buffer. A byte is a [Z] between 0 and 255. *)
From S2P Require Import Prelude.
Local Open Scope Z_scope.

Abbreviation bytes := (list Z).

Definition byte_ok (b : Z) : Prop := 0 <= b <= 255.
Definition bytes_ok (bs : bytes) : Prop := Forall byte_ok bs.

(** [buffer.len()], which is at most [isize::MAX] and so never wraps. *)
Definition zlen {A} (l : list A) : Z := Z.of_nat (length l).

(** ** Integers *)

(** [v.to_le_bytes()] of an [n]-byte integer. *)
Fixpoint le_bytes (n : nat) (v : Z) : bytes :=
  match n with O => [] | S n => v mod 256 :: le_bytes n (v / 256) end.

(** [uN::from_le_bytes(bs)] *)
Fixpoint le_value (bs : bytes) : Z :=
  match bs with [] => 0 | b :: bs => b + 256 * le_value bs end.

Definition be_bytes (n : nat) (v : Z) : bytes := reverse (le_bytes n v).
Definition be_value (bs : bytes) : Z := le_value (reverse bs).

Lemma length_le_bytes n v : length (le_bytes n v) = n.
Proof. revert v. induction n; cbn; auto. Qed.

Lemma length_be_bytes n v : length (be_bytes n v) = n.
Proof. unfold be_bytes. by rewrite length_reverse, length_le_bytes. Qed.

Lemma le_bytes_ok n v : bytes_ok (le_bytes n v).
Proof.
  revert v. induction n; intros v; cbn; constructor; [|apply IHn].
  unfold byte_ok. pose proof (Z.mod_pos_bound v 256). lia.
Qed.

Lemma be_bytes_ok n v : bytes_ok (be_bytes n v).
Proof. unfold be_bytes, bytes_ok. rewrite reverse_Permutation. apply le_bytes_ok. Qed.

Lemma le_value_bytes n v : 0 <= v < 256 ^ Z.of_nat n -> le_value (le_bytes n v) = v.
Proof.
  revert v. induction n as [|n IH]; intros v Hv; cbn [le_bytes le_value].
  - change (256 ^ Z.of_nat 0) with 1 in Hv. lia.
  - rewrite Nat2Z.inj_succ, Z.pow_succ_r in Hv by lia.
    rewrite IH; [pose proof (Z.div_mod v 256); lia|].
    split; [apply Z.div_pos; lia|apply Z.div_lt_upper_bound; lia].
Qed.

Lemma be_value_bytes n v : 0 <= v < 256 ^ Z.of_nat n -> be_value (be_bytes n v) = v.
Proof. intros Hv. unfold be_value, be_bytes. rewrite reverse_involutive. by apply le_value_bytes. Qed.

(** Writing an integer that does not fit keeps its low bytes. *)
Lemma le_value_bytes_mod n v : le_value (le_bytes n v) = v mod 256 ^ Z.of_nat n.
Proof.
  revert v. induction n as [|n IH]; intros v; cbn [le_bytes le_value].
  - by rewrite Z.mod_1_r.
  - rewrite IH, Nat2Z.inj_succ, Z.pow_succ_r by lia. rewrite Z.rem_mul_r by lia. done.
Qed.

Lemma be_value_bytes_mod n v : be_value (be_bytes n v) = v mod 256 ^ Z.of_nat n.
Proof. unfold be_value, be_bytes. rewrite reverse_involutive. apply le_value_bytes_mod. Qed.

Lemma le_value_bound bs : bytes_ok bs -> 0 <= le_value bs < 256 ^ Z.of_nat (length bs).
Proof.
  induction 1 as [|b bs Hb _ IH]; cbn [le_value length].
  - change (256 ^ Z.of_nat 0) with 1. lia.
  - rewrite Nat2Z.inj_succ, Z.pow_succ_r by lia. unfold byte_ok in Hb. lia.
Qed.

Lemma le_bytes_value bs : bytes_ok bs -> le_bytes (length bs) (le_value bs) = bs.
Proof.
  induction 1 as [|b bs Hb _ IH]; [done|]. cbn [le_value length le_bytes].
  unfold byte_ok in Hb. rewrite Z.mul_comm, Z.mod_add, Z.mod_small by lia.
  rewrite Z.div_add, (Z.div_small b), Z.add_0_l by lia. by rewrite IH.
Qed.

Lemma bytes_ok_app bs1 bs2 : bytes_ok (bs1 ++ bs2) <-> bytes_ok bs1 /\ bytes_ok bs2.
Proof. apply Forall_app. Qed.

Lemma bytes_ok_reverse bs : bytes_ok (reverse bs) <-> bytes_ok bs.
Proof. unfold bytes_ok. by rewrite reverse_Permutation. Qed.

Lemma be_value_bound bs : bytes_ok bs -> 0 <= be_value bs < 256 ^ Z.of_nat (length bs).
Proof.
  intros H. unfold be_value. rewrite <- length_reverse. apply le_value_bound. by apply bytes_ok_reverse.
Qed.

Lemma be_bytes_value bs : bytes_ok bs -> be_bytes (length bs) (be_value bs) = bs.
Proof.
  intros H. unfold be_bytes, be_value. rewrite <- (length_reverse bs), le_bytes_value.
  - apply reverse_involutive.
  - by apply bytes_ok_reverse.
Qed.

(** ** Readers *)

(** A reader takes what it needs from the front of the buffer and fails when the
    buffer is too short or the bytes are not what it expects. *)
Definition reader (A : Type) : Type := bytes -> option (A * bytes).

#[export] Instance reader_ret : MRet reader := fun A a bs => Some (a, bs).
#[export] Instance reader_bind : MBind reader := fun A B f r bs =>
  match r bs with Some (a, bs) => f a bs | None => None end.

Definition read_bytes (n : nat) : reader bytes := fun bs =>
  if (length bs <? n)%nat then None else Some (take n bs, drop n bs).

Definition read_le (n : nat) : reader Z := fun bs =>
  match read_bytes n bs with Some (p, rest) => Some (le_value p, rest) | None => None end.

Definition read_be (n : nat) : reader Z := fun bs =>
  match read_bytes n bs with Some (p, rest) => Some (be_value p, rest) | None => None end.

(** [#[brw(magic(..))]], [#[br(assert(..))]] *)
Definition read_guard (b : bool) : reader unit := fun bs => if b then Some (tt, bs) else None.

#[global] Arguments read_bytes : simpl never.
#[global] Arguments read_le : simpl never.
#[global] Arguments read_be : simpl never.
#[global] Arguments le_bytes : simpl never.
#[global] Arguments be_bytes : simpl never.

Lemma read_bytes_app p rest n : length p = n -> read_bytes n (p ++ rest) = Some (p, rest).
Proof.
  intros <-. unfold read_bytes. rewrite length_app.
  rewrite (proj2 (Nat.ltb_ge _ _)) by lia. by rewrite take_app_length, drop_app_length.
Qed.

Lemma read_bytes_Some n bs p rest :
  read_bytes n bs = Some (p, rest) -> bs = p ++ rest /\ length p = n.
Proof.
  unfold read_bytes. destruct (length bs <? n)%nat eqn:E; [done|]. intros [= <- <-].
  apply Nat.ltb_ge in E. by rewrite take_drop, length_take, Nat.min_l.
Qed.

Lemma read_le_app n v rest :
  0 <= v < 256 ^ Z.of_nat n -> read_le n (le_bytes n v ++ rest) = Some (v, rest).
Proof.
  intros Hv. unfold read_le. rewrite read_bytes_app by apply length_le_bytes.
  by rewrite le_value_bytes.
Qed.

Lemma read_be_app n v rest :
  0 <= v < 256 ^ Z.of_nat n -> read_be n (be_bytes n v ++ rest) = Some (v, rest).
Proof.
  intros Hv. unfold read_be. rewrite read_bytes_app by apply length_be_bytes.
  by rewrite be_value_bytes.
Qed.

Lemma read_le_Some n bs v rest :
  bytes_ok bs -> read_le n bs = Some (v, rest) ->
  bs = le_bytes n v ++ rest /\ 0 <= v < 256 ^ Z.of_nat n /\ bytes_ok rest.
Proof.
  unfold read_le. intros Hok. destruct (read_bytes n bs) as [[p r]|] eqn:E; [|done].
  intros [= <- <-]. apply read_bytes_Some in E as [-> <-].
  apply bytes_ok_app in Hok as [Hp Hr]. rewrite le_bytes_value by done.
  split; [done|]. split; [by apply le_value_bound|done].
Qed.

Lemma read_be_Some n bs v rest :
  bytes_ok bs -> read_be n bs = Some (v, rest) ->
  bs = be_bytes n v ++ rest /\ 0 <= v < 256 ^ Z.of_nat n /\ bytes_ok rest.
Proof.
  unfold read_be. intros Hok. destruct (read_bytes n bs) as [[p r]|] eqn:E; [|done].
  intros [= <- <-]. apply read_bytes_Some in E as [-> <-].
  apply bytes_ok_app in Hok as [Hp Hr]. rewrite be_bytes_value by done.
  split; [done|]. split; [by apply be_value_bound|done].
Qed.

Lemma reader_bind_Some {A B} (r : reader A) (f : A -> reader B) bs x :
  (r ≫= f) bs = Some x <-> exists a rest, r bs = Some (a, rest) /\ f a rest = Some x.
Proof. unfold mbind, reader_bind. destruct (r bs) as [[a rest]|]; naive_solver. Qed.

Lemma read_guard_Some b bs x : read_guard b bs = Some x <-> b = true /\ x = (tt, bs).
Proof. unfold read_guard. destruct b; naive_solver. Qed.

Lemma read_guard_true (P : Prop) `{!Decision P} bs :
  P -> read_guard (bool_decide P) bs = Some (tt, bs).
Proof. intros H. unfold read_guard. by rewrite bool_decide_eq_true_2. Qed.

(** ** Readers of a fixed size

    [framed n r]: the reader takes [n] bytes, whatever they are followed by. *)
Definition framed {A} (n : nat) (r : reader A) : Prop :=
  forall bs a rest, r bs = Some (a, rest) ->
  exists used, bs = used ++ rest /\ length used = n /\ forall t, r (used ++ t) = Some (a, t).

Lemma framed_ret {A} (a : A) : framed 0 (mret a).
Proof. intros bs a' rest [= <- <-]. by exists []. Qed.

Lemma framed_bind {A B} n m (r : reader A) (f : A -> reader B) :
  framed n r -> (forall a, framed m (f a)) -> framed (n + m) (r ≫= f).
Proof.
  intros Hr Hf bs b rest. unfold mbind, reader_bind. destruct (r bs) as [[a mid]|] eqn:E; [|done]. intros H.
  apply Hr in E as (u & -> & <- & Hu). apply Hf in H as (v & -> & <- & Hv).
  exists (u ++ v). rewrite length_app, <- app_assoc. split_and!; [done..|]. intros t. by rewrite <- app_assoc, Hu, Hv.
Qed.

Lemma framed_read_bytes n : framed n (read_bytes n).
Proof.
  intros bs a rest. unfold read_bytes. destruct (Nat.ltb_spec (length bs) n) as [|Hn]; [done|]. intros [= <- <-].
  exists (take n bs). assert (Hl : length (take n bs) = n) by (rewrite length_take; lia).
  split_and!; [by rewrite take_drop|done|]. intros t.
  destruct (Nat.ltb_spec (length (take n bs ++ t)) n) as [H|_]; [rewrite length_app in H; lia|].
  by rewrite take_app_length', drop_app_length' by done.
Qed.

(** What a reader answers after taking its bytes. *)
Lemma framed_then {A B} n (r : reader A) (f : A -> option B) :
  framed n r -> framed n (fun bs => match r bs with Some (a, rest) => (fun b => (b, rest)) <$> f a | None => None end).
Proof.
  intros Hr bs b rest H. destruct (r bs) as [[a mid]|] eqn:E; [|done].
  destruct (f a) as [b'|] eqn:Ef; [|done]. injection H as -> ->.
  apply Hr in E as (u & -> & Hl & Hu). exists u. split_and!; [done..|]. intros t. by rewrite Hu, Ef.
Qed.

Lemma framed_read_le n : framed n (read_le n).
Proof. exact (framed_then n (read_bytes n) (fun p => Some (le_value p)) (framed_read_bytes n)). Qed.

Lemma framed_read_guard b : framed 0 (read_guard b).
Proof. intros bs [] rest. unfold read_guard. destruct b; [|done]. intros [= <-]. by exists []. Qed.

(** The bytes a reader of [n] bytes needs are the first [n]. *)
Lemma framed_take {A} n (r : reader A) bs a rest k :
  framed n r -> r bs = Some (a, rest) -> (n <= k)%nat -> r (take k bs) = Some (a, drop n (take k bs)).
Proof.
  intros Hr H Hk. apply Hr in H as (u & -> & <- & Hu).
  rewrite take_app_ge, drop_app_length by done. apply Hu.
Qed.

(** [reading] runs a reader over bytes that were written: each integer is read back. *)
Ltac reading :=
  repeat match goal with
  | |- context [mbind _ _ ?bs] => unfold mbind at 1, reader_bind at 1
  | |- context [read_le ?n (le_bytes ?n ?v ++ ?rest)] =>
      rewrite (read_le_app n v rest) by (cbn; ints)
  | |- context [read_be ?n (be_bytes ?n ?v ++ ?rest)] =>
      rewrite (read_be_app n v rest) by (cbn; ints)
  end.
