(* ===== verification/Header.v ===== *)
(** The SMB2 message header (crates/smb-msg/src/header.rs): the command and status
    codes, the flags word and the 64-byte layout, which
    crates/smb-msg-derive/src/lib.rs opens with the structure size.

    The layout attributes of the structure are read as [binrw] documents them: fields
    in order, integers little-endian, [magic] and [assert] failing the read or the
    write, [if] leaving a field out. *)
From S2P Require Import Prelude Bytes.
Local Open Scope Z_scope.

(** ** Commands *)

Inductive Command :=
| Cmd_Negotiate | Cmd_SessionSetup | Cmd_Logoff | Cmd_TreeConnect | Cmd_TreeDisconnect
| Cmd_Create | Cmd_Close | Cmd_Flush | Cmd_Read | Cmd_Write | Cmd_Lock | Cmd_Ioctl
| Cmd_Cancel | Cmd_Echo | Cmd_QueryDirectory | Cmd_ChangeNotify | Cmd_QueryInfo
| Cmd_SetInfo | Cmd_OplockBreak | Cmd_ServerToClientNotification.

#[export] Instance Command_eq : EqDecision Command.
Proof. solve_decision. Defined.

Definition command_code (c : Command) : Z :=
  match c with
  | Cmd_Negotiate => 0
  | Cmd_SessionSetup => 1
  | Cmd_Logoff => 2
  | Cmd_TreeConnect => 3
  | Cmd_TreeDisconnect => 4
  | Cmd_Create => 5
  | Cmd_Close => 6
  | Cmd_Flush => 7
  | Cmd_Read => 8
  | Cmd_Write => 9
  | Cmd_Lock => 10
  | Cmd_Ioctl => 11
  | Cmd_Cancel => 12
  | Cmd_Echo => 13
  | Cmd_QueryDirectory => 14
  | Cmd_ChangeNotify => 15
  | Cmd_QueryInfo => 16
  | Cmd_SetInfo => 17
  | Cmd_OplockBreak => 18
  | Cmd_ServerToClientNotification => 19
  end.

Definition all_commands : list Command :=
  [Cmd_Negotiate; Cmd_SessionSetup; Cmd_Logoff; Cmd_TreeConnect; Cmd_TreeDisconnect;
   Cmd_Create; Cmd_Close; Cmd_Flush; Cmd_Read; Cmd_Write; Cmd_Lock; Cmd_Ioctl; Cmd_Cancel;
   Cmd_Echo; Cmd_QueryDirectory; Cmd_ChangeNotify; Cmd_QueryInfo; Cmd_SetInfo;
   Cmd_OplockBreak; Cmd_ServerToClientNotification].

(** [#[brw(repr(u16))]]: reading a command fails on a code that is no command's. *)
Definition command_of_code (v : Z) : option Command :=
  List.find (fun c => bool_decide (command_code c = v)) all_commands.

(** ** Statuses *)

Inductive Status :=
| St_Success | St_Pending | St_NotifyCleanup | St_NotifyEnumDir | St_InvalidSmb
| St_SmbBadTid | St_SmbBadCommand | St_SmbBadUid | St_SmbUseStandard | St_BufferOverflow
| St_NoMoreFiles | St_StoppedOnSymlink | St_NotImplemented | St_InvalidInfoClass
| St_InfoLengthMismatch | St_InvalidParameter | St_NoSuchDevice | St_InvalidDeviceRequest0
| St_EndOfFile | St_MoreProcessingRequired | St_AccessDenied | St_BufferTooSmall
| St_ObjectNameInvalid | St_ObjectNameNotFound | St_ObjectNameCollision
| St_SharingViolation | St_DeletePending | St_ObjectPathNotFound | St_NoEasOnFile
| St_WrongPassword | St_LogonFailure | St_NotMapped | St_DiskFull
| St_BadImpersonationLevel | St_IoTimeout | St_FileIsADirectory | St_NotSupported
| St_NetworkNameDeleted | St_BadNetworkName | St_RequestNotAccepted | St_DirectoryNotEmpty
| St_Cancelled | St_FileClosed | St_UserSessionDeleted | St_ServerUnavailable
| St_UserAccountLockedOut | St_PathNotCovered | St_NetworkSessionExpired
| St_SmbTooManyUids | St_DeviceFeatureNotSupported.

#[export] Instance Status_eq : EqDecision Status.
Proof. solve_decision. Defined.

Definition status_code (s : Status) : Z :=
  match s with
  | St_Success => 0x00000000
  | St_Pending => 0x00000103
  | St_NotifyCleanup => 0x0000010B
  | St_NotifyEnumDir => 0x0000010C
  | St_InvalidSmb => 0x00010002
  | St_SmbBadTid => 0x00050002
  | St_SmbBadCommand => 0x00160002
  | St_SmbBadUid => 0x005B0002
  | St_SmbUseStandard => 0x00FB0002
  | St_BufferOverflow => 0x80000005
  | St_NoMoreFiles => 0x80000006
  | St_StoppedOnSymlink => 0x8000002D
  | St_NotImplemented => 0xC0000002
  | St_InvalidInfoClass => 0xC0000003
  | St_InfoLengthMismatch => 0xC0000004
  | St_InvalidParameter => 0xC000000D
  | St_NoSuchDevice => 0xC000000E
  | St_InvalidDeviceRequest0 => 0xC0000010
  | St_EndOfFile => 0xC0000011
  | St_MoreProcessingRequired => 0xC0000016
  | St_AccessDenied => 0xC0000022
  | St_BufferTooSmall => 0xC0000023
  | St_ObjectNameInvalid => 0xC0000033
  | St_ObjectNameNotFound => 0xC0000034
  | St_ObjectNameCollision => 0xC0000035
  | St_SharingViolation => 0xC0000043
  | St_DeletePending => 0xC0000056
  | St_ObjectPathNotFound => 0xC000003A
  | St_NoEasOnFile => 0xC0000044
  | St_WrongPassword => 0xC000006A
  | St_LogonFailure => 0xC000006D
  | St_NotMapped => 0xC0000073
  | St_DiskFull => 0xC000007F
  | St_BadImpersonationLevel => 0xC00000A5
  | St_IoTimeout => 0xC00000B5
  | St_FileIsADirectory => 0xC00000BA
  | St_NotSupported => 0xC00000BB
  | St_NetworkNameDeleted => 0xC00000C9
  | St_BadNetworkName => 0xC00000CC
  | St_RequestNotAccepted => 0xC00000D0
  | St_DirectoryNotEmpty => 0xC0000101
  | St_Cancelled => 0xC0000120
  | St_FileClosed => 0xC0000128
  | St_UserSessionDeleted => 0xC0000203
  | St_ServerUnavailable => 0xC0000466
  | St_UserAccountLockedOut => 0xC0000234
  | St_PathNotCovered => 0xC0000257
  | St_NetworkSessionExpired => 0xC000035C
  | St_SmbTooManyUids => 0xC000205A
  | St_DeviceFeatureNotSupported => 0xC0000463
  end.

Definition all_statuses : list Status :=
  [St_Success; St_Pending; St_NotifyCleanup; St_NotifyEnumDir; St_InvalidSmb; St_SmbBadTid;
   St_SmbBadCommand; St_SmbBadUid; St_SmbUseStandard; St_BufferOverflow; St_NoMoreFiles;
   St_StoppedOnSymlink; St_NotImplemented; St_InvalidInfoClass; St_InfoLengthMismatch;
   St_InvalidParameter; St_NoSuchDevice; St_InvalidDeviceRequest0; St_EndOfFile;
   St_MoreProcessingRequired; St_AccessDenied; St_BufferTooSmall; St_ObjectNameInvalid;
   St_ObjectNameNotFound; St_ObjectNameCollision; St_SharingViolation; St_DeletePending;
   St_ObjectPathNotFound; St_NoEasOnFile; St_WrongPassword; St_LogonFailure; St_NotMapped;
   St_DiskFull; St_BadImpersonationLevel; St_IoTimeout; St_FileIsADirectory; St_NotSupported;
   St_NetworkNameDeleted; St_BadNetworkName; St_RequestNotAccepted; St_DirectoryNotEmpty;
   St_Cancelled; St_FileClosed; St_UserSessionDeleted; St_ServerUnavailable;
   St_UserAccountLockedOut; St_PathNotCovered; St_NetworkSessionExpired; St_SmbTooManyUids;
   St_DeviceFeatureNotSupported].

(** [Status::try_from(u32)] *)
Definition status_try_from (v : Z) : option Status :=
  List.find (fun s => bool_decide (status_code s = v)) all_statuses.

(** ** Flags

    [HeaderFlags] is a 32-bit field, its members from the least significant bit. The
    skipped bits are kept as they were read. *)

Definition flag_server_to_redir (flags : Z) : bool := Z.testbit flags 0.
Definition flag_async_command (flags : Z) : bool := Z.testbit flags 1.
Definition flag_related_operations (flags : Z) : bool := Z.testbit flags 2.
Definition flag_signed (flags : Z) : bool := Z.testbit flags 3.
Definition flag_priority_mask (flags : Z) : Z := Z.land (Z.shiftr flags 4) 7.
Definition flag_dfs_operation (flags : Z) : bool := Z.testbit flags 28.
Definition flag_replay_operation (flags : Z) : bool := Z.testbit flags 29.

Definition set_async_command (flags : Z) (b : bool) : Z :=
  if b then Z.lor flags 2 else Z.ldiff flags 2.

(** ** The header *)

Record Header := mkHeader {
  hd_credit_charge : Z;
  hd_status : Z;
  hd_command : Command;
  hd_credit_request : Z;
  hd_flags : Z;
  hd_next_command : Z;
  hd_message_id : Z;
  hd_tree_id : option Z;
  hd_async_id : option Z;
  hd_session_id : Z;
  hd_signature : Z
}.

#[export] Instance eta_Header : Eta Header := fun h =>
  mkHeader (hd_credit_charge h) (hd_status h) (hd_command h) (hd_credit_request h)
    (hd_flags h) (hd_next_command h) (hd_message_id h) (hd_tree_id h) (hd_async_id h)
    (hd_session_id h) (hd_signature h).

Definition header_struct_size : Z := 64.

(** [b"\xfeSMB"] *)
Definition header_magic : bytes := [254; 83; 77; 66].

Definition hd_get_status (h : Header) : option Status := status_try_from (hd_status h).

Definition hd_to_async (h : Header) (async_id : Z) : Header :=
  h <| hd_flags := set_async_command (hd_flags h) true |> <| hd_tree_id := None |>
    <| hd_async_id := Some async_id |>.

(** An [Option] field is written when it holds a value. *)
Definition write_opt (n : nat) (v : option Z) : bytes :=
  match v with Some v => le_bytes n v | None => [] end.

(** The identity fields: reserved bytes and the tree of a synchronous message, the
    async identity of an asynchronous one. *)
Definition write_identity (async : bool) (tree_id async_id : option Z) : bytes :=
  (if async then [] else le_bytes 4 0) ++ write_opt 4 tree_id
    ++ (if async then write_opt 8 async_id else []).

Definition write_header (h : Header) : option bytes :=
  let async := flag_async_command (hd_flags h) in
  if bool_decide (is_Some (hd_tree_id h)) && async then None
  else if bool_decide (hd_tree_id h = None) && negb async then None
  else Some (header_magic ++ le_bytes 2 header_struct_size ++ le_bytes 2 (hd_credit_charge h)
    ++ le_bytes 4 (hd_status h) ++ le_bytes 2 (command_code (hd_command h))
    ++ le_bytes 2 (hd_credit_request h) ++ le_bytes 4 (hd_flags h)
    ++ le_bytes 4 (hd_next_command h) ++ le_bytes 8 (hd_message_id h)
    ++ write_identity async (hd_tree_id h) (hd_async_id h)
    ++ le_bytes 8 (hd_session_id h) ++ le_bytes 16 (hd_signature h)).

Definition read_command : reader Command := fun bs =>
  match read_le 2 bs with
  | Some (v, rest) => (fun c => (c, rest)) <$> command_of_code v
  | None => None
  end.

Definition read_if {A} (b : bool) (r : reader A) : reader (option A) := fun bs =>
  if b then match r bs with Some (a, rest) => Some (Some a, rest) | None => None end
  else Some (None, bs).

Definition read_identity (async : bool) : reader (option Z * option Z) :=
  _ ← read_if (negb async) (read_le 4);
  tree_id ← read_if (negb async) (read_le 4);
  async_id ← read_if async (read_le 8);
  mret (tree_id, async_id).

Definition read_header : reader Header :=
  magic ← read_bytes 4;
  _ ← read_guard (bool_decide (magic = header_magic));
  structure_size ← read_le 2;
  _ ← read_guard (bool_decide (structure_size = header_struct_size));
  credit_charge ← read_le 2;
  status ← read_le 4;
  command ← read_command;
  credit_request ← read_le 2;
  flags ← read_le 4;
  next_command ← read_le 4;
  message_id ← read_le 8;
  identity ← read_identity (flag_async_command flags);
  session_id ← read_le 8;
  signature ← read_le 16;
  mret (mkHeader credit_charge status command credit_request flags next_command message_id
          identity.1 identity.2 session_id signature).

(** ** Codes *)

Lemma command_code_range c : 0 <= command_code c <= 19.
Proof. by destruct c. Qed.

Lemma command_of_code_iff v c : command_of_code v = Some c <-> command_code c = v.
Proof.
  unfold command_of_code. split.
  - intros [_ H]%find_some. by apply bool_decide_eq_true in H.
  - intros <-. by destruct c.
Qed.

Lemma status_code_range s : in_range u32_max (status_code s).
Proof. destruct s; cbn; ints. Qed.

(** the status table is a bijection onto its codes: a 32-bit code is read as a status
    exactly when it is that status's code, so no two statuses share a code and every
    status is recognised. *)
Lemma status_codes_exact v s : status_try_from v = Some s <-> status_code s = v.
Proof.
  unfold status_try_from. split.
  - intros [_ H]%find_some. by apply bool_decide_eq_true in H.
  - intros <-. destruct s; vm_compute; reflexivity.
Qed.

(** ** Round trips *)

(** The fields fit their widths and the identity fields are the ones the async flag
    selects. *)
Record header_ok (h : Header) : Prop := {
  hk_charge : in_range u16_max (hd_credit_charge h);
  hk_status : in_range u32_max (hd_status h);
  hk_request : in_range u16_max (hd_credit_request h);
  hk_flags : in_range u32_max (hd_flags h);
  hk_next : in_range u32_max (hd_next_command h);
  hk_message : in_range u64_max (hd_message_id h);
  hk_session : in_range u64_max (hd_session_id h);
  hk_signature : 0 <= hd_signature h < 2 ^ 128;
  hk_identity :
    if flag_async_command (hd_flags h)
    then hd_tree_id h = None /\ exists a, hd_async_id h = Some a /\ in_range u64_max a
    else hd_async_id h = None /\ exists t, hd_tree_id h = Some t /\ in_range u32_max t
}.

Lemma read_command_app c rest :
  read_command (le_bytes 2 (command_code c) ++ rest) = Some (c, rest).
Proof.
  unfold read_command. rewrite read_le_app by (pose proof (command_code_range c); cbn; lia).
  by rewrite (proj2 (command_of_code_iff _ c) eq_refl).
Qed.

Lemma read_if_app n v rest :
  0 <= v < 256 ^ Z.of_nat n -> read_if true (read_le n) (le_bytes n v ++ rest) = Some (Some v, rest).
Proof. intros Hv. unfold read_if. by rewrite read_le_app. Qed.

Lemma identity_app (async : bool) (t a : option Z) rest :
  (if async then t = None /\ exists v, a = Some v /\ in_range u64_max v
   else a = None /\ exists v, t = Some v /\ in_range u32_max v) ->
  length (write_identity async t a) = 8%nat /\ bytes_ok (write_identity async t a) /\
  read_identity async (write_identity async t a ++ rest) = Some ((t, a), rest).
Proof.
  intros H. unfold write_identity, read_identity, mbind, reader_bind. destruct async.
  - destruct H as [-> (v & -> & Hv)]. cbn [app write_opt negb]. split_and!.
    + apply length_le_bytes.
    + apply le_bytes_ok.
    + unfold read_if. cbv beta iota. by rewrite read_le_app by (cbn; ints).
  - destruct H as [-> (v & -> & Hv)]. cbn [app write_opt negb]. rewrite app_nil_r. split_and!.
    + by rewrite length_app, !length_le_bytes.
    + apply bytes_ok_app. split; apply le_bytes_ok.
    + rewrite <- app_assoc, read_if_app by (cbn; lia). by rewrite read_if_app by (cbn; ints).
Qed.

(** What a well-formed header is written as. *)
Lemma header_write_bytes h rest :
  header_ok h ->
  exists bs, write_header h = Some bs /\ length bs = 64%nat /\ bytes_ok bs /\
    read_header (bs ++ rest) = Some (h, rest).
Proof.
  intros [H1 H2 H3 H4 H5 H6 H7 H8 H9]. unfold write_header.
  assert (Hassert : bool_decide (is_Some (hd_tree_id h)) && flag_async_command (hd_flags h) = false
    /\ bool_decide (hd_tree_id h = None) && negb (flag_async_command (hd_flags h)) = false).
  { destruct (flag_async_command (hd_flags h)).
    - by destruct H9 as [-> _].
    - by destruct H9 as [_ (t & -> & _)]. }
  destruct Hassert as [-> ->].
  set (tail := le_bytes 8 (hd_session_id h) ++ le_bytes 16 (hd_signature h)).
  destruct (identity_app (flag_async_command (hd_flags h)) (hd_tree_id h) (hd_async_id h)
    (tail ++ rest) H9) as (L & O & R).
  eexists. split; [reflexivity|]. split_and!.
  - unfold tail. rewrite !length_app, L, !length_le_bytes. reflexivity.
  - unfold tail. rewrite !bytes_ok_app. split_and!; try apply le_bytes_ok; try exact O.
    by repeat constructor.
  - rewrite <- !app_assoc. unfold read_header.
    unfold header_struct_size. unfold mbind at 1, reader_bind at 1.
    rewrite read_bytes_app by reflexivity.
    reading.
    rewrite read_guard_true by reflexivity. reading.
    rewrite read_guard_true by reflexivity. reading. rewrite read_command_app. reading.
    rewrite R. unfold tail. rewrite <- app_assoc. reading. by destruct h.
Qed.

(** writing a header and reading it back gives the same header, whatever follows it,
    and a header is 64 bytes long. *)
Lemma header_write_read h rest :
  header_ok h ->
  exists bs, write_header h = Some bs /\ length bs = 64%nat /\ bytes_ok bs /\
    read_header (bs ++ rest) = Some (h, rest).
Proof. apply header_write_bytes. Qed.

(** The signature is the last field, and the only one that depends on it. *)
Lemma write_header_signature h bs :
  write_header h = Some bs ->
  exists pre, bs = pre ++ le_bytes 16 (hd_signature h) /\
    forall s, write_header (h <| hd_signature := s |>) = Some (pre ++ le_bytes 16 s).
Proof.
  unfold write_header. cbv zeta. cbn [hd_flags hd_tree_id hd_async_id hd_signature].
  change (hd_flags (h <| hd_signature := _ |>)) with (hd_flags h).
  destruct (bool_decide (is_Some (hd_tree_id h)) && flag_async_command (hd_flags h)) eqn:E1; [done|].
  destruct (bool_decide (hd_tree_id h = None) && negb (flag_async_command (hd_flags h))) eqn:E2; [done|].
  intros H. apply (inj Some) in H as <-. eexists. rewrite !app_assoc. split; [reflexivity|]. intros s.
  change (hd_tree_id (h <| hd_signature := s |>)) with (hd_tree_id h). rewrite E1, E2.
  by rewrite <- !app_assoc.
Qed.

Lemma read_if_Some n (b : bool) bs v rest :
  bytes_ok bs -> read_if b (read_le n) bs = Some (v, rest) ->
  bytes_ok rest /\
  if b then exists x, v = Some x /\ bs = le_bytes n x ++ rest /\ 0 <= x < 256 ^ Z.of_nat n
  else v = None /\ bs = rest.
Proof.
  intros Hok. unfold read_if. destruct b; [|by intros [= <- <-]].
  destruct (read_le n bs) as [[x r]|] eqn:E; [|done]. intros [= <- <-].
  apply read_le_Some in E as (-> & Hx & Hr); [|done]. eauto.
Qed.

Lemma read_command_Some bs c rest :
  bytes_ok bs -> read_command bs = Some (c, rest) ->
  bs = le_bytes 2 (command_code c) ++ rest /\ bytes_ok rest.
Proof.
  intros Hok. unfold read_command. destruct (read_le 2 bs) as [[v r]|] eqn:E; [|done].
  apply read_le_Some in E as (-> & _ & Hr); [|done].
  destruct (command_of_code v) as [c'|] eqn:Ec; [|done]. cbn. intros [= <- <-].
  apply command_of_code_iff in Ec as <-. done.
Qed.

Lemma read_identity_Some (async : bool) bs t a rest :
  bytes_ok bs -> read_identity async bs = Some ((t, a), rest) ->
  bytes_ok rest /\
  (if async then t = None /\ exists v, a = Some v /\ in_range u64_max v
   else a = None /\ exists v, t = Some v /\ in_range u32_max v) /\
  exists reserved, length reserved = (if async then 0 else 4)%nat /\
    bs = reserved ++ write_opt 4 t ++ (if async then write_opt 8 a else []) ++ rest.
Proof.
  intros Hok H. unfold read_identity in H.
  apply reader_bind_Some in H as (r & b1 & E1 & H).
  apply reader_bind_Some in H as (t' & b2 & E2 & H).
  apply reader_bind_Some in H as (a' & b3 & E3 & [= <- <- <-]).
  destruct (read_if_Some 4 _ _ _ _ Hok E1) as [O1 S1].
  destruct (read_if_Some 4 _ _ _ _ O1 E2) as [O2 S2].
  destruct (read_if_Some 8 _ _ _ _ O2 E3) as [O3 S3].
  split; [done|]. destruct async; cbn [negb] in *.
  - destruct S1 as [_ ->], S2 as [-> ->], S3 as (v & -> & -> & Hv). split.
    + split; [done|]. exists v. split; [done|]. cbn in Hv. ints.
    + exists []. done.
  - destruct S1 as (x & _ & -> & _), S2 as (v & -> & -> & Hv), S3 as [-> ->]. split.
    + split; [done|]. exists v. split; [done|]. cbn in Hv. ints.
    + exists (le_bytes 4 x). split; [apply length_le_bytes|]. done.
Qed.

(** [unread H] inverts one field of a reader that succeeded. *)
Ltac unread H :=
  let v := fresh "v" in let bs := fresh "bs" in let E := fresh "E" in
  apply reader_bind_Some in H as (v & bs & E & H);
  lazymatch type of E with
  | read_le _ _ = _ => apply read_le_Some in E as (E & ? & ?); [|assumption]
  | read_guard _ _ = _ => apply read_guard_Some in E as (E & [= -> ->]);
                          apply bool_decide_eq_true in E
  | read_command _ = _ => apply read_command_Some in E as (E & ?); [|assumption]
  | _ => idtac
  end.

Lemma header_read_bytes bs h rest :
  bytes_ok bs -> read_header bs = Some (h, rest) ->
  header_ok h /\
  exists before reserved after, bs = before ++ reserved ++ after ++ rest /\
    length (before ++ reserved ++ after) = 64%nat /\
    length reserved = (if flag_async_command (hd_flags h) then 0 else 4)%nat /\
    write_header h = Some (before ++ repeat 0 (length reserved) ++ after).
Proof.
  intros Hok H. unfold read_header in H. unread H.
  apply read_bytes_Some in E as [-> _]. apply bytes_ok_app in Hok as [_ Hok].
  do 10 unread H. apply reader_bind_Some in H as ([t a] & bi & Ei & H).
  apply read_identity_Some in Ei as (Oi & Hid & reserved & Hres & Ei); [|assumption].
  unread H. unread H. injection H as <- <-. cbn [fst snd] in *. subst. split.
  - split; cbn in *; try exact Hid; ints.
  - exists (header_magic ++ le_bytes 2 header_struct_size ++ le_bytes 2 v1 ++ le_bytes 4 v2
      ++ le_bytes 2 (command_code v3) ++ le_bytes 2 v4 ++ le_bytes 4 v5 ++ le_bytes 4 v6
      ++ le_bytes 8 v7), reserved,
      (write_opt 4 t ++ (if flag_async_command v5 then write_opt 8 a else [])
        ++ le_bytes 8 v8 ++ le_bytes 16 v9).
    split_and!.
    + by rewrite <- !app_assoc.
    + rewrite !length_app, !length_le_bytes, Hres.
      destruct (flag_async_command v5); destruct Hid as [-> (x & -> & _)]; cbn [write_opt];
        rewrite ?length_le_bytes; reflexivity.
    + exact Hres.
    + unfold write_header, write_identity. cbn [hd_flags hd_tree_id hd_async_id].
      rewrite Hres. destruct (flag_async_command v5); destruct Hid as [-> (x & -> & _)];
        cbn [andb negb]; rewrite ?bool_decide_eq_false_2 by (intros []; done);
        rewrite ?bool_decide_eq_false_2 by done; by rewrite <- !app_assoc.
Qed.

(** a header that is read is well formed, occupies 64 bytes, and writing it back
    gives the bytes it was read from, up to the reserved field of a synchronous
    message, which is written as zero. *)
Lemma header_read_write bs h rest :
  bytes_ok bs -> read_header bs = Some (h, rest) ->
  header_ok h /\
  exists before reserved after, bs = before ++ reserved ++ after ++ rest /\
    length (before ++ reserved ++ after) = 64%nat /\
    length reserved = (if flag_async_command (hd_flags h) then 0 else 4)%nat /\
    write_header h = Some (before ++ repeat 0 (length reserved) ++ after).
Proof. apply header_read_bytes. Qed.

(** A header is read from its sixty-four bytes. *)
Lemma framed_read_header : framed 64 read_header.
Proof.
  assert (Hif : forall (b : bool) n, framed (if b then n else 0) (read_if b (read_le n))).
  { intros [] n; [|by intros bs a rest [= <- <-]; exists []].
    exact (framed_then n (read_le n) (fun v => Some (Some v)) (framed_read_le n)). }
  assert (Hid : forall async, framed 8 (read_identity async)).
  { intros async. change 8%nat with (4 + (4 + 0))%nat. destruct async.
    - apply (framed_bind 0 8); [apply (Hif false)|intros _]. apply (framed_bind 0 8); [apply (Hif false)|intros t].
      apply (framed_bind 8 0); [apply (Hif true)|intros a; apply framed_ret].
    - apply framed_bind; [apply (Hif true)|intros _]. apply framed_bind; [apply (Hif true)|intros t].
      apply (framed_bind 0 0); [apply (Hif false)|intros a; apply framed_ret]. }
  unfold read_header. change 64%nat with (4 + (0 + (2 + (0 + (2 + (4 + (2 + (2 + (4 + (4 + (8 + (8 + (8 + (16 + 0))))))))))))))%nat.
  repeat (apply framed_bind; [first [apply framed_read_bytes | apply framed_read_guard | apply Hid | apply framed_read_le
    | exact (framed_then 2 (read_le 2) command_of_code (framed_read_le 2))] | intros ?]).
  apply framed_ret.
Qed.

(** The header of the repository's own serialization test, and one that lies about
    being asynchronous. *)
Definition sample_header : Header :=
  mkHeader 0 0x103 Cmd_ChangeNotify 1 19 0 8 None (Some 8) 0x85327d7
    0x997c6ef4aac8d8a32f9502aede25f863.

Example sample_header_bytes :
  write_header sample_header = Some
    [0xfe; 0x53; 0x4d; 0x42; 0x40; 0; 0; 0; 0x03; 0x01; 0; 0; 0x0f; 0; 0x01; 0; 0x13; 0; 0; 0;
     0; 0; 0; 0; 0x08; 0; 0; 0; 0; 0; 0; 0; 0x08; 0; 0; 0; 0; 0; 0; 0;
     0xd7; 0x27; 0x53; 0x08; 0; 0; 0; 0; 0x63; 0xf8; 0x25; 0xde; 0xae; 0x02; 0x95; 0x2f;
     0xa3; 0xd8; 0xc8; 0xaa; 0xf4; 0x6e; 0x7c; 0x99].
Proof. vm_compute. reflexivity. Qed.

Lemma sample_header_ok : header_ok sample_header.
Proof. split; cbn; try ints. split; [done|]. exists 8. split; [done|ints]. Qed.

(** an asynchronous header without an async identity is accepted by the writer, whose
    assertion on [async_id] tests the tree identity, and comes out eight bytes short,
    so that it cannot be read back. *)
Lemma async_header_without_id_is_short h :
  flag_async_command (hd_flags h) = true -> hd_tree_id h = None -> hd_async_id h = None ->
  exists bs, write_header h = Some bs /\ length bs = 56%nat /\ read_header bs = None.
Proof.
  intros Hf Ht Ha. unfold write_header, write_identity. rewrite Hf, Ht, Ha. cbn [andb negb].
  rewrite bool_decide_eq_false_2 by (intros []; done). rewrite andb_false_r. cbn [andb].
  eexists. split; [reflexivity|].
  assert (Hlen : forall bs h' rest, read_header bs = Some (h', rest) -> bytes_ok bs ->
    (64 <= length bs)%nat).
  { intros bs h' rest H Hok.
    destruct (header_read_bytes bs h' rest Hok H) as (_ & b & r & a & -> & Hl & _).
    rewrite !length_app in *. lia. }
  assert (H56 : length (header_magic ++ le_bytes 2 header_struct_size ++
    le_bytes 2 (hd_credit_charge h) ++ le_bytes 4 (hd_status h) ++
    le_bytes 2 (command_code (hd_command h)) ++ le_bytes 2 (hd_credit_request h) ++
    le_bytes 4 (hd_flags h) ++ le_bytes 4 (hd_next_command h) ++ le_bytes 8 (hd_message_id h) ++
    ([] ++ write_opt 4 None ++ write_opt 8 None) ++ le_bytes 8 (hd_session_id h) ++
    le_bytes 16 (hd_signature h)) = 56%nat) by (rewrite !length_app, !length_le_bytes; reflexivity).
  split; [exact H56|]. destruct (read_header _) as [[h' rest]|] eqn:E; [|done].
  apply Hlen in E; [lia|]. rewrite !bytes_ok_app. split_and!; try apply le_bytes_ok; by repeat constructor.
Qed.
