(* ===== verification/Transport.v ===== *)
(** The direct-TCP transport (crates/smb-transport/src): frames (frame.rs), the 4-byte
    framing header (tcp/msg.rs), the cursor that survives partial vectored writes
    (iovec.rs), and the send and receive loops (traits.rs, tcp/transport.rs).

    The socket is the environment: the number of bytes a write takes, at most what it was
    offered, and the bytes that arrive. [binrw::helpers::write_u24] writes the three low
    bytes of its argument. *)
From S2P Require Import Prelude Bytes.
Local Open Scope Z_scope.

Inductive TransportError :=
| TE_AlreadyConnected
| TE_InvalidMessage
| TE_FrameTooLarge (announced maximum : Z)
| TE_SegmentLimitExceeded (actual maximum : Z)
| TE_CursorAdvanceOutOfBounds (requested remaining : Z)
| TE_WriteZero
| TE_ParseError
| TE_NotConnected
| TE_AlreadySplit
| TE_Timeout (nanos : Z)
| TE_InvalidAddress
| TE_IoError (kind : Z).

(** ** Frames *)

Definition default_max_frame_size : Z := 0x00ffffff.

(** [TransportFrame::from_bytes] *)
Definition transport_frame_from_bytes (bs : bytes) (max_len : Z) : result TransportError bytes :=
  if bool_decide (zlen bs > max_len) then Err (TE_FrameTooLarge (zlen bs) max_len) else Ok bs.

Record SendFrame := mkFrame { sf_segments : list bytes; sf_total_len : Z }.

(** [try_fold(0_usize, checked_add)] *)
Fixpoint sum_lengths (segments : list bytes) (total : Z) : option Z :=
  match segments with
  | [] => Some total
  | segment :: segments =>
      match checked_add usize_max total (zlen segment) with
      | Some total => sum_lengths segments total
      | None => None
      end
  end.

Definition frame_from_segments (segments : list bytes) (maximum_segments : Z)
    : result TransportError SendFrame :=
  if bool_decide (segments = []) then Err TE_InvalidMessage
  else if bool_decide (Z.of_nat (length segments) > maximum_segments)
  then Err (TE_SegmentLimitExceeded (Z.of_nat (length segments)) maximum_segments)
  else match sum_lengths segments 0 with
       | None => Err TE_InvalidMessage
       | Some total =>
           if bool_decide (total = 0) then Err TE_InvalidMessage
           else if bool_decide (total > u32_max) then Err (TE_FrameTooLarge total u32_max)
           else Ok (mkFrame segments total)
       end.

(** ** The framing header *)

(** [SmbTcpMessageHeader]: the magic byte and a big-endian [u24]. *)
Definition write_tcp_header (stream_protocol_length : Z) : bytes := 0 :: be_bytes 3 stream_protocol_length.

Definition read_tcp_header : reader Z :=
  magic ← read_be 1;
  _ ← read_guard (bool_decide (magic = 0));
  read_be 3.

Definition tcp_header_size : nat := 4.

(** ** The send cursor *)

Record SendCursor := mkCursor {
  sc_header : bytes;
  sc_header_pos : nat;
  sc_frame : SendFrame;
  sc_segment_index : nat;
  sc_segment_pos : nat
}.

#[export] Instance eta_SendCursor : Eta SendCursor := fun c =>
  mkCursor (sc_header c) (sc_header_pos c) (sc_frame c) (sc_segment_index c) (sc_segment_pos c).

Definition cursor_new (frame : SendFrame) : result TransportError SendCursor :=
  if bool_decide (sf_total_len frame > u32_max)
  then Err (TE_FrameTooLarge (sf_total_len frame) u32_max)
  else Ok (mkCursor (write_tcp_header (sf_total_len frame)) 0 frame 0 0).

(** The segments from the current one on, the first without what is written of it. *)
Definition cursor_segments (c : SendCursor) : list bytes :=
  match drop (sc_segment_index c) (sf_segments (sc_frame c)) with
  | [] => []
  | segment :: rest => drop (sc_segment_pos c) segment :: rest
  end.

Definition cursor_remaining (c : SendCursor) : nat :=
  (length (sc_header c) - sc_header_pos c) + sum_list (length <$> cursor_segments c).

Definition cursor_chunk (c : SendCursor) : bytes :=
  if bool_decide (sc_header_pos c < length (sc_header c))%nat then drop (sc_header_pos c) (sc_header c)
  else default [] (head (filter (fun segment => segment ≠ []) (cursor_segments c))).

(** The slices offered to a vectored write with room for [limit] of them. *)
Definition chunks_vectored (c : SendCursor) (limit : nat) : list bytes :=
  let header := if bool_decide (sc_header_pos c < length (sc_header c))%nat
                then [drop (sc_header_pos c) (sc_header c)] else [] in
  take limit (header ++ filter (fun segment => segment ≠ []) (cursor_segments c)).

(** The loop of [try_advance]; [None] is an index out of bounds. *)
Fixpoint advance_loop (fuel : nat) (c : SendCursor) (count : nat) : option SendCursor :=
  match count with
  | O => Some c
  | _ =>
      match fuel with
      | O => None
      | S fuel =>
          match sf_segments (sc_frame c) !! sc_segment_index c with
          | None => None
          | Some segment =>
              let consumed := Nat.min count (length segment - sc_segment_pos c) in
              let c := c <| sc_segment_pos := (sc_segment_pos c + consumed)%nat |> in
              let c := if bool_decide (sc_segment_pos c = length segment)
                       then c <| sc_segment_index := S (sc_segment_index c) |> <| sc_segment_pos := O |>
                       else c in
              advance_loop fuel c (count - consumed)
          end
      end
  end.

Definition try_advance (c : SendCursor) (count : nat) : option (result TransportError SendCursor) :=
  let remaining := cursor_remaining c in
  if bool_decide (remaining < count)%nat
  then Some (Err (TE_CursorAdvanceOutOfBounds (Z.of_nat count) (Z.of_nat remaining)))
  else
    let header_count := Nat.min count (length (sc_header c) - sc_header_pos c) in
    let c := c <| sc_header_pos := (sc_header_pos c + header_count)%nat |> in
    Ok <$> advance_loop (S (length (sf_segments (sc_frame c)))) c (count - header_count).

(** ** Sending *)

(** What one write answers: how many bytes it would take, or an error. *)
Inductive WriteAnswer := WA_Written (n : nat) | WA_Failed (e : TransportError).

(** How a send ends: done, failed, or waiting for the socket. *)
Inductive SendState := SS_Done | SS_Failed (e : TransportError) | SS_Waiting | SS_Panicked.

Definition max_vectored_segments : Z := 63.

(** The loop of [send_with_progress]: the state it ends in, the bytes the socket took and
    the reported advances. *)
Fixpoint send_loop (c : SendCursor) (answers : list WriteAnswer) (stream : bytes) (progress : list Z)
    : SendState * bytes * list Z :=
  if bool_decide (cursor_remaining c = O) then (SS_Done, stream, progress)
  else match answers with
       | [] => (SS_Waiting, stream, progress)
       | WA_Failed error :: _ => (SS_Failed error, stream, progress)
       | WA_Written n :: answers =>
           let offered := concat (chunks_vectored c 64) in
           let written := Nat.min n (length offered) in
           let stream := stream ++ take written offered in
           if bool_decide (written = O) then (SS_Failed TE_WriteZero, stream, progress)
           else match try_advance c written with
                | None => (SS_Panicked, stream, progress)
                | Some (Err error) => (SS_Failed error, stream, progress)
                | Some (Ok c) => send_loop c answers stream (progress ++ [Z.of_nat written])
                end
       end.

(** [send_with_progress] of the TCP transport; [connected] is whether it has a writer. *)
Definition tcp_send (frame : SendFrame) (connected : bool) (answers : list WriteAnswer)
    : SendState * bytes * list Z :=
  if bool_decide (Z.of_nat (length (sf_segments frame)) > max_vectored_segments)
  then (SS_Failed (TE_SegmentLimitExceeded (Z.of_nat (length (sf_segments frame))) max_vectored_segments), [], [])
  else match cursor_new frame with
       | Err error => (SS_Failed error, [], [])
       | Ok cursor =>
           if connected then send_loop cursor answers [] [] else (SS_Failed TE_NotConnected, [], [])
       end.

(** The default [send] of a transport: the header and every segment, each written whole. *)
Definition send_default (frame : SendFrame) : bytes :=
  foldl (fun stream segment => stream ++ segment) (write_tcp_header (as_uint u32_max (sf_total_len frame)))
    (sf_segments frame).

(** ** Receiving *)

(** [receive_with_limit] over the bytes that arrive until the peer closes: the frame and
    what is left of them. *)
Definition receive_with_limit (maximum : Z) (stream : bytes) : result TransportError (bytes * bytes) :=
  match read_bytes tcp_header_size stream with
  | None => Err TE_NotConnected
  | Some (header, stream) =>
      match read_tcp_header header with
      | None => Err TE_ParseError
      | Some (len, _) =>
          if bool_decide (len > maximum) then Err (TE_FrameTooLarge len maximum)
          else match read_bytes (Z.to_nat len) stream with
               | None => Err TE_NotConnected
               | Some (data, stream) =>
                   match transport_frame_from_bytes data maximum with
                   | Ok frame => Ok (frame, stream)
                   | Err error => Err error
                   end
               end
      end
  end.

(** ** The cursor stands for the bytes that are left *)

(** What is still to be written. *)
Definition unsent (c : SendCursor) : bytes := drop (sc_header_pos c) (sc_header c) ++ concat (cursor_segments c).

Record cursor_wf (c : SendCursor) : Prop := {
  cw_index : (sc_segment_index c <= length (sf_segments (sc_frame c)))%nat;
  cw_pos s : sf_segments (sc_frame c) !! sc_segment_index c = Some s -> (sc_segment_pos c <= length s)%nat
}.

Lemma length_concat_bytes (l : list bytes) : length (concat l) = sum_list (length <$> l).
Proof. induction l as [|s l IH]; cbn; [done|]. by rewrite length_app, IH. Qed.

Lemma concat_nonempty (l : list bytes) : concat (filter (fun s => s ≠ []) l) = concat l.
Proof.
  induction l as [|s l IH]; [done|]. rewrite filter_cons. case_decide as E; cbn [concat]; [by rewrite IH|].
  by subst s.
Qed.

Lemma remaining_unsent c : cursor_remaining c = length (unsent c).
Proof. unfold cursor_remaining, unsent. by rewrite length_app, length_drop, length_concat_bytes. Qed.

(** The slices of a vectored write are the next bytes, and not none while any are left. *)
Lemma chunks_vectored_prefix c limit :
  (0 < limit)%nat -> unsent c <> [] ->
  exists rest, unsent c = concat (chunks_vectored c limit) ++ rest /\ concat (chunks_vectored c limit) <> [].
Proof.
  intros Hl Hne. unfold chunks_vectored.
  set (header := if bool_decide _ then _ else _). set (l := header ++ _).
  assert (Hall : unsent c = concat l).
  { subst l header. unfold unsent. rewrite concat_app, concat_nonempty. f_equal.
    case_bool_decide; cbn; [by rewrite app_nil_r|]. apply drop_ge. lia. }
  assert (Hpos : Forall (fun s => s ≠ []) l).
  { subst l header. apply Forall_app. split; [|apply Forall_forall; intros s [? _]%list_elem_of_filter; done].
    case_bool_decide; [|apply Forall_nil; done]. apply Forall_singleton. intros E.
    apply (f_equal length) in E. rewrite length_drop in E. cbn in E. lia. }
  exists (concat (drop limit l)). rewrite <- concat_app, take_drop. split; [done|].
  rewrite Hall in Hne. destruct l as [|s l]; [done|]. destruct limit; [lia|].
  apply Forall_cons in Hpos as [Hs _]. cbn. by destruct s.
Qed.

Lemma cursor_segments_step c s :
  sf_segments (sc_frame c) !! sc_segment_index c = Some s ->
  cursor_segments c =
    drop (sc_segment_pos c) s :: drop (S (sc_segment_index c)) (sf_segments (sc_frame c)).
Proof. intros H. unfold cursor_segments. by rewrite (drop_S _ s _ H). Qed.

(** Moving on to the next segment when the current one is used up. *)
Lemma cursor_segments_next c :
  concat (cursor_segments (c <| sc_segment_index := S (sc_segment_index c) |> <| sc_segment_pos := O |>))
  = concat (drop (S (sc_segment_index c)) (sf_segments (sc_frame c))).
Proof. unfold cursor_segments. cbn. by destruct (drop _ _). Qed.

Lemma advance_loop_ok fuel : forall c count,
  cursor_wf c -> (count <= length (concat (cursor_segments c)))%nat ->
  (length (sf_segments (sc_frame c)) - sc_segment_index c < fuel)%nat ->
  exists c', advance_loop fuel c count = Some c' /\ cursor_wf c' /\
    sc_header c' = sc_header c /\ sc_header_pos c' = sc_header_pos c /\
    concat (cursor_segments c') = drop count (concat (cursor_segments c)).
Proof.
  induction fuel as [|fuel IH]; intros c count Hwf Hc Hf; [lia|].
  destruct count as [|count]; cbn [advance_loop]; [by exists c|]. set (n := S count) in *.
  destruct (sf_segments (sc_frame c) !! sc_segment_index c) as [s|] eqn:Hs.
  2: { apply lookup_ge_None in Hs. unfold cursor_segments in Hc. rewrite drop_ge in Hc by done. cbn in Hc. lia. }
  pose proof (cw_pos _ Hwf s Hs) as Hpos. rewrite (cursor_segments_step c s Hs) in *. cbn [concat] in *.
  rewrite length_app, length_drop in Hc. apply lookup_lt_Some in Hs as Hlt.
  set (consumed := Nat.min n (length s - sc_segment_pos c)).
  assert (Hcons : (consumed <= n /\ consumed <= length s - sc_segment_pos c /\
    (consumed = n \/ consumed = length s - sc_segment_pos c))%nat) by (subst consumed; lia).
  clearbody consumed n. set (c1 := c <| sc_segment_pos := (sc_segment_pos c + consumed)%nat |>).
  rewrite drop_app, drop_drop, length_drop.
  destruct (bool_decide (sc_segment_pos c1 = length s)) eqn:Eend.
  - apply bool_decide_eq_true in Eend. cbn in Eend.
    destruct (IH (c1 <| sc_segment_index := S (sc_segment_index c1) |> <| sc_segment_pos := O |>) (n - consumed)%nat)
      as (c' & E & Hwf' & H1 & H2 & H3).
    + split; cbn; [lia|]. intros. lia.
    + rewrite cursor_segments_next. cbn. lia.
    + cbn. lia.
    + exists c'. split_and!; [done..|]. rewrite H3, cursor_segments_next. cbn.
      rewrite (drop_ge s) by lia. cbn. f_equal. lia.
  - apply bool_decide_eq_false in Eend. cbn in Eend. assert (consumed = n) as En by lia.
    replace (n - consumed)%nat with O by lia. destruct fuel; cbn [advance_loop].
    all: exists c1; split_and!; [done| |done|done|].
    all: try (split; cbn; [apply Hwf|intros s' Hs'; assert (s' = s) as -> by congruence; lia]).
    all: rewrite (cursor_segments_step c1 s Hs); cbn; rewrite En.
    all: replace (n - (length s - sc_segment_pos c))%nat with O by lia; done.
Qed.

Lemma try_advance_ok c count :
  cursor_wf c -> (count <= length (unsent c))%nat ->
  exists c', try_advance c count = Some (Ok c') /\ cursor_wf c' /\ unsent c' = drop count (unsent c).
Proof.
  intros Hwf Hc. unfold try_advance. rewrite bool_decide_eq_false_2 by (rewrite remaining_unsent; lia).
  set (n := Nat.min count (length (sc_header c) - sc_header_pos c)).
  set (c1 := c <| sc_header_pos := (sc_header_pos c + n)%nat |>).
  unfold unsent in *. rewrite length_app, length_drop in Hc.
  destruct (advance_loop_ok (S (length (sf_segments (sc_frame c)))) c1 (count - n)) as (c' & E & Hwf' & H1 & H2 & H3).
  - destruct Hwf. by split.
  - change (cursor_segments c1) with (cursor_segments c). lia.
  - change (sf_segments (sc_frame c1)) with (sf_segments (sc_frame c)). lia.
  - cbn [sc_frame c1]. change (sc_frame c1) with (sc_frame c). rewrite E. exists c'. split; [done|]. split; [done|].
    rewrite H1, H2, H3. change (cursor_segments c1) with (cursor_segments c). cbn.
    rewrite drop_app, drop_drop, length_drop. f_equal.
    + destruct (decide (count <= length (sc_header c) - sc_header_pos c)%nat); [f_equal; lia|].
      rewrite !drop_ge by lia. done.
    + f_equal. lia.
Qed.

(** ** Sending *)

(** What a run of the loop achieves: it takes a prefix of what is left, reports exactly
    that, and stops when nothing is left, when the socket fails or takes nothing, or to
    wait. *)
Definition send_outcome (c : SendCursor) (answers : list WriteAnswer) (stream : bytes) (progress : list Z)
    (out : SendState * bytes * list Z) : Prop :=
  let '(state, stream', progress') := out in
  exists k advances, (k <= length (unsent c))%nat /\ stream' = stream ++ take k (unsent c) /\
    progress' = progress ++ advances /\ list_sum id advances = Z.of_nat k /\ state <> SS_Panicked /\
    (state = SS_Done <-> k = length (unsent c)) /\
    (forall e, state = SS_Failed e -> e = TE_WriteZero \/ WA_Failed e ∈ answers) /\
    (Forall (fun a => exists n, a = WA_Written (S n)) answers -> (length (unsent c) <= length answers)%nat ->
     state = SS_Done).

(** Stopping before everything is written. *)
Lemma send_outcome_stop c answers stream progress state :
  length (unsent c) <> O -> state <> SS_Done -> state <> SS_Panicked ->
  (forall e, state = SS_Failed e -> e = TE_WriteZero \/ WA_Failed e ∈ answers) ->
  (Forall (fun a => exists n, a = WA_Written (S n)) answers -> (length answers < length (unsent c))%nat) ->
  send_outcome c answers stream progress (state, stream, progress).
Proof.
  intros Hlen Hd Hp He Hl. exists O, []. cbn [take list_sum]. rewrite !app_nil_r.
  split; [lia|]. split; [done|]. split; [done|]. split; [done|]. split; [done|]. split; [split; [done|lia]|].
  split; [done|]. intros Hf Hle. apply Hl in Hf. lia.
Qed.

Lemma send_loop_ok answers : forall c stream progress,
  cursor_wf c -> send_outcome c answers stream progress (send_loop c answers stream progress).
Proof.
  induction answers as [|answer answers IH]; intros c stream progress Hwf; cbn [send_loop].
  all: rewrite remaining_unsent; case_bool_decide as Hrem.
  1, 3: exists O, []; rewrite Hrem; cbn [take list_sum]; rewrite !app_nil_r; by split_and!.
  { apply send_outcome_stop; try done. cbn. lia. }
  destruct answer as [n|error].
  2: { apply send_outcome_stop; try done; [intros e [= ->]; right; by left|].
       by intros [[? [=]] _]%Forall_cons. }
  destruct (chunks_vectored_prefix c 64) as (rest & Hu & Hne); [lia|by intros E; rewrite E in Hrem|].
  set (offered := concat (chunks_vectored c 64)) in *. set (written := Nat.min n (length offered)).
  assert (Hw : (written <= length offered)%nat) by (subst written; lia).
  assert (Htake : take written offered = take written (unsent c)) by (rewrite Hu, take_app_le; done).
  case_bool_decide as Hz.
  { rewrite Hz. cbn [take]. rewrite app_nil_r. apply send_outcome_stop; try done; [naive_solver|].
    intros [[m [= ->]] _]%Forall_cons. exfalso. unfold written in Hz.
    by destruct offered. }
  assert (Hlen : (written <= length (unsent c))%nat) by (rewrite Hu, length_app; lia).
  destruct (try_advance_ok c written Hwf Hlen) as (c' & -> & Hwf' & Hu').
  specialize (IH c' (stream ++ take written offered) (progress ++ [Z.of_nat written]) Hwf').
  unfold send_outcome in *. destruct (send_loop c' answers _ _) as [[state stream'] progress'].
  destruct IH as (k & adv & Hk & -> & -> & Hs & Hp & Hd & He & Hl). rewrite Hu', length_drop in *.
  exists (written + k)%nat, (Z.of_nat written :: adv). split_and!.
  - lia.
  - rewrite Htake, <- app_assoc, take_take_drop. done.
  - by rewrite <- app_assoc.
  - cbn. lia.
  - done.
  - rewrite Hd. lia.
  - intros e Ee. destruct (He e Ee); [by left|right; by right].
  - intros [[m _] Hf]%Forall_cons Hl'. apply Hl; [done|]. cbn in Hl'. lia.
Qed.

(** ** Frames and their bytes *)

Lemma sum_lengths_Some segments : forall total result,
  sum_lengths segments total = Some result -> result = total + zlen (concat segments).
Proof.
  induction segments as [|s l IH]; intros total r; cbn; [intros [= <-]; unfold zlen; cbn; lia|].
  destruct (checked_add _ _ _) as [t|] eqn:E; [|done]. apply checked_add_Some in E as [_ ->].
  intros ->%IH. unfold zlen. rewrite length_app. lia.
Qed.

Lemma frame_ok segments maximum frame :
  frame_from_segments segments maximum = Ok frame ->
  sf_segments frame = segments /\ sf_total_len frame = zlen (concat segments) /\
  0 < sf_total_len frame <= u32_max.
Proof.
  unfold frame_from_segments. case_bool_decide; [done|]. case_bool_decide; [done|].
  destruct (sum_lengths segments 0) as [total|] eqn:E; [|done].
  apply sum_lengths_Some in E. case_bool_decide; [done|]. case_bool_decide; [done|].
  intros [= <-]. cbn [sf_segments sf_total_len]. unfold zlen in *. split_and!; [done|lia..].
Qed.

Lemma foldl_app_concat (l : list bytes) acc : foldl (fun stream s => stream ++ s) acc l = acc ++ concat l.
Proof.
  revert acc. induction l as [|s l IH]; intros acc; cbn; [by rewrite app_nil_r|]. by rewrite IH, <- app_assoc.
Qed.

Lemma send_default_eq frame :
  0 < sf_total_len frame <= u32_max ->
  send_default frame = write_tcp_header (sf_total_len frame) ++ concat (sf_segments frame).
Proof. intros H. unfold send_default. by rewrite foldl_app_concat, as_uint_small by ints. Qed.

(** C39: however the socket splits the vectored writes, the TCP transport puts a prefix of the
    frame on the wire, the framing header and then every segment in order, and reports
    exactly the bytes it wrote; it is done when, and only when, the whole frame is written,
    with the same bytes as the plain segment-by-segment send. Each positive write brings it
    closer: as many of them as the frame has bytes are enough. *)
Theorem tcp_send_delivers_frame segments maximum frame answers :
  frame_from_segments segments maximum = Ok frame ->
  Z.of_nat (length segments) <= max_vectored_segments ->
  let '(state, stream, progress) := tcp_send frame true answers in
  (exists rest, send_default frame = stream ++ rest) /\ list_sum id progress = zlen stream /\
  state <> SS_Panicked /\ (state = SS_Done <-> stream = send_default frame) /\
  (forall e, state = SS_Failed e -> e = TE_WriteZero \/ WA_Failed e ∈ answers) /\
  (Forall (fun a => exists n, a = WA_Written (S n)) answers ->
   (length (send_default frame) <= length answers)%nat -> state = SS_Done).
Proof.
  intros Hf Hseg. destruct (frame_ok _ _ _ Hf) as (Es & Et & Hr). unfold tcp_send, cursor_new.
  rewrite bool_decide_eq_false_2 by (rewrite Es; lia). rewrite bool_decide_eq_false_2 by lia.
  set (c := mkCursor _ _ _ _ _).
  assert (Hwf : cursor_wf c) by (split; cbn; [lia|intros; lia]).
  assert (Hu : unsent c = send_default frame).
  { rewrite send_default_eq by done. unfold unsent, cursor_segments. cbn. rewrite Es. by destruct segments. }
  pose proof (send_loop_ok answers c [] [] Hwf) as H. unfold send_outcome in H. destruct (send_loop c answers [] []) as [[state stream] progress].
  rewrite Hu in H. destruct H as (k & adv & Hk & -> & -> & Hs & Hp & Hd & He & Hl). cbn [app].
  split_and!; [|rewrite Hs; unfold zlen; rewrite length_take; lia|done| |done|done].
  - exists (drop k (send_default frame)). by rewrite take_drop.
  - rewrite Hd. split; [intros ->; by rewrite firstn_all|].
    intros E. apply (f_equal length) in E. rewrite length_take in E. lia.
Qed.

(** ** Receiving *)

Lemma tcp_header_read len :
  read_tcp_header (write_tcp_header len) = Some (len mod 2 ^ 24, []).
Proof.
  unfold read_tcp_header, write_tcp_header. unfold mbind, reader_bind. cbn -[be_bytes].
  change (0 :: be_bytes 3 len) with (be_bytes 1 0 ++ be_bytes 3 len).
  rewrite (read_be_app 1 0) by (cbn; lia). rewrite read_guard_true by done. unfold read_be.
  rewrite <- (app_nil_r (be_bytes 3 len)), read_bytes_app by apply length_be_bytes.
  rewrite be_value_bytes_mod. done.
Qed.

(** What a peer reads of a stream that starts with a framing header. *)
Lemma receive_header len stream maximum :
  receive_with_limit maximum (write_tcp_header len ++ stream) =
  let n := len mod 2 ^ 24 in
  if bool_decide (n > maximum) then Err (TE_FrameTooLarge n maximum)
  else match read_bytes (Z.to_nat n) stream with
       | None => Err TE_NotConnected
       | Some (data, rest) => Ok (data, rest)
       end.
Proof.
  unfold receive_with_limit. rewrite read_bytes_app.
  2: { unfold write_tcp_header. cbn [length]. by rewrite length_be_bytes. }
  rewrite tcp_header_read. cbv zeta. pose proof (Z.mod_pos_bound len (2 ^ 24)). set (n := len mod 2 ^ 24) in *.
  case_bool_decide as Hn; [done|]. destruct (read_bytes (Z.to_nat n) stream) as [[data rest]|] eqn:E; [|done].
  apply read_bytes_Some in E as [_ El]. unfold transport_frame_from_bytes. rewrite bool_decide_eq_false_2; [done|].
  unfold zlen. lia.
Qed.

(** a frame that fits the 24-bit length field is received as it was sent: the peer's
    reader returns the segments' bytes and leaves exactly what follows them. *)
Lemma frame_send_receive segments maximum_segments frame maximum rest :
  frame_from_segments segments maximum_segments = Ok frame ->
  sf_total_len frame <= default_max_frame_size -> sf_total_len frame <= maximum ->
  receive_with_limit maximum (send_default frame ++ rest) = Ok (concat segments, rest).
Proof.
  intros Hf H24 Hmax. destruct (frame_ok _ _ _ Hf) as (Es & Et & Hr).
  rewrite send_default_eq, <- app_assoc, receive_header by done. cbv zeta.
  unfold default_max_frame_size in H24. rewrite Z.mod_small by lia. rewrite bool_decide_eq_false_2 by lia.
  rewrite Es, read_bytes_app; [done|]. rewrite Et. unfold zlen. lia.
Qed.

(** a frame of sixteen mebibytes or more, which [SendFrame] accepts up to four gibibytes,
    is announced modulo 2^24: the peer takes a part of it for the whole frame and the rest
    of it for the frames that follow. *)
Lemma oversized_frame_desynchronises segments maximum_segments frame rest :
  frame_from_segments segments maximum_segments = Ok frame ->
  default_max_frame_size < sf_total_len frame ->
  let n := sf_total_len frame mod 2 ^ 24 in
  receive_with_limit default_max_frame_size (send_default frame ++ rest)
  = Ok (take (Z.to_nat n) (concat segments), drop (Z.to_nat n) (concat segments) ++ rest) /\
  n < sf_total_len frame.
Proof.
  intros Hf Hbig. destruct (frame_ok _ _ _ Hf) as (Es & Et & Hr). cbv zeta.
  pose proof (Z.mod_pos_bound (sf_total_len frame) (2 ^ 24)) as Hn. unfold default_max_frame_size in *.
  split; [|lia]. rewrite send_default_eq, <- app_assoc, receive_header by done. cbv zeta.
  set (n := sf_total_len frame mod 2 ^ 24) in *. rewrite bool_decide_eq_false_2 by lia. unfold read_bytes.
  unfold zlen in Et. rewrite length_app, Es.
  rewrite (proj2 (Nat.ltb_ge _ _)) by lia. rewrite take_app_le, drop_app_le by lia. done.
Qed.

(** ** Witnesses *)

Definition sample_segments : list bytes := [[1; 2]; []; [3; 4; 5]].

Lemma tcp_send_delivers_frame_witness :
  exists frame, frame_from_segments sample_segments usize_max = Ok frame /\
    let '(state, stream, progress) := tcp_send frame true [WA_Written 1; WA_Written 4; WA_Written 9] in
    state = SS_Done <-> stream = send_default frame.
Proof.
  eexists. split; [vm_compute; reflexivity|].
  pose proof (tcp_send_delivers_frame sample_segments usize_max
    (mkFrame sample_segments 5) [WA_Written 1; WA_Written 4; WA_Written 9]) as H.
  specialize (H eq_refl). specialize (H ltac:(vm_compute; discriminate)).
  change (mkFrame [[1; 2]; []; [3; 4; 5]] 5) with (mkFrame sample_segments 5).
  destruct (tcp_send _ _ _) as [[state stream] progress]. apply H.
Defined.

Lemma bytes_of_length n : 0 <= n -> exists bs : bytes, zlen bs = n.
Proof. intros Hn. exists (replicate (Z.to_nat n) 0). unfold zlen. rewrite length_replicate. lia. Qed.

Lemma single_segment_frame bs :
  0 < zlen bs <= u32_max -> frame_from_segments [bs] 1 = Ok (mkFrame [bs] (zlen bs)).
Proof.
  intros Hn. unfold frame_from_segments. rewrite bool_decide_eq_false_2 by done.
  rewrite bool_decide_eq_false_2 by (cbn; lia). cbn [sum_lengths]. unfold checked_add.
  rewrite bool_decide_eq_true_2 by ints. rewrite Z.add_0_l.
  by rewrite !bool_decide_eq_false_2 by lia.
Qed.

