(* ===== verification/Operation.v ===== *)
(** Typed operations (crates/smb/src/runtime/operation.rs) and the request sizes they
    are charged for (crates/smb-msg/src/plain.rs). *)
From S2P Require Import Prelude Clock Reducer Bytes Header ObjectState.
Local Open Scope Z_scope.

(** ** Replay *)

Inductive ReplayPolicy :=
| RPol_NeverReplay | RPol_ReplayIfUncommitted | RPol_IdempotentReplay | RPol_DurableReconnectOnly.

Inductive RecoveryDecision :=
| RD_FailWithoutReplay | RD_Replay | RD_DurableReconnect | RD_OutcomeUnknown.

Definition rpol_decide (p : ReplayPolicy) (wire_committed durable_resource : bool)
    : RecoveryDecision :=
  match p with
  | RPol_NeverReplay => if wire_committed then RD_OutcomeUnknown else RD_FailWithoutReplay
  | RPol_ReplayIfUncommitted => if wire_committed then RD_OutcomeUnknown else RD_Replay
  | RPol_IdempotentReplay => RD_Replay
  | RPol_DurableReconnectOnly =>
      if durable_resource then RD_DurableReconnect
      else if wire_committed then RD_OutcomeUnknown else RD_FailWithoutReplay
  end.

(** ** Response policies *)

Inductive OperationContractError :=
| OCE_CommandMismatch (expected actual : Command)
| OCE_UnexpectedStatus (command : Command) (status : Status)
| OCE_EmptyStatusPolicy (command : Command)
| OCE_CreditChargeOverflow (command : Command).

Inductive AcceptedStatuses := AS_Any | AS_OneOf (statuses : list Status).

Record ResponsePolicy := mkResponsePolicy {
  rsp_command : Command;
  rsp_statuses : AcceptedStatuses
}.

Definition rsp_one_of (command : Command) (statuses : list Status)
    : result OperationContractError ResponsePolicy :=
  if bool_decide (statuses = []) then Err (OCE_EmptyStatusPolicy command)
  else Ok (mkResponsePolicy command (AS_OneOf statuses)).

Definition rsp_any (command : Command) : ResponsePolicy := mkResponsePolicy command AS_Any.

Definition rsp_accepts_wire_status (p : ResponsePolicy) (status : option Status) : bool :=
  match rsp_statuses p, status with
  | AS_Any, _ => true
  | AS_OneOf statuses, Some status => bool_decide (status ∈ statuses)
  | AS_OneOf _, None => false
  end.

Definition rsp_accepts_status (p : ResponsePolicy) (status : Status) : bool :=
  rsp_accepts_wire_status p (Some status).

(** ** Request contents

    The requests that carry or ask for data, with the sizes they are charged for; the
    others by their command. [buffer_size] is the encoded size of an ioctl's input. *)
Inductive RequestContent :=
| RC_Write (length : Z)
| RC_Read (length : Z)
| RC_QueryDirectory (output_buffer_length : Z)
| RC_Ioctl (buffer_size max_input_response max_output_response : Z)
| RC_Other (command : Command).

Definition rc_associated_cmd (c : RequestContent) : Command :=
  match c with
  | RC_Write _ => Cmd_Write
  | RC_Read _ => Cmd_Read
  | RC_QueryDirectory _ => Cmd_QueryDirectory
  | RC_Ioctl _ _ _ => Cmd_Ioctl
  | RC_Other command => command
  end.

Definition req_payload_size (c : RequestContent) : Z :=
  match c with
  | RC_Write length => length
  | RC_Ioctl buffer_size _ max_output_response =>
      wrapping_add u32_max buffer_size max_output_response
  | _ => 0
  end.

Definition expected_resp_size (c : RequestContent) : Z :=
  match c with
  | RC_Read length => length
  | RC_QueryDirectory output_buffer_length => output_buffer_length
  | RC_Ioctl _ max_input_response max_output_response =>
      wrapping_add u32_max max_input_response max_output_response
  | _ => 0
  end.

(** ** Typed operations *)

(** Of the outgoing request, its content, its extra payload and whether the caller wants
    the encoded request back. *)
Record CommandRequest := mkRequest {
  creq_content : RequestContent;
  creq_additional_data : option bytes;
  creq_return_raw_data : bool
}.

Record TypedOperation := mkOperation {
  op_response : ResponsePolicy;
  op_outgoing : CommandRequest;
  op_dependency : option ObjectToken;
  op_replay : ReplayPolicy
}.

#[export] Instance eta_TypedOperation : Eta TypedOperation := fun o =>
  mkOperation (op_response o) (op_outgoing o) (op_dependency o) (op_replay o).

Definition op_new (outgoing : CommandRequest) (response : ResponsePolicy)
    : result OperationContractError TypedOperation :=
  let actual := rc_associated_cmd (creq_content outgoing) in
  let expected := rsp_command response in
  if bool_decide (actual ≠ expected) then Err (OCE_CommandMismatch expected actual)
  else Ok (mkOperation response outgoing None RPol_NeverReplay).

Definition op_any_status (outgoing : CommandRequest) : TypedOperation :=
  mkOperation (rsp_any (rc_associated_cmd (creq_content outgoing))) outgoing None RPol_NeverReplay.

Definition op_with_dependency (o : TypedOperation) (dependency : ObjectToken) : TypedOperation :=
  o <| op_dependency := Some dependency |>.

Definition op_with_replay_policy (o : TypedOperation) (replay : ReplayPolicy) : TypedOperation :=
  o <| op_replay := replay |>.

Definition op_payload_bytes (o : TypedOperation) : Z :=
  match creq_additional_data (op_outgoing o) with
  | Some payload => Z.of_nat (length payload)
  | None => 0
  end.

Definition credit_bytes : Z := 65536.

Definition op_credit_charge (o : TypedOperation) (large_mtu : bool)
    : result OperationContractError Z :=
  if negb large_mtu then Ok 1
  else
    let command := rsp_command (op_response o) in
    let charged := match command with
                   | Cmd_Read | Cmd_Write | Cmd_Ioctl | Cmd_QueryDirectory => true
                   | _ => false
                   end in
    if negb charged then Ok 1
    else
      let request := req_payload_size (creq_content (op_outgoing o)) in
      let response := expected_resp_size (creq_content (op_outgoing o)) in
      let units := 1 + saturating_sub (Z.max request response) 1 / credit_bytes in
      if bool_decide (units <= u16_max) then Ok units
      else Err (OCE_CreditChargeOverflow command).

Definition op_validate_response (o : TypedOperation) (command : Command) (status : Status)
    : result OperationContractError unit :=
  let expected := rsp_command (op_response o) in
  if bool_decide (command ≠ expected) then Err (OCE_CommandMismatch expected command)
  else if negb (rsp_accepts_status (op_response o) status)
  then Err (OCE_UnexpectedStatus command status)
  else Ok tt.

(** ** Properties *)

(** an operation that may already have taken effect is sent again only if it is
    declared idempotent; without a replay or a durable reconnect, its caller is told
    that the outcome is unknown exactly when bytes were sent. *)
Lemma replay_is_safe policy committed durable :
  let d := rpol_decide policy committed durable in
  (d = RD_Replay -> committed = false \/ policy = RPol_IdempotentReplay) /\
  (d = RD_DurableReconnect <-> policy = RPol_DurableReconnectOnly /\ durable = true) /\
  (d = RD_OutcomeUnknown -> committed = true) /\
  (d = RD_FailWithoutReplay -> committed = false).
Proof. destruct policy, committed, durable; naive_solver. Qed.

(** The sizes of a content fit their 32-bit fields. *)
Definition content_ok (c : RequestContent) : Prop :=
  match c with
  | RC_Write n | RC_Read n | RC_QueryDirectory n => in_range u32_max n
  | RC_Ioctl b i o => in_range u32_max b /\ in_range u32_max i /\ in_range u32_max o
  | RC_Other _ => True
  end.

Lemma content_sizes_ok c :
  content_ok c -> in_range u32_max (req_payload_size c) /\ in_range u32_max (expected_resp_size c).
Proof.
  destruct c; cbn; try (intros; split; ints). intros (? & ? & ?). unfold wrapping_add.
  pose proof (Z.mod_pos_bound (buffer_size + max_output_response) (u32_max + 1)).
  pose proof (Z.mod_pos_bound (max_input_response + max_output_response) (u32_max + 1)).
  split; ints.
Qed.

(** the credit charge is the number of 64 KiB units of the larger of the request's
    and the response's payload, at least one; it covers the payload with less than one
    unit to spare, fits the 16-bit header field, and the operation is refused exactly
    when the payload needs more than 65535 units. *)
Lemma credit_charge_covers_payload o :
  content_ok (creq_content (op_outgoing o)) ->
  let size := Z.max (req_payload_size (creq_content (op_outgoing o)))
                (expected_resp_size (creq_content (op_outgoing o))) in
  match op_credit_charge o true with
  | Ok charge =>
      1 <= charge <= u16_max /\
      (rsp_command (op_response o) ∈ [Cmd_Read; Cmd_Write; Cmd_Ioctl; Cmd_QueryDirectory] ->
       size <= charge * credit_bytes /\ (charge - 1) * credit_bytes <= Z.max 0 (size - 1))
  | Err e => e = OCE_CreditChargeOverflow (rsp_command (op_response o)) /\
             u16_max * credit_bytes < size
  end.
Proof.
  intros Hok. cbv zeta. destruct (content_sizes_ok _ Hok) as [H1 H2].
  unfold op_credit_charge. cbn [negb]. set (size := Z.max _ _).
  assert (Hs : in_range u32_max size) by (unfold size; ints). clearbody size.
  assert (Hdiv : let u := 1 + saturating_sub size 1 / credit_bytes in
    1 <= u /\ size <= u * credit_bytes /\ (u - 1) * credit_bytes <= Z.max 0 (size - 1)).
  { cbv zeta. unfold credit_bytes. set (s' := saturating_sub size 1).
    assert (s' = Z.max 0 (size - 1)) by (unfold s'; ints).
    pose proof (Z.div_mod s' 65536 ltac:(lia)). pose proof (Z.mod_pos_bound s' 65536 ltac:(lia)).
    assert (0 <= s' / 65536) by (apply Z.div_pos; lia). lia. }
  cbv zeta in Hdiv. set (u := 1 + saturating_sub size 1 / credit_bytes) in *.
  assert (Hcase : match (if bool_decide (u <= u16_max) then Ok u
      else Err (OCE_CreditChargeOverflow (rsp_command (op_response o)))) with
    | Ok charge => 1 <= charge <= u16_max /\ (rsp_command (op_response o) ∈
        [Cmd_Read; Cmd_Write; Cmd_Ioctl; Cmd_QueryDirectory] ->
       size <= charge * credit_bytes /\ (charge - 1) * credit_bytes <= Z.max 0 (size - 1))
    | Err e => e = OCE_CreditChargeOverflow (rsp_command (op_response o)) /\
        u16_max * credit_bytes < size
    end).
  { case_bool_decide as Hu; [split; [lia|tauto]|]. split; [done|].
    unfold credit_bytes in *. ints. }
  destruct (rsp_command (op_response o)) eqn:Ec; cbn [negb]; try exact Hcase;
    (split; [ints|]; intros Hin; exfalso; revert Hin;
     rewrite !elem_of_cons, elem_of_nil; intuition congruence).
Qed.

(** an operation accepts a response exactly when it answers the operation's command
    with a status its policy names, or any status if the policy names none; a policy
    with an explicit list is never empty. *)
Lemma response_contract outgoing policy o command status :
  op_new outgoing policy = Ok o ->
  (op_validate_response o command status = Ok tt <->
   command = rc_associated_cmd (creq_content outgoing) /\
   match rsp_statuses policy with AS_Any => True | AS_OneOf l => status ∈ l end) /\
  (forall l, rsp_one_of command l = Err (OCE_EmptyStatusPolicy command) <-> l = []).
Proof.
  intros Hnew. unfold op_new in Hnew. case_bool_decide as Hc; [done|]. injection Hnew as <-. split.
  - unfold op_validate_response. cbn. rewrite Hc. case_bool_decide as Hcmd; [naive_solver|].
    unfold rsp_accepts_status, rsp_accepts_wire_status.
    destruct (rsp_statuses policy) as [|l]; cbn; [naive_solver|].
    case_bool_decide; cbn; naive_solver.
  - intros l. unfold rsp_one_of. case_bool_decide; naive_solver.
Qed.

