(* ===== verification/PreparationOrder.v ===== *)
(** Completions released in reservation order
    (crates/smb/src/runtime/preparation_order.rs), and its refinement of a list of
    slots that are filled in any order and emptied from the front. *)
From S2P Require Import Prelude.

Section queue.
Context {K V : Type} `{Countable K}.

(** ** The queue *)

Record OrderedCompletionQueue := mkOrdered {
  ocq_order : list K;
  ocq_reserved : gset K;
  ocq_completed : gmap K V
}.

Definition ocq_default : OrderedCompletionQueue := mkOrdered [] ∅ ∅.

Definition ocq_is_empty (q : OrderedCompletionQueue) : bool := bool_decide (ocq_order q = []).

(** [None] is a failed assertion. *)
Definition ocq_reserve (q : OrderedCompletionQueue) (key : K) : option OrderedCompletionQueue :=
  if bool_decide (key ∈ ocq_reserved q) then None
  else Some (mkOrdered (ocq_order q ++ [key]) ({[key]} ∪ ocq_reserved q) (ocq_completed q)).

(** The loop of [complete] over the front of the order. *)
Fixpoint ocq_drain (order : list K) (reserved : gset K) (completed : gmap K V) (ready : list V)
    : OrderedCompletionQueue * list V :=
  match order with
  | [] => (mkOrdered [] reserved completed, ready)
  | key :: rest =>
      match completed !! key with
      | None => (mkOrdered (key :: rest) reserved completed, ready)
      | Some value =>
          ocq_drain rest (reserved ∖ {[key]}) (delete key completed) (ready ++ [value])
      end
  end.

Definition ocq_complete (q : OrderedCompletionQueue) (key : K) (value : V)
    : option (OrderedCompletionQueue * list V) :=
  if bool_decide (key ∉ ocq_reserved q) then None
  else if bool_decide (is_Some (ocq_completed q !! key)) then None
  else Some (ocq_drain (ocq_order q) (ocq_reserved q) (<[key := value]> (ocq_completed q)) []).

(** ** The specification: slots *)

Abbreviation slots := (list (K * option V)).

Definition spec_reserve (s : slots) (key : K) : option slots :=
  if bool_decide (key ∈ s.*1) then None else Some (s ++ [(key, None)]).

Fixpoint spec_release (s : slots) : list V * slots :=
  match s with
  | (key, Some value) :: rest =>
      let '(out, remaining) := spec_release rest in (value :: out, remaining)
  | _ => ([], s)
  end.

Definition spec_fill (s : slots) (key : K) (value : V) : slots :=
  (fun slot => if bool_decide (slot.1 = key) then (key, Some value) else slot) <$> s.

(** The slot of [key] waits for a value. *)
Definition spec_waiting (s : slots) (key : K) : bool :=
  existsb (fun slot => bool_decide (slot.1 = key) && negb (bool_decide (is_Some slot.2))) s.

Definition spec_complete (s : slots) (key : K) (value : V) : option (slots * list V) :=
  if spec_waiting s key then
    let '(out, remaining) := spec_release (spec_fill s key value) in Some (remaining, out)
  else None.

(** ** Refinement *)

Definition slots_of (q : OrderedCompletionQueue) : slots :=
  (fun key => (key, ocq_completed q !! key)) <$> ocq_order q.

(** What the queue keeps: the order holds each reserved key once, only reserved keys
    are completed, and nothing releasable is left. *)
Record ocq_wf (q : OrderedCompletionQueue) : Prop := {
  ow_nodup : NoDup (ocq_order q);
  ow_reserved : forall k, k ∈ ocq_reserved q <-> k ∈ ocq_order q;
  ow_completed : forall k, is_Some (ocq_completed q !! k) -> k ∈ ocq_order q;
  ow_drained : forall k rest, ocq_order q = k :: rest -> ocq_completed q !! k = None
}.

Lemma slots_of_keys q : (slots_of q).*1 = ocq_order q.
Proof. unfold slots_of. rewrite <- list_fmap_compose. apply list_fmap_id. Qed.

Lemma ocq_drain_spec order : forall reserved completed ready,
  NoDup order -> (forall k, k ∈ reserved <-> k ∈ order) ->
  (forall k, is_Some (completed !! k) -> k ∈ order) ->
  let '(q, out) := ocq_drain order reserved completed ready in
  let '(released, remaining) := spec_release ((fun k => (k, completed !! k)) <$> order) in
  ocq_wf q /\ slots_of q = remaining /\ out = ready ++ released.
Proof.
  induction order as [|k order IH]; intros reserved completed ready Hnd Hres Hcomp; cbn.
  { rewrite app_nil_r. split; [|done]. split; cbn; auto; try done. }
  apply NoDup_cons in Hnd as [Hk Hnd]. destruct (completed !! k) as [v|] eqn:Hv.
  - specialize (IH (reserved ∖ {[k]}) (delete k completed) (ready ++ [v]) Hnd).
    assert (E : (fun k' => (k', delete k completed !! k')) <$> order =
                (fun k' => (k', completed !! k')) <$> order).
    { apply list_fmap_ext. intros i k' Hi. rewrite lookup_delete_ne; [done|].
      intros ->. apply Hk. by eapply list_elem_of_lookup_2. }
    rewrite E in IH. destruct (ocq_drain _ _ _ _) as [q out].
    destruct (spec_release _) as [released remaining].
    destruct IH as (IH1 & IH2 & ->).
    + intros k'. rewrite elem_of_difference, Hres, elem_of_cons, elem_of_singleton.
      split; [naive_solver|]. intros Hin. split; [by right|]. intros ->. done.
    + intros k' [v' [Hne Hv']%lookup_delete_Some]. assert (k' ∈ k :: order) as [->|]%elem_of_cons
        by (apply Hcomp; eauto); done.
    + split; [done|]. split; [done|]. by rewrite <- app_assoc.
  - rewrite app_nil_r. split; [|split; [unfold slots_of; cbn; by rewrite Hv|done]].
    split; cbn; auto.
    + by apply NoDup_cons.
    + by intros ? ? [= <- <-].
Qed.

Lemma spec_waiting_iff q k :
  ocq_wf q -> spec_waiting (slots_of q) k = true <->
  k ∈ ocq_reserved q /\ ocq_completed q !! k = None.
Proof.
  intros [_ Hres _ _]. unfold spec_waiting, slots_of. rewrite existsb_exists. split.
  - intros ([k' o] & Hin & [Hk Ho]%andb_true_iff). apply list_elem_of_In in Hin.
    apply list_elem_of_fmap in Hin as (k'' & [= -> ->] & Hin). cbn in Hk, Ho.
    apply bool_decide_eq_true in Hk as <-. rewrite Hres. split; [done|].
    apply negb_true_iff, bool_decide_eq_false in Ho. by apply eq_None_not_Some.
  - intros [Hk Hc]. exists (k, None). split.
    + apply list_elem_of_In, list_elem_of_fmap. exists k. rewrite Hc. split; [done|]. by apply Hres.
    + cbn. by rewrite bool_decide_eq_true_2.
Qed.

(** C38: the queue implements the slots. From any state that reservations and completions
    build, [reserve] and [complete] panic exactly when the slots refuse, release the
    same values in the same order, and lead to matching states; so a value leaves when,
    and only when, every earlier reservation has completed. *)
Theorem completion_queue_refines_slots q :
  ocq_wf q ->
  (forall key, match ocq_reserve q key with
     | Some q' => ocq_wf q' /\ spec_reserve (slots_of q) key = Some (slots_of q')
     | None => spec_reserve (slots_of q) key = None
     end) /\
  (forall key value, match ocq_complete q key value with
     | Some (q', ready) => ocq_wf q' /\
         spec_complete (slots_of q) key value = Some (slots_of q', ready)
     | None => spec_complete (slots_of q) key value = None
     end).
Proof.
  intros Hq. pose proof Hq as [Hnd Hres Hcomp Hdr]. split.
  - intros key. unfold ocq_reserve, spec_reserve. rewrite slots_of_keys.
    rewrite (bool_decide_ext (key ∈ ocq_reserved q) (key ∈ ocq_order q)) by apply Hres.
    case_bool_decide as Hk; [done|].
    assert (Hnone : ocq_completed q !! key = None).
    { apply eq_None_not_Some. intros Hs. by apply Hk, Hcomp. }
    split.
    + split; cbn.
      * apply NoDup_app. split_and!; [done| |apply NoDup_singleton].
        intros k Hin ->%list_elem_of_singleton. done.
      * intros k. rewrite elem_of_union, elem_of_singleton, elem_of_app, list_elem_of_singleton, Hres.
        naive_solver.
      * intros k Hs. apply elem_of_app. left. by apply Hcomp.
      * intros k rest E. destruct (ocq_order q) as [|k0 order] eqn:Eo; cbn in E; simplify_eq; [done|].
        by eapply Hdr.
    + unfold slots_of. cbn. rewrite fmap_app. cbn. by rewrite Hnone.
  - intros key value. unfold ocq_complete, spec_complete.
    destruct (spec_waiting (slots_of q) key) eqn:Hw.
    + apply (spec_waiting_iff q key Hq) in Hw as [Hin Hnone].
      rewrite bool_decide_eq_false_2 by auto.
      rewrite bool_decide_eq_false_2 by (rewrite Hnone; by intros []).
      pose proof (ocq_drain_spec (ocq_order q) (ocq_reserved q)
        (<[key:=value]> (ocq_completed q)) [] Hnd Hres) as H1.
      assert (E : (fun k => (k, <[key:=value]> (ocq_completed q) !! k)) <$> ocq_order q =
        spec_fill (slots_of q) key value).
      { unfold spec_fill, slots_of. rewrite <- list_fmap_compose. apply list_fmap_ext.
        intros i k _. cbn. case_bool_decide as Hk; [subst; by rewrite lookup_insert_eq|].
        by rewrite lookup_insert_ne. }
      rewrite E in H1. destruct (ocq_drain _ _ _ _) as [q' ready].
      destruct (spec_release _) as [released remaining].
      destruct H1 as (W & <- & ->); [|done].
      intros k Hs. destruct (decide (k = key)) as [->|Hne]; [by apply Hres|].
      rewrite lookup_insert_ne in Hs by done. by apply Hcomp.
    + assert (Hnw : ~ (key ∈ ocq_reserved q /\ ocq_completed q !! key = None)).
      { intros Hc. by rewrite (proj2 (spec_waiting_iff q key Hq) Hc) in Hw. }
      case_bool_decide as Hin; [done|]. case_bool_decide as Hs; [done|].
      destruct Hnw. split; [done|]. by apply eq_None_not_Some.
Qed.

(** What [complete] does to the keys and values, without regard to their order. *)
Lemma ocq_drain_keeps order : forall reserved completed ready k,
  let q := (ocq_drain order reserved completed ready).1 in
  (k ∈ reserved -> completed !! k = None -> k ∈ ocq_reserved q /\ ocq_completed q !! k = None) /\
  (k ∈ ocq_reserved q -> k ∈ reserved) /\
  (forall v, ocq_completed q !! k = Some v -> completed !! k = Some v) /\
  (k ∈ reserved -> is_Some (ocq_completed q !! k) -> k ∈ ocq_reserved q).
Proof.
  induction order as [|k0 order IH]; intros reserved completed ready k; cbn; [done|].
  destruct (completed !! k0) as [v0|] eqn:Hv; [|done].
  destruct (IH (reserved ∖ {[k0]}) (delete k0 completed) (ready ++ [v0]) k) as (A & B & C & D). split_and!.
  - intros Hr Hc. apply A.
    + apply elem_of_difference. split; [done|]. intros ->%elem_of_singleton. congruence.
    + rewrite lookup_delete_ne; [done|]. congruence.
  - intros Hin%B. by apply elem_of_difference in Hin as [? _].
  - intros v Hin%C. by apply lookup_delete_Some in Hin as [_ ?].
  - intros Hr [v Hv']. apply D; [|eauto]. apply C, lookup_delete_Some in Hv' as [Hne _].
    apply elem_of_difference. split; [done|]. intros ->%elem_of_singleton. done.
Qed.

Lemma ocq_drain_ready (P : V -> Prop) order : forall reserved completed ready,
  map_Forall (fun _ => P) completed -> Forall P ready ->
  Forall P (ocq_drain order reserved completed ready).2.
Proof.
  induction order as [|k0 order IH]; intros reserved completed ready Hc Hr; cbn; [done|].
  destruct (completed !! k0) as [v0|] eqn:Hv; [|done]. apply IH.
  - intros k v [_ Hk]%lookup_delete_Some. by eapply Hc.
  - apply Forall_app. split; [done|]. apply Forall_singleton. by eapply Hc.
Qed.

(** Draining moves values from the completed ones to the released ones. *)
Lemma ocq_drain_sum (f : V -> Z) order : forall reserved completed ready,
  let '(q, out) := ocq_drain order reserved completed ready in
  (map_sum f (ocq_completed q) + list_sum f out = map_sum f completed + list_sum f ready)%Z.
Proof.
  induction order as [|k0 order IH]; intros reserved completed ready; cbn; [done|].
  destruct (completed !! k0) as [v0|] eqn:Hv; [|done].
  specialize (IH (reserved ∖ {[k0]}) (delete k0 completed) (ready ++ [v0])).
  destruct (ocq_drain _ _ _ _) as [q out]. rewrite IH, (map_sum_delete f completed k0 v0 Hv).
  rewrite list_sum_app. cbn. lia.
Qed.

Lemma ocq_wf_default : ocq_wf ocq_default.
Proof.
  split; cbn; try done.
  - apply NoDup_nil_2.
  - intros k. rewrite elem_of_nil, elem_of_empty. done.
  - intros k [v Hv]. by rewrite lookup_empty in Hv.
Qed.
End queue.

Lemma completion_queue_refines_slots_witness :
  exists q : OrderedCompletionQueue (K := Z) (V := Z), ocq_order q = [10%Z; 20%Z] /\
    spec_complete (slots_of q) 20%Z 7%Z = Some ([(10%Z, None); (20%Z, Some 7%Z)], []).
Proof.
  set (q0 := (ocq_default : OrderedCompletionQueue (K := Z) (V := Z))).
  destruct (completion_queue_refines_slots q0 ocq_wf_default) as [H1 _].
  specialize (H1 10%Z). vm_compute in H1. destruct H1 as [W1 _].
  destruct (completion_queue_refines_slots _ W1) as [H2 _].
  specialize (H2 20%Z). vm_compute in H2. destruct H2 as [W2 _].
  eexists. split; [|refine (proj2 (proj2 (completion_queue_refines_slots _ W2) 20%Z 7%Z))].
  vm_compute. reflexivity.
Defined.
