(* ===== verification/Transfer.v ===== *)
(** Pipelined file transfers (crates/smb/src/domain/transfer.rs, [run_transfer]).

    Up to [concurrency] chunk reads are in flight; the chunks are written in order of
    their offsets. The order in which reads complete is a parameter of the model, and
    so are the results of the reads and writes, so the theorems hold for every
    schedule and every failure. *)
From S2P Require Import Prelude Bytes.
Local Open Scope Z_scope.

(** ** Data *)

(** The fields of [TransferOptions] the scheduler uses. *)
Record TransferOptions := mkOptions { to_concurrency : Z; to_chunk_size : Z }.

Definition default_options : TransferOptions := mkOptions 4 (1024 * 1024).

Record ChunkCompleted := mkProgress {
  cc_offset : Z; cc_bytes : Z; cc_transferred : Z; cc_total : Z
}.

Record TransferReport := mkReport { tr_bytes : Z; tr_chunks : Z }.

Section transfer.
Context {E : Type}.

Inductive ChunkError := CE_Io (e : E) | CE_ShortRead | CE_ShortWrite.

Inductive TransferError :=
| TE_InvalidArgument
| TE_TransferFailed (offset transferred : Z) (source : ChunkError)
| TE_InvalidState.

Record TransferState := mkTransfer {
  ts_pending : list (Z * Z);
  ts_ready : gmap Z bytes;
  ts_next_read : Z;
  ts_next_write : Z;
  ts_transferred : Z;
  ts_chunks : Z;
  ts_progress : list ChunkCompleted;
  (** the writes performed so far, in order *)
  ts_written : list (Z * bytes)
}.

#[export] Instance eta_TransferState : Eta TransferState := fun s =>
  mkTransfer (ts_pending s) (ts_ready s) (ts_next_read s) (ts_next_write s)
    (ts_transferred s) (ts_chunks s) (ts_progress s) (ts_written s).

(** ** The scheduler *)

(** The environment: what each read and each write returns, and which of the pending
    reads completes next. *)
Context (read_chunk : Z -> Z -> result E bytes).
Context (write_chunk : Z -> bytes -> result E Z).
Context (next_completion : list (Z * Z) -> nat).

Context (length_ : Z) (options : TransferOptions).

(** The inner [while]: it runs at most as often as there are free slots. *)
Fixpoint fill (slots : nat) (s : TransferState) : TransferState :=
  match slots with
  | O => s
  | S slots =>
      if bool_decide (Z.of_nat (length (ts_pending s)) + Z.of_nat (size (ts_ready s))
                        < to_concurrency options) &&
         bool_decide (ts_next_read s < length_)
      then
        let remaining := length_ - ts_next_read s in
        let chunk_length := as_uint u32_max (Z.min remaining (to_chunk_size options)) in
        let offset := ts_next_read s in
        fill slots (s <| ts_next_read := wrapping_add u64_max offset chunk_length |>
                      <| ts_pending := ts_pending s ++ [(offset, chunk_length)] |>)
      else s
  end.

(** [pending.next().await] on a non-empty set: the environment's choice. *)
Definition take_completion (pending : list (Z * Z)) : option ((Z * Z) * list (Z * Z)) :=
  match pending with
  | [] => None
  | p :: _ =>
      let i := (next_completion pending mod length pending)%nat in
      Some (default p (pending !! i), delete i pending)
  end.

Definition read_result (offset chunk_length : Z) : result ChunkError bytes :=
  match read_chunk offset chunk_length with
  | Err e => Err (CE_Io e)
  | Ok bs => if bool_decide (Z.of_nat (length bs) ≠ chunk_length) then Err CE_ShortRead else Ok bs
  end.

(** One iteration of the outer loop: [inl] continues, [inr] returns. *)
Definition turn (s : TransferState)
    : TransferState * option (result TransferError TransferReport) :=
  let s := fill (Z.to_nat (to_concurrency options)) s in
  match ts_ready s !! ts_next_write s with
  | Some bs =>
      let s := s <| ts_ready := delete (ts_next_write s) (ts_ready s) |> in
      let expected := Z.of_nat (length bs) in
      match write_chunk (ts_next_write s) bs with
      | Err e => (s, Some (Err (TE_TransferFailed (ts_next_write s) (ts_transferred s) (CE_Io e))))
      | Ok written =>
          if bool_decide (written ≠ expected) then
            (s, Some (Err (TE_TransferFailed (ts_next_write s) (ts_transferred s) CE_ShortWrite)))
          else
            let offset := ts_next_write s in
            let s := s <| ts_next_write := wrapping_add u64_max offset written |>
                       <| ts_transferred := wrapping_add u64_max (ts_transferred s) written |>
                       <| ts_chunks := wrapping_add u64_max (ts_chunks s) 1 |>
                       <| ts_written := ts_written s ++ [(offset, bs)] |> in
            (s <| ts_progress := ts_progress s ++
                  [mkProgress offset written (ts_transferred s) length_] |>, None)
      end
  | None =>
      match take_completion (ts_pending s) with
      | Some ((offset, chunk_length), rest) =>
          let s := s <| ts_pending := rest |> in
          match read_result offset chunk_length with
          | Err source => (s, Some (Err (TE_TransferFailed offset (ts_transferred s) source)))
          | Ok bs => (s <| ts_ready := <[offset := bs]> (ts_ready s) |>, None)
          end
      | None =>
          if bool_decide (ts_ready s = ∅)
          then (s, Some (Ok (mkReport (ts_transferred s) (ts_chunks s))))
          else (s, Some (Err TE_InvalidState))
      end
  end.

Fixpoint transfer_loop (fuel : nat) (s : TransferState)
    : TransferState * option (result TransferError TransferReport) :=
  match fuel with
  | O => (s, None)
  | S fuel =>
      match turn s with
      | (s, Some r) => (s, Some r)
      | (s, None) => transfer_loop fuel s
      end
  end.

Definition transfer_start : TransferState := mkTransfer [] ∅ 0 0 0 0 [] [].

(** Each chunk is read once and written once, so two iterations per chunk and one to
    return are enough; a file of [length_] bytes has at most [length_] chunks. *)
Definition transfer_fuel : nat := S (2 * Z.to_nat length_).

Definition run_transfer : TransferState * option (result TransferError TransferReport) :=
  if bool_decide (to_concurrency options = 0) || bool_decide (to_chunk_size options = 0)
  then (transfer_start, Some (Err TE_InvalidArgument))
  else transfer_loop transfer_fuel transfer_start.
End transfer.

(** What a transfer guarantees for every schedule and every failure
    (crates/smb/src/domain/transfer.rs). *)

Section props.
Context {E : Type}.
Context (read_chunk : Z -> Z -> result E bytes).
Context (write_chunk : Z -> bytes -> result E Z).
Context (next_completion : list (Z * Z) -> nat).
Context (len : Z) (options : TransferOptions).

Abbreviation fill := (fill len options).
Abbreviation turn := (turn read_chunk write_chunk next_completion len options).
Abbreviation transfer_loop := (transfer_loop read_chunk write_chunk next_completion len options).
Abbreviation state := TransferState.

(** The arguments the types allow and the entry check lets through. *)
Record options_ok : Prop := {
  ok_length : in_range u64_max len;
  ok_concurrency : 1 <= to_concurrency options <= usize_max;
  ok_chunk : 1 <= to_chunk_size options <= u32_max
}.

(** Chunk [i] begins at [off i] and ends where the next one begins. *)
Definition off (i : nat) : Z := Z.min (Z.of_nat i * to_chunk_size options) len.
Definition clen (i : nat) : Z := off (S i) - off i.

Definition keys (m : gmap Z bytes) : list Z := (map_to_list m).*1.

Hypothesis Hok : options_ok.

Lemma off_mono i j : (i <= j)%nat -> off i <= off j.
Proof. destruct Hok as [[? ?] ? ?]. unfold off. nia. Qed.

Lemma off_range i : 0 <= off i <= len.
Proof. destruct Hok as [[? ?] ? ?]. unfold off. nia. Qed.

Lemma off_lt i j : (i < j)%nat -> off i < len -> off i < off j.
Proof. destruct Hok as [[? ?] ? ?]. unfold off. nia. Qed.

Lemma clen_range i : 0 <= clen i <= to_chunk_size options.
Proof. destruct Hok as [[? ?] ? ?]. unfold clen, off. nia. Qed.

Lemma clen_eq i : off i < len -> clen i = Z.min (len - off i) (to_chunk_size options).
Proof. destruct Hok as [[? ?] ? ?]. unfold clen, off. nia. Qed.

(** Every chunk before [n] has a byte. *)
Definition real (n : nat) : Prop := forall i, (i < n)%nat -> off i < len.

Lemma real_off n : real n -> Z.of_nat n <= off n.
Proof.
  induction n as [|n IH]; intros Hn; [pose proof (off_range 0); lia|].
  assert (Z.of_nat n <= off n) by (apply IH; intros i Hi; apply Hn; lia).
  pose proof (off_lt n (S n) ltac:(lia) (Hn n ltac:(lia))). lia.
Qed.

Lemma NoDup_off w k : real (w + k) -> NoDup (off <$> seq w k).
Proof.
  intros Hr. apply NoDup_fmap_2_strong; [|apply NoDup_seq].
  intros i j [Hi ?]%elem_of_seq [Hj ?]%elem_of_seq Heq.
  destruct (decide (i = j)) as [|Hne]; [done|exfalso].
  destruct (decide (i < j)%nat).
  - pose proof (off_lt i j ltac:(lia) (Hr i ltac:(lia))). lia.
  - pose proof (off_lt j i ltac:(lia) (Hr j ltac:(lia))). lia.
Qed.

(** ** The invariant: [w] chunks written, [r] chunks requested *)

Record inv (w r : nat) (s : state) : Prop := {
  iv_le : (w <= r)%nat;
  iv_real : real r;
  iv_read : ts_next_read s = off r;
  iv_write : ts_next_write s = off w;
  iv_transferred : ts_transferred s = off w;
  iv_chunks : ts_chunks s = Z.of_nat w;
  iv_outstanding : (ts_pending s).*1 ++ keys (ts_ready s) ≡ₚ off <$> seq w (r - w);
  iv_pending : Forall (fun p => exists i, off i < len /\ p = (off i, clen i)) (ts_pending s);
  iv_ready : map_Forall (fun o bs => exists i, o = off i /\ off i < len /\
    Z.of_nat (length bs) = clen i /\ read_chunk o (clen i) = Ok bs) (ts_ready s);
  iv_source : Forall (fun p => read_chunk p.1 (Z.of_nat (length p.2)) = Ok p.2) (ts_written s);
  iv_written : (ts_written s).*1 = off <$> seq 0 w;
  iv_lengths : (fun p => Z.of_nat (length p.2)) <$> ts_written s = clen <$> seq 0 w;
  iv_slots : Z.of_nat (length (ts_pending s)) + Z.of_nat (size (ts_ready s))
               <= to_concurrency options
}.

Lemma inv_start : inv 0 0 (transfer_start).
Proof.
  destruct Hok as [[? ?] ? ?]. split; cbn; try done.
  - intros i Hi. lia.
  - unfold off. lia.
  - unfold off. lia.
  - unfold off. lia.
  - rewrite map_size_empty. lia.
Qed.

Lemma fill_spec slots : forall w r s,
  inv w r s ->
  exists r', (r <= r')%nat /\ inv w r' (fill slots s) /\
    ts_ready (fill slots s) = ts_ready s /\
    (to_concurrency options - (Z.of_nat (length (ts_pending s)) + Z.of_nat (size (ts_ready s)))
       <= Z.of_nat slots ->
     to_concurrency options <= Z.of_nat (length (ts_pending (fill slots s)))
       + Z.of_nat (size (ts_ready (fill slots s))) \/ off r' = len).
Proof.
  induction slots as [|slots IH]; intros w r s Hinv; cbn [Transfer.fill].
  { exists r. split; [lia|]. split; [done|]. split; [done|]. intros Hs. left. lia. }
  destruct (bool_decide _ && bool_decide _) eqn:Hc.
  2: { exists r. split; [lia|]. split; [done|]. split; [done|]. intros _.
       apply andb_false_iff in Hc as [Hc%bool_decide_eq_false|Hc%bool_decide_eq_false].
       - left. lia.
       - right. rewrite (iv_read _ _ _ Hinv) in Hc. pose proof (off_range r). lia. }
  apply andb_true_iff in Hc as [Hfree%bool_decide_eq_true Hmore%bool_decide_eq_true].
  pose proof Hinv as [I1 I2 I3 I4 I5 I6 I7 I8 I9 Isrc I10 I11 I12]. rewrite I3 in Hmore |- *.
  destruct Hok as [[? Hlen] ? ?].
  assert (Hcl : as_uint u32_max (Z.min (len - off r) (to_chunk_size options)) = clen r).
  { rewrite as_uint_small by ints. by rewrite clen_eq. }
  assert (Hnr : wrapping_add u64_max (off r) (clen r) = off (S r)).
  { unfold clen. pose proof (off_range (S r)). rewrite wrapping_add_small by lia. lia. }
  rewrite Hcl, Hnr. set (s1 := s <| ts_next_read := _ |> <| ts_pending := _ |>).
  assert (Hout : (ts_pending s ++ [(off r, clen r)]).*1 ++ keys (ts_ready s)
    ≡ₚ off <$> seq w (S r - w)).
  { replace (S r - w)%nat with ((r - w) + 1)%nat by lia. rewrite seq_app, !fmap_app, <- I7.
    replace (w + (r - w))%nat with r by lia.
    rewrite <- !app_assoc. apply Permutation_app_head, Permutation_app_comm. }
  assert (Hinv1 : inv w (S r) s1).
  { split; cbn; try assumption.
    - lia.
    - intros i Hi. destruct (decide (i = r)) as [->|]; [done|]. apply I2. lia.
    - reflexivity.
    - apply Forall_app. split; [done|]. repeat constructor. eauto.
    - rewrite length_app. cbn. lia. }
  destruct (IH w (S r) s1 Hinv1) as (r' & Hr' & Hinv' & Hready & Hstop).
  exists r'. split; [lia|]. split; [done|]. split; [done|]. intros Hs. apply Hstop.
  cbn. rewrite length_app. cbn. lia.
Qed.

Lemma fill_written slots : forall s, ts_written (fill slots s) = ts_written s.
Proof.
  induction slots as [|slots IH]; intros s; cbn [Transfer.fill]; [done|].
  destruct (_ && _); [|done]. by rewrite IH.
Qed.

(** ** One turn *)

Lemma keys_insert m o bs : m !! o = None -> keys (<[o := bs]> m) ≡ₚ o :: keys m.
Proof. intros Hm. unfold keys. by rewrite map_to_list_insert. Qed.

Lemma keys_delete m o bs : m !! o = Some bs -> keys m ≡ₚ o :: keys (delete o m).
Proof. intros Hm. unfold keys. by rewrite <- (map_to_list_delete m o bs). Qed.

Lemma elem_of_keys m o : o ∈ keys m <-> is_Some (m !! o).
Proof.
  unfold keys. rewrite list_elem_of_fmap. split.
  - intros ([k v] & -> & H%elem_of_map_to_list). eauto.
  - intros [v Hv]. exists (o, v). split; [done|]. by apply elem_of_map_to_list.
Qed.

Lemma take_completion_Some pending p rest :
  take_completion next_completion pending = Some (p, rest) -> pending ≡ₚ p :: rest.
Proof.
  unfold take_completion. destruct pending as [|p0 pending]; [done|].
  set (l := p0 :: pending). set (i := (next_completion l mod length l)%nat).
  assert (Hi : (i < length l)%nat) by (apply Nat.mod_upper_bound; done).
  destruct (l !! i) as [q|] eqn:Hq; [|apply lookup_ge_None in Hq; lia].
  intros [= <- <-]. by apply delete_Permutation.
Qed.

(** Writing chunk [w]. *)
Lemma inv_write w r s bs :
  inv w r s -> ts_ready s !! off w = Some bs ->
  (w < r)%nat /\ Z.of_nat (length bs) = clen w /\
  inv (S w) r (s <| ts_ready := delete (off w) (ts_ready s) |>
    <| ts_next_write := off (S w) |> <| ts_transferred := off (S w) |>
    <| ts_chunks := Z.of_nat (S w) |> <| ts_written := ts_written s ++ [(off w, bs)] |>).
Proof.
  intros [I1 I2 I3 I4 I5 I6 I7 I8 I9 Isrc I10 I11 I12] Hbs.
  pose proof (keys_delete _ _ _ Hbs) as Hk.
  assert (Hin : off w ∈ off <$> seq w (r - w)).
  { rewrite <- I7. apply elem_of_app. right. apply elem_of_keys. eauto. }
  assert (Hwr : (w < r)%nat).
  { apply list_elem_of_fmap in Hin as (j & _ & Hj%elem_of_seq). lia. }
  assert (Hlen : Z.of_nat (length bs) = clen w /\ read_chunk (off w) (clen w) = Ok bs).
  { destruct (I9 _ _ Hbs) as (i & Ei & Hi & -> & Hrd).
    destruct (decide (i = w)) as [->|Hne]; [done|].
    pose proof (off_mono i w). pose proof (off_mono w i).
    destruct (decide (i < w)%nat).
    - pose proof (off_lt i w ltac:(lia) Hi). lia.
    - pose proof (off_lt w i ltac:(lia) (I2 w Hwr)). lia. }
  destruct Hlen as [Hlen Hrd].
  assert (Hsrc : Forall (fun p => read_chunk p.1 (Z.of_nat (length p.2)) = Ok p.2)
    (ts_written s ++ [(off w, bs)])).
  { apply Forall_app. split; [done|]. repeat constructor. cbn. by rewrite Hlen. }
  assert (Hout : (ts_pending s).*1 ++ keys (delete (off w) (ts_ready s))
    ≡ₚ off <$> seq (S w) (r - S w)).
  { apply (Permutation_cons_inv (a := off w)).
    rewrite Permutation_middle, <- Hk, I7. by replace (r - w)%nat with (S (r - S w))%nat by lia. }
  assert (Hsz : Z.of_nat (size (ts_ready s)) = Z.of_nat (size (delete (off w) (ts_ready s))) + 1).
  { rewrite map_size_delete_Some by eauto.
    assert (size (ts_ready s) <> 0%nat); [|lia].
    intros H0%map_size_empty_iff. by rewrite H0, lookup_empty in Hbs. }
  assert (Hoff : (ts_written s ++ [(off w, bs)]).*1 = off <$> seq 0 (S w))
    by by rewrite fmap_app, I10, seq_S, fmap_app.
  assert (Hlens : (fun p => Z.of_nat (length p.2)) <$> (ts_written s ++ [(off w, bs)])
    = clen <$> seq 0 (S w)) by (rewrite fmap_app, I11, seq_S, fmap_app; cbn; by rewrite Hlen).
  split; [done|]. split; [done|]. split; try assumption; try done; try (cbn; lia).
  cbn. intros o bs' [_ Hbs']%lookup_delete_Some. by apply I9.
Qed.

(** Completing a pending read. *)
Lemma inv_complete w r s p rest bs :
  inv w r s -> ts_pending s ≡ₚ p :: rest -> Z.of_nat (length bs) = p.2 ->
  read_chunk p.1 p.2 = Ok bs ->
  inv w r (s <| ts_pending := rest |> <| ts_ready := <[p.1 := bs]> (ts_ready s) |>) /\
  Z.of_nat (size (<[p.1 := bs]> (ts_ready s))) = Z.of_nat (size (ts_ready s)) + 1.
Proof.
  intros [I1 I2 I3 I4 I5 I6 I7 I8 I9 Isrc I10 I11 I12] Hp Hbs Hrd.
  assert (Hnd : NoDup ((ts_pending s).*1 ++ keys (ts_ready s))).
  { rewrite I7. apply NoDup_off. by replace (w + (r - w))%nat with r by lia. }
  rewrite Hp in Hnd. cbn in Hnd. apply NoDup_cons in Hnd as [Hnin _].
  assert (Hnone : ts_ready s !! p.1 = None).
  { apply eq_None_not_Some. intros Hs. apply Hnin, elem_of_app. right. by apply elem_of_keys. }
  assert (Hsz : size (<[p.1 := bs]> (ts_ready s)) = S (size (ts_ready s)))
    by by apply map_size_insert_None.
  assert (Hout : rest.*1 ++ keys (<[p.1 := bs]> (ts_ready s)) ≡ₚ off <$> seq w (r - w)).
  { rewrite keys_insert by done. rewrite <- I7, Hp. cbn. by rewrite <- Permutation_middle. }
  pose proof I8 as I8'. rewrite Hp in I8'. apply Forall_cons in I8' as [(i & Hi & ->) I8'].
  split; [|lia]. split; cbn in *; try assumption.
  - apply map_Forall_insert_2; [|done]. eauto.
  - rewrite Hsz. pose proof (Permutation_length Hp). cbn in *. lia.
Qed.

(** What remains to be done, in turns. *)
Definition measure (w : nat) (s : state) : Z := 2 * (len - Z.of_nat w) - Z.of_nat (size (ts_ready s)).

Lemma ready_bound w r s :
  inv w r s -> Z.of_nat (size (ts_ready s)) <= len - Z.of_nat w.
Proof.
  intros [I1 I2 I3 I4 I5 I6 I7 I8 I9 Isrc I10 I11 I12].
  assert (H : (size (ts_ready s) <= r - w)%nat).
  { pose proof (Permutation_length I7) as Hl.
    rewrite length_app, !length_fmap, length_seq in Hl.
    unfold keys in Hl. rewrite length_fmap, length_map_to_list in Hl. lia. }
  pose proof (real_off r I2). pose proof (off_range r). lia.
Qed.

(** A turn keeps the invariant; it goes on with less left to do, succeeds with
    everything written, or fails with a chunk's error. *)
Lemma turn_spec w r s :
  inv w r s ->
  exists w' r', (w <= w')%nat /\ match turn s with
  | (s', None) => inv w' r' s' /\ measure w' s' < measure w s
  | (s', Some (Ok report)) =>
      inv w' r' s' /\ off w' = len /\ report = mkReport len (Z.of_nat w')
  | (s', Some (Err e)) => w' = w /\ ts_written s' = ts_written s /\
      exists o source, e = TE_TransferFailed o (off w) source
  end.
Proof.
  intros Hinv. unfold Transfer.turn.
  destruct (fill_spec (Z.to_nat (to_concurrency options)) w r s Hinv)
    as (r' & Hr' & Hinv' & Hready & Hstop).
  assert (Hmeas : forall w', measure w' (fill (Z.to_nat (to_concurrency options)) s) = measure w' s)
    by (intros w'; unfold measure; by rewrite Hready).
  assert (Hwr0 : ts_written (fill (Z.to_nat (to_concurrency options)) s) = ts_written s).
  { apply fill_written. }
  set (s1 := fill (Z.to_nat (to_concurrency options)) s) in *. clearbody s1.
  pose proof Hinv' as [I1 I2 I3 I4 I5 I6 I7 I8 I9 Isrc I10 I11 I12]. rewrite I4.
  destruct (ts_ready s1 !! off w) as [bs|] eqn:Hbs.
  - destruct (inv_write w r' s1 bs Hinv' Hbs) as (Hwr & Hlen & Hnext).
    cbn [ts_next_write]. cbn. rewrite I4.
    destruct (write_chunk (off w) bs) as [written|e].
    2: { exists w, r'. split; [lia|]. rewrite I5. eauto. }
    case_bool_decide as Hw; [exists w, r'; split; [lia|]; rewrite I5; eauto|].
    pose proof (off_range (S w)). destruct Hok as [[? ?] ? ?].
    assert (Hc : written = clen w) by lia.
    exists (S w), r'. split; [lia|].
    assert (Ea : wrapping_add u64_max (off w) written = off (S w)).
    { rewrite Hc. unfold clen. rewrite wrapping_add_small by lia. lia. }
    assert (Ec : wrapping_add u64_max (Z.of_nat w) 1 = Z.of_nat (S w)).
    { rewrite wrapping_add_small; [lia|]. pose proof (real_off r' I2). pose proof (off_range r'). lia. }
    rewrite I5, I6, Ea, Ec. split.
    + destruct Hnext. split; assumption.
    + rewrite <- Hmeas. unfold measure. cbn. rewrite map_size_delete_Some by eauto. lia.
  - destruct (take_completion next_completion (ts_pending s1)) as [[[o l] rest]|] eqn:Hp.
    + apply take_completion_Some in Hp. unfold read_result.
      destruct (read_chunk o l) as [bs|e] eqn:Hrd; [|exists w, r'; split; [lia|]; cbn; rewrite I5; eauto].
      case_bool_decide as Hl; [exists w, r'; split; [lia|]; cbn; rewrite I5; eauto|].
      exists w, r'. split; [lia|].
      destruct (inv_complete w r' s1 (o, l) rest bs Hinv' Hp Hl Hrd) as [Hn Hsz]. split; [done|].
      rewrite <- Hmeas. unfold measure. cbn in *. lia.
    + assert (Hpe : ts_pending s1 = []) by (by destruct (ts_pending s1)).
      assert (Hwr : w = r').
      { destruct (decide (w = r')) as [|Hne]; [done|exfalso].
        assert (Hin : off w ∈ off <$> seq w (r' - w)).
        { apply list_elem_of_fmap. exists w. split; [done|]. apply elem_of_seq. lia. }
        rewrite <- I7, Hpe in Hin. cbn in Hin. apply elem_of_keys in Hin. by rewrite Hbs in Hin; destruct Hin. }
      subst r'. rewrite Nat.sub_diag, Hpe in I7. cbn in I7.
      assert (Hre : ts_ready s1 = ∅).
      { apply map_to_list_empty_iff. apply Permutation_nil_r in I7. unfold keys in I7.
        by destruct (map_to_list (ts_ready s1)). }
      rewrite bool_decide_eq_true_2 by done. exists w, w. split; [lia|].
      destruct Hstop as [Hfull|Hend].
      * pose proof (iv_slots _ _ _ Hinv). destruct Hok as [_ [? ?] _]. lia.
      * rewrite Hpe, Hre, map_size_empty in Hfull. destruct Hok as [_ [? ?] _]. cbn in Hfull. lia.
      * split; [done|]. split; [done|]. by rewrite I5, I6, Hend.
Qed.

Lemma measure_nonneg w r s : inv w r s -> 0 <= measure w s.
Proof.
  intros H. pose proof (ready_bound w r s H) as Hb.
  pose proof (real_off r (iv_real _ _ _ H)). pose proof (off_range r).
  pose proof (iv_le _ _ _ H). unfold measure. lia.
Qed.

Lemma transfer_loop_spec fuel : forall w r s,
  inv w r s -> measure w s < Z.of_nat fuel ->
  exists w', match transfer_loop fuel s with
  | (_, None) => False
  | (s', Some (Ok report)) => exists r', inv w' r' s' /\ off w' = len /\
      report = mkReport len (Z.of_nat w')
  | (s', Some (Err e)) => exists r' sb, inv w' r' sb /\ ts_written s' = ts_written sb /\
      exists o source, e = TE_TransferFailed o (off w') source
  end.
Proof.
  induction fuel as [|fuel IH]; intros w r s Hinv Hf.
  { pose proof (measure_nonneg w r s Hinv). lia. }
  cbn [Transfer.transfer_loop]. destruct (turn_spec w r s Hinv) as (w' & r' & Hw & Ht).
  destruct (turn s) as [s' [[report|e]|]].
  - exists w', r'. exact Ht.
  - destruct Ht as (-> & Hwr & Herr). exists w, r, s. auto.
  - destruct Ht as [Hinv' Hm]. apply (IH w' r' s' Hinv'). lia.
Qed.

Lemma run_transfer_spec :
  exists w', match run_transfer read_chunk write_chunk next_completion len options with
  | (_, None) => False
  | (s', Some (Ok report)) => exists r', inv w' r' s' /\ off w' = len /\
      report = mkReport len (Z.of_nat w')
  | (s', Some (Err e)) => exists r' sb, inv w' r' sb /\ ts_written s' = ts_written sb /\
      exists o source, e = TE_TransferFailed o (off w') source
  end.
Proof.
  unfold run_transfer. pose proof Hok as [[? ?] ? ?].
  rewrite !bool_decide_eq_false_2 by lia. cbn [orb].
  apply (transfer_loop_spec _ 0 0 _ inv_start). unfold measure, transfer_fuel. cbn [ts_ready transfer_start].
  rewrite map_size_empty. lia.
Qed.

(** The chunks written are the file's first bytes when the reads return the file's. *)
Lemma written_prefix file (ws : list (Z * bytes)) n :
  Z.of_nat (length file) = len ->
  ws.*1 = off <$> seq 0 n -> (fun p => Z.of_nat (length p.2)) <$> ws = clen <$> seq 0 n ->
  Forall (fun p => p.2 = take (length p.2) (drop (Z.to_nat p.1) file)) ws ->
  concat ws.*2 = take (Z.to_nat (off n)) file.
Proof.
  intros Hfile. revert ws. induction n as [|n IH]; intros ws H1 H2 H3.
  - destruct ws; [|done]. cbn. unfold off. pose proof Hok as [[? ?] ? ?].
    by replace (Z.to_nat (Z.min (Z.of_nat 0 * to_chunk_size options) len)) with 0%nat by lia.
  - rewrite seq_S, fmap_app in H1, H2.
    destruct ws as [|p ws' _] using rev_ind.
    { destruct n; done. }
    rewrite fmap_app in H1, H2. apply app_inj_tail in H1 as [H1 Ho]. apply app_inj_tail in H2 as [H2 Hl].
    apply Forall_app in H3 as [H3 Hp]. apply Forall_cons in Hp as [Hp _].
    rewrite fmap_app, concat_app, (IH ws' H1 H2 H3). cbn. rewrite app_nil_r. cbv beta in Hp.
    cbn [Nat.add] in Ho, Hl. rewrite Ho in Hp. pose proof (off_mono n (S n) ltac:(lia)). pose proof (off_range n).
    replace (Z.to_nat (off (S n))) with (Z.to_nat (off n) + length p.2)%nat
      by (unfold clen in Hl; lia).
    rewrite <- take_take_drop. f_equal. exact Hp.
Qed.
End props.

(** ** Properties *)

Section theorems.
Context {E : Type}.
Context (read_chunk : Z -> Z -> result E bytes).
Context (write_chunk : Z -> bytes -> result E Z).
Context (next_completion : list (Z * Z) -> nat).

(** a transfer always ends, whatever the reads and writes return and in whatever
    order the reads complete, and its internal-state error is unreachable. *)
Lemma transfer_terminates len options :
  in_range u64_max len -> in_range usize_max (to_concurrency options) ->
  in_range u32_max (to_chunk_size options) ->
  exists s r, run_transfer read_chunk write_chunk next_completion len options = (s, Some r) /\
    r <> Err TE_InvalidState.
Proof.
  intros H1 H2 H3.
  destruct (decide (to_concurrency options = 0 \/ to_chunk_size options = 0)) as [Hz|Hnz].
  - unfold run_transfer. exists transfer_start, (Err TE_InvalidArgument). split; [|done].
    destruct Hz as [-> | ->]; [done|]. by rewrite orb_true_r.
  - assert (Hok : options_ok len options) by (split; ints).
    destruct (run_transfer_spec read_chunk write_chunk next_completion len options Hok) as (w & H).
    destruct (run_transfer _ _ _ _ _) as [s [[report|e]|]]; [| |done].
    + by exists s, (Ok report).
    + exists s, (Err e). split; [done|]. destruct H as (r' & sb & _ & _ & o & src & ->). done.
Qed.

(** C7: a transfer that succeeds has copied the file. If the reads return the source
    file's bytes, the writes performed are, in order, consecutive chunks from offset
    zero whose concatenation is the whole file, and the report counts its bytes. *)
Theorem transfer_success_copies_file file options s report :
  let len := Z.of_nat (length file) in
  options_ok len options ->
  (forall o l bs, read_chunk o l = Ok bs -> Z.of_nat (length bs) = l ->
     bs = take (length bs) (drop (Z.to_nat o) file)) ->
  run_transfer read_chunk write_chunk next_completion len options = (s, Some (Ok report)) ->
  concat (ts_written s).*2 = file /\ tr_bytes report = len /\
  tr_chunks report = Z.of_nat (length (ts_written s)) /\
  (ts_written s).*1 = off len options <$> seq 0 (length (ts_written s)).
Proof.
  cbv zeta. intros Hok Hread Hrun.
  destruct (run_transfer_spec read_chunk write_chunk next_completion _ options Hok) as (w & H).
  rewrite Hrun in H. destruct H as (r' & Hinv & Hend & ->).
  destruct Hinv as [I1 I2 I3 I4 I5 I6 I7 I8 I9 Isrc I10 I11 I12].
  assert (Hl : length (ts_written s) = w).
  { rewrite <- (length_fmap fst), I10, length_fmap, length_seq. done. }
  split_and!; [|done|by rewrite Hl|by rewrite Hl].
  rewrite (written_prefix (Z.of_nat (length file)) options Hok file _ w eq_refl I10 I11).
  - rewrite Hend, Nat2Z.id. by rewrite firstn_all.
  - eapply Forall_impl; [exact Isrc|]. intros p Hp. by apply (Hread p.1 (Z.of_nat (length p.2))).
Qed.

(** a failed transfer says how far it got: the bytes it reports as transferred are
    exactly the bytes of the writes that completed, a gapless prefix of the file. *)
Lemma transfer_failure_reports_prefix len options s offset transferred source :
  options_ok len options ->
  run_transfer read_chunk write_chunk next_completion len options =
    (s, Some (Err (TE_TransferFailed offset transferred source))) ->
  transferred = off len options (length (ts_written s)) /\
  (ts_written s).*1 = off len options <$> seq 0 (length (ts_written s)) /\
  (fun p => Z.of_nat (length p.2)) <$> ts_written s =
    clen len options <$> seq 0 (length (ts_written s)).
Proof.
  intros Hok Hrun.
  destruct (run_transfer_spec read_chunk write_chunk next_completion _ options Hok) as (w & H).
  rewrite Hrun in H. destruct H as (r' & sb & Hinv & Ew & o & src & [= -> -> ->]).
  destruct Hinv as [I1 I2 I3 I4 I5 I6 I7 I8 I9 Isrc I10 I11 I12]. rewrite Ew.
  assert (Hl : length (ts_written sb) = w).
  { rewrite <- (length_fmap fst), I10, length_fmap, length_seq. done. }
  by rewrite Hl.
Qed.
End theorems.

(** ** Witnesses: a five-byte file in chunks of two, the reads completing last first *)

Definition sample_file : bytes := [10; 11; 12; 13; 14].
Definition sample_read (o l : Z) : result unit bytes :=
  Ok (take (Z.to_nat l) (drop (Z.to_nat o) sample_file)).
Definition sample_write (o : Z) (bs : bytes) : result unit Z := Ok (Z.of_nat (length bs)).
Definition last_first (pending : list (Z * Z)) : nat := pred (length pending).

Lemma sample_options_ok : options_ok 5 (mkOptions 2 2).
Proof. split; cbn; ints. Qed.

Lemma transfer_success_copies_file_witness :
  let s := (run_transfer sample_read sample_write last_first 5 (mkOptions 2 2)).1 in
  concat (ts_written s).*2 = sample_file /\ (ts_written s).*1 = [0; 2; 4].
Proof.
  cbv zeta.
  destruct (transfer_success_copies_file sample_read sample_write last_first sample_file (mkOptions 2 2)
    (run_transfer sample_read sample_write last_first 5 (mkOptions 2 2)).1 (mkReport 5 3)
    sample_options_ok) as (H & _).
  - intros o l bs Hread Hl. unfold sample_read in Hread. injection Hread as Hbs.
    rewrite <- Hl, Nat2Z.id in Hbs. by symmetry.
  - by vm_compute.
  - split; [exact H|]. by vm_compute.
Defined.
