(* ===== verification/UncPath.v ===== *)
(** UNC paths (crates/smb/src/client/unc_path.rs). A string is the list of its
    characters; only the two separators and the ASCII letters matter here. *)
From S2P Require Import Prelude.
Local Open Scope Z_scope.

Abbreviation str := (list Z).

Definition backslash : Z := 92.
Definition slash : Z := 47.

Definition is_separator (c : Z) : bool := bool_decide (c = backslash) || bool_decide (c = slash).

Record UncPath := mkUnc {
  unc_server : str;
  unc_share : option str;
  unc_path : option str
}.

#[export] Instance eta_UncPath : Eta UncPath := fun u =>
  mkUnc (unc_server u) (unc_share u) (unc_path u).

Inductive UncError := UE_InvalidServer | UE_InvalidShare | UE_NoPrefix.

(** ** Operations *)

(** [path.replace('/', "\\")] *)
Definition normalize_directory_separators (path : str) : str :=
  (fun c => if bool_decide (c = slash) then backslash else c) <$> path.

Definition check_no_separators (path : str) : bool :=
  negb (existsb (fun c => bool_decide (c = backslash)) path) &&
  negb (existsb (fun c => bool_decide (c = slash)) path).

Definition unc_new (server : str) : result UncError UncPath :=
  if negb (check_no_separators server) then Err UE_InvalidServer else Ok (mkUnc server None None).

(** ["IPC$"] *)
Definition smb_ipc_share : str := [73; 80; 67; 36].

Definition unc_with_share (u : UncPath) (share : str) : result UncError UncPath :=
  if negb (check_no_separators share) then Err UE_InvalidShare
  else Ok (mkUnc (unc_server u) (Some share) (unc_path u)).

Definition unc_ipc_share (server : str) : result UncError UncPath :=
  u ← unc_new server; unc_with_share u smb_ipc_share.

Definition unc_is_ipc_share (u : UncPath) : bool := bool_decide (unc_share u = Some smb_ipc_share).

Definition unc_with_path (u : UncPath) (path : str) : UncPath :=
  mkUnc (unc_server u) (unc_share u) (Some (normalize_directory_separators path)).

Definition unc_with_no_path (u : UncPath) : UncPath := mkUnc (unc_server u) (unc_share u) None.

(** [trim_start_matches('\\')] and [trim_end_matches('\\')] *)
Fixpoint trim_start (s : str) : str :=
  match s with
  | c :: rest => if bool_decide (c = backslash) then trim_start rest else s
  | [] => []
  end.

Definition trim_end (s : str) : str := reverse (trim_start (reverse s)).

Definition unc_with_add_path (u : UncPath) (add_path : str) : UncPath :=
  let add_path := normalize_directory_separators add_path in
  match unc_path u with
  | None | Some [] => u <| unc_path := Some add_path |>
  | Some existing => u <| unc_path := Some (trim_end existing ++ [backslash] ++ trim_start add_path) |>
  end.

(** [s.eq_ignore_ascii_case(t)] *)
Definition ascii_lower (c : Z) : Z := if bool_decide (65 <= c <= 90) then c + 32 else c.
Definition eq_ignore_ascii_case (s t : str) : bool :=
  bool_decide (ascii_lower <$> s = ascii_lower <$> t).

Definition compare_option_case_insensitive (a b : option str) : bool :=
  match a, b with
  | Some s1, Some s2 => eq_ignore_ascii_case s1 s2
  | None, None => true
  | _, _ => false
  end.

Definition unc_eq (a b : UncPath) : bool :=
  if negb (eq_ignore_ascii_case (unc_server a) (unc_server b)) then false
  else if negb (compare_option_case_insensitive (unc_share a) (unc_share b)) then false
  else if negb (compare_option_case_insensitive (unc_path a) (unc_path b)) then false
  else true.

(** [s.splitn(n, ['\\', '/'])]: at most [n] pieces, the last one unsplit. *)
Fixpoint split_once (s : str) : str * option str :=
  match s with
  | [] => ([], None)
  | c :: rest =>
      if is_separator c then ([], Some rest)
      else let '(piece, tail) := split_once rest in (c :: piece, tail)
  end.

Fixpoint splitn (n : nat) (s : str) : list str :=
  match n with
  | O => []
  | S O => [s]
  | S n => match split_once s with
           | (piece, None) => [piece]
           | (piece, Some tail) => piece :: splitn n tail
           end
  end.

Definition starts_with (prefix s : str) : bool := bool_decide (take (length prefix) s = prefix).

Definition unc_from_str (input : str) : result UncError UncPath :=
  if negb (starts_with [backslash; backslash] input) && negb (starts_with [slash; slash] input)
  then Err UE_NoPrefix
  else
    let parts := splitn 3 (drop 2 input) in
    match parts with
    | [] => Err UE_NoPrefix
    | server :: rest =>
        Ok (mkUnc (normalize_directory_separators server)
             (normalize_directory_separators <$> rest !! 0%nat)
             (normalize_directory_separators <$> rest !! 1%nat))
    end.

(** [Display] *)
Definition unc_to_string (u : UncPath) : str :=
  [backslash; backslash] ++ unc_server u
    ++ match unc_share u with Some share => backslash :: share | None => [] end
    ++ match unc_path u with Some path => backslash :: path | None => [] end.

(** ** Well-formed paths *)

Definition plain (s : str) : Prop := Forall (fun c => is_separator c = false) s.
Definition normalized (s : str) : Prop := Forall (fun c => c <> slash) s.

(** What parsing and the constructors produce: names without separators, a path with
    backslashes only, and no path without a share. *)
Record unc_wf (u : UncPath) : Prop := {
  uw_server : plain (unc_server u);
  uw_share : forall s, unc_share u = Some s -> plain s;
  uw_path : forall p, unc_path u = Some p -> normalized p;
  uw_nested : unc_share u = None -> unc_path u = None
}.

(** ** Lemmas *)

Lemma is_separator_false c : is_separator c = false <-> c <> backslash /\ c <> slash.
Proof. unfold is_separator. repeat case_bool_decide; cbn; intuition congruence. Qed.

Lemma check_no_separators_plain s : check_no_separators s = true <-> plain s.
Proof.
  unfold check_no_separators, plain. induction s as [|c s IH]; cbn; [by rewrite Forall_nil|].
  rewrite Forall_cons, is_separator_false, <- IH.
  repeat case_bool_decide; cbn; rewrite ?andb_true_iff, ?negb_true_iff, ?andb_false_r;
    intuition congruence.
Qed.

Lemma normalize_id s : normalized s -> normalize_directory_separators s = s.
Proof.
  unfold normalize_directory_separators. induction 1 as [|c s Hc _ IH]; [done|]. cbn.
  rewrite bool_decide_eq_false_2 by done. by rewrite IH.
Qed.

Lemma normalize_normalized s : normalized (normalize_directory_separators s).
Proof.
  unfold normalize_directory_separators, normalized. apply Forall_fmap, Forall_true.
  intros c. cbn. case_bool_decide; [done|]. done.
Qed.

Lemma plain_normalized s : plain s -> normalized s.
Proof. intros H. eapply Forall_impl; [exact H|]. by intros c [_ ?]%is_separator_false. Qed.

Lemma split_once_plain s tail : plain s -> split_once (s ++ backslash :: tail) = (s, Some tail).
Proof. induction 1 as [|c s Hc _ IH]; [done|]. cbn. by rewrite Hc, IH. Qed.

Lemma split_once_whole s : plain s -> split_once s = (s, None).
Proof. induction 1 as [|c s Hc _ IH]; [done|]. cbn. by rewrite Hc, IH. Qed.

Lemma split_once_piece s : plain (split_once s).1.
Proof.
  induction s as [|c s IH]; cbn; [constructor|]. destruct (is_separator c) eqn:Hc; [constructor|].
  destruct (split_once s). by constructor.
Qed.

Lemma plain_normalize s : plain s -> plain (normalize_directory_separators s).
Proof. intros H. by rewrite normalize_id by by apply plain_normalized. Qed.

Lemma unc_roundtrip u : unc_wf u -> unc_from_str (unc_to_string u) = Ok u.
Proof.
  intros [W1 W2 W3 W4]. unfold unc_from_str, unc_to_string. destruct u as [server share path].
  cbn [unc_server unc_share unc_path] in *.
  assert (Hp : starts_with [backslash; backslash] ([backslash; backslash] ++ server ++
    match share with Some share => backslash :: share | None => [] end ++
    match path with Some path => backslash :: path | None => [] end) = true)
    by (unfold starts_with; by rewrite bool_decide_eq_true_2).
  rewrite Hp. cbn [negb andb app drop]. unfold drop at 1.
  destruct share as [share|].
  - specialize (W2 share eq_refl). destruct path as [path|].
    + specialize (W3 path eq_refl). cbn [splitn]. rewrite <- app_comm_cons.
      rewrite split_once_plain by done. rewrite split_once_plain by done. cbn.
      rewrite !normalize_id by auto using plain_normalized. done.
    + cbn [splitn]. rewrite app_nil_r, split_once_plain, split_once_whole by done. cbn.
      rewrite !normalize_id by auto using plain_normalized. done.
  - rewrite W4 by done. cbn [splitn]. rewrite !app_nil_r, split_once_whole by done. cbn.
    by rewrite normalize_id by auto using plain_normalized.
Qed.

Lemma unc_from_str_wf s u : unc_from_str s = Ok u -> unc_wf u.
Proof.
  unfold unc_from_str. destruct (_ && _); [done|]. cbn [splitn].
  pose proof (split_once_piece (drop 2 s)) as H1.
  destruct (split_once (drop 2 s)) as [server [tail|]]; cbn [fst] in H1.
  - pose proof (split_once_piece tail) as H2.
    destruct (split_once tail) as [share [path|]]; cbn [fst] in H2; intros [= <-];
      split; cbn; intros; simplify_eq; auto using plain_normalize, normalize_normalized.
  - intros [= <-]. split; cbn; intros; simplify_eq; auto using plain_normalize.
Qed.

(** ** Case-insensitive comparison *)

Definition lower_str (s : str) : str := ascii_lower <$> s.
Definition lower_unc (u : UncPath) : UncPath :=
  mkUnc (lower_str (unc_server u)) (lower_str <$> unc_share u) (lower_str <$> unc_path u).

Lemma unc_eq_lower a b : unc_eq a b = true <-> lower_unc a = lower_unc b.
Proof.
  assert (Ho : forall x y, compare_option_case_insensitive x y = true <->
    lower_str <$> x = lower_str <$> y).
  { intros [x|] [y|]; cbn; try naive_solver. unfold eq_ignore_ascii_case, lower_str.
    rewrite bool_decide_eq_true. split; [by intros ->|congruence]. }
  unfold unc_eq, lower_unc.
  assert (Hs : eq_ignore_ascii_case (unc_server a) (unc_server b) = true <->
    lower_str (unc_server a) = lower_str (unc_server b)) by apply bool_decide_eq_true.
  pose proof (Ho (unc_share a) (unc_share b)) as H1. pose proof (Ho (unc_path a) (unc_path b)) as H2.
  destruct (eq_ignore_ascii_case _ _), (compare_option_case_insensitive (unc_share a) _),
    (compare_option_case_insensitive (unc_path a) _); cbn;
    (split; [intros H; try discriminate|intros [= E1 E2 E3]]); try reflexivity;
    first [f_equal; [by apply Hs|by apply H1|by apply H2]
          |apply Hs in E1; discriminate|apply H1 in E2; discriminate|apply H2 in E3; discriminate].
Qed.

#[export] Instance unc_eq_equivalence : Equivalence (fun a b => unc_eq a b = true).
Proof.
  split; [intros a|intros a b|intros a b c]; rewrite ?unc_eq_lower; congruence.
Qed.

Lemma ascii_lower_separator c : is_separator (ascii_lower c) = is_separator c.
Proof.
  unfold is_separator, ascii_lower, backslash, slash. repeat case_bool_decide; (done || lia).
Qed.

Lemma ascii_lower_eq c d : d < 65 \/ 90 < d < 97 -> ascii_lower c = d <-> c = d.
Proof. intros Hd. unfold ascii_lower. case_bool_decide; lia. Qed.

Lemma lower_wf u : unc_wf u -> unc_wf (lower_unc u).
Proof.
  assert (Hp : forall s, plain s -> plain (lower_str s)).
  { intros s H. apply Forall_fmap. eapply Forall_impl; [exact H|]. intros c Hc. cbn.
    by rewrite ascii_lower_separator. }
  intros [W1 W2 W3 W4]. split; cbn.
  - auto.
  - intros s. destruct (unc_share u) eqn:E; [|done]. cbn. intros [= <-]. auto.
  - intros p. destruct (unc_path u) eqn:E; [|done]. cbn. intros [= <-]. apply Forall_fmap.
    eapply Forall_impl; [by apply W3|]. intros c Hc. cbn.
    rewrite ascii_lower_eq by (unfold slash; lia). done.
  - destruct (unc_share u); [done|]. intros _. by rewrite W4.
Qed.

Lemma lower_to_string u : lower_str (unc_to_string u) = unc_to_string (lower_unc u).
Proof.
  unfold unc_to_string, lower_str. destruct u as [server [share|] [path|]]; cbn;
    rewrite ?fmap_app; cbn; rewrite ?fmap_app; done.
Qed.

(** ** Properties *)

(** printing and parsing UNC paths are inverse: every parsed path is well formed, a
    well-formed path parses back from its own text, and so the text of a parsed path
    parses to the same path. *)
Lemma unc_parse_print_roundtrip u input :
  (unc_wf u -> unc_from_str (unc_to_string u) = Ok u) /\
  (unc_from_str input = Ok u -> unc_wf u /\ unc_from_str (unc_to_string u) = Ok u).
Proof. split; [apply unc_roundtrip|]. intros H%unc_from_str_wf. auto using unc_roundtrip. Qed.

(** two well-formed paths are equal in the sense of [PartialEq] exactly when their
    texts are equal up to the case of ASCII letters. *)
Lemma unc_eq_is_textual a b :
  unc_wf a -> unc_wf b ->
  unc_eq a b = true <-> eq_ignore_ascii_case (unc_to_string a) (unc_to_string b) = true.
Proof.
  intros Ha Hb. rewrite unc_eq_lower. unfold eq_ignore_ascii_case. rewrite bool_decide_eq_true.
  change (ascii_lower <$> unc_to_string a) with (lower_str (unc_to_string a)).
  change (ascii_lower <$> unc_to_string b) with (lower_str (unc_to_string b)).
  rewrite !lower_to_string. split; [congruence|]. intros E.
  pose proof (unc_roundtrip _ (lower_wf a Ha)) as Ra. rewrite E in Ra.
  rewrite (unc_roundtrip _ (lower_wf b Hb)) in Ra. congruence.
Qed.


