(* ===== verification/Compression.v ===== *)
(** Message compression: the wire form of a compressed message
    (smb-msg/src/compressed.rs) and the compressor and decompressor that produce and
    consume it (smb/src/compression.rs), with the features [compress_lz4] and
    [compress_pattern_v1] on.

    LZ4 itself (the crate lz4_flex) is not part of the repository: it is the class [Lz4],
    and [Lz4Laws] is what its documentation promises. *)
From S2P Require Import Prelude Bytes Header Transport.
Local Open Scope Z_scope.

(** ** The compression algorithms of negotiate.rs *)

Inductive CompressionAlgorithm := AlgNone | LZNT1 | LZ77 | LZ77Huffman | PatternV1 | LZ4.

#[export] Instance CompressionAlgorithm_eq_dec : EqDecision CompressionAlgorithm.
Proof. solve_decision. Defined.

Definition algorithm_code (a : CompressionAlgorithm) : Z :=
  match a with
  | AlgNone => 0 | LZNT1 => 1 | LZ77 => 2 | LZ77Huffman => 3 | PatternV1 => 4 | LZ4 => 5
  end.

Definition algorithm_of_code (v : Z) : option CompressionAlgorithm :=
  match v with
  | 0 => Some AlgNone | 1 => Some LZNT1 | 2 => Some LZ77 | 3 => Some LZ77Huffman
  | 4 => Some PatternV1 | 5 => Some LZ4 | _ => None
  end.

Definition original_size_required (a : CompressionAlgorithm) : bool :=
  match a with LZNT1 | LZ77 | LZ77Huffman | LZ4 => true | AlgNone | PatternV1 => false end.

(** [CompressionCapabilities]: [flags.chained()] is bit 0 of the flags. *)
Record CompressionCapabilities := mkCaps {
  caps_flags : Z;
  caps_algorithms : list CompressionAlgorithm
}.

Definition caps_chained (c : CompressionCapabilities) : bool := Z.testbit (caps_flags c) 0.

(** ** Messages *)

Record CompressedUnchainedMessage := mkUnchained {
  un_original_size : Z;
  un_algorithm : CompressionAlgorithm;
  un_data : bytes
}.

Record CompressedChainedItem := mkItem {
  it_algorithm : CompressionAlgorithm;
  it_flags : Z;
  it_original_size : option Z;
  it_payload : bytes
}.

Record CompressedChainedMessage := mkChained {
  ch_original_size : Z;
  ch_items : list CompressedChainedItem
}.

Inductive CompressedMessage :=
| Unchained (m : CompressedUnchainedMessage)
| Chained (m : CompressedChainedMessage).

Definition compressed_magic : bytes := [252; 83; 77; 66].
Definition unchained_struct_size : Z := 16.
Definition chained_struct_size : Z := 8.


(** [CompressedMessage::total_size] *)
Definition total_size (m : CompressedMessage) : Z :=
  match m with
  | Unchained m => zlen (un_data m) + unchained_struct_size
  | Chained m =>
      foldr Z.add 0 ((fun i => zlen (it_payload i)) <$> ch_items m)
      + zlen (ch_items m) * 4 + chained_struct_size
  end.

(** ** Writing: [None] is a binrw error *)

(** Fields: magic, original size, algorithm (asserted not to be None), flags 0, offset 0, data. *)
Definition write_unchained (m : CompressedUnchainedMessage) : option bytes :=
  if bool_decide (un_algorithm m = AlgNone) then None
  else Some (compressed_magic ++ le_bytes 4 (un_original_size m)
    ++ le_bytes 2 (algorithm_code (un_algorithm m)) ++ le_bytes 2 0 ++ le_bytes 4 0 ++ un_data m).

Definition add_original_size_to_total_length (a : CompressionAlgorithm) : Z :=
  if original_size_required a then 4 else 0.

(** The size written behind the length marker counts the payload and, when it is present,
    the original size; it has to fit the 32-bit field. *)
Definition write_chained_item (i : CompressedChainedItem) : option bytes :=
  let required := original_size_required (it_algorithm i) in
  let length := zlen (it_payload i) + add_original_size_to_total_length (it_algorithm i) in
  let head := le_bytes 2 (algorithm_code (it_algorithm i)) ++ le_bytes 2 (it_flags i) in
  if bool_decide (u32_max < length) then None
  else match it_original_size i, required with
  | None, false => Some (head ++ le_bytes 4 length ++ it_payload i)
  | Some n, true => Some (head ++ le_bytes 4 length ++ le_bytes 4 n ++ it_payload i)
  | _, _ => None
  end.

Fixpoint write_chained_items (l : list CompressedChainedItem) : option bytes :=
  match l with
  | [] => Some []
  | i :: l =>
      match write_chained_item i, write_chained_items l with
      | Some a, Some b => Some (a ++ b)
      | _, _ => None
      end
  end.

Definition write_chained (m : CompressedChainedMessage) : option bytes :=
  match write_chained_items (ch_items m) with
  | Some b => Some (compressed_magic ++ le_bytes 4 (ch_original_size m) ++ b)
  | None => None
  end.

Definition write_compressed (m : CompressedMessage) : option bytes :=
  match m with Unchained m => write_unchained m | Chained m => write_chained m end.

(** ** Reading *)

(** What a read can do: a value and the rest of the buffer, a premature end (which
    [until_eof] takes as the end of a list), another error, or an overflowing subtraction. *)
Inductive read_outcome (A : Type) :=
| RdOk (a : A) (rest : bytes)
| RdEof
| RdBad
| RdOverflow.
Arguments RdOk {A} a rest.
Arguments RdEof {A}.
Arguments RdBad {A}.
Arguments RdOverflow {A}.

Definition read_algorithm (bs : bytes) : read_outcome CompressionAlgorithm :=
  match read_le 2 bs with
  | None => RdEof
  | Some (v, bs) => match algorithm_of_code v with Some a => RdOk a bs | None => RdBad end
  end.

(** The algorithm of an unchained message is asserted not to be None. *)
Definition read_some_algorithm : reader CompressionAlgorithm := fun bs =>
  match read_algorithm bs with
  | RdOk a rest => if bool_decide (a = AlgNone) then None else Some (a, rest)
  | _ => None
  end.

(** [until_eof] of bytes after a relative seek, which may go past the end. *)
Definition read_tail (offset : Z) : reader bytes := fun bs => Some (drop (Z.to_nat offset) bs, []).

Definition read_unchained : reader CompressedUnchainedMessage :=
  magic ← read_bytes 4;
  _ ← read_guard (bool_decide (magic = compressed_magic));
  original_size ← read_le 4;
  algorithm ← read_some_algorithm;
  flags ← read_le 2;
  _ ← read_guard (bool_decide (flags = 0));
  offset ← read_le 4;
  data ← read_tail offset;
  mret (mkUnchained original_size algorithm data).

(** The payload is what is left of the announced length after the original size; a buffer
    that ends early gives a short payload, not an error. *)
Definition read_chained_item (bs : bytes) : read_outcome CompressedChainedItem :=
  match read_algorithm bs with
  | RdOk a bs =>
      match read_le 2 bs with
      | None => RdEof
      | Some (flags, bs) =>
          match read_le 4 bs with
          | None => RdEof
          | Some (length, bs) =>
              match read_if (original_size_required a) (read_le 4) bs with
              | None => RdEof
              | Some (original_size, bs) =>
                  let extra := add_original_size_to_total_length a in
                  if bool_decide (length < extra) then RdOverflow
                  else let n := Z.to_nat (length - extra) in
                    RdOk (mkItem a flags original_size (take n bs)) (drop n bs)
              end
          end
      end
  | RdEof => RdEof
  | RdBad => RdBad
  | RdOverflow => RdOverflow
  end.

(** [until_eof]: an item takes at least eight bytes, so one unit of fuel per byte is
    enough (lemma [read_chained_items_fuel]). *)
Fixpoint read_chained_items (fuel : nat) (bs : bytes) : read_outcome (list CompressedChainedItem) :=
  match fuel with
  | O => RdBad
  | S fuel =>
      match read_chained_item bs with
      | RdEof => RdOk [] []
      | RdBad => RdBad
      | RdOverflow => RdOverflow
      | RdOk i rest =>
          match read_chained_items fuel rest with
          | RdOk l rest => RdOk (i :: l) rest
          | RdEof => RdEof
          | RdBad => RdBad
          | RdOverflow => RdOverflow
          end
      end
  end.

Definition read_chained_head : reader Z :=
  magic ← read_bytes 4;
  _ ← read_guard (bool_decide (magic = compressed_magic));
  read_le 4.

Definition read_chained (bs : bytes) : read_outcome CompressedChainedMessage :=
  match read_chained_head bs with
  | None => RdBad
  | Some (original_size, bs) =>
      match read_chained_items (S (length bs)) bs with
      | RdOk l rest => RdOk (mkChained original_size l) rest
      | RdEof => RdEof
      | RdBad => RdBad
      | RdOverflow => RdOverflow
      end
  end.

(** The variants of the enum are tried in their order. *)
Definition read_compressed (bs : bytes) : read_outcome CompressedMessage :=
  match read_unchained bs with
  | Some (m, rest) => RdOk (Unchained m) rest
  | None =>
      match read_chained bs with
      | RdOk m rest => RdOk (Chained m) rest
      | RdEof => RdEof
      | RdBad => RdBad
      | RdOverflow => RdOverflow
      end
  end.

(** ** The algorithms *)

Inductive ChainedFailure := ExceedsExpectedSize | ItemSizeMismatch | TotalSizeMismatch.

Inductive CompressionError :=
| UnsupportedAlgorithm (a : CompressionAlgorithm)
| InvalidDecompressedMessage
| InvalidCompressedMessage
| ChainedCompressionFailed (why : ChainedFailure)
| UnsupportedCompressionMethod
| NoSupportedCompressionAlgorithm
| DecompressedSizeLimitExceeded (announced maximum : Z)
| Lz4CompressError
| Lz4DecompressError
| PatternV1InvalidPayload
| PatternV1InvalidDecompressedSize.

(** lz4_flex: [lz4_decompress_into c room] is what [decompress_into] writes at the start of
    an output slice of [room] bytes, [None] its error; likewise [lz4_compress_into]. *)
Class Lz4 := {
  lz4_compress : bytes -> bytes;
  lz4_compress_into : bytes -> Z -> option bytes;
  lz4_decompress_into : bytes -> Z -> option bytes;
  lz4_maximum_output_size : Z -> Z
}.

(** What lz4_flex documents: a compressed block decompresses to its data in a slice of the
    data's size, and compressing into a slice of the maximum output size succeeds. *)
Class Lz4Laws `{!Lz4} : Prop := {
  lz4_block_roundtrip d : d <> [] -> lz4_decompress_into (lz4_compress d) (zlen d) = Some d;
  lz4_into_roundtrip d room : d <> [] -> lz4_maximum_output_size (zlen d) <= room ->
    exists c, lz4_compress_into d room = Some c /\ lz4_decompress_into c (zlen d) = Some d;
  lz4_decompress_fits c room d : lz4_decompress_into c room = Some d -> zlen d <= room
}.

(** The three implementations, each as the [Vec] it leaves in [out]. An outer [None] is a
    panic: the assertion on the length of a PatternV1 payload. The [debug_assert]s are not
    compiled into a release build and are left out. *)
Definition none_decompress (compressed : bytes) (original_size : option Z) (out : bytes)
    : option (result CompressionError bytes) := Some (Ok (out ++ compressed)).

Definition none_compress (data : bytes) : result CompressionError bytes := Ok data.

Record PatternV1Payload := mkPattern { pat_pattern : Z; pat_repetitions : Z }.

Definition write_pattern (p : PatternV1Payload) : bytes :=
  le_bytes 1 (pat_pattern p) ++ le_bytes 1 0 ++ le_bytes 2 0 ++ le_bytes 4 (pat_repetitions p).

Definition read_pattern : reader PatternV1Payload :=
  pattern ← read_le 1;
  _ ← read_le 1;
  _ ← read_le 2;
  repetitions ← read_le 4;
  mret (mkPattern pattern repetitions).

Definition pattern_decompress (compressed : bytes) (original_size : option Z) (out : bytes)
    : option (result CompressionError bytes) :=
  if bool_decide (zlen compressed = 8) then
    Some (match read_pattern compressed with
          | Some (p, _) => Ok (out ++ replicate (Z.to_nat (pat_repetitions p)) (pat_pattern p))
          | None => Err PatternV1InvalidPayload
          end)
  else None.

Definition pattern_compress (data : bytes) : result CompressionError bytes :=
  match data with
  | [] => Err NoSupportedCompressionAlgorithm
  | pattern :: _ =>
      if forallb (fun b => b =? pattern) data
      then Ok (write_pattern (mkPattern pattern (as_uint u32_max (zlen data))))
      else Err NoSupportedCompressionAlgorithm
  end.

Section compression.
Context `{!Lz4}.

(** [out.resize(end, 0)], then the block is decompressed over the zeroes. *)
Definition lz4_decompress_alg (compressed : bytes) (original_size : option Z) (out : bytes)
    : option (result CompressionError bytes) :=
  Some (match original_size with
  | None => Err InvalidCompressedMessage
  | Some original_size =>
      match checked_add usize_max (zlen out) original_size with
      | None => Err InvalidCompressedMessage
      | Some _ =>
          match lz4_decompress_into compressed original_size with
          | None => Err Lz4DecompressError
          | Some written =>
              if bool_decide (zlen written = original_size)
              then Ok (out ++ written)
              else Err PatternV1InvalidDecompressedSize
          end
      end
  end).

Definition lz4_compress_alg (data : bytes) : result CompressionError bytes := Ok (lz4_compress data).

(** [dyn CompressionAlgorithmImpl] *)
Record CompressionAlgorithmImpl := mkImpl {
  impl_decompress : bytes -> option Z -> bytes -> option (result CompressionError bytes);
  impl_compress : bytes -> result CompressionError bytes
}.

Definition get_compression_algorithm (a : CompressionAlgorithm)
    : result CompressionError CompressionAlgorithmImpl :=
  match a with
  | AlgNone => Ok (mkImpl none_decompress none_compress)
  | PatternV1 => Ok (mkImpl pattern_decompress pattern_compress)
  | LZ4 => Ok (mkImpl lz4_decompress_alg lz4_compress_alg)
  | _ => Err (UnsupportedAlgorithm a)
  end.

(** ** The two methods *)

Definition algorithm_priority : list CompressionAlgorithm := [LZ4].

Definition unchained_decompress (m : CompressedMessage) : option (result CompressionError bytes) :=
  match m with
  | Chained _ => Some (Err UnsupportedCompressionMethod)
  | Unchained c =>
      match get_compression_algorithm (un_algorithm c) with
      | Err e => Some (Err e)
      | Ok impl =>
          match impl_decompress impl (un_data c) (Some (un_original_size c)) [] with
          | Some (Ok data) =>
              Some (if bool_decide (zlen data = un_original_size c) then Ok data
                    else Err InvalidDecompressedMessage)
          | r => r
          end
      end
  end.

Fixpoint unchained_compress_loop (priority : list CompressionAlgorithm) (data : bytes)
    (allowed : list CompressionAlgorithm) : result CompressionError CompressedMessage :=
  match priority with
  | [] => Err NoSupportedCompressionAlgorithm
  | a :: priority =>
      if bool_decide (a ∈ allowed) then
        impl ← get_compression_algorithm a;
        compressed ← impl_compress impl data;
        Ok (Unchained (mkUnchained (as_uint u32_max (zlen data)) a compressed))
      else unchained_compress_loop priority data allowed
  end.

Definition unchained_compress (data : bytes) (allowed : list CompressionAlgorithm)
    : result CompressionError CompressedMessage :=
  unchained_compress_loop algorithm_priority data allowed.

(** One turn of the loop over the items of a chained message. *)
Definition chained_decompress_item (limit : Z) (i : CompressedChainedItem) (data : bytes)
    : option (result CompressionError bytes) :=
  match get_compression_algorithm (it_algorithm i) with
  | Err e => Some (Err e)
  | Ok impl =>
      match impl_decompress impl (it_payload i) (it_original_size i) data with
      | Some (Ok after) =>
          Some (if bool_decide (limit < zlen after)
                then Err (ChainedCompressionFailed ExceedsExpectedSize)
                else match it_original_size i with
                | Some n =>
                    if bool_decide (zlen after - zlen data = n) then Ok after
                    else Err (ChainedCompressionFailed ItemSizeMismatch)
                | None => Ok after
                end)
      | r => r
      end
  end.

Fixpoint chained_decompress_items (limit : Z) (l : list CompressedChainedItem) (data : bytes)
    : option (result CompressionError bytes) :=
  match l with
  | [] => Some (Ok data)
  | i :: l =>
      match chained_decompress_item limit i data with
      | Some (Ok data) => chained_decompress_items limit l data
      | r => r
      end
  end.

Definition chained_decompress (m : CompressedMessage) : option (result CompressionError bytes) :=
  match m with
  | Unchained _ => Some (Err UnsupportedCompressionMethod)
  | Chained c =>
      if bool_decide (ch_original_size c < header_struct_size) then Some (Err InvalidCompressedMessage)
      else match chained_decompress_items (ch_original_size c) (ch_items c) [] with
      | Some (Ok data) =>
          Some (if bool_decide (zlen data = ch_original_size c) then Ok data
                else Err (ChainedCompressionFailed TotalSizeMismatch))
      | r => r
      end
  end.

(** The first algorithm of the priority list that is negotiated, works and saves space. *)
Fixpoint try_priority (priority : list CompressionAlgorithm) (remaining : bytes)
    (allowed : list CompressionAlgorithm) : option CompressedChainedItem :=
  match priority with
  | [] => None
  | a :: priority =>
      if bool_decide (a ∈ allowed) then
        match get_compression_algorithm a with
        | Ok impl =>
            match impl_compress impl remaining with
            | Ok compressed =>
                if bool_decide (zlen compressed < zlen remaining)
                then Some (mkItem a 0
                  (if original_size_required a then Some (as_uint u32_max (zlen remaining)) else None)
                  compressed)
                else try_priority priority remaining allowed
            | Err _ => try_priority priority remaining allowed
            end
        | Err _ => try_priority priority remaining allowed
        end
      else try_priority priority remaining allowed
  end.

Definition try_pattern (remaining : bytes) (allowed : list CompressionAlgorithm)
    : option CompressedChainedItem :=
  if bool_decide (PatternV1 ∈ allowed) then
    match get_compression_algorithm PatternV1 with
    | Ok impl =>
        match impl_compress impl remaining with
        | Ok pattern_data => Some (mkItem PatternV1 0 None pattern_data)
        | Err _ => None
        end
    | Err _ => None
    end
  else None.

Definition chained_rest (remaining : bytes) (allowed : list CompressionAlgorithm)
    : list CompressedChainedItem :=
  match remaining with
  | [] => []
  | _ =>
      match try_priority algorithm_priority remaining allowed with
      | Some i => [i]
      | None =>
          match try_pattern remaining allowed with
          | Some i => [i]
          | None => [mkItem AlgNone 0 None remaining]
          end
      end
  end.

Definition chained_compress (data : bytes) (allowed : list CompressionAlgorithm)
    : result CompressionError CompressedMessage :=
  if bool_decide (zlen data < header_struct_size) then Err InvalidCompressedMessage
  else
    let header_end := Z.to_nat header_struct_size in
    Ok (Chained (mkChained (as_uint u32_max (zlen data))
      (mkItem AlgNone 1 None (take header_end data) :: chained_rest (drop header_end data) allowed))).

(** ** Compressor and Decompressor *)


Definition announced_size (m : CompressedMessage) : Z :=
  match m with Unchained m => un_original_size m | Chained m => ch_original_size m end.

(** The decompressed bytes, before they are parsed. *)
Definition decompress_bytes (caps : CompressionCapabilities) (m : CompressedMessage)
    : option (result CompressionError bytes) :=
  let original_size := announced_size m in
  if bool_decide (default_max_frame_size < original_size)
  then Some (Err (DecompressedSizeLimitExceeded original_size default_max_frame_size))
  else match m with
  | Unchained _ => unchained_decompress m
  | Chained _ =>
      if caps_chained caps then chained_decompress m
      else Some (Err UnsupportedCompressionMethod)
  end.

(** [Decompressor::decompress]; [parse] is [Response::read]. *)
Definition decompress {R : Type} (parse : bytes -> option R) (caps : CompressionCapabilities)
    (m : CompressedMessage) : option (result CompressionError (R * bytes)) :=
  match decompress_bytes caps m with
  | Some (Ok data) =>
      Some (match parse data with
            | Some r => Ok (r, data)
            | None => Err InvalidDecompressedMessage
            end)
  | Some (Err e) => Some (Err e)
  | None => None
  end.

Definition compress (caps : CompressionCapabilities) (data : bytes)
    : result CompressionError CompressedMessage :=
  if caps_chained caps then chained_compress data (caps_algorithms caps)
  else unchained_compress data (caps_algorithms caps).

Definition compress_transform (caps : CompressionCapabilities) (data : bytes) (prefix : Z)
    : result CompressionError bytes :=
  if bool_decide (LZ4 ∈ caps_algorithms caps) then
    if bool_decide (u32_max < zlen data) then Err InvalidCompressedMessage
    else
      header_end ← ok_or InvalidCompressedMessage (checked_add usize_max prefix unchained_struct_size);
      capacity ← ok_or InvalidCompressedMessage
        (checked_add usize_max header_end (lz4_maximum_output_size (zlen data)));
      header ← ok_or InvalidCompressedMessage (write_unchained (mkUnchained (zlen data) LZ4 []));
      written ← ok_or Lz4CompressError (lz4_compress_into data (capacity - header_end));
      Ok (replicate (Z.to_nat prefix) 0 ++ header ++ written)
  else Err NoSupportedCompressionAlgorithm.
End compression.
