(* ===== verification/CompressionProps.v ===== *)
(** What a compressed message means: it is read back as it was written, the bytes a
    receiver recovers are the bytes the sender compressed, and a receiver never produces
    more than it announced. *)
From S2P Require Import Prelude Bytes Header Transport Compression.
Local Open Scope Z_scope.

(** ** The wire form *)

Lemma algorithm_of_code_code a : algorithm_of_code (algorithm_code a) = Some a.
Proof. by destruct a. Qed.

Lemma algorithm_code_range a : 0 <= algorithm_code a < 256 ^ Z.of_nat 2.
Proof. destruct a; cbn; lia. Qed.

Lemma read_algorithm_write a rest :
  read_algorithm (le_bytes 2 (algorithm_code a) ++ rest) = RdOk a rest.
Proof.
  unfold read_algorithm. rewrite read_le_app by apply algorithm_code_range.
  by rewrite algorithm_of_code_code.
Qed.

(** A message that fits its wire form. *)
Definition unchained_ok (m : CompressedUnchainedMessage) : Prop :=
  in_range u32_max (un_original_size m) /\ un_algorithm m <> AlgNone.

Record item_ok (i : CompressedChainedItem) : Prop := {
  item_flags_range : in_range u16_max (it_flags i);
  item_length_range : zlen (it_payload i) + add_original_size_to_total_length (it_algorithm i) <= u32_max;
  item_size_present : is_Some (it_original_size i) <-> original_size_required (it_algorithm i) = true;
  item_size_range n : it_original_size i = Some n -> in_range u32_max n
}.

Lemma unchained_write_read m :
  unchained_ok m ->
  exists w, write_unchained m = Some w /\ read_unchained w = Some (m, []).
Proof.
  destruct m as [n a d]. intros [Hn Ha]; cbn in *. eexists.
  unfold write_unchained; cbn [un_algorithm un_original_size un_data].
  rewrite bool_decide_eq_false_2 by done. split; [reflexivity|].
  unfold read_unchained. unfold mbind at 1, reader_bind at 1.
  rewrite read_bytes_app by done. unfold mbind at 1, reader_bind at 1.
  rewrite read_guard_true by done. reading.
  unfold read_some_algorithm at 1. rewrite read_algorithm_write, bool_decide_eq_false_2 by done.
  reading. rewrite read_guard_true by done. reading. done.
Qed.

(** The header of an unchained message is written the same without its data. *)
Lemma unchained_header_data n c :
  exists h, write_unchained (mkUnchained n LZ4 []) = Some h /\
    write_unchained (mkUnchained n LZ4 c) = Some (h ++ c).
Proof.
  unfold write_unchained. cbn [un_algorithm un_original_size un_data].
  rewrite !bool_decide_eq_false_2 by done. eexists. split; [reflexivity|].
  by rewrite app_nil_r, <- !app_assoc.
Qed.

Lemma chained_item_write_read i rest :
  item_ok i ->
  exists w, write_chained_item i = Some w /\ read_chained_item (w ++ rest) = RdOk i rest /\
    (8 <= length w)%nat.
Proof.
  destruct i as [a f o p]. intros [Hf Hl Hs Hn]; cbn in *.
  unfold write_chained_item; cbn [it_algorithm it_flags it_original_size it_payload].
  rewrite bool_decide_eq_false_2 by lia.
  assert (0 <= zlen p) by (unfold zlen; lia).
  unfold add_original_size_to_total_length in *.
  destruct (original_size_required a) eqn:Ea, o as [n|]; cbn in *;
    [|destruct Hs as [_ Hs]; destruct (Hs eq_refl); discriminate
     |destruct Hs as [Hs _]; by discriminate (Hs (ex_intro _ n eq_refl))|];
    (eexists; split; [reflexivity|]; split; [|rewrite !length_app, ?length_le_bytes; lia]);
    unfold read_chained_item; rewrite <- !app_assoc, read_algorithm_write;
    reading; rewrite Ea; cbn [read_if].
  - rewrite read_le_app by (specialize (Hn n eq_refl); cbn; ints).
    unfold add_original_size_to_total_length. rewrite Ea, bool_decide_eq_false_2 by lia.
    replace (Z.to_nat (zlen p + 4 - 4)) with (length p) by (unfold zlen; lia).
    by rewrite take_app_length, drop_app_length.
  - unfold add_original_size_to_total_length. rewrite Ea, bool_decide_eq_false_2 by lia.
    replace (Z.to_nat (zlen p + 0 - 0)) with (length p) by (unfold zlen; lia).
    by rewrite take_app_length, drop_app_length.
Qed.

Lemma chained_items_write_read l fuel :
  Forall item_ok l -> (forall w, write_chained_items l = Some w -> (length w < fuel)%nat) ->
  exists w, write_chained_items l = Some w /\ read_chained_items fuel w = RdOk l [].
Proof.
  intros Hl. revert fuel. induction Hl as [|i l Hi _ IH]; intros fuel Hf; cbn.
  - exists []. split; [done|]. specialize (Hf [] eq_refl). destruct fuel; [cbn in Hf; lia|done].
  - destruct (chained_item_write_read i [] Hi) as (wi & Hw & _ & Hlen).
    cbn in Hf. rewrite Hw in *. destruct fuel as [|fuel].
    { destruct (write_chained_items l) as [wl|] eqn:E.
      - specialize (Hf _ eq_refl). lia.
      - destruct (IH (S 0)) as (? & ? & _); [done|congruence]. }
    destruct (IH fuel) as (wl & -> & Hr).
    { intros wl E. rewrite E in Hf. specialize (Hf _ eq_refl). rewrite length_app in Hf. lia. }
    eexists. split; [done|]. cbn.
    destruct (chained_item_write_read i wl Hi) as (wi' & Hw' & Hri & _).
    assert (wi' = wi) as -> by congruence. by rewrite Hri, Hr.
Qed.

(** The fuel of [read_chained_items] is enough: more of it changes nothing. *)
Lemma read_chained_item_shrinks bs i rest :
  read_chained_item bs = RdOk i rest -> (length rest < length bs)%nat.
Proof.
  unfold read_chained_item, read_algorithm.
  destruct (read_le 2 bs) as [[v b1]|] eqn:E1; [|done]. destruct (algorithm_of_code v); [|done].
  destruct (read_le 2 b1) as [[f b2]|] eqn:E2; [|done].
  destruct (read_le 4 b2) as [[n b3]|] eqn:E3; [|done].
  destruct (read_if _ _ b3) as [[o b4]|] eqn:E4; [|done]. case_bool_decide; [done|].
  intros [= <- <-]. rewrite length_drop.
  assert (forall n bs v rest, read_le n bs = Some (v, rest) -> length bs = (n + length rest)%nat) as Hlen.
  { clear. intros n bs v rest. unfold read_le. destruct (read_bytes n bs) as [[p r]|] eqn:E; [|done].
    intros [= <- <-]. apply read_bytes_Some in E as [-> <-]. apply length_app. }
  apply Hlen in E1, E2, E3. assert (length b4 <= length b3)%nat; [|lia].
  unfold read_if in E4. destruct (original_size_required c); [|by injection E4 as <- <-].
  destruct (read_le 4 b3) as [[m b5]|] eqn:E5; [|done]. injection E4 as <- <-. apply Hlen in E5. lia.
Qed.

Lemma read_chained_items_fuel bs f1 f2 :
  (length bs < f1)%nat -> (length bs < f2)%nat -> read_chained_items f1 bs = read_chained_items f2 bs.
Proof.
  revert bs f2. induction f1 as [|f1 IH]; intros bs f2 H1 H2; [lia|]. destruct f2 as [|f2]; [lia|].
  cbn. destruct (read_chained_item bs) as [i rest| | |] eqn:E; try done.
  apply read_chained_item_shrinks in E. by rewrite (IH rest f2) by lia.
Qed.

(** The flags of the first item are what tells a chained message from an unchained one. *)
Lemma chained_write_read m i l :
  ch_items m = i :: l -> it_flags i <> 0 ->
  in_range u32_max (ch_original_size m) -> Forall item_ok (ch_items m) ->
  exists w, write_compressed (Chained m) = Some w /\ read_compressed w = RdOk (Chained m) [].
Proof.
  intros Hil Hf Hn Hok. cbn. unfold write_chained.
  assert (exists w, write_chained_items (ch_items m) = Some w) as [w Hw].
  { destruct (write_chained_items (ch_items m)) eqn:E; [eauto|].
    destruct (chained_items_write_read (ch_items m) 1 Hok) as (? & ? & _); congruence. }
  rewrite Hw. eexists. split; [reflexivity|]. unfold read_compressed.
  assert (read_unchained (compressed_magic ++ le_bytes 4 (ch_original_size m) ++ w) = None) as ->.
  { unfold read_unchained. unfold mbind at 1, reader_bind at 1. rewrite read_bytes_app by done.
    unfold mbind at 1, reader_bind at 1. rewrite read_guard_true by done. reading.
    rewrite Hil in Hw, Hok. apply Forall_cons in Hok as [Hi _].
    cbn in Hw. unfold write_chained_item in Hw. destruct Hi as [Hfl _ _ _].
    assert (exists w', w = le_bytes 2 (algorithm_code (it_algorithm i)) ++ le_bytes 2 (it_flags i) ++ w')
      as [w' ->].
    { revert Hw. case_bool_decide; [done|].
      destruct (it_original_size i), (original_size_required (it_algorithm i)); try done;
        (destruct (write_chained_items l); [|done]); intros E%(inj Some); rewrite <- E, <- !app_assoc; eauto. }
    unfold read_some_algorithm at 1. rewrite read_algorithm_write.
    destruct (decide (it_algorithm i = AlgNone)) as [Ha|Ha];
      [by rewrite (bool_decide_eq_true_2 _ Ha)|rewrite (bool_decide_eq_false_2 _ Ha)].
    reading. unfold read_guard. by rewrite bool_decide_eq_false_2. }
  unfold read_chained, read_chained_head. unfold mbind at 1, reader_bind at 1.
  rewrite read_bytes_app by done. unfold mbind at 1, reader_bind at 1. rewrite read_guard_true by done.
  rewrite read_le_app by (cbn; ints).
  destruct (chained_items_write_read (ch_items m) (S (length w)) Hok) as (w' & Hw' & Hr).
  { intros w'' E. assert (w'' = w) as -> by congruence. lia. }
  assert (w' = w) as -> by congruence. rewrite Hr. by destruct m.
Qed.

(** ** The algorithms *)

(** A payload of one repeated byte is recovered from its eight-byte description. *)
Lemma pattern_roundtrip data out :
  bytes_ok data -> data <> [] -> zlen data <= u32_max ->
  forall c, pattern_compress data = Ok c ->
  length c = 8%nat /\ pattern_decompress c None out = Some (Ok (out ++ data)).
Proof.
  intros Hok Hne Hlen c. unfold pattern_compress. destruct data as [|b data]; [done|].
  destruct (forallb _ _) eqn:Hall; [|done]. intros [= <-].
  assert (length (write_pattern (mkPattern b (as_uint u32_max (zlen (b :: data))))) = 8%nat) as H8.
  { unfold write_pattern. by rewrite !length_app, !length_le_bytes. }
  split; [exact H8|]. unfold pattern_decompress. rewrite bool_decide_eq_true_2 by (by unfold zlen at 1; rewrite H8).
  rewrite as_uint_small by (unfold zlen in *; ints).
  apply Forall_cons in Hok as [Hb _]. unfold byte_ok in Hb.
  unfold read_pattern, write_pattern; cbn [pat_pattern pat_repetitions].
  rewrite <- (app_nil_r (le_bytes 4 _)). reading.
  rewrite read_le_app by (change (256 ^ Z.of_nat 4) with 4294967296; unfold zlen in *; ints).
  cbn. do 3 f_equal.
  rewrite forallb_forall in Hall.
  replace (Z.to_nat (zlen (b :: data))) with (length (b :: data)) by (unfold zlen; lia).
  apply replicate_as_Forall. split; [done|].
  apply Forall_forall. intros x Hx. symmetry. apply Z.eqb_eq, Hall. by apply list_elem_of_In.
Qed.

Section laws.
Context `{!Lz4} `{!Lz4Laws}.

Lemma lz4_alg_roundtrip c data out :
  lz4_decompress_into c (zlen data) = Some data -> zlen out + zlen data <= usize_max ->
  lz4_decompress_alg c (Some (zlen data)) out = Some (Ok (out ++ data)).
Proof.
  intros Hc Hlen. unfold lz4_decompress_alg, checked_add.
  by rewrite bool_decide_eq_true_2, Hc, bool_decide_eq_true_2 by done.
Qed.

(** An item carries [data]: it fits the wire and decompresses to [data] behind whatever
    the items before it produced. *)
Definition item_carries (i : CompressedChainedItem) (data : bytes) : Prop :=
  item_ok i /\
  forall limit out, zlen out + zlen data <= limit -> limit <= u32_max ->
    chained_decompress_item limit i out = Some (Ok (out ++ data)).

Lemma stored_item_carries flags data :
  in_range u16_max flags -> zlen data <= u32_max ->
  item_carries (mkItem AlgNone flags None data) data.
Proof.
  intros Hf Hd. split.
  - split; cbn; [done|lia| |done]. split; [intros [? ?]|]; done.
  - intros limit out Hl _. unfold chained_decompress_item; cbn.
    rewrite bool_decide_eq_false_2; [done|]. unfold zlen in *. rewrite length_app. lia.
Qed.

Lemma pattern_item_carries data c :
  bytes_ok data -> data <> [] -> zlen data <= u32_max -> pattern_compress data = Ok c ->
  item_carries (mkItem PatternV1 0 None c) data.
Proof.
  intros Hok Hne Hd Hc. destruct (pattern_roundtrip data [] Hok Hne Hd c Hc) as [H8 _]. split.
  - split; cbn; [ints|unfold zlen; rewrite H8; cbn; ints| |done]. split; [intros [? ?]|]; done.
  - intros limit out Hl _. unfold chained_decompress_item; cbn.
    destruct (pattern_roundtrip data out Hok Hne Hd c Hc) as [_ ->].
    rewrite bool_decide_eq_false_2; [done|]. unfold zlen in *. rewrite length_app. lia.
Qed.

Lemma lz4_item_carries data :
  data <> [] -> zlen data + 4 <= u32_max -> zlen (lz4_compress data) < zlen data ->
  item_carries (mkItem LZ4 0 (Some (zlen data)) (lz4_compress data)) data.
Proof.
  intros Hne Hd Hc. split.
  - split; cbn; [ints|lia|done|]. intros n [= <-]. unfold zlen in *. ints.
  - intros limit out Hl Hm. unfold chained_decompress_item; cbn -[lz4_decompress_alg].
    rewrite lz4_alg_roundtrip by (try apply lz4_block_roundtrip; done || ints).
    unfold zlen in *. rewrite length_app.
    by rewrite bool_decide_eq_false_2, bool_decide_eq_true_2 by lia.
Qed.

(** Whatever the compressor chooses for the part behind the header carries that part. *)
Lemma chained_rest_carries data allowed :
  bytes_ok data -> zlen data + 4 <= u32_max ->
  (data = [] /\ chained_rest data allowed = []) \/
  (exists i, chained_rest data allowed = [i] /\ item_carries i data).
Proof.
  intros Hok Hd. destruct data as [|b data]; [by left|]. right. unfold chained_rest.
  assert (b :: data <> []) as Hne by done. revert Hok Hd Hne. generalize (b :: data). clear b data.
  intros data Hok Hd Hne.
  destruct (try_priority _ _ _) as [i|] eqn:Ep.
  { exists i. split; [done|]. revert Ep. unfold algorithm_priority, try_priority.
    case_bool_decide; [|done]. cbn. case_bool_decide; [|done]. intros [= <-].
    rewrite as_uint_small by (unfold zlen in *; ints). by apply lz4_item_carries. }
  destruct (try_pattern _ _) as [i|] eqn:Et.
  { exists i. split; [done|]. revert Et. unfold try_pattern. case_bool_decide; [|done].
    cbn. destruct (pattern_compress data) as [c|] eqn:Ec; [|done]. intros [= <-].
    apply pattern_item_carries; (done || lia). }
  eexists. split; [done|]. apply stored_item_carries; ints.
Qed.

Lemma chained_compress_roundtrip caps data :
  bytes_ok data -> header_struct_size <= zlen data <= default_max_frame_size ->
  exists m w, chained_compress data (caps_algorithms caps) = Ok (Chained m) /\
    write_compressed (Chained m) = Some w /\ read_compressed w = RdOk (Chained m) [] /\
    ch_original_size m = zlen data /\ chained_decompress (Chained m) = Some (Ok data).
Proof.
  intros Hok [Hlo Hhi]. unfold header_struct_size, default_max_frame_size in *.
  assert (zlen (take 64 data) = 64) as Htake by (unfold zlen in *; rewrite length_take; lia).
  assert (zlen (drop 64 data) = zlen data - 64) as Hdrop by (unfold zlen in *; rewrite length_drop; lia).
  unfold chained_compress. rewrite bool_decide_eq_false_2 by (unfold header_struct_size; lia).
  rewrite as_uint_small by ints. change (Z.to_nat header_struct_size) with 64%nat.
  set (head := mkItem AlgNone 1 None (take 64 data)).
  assert (item_carries head (take 64 data)) as [Hi Hd] by (apply stored_item_carries; ints).
  set (m := mkChained (zlen data) (head :: chained_rest (drop 64 data) (caps_algorithms caps))).
  assert (bytes_ok (drop 64 data)) as Hdok by by apply Forall_drop.
  assert (Forall item_ok (ch_items m) /\
    chained_decompress_items (zlen data) (ch_items m) [] = Some (Ok data)) as [Hall Hdec].
  { cbn [ch_items m chained_decompress_items]. rewrite Hd by (change (zlen (@nil Z)) with 0; ints). cbn [app].
    destruct (chained_rest_carries (drop 64 data) (caps_algorithms caps) Hdok) as [[E ->]|(i & -> & Hi2 & Hd2)];
      [ints| |].
    - split; [by constructor|]. cbn. by rewrite <- (take_drop 64 data) at 2; rewrite E, app_nil_r.
    - split; [by rewrite !Forall_cons, Forall_nil|]. cbn [chained_decompress_items].
      rewrite Hd2 by ints. by rewrite take_drop. }
  destruct (chained_write_read m head (chained_rest (drop 64 data) (caps_algorithms caps)))
    as (w & Hw & Hr); [done|done|cbn; ints|done|].
  exists m, w. split_and!; [done|done|done|done|].
  unfold chained_decompress. change (ch_original_size m) with (zlen data).
  rewrite bool_decide_eq_false_2 by (unfold header_struct_size; lia).
  by rewrite Hdec, bool_decide_eq_true_2.
Qed.

Lemma unchained_roundtrip data c :
  zlen data <= u32_max -> lz4_decompress_into c (zlen data) = Some data ->
  let m := mkUnchained (zlen data) LZ4 c in
  (exists w, write_compressed (Unchained m) = Some w /\ read_compressed w = RdOk (Unchained m) []) /\
  unchained_decompress (Unchained m) = Some (Ok data).
Proof.
  intros Hd Hc m. assert (0 <= zlen data) by (unfold zlen; lia). split.
  - destruct (unchained_write_read m) as (w & Hw & Hr); [split; [cbn; ints|done]|].
    exists w. split; [done|]. unfold read_compressed. by rewrite Hr.
  - unfold unchained_decompress; cbn -[lz4_decompress_alg]. rewrite lz4_alg_roundtrip by (done || (change (zlen (@nil Z)) with 0; ints)).
    by rewrite bool_decide_eq_true_2.
Qed.

(** C40: What a peer with the same capabilities recovers is what was sent: for data between
    one header and one frame in size, with chained compression or LZ4 negotiated, the
    compressor succeeds, its message is written, the bytes are read back as that message,
    and the decompressor returns the original bytes and their parse. *)
Theorem compression_roundtrip {R} (parse : bytes -> option R) caps data r :
  bytes_ok data -> header_struct_size <= zlen data <= default_max_frame_size ->
  caps_chained caps = true \/ LZ4 ∈ caps_algorithms caps -> parse data = Some r ->
  exists m w, compress caps data = Ok m /\ write_compressed m = Some w /\
    read_compressed w = RdOk m [] /\ decompress parse caps m = Some (Ok (r, data)).
Proof.
  intros Hok Hlen Hcaps Hp. unfold compress, decompress, decompress_bytes.
  destruct (caps_chained caps) eqn:Ec.
  - destruct (chained_compress_roundtrip caps data Hok Hlen) as (m & w & Hm & Hw & Hr & Hs & Hd).
    exists (Chained m), w. split_and!; [done|done|done|]. cbn [announced_size].
    rewrite Hs, bool_decide_eq_false_2 by lia. by rewrite Hd, Hp.
  - destruct Hcaps as [|Hin]; [done|]. unfold header_struct_size, default_max_frame_size in *.
    unfold unchained_compress, algorithm_priority, unchained_compress_loop.
    rewrite bool_decide_eq_true_2 by done. cbn. rewrite as_uint_small by ints.
    destruct (unchained_roundtrip data (lz4_compress data)) as ((w & Hw & Hr) & Hd); [ints| |].
    { apply lz4_block_roundtrip. intros ->. unfold zlen in Hlen. cbn in Hlen. lia. }
    eexists _, w. split_and!; [reflexivity|done|done|]. cbn [announced_size un_original_size].
    rewrite bool_decide_eq_false_2 by (unfold default_max_frame_size; lia). by rewrite Hd, Hp.
Qed.

(** The transform arena holds the reserved prefix and then a compressed message: for any
    non-empty data of at most one frame, with LZ4 negotiated and room in the address space,
    the bytes behind the prefix are read as an unchained message that decompresses to the
    data, whatever the receiver's capabilities are. *)
Lemma compress_transform_roundtrip {R} (parse : bytes -> option R) caps caps' data r prefix :
  data <> [] -> zlen data <= default_max_frame_size -> LZ4 ∈ caps_algorithms caps -> 0 <= prefix ->
  prefix + unchained_struct_size + lz4_maximum_output_size (zlen data) <= usize_max ->
  0 <= lz4_maximum_output_size (zlen data) -> parse data = Some r ->
  exists w m, compress_transform caps data prefix = Ok (replicate (Z.to_nat prefix) 0 ++ w) /\
    read_compressed w = RdOk (Unchained m) [] /\
    decompress parse caps' (Unchained m) = Some (Ok (r, data)).
Proof.
  intros Hne Hlen Hin Hpre Hroom Hmax Hp. unfold default_max_frame_size in Hlen.
  destruct (lz4_into_roundtrip data (prefix + unchained_struct_size + lz4_maximum_output_size (zlen data)
    - (prefix + unchained_struct_size))) as (c & Hc & Hdec); [done|lia|].
  destruct (unchained_roundtrip data c) as ((w & Hw & Hr) & Hd); [ints|done|].
  exists w, (mkUnchained (zlen data) LZ4 c). split_and!; [|done|].
  - unfold compress_transform. rewrite bool_decide_eq_true_2, bool_decide_eq_false_2 by (done || ints).
    unfold checked_add. rewrite bool_decide_eq_true_2 by lia. cbn [ok_or mbind result_bind].
    rewrite bool_decide_eq_true_2 by lia. cbn [ok_or mbind result_bind].
    destruct (unchained_header_data (zlen data) c) as (h & -> & Hh). cbn [ok_or mbind result_bind].
    rewrite Hc. cbn [ok_or mbind result_bind]. do 2 f_equal. cbn [write_compressed] in Hw. congruence.
  - unfold decompress, decompress_bytes. cbn [announced_size un_original_size].
    rewrite bool_decide_eq_false_2 by (unfold default_max_frame_size; lia). by rewrite Hd, Hp.
Qed.
End laws.

(** A receiver is never made to hand on more than was announced, nor more than one frame:
    whenever decompression succeeds the bytes have exactly the announced size, that size is
    at most the frame limit, a chained message was negotiated, and the response returned is
    the parse of exactly those bytes. *)
Lemma decompressed_size_is_announced `{!Lz4} {R} (parse : bytes -> option R) caps m r data :
  decompress parse caps m = Some (Ok (r, data)) ->
  zlen data = announced_size m /\ announced_size m <= default_max_frame_size /\
  parse data = Some r /\
  match m with Chained c => caps_chained caps = true /\ header_struct_size <= zlen data
             | Unchained c => un_algorithm c = AlgNone \/ un_algorithm c = PatternV1 \/ un_algorithm c = LZ4 end.
Proof.
  unfold decompress, decompress_bytes. case_bool_decide as Hmax; [done|].
  destruct m as [c|c]; cbn [announced_size unchained_decompress chained_decompress] in *.
  - destruct (get_compression_algorithm (un_algorithm c)) as [impl|] eqn:Ea; [|done].
    destruct (impl_decompress impl _ _ _) as [[d|]|]; [|done..].
    case_bool_decide as Hd; [|done]. destruct (parse d) eqn:Hp; [|done]. intros [= -> ->].
    split_and!; [done|lia|done|]. revert Ea. destruct (un_algorithm c); cbn; intros Ea; (discriminate Ea || auto).
  - destruct (caps_chained caps); [|done]. case_bool_decide as Hs; [done|].
    destruct (chained_decompress_items _ _ _) as [[d|]|]; [|done..].
    case_bool_decide as Hd; [|done]. destruct (parse d) eqn:Hp; [|done]. intros [= -> ->].
    split_and!; (done || lia).
Qed.

(** A PatternV1 payload that is not eight bytes long is not an error but a panic: a
    chained message that is otherwise acceptable aborts its receiver, whatever the sizes it
    announces. *)
Lemma malformed_pattern_panics `{!Lz4} {R} (parse : bytes -> option R) caps head payload original_size :
  caps_chained caps = true -> zlen head = header_struct_size -> zlen payload <> 8 ->
  header_struct_size <= original_size <= default_max_frame_size ->
  decompress parse caps (Chained (mkChained original_size
    [mkItem AlgNone 1 None head; mkItem PatternV1 0 None payload])) = None.
Proof.
  intros Hc Hh Hp Ho. unfold decompress, decompress_bytes. cbn [announced_size ch_original_size].
  rewrite bool_decide_eq_false_2 by lia. rewrite Hc. unfold chained_decompress. cbn [ch_original_size].
  rewrite bool_decide_eq_false_2 by lia. cbn [ch_items chained_decompress_items].
  unfold chained_decompress_item at 1. cbn. rewrite bool_decide_eq_false_2 by lia.
  unfold chained_decompress_item; cbn. unfold pattern_decompress. by rewrite bool_decide_eq_false_2.
Qed.

(** ** Witnesses *)

(** A block format that satisfies the laws of LZ4: a tag, then either the bytes themselves
    or, for a run of one byte, the byte and the number of repetitions. *)
Definition run_compress (d : bytes) : bytes :=
  match d with
  | b :: _ =>
      if bool_decide (d = replicate (length d) b /\ zlen d <= u32_max)
      then 1 :: b :: le_bytes 4 (zlen d) else 0 :: d
  | [] => [0]
  end.

Definition run_decompress (c : bytes) : option bytes :=
  match c with
  | 0 :: d => Some d
  | 1 :: b :: n => Some (replicate (Z.to_nat (le_value n)) b)
  | _ => None
  end.

#[local] Instance run_lz4 : Lz4 := {|
  lz4_compress := run_compress;
  lz4_compress_into d room :=
    if bool_decide (zlen (run_compress d) <= room) then Some (run_compress d) else None;
  lz4_decompress_into c room :=
    match run_decompress c with
    | Some d => if bool_decide (zlen d <= room) then Some d else None
    | None => None
    end;
  lz4_maximum_output_size n := n + 6
|}.

Lemma run_roundtrip d : run_decompress (run_compress d) = Some d.
Proof.
  unfold run_compress. destruct d as [|b d]; [done|]. case_bool_decide as H; [|done].
  destruct H as [Hd Hlen]. cbn [run_decompress].
  rewrite le_value_bytes by (change (256 ^ Z.of_nat 4) with 4294967296; unfold zlen in *; ints).
  unfold zlen. by rewrite Nat2Z.id, <- Hd.
Qed.

Lemma run_compress_length d : zlen (run_compress d) <= zlen d + 6.
Proof.
  unfold run_compress, zlen. destruct d as [|b d]; [cbn; lia|].
  case_bool_decide; cbn [length]; rewrite ?length_le_bytes; lia.
Qed.

#[local] Instance run_lz4_laws : Lz4Laws.
Proof.
  split.
  - intros d _. cbn. rewrite run_roundtrip. by rewrite bool_decide_eq_true_2.
  - intros d room _ Hroom. cbn in *. exists (run_compress d).
    pose proof (run_compress_length d). rewrite run_roundtrip. by rewrite !bool_decide_eq_true_2 by lia.
  - intros c room d. cbn. destruct (run_decompress c); [|done]. case_bool_decide; [|done]. by intros [= <-].
Qed.

Definition sample_caps : CompressionCapabilities := mkCaps 1 [PatternV1; LZ4].
Definition sample_data : bytes := header_magic ++ replicate 100 0.

Lemma compression_roundtrip_witness :
  exists m w, compress sample_caps sample_data = Ok m /\ write_compressed m = Some w /\
    read_compressed w = RdOk m [] /\ decompress Some sample_caps m = Some (Ok (sample_data, sample_data)).
Proof.
  apply (compression_roundtrip Some sample_caps sample_data sample_data).
  - apply (bool_decide_eq_true_1 (Forall (fun b => 0 <= b <= 255) sample_data)). vm_compute. reflexivity.
  - vm_compute. split; discriminate.
  - left. reflexivity.
  - reflexivity.
Defined.


