(* ===== verification/Cmac.v ===== *)
(** The batched AES-128-CMAC of crates/smb/src/crypto/cmac_batch.rs: up to four messages
    are authenticated in step, one AES block of each per round, and a lane that finishes
    its message takes the next one.

    AES is the environment ([BlockCipher]). The reference is RFC 4493: one message at a
    time, the subkeys by doubling in GF(2^128). The batch is shown to compute exactly it,
    for any number of messages and any way of cutting them into segments. *)
From S2P Require Import Prelude Bytes Transport.
From Stdlib Require Import ZifyNat.
Local Open Scope Z_scope.

(** [Aes128::encrypt_block] under a key. *)
Class BlockCipher := { aes_block : bytes -> bytes -> bytes }.

(** AES maps a block to a block of sixteen bytes. *)
Class BlockCipherLaws `{!BlockCipher} : Prop := {
  aes_block_length key b : length (aes_block key b) = 16%nat;
  aes_block_ok key b : bytes_ok (aes_block key b)
}.

(** ** The code *)

Inductive CmacError := CmacInputTooLong.

Definition portable_cmac_lanes : nat := 4.

(** [Block::<Aes128>::default()] *)
Definition zero_block : bytes := replicate 16 0.

Definition xor_block (target input : bytes) : bytes := zip_with Z.lxor target input.

(** The loop of [double], from the last byte to the first: the output and the last carry. *)
Fixpoint double_loop (input : bytes) (carry : Z) : bytes * Z :=
  match input with
  | [] => ([], carry)
  | b :: input =>
      let '(output, last) := double_loop input (Z.shiftr b 7) in
      (Z.lor (as_uint u8_max (Z.shiftl b 1)) carry :: output, last)
  end.

Definition double (input : bytes) : bytes :=
  let '(output, carry) := double_loop (reverse input) 0 in
  let output := reverse output in
  if bool_decide (carry ≠ 0) then alter (fun b => Z.lxor b 0x87) 15%nat output else output.

Record BatchCmac128 := mkBatch {
  bc_key : bytes;
  bc_complete_subkey : bytes;
  bc_partial_subkey : bytes
}.

Record MessageCursor := mkMessageCursor {
  mc_segments : list bytes;
  mc_segment_index : nat;
  mc_segment_offset : nat;
  mc_total_len : Z;
  mc_blocks_remaining : nat
}.

#[export] Instance eta_MessageCursor : Eta MessageCursor := fun c =>
  mkMessageCursor (mc_segments c) (mc_segment_index c) (mc_segment_offset c) (mc_total_len c)
    (mc_blocks_remaining c).

Record Lane := mkLane {
  ln_input_index : nat;
  ln_cursor : MessageCursor;
  ln_state : bytes
}.

#[export] Instance eta_Lane : Eta Lane := fun l => mkLane (ln_input_index l) (ln_cursor l) (ln_state l).

(** [MessageCursor::new] *)
Definition message_cursor_new (segments : list bytes) : result CmacError MessageCursor :=
  match sum_lengths segments 0 with
  | None => Err CmacInputTooLong
  | Some total_len =>
      Ok (mkMessageCursor segments 0 0 total_len (Z.to_nat (Z.max ((total_len + 15) / 16) 1)))
  end.

(** The loop of [read_block]: what it has copied so far comes back at the front. *)
Fixpoint read_block_loop (fuel : nat) (c : MessageCursor) (filled : bytes) : option (MessageCursor * bytes) :=
  if bool_decide (length filled < 16)%nat && bool_decide (mc_segment_index c < length (mc_segments c))%nat
  then
    match fuel with
    | O => None
    | S fuel =>
        match mc_segments c !! mc_segment_index c with
        | None => None
        | Some segment =>
            if bool_decide (mc_segment_offset c = length segment)
            then read_block_loop fuel
                   (c <| mc_segment_index := S (mc_segment_index c) |> <| mc_segment_offset := O |>) filled
            else
              let available := drop (mc_segment_offset c) segment in
              let n := Nat.min (length available) (16 - length filled) in
              read_block_loop fuel (c <| mc_segment_offset := (mc_segment_offset c + n)%nat |>)
                (filled ++ take n available)
        end
    end
  else Some (c, filled).

(** [read_block] over a block of zeros: the block and how much of it was filled. *)
Definition read_block (c : MessageCursor) : option (MessageCursor * bytes * nat) :=
  match read_block_loop (S (2 * length (mc_segments c))) c [] with
  | Some (c, filled) => Some (c, filled ++ replicate (16 - length filled) 0, length filled)
  | None => None
  end.

Definition is_complete_final_block (c : MessageCursor) : bool :=
  bool_decide (mc_total_len c ≠ 0) && bool_decide (mc_total_len c mod 16 = 0).

(** [message_block[filled] = 0x80], a panic past the end of the block. *)
Definition put_padding (message_block : bytes) (filled : nat) : option bytes :=
  if bool_decide (filled < length message_block)%nat then Some (<[filled := 0x80]> message_block) else None.

(** The first half of a round for one lane: its cursor moved on, and the block that is
    encrypted for it. *)
Definition lane_absorb (b : BatchCmac128) (lane : Lane) : option (Lane * bytes) :=
  match read_block (ln_cursor lane) with
  | None => None
  | Some (cursor, message_block, filled) =>
      let lane := lane <| ln_cursor := cursor |> in
      let message_block :=
        if bool_decide (mc_blocks_remaining cursor = 1%nat)
        then if is_complete_final_block cursor
             then Some (xor_block message_block (bc_complete_subkey b))
             else (fun block => xor_block block (bc_partial_subkey b)) <$> put_padding message_block filled
        else Some message_block in
      (fun block => (lane, xor_block (ln_state lane) block)) <$> message_block
  end.

Fixpoint lanes_absorb (b : BatchCmac128) (lanes : list (option Lane)) : option (list (option Lane) * list bytes) :=
  match lanes with
  | [] => Some ([], [])
  | None :: lanes =>
      match lanes_absorb b lanes with
      | Some (lanes, states) => Some (None :: lanes, zero_block :: states)
      | None => None
      end
  | Some lane :: lanes =>
      match lane_absorb b lane with
      | None => None
      | Some (lane, state) =>
          match lanes_absorb b lanes with
          | Some (lanes, states) => Some (Some lane :: lanes, state :: states)
          | None => None
          end
      end
  end.

(** The second half: the encrypted states go back to the lanes, and a lane that is done
    leaves its signature; [None] is an index out of bounds. *)
Fixpoint lanes_retire (states : list bytes) (lanes : list (option Lane)) (signatures : list Z)
    : option (list (option Lane) * list Z) :=
  match states, lanes with
  | state :: states, None :: lanes =>
      match lanes_retire states lanes signatures with
      | Some (lanes, signatures) => Some (None :: lanes, signatures)
      | None => None
      end
  | state :: states, Some active :: lanes =>
      let remaining := (mc_blocks_remaining (ln_cursor active) - 1)%nat in
      let active := active <| ln_state := state |>
                      <| ln_cursor := (ln_cursor active) <| mc_blocks_remaining := remaining |> |> in
      if bool_decide (remaining = O)
      then if bool_decide (ln_input_index active < length signatures)%nat
           then match lanes_retire states lanes (<[ln_input_index active := le_value state]> signatures) with
                | Some (lanes, signatures) => Some (None :: lanes, signatures)
                | None => None
                end
           else None
      else match lanes_retire states lanes signatures with
           | Some (lanes, signatures) => Some (Some active :: lanes, signatures)
           | None => None
           end
  | _, _ => Some (lanes, signatures)
  end.

(** [fill_idle_lanes]: the lanes, the cursors and [next] after it. *)
Fixpoint fill_idle_lanes (lanes : list (option Lane)) (cursors : list (option MessageCursor)) (next : nat)
    : list (option Lane) * list (option MessageCursor) * nat :=
  match lanes with
  | [] => ([], cursors, next)
  | Some lane :: lanes =>
      let '(lanes, cursors, next) := fill_idle_lanes lanes cursors next in (Some lane :: lanes, cursors, next)
  | None :: lanes =>
      match cursors !! next with
      | Some (Some cursor) =>
          let lane := mkLane next cursor zero_block in
          let '(lanes, cursors, next) := fill_idle_lanes lanes (<[next := None]> cursors) (S next) in
          (Some lane :: lanes, cursors, next)
      | _ => (None :: lanes, cursors, next)
      end
  end.

Section batch.
Context {BC : BlockCipher}.

Definition batch_new (key : bytes) : BatchCmac128 :=
  let complete_subkey := double (aes_block key zero_block) in
  mkBatch key complete_subkey (double complete_subkey).

(** The loop of [sign_batch]. *)
Fixpoint batch_loop (fuel : nat) (b : BatchCmac128) (lanes : list (option Lane))
    (cursors : list (option MessageCursor)) (next : nat) (signatures : list Z) : option (list Z) :=
  if existsb (fun lane => bool_decide (is_Some lane)) lanes
  then
    match fuel with
    | O => None
    | S fuel =>
        match lanes_absorb b lanes with
        | None => None
        | Some (lanes, states) =>
            match lanes_retire (aes_block (bc_key b) <$> states) lanes signatures with
            | None => None
            | Some (lanes, signatures) =>
                let '(lanes, cursors, next) := fill_idle_lanes lanes cursors next in
                batch_loop fuel b lanes cursors next signatures
            end
        end
    end
  else Some signatures.

Fixpoint message_cursors (inputs : list (list bytes)) : result CmacError (list (option MessageCursor)) :=
  match inputs with
  | [] => Ok []
  | segments :: inputs =>
      match message_cursor_new segments with
      | Err error => Err error
      | Ok cursor =>
          match message_cursors inputs with
          | Ok cursors => Ok (Some cursor :: cursors)
          | Err error => Err error
          end
      end
  end.

(** Rounds that are enough: every round takes a block of some message. *)
Definition total_blocks (cursors : list (option MessageCursor)) : nat :=
  sum_list (from_option mc_blocks_remaining O <$> cursors).

(** [sign_batch]; [None] is a panic. *)
Definition sign_batch (b : BatchCmac128) (inputs : list (list bytes)) : option (result CmacError (list Z)) :=
  match message_cursors inputs with
  | Err error => Some (Err error)
  | Ok cursors =>
      let '(lanes, cursors', next) :=
        fill_idle_lanes (replicate portable_cmac_lanes None) cursors 0 in
      Ok <$> batch_loop (total_blocks cursors) b lanes cursors' next (replicate (length cursors) 0)
  end.

(** ** RFC 4493 *)

(** Doubling in GF(2^128), most significant byte first. *)
Definition rfc_double (b : bytes) : bytes :=
  let v := be_value b in
  be_bytes 16 (if bool_decide (2 ^ 127 <= v) then Z.lxor ((2 * v) mod 2 ^ 128) 0x87 else 2 * v).

Definition rfc_k1 (key : bytes) : bytes := rfc_double (aes_block key zero_block).
Definition rfc_k2 (key : bytes) : bytes := rfc_double (rfc_k1 key).

Definition rfc_pad (m : bytes) : bytes := m ++ [0x80] ++ replicate (15 - length m) 0.

Definition rfc_last (key m : bytes) : bytes :=
  if bool_decide (length m = 16%nat) then xor_block m (rfc_k1 key) else xor_block (rfc_pad m) (rfc_k2 key).

(** The [n] last blocks of a message from the chaining value [x]. *)
Fixpoint rfc_chain (key : bytes) (n : nat) (x m : bytes) : bytes :=
  match n with
  | O => x
  | 1%nat => aes_block key (xor_block x (rfc_last key m))
  | S n => rfc_chain key n (aes_block key (xor_block x (take 16 m))) (drop 16 m)
  end.

Definition block_count (m : bytes) : nat := Nat.max 1 ((length m + 15) / 16).

Definition aes_cmac (key m : bytes) : bytes := rfc_chain key (block_count m) zero_block m.

End batch.

(** ** Doubling *)

#[local] Ltac Zify.zify_post_hook ::= Z.to_euclidean_division_equations.

Lemma le_bytes_S n v : le_bytes (S n) v = v mod 256 :: le_bytes n (v / 256).
Proof. done. Qed.

Lemma double_loop_spec input : forall carry,
  bytes_ok input -> 0 <= carry <= 1 ->
  let '(output, last) := double_loop input carry in
  let v := 2 * le_value input + carry in
  output = le_bytes (length input) v /\ last = v / 256 ^ zlen input /\ 0 <= last <= 1.
Proof.
  induction input as [|b input IH]; intros carry Hok Hc; cbn [double_loop].
  { cbn. unfold zlen. cbn. split; [done|]. by rewrite Z.div_1_r. }
  apply Forall_cons in Hok as [Hb Hok]. unfold byte_ok in Hb.
  assert (Hs : Z.shiftr b 7 = b / 128) by by rewrite Z.shiftr_div_pow2.
  assert (0 <= b / 128 <= 1) by lia. rewrite Hs. specialize (IH (b / 128) Hok ltac:(lia)).
  destruct (double_loop input (b / 128)) as [output last]. destruct IH as (-> & -> & Hr).
  cbn [le_value length]. rewrite le_bytes_S. set (v := le_value input) in *.
  assert (E : (2 * (b + 256 * v) + carry) / 256 = 2 * v + b / 128) by lia.
  split; [|split; [|done]].
  - rewrite E. f_equal. unfold as_uint. rewrite Z.shiftl_mul_pow2 by done. change (u8_max + 1) with 256.
    assert (Hd : Z.land ((b * 2 ^ 1) mod 256) carry = 0).
    { apply Z.bits_inj'. intros n Hn. rewrite Z.land_spec, Z.bits_0.
      destruct (decide (n = 0)) as [->|].
      - assert (Z.testbit ((b * 2 ^ 1) mod 256) 0 = false) as ->; [|done].
        rewrite Z.bit0_odd, <- Z.negb_even. apply negb_false_iff, Z.even_spec. exists (b mod 128). lia.
      - assert (carry = 0 \/ carry = 1) as [-> | ->] by lia; [by rewrite Z.bits_0, andb_false_r|].
        rewrite (Z.bits_above_log2 1 n) by (cbn; lia). by rewrite andb_false_r. }
    pose proof (Z.add_lor_land ((b * 2 ^ 1) mod 256) carry) as Hadd.
    rewrite Hd in Hadd. lia.
  - unfold zlen. cbn [length]. rewrite Nat2Z.inj_succ, Z.pow_succ_r by lia. rewrite <- Z.div_div by lia. by rewrite E.
Qed.

Lemma le_bytes_mod n : forall v, le_bytes n v = le_bytes n (v mod 256 ^ Z.of_nat n).
Proof.
  induction n as [|n IH]; intros v; [done|]. rewrite !le_bytes_S, Nat2Z.inj_succ, Z.pow_succ_r by lia.
  rewrite Z.mul_comm. assert (0 < 256 ^ Z.of_nat n) by lia. f_equal.
  - rewrite Z.mul_comm, Znumtheory.Zmod_div_mod with (n := 256) (m := 256 * 256 ^ Z.of_nat n) at 1; [done|lia|lia|].
    exists (256 ^ Z.of_nat n). lia.
  - rewrite IH. f_equal. rewrite Z.mul_comm, Z.rem_mul_r by lia. lia.
Qed.

(** Changing the lowest byte of a value. *)
Lemma le_bytes_lxor n v k :
  0 <= k < 256 -> le_bytes (S n) (Z.lxor v k) = Z.lxor (v mod 256) k :: le_bytes n (v / 256).
Proof.
  intros Hk. rewrite le_bytes_S.
  assert (Hk8 : k / 2 ^ 8 = 0) by (apply Z.div_small; lia).
  change 256 with (2 ^ 8) in *. rewrite <- !Z.land_ones by lia. f_equal.
  - apply Z.bits_inj'. intros i Hi. rewrite Z.land_spec, !Z.lxor_spec, Z.land_spec.
    destruct (Z.testbit (Z.ones 8) i) eqn:E; [by rewrite !andb_true_r|]. rewrite !andb_false_r.
    destruct (decide (i < 8)) as [Hi8|Hi8].
    + rewrite Z.ones_spec_low in E by lia. done.
    + rewrite <- (Z.mod_small k (2 ^ 8)), Z.mod_pow2_bits_high by lia. done.
  - f_equal. rewrite <- !Z.shiftr_div_pow2 in * by lia. by rewrite Z.shiftr_lxor, Hk8, Z.lxor_0_r.
Qed.

(** The loop over bytes is doubling in GF(2^128). *)
Lemma double_spec b : length b = 16%nat -> bytes_ok b -> double b = rfc_double b.
Proof.
  intros Hl Hok. unfold double, rfc_double, be_value, be_bytes.
  assert (Hok' : bytes_ok (reverse b)) by by apply bytes_ok_reverse.
  pose proof (double_loop_spec (reverse b) 0 Hok' ltac:(lia)) as H.
  pose proof (le_value_bound _ Hok') as Hb. rewrite length_reverse, Hl in Hb.
  destruct (double_loop (reverse b) 0) as [output last]. unfold zlen in H. rewrite length_reverse, Hl, Z.add_0_r in H.
  set (v := le_value (reverse b)) in *. change (256 ^ Z.of_nat 16) with (2 ^ 128) in *.
  destruct H as (-> & -> & Hr). case_bool_decide as Hc; case_bool_decide as Hv; [|lia..|done].
  rewrite (le_bytes_mod 16 (2 * v)). change (256 ^ Z.of_nat 16) with (2 ^ 128).
  set (w := (2 * v) mod 2 ^ 128). rewrite le_bytes_lxor, le_bytes_S by lia. rewrite !reverse_cons.
  replace 15%nat with (length (reverse (le_bytes 15 (w / 256))) + 0)%nat at 1
    by (rewrite length_reverse, length_le_bytes; done).
  by rewrite alter_app_r.
Qed.

(** ** The cursor over segments *)

(** The bytes a cursor has not read. *)
Definition unread (c : MessageCursor) : bytes :=
  match drop (mc_segment_index c) (mc_segments c) with
  | [] => []
  | segment :: rest => drop (mc_segment_offset c) segment ++ concat rest
  end.

Definition offset_ok (c : MessageCursor) : Prop :=
  forall s, mc_segments c !! mc_segment_index c = Some s -> (mc_segment_offset c <= length s)%nat.

(** What the copying loop still has to do: to read and to leave each segment. *)
Definition cursor_weight (c : MessageCursor) : nat :=
  match mc_segments c !! mc_segment_index c with
  | None => O
  | Some s => 2 * (length (mc_segments c) - mc_segment_index c)
              - if bool_decide (mc_segment_offset c = length s) then 1 else 0
  end.

Lemma cursor_weight_le c : (cursor_weight c <= 2 * (length (mc_segments c) - mc_segment_index c))%nat.
Proof. unfold cursor_weight. destruct (_ !! _); [case_bool_decide|]; lia. Qed.

Lemma unread_current c s :
  mc_segments c !! mc_segment_index c = Some s ->
  unread c = drop (mc_segment_offset c) s ++ concat (drop (S (mc_segment_index c)) (mc_segments c)).
Proof. intros H. unfold unread. by rewrite (drop_S _ s _ H). Qed.

Lemma unread_next c s :
  mc_segments c !! mc_segment_index c = Some s -> mc_segment_offset c = length s ->
  unread (c <| mc_segment_index := S (mc_segment_index c) |> <| mc_segment_offset := O |>) = unread c.
Proof.
  intros H Ho. rewrite (unread_current c s H), Ho, drop_all. unfold unread. cbn. by destruct (drop _ _).
Qed.

(** What reading leaves alone. *)
Definition same_message (c c' : MessageCursor) : Prop :=
  mc_segments c' = mc_segments c /\ mc_total_len c' = mc_total_len c /\
  mc_blocks_remaining c' = mc_blocks_remaining c.

Lemma read_block_loop_spec fuel : forall c filled,
  offset_ok c -> (length filled <= 16)%nat ->
  (cursor_weight c <= fuel \/ length filled = 16)%nat ->
  exists c', read_block_loop fuel c filled = Some (c', filled ++ take (16 - length filled) (unread c)) /\
    unread c' = drop (16 - length filled) (unread c) /\ offset_ok c' /\ same_message c c'.
Proof.
  induction fuel as [|fuel IH]; intros c filled Hok Hl Hw; cbn [read_block_loop].
  all: destruct (bool_decide (length filled < 16)%nat) eqn:Ef; [apply bool_decide_eq_true in Ef
    |apply bool_decide_eq_false in Ef; replace (16 - length filled)%nat with O by lia;
     exists c; rewrite take_0, app_nil_r, drop_0; done].
  all: destruct (bool_decide (mc_segment_index c < length (mc_segments c))%nat) eqn:Ei;
    [apply bool_decide_eq_true in Ei; apply lookup_lt_is_Some in Ei as [s Hs]
    |apply bool_decide_eq_false in Ei; exists c;
     assert (unread c = []) as -> by (unfold unread; by rewrite drop_ge by lia);
     rewrite take_nil, app_nil_r, drop_nil; done].
  all: pose proof (Hok s Hs) as Ho; apply lookup_lt_Some in Hs as Hlt; cbn [andb].
  { exfalso. unfold cursor_weight in Hw. rewrite Hs in Hw. case_bool_decide; lia. }
  rewrite Hs. case_bool_decide as Eo.
  - destruct (IH (c <| mc_segment_index := S (mc_segment_index c) |> <| mc_segment_offset := O |>) filled)
      as (c' & E & Hu & Ho' & Hm); [|done| |].
    + intros s' _. cbn. lia.
    + left. set (c1 := c <| mc_segment_index := _ |> <| mc_segment_offset := _ |>).
      pose proof (cursor_weight_le c1) as Hc1. cbn in Hc1. unfold cursor_weight in Hw.
      rewrite Hs, bool_decide_eq_true_2 in Hw by done. lia.
    + exists c'. rewrite (unread_next c s) in * by done. done.
  - set (n := Nat.min _ _). assert (Hn : (0 < n /\ n <= 16 - length filled /\ n <= length s - mc_segment_offset c /\
      (n = 16 - length filled \/ n = length s - mc_segment_offset c))%nat).
    { subst n. rewrite length_drop. lia. }
    clearbody n. set (c1 := c <| mc_segment_offset := (mc_segment_offset c + n)%nat |>).
    assert (Hfl : length (filled ++ take n (drop (mc_segment_offset c) s)) = (length filled + n)%nat).
    { rewrite length_app, length_take, length_drop. lia. }
    assert (Hu1 : unread c = take n (drop (mc_segment_offset c) s) ++ unread c1).
    { rewrite (unread_current c s Hs), (unread_current c1 s Hs). cbn.
      rewrite app_assoc. f_equal. rewrite <- drop_drop. by rewrite take_drop. }
    assert (Htl : length (take n (drop (mc_segment_offset c) s)) = n) by (rewrite length_take, length_drop; lia).
    destruct (IH c1 (filled ++ take n (drop (mc_segment_offset c) s))) as (c' & E & Hu & Ho' & Hm).
    + intros s' Hs'. cbn in *. assert (s' = s) as -> by congruence. lia.
    + lia.
    + rewrite Hfl. destruct Hn as (_ & _ & _ & [En|En]); [lia|left].
      unfold cursor_weight in *. rewrite Hs, bool_decide_eq_false_2 in Hw by done. cbn. rewrite Hs.
      rewrite bool_decide_eq_true_2 by lia. lia.
    + exists c'. rewrite E, Hfl, Hu1, <- app_assoc. rewrite Hfl in Hu. split_and!; [|..|done|done].
      * do 3 f_equal. rewrite take_app, Htl. rewrite (take_ge (take n _)) by lia. do 2 f_equal. lia.
      * rewrite Hu, drop_app, Htl, (drop_ge (take n _)) by lia. cbn. f_equal. lia.
Qed.

(** [read_block] takes the next sixteen bytes, filled up with zeros. *)
Lemma read_block_spec c :
  offset_ok c ->
  exists c', read_block c =
      Some (c', take 16 (unread c) ++ replicate (16 - length (unread c)) 0, Nat.min 16 (length (unread c))) /\
    unread c' = drop 16 (unread c) /\ offset_ok c' /\ same_message c c'.
Proof.
  intros Hok. unfold read_block.
  destruct (read_block_loop_spec (S (2 * length (mc_segments c))) c []) as (c' & -> & H); [done|cbn;lia| |].
  - left. pose proof (cursor_weight_le c). lia.
  - exists c'. cbn [app length] in *. rewrite Nat.sub_0_r in *. rewrite length_take. split; [|done].
    by replace (16 - Nat.min 16 (length (unread c)))%nat with (16 - length (unread c))%nat by lia.
Qed.

(** ** One lane *)

#[global] Arguments xor_block : simpl never.
#[global] Arguments zero_block : simpl never.
#[global] Arguments batch_new : simpl never.

Section lanes.
Context {BC : BlockCipher} {BCL : BlockCipherLaws}.
Context (key : bytes).

Let b := batch_new key.

Lemma length_zero_block : length zero_block = 16%nat.
Proof. done. Qed.

Lemma batch_subkeys : bc_complete_subkey b = rfc_k1 key /\ bc_partial_subkey b = rfc_k2 key.
Proof.
  assert (E : bc_complete_subkey b = rfc_k1 key).
  { apply double_spec; [apply aes_block_length|apply aes_block_ok]. }
  split; [done|]. unfold rfc_k2. rewrite <- E. apply double_spec; rewrite E; unfold rfc_k1, rfc_double, be_bytes.
  - by rewrite length_reverse, length_le_bytes.
  - apply bytes_ok_reverse, le_bytes_ok.
Qed.

(** A lane in the middle of a message: the blocks it has left are those of its unread
    bytes, and the end of the message is where its total length says. *)
Record cursor_ok (c : MessageCursor) : Prop := {
  co_offset : offset_ok c;
  co_blocks : mc_blocks_remaining c = block_count (unread c);
  co_total : mc_total_len c mod 16 = zlen (unread c) mod 16;
  co_empty : unread c = [] <-> mc_total_len c = 0
}.

(** What the lane will leave as its signature. *)
Definition lane_value (l : Lane) : bytes :=
  rfc_chain key (mc_blocks_remaining (ln_cursor l)) (ln_state l) (unread (ln_cursor l)).

Lemma block_count_small m : (length m <= 16)%nat -> block_count m = 1%nat.
Proof. intros H. unfold block_count. lia. Qed.

Lemma block_count_big m : (16 < length m)%nat -> exists n, block_count m = S (S n) /\ block_count (drop 16 m) = S n.
Proof.
  intros H. unfold block_count. rewrite length_drop. exists ((length m + 15) / 16 - 2)%nat. lia.
Qed.

Lemma final_block_spec c :
  cursor_ok c -> mc_blocks_remaining c = 1%nat ->
  (length (unread c) <= 16)%nat /\ (is_complete_final_block c = true <-> length (unread c) = 16%nat).
Proof.
  intros [_ Hb Ht He] H1. rewrite Hb in H1. unfold block_count in H1.
  assert (Hle : (length (unread c) <= 16)%nat) by lia. split; [done|].
  unfold is_complete_final_block. rewrite andb_true_iff, !bool_decide_eq_true. unfold zlen in Ht.
  assert (Hn : mc_total_len c ≠ 0 <-> (length (unread c) <> 0)%nat).
  { rewrite <- He. destruct (unread c); cbn; split; intros; (done || lia). }
  rewrite Hn. lia.
Qed.

(** A lane absorbs one block; encrypting the result goes on with the same message. *)
Lemma lane_absorb_spec lane :
  cursor_ok (ln_cursor lane) ->
  exists lane' state, lane_absorb b lane = Some (lane', state) /\
    ln_input_index lane' = ln_input_index lane /\
    mc_blocks_remaining (ln_cursor lane') = mc_blocks_remaining (ln_cursor lane) /\
    lane_value lane = (if bool_decide (mc_blocks_remaining (ln_cursor lane) = 1%nat) then aes_block key state
                       else rfc_chain key (mc_blocks_remaining (ln_cursor lane) - 1) (aes_block key state)
                              (unread (ln_cursor lane'))) /\
    (mc_blocks_remaining (ln_cursor lane) ≠ 1%nat ->
     cursor_ok ((ln_cursor lane') <| mc_blocks_remaining := (mc_blocks_remaining (ln_cursor lane) - 1)%nat |>)).
Proof.
  intros Hok. destruct (read_block_spec (ln_cursor lane)) as (c' & E & Hu & Ho & (Hs1 & Hs2 & Hs3)); [apply Hok|].
  unfold lane_absorb. rewrite E, Hs3. destruct batch_subkeys as [K1 K2]. cbv zeta.
  assert (Hc : is_complete_final_block c' = is_complete_final_block (ln_cursor lane)).
  { unfold is_complete_final_block. by rewrite Hs2. }
  rewrite Hc. unfold lane_value. destruct (bool_decide (mc_blocks_remaining (ln_cursor lane) = 1%nat)) eqn:E1.
  - apply bool_decide_eq_true in E1. destruct (final_block_spec _ Hok E1) as [Hle Hfin].
    set (m := unread (ln_cursor lane)) in *. rewrite E1. cbn [rfc_chain]. unfold rfc_last.
    destruct (is_complete_final_block (ln_cursor lane)).
    + assert (Hl : length m = 16%nat) by by apply Hfin. rewrite bool_decide_eq_true_2 by done.
      eexists _, _. split; [reflexivity|]. cbn. split_and!; [done|congruence| |congruence].
      rewrite K1, (take_ge m), Hl by lia. cbn. by rewrite app_nil_r.
    + assert (Hl : length m <> 16%nat) by (intros Hl; apply Hfin in Hl; discriminate).
      rewrite bool_decide_eq_false_2 by done. rewrite Nat.min_r by lia. unfold put_padding.
      rewrite bool_decide_eq_true_2.
      2: { rewrite length_app, length_take, length_replicate. lia. }
      eexists _, _. split; [reflexivity|]. cbn. split_and!; [done|congruence| |congruence].
      rewrite K2, (take_ge m) by lia. do 3 f_equal. unfold rfc_pad.
      replace (16 - length m)%nat with (S (15 - length m)) by lia. cbn [replicate].
      rewrite insert_app_r_alt by lia. by rewrite Nat.sub_diag.
  - apply bool_decide_eq_false in E1. destruct Hok as [_ Hb Ht He]. rewrite Hb in *.
    assert (Hbig : (16 < length (unread (ln_cursor lane)))%nat).
    { destruct (decide (length (unread (ln_cursor lane)) <= 16)%nat) as [Hle|]; [|lia].
      by rewrite block_count_small in E1. }
    set (m := unread (ln_cursor lane)) in *. destruct (block_count_big m Hbig) as (n & En & En').
    eexists _, _. split; [reflexivity|]. cbn [ln_cursor ln_input_index ln_state setter]. split_and!.
    + done.
    + cbn. by rewrite Hs3.
    + rewrite En. cbn. rewrite Hu. replace (16 - length m)%nat with O by lia. cbn.
      rewrite app_nil_r. done.
    + intros _. split; cbn.
      * exact Ho.
      * rewrite En. cbn. change (unread _) with (unread c'). by rewrite Hu, En'.
      * change (unread _) with (unread c'). rewrite Hs2, Ht, Hu. unfold zlen. rewrite length_drop. lia.
      * change (unread _) with (unread c'). rewrite Hs2, <- He, Hu. split; intros E0.
        -- apply (f_equal length) in E0. rewrite length_drop in E0. cbn in E0. lia.
        -- fold m in E0. rewrite E0 in Hbig. cbn in Hbig. lia.
Qed.

(** ** Rounds *)

(** The messages, by input index, as the signatures they are due. *)
Context (due : list Z).

Record lane_ok (l : Lane) : Prop := {
  lo_cursor : cursor_ok (ln_cursor l);
  lo_due : due !! ln_input_index l = Some (le_value (lane_value l))
}.

Definition settled (signatures : list Z) (i : nat) : Prop :=
  exists v, due !! i = Some v /\ signatures !! i = Some v.

Definition in_lane (lanes : list (option Lane)) (i : nat) : Prop :=
  exists l, Some l ∈ lanes /\ ln_input_index l = i.

Definition lanes_ok (lanes : list (option Lane)) : Prop := forall l, Some l ∈ lanes -> lane_ok l.

Definition lane_blocks (lane : option Lane) : nat :=
  from_option (fun l => mc_blocks_remaining (ln_cursor l)) O lane.

Lemma block_count_pos m : (0 < block_count m)%nat.
Proof. unfold block_count. lia. Qed.

Lemma in_lane_cons lane lanes i :
  in_lane (lane :: lanes) i <-> (exists l, lane = Some l /\ ln_input_index l = i) \/ in_lane lanes i.
Proof.
  unfold in_lane. setoid_rewrite elem_of_cons. split.
  - intros (l & [<- | H] & E); eauto.
  - intros [(l & -> & E) | (l & H & E)]; eauto.
Qed.

Lemma lanes_ok_cons lane lanes :
  lanes_ok (lane :: lanes) <-> (forall l, lane = Some l -> lane_ok l) /\ lanes_ok lanes.
Proof. unfold lanes_ok. setoid_rewrite elem_of_cons. naive_solver. Qed.

(** What a round does to the lanes and the signatures. *)
Record round_result (lanes lanes' : list (option Lane)) (signatures signatures' : list Z) : Prop := {
  rd_length : length signatures' = length signatures;
  rd_size : length lanes' = length lanes;
  rd_ok : lanes_ok lanes';
  rd_keep i : settled signatures i -> settled signatures' i;
  rd_lane i : in_lane lanes i -> in_lane lanes' i \/ settled signatures' i;
  rd_old i : in_lane lanes' i -> in_lane lanes i;
  rd_le : (sum_list (lane_blocks <$> lanes') <= sum_list (lane_blocks <$> lanes))%nat;
  rd_less : (exists l, Some l ∈ lanes) ->
    (sum_list (lane_blocks <$> lanes') < sum_list (lane_blocks <$> lanes))%nat
}.

Lemma round_cons lane lane' lanes lanes' sig sig1 sig' :
  round_result lanes lanes' sig1 sig' -> length sig1 = length sig ->
  (forall i, settled sig i -> settled sig1 i) ->
  (forall l, lane' = Some l -> lane_ok l) ->
  (forall l, lane = Some l -> (exists l', lane' = Some l' /\ ln_input_index l' = ln_input_index l) \/
     settled sig1 (ln_input_index l)) ->
  (forall l', lane' = Some l' -> exists l, lane = Some l /\ ln_input_index l = ln_input_index l') ->
  (lane_blocks lane' <= lane_blocks lane)%nat ->
  (lane <> None -> (lane_blocks lane' < lane_blocks lane)%nat) ->
  round_result (lane :: lanes) (lane' :: lanes') sig sig'.
Proof.
  intros [] Hl Hk Hok Hlane Hold Hle Hless. split; [congruence|cbn; congruence| | | | | |].
  - by apply lanes_ok_cons.
  - auto.
  - intros i [(l & -> & <-) | Hi]%in_lane_cons.
    + destruct (Hlane l eq_refl) as [(l' & -> & <-) | Hs]; [left|right; auto].
      apply in_lane_cons. left. eauto.
    + destruct (rd_lane0 i Hi); [left; apply in_lane_cons; by right|by right].
  - intros i [(l & -> & <-) | Hi]%in_lane_cons; apply in_lane_cons; [left|right; auto].
    destruct (Hold l eq_refl) as (l0 & -> & <-). eauto.
  - cbn. lia.
  - intros (l & [Hl1 | Hl1]%elem_of_cons); cbn.
    + subst lane. specialize (Hless ltac:(done)). lia.
    + specialize (rd_less0 ltac:(eauto)). lia.
Qed.

Lemma settled_insert sig i v j :
  due !! i = Some v -> length sig = length due -> settled sig j -> settled (<[i := v]> sig) j.
Proof.
  intros Hi Hl (w & Hd & Hs). exists w. split; [done|]. destruct (decide (i = j)) as [->|].
  - rewrite list_lookup_insert_eq; [congruence|]. rewrite Hl. by apply lookup_lt_Some in Hi.
  - by rewrite list_lookup_insert_ne.
Qed.

Lemma round_spec lanes : forall signatures,
  lanes_ok lanes -> length signatures = length due ->
  exists lanes1 states lanes' signatures',
    lanes_absorb b lanes = Some (lanes1, states) /\
    lanes_retire (aes_block key <$> states) lanes1 signatures = Some (lanes', signatures') /\
    round_result lanes lanes' signatures signatures'.
Proof.
  induction lanes as [|[lane|] lanes IH]; intros signatures Hok Hlen; cbn [lanes_absorb].
  - exists [], [], [], signatures. split_and!; [done..|]. split; try done; auto.
    intros (l & H%not_elem_of_nil). done.
  - apply lanes_ok_cons in Hok as [Hl Hok]. specialize (Hl lane eq_refl). destruct Hl as [Hc Hd].
    destruct (lane_absorb_spec lane Hc) as (lane' & state & Ea & Ei & Eb & Ev & Hnext). rewrite Ea.
    pose proof (co_blocks _ Hc) as Hbc. pose proof (block_count_pos (unread (ln_cursor lane))) as Hpos.
    set (n := mc_blocks_remaining (ln_cursor lane)) in *.
    destruct (decide (n = 1%nat)) as [E1|E1].
    + rewrite bool_decide_eq_true_2 in Ev by done. rewrite Ev in Hd.
      assert (Hlt : (ln_input_index lane < length signatures)%nat).
      { rewrite Hlen. by apply lookup_lt_Some in Hd. }
      destruct (IH (<[ln_input_index lane := le_value (aes_block key state)]> signatures))
        as (lanes1 & states & lanes' & signatures' & -> & Er & R); [done|by rewrite length_insert|].
      exists (Some lane' :: lanes1), (state :: states), (None :: lanes'), signatures'.
      split; [done|]. split.
      { rewrite fmap_cons. cbn [lanes_retire]. rewrite Eb, bool_decide_eq_true_2 by lia.
        cbn. rewrite Ei, bool_decide_eq_true_2 by done. by rewrite Er. }
      eapply round_cons; [exact R|by rewrite length_insert|..].
      * intros i. by apply settled_insert.
      * done.
      * intros l [= <-]. right. eexists. split; [exact Hd|]. by rewrite list_lookup_insert_eq.
      * done.
      * cbn. lia.
      * intros _. cbn. subst n. lia.
    + rewrite bool_decide_eq_false_2 in Ev by done.
      destruct (IH signatures) as (lanes1 & states & lanes' & signatures' & -> & Er & R); [done..|].
      set (after := lane' <| ln_state := aes_block key state |>
        <| ln_cursor := (ln_cursor lane') <| mc_blocks_remaining := (n - 1)%nat |> |>).
      exists (Some lane' :: lanes1), (state :: states), (Some after :: lanes'), signatures'.
      split; [done|]. split.
      { rewrite fmap_cons. cbn [lanes_retire]. rewrite Eb, bool_decide_eq_false_2 by lia. by rewrite Er. }
      eapply round_cons; [exact R|done|done|..].
      * intros l [= <-]. split; [by apply Hnext|]. cbn. rewrite Ei, Hd. do 2 f_equal. rewrite Ev. done.
      * intros l [= <-]. left. eexists. split; [done|]. exact Ei.
      * intros l [= <-]. exists lane. done.
      * cbn. subst n. lia.
      * intros _. cbn. subst n. lia.
  - apply lanes_ok_cons in Hok as [_ Hok].
    destruct (IH signatures) as (lanes1 & states & lanes' & signatures' & -> & Er & R); [done..|].
    exists (None :: lanes1), (zero_block :: states), (None :: lanes'), signatures'. split; [done|]. split.
    { rewrite fmap_cons. cbn [lanes_retire]. by rewrite Er. }
    eapply round_cons; [exact R|..]; done.
Qed.

(** ** Filling the lanes *)

Definition cursor_blocks (c : option MessageCursor) : nat := from_option mc_blocks_remaining O c.

(** The messages from [next] on are waiting, whole. *)
Definition waiting (cursors : list (option MessageCursor)) (next : nat) : Prop :=
  length cursors = length due /\
  forall i, (next <= i < length due)%nat ->
    exists c, cursors !! i = Some (Some c) /\ lane_ok (mkLane i c zero_block).

Definition batch_measure (lanes : list (option Lane)) (cursors : list (option MessageCursor)) (next : nat) : nat :=
  (sum_list (lane_blocks <$> lanes) + sum_list (cursor_blocks <$> drop next cursors))%nat.

Lemma fill_lanes_spec lanes : forall cursors next,
  lanes_ok lanes -> waiting cursors next -> (next <= length due)%nat ->
  let '(lanes', cursors', next') := fill_idle_lanes lanes cursors next in
  lanes_ok lanes' /\ waiting cursors' next' /\ (next <= next' <= length due)%nat /\
  (forall i, in_lane lanes i -> in_lane lanes' i) /\
  (forall i, (next <= i < next')%nat -> in_lane lanes' i) /\
  (None ∈ lanes' -> next' = length due) /\ length lanes' = length lanes /\
  batch_measure lanes' cursors' next' = batch_measure lanes cursors next.
Proof.
  induction lanes as [|[lane|] lanes IH]; intros cursors next Hok Hw Hn; cbn [fill_idle_lanes].
  - split_and!; try done; intros; [lia|by apply not_elem_of_nil in H].
  - apply lanes_ok_cons in Hok as [Hl Hok]. specialize (IH cursors next Hok Hw Hn).
    destruct (fill_idle_lanes lanes cursors next) as [[lanes' cursors'] next'].
    destruct IH as (H1 & H2 & H3 & H4 & H5 & H6 & H7 & H8). split_and!; try done; try lia.
    + by apply lanes_ok_cons.
    + intros i. rewrite !in_lane_cons. naive_solver.
    + intros i Hi. apply in_lane_cons. right. auto.
    + intros [|]%elem_of_cons; [done|auto].
    + cbn. lia.
    + unfold batch_measure in *. cbn. lia.
  - apply lanes_ok_cons in Hok as [_ Hok]. destruct (decide (next < length due)%nat) as [Hlt|Hge].
    + destruct (proj2 Hw next ltac:(lia)) as (c & Ec & Hc). rewrite Ec.
      specialize (IH (<[next := None]> cursors) (S next) Hok).
      destruct (fill_idle_lanes lanes (<[next := None]> cursors) (S next)) as [[lanes' cursors'] next'].
      destruct IH as (H1 & H2 & H3 & H4 & H5 & H6 & H7 & H8).
      { destruct Hw as [Hwl Hw]. split; [by rewrite length_insert|]. intros i Hi.
        rewrite list_lookup_insert_ne by lia. apply Hw. lia. }
      { lia. }
      split_and!; try done; try lia.
      * apply lanes_ok_cons. split; [|done]. by intros l [= <-].
      * intros i. rewrite !in_lane_cons. intros [(l & ? & _)|Hi]; [done|]. right. auto.
      * intros i Hi. apply in_lane_cons. destruct (decide (i = next)) as [->|]; [left|right; apply H5; lia].
        eexists. split; [done|]. done.
      * intros [|]%elem_of_cons; [done|auto].
      * cbn. lia.
      * unfold batch_measure in *. rewrite drop_insert_lt in H8 by lia.
        rewrite (drop_S _ _ _ Ec). cbn. lia.
    + assert (cursors !! next = None) as -> by (apply lookup_ge_None; rewrite (proj1 Hw); lia).
      split_and!; try done; try lia.
      * apply lanes_ok_cons. split; [|done]. done.
Qed.

Lemma no_lane_left lanes : existsb (fun lane => bool_decide (is_Some lane)) lanes = false -> forall i, ~ in_lane lanes i.
Proof.
  intros He i (l & Hin & _). assert (existsb (fun lane : option Lane => bool_decide (is_Some lane)) lanes = true); [|congruence].
  apply existsb_exists. exists (Some l). split; [by apply list_elem_of_In|done].
Qed.

(** Enough rounds settle every message. *)
Lemma batch_loop_spec fuel : forall lanes cursors next signatures,
  lanes_ok lanes -> waiting cursors next -> (next <= length due)%nat -> lanes <> [] ->
  length signatures = length due -> (None ∈ lanes -> next = length due) ->
  (forall i, (i < next)%nat -> in_lane lanes i \/ settled signatures i) ->
  (batch_measure lanes cursors next <= fuel)%nat ->
  batch_loop fuel b lanes cursors next signatures = Some due.
Proof.
  induction fuel as [|fuel IH]; intros lanes cursors next signatures Hok Hw Hn Hne Hl Hnone Hset Hm.
  all: cbn [batch_loop]; destruct (existsb _ lanes) eqn:Hex.
  2, 4: f_equal; pose proof (no_lane_left lanes Hex) as Hno; apply list_eq_same_length with (length due); try done;
    intros i x y Hi Hx Hy; destruct lanes as [|[l|] lanes]; [done|done|];
    rewrite Hnone in Hset by (apply elem_of_cons; by left);
    destruct (Hset i Hi) as [Hin|(v & Hv & Hs)]; [by destruct (Hno i)|congruence].
  all: apply existsb_exists in Hex as (lane & Hin%list_elem_of_In & Hs%bool_decide_eq_true); destruct Hs as [l ->].
  all: destruct (round_spec lanes signatures Hok Hl) as (lanes1 & states & lanes' & signatures' & Ea & Er & R).
  { pose proof (rd_less _ _ _ _ R ltac:(eauto)) as Hlt. unfold batch_measure in Hm. lia. }
  change (bc_key b) with key. rewrite Ea, Er.
  pose proof (fill_lanes_spec lanes' cursors next (rd_ok _ _ _ _ R) Hw Hn) as Hf.
  destruct (fill_idle_lanes lanes' cursors next) as [[lanes2 cursors2] next2].
  destruct Hf as (F1 & F2 & F3 & F4 & F5 & F6 & F7 & F8).
  apply IH; try done; try lia.
  - intros ->. pose proof (rd_size _ _ _ _ R) as Hz. cbn in F7. rewrite <- F7 in Hz. by destruct lanes.
  - rewrite (rd_length _ _ _ _ R). done.
  - intros i Hi. destruct (decide (i < next)%nat) as [Hlt|]; [|left; apply F5; lia].
    destruct (Hset i Hlt) as [Hi1|Hi1]; [|right; by apply (rd_keep _ _ _ _ R)].
    destruct (rd_lane _ _ _ _ R i Hi1) as [Hi2|Hi2]; [left; auto|by right].
  - pose proof (rd_less _ _ _ _ R ltac:(eauto)) as Hlt. rewrite F8. unfold batch_measure in *. lia.
Qed.
End lanes.

(** ** The batch *)

Lemma sum_lengths_concat segments : forall total,
  zlen (concat segments) + total <= usize_max -> sum_lengths segments total = Some (zlen (concat segments) + total).
Proof.
  induction segments as [|s segments IH]; intros total Ht; cbn [sum_lengths concat] in *; [by cbn|].
  unfold zlen in *. rewrite length_app in *. unfold checked_add. rewrite bool_decide_eq_true_2 by lia.
  rewrite IH by lia. f_equal. lia.
Qed.

Lemma sum_lengths_too_long segments : forall total,
  0 <= total <= usize_max -> usize_max < zlen (concat segments) + total -> sum_lengths segments total = None.
Proof.
  induction segments as [|s segments IH]; intros total Ht Hm; cbn [sum_lengths concat] in *; [unfold zlen in Hm; cbn in Hm; lia|].
  unfold zlen in *. rewrite length_app in *. unfold checked_add. case_bool_decide; [|done]. apply IH; lia.
Qed.

Definition fresh_cursor (segments : list bytes) : MessageCursor :=
  mkMessageCursor segments 0 0 (zlen (concat segments)) (block_count (concat segments)).

Lemma unread_fresh segments : unread (fresh_cursor segments) = concat segments.
Proof. unfold unread. cbn. by destruct segments. Qed.

Lemma message_cursor_new_spec segments :
  zlen (concat segments) <= usize_max -> message_cursor_new segments = Ok (fresh_cursor segments).
Proof.
  intros H. unfold message_cursor_new. rewrite sum_lengths_concat, Z.add_0_r by lia.
  unfold fresh_cursor. do 2 f_equal. unfold block_count, zlen. lia.
Qed.

Lemma message_cursors_spec inputs :
  Forall (fun segments => zlen (concat segments) <= usize_max) inputs ->
  message_cursors inputs = Ok ((fun s => Some (fresh_cursor s)) <$> inputs).
Proof.
  induction 1 as [|segments inputs H _ IH]; [done|]. cbn [message_cursors].
  by rewrite message_cursor_new_spec, IH.
Qed.

Lemma fresh_cursor_ok segments : cursor_ok (fresh_cursor segments).
Proof.
  split; rewrite ?unread_fresh; try done.
  - intros s _. cbn. lia.
  - cbn. unfold zlen. destruct (concat segments); cbn; split; intros; (done || lia).
Qed.

(** What the batch computes. *)
Lemma sign_batch_spec {BC : BlockCipher} {BCL : BlockCipherLaws} key inputs :
  Forall (fun segments => zlen (concat segments) <= usize_max) inputs ->
  sign_batch (batch_new key) inputs
  = Some (Ok ((fun segments => le_value (aes_cmac key (concat segments))) <$> inputs)).
Proof.
  intros Hin. unfold sign_batch. rewrite message_cursors_spec by done.
  set (due := (fun segments => le_value _) <$> inputs). set (cursors := _ <$> inputs).
  assert (Hlen : length cursors = length due) by (subst cursors due; by rewrite !length_fmap).
  assert (Hw : waiting key due cursors 0).
  { split; [done|]. intros i [_ Hi]. rewrite <- Hlen in Hi. apply lookup_lt_is_Some in Hi as [c Hc].
    subst cursors due. rewrite list_lookup_fmap in Hc. apply fmap_Some in Hc as (s & Hs & ->).
    exists (fresh_cursor s). rewrite list_lookup_fmap, Hs. split; [done|]. split; [apply fresh_cursor_ok|].
    cbn. rewrite list_lookup_fmap, Hs. cbn. unfold lane_value, aes_cmac. cbn. by rewrite unread_fresh. }
  assert (Hok : lanes_ok key due (replicate portable_cmac_lanes None)).
  { intros l Hl. apply elem_of_replicate in Hl as [? _]. done. }
  pose proof (fill_lanes_spec key due (replicate portable_cmac_lanes None) cursors 0 Hok Hw ltac:(lia)) as Hf.
  destruct (fill_idle_lanes _ cursors 0) as [[lanes cursors'] next].
  destruct Hf as (F1 & F2 & F3 & F4 & F5 & F6 & F7 & F8). rewrite (batch_loop_spec key due); try done.
  - lia.
  - intros ->. done.
  - by rewrite length_replicate.
  - intros i Hi. left. apply F5. lia.
  - rewrite F8. unfold batch_measure. rewrite drop_0. cbn. done.
Qed.

(** C33: authenticating messages four at a time gives each of them the AES-CMAC of RFC 4493,
    in the order of the inputs, whatever their number and lengths and however each is cut
    into segments; the interleaved loop ends and no index of it is out of bounds. *)
Theorem batch_cmac_is_rfc4493 {BC : BlockCipher} {BCL : BlockCipherLaws} key inputs :
  Forall (fun segments => zlen (concat segments) <= usize_max) inputs ->
  sign_batch (batch_new key) inputs
  = Some (Ok ((fun segments => le_value (aes_cmac key (concat segments))) <$> inputs)).
Proof. apply sign_batch_spec. Qed.

(** An input longer than the address space is refused. *)
Lemma batch_refuses_long_input {BC : BlockCipher} key segments inputs :
  usize_max < zlen (concat segments) -> sign_batch (batch_new key) (segments :: inputs) = Some (Err CmacInputTooLong).
Proof.
  intros H. unfold sign_batch. cbn [message_cursors]. unfold message_cursor_new.
  by rewrite sum_lengths_too_long by (unfold usize_max in *; lia).
Qed.

(** ** Witness: a cipher that only mixes *)

Definition toy_cipher : BlockCipher := {| aes_block key b := le_bytes 16 (le_value key + 3 * le_value b + 1) |}.

Lemma toy_cipher_laws : @BlockCipherLaws toy_cipher.
Proof. split; intros; [apply length_le_bytes|apply le_bytes_ok]. Qed.

Definition sample_inputs : list (list bytes) :=
  [[]; [[1; 2; 3]; []; replicate 13 7]; [replicate 20 9; replicate 40 4]; [[255]]; [replicate 33 200]; [[]; [8]]].

Lemma batch_cmac_is_rfc4493_witness :
  Forall (fun segments => zlen (concat segments) <= usize_max) sample_inputs /\
  @sign_batch toy_cipher (@batch_new toy_cipher [5; 6]) sample_inputs
  = Some (Ok ((fun segments => le_value (@aes_cmac toy_cipher [5; 6] (concat segments))) <$> sample_inputs)).
Proof.
  assert (H : Forall (fun segments => zlen (concat segments) <= usize_max) sample_inputs)
    by (repeat constructor; vm_compute; discriminate).
  split; [exact H|]. apply (@batch_cmac_is_rfc4493 toy_cipher toy_cipher_laws). exact H.
Defined.
