(* ===== verification/WireOut.v ===== *)
(** Building a message for the wire (crates/smb-msg/src/wire_out.rs): the metadata arena in
    which one or more requests are encoded, the payloads attached to it, the signatures
    patched into it, and the sealed message.

    Of a request the header is modelled and the body is the bytes [binrw] writes for it,
    or nothing when it refuses to. *)
From S2P Require Import Prelude Bytes Header.
Local Open Scope Z_scope.

Inductive SmbMsgError :=
| ME_MissingErrorCodeDefinition (code : Z)
| ME_MissingFsctlDefinition (code : Z)
| ME_UnexpectedContent
| ME_InvalidData
| ME_InvalidWireRange (offset length : Z)
| ME_InvalidDialect
| ME_BinRWError.

(** ** Requests *)

Record PlainRequest := mkPlainRequest {
  pq_header : Header;
  pq_content : option bytes
}.

#[export] Instance eta_PlainRequest : Eta PlainRequest := fun r => mkPlainRequest (pq_header r) (pq_content r).

(** A request is written without the server-to-client flag, its header before its body. *)
Definition write_plain_request (r : PlainRequest) : option bytes :=
  if flag_server_to_redir (hd_flags (pq_header r)) then None
  else match write_header (pq_header r), pq_content r with
       | Some header, Some content => Some (header ++ content)
       | _, _ => None
       end.

(** ** The metadata arena *)

(** [BytesMut::resize(n, 0)] *)
Definition resize (n : Z) (bs : bytes) : bytes :=
  take (Z.to_nat n) bs ++ replicate (Z.to_nat n - length bs) 0.

(** [bs[start..start + buffer.len()].copy_from_slice(buffer)] *)
Definition splice (start : nat) (buffer bs : bytes) : bytes :=
  take start bs ++ buffer ++ drop (start + length buffer) bs.

(** [bs.get(start..end)] *)
Definition get_range (range : nat * nat) (bs : bytes) : option bytes :=
  if bool_decide (range.1 <= range.2 <= length bs)%nat
  then Some (take (range.2 - range.1) (drop range.1 bs)) else None.

Record MetadataCursor := mkMetadataCursor {
  md_arena : bytes;
  md_base : Z;
  md_position : Z
}.

#[export] Instance eta_MetadataCursor : Eta MetadataCursor := fun c =>
  mkMetadataCursor (md_arena c) (md_base c) (md_position c).

Definition md_at_end (arena : bytes) : MetadataCursor := mkMetadataCursor arena (zlen arena) 0.

Definition md_absolute_position (c : MetadataCursor) : option Z :=
  checked_add usize_max (md_base c) (md_position c).

Definition md_write (c : MetadataCursor) (buffer : bytes) : option MetadataCursor :=
  match md_absolute_position c with
  | None => None
  | Some start =>
      match checked_add usize_max start (zlen buffer) with
      | None => None
      | Some last =>
          let arena := if bool_decide (last > zlen (md_arena c)) then resize last (md_arena c) else md_arena c in
          Some (c <| md_arena := splice (Z.to_nat start) buffer arena |>
                  <| md_position := md_position c + zlen buffer |>)
      end
  end.

Inductive SeekFrom := SeekStart (offset : Z) | SeekCurrent (offset : Z) | SeekEnd (offset : Z).

Definition md_seek (c : MetadataCursor) (from : SeekFrom) : option MetadataCursor :=
  let member_len := saturating_sub (zlen (md_arena c)) (md_base c) in
  let next := match from with
              | SeekStart offset => offset
              | SeekCurrent offset => md_position c + offset
              | SeekEnd offset => member_len + offset
              end in
  if bool_decide (next < 0) || bool_decide (next > usize_max) then None
  else Some (c <| md_position := next |>).

(** [patch_header]: writes a header over the first bytes of a member. *)
Definition patch_header (metadata : bytes) (start : nat) (header : Header) : result SmbMsgError bytes :=
  match get_range (start, (start + 64)%nat) metadata with
  | None => Err ME_InvalidData
  | Some _ =>
      match write_header header with
      | None => Err ME_BinRWError
      | Some bs => if bool_decide (length bs <= 64)%nat then Ok (splice start bs metadata) else Err ME_BinRWError
      end
  end.

(** [len.checked_add(7).map(|value| value & !7)] *)
Definition align8 (len : Z) : option Z := (fun v => Z.ldiff v 7) <$> checked_add usize_max len 7.

(** ** The builder *)

Inductive BuildState := BS_Encoded | BS_OffsetsFinalized | BS_Protected.

#[export] Instance BuildState_eq : EqDecision BuildState.
Proof. solve_decision. Defined.

Record WireBuilder := mkBuilder {
  wb_metadata : bytes;
  wb_payloads : list bytes;
  wb_member_ranges : list (nat * nat);
  wb_segment_limit : Z;
  wb_state : BuildState;
  wb_patched_members : nat
}.

#[export] Instance eta_WireBuilder : Eta WireBuilder := fun b =>
  mkBuilder (wb_metadata b) (wb_payloads b) (wb_member_ranges b) (wb_segment_limit b) (wb_state b)
    (wb_patched_members b).

(** One turn of the loop of [encode]: the arena and the request, whose header says where
    the next member is. *)
Definition encode_member (metadata : bytes) (is_last : bool) (request : PlainRequest)
    : result SmbMsgError (bytes * PlainRequest) :=
  let start := length metadata in
  let request := request <| pq_header := (pq_header request) <| hd_next_command := 0 |> |> in
  match write_plain_request request with
  | None => Err ME_BinRWError
  | Some written =>
      match md_write (md_at_end metadata) written with
      | None => Err ME_BinRWError
      | Some cursor =>
          let metadata := md_arena cursor in
          if is_last then Ok (metadata, request)
          else
            match align8 (zlen metadata) with
            | None => Err ME_InvalidData
            | Some aligned_end =>
                let metadata := resize aligned_end metadata in
                let next := aligned_end - Z.of_nat start in
                if bool_decide (next > u32_max) then Err ME_InvalidData
                else
                  let request := request <| pq_header := (pq_header request) <| hd_next_command := next |> |> in
                  match patch_header metadata start (pq_header request) with
                  | Ok metadata => Ok (metadata, request)
                  | Err error => Err error
                  end
            end
      end
  end.

(** The loop of [encode]: the arena, the members' ranges and the requests. *)
Fixpoint encode_members (metadata : bytes) (requests : list PlainRequest)
    : result SmbMsgError (bytes * list (nat * nat) * list PlainRequest) :=
  match requests with
  | [] => Ok (metadata, [], [])
  | request :: requests =>
      match encode_member metadata (bool_decide (requests = [])) request with
      | Err error => Err error
      | Ok (metadata', request) =>
          match encode_members metadata' requests with
          | Err error => Err error
          | Ok (all, ranges, requests) =>
              Ok (all, (length metadata, length metadata') :: ranges, request :: requests)
          end
      end
  end.

(** [WireBuilder::encode]: ranges are kept only of more than one member. *)
Definition wb_encode (requests : list PlainRequest) (segment_limit : Z)
    : result SmbMsgError (WireBuilder * list PlainRequest) :=
  if bool_decide (requests = []) then Err ME_InvalidData
  else if bool_decide (segment_limit = 0) then Err ME_InvalidData
  else match encode_members [] requests with
       | Err error => Err error
       | Ok (metadata, ranges, requests') =>
           Ok (mkBuilder metadata [] (if bool_decide (1 < length requests)%nat then ranges else []) segment_limit
                 BS_Encoded 0, requests')
       end.

Definition wb_require_state (b : WireBuilder) (expected : BuildState) : result SmbMsgError unit :=
  if bool_decide (wb_state b = expected) then Ok tt else Err ME_InvalidData.

Definition wb_member_count (b : WireBuilder) : nat := Nat.max (length (wb_member_ranges b)) 1.

Definition wb_member_range (b : WireBuilder) (index : nat) : result SmbMsgError (nat * nat) :=
  if bool_decide (wb_member_ranges b = [])
  then if bool_decide (index = O) then Ok (O, length (wb_metadata b)) else Err ME_InvalidData
  else ok_or ME_InvalidData (wb_member_ranges b !! index).

Definition wb_attach_payload (b : WireBuilder) (payload : bytes) : result SmbMsgError WireBuilder :=
  _ ← wb_require_state b BS_Encoded;
  if bool_decide (payload = []) then Ok b
  else if bool_decide (1 + zlen (wb_payloads b) >= wb_segment_limit b) then Err ME_InvalidData
  else Ok (b <| wb_payloads := wb_payloads b ++ [payload] |>).

Definition wb_finalize_offsets (b : WireBuilder) : result SmbMsgError WireBuilder :=
  _ ← wb_require_state b BS_Encoded;
  Ok (b <| wb_state := BS_OffsetsFinalized |>).

Definition wb_signing_segments (b : WireBuilder) (member : nat) : result SmbMsgError (list bytes) :=
  _ ← wb_require_state b BS_OffsetsFinalized;
  range ← wb_member_range b member;
  metadata ← ok_or ME_InvalidData (get_range range (wb_metadata b));
  Ok (metadata :: if bool_decide (wb_member_count b = 1%nat) then wb_payloads b else []).

(** [owned_signing_segments]: the same with the signature field cleared. *)
Definition wb_owned_signing_segments (b : WireBuilder) (member : nat) : result SmbMsgError (list bytes) :=
  _ ← wb_require_state b BS_OffsetsFinalized;
  range ← wb_member_range b member;
  metadata ← ok_or ME_InvalidData (get_range range (wb_metadata b));
  if bool_decide (length metadata < 64)%nat then Err ME_InvalidData
  else Ok (splice 48 (replicate 16 0) metadata
           :: if bool_decide (wb_member_count b = 1%nat) then wb_payloads b else []).

Definition wb_patch_signature (b : WireBuilder) (member : nat) (signature : Z) : result SmbMsgError WireBuilder :=
  _ ← wb_require_state b BS_OffsetsFinalized;
  if bool_decide (member ≠ wb_patched_members b) then Err ME_InvalidData
  else
    range ← wb_member_range b member;
    start ← ok_or ME_InvalidData (checked_add usize_max (Z.of_nat range.1) 48);
    let start := Z.to_nat start in
    _ ← ok_or ME_InvalidData (get_range (start, (start + 16)%nat) (wb_metadata b));
    Ok (b <| wb_metadata := splice start (le_bytes 16 signature) (wb_metadata b) |>
          <| wb_patched_members := S (wb_patched_members b) |>).

Definition wb_finish_signed (b : WireBuilder) : result SmbMsgError WireBuilder :=
  _ ← wb_require_state b BS_OffsetsFinalized;
  if bool_decide (wb_patched_members b ≠ wb_member_count b) then Err ME_InvalidData
  else Ok (b <| wb_state := BS_Protected |>).

Definition wb_finish_unsigned (b : WireBuilder) : result SmbMsgError WireBuilder :=
  _ ← wb_require_state b BS_OffsetsFinalized;
  if bool_decide (wb_patched_members b ≠ O) then Err ME_InvalidData
  else Ok (b <| wb_state := BS_Protected |>).

(** ** The sealed message *)

Record WireMessage := mkWire {
  wm_metadata : bytes;
  wm_payloads : list bytes;
  wm_member_ranges : list (nat * nat);
  wm_total_len : Z
}.

Fixpoint checked_total (total : Z) (payloads : list bytes) : option Z :=
  match payloads with
  | [] => Some total
  | payload :: payloads =>
      match checked_add usize_max total (zlen payload) with
      | Some total => checked_total total payloads
      | None => None
      end
  end.

Definition wb_seal (b : WireBuilder) : result SmbMsgError WireMessage :=
  _ ← wb_require_state b BS_Protected;
  total_len ← ok_or ME_InvalidData (checked_total (zlen (wb_metadata b)) (wb_payloads b));
  Ok (mkWire (wb_metadata b) (wb_payloads b) (wb_member_ranges b) total_len).

Definition wm_segments (w : WireMessage) : list bytes := wm_metadata w :: wm_payloads w.

Definition wm_into_contiguous (w : WireMessage) (prefix : Z) : result SmbMsgError bytes :=
  match checked_add usize_max prefix (wm_total_len w) with
  | None => Err ME_InvalidData
  | Some _ =>
      Ok (foldl (fun contiguous payload => contiguous ++ payload)
            (replicate (Z.to_nat prefix) 0 ++ wm_metadata w) (wm_payloads w))
  end.

Definition wm_member_count (w : WireMessage) : nat := Nat.max (length (wm_member_ranges w)) 1.

Definition wm_member_range (w : WireMessage) (index : nat) : option (nat * nat) :=
  if bool_decide (wm_member_ranges w = [])
  then if bool_decide (index = O) then Some (O, length (wm_metadata w)) else None
  else wm_member_ranges w !! index.

(** [TransformFrame::from_vec] *)
Definition transform_frame_from_vec (bs : bytes) : result SmbMsgError bytes :=
  if bool_decide (bs = []) then Err ME_InvalidData else Ok bs.

(** ** The cursor stays inside its member *)

Lemma length_resize n bs : length (resize n bs) = Z.to_nat n.
Proof. unfold resize. rewrite length_app, length_take, length_replicate. lia. Qed.

Lemma length_splice start buffer bs :
  (start + length buffer <= length bs)%nat -> length (splice start buffer bs) = length bs.
Proof. intros H. unfold splice. rewrite !length_app, length_take, length_drop. lia. Qed.

Lemma splice_app start buffer bs1 bs2 :
  splice (length bs1 + start) buffer (bs1 ++ bs2) = bs1 ++ splice start buffer bs2.
Proof.
  unfold splice. rewrite take_app_add, <- Nat.add_assoc, drop_app_add. by rewrite <- app_assoc.
Qed.

Lemma splice_app_l start buffer bs1 bs2 :
  (start + length buffer <= length bs1)%nat -> splice start buffer (bs1 ++ bs2) = splice start buffer bs1 ++ bs2.
Proof. intros H. unfold splice. rewrite take_app_le, drop_app_le by lia. by rewrite <- !app_assoc. Qed.

Lemma splice_here buffer old bs : length buffer = length old -> splice 0 buffer (old ++ bs) = buffer ++ bs.
Proof. intros H. unfold splice. cbn. by rewrite H, drop_app_length. Qed.

Lemma get_range_app bs1 bs2 bs3 :
  get_range (length bs1, (length bs1 + length bs2)%nat) (bs1 ++ bs2 ++ bs3) = Some bs2.
Proof.
  unfold get_range. cbn [fst snd]. rewrite bool_decide_eq_true_2 by (rewrite !length_app; lia).
  replace (length bs1 + length bs2 - length bs1)%nat with (length bs2) by lia.
  by rewrite drop_app_length, take_app_length.
Qed.

(** Wherever the codec seeks to, a write leaves the earlier members as they are. *)
Lemma md_write_keeps_earlier c buffer c' :
  0 <= md_base c <= zlen (md_arena c) -> 0 <= md_position c -> md_write c buffer = Some c' ->
  md_base c' = md_base c /\ 0 <= md_position c' /\ zlen (md_arena c) <= zlen (md_arena c') /\
  take (Z.to_nat (md_base c)) (md_arena c') = take (Z.to_nat (md_base c)) (md_arena c).
Proof.
  intros Hb Hp. unfold md_write, md_absolute_position.
  destruct (checked_add usize_max (md_base c) (md_position c)) as [start|] eqn:Es; [|done].
  apply checked_add_Some in Es as [_ ->].
  destruct (checked_add usize_max _ (zlen buffer)) as [last|] eqn:El; [|done].
  apply checked_add_Some in El as [_ ->]. intros [= <-]. cbn [md_base md_position md_arena].
  unfold zlen in *. cbn. case_bool_decide as Hl.
  - rewrite length_splice by (rewrite length_resize; lia). rewrite length_resize. split_and!; [done|lia|lia|].
    unfold splice, resize. rewrite take_app_le, take_take by (rewrite length_take, length_app, length_take; lia).
    rewrite take_app_le, take_take by (rewrite length_take; lia). f_equal. lia.
  - rewrite length_splice by lia. split_and!; [done|lia|lia|]. unfold splice.
    rewrite take_app_le, take_take by (rewrite length_take; lia). f_equal. lia.
Qed.

(** Written in one piece, a member is appended. *)
Lemma md_write_at_end arena buffer :
  zlen arena + zlen buffer <= usize_max ->
  exists c, md_write (md_at_end arena) buffer = Some c /\ md_arena c = arena ++ buffer.
Proof.
  intros H. unfold md_write, md_absolute_position, md_at_end. cbn [md_base md_position md_arena].
  unfold checked_add. unfold zlen in *.
  rewrite bool_decide_eq_true_2 by lia. rewrite bool_decide_eq_true_2 by lia. eexists. split; [reflexivity|].
  cbn. case_bool_decide as Hl.
  - unfold resize. rewrite (take_ge arena) by lia.
    replace (Z.to_nat (Z.of_nat (length arena) + 0)) with (length arena + 0)%nat by lia.
    rewrite splice_app. f_equal. rewrite <- (app_nil_r (replicate _ _)).
    rewrite splice_here by (rewrite length_replicate; lia). apply app_nil_r.
  - destruct buffer; [|cbn in Hl; lia]. unfold splice. cbn.
    rewrite !take_ge, !drop_ge by lia. done.
Qed.

(** ** The layout of a compound *)

(** A receiver follows the offsets in the headers: each header with its member's bytes. *)
Fixpoint split_chain (fuel : nat) (bs : bytes) : option (list (Header * bytes)) :=
  match fuel with
  | O => None
  | S fuel =>
      match read_header bs with
      | None => None
      | Some (h, _) =>
          let next := Z.to_nat (hd_next_command h) in
          if bool_decide (next = O) then Some [(h, bs)]
          else if bool_decide (length bs < next)%nat then None
          else (fun rest => (h, take next bs) :: rest) <$> split_chain fuel (drop next bs)
      end
  end.

Lemma align8_spec len v : 0 <= len -> align8 len = Some v -> (8 | v) /\ len <= v < len + 8.
Proof.
  intros Hl H. unfold align8 in H. apply fmap_Some in H as (w & Hw & ->). apply checked_add_Some in Hw as [_ ->].
  assert (Z.ldiff (len + 7) 7 = (len + 7) / 8 * 8) as ->.
  { change (Z.ldiff (len + 7) 7) with (Z.ldiff (len + 7) (Z.ones 3)).
    by rewrite Z.ldiff_ones_r, Z.shiftl_mul_pow2, Z.shiftr_div_pow2 by lia. }
  split; [by exists ((len + 7) / 8)|].
  pose proof (Z.div_mod (len + 7) 8). pose proof (Z.mod_pos_bound (len + 7) 8). lia.
Qed.

Lemma header_ok_next h next : header_ok h -> in_range u32_max next -> header_ok (h <| hd_next_command := next |>).
Proof. intros [] Hn. by split. Qed.

(** How request [r], whose header became that of [r'], lies in the arena. *)
Record member_layout (last : bool) (r r' : PlainRequest) (m : bytes) : Prop := {
  ml_header_ok : header_ok (pq_header r');
  ml_header : pq_header r' = (pq_header r) <| hd_next_command := if last then 0 else zlen m |>;
  ml_content : pq_content r' = pq_content r;
  ml_bytes : exists header body padding,
    write_header (pq_header r') = Some header /\ length header = 64%nat /\ pq_content r = Some body /\
    m = header ++ body ++ replicate padding 0 /\ (padding < 8)%nat /\ (last = true -> padding = O)
}.

Lemma encode_member_spec metadata last r metadata' r' :
  header_ok (pq_header r) -> encode_member metadata last r = Ok (metadata', r') ->
  exists m, metadata' = metadata ++ m /\ member_layout last r r' m /\ (last = false -> (8 | zlen metadata')).
Proof.
  intros Hok. unfold encode_member, write_plain_request. cbn [pq_header pq_content setter].
  set (h0 := (pq_header r) <| hd_next_command := 0 |>).
  change (pq_header (r <| pq_header := h0 |>)) with h0. change (pq_content (r <| pq_header := h0 |>)) with (pq_content r).
  assert (Hok0 : header_ok h0) by (apply header_ok_next; [done|ints]).
  destruct (header_write_bytes h0 [] Hok0) as (hb0 & E0 & L0 & _). rewrite E0.
  destruct (flag_server_to_redir _); [done|]. destruct (pq_content r) as [body|] eqn:Ec; [|done].
  destruct (md_write (md_at_end metadata) (hb0 ++ body)) as [c|] eqn:Ew; [|done].
  assert (Ha : md_arena c = metadata ++ hb0 ++ body).
  { destruct (md_write_at_end metadata (hb0 ++ body)) as (c' & E' & H'); [|congruence].
    unfold md_write, md_absolute_position, md_at_end in Ew. cbn [md_base md_position md_arena] in Ew.
    destruct (checked_add usize_max (zlen metadata) 0) as [s|] eqn:Es; [|done].
    apply checked_add_Some in Es as [_ ->]. destruct (checked_add usize_max _ (zlen (hb0 ++ body))) eqn:El; [|done].
    apply checked_add_Some in El as [El _]. lia. }
  rewrite Ha. destruct last.
  { intros [= <- <-]. exists (hb0 ++ body). split; [done|]. split; [|done]. split; cbn; try done.
    exists hb0, body, O. split_and!; try done; [|lia]. by rewrite app_nil_r. }
  destruct (align8 (zlen (metadata ++ hb0 ++ body))) as [aligned|] eqn:Ea; [|done].
  apply align8_spec in Ea as [H8 Hal]; [|unfold zlen; lia]. case_bool_decide as Hn; [done|].
  set (padding := (Z.to_nat aligned - length (metadata ++ hb0 ++ body))%nat).
  assert (Hpad : (padding < 8)%nat) by (subst padding; unfold zlen in Hal; lia).
  assert (Hsize : Z.of_nat padding = aligned - Z.of_nat (length metadata) - 64 - Z.of_nat (length body)).
  { subst padding. unfold zlen in Hal. rewrite !length_app, L0 in *. lia. }
  assert (Hres : resize aligned (metadata ++ hb0 ++ body) = metadata ++ hb0 ++ body ++ replicate padding 0).
  { unfold resize. rewrite take_ge by (unfold zlen in Hal; lia). fold padding. by rewrite <- !app_assoc. }
  clearbody padding. rewrite Hres. set (next := aligned - Z.of_nat (length metadata)) in *.
  set (h1 := h0 <| hd_next_command := next |>). cbn [pq_header setter].
  change (pq_header (r <| pq_header := h0 |> <| pq_header := h1 |>)) with h1.
  assert (Hnext : next = zlen (hb0 ++ body ++ replicate padding 0)).
  { unfold zlen. rewrite !length_app, length_replicate, L0. subst next. lia. }
  assert (Hok1 : header_ok h1).
  { apply header_ok_next; [done|]. rewrite Hnext in *. unfold zlen in *. ints. }
  destruct (header_write_bytes h1 [] Hok1) as (hb1 & E1 & L1 & _).
  unfold patch_header. destruct (get_range _ _) eqn:Eg; [|done]. rewrite E1, bool_decide_eq_true_2 by lia.
  intros [= <- <-]. exists (hb1 ++ body ++ replicate padding 0). split_and!.
  - replace (length metadata) with (length metadata + 0)%nat by lia. rewrite splice_app.
    by rewrite splice_here by lia.
  - split; try done.
    + change (h1 = (pq_header r) <| hd_next_command := zlen (hb1 ++ body ++ replicate padding 0) |>).
      assert (zlen (hb1 ++ body ++ replicate padding 0) = next) as ->; [|done].
      rewrite Hnext. unfold zlen. by rewrite !length_app, L0, L1.
    + exists hb1, body, padding. done.
  - intros _. replace (zlen _) with aligned; [done|]. unfold zlen. rewrite length_splice.
    + rewrite !length_app, length_replicate, L0. lia.
    + rewrite !length_app, L0, L1. lia.
Qed.

(** The members of a message, in order: all but the last are multiples of eight bytes
    long and say in their header how long they are. *)
Inductive compound_layout : list PlainRequest -> list PlainRequest -> list bytes -> Prop :=
| CL_last r r' m : member_layout true r r' m -> compound_layout [r] [r'] [m]
| CL_more r r' m rs rs' ms :
    member_layout false r r' m -> (8 | zlen m) -> compound_layout rs rs' ms ->
    compound_layout (r :: rs) (r' :: rs') (m :: ms).

Fixpoint ranges_from (start : nat) (ms : list bytes) : list (nat * nat) :=
  match ms with
  | [] => []
  | m :: ms => (start, (start + length m)%nat) :: ranges_from (start + length m) ms
  end.

Lemma encode_members_spec rs : forall metadata all ranges rs',
  rs <> [] -> Forall (fun r => header_ok (pq_header r)) rs -> (8 | zlen metadata) ->
  encode_members metadata rs = Ok (all, ranges, rs') ->
  exists ms, all = metadata ++ concat ms /\ ranges = ranges_from (length metadata) ms /\ compound_layout rs rs' ms.
Proof.
  induction rs as [|r rs IH]; intros metadata all ranges rs' Hne Hok H8 H; [done|].
  apply Forall_cons in Hok as [Hr Hok]. cbn [encode_members] in H.
  destruct (encode_member metadata (bool_decide (rs = [])) r) as [[metadata' r']|] eqn:Em; [|done].
  destruct (encode_member_spec _ _ _ _ _ Hr Em) as (m & -> & Hm & Halign).
  destruct (decide (rs = [])) as [->|Hrs].
  - cbn [encode_members] in H. injection H as <- <- <-. exists [m]. cbn. rewrite app_nil_r, length_app.
    split_and!; [done..|]. by constructor.
  - rewrite bool_decide_eq_false_2 in * by done.
    destruct (encode_members (metadata ++ m) rs) as [[[all' ranges'] rs1]|] eqn:Es; [|done].
    injection H as <- <- <-. specialize (Halign eq_refl).
    destruct (IH _ _ _ _ Hrs Hok Halign Es) as (ms & -> & -> & Hl). exists (m :: ms).
    rewrite length_app. cbn. rewrite <- app_assoc. split_and!; [done..|]. constructor; [done| |done].
    unfold zlen in *. rewrite length_app, Nat2Z.inj_add in Halign. by apply Z.divide_add_cancel_r with (Z.of_nat (length metadata)).
Qed.

Lemma member_layout_head last r r' m rest :
  member_layout last r r' m ->
  exists after, read_header (m ++ rest) = Some (pq_header r', after) /\ (64 <= length m)%nat.
Proof.
  intros [Hok _ _ (header & body & padding & Hw & Hl & _ & -> & _)].
  destruct (header_write_bytes (pq_header r') (body ++ replicate padding 0 ++ rest) Hok) as (bs & Ew & _ & _ & Er).
  assert (bs = header) as -> by congruence. rewrite <- !app_assoc. eexists. split; [exact Er|].
  rewrite !length_app. lia.
Qed.

Lemma compound_layout_lengths rs rs' ms :
  compound_layout rs rs' ms -> length rs' = length rs /\ length ms = length rs /\ Forall (fun m => 64 <= length m)%nat ms.
Proof.
  induction 1 as [r r' m Hm | r r' m rs rs' ms Hm H8 _ (IH1 & IH2 & IH3)]; cbn.
  all: destruct (member_layout_head _ _ _ _ [] Hm) as (_ & _ & Hl).
  - split_and!; [done..|]. by constructor.
  - split_and!; [lia|lia|]. by constructor.
Qed.

(** Following the offsets finds the members again. *)
Lemma split_chain_spec rs rs' ms fuel :
  compound_layout rs rs' ms -> (length ms <= fuel)%nat ->
  split_chain fuel (concat ms) = Some (zip (pq_header <$> rs') ms).
Proof.
  intros H. revert fuel. induction H as [r r' m Hm | r r' m rs rs' ms Hm H8 Hl IH]; intros fuel Hf; cbn in Hf.
  all: destruct fuel as [|fuel]; [lia|]; cbn [split_chain concat].
  - destruct (member_layout_head _ _ _ _ [] Hm) as (after & -> & _).
    rewrite bool_decide_eq_true_2 by by rewrite (ml_header _ _ _ _ Hm). by rewrite app_nil_r.
  - destruct (member_layout_head _ _ _ _ (concat ms) Hm) as (after & -> & H64).
    assert (Hn : Z.to_nat (hd_next_command (pq_header r')) = length m).
    { rewrite (ml_header _ _ _ _ Hm). cbn. unfold zlen. lia. }
    rewrite Hn, bool_decide_eq_false_2 by lia. rewrite bool_decide_eq_false_2 by (rewrite length_app; lia).
    rewrite take_app_length, drop_app_length, IH by lia. done.
Qed.

(** ** Members of a builder *)

Lemma wb_require_state_Ok b st u : wb_require_state b st = Ok u <-> wb_state b = st.
Proof. unfold wb_require_state. destruct u. case_bool_decide; split; congruence. Qed.

Definition member_start (ms : list bytes) (i : nat) : nat := length (concat (take i ms)).

(** The arena holds the members [ms], which are where the ranges say. *)
Record builder_members (b : WireBuilder) (ms : list bytes) : Prop := {
  bm_metadata : wb_metadata b = concat ms;
  bm_ranges : wb_member_ranges b = if bool_decide (1 < length ms)%nat then ranges_from 0 ms else [];
  bm_some : ms <> [];
  bm_size : Forall (fun m => 64 <= length m)%nat ms
}.

Lemma ranges_from_lookup ms : forall start i,
  ranges_from start ms !! i =
  (fun m => ((start + member_start ms i)%nat, (start + member_start ms i + length m)%nat)) <$> ms !! i.
Proof.
  induction ms as [|m ms IH]; intros start [|i]; cbn [ranges_from]; try done.
  - cbn. by rewrite Nat.add_0_r.
  - cbn. rewrite IH. unfold member_start. cbn. rewrite length_app. destruct (ms !! i); cbn; [|done].
    do 2 f_equal; lia.
Qed.

Lemma concat_member (ms : list bytes) i (m : bytes) :
  ms !! i = Some m -> concat ms = concat (take i ms) ++ m ++ concat (drop (S i) ms).
Proof.
  intros H. pose proof (take_drop_middle ms i m H) as E. apply (f_equal (@concat Z)) in E.
  rewrite concat_app in E. by symmetry.
Qed.

Lemma wb_member_range_spec b ms i :
  builder_members b ms ->
  wb_member_range b i =
  match ms !! i with
  | Some m => Ok (member_start ms i, (member_start ms i + length m)%nat)
  | None => Err ME_InvalidData
  end.
Proof.
  intros [Hm Hr Hs _]. unfold wb_member_range. rewrite Hr. case_bool_decide as Hl.
  - rewrite bool_decide_eq_false_2 by (destruct ms; done). rewrite ranges_from_lookup. by destruct (ms !! i).
  - rewrite bool_decide_eq_true_2 by done. destruct ms as [|m [|]]; [done| |cbn in Hl; lia]. rewrite Hm.
    destruct i; cbn; [by rewrite app_nil_r|done].
Qed.

Lemma get_member b ms i m :
  builder_members b ms -> ms !! i = Some m ->
  get_range (member_start ms i, (member_start ms i + length m)%nat) (wb_metadata b) = Some m.
Proof.
  intros Hb Hm. rewrite (bm_metadata _ _ Hb), (concat_member ms i m Hm). apply get_range_app.
Qed.

Lemma wb_member_count_spec b ms : builder_members b ms -> wb_member_count b = length ms.
Proof.
  intros [_ Hr Hs _]. unfold wb_member_count. rewrite Hr.
  assert (Hrl : forall start, length (ranges_from start ms) = length ms).
  { clear. induction ms; intros; cbn; auto. }
  destruct ms as [|m ms]; [done|]. case_bool_decide as Hl; [rewrite Hrl|]; cbn in *; lia.
Qed.

(** The member with its signature field set. *)
Definition sign_member (m : bytes) (signature : Z) : bytes := splice 48 (le_bytes 16 signature) m.

Lemma length_sign_member m s : (64 <= length m)%nat -> length (sign_member m s) = length m.
Proof. intros H. unfold sign_member. apply length_splice. rewrite length_le_bytes. lia. Qed.

Lemma ranges_from_insert ms : forall start i m m',
  ms !! i = Some m -> length m' = length m -> ranges_from start (<[i := m']> ms) = ranges_from start ms.
Proof.
  induction ms as [|m0 ms IH]; intros start [|i] m m' Hm Hl; cbn in *; try done.
  - injection Hm as ->. by rewrite Hl.
  - f_equal. by apply (IH _ _ m).
Qed.

Lemma splice_member (ms : list bytes) i (m : bytes) start buffer :
  ms !! i = Some m -> (start + length buffer <= length m)%nat ->
  splice (member_start ms i + start) buffer (concat ms) = concat (<[i := splice start buffer m]> ms).
Proof.
  intros Hm Hl. rewrite (concat_member ms i m Hm). unfold member_start. rewrite splice_app, splice_app_l by done.
  assert (Hlt : (i < length ms)%nat) by by apply lookup_lt_Some in Hm.
  rewrite (concat_member (<[i := splice start buffer m]> ms) i (splice start buffer m)).
  2: { by apply list_lookup_insert_eq. }
  by rewrite take_insert_ge, drop_insert_lt by lia.
Qed.

Lemma wb_patch_signature_spec b ms i s b' :
  builder_members b ms -> wb_patch_signature b i s = Ok b' ->
  exists m, ms !! i = Some m /\ i = wb_patched_members b /\ wb_state b = BS_OffsetsFinalized /\
    builder_members b' (<[i := sign_member m s]> ms) /\ wb_patched_members b' = S i /\
    wb_state b' = BS_OffsetsFinalized /\ wb_payloads b' = wb_payloads b.
Proof.
  intros Hb H. unfold wb_patch_signature in H. apply result_bind_Ok in H as (u & Hst & H).
  apply wb_require_state_Ok in Hst. revert H.
  destruct (bool_decide (i ≠ wb_patched_members b)) eqn:Hi; [done|]. apply bool_decide_eq_false in Hi.
  apply dec_stable in Hi as ->.
  set (i := wb_patched_members b) in *. rewrite (wb_member_range_spec b ms i Hb).
  destruct (ms !! i) as [m|] eqn:Hm; [|done]. intros H.
  apply result_bind_Ok in H as (range & [= <-] & H). cbn [fst] in H.
  apply result_bind_Ok in H as (start & H1 & H). apply ok_or_Ok, checked_add_Some in H1 as [_ ->].
  apply result_bind_Ok in H as (x & _ & H). injection H as <-. exists m.
  assert (H64 : (64 <= length m)%nat) by by apply (Forall_lookup_1 _ _ _ _ (bm_size _ _ Hb) Hm).
  replace (Z.to_nat (Z.of_nat (member_start ms i) + 48)) with (member_start ms i + 48)%nat by lia.
  split_and!; try done. destruct Hb as [Hmd Hr Hs Hsz]. split; cbn [wb_metadata wb_member_ranges].
  - change (wb_metadata _) with (splice (member_start ms i + 48) (le_bytes 16 s) (wb_metadata b)).
    rewrite Hmd. apply splice_member; [done|]. rewrite length_le_bytes. lia.
  - change (wb_member_ranges _) with (wb_member_ranges b). rewrite Hr, length_insert.
    by rewrite (ranges_from_insert ms 0 i m (sign_member m s) Hm) by by apply length_sign_member.
  - intros E. apply (f_equal length) in E. rewrite length_insert in E. by destruct ms.
  - apply Forall_insert; [done|]. by rewrite length_sign_member.
Qed.

(** ** Runs of the builder *)

Inductive BuilderOp :=
| BO_AttachPayload (payload : bytes)
| BO_FinalizeOffsets
| BO_PatchSignature (member : nat) (signature : Z)
| BO_FinishSigned
| BO_FinishUnsigned.

Definition wb_apply (b : WireBuilder) (op : BuilderOp) : result SmbMsgError WireBuilder :=
  match op with
  | BO_AttachPayload payload => wb_attach_payload b payload
  | BO_FinalizeOffsets => wb_finalize_offsets b
  | BO_PatchSignature member signature => wb_patch_signature b member signature
  | BO_FinishSigned => wb_finish_signed b
  | BO_FinishUnsigned => wb_finish_unsigned b
  end.

(** A refused operation leaves the builder as it is. *)
Definition wb_run (b : WireBuilder) (ops : list BuilderOp) : WireBuilder :=
  foldl (fun b op => match wb_apply b op with Ok b' => b' | Err _ => b end) b ops.

(** The first members signed, in order. *)
Definition signed_members (ms : list bytes) (signatures : list Z) : list bytes :=
  zip_with sign_member ms signatures ++ drop (length signatures) ms.

(** What every reachable builder looks like. *)
Record builder_inv (ms : list bytes) (limit : Z) (b : WireBuilder) (signatures : list Z) : Prop := {
  bi_members : builder_members b (signed_members ms signatures);
  bi_count : (length signatures <= length ms)%nat;
  bi_patched : wb_patched_members b = length signatures;
  bi_encoded : wb_state b = BS_Encoded -> signatures = [];
  bi_protected : wb_state b = BS_Protected -> signatures = [] \/ length signatures = length ms;
  bi_payloads : wb_payloads b = [] \/ 1 + zlen (wb_payloads b) <= limit;
  bi_limit : wb_segment_limit b = limit
}.

Lemma length_signed_members ms sigs : (length sigs <= length ms)%nat -> length (signed_members ms sigs) = length ms.
Proof. intros H. unfold signed_members. rewrite length_app, length_zip_with, length_drop. lia. Qed.

Lemma signed_members_lookup_next ms sigs : signed_members ms sigs !! length sigs = ms !! length sigs.
Proof.
  unfold signed_members. rewrite lookup_app_r by (rewrite length_zip_with; lia).
  rewrite lookup_drop, length_zip_with. destruct (decide (length sigs <= length ms)%nat) as [H|H].
  - f_equal. lia.
  - rewrite !lookup_ge_None_2 by lia. done.
Qed.

Lemma signed_members_snoc ms sigs m s :
  ms !! length sigs = Some m ->
  <[length sigs := sign_member m s]> (signed_members ms sigs) = signed_members ms (sigs ++ [s]).
Proof.
  revert ms. induction sigs as [|s0 sigs IH]; intros [|m0 ms] Hm; try done.
  - injection Hm as ->. unfold signed_members. cbn. by destruct ms.
  - unfold signed_members in *. cbn in *. by rewrite IH.
Qed.

Lemma wb_apply_inv ms limit b sigs op b' :
  builder_inv ms limit b sigs -> wb_apply b op = Ok b' -> exists sigs', builder_inv ms limit b' sigs'.
Proof.
  intros Hi. pose proof Hi as [Hm Hc Hp He Hpr Hpay Hlim]. destruct op; cbn [wb_apply]; intros H.
  - unfold wb_attach_payload in H. apply result_bind_Ok in H as (u & Hst & H).
    apply wb_require_state_Ok in Hst. specialize (He Hst). subst sigs.
    destruct (bool_decide (payload = [])); [injection H as <-; by exists []|].
    destruct (bool_decide (1 + zlen (wb_payloads b) >= wb_segment_limit b)) eqn:El; [done|].
    apply bool_decide_eq_false in El. injection H as <-. exists []. destruct Hm. split; try done; cbn.
    right. unfold zlen in *. rewrite length_app. cbn. rewrite Hlim in El. lia.
  - unfold wb_finalize_offsets in H. apply result_bind_Ok in H as (u & Hst & H).
    apply wb_require_state_Ok in Hst. injection H as <-. exists sigs. destruct Hm. by split.
  - destruct (wb_patch_signature_spec b _ member signature b' Hm H) as (m & Hl & -> & Hst & Hm' & Hp' & Hst' & Hpay').
    rewrite Hp in *. rewrite signed_members_lookup_next in Hl.
    rewrite (signed_members_snoc ms sigs m signature Hl) in Hm'. apply lookup_lt_Some in Hl.
    assert (Hlim' : wb_segment_limit b' = limit).
    { clear - H Hlim. unfold wb_patch_signature in H. apply result_bind_Ok in H as (u & _ & H).
      destruct (bool_decide _); [done|]. apply result_bind_Ok in H as (r & _ & H).
      apply result_bind_Ok in H as (st & _ & H). apply result_bind_Ok in H as (x & _ & H). by injection H as <-. }
    exists (sigs ++ [signature]). split; try done; rewrite ?length_app; cbn; try lia.
    + congruence.
    + congruence.
    + by rewrite Hpay'.
  - unfold wb_finish_signed in H. apply result_bind_Ok in H as (u & Hst & H).
    destruct (bool_decide (wb_patched_members b ≠ wb_member_count b)) eqn:En; [done|].
    apply bool_decide_eq_false, dec_stable in En. rewrite (wb_member_count_spec b _ Hm), length_signed_members in En by done.
    injection H as <-. exists sigs. destruct Hm. split; try done. cbn. intros _. right. congruence.
  - unfold wb_finish_unsigned in H. apply result_bind_Ok in H as (u & Hst & H).
    destruct (bool_decide (wb_patched_members b ≠ O)) eqn:En; [done|].
    apply bool_decide_eq_false, dec_stable in En.
    injection H as <-. exists sigs. destruct Hm. split; try done. cbn. intros _. left.
    rewrite Hp in En. by apply length_zero_iff_nil in En.
Qed.

Lemma wb_run_inv ms limit ops : forall b sigs,
  builder_inv ms limit b sigs -> exists sigs', builder_inv ms limit (wb_run b ops) sigs'.
Proof.
  induction ops as [|op ops IH]; intros b sigs Hi; cbn; [by exists sigs|].
  destruct (wb_apply b op) as [b'|] eqn:Ea; [|by apply (IH b sigs)].
  destruct (wb_apply_inv _ _ _ _ _ _ Hi Ea) as (sigs' & Hi'). by apply (IH b' sigs').
Qed.

Lemma wb_encode_spec rs limit b rs' :
  Forall (fun r => header_ok (pq_header r)) rs -> wb_encode rs limit = Ok (b, rs') ->
  exists ms, compound_layout rs rs' ms /\ builder_inv ms limit b [] /\ wb_metadata b = concat ms /\ limit <> 0.
Proof.
  intros Hok. unfold wb_encode.
  destruct (bool_decide (rs = [])) eqn:Ers; [done|]. apply bool_decide_eq_false in Ers.
  destruct (bool_decide (limit = 0)) eqn:El; [done|]. apply bool_decide_eq_false in El.
  destruct (encode_members [] rs) as [[[all ranges] rs1]|] eqn:E; [|done]. intros [= <- <-].
  destruct (encode_members_spec rs [] all ranges rs1 Ers Hok (Z.divide_0_r 8) E) as (ms & -> & -> & Hl).
  destruct (compound_layout_lengths _ _ _ Hl) as (_ & Hlen & H64). exists ms. split; [done|].
  assert (Hsig : signed_members ms [] = ms) by (unfold signed_members; by destruct ms).
  split; [|done]. split; cbn; try done; [|lia|by left]. rewrite Hsig.
  split; cbn; [done| | |done].
  - by rewrite Hlen.
  - intros ->. by destruct rs.
Qed.

(** Encoding one or more requests lays them out so that a receiver who follows the
    offsets in the headers finds exactly them: each request's header, changed only in its
    offset, then its body and fewer than eight zero bytes; every member but the last is a
    multiple of eight bytes long and its offset is its length. The ranges the builder keeps
    for signing are those members. *)
Lemma compound_walk_recovers_members rs limit b rs' :
  Forall (fun r => header_ok (pq_header r)) rs -> wb_encode rs limit = Ok (b, rs') ->
  exists ms, compound_layout rs rs' ms /\ wb_metadata b = concat ms /\
    split_chain (length rs) (wb_metadata b) = Some (zip (pq_header <$> rs') ms) /\
    forall i m, ms !! i = Some m ->
      exists range, wb_member_range b i = Ok range /\ get_range range (wb_metadata b) = Some m.
Proof.
  intros Hok H. destruct (wb_encode_spec _ _ _ _ Hok H) as (ms & Hl & Hi & Hm & _).
  destruct (compound_layout_lengths _ _ _ Hl) as (_ & Hlen & _). exists ms. split; [done|]. split; [done|]. split.
  - rewrite Hm, <- Hlen. by apply (split_chain_spec rs).
  - intros i m Him. pose proof (bi_members _ _ _ _ Hi) as Hb.
    assert (Hsig : signed_members ms [] = ms) by (unfold signed_members; by destruct ms). rewrite Hsig in Hb.
    rewrite (wb_member_range_spec b ms i Hb), Him. eexists. split; [done|]. by apply (get_member b ms i m).
Qed.

Lemma checked_total_spec payloads : forall total t,
  checked_total total payloads = Some t -> t = total + zlen (concat payloads) /\ (payloads <> [] -> t <= usize_max).
Proof.
  induction payloads as [|p payloads IH]; intros total t H; cbn [checked_total concat] in *.
  - injection H as <-. unfold zlen. cbn. split; [lia|done].
  - destruct (checked_add usize_max total (zlen p)) as [t1|] eqn:E; [|done].
    apply checked_add_Some in E as [Ele ->]. destruct (IH _ _ H) as [-> Hle]. unfold zlen in *. rewrite length_app.
    split; [lia|]. intros _. destruct payloads; [cbn; lia|]. by apply Hle.
Qed.

Lemma foldl_app_payloads payloads : forall bs : bytes, foldl (fun c p => c ++ p) bs payloads = bs ++ concat payloads.
Proof. induction payloads as [|p payloads IH]; intros bs; cbn; [by rewrite app_nil_r|]. by rewrite IH, <- app_assoc. Qed.

Lemma wb_encode_fresh rs limit b rs' :
  wb_encode rs limit = Ok (b, rs') -> wb_state b = BS_Encoded /\ wb_payloads b = [] /\ wb_segment_limit b = limit.
Proof.
  unfold wb_encode. destruct (bool_decide (rs = [])); [done|]. destruct (bool_decide (limit = 0)); [done|].
  destruct (encode_members [] rs) as [[[all ranges] rs1]|]; [|done]. by intros [= <- <-].
Qed.

(** The payloads that operations offer: those that are not empty, up to the operation that closes the layout. *)
Fixpoint offered (ops : list BuilderOp) : list bytes :=
  match ops with
  | [] | BO_FinalizeOffsets :: _ => []
  | BO_AttachPayload payload :: ops => if bool_decide (payload = []) then offered ops else payload :: offered ops
  | _ :: ops => offered ops
  end.

Lemma wb_apply_later b op b' :
  wb_state b <> BS_Encoded -> wb_apply b op = Ok b' -> wb_payloads b' = wb_payloads b /\ wb_state b' <> BS_Encoded.
Proof.
  intros Hst. destruct op; cbn [wb_apply]; unfold wb_attach_payload, wb_finalize_offsets, wb_patch_signature, wb_finish_signed,
    wb_finish_unsigned; intros H; apply result_bind_Ok in H as (u & Hs & H); apply wb_require_state_Ok in Hs; try done.
  - destruct (bool_decide _); [done|]. apply result_bind_Ok in H as (r & _ & H).
    apply result_bind_Ok in H as (st & _ & H). apply result_bind_Ok in H as (x & _ & H). by injection H as <-.
  - destruct (bool_decide _); [done|]. by injection H as <-.
  - destruct (bool_decide _); [done|]. by injection H as <-.
Qed.

Lemma wb_run_later ops : forall b, wb_state b <> BS_Encoded -> wb_payloads (wb_run b ops) = wb_payloads b.
Proof.
  induction ops as [|op ops IH]; intros b Hst; [done|]. change (wb_run b (op :: ops)) with
    (wb_run (match wb_apply b op with Ok b' => b' | Err _ => b end) ops).
  destruct (wb_apply b op) as [b'|] eqn:E; [|by apply IH]. destruct (wb_apply_later _ _ _ Hst E) as [<- ?]. by apply IH.
Qed.

(** What of them a builder keeps: the first, in order, as many as the segments allow. *)
Lemma wb_run_payloads ops : forall b,
  wb_state b = BS_Encoded -> 1 + zlen (wb_payloads b) <= wb_segment_limit b ->
  wb_payloads (wb_run b ops) = take (Z.to_nat (wb_segment_limit b - 1)) (wb_payloads b ++ offered ops).
Proof.
  induction ops as [|op ops IH]; intros b Hst Hlim.
  { cbn. rewrite app_nil_r, take_ge; [done|]. unfold zlen in Hlim. lia. }
  change (wb_run b (op :: ops)) with (wb_run (match wb_apply b op with Ok b' => b' | Err _ => b end) ops).
  assert (Hstate : forall s, wb_require_state b s = if bool_decide (s = BS_Encoded) then Ok tt else Err ME_InvalidData).
  { intros s. unfold wb_require_state. rewrite Hst. by destruct s. }
  destruct op as [payload| |member signature| |]; cbn [wb_apply offered]; unfold wb_attach_payload, wb_finalize_offsets,
    wb_patch_signature, wb_finish_signed, wb_finish_unsigned; rewrite Hstate; cbn [mbind result_bind]; unfold mbind, result_bind;
    try (by apply IH).
  - rewrite (bool_decide_eq_true_2 (BS_Encoded = BS_Encoded)) by done. case_bool_decide as Hp; [by apply IH|].
    case_bool_decide as Hfull.
    + rewrite (IH b Hst Hlim). unfold zlen in *. rewrite !take_app_ge by lia.
      by replace (Z.to_nat (wb_segment_limit b - 1) - length (wb_payloads b))%nat with O by lia.
    + rewrite IH; [cbn; by rewrite <- app_assoc|done|]. cbn. unfold zlen in *. rewrite length_app. cbn. lia.
  - rewrite (bool_decide_eq_true_2 (BS_Encoded = BS_Encoded)) by done.
    rewrite wb_run_later by done. cbn. rewrite app_nil_r, take_ge; [done|]. unfold zlen in Hlim. lia.
Qed.

(** C32: whatever is done to a builder, a message that gets sealed carries a signature in every
    member or in none; a signature changes the sixteen bytes of its member's signature
    field and nothing else. The payloads of the message are the payloads that were attached before the
    layout was closed, each whole and in the order they were attached, the empty ones left out; where
    there are more than the limit of segments leaves room for, they are the first of them (the others
    were refused). They follow the members, and the total length is
    the number of bytes sent, also when the message is copied into one buffer. *)
Theorem sealed_message_all_or_none_signed rs limit b rs' ops w :
  Forall (fun r => header_ok (pq_header r)) rs -> 0 <= limit ->
  wb_encode rs limit = Ok (b, rs') -> wb_seal (wb_run b ops) = Ok w ->
  exists ms signatures, compound_layout rs rs' ms /\ wb_metadata b = concat ms /\
    wm_metadata w = concat (signed_members ms signatures) /\
    (signatures = [] \/ length signatures = length rs) /\
    wm_payloads w = take (Z.to_nat (limit - 1)) (offered ops) /\ wm_segments w = wm_metadata w :: wm_payloads w /\
    wm_total_len w = zlen (concat (wm_segments w)) /\ zlen (wm_segments w) <= limit /\
    forall prefix, 0 <= prefix -> prefix + wm_total_len w <= usize_max ->
      wm_into_contiguous w prefix = Ok (replicate (Z.to_nat prefix) 0 ++ concat (wm_segments w)).
Proof.
  intros Hok Hlim He Hs. destruct (wb_encode_spec _ _ _ _ Hok He) as (ms & Hl & Hi & Hm & Hl0).
  destruct (compound_layout_lengths _ _ _ Hl) as (_ & Hlen & _).
  destruct (wb_run_inv ms limit ops b [] Hi) as (sigs & Hi'). exists ms, sigs.
  unfold wb_seal in Hs. apply result_bind_Ok in Hs as (u & Hst & Hs). apply wb_require_state_Ok in Hst.
  apply result_bind_Ok in Hs as (total & Ht & Hs). apply ok_or_Ok, checked_total_spec in Ht as [-> _].
  assert (Hpay : wb_payloads (wb_run b ops) = take (Z.to_nat (limit - 1)) (offered ops)).
  { destruct (wb_encode_fresh _ _ _ _ He) as (H1 & H2 & H3). rewrite (wb_run_payloads ops b H1) by (rewrite H2, H3; unfold zlen; cbn; lia). by rewrite H2, H3. }
  injection Hs as <-. unfold wm_into_contiguous, wm_segments, zlen in *. cbn [wm_metadata wm_total_len wm_payloads concat length] in *.
  rewrite length_app. split_and!; try done; [apply Hi'| |lia| |].
  - rewrite <- Hlen. by apply Hi'.
  - destruct (bi_payloads _ _ _ _ Hi') as [->|Hp]; cbn; [lia|]. unfold zlen in Hp. lia.
  - intros prefix Hp Hle. unfold checked_add. rewrite bool_decide_eq_true_2 by lia.
    by rewrite foldl_app_payloads, <- app_assoc.
Qed.

(** ** Witnesses *)

Definition sample_request (command : Command) (message_id : Z) (body : bytes) : PlainRequest :=
  mkPlainRequest (mkHeader 1 0 command 1 8 0 message_id (Some 5) None 7 0) (Some body).

Definition sample_requests : list PlainRequest :=
  [sample_request Cmd_Create 3 (replicate 57 1); sample_request Cmd_Close 4 (replicate 24 2)].

Lemma sample_request_ok command message_id body :
  in_range u64_max message_id -> header_ok (pq_header (sample_request command message_id body)).
Proof. intros H. split; cbn; try ints. split; [done|]. exists 5. split; [done|ints]. Qed.

Lemma sample_requests_ok : Forall (fun r => header_ok (pq_header r)) sample_requests.
Proof. repeat constructor; apply sample_request_ok; ints. Qed.

Definition sample_encoded : WireBuilder * list PlainRequest :=
  Eval vm_compute in match wb_encode sample_requests 3 with Ok x => x | Err _ => (mkBuilder [] [] [] 0 BS_Encoded 0, []) end.

Lemma sample_encode : wb_encode sample_requests 3 = Ok (sample_encoded.1, sample_encoded.2).
Proof. vm_compute. reflexivity. Qed.

Definition sample_ops : list BuilderOp :=
  [BO_AttachPayload [102; 105]; BO_FinishUnsigned; BO_AttachPayload []; BO_AttachPayload [115; 101]; BO_AttachPayload [116]; BO_FinalizeOffsets;
   BO_AttachPayload [108]; BO_PatchSignature 1 9; BO_PatchSignature 0 11; BO_FinishSigned;
   BO_FinishUnsigned; BO_PatchSignature 1 12; BO_FinishSigned; BO_PatchSignature 0 5].

Lemma sealed_message_all_or_none_signed_witness :
  exists w, wb_seal (wb_run sample_encoded.1 sample_ops) = Ok w /\
    exists ms signatures, wm_metadata w = concat (signed_members ms signatures) /\
      (signatures = [] \/ length signatures = 2%nat) /\ wm_segments w = [wm_metadata w; [102; 105]; [115; 101]] /\
      wm_total_len w = zlen (concat (wm_segments w)).
Proof.
  eexists. split; [vm_compute; reflexivity|].
  destruct (sealed_message_all_or_none_signed sample_requests 3 sample_encoded.1 sample_encoded.2 sample_ops
    (match wb_seal (wb_run sample_encoded.1 sample_ops) with Ok w => w | Err _ => mkWire [] [] [] 0 end)
    sample_requests_ok ltac:(lia) sample_encode) as (ms & sigs & _ & _ & Hm & Hs & Hp & Hseg & Ht & _).
  - vm_compute. reflexivity.
  - exists ms, sigs. split; [exact Hm|]. split; [exact Hs|]. rewrite Hp in Hseg. split; [exact Hseg|exact Ht].
Defined.
