(* ===== verification/Crypto.v ===== *)
(** Signing and encryption of messages: the algorithms and their keys
    (crates/smb/src/crypto/signing.rs, crypto/encryption), the signer and verifier
    (session/signer.rs), the encryptor and decryptor (session/encryptor_decryptor.rs) and
    the header of an encrypted message (smb-msg/src/encrypted.rs).

    The primitives are the environment ([Crypto]): HMAC-SHA256, SHA-512, AES, the two AEAD
    modes and the key derivation. Feeding a MAC in pieces is feeding it their
    concatenation. The build has all signing and encryption features, the default. *)
From S2P Require Import Prelude Bytes Header Transport Compression Cmac WireOut.
Local Open Scope Z_scope.

(** ** Errors *)

Inductive EncryptionCipher := Aes128Ccm | Aes128Gcm | Aes256Ccm | Aes256Gcm.
Inductive SigningAlgorithmId := HmacSha256 | AesCmac | AesGmac.

#[export] Instance EncryptionCipher_eq : EqDecision EncryptionCipher.
Proof. solve_decision. Defined.
#[export] Instance SigningAlgorithmId_eq : EqDecision SigningAlgorithmId.
Proof. solve_decision. Defined.

Inductive CryptoError :=
| CE_InvalidLength
| CE_UnsupportedEncryptionAlgorithm (cipher : EncryptionCipher)
| CE_UnsupportedSigningAlgorithm (algorithm : SigningAlgorithmId)
| CE_CmacInputTooLong
| CE_AeadError.

Inductive TransformPhase := TP_EncodeDecode | TP_SignVerify | TP_CompressDecompress | TP_EncryptDecrypt.

Record TransformError := mkTransformError {
  te_outgoing : bool;
  te_phase : TransformPhase;
  te_session_id : option Z;
  te_msg_id : option Z
}.

(** The errors of the crate that the code modelled here returns. *)
Inductive Error :=
| E_InvalidMessage
(** The [InvalidMessage] of a response that is neither signed nor encrypted where it has to be,
    which its text tells from the others. *)
| E_UnsignedMessage
| E_InvalidArgument
| E_InvalidState
| E_BinRWError
| E_SmbMsgError (e : SmbMsgError)
| E_CryptoError (e : CryptoError)
| E_CompressionError (e : CompressionError)
| E_TransportError (e : TransportError)
| E_TranformFailed (e : TransformError)
| E_NegotiationError
| E_SignatureVerificationFailed
| E_SessionInvalidated
| E_MissingErrorCode (code : Z)
| E_UnexpectedMessageCommand (command : Command)
| E_UnexpectedMessageStatus (status : Z)
| E_ReceivedErrorMessage (status : Z)
| E_OperationTimeout
(** [SetupError] *)
| E_UnsignedFinalResponse
| E_SetupTimeout
| E_Cancelled.

(** [map_err(Into::into)] *)
Definition map_err {E F A} (f : E -> F) (r : result E A) : result F A :=
  match r with Ok a => Ok a | Err e => Err (f e) end.

(** ** Primitives *)

Class Crypto := {
  crypto_cipher :: BlockCipher;
  hmac_sha256 : bytes -> bytes -> bytes;
  sha512 : bytes -> bytes;
  (** [kbkdf] in counter mode with HMAC-SHA256: key, label, context, output length. *)
  kbkdf_counter : bytes -> bytes -> bytes -> nat -> bytes;
  (** Key, nonce, associated data, payload. *)
  aead_encrypt : EncryptionCipher -> bytes -> bytes -> bytes -> bytes -> option (bytes * bytes);
  (** The same with the tag last. *)
  aead_decrypt : EncryptionCipher -> bytes -> bytes -> bytes -> bytes -> bytes -> option bytes
}.

(** What the libraries document: sizes, and that decryption undoes encryption. *)
Class CryptoLaws `{!Crypto} : Prop := {
  crypto_cipher_laws :: BlockCipherLaws;
  hmac_sha256_length key m : length (hmac_sha256 key m) = 32%nat;
  hmac_sha256_ok key m : bytes_ok (hmac_sha256 key m);
  sha512_length m : length (sha512 m) = 64%nat;
  kbkdf_length key label context n : length (kbkdf_counter key label context n) = n;
  aead_encrypt_sizes c key nonce aad p q tag :
    aead_encrypt c key nonce aad p = Some (q, tag) ->
    length q = length p /\ length tag = 16%nat /\ bytes_ok tag;
  aead_encrypt_total c key nonce aad p :
    zlen p <= u32_max -> zlen aad <= u32_max -> is_Some (aead_encrypt c key nonce aad p);
  aead_decrypt_encrypt c key nonce aad p q tag :
    aead_encrypt c key nonce aad p = Some (q, tag) -> aead_decrypt c key nonce aad q tag = Some p;
  aead_decrypt_size c key nonce aad q tag p :
    aead_decrypt c key nonce aad q tag = Some p -> length p = length q
}.

(** ** Signing algorithms *)

(** A signer of the source holds its state in an [Option] or a once-cell that its one use
    empties or fills; a second use of the same value panics. *)
Inductive SigningAlgo :=
| SA_HmacSha256 (hmac : option bytes)
| SA_Cmac128 (cmac : option bytes) (batch : BatchCmac128)
| SA_Gmac128 (key : bytes) (nonce : option bytes) (buffer : bytes).

Definition signing_algos : list SigningAlgorithmId := [AesGmac; AesCmac; HmacSha256].

Definition encrypting_algos : list EncryptionCipher := [Aes128Ccm; Aes256Ccm; Aes128Gcm; Aes256Gcm].

(** [Gmac128Signer::make_nonce] *)
Definition make_nonce (header : Header) : bytes :=
  le_bytes 8 (hd_message_id header)
  ++ [Z.lor (if flag_server_to_redir (hd_flags header) then 1 else 0)
        (Z.shiftl (if bool_decide (hd_command header = Cmd_Cancel) then 1 else 0) 1); 0; 0; 0].

Section crypto.
Context {CR : Crypto}.

Definition make_signing_algo (algorithm : SigningAlgorithmId) (key : bytes) : result CryptoError SigningAlgo :=
  if bool_decide (algorithm ∉ signing_algos) then Err (CE_UnsupportedSigningAlgorithm algorithm)
  else Ok match algorithm with
          | HmacSha256 => SA_HmacSha256 (Some key)
          | AesCmac => SA_Cmac128 (Some key) (batch_new key)
          | AesGmac => SA_Gmac128 key None []
          end.

(** The signers: what is left of each after its use, and the signature; [None] is a panic. *)
Definition sign_hmac (hmac : option bytes) (first : bytes) (segments : list bytes) : option (option bytes * Z) :=
  match hmac with
  | None => None
  | Some key => Some (None, le_value (take 16 (hmac_sha256 key (first ++ concat segments))))
  end.

Definition sign_cmac (cmac : option bytes) (first : bytes) (segments : list bytes) : option (option bytes * Z) :=
  match cmac with
  | None => None
  | Some key => Some (None, le_value (aes_cmac key (first ++ concat segments)))
  end.

Definition sign_gmac (key : bytes) (nonce : option bytes) (buffer : bytes) (header : Header) (first : bytes)
    (segments : list bytes) : option (option bytes * bytes * Z) :=
  match nonce with
  | Some _ => None
  | None =>
      let buffer := buffer ++ first ++ concat segments in
      match aead_encrypt Aes128Gcm key (make_nonce header) buffer [] with
      | None => None
      | Some (_, tag) => Some (Some (make_nonce header), buffer, le_value tag)
      end
  end.

(** [SigningAlgoEnum::sign_segments] *)
Definition sign_segments (algo : SigningAlgo) (header : Header) (first : bytes) (segments : list bytes)
    : option (SigningAlgo * Z) :=
  match algo with
  | SA_HmacSha256 hmac => (fun '(hmac, s) => (SA_HmacSha256 hmac, s)) <$> sign_hmac hmac first segments
  | SA_Cmac128 cmac batch => (fun '(cmac, s) => (SA_Cmac128 cmac batch, s)) <$> sign_cmac cmac first segments
  | SA_Gmac128 key nonce buffer =>
      (fun '(nonce, buffer, s) => (SA_Gmac128 key nonce buffer, s)) <$> sign_gmac key nonce buffer header first segments
  end.

(** ** The signer of messages *)

Record MessageSigner := mkSigner { sg_algo : SigningAlgo }.

(** [signature_for_segments]: the header is written into a cleared 64-byte buffer with a
    zero signature, and the first segment gives what follows its header. *)
Definition signature_for_segments (signer : MessageSigner) (header : Header) (segments : list bytes)
    : option (MessageSigner * result Error Z) :=
  match segments with
  | [] => Some (signer, Err E_InvalidMessage)
  | first :: rest =>
      if bool_decide (length first < 64)%nat then Some (signer, Err E_InvalidMessage)
      else
        match write_header (header <| hd_signature := 0 |>) with
        | None => Some (signer, Err E_BinRWError)
        | Some written =>
            let header_bytes := written ++ replicate (64 - length written) 0 in
            match sign_segments (sg_algo signer) header header_bytes (drop 64 first :: rest) with
            | None => None
            | Some (algo, signature) => Some (mkSigner algo, Ok signature)
            end
        end
  end.

(** [_calculate_signature_bytes] *)
Definition calculate_signature_bytes (signer : MessageSigner) (header : Header) (data : bytes)
    : option (MessageSigner * result Error Z) :=
  if bool_decide (length data < 64)%nat then Some (signer, Err E_InvalidMessage)
  else
    let header_bytes := splice 48 (replicate 16 0) (take 64 data) in
    match sign_segments (sg_algo signer) header header_bytes [drop 64 data] with
    | None => None
    | Some (algo, signature) => Some (mkSigner algo, Ok signature)
    end.

Definition verify_signature (signer : MessageSigner) (header : Header) (raw : bytes)
    : option (MessageSigner * result Error unit) :=
  match calculate_signature_bytes signer header raw with
  | None => None
  | Some (signer, Err error) => Some (signer, Err error)
  | Some (signer, Ok calculated) =>
      if bool_decide (calculated ≠ hd_signature header) then Some (signer, Err E_SignatureVerificationFailed)
      else Some (signer, Ok tt)
  end.

(** [is_batchable_cmac] and [calculate_cmac_batch] of one message. *)
Definition is_batchable_cmac (signer : MessageSigner) : bool :=
  match sg_algo signer with SA_Cmac128 _ _ => true | _ => false end.

Definition calculate_cmac_batch (signer : MessageSigner) (messages : list (list bytes))
    : option (option (result CmacError (list Z))) :=
  match sg_algo signer with
  | SA_Cmac128 _ batch => Some <$> sign_batch batch messages
  | _ => Some None
  end.

(** ** Encryption algorithms *)

Record EncryptingAlgo := mkCipher { ea_cipher : EncryptionCipher; ea_key : bytes }.

(** The key size of a cipher; [new_from_slice] refuses every other length. *)
Definition key_size (cipher : EncryptionCipher) : nat :=
  match cipher with Aes128Ccm | Aes128Gcm => 16 | Aes256Ccm | Aes256Gcm => 32 end.

Definition make_encrypting_algo (cipher : EncryptionCipher) (key : bytes) : result CryptoError EncryptingAlgo :=
  if bool_decide (cipher ∉ encrypting_algos) then Err (CE_UnsupportedEncryptionAlgorithm cipher)
  else if bool_decide (length key ≠ key_size cipher) then Err CE_InvalidLength
  else Ok (mkCipher cipher key).

Definition nonce_size (algo : EncryptingAlgo) : nat :=
  match ea_cipher algo with Aes128Ccm | Aes256Ccm => 11 | Aes128Gcm | Aes256Gcm => 12 end.

(** [trim_nonce] *)
Definition trim_nonce (algo : EncryptingAlgo) (nonce : bytes) : bytes := take (nonce_size algo) nonce.

(** [EncryptingAlgo::encrypt] in place: the payload and the tag. *)
Definition algo_encrypt (algo : EncryptingAlgo) (payload header_data nonce : bytes)
    : result CryptoError (bytes * Z) :=
  match aead_encrypt (ea_cipher algo) (ea_key algo) (trim_nonce algo nonce) header_data payload with
  | Some (payload, tag) => Ok (payload, le_value tag)
  | None => Err CE_AeadError
  end.

Definition algo_decrypt (algo : EncryptingAlgo) (payload header_data nonce : bytes) (signature : Z)
    : result CryptoError bytes :=
  match aead_decrypt (ea_cipher algo) (ea_key algo) (trim_nonce algo nonce) header_data payload
          (le_bytes 16 signature) with
  | Some payload => Ok payload
  | None => Err CE_AeadError
  end.

(** ** Encrypted messages *)

Record EncryptedHeader := mkEncryptedHeader {
  eh_signature : Z;
  eh_nonce : bytes;
  eh_original_message_size : Z;
  eh_session_id : Z
}.

#[export] Instance eta_EncryptedHeader : Eta EncryptedHeader := fun h =>
  mkEncryptedHeader (eh_signature h) (eh_nonce h) (eh_original_message_size h) (eh_session_id h).

(** [b"\xfdSMB"] *)
Definition encrypted_magic : bytes := [253; 83; 77; 66].

Definition encrypted_structure_size : nat := 52.

Definition write_encrypted_header (h : EncryptedHeader) : bytes :=
  encrypted_magic ++ le_bytes 16 (eh_signature h) ++ eh_nonce h ++ le_bytes 4 (eh_original_message_size h)
  ++ le_bytes 2 0 ++ le_bytes 2 1 ++ le_bytes 8 (eh_session_id h).

Definition read_encrypted_header : reader EncryptedHeader :=
  magic ← read_bytes 4;
  _ ← read_guard (bool_decide (magic = encrypted_magic));
  signature ← read_le 16;
  nonce ← read_bytes 16;
  original_message_size ← read_le 4;
  _ ← read_le 2;
  flags ← read_le 2;
  _ ← read_guard (bool_decide (flags = 1));
  session_id ← read_le 8;
  mret (mkEncryptedHeader signature nonce original_message_size session_id).

(** The header without its magic and signature. *)
Definition aead_bytes (h : EncryptedHeader) : bytes := drop 20 (write_encrypted_header h).

Record EncryptedMessage := mkEncryptedMessage { em_header : EncryptedHeader; em_encrypted_message : bytes }.

Definition read_encrypted_message (bs : bytes) : option EncryptedMessage :=
  match read_encrypted_header bs with
  | Some (header, rest) => Some (mkEncryptedMessage header rest)
  | None => None
  end.

(** [gen_nonce] with the random bytes it draws. *)
Definition gen_nonce (algo : EncryptingAlgo) (random : bytes) : bytes :=
  take (nonce_size algo) random ++ replicate (16 - nonce_size algo) 0.

(** [MessageEncryptor::encrypt_message]: the header and the payload encrypted in place. *)
Definition encrypt_message (algo : EncryptingAlgo) (random message : bytes) (session_id : Z)
    : result Error (EncryptedHeader * bytes) :=
  if bool_decide (zlen message > u32_max) then Err E_InvalidMessage
  else
    let header := mkEncryptedHeader 0 (gen_nonce algo random) (zlen message) session_id in
    match algo_encrypt algo message (aead_bytes header) (eh_nonce header) with
    | Err error => Err (E_CryptoError error)
    | Ok (payload, signature) => Ok (header <| eh_signature := signature |>, payload)
    end.

(** [MessageDecryptor::decrypt_message]; [parse] reads the message inside. *)
Definition decrypt_message {R} (parse : bytes -> option R) (algo : EncryptingAlgo) (m : EncryptedMessage)
    : result Error (R * bytes) :=
  if bool_decide (zlen (em_encrypted_message m) ≠ eh_original_message_size (em_header m)) then Err E_InvalidMessage
  else if bool_decide (Exists (fun byte => byte ≠ 0) (drop (nonce_size algo) (eh_nonce (em_header m))))
  then Err E_InvalidMessage
  else match algo_decrypt algo (em_encrypted_message m) (aead_bytes (em_header m)) (eh_nonce (em_header m))
               (eh_signature (em_header m)) with
       | Err error => Err (E_CryptoError error)
       | Ok buffer =>
           match parse buffer with
           | Some response => Ok (response, buffer)
           | None => Err E_BinRWError
           end
       end.

End crypto.

(** ** Signing and verifying agree *)

(** A signer that has not been used. *)
Definition fresh_signer (signer : MessageSigner) : Prop :=
  match sg_algo signer with
  | SA_HmacSha256 hmac => is_Some hmac
  | SA_Cmac128 cmac _ => is_Some cmac
  | SA_Gmac128 _ nonce buffer => nonce = None /\ buffer = []
  end.

Section signing.
Context {CR : Crypto} {CL : CryptoLaws}.

(** A MAC sees the concatenation of the segments, and of the header its identity only. *)
Lemma sign_segments_concat algo h h' first segs first' segs' :
  first ++ concat segs = first' ++ concat segs' -> make_nonce h = make_nonce h' ->
  sign_segments algo h first segs = sign_segments algo h' first' segs'.
Proof.
  intros E En. destruct algo as [[|]|[|] ?|? [|] ?]; cbn; try done.
  - by rewrite E.
  - by rewrite E.
  - by rewrite E, En.
Qed.

Lemma aes_block_range key b : 0 <= le_value (aes_block key b) < 2 ^ 128.
Proof.
  pose proof (le_value_bound _ (aes_block_ok key b)) as H. rewrite aes_block_length in H. exact H.
Qed.

Lemma aes_cmac_range key m : 0 <= le_value (aes_cmac key m) < 2 ^ 128.
Proof.
  unfold aes_cmac. pose proof (block_count_pos m) as Hn. set (n := block_count m) in *. clearbody n.
  generalize zero_block as x. revert m. induction n as [|[|n] IH]; intros m x; [lia|apply aes_block_range|].
  cbn [rfc_chain]. apply IH. lia.
Qed.

(** A fresh signer signs whatever fits in memory, and the signature fits its field. *)
Lemma sign_segments_fresh signer h first segs :
  fresh_signer signer -> zlen (first ++ concat segs) <= u32_max ->
  exists algo s, sign_segments (sg_algo signer) h first segs = Some (algo, s) /\ 0 <= s < 2 ^ 128.
Proof.
  unfold fresh_signer. destruct (sg_algo signer) as [hmac|cmac batch|key nonce buffer]; cbn; intros Hf Hl.
  - destruct Hf as [key ->]. eexists _, _. split; [done|].
    pose proof (hmac_sha256_ok key (first ++ concat segs)) as Hok.
    assert (H16 : bytes_ok (take 16 (hmac_sha256 key (first ++ concat segs)))) by by apply Forall_take.
    apply le_value_bound in H16. rewrite length_take, hmac_sha256_length in H16. exact H16.
  - destruct Hf as [key ->]. eexists _, _. split; [done|]. apply aes_cmac_range.
  - destruct Hf as [-> ->]. unfold sign_gmac. cbn [app].
    destruct (aead_encrypt_total Aes128Gcm key (make_nonce h) (first ++ concat segs) []) as [[q tag] E].
    { unfold zlen, u32_max. cbn. lia. } { done. }
    rewrite E. eexists _, _. split; [done|]. apply aead_encrypt_sizes in E as (_ & Ht & Hok).
    apply le_value_bound in Hok. rewrite Ht in Hok. exact Hok.
Qed.

Lemma signature_for_segments_fresh signer h first rest :
  fresh_signer signer -> header_ok h -> (64 <= length first)%nat -> zlen (first ++ concat rest) <= u32_max ->
  exists signer' s, signature_for_segments signer h (first :: rest) = Some (signer', Ok s) /\ 0 <= s < 2 ^ 128.
Proof.
  intros Hf Hok H64 Hl. unfold signature_for_segments. rewrite bool_decide_eq_false_2 by lia.
  assert (Hok0 : header_ok (h <| hd_signature := 0 |>)) by (destruct Hok; split; cbn; try done; lia).
  destruct (header_write_bytes _ [] Hok0) as (bs & -> & Hbl & _). rewrite Hbl. cbn [replicate Nat.sub].
  destruct (sign_segments_fresh signer h (bs ++ []) (drop 64 first :: rest) Hf) as (algo & s & -> & Hs).
  - rewrite app_nil_r. unfold zlen in *. cbn [concat]. rewrite !length_app, length_drop in *. lia.
  - by exists (mkSigner algo), s.
Qed.

(** Where a member's header is the one that was signed, a receiver with the same key
    accepts the member once the signature is in its place. *)
Lemma signed_message_verifies signer signer' h hb body rest s :
  header_ok h -> write_header h = Some hb -> 0 <= s < 2 ^ 128 ->
  signature_for_segments signer h ((hb ++ body) :: rest) = Some (signer', Ok s) ->
  exists signer'', verify_signature signer (h <| hd_signature := s |>) (sign_member (hb ++ body) s ++ concat rest)
                   = Some (signer'', Ok tt).
Proof.
  intros Hok Hw Hs H.
  destruct (header_write_bytes h [] Hok) as (hb' & Hw' & Hl & _). assert (hb' = hb) as -> by congruence. clear Hw'.
  destruct (write_header_signature h hb Hw) as (pre & -> & Hpre). rewrite length_app, length_le_bytes in Hl.
  unfold signature_for_segments in H. rewrite bool_decide_eq_false_2 in H by (rewrite !length_app, length_le_bytes; lia).
  rewrite Hpre, length_app, length_le_bytes, Hl in H. cbn [Nat.sub replicate] in H.
  rewrite app_nil_r in H. destruct (sign_segments _ _ _ _) as [[algo s']|] eqn:E; [|done]. injection H as <- ->.
  assert (Hmember : sign_member ((pre ++ le_bytes 16 (hd_signature h)) ++ body) s = pre ++ le_bytes 16 s ++ body).
  { unfold sign_member. rewrite <- app_assoc. replace 48%nat with (length pre + 0)%nat by lia.
    rewrite splice_app, splice_here by (by rewrite !length_le_bytes). done. }
  rewrite Hmember. unfold verify_signature, calculate_signature_bytes.
  rewrite bool_decide_eq_false_2 by (rewrite !length_app, length_le_bytes; lia).
  assert (Ht : take 64 ((pre ++ le_bytes 16 s ++ body) ++ concat rest) = pre ++ le_bytes 16 s).
  { rewrite app_assoc, <- app_assoc. rewrite take_app_le by (rewrite length_app, length_le_bytes; lia).
    apply take_ge. rewrite length_app, length_le_bytes. lia. }
  assert (Hd : drop 64 ((pre ++ le_bytes 16 s ++ body) ++ concat rest) = body ++ concat rest).
  { rewrite app_assoc, <- app_assoc. rewrite drop_app, length_app, length_le_bytes.
    replace (64 - (length pre + 16))%nat with O by lia. rewrite drop_ge by (rewrite length_app, length_le_bytes; lia). done. }
  assert (Hz : splice 48 (replicate 16 0) (pre ++ le_bytes 16 s) = pre ++ le_bytes 16 0).
  { replace 48%nat with (length pre + 0)%nat by lia. by rewrite splice_app. }
  rewrite Ht, Hd, Hz.
  rewrite (sign_segments_concat _ (h <| hd_signature := s |>) h _ _ (pre ++ le_bytes 16 0) (drop 64 ((pre ++ le_bytes 16 (hd_signature h)) ++ body) :: rest)).
  - rewrite E. cbn [hd_signature]. change (hd_signature (h <| hd_signature := s |>)) with s.
    rewrite bool_decide_eq_false_2 by (intros Hn; by apply Hn). by eexists.
  - cbn [concat]. rewrite app_nil_r. f_equal. f_equal.
    rewrite drop_app, length_app, length_le_bytes. replace (64 - (length pre + 16))%nat with O by lia.
    rewrite drop_ge by (rewrite length_app, length_le_bytes; lia). done.
  - done.
Qed.
End signing.

(** ** Encrypting and decrypting agree *)

Record encrypted_header_ok (h : EncryptedHeader) : Prop := {
  eo_signature : 0 <= eh_signature h < 2 ^ 128;
  eo_nonce : length (eh_nonce h) = 16%nat;
  eo_size : in_range u32_max (eh_original_message_size h);
  eo_session : in_range u64_max (eh_session_id h)
}.

Lemma encrypted_header_write_read h rest :
  encrypted_header_ok h ->
  length (write_encrypted_header h) = encrypted_structure_size /\
  read_encrypted_header (write_encrypted_header h ++ rest) = Some (h, rest).
Proof.
  intros [H1 H2 H3 H4]. unfold write_encrypted_header. split.
  - rewrite !length_app, !length_le_bytes, H2. done.
  - rewrite <- !app_assoc. unfold read_encrypted_header. unfold mbind at 1, reader_bind at 1.
    rewrite read_bytes_app by reflexivity. reading. rewrite read_guard_true by reflexivity. reading.
    rewrite read_bytes_app by done. reading. rewrite read_guard_true by reflexivity. reading. by destruct h.
Qed.

(** The authenticated part of the header does not include the signature. *)
Lemma aead_bytes_signature h s : aead_bytes (h <| eh_signature := s |>) = aead_bytes h.
Proof.
  unfold aead_bytes, write_encrypted_header. cbn [eh_signature eh_nonce eh_original_message_size eh_session_id].
  assert (E : forall v r, drop 20 (encrypted_magic ++ le_bytes 16 v ++ r) = r).
  { intros v r. rewrite app_assoc. apply drop_app_length'. by rewrite length_app, length_le_bytes. }
  by rewrite !E.
Qed.

Lemma gen_nonce_spec algo random :
  (nonce_size algo <= length random)%nat ->
  length (gen_nonce algo random) = 16%nat /\
  drop (nonce_size algo) (gen_nonce algo random) = replicate (16 - nonce_size algo) 0.
Proof.
  intros H. unfold gen_nonce. rewrite length_app, length_take, length_replicate. split.
  - unfold nonce_size in *. destruct (ea_cipher algo); lia.
  - apply drop_app_length'. rewrite length_take. lia.
Qed.

Section encryption.
Context {CR : Crypto} {CL : CryptoLaws}.

Lemma encrypt_message_total algo random message session_id :
  zlen message <= u32_max -> exists h payload, encrypt_message algo random message session_id = Ok (h, payload).
Proof.
  intros Hl. unfold encrypt_message. rewrite bool_decide_eq_false_2 by lia. cbv zeta. unfold algo_encrypt.
  set (h := mkEncryptedHeader 0 _ _ _).
  destruct (aead_encrypt_total (ea_cipher algo) (ea_key algo) (trim_nonce algo (eh_nonce h)) (aead_bytes h) message)
    as [[q tag] ->]; [done| |by eexists _, _].
  unfold zlen, aead_bytes, write_encrypted_header, gen_nonce. cbn [eh_nonce h].
  rewrite length_drop, !length_app, !length_le_bytes. subst h. cbn [eh_nonce]. unfold gen_nonce.
  rewrite length_app, length_take, length_replicate. change (length encrypted_magic) with 4%nat.
  unfold nonce_size. destruct (ea_cipher algo); ints.
Qed.

Lemma encrypted_message_opens {R} (parse : bytes -> option R) algo random message session_id :
  (nonce_size algo <= length random)%nat -> in_range u64_max session_id -> zlen message <= u32_max ->
  exists h payload, encrypt_message algo random message session_id = Ok (h, payload) /\
    eh_session_id h = session_id /\ length payload = length message /\
    exists m, read_encrypted_message (write_encrypted_header h ++ payload) = Some m /\
      em_header m = h /\
      decrypt_message parse algo m =
      match parse message with Some response => Ok (response, message) | None => Err E_BinRWError end.
Proof.
  intros Hr Hsid Hl. destruct (encrypt_message_total algo random message session_id Hl) as (h & payload & E).
  exists h, payload. split; [done|]. unfold encrypt_message in E. rewrite bool_decide_eq_false_2 in E by lia.
  cbv zeta in E. unfold algo_encrypt in E. set (h0 := mkEncryptedHeader 0 _ _ _) in E.
  destruct (aead_encrypt _ _ _ _ _) as [[q tag]|] eqn:Ea; [|done]. injection E as <- <-.
  pose proof (aead_encrypt_sizes _ _ _ _ _ _ _ Ea) as (Hq & Htag & Htok).
  pose proof (le_value_bound _ Htok) as Hsig. rewrite Htag in Hsig.
  destruct (gen_nonce_spec algo random Hr) as [Hnl Hnd].
  assert (Hok : encrypted_header_ok (h0 <| eh_signature := le_value tag |>)).
  { split; cbn; [exact Hsig|exact Hnl| |exact Hsid]. split; [unfold zlen; lia|exact Hl]. }
  split; [done|]. split; [done|]. destruct (encrypted_header_write_read _ q Hok) as [_ Er].
  unfold read_encrypted_message. rewrite Er. eexists. split; [done|]. split; [done|].
  unfold decrypt_message. cbn [em_header em_encrypted_message].
  rewrite bool_decide_eq_false_2.
  2: { intros Hn. apply Hn. change (eh_original_message_size _) with (zlen message). unfold zlen. by rewrite Hq. }
  change (eh_nonce (h0 <| eh_signature := le_value tag |>)) with (gen_nonce algo random). rewrite Hnd.
  rewrite bool_decide_eq_false_2.
  2: { intros Hx. apply Exists_exists in Hx as (x & Hin & Hx). apply elem_of_replicate in Hin as [-> _]. done. }
  rewrite aead_bytes_signature. unfold algo_decrypt.
  change (eh_signature (h0 <| eh_signature := le_value tag |>)) with (le_value tag).
  rewrite <- Htag, le_bytes_value by done. change (gen_nonce algo random) with (eh_nonce h0).
  by rewrite (aead_decrypt_encrypt _ _ _ _ _ _ _ Ea).
Qed.

(** C35: a message that is encrypted and put on the wire behind its header is read back as the
    encrypted message it is, and decrypting it with the same key gives the message that
    was encrypted, of the size that was announced; encryption succeeds for every message
    up to four gibibytes. *)
Theorem encrypt_decrypt_roundtrip {R} (parse : bytes -> option R) algo random message session_id :
  (nonce_size algo <= length random)%nat -> in_range u64_max session_id -> zlen message <= u32_max ->
  exists h payload, encrypt_message algo random message session_id = Ok (h, payload) /\
    eh_session_id h = session_id /\ length payload = length message /\
    exists m, read_encrypted_message (write_encrypted_header h ++ payload) = Some m /\
      em_header m = h /\
      decrypt_message parse algo m =
      match parse message with Some response => Ok (response, message) | None => Err E_BinRWError end.
Proof. apply encrypted_message_opens. Qed.
End encryption.

(** ** Witnesses: primitives that only add up *)

Definition toy_tag (key aad p : bytes) : bytes := le_bytes 16 (le_value key + le_value aad + le_value p).

Definition toy_crypto : Crypto := {|
  crypto_cipher := toy_cipher;
  hmac_sha256 key m := le_bytes 32 (le_value key + le_value m);
  sha512 m := le_bytes 64 (le_value m + 1);
  kbkdf_counter key label context n := le_bytes n (le_value key + le_value label + le_value context);
  aead_encrypt c key nonce aad p := Some (p, toy_tag key aad p);
  aead_decrypt c key nonce aad q tag := if bool_decide (tag = toy_tag key aad q) then Some q else None
|}.

Lemma toy_crypto_laws : @CryptoLaws toy_crypto.
Proof.
  split; cbn.
  - exact toy_cipher_laws.
  - intros. apply length_le_bytes.
  - intros. apply le_bytes_ok.
  - intros. apply length_le_bytes.
  - intros. apply length_le_bytes.
  - intros c key nonce aad p q tag [= <- <-]. split; [done|]. split; [apply length_le_bytes|apply le_bytes_ok].
  - intros. by eexists.
  - intros c key nonce aad p q tag [= <- <-]. by rewrite bool_decide_eq_true_2.
  - intros c key nonce aad q tag p H. case_bool_decide; [|done]. by injection H as ->.
Qed.

Definition toy_algo : EncryptingAlgo := mkCipher Aes128Gcm (replicate 16 3).

Lemma encrypt_decrypt_roundtrip_witness :
  exists h payload, @encrypt_message toy_crypto toy_algo (replicate 12 9) [1; 2; 3] 7 = Ok (h, payload) /\
    exists m, read_encrypted_message (write_encrypted_header h ++ payload) = Some m /\
      @decrypt_message toy_crypto bytes Some toy_algo m = Ok ([1; 2; 3], [1; 2; 3]).
Proof.
  destruct (@encrypt_decrypt_roundtrip toy_crypto toy_crypto_laws bytes Some toy_algo (replicate 12 9) [1; 2; 3] 7)
    as (h & payload & E & _ & _ & m & Er & _ & Ed).
  - cbn. lia.
  - ints.
  - vm_compute. discriminate.
  - exists h, payload. split; [exact E|]. exists m. split; [exact Er|exact Ed].
Defined.
