(* ===== verification/CmacBatcher.v ===== *)
(** The batcher of CMAC jobs (crates/smb/src/runtime/cmac_batcher.rs): tasks put jobs in a queue
    under a lock; the first to find no leader becomes the leader, yields once, and then takes
    jobs of one key at a time, signs them together and answers each on its own channel.

    A critical section of the lock is one event, so events of different tasks interleave between
    the sections: [BE_Sign] is the part of [sign] before it waits, [BE_Select] and [BE_Complete]
    are the two halves of a turn of [drain], and [BE_Cancelled] is the drop of a leader that is
    still waiting for its turn ([LeaderGuard]). *)
From S2P Require Import Prelude Bytes Cmac Crypto.
Local Open Scope Z_scope.

Record BatchJob := mkJob {
  bj_key_id : Z;
  bj_signer : MessageSigner;
  bj_segments : list bytes;
  bj_complete : nat
}.

(** Where the leader is: waiting for its turn, or draining with the jobs it has selected. *)
Inductive Leader :=
| L_None
| L_Waiting
| L_Draining (selected : list BatchJob).

(** [BatchState], and what the leading task holds. *)
Record BatchState := mkBatch {
  ba_queue : list BatchJob;
  ba_leader_active : bool;
  ba_leader : Leader
}.

#[export] Instance eta_BatchState : Eta BatchState := fun b => mkBatch (ba_queue b) (ba_leader_active b) (ba_leader b).

Inductive BatchEvent :=
| BE_Sign (key_id : option Z) (signer : MessageSigner) (segments : list bytes) (complete : nat)
| BE_Select
| BE_Complete
| BE_Cancelled.

(** What is sent on the channels of jobs. *)
Definition Answers : Type := list (nat * result Error Z).

Definition answer_all (jobs : list BatchJob) (error : Error) : Answers :=
  (fun job => (bj_complete job, Err error)) <$> jobs.

(** The first half of [sign]: a job without a key is refused at once. *)
Definition batcher_sign (b : BatchState) (key_id : option Z) (signer : MessageSigner) (segments : list bytes)
    (complete : nat) : BatchState * Answers :=
  match key_id with
  | None => (b, [(complete, Err E_InvalidState)])
  | Some key_id =>
      let b := b <| ba_queue := ba_queue b ++ [mkJob key_id signer segments complete] |> in
      if ba_leader_active b then (b, [])
      else (b <| ba_leader_active := true |> <| ba_leader := L_Waiting |>, [])
  end.

(** The loop of [drain] that looks for more jobs of the same key. *)
Fixpoint select_more (room : nat) (key_id : Z) (queue : list BatchJob) : list BatchJob * list BatchJob :=
  match room with
  | O => ([], queue)
  | S room =>
      match list_find (fun job => bj_key_id job = key_id) queue with
      | None => ([], queue)
      | Some (index, job) =>
          let '(jobs, queue) := select_more room key_id (delete index queue) in (job :: jobs, queue)
      end
  end.

(** The critical section of [drain]. *)
Definition drain_select (b : BatchState) : BatchState :=
  match ba_queue b with
  | [] => b <| ba_leader_active := false |> <| ba_leader := L_None |>
  | first :: queue =>
      let '(jobs, queue) := select_more (portable_cmac_lanes - 1) (bj_key_id first) queue in
      b <| ba_queue := queue |> <| ba_leader := L_Draining (first :: jobs) |>
  end.

Section batcher.
Context {CR : Crypto}.

(** The rest of a turn of [drain]; [None] is a panic. *)
Definition drain_complete (jobs : list BatchJob) : option Answers :=
  match jobs with
  | [] => None
  | first :: _ =>
      match calculate_cmac_batch (bj_signer first) (bj_segments <$> jobs) with
      | None => None
      | Some (Some (Ok signatures)) =>
          Some (if bool_decide (length signatures = length jobs)
                then zip_with (fun job signature => (bj_complete job, Ok signature)) jobs signatures
                else answer_all jobs E_InvalidState)
      | Some _ => Some (answer_all jobs E_InvalidState)
      end
  end.

(** The drop of the guard of a leader that did not get its turn. *)
Definition guard_drop (b : BatchState) : BatchState * Answers :=
  (b <| ba_leader_active := false |> <| ba_queue := [] |> <| ba_leader := L_None |>,
   answer_all (ba_queue b) E_InvalidState).

(** An event, if it can happen; [Some None] is a panic. *)
Definition batch_step (b : BatchState) (e : BatchEvent) : option (option (BatchState * Answers)) :=
  match e with
  | BE_Sign key_id signer segments complete => Some (Some (batcher_sign b key_id signer segments complete))
  | BE_Select =>
      match ba_leader b with
      | L_Waiting | L_Draining [] => Some (Some (drain_select b, []))
      | _ => None
      end
  | BE_Complete =>
      match ba_leader b with
      | L_Draining (job :: jobs) =>
          Some (match drain_complete (job :: jobs) with
                | Some answers => Some (b <| ba_leader := L_Draining [] |>, answers)
                | None => None
                end)
      | _ => None
      end
  | BE_Cancelled => match ba_leader b with L_Waiting => Some (Some (guard_drop b)) | _ => None end
  end.

(** A run: the events that happened, and everything that was answered. *)
Inductive batch_run : list BatchEvent -> BatchState -> Answers -> Prop :=
| run_start : batch_run [] (mkBatch [] false L_None) []
| run_event events b answers e b' more :
    batch_run events b answers -> batch_step b e = Some (Some (b', more)) ->
    batch_run (events ++ [e]) b' (answers ++ more).

(** ** Selection *)

Lemma select_more_spec room key_id : forall queue jobs rest,
  select_more room key_id queue = (jobs, rest) ->
  queue ≡ₚ jobs ++ rest /\ Forall (fun job => bj_key_id job = key_id) jobs /\ (length jobs <= room)%nat.
Proof.
  induction room as [|room IH]; intros queue jobs rest; cbn; [intros [= <- <-]; by split_and!|].
  destruct (list_find _ queue) as [[index job]|] eqn:Ef; [|intros [= <- <-]; split_and!; [done..|cbn; lia]].
  destruct (select_more room key_id (delete index queue)) as [js q] eqn:E. intros [= <- <-].
  apply IH in E as (Hp & Hk & Hl). apply list_find_Some in Ef as (Hi & Hkey & _). split_and!; [|by constructor|cbn; lia].
  rewrite (delete_Permutation queue index job Hi), Hp. done.
Qed.

(** ** The invariant *)

Definition jobs_of (e : BatchEvent) : list BatchJob :=
  match e with BE_Sign (Some key_id) signer segments complete => [mkJob key_id signer segments complete] | _ => [] end.

Definition refused_of (e : BatchEvent) : list nat :=
  match e with BE_Sign None _ _ complete => [complete] | _ => [] end.

Definition submitted (events : list BatchEvent) : list BatchJob := concat (jobs_of <$> events).

Definition in_hand (b : BatchState) : list BatchJob := match ba_leader b with L_Draining jobs => jobs | _ => [] end.

(** The identity of a key names the key: a job is signed with the subkeys of its signer. *)
Definition job_ok (key_of : Z -> bytes) (job : BatchJob) : Prop :=
  sg_algo (bj_signer job) = SA_Cmac128 (Some (key_of (bj_key_id job))) (batch_new (key_of (bj_key_id job))) /\
  zlen (concat (bj_segments job)) <= usize_max.

(** The signature a job is due. *)
Definition due (key_of : Z -> bytes) (job : BatchJob) : Z :=
  le_value (aes_cmac (key_of (bj_key_id job)) (concat (bj_segments job))).

Context {CL : CryptoLaws}.

Lemma drain_complete_spec key_of jobs :
  jobs <> [] -> Forall (job_ok key_of) jobs ->
  (forall j1 j2, j1 ∈ jobs -> j2 ∈ jobs -> bj_key_id j1 = bj_key_id j2) ->
  drain_complete jobs = Some ((fun job => (bj_complete job, Ok (due key_of job))) <$> jobs).
Proof.
  intros Hne Hok Hkey. destruct jobs as [|first jobs]; [done|]. unfold drain_complete, calculate_cmac_batch.
  pose proof (Forall_inv Hok) as [Ha _]. rewrite Ha. rewrite sign_batch_spec.
  - cbn [option_fmap option_map fmap]. rewrite bool_decide_eq_true_2 by (by rewrite !length_fmap). f_equal.
    set (key := key_of (bj_key_id first)).
    assert (Hk : forall l, (forall j, j ∈ l -> bj_key_id j = bj_key_id first) ->
      zip_with (fun job signature => (bj_complete job, Ok signature)) l
        ((fun segments => le_value (aes_cmac key (concat segments))) <$> (bj_segments <$> l))
      = (fun job => (bj_complete job, Ok (E := Error) (due key_of job))) <$> l).
    { induction l as [|j l IH]; intros Hl; [done|]. cbn. f_equal; [|apply IH; set_solver].
      unfold due. by rewrite (Hl j) by set_solver. }
    apply Hk. intros j Hj. apply Hkey; set_solver.
  - apply Forall_fmap. eapply Forall_impl; [exact Hok|]. by intros j [_ ?].
Qed.

(** Each job is in one place, and what was answered is what was due, or an error where the leader
    was cancelled. *)
Record batch_inv (key_of : Z -> bytes) (events : list BatchEvent) (b : BatchState) (answers : Answers) : Prop := {
  bi_leader : ba_leader_active b = true <-> ba_leader b <> L_None;
  bi_led : ba_leader b = L_None -> ba_queue b = [];
  bi_hand : forall j1 j2, j1 ∈ in_hand b -> j2 ∈ in_hand b -> bj_key_id j1 = bj_key_id j2;
  bi_places : exists settled, submitted events ≡ₚ settled ++ in_hand b ++ ba_queue b /\
    concat (refused_of <$> events) ++ (bj_complete <$> settled) ≡ₚ fst <$> answers /\
    forall id signature, (id, Ok signature) ∈ answers -> exists job, job ∈ settled /\ bj_complete job = id /\ signature = due key_of job;
  bi_errors : BE_Cancelled ∉ events -> (forall e, e ∈ events -> refused_of e = []) -> forall id e, (id, Err e) ∉ answers
}.

Lemma submitted_app events e : submitted (events ++ [e]) = submitted events ++ jobs_of e.
Proof. unfold submitted. rewrite fmap_app, concat_app. cbn. by rewrite app_nil_r. Qed.

Lemma refused_app events e : concat (refused_of <$> events ++ [e]) = concat (refused_of <$> events) ++ refused_of e.
Proof. rewrite fmap_app, concat_app. cbn. by rewrite app_nil_r. Qed.

Lemma batch_inv_start key_of : batch_inv key_of [] (mkBatch [] false L_None) [].
Proof. split; cbn; try done; [set_solver| |set_solver]. exists []. split_and!; [done..|set_solver]. Qed.

Lemma batch_inv_sign key_of events b answers key_id signer segments complete :
  batch_inv key_of events b answers ->
  let '(b', more) := batcher_sign b key_id signer segments complete in
  batch_inv key_of (events ++ [BE_Sign key_id signer segments complete]) b' (answers ++ more).
Proof.
  intros [H1 H2 H3 (settled & Hp & Ha & Hs) H5]. unfold batcher_sign. destruct key_id as [key_id|].
  - set (job := mkJob key_id signer segments complete).
    assert (Hplaces : submitted (events ++ [BE_Sign (Some key_id) signer segments complete])
              ≡ₚ settled ++ in_hand b ++ (ba_queue b ++ [job])).
    { rewrite submitted_app, Hp. cbn. by rewrite <- !app_assoc. }
    cbn [ba_leader_active]. change (ba_leader_active (b <| ba_queue := ba_queue b ++ [job] |>)) with (ba_leader_active b).
    assert (Herr : BE_Cancelled ∉ events ++ [BE_Sign (Some key_id) signer segments complete] ->
      (forall e, e ∈ events ++ [BE_Sign (Some key_id) signer segments complete] -> refused_of e = []) ->
      forall id e, (id, Err e) ∉ answers).
    { intros Hc Hr. apply H5; [set_solver|]. intros e He. apply Hr. set_solver. }
    destruct (ba_leader_active b) eqn:El; rewrite app_nil_r.
    + split; cbn [ba_leader ba_leader_active ba_queue].
      * change (ba_leader_active b = true <-> ba_leader b <> L_None). by rewrite El.
      * intros Hn. by apply H1 in Hn.
      * exact H3.
      * rewrite refused_app, app_nil_r. by exists settled.
      * done.
    + assert (ba_leader b = L_None) as Hn by (destruct (ba_leader b); [done|by destruct H1 as [_ H1]; discriminate H1..]).
      split; cbn [ba_leader ba_leader_active ba_queue]; [done|done|unfold in_hand; cbn; set_solver| |done].
      rewrite refused_app, app_nil_r. exists settled. split; [|done]. rewrite Hplaces. unfold in_hand. by rewrite Hn.
  - split; try done.
    + exists settled. rewrite submitted_app, refused_app. cbn. rewrite app_nil_r. split; [done|]. split.
      * rewrite fmap_app, <- Ha. cbn. by rewrite <- !app_assoc, (Permutation_app_comm [complete]).
      * intros id sig [Hin|Hin]%elem_of_app; [auto|]. apply list_elem_of_singleton in Hin. done.
    + intros _ Hr. specialize (Hr (BE_Sign None signer segments complete)). cbn in Hr. exfalso. discriminate Hr. set_solver.
Qed.

Lemma batch_inv_select key_of events b answers :
  batch_inv key_of events b answers -> in_hand b = [] -> ba_leader b <> L_None ->
  batch_inv key_of (events ++ [BE_Select]) (drain_select b) (answers ++ []).
Proof.
  intros [H1 H2 H3 (settled & Hp & Ha & Hs) H5] Hh Hl. rewrite app_nil_r. rewrite Hh in Hp.
  assert (Herr : BE_Cancelled ∉ events ++ [BE_Select] ->
    (forall e, e ∈ events ++ [BE_Select] -> refused_of e = []) -> forall id e, (id, Err e) ∉ answers).
  { intros Hc Hr. apply H5; [set_solver|]. intros e He. apply Hr. set_solver. }
  unfold drain_select. destruct (ba_queue b) as [|first queue] eqn:Eq.
  - split.
    + done.
    + done.
    + cbn. set_solver.
    + exists settled. rewrite submitted_app, refused_app, !app_nil_r. split; [|done]. cbn. by rewrite Eq.
    + done.
  - destruct (select_more _ _ queue) as [jobs rest] eqn:Es. apply select_more_spec in Es as (Hperm & Hk & _).
    split.
    + cbn. split; [done|]. intros _. by apply H1.
    + done.
    + unfold in_hand. cbn. rewrite Forall_forall in Hk. intros j1 j2 [->|Hj1]%elem_of_cons [->|Hj2]%elem_of_cons;
        rewrite ?(Hk j1), ?(Hk j2) by done; done.
    + exists settled. rewrite submitted_app, refused_app, !app_nil_r. split; [|done]. rewrite Hp. unfold in_hand. cbn.
      by rewrite Hperm.
    + done.
Qed.

Lemma batch_inv_complete key_of events b answers job jobs :
  batch_inv key_of events b answers -> Forall (job_ok key_of) (submitted events) -> ba_leader b = L_Draining (job :: jobs) ->
  exists more, drain_complete (job :: jobs) = Some more /\
    batch_inv key_of (events ++ [BE_Complete]) (b <| ba_leader := L_Draining [] |>) (answers ++ more).
Proof.
  intros [H1 H2 H3 (settled & Hp & Ha & Hs) H5] Hok Hl. unfold in_hand in *. rewrite Hl in *.
  rewrite Hp, !Forall_app in Hok. destruct Hok as (_ & Hok & _).
  rewrite (drain_complete_spec key_of); [|done..]. eexists. split; [done|]. split.
  - cbn. split; [done|]. intros _. by apply H1.
  - done.
  - cbn. set_solver.
  - exists (settled ++ (job :: jobs)). rewrite submitted_app, refused_app, !app_nil_r. split; [by rewrite Hp, <- app_assoc|].
    rewrite !fmap_app, <- Ha, <- list_fmap_compose, <- app_assoc. split; [done|].
    intros id sig [Hin|Hin]%elem_of_app.
    + apply Hs in Hin as (j & Hj & Hrest). exists j. split; [set_solver|done].
    + apply list_elem_of_fmap in Hin as (j & [= -> ->] & Hj). exists j. split; [set_solver|done].
  - intros Hc Hr id e [Hin|Hin]%elem_of_app.
    + revert Hin. apply H5; [set_solver|]. intros e' He. apply Hr. set_solver.
    + by apply list_elem_of_fmap in Hin as (j & [=] & _).
Qed.

Lemma batch_inv_cancelled key_of events b answers :
  batch_inv key_of events b answers -> ba_leader b = L_Waiting ->
  let '(b', more) := guard_drop b in batch_inv key_of (events ++ [BE_Cancelled]) b' (answers ++ more).
Proof.
  intros [H1 H2 H3 (settled & Hp & Ha & Hs) H5] Hl. unfold guard_drop, in_hand in *. rewrite Hl in *. split.
  - done.
  - done.
  - cbn. set_solver.
  - exists (settled ++ ba_queue b). rewrite submitted_app, refused_app, !app_nil_r. split; [done|].
    unfold answer_all. rewrite !fmap_app, <- Ha, <- list_fmap_compose, <- app_assoc. split; [done|].
    intros id sig [Hin|Hin]%elem_of_app.
    + apply Hs in Hin as (j & Hj & Hrest). exists j. split; [set_solver|done].
    + by apply list_elem_of_fmap in Hin as (j & [=] & _).
  - set_solver.
Qed.

Lemma batch_run_inv key_of events b answers :
  batch_run events b answers -> Forall (job_ok key_of) (submitted events) -> batch_inv key_of events b answers.
Proof.
  intros Hrun. induction Hrun as [|events b answers e b' more Hrun IH Hstep]; intros Hok; [apply batch_inv_start|].
  rewrite submitted_app, Forall_app in Hok. destruct Hok as [Hok _]. specialize (IH Hok). destruct e; unfold batch_step in Hstep.
  - injection Hstep as Hstep. pose proof (batch_inv_sign key_of _ _ _ key_id signer segments complete IH) as H. by rewrite Hstep in H.
  - destruct (ba_leader b) as [| |[|]] eqn:El; simplify_eq; apply batch_inv_select; try done; unfold in_hand; rewrite El; done.
  - destruct (ba_leader b) as [| |[|job jobs]] eqn:El; [done..|].
    destruct (batch_inv_complete key_of _ _ _ _ _ IH Hok El) as (more' & Hd & Hinv). rewrite Hd in Hstep. by simplify_eq.
  - destruct (ba_leader b) eqn:El; try done. pose proof (batch_inv_cancelled key_of _ _ _ IH El) as H. injection Hstep as <- <-. exact H.
Qed.

(** ** The leader drains the queue *)

Definition drain_event (e : BatchEvent) : Prop := e = BE_Select \/ e = BE_Complete.

Lemma select_more_shorter room key_id queue : (length (select_more room key_id queue).2 <= length queue)%nat.
Proof.
  destruct (select_more room key_id queue) as [jobs rest] eqn:E. apply select_more_spec in E as (Hp & _).
  apply Permutation_length in Hp. rewrite length_app in Hp. cbn. lia.
Qed.

Lemma batch_step_complete b job jobs more :
  ba_leader b = L_Draining (job :: jobs) -> drain_complete (job :: jobs) = Some more ->
  batch_step b BE_Complete = Some (Some (b <| ba_leader := L_Draining [] |>, more)).
Proof. intros Hl Hd. unfold batch_step. by rewrite Hl, Hd. Qed.

Lemma drain_selected key_of events b answers n :
  (length (ba_queue b) <= n)%nat -> in_hand b = [] -> ba_leader b <> L_None ->
  batch_run events b answers -> Forall (job_ok key_of) (submitted events) ->
  exists turns b' more, Forall drain_event turns /\ batch_run (events ++ turns) b' (answers ++ more) /\
    ba_leader b' = L_None /\ ba_queue b' = [].
Proof.
  revert events b answers. induction n as [n IH] using lt_wf_ind. intros events b answers Hn Hh Hl Hrun Hok.
  assert (Hsel : batch_step b BE_Select = Some (Some (drain_select b, []))).
  { unfold batch_step. unfold in_hand in Hh. destruct (ba_leader b) as [| |[|]]; done. }
  pose proof (run_event _ _ _ _ _ _ Hrun Hsel) as Hrun1.
  assert (Hok1 : Forall (job_ok key_of) (submitted (events ++ [BE_Select]))) by (by rewrite submitted_app, app_nil_r).
  unfold drain_select in Hrun1. destruct (ba_queue b) as [|first queue] eqn:Eq.
  - eexists [BE_Select], _, _. split; [by repeat constructor|]. split; [exact Hrun1|]. cbn. done.
  - destruct (select_more (portable_cmac_lanes - 1) (bj_key_id first) queue) as [jobs rest] eqn:Es.
    pose proof (select_more_shorter (portable_cmac_lanes - 1) (bj_key_id first) queue) as Hlt. rewrite Es in Hlt. cbn in Hlt.
    set (b1 := b <| ba_queue := rest |> <| ba_leader := L_Draining (first :: jobs) |>) in *.
    destruct (batch_inv_complete key_of _ _ _ first jobs (batch_run_inv key_of _ _ _ Hrun1 Hok1) Hok1 eq_refl) as (more & Hd & _).
    assert (Hcomp : batch_step b1 BE_Complete = Some (Some (b1 <| ba_leader := L_Draining [] |>, more))).
    { by apply (batch_step_complete _ first jobs). }
    pose proof (run_event _ _ _ _ _ _ Hrun1 Hcomp) as Hrun2.
    assert (Hok2 : Forall (job_ok key_of) (submitted ((events ++ [BE_Select]) ++ [BE_Complete]))) by (by rewrite submitted_app, app_nil_r).
    set (b2 := b1 <| ba_leader := L_Draining [] |>) in *.
    assert (Hq2 : (length (ba_queue b2) <= length rest)%nat) by done.
    destruct (IH (length rest) ltac:(cbn in Hn; lia) _ b2 _ Hq2 eq_refl ltac:(done) Hrun2 Hok2)
      as (turns & b' & more' & Ht & Hrun3 & Hend).
    exists (BE_Select :: BE_Complete :: turns), b', (more ++ more').
    split; [constructor; [by left|constructor; [by right|done]]|]. split; [|done].
    by rewrite <- !app_assoc in Hrun3.
Qed.

Lemma drain_finishes key_of events b answers :
  batch_run events b answers -> Forall (job_ok key_of) (submitted events) ->
  exists turns b' more, Forall drain_event turns /\ batch_run (events ++ turns) b' (answers ++ more) /\
    ba_leader b' = L_None /\ ba_queue b' = [].
Proof.
  intros Hrun Hok. pose proof (batch_run_inv key_of _ _ _ Hrun Hok) as Hinv.
  destruct (ba_leader b) as [| |[|job jobs]] eqn:El.
  - exists [], b, []. rewrite !app_nil_r. split_and!; [constructor|done|done|by apply Hinv].
  - eapply drain_selected; [done|by unfold in_hand; rewrite El|by rewrite El|done|done].
  - eapply drain_selected; [done|by unfold in_hand; rewrite El|by rewrite El|done|done].
  - destruct (batch_inv_complete key_of _ _ _ _ _ Hinv Hok El) as (more & Hd & _).
    assert (Hcomp : batch_step b BE_Complete = Some (Some (b <| ba_leader := L_Draining [] |>, more))).
    { by apply (batch_step_complete _ job jobs). }
    pose proof (run_event _ _ _ _ _ _ Hrun Hcomp) as Hrun2.
    assert (Hok2 : Forall (job_ok key_of) (submitted (events ++ [BE_Complete]))) by (by rewrite submitted_app, app_nil_r).
    set (b2 := b <| ba_leader := L_Draining [] |>) in *.
    destruct (drain_selected key_of _ b2 _ _ (Nat.le_refl (length (ba_queue b2))) eq_refl ltac:(done) Hrun2 Hok2) as (turns & b' & more' & Ht & Hrun3 & Hend).
    exists (BE_Complete :: turns), b', (more ++ more'). split; [constructor; [by right|done]|]. split; [|done].
    by rewrite <- !app_assoc in Hrun3.
Qed.

(** C34: however tasks and the leader interleave, a CMAC job is answered exactly once: a job that was
    submitted is answered, selected or queued, and never two of these. A signature that is
    answered is the CMAC of the job's own message under the job's own key, and errors are only
    answered to jobs without a key or after a leader was cancelled. There is a leader as long as a
    job waits, and when it gets its turns the queue is emptied, so that nothing is left unanswered. *)
Theorem batcher_answers_each_job_once key_of events b answers :
  batch_run events b answers -> Forall (job_ok key_of) (submitted events) ->
  (exists settled, submitted events ≡ₚ settled ++ in_hand b ++ ba_queue b /\
     concat (refused_of <$> events) ++ (bj_complete <$> settled) ≡ₚ fst <$> answers /\
     forall id signature, (id, Ok signature) ∈ answers ->
       exists job, job ∈ settled /\ bj_complete job = id /\ signature = due key_of job) /\
  (BE_Cancelled ∉ events -> (forall e, e ∈ events -> refused_of e = []) -> forall id e, (id, Err e) ∉ answers) /\
  (ba_queue b <> [] -> ba_leader b <> L_None) /\
  exists turns b' more, Forall drain_event turns /\ batch_run (events ++ turns) b' (answers ++ more) /\
    ba_leader b' = L_None /\ ba_queue b' = [].
Proof.
  intros Hrun Hok. pose proof (batch_run_inv key_of _ _ _ Hrun Hok) as [H1 H2 H3 H4 H5].
  split_and!; [done|done|intros Hq Hn; by apply Hq, H2|by eapply drain_finishes].
Qed.
End batcher.

(** ** Witness: two jobs of different keys, the second of which arrives while the first is signed *)

#[local] Existing Instance toy_crypto.
#[local] Existing Instance toy_crypto_laws.

Definition sample_key_of (key_id : Z) : bytes := replicate 16 key_id.

Definition sample_cmac_signer (key_id : Z) : MessageSigner :=
  mkSigner (SA_Cmac128 (Some (sample_key_of key_id)) (batch_new (sample_key_of key_id))).

Definition sample_job (key_id : Z) (complete : nat) : BatchEvent :=
  BE_Sign (Some key_id) (sample_cmac_signer key_id) [[1; 2]; [3]] complete.

Definition sample_batch_events : list BatchEvent := [sample_job 3 0; BE_Select; sample_job 4 1; BE_Complete].

Fixpoint batch_exec (b : BatchState) (answers : Answers) (events : list BatchEvent) : option (BatchState * Answers) :=
  match events with
  | [] => Some (b, answers)
  | e :: events =>
      match batch_step b e with
      | Some (Some (b, more)) => batch_exec b (answers ++ more) events
      | _ => None
      end
  end.

Lemma batch_exec_run events : forall past b answers b' answers',
  batch_run past b answers -> batch_exec b answers events = Some (b', answers') -> batch_run (past ++ events) b' answers'.
Proof.
  induction events as [|e events IH]; intros past b answers b' answers' Hrun H; cbn [batch_exec] in H.
  - injection H as <- <-. by rewrite app_nil_r.
  - destruct (batch_step b e) as [[[b1 more]|]|] eqn:E; try done. apply (IH (past ++ [e])) in H; [|by eapply run_event].
    by rewrite <- app_assoc in H.
Qed.

Lemma sample_batch_run : exists b answers, batch_run sample_batch_events b answers.
Proof.
  destruct (batch_exec (mkBatch [] false L_None) [] sample_batch_events) as [[b answers]|] eqn:E.
  - exists b, answers. by apply (batch_exec_run sample_batch_events [] _ _ _ _ run_start).
  - exfalso. revert E. vm_compute. discriminate.
Qed.

Lemma batcher_answers_each_job_once_witness :
  exists b answers, batch_run sample_batch_events b answers /\ forall id e, (id, Err e) ∉ answers.
Proof.
  destruct sample_batch_run as (b & answers & Hrun). exists b, answers. split; [exact Hrun|].
  destruct (batcher_answers_each_job_once sample_key_of sample_batch_events b answers Hrun) as (_ & H & _).
  - unfold submitted, sample_batch_events. cbn [fmap list_fmap concat jobs_of app sample_job].
    repeat constructor; vm_compute; discriminate.
  - apply H.
    + unfold sample_batch_events, sample_job. intros Hin. repeat (apply elem_of_cons in Hin as [Hin|Hin]; [discriminate Hin|]).
      by apply not_elem_of_nil in Hin.
    + intros e Hin. unfold sample_batch_events, sample_job in Hin.
      repeat (apply elem_of_cons in Hin as [->|Hin]; [reflexivity|]). by apply not_elem_of_nil in Hin.
Defined.
