(* ===== verification/Dialects.v ===== *)
(** Dialects and what is negotiated: the dialect revisions and their constants
    (crates/smb/src/dialects.rs, smb-msg/src/negotiate.rs), the policies of the connection
    (connection/config.rs, signing.rs), the negotiated properties
    (connection/connection_info.rs) and the preauthentication hash
    (connection/preauth_hash.rs). *)
From S2P Require Import Prelude Bytes Header Compression Crypto.
From stdpp Require Import strings.
Local Open Scope Z_scope.

(** The bytes of a byte string. *)
Fixpoint string_bytes (s : string) : bytes :=
  match s with
  | EmptyString => []
  | String c s => Z.of_N (Ascii.N_of_ascii c) :: string_bytes s
  end.

(** ** Dialects *)

Inductive Dialect := Smb0202 | Smb021 | Smb030 | Smb0302 | Smb0311.

#[export] Instance Dialect_eq : EqDecision Dialect.
Proof. solve_decision. Defined.

Definition dialect_code (d : Dialect) : Z :=
  match d with Smb0202 => 0x0202 | Smb021 => 0x0210 | Smb030 => 0x0300 | Smb0302 => 0x0302 | Smb0311 => 0x0311 end.

(** [self >= &Dialect::Smb030], in the order of the declaration. *)
Definition is_smb3 (d : Dialect) : bool := bool_decide (dialect_code Smb030 <= dialect_code d).

(** The bits of [GlobalCapabilities], from the least significant. *)
Definition get_negotiate_caps_mask (d : Dialect) : Z :=
  let after v := bool_decide (dialect_code v < dialect_code d) in
  let bit (b : bool) (n : Z) := if b then Z.shiftl 1 n else 0 in
  foldr Z.lor 0
    [bit true 0; bit (after Smb0202) 1; bit (after Smb0202) 2; bit (after Smb021) 3; bit (after Smb021) 4;
     bit (after Smb021) 5;
     bit (bool_decide (dialect_code Smb030 <= dialect_code d) && bool_decide (dialect_code d <= dialect_code Smb0302)) 6;
     bit (bool_decide (d = Smb0311)) 7].

(** The bits of [TreeCapabilities]. *)
Definition get_tree_connect_caps_mask (d : Dialect) : Z :=
  let bit (b : bool) (n : Z) := if b then Z.shiftl 1 n else 0 in
  foldr Z.lor 0
    [bit true 3; bit (is_smb3 d) 4; bit (is_smb3 d) 5; bit (is_smb3 d) 6;
     bit (bool_decide (dialect_code Smb0302 <= dialect_code d)) 7; bit (bool_decide (d = Smb0311)) 8].

Definition terminated (s : string) : bytes := string_bytes s ++ [0].

Definition get_signing_derive_label (d : Dialect) : result Error bytes :=
  match d with
  | Smb0311 => Ok (terminated "SMBSigningKey")
  | Smb0302 | Smb030 => Ok (terminated "SMB2AESCMAC")
  | Smb0202 | Smb021 => Err E_InvalidState
  end.

Definition preauth_hash_supported (d : Dialect) : bool := bool_decide (d = Smb0311).

Definition default_signing_algo (d : Dialect) : SigningAlgorithmId :=
  match d with Smb0311 | Smb0302 | Smb030 => AesCmac | Smb0202 | Smb021 => HmacSha256 end.

Definition supports_compression (d : Dialect) : bool := bool_decide (d = Smb0311).
Definition supports_encryption (d : Dialect) : bool := is_smb3 d.

Definition s2c_encrypt_key_derive_label (d : Dialect) : result Error bytes :=
  match d with
  | Smb0311 => Ok (terminated "SMBS2CCipherKey")
  | Smb0302 | Smb030 => Ok (terminated "SMB2AESCCM")
  | Smb0202 | Smb021 => Err E_InvalidState
  end.

Definition c2s_encrypt_key_derive_label (d : Dialect) : result Error bytes :=
  match d with
  | Smb0311 => Ok (terminated "SMBC2SCipherKey")
  | Smb0302 | Smb030 => Ok (terminated "SMB2AESCCM")
  | Smb0202 | Smb021 => Err E_InvalidState
  end.

(** ** Policies *)

Inductive EncryptionMode := EM_Allowed | EM_Required | EM_Disabled.

#[export] Instance EncryptionMode_eq : EqDecision EncryptionMode.
Proof. solve_decision. Defined.

Definition em_is_required (m : EncryptionMode) : bool := match m with EM_Required => true | _ => false end.
Definition em_is_disabled (m : EncryptionMode) : bool := match m with EM_Disabled => true | _ => false end.

Inductive SigningPolicy := SP_Required | SP_WhenRequired.

(** [SigningPolicy::required] *)
Definition policy_required (p : SigningPolicy) (server_requires : bool) : bool :=
  match p with SP_Required => true | SP_WhenRequired => server_requires end.

Inductive GuestPolicy := GP_Deny | GP_AllowUnsigned.

Definition allows_unsigned (p : GuestPolicy) : bool := match p with GP_AllowUnsigned => true | GP_Deny => false end.

(** The fields of the configuration that security depends on. *)
Record ConnectionConfig := mkConfig {
  cfg_encryption_mode : EncryptionMode;
  cfg_signing_policy : SigningPolicy;
  cfg_allow_unsigned_guest_access : bool;
  cfg_compression_enabled : bool
}.

(** ** Negotiation *)

Record NegotiatedProperties := mkNegotiated {
  np_signing_required : bool;
  np_signing_algo : option SigningAlgorithmId;
  np_encryption_cipher : option EncryptionCipher;
  np_compression : option CompressionCapabilities;
  np_dialect_rev : Dialect
}.

#[export] Instance eta_NegotiatedProperties : Eta NegotiatedProperties := fun n =>
  mkNegotiated (np_signing_required n) (np_signing_algo n) (np_encryption_cipher n) (np_compression n)
    (np_dialect_rev n).

(** The contexts of a negotiate response that are looked at. *)
Inductive NegotiateContext :=
| NC_Preauth (hash_algorithms : list Z)
| NC_Encryption (ciphers : list EncryptionCipher)
| NC_Compression (caps : CompressionCapabilities)
| NC_Signing (algorithms : list SigningAlgorithmId)
| NC_Other.

Record NegotiateResponse := mkNegotiateResponse {
  nr_capabilities : Z;
  nr_contexts : option (list NegotiateContext)
}.

Definition hash_sha512 : Z := 1.
Definition supported_hashes : list Z := [hash_sha512].

Definition ctx_preauth (c : NegotiateContext) : option (list Z) :=
  match c with NC_Preauth l => Some l | _ => None end.
Definition ctx_signing (c : NegotiateContext) : option (list SigningAlgorithmId) :=
  match c with NC_Signing l => Some l | _ => None end.
Definition ctx_encryption (c : NegotiateContext) : option (list EncryptionCipher) :=
  match c with NC_Encryption l => Some l | _ => None end.
Definition ctx_compression (c : NegotiateContext) : option CompressionCapabilities :=
  match c with NC_Compression c => Some c | _ => None end.

(** [get_ctx_*]: the first context of the type. *)
Definition get_ctx {A} (f : NegotiateContext -> option A) (r : NegotiateResponse) : option A :=
  match nr_contexts r with Some l => head (omap f l) | None => None end.

(** SMB 3.1.1; [None] is the panic of its [expect]. *)
Definition process_negotiate_311 (response : NegotiateResponse) (state : NegotiatedProperties)
    (config : ConnectionConfig) : option (result Error NegotiatedProperties) :=
  match nr_contexts response with
  | None => Some (Err E_InvalidMessage)
  | Some contexts =>
      if bool_decide (length (omap ctx_preauth contexts) ≠ 1%nat) then Some (Err E_NegotiationError)
      else if bool_decide (1 < length (omap ctx_signing contexts))%nat then Some (Err E_NegotiationError)
      else
        let signing :=
          match get_ctx ctx_signing response with
          | None => Ok None
          | Some [algorithm] => if bool_decide (algorithm ∈ signing_algos) then Ok (Some algorithm) else Err E_NegotiationError
          | Some _ => Err E_NegotiationError
          end in
        match signing with
        | Err error => Some (Err error)
        | Ok signing_algo =>
            match get_ctx ctx_preauth response with
            | None => None
            | Some [hash] =>
                if bool_decide (hash ∉ supported_hashes) then Some (Err E_NegotiationError)
                else
                  let first_cipher := match get_ctx ctx_encryption response with
                                      | Some ciphers => head ciphers
                                      | None => None
                                      end in
                  let acceptable := match first_cipher with
                                    | Some cipher => bool_decide (cipher ∈ encrypting_algos)
                                    | None => negb (em_is_required (cfg_encryption_mode config))
                                    end in
                  if acceptable
                  then Some (Ok (state <| np_signing_algo := signing_algo |>
                                   <| np_encryption_cipher := first_cipher |>
                                   <| np_compression := get_ctx ctx_compression response |>))
                  else Some (Err E_NegotiationError)
            | Some _ => Some (Err E_NegotiationError)
            end
        end
  end.

Definition process_negotiate_30x (response : NegotiateResponse) (state : NegotiatedProperties)
    (config : ConnectionConfig) : result Error NegotiatedProperties :=
  if bool_decide (is_Some (nr_contexts response)) then Err E_InvalidMessage
  else if em_is_required (cfg_encryption_mode config) && negb (Z.testbit (nr_capabilities response) 6)
  then Err E_NegotiationError
  else Ok state.

Definition process_negotiate_201 (response : NegotiateResponse) (state : NegotiatedProperties)
    : result Error NegotiatedProperties :=
  if bool_decide (is_Some (nr_contexts response)) then Err E_InvalidMessage else Ok state.

Definition process_negotiate_request (d : Dialect) (response : NegotiateResponse) (state : NegotiatedProperties)
    (config : ConnectionConfig) : option (result Error NegotiatedProperties) :=
  match d with
  | Smb0311 => process_negotiate_311 response state config
  | Smb0302 | Smb030 => Some (process_negotiate_30x response state config)
  | Smb021 | Smb0202 => Some (process_negotiate_201 response state)
  end.

(** ** The preauthentication hash *)

Inductive PreauthHashState := PH_Unsupported | PH_InProgress (hash : bytes) | PH_Finished (hash : bytes).

Definition preauth_begin : PreauthHashState := PH_InProgress (replicate 64 0).

Definition preauth_next `{!Crypto} (h : PreauthHashState) (data : bytes) : result Error PreauthHashState :=
  match h with
  | PH_InProgress hash => Ok (PH_InProgress (sha512 (hash ++ data)))
  | PH_Unsupported => Ok PH_Unsupported
  | PH_Finished _ => Err E_InvalidState
  end.

Definition preauth_finish (h : PreauthHashState) : result Error PreauthHashState :=
  match h with
  | PH_InProgress hash => Ok (PH_Finished hash)
  | PH_Unsupported => Ok PH_Unsupported
  | PH_Finished _ => Err E_InvalidState
  end.

Record ConnectionInfo := mkConnectionInfo {
  ci_negotiation : NegotiatedProperties;
  ci_dialect : Dialect;
  ci_config : ConnectionConfig;
  ci_preauth_hash : PreauthHashState
}.
