(* ===== verification/Session.v ===== *)
(** Sessions: their keys and their life (crates/smb/src/session/state.rs) and the security
    policy a channel applies to what it sends and receives (session/channel.rs). *)
From S2P Require Import Prelude Bytes Header Crypto Dialects WireOut.
From stdpp Require Import strings.
Local Open Scope Z_scope.

(** ** Requests and responses of a channel (command.rs) *)

Inductive Protection :=
| Pr_None
| Pr_SignWithChannel
| Pr_SnapshotKdfSign (session_key : bytes)
| Pr_Encrypt.

(** [CommandRequest], without the fields only the runtime reads. *)
Record CommandRequest := mkCommandRequest {
  cq_message : PlainRequest;
  cq_additional_data : option bytes;
  cq_security : option Protection;
  cq_cmac_batch_eligible : bool
}.

#[export] Instance eta_CommandRequest : Eta CommandRequest := fun r =>
  mkCommandRequest (cq_message r) (cq_additional_data r) (cq_security r) (cq_cmac_batch_eligible r).

Record MessageForm := mkForm {
  mf_compressed : bool;
  mf_encrypted : bool;
  mf_signed : bool;
  mf_unauthenticated_recovery_hint : bool
}.

#[export] Instance eta_MessageForm : Eta MessageForm := fun f =>
  mkForm (mf_compressed f) (mf_encrypted f) (mf_signed f) (mf_unauthenticated_recovery_hint f).

Definition default_form : MessageForm := mkForm false false false false.

Definition signed_or_encrypted (f : MessageForm) : bool := mf_signed f || mf_encrypted f.

(** A plain response: its header and what its body was read as. *)
Record PlainResponse (C : Type) := mkPlainResponse { ps_header : Header; ps_content : C }.
Arguments mkPlainResponse {C}.
Arguments ps_header {C}.
Arguments ps_content {C}.

Record CommandResponse (C : Type) := mkCommandResponse {
  cp_message : PlainResponse C;
  cp_raw : bytes;
  cp_form : MessageForm
}.
Arguments mkCommandResponse {C}.
Arguments cp_message {C}.
Arguments cp_raw {C}.
Arguments cp_form {C}.

Definition set_signed (flags : Z) : Z := Z.lor flags 8.

(** ** Session flags *)

Definition sf_is_guest (flags : Z) : bool := Z.testbit flags 0.
Definition sf_is_null_session (flags : Z) : bool := Z.testbit flags 1.
Definition sf_encrypt_data (flags : Z) : bool := Z.testbit flags 2.
Definition is_guest_or_null_session (flags : Z) : bool := sf_is_guest flags || sf_is_null_session flags.

(** ** Algorithms *)

Record SessionAlgos := mkAlgos {
  al_encryptor : option EncryptingAlgo;
  al_decryptor : option EncryptingAlgo
}.

(** [preauth_hash_or] *)
Definition preauth_hash_or (preauth_hash : option bytes) (else_val : bytes) : bytes := default else_val preauth_hash.

Section algos.
Context {CR : Crypto}.

(** [kbkdf_hmacsha256]: the output has the size of an AES-128 key. *)
Definition kbkdf_hmacsha256 (key label context : bytes) : bytes := kbkdf_counter key label context 16.

Definition smb3xx_make_cipher_pair (session_key : bytes) (info : ConnectionInfo) (preauth_hash : option bytes)
    : result Error (option (EncryptingAlgo * EncryptingAlgo)) :=
  if negb (supports_encryption (ci_dialect info)) then Ok None
  else if em_is_disabled (cfg_encryption_mode (ci_config info)) then Ok None
  else
    let cipher := if bool_decide (np_dialect_rev (ci_negotiation info) = Smb0311)
                  then np_encryption_cipher (ci_negotiation info) else Some Aes128Ccm in
    match cipher with
    | None => Ok None
    | Some cipher =>
        if bool_decide (cipher ∉ encrypting_algos) then Ok None
        else
          c2s ← c2s_encrypt_key_derive_label (ci_dialect info);
          let enc_key := kbkdf_hmacsha256 session_key c2s (preauth_hash_or preauth_hash (terminated "ServerIn ")) in
          s2c ← s2c_encrypt_key_derive_label (ci_dialect info);
          let dec_key := kbkdf_hmacsha256 session_key s2c (preauth_hash_or preauth_hash (terminated "ServerOut")) in
          encryptor ← map_err E_CryptoError (make_encrypting_algo cipher enc_key);
          decryptor ← map_err E_CryptoError (make_encrypting_algo cipher dec_key);
          Ok (Some (encryptor, decryptor))
    end.

Definition smb3xx_make_ciphers (session_key : bytes) (preauth_hash : option bytes) (info : ConnectionInfo)
    : result Error SessionAlgos :=
  pair ← smb3xx_make_cipher_pair session_key info preauth_hash;
  match pair with
  | Some (e, d) => Ok (mkAlgos (Some e) (Some d))
  | None => if em_is_required (cfg_encryption_mode (ci_config info)) then Err E_InvalidMessage
            else Ok (mkAlgos None None)
  end.

(** [SessionAlgosFactory::new_session] *)
Definition new_session (session_key : bytes) (preauth_hash : option bytes) (info : ConnectionInfo)
    : result Error SessionAlgos :=
  if negb (Bool.eqb (bool_decide (np_dialect_rev (ci_negotiation info) = Smb0311)) (bool_decide (is_Some preauth_hash)))
  then Err E_InvalidMessage
  else if is_smb3 (np_dialect_rev (ci_negotiation info)) then smb3xx_make_ciphers session_key preauth_hash info
  else Ok (mkAlgos None None).

Definition smb3xx_make_signer (channel_session_key : bytes) (signing_algo : option SigningAlgorithmId)
    (dialect : Dialect) (preauth_hash : option bytes) : result Error MessageSigner :=
  label ← get_signing_derive_label dialect;
  let signing_key := kbkdf_hmacsha256 channel_session_key label (preauth_hash_or preauth_hash (terminated "SmbSign")) in
  let signing_algo := default (default_signing_algo dialect) signing_algo in
  algo ← map_err E_CryptoError (make_signing_algo signing_algo signing_key);
  Ok (mkSigner algo).

Definition smb2_make_signer (session_key : bytes) : result Error MessageSigner :=
  algo ← map_err E_CryptoError (make_signing_algo HmacSha256 session_key);
  Ok (mkSigner algo).

(** [SessionAlgosFactory::new_channel] *)
Definition new_channel (channel_session_key : bytes) (preauth_hash : option bytes) (info : ConnectionInfo)
    : result Error MessageSigner :=
  if is_smb3 (np_dialect_rev (ci_negotiation info))
  then smb3xx_make_signer channel_session_key (np_signing_algo (ci_negotiation info)) (ci_dialect info) preauth_hash
  else smb2_make_signer channel_session_key.

(** ** Channels *)

Record ChannelInfo := mkChannel {
  ch_id : Z;
  ch_signer : MessageSigner;
  ch_valid : bool;
  ch_binding : bool
}.

Definition channel_new (internal_id : Z) (channel_session_key : bytes) (preauth_hash : option bytes)
    (info : ConnectionInfo) : result Error ChannelInfo :=
  signer ← new_channel channel_session_key preauth_hash info;
  Ok (mkChannel internal_id signer true false).

Definition channel_with_binding (c : ChannelInfo) (binding : bool) : ChannelInfo :=
  mkChannel (ch_id c) (ch_signer c) (ch_valid c) binding.

(** [ChannelInfo::signer] *)
Definition channel_signer (c : ChannelInfo) : result Error MessageSigner :=
  if ch_valid c then Ok (ch_signer c) else Err E_InvalidState.

(** ** The life of a session *)

Inductive SessionInfoState :=
| SI_Initial
| SI_SettingUp (algos : SessionAlgos) (allow_unsigned : bool)
| SI_Ready (algos : SessionAlgos) (flags : Z) (force_encryption signing_required : bool)
| SI_Invalid.

Record SessionInfo := mkSession { si_session_id : Z; si_state : SessionInfoState }.

Definition session_new (session_id : Z) : SessionInfo := mkSession session_id SI_Initial.

Definition si_setup (s : SessionInfo) (session_key : bytes) (preauth_hash : option bytes) (info : ConnectionInfo)
    : result Error SessionInfo :=
  match si_state s with
  | SI_Initial =>
      algos ← new_session session_key preauth_hash info;
      Ok (mkSession (si_session_id s) (SI_SettingUp algos (cfg_allow_unsigned_guest_access (ci_config info))))
  | _ => Err E_InvalidState
  end.

Definition si_ready (s : SessionInfo) (flags : Z) (info : ConnectionInfo) : result Error SessionInfo :=
  match si_state s with
  | SI_SettingUp algos _ =>
      let required := em_is_required (cfg_encryption_mode (ci_config info)) in
      if required && negb (bool_decide (is_Some (al_encryptor algos)) && bool_decide (is_Some (al_decryptor algos)))
      then Err E_InvalidMessage
      else if is_guest_or_null_session flags
                && (negb (cfg_allow_unsigned_guest_access (ci_config info)) || np_signing_required (ci_negotiation info))
      then Err E_InvalidMessage
      else Ok (mkSession (si_session_id s)
                 (SI_Ready algos flags required
                    (policy_required (cfg_signing_policy (ci_config info)) (np_signing_required (ci_negotiation info)))))
  | _ => Err E_InvalidState
  end.

Definition si_invalidate (s : SessionInfo) : SessionInfo := mkSession (si_session_id s) SI_Invalid.

Definition si_is_initial (s : SessionInfo) : bool := match si_state s with SI_Initial => true | _ => false end.
Definition si_is_ready (s : SessionInfo) : bool := match si_state s with SI_Ready _ _ _ _ => true | _ => false end.
Definition si_is_setting_up (s : SessionInfo) : bool := match si_state s with SI_SettingUp _ _ => true | _ => false end.
Definition si_is_invalid (s : SessionInfo) : bool := match si_state s with SI_Invalid => true | _ => false end.

Definition should_encrypt (s : SessionInfo) : result Error bool :=
  match si_state s with
  | SI_Ready _ flags force_encryption _ => Ok (sf_encrypt_data flags || force_encryption)
  | _ => Err E_InvalidState
  end.

Definition allow_unsigned (s : SessionInfo) : result Error bool :=
  match si_state s with
  | SI_Ready _ flags _ signing_required => Ok (is_guest_or_null_session flags || negb signing_required)
  | SI_SettingUp _ allow_unsigned => Ok allow_unsigned
  | _ => Err E_InvalidState
  end.

Definition is_guest_or_anonymous (s : SessionInfo) : result Error bool :=
  match si_state s with
  | SI_Ready _ flags _ _ => Ok (is_guest_or_null_session flags)
  | _ => Err E_InvalidState
  end.

Definition si_decryptor (s : SessionInfo) : result Error (option EncryptingAlgo) :=
  match si_state s with SI_Ready algos _ _ _ => Ok (al_decryptor algos) | _ => Err E_InvalidState end.

Definition si_encryptor (s : SessionInfo) : result Error (option EncryptingAlgo) :=
  match si_state s with SI_Ready algos _ _ _ => Ok (al_encryptor algos) | _ => Err E_InvalidState end.

(** ** The policy of a channel *)

(** [ChannelContext::requires_signing]; [conn_info] is empty before negotiation. *)
Definition requires_signing (conn_info : option ConnectionInfo) (session : SessionInfo) (command : Command)
    : result Error bool :=
  info ← ok_or E_InvalidState conn_info;
  if np_signing_required (ci_negotiation info) then Ok true
  else if si_is_ready session
  then guest ← is_guest_or_anonymous session;
       Ok (negb guest && bool_decide (np_dialect_rev (ci_negotiation info) = Smb0311)
             && bool_decide (command = Cmd_TreeConnect))
  else Ok false.

(** The protection [prepare] chooses for a request that has none. *)
Definition choose_protection (conn_info : option ConnectionInfo) (session : SessionInfo) (command : Command)
    : result Error Protection :=
  if si_is_invalid session then Err E_InvalidState
  else if si_is_ready session || si_is_setting_up session
  then
    encrypt ← (if si_is_ready session then should_encrypt session else Ok false);
    if encrypt : bool then Ok Pr_Encrypt
    else
      unsigned_ok ← allow_unsigned session;
      sign ← (if negb unsigned_ok then Ok true else requires_signing conn_info session command);
      Ok (if sign : bool then Pr_SignWithChannel else Pr_None)
  else Ok Pr_None.

(** [ChannelContext::prepare] *)
Definition prepare (conn_info : option ConnectionInfo) (session : SessionInfo) (session_id : Z)
    (msg : CommandRequest) : result Error CommandRequest :=
  let command := hd_command (pq_header (cq_message msg)) in
  security ← match cq_security msg with
             | Some security => Ok security
             | None => choose_protection conn_info session command
             end;
  let header := pq_header (cq_message msg) in
  let header := match security with
                | Pr_SignWithChannel | Pr_SnapshotKdfSign _ => header <| hd_flags := set_signed (hd_flags header) |>
                | _ => header
                end in
  let header := header <| hd_session_id := session_id |> in
  Ok (msg <| cq_security := Some security |>
          <| cq_message := (cq_message msg) <| pq_header := header |> |>).

(** [ChannelContext::_verify_incoming] *)
Definition verify_incoming {C} (conn_info : option ConnectionInfo) (session : SessionInfo) (session_id : Z)
    (incoming : CommandResponse C) : result Error unit :=
  let header := ps_header (cp_message incoming) in
  match hd_get_status header with
  | None => Err (E_MissingErrorCode (hd_status header))
  | Some status =>
      if bool_decide (status = St_UserSessionDeleted) || bool_decide (status = St_NetworkSessionExpired)
      then Err E_SessionInvalidated
      else
        encryption_required ← (if si_is_ready session then should_encrypt session else Ok false);
        session_allows ← allow_unsigned session;
        unsigned_allowed ←
          (if session_allows : bool then sign ← requires_signing conn_info session (hd_command header); Ok (negb sign)
           else Ok false);
        if bool_decide (hd_session_id header = 0) then Err E_InvalidMessage
        else if bool_decide (hd_session_id header ≠ session_id) then Err E_InvalidMessage
        else if negb (mf_encrypted (cp_form incoming)) && encryption_required then Err E_InvalidMessage
        else if negb (signed_or_encrypted (cp_form incoming)) && negb unsigned_allowed then Err E_UnsignedMessage
        else Ok tt
  end.

End algos.

(** ** What a session in use is worth *)

Section session.
Context {CR : Crypto}.

(** The operations that change a session's state. *)
Inductive session_step (info : ConnectionInfo) : SessionInfo -> SessionInfo -> Prop :=
| step_setup s session_key preauth_hash s' :
    si_setup s session_key preauth_hash info = Ok s' -> session_step info s s'
| step_ready s flags s' : si_ready s flags info = Ok s' -> session_step info s s'
| step_invalidate s : session_step info s (si_invalidate s).

(** The negotiated policy, as it must show in a session that is being used. *)
Definition policy_honoured (info : ConnectionInfo) (s : SessionInfo) : Prop :=
  match si_state s with
  | SI_Ready algos flags force_encryption signing_required =>
      (em_is_required (cfg_encryption_mode (ci_config info)) = true ->
       force_encryption = true /\ is_Some (al_encryptor algos) /\ is_Some (al_decryptor algos)) /\
      (is_guest_or_null_session flags = true ->
       cfg_allow_unsigned_guest_access (ci_config info) = true /\ np_signing_required (ci_negotiation info) = false) /\
      signing_required =
        policy_required (cfg_signing_policy (ci_config info)) (np_signing_required (ci_negotiation info))
  | _ => True
  end.

Lemma session_step_policy info s s' : session_step info s s' -> policy_honoured info s'.
Proof.
  intros H. destruct H as [s key hash s' H | s flags s' H | s]; [| |done].
  - unfold si_setup in H. destruct (si_state s); try done. apply result_bind_Ok in H as (algos & _ & [= <-]). done.
  - unfold si_ready in H. destruct (si_state s) as [|algos ?| |]; try done. revert H.
    destruct (em_is_required (cfg_encryption_mode (ci_config info)) && _) eqn:E1; [done|].
    destruct (is_guest_or_null_session flags && _) eqn:E2; [done|]. intros [= <-]. unfold policy_honoured. cbn.
    split_and!; [| |done].
    + intros Hr. rewrite Hr in *. apply negb_false_iff, andb_true_iff in E1 as [H1 H2].
      apply bool_decide_eq_true in H1, H2. done.
    + intros Hg. rewrite Hg in E2. apply orb_false_iff in E2 as [H1 H2]. by apply negb_false_iff in H1.
Qed.

Lemma session_run_policy info id s : rtc (session_step info) (session_new id) s -> policy_honoured info s.
Proof.
  intros H. apply rtc_inv_r in H as [<- | (s0 & _ & H)]; [done|]. by apply session_step_policy in H.
Qed.

(** Whether the policy leaves a command without protection. *)
Definition must_sign (info : ConnectionInfo) (flags : Z) : bool :=
  negb (is_guest_or_null_session flags)
  && policy_required (cfg_signing_policy (ci_config info)) (np_signing_required (ci_negotiation info)).

Lemma policy_required_server p : policy_required p true = true.
Proof. by destruct p. Qed.

(** The protection [prepare] chooses, by what the policy asks for. *)
Lemma choose_protection_ready info s algos flags force signing command :
  policy_honoured info s -> si_state s = SI_Ready algos flags force signing ->
  exists p, choose_protection (Some info) s command = Ok p /\
    (em_is_required (cfg_encryption_mode (ci_config info)) = true -> p = Pr_Encrypt) /\
    (np_signing_required (ci_negotiation info) = true \/ must_sign info flags = true -> p = Pr_Encrypt \/ p = Pr_SignWithChannel).
Proof.
  intros Hp Hst. unfold policy_honoured in Hp. rewrite Hst in Hp.
  destruct Hp as (He & Hg & Hs). unfold choose_protection, si_is_invalid, si_is_ready, si_is_setting_up, should_encrypt, allow_unsigned.
  rewrite Hst. cbn [orb negb]. unfold mbind, result_bind.
  destruct (sf_encrypt_data flags || force) eqn:Ee; [by exists Pr_Encrypt; eauto|].
  assert (Hne : em_is_required (cfg_encryption_mode (ci_config info)) = true -> False).
  { intros Hr. destruct (He Hr) as (-> & _). by rewrite orb_true_r in Ee. }
  destruct (negb (is_guest_or_null_session flags || negb signing)) eqn:Eu; [by exists Pr_SignWithChannel; split_and!; [done|intros ?%Hne|right]|].
  unfold requires_signing, ok_or, mbind, result_bind, si_is_ready, is_guest_or_anonymous. rewrite Hst.
  destruct (np_signing_required (ci_negotiation info)) eqn:En; [by exists Pr_SignWithChannel; split_and!; [done|intros ?%Hne|right]|].
  eexists. split; [reflexivity|]. split; [by intros ?%Hne|]. intros [|Hm]; [done|]. exfalso.
  unfold must_sign in Hm. apply andb_true_iff in Hm as [H1 H2]. apply negb_true_iff in H1. rewrite En, <- Hs in H2. by rewrite H1, H2 in Eu.
Qed.

Lemma set_signed_flag flags : flag_signed (set_signed flags) = true.
Proof. unfold flag_signed, set_signed. by rewrite Z.lor_spec, orb_true_r. Qed.

(** C28: however a session came to be in use, it honours what was configured and negotiated. With encryption required it has both
    ciphers; a guest or anonymous session is in use only where the configuration allows it and the server does not require
    signing. A request that leaves its protection to the session ([security] is [None], as that of every operation on the
    session, a share or a file, those on an encrypted share apart) is prepared with the id of the session and encrypted when encryption is required, and
    encrypted, or signed and marked as signed, when signing is required by the server or by the policy of an
    authenticated session. A request that names a protection keeps it, whatever the policy: those are the negotiation and
    the requests of a session setup, so that a SESSION_SETUP that binds a channel to this session goes out with no
    protection or the one its setup gives it, and the requests of an encrypted share, which name encryption. *)
Theorem ready_session_honours_policy info id s algos flags force signing :
  rtc (session_step info) (session_new id) s -> si_state s = SI_Ready algos flags force signing ->
  (em_is_required (cfg_encryption_mode (ci_config info)) = true -> is_Some (al_encryptor algos) /\ is_Some (al_decryptor algos)) /\
  (is_guest_or_null_session flags = true ->
   cfg_allow_unsigned_guest_access (ci_config info) = true /\ np_signing_required (ci_negotiation info) = false) /\
  forall session_id msg, exists msg' p,
    prepare (Some info) s session_id msg = Ok msg' /\ cq_security msg' = Some p /\
    hd_session_id (pq_header (cq_message msg')) = session_id /\
    (p = Pr_SignWithChannel -> flag_signed (hd_flags (pq_header (cq_message msg'))) = true) /\
    match cq_security msg with
    | None =>
        (em_is_required (cfg_encryption_mode (ci_config info)) = true -> p = Pr_Encrypt) /\
        (np_signing_required (ci_negotiation info) = true \/ must_sign info flags = true -> p = Pr_Encrypt \/ p = Pr_SignWithChannel)
    | Some own => p = own
    end.
Proof.
  intros Hrun Hst. pose proof (session_run_policy _ _ _ Hrun) as Hp. pose proof Hp as Hq. unfold policy_honoured in Hq.
  rewrite Hst in Hq. destruct Hq as (He & Hg & _). split_and!; [by intros Hr; destruct (He Hr) as (_ & ? & ?)|done|]. intros session_id msg.
  assert (Hc : exists p, match cq_security msg with Some security => Ok security
      | None => choose_protection (Some info) s (hd_command (pq_header (cq_message msg))) end = Ok p /\
    match cq_security msg with
    | None => (em_is_required (cfg_encryption_mode (ci_config info)) = true -> p = Pr_Encrypt) /\
        (np_signing_required (ci_negotiation info) = true \/ must_sign info flags = true -> p = Pr_Encrypt \/ p = Pr_SignWithChannel)
    | Some own => p = own end).
  { destruct (cq_security msg) as [own|]; [by exists own|]. by eapply choose_protection_ready. }
  destruct Hc as (p & Hc & Hpol). unfold prepare. rewrite Hc. eexists _, p. split; [reflexivity|]. split_and!; [done|by destruct p| |done].
  intros ->. apply set_signed_flag.
Qed.

(** What a response must be to be accepted. *)
Lemma verify_incoming_spec {C} info s sid (incoming : CommandResponse C) algos flags force signing :
  policy_honoured info s -> si_state s = SI_Ready algos flags force signing ->
  verify_incoming (Some info) s sid incoming = Ok tt ->
  let header := ps_header (cp_message incoming) in
  hd_session_id header = sid /\ sid <> 0 /\
  (forall st, hd_get_status header = Some st -> st <> St_UserSessionDeleted /\ st <> St_NetworkSessionExpired) /\
  is_Some (hd_get_status header) /\
  (sf_encrypt_data flags || force = true -> mf_encrypted (cp_form incoming) = true) /\
  (np_signing_required (ci_negotiation info) = true \/ must_sign info flags = true ->
   signed_or_encrypted (cp_form incoming) = true).
Proof.
  intros Hp Hst H. unfold policy_honoured in Hp. rewrite Hst in Hp. destruct Hp as (He & Hg & Hs).
  unfold verify_incoming in H. cbv zeta in *. destruct (hd_get_status _) as [status|] eqn:Est; [|done].
  destruct (bool_decide (status = St_UserSessionDeleted) || _) eqn:E1; [done|].
  apply orb_false_iff in E1 as [E1 E2]. apply bool_decide_eq_false in E1, E2.
  unfold si_is_ready, should_encrypt, allow_unsigned in H. rewrite Hst in H.
  apply result_bind_Ok in H as (er & [= <-] & H). apply result_bind_Ok in H as (sa & [= <-] & H).
  apply result_bind_Ok in H as (ua & Hua & H).
  destruct (bool_decide (hd_session_id _ = 0)) eqn:E3; [done|]. apply bool_decide_eq_false in E3.
  destruct (bool_decide (hd_session_id _ ≠ sid)) eqn:E4; [done|]. apply bool_decide_eq_false, dec_stable in E4.
  destruct (negb (mf_encrypted (cp_form incoming)) && _) eqn:E5; [done|].
  destruct (negb (signed_or_encrypted (cp_form incoming)) && _) eqn:E6; [done|].
  split_and!; try done; try congruence.
  - intros st [= <-]. done.
  - intros Hreq. rewrite Hreq in E5. by destruct (mf_encrypted (cp_form incoming)).
  - intros Hreq. destruct (signed_or_encrypted (cp_form incoming)); [done|]. cbn in E6. apply negb_false_iff in E6. subst ua.
    destruct (is_guest_or_null_session flags || negb signing) eqn:E7; [|done].
    unfold requires_signing in Hua. cbn [ok_or] in Hua. unfold mbind, result_bind in Hua.
    destruct Hreq as [Hn|Hm]; [by rewrite Hn in Hua|].
    unfold must_sign in Hm. apply andb_true_iff in Hm as [H1 H2]. apply negb_true_iff in H1. by rewrite H1, Hs, H2 in E7.
Qed.
End session.

(** ** AES-256 *)

Section aes256.
Context {CR : Crypto} {CL : CryptoLaws}.

Lemma make_encrypting_algo_256 cipher key :
  key_size cipher = 32%nat -> length key = 16%nat -> make_encrypting_algo cipher key = Err CE_InvalidLength.
Proof.
  intros Hc Hk. unfold make_encrypting_algo. rewrite bool_decide_eq_false_2.
  - by rewrite bool_decide_eq_true_2 by (rewrite Hc, Hk; lia).
  - intros Hn. apply Hn. unfold encrypting_algos. destruct cipher; set_solver.
Qed.

(** an AES-256 cipher that was negotiated under SMB 3.1.1 can never be used: the key that is
    derived for it has sixteen bytes whatever the cipher, the cipher refuses it, and the
    session is not set up, whether or not encryption was wanted. *)
Lemma aes256_session_never_sets_up response state config negotiated cipher preauth hash id session_key :
  np_dialect_rev state = Smb0311 ->
  process_negotiate_request Smb0311 response state config = Some (Ok negotiated) ->
  np_encryption_cipher negotiated = Some cipher -> key_size cipher = 32%nat ->
  cfg_encryption_mode config <> EM_Disabled ->
  si_setup (session_new id) session_key (Some hash) (mkConnectionInfo negotiated Smb0311 config preauth)
  = Err (E_CryptoError CE_InvalidLength).
Proof.
  intros Hd Hn Hc Hk Hm. assert (Hrev : np_dialect_rev negotiated = Smb0311).
  { cbn [process_negotiate_request] in Hn. unfold process_negotiate_311 in Hn.
    repeat (case_match; try done); by injection Hn as <-. }
  unfold si_setup. cbn [si_state session_new]. unfold new_session. cbn [ci_negotiation].
  rewrite Hrev. cbn [Bool.eqb bool_decide]. rewrite !bool_decide_eq_true_2 by (done || by eexists). cbn [Bool.eqb negb].
  change (is_smb3 Smb0311) with true. cbv iota. unfold smb3xx_make_ciphers, smb3xx_make_cipher_pair.
  cbn [ci_dialect ci_config ci_negotiation]. rewrite Hrev, Hc.
  change (negb (supports_encryption Smb0311)) with false. cbv iota.
  assert (em_is_disabled (cfg_encryption_mode config) = false) as -> by by destruct (cfg_encryption_mode config).
  rewrite bool_decide_eq_true_2 by done. rewrite bool_decide_eq_false_2.
  2: { intros Hx. apply Hx. unfold encrypting_algos. destruct cipher; set_solver. }
  unfold mbind, result_bind. cbn [c2s_encrypt_key_derive_label s2c_encrypt_key_derive_label].
  rewrite make_encrypting_algo_256; [done|done|]. unfold kbkdf_hmacsha256. apply kbkdf_length.
Qed.
End aes256.

(** ** Witnesses *)

Definition sample_config : ConnectionConfig := mkConfig EM_Required SP_WhenRequired false false.

Definition sample_negotiated : NegotiatedProperties := mkNegotiated true None None None Smb0311.

Definition sample_negotiate_response (cipher : EncryptionCipher) : NegotiateResponse :=
  mkNegotiateResponse 0 (Some [NC_Preauth [hash_sha512]; NC_Encryption [cipher]; NC_Signing [AesGmac]]).

Definition negotiated_with (cipher : EncryptionCipher) : NegotiatedProperties :=
  mkNegotiated true (Some AesGmac) (Some cipher) None Smb0311.

Definition sample_info : ConnectionInfo :=
  mkConnectionInfo (negotiated_with Aes128Gcm) Smb0311 sample_config PH_Unsupported.

Definition sample_ready : SessionInfo :=
  Eval vm_compute in
  match @si_setup toy_crypto (session_new 7) (replicate 16 1) (Some (replicate 64 2)) sample_info with
  | Ok s => match si_ready s 0 sample_info with Ok s => s | Err _ => s end
  | Err _ => session_new 7
  end.

Lemma sample_ready_reached : rtc (@session_step toy_crypto sample_info) (session_new 7) sample_ready.
Proof.
  eapply rtc_l; [eapply (@step_setup toy_crypto) with (session_key := replicate 16 1)
    (preauth_hash := Some (replicate 64 2)); vm_compute; reflexivity|].
  eapply rtc_l; [eapply (@step_ready toy_crypto) with (flags := 0); vm_compute; reflexivity|]. apply rtc_refl.
Qed.

Definition sample_algos : SessionAlgos :=
  match si_state sample_ready with SI_Ready algos _ _ _ => algos | _ => mkAlgos None None end.

(** A READ, which leaves its protection to the session, and the SESSION_SETUP of a channel, which has none. *)
Definition policy_request (command : Command) (security : option Protection) : CommandRequest :=
  mkCommandRequest (mkPlainRequest (mkHeader 0 0 command 0 0 0 5 None None 0 0) None) None security false.

Lemma ready_session_honours_policy_witness :
  si_state sample_ready = SI_Ready sample_algos 0 true true /\ is_Some (al_encryptor sample_algos) /\
  (exists msg', prepare (Some sample_info) sample_ready 7 (policy_request Cmd_Read None) = Ok msg' /\ cq_security msg' = Some Pr_Encrypt) /\
  exists msg', prepare (Some sample_info) sample_ready 7 (policy_request Cmd_SessionSetup (Some Pr_None)) = Ok msg' /\
    cq_security msg' = Some Pr_None.
Proof.
  split; [reflexivity|].
  destruct (@ready_session_honours_policy toy_crypto sample_info 7 sample_ready sample_algos 0 true true
    sample_ready_reached eq_refl) as (H & _ & Hprepare).
  split; [exact (proj1 (H eq_refl))|]. split.
  - destruct (Hprepare 7 (policy_request Cmd_Read None)) as (msg' & p & H1 & H2 & _ & _ & H3).
    exists msg'. split; [exact H1|]. rewrite H2, (proj1 H3 eq_refl). reflexivity.
  - destruct (Hprepare 7 (policy_request Cmd_SessionSetup (Some Pr_None))) as (msg' & p & H1 & H2 & _ & _ & H3).
    exists msg'. split; [exact H1|]. rewrite H2, H3. reflexivity.
Defined.
