(* ===== verification/Wire.v ===== *)
(** The wire pipeline (crates/smb/src/runtime/wire.rs): how a request becomes a frame, by
    encoding, signing, compression and encryption, and how a frame becomes responses, by
    decryption, decompression, a walk over the compound and verification of signatures.

    The pipeline is a state that each call passes on. What the cryptographic executor and
    the CMAC batcher answer (a cancellation, a closed pool) and the random bytes of a nonce
    are arguments. A panic is [None]. *)
From S2P Require Import Prelude Effects Bytes Header Transport Compression Cmac WireOut Crypto Dialects.
From S2P Require Import Session.
Local Open Scope Z_scope.

(** ** The pipeline *)

(** [SessionAndChannel]; the session is the state its lock guards at the time of the call. *)
Record SessionAndChannel := mkSessionAndChannel {
  sac_session_id : Z;
  sac_session : SessionInfo;
  sac_channel : option ChannelInfo
}.

Record WirePipelineConfig := mkWireConfig {
  wc_compress : option CompressionCapabilities;
  wc_negotiated : bool;
  wc_conn_info : option ConnectionInfo
}.

Record WirePipeline := mkPipeline {
  wp_sessions : gmap Z SessionAndChannel;
  wp_config : WirePipelineConfig;
  wp_preauth_hash : PreauthHashState;
  wp_setup_signers : gmap Z MessageSigner
}.

#[export] Instance eta_WirePipeline : Eta WirePipeline := fun p =>
  mkPipeline (wp_sessions p) (wp_config p) (wp_preauth_hash p) (wp_setup_signers p).

Definition pipeline_default : WirePipeline := mkPipeline ∅ (mkWireConfig None false None) PH_Unsupported ∅.

(** Calls on the pipeline. *)
Notation wire := (eff WirePipeline Error).

Definition msg_err {A} (r : result SmbMsgError A) : wire A := e_lift (map_err E_SmbMsgError r).

(** What the executor and the batcher answer instead of doing the work. *)
Record CryptoAnswers := mkAnswers {
  an_executor : option Error;
  an_batcher : option Error
}.

Definition minimum_batch_cmac_bytes : Z := 1024.
Definition maximum_inline_batch_cmac_bytes : Z := 65535.

Definition should_batch (bytes : Z) : bool :=
  bool_decide (minimum_batch_cmac_bytes <= bytes <= maximum_inline_batch_cmac_bytes).

Definition minimum_offload_bytes : Z := 65536.

Definition should_offload (work_bytes : Z) : bool := bool_decide (minimum_offload_bytes <= work_bytes).

Definition should_prepare_concurrently (request : CommandRequest) : bool :=
  let signed := match cq_security request with
                | Some Pr_SignWithChannel | Some (Pr_SnapshotKdfSign _) => true
                | _ => false
                end in
  let payload_bytes := from_option zlen 0 (cq_additional_data request) in
  signed && (should_offload payload_bytes || (cq_cmac_batch_eligible request && should_batch payload_bytes)).

Section pipeline.
Context {CR : Crypto}.

(** ** Negotiation and sessions *)

Definition wp_negotiated (neg_info : ConnectionInfo) : wire unit := fun p =>
  if wc_negotiated (wp_config p) then Some (p, Err E_InvalidState)
  else
    let compress := if supports_compression (ci_dialect neg_info) && cfg_compression_enabled (ci_config neg_info)
                    then np_compression (ci_negotiation neg_info) else wc_compress (wp_config p) in
    Some (p <| wp_preauth_hash := ci_preauth_hash neg_info |>
            <| wp_config := mkWireConfig compress true (Some neg_info) |>, Ok tt).

Definition snapshot_preauth_finalized (p : WirePipeline) : result Error (option bytes) :=
  snapshot ← preauth_finish (wp_preauth_hash p);
  match snapshot with
  | PH_Finished v => Ok (Some v)
  | PH_Unsupported => Ok None
  | PH_InProgress _ => Err E_InvalidState
  end.

Definition reset_preauth_to_negotiate : wire unit := fun p =>
  match wc_conn_info (wp_config p) with
  | None => Some (p, Err E_InvalidState)
  | Some info => Some (p <| wp_preauth_hash := ci_preauth_hash info |> <| wp_setup_signers := ∅ |>, Ok tt)
  end.

Definition derive_setup_phase_signer (p : WirePipeline) (session_key : bytes) : result Error MessageSigner :=
  conn_info ← ok_or E_InvalidState (wc_conn_info (wp_config p));
  preauth_snapshot ← snapshot_preauth_finalized p;
  channel_info ← channel_new u32_max session_key preauth_snapshot conn_info;
  channel_signer channel_info.

Definition participates_in_preauth_outgoing (header : Header) : bool :=
  match hd_command header with Cmd_Negotiate | Cmd_SessionSetup => true | _ => false end.

Definition participates_in_preauth_incoming (header : Header) : bool :=
  match hd_command header with
  | Cmd_Negotiate => true
  | Cmd_SessionSetup => bool_decide (hd_status header = status_code St_MoreProcessingRequired)
  | _ => false
  end.

Definition session_started (session : SessionAndChannel) : wire unit := fun p =>
  if negb (wc_negotiated (wp_config p)) then Some (p, Err E_InvalidState)
  else Some (p <| wp_sessions := <[sac_session_id session := session]> (wp_sessions p) |>, Ok tt).

Definition session_ended (session : SessionAndChannel) : wire unit := fun p =>
  match wp_sessions p !! sac_session_id session with
  | None => Some (p, Err E_InvalidState)
  | Some _ => Some (p <| wp_sessions := delete (sac_session_id session) (wp_sessions p) |>, Ok tt)
  end.

Definition session_entry (p : WirePipeline) (session_id : Z) : result Error SessionAndChannel :=
  ok_or E_InvalidState (wp_sessions p !! session_id).

Definition get_signer (p : WirePipeline) (session_id : Z) : result Error (option MessageSigner) :=
  entry ← session_entry p session_id;
  match sac_channel entry with
  | Some channel => signer ← channel_signer channel; Ok (Some signer)
  | None => Ok (wp_setup_signers p !! session_id)
  end.

Definition is_binding (p : WirePipeline) (session_id : Z) : result Error bool :=
  entry ← session_entry p session_id;
  Ok (from_option ch_binding false (sac_channel entry)).

Definition get_encryptor (p : WirePipeline) (session_id : Z) : result Error (option EncryptingAlgo) :=
  entry ← session_entry p session_id; si_encryptor (sac_session entry).

Definition get_decryptor (p : WirePipeline) (session_id : Z) : result Error (option EncryptingAlgo) :=
  entry ← session_entry p session_id; si_decryptor (sac_session entry).

(** ** Protecting a sealed message *)

Definition compression_threshold : Z := 1024.

Context {LZ : Lz4}.

Definition protect_wire_with (w : WireMessage) (compressor : option CompressionCapabilities)
    (encryptor : option EncryptingAlgo) (random : bytes) (session_id : Z) : result Error SendFrame :=
  match compressor, encryptor with
  | None, None => map_err E_TransportError (frame_from_segments (wm_segments w) usize_max)
  | _, _ =>
      let encryption_prefix := match encryptor with Some _ => Z.of_nat encrypted_structure_size | None => 0 end in
      transformed ←
        match compressor with
        | Some caps =>
            plain ← map_err E_SmbMsgError (wm_into_contiguous w 0);
            map_err E_CompressionError (compress_transform caps plain encryption_prefix)
        | None => map_err E_SmbMsgError (wm_into_contiguous w encryption_prefix)
        end;
      transformed ←
        match encryptor with
        | None => Ok transformed
        | Some algo =>
            encrypted ← encrypt_message algo random (drop encrypted_structure_size transformed) session_id;
            let '(header, payload) := encrypted in
            Ok (write_encrypted_header header ++ payload)
        end;
      frame ← map_err E_SmbMsgError (transform_frame_from_vec transformed);
      map_err E_TransportError (frame_from_segments [frame] 1)
  end.

Definition transform_failed (outgoing : bool) (phase : TransformPhase) (session_id msg_id : option Z) : Error :=
  E_TranformFailed (mkTransformError outgoing phase session_id msg_id).

Definition protect_wire (w : WireMessage) (encrypt : bool) (random : bytes) (session_id : Z) : wire SendFrame :=
  p ← e_get;
  let compressor := if bool_decide (wm_total_len w > compression_threshold) then wc_compress (wp_config p) else None in
  encryptor ← e_lift
    (if encrypt
     then encryptor ← get_encryptor p session_id;
          match encryptor with
          | Some e => Ok (Some e)
          | None => Err (transform_failed true TP_EncryptDecrypt (Some session_id) None)
          end
     else Ok None);
  e_lift (protect_wire_with w compressor encryptor random session_id).

(** ** Outgoing messages *)

Fixpoint checked_sum (total : Z) (segments : list bytes) : option Z :=
  match segments with
  | [] => Some total
  | segment :: segments =>
      match checked_add usize_max total (zlen segment) with
      | Some total => checked_sum total segments
      | None => None
      end
  end.

(** Folds the bytes of a message into the preauthentication hash. *)
Definition ingest_preauth (data : bytes) : wire unit :=
  p ← e_get;
  hash ← e_lift (preauth_next (wp_preauth_hash p) data);
  e_modify (fun p => p <| wp_preauth_hash := hash |>).

(** Signing one member: by the batcher or by the executor. *)
Definition sign_batched (answers : CryptoAnswers) (signer : MessageSigner) (segments : list bytes)
    : option (result Error Z) :=
  match an_batcher answers with
  | Some error => Some (Err error)
  | None =>
      match calculate_cmac_batch signer [segments] with
      | None => None
      | Some (Some (Ok [signature])) => Some (Ok signature)
      | Some _ => Some (Err E_InvalidState)
      end
  end.

Definition sign_executed (answers : CryptoAnswers) (signer : MessageSigner) (header : Header) (segments : list bytes)
    : option (result Error Z) :=
  match an_executor answers with
  | Some error => Some (Err error)
  | None => snd <$> signature_for_segments signer header segments
  end.

Definition sign_single (answers : CryptoAnswers) (signer : MessageSigner) (header : Header) (eligible : bool)
    (builder : WireBuilder) : wire WireBuilder :=
  segments ← msg_err (wb_signing_segments builder 0);
  signing_bytes ← e_lift (ok_or E_InvalidMessage (checked_sum 0 segments));
  signature ←
    (if eligible && is_batchable_cmac signer && should_batch signing_bytes
     then owned ← msg_err (wb_owned_signing_segments builder 0); e_may_panic (sign_batched answers signer owned)
     else e_may_panic (sign_executed answers signer header segments));
  builder ← msg_err (wb_patch_signature builder 0 signature);
  msg_err (wb_finish_signed builder).

Definition transform_outgoing (answers : CryptoAnswers) (cancelled : bool) (random : bytes) (msg : CommandRequest)
    : wire SendFrame :=
  _ ← e_lift (if cancelled then Err E_Cancelled else Ok tt);
  protection ← e_lift (ok_or E_InvalidState (cq_security msg));
  let session_id := hd_session_id (pq_header (cq_message msg)) in
  encoded ← msg_err (wb_encode [cq_message msg] usize_max);
  let builder := encoded.1 in
  let header := from_option pq_header (pq_header (cq_message msg)) (head encoded.2) in
  builder ← msg_err (match cq_additional_data msg with
                     | Some data => wb_attach_payload builder data
                     | None => Ok builder
                     end);
  builder ← msg_err (wb_finalize_offsets builder);
  _ ← (if participates_in_preauth_outgoing header
            && negb (bool_decide (hd_command header = Cmd_SessionSetup) && flag_signed (hd_flags header))
       then segments ← msg_err (wb_signing_segments builder 0);
            match segments with
            | plain :: _ => ingest_preauth plain
            | [] => mret tt
            end
       else mret tt);
  p ← e_get;
  builder ←
    match protection with
    | Pr_SnapshotKdfSign session_key =>
        signer ← e_lift (derive_setup_phase_signer p session_key);
        sign_single answers signer header false builder
    | Pr_SignWithChannel =>
        signer ← e_lift (get_signer p session_id);
        signer ← e_lift (ok_or (transform_failed true TP_SignVerify (Some session_id) (Some (hd_message_id header))) signer);
        sign_single answers signer header (cq_cmac_batch_eligible msg) builder
    | Pr_None | Pr_Encrypt => msg_err (wb_finish_unsigned builder)
    end;
  w ← msg_err (wb_seal builder);
  _ ← match protection with
      | Pr_SnapshotKdfSign session_key =>
          _ ← ingest_preauth (wm_metadata w);
          p ← e_get;
          response_signer ← e_lift (derive_setup_phase_signer p session_key);
          e_modify (fun p => p <| wp_setup_signers := <[session_id := response_signer]> (wp_setup_signers p) |>)
      | _ => mret tt
      end;
  protect_wire w (match protection with Pr_Encrypt => true | _ => false end) random session_id.

(** ** Outgoing compounds *)

(** The members signed in order, each with its own copy of the signer. *)
Fixpoint sign_members (signer : MessageSigner) (builder : WireBuilder) (index : nat) (headers : list Header)
    : option (result Error WireBuilder) :=
  match headers with
  | [] => Some (Ok builder)
  | header :: headers =>
      match wb_signing_segments builder index with
      | Err error => Some (Err (E_SmbMsgError error))
      | Ok segments =>
          match signature_for_segments signer header segments with
          | None => None
          | Some (_, Err error) => Some (Err error)
          | Some (_, Ok signature) =>
              match wb_patch_signature builder index signature with
              | Err error => Some (Err (E_SmbMsgError error))
              | Ok builder => sign_members signer builder (S index) headers
              end
          end
      end
  end.

(** The number of bytes that are signed, over all members. *)
Fixpoint compound_signing_bytes (builder : WireBuilder) (total : Z) (indices : list nat) : result Error Z :=
  match indices with
  | [] => Ok total
  | index :: indices =>
      segments ← map_err E_SmbMsgError (wb_signing_segments builder index);
      total ← ok_or E_InvalidMessage (checked_sum total segments);
      compound_signing_bytes builder total indices
  end.

Definition is_encrypt (security : option Protection) : bool :=
  match security with Some Pr_Encrypt => true | _ => false end.

Definition transform_outgoing_compound (answers : CryptoAnswers) (random : bytes) (msgs : list CommandRequest)
    : wire SendFrame :=
  _ ← e_lift (if bool_decide (msgs = []) then Err E_InvalidArgument else Ok tt);
  _ ← e_lift (foldl (fun r m => match r with
                                | Err error => Err error
                                | Ok _ => if bool_decide (is_Some (cq_additional_data m)) then Err E_InvalidArgument
                                          else match cq_security m with None => Err E_InvalidState | Some _ => Ok tt end
                                end) (Ok tt) msgs);
  encoded ← msg_err (wb_encode (cq_message <$> msgs) 1);
  builder ← msg_err (wb_finalize_offsets encoded.1);
  let headers := pq_header <$> encoded.2 in
  let first_security := match msgs with m :: _ => cq_security m | [] => None end in
  let first_header := head headers in
  let encrypt := is_encrypt first_security in
  _ ← e_lift (if existsb (fun m => negb (Bool.eqb (is_encrypt (cq_security m)) encrypt)) msgs
              then Err E_InvalidArgument else Ok tt);
  let sign := negb encrypt && from_option (fun h => flag_signed (hd_flags h)) false first_header in
  _ ← e_lift (if existsb (fun h => negb (Bool.eqb (flag_signed (hd_flags h)) sign)) headers
              then Err E_InvalidArgument else Ok tt);
  let session_id := from_option hd_session_id 0 first_header in
  builder ←
    (if sign
     then
       p ← e_get;
       signer ← e_lift (get_signer p session_id);
       signer ← e_lift (ok_or (transform_failed true TP_SignVerify (Some session_id) None) signer);
       _ ← e_lift (compound_signing_bytes builder 0 (seq 0 (length headers)));
       _ ← e_lift (match an_executor answers with Some error => Err error | None => Ok tt end);
       builder ← e_may_panic (sign_members signer builder 0 headers);
       msg_err (wb_finish_signed builder)
     else msg_err (wb_finish_unsigned builder));
  w ← msg_err (wb_seal builder);
  protect_wire w encrypt random session_id.

(** ** Incoming messages *)

(** How the body of a response is read; of the buffer it may look at everything after the
    start of its header. [None] is a panic of the reader, [Some None] a body that it refuses. *)
Context {C : Type} (read_content : Header -> bytes -> option (option C)).

(** A response is read with the server-to-client flag set. *)
Definition read_plain_response (bs : bytes) : option (option (PlainResponse C)) :=
  match read_header bs with
  | None => Some None
  | Some (header, _) =>
      if flag_server_to_redir (hd_flags header)
      then match read_content header bs with
           | None => None
           | Some content => Some (mkPlainResponse header <$> content)
           end
      else Some None
  end.

Inductive Response :=
| R_Plain (p : PlainResponse C)
| R_Encrypted (m : EncryptedMessage)
| R_Compressed (m : CompressedMessage)
| R_Panic.

(** The variants in their order; [R_Panic] stands for a panic: of the reader of a body, or, where
    overflow is checked, the overflowing subtraction of a compressed item. *)
Definition read_response (bs : bytes) : option Response :=
  match read_plain_response bs with
  | None => Some R_Panic
  | Some (Some p) => Some (R_Plain p)
  | Some None =>
      match read_encrypted_message bs with
      | Some m => Some (R_Encrypted m)
      | None =>
          match read_compressed bs with
          | RdOk m _ => Some (R_Compressed m)
          | RdOverflow => Some R_Panic
          | RdEof | RdBad => None
          end
      end
  end.

Definition is_binding_session_setup_signed (p : WirePipeline) (header : Header) : bool :=
  if bool_decide (hd_command header ≠ Cmd_SessionSetup) || bool_decide (hd_signature header = 0) then false
  else match is_binding p (hd_session_id header) with Ok b => b | Err _ => false end.

(** [owned_verification_segments] *)
Definition owned_verification_segments (raw : bytes) : result Error (list bytes) :=
  if bool_decide (length raw < 64)%nat then Err E_InvalidMessage
  else Ok [splice 48 (replicate 16 0) (take 64 raw); drop 64 raw].

(** [verify_plain_incoming]: the form of the message, as far as it is authenticated. *)
Definition verify_plain_incoming (answers : CryptoAnswers) (header : Header) (raw : bytes) (form : MessageForm)
    : wire MessageForm :=
  p ← e_get;
  if bool_decide (hd_status header = status_code St_UserSessionDeleted)
     || bool_decide (hd_status header = status_code St_NetworkSessionExpired)
  then mret (form <| mf_unauthenticated_recovery_hint := true |>)
  else if mf_encrypted form || bool_decide (hd_message_id header = u64_max)
          || bool_decide (hd_status header = status_code St_Pending)
          || negb (flag_signed (hd_flags header) || is_binding_session_setup_signed p header)
  then mret form
  else
    let session_id := hd_session_id header in
    signer ← e_lift (get_signer p session_id);
    signer ← e_lift (ok_or (transform_failed false TP_SignVerify (Some session_id) (Some (hd_message_id header))) signer);
    _ ← (if is_batchable_cmac signer && should_batch (zlen raw)
         then segments ← e_lift (owned_verification_segments raw);
              calculated ← e_may_panic (sign_batched answers signer segments);
              e_lift (if bool_decide (calculated ≠ hd_signature header) then Err E_SignatureVerificationFailed else Ok tt)
         else match an_executor answers with
              | Some error => e_lift (Err error)
              | None => e_may_panic (snd <$> verify_signature signer header raw)
              end);
    _ ← (if bool_decide (hd_command header = Cmd_SessionSetup) && bool_decide (hd_status header = status_code St_Success)
         then e_modify (fun p => p <| wp_setup_signers := delete session_id (wp_setup_signers p) |>)
         else mret tt);
    mret (form <| mf_signed := true |>).

(** The loop over the compound: the response in hand and the bytes from its header on. *)
Fixpoint walk_compound (fuel : nat) (answers : CryptoAnswers) (form : MessageForm) (current : PlainResponse C)
    (remaining : bytes) (out : list (CommandResponse C)) : wire (list (CommandResponse C)) :=
  match fuel with
  | O => e_panic
  | S fuel =>
      let header := ps_header current in
      let next_offset := Z.to_nat (hd_next_command header) in
      this_slice ← e_lift
        (if bool_decide (0 < next_offset)%nat
         then if bool_decide (length remaining < next_offset)%nat then Err E_InvalidMessage
              else Ok (take next_offset remaining)
         else Ok remaining);
      _ ← (if participates_in_preauth_incoming header then ingest_preauth this_slice else mret tt);
      member_form ← e_map_err
        (fun _ => transform_failed false TP_SignVerify (Some (hd_session_id header)) (Some (hd_message_id header)))
        (verify_plain_incoming answers header this_slice form);
      let out := out ++ [mkCommandResponse current this_slice member_form] in
      if bool_decide (next_offset = O) then mret out
      else
        let remaining := drop next_offset remaining in
        match read_response remaining with
        | None => e_lift (Err E_BinRWError)
        | Some R_Panic => e_panic
        | Some (R_Plain next) => walk_compound fuel answers form next remaining out
        | Some _ => e_lift (Err E_InvalidMessage)
        end
  end.

Definition transform_incoming_all (answers : CryptoAnswers) (data : bytes) : wire (list (CommandResponse C)) :=
  message ← e_lift (ok_or (E_SmbMsgError ME_BinRWError) (read_response data));
  p ← e_get;
  decrypted ←
    match message with
    | R_Encrypted m =>
        let session_id := eh_session_id (em_header m) in
        decryptor ← e_lift (get_decryptor p session_id);
        decryptor ← e_lift (ok_or (transform_failed false TP_EncryptDecrypt (Some session_id) None) decryptor);
        inner ← e_lift (decrypt_message read_response decryptor m);
        mret (inner.1, inner.2, default_form <| mf_encrypted := true |>)
    | other => mret (other, data, default_form)
    end;
  let '(message, raw, form) := decrypted in
  decompressed ←
    match message with
    | R_Compressed m =>
        match wc_compress (wp_config p) with
        | Some caps =>
            match decompress read_response caps m with
            | None => e_panic
            | Some (Err error) => e_lift (Err (E_CompressionError error))
            | Some (Ok (inner, bs)) => mret (inner, bs, form <| mf_compressed := true |>)
            end
        | None => e_lift (Err (transform_failed false TP_CompressDecompress None None))
        end
    | other => mret (other, raw, form)
    end;
  let '(message, raw, form) := decompressed in
  match message with
  | R_Plain plain => walk_compound (S (length raw)) answers form plain raw []
  | R_Panic => e_panic
  | _ => e_lift (Err E_InvalidMessage)
  end.

End pipeline.
