(* ===== verification/WireProps.v ===== *)
(** What the wire pipeline guarantees: which responses are authenticated and by what, that
    the walk over a compound ends and splits the frame, and that what the client signs and
    encrypts a peer with the same keys accepts. *)
From S2P Require Import Prelude Effects Bytes Header Transport Compression CompressionProps Cmac WireOut.
From S2P Require Import Crypto Dialects Session Wire.
Local Open Scope Z_scope.

(** ** Signers of the pipeline *)

Section props.
Context {CR : Crypto} {CL : CryptoLaws}.

(** A signer as it is made, not used yet. *)
Definition signer_ok (s : MessageSigner) : Prop := exists id key, make_signing_algo id key = Ok (sg_algo s).

Lemma signer_ok_fresh s : signer_ok s -> fresh_signer s.
Proof.
  intros (id & key & H). unfold make_signing_algo in H. case_bool_decide; [done|].
  injection H as H. unfold fresh_signer. rewrite <- H. destruct id; by try eexists.
Qed.

Lemma new_channel_signer_ok key hash info s : new_channel key hash info = Ok s -> signer_ok s.
Proof.
  unfold new_channel, smb3xx_make_signer, smb2_make_signer. intros H. destruct (is_smb3 _).
  - apply result_bind_Ok in H as (label & _ & H). cbv zeta in H. apply result_bind_Ok in H as (algo & Ha & [= <-]).
    destruct (make_signing_algo _ _) eqn:E in Ha; [|done]. injection Ha as ->. by eexists _, _.
  - apply result_bind_Ok in H as (algo & Ha & [= <-]).
    destruct (make_signing_algo _ _) eqn:E in Ha; [|done]. injection Ha as ->. by eexists _, _.
Qed.

Lemma channel_new_ok id key hash info c : channel_new id key hash info = Ok c -> signer_ok (ch_signer c).
Proof. unfold channel_new. intros H. apply result_bind_Ok in H as (s & Hs & [= <-]). by eapply new_channel_signer_ok. Qed.

(** Every signer the pipeline holds is fresh. *)
Record pipeline_ok (p : WirePipeline) : Prop := {
  po_channel sid e c : wp_sessions p !! sid = Some e -> sac_channel e = Some c -> signer_ok (ch_signer c);
  po_setup sid s : wp_setup_signers p !! sid = Some s -> signer_ok s
}.

Lemma get_signer_ok p sid s : pipeline_ok p -> get_signer p sid = Ok (Some s) -> signer_ok s.
Proof.
  intros [H1 H2] H. unfold get_signer, session_entry in H. apply result_bind_Ok in H as (e & He & H).
  apply ok_or_Ok in He. destruct (sac_channel e) as [c|] eqn:Ec.
  - apply result_bind_Ok in H as (s' & Hs & [= ->]). unfold channel_signer in Hs.
    destruct (ch_valid c); [|done]. injection Hs as <-. eauto.
  - injection H as H. eauto.
Qed.

Lemma derive_setup_phase_signer_ok p key s : derive_setup_phase_signer p key = Ok s -> signer_ok s.
Proof.
  unfold derive_setup_phase_signer. intros H. apply result_bind_Ok in H as (info & _ & H).
  apply result_bind_Ok in H as (snap & _ & H). apply result_bind_Ok in H as (c & Hc & H).
  unfold channel_signer in H. destruct (ch_valid c); [|done]. injection H as <-. by eapply channel_new_ok.
Qed.

(** ** Reasoning about calls *)

Lemma triple_msg {A} P (r : result SmbMsgError A) : triple P (msg_err r : wire A) (fun a => r = Ok a).
Proof. apply triple_lift. intros a Ha. destruct r; [by injection Ha as ->|done]. Qed.

(** A property of the pipeline that the hash does not matter to. *)
Lemma triple_ingest (P : WirePipeline -> Prop) data :
  (forall p h, P p -> P (p <| wp_preauth_hash := h |>)) -> triple P (ingest_preauth data) (fun _ => True).
Proof.
  intros HP. unfold ingest_preauth. eapply triple_bind; [apply triple_get|]. intros p _.
  eapply triple_bind; [by apply (triple_lift _ _ (fun _ => True))|]. intros h _.
  apply triple_modify. auto.
Qed.

(** Properties the preauthentication hash does not matter to. *)
Lemma pipeline_ok_hash p h : pipeline_ok p -> pipeline_ok (p <| wp_preauth_hash := h |>).
Proof. intros [H1 H2]. by split. Qed.

Lemma pipeline_ok_setup p sid s :
  pipeline_ok p -> signer_ok s -> pipeline_ok (p <| wp_setup_signers := <[sid := s]> (wp_setup_signers p) |>).
Proof.
  intros [H1 H2] Hs. split; cbn; [done|]. intros sid' s'. rewrite lookup_insert_Some. naive_solver.
Qed.

Lemma pipeline_ok_forget p sid :
  pipeline_ok p -> pipeline_ok (p <| wp_setup_signers := delete sid (wp_setup_signers p) |>).
Proof. intros [H1 H2]. split; cbn; [done|]. intros sid' s' [_ H]%lookup_delete_Some. eauto. Qed.

Local Hint Resolve pipeline_ok_hash pipeline_ok_setup pipeline_ok_forget : smb.

(** Steps that only compute. *)
Ltac calls :=
  repeat first
    [ apply triple_ingest; solve [auto with smb]
    | lazymatch goal with |- triple _ (_ ≫= _) _ => eapply triple_bind end; [first
        [ apply triple_get | apply triple_msg | apply triple_panic
        | apply triple_ingest; solve [auto with smb] | apply triple_lift_eq ]
      |intros ? ?]
    | apply (triple_weaken _ _ _ (fun _ => True) (triple_msg _ _)); done
    | by apply (triple_lift _ _ (fun _ => True))
    | by apply (triple_ret _ _ (fun _ => True)) ].

(** The branches of a call that chooses. *)
Ltac branch := match goal with |- triple _ (match ?x with _ => _ end) _ => destruct x end.

Section outgoing.
Context {LZ : Lz4}.

Lemma sign_single_keeps P answers signer header eligible builder :
  triple P (sign_single answers signer header eligible builder) (fun _ => True).
Proof.
  unfold sign_single. calls. eapply triple_bind.
  - destruct (_ && should_batch _); [calls|]; apply triple_weaken with (2 := fun _ _ => I); apply triple_panic.
  - intros. calls.
Qed.

Lemma protect_wire_keeps P w encrypt random sid : triple P (protect_wire w encrypt random sid) (fun _ => True).
Proof. unfold protect_wire. calls. Qed.

Lemma transform_outgoing_keeps answers cancelled random msg :
  triple pipeline_ok (transform_outgoing answers cancelled random msg) (fun _ => True).
Proof.
  unfold transform_outgoing. calls. eapply triple_bind with (Q := fun _ => True).
  { branch; calls; branch; calls. }
  intros _ _. calls. eapply triple_bind with (Q := fun _ => True).
  { branch; calls; try apply sign_single_keeps. }
  intros builder _. calls. eapply triple_bind with (Q := fun _ => True).
  - branch; calls. apply triple_modify.
    intros q Hq. cbn beta in *. eauto using derive_setup_phase_signer_ok with smb.
  - intros _ _. apply protect_wire_keeps.
Qed.

Lemma transform_outgoing_compound_keeps P answers random msgs :
  triple P (transform_outgoing_compound answers random msgs) (fun _ => True).
Proof.
  unfold transform_outgoing_compound. calls. eapply triple_bind with (Q := fun _ => True).
  - branch; calls.
  - intros builder _. calls. apply protect_wire_keeps.
Qed.
End outgoing.

(** ** Incoming messages *)

(** The pipeline after some responses were read: what may have changed is the hash, and
    setup signers that are no longer needed. *)
Record later (p q : WirePipeline) : Prop := {
  la_sessions : wp_sessions q = wp_sessions p;
  la_config : wp_config q = wp_config p;
  la_setup : wp_setup_signers q ⊆ wp_setup_signers p
}.

#[local] Instance later_preorder : PreOrder later.
Proof.
  split.
  - intros p. by split.
  - intros p q r [H1 H2 H3] [H4 H5 H6]. split; try congruence. by trans (wp_setup_signers q).
Qed.

Lemma later_pipeline_ok p q : later p q -> pipeline_ok p -> pipeline_ok q.
Proof.
  intros [Hs _ Hx] [H1 H2]. split.
  - intros sid e c. rewrite Hs. apply H1.
  - intros sid s Hl. eapply H2, lookup_weaken; eauto.
Qed.

Lemma later_get_signer p q sid s : later p q -> get_signer q sid = Ok (Some s) -> get_signer p sid = Ok (Some s).
Proof.
  intros [Hs _ Hx]. unfold get_signer, session_entry. rewrite Hs. destruct (wp_sessions p !! sid) as [e|]; [|done].
  cbn. destruct (sac_channel e); [done|]. intros [= H]. f_equal. eapply lookup_weaken; eauto.
Qed.

Lemma ingest_preauth_later data p q u : ingest_preauth data p = Some (q, Ok u) -> later p q.
Proof.
  unfold ingest_preauth. rewrite eff_bind_Ok. intros (q1 & a & [= <- <-] & H). rewrite eff_bind_Ok in H.
  destruct H as (q2 & h & H & [= <- <-]). apply e_lift_Ok in H as [-> _]. by split.
Qed.

(** The signature of a message is the one the signer of its session computes over it. *)
Definition authenticated (p : WirePipeline) (header : Header) (raw : bytes) : Prop :=
  exists signer signer', get_signer p (hd_session_id header) = Ok (Some signer) /\
    calculate_signature_bytes signer header raw = Some (signer', Ok (hd_signature header)).

(** The batcher computes what the signer would. *)
Lemma sign_batched_calculates answers signer header raw segments s :
  signer_ok signer -> is_batchable_cmac signer = true -> owned_verification_segments raw = Ok segments ->
  should_batch (zlen raw) = true -> sign_batched answers signer segments = Some (Ok s) ->
  exists signer', calculate_signature_bytes signer header raw = Some (signer', Ok s).
Proof.
  intros (id & key & Hs) Hb Hseg Hl H. unfold owned_verification_segments in Hseg.
  destruct (bool_decide (length raw < 64)%nat) eqn:E64; [done|].
  assert (segments = [splice 48 (replicate 16 0) (take 64 raw); drop 64 raw]) as -> by congruence. clear Hseg.
  unfold make_signing_algo in Hs. destruct (bool_decide (id ∉ _)); [done|]. injection Hs as Hs.
  unfold is_batchable_cmac in Hb. unfold sign_batched, calculate_cmac_batch in H.
  destruct (an_batcher answers); [done|]. unfold calculate_signature_bytes. rewrite E64. cbv zeta.
  rewrite <- Hs in *. destruct id; [done| |done].
  assert (Hlen : zlen (concat [splice 48 (replicate 16 0) (take 64 raw); drop 64 raw]) <= usize_max).
  { unfold should_batch, maximum_inline_batch_cmac_bytes in Hl. apply bool_decide_eq_true in Hl.
    apply bool_decide_eq_false in E64. unfold zlen in *. cbn [concat]. rewrite app_nil_r, length_app, length_drop.
    unfold splice. rewrite !length_app, !length_take, length_drop, length_replicate, length_take. unfold usize_max. lia. }
  rewrite sign_batch_spec in H by (constructor; [exact Hlen|constructor]). cbn in H. injection H as <-.
  cbn. eexists. unfold splice. by rewrite app_nil_r.
Qed.

(** What the answer of [verify_plain_incoming] says. *)
Inductive checked (p : WirePipeline) (header : Header) (raw : bytes) (form : MessageForm) : MessageForm -> Prop :=
| checked_signed : authenticated p header raw -> checked p header raw form (form <| mf_signed := true |>)
| checked_hint :
    hd_status header = status_code St_UserSessionDeleted \/ hd_status header = status_code St_NetworkSessionExpired ->
    checked p header raw form (form <| mf_unauthenticated_recovery_hint := true |>)
| checked_exempt :
    mf_encrypted form = true \/ hd_message_id header = u64_max \/ hd_status header = status_code St_Pending \/
    flag_signed (hd_flags header) = false ->
    checked p header raw form form.

Lemma verify_plain_incoming_spec answers header raw form p q form' :
  pipeline_ok p -> verify_plain_incoming answers header raw form p = Some (q, Ok form') ->
  later p q /\ checked p header raw form form'.
Proof.
  intros Hok. unfold verify_plain_incoming. rewrite eff_bind_Ok. intros (q0 & p0 & [= <- <-] & H).
  destruct (bool_decide (hd_status header = status_code St_UserSessionDeleted) || _) eqn:E1.
  { apply eff_ret_Ok in H as [-> <-]. split; [done|]. apply checked_hint.
    apply orb_true_iff in E1 as [E1|E1]; apply bool_decide_eq_true in E1; auto. }
  destruct (mf_encrypted form || _ || _ || _) eqn:E2.
  { apply eff_ret_Ok in H as [-> <-]. split; [done|]. apply checked_exempt.
    rewrite !orb_true_iff, !bool_decide_eq_true, negb_true_iff, orb_false_iff in E2. naive_solver. }
  rewrite eff_bind_Ok in H. destruct H as (q1 & o & H1 & H). apply e_lift_Ok in H1 as [-> H1].
  rewrite eff_bind_Ok in H. destruct H as (q1 & signer & H2 & H). apply e_lift_Ok in H2 as [-> H2].
  apply ok_or_Ok in H2 as ->. rewrite eff_bind_Ok in H. destruct H as (q1 & [] & H3 & H).
  assert (q1 = p /\ authenticated p header raw) as [-> Ha].
  { destruct (is_batchable_cmac signer && _) eqn:E3.
    - apply andb_true_iff in E3 as [Eb El]. rewrite eff_bind_Ok in H3. destruct H3 as (q2 & segs & H3 & H4).
      apply e_lift_Ok in H3 as [-> H3]. rewrite eff_bind_Ok in H4. destruct H4 as (q2 & calc & H4 & H5).
      apply e_may_panic_Ok in H4 as [-> H4]. apply e_lift_Ok in H5 as [-> H5]. split; [done|].
      destruct (bool_decide (calc ≠ _)) eqn:E5; [done|]. apply bool_decide_eq_false, dec_stable in E5 as ->.
      destruct (sign_batched_calculates _ _ header _ _ _ (get_signer_ok _ _ _ Hok H1) Eb H3 El H4) as [s' Hs'].
      by exists signer, s'.
    - destruct (an_executor answers); [by apply e_lift_Ok in H3 as [_ ?]|].
      apply e_may_panic_Ok in H3 as [-> H3]. split; [done|]. unfold verify_signature in H3.
      destruct (calculate_signature_bytes signer header raw) as [[s' [calc|]]|] eqn:Ec; [|done|done].
      destruct (bool_decide (calc ≠ _)) eqn:E5; [done|]. apply bool_decide_eq_false, dec_stable in E5 as ->.
      by exists signer, s'. }
  rewrite eff_bind_Ok in H. destruct H as (q2 & [] & H4 & H). apply eff_ret_Ok in H as [-> <-].
  split; [|by apply checked_signed].
  destruct (_ && _) in H4; [|by apply eff_ret_Ok in H4 as [-> _]].
  injection H4 as <-. split; cbn; [done..|]. apply delete_subseteq.
Qed.

Lemma authenticated_later p q header raw : later p q -> authenticated q header raw -> authenticated p header raw.
Proof. intros Hl (s & s' & H1 & H2). exists s, s'. split; [by eapply later_get_signer|done]. Qed.

Lemma checked_later p q header raw form form' :
  later p q -> checked q header raw form form' -> checked p header raw form form'.
Proof. intros Hl []; constructor; eauto using authenticated_later. Qed.

Section incoming.
Context {LZ : Lz4} {C : Type} (read_content : Header -> bytes -> option (option C)).

(** A reader panics on these bytes: the reader of the body, or of compressed items. *)
Definition reading_panics (bs : bytes) : Prop :=
  read_plain_response read_content bs = None \/ read_compressed bs = RdOverflow.

Lemma read_response_Some bs r :
  read_response read_content bs = Some r ->
  match r with
  | R_Plain x => read_plain_response read_content bs = Some (Some x)
  | R_Encrypted m => read_encrypted_message bs = Some m
  | R_Compressed m => exists rest, read_compressed bs = RdOk m rest
  | R_Panic => reading_panics bs
  end.
Proof.
  unfold read_response, reading_panics.
  destruct (read_plain_response read_content bs) as [[x|]|] eqn:E1; [by intros [= <-]| |intros [= <-]; by left].
  destruct (read_encrypted_message bs) eqn:E2; [by intros [= <-]|].
  destruct (read_compressed bs) eqn:E3; intros [= <-]; eauto.
Qed.

(** An encrypted message has another magic than a plain one. *)
Lemma read_response_encrypted bs m :
  read_encrypted_message bs = Some m -> read_response read_content bs = Some (R_Encrypted m).
Proof.
  intros H. unfold read_response. rewrite H. unfold read_plain_response.
  destruct (read_header bs) as [[h rest]|] eqn:E; [|done]. exfalso.
  unfold read_encrypted_message in H. destruct (read_encrypted_header bs) as [[e rest']|] eqn:E'; [|done]. clear H.
  unfold read_encrypted_header in E'. unfold read_header in E.
  apply reader_bind_Some in E as (magic & r1 & E1 & E). apply reader_bind_Some in E as ([] & r2 & E2 & _).
  apply reader_bind_Some in E' as (magic' & r1' & E1' & E'). apply reader_bind_Some in E' as ([] & r2' & E2' & _).
  rewrite E1 in E1'. injection E1' as <- <-. apply read_guard_Some in E2 as [E2 _]. apply read_guard_Some in E2' as [E2' _].
  apply bool_decide_eq_true in E2, E2'. rewrite E2 in E2'. discriminate E2'.
Qed.

(** A member of the answer: its form is justified, and its message was read where its
    bytes begin. *)
Definition member_checked (p : WirePipeline) (form : MessageForm) (r : CommandResponse C) : Prop :=
  checked p (ps_header (cp_message r)) (cp_raw r) form (cp_form r) /\
  exists after, read_plain_response read_content (cp_raw r ++ after) = Some (Some (cp_message r)).

Lemma walk_compound_spec answers form fuel : forall current remaining out p q res,
  pipeline_ok p -> read_plain_response read_content remaining = Some (Some current) ->
  walk_compound read_content fuel answers form current remaining out p = Some (q, Ok res) ->
  later p q /\ exists ms, res = out ++ ms /\ ms <> [] /\ concat (cp_raw <$> ms) = remaining /\
    Forall (member_checked p form) ms.
Proof.
  induction fuel as [|fuel IH]; intros current remaining out p q res Hok Hread H; [done|].
  cbn [walk_compound] in H. set (header := ps_header current) in *. set (next := Z.to_nat (hd_next_command header)) in *.
  rewrite eff_bind_Ok in H. destruct H as (q1 & slice & H1 & H). apply e_lift_Ok in H1 as [-> H1].
  rewrite eff_bind_Ok in H. destruct H as (q1 & [] & H2 & H).
  assert (L1 : later p q1).
  { destruct (participates_in_preauth_incoming header); [by eapply ingest_preauth_later|by apply eff_ret_Ok in H2 as [-> _]]. }
  rewrite eff_bind_Ok in H. destruct H as (q2 & form' & H3 & H). cbv zeta in H.
  apply e_map_err_Ok in H3. apply verify_plain_incoming_spec in H3 as [L2 Hc]; [|by eapply later_pipeline_ok].
  assert (L : later p q2) by by trans q1.
  set (r := mkCommandResponse current slice form') in *.
  assert (Hslice : exists after, remaining = slice ++ after /\ after = (if bool_decide (next = O) then [] else drop next remaining)).
  { destruct (bool_decide (0 < next)%nat) eqn:E0.
    - destruct (bool_decide (length remaining < next)%nat) eqn:E1; [done|]. injection H1 as <-.
      apply bool_decide_eq_true in E0. exists (drop next remaining). rewrite bool_decide_eq_false_2 by lia.
      by rewrite take_drop.
    - injection H1 as <-. apply bool_decide_eq_false in E0. exists []. rewrite bool_decide_eq_true_2 by lia. by rewrite app_nil_r. }
  destruct Hslice as (after & Hrem & Hafter).
  assert (Hr : member_checked p form r).
  { split; cbn; [by apply (checked_later p q1)|]. exists after. by rewrite <- Hrem. }
  destruct (bool_decide (next = O)) eqn:E0.
  - apply eff_ret_Ok in H as [-> <-]. split; [done|]. exists [r]. subst after. rewrite app_nil_r in Hrem.
    split_and!; [done..| |by constructor]. cbn. by rewrite app_nil_r.
  - rewrite <- Hafter in H. destruct (read_response read_content after) as [[nxt| | |]|] eqn:Er; try done.
    apply read_response_Some in Er.
    destruct (IH _ _ _ _ _ _ (later_pipeline_ok _ _ L Hok) Er H) as (L3 & ms & -> & Hne & Hcat & Hms).
    split; [by trans q2|]. exists (r :: ms). rewrite <- app_assoc. split_and!; [done..| |].
    + cbn. by rewrite Hcat, <- Hrem.
    + constructor; [done|]. eapply Forall_impl; [exact Hms|]. intros x [Hx1 Hx2]. split; [by eapply checked_later|done].
Qed.

(** How the members of a frame were uncovered: the bytes inside the encryption, and the
    bytes inside the compression. *)
Inductive decrypts (p : WirePipeline) (data : bytes) : bytes -> MessageForm -> Prop :=
| decrypts_plain : decrypts p data data default_form
| decrypts_aead m algo inner :
    read_encrypted_message data = Some m -> get_decryptor p (eh_session_id (em_header m)) = Ok (Some algo) ->
    algo_decrypt algo (em_encrypted_message m) (aead_bytes (em_header m)) (eh_nonce (em_header m))
      (eh_signature (em_header m)) = Ok inner ->
    decrypts p data inner (default_form <| mf_encrypted := true |>).

Inductive decompresses (p : WirePipeline) (body : bytes) (form : MessageForm) : bytes -> MessageForm -> Prop :=
| decompresses_plain : decompresses p body form body form
| decompresses_with caps m rest raw :
    wc_compress (wp_config p) = Some caps -> read_compressed body = RdOk m rest ->
    decompress_bytes caps m = Some (Ok raw) ->
    decompresses p body form raw (form <| mf_compressed := true |>).

(** The steps of [transform_incoming_all] that uncover the members. *)
Lemma incoming_decrypts (message : Response) data p q message1 body form0 :
  read_response read_content data = Some message ->
  match message with
  | R_Encrypted m =>
      decryptor ← e_lift (get_decryptor p (eh_session_id (em_header m)));
      decryptor ← e_lift (ok_or (transform_failed false TP_EncryptDecrypt (Some (eh_session_id (em_header m))) None) decryptor);
      inner ← e_lift (decrypt_message (read_response read_content) decryptor m);
      mret (inner.1, inner.2, default_form <| mf_encrypted := true |>)
  | other => mret (other, data, default_form)
  end p = Some (q, Ok (message1, body, form0)) ->
  q = p /\ decrypts p data body form0 /\ read_response read_content body = Some message1.
Proof.
  intros H1 H2. destruct message as [x|m|m|]; try (apply eff_ret_Ok in H2 as [-> [= <- <- <-]]; by repeat constructor).
  apply read_response_Some in H1. rewrite eff_bind_Ok in H2. destruct H2 as (q2 & d & H2 & H3).
  apply e_lift_Ok in H2 as [-> H2]. rewrite eff_bind_Ok in H3. destruct H3 as (q2 & algo & H4 & H3).
  apply e_lift_Ok in H4 as [-> H4]. apply ok_or_Ok in H4 as ->. rewrite eff_bind_Ok in H3.
  destruct H3 as (q2 & [r b] & H4 & H3). apply e_lift_Ok in H4 as [-> H4]. apply eff_ret_Ok in H3 as [-> [= <- <- <-]].
  unfold decrypt_message in H4. destruct (bool_decide (zlen _ ≠ _)); [done|]. destruct (bool_decide (Exists _ _)); [done|].
  destruct (algo_decrypt _ _ _ _ _) as [inner|] eqn:Ea; [|done].
  destruct (read_response read_content inner) as [r'|] eqn:Er; [|done]. injection H4 as -> ->.
  split; [done|]. split; [by econstructor|done].
Qed.

Lemma incoming_decompresses (message1 : Response) p q body form0 message2 raw form :
  read_response read_content body = Some message1 ->
  match message1 with
  | R_Compressed m =>
      match wc_compress (wp_config p) with
      | Some caps =>
          match decompress (read_response read_content) caps m with
          | None => e_panic
          | Some (Err error) => e_lift (Err (E_CompressionError error))
          | Some (Ok (inner, bs)) => mret (inner, bs, form0 <| mf_compressed := true |>)
          end
      | None => e_lift (Err (transform_failed false TP_CompressDecompress None None))
      end
  | other => mret (other, body, form0)
  end p = Some (q, Ok (message2, raw, form)) ->
  q = p /\ decompresses p body form0 raw form /\ read_response read_content raw = Some message2.
Proof.
  intros Hm1 H3. destruct message1 as [x|m|m|]; try (apply eff_ret_Ok in H3 as [-> [= <- <- <-]]; by repeat constructor).
  apply read_response_Some in Hm1 as [rest Hm1]. destruct (wc_compress (wp_config p)) as [caps|] eqn:Ec; [|done].
  unfold decompress in H3. destruct (decompress_bytes caps m) as [[bs|]|] eqn:Eb; [|done|done].
  destruct (read_response read_content bs) as [r|] eqn:Er; [|done]. apply eff_ret_Ok in H3 as [-> [= <- <- <-]].
  split; [done|]. split; [by econstructor|done].
Qed.

Lemma transform_incoming_all_spec answers data p q out :
  pipeline_ok p -> transform_incoming_all read_content answers data p = Some (q, Ok out) ->
  later p q /\ out <> [] /\ exists body form0 raw form,
    decrypts p data body form0 /\ decompresses p body form0 raw form /\
    concat (cp_raw <$> out) = raw /\ Forall (member_checked p form) out.
Proof.
  intros Hok. unfold transform_incoming_all. rewrite eff_bind_Ok. intros (q1 & message & H1 & H).
  apply e_lift_Ok in H1 as [-> H1]. apply ok_or_Ok in H1. rewrite eff_bind_Ok in H.
  destruct H as (q1 & p1 & [= <- <-] & H). rewrite eff_bind_Ok in H. destruct H as (q1 & [[message1 body] form0] & H2 & H).
  apply incoming_decrypts in H2 as (-> & Hd & Hm1); [|done].
  cbv beta iota in H. rewrite eff_bind_Ok in H. destruct H as (q1 & [[message2 raw] form] & H3 & H).
  apply incoming_decompresses in H3 as (-> & Hz & Hm2); [|done].
  cbv beta iota in H. destruct message2 as [x| | |]; try done. apply read_response_Some in Hm2.
  apply walk_compound_spec in H as (L & ms & -> & Hne & Hcat & Hms); [|done|done]. cbn in *.
  split; [done|]. split; [done|]. by exists body, form0, raw, form.
Qed.

(** The same calls, whatever they answer, keep the signers fresh. *)
Lemma verify_plain_incoming_keeps answers header raw form :
  triple pipeline_ok (verify_plain_incoming answers header raw form) (fun _ => True).
Proof.
  unfold verify_plain_incoming. calls. branch; [calls|]. branch; calls. eapply triple_bind with (Q := fun _ => True).
  - branch; calls. branch; calls. apply triple_weaken with (2 := fun _ _ => I); apply triple_panic.
  - intros _ _. eapply triple_bind with (Q := fun _ => True); [|intros; calls].
    branch; calls. apply triple_modify. auto with smb.
Qed.

Lemma walk_compound_keeps answers form fuel : forall current remaining out,
  triple pipeline_ok (walk_compound read_content fuel answers form current remaining out) (fun _ => True).
Proof.
  induction fuel as [|fuel IH]; intros current remaining out; [by intros ? ? ? ? [=]|].
  cbn [walk_compound]. calls. eapply triple_bind with (Q := fun _ => True); [branch; calls|]. intros _ _.
  eapply triple_bind with (Q := fun _ => True).
  - apply triple_map_err, verify_plain_incoming_keeps.
  - intros f _. branch; [calls|]. branch; [|calls]. branch; [apply IH|calls|calls|by intros ? ? ? ? [=]].
Qed.

Lemma transform_incoming_all_keeps answers data :
  triple pipeline_ok (transform_incoming_all read_content answers data) (fun _ => True).
Proof.
  unfold transform_incoming_all. calls. eapply triple_bind with (Q := fun _ => True); [branch; calls|].
  intros [[message body] form0] _. eapply triple_bind with (Q := fun _ => True).
  - branch; calls. branch; calls. branch; [branch|by intros ? ? ? ? [=]]; [|calls]. branch. calls.
  - intros [[message1 raw] form] _. branch; [apply walk_compound_keeps|calls|calls|by intros ? ? ? ? [=]].
Qed.

(** ** Pipelines that occur

    What the connection does with its pipeline, with what the sessions that are registered
    in it do in the meantime: their channels are made and installed, and their states change. *)
Inductive pipeline_step : WirePipeline -> WirePipeline -> Prop :=
| ps_negotiated info p p' r : wp_negotiated info p = Some (p', r) -> pipeline_step p p'
| ps_reset p p' r : reset_preauth_to_negotiate p = Some (p', r) -> pipeline_step p p'
| ps_started id s p p' r : session_started (mkSessionAndChannel id s None) p = Some (p', r) -> pipeline_step p p'
| ps_ended session p p' r : session_ended session p = Some (p', r) -> pipeline_step p p'
| ps_channel sid id s channel internal_id session_key hash info c binding p :
    wp_sessions p !! sid = Some (mkSessionAndChannel id s channel) ->
    channel_new internal_id session_key hash info = Ok c ->
    pipeline_step p (p <| wp_sessions :=
      <[sid := mkSessionAndChannel id s (Some (channel_with_binding c binding))]> (wp_sessions p) |>)
| ps_session sid id s s' channel p :
    wp_sessions p !! sid = Some (mkSessionAndChannel id s channel) ->
    pipeline_step p (p <| wp_sessions := <[sid := mkSessionAndChannel id s' channel]> (wp_sessions p) |>)
| ps_outgoing answers cancelled random msg p p' r :
    transform_outgoing answers cancelled random msg p = Some (p', r) -> pipeline_step p p'
| ps_compound answers random msgs p p' r :
    transform_outgoing_compound answers random msgs p = Some (p', r) -> pipeline_step p p'
| ps_incoming answers data p p' r :
    transform_incoming_all read_content answers data p = Some (p', r) -> pipeline_step p p'.

Lemma pipeline_ok_sessions p sid e :
  pipeline_ok p -> (forall c, sac_channel e = Some c -> signer_ok (ch_signer c)) ->
  pipeline_ok (p <| wp_sessions := <[sid := e]> (wp_sessions p) |>).
Proof.
  intros [H1 H2] He. split; cbn; [|done]. intros sid' e' c. rewrite lookup_insert_Some. naive_solver.
Qed.

Lemma pipeline_step_ok p p' : pipeline_step p p' -> pipeline_ok p -> pipeline_ok p'.
Proof.
  intros Hstep Hok. destruct Hstep as [info p p' r H|p p' r H|id s p p' r H|session p p' r H
    |sid id s ch iid key hash info c binding p Hl Hc|sid id s s' ch p Hl|a cn rnd msg p p' r H|a rnd msgs p p' r H|a data p p' r H].
  - unfold wp_negotiated in H. destruct (wc_negotiated _); injection H as <- <-; [done|]. destruct Hok. by split.
  - unfold reset_preauth_to_negotiate in H. destruct (wc_conn_info _); injection H as <- <-; [|done].
    destruct Hok as [H1 H2]. split; cbn; [done|]. intros sid s. by rewrite lookup_empty.
  - unfold session_started in H. destruct (negb _); injection H as <- <-; [done|]. by apply pipeline_ok_sessions.
  - unfold session_ended in H. destruct (wp_sessions p !! _); injection H as <- <-; [|done].
    destruct Hok as [H1 H2]. split; cbn; [|done]. intros sid e c [_ Hl]%lookup_delete_Some. eauto.
  - apply pipeline_ok_sessions; [done|]. cbn. intros c' [= <-]. exact (channel_new_ok _ _ _ _ _ Hc).
  - apply pipeline_ok_sessions; [done|]. cbn. intros c Hc. exact (po_channel p Hok _ _ _ Hl Hc).
  - by destruct (transform_outgoing_keeps _ _ _ _ _ _ _ Hok H).
  - by destruct (transform_outgoing_compound_keeps _ _ _ _ _ _ _ Hok H).
  - by destruct (transform_incoming_all_keeps _ _ _ _ _ Hok H).
Qed.

Lemma reachable_pipeline_ok p : rtc pipeline_step pipeline_default p -> pipeline_ok p.
Proof.
  intros H. eapply (rtc_ind_r pipeline_ok); [|by eauto using pipeline_step_ok|exact H].
  split; intros ? ?; cbn; intros; set_solver.
Qed.

(** ** No frame makes the pipeline panic, but for what decompression does *)

Lemma sign_batched_total answers signer segments :
  signer_ok signer -> zlen (concat segments) <= u32_max -> sign_batched answers signer segments <> None.
Proof.
  intros (id & key & Hs) Hl. unfold sign_batched, calculate_cmac_batch. destruct (an_batcher answers); [done|].
  unfold make_signing_algo in Hs. destruct (bool_decide (id ∉ _)); [done|]. injection Hs as <-.
  destruct id; [done| |done]. rewrite sign_batch_spec; [done|]. constructor; [|constructor]. unfold u32_max, usize_max in *. lia.
Qed.

Lemma verification_size raw : (64 <= length raw)%nat ->
  zlen (splice 48 (replicate 16 0) (take 64 raw) ++ concat [drop 64 raw]) = zlen raw.
Proof.
  intros H. unfold zlen, splice. cbn [concat]. rewrite app_nil_r.
  rewrite !length_app, !length_take, !length_drop, length_replicate, length_take. lia.
Qed.

Lemma calculate_signature_total signer header raw :
  signer_ok signer -> zlen raw <= u32_max -> calculate_signature_bytes signer header raw <> None.
Proof.
  intros Hs Hl. unfold calculate_signature_bytes. case_bool_decide; [done|]. cbv zeta.
  destruct (sign_segments_fresh signer header (splice 48 (replicate 16 0) (take 64 raw)) [drop 64 raw])
    as (algo & s & -> & _); [by apply signer_ok_fresh| |done]. rewrite verification_size by lia. done.
Qed.

Lemma ingest_preauth_total data p : ingest_preauth data p <> None.
Proof. unfold ingest_preauth. rewrite eff_bind_None. intros [|(q & a & [= <- <-] & H)]; [done|]. by destruct (preauth_next _ _). Qed.

Lemma verify_plain_incoming_total answers header raw form p :
  pipeline_ok p -> zlen raw <= u32_max -> verify_plain_incoming answers header raw form p <> None.
Proof.
  intros Hok Hl. unfold verify_plain_incoming. rewrite eff_bind_None. intros [|(q & a & [= <- <-] & H)]; [done|].
  destruct (bool_decide (hd_status header = status_code St_UserSessionDeleted) || _); [done|].
  destruct (mf_encrypted form || _ || _ || _); [done|].
  apply eff_bind_None in H as [|(q & o & Hg & H)]; [done|]. apply e_lift_Ok in Hg as [-> Hg].
  apply eff_bind_None in H as [|(q & signer & Ho & H)]; [done|]. apply e_lift_Ok in Ho as [-> Ho].
  apply ok_or_Ok in Ho as ->. pose proof (get_signer_ok _ _ _ Hok Hg) as Hs.
  apply eff_bind_None in H as [H|(q & [] & _ & H)].
  - destruct (is_batchable_cmac signer && _).
    + apply eff_bind_None in H as [|(q & segs & Hsegs & H)]; [done|]. apply e_lift_Ok in Hsegs as [-> Hsegs].
      apply eff_bind_None in H as [H|(q & c & _ & H)]; [|done]. apply e_may_panic_None in H. revert H.
      unfold owned_verification_segments in Hsegs. destruct (bool_decide (length raw < 64)%nat) eqn:E64; [done|].
      apply bool_decide_eq_false in E64.
      assert (segs = [splice 48 (replicate 16 0) (take 64 raw); drop 64 raw]) as -> by congruence.
      apply sign_batched_total; [done|]. cbn [concat]. rewrite <- (verification_size raw) in Hl by lia. exact Hl.
    + destruct (an_executor answers); [done|]. apply e_may_panic_None in H. apply fmap_None in H.
      unfold verify_signature in H. destruct (calculate_signature_bytes signer header raw) as [[s' [c|]]|] eqn:E;
        [by destruct (bool_decide _)|done|by apply calculate_signature_total in E].
  - apply eff_bind_None in H as [H|(q' & [] & _ & H)]; [|done]. by destruct (_ && _).
Qed.

(** Where the members of a payload begin: at its start, and where a member that is read says
    that the next one is. *)
Inductive member_at (raw : bytes) : nat -> Prop :=
| member_first : member_at raw 0
| member_next next x n :
    read_plain_response read_content raw = Some (Some x) -> next = Z.to_nat (hd_next_command (ps_header x)) ->
    (0 < next <= length raw)%nat -> member_at (drop next raw) n -> member_at raw (next + n).

Lemma walk_compound_total answers form fuel : forall current remaining out p,
  pipeline_ok p -> zlen remaining <= u32_max -> (length remaining < fuel)%nat ->
  read_plain_response read_content remaining = Some (Some current) ->
  walk_compound read_content fuel answers form current remaining out p = None ->
  exists n, member_at remaining n /\ reading_panics (drop n remaining).
Proof.
  induction fuel as [|fuel IH]; intros current remaining out p Hok Hl Hfuel Hread H; [lia|].
  cbn [walk_compound] in H. set (header := ps_header current) in *. set (next := Z.to_nat (hd_next_command header)) in *.
  apply eff_bind_None in H as [|(q & slice & H1 & H)]; [done|]. apply e_lift_Ok in H1 as [-> H1].
  assert (Hslice : zlen slice <= u32_max /\ (next <= length remaining \/ next = O)%nat).
  { destruct (bool_decide (0 < next)%nat) eqn:E0.
    - destruct (bool_decide (length remaining < next)%nat) eqn:E1; [done|]. injection H1 as <-.
      apply bool_decide_eq_false in E1. unfold zlen in *. rewrite length_take. lia.
    - injection H1 as <-. apply bool_decide_eq_false in E0. lia. }
  destruct Hslice as [Hsl Hnext].
  apply eff_bind_None in H as [H|(q & [] & H2 & H)].
  { destruct (participates_in_preauth_incoming header); [by apply ingest_preauth_total in H|done]. }
  assert (L1 : later p q).
  { destruct (participates_in_preauth_incoming header); [by eapply ingest_preauth_later|by apply eff_ret_Ok in H2 as [-> _]]. }
  pose proof (later_pipeline_ok _ _ L1 Hok) as Hok1.
  apply eff_bind_None in H as [H|(q2 & form' & H3 & H)].
  { apply e_map_err_None in H. by apply verify_plain_incoming_total in H. }
  apply e_map_err_Ok in H3. apply verify_plain_incoming_spec in H3 as [L2 _]; [|done]. cbv zeta in H.
  destruct (bool_decide (next = O)) eqn:E0; [done|]. apply bool_decide_eq_false in E0.
  destruct (read_response read_content (drop next remaining)) as [[nxt| | |]|] eqn:Er; try done.
  - apply read_response_Some in Er. apply IH in H as (n & Hm & Hn);
      [|by eapply later_pipeline_ok|unfold zlen in *; rewrite length_drop; lia|rewrite length_drop; lia|done].
    exists (next + n)%nat. split; [eapply member_next; [done..|lia|done]|]. by rewrite <- drop_drop.
  - exists (next + 0)%nat. split; [eapply member_next; [done..|lia|constructor]|]. rewrite Nat.add_0_r. by apply read_response_Some in Er.
Qed.

End incoming.

Section sizes.
Context {LZ : Lz4}.

Lemma framed_read_encrypted_header : framed encrypted_structure_size read_encrypted_header.
Proof.
  unfold read_encrypted_header, encrypted_structure_size.
  change 52%nat with (4 + (0 + (16 + (16 + (4 + (2 + (2 + (0 + (8 + 0)))))))))%nat.
  repeat (apply framed_bind; [first [apply framed_read_bytes | apply framed_read_guard | apply framed_read_le]|intros ?]).
  apply framed_ret.
Qed.

Lemma decrypts_size p data body form : decrypts p data body form -> zlen body <= zlen data.
Proof.
  intros [|m algo inner Hr _ Hd]; [done|]. unfold read_encrypted_message in Hr.
  destruct (read_encrypted_header data) as [[h rest]|] eqn:E; [|done]. injection Hr as <-. cbn in Hd.
  apply framed_read_encrypted_header in E as (u & -> & _ & _). unfold algo_decrypt in Hd.
  destruct (aead_decrypt _ _ _ _ _ _) as [q|] eqn:Ea; [|done]. injection Hd as ->. apply aead_decrypt_size in Ea.
  unfold zlen. rewrite Ea, length_app. lia.
Qed.

Lemma decompresses_size p body form raw form' :
  decompresses p body form raw form' -> zlen body <= u32_max -> zlen raw <= u32_max.
Proof.
  intros [|caps m rest raw' _ _ Hd] Hl; [done|].
  destruct (decompressed_size_is_announced Some caps m raw' raw') as (Hz & Hm & _ & _).
  - unfold decompress. by rewrite Hd.
  - rewrite Hz. etrans; [exact Hm|]. by vm_compute.
Qed.
End sizes.
End props.
