(* ===== verification/WireTheorems.v ===== *)
(** What the wire pipeline promises: every response it hands on is one member of the frame,
    and says truthfully how it was protected; together with the check of the channel, a
    session that must be protected only sees protected responses; a frame from a peer does
    not make it panic, but for what decompression and the readers of bodies do; and the identity of the session
    whose key opened a frame is not compared with the session that the response names. *)
From S2P Require Import Prelude Effects Bytes Header Transport Compression CompressionProps Cmac WireOut.
From S2P Require Import Crypto Dialects Session.
From S2P Require Import Wire WireProps.
Local Open Scope Z_scope.

Section theorems.
Context {CR : Crypto} {CL : CryptoLaws} {LZ : Lz4} {C : Type} (read_content : Header -> bytes -> option (option C)).

(** C20: whatever a peer sends within the frame limit, a pipeline that the connection can be in
    answers with responses or an error, unless a reader panics: the walk over the members ends, and
    no signature check panics. Frames that panic are those, once opened, whose decompression
    panics, and those with a member, once opened and decompressed, on which the reader of its body
    or of compressed items panics; a member begins at the start, or where the member before it
    says. *)
Theorem incoming_panics_only_in_readers answers data p :
  rtc (pipeline_step read_content) pipeline_default p -> zlen data <= default_max_frame_size ->
  transform_incoming_all read_content answers data p = None ->
  exists body form, decrypts p data body form /\
    ((exists caps m rest, read_compressed body = RdOk m rest /\ wc_compress (wp_config p) = Some caps /\
        decompress_bytes caps m = None) \/
     exists raw form' n, decompresses p body form raw form' /\ member_at read_content raw n /\ reading_panics read_content (drop n raw)).
Proof.
  intros Hreach Hl. pose proof (reachable_pipeline_ok _ _ Hreach) as Hok.
  assert (Hu : zlen data <= u32_max) by (etrans; [exact Hl|by vm_compute]). clear Hl.
  unfold transform_incoming_all. rewrite eff_bind_None. intros [|(q1 & message & H1 & H)]; [done|].
  apply e_lift_Ok in H1 as [-> H1]. apply ok_or_Ok in H1. rewrite eff_bind_None in H.
  destruct H as [|(q1 & p1 & [= <- <-] & H)]; [done|]. apply eff_bind_None in H as [H|(q1 & [[message1 body] form0] & H2 & H)].
  { destruct message as [x|m|m|]; try done. apply eff_bind_None in H as [|(? & ? & [= <- _] & H)]; [done|].
    apply eff_bind_None in H as [|(? & ? & [= <- _] & H)]; [done|]. by apply eff_bind_None in H as [|(? & ? & [= <- _] & H)]. }
  apply incoming_decrypts in H2 as (-> & Hd & Hm1); [|done]. cbv beta iota in H.
  assert (Hbody : zlen body <= u32_max) by (apply decrypts_size in Hd; lia).
  apply eff_bind_None in H as [H|(q1 & [[message2 raw] form] & H3 & H)].
  { exists body, form0. split; [done|]. left. destruct message1 as [x|m|m|]; try done.
    apply read_response_Some in Hm1 as [rest Hm1]. destruct (wc_compress (wp_config p)) as [caps|] eqn:Ec; [|done].
    exists caps, m, rest. split_and!; [done..|]. unfold decompress in H.
    by destruct (decompress_bytes caps m) as [[bs|]|] eqn:Eb; [destruct (read_response read_content bs)| |]. }
  apply incoming_decompresses in H3 as (-> & Hz & Hm2); [|done]. cbv beta iota in H.
  exists body, form0. split; [done|]. destruct message2 as [x| | |]; try done.
  - right. apply read_response_Some in Hm2.
    apply walk_compound_total in H as (n & Hm & Hn); [by exists raw, form, n|done|by eapply decompresses_size|lia|done].
  - right. exists raw, form, O. split_and!; [done|constructor|]. by apply read_response_Some in Hm2.
Qed.

(** What the form of a response says. *)
Lemma checked_form p header raw form form' :
  checked p header raw form form' -> mf_signed form = false ->
  mf_encrypted form' = mf_encrypted form /\
  (mf_signed form' = true -> authenticated p header raw) /\
  (flag_signed (hd_flags header) = true ->
   signed_or_encrypted form' = true \/ hd_message_id header = u64_max \/ hd_status header = status_code St_Pending \/
   hd_status header = status_code St_UserSessionDeleted \/ hd_status header = status_code St_NetworkSessionExpired).
Proof.
  unfold signed_or_encrypted. intros [Ha|Hh|He] Hf.
  - split_and!; [done..|]. intros _. by left.
  - split_and!; [done|change (mf_signed form = true -> authenticated p header raw); congruence|tauto].
  - split_and!; [done|congruence|]. intros Hs. rewrite Hf. destruct He as [->|[?|[?|?]]]; [by left|tauto..|congruence].
Qed.

Lemma decompresses_form p body form raw form' :
  decompresses p body form raw form' -> mf_encrypted form' = mf_encrypted form /\ mf_signed form' = mf_signed form.
Proof. by intros [|]. Qed.

Lemma decrypts_form p data body form :
  decrypts p data body form -> mf_signed form = false /\ (mf_encrypted form = false -> body = data).
Proof. intros [|]; split; done. Qed.

(** A member that was authenticated has a whole header, and that is the one it was read with. *)
Lemma authenticated_header p (r : CommandResponse C) after :
  authenticated p (ps_header (cp_message r)) (cp_raw r) ->
  read_plain_response read_content (cp_raw r ++ after) = Some (Some (cp_message r)) ->
  read_header (cp_raw r) = Some (ps_header (cp_message r), drop 64 (cp_raw r)).
Proof.
  intros (s & s' & _ & Hc) Hr. unfold calculate_signature_bytes in Hc.
  destruct (bool_decide (length (cp_raw r) < 64)%nat) eqn:E; [done|]. apply bool_decide_eq_false in E.
  unfold read_plain_response in Hr. destruct (read_header (cp_raw r ++ after)) as [[h rest]|] eqn:Eh; [|done].
  destruct (flag_server_to_redir (hd_flags h)); [|done]. destruct (read_content h _) as [[c|]|]; [|done..].
  injection Hr as <-. cbn [ps_header].
  apply (framed_take 64 _ _ _ _ (length (cp_raw r)) framed_read_header) in Eh; [|lia]. by rewrite take_app_length in Eh.
Qed.

(** a frame that is accepted is handed on completely: the responses are the members of its
    payload, one after the other without gaps, after the frame was opened with the cipher of
    the session its transform header names, if it is encrypted, and decompressed, if it is
    compressed. Of each response, [encrypted] says whether the frame was opened so; [signed]
    says that its signature is the one the signer of its session computes over exactly its
    bytes, whose header is the one it is handled by; and a member that claims to be signed is
    never handed on unchecked, save inside an encrypted frame, as a notification without
    request, an interim response, or the loss of the session. *)
Lemma incoming_responses_are_checked answers data p q out :
  rtc (pipeline_step read_content) pipeline_default p ->
  transform_incoming_all read_content answers data p = Some (q, Ok out) ->
  out <> [] /\ exists body form0 raw form,
    decrypts p data body form0 /\ decompresses p body form0 raw form /\ concat (cp_raw <$> out) = raw /\
    Forall (fun r =>
      let header := ps_header (cp_message r) in
      mf_encrypted (cp_form r) = mf_encrypted form0 /\
      (mf_signed (cp_form r) = true ->
       authenticated p header (cp_raw r) /\ read_header (cp_raw r) = Some (header, drop 64 (cp_raw r))) /\
      (flag_signed (hd_flags header) = true ->
       signed_or_encrypted (cp_form r) = true \/ hd_message_id header = u64_max \/
       hd_status header = status_code St_Pending \/ hd_status header = status_code St_UserSessionDeleted \/
       hd_status header = status_code St_NetworkSessionExpired)) out.
Proof.
  intros Hreach H. apply transform_incoming_all_spec in H as (_ & Hne & body & form0 & raw & form & Hd & Hz & Hcat & Hms);
    [|by eapply reachable_pipeline_ok].
  split; [done|]. exists body, form0, raw, form. split_and!; [done..|]. eapply Forall_impl; [exact Hms|].
  intros r [Hc [after Hr]]. cbv zeta. apply decompresses_form in Hz as [He Hs]. apply decrypts_form in Hd as [Hs0 _].
  apply checked_form in Hc as (H1 & H2 & H3); [|congruence]. split_and!; [congruence| |done].
  intros Hsig. split; [auto|]. by eapply authenticated_header; [apply H2|].
Qed.

(** C19: a session that is in use, and whose policy or server asks for protection, accepts no
    response that is not protected: one that gets through the pipeline and through the check
    of the channel carries the session's identity, and either its signature is the one the
    session's signer computes over its bytes or the frame it came in was opened with a key
    that a session of this connection holds. Where the session encrypts, it is the latter. *)
Theorem accepted_response_is_protected answers data p q out r info id s sid algos flags force signing :
  rtc (pipeline_step read_content) pipeline_default p ->
  transform_incoming_all read_content answers data p = Some (q, Ok out) -> r ∈ out ->
  rtc (session_step info) (session_new id) s -> si_state s = SI_Ready algos flags force signing ->
  verify_incoming (Some info) s sid r = Ok tt ->
  np_signing_required (ci_negotiation info) = true \/ must_sign info flags = true \/ sf_encrypt_data flags || force = true ->
  hd_session_id (ps_header (cp_message r)) = sid /\
  ((sf_encrypt_data flags || force = false /\ authenticated p (ps_header (cp_message r)) (cp_raw r)) \/
   exists m algo body, read_encrypted_message data = Some m /\
     get_decryptor p (eh_session_id (em_header m)) = Ok (Some algo) /\
     algo_decrypt algo (em_encrypted_message m) (aead_bytes (em_header m)) (eh_nonce (em_header m))
       (eh_signature (em_header m)) = Ok body).
Proof.
  intros Hreach H Hin Hrun Hst Hv Hreq.
  apply transform_incoming_all_spec in H as (_ & Hne & body & form0 & raw & form & Hd & Hz & Hcat & Hms);
    [|by eapply reachable_pipeline_ok].
  rewrite Forall_forall in Hms. destruct (Hms r Hin) as [Hc _].
  destruct (verify_incoming_spec _ _ _ _ _ _ _ _ (session_run_policy _ _ _ Hrun) Hst Hv) as (Hsid & _ & _ & _ & Henc & Hsig).
  split; [done|]. pose proof (decompresses_form _ _ _ _ _ Hz) as [He Hs].
  destruct (decrypts_form _ _ _ _ Hd) as [Hs0 _]. apply checked_form in Hc as (H1 & H2 & _); [|congruence].
  destruct Hd as [|m algo inner Hm Hdec Ha]; [|right; by exists m, algo, inner]. left. cbn in He. rewrite He in H1.
  assert (Hne' : sf_encrypt_data flags || force = false).
  { destruct (sf_encrypt_data flags || force); [|done]. rewrite H1 in Henc. by specialize (Henc eq_refl). }
  split; [done|]. apply H2. assert (Hse : signed_or_encrypted (cp_form r) = true) by (apply Hsig; rewrite Hne' in Hreq; naive_solver).
  unfold signed_or_encrypted in Hse. rewrite H1 in Hse. by destruct (mf_signed (cp_form r)).
Qed.

(** ** The session of an encrypted frame *)

(** A response as it would be written, naming the session [sid] and carrying [body]. *)
Lemma encrypted_frame_is_read (message : bytes) (x : PlainResponse C) algo random sid answers p :
  read_plain_response read_content message = Some (Some x) -> hd_next_command (ps_header x) = 0 ->
  participates_in_preauth_incoming (ps_header x) = false ->
  hd_status (ps_header x) <> status_code St_UserSessionDeleted ->
  hd_status (ps_header x) <> status_code St_NetworkSessionExpired ->
  (nonce_size algo <= length random)%nat -> in_range u64_max sid -> zlen message <= u32_max ->
  get_decryptor p sid = Ok (Some algo) ->
  exists h payload, encrypt_message algo random message sid = Ok (h, payload) /\
    transform_incoming_all read_content answers (write_encrypted_header h ++ payload) p
    = Some (p, Ok [mkCommandResponse x message (default_form <| mf_encrypted := true |>)]).
Proof.
  intros Hx Hnext Hpre Hs1 Hs2 Hr Hsid Hl Hdec.
  destruct (encrypted_message_opens (read_response read_content) algo random message sid Hr Hsid Hl)
    as (h & payload & He & Hhs & _ & m & Hm & <- & Hd).
  exists (em_header m), payload. split; [done|]. unfold transform_incoming_all.
  rewrite (read_response_encrypted _ _ _ Hm). unfold mbind, eff_bind, e_lift, e_get. cbn [ok_or].
  rewrite Hhs, Hdec. cbn [ok_or].
  assert (Hp : read_response read_content message = Some (R_Plain x)) by (unfold read_response; by rewrite Hx).
  rewrite Hd, Hp. unfold mret, eff_ret. cbn [fst snd]. cbn [walk_compound]. unfold mbind, eff_bind, e_lift.
  rewrite Hnext. change (Z.to_nat 0) with O. rewrite (bool_decide_eq_false_2 (0 < 0)%nat) by lia. rewrite Hpre.
  unfold mret, eff_ret, e_map_err. unfold verify_plain_incoming, mbind, eff_bind, e_get.
  rewrite !(bool_decide_eq_false_2 (hd_status (ps_header x) = _)) by done. cbn [orb].
  change (mf_encrypted (default_form <| mf_encrypted := true |>)) with true. cbn [orb].
  by rewrite (bool_decide_eq_true_2 (0 = 0)%nat).
Qed.

Lemma verify_incoming_encrypted info s sid (r : CommandResponse C) algos flags force signing :
  si_state s = SI_Ready algos flags force signing -> hd_session_id (ps_header (cp_message r)) = sid -> sid <> 0 ->
  mf_encrypted (cp_form r) = true ->
  (exists st, hd_get_status (ps_header (cp_message r)) = Some st /\ st <> St_UserSessionDeleted /\ st <> St_NetworkSessionExpired) ->
  verify_incoming (Some info) s sid r = Ok tt.
Proof.
  intros Hst Hsid H0 He (st & Hs & Hn1 & Hn2). unfold verify_incoming. cbv zeta. rewrite Hs.
  rewrite !bool_decide_eq_false_2 by done. cbn [orb]. unfold si_is_ready, should_encrypt, allow_unsigned, requires_signing,
    is_guest_or_anonymous, si_is_ready. rewrite Hst, Hsid, bool_decide_eq_false_2 by done. unfold signed_or_encrypted. rewrite He, orb_true_r. cbn [negb andb].
  unfold mbind, result_bind. cbn [ok_or]. rewrite (bool_decide_eq_false_2 (sid ≠ sid)) by (intros Hx; by apply Hx).
  destruct (is_guest_or_null_session flags || negb signing); [|done].
  by destruct (np_signing_required (ci_negotiation info)).
Qed.

(** the session whose key opened a frame need not be the session the response inside names:
    whoever holds the keys of one session of the connection can make a response for any other
    session, whatever that one requires, and both the pipeline and the other session's channel
    accept it. *)
Lemma encrypted_frame_of_another_session_is_accepted
    (message : bytes) (x : PlainResponse C) algo random sid answers p info s algos flags force signing :
  let victim := hd_session_id (ps_header x) in
  read_plain_response read_content message = Some (Some x) -> hd_next_command (ps_header x) = 0 ->
  participates_in_preauth_incoming (ps_header x) = false ->
  (exists st, hd_get_status (ps_header x) = Some st /\ st <> St_UserSessionDeleted /\ st <> St_NetworkSessionExpired) ->
  (nonce_size algo <= length random)%nat -> in_range u64_max sid -> zlen message <= u32_max ->
  get_decryptor p sid = Ok (Some algo) -> victim <> sid -> victim <> 0 ->
  si_state s = SI_Ready algos flags force signing ->
  exists h payload r, encrypt_message algo random message sid = Ok (h, payload) /\
    transform_incoming_all read_content answers (write_encrypted_header h ++ payload) p = Some (p, Ok [r]) /\
    cp_message r = x /\ verify_incoming (Some info) s victim r = Ok tt.
Proof.
  intros victim Hx Hnext Hpre (st & Hst & Hn1 & Hn2) Hr Hsid Hl Hdec Hne H0 Hs.
  assert (Hcode : forall st', st' <> st -> hd_status (ps_header x) <> status_code st').
  { intros st' Hne' Hc. apply status_codes_exact in Hst. apply Hne'. symmetry in Hc. rewrite <- Hst in Hc.
    pose proof (proj2 (status_codes_exact (status_code st) st') Hc) as H1.
    pose proof (proj2 (status_codes_exact (status_code st) st) eq_refl) as H2. congruence. }
  destruct (encrypted_frame_is_read message x algo random sid answers p) as (h & payload & He & Ht); auto.
  eexists h, payload, _. split; [done|]. split; [exact Ht|]. split; [done|].
  eapply verify_incoming_encrypted; try done. by exists st.
Qed.
End theorems.

(** ** Witnesses *)

Definition sample_content (_ : Header) (bs : bytes) : option (option bytes) := Some (Some (drop 64 bs)).

Definition sample_response (flags sid : Z) : Header :=
  mkHeader 1 (status_code St_Success) Cmd_Echo 1 flags 0 5 (Some 0) None sid 0.

Definition sample_plain (flags sid : Z) : bytes := default [] (write_header (sample_response flags sid)) ++ [4; 0; 0; 0].

(** A connection with one session, which is in use. *)
Definition sample_channel : ChannelInfo :=
  match @channel_new toy_crypto 0 (replicate 16 1) None sample_info with
  | Ok c => c
  | Err _ => mkChannel 0 (mkSigner (SA_HmacSha256 None)) false false
  end.

Definition sample_entry (channel : option ChannelInfo) (s : SessionInfo) : SessionAndChannel := mkSessionAndChannel 7 s channel.

Definition sample_negotiated_pipeline : WirePipeline :=
  default pipeline_default (fst <$> wp_negotiated sample_info pipeline_default).

Definition with_entry (e : SessionAndChannel) (p : WirePipeline) : WirePipeline :=
  p <| wp_sessions := <[7 := e]> (wp_sessions p) |>.

Definition sample_pipeline : WirePipeline :=
  with_entry (sample_entry (Some (channel_with_binding sample_channel false)) sample_ready)
    (with_entry (sample_entry None sample_ready) (with_entry (sample_entry None (session_new 7)) sample_negotiated_pipeline)).

Lemma sample_pipeline_reached :
  rtc (@pipeline_step toy_crypto run_lz4 _ sample_content) pipeline_default sample_pipeline.
Proof.
  eapply rtc_l; [eapply (@ps_negotiated toy_crypto run_lz4); reflexivity|].
  eapply rtc_l; [eapply (@ps_started toy_crypto run_lz4) with (id := 7) (s := session_new 7); reflexivity|].
  eapply rtc_l; [eapply (@ps_session toy_crypto run_lz4) with (sid := 7) (s' := sample_ready); reflexivity|].
  eapply rtc_l; [eapply (@ps_channel toy_crypto run_lz4) with (sid := 7) (internal_id := 0) (session_key := replicate 16 1)
    (hash := None) (info := sample_info) (binding := false) (c := sample_channel); reflexivity|].
  apply rtc_refl.
Qed.

#[local] Existing Instance toy_crypto.
#[local] Existing Instance toy_crypto_laws.
#[local] Existing Instance run_lz4.

Definition no_trouble : CryptoAnswers := mkAnswers None None.

(** Running the pipeline on a frame that holds one response. *)
Definition one_response (data : bytes) : option (WirePipeline * CommandResponse bytes) :=
  match transform_incoming_all sample_content no_trouble data sample_pipeline with
  | Some (p, Ok [r]) => Some (p, r)
  | _ => None
  end.

Lemma one_response_run data (P : CommandResponse bytes -> bool) :
  (fun x => P x.2) <$> one_response data = Some true ->
  exists q r, transform_incoming_all sample_content no_trouble data sample_pipeline = Some (q, Ok [r]) /\ P r = true.
Proof.
  unfold one_response. destruct (transform_incoming_all _ _ _ _) as [[q [[|r [|]]|]]|]; try done. cbn. intros [= H]. eauto.
Qed.

(** The same session's response in an encrypted frame. *)
Definition sample_decryptor : EncryptingAlgo :=
  match get_decryptor sample_pipeline 7 with Ok (Some algo) => algo | _ => toy_algo end.

Definition sample_encrypted (sid : Z) : bytes :=
  match encrypt_message sample_decryptor (replicate 16 9) (sample_plain 1 sid) 7 with
  | Ok (h, payload) => write_encrypted_header h ++ payload
  | Err _ => []
  end.

Lemma accepted_response_is_protected_witness :
  exists q r, transform_incoming_all sample_content no_trouble (sample_encrypted 7) sample_pipeline = Some (q, Ok [r]) /\
    verify_incoming (Some sample_info) sample_ready 7 r = Ok tt /\ hd_session_id (ps_header (cp_message r)) = 7.
Proof.
  destruct (one_response_run (sample_encrypted 7)
    (fun r => match verify_incoming (Some sample_info) sample_ready 7 r with Ok _ => true | Err _ => false end))
    as (q & r & Hrun & Hok); [vm_compute; reflexivity|].
  assert (Hv : verify_incoming (Some sample_info) sample_ready 7 r = Ok tt) by (revert Hok; by destruct (verify_incoming _ _ _ _) as [[]|]).
  clear Hok. exists q, r. split; [exact Hrun|]. split; [exact Hv|].
  destruct (accepted_response_is_protected sample_content no_trouble (sample_encrypted 7) sample_pipeline q [r] r
    sample_info 7 sample_ready 7 sample_algos 0 true true sample_pipeline_reached Hrun) as [H _].
  - left.
  - exact sample_ready_reached.
  - reflexivity.
  - exact Hv.
  - right. right. reflexivity.
  - exact H.
Defined.

(** A compressed frame that promises a payload shorter than the size field it needs. *)
Definition sample_panic : bytes := [252; 83; 77; 66; 100; 0; 0; 0; 2; 0; 1; 0; 0; 0; 0; 0; 0; 0; 0; 0].

Lemma incoming_panics_only_in_readers_witness :
  transform_incoming_all sample_content no_trouble sample_panic sample_pipeline = None /\
  exists body form, decrypts sample_pipeline sample_panic body form /\
    ((exists caps m rest, read_compressed body = RdOk m rest /\ wc_compress (wp_config sample_pipeline) = Some caps /\
        decompress_bytes caps m = None) \/
     exists raw form' n, decompresses sample_pipeline body form raw form' /\ member_at sample_content raw n /\
       reading_panics sample_content (drop n raw)).
Proof.
  assert (Hnone : transform_incoming_all sample_content no_trouble sample_panic sample_pipeline = None) by (vm_compute; reflexivity).
  split; [exact Hnone|].
  apply (incoming_panics_only_in_readers sample_content no_trouble sample_panic sample_pipeline sample_pipeline_reached).
  - vm_compute. discriminate.
  - exact Hnone.
Defined.

