(* ===== verification/Setup.v ===== *)
(** The exchange that sets a session up or binds a channel to one
    (crates/smb/src/session/setup.rs), with what it uses of the connection
    (connection.rs: [prepare_outgoing], [validate_incoming]) and of the channel
    (session/channel.rs: [recvo_internal]).

    The authenticator (NTLM or Kerberos, another crate) and the runtime of the connection, with
    the server behind it, are classes whose states are threaded through: whatever they answer,
    and in whatever order, is one of their instances. *)
From S2P Require Import Prelude Effects Bytes Header Crypto Dialects WireOut Session Wire.
Local Open Scope Z_scope.

(** ** The authenticator and the runtime *)

(** [GssState] (session/gss.rs) *)
Class Gss (G : Type) := {
  gss_is_authenticated : G -> result Error bool;
  gss_session_key : G -> result Error bytes;
  gss_next : G -> bytes -> G * result Error bytes
}.

(** What a response carries, as far as the setup looks at it. *)
Inductive ResponseContent :=
| RC_SessionSetup (session_flags : Z) (buffer : bytes)
| RC_Error
| RC_Other.

(** The calls on the generation runtime. *)
Class Upstream (U : Type) := {
  up_send : U -> CommandRequest -> U * result Error Z;
  up_receive : U -> Z -> U * result Error (CommandResponse ResponseContent);
  up_session_started : U -> SessionAndChannel -> U * result Error unit;
  up_session_ended : U -> SessionAndChannel -> U * result Error unit;
  up_preauth_snapshot : U -> U * result Error (option bytes)
}.

(** ** Requests and responses *)

(** The body of a session setup request; the buffer begins right after the fixed part, and a
    buffer whose length does not fit its field makes the writer panic. *)
Record SessionSetupRequest := mkSetupRequest {
  sr_binding : bool;
  sr_signing_required : bool;
  sr_dfs : bool;
  sr_buffer : bytes
}.

#[export] Instance eta_SessionSetupRequest : Eta SessionSetupRequest := fun r =>
  mkSetupRequest (sr_binding r) (sr_signing_required r) (sr_dfs r) (sr_buffer r).

Definition write_session_setup_request (r : SessionSetupRequest) : option bytes :=
  if bool_decide (u16_max < zlen (sr_buffer r)) then None
  else Some (le_bytes 2 25 ++ [if sr_binding r then 1 else 0; 1 + (if sr_signing_required r then 2 else 0)]
             ++ le_bytes 4 (if sr_dfs r then 1 else 0) ++ le_bytes 4 0
             ++ le_bytes 2 88 ++ le_bytes 2 (zlen (sr_buffer r)) ++ le_bytes 8 0 ++ sr_buffer r).

(** [CommandRequest::new] around a message with its header of defaults. *)
Definition command_request_new (command : Command) (content : option bytes) : CommandRequest :=
  mkCommandRequest (mkPlainRequest
    (mkHeader 0 (status_code St_Success) command 0 0 0 u64_max (Some 0) None 0 0) content) None None false.

(** [HeaderFlags::with_priority_mask] *)
Definition with_priority_mask (flags mask : Z) : Z :=
  Z.lor (Z.land flags (Z.lnot (Z.shiftl 7 4))) (Z.shiftl (Z.land mask 7) 4).

Record ResponseOptions := mkOptions {
  ro_status : list Status;
  ro_cmd : option Command;
  ro_msg_id : Z
}.

Definition wrong_command (options : ResponseOptions) (header : Header) : bool :=
  match ro_cmd options with Some cmd => bool_decide (hd_command header ≠ cmd) | None => false end.

(** [ConnectionCore::validate_incoming] *)
Definition validate_incoming (msg : CommandResponse ResponseContent) (options : ResponseOptions)
    : result Error (CommandResponse ResponseContent) :=
  let header := ps_header (cp_message msg) in
  if wrong_command options header then Err (E_UnexpectedMessageCommand (hd_command header))
  else if negb (flag_server_to_redir (hd_flags header)) then Err E_InvalidMessage
  else if negb (existsb (fun status => bool_decide (hd_status header = status_code status)) (ro_status options))
  then match ps_content (cp_message msg) with
       | RC_Error => Err (E_ReceivedErrorMessage (hd_status header))
       | _ => Err (E_UnexpectedMessageStatus (hd_status header))
       end
  else Ok msg.

(** ** The setup *)

Inductive SetupKind := SK_New | SK_Bind.

#[export] Instance SetupKind_eq : EqDecision SetupKind.
Proof. solve_decision. Defined.

(** [SessionSetup]. The session and its channel are shared between the context and the result;
    once there is a result it holds their present state. *)
Record SessionSetup (G U : Type) := mkSetup {
  su_last_setup_response : option bytes;
  su_flags : option Z;
  su_context : option SessionAndChannel;
  su_result : option SessionAndChannel;
  su_channel : option ChannelInfo;
  su_authenticator : G;
  su_upstream : U
}.
Arguments mkSetup {G U}.
Arguments su_last_setup_response {G U}.
Arguments su_flags {G U}.
Arguments su_context {G U}.
Arguments su_result {G U}.
Arguments su_channel {G U}.
Arguments su_authenticator {G U}.
Arguments su_upstream {G U}.

#[export] Instance eta_SessionSetup {G U} : Eta (SessionSetup G U) := fun s =>
  mkSetup (su_last_setup_response s) (su_flags s) (su_context s) (su_result s) (su_channel s)
    (su_authenticator s) (su_upstream s).

#[export] Instance eta_SessionAndChannel : Eta SessionAndChannel := fun s =>
  mkSessionAndChannel (sac_session_id s) (sac_session s) (sac_channel s).

Section setup.
Context {CR : Crypto} {G U : Type} {GS : Gss G} {UP : Upstream U}.

(** Of the connection: what was negotiated, and the identity for the new channel. *)
Context (conn_info : ConnectionInfo) (has_dfs : bool) (new_channel_id : Z) (kind : SetupKind).

Notation setup := (eff (SessionSetup G U) Error).

(** A call on the runtime. *)
Definition upstream {A} (call : U -> U * result Error A) : setup A := fun s =>
  let '(u, r) := call (su_upstream s) in Some (s <| su_upstream := u |>, r).

(** [SessionSetup::make_request] *)
Definition make_request (buffer : bytes) : CommandRequest :=
  let r := mkSetupRequest false
    (policy_required (cfg_signing_policy (ci_config conn_info)) (np_signing_required (ci_negotiation conn_info)))
    has_dfs buffer in
  let r := if bool_decide (kind = SK_Bind) then r <| sr_binding := true |> else r in
  (command_request_new Cmd_SessionSetup (write_session_setup_request r)) <| cq_security := Some Pr_None |>.

(** [ConnectionCore::prepare_outgoing]; the command is not a cancellation. *)
Definition prepare_outgoing (msg : CommandRequest) : result Error CommandRequest :=
  let header := pq_header (cq_message msg) in
  let priority := if bool_decide (np_dialect_rev (ci_negotiation conn_info) = Smb0311) then 1 else 0 in
  if bool_decide (hd_command header = Cmd_Cancel) && bool_decide (hd_message_id header = 0) then Err E_InvalidState
  else Ok (msg <| cq_message := (cq_message msg) <| pq_header :=
             header <| hd_flags := with_priority_mask (hd_flags header) priority |> |> |>).

(** [ConnectionCore::submit] *)
Definition submit (msg : CommandRequest) : setup Z :=
  msg ← e_lift (prepare_outgoing msg);
  upstream (fun u => up_send u msg).

(** [ConnectionCore::await_response] *)
Definition await_response (options : ResponseOptions) : setup (CommandResponse ResponseContent) :=
  msg ← upstream (fun u => up_receive u (ro_msg_id options));
  e_lift (validate_incoming msg options).

(** [init_session] *)
Definition init_session (session_id : Z) : setup SessionInfo :=
  match kind with
  | SK_New => mret (session_new session_id)
  | SK_Bind => e_panic
  end.

(** [set_session] *)
Definition set_session (session : SessionInfo) : setup unit :=
  let sac := mkSessionAndChannel (si_session_id session) session None in
  _ ← e_modify (fun s => s <| su_context := Some sac |>);
  _ ← upstream (fun u => up_session_started u sac);
  e_modify (fun s => s <| su_result := Some sac |>).

Definition session_key : setup bytes := s ← e_get; e_lift (gss_session_key (su_authenticator s)).

Definition preauth_hash_snapshot : setup (option bytes) := upstream up_preauth_snapshot.

(** A write under the session's lock. *)
Definition write_session (f : SessionInfo -> result Error SessionInfo) : setup unit :=
  s ← e_get;
  sac ← e_lift (ok_or E_InvalidState (su_result s));
  session ← e_lift (f (sac_session sac));
  e_modify (fun s => s <| su_result := Some (sac <| sac_session := session |>) |>).

(** [on_session_key_exchanged] *)
Definition on_session_key_exchanged : setup unit :=
  match kind with
  | SK_New =>
      key ← session_key;
      preauth_hash ← preauth_hash_snapshot;
      write_session (fun session => si_setup session key preauth_hash conn_info)
  | SK_Bind => mret tt
  end.

(** [make_channel] *)
Definition make_channel : setup unit :=
  _ ← on_session_key_exchanged;
  preauth_snapshot ← preauth_hash_snapshot;
  key ← session_key;
  channel_info ← e_lift (channel_new new_channel_id key preauth_snapshot conn_info);
  _ ← e_modify (fun s => s <| su_channel := Some channel_info |>);
  s ← e_get;
  sac ← e_lift (ok_or E_InvalidState (su_result s));
  channel ← e_lift (ok_or E_InvalidState (su_channel s));
  e_modify (fun s => s <| su_channel := None |> <| su_result := Some (sac <| sac_channel := Some channel |>) |>).

(** [on_setup_success] *)
Definition on_setup_success : setup unit :=
  match kind with
  | SK_New =>
      s ← e_get;
      flags ← e_lift (ok_or E_InvalidState (su_flags s));
      write_session (fun session => si_ready session flags conn_info)
  | SK_Bind => mret tt
  end.

(** [error_cleanup] *)
Definition error_cleanup : setup unit :=
  s ← e_get;
  match su_result s with
  | None => mret tt
  | Some _ =>
      _ ← match kind with
          | SK_New => write_session (fun session => Ok (si_invalidate session))
          | SK_Bind => mret tt
          end;
      s ← e_get;
      sac ← e_lift (ok_or E_InvalidState (su_result s));
      upstream (fun u => up_session_ended u sac)
  end.

(** The state a context shares with the result. *)
Definition shared_state (s : SessionSetup G U) (context : SessionAndChannel) : SessionAndChannel :=
  from_option id context (su_result s).

(** [send_intermediate_setup_request] *)
Definition send_intermediate_setup_request (request : CommandRequest) : setup Z :=
  s ← e_get;
  match su_context s with
  | Some context =>
      request ← e_lift (prepare (Some conn_info) (sac_session (shared_state s context)) (sac_session_id context) request);
      submit request
  | None => submit request
  end.

(** [send_final_setup_request] *)
Definition send_final_setup_request (request : CommandRequest) : setup Z :=
  request ← e_lift (prepare_outgoing request);
  s ← e_get;
  sac ← e_lift (ok_or E_InvalidState (su_result s));
  let request := request <| cq_message := (cq_message request) <| pq_header :=
    (pq_header (cq_message request)) <| hd_session_id := sac_session_id sac |> |> |> in
  request ←
    match kind with
    | SK_New => mret (request <| cq_security := Some Pr_None |>)
    | SK_Bind =>
        key ← session_key;
        let header := pq_header (cq_message request) in
        mret (request <| cq_security := Some (Pr_SnapshotKdfSign key) |>
                <| cq_message := (cq_message request) <| pq_header :=
                   header <| hd_flags := set_signed (hd_flags header) |> |> |>)
    end;
  result ← upstream (fun u => up_send u request);
  _ ← make_channel;
  mret result.

(** [send_setup_request] *)
Definition send_setup_request (buffer : bytes) (is_final_request : bool) : setup Z :=
  let request := make_request buffer in
  if is_final_request then send_final_setup_request request else send_intermediate_setup_request request.

(** [ChannelContext::recvo_internal] *)
Definition recvo_internal (context : SessionAndChannel) (options : ResponseOptions) (skip_security_validation : bool)
    : setup (CommandResponse ResponseContent) :=
  incoming ← await_response options;
  s ← e_get;
  let session := sac_session (shared_state s context) in
  if skip_security_validation
  then if si_is_initial session then mret incoming else e_panic
  else _ ← e_lift (verify_incoming (Some conn_info) session (sac_session_id context) incoming); mret incoming.

(** The error a setup reports for an error of the channel. *)
Definition setup_error (is_auth_done : bool) (error : Error) : Error :=
  match error with
  | E_OperationTimeout => E_SetupTimeout
  | E_UnsignedMessage => if is_auth_done then E_UnsignedFinalResponse else error
  | other => other
  end.

(** [receive_setup_response] *)
Definition receive_setup_response (for_msg_id : Z) (is_final_request : bool)
    : setup (CommandResponse ResponseContent) :=
  s ← e_get;
  is_auth_done ← e_lift (gss_is_authenticated (su_authenticator s));
  let expected_status := if is_final_request then St_Success else St_MoreProcessingRequired in
  let roptions := mkOptions [expected_status] None for_msg_id in
  let channel_set_up := match su_result s with
                        | Some sac => bool_decide (is_Some (sac_channel sac))
                        | None => false
                        end in
  let skip_security_validation := bool_decide (kind = SK_New) && negb channel_set_up in
  let call := match su_context s with
              | Some context => recvo_internal context roptions skip_security_validation
              | None => if skip_security_validation then await_response roptions else e_panic
              end in
  e_map_err (setup_error is_auth_done) call.

(** [to_sessionsetup] *)
Definition to_sessionsetup (content : ResponseContent) : result Error (Z * bytes) :=
  match content with
  | RC_SessionSetup flags buffer => Ok (flags, buffer)
  | _ => Err (E_SmbMsgError ME_UnexpectedContent)
  end.

(** A call on the authenticator. *)
Definition authenticator_next (token : bytes) : setup bytes := fun s =>
  let '(g, r) := gss_next (su_authenticator s) token in Some (s <| su_authenticator := g |>, r).

(** One turn of the loop: whether it goes on. *)
Definition setup_turn : setup bool :=
  s ← e_get;
  next_buf ← authenticator_next (from_option id [] (su_last_setup_response s));
  s ← e_get;
  is_auth_done ← e_lift (gss_is_authenticated (su_authenticator s));
  if is_auth_done && bool_decide (next_buf = []) then mret false
  else
    let is_final_request := is_auth_done || match gss_session_key (su_authenticator s) with Ok _ => true | Err _ => false end in
    msg_id ← send_setup_request next_buf is_final_request;
    response ← receive_setup_response msg_id is_final_request;
    let session_id := hd_session_id (ps_header (cp_message response)) in
    setup_response ← e_lift (to_sessionsetup (ps_content (cp_message response)));
    let '(session_flags, buffer) := setup_response in
    s ← e_get;
    _ ← match su_result s with
        | None => session_info ← init_session session_id; set_session session_info
        | Some _ => mret tt
        end;
    if is_final_request && negb (is_guest_or_null_session session_flags) && negb (signed_or_encrypted (cp_form response))
    then e_lift (Err E_UnsignedFinalResponse)
    else
      _ ← e_modify (fun s => s <| su_flags := Some session_flags |> <| su_last_setup_response := Some buffer |>);
      mret (negb is_final_request).

Fixpoint setup_turns (fuel : nat) : setup unit :=
  match fuel with
  | O => e_panic
  | S fuel =>
      s ← e_get;
      authenticated ← e_lift (gss_is_authenticated (su_authenticator s));
      if authenticated : bool then mret tt
      else goes_on ← setup_turn; if goes_on : bool then setup_turns fuel else mret tt
  end.

(** [_setup_loop] *)
Definition setup_loop (fuel : nat) : setup unit :=
  _ ← setup_turns fuel;
  s ← e_get;
  _ ← e_lift (ok_or E_InvalidState (su_flags s));
  _ ← match su_result s with
      | Some sac => match sac_channel sac with None => make_channel | Some _ => mret tt end
      | None => mret tt
      end;
  on_setup_success.

(** [setup] *)
Definition setup_session (fuel : nat) : setup SessionAndChannel := fun s =>
  match setup_loop fuel s with
  | None => None
  | Some (s, Ok _) =>
      Some (s <| su_result := None |>, ok_or E_InvalidState (su_result s))
  | Some (s, Err error) =>
      match error_cleanup s with
      | None => None
      | Some (s, _) => Some (s, Err error)
      end
  end.

(** [with_gss]; a bound channel starts from the session and the channel it is bound to. *)
Definition with_gss (authenticator : G) (u : U) (primary_session : option SessionAndChannel)
    : option (SessionSetup G U * result Error unit) :=
  let s := mkSetup None None None None None authenticator u in
  match primary_session with
  | None => Some (s, Ok tt)
  | Some primary =>
      match sac_channel primary with
      | None => None
      | Some channel =>
          (_ ← set_session (sac_session primary);
           e_modify (fun s => s <| su_result :=
             (fun sac => sac <| sac_channel := Some (channel_with_binding channel true) |>) <$> su_result s |>)) s
      end
  end.
End setup.
