(* ===== verification/SetupTheorems.v ===== *)
(** What setting a session up guarantees: a new session is put in use only after its final
    response was checked, a failed setup leaves nothing in use, and the exchange does not panic. *)
From S2P Require Import Prelude Effects Bytes Header WireOut Crypto Dialects Session Wire Setup.
Local Open Scope Z_scope.

Section props.
Context {CR : Crypto} {G U : Type} {GS : Gss G} {UP : Upstream U}.
Context (conn_info : ConnectionInfo) (has_dfs : bool) (new_channel_id : Z).
Implicit Types s : SessionSetup G U.

(** ** What the calls change *)

(** The runtime after a call of the setup that registers nothing and ends nothing. *)
Inductive quiet_step (u u' : U) : Prop :=
| us_send m r : up_send u m = (u', r) -> quiet_step u u'
| us_receive i r : up_receive u i = (u', r) -> quiet_step u u'
| us_refused sac e : up_session_started u sac = (u', Err e) -> quiet_step u u'
| us_snapshot r : up_preauth_snapshot u = (u', r) -> quiet_step u u'.

(** The runtime after a call of the setup. *)
Inductive up_step (u u' : U) : Prop :=
| us_quiet : quiet_step u u' -> up_step u u'
| us_started sac : up_session_started u sac = (u', Ok tt) -> up_step u u'
| us_ended sac r : up_session_ended u sac = (u', r) -> up_step u u'.

(** Nothing but the runtime, the result and the channel in the making have changed. *)
Record keeps (s s' : SessionSetup G U) : Prop := {
  ke_response : su_last_setup_response s' = su_last_setup_response s;
  ke_flags : su_flags s' = su_flags s;
  ke_context : su_context s' = su_context s;
  ke_authenticator : su_authenticator s' = su_authenticator s;
  ke_upstream : rtc quiet_step (su_upstream s) (su_upstream s')
}.

#[local] Instance keeps_preorder : PreOrder keeps.
Proof.
  split; [by intros s; split|]. intros s1 s2 s3 [] []. split; try congruence. by etrans.
Qed.

Lemma keeps_upstream s u : quiet_step (su_upstream s) u -> keeps s (s <| su_upstream := u |>).
Proof. intros H. split; try done. by apply rtc_once. Qed.

Lemma keeps_up s s' : keeps s s' -> rtc up_step (su_upstream s) (su_upstream s').
Proof. intros K. eapply rtc_subrel; [apply us_quiet|apply K]. Qed.

Lemma upstream_Ok {A} (call : U -> U * result Error A) s s' r :
  upstream call s = Some (s', r) -> exists u, call (su_upstream s) = (u, r) /\ s' = s <| su_upstream := u |>.
Proof. unfold upstream. destruct (call (su_upstream s)) as [u r']. intros [= <- <-]. by exists u. Qed.

Lemma preauth_hash_snapshot_spec s s' r :
  preauth_hash_snapshot s = Some (s', r) -> keeps s s' /\ su_result s' = su_result s.
Proof.
  intros H. apply upstream_Ok in H as (u & H & ->). split; [|done]. apply keeps_upstream. by eapply us_snapshot.
Qed.

Lemma session_key_spec s s' r :
  session_key s = Some (s', r) -> s' = s /\ r = gss_session_key (su_authenticator s).
Proof. unfold session_key, mbind, eff_bind, e_get, e_lift. by intros [= <- <-]. Qed.

Lemma write_session_spec f s s' r :
  write_session f s = Some (s', r) ->
  keeps s s' /\
  match r with
  | Ok _ => exists sac session, su_result s = Some sac /\ f (sac_session sac) = Ok session /\
              su_result s' = Some (sac <| sac_session := session |>)
  | Err _ => s' = s
  end.
Proof.
  unfold write_session, mbind, eff_bind, e_get, e_lift, e_modify. destruct (su_result s) as [sac|] eqn:Er; cbn [ok_or].
  - destruct (f (sac_session sac)) as [session|] eqn:Ef; intros [= <- <-]; split; try done. by exists sac, session.
  - intros [= <- <-]. done.
Qed.

Lemma on_session_key_exchanged_spec kind s s' r :
  on_session_key_exchanged conn_info kind s = Some (s', r) ->
  keeps s s' /\
  match r with
  | Ok _ => match kind with
            | SK_Bind => s' = s
            | SK_New => exists sac session key hash, su_result s = Some sac /\
                gss_session_key (su_authenticator s) = Ok key /\ si_setup (sac_session sac) key hash conn_info = Ok session /\
                su_result s' = Some (sac <| sac_session := session |>)
            end
  | Err _ => su_result s' = su_result s
  end.
Proof.
  unfold on_session_key_exchanged. destruct kind; [|by intros [= <- <-]].
  unfold mbind, eff_bind. destruct (session_key s) as [[s1 [key|e]]|] eqn:E1; [| |done].
  - apply session_key_spec in E1 as [-> Hk]. destruct (preauth_hash_snapshot s) as [[s2 [hash|e]]|] eqn:E2; [| |done].
    + apply preauth_hash_snapshot_spec in E2 as [K2 R2]. intros H. apply write_session_spec in H as [K3 H].
      split; [by etrans|]. destruct r as [[]|]; [|by subst]. destruct H as (sac & ses & H1 & H2 & H3).
      rewrite R2 in H1. exists sac, ses, key, hash. by rewrite Hk.
    + intros [= <- <-]. by apply preauth_hash_snapshot_spec in E2.
  - intros [= <- <-]. by apply session_key_spec in E1 as [-> _].
Qed.

Lemma make_channel_spec kind s s' r :
  make_channel conn_info new_channel_id kind s = Some (s', r) ->
  keeps s s' /\
  match r with
  | Ok _ => exists sac session key hash c, su_result s = Some sac /\
      gss_session_key (su_authenticator s) = Ok key /\ channel_new new_channel_id key hash conn_info = Ok c /\
      match kind with
      | SK_Bind => session = sac_session sac
      | SK_New => exists hash', si_setup (sac_session sac) key hash' conn_info = Ok session
      end /\
      su_result s' = Some (mkSessionAndChannel (sac_session_id sac) session (Some c))
  | Err _ => exists sac', su_result s' = sac' /\
      (kind = SK_Bind -> sac' = su_result s) /\ sac_session_id <$> sac' = sac_session_id <$> su_result s
  end.
Proof.
  unfold make_channel. unfold mbind at 1, eff_bind at 1.
  destruct (on_session_key_exchanged conn_info kind s) as [[s1 [[]|e]]|] eqn:E1; [| |done].
  2: { intros [= <- <-]. apply on_session_key_exchanged_spec in E1 as [K1 R1]. split; [done|].
       exists (su_result s1). split; [done|]. by rewrite R1. }
  apply on_session_key_exchanged_spec in E1 as [K1 R1].
  assert (Hn : exists sac', su_result s1 = sac' /\ (kind = SK_Bind -> sac' = su_result s) /\ sac_session_id <$> sac' = sac_session_id <$> su_result s).
  { exists (su_result s1). split; [done|]. destruct kind; [|by subst]. split; [done|]. by destruct R1 as (sac & ? & ? & ? & -> & _ & _ & ->). }
  unfold mbind at 1, eff_bind at 1. destruct (preauth_hash_snapshot s1) as [[s2 [hash|e]]|] eqn:E2; [| |done].
  2: { intros [= <- <-]. apply preauth_hash_snapshot_spec in E2 as [K2 R2]. rewrite R2. split; [by etrans|done]. }
  apply preauth_hash_snapshot_spec in E2 as [K2 R2].
  unfold mbind at 1, eff_bind at 1. destruct (session_key s2) as [[s3 r3]|] eqn:E3; [|done].
  apply session_key_spec in E3 as [-> E3].
  assert (K : keeps s s2) by by etrans.
  assert (Ha : su_authenticator s2 = su_authenticator s) by apply K. rewrite Ha in E3.
  rewrite <- R2 in Hn. destruct r3 as [key|e]; [|by intros [= <- <-]]. symmetry in E3.
  unfold mbind, eff_bind, e_lift, e_modify, e_get.
  destruct (channel_new new_channel_id key hash conn_info) as [c|e] eqn:Ec; [|by intros [= <- <-]].
  cbn [su_channel su_result ok_or].
  change (su_result (s2 <| su_channel := Some c |>)) with (su_result s2).
  change (su_channel (s2 <| su_channel := Some c |>)) with (Some c). cbn [ok_or].
  destruct (su_result s2) as [sac2|] eqn:Es2; cbn [ok_or].
  - intros [= <- <-]. split; [destruct K; by split|]. rewrite <- R2 in R1. destruct kind.
    + destruct R1 as (sac & session & key' & hash' & H1 & H2 & H3 & H4). assert (key' = key) as -> by congruence.
      exists sac, session, key, hash, c. split_and!; [done..|by exists hash'|]. cbn. f_equal. injection H4 as ->. by destruct sac.
    + subst s1. exists sac2, (sac_session sac2), key, hash, c.
      split_and!; [congruence|done|done|done|]. by destruct sac2.
  - intros [= <- <-]. split; [destruct K; by split|]. exists None. cbn. split; [by rewrite Es2|].
    destruct Hn as (? & <- & H). done.
Qed.

Lemma submit_spec request s s' r :
  submit conn_info request s = Some (s', r) -> keeps s s' /\ su_result s' = su_result s.
Proof.
  unfold submit, mbind, eff_bind, e_lift. destruct (prepare_outgoing conn_info request); [|by intros [= <- <-]].
  intros H. apply upstream_Ok in H as (u & H & ->). split; [|done]. apply keeps_upstream. by eapply us_send.
Qed.

Lemma send_intermediate_spec request s s' r :
  send_intermediate_setup_request conn_info request s = Some (s', r) -> keeps s s' /\ su_result s' = su_result s.
Proof.
  unfold send_intermediate_setup_request, mbind, eff_bind, e_get, e_lift. destruct (su_context s); [|apply submit_spec].
  destruct (prepare _ _ _ _); [apply submit_spec|by intros [= <- <-]].
Qed.

(** The final request is sent, and then the channel is made. *)
Lemma send_final_spec kind request s s' r :
  send_final_setup_request conn_info new_channel_id kind request s = Some (s', r) ->
  keeps s s' /\
  match r with
  | Ok _ => exists sac session key hash c, su_result s = Some sac /\
      gss_session_key (su_authenticator s) = Ok key /\ channel_new new_channel_id key hash conn_info = Ok c /\
      match kind with
      | SK_Bind => session = sac_session sac
      | SK_New => exists hash', si_setup (sac_session sac) key hash' conn_info = Ok session
      end /\
      su_result s' = Some (mkSessionAndChannel (sac_session_id sac) session (Some c))
  | Err _ => (kind = SK_Bind -> su_result s' = su_result s) /\ sac_session_id <$> su_result s' = sac_session_id <$> su_result s
  end.
Proof.
  unfold send_final_setup_request. unfold mbind at 1, eff_bind at 1, e_lift at 1.
  destruct (prepare_outgoing conn_info request) as [request1|]; [|by intros [= <- <-]].
  unfold mbind at 1, eff_bind at 1, e_get at 1. unfold mbind at 1, eff_bind at 1, e_lift at 1.
  destruct (su_result s) as [sac|] eqn:Er; cbn [ok_or]; [|intros [= <- <-]; by rewrite Er].
  unfold mbind at 1, eff_bind at 1.
  match goal with |- match ?m s with _ => _ end = _ -> _ =>
    assert (Hm : exists r', m s = Some (s, r')) by
      (destruct kind; [by eexists|unfold mbind, eff_bind, session_key, e_get, e_lift, mret, eff_ret; cbn;
         unfold mbind, eff_bind; destruct (gss_session_key _); by eexists]);
    destruct Hm as [[request2|] ->]; [|intros [= <- <-]; rewrite Er; done] end.
  unfold mbind at 1, eff_bind at 1. destruct (upstream _ s) as [[s1 [mid|e]]|] eqn:E1; [| |done].
  2: { intros [= <- <-]. apply upstream_Ok in E1 as (u & E1 & ->).
       split; [apply keeps_upstream; by eapply us_send|]. by cbn; rewrite Er. }
  apply upstream_Ok in E1 as (u & E1 & ->). set (s1 := s <| su_upstream := u |>) in *.
  assert (K1 : keeps s s1) by (apply keeps_upstream; by eapply us_send).
  assert (R1 : su_result s1 = Some sac) by exact Er. assert (A1 : su_authenticator s1 = su_authenticator s) by done.
  unfold mbind, eff_bind. destruct (make_channel conn_info new_channel_id kind s1) as [[s2 [[]|e]]|] eqn:E2; [| |done];
    apply make_channel_spec in E2 as [K2 R2]; intros [= <- <-]; (split; [by etrans|]).
  - rewrite R1, A1 in R2. done.
  - rewrite R1 in R2. by destruct R2 as (? & <- & H1 & H2).
Qed.

Lemma await_response_spec options s s' r :
  await_response options s = Some (s', r) ->
  keeps s s' /\ su_result s' = su_result s /\
  forall response, r = Ok response ->
    up_receive (su_upstream s) (ro_msg_id options) = (su_upstream s', Ok response) /\
    validate_incoming response options = Ok response.
Proof.
  unfold await_response, mbind, eff_bind. destruct (upstream _ s) as [[s1 [msg|e]]|] eqn:E1; [| |done];
    apply upstream_Ok in E1 as (u & E1 & ->); intros [= <- <-].
  - split; [apply keeps_upstream; by eapply us_receive|]. split; [done|]. intros response Hv.
    assert (msg = response) as ->.
    { unfold validate_incoming in Hv. destruct (wrong_command _ _); [done|].
      destruct (negb _); [done|]. destruct (negb _); [by destruct (ps_content _)|by injection Hv]. }
    done.
  - split; [apply keeps_upstream; by eapply us_receive|]. split; [done|]. intros ? [=].
Qed.

(** A status that was asked for. *)
Lemma validate_incoming_status response options st :
  validate_incoming response options = Ok response -> ro_status options = [st] ->
  hd_status (ps_header (cp_message response)) = status_code st.
Proof.
  unfold validate_incoming. intros H Hs. rewrite Hs in H. destruct (wrong_command _ _); [done|].
  destruct (negb _); [done|]. cbn [existsb] in H. destruct (bool_decide _) eqn:E; [by apply bool_decide_eq_true in E|].
  cbn in H. by destruct (ps_content _).
Qed.

(** What is known of a response that was received. *)
Lemma receive_spec kind mid (final : bool) s s' r :
  receive_setup_response conn_info kind mid final s = Some (s', r) ->
  keeps s s' /\ su_result s' = su_result s /\
  forall response, r = Ok response ->
    up_receive (su_upstream s) mid = (su_upstream s', Ok response) /\
    hd_status (ps_header (cp_message response)) = status_code (if final then St_Success else St_MoreProcessingRequired) /\
    forall context sac, su_context s = Some context -> su_result s = Some sac -> is_Some (sac_channel sac) ->
      verify_incoming (Some conn_info) (sac_session sac) (sac_session_id context) response = Ok tt.
Proof.
  unfold receive_setup_response. unfold mbind at 1, eff_bind at 1, e_get at 1. unfold mbind at 1, eff_bind at 1, e_lift at 1.
  destruct (gss_is_authenticated _) as [done_|]; [|by intros [= <- <-]].
  set (options := mkOptions _ _ _).
  assert (Hst : forall response, validate_incoming response options = Ok response ->
    hd_status (ps_header (cp_message response)) = status_code (if final then St_Success else St_MoreProcessingRequired)).
  { intros response Hv. by eapply validate_incoming_status. }
  cbv zeta. unfold e_map_err.
  destruct (su_context s) as [context|] eqn:Ec.
  - unfold recvo_internal. unfold mbind at 1, eff_bind at 1.
    destruct (await_response options s) as [[s1 [resp|e]]|] eqn:E1; [| |done];
      apply await_response_spec in E1 as (K1 & R1 & H1).
    2: { intros [= <- <-]. split_and!; [done..|]. intros ? [=]. }
    destruct (H1 resp eq_refl) as [H2 H3]. unfold mbind, eff_bind, e_get, e_lift, mret, eff_ret.
    destruct (bool_decide (kind = SK_New) && _) eqn:Eskip.
    + destruct (si_is_initial _); [|done]. intros [= <- <-]. split_and!; [done..|]. intros ? [= <-]. split_and!; [done|auto|].
      intros ctx sac [= <-] Hs Hc. apply andb_true_iff in Eskip as [_ Eskip]. by rewrite Hs, bool_decide_eq_true_2 in Eskip.
    + unfold shared_state. rewrite R1.
      destruct (verify_incoming _ _ _ resp) as [[]|] eqn:Ev; intros [= <- <-]; (split_and!; [done..|]); [|intros ? [=]].
      intros ? [= <-]. split_and!; [done|auto|]. intros ctx sac [= <-] Hs Hc. by rewrite Hs in Ev.
  - destruct (_ && _); [|done]. destruct (await_response options s) as [[s1 [resp|e]]|] eqn:E1; [| |done];
      apply await_response_spec in E1 as (K1 & R1 & H1); intros [= <- <-]; (split_and!; [done..|]); [|intros ? [=]].
    intros ? [= <-]. destruct (H1 resp eq_refl) as [H2 H3]. split_and!; [done|auto|done].
Qed.

(** ** New sessions *)

(** Before the first response, and between the first response and the final request. *)
Definition unopened s : Prop := su_result s = None /\ su_context s = None /\ su_flags s = None.

Definition opened s : Prop := exists sac context,
  su_result s = Some sac /\ su_context s = Some context /\ sac_session_id context = sac_session_id sac /\
  sac_session sac = session_new (sac_session_id sac) /\ sac_channel sac = None.

(** The response that ended an exchange which began at [u]: it was received from the runtime,
    it is a success that carries [flags], and it was checked unless it makes a guest. *)
Definition checked_final (u : U) (flags sid : Z) s : Prop :=
  exists u1 u2 mid response buffer,
    rtc up_step u u1 /\ up_receive u1 mid = (u2, Ok response) /\ rtc up_step u2 (su_upstream s) /\
    hd_status (ps_header (cp_message response)) = status_code St_Success /\
    ps_content (cp_message response) = RC_SessionSetup flags buffer /\
    hd_session_id (ps_header (cp_message response)) = sid /\
    (is_guest_or_null_session flags = true \/ signed_or_encrypted (cp_form response) = true).

(** The session after the final request, before it is put in use. *)
Definition keyed (u : U) s : Prop := exists sac session key hash hash' c flags,
  su_result s = Some (mkSessionAndChannel (sac_session_id sac) session (Some c)) /\
  gss_session_key (su_authenticator s) = Ok key /\
  si_setup (session_new (sac_session_id sac)) key hash conn_info = Ok session /\
  channel_new new_channel_id key hash' conn_info = Ok c /\
  su_flags s = Some flags /\ checked_final u flags (sac_session_id sac) s.

(** The authenticator's last call left it done, with nothing to send. *)
Definition content_with_nothing (g : G) : Prop :=
  exists g0 token, gss_next g0 token = (g, Ok []) /\ gss_is_authenticated g = Ok true.

Lemma set_session_spec session s s' :
  set_session session s = Some (s', Ok tt) ->
  let sac := mkSessionAndChannel (si_session_id session) session None in
  su_result s' = Some sac /\ su_context s' = Some sac /\ su_authenticator s' = su_authenticator s /\
  rtc up_step (su_upstream s) (su_upstream s').
Proof.
  unfold set_session, mbind, eff_bind, e_modify. set (s1 := s <| su_context := _ |>).
  destruct (upstream _ s1) as [[s2 [[]|]]|] eqn:E; [|done|done]. apply upstream_Ok in E as (u & E & ->).
  intros [= <-]. split_and!; [done..|]. cbn. apply rtc_once. by eapply us_started.
Qed.

Lemma verify_incoming_session_id {C} info session sid (r : CommandResponse C) :
  verify_incoming info session sid r = Ok tt -> hd_session_id (ps_header (cp_message r)) = sid.
Proof.
  unfold verify_incoming. intros H. destruct (hd_get_status _); [|done]. destruct (_ || _) in H; [done|].
  apply result_bind_Ok in H as (? & _ & H). apply result_bind_Ok in H as (? & _ & H). apply result_bind_Ok in H as (? & _ & H).
  destruct (bool_decide (_ = 0)); [done|]. destruct (bool_decide (hd_session_id _ ≠ sid)) eqn:E; [done|].
  by apply bool_decide_eq_false, dec_stable in E.
Qed.

Lemma authenticator_next_spec token s s' r :
  authenticator_next token s = Some (s', r) ->
  exists g, gss_next (su_authenticator s) token = (g, r) /\ s' = s <| su_authenticator := g |>.
Proof. unfold authenticator_next. destruct (gss_next _ _) as [g r']. intros [= <- <-]. by exists g. Qed.

(** A final request of a new session and its response. *)
Lemma final_round_spec buffer s s1 s2 mid response :
  opened s ->
  send_final_setup_request conn_info new_channel_id SK_New (make_request conn_info has_dfs SK_New buffer) s = Some (s1, Ok mid) ->
  receive_setup_response conn_info SK_New mid true s1 = Some (s2, Ok response) ->
  keeps s s2 /\ exists sac session key hash hash' c,
    su_result s2 = Some (mkSessionAndChannel (sac_session_id sac) session (Some c)) /\
    gss_session_key (su_authenticator s) = Ok key /\ si_setup (session_new (sac_session_id sac)) key hash conn_info = Ok session /\
    channel_new new_channel_id key hash' conn_info = Ok c /\
    rtc up_step (su_upstream s) (su_upstream s1) /\ up_receive (su_upstream s1) mid = (su_upstream s2, Ok response) /\
    hd_status (ps_header (cp_message response)) = status_code St_Success /\
    hd_session_id (ps_header (cp_message response)) = sac_session_id sac.
Proof.
  intros (sac & ctx & Hr & Hc & Hid & Hnew & _) H1 H2. apply send_final_spec in H1 as [K1 H1].
  destruct H1 as (sac' & session & key & hash & c & Hr' & Hk & Hch & [hash' Hs] & Hr1). assert (sac' = sac) as -> by congruence.
  apply receive_spec in H2 as (K2 & R2 & H2). destruct (H2 response eq_refl) as (Hrec & Hst & Hv).
  split; [by etrans|]. exists sac, session, key, hash', hash, c. rewrite R2. rewrite Hnew in Hs.
  split_and!; [done..|by apply keeps_up|done|done|]. rewrite <- Hid. eapply verify_incoming_session_id, Hv; [|exact Hr1|by eexists].
  by rewrite (ke_context _ _ K1).
Qed.

Lemma setup_turn_spec s s' (goes_on : bool) :
  unopened s \/ opened s ->
  setup_turn conn_info has_dfs new_channel_id SK_New s = Some (s', Ok goes_on) ->
  rtc up_step (su_upstream s) (su_upstream s') /\
  if goes_on then opened s' /\ gss_is_authenticated (su_authenticator s') = Ok false else
    keyed (su_upstream s) s' \/ (content_with_nothing (su_authenticator s') /\
      su_flags s' = su_flags s /\ (unopened s \/ opened s')).
Proof.
  intros Hph H. unfold setup_turn in H. apply eff_bind_Ok in H as (s0 & x0 & [= <- <-] & H).
  apply eff_bind_Ok in H as (s1 & buf & H1 & H). apply authenticator_next_spec in H1 as (g & Hg & ->).
  set (s1 := s <| su_authenticator := g |>) in *.
  assert (Hph1 : unopened s1 \/ opened s1) by exact Hph.
  assert (U1 : su_upstream s1 = su_upstream s) by done.
  apply eff_bind_Ok in H as (s0 & x0 & [= <- <-] & H).
  apply eff_bind_Ok in H as (s0 & auth & Ha & H). apply e_lift_Ok in Ha as [-> Ha].
  destruct (auth && bool_decide (buf = [])) eqn:Ebuf.
  { apply eff_ret_Ok in H as [-> <-]. split; [done|]. right. apply andb_true_iff in Ebuf as [-> ->%bool_decide_eq_true].
    split_and!; [by eexists _, _|done|]. destruct Hph; auto. }
  clear Ebuf. set (final := auth || _) in H.
  assert (Ha1 : final = false -> gss_is_authenticated (su_authenticator s1) = Ok false).
  { unfold final. intros [-> _]%orb_false_iff. done. }
  clearbody final. rewrite <- U1. clearbody s1. clear Hph U1 Hg Ha.
  apply eff_bind_Ok in H as (s2 & mid & H2 & H). apply eff_bind_Ok in H as (s3 & response & H3 & H).
  apply eff_bind_Ok in H as (s0 & [flags buffer] & Hc & H). apply e_lift_Ok in Hc as [-> Hc].
  assert (Hcontent : ps_content (cp_message response) = RC_SessionSetup flags buffer).
  { unfold to_sessionsetup in Hc. destruct (ps_content _); naive_solver. }
  apply eff_bind_Ok in H as (s0 & x0 & [= <- <-] & H). apply eff_bind_Ok in H as (s4 & [] & H4 & H).
  unfold send_setup_request in H2. destruct final; cbn [andb negb] in H.
  - destruct Hph1 as [(Hr & _)|Hopen].
    { apply send_final_spec in H2 as (_ & ? & ? & ? & ? & ? & Hr' & _). congruence. }
    destruct (final_round_spec _ _ _ _ _ _ Hopen H2 H3) as (K & sac & session & key & hash & hash' & c & Hr3 & Hk & Hs & Hch & Hu & Hrec & Hst & Hsid).
    rewrite Hr3 in H4. apply eff_ret_Ok in H4 as [-> _].
    destruct (negb (is_guest_or_null_session flags) && _) eqn:Esig; [done|].
    apply eff_bind_Ok in H as (s5 & [] & [= <-] & H). apply eff_ret_Ok in H as [-> <-]. split; [by apply (keeps_up s1 s3)|].
    left. exists sac, session, key, hash, hash', c, flags. split_and!; [done|by cbn; rewrite (ke_authenticator _ _ K)|done..|].
    exists (su_upstream s2), (su_upstream s3), mid, response, buffer. split_and!; [done..|].
    apply andb_false_iff in Esig as [Esig|Esig]; apply negb_false_iff in Esig; auto.
  - apply send_intermediate_spec in H2 as [K2 R2]. apply receive_spec in H3 as (K3 & R3 & _).
    assert (K : keeps s1 s3) by by etrans.
    apply eff_bind_Ok in H as (s5 & [] & [= <-] & H). apply eff_ret_Ok in H as [-> <-].
    destruct (su_result s3) as [sac3|] eqn:Er3.
    + apply eff_ret_Ok in H4 as [-> _]. split; [by apply (keeps_up s1 s3)|]. split; [|cbn; rewrite (ke_authenticator _ _ K); auto].
      destruct Hph1 as [(Hr & _)|(sac & ctx & Hr & Hctx & Hrest)]; [congruence|].
      exists sac, ctx. cbn. rewrite Er3, (ke_context _ _ K). split_and!; [congruence|done|apply Hrest..].
    + apply eff_bind_Ok in H4 as (s0 & session & Hi & H4). injection Hi as <- <-.
      apply set_session_spec in H4 as (R4 & C4 & A4 & U4). split; [etrans; [by apply (keeps_up s1 s3)|exact U4]|].
      split; [by eexists _, _|]. cbn. rewrite A4, (ke_authenticator _ _ K). auto.
Qed.

Lemma keyed_earlier u u' s : rtc up_step u u' -> keyed u' s -> keyed u s.
Proof.
  intros Hu (sac & ses & key & h & h' & c & flags & H1 & H2 & H3 & H4 & H5 & u1 & u2 & mid & r & b & Hr & Hrest).
  exists sac, ses, key, h, h', c, flags. split_and!; [done..|]. exists u1, u2, mid, r, b. split; [by etrans|done].
Qed.

Lemma setup_turns_spec fuel : forall s s',
  unopened s \/ opened s /\ gss_is_authenticated (su_authenticator s) = Ok false ->
  setup_turns conn_info has_dfs new_channel_id SK_New fuel s = Some (s', Ok tt) ->
  rtc up_step (su_upstream s) (su_upstream s') /\
  (keyed (su_upstream s) s' \/ (content_with_nothing (su_authenticator s') /\ opened s') \/ su_flags s' = None).
Proof.
  induction fuel as [|fuel IH]; intros s s' Hph H; [done|]. cbn [setup_turns] in H.
  apply eff_bind_Ok in H as (s0 & x0 & [= <- <-] & H). apply eff_bind_Ok in H as (s0 & auth & Ha & H).
  apply e_lift_Ok in Ha as [-> Ha]. destruct auth.
  { apply eff_ret_Ok in H as [-> _]. split; [done|]. right. right. destruct Hph as [(_ & _ & Hf)|[_ Ho]]; [done|congruence]. }
  apply eff_bind_Ok in H as (s1 & goes_on & Ht & H). apply setup_turn_spec in Ht as [U1 Ht]; [|by destruct Hph as [|[]]; auto]. destruct goes_on.
  - apply IH in H as [U2 H]; [|by right]. split; [by etrans|]. destruct H as [H|H]; [left; by eapply keyed_earlier|by right].
  - apply eff_ret_Ok in H as [-> _]. split; [done|]. destruct Ht as [Ht|(Ht & Hf & Ho)]; [by left|]. right.
    destruct Ho as [(_ & _ & Hn)|Ho]; [right; congruence|by left].
Qed.

(** How a session in use came to be: keys were derived, a channel was made from the same key,
    and the flags under which it was put in use were checked against the policy. *)
Definition made_ready (s : SessionSetup G U) (flags : Z) (sac : SessionAndChannel) : Prop :=
  exists session key hash hash' c,
    gss_session_key (su_authenticator s) = Ok key /\
    si_setup (session_new (sac_session_id sac)) key hash conn_info = Ok session /\
    si_ready session flags conn_info = Ok (sac_session sac) /\
    channel_new new_channel_id key hash' conn_info = Ok c /\ sac_channel sac = Some c.

Lemma on_setup_success_spec s s' :
  on_setup_success conn_info SK_New s = Some (s', Ok tt) ->
  keeps s s' /\ exists flags sac session, su_flags s = Some flags /\ su_result s = Some sac /\
    si_ready (sac_session sac) flags conn_info = Ok session /\ su_result s' = Some (sac <| sac_session := session |>).
Proof.
  intros H. unfold on_setup_success in H. apply eff_bind_Ok in H as (s0 & x0 & [= <- <-] & H).
  apply eff_bind_Ok in H as (s0 & flags & Hf & H). apply e_lift_Ok in Hf as [-> Hf]. apply ok_or_Ok in Hf.
  apply write_session_spec in H as [K (sac & session & H1 & H2 & H3)]. split; [done|]. by exists flags, sac, session.
Qed.

Lemma new_session_setup fuel g u s' sac :
  setup_session conn_info has_dfs new_channel_id SK_New fuel (mkSetup None None None None None g u) = Some (s', Ok sac) ->
  exists flags, made_ready s' flags sac /\
    (checked_final u flags (sac_session_id sac) s' \/ content_with_nothing (su_authenticator s')).
Proof.
  unfold setup_session. set (s := mkSetup _ _ _ _ _ g u).
  destruct (setup_loop _ _ _ _ _ s) as [[s1 [[]|e]]|] eqn:El; [| |done].
  2: { destruct (error_cleanup _ _) as [[s2 r]|]; [|done]. intros [=]. }
  intros [= <- Hr]. apply ok_or_Ok in Hr. unfold setup_loop in El.
  apply eff_bind_Ok in El as (s2 & [] & Ht & H). apply setup_turns_spec in Ht as [U2 Ht]; [|by left].
  apply eff_bind_Ok in H as (s0 & x0 & [= <- <-] & H). apply eff_bind_Ok in H as (s0 & flags & Hf & H).
  apply e_lift_Ok in Hf as [-> Hf]. apply ok_or_Ok in Hf. apply eff_bind_Ok in H as (s3 & [] & H3 & H).
  apply on_setup_success_spec in H as (K4 & flags' & sac3 & session & Hf3 & Hr3 & Hready & Hr4).
  assert (sac = sac3 <| sac_session := session |>) as -> by congruence. exists flags'.
  destruct Ht as [(sac2 & ses & key & hash & hash' & c & flags2 & Hr2 & Hk & Hs & Hc & Hf2 & Hfin)|[(Hauth & (sac2 & ctx & Hr2 & _ & _ & Hnew & Hch))|Hn]];
    [| |congruence].
  - rewrite Hr2 in H3. apply eff_ret_Ok in H3 as [-> _]. assert (sac3 = mkSessionAndChannel (sac_session_id sac2) ses (Some c)) as -> by congruence.
    assert (flags' = flags2) as -> by congruence. cbn in *. split.
    + exists ses, key, hash, hash', c. cbn. by rewrite (ke_authenticator _ _ K4).
    + left. destruct Hfin as (u1 & u2 & mid & r & b & H1 & H2 & H5 & H6). exists u1, u2, mid, r, b. split_and!; [done|done| |apply H6..].
      etrans; [exact H5|by apply (keeps_up s2 s1)].
  - rewrite Hr2 in H3. rewrite Hch in H3. apply make_channel_spec in H3 as [K3 H3].
    destruct H3 as (sac' & ses & key & hash & c & Hr2' & Hk & Hc & [hash' Hs] & Hr3').
    assert (sac' = sac2) as -> by congruence. assert (sac3 = mkSessionAndChannel (sac_session_id sac2) ses (Some c)) as -> by congruence.
    cbn in *. rewrite Hnew in Hs. assert (Ha : su_authenticator s1 = su_authenticator s2) by (rewrite (ke_authenticator _ _ K4); apply K3).
    split; [|right; by rewrite Ha]. exists ses, key, hash', hash, c. cbn. by rewrite Ha.
Qed.

(** ** Binding *)

(** A setup that binds a channel: the session it binds to and its identity. *)
Definition bound (session : SessionInfo) s : Prop := exists sac context,
  su_result s = Some sac /\ su_context s = Some context /\ sac_session sac = session /\ is_Some (sac_channel sac).

Lemma keeps_bound session s s' : keeps s s' -> su_result s' = su_result s -> bound session s -> bound session s'.
Proof.
  intros K R (sac & ctx & H1 & H2 & H3 & H4). exists sac, ctx. rewrite R, (ke_context _ _ K). done.
Qed.

Lemma make_channel_bound session s s' r :
  make_channel conn_info new_channel_id SK_Bind s = Some (s', r) -> bound session s -> bound session s'.
Proof.
  intros H Hb. apply make_channel_spec in H as [K H]. destruct r as [[]|].
  - destruct H as (sac & ses & key & h & c & Hr & _ & _ & -> & Hr'). destruct Hb as (sac' & ctx & H1 & H2 & H3 & _).
    assert (sac' = sac) as -> by congruence. eexists _, ctx. rewrite Hr', (ke_context _ _ K). by split_and!.
  - destruct H as (sac' & <- & H & _). by eapply keeps_bound; [exact K|apply H|].
Qed.

Lemma send_setup_request_bound session buffer final s s' r :
  send_setup_request conn_info has_dfs new_channel_id SK_Bind buffer final s = Some (s', r) -> bound session s -> bound session s'.
Proof.
  intros H Hb. unfold send_setup_request in H. destruct final.
  - apply send_final_spec in H as [K H]. destruct r as [mid|].
    + destruct H as (sac & ses & key & h & c & Hr & _ & _ & -> & Hr'). destruct Hb as (sac' & ctx & H1 & H2 & H3 & _).
      assert (sac' = sac) as -> by congruence. eexists _, ctx. rewrite Hr', (ke_context _ _ K). by split_and!.
    + eapply keeps_bound; [exact K|by apply H|done].
  - apply send_intermediate_spec in H as [K R]. by eapply keeps_bound.
Qed.

Lemma setup_turn_bound session : triple (bound session) (setup_turn conn_info has_dfs new_channel_id SK_Bind) (fun _ => True).
Proof.
  assert (Hmod : forall f, (forall s, su_result (f s) = su_result s /\ su_context (f s) = su_context s) ->
    triple (E := Error) (bound session) (e_modify f) (fun _ => True)).
  { intros f Hf. apply triple_modify. intros s (sac & ctx & H). destruct (Hf s) as [Hr Hc]. exists sac, ctx. by rewrite Hr, Hc. }
  unfold setup_turn. eapply triple_bind; [apply triple_get|]. intros s _.
  eapply triple_bind with (Q := fun _ => True).
  { intros s0 s1 r Hb H. apply authenticator_next_spec in H as (g & _ & ->). split; [exact Hb|done]. }
  intros buf _. eapply triple_bind; [apply triple_get|]. intros s1 _. eapply triple_bind; [apply triple_lift_eq|]. intros auth _.
  destruct (auth && _); [by apply triple_ret|]. set (final := auth || _). clearbody final.
  eapply triple_bind with (Q := fun _ => True).
  { intros s0 s2 r Hb H. split; [by eapply send_setup_request_bound|done]. }
  intros mid _. eapply triple_bind with (Q := fun _ => True).
  { intros s0 s2 r Hb H. apply receive_spec in H as (K & R & _). split; [by eapply keeps_bound|done]. }
  intros response _. eapply triple_bind; [apply triple_lift_eq|]. intros [flags buffer] _.
  eapply triple_bind; [apply triple_get|]. intros s2 Hs2. eapply triple_bind with (Q := fun _ => True).
  { destruct Hs2 as (sac & ctx & -> & _). by apply triple_ret. }
  intros _ _. destruct (_ && _ && _); [by apply triple_lift|]. eapply triple_bind; [by apply Hmod|]. intros _ _. by apply triple_ret.
Qed.

Lemma setup_turns_bound session fuel :
  triple (bound session) (setup_turns conn_info has_dfs new_channel_id SK_Bind fuel) (fun _ => True).
Proof.
  induction fuel as [|fuel IH]; [by intros ? ? ? ? [=]|]. cbn [setup_turns].
  eapply triple_bind; [apply triple_get|]. intros s _. eapply triple_bind; [apply triple_lift_eq|]. intros auth _.
  destruct auth; [by apply triple_ret|]. eapply triple_bind; [apply setup_turn_bound|]. intros goes_on _.
  destruct goes_on; [apply IH|by apply triple_ret].
Qed.

Lemma setup_loop_bound session fuel :
  triple (bound session) (setup_loop conn_info has_dfs new_channel_id SK_Bind fuel) (fun _ => True).
Proof.
  unfold setup_loop. eapply triple_bind; [apply setup_turns_bound|]. intros _ _.
  eapply triple_bind; [apply triple_get|]. intros s Hs. eapply triple_bind; [apply triple_lift_eq|]. intros flags _.
  eapply triple_bind with (Q := fun _ => True); [|intros _ _; by apply triple_ret].
  destruct Hs as (sac & ctx & -> & _ & _ & [c ->]). by apply triple_ret.
Qed.

(** What the cleanup after an error leaves. *)
Lemma error_cleanup_spec kind s s' r :
  error_cleanup kind s = Some (s', r) ->
  match su_result s with
  | None => s' = s
  | Some sac =>
      let sac' := if bool_decide (kind = SK_New) then sac <| sac_session := si_invalidate (sac_session sac) |> else sac in
      su_result s' = Some sac' /\ exists u r', up_session_ended (su_upstream s) sac' = (u, r') /\ su_upstream s' = u
  end.
Proof.
  unfold error_cleanup. unfold mbind at 1, eff_bind at 1, e_get at 1. destruct (su_result s) as [sac|] eqn:Er; [|by intros [= <- <-]].
  unfold mbind, eff_bind, e_get, e_lift, mret, eff_ret. destruct kind.
  - unfold write_session. unfold mbind, eff_bind, e_get, e_lift, e_modify. rewrite Er. cbn [ok_or su_result].
    change (su_result (s <| su_result := Some (sac <| sac_session := si_invalidate (sac_session sac) |>) |>))
      with (Some (sac <| sac_session := si_invalidate (sac_session sac) |>)). cbn [ok_or].
    intros H. apply upstream_Ok in H as (u & H & ->). rewrite bool_decide_eq_true_2 by done. cbn. split; [done|]. by exists u, r.
  - rewrite Er. cbn [ok_or]. intros H. apply upstream_Ok in H as (u & H & ->). rewrite bool_decide_eq_false_2 by done.
    cbn. split; [done|]. by exists u, r.
Qed.

(** ** What the runtime was told *)

(** The runtime at [u], as a setup that began at [u0] left it: a new session [id] was registered with it, once, and nothing has
    ended; the session that a channel is bound to was registered before, and no other was. *)
Definition registered (kind : SetupKind) (u0 : U) (id : Z) (u : U) : Prop :=
  match kind with
  | SK_Bind => rtc quiet_step u0 u
  | SK_New => exists sac u1 u2, sac_session_id sac = id /\
      rtc quiet_step u0 u1 /\ up_session_started u1 sac = (u2, Ok tt) /\ rtc quiet_step u2 u
  end.

(** The setup has a result exactly when it has a registration. *)
Definition registration (kind : SetupKind) (u0 : U) s : Prop :=
  match su_result s with
  | None => kind = SK_New /\ rtc quiet_step u0 (su_upstream s)
  | Some sac => registered kind u0 (sac_session_id sac) (su_upstream s)
  end.

Lemma registered_later kind u0 id u u' : registered kind u0 id u -> rtc quiet_step u u' -> registered kind u0 id u'.
Proof.
  destruct kind; cbn [registered]; [|by intros; etrans]. intros (sac & u1 & u2 & H1 & H2 & H3 & H4) H.
  exists sac, u1, u2. split_and!; [done..|by etrans].
Qed.

Lemma keeps_registration kind u0 s s' :
  keeps s s' -> sac_session_id <$> su_result s' = sac_session_id <$> su_result s ->
  registration kind u0 s -> registration kind u0 s'.
Proof.
  intros K Hr. unfold registration. destruct (su_result s) as [sac|], (su_result s') as [sac'|]; try done; cbn in Hr.
  - injection Hr as ->. intros H. eapply registered_later, K. exact H.
  - intros [-> H]. split; [done|]. etrans; [exact H|apply K].
Qed.

Lemma make_channel_id kind s s' r :
  make_channel conn_info new_channel_id kind s = Some (s', r) ->
  keeps s s' /\ sac_session_id <$> su_result s' = sac_session_id <$> su_result s.
Proof.
  intros H. apply make_channel_spec in H as [K H]. split; [done|]. destruct r as [[]|].
  - by destruct H as (sac & ses & key & h & c & -> & _ & _ & _ & ->).
  - destruct H as (sac & <- & _ & H). exact H.
Qed.

Lemma send_setup_request_id kind buffer final s s' r :
  send_setup_request conn_info has_dfs new_channel_id kind buffer final s = Some (s', r) ->
  keeps s s' /\ sac_session_id <$> su_result s' = sac_session_id <$> su_result s.
Proof.
  intros H. unfold send_setup_request in H. destruct final.
  - apply send_final_spec in H as [K H]. split; [done|]. destruct r as [mid|]; [|exact (proj2 H)].
    by destruct H as (sac & ses & key & h & c & -> & _ & _ & _ & ->).
  - apply send_intermediate_spec in H as [K ->]. done.
Qed.

(** A session is registered and recorded together, or neither. *)
Lemma set_session_registration u0 session s s' r :
  set_session session s = Some (s', r) -> su_result s = None -> registration SK_New u0 s -> registration SK_New u0 s'.
Proof.
  unfold registration. intros H Hn. rewrite Hn. intros [_ Hu]. unfold set_session, mbind, eff_bind, e_modify in H.
  set (s1 := s <| su_context := _ |>) in H. assert (Hn1 : su_result s1 = None) by exact Hn.
  assert (Hu1 : su_upstream s1 = su_upstream s) by done. clearbody s1.
  destruct (upstream _ s1) as [[s2 r2]|] eqn:E; [|done]. apply upstream_Ok in E as (u & E & ->). rewrite Hu1 in E.
  destruct r2 as [[]|e]; injection H as <- <-; cbn.
  - eexists (mkSessionAndChannel (si_session_id session) session None), (su_upstream s), u. split_and!; [done|exact Hu|exact E|done].
  - rewrite Hn1. split; [done|]. eapply rtc_r; [exact Hu|]. by eapply us_refused.
Qed.

Definition open_session (kind : SetupKind) (session_id : Z) s : eff (SessionSetup G U) Error unit :=
  match su_result s with
  | None => session_info ← init_session kind session_id; set_session session_info
  | Some _ => mret tt
  end.

Lemma open_session_registration kind u0 session_id s s' r :
  registration kind u0 s -> open_session kind session_id s s = Some (s', r) -> registration kind u0 s'.
Proof.
  unfold open_session. destruct (su_result s) as [sac|] eqn:Er; [by intros Hs [= <- <-]|]. destruct kind; [|done].
  unfold init_session, mbind, eff_bind, mret, eff_ret. intros Hs H. by eapply set_session_registration.
Qed.

(** A step that depends on the state it is taken in. *)
Lemma triple_getter {A B} (P : SessionSetup G U -> Prop) (m : SessionSetup G U -> eff (SessionSetup G U) Error A)
    (f : A -> eff (SessionSetup G U) Error B) :
  (forall s s' r, P s -> m s s = Some (s', r) -> P s') -> (forall a, triple P (f a) (fun _ => True)) ->
  triple P (s ← e_get; a ← m s; f a) (fun _ => True).
Proof.
  intros Hm Hf s s' r Hp H. unfold mbind, eff_bind, e_get in H. split; [|done].
  destruct (m s s) as [[s1 [a|e]]|] eqn:E; [| |done]; specialize (Hm _ _ _ Hp E).
  - by apply (Hf a s1 s' r).
  - by injection H as <- <-.
Qed.

Lemma setup_turn_registration kind u0 :
  triple (registration kind u0) (setup_turn conn_info has_dfs new_channel_id kind) (fun _ => True).
Proof.
  unfold setup_turn. eapply triple_bind; [apply triple_get|]. intros s _.
  eapply triple_bind with (Q := fun _ => True).
  { intros s0 s1 r Hb H. apply authenticator_next_spec in H as (g & _ & ->). split; [exact Hb|done]. }
  intros buf _. eapply triple_bind; [apply triple_get|]. intros s1 _. eapply triple_bind; [apply triple_lift_eq|]. intros auth _.
  destruct (auth && _); [by apply triple_ret|]. set (final := auth || _). clearbody final.
  eapply triple_bind with (Q := fun _ => True).
  { intros s0 s2 r Hb H. apply send_setup_request_id in H as [K R]. split; [by eapply keeps_registration|done]. }
  intros mid _. eapply triple_bind with (Q := fun _ => True).
  { intros s0 s2 r Hb H. apply receive_spec in H as (K & R & _). split; [by eapply keeps_registration; [exact K|by rewrite R|]|done]. }
  intros response _. eapply triple_bind; [apply triple_lift_eq|]. intros [flags buffer] _.
  apply (triple_getter _ (open_session kind (hd_session_id (ps_header (cp_message response))))); [apply open_session_registration|]. intros _.
  destruct (_ && _ && _); [by apply triple_lift|]. eapply triple_bind; [by apply triple_modify|]. intros _ _. by apply triple_ret.
Qed.

Lemma setup_turns_registration kind u0 fuel :
  triple (registration kind u0) (setup_turns conn_info has_dfs new_channel_id kind fuel) (fun _ => True).
Proof.
  induction fuel as [|fuel IH]; [by intros ? ? ? ? [=]|]. cbn [setup_turns].
  eapply triple_bind; [apply triple_get|]. intros s _. eapply triple_bind; [apply triple_lift_eq|]. intros auth _.
  destruct auth; [by apply triple_ret|]. eapply triple_bind; [apply setup_turn_registration|]. intros goes_on _.
  destruct goes_on; [apply IH|by apply triple_ret].
Qed.

Lemma setup_loop_registration kind u0 fuel :
  triple (registration kind u0) (setup_loop conn_info has_dfs new_channel_id kind fuel) (fun _ => True).
Proof.
  unfold setup_loop. eapply triple_bind; [apply setup_turns_registration|]. intros _ _.
  eapply triple_bind; [apply triple_get|]. intros s Hs. eapply triple_bind; [apply triple_lift_eq|]. intros flags _.
  eapply triple_bind with (Q := fun _ => True).
  - destruct (su_result s) as [sac|]; [|by apply triple_ret]. destruct (sac_channel sac); [by apply triple_ret|].
    intros s1 s2 r Hb H. apply make_channel_id in H as [K R]. split; [by eapply keeps_registration|done].
  - intros _ _. unfold on_setup_success. destruct kind; [|by apply triple_ret].
    eapply triple_bind; [apply triple_get|]. intros s0 _. eapply triple_bind; [apply triple_lift_eq|]. intros flags' _.
    intros s1 s2 r Hb H. split; [|done]. apply write_session_spec in H as [K H]. eapply keeps_registration; [exact K| |exact Hb].
    destruct r as [[]|]; [by destruct H as (sac & session & -> & _ & ->)|by subst].
Qed.

(** The registrations of a whole setup, from its result. *)
Lemma setup_registration kind fuel s s' r :
  match kind with
  | SK_New => su_result s = None /\ su_context s = None /\ su_flags s = None
  | SK_Bind => exists session, bound session s
  end ->
  setup_session conn_info has_dfs new_channel_id kind fuel s = Some (s', r) ->
  match r with
  | Ok sac => registered kind (su_upstream s) (sac_session_id sac) (su_upstream s')
  | Err _ =>
      match su_result s' with
      | None => kind = SK_New /\ rtc quiet_step (su_upstream s) (su_upstream s')
      | Some sac =>
          (exists u r', registered kind (su_upstream s) (sac_session_id sac) u /\ up_session_ended u sac = (su_upstream s', r')) /\
          (kind = SK_New -> si_state (sac_session sac) = SI_Invalid)
      end
  end.
Proof.
  intros Hph. assert (H0 : registration kind (su_upstream s) s).
  { unfold registration. destruct kind; [by destruct Hph as (-> & _)|]. destruct Hph as (session & sac & ctx & -> & _). apply rtc_refl. }
  unfold setup_session. destruct (setup_loop _ _ _ _ fuel s) as [[s1 r1]|] eqn:El; [|done].
  destruct (setup_loop_registration kind _ fuel s s1 _ H0 El) as [H1 _]. unfold registration in H1. destruct r1 as [[]|e].
  - intros [= <- <-]. cbn. destruct (su_result s1) as [sac|] eqn:Er; [done|]. cbn. by rewrite ?Er.
  - destruct (error_cleanup kind s1) as [[s2 r2]|] eqn:Ec; [|done]. intros [= <- <-]. apply error_cleanup_spec in Ec.
    destruct (su_result s1) as [sac|] eqn:Er; [|subst s2; by rewrite Er].
    destruct Ec as [-> (u & r' & Hended & ->)]. split; [|intros ->; by rewrite bool_decide_eq_true_2].
    exists (su_upstream s1), r'. split; [|exact Hended]. by destruct kind; [rewrite bool_decide_eq_true_2|rewrite bool_decide_eq_false_2].
Qed.

(** ** The exchange does not panic *)

Lemma upstream_total {A} (call : U -> U * result Error A) : total (S := SessionSetup G U) (upstream call).
Proof. intros s. unfold upstream. by destruct (call _). Qed.
Local Hint Resolve upstream_total : smb.

Lemma submit_total request : total (S := SessionSetup G U) (submit conn_info request).
Proof. unfold submit. auto with smb. Qed.

Lemma write_session_total f : total (S := SessionSetup G U) (write_session f).
Proof. unfold write_session. auto 6 with smb. Qed.
Local Hint Resolve submit_total write_session_total : smb.

Lemma session_key_total : total (S := SessionSetup G U) session_key.
Proof. unfold session_key. auto with smb. Qed.
Local Hint Resolve session_key_total : smb.

Lemma make_channel_total kind : total (S := SessionSetup G U) (make_channel conn_info new_channel_id kind).
Proof.
  assert (H : total (S := SessionSetup G U) (on_session_key_exchanged conn_info kind)).
  { unfold on_session_key_exchanged, preauth_hash_snapshot. destruct kind; auto 6 with smb. }
  unfold make_channel, preauth_hash_snapshot. auto 12 with smb.
Qed.
Local Hint Resolve make_channel_total : smb.

Lemma send_setup_request_total kind buffer final :
  total (S := SessionSetup G U) (send_setup_request conn_info has_dfs new_channel_id kind buffer final).
Proof.
  unfold send_setup_request. destruct final.
  - unfold send_final_setup_request. apply total_bind; [auto with smb|intros request]. apply total_bind; [auto with smb|intros s].
    apply total_bind; [auto with smb|intros sac]. cbv zeta. apply total_bind; [destruct kind; auto with smb|auto 6 with smb].
  - unfold send_intermediate_setup_request. apply total_bind; [auto with smb|intros s]. destruct (su_context s); auto with smb.
Qed.

Lemma await_response_total options : total (S := SessionSetup G U) (await_response options).
Proof. unfold await_response. auto with smb. Qed.

Lemma on_setup_success_total kind : total (S := SessionSetup G U) (on_setup_success conn_info kind).
Proof. unfold on_setup_success. destruct kind; auto 6 with smb. Qed.

Lemma error_cleanup_total kind : total (S := SessionSetup G U) (error_cleanup kind).
Proof.
  unfold error_cleanup. apply total_bind; [auto with smb|intros s]. destruct (su_result s); [|auto with smb].
  apply total_bind; [destruct kind; auto with smb|auto 6 with smb].
Qed.

Lemma set_session_total session : total (S := SessionSetup G U) (set_session session).
Proof. unfold set_session. auto 6 with smb. Qed.

(** A response may be received: checks are only skipped for a session that has no keys. *)
Definition may_receive kind s : Prop :=
  match kind with
  | SK_New => unopened s \/ exists sac context, su_result s = Some sac /\ su_context s = Some context /\
                (sac_channel sac = None -> si_is_initial (sac_session sac) = true)
  | SK_Bind => is_Some (su_context s)
  end.

Lemma receive_total kind mid final s :
  may_receive kind s -> receive_setup_response conn_info kind mid final s <> None.
Proof.
  intros Hm. unfold receive_setup_response. unfold mbind at 1, eff_bind at 1, e_get at 1. unfold mbind at 1, eff_bind at 1, e_lift at 1.
  destruct (gss_is_authenticated _) as [auth|]; [|done]. cbv zeta. rewrite e_map_err_None. set (options := mkOptions _ _ _).
  destruct (su_context s) as [context|] eqn:Ec.
  - unfold recvo_internal. rewrite eff_bind_None. intros [H|(s1 & incoming & H1 & H)]; [by apply await_response_total in H|].
    apply await_response_spec in H1 as (_ & R1 & _). apply eff_bind_None in H as [|(s2 & x & [= <- <-] & H)]; [done|].
    destruct (_ && _) eqn:Eskip in H; [|by destruct (verify_incoming _ _ _ _)].
    apply andb_true_iff in Eskip as [Ek Eskip]. apply bool_decide_eq_true in Ek as ->.
    destruct Hm as [(_ & Hn & _)|(sac & ctx & Hr & _ & Hi)]; [congruence|].
    unfold shared_state in H. rewrite R1 in H. rewrite Hr in H, Eskip. cbn [from_option id] in H.
    rewrite Hi in H; [done|]. destruct (sac_channel sac); [|done]. by rewrite bool_decide_eq_true_2 in Eskip.
  - destruct kind; [|destruct Hm; congruence]. destruct Hm as [(Hr & _)|(sac & ctx & _ & Hc & _)]; [|congruence].
    rewrite Hr. cbn. apply await_response_total.
Qed.

Definition in_setup kind s : Prop :=
  match kind with SK_New => unopened s \/ opened s | SK_Bind => exists session, bound session s end.

Lemma setup_turn_total kind s : in_setup kind s -> setup_turn conn_info has_dfs new_channel_id kind s <> None.
Proof.
  intros Hph H. unfold setup_turn in H. apply eff_bind_None in H as [|(s0 & x0 & [= <- <-] & H)]; [done|].
  apply eff_bind_None in H as [H|(s1 & buf & H1 & H)].
  { unfold authenticator_next in H. by destruct (gss_next _ _). }
  apply authenticator_next_spec in H1 as (g & _ & ->). set (s1 := s <| su_authenticator := g |>) in *.
  assert (Hph1 : in_setup kind s1) by exact Hph. clearbody s1. clear s Hph.
  apply eff_bind_None in H as [|(s0 & x0 & [= <- <-] & H)]; [done|].
  apply eff_bind_None in H as [|(s0 & auth & Ha & H)]; [done|]. apply e_lift_Ok in Ha as [-> _].
  destruct (auth && _); [done|]. set (final := auth || _) in H. clearbody final.
  apply eff_bind_None in H as [H|(s2 & mid & H2 & H)]; [by apply send_setup_request_total in H|].
  assert (Hm : may_receive kind s2 /\ (kind = SK_Bind -> is_Some (su_result s2))).
  { destruct kind; cbn in Hph1 |- *.
    - split; [|done]. unfold send_setup_request in H2. destruct final.
      + apply send_final_spec in H2 as [K2 (sac & ses & key & h & c & Hr & _ & _ & _ & Hr2)]. right.
        destruct Hph1 as [(Hn & _)|(sac' & ctx & _ & Hc & _)]; [congruence|].
        eexists _, ctx. rewrite Hr2, (ke_context _ _ K2). by split_and!.
      + apply send_intermediate_spec in H2 as [K2 R2]. destruct Hph1 as [(H1 & H3 & H4)|(sac & ctx & Hr & Hc & _ & Hn & _)].
        * left. unfold unopened. rewrite R2, (ke_context _ _ K2), (ke_flags _ _ K2). done.
        * right. exists sac, ctx. rewrite R2, (ke_context _ _ K2). split_and!; [done..|]. intros _. by rewrite Hn.
    - destruct Hph1 as [session Hb]. apply (send_setup_request_bound session) in H2 as (sac & ctx & Hr & Hc & _); [|done].
      split; [by eexists|]. by eexists. }
  destruct Hm as [Hm Hbind].
  apply eff_bind_None in H as [H|(s3 & response & H3 & H)]; [by apply receive_total in H|].
  apply receive_spec in H3 as (_ & R3 & _).
  apply eff_bind_None in H as [|(s0 & [flags buffer] & Hc & H)]; [done|]. apply e_lift_Ok in Hc as [-> _].
  apply eff_bind_None in H as [|(s0 & x0 & [= <- <-] & H)]; [done|].
  apply eff_bind_None in H as [H|(s4 & [] & _ & H)].
  - destruct (su_result s3) eqn:Er3; [done|]. destruct kind; [|destruct (Hbind eq_refl); congruence].
    apply eff_bind_None in H as [|(s0 & session & _ & H)]; [done|]. by apply set_session_total in H.
  - by destruct (_ && _ && _).
Qed.

(** The authenticator comes to an end within [n] rounds: it reports that it is done or has the
    session key, or it fails. *)
Fixpoint settles (n : nat) (g : G) : Prop :=
  gss_is_authenticated g <> Ok false \/
  match n with
  | O => False
  | S n => forall token g' r, gss_next g token = (g', r) ->
      (exists e, r = Err e) \/ gss_is_authenticated g' <> Ok false \/ (exists key, gss_session_key g' = Ok key) \/ settles n g'
  end.

Lemma setup_turn_settles kind s s' n :
  settles (S n) (su_authenticator s) -> gss_is_authenticated (su_authenticator s) = Ok false ->
  setup_turn conn_info has_dfs new_channel_id kind s = Some (s', Ok true) -> settles n (su_authenticator s').
Proof.
  intros Hs Hf H. unfold setup_turn in H. apply eff_bind_Ok in H as (s0 & x0 & [= <- <-] & H).
  apply eff_bind_Ok in H as (s1 & buf & H1 & H). apply authenticator_next_spec in H1 as (g & Hg & ->).
  set (s1 := s <| su_authenticator := g |>) in *. assert (Ha1 : su_authenticator s1 = g) by done. clearbody s1.
  apply eff_bind_Ok in H as (s0 & x0 & [= <- <-] & H). apply eff_bind_Ok in H as (s0 & auth & Ha & H).
  apply e_lift_Ok in Ha as [-> Ha]. rewrite Ha1 in *. destruct (auth && _); [by apply eff_ret_Ok in H as [_ ?]|].
  set (final := auth || _) in H.
  apply eff_bind_Ok in H as (s2 & mid & H2 & H). apply eff_bind_Ok in H as (s3 & response & H3 & H).
  apply eff_bind_Ok in H as (s0 & [flags buffer] & Hc & H). apply e_lift_Ok in Hc as [-> Hc].
  apply eff_bind_Ok in H as (s0 & x0 & [= <- <-] & H). apply eff_bind_Ok in H as (s4 & [] & H4 & H).
  destruct (final && _ && _); [done|]. apply eff_bind_Ok in H as (s5 & [] & [= <-] & H). apply eff_ret_Ok in H as [-> Hfin].
  apply negb_true_iff in Hfin. cbn [su_authenticator].
  assert (K3 : keeps s1 s3).
  { unfold send_setup_request in H2. rewrite Hfin in H2. apply send_intermediate_spec in H2 as [K2 _].
    apply receive_spec in H3 as (K3 & _). by etrans. }
  assert (A4 : su_authenticator s4 = g).
  { transitivity (su_authenticator s3); [|by rewrite (ke_authenticator _ _ K3)].
    destruct (su_result s3); [by apply eff_ret_Ok in H4 as [-> _]|]. apply eff_bind_Ok in H4 as (s0 & session & Hi & H4).
    destruct kind; [|done]. injection Hi as <- <-. by apply set_session_spec in H4 as (_ & _ & -> & _). }
  cbn. rewrite A4. destruct Hs as [Hs|Hs]; [done|]. destruct (Hs _ _ _ Hg) as [[e [=]]|[Hx|[[key Hx]|Hx]]]; [| |done].
  - unfold final in Hfin. apply orb_false_iff in Hfin as [-> _]. congruence.
  - unfold final in Hfin. rewrite Hx in Hfin. by rewrite orb_true_r in Hfin.
Qed.

Lemma setup_turns_total kind n : forall fuel s,
  in_setup kind s -> settles n (su_authenticator s) -> (n < fuel)%nat ->
  setup_turns conn_info has_dfs new_channel_id kind fuel s <> None.
Proof.
  induction n as [|n IH]; intros fuel s Hph Hs Hfuel H; (destruct fuel as [|fuel]; [lia|]); cbn [setup_turns] in H;
    (apply eff_bind_None in H as [|(s0 & x0 & [= <- <-] & H)]; [done|]);
    (apply eff_bind_None in H as [|(s0 & auth & Ha & H)]; [done|]); apply e_lift_Ok in Ha as [-> Ha];
    (destruct auth; [done|]).
  - destruct Hs as [Hs|[]]. congruence.
  - apply eff_bind_None in H as [H|(s1 & goes_on & H1 & H)]; [by apply setup_turn_total in H|].
    destruct goes_on; [|done]. revert H. apply IH; [|by eapply setup_turn_settles|lia]. destruct kind; cbn in Hph |- *.
    + right. by apply setup_turn_spec in H1 as [_ [H1 _]].
    + destruct Hph as [session Hb]. exists session. by eapply setup_turn_bound.
Qed.
End props.

(** The claims about setting sessions up, with a scripted authenticator and runtime as witnesses. *)

Section theorems.
Context {CR : Crypto} {G U : Type} {GS : Gss G} {UP : Upstream U}.
Context (conn_info : ConnectionInfo) (has_dfs : bool) (new_channel_id : Z).

(** The state a new session's setup begins in. *)
Definition setup_start (g : G) (u : U) : SessionSetup G U := mkSetup None None None None None g u.

(** C29: whatever the server and the authenticator do, a new session that is put in use has keys and
    a channel derived from the authenticator's session key, honours the configured policy, and
    was put in use with the flags of a final response that this exchange received for this
    session: a success that was signed or encrypted, or that makes the session a guest's. The one
    exception is an authenticator whose last call both left it done and gave it nothing to send: then
    no final request is made and no final response is read, and the session is put in use with the flags
    of the last intermediate response, which nobody checked. An authenticator that always has a
    token to send, as in every ordinary exchange, leaves only the first case. *)
Theorem new_session_needs_checked_response fuel g u s' sac :
  setup_session conn_info has_dfs new_channel_id SK_New fuel (setup_start g u) = Some (s', Ok sac) ->
  exists flags, made_ready conn_info new_channel_id s' flags sac /\ policy_honoured conn_info (sac_session sac) /\
    (checked_final u flags (sac_session_id sac) s' \/ content_with_nothing (su_authenticator s')).
Proof.
  intros H. apply new_session_setup in H as (flags & Hm & Hc). exists flags. split; [done|]. split; [|done].
  destruct Hm as (session & key & h & h' & c & _ & _ & Hr & _). eapply session_step_policy, step_ready, Hr.
Qed.

(** C30: a setup that fails leaves nothing in use. Of a new session either nothing was registered with the runtime, which heard
    of no session but where it refused one, or exactly one session was registered, it is invalid, and the last thing the runtime
    was told is that it ended. A new session that is set up was registered once and has not ended. Binding registers no
    other session and never touches the one it binds to, whether it succeeds or fails; when it fails the last thing the
    runtime is told is that the channel's registration ended. *)
Theorem failed_setup_cleans_up kind fuel s s' r :
  match kind with
  | SK_New => su_result s = None /\ su_context s = None /\ su_flags s = None
  | SK_Bind => exists session, bound session s
  end ->
  setup_session conn_info has_dfs new_channel_id kind fuel s = Some (s', r) ->
  match r with
  | Ok sac => registered kind (su_upstream s) (sac_session_id sac) (su_upstream s')
  | Err _ =>
      match su_result s' with
      | None => kind = SK_New /\ rtc quiet_step (su_upstream s) (su_upstream s')
      | Some sac =>
          (exists u r', registered kind (su_upstream s) (sac_session_id sac) u /\ up_session_ended u sac = (su_upstream s', r')) /\
          (kind = SK_New -> si_state (sac_session sac) = SI_Invalid)
      end
  end /\
  (forall session, kind = SK_Bind -> bound session s ->
   (forall sac, r = Ok sac -> sac_session sac = session /\ is_Some (sac_channel sac)) /\
   (forall e, r = Err e -> exists sac, su_result s' = Some sac /\ sac_session sac = session)).
Proof.
  intros Hph H. split; [by eapply setup_registration|]. intros session -> Hb. revert H. unfold setup_session.
  destruct (setup_loop _ _ _ _ fuel s) as [[s1 [[]|e]]|] eqn:El; [| |done];
    destruct (setup_loop_bound _ _ _ session fuel s s1 _ Hb El) as [(sac & ctx & Hs & _ & H1 & H2) _].
  - intros [= <- <-]. rewrite Hs. split; [by intros ? [= <-]|by intros ? [=]].
  - destruct (error_cleanup SK_Bind s1) as [[s2 r2]|] eqn:Ec; [|done]. intros [= <- <-]. apply error_cleanup_spec in Ec.
    split; [intros ? [=]|]. intros e' _. rewrite Hs in Ec. destruct Ec as [Ec _]. rewrite bool_decide_eq_false_2 in Ec by done. by exists sac.
Qed.

(** C31: the exchange ends: with an authenticator that comes to an end within [n] rounds, [n] and one
    turns of the loop are enough, and none of the assertions of the exchange fails, whatever the
    server and the runtime answer. *)
Theorem setup_ends_without_panic kind fuel n s :
  match kind with
  | SK_New => su_result s = None /\ su_context s = None /\ su_flags s = None
  | SK_Bind => exists session, bound session s
  end ->
  settles n (su_authenticator s) -> (n < fuel)%nat ->
  exists s' r, setup_session conn_info has_dfs new_channel_id kind fuel s = Some (s', r).
Proof.
  intros Hph Hs Hfuel. assert (Hin : in_setup kind s) by (destruct kind; [by left|done]).
  unfold setup_session. destruct (setup_loop _ _ _ _ fuel s) as [[s1 [[]|e]]|] eqn:El; [by eexists _, _| |].
  - destruct (error_cleanup kind s1) as [[s2 r2]|] eqn:Ec; [by eexists _, _|]. by apply error_cleanup_total in Ec.
  - exfalso. unfold setup_loop in El. apply eff_bind_None in El as [El|(s2 & [] & _ & El)]; [by eapply setup_turns_total|].
    apply eff_bind_None in El as [|(s0 & x & [= <- <-] & El)]; [done|]. apply eff_bind_None in El as [|(s0 & flags & Hf & El)]; [done|].
    apply e_lift_Ok in Hf as [-> _]. apply eff_bind_None in El as [El|(s3 & [] & _ & El)]; [|by apply on_setup_success_total in El].
    destruct (su_result s2) as [sac|]; [|done]. destruct (sac_channel sac); [done|]. by apply make_channel_total in El.
Qed.

(** an authenticator that is done, or has its key, after its first token can never set a new
    session up: the final request is refused for want of a session before anything is sent. *)
Lemma single_round_authentication_fails fuel g g' token u :
  gss_is_authenticated g = Ok false -> gss_next g [] = (g', Ok token) -> token <> [] ->
  (gss_is_authenticated g' = Ok true \/ gss_is_authenticated g' = Ok false /\ (exists key, gss_session_key g' = Ok key)) ->
  exists s', setup_session conn_info has_dfs new_channel_id SK_New (S fuel) (setup_start g u) = Some (s', Err E_InvalidState) /\
    su_upstream s' = u /\ su_result s' = None.
Proof.
  intros Hg Hn Ht Hfin. unfold setup_session, setup_loop. cbn [setup_turns].
  unfold mbind, eff_bind, e_get, e_lift. cbn [su_authenticator setup_start]. rewrite Hg.
  unfold setup_turn, mbind, eff_bind, e_get, e_lift, authenticator_next. cbn [su_authenticator su_last_setup_response from_option].
  change (su_authenticator (setup_start g u)) with g. change (default [] (su_last_setup_response (setup_start g u))) with ([] : bytes).
  rewrite Hn.
  assert (Hauth : exists auth, gss_is_authenticated g' = Ok auth /\ auth || match gss_session_key g' with Ok _ => true | Err _ => false end = true).
  { destruct Hfin as [->|[-> [key ->]]]; by eexists. }
  destruct Hauth as (auth & Ha & Hf). change (su_authenticator ((setup_start g u) <| su_authenticator := g' |>)) with g'.
  rewrite Ha, (bool_decide_eq_false_2 (token = [])) by done. rewrite andb_false_r. rewrite Hf.
  unfold send_setup_request, send_final_setup_request, mbind, eff_bind, e_lift, e_get. unfold prepare_outgoing.
  rewrite (bool_decide_eq_false_2 (hd_command _ = Cmd_Cancel)) by done. cbn. by eexists.
Qed.
End theorems.

(** ** Witnesses *)

(** An authenticator of two rounds, and one of a single round. *)
Record ScriptedGss := mkScripted { sg_round : nat; sg_rounds : nat }.

#[local] Instance scripted_gss : Gss ScriptedGss := {|
  gss_is_authenticated g := Ok (sg_rounds g <=? sg_round g)%nat;
  gss_session_key g := if (sg_rounds g <=? sg_round g)%nat then Ok (replicate 16 1) else Err E_InvalidState;
  gss_next g token := (mkScripted (S (sg_round g)) (sg_rounds g), Ok [Z.of_nat (sg_round g)])
|}.

(** A runtime that plays back responses. *)
Definition Playback : Type := list (CommandResponse ResponseContent).

#[local] Instance playback_upstream : Upstream Playback := {|
  up_send u m := (u, Ok 1);
  up_receive u mid := match u with r :: u => (u, Ok r) | [] => ([], Err E_OperationTimeout) end;
  up_session_started u s := (u, Ok tt);
  up_session_ended u s := (u, Ok tt);
  up_preauth_snapshot u := (u, Ok (Some (replicate 64 2)))
|}.

Definition setup_response (status : Status) (form : MessageForm) : CommandResponse ResponseContent :=
  mkCommandResponse (mkPlainResponse (mkHeader 1 (status_code status) Cmd_SessionSetup 1 1 0 1 (Some 0) None 7 0)
    (RC_SessionSetup 0 [])) [] form.

Definition honest_server : Playback :=
  [setup_response St_MoreProcessingRequired default_form;
   setup_response St_Success (default_form <| mf_signed := true |>)].

Definition forging_server : Playback :=
  [setup_response St_MoreProcessingRequired default_form; setup_response St_Success default_form].

#[local] Existing Instance toy_crypto.

Local Notation sample_setup g u := (setup_session sample_info false 0 SK_New 4 (setup_start g u)).

Lemma sample_setup_succeeds : exists s' sac, sample_setup (mkScripted 0 2) honest_server = Some (s', Ok sac).
Proof. eexists _, _. vm_compute. reflexivity. Qed.

Lemma sample_setup_fails :
  exists s' sac, sample_setup (mkScripted 0 2) forging_server = Some (s', Err E_UnsignedFinalResponse) /\ su_result s' = Some sac.
Proof. eexists _, _. split; [vm_compute; reflexivity|reflexivity]. Qed.

(** A server that never answers. *)
Lemma sample_setup_unanswered :
  exists s', sample_setup (mkScripted 0 2) [] = Some (s', Err E_SetupTimeout) /\ su_result s' = None.
Proof. eexists. split; [vm_compute; reflexivity|reflexivity]. Qed.

Lemma new_session_needs_checked_response_witness :
  exists s' sac flags, sample_setup (mkScripted 0 2) honest_server = Some (s', Ok sac) /\
    made_ready sample_info 0 s' flags sac /\ checked_final honest_server flags (sac_session_id sac) s'.
Proof.
  destruct sample_setup_succeeds as (s' & sac & Hrun).
  destruct (new_session_needs_checked_response sample_info false 0 4 (mkScripted 0 2) honest_server s' sac Hrun) as (flags & Hm & _ & Hc).
  exists s', sac, flags. split; [exact Hrun|]. split; [exact Hm|].
  destruct Hc as [Hc|(g0 & token & Hnext & _)]; [exact Hc|]. discriminate Hnext.
Defined.

Lemma failed_setup_cleans_up_witness :
  (exists s' sac, sample_setup (mkScripted 0 2) forging_server = Some (s', Err E_UnsignedFinalResponse) /\
    su_result s' = Some sac /\ si_state (sac_session sac) = SI_Invalid) /\
  exists s', sample_setup (mkScripted 0 2) [] = Some (s', Err E_SetupTimeout) /\ rtc quiet_step ([] : Playback) (su_upstream s').
Proof.
  assert (Hstart : forall u : Playback, su_result (setup_start (mkScripted 0 2) u) = None /\
    su_context (setup_start (mkScripted 0 2) u) = None /\ su_flags (setup_start (mkScripted 0 2) u) = None)
    by (intros u; split; [reflexivity|split; reflexivity]).
  split.
  - destruct sample_setup_fails as (s' & sac & Hrun & Hsac). exists s', sac. split; [exact Hrun|]. split; [exact Hsac|].
    destruct (failed_setup_cleans_up sample_info false 0 SK_New 4 (setup_start (mkScripted 0 2) forging_server) s' _ (Hstart _) Hrun) as [H _].
    rewrite Hsac in H. destruct H as [_ H]. apply H. reflexivity.
  - destruct sample_setup_unanswered as (s' & Hrun & Hn). exists s'. split; [exact Hrun|].
    destruct (failed_setup_cleans_up sample_info false 0 SK_New 4 (setup_start (mkScripted 0 2) []) s' _ (Hstart _) Hrun) as [H _].
    rewrite Hn in H. destruct H as [_ H]. exact H.
Defined.

Lemma setup_ends_without_panic_witness : exists s' r, sample_setup (mkScripted 0 2) [] = Some (s', r).
Proof.
  apply (setup_ends_without_panic sample_info false 0 SK_New 4 2 (setup_start (mkScripted 0 2) [])).
  - split; [reflexivity|split; reflexivity].
  - right. intros token g' r [= <- <-]. right. right. right. right. intros token' g'' r' [= <- <-].
    right. left. discriminate.
  - lia.
Defined.
