(* ===== verification/GenEffects.v ===== *)
(** What the owner of a generation relies on (crates/smb/src/runtime/state.rs): which
    requests an event publishes, with which outcomes, and that a request sent to drain has
    been answered in the same step. *)
From S2P Require Import Prelude Clock Reducer GenState GenInv GenReach GenPublish GenProps.
Local Open Scope Z_scope.

(** Every publication among the effects satisfies [P]. *)
Definition pub_in (P : RequestKey -> TerminalOutcome -> Prop) (effs : list OwnerEffect) : Prop :=
  forall k o, OF_Request k (Eff_Publish o) ∈ effs -> P k o.

(** A request is drained only together with the publication of its outcome. *)
Definition drains_published (effs : list OwnerEffect) : Prop :=
  forall k, OF_BestEffortWireCancel k ∈ effs ->
    exists o, o <> TO_Response /\ OF_Request k (Eff_Publish o) ∈ effs.

Lemma pub_in_app P e1 e2 : pub_in P e1 -> pub_in P e2 -> pub_in P (e1 ++ e2).
Proof. intros H1 H2 k o [H|H]%elem_of_app; eauto. Qed.

Lemma drains_published_app e1 e2 :
  drains_published e1 -> drains_published e2 -> drains_published (e1 ++ e2).
Proof.
  intros H1 H2 k [H|H]%elem_of_app; [destruct (H1 k H) as (o & Ho & Hin)|destruct (H2 k H) as (o & Ho & Hin)];
    exists o; (split; [done|]); apply elem_of_app; auto.
Qed.

Lemma owner_publications_elem k o effs :
  o ∈ owner_publications k effs <-> OF_Request k (Eff_Publish o) ∈ effs.
Proof.
  unfold owner_publications. rewrite list_elem_of_omap. split.
  - intros (e & He & Hm). destruct e as [| |k' [|o'| |]| | | | | | | | | | | |]; try done.
    case_bool_decide; [|done]. by simplify_eq.
  - intros He. eexists. split; [done|]. cbn. by rewrite bool_decide_eq_true_2.
Qed.

(** [effects] reduces membership in an explicit list of effects to its cases. *)
Ltac effects :=
  cbn [fst snd]; unfold foreign;
  repeat match goal with
  | |- pub_in _ _ => intros ? ?
  | |- drains_published _ => intros ?
  | |- forall _ : RequestKey, _ => intros ?
  | |- _ ∈ _ -> _ => intros ?
  | |- _ ∉ _ => intros ?
  | H : _ ∈ [] |- _ => by apply not_elem_of_nil in H
  | H : _ ∈ _ :: _ |- _ => apply elem_of_cons in H as [?|H]; simplify_eq
  | H : _ ∈ (if ?b then _ else _) |- _ => destruct b
  end; try done.

Lemma rr_reduce_publication r e r' o :
  rr_reduce r e = (r', Eff_Publish o) ->
  match e with
  | RE_Queued | RE_WriteProgress _ | RE_WriteComplete | RE_AsyncPending _ _ => False
  | RE_FinalResponse _ => o = TO_Response
  | _ => o <> TO_Response
  end.
Proof.
  destruct e as [| | | | | | | |network]; intros H; reduce_cases; try done.
  all: unfold disconnect_outcome; repeat case_match; done.
Qed.

Lemma rr_reduce_open_publishes r e :
  rr_caller r = CO_Open -> e = RE_Cancel \/ e = RE_Deadline ->
  exists o, o <> TO_Response /\ (rr_reduce r e).2 = Eff_Publish o.
Proof.
  intros Ho He. unfold rr_reduce, rr_finish_without_response, rr_publish_once.
  destruct He as [-> | ->]; destruct (sp_committed _); cbn; rewrite Ho, !bool_decide_eq_true_2 by done;
    eexists; (split; [|reflexivity]); done.
Qed.

Lemma settle_effects s k now committed :
  pub_in (fun _ _ => False) (gs_settle_unanswered s k now committed).2 /\
  (forall k', OF_BestEffortWireCancel k' ∈ (gs_settle_unanswered s k now committed).2 -> k' = k).
Proof.
  unfold gs_settle_unanswered. destruct committed.
  - destruct (gs_schedule_deadline _ _ _ _) as [s' b]. cbn. split; effects.
  - destruct (gs_rollback s k) as [s' b]. cbn. split; effects.
Qed.

(** The effects of an unanswered request: its outcome, then what the settlement adds. *)
Lemma unanswered_effects s k now committed eff o pre :
  eff = Eff_Publish o -> o <> TO_Response -> pub_in (fun _ _ => False) pre ->
  (forall k', OF_BestEffortWireCancel k' ∉ pre) ->
  let effs := pre ++ OF_Request k eff :: (gs_settle_unanswered s k now committed).2 in
  pub_in (fun k' o' => k' = k /\ o' <> TO_Response) effs /\ drains_published effs.
Proof.
  intros -> Ho Hpre Hd. cbv zeta. destruct (settle_effects s k now committed) as [Hp Hk]. split.
  - intros k' o' [H|[H|H]%elem_of_cons]%elem_of_app.
    + by apply Hpre in H.
    + by simplify_eq.
    + by apply Hp in H.
  - intros k' [H|[H|H]%elem_of_cons]%elem_of_app; [by apply Hd in H|done|].
    apply Hk in H as ->. exists o. split; [done|]. rewrite elem_of_app, elem_of_cons. auto.
Qed.

Lemma cancel_effects s k now :
  pub_in (fun k' o => k' = k /\ o <> TO_Response) (gs_cancel s k now).2 /\
  drains_published (gs_cancel s k now).2.
Proof.
  unfold gs_cancel. case_bool_decide; [split; effects|].
  destruct (gs_requests s !! k) as [r|]; [|split; effects].
  destruct (or_cancel_seen r); [split; effects|].
  destruct (rr_caller_is_open (or_lifecycle r)) eqn:Ho; cbn [negb]; [|split; effects].
  apply caller_is_open_true in Ho.
  destruct (rr_reduce_open_publishes _ RE_Cancel Ho) as (o & Hno & Eo); [auto|].
  destruct (rr_reduce _ _) as [l eff]. cbn [snd] in Eo.
  set (s' := put_request _ _ _).
  pose proof (unanswered_effects s' k now (rr_wire_committed (or_lifecycle r)) eff o
    [OF_CancelControlQueued k] Eo Hno) as HU.
  destruct (gs_settle_unanswered _ _ _ _) as [s2 effs]. cbn in *. apply HU; effects.
Qed.

Lemma expire_effects s now e :
  pub_in (fun _ o => o <> TO_Response) (gs_expire s now e).2 /\ drains_published (gs_expire s now e).2.
Proof.
  unfold gs_expire. destruct (gs_requests s !! de_key e) as [r|]; [|split; effects].
  case_bool_decide; [split; effects|]. destruct (de_kind e).
  - destruct (rr_caller_is_open (or_lifecycle r)) eqn:Ho; cbn [negb]; [|split; effects].
    apply caller_is_open_true in Ho.
    destruct (rr_reduce_open_publishes _ RE_Deadline Ho) as (o & Hno & Eo); [auto|].
    destruct (rr_reduce _ _) as [l eff]. cbn [snd] in Eo.
    set (s' := put_request _ _ _).
    pose proof (unanswered_effects s' (de_key e) now (rr_wire_committed (or_lifecycle r)) eff o []
      Eo Hno) as HU.
    destruct (gs_settle_unanswered _ _ _ _) as [s2 effs]. cbn in *.
    destruct HU as [H1 H2]; [effects|effects|]. split; [|done].
    intros k' o' Hin. by apply H1 in Hin as [_ ?].
  - destruct (_ && _); split; effects.
Qed.

Lemma advance_loop_effects fuel s now effs :
  pub_in (fun _ o => o <> TO_Response) effs -> drains_published effs ->
  pub_in (fun _ o => o <> TO_Response) (gs_advance_loop fuel s now effs).2 /\
  drains_published (gs_advance_loop fuel s now effs).2.
Proof.
  revert s effs. induction fuel as [|fuel IH]; intros s effs H1 H2; cbn; [done|].
  destruct (heap_pop _) as [[e rest]|]; [|done]. case_bool_decide; [|done].
  destruct (expire_effects (s <| gs_deadlines := rest |>) now e) as [E1 E2].
  destruct (gs_expire _ now e) as [s2 more]. cbn [snd] in *.
  apply IH; [by apply pub_in_app|by apply drains_published_app].
Qed.

Lemma prepare_failed_effects s k :
  pub_in (fun k' o => k' = k /\ o <> TO_Response) (gs_prepare_failed s k).2.
Proof.
  unfold gs_prepare_failed. case_bool_decide; [effects|].
  destruct (gs_requests s !! k) as [r|]; [|effects]. destruct (rr_wire_committed _); [effects|].
  destruct (rr_publish_terminal (or_lifecycle r) TO_PreparationFailed) as [l eff] eqn:El.
  assert (forall o, eff = Eff_Publish o -> o = TO_PreparationFailed) as Hp.
  { unfold rr_publish_terminal, rr_publish_once in El. intros o ->. case_bool_decide; by simplify_eq. }
  destruct (gs_rollback _ _) as [s' rb]. cbn. effects.
  all: rewrite (Hp _ eq_refl); done.
Qed.

Lemma recovery_hint_effects s k :
  pub_in (fun k' o => k' = k /\ o <> TO_Response) (gs_recovery_hint s k).2.
Proof.
  unfold gs_recovery_hint. case_bool_decide; [effects|].
  destruct (gs_requests s !! k) as [r|]; [|effects].
  destruct (rr_reduce _ _) as [l eff] eqn:E. cbn. effects.
  split; [done|]. by apply rr_reduce_publication in E.
Qed.

Lemma request_event_effects s k e : pub_in (fun _ _ => False) (gs_request_event s k e).2.
Proof.
  unfold gs_request_event. case_bool_decide; [effects|].
  destruct (gs_requests s !! k) as [r|]; [|effects].
  destruct (rr_reduce _ _) as [l eff] eqn:E. cbn. effects.
  apply rr_reduce_publication in E. by destruct e.
Qed.

Lemma finalize_effects s k r previous : pub_in (fun _ _ => False) (finalize_response s k r previous).2.
Proof.
  unfold finalize_response. repeat case_match; cbn; effects.
Qed.

Lemma response_effects s k e grant :
  pub_in (fun k' o => k' = k /\ o = TO_Response /\ e = RV_Final) (gs_response s k e grant).2.
Proof.
  unfold gs_response. case_bool_decide; [effects|].
  destruct (async_conflict s k e) as [[??]|]; [effects|].
  destruct (gs_requests s !! k) as [r|]; [|effects].
  destruct (async_changed r e) as [[??]|]; [effects|]. case_bool_decide; [effects|].
  destruct (response_bookkeeping s k r grant) as [s1 r1].
  destruct (checked_add u32_max _ grant) as [av|]; [|effects].
  destruct (rr_reduce _ _) as [l eff] eqn:E. destruct e as [id|]; cbn.
  - effects. by apply rr_reduce_publication in E.
  - pose proof (finalize_effects (put_request (s1 <| gs_available_credits := av |>) k
      (r1 <| or_lifecycle := l |>)) k (r1 <| or_lifecycle := l |>) (rr_response (or_lifecycle r))) as Hf.
    destruct (finalize_response _ _ _ _) as [s3 more]. cbn [fst snd app] in *. intros k' o' Hin.
    apply elem_of_cons in Hin as [|Hin]; [done|]. apply elem_of_cons in Hin as [Heq|Hin].
    + simplify_eq. by apply rr_reduce_publication in E.
    + by apply Hf in Hin.
Qed.

Section disconnect.
Context `{!HashOrder RequestKey}.

Lemma disconnect_effects s network :
  pub_in (fun _ o => o <> TO_Response) (gs_disconnect s network).2 /\
  drains_published (gs_disconnect s network).2.
Proof.
  unfold gs_disconnect. set (keys := hash_keys _). clearbody keys.
  assert (forall effs, pub_in (fun _ o => o <> TO_Response) effs -> (forall k, OF_BestEffortWireCancel k ∉ effs) ->
    forall s, pub_in (fun _ o => o <> TO_Response) (foldl (gs_disconnect_one network) (s, effs) keys).2 /\
      (forall k, OF_BestEffortWireCancel k ∉ (foldl (gs_disconnect_one network) (s, effs) keys).2)) as H.
  { induction keys as [|k keys IH]; intros effs H1 H2 s1; cbn -[gs_disconnect_one]; [done|].
    unfold gs_disconnect_one at 2 4. destruct (gs_requests s1 !! k) as [r|]; [|by apply IH].
    destruct (rr_reduce _ _) as [l eff] eqn:E. apply IH.
    - apply pub_in_app; [done|]. effects. by apply rr_reduce_publication in E.
    - intros k'. rewrite elem_of_app. intros [Hin|Hin]; [by apply H2 in Hin|effects]. }
  destruct (H [] ltac:(effects) ltac:(effects) s) as [A B]. split; [done|].
  intros k Hk. by apply B in Hk.
Qed.
End disconnect.
