(* ===== verification/Engine.v ===== *)
(** The connection owner (crates/smb/src/runtime/engine.rs): the single task that owns a
    generation's requests, objects and caller channels and turns events (commands of
    callers, progress of the transport, prepared messages, time) into replies.

    A [oneshot::Sender] is an identifier; sending on it appends to the log of replies. A
    [CancellationToken] is an identifier and the set of the cancelled ones. What the wire
    pipeline and the transport answer (a prepared frame, the result of a write, whether an
    event lane is full) comes in with the events, so the theorems hold for every answer. *)
From S2P Require Import Prelude Clock Reducer GenState ObjectState Bytes Header Operation.
From S2P Require Import PreparationOrder.
Local Open Scope Z_scope.

(** ** Data *)

Abbreviation Sender := Z.
Abbreviation CancellationToken := Z.
Abbreviation SendFrame := (list bytes).

(** The static strings of [RuntimeError::Wire] and [RuntimeError::Transport]. *)
Inductive WireFault :=
| WF_CreditCharge | WF_PrepareOutgoing | WF_PreparedOperationMissing | WF_EmptyCompound
| WF_PrepareCompound | WF_InboundSequenceExhausted | WF_DecodeIncoming | WF_EarlyResponse
| WF_ResponseWithoutOperation | WF_PendingWithoutAsyncId | WF_InvalidRecoveryHint
| WF_OperationResponseContract | WF_PreauthSnapshot | WF_PreauthReset | WF_NegotiatedPolicy
| WF_SessionStartedPolicy | WF_SessionEndedPolicy.

Inductive TransportFault := TF_Split | TF_PumpPanicked | TF_GenerationUnhealthy | TF_Code (code : Z).

Inductive RuntimeError :=
| RT_Closed
| RT_OwnerTerminated
| RT_AdmissionBackpressure
| RT_ControlBackpressure
| RT_Admission (e : AdmissionError)
| RT_Transport (f : TransportFault)
| RT_Network (f : NetworkFailure)
| RT_EventBackpressure
| RT_Wire (f : WireFault)
| RT_Terminal (o : TerminalOutcome)
| RT_UnknownRequest (k : RequestKey)
| RT_AlreadyAwaited (k : RequestKey)
| RT_Object (e : ObjectError).

(** Of a decoded response: its header, whether its body is an error response, and the
    flag of a recovery hint that could not be authenticated. *)
Record CommandResponse := mkResponse {
  cres_header : Header;
  cres_is_error : bool;
  cres_recovery_hint : bool
}.

Record OperationResult := mkOpResult {
  ores_key : RequestKey;
  ores_response : CommandResponse;
  ores_request_raw : option bytes
}.

Record OperationSubmission := mkSubmission { sub_key : RequestKey; sub_request_raw : option bytes }.

Record CloseReport := mkCloseReport {
  clr_timed_out : bool;
  clr_unresolved_requests : Z;
  clr_joined_tasks : Z;
  clr_failed_tasks : Z
}.

(** What is sent on the reply channels. *)
Inductive Reply :=
| Rp_Terminal (r : result RuntimeError TerminalOutcome)
| Rp_Operation (r : result RuntimeError OperationResult)
| Rp_Key (r : result RuntimeError RequestKey)
| Rp_Submission (r : result RuntimeError OperationSubmission)
| Rp_Submissions (r : result RuntimeError (list OperationSubmission))
| Rp_Token (r : result RuntimeError ObjectToken)
| Rp_Count (r : result RuntimeError Z)
| Rp_Unit (r : result RuntimeError unit)
| Rp_Preauth (r : result RuntimeError (option bytes))
| Rp_Close (r : result RuntimeError CloseReport).

Record AdmissionCommand := mkAdmission {
  ac_frame : SendFrame;
  ac_payload_bytes : Z;
  ac_credit_charge : Z;
  ac_deadline : option MonotonicTime;
  ac_acknowledge : Sender;
  ac_terminal : Sender
}.

Record OperationAdmission := mkOpAdmission {
  oa_operation : TypedOperation;
  oa_deadline : option MonotonicTime;
  oa_acknowledge : Sender;
  oa_terminal : option Sender
}.

Record CompoundAdmission := mkCompound {
  ca_operations : list TypedOperation;
  ca_deadline : option MonotonicTime;
  ca_acknowledge : Sender
}.

Record OperationPending := mkPending {
  pd_response : ResponsePolicy;
  pd_replay : ReplayPolicy;
  pd_request_raw : option bytes;
  pd_terminal : option Sender;
  pd_buffered : option (result RuntimeError OperationResult);
  pd_draining : bool;
  pd_caller_completed : bool
}.

#[export] Instance eta_OperationPending : Eta OperationPending := fun p =>
  mkPending (pd_response p) (pd_replay p) (pd_request_raw p) (pd_terminal p) (pd_buffered p)
    (pd_draining p) (pd_caller_completed p).

(** The authority, with the log of replies and the state of the cancellation tokens. *)
Record RequestAuthority := mkAuthority {
  au_state : GenerationState;
  au_objects : ObjectRegistry;
  au_terminals : gmap RequestKey Sender;
  au_pending : gmap RequestKey OperationPending;
  au_early : gmap RequestKey CommandResponse;
  au_frame_members : gmap RequestKey (list RequestKey);
  au_frame_cancellations : gmap RequestKey CancellationToken;
  au_preparation_cancellations : gmap RequestKey CancellationToken;
  au_deferred : gmap RequestKey MonotonicTime;
  au_notifications : bool;
  au_large_mtu : bool;
  au_target_credits : Z;
  au_log : list (Sender * Reply);
  au_cancelled : gset CancellationToken;
  au_next_token : CancellationToken
}.

#[export] Instance eta_RequestAuthority : Eta RequestAuthority := fun a =>
  mkAuthority (au_state a) (au_objects a) (au_terminals a) (au_pending a) (au_early a)
    (au_frame_members a) (au_frame_cancellations a) (au_preparation_cancellations a)
    (au_deferred a) (au_notifications a) (au_large_mtu a) (au_target_credits a) (au_log a)
    (au_cancelled a) (au_next_token a).

Record WriteCommand := mkWrite {
  wc_key : RequestKey;
  wc_members : list RequestKey;
  wc_frame : SendFrame;
  wc_cancel_before_write : CancellationToken
}.

(** A preparation in flight, and what it completes with. *)
Record Preparation := mkPreparation {
  pr_key : RequestKey;
  pr_retain_raw : bool;
  pr_acknowledge : Sender
}.

#[export] Instance Preparation_eq : EqDecision Preparation.
Proof. solve_decision. Defined.

Record PreparedOperation := mkPrepared {
  po_preparation : Preparation;
  po_result : option SendFrame
}.

Record PreparedInbound := mkInbound {
  ib_sequence : Z;
  ib_result : option (list CommandResponse)
}.

Record CloseRequest := mkClose { cq_deadline : MonotonicTime; cq_reply : Sender }.

(** The variables of [owner_task]. *)
Record Engine := mkEngine {
  en_authority : RequestAuthority;
  en_send_queue : list WriteCommand;
  en_preparations : list Preparation;
  en_preparation_order : OrderedCompletionQueue (K := RequestKey) (V := PreparedOperation);
  en_inbound : list Z;
  en_inbound_order : OrderedCompletionQueue (K := Z) (V := PreparedInbound);
  en_next_inbound_sequence : Z;
  en_waiting_operation : option OperationAdmission;
  en_waiting_compound : option CompoundAdmission;
  en_close : option CloseRequest;
  en_fatal : option RuntimeError;
  en_write : bool;
  en_active_write : option WriteCommand;
  en_shutdown_reason : option RuntimeError
}.

#[export] Instance eta_Engine : Eta Engine := fun e =>
  mkEngine (en_authority e) (en_send_queue e) (en_preparations e) (en_preparation_order e)
    (en_inbound e) (en_inbound_order e) (en_next_inbound_sequence e) (en_waiting_operation e)
    (en_waiting_compound e) (en_close e) (en_fatal e) (en_write e) (en_active_write e)
    (en_shutdown_reason e).

(** ** Replies and cancellation *)

Definition reply (a : RequestAuthority) (s : Sender) (r : Reply) : RequestAuthority :=
  a <| au_log := au_log a ++ [(s, r)] |>.

Definition reply_opt (a : RequestAuthority) (s : option Sender) (r : Reply) : RequestAuthority :=
  match s with Some s => reply a s r | None => a end.

Definition cancel_token (a : RequestAuthority) (t : CancellationToken) : RequestAuthority :=
  a <| au_cancelled := {[t]} ∪ au_cancelled a |>.

Definition new_token (a : RequestAuthority) : RequestAuthority * CancellationToken :=
  (a <| au_next_token := au_next_token a + 1 |>, au_next_token a).

(** [fatal.get_or_insert(error)] *)
Definition get_or_insert (fatal : option RuntimeError) (e : RuntimeError) : option RuntimeError :=
  match fatal with Some f => Some f | None => Some e end.

(** ** Completing callers *)

Definition complete_operation (a : RequestAuthority) (key : RequestKey)
    (result : result RuntimeError OperationResult) : RequestAuthority :=
  match au_pending a !! key with
  | None => a
  | Some entry =>
      let a := a <| au_pending := delete key (au_pending a) |> in
      let '(entry, result) :=
        match result with
        | Ok completed =>
            match ores_request_raw completed with
            | None => (entry <| pd_request_raw := None |>,
                       Ok (mkOpResult (ores_key completed) (ores_response completed)
                             (pd_request_raw entry)))
            | Some _ => (entry, result)
            end
        | Err _ => (entry, result)
        end in
      match pd_terminal entry with
      | Some terminal => reply a terminal (Rp_Operation result)
      | None =>
          a <| au_pending := <[key := entry <| pd_buffered := Some result |>]> (au_pending a) |>
      end
  end.

Definition cancel_rolled_back_preparation (a : RequestAuthority) (effect : OwnerEffect)
    : RequestAuthority :=
  match effect with
  | OF_ReservationRolledBack key =>
      match au_preparation_cancellations a !! key with
      | Some token =>
          cancel_token (a <| au_preparation_cancellations :=
            delete key (au_preparation_cancellations a) |>) token
      | None => a
      end
  | _ => a
  end.

(** The first loop of [apply_operation_effects]. *)
Definition mark_draining (a : RequestAuthority) (effect : OwnerEffect) : RequestAuthority :=
  match effect with
  | OF_BestEffortWireCancel key =>
      match au_pending a !! key with
      | Some entry =>
          a <| au_pending :=
            <[key := entry <| pd_draining := true |> <| pd_request_raw := None |>]> (au_pending a) |>
      | None => a
      end
  | _ => a
  end.

(** The second loop: an outcome other than a response. *)
Definition publish_outcome (a : RequestAuthority) (effect : OwnerEffect) : RequestAuthority :=
  match effect with
  | OF_Request key (Eff_Publish outcome) =>
      if bool_decide (outcome = TO_Response) then a
      else
        let result := Err (RT_Terminal outcome) in
        match au_pending a !! key with
        | Some entry =>
            if pd_draining entry then
              match pd_terminal entry with
              | Some terminal =>
                  reply (a <| au_pending :=
                    <[key := entry <| pd_terminal := None |> <| pd_caller_completed := true |>]>
                      (au_pending a) |>) terminal (Rp_Operation result)
              | None =>
                  a <| au_pending :=
                    <[key := entry <| pd_buffered := Some result |>]> (au_pending a) |>
              end
            else complete_operation a key result
        | None => a
        end
  | _ => a
  end.

Definition apply_operation_effects (a : RequestAuthority) (effects : list OwnerEffect)
    : RequestAuthority :=
  let a := foldl cancel_rolled_back_preparation a effects in
  let a := foldl mark_draining a effects in
  foldl publish_outcome a effects.

Definition apply_owner_effect (a : RequestAuthority) (effect : OwnerEffect) : RequestAuthority :=
  match effect with
  | OF_Request key (Eff_Publish outcome) =>
      match au_terminals a !! key with
      | Some terminal =>
          reply (a <| au_terminals := delete key (au_terminals a) |>) terminal
            (Rp_Terminal (Ok outcome))
      | None => a
      end
  | _ => a
  end.

Definition apply_owner_effects (a : RequestAuthority) (effects : list OwnerEffect)
    : RequestAuthority := foldl apply_owner_effect a effects.

Definition response_status_is_admissible (policy : ResponsePolicy) (status : option Status)
    (is_server_error : bool) : bool :=
  rsp_accepts_wire_status policy status || is_server_error.

Definition session_invalidated (status : option Status) : bool :=
  match status with
  | Some St_UserSessionDeleted | Some St_NetworkSessionExpired => true
  | _ => false
  end.

(** [effects.iter().any(..)]: the response is published to the caller of [key]. *)
Definition publishes_response (key : RequestKey) (effects : list OwnerEffect) : bool :=
  existsb (fun effect => match effect with
                         | OF_Request found (Eff_Publish TO_Response) => bool_decide (found = key)
                         | _ => false
                         end) effects.

Section engine.
Context `{!HashOrder RequestKey} `{!HashOrder Z}.

(** [authority.state.reduce(event)] *)
Definition au_reduce (a : RequestAuthority) (event : OwnerEvent) : RequestAuthority * list OwnerEffect :=
  let '(s, effects) := gs_reduce (au_state a) event in (a <| au_state := s |>, effects).

Definition process_decoded_response (a : RequestAuthority) (fatal : option RuntimeError)
    (message : CommandResponse) : RequestAuthority * option RuntimeError :=
  let header := cres_header message in
  let key := mkKey (gs_generation (au_state a)) (hd_message_id header) in
  let status := status_try_from (hd_status header) in
  match au_pending a !! key with
  | None => (a, Some (RT_Wire WF_ResponseWithoutOperation))
  | Some pending =>
      if bool_decide (status = Some St_Pending) then
        match hd_async_id header with
        | None => (a, Some (RT_Wire WF_PendingWithoutAsyncId))
        | Some async_id =>
            ((au_reduce a (OE_Response key (RV_Pending async_id) (hd_credit_request header))).1, fatal)
        end
      else
      let invalidated := session_invalidated status in
      if cres_recovery_hint message && negb invalidated
      then (a, Some (RT_Wire WF_InvalidRecoveryHint))
      else if cres_recovery_hint message then
        let '(a, effects) := au_reduce a (OE_RecoveryHint key) in
        let a := apply_owner_effects a effects in
        (complete_operation a key (Err (RT_Terminal TO_SessionInvalidated)), fatal)
      else
      let response_is_accepted := pd_draining pending ||
        response_status_is_admissible (pd_response pending) status (cres_is_error message) in
      if bool_decide (hd_command header ≠ rsp_command (pd_response pending))
         || (negb invalidated && negb response_is_accepted)
      then (a, Some (RT_Wire WF_OperationResponseContract))
      else
        let '(a, effects) := au_reduce a (OE_Response key RV_Final (hd_credit_request header)) in
        let publishes := publishes_response key effects in
        let a := apply_owner_effects a effects in
        if publishes then
          (complete_operation a key (Ok (mkOpResult key message None)), fatal)
        else
          match au_pending a !! key with
          | Some pending =>
              if pd_draining pending
              then (a <| au_pending := delete key (au_pending a) |>, fatal)
              else (a, fatal)
          | None => (a, fatal)
          end
  end.

(** [if let Some(message) = authority.early_responses.remove(&key) { .. }] *)
Definition replay_early_response (a : RequestAuthority) (fatal : option RuntimeError)
    (key : RequestKey) : RequestAuthority * option RuntimeError :=
  match au_early a !! key with
  | Some message => process_decoded_response (a <| au_early := delete key (au_early a) |>) fatal message
  | None => (a, fatal)
  end.

(** ** Admission *)

Definition process_admission (e : Engine) (command : AdmissionCommand) : Engine :=
  let '(a, effects) := au_reduce (en_authority e)
    (OE_Admit (ac_payload_bytes command) (ac_credit_charge command) (ac_deadline command)) in
  match head effects with
  | Some (OF_Admitted plan) =>
      let key := pp_key plan in
      let a := a <| au_terminals := <[key := ac_terminal command]> (au_terminals a) |> in
      let '(a, token) := new_token a in
      e <| en_authority := reply a (ac_acknowledge command) (Rp_Key (Ok key)) |>
        <| en_send_queue := en_send_queue e ++ [mkWrite key [key] (ac_frame command) token] |>
  | Some (OF_AdmissionRejected error) =>
      let error := RT_Admission error in
      let a := reply a (ac_terminal command) (Rp_Terminal (Err error)) in
      e <| en_authority := reply a (ac_acknowledge command) (Rp_Key (Err error)) |>
  | _ =>
      let a := reply a (ac_terminal command) (Rp_Terminal (Err RT_OwnerTerminated)) in
      e <| en_authority := reply a (ac_acknowledge command) (Rp_Key (Err RT_OwnerTerminated)) |>
  end.

(** The error exits of [process_operation_admission]. *)
Definition reject_operation (a : RequestAuthority) (command : OperationAdmission) (error : RuntimeError)
    : RequestAuthority :=
  let a := reply_opt a (oa_terminal command) (Rp_Operation (Err error)) in
  reply a (oa_acknowledge command) (Rp_Submission (Err error)).

Definition first_segment (retain_raw : bool) (frame : SendFrame) : option bytes :=
  if retain_raw then head frame else None.

(** The checks before admission: an error, or the payload and the credit charge. *)
Definition operation_precheck (a : RequestAuthority) (operation : TypedOperation)
    : result RuntimeError (Z * Z) :=
  match (match op_dependency operation with
         | Some dependency => reg_validate_active (au_objects a) dependency
         | None => Ok tt
         end) with
  | Err error => Err (RT_Object error)
  | Ok _ =>
      if bool_decide (max_operations (gs_limits (au_state a)) <= Z.of_nat (size (au_pending a)))
      then Err (RT_Admission AE_OperationsExhausted)
      else match op_credit_charge operation (au_large_mtu a) with
      | Err _ => Err (RT_Wire WF_CreditCharge)
      | Ok charge => Ok (op_payload_bytes operation, charge)
      end
  end.

Definition new_pending (operation : TypedOperation) (request_raw : option bytes)
    (terminal : option Sender) : OperationPending :=
  mkPending (op_response operation) (op_replay operation) request_raw terminal None false false.

(** [concurrent] is [wire.should_prepare_concurrently(..)] and [frame] the result of
    [wire.transform_outgoing(..)] where it is awaited here. [None] is a failed assertion of
    [reserve]. *)
Definition process_operation_admission (e : Engine) (command : OperationAdmission)
    (concurrent : bool) (frame : option SendFrame) : option Engine :=
  let a := en_authority e in
  let operation := oa_operation command in
  match operation_precheck a operation with
  | Err error =>
      Some (e <| en_authority := reject_operation a command error |> <| en_waiting_operation := None |>)
  | Ok (payload_bytes, credit_charge) =>
      if bool_decide (gs_available_credits (au_state a) < credit_charge)
      then Some (e <| en_waiting_operation := Some command |>)
      else
      let '(a, effects) := au_reduce a (OE_Admit payload_bytes credit_charge (oa_deadline command)) in
      let e := e <| en_waiting_operation := None |> in
      match head effects with
      | Some (OF_Admitted plan) =>
          let key := pp_key plan in
          let retain_raw := creq_return_raw_data (op_outgoing operation) in
          if negb concurrent then
            match frame with
            | None =>
                let a := (au_reduce a (OE_PrepareFailed key)).1 in
                Some (e <| en_authority := reject_operation a command (RT_Wire WF_PrepareOutgoing) |>)
            | Some frame =>
                let request_raw := first_segment retain_raw frame in
                let a := a <| au_pending :=
                  <[key := new_pending operation request_raw (oa_terminal command)]> (au_pending a) |> in
                let '(a, token) := new_token a in
                let a := reply a (oa_acknowledge command)
                  (Rp_Submission (Ok (mkSubmission key request_raw))) in
                let '(a, fatal) := replay_early_response a (en_fatal e) key in
                Some (e <| en_authority := a |> <| en_fatal := fatal |>
                        <| en_send_queue := en_send_queue e ++ [mkWrite key [key] frame token] |>)
            end
          else
            let a := a <| au_pending :=
              <[key := new_pending operation None (oa_terminal command)]> (au_pending a) |> in
            match ocq_reserve (en_preparation_order e) key with
            | None => None
            | Some order =>
                let '(a, token) := new_token a in
                let a := a <| au_preparation_cancellations :=
                  <[key := token]> (au_preparation_cancellations a) |> in
                Some (e <| en_authority := a |> <| en_preparation_order := order |>
                        <| en_preparations := en_preparations e ++
                             [mkPreparation key retain_raw (oa_acknowledge command)] |>)
            end
      | Some (OF_AdmissionRejected error) =>
          Some (e <| en_authority := reject_operation a command (RT_Admission error) |>)
      | _ => Some (e <| en_authority := reject_operation a command RT_OwnerTerminated |>)
      end
  end.

Definition finish_prepared_operation (e : Engine) (prepared : PreparedOperation) : Engine :=
  let key := pr_key (po_preparation prepared) in
  let acknowledge := pr_acknowledge (po_preparation prepared) in
  let a := en_authority e in
  let a := a <| au_preparation_cancellations := delete key (au_preparation_cancellations a) |> in
  match gs_request (au_state a) key with
  | None =>
      let a := a <| au_pending := delete key (au_pending a) |> in
      e <| en_authority := reply a acknowledge (Rp_Submission (Err (RT_Terminal TO_TimedOut))) |>
  | Some request =>
  match rr_caller request with
  | CO_Terminal outcome =>
      let a := a <| au_pending := delete key (au_pending a) |> in
      e <| en_authority := reply a acknowledge (Rp_Submission (Err (RT_Terminal outcome))) |>
  | CO_Open =>
  match po_result prepared with
  | None =>
      let a := (au_reduce a (OE_PrepareFailed key)).1 in
      let error := RT_Wire WF_PrepareOutgoing in
      let a := match au_pending a !! key with
               | Some pending =>
                   reply_opt (a <| au_pending := delete key (au_pending a) |>) (pd_terminal pending)
                     (Rp_Operation (Err error))
               | None => a
               end in
      e <| en_authority := reply a acknowledge (Rp_Submission (Err error)) |>
  | Some frame =>
      let request_raw := first_segment (pr_retain_raw (po_preparation prepared)) frame in
      match au_pending a !! key with
      | None =>
          let error := RT_Wire WF_PreparedOperationMissing in
          e <| en_authority := reply a acknowledge (Rp_Submission (Err error)) |>
            <| en_fatal := Some error |>
      | Some pending =>
          let a := a <| au_pending :=
            <[key := pending <| pd_request_raw := request_raw |>]> (au_pending a) |> in
          let '(a, token) := new_token a in
          let a := reply a acknowledge (Rp_Submission (Ok (mkSubmission key request_raw))) in
          let '(a, fatal) := replay_early_response a (en_fatal e) key in
          e <| en_authority := a |> <| en_fatal := fatal |>
            <| en_send_queue := en_send_queue e ++ [mkWrite key [key] frame token] |>
      end
  end end end.

(** The charges of a compound, added up; [None] is an overflow or a charge that does not fit. *)
Fixpoint compound_charge (operations : list TypedOperation) (large_mtu : bool) (total : Z) : option Z :=
  match operations with
  | [] => Some total
  | operation :: operations =>
      match op_credit_charge operation large_mtu with
      | Err _ => None
      | Ok charge =>
          match checked_add u32_max total charge with
          | Some total => compound_charge operations large_mtu total
          | None => None
          end
      end
  end.

Definition abort_compound (a : RequestAuthority) (admitted : list (RequestKey * TypedOperation))
    : RequestAuthority :=
  foldl (fun a member => (au_reduce a (OE_PrepareFailed member.1)).1) a admitted.

(** The admission loop: the authority and the members admitted, or the error that ended it. *)
Fixpoint admit_compound (a : RequestAuthority) (deadline : option MonotonicTime)
    (operations : list TypedOperation) (admitted : list (RequestKey * TypedOperation))
    : RequestAuthority * result RuntimeError (list (RequestKey * TypedOperation)) :=
  match operations with
  | [] => (a, Ok admitted)
  | operation :: operations =>
      match op_credit_charge operation (au_large_mtu a) with
      | Err _ => (abort_compound a admitted, Err (RT_Wire WF_CreditCharge))
      | Ok charge =>
          let '(a, effects) := au_reduce a (OE_Admit (op_payload_bytes operation) charge deadline) in
          match head effects with
          | Some (OF_Admitted plan) =>
              admit_compound a deadline operations (admitted ++ [(pp_key plan, operation)])
          | Some (OF_AdmissionRejected error) => (abort_compound a admitted, Err (RT_Admission error))
          | _ => (abort_compound a admitted, Err RT_OwnerTerminated)
          end
      end
  end.

Definition install_member (acc : RequestAuthority * option RuntimeError)
    (member : RequestKey * TypedOperation) : RequestAuthority * option RuntimeError :=
  let '(a, fatal) := acc in
  let '(key, operation) := member in
  let a := a <| au_pending := <[key := new_pending operation None None]> (au_pending a) |> in
  replay_early_response a fatal key.

(** [filter_map(dependency).find_map(|d| validate_active(d).err())] *)
Fixpoint first_inactive (objects : ObjectRegistry) (operations : list TypedOperation)
    : option ObjectError :=
  match operations with
  | [] => None
  | operation :: operations =>
      match op_dependency operation with
      | Some dependency =>
          match reg_validate_active objects dependency with
          | Err error => Some error
          | Ok _ => first_inactive objects operations
          end
      | None => first_inactive objects operations
      end
  end.

Definition reject_compound (e : Engine) (a : RequestAuthority) (command : CompoundAdmission)
    (error : RuntimeError) : Engine :=
  e <| en_authority := reply a (ca_acknowledge command) (Rp_Submissions (Err error)) |>
    <| en_waiting_compound := None |>.

(** [frame] is the result of [wire.transform_outgoing_compound(..)]. *)
Definition process_compound_admission (e : Engine) (command : CompoundAdmission)
    (frame : option SendFrame) : Engine :=
  let a := en_authority e in
  let operations := ca_operations command in
  match operations with
  | [] => reject_compound e a command (RT_Wire WF_EmptyCompound)
  | _ =>
  match first_inactive (au_objects a) operations with
  | Some error => reject_compound e a command (RT_Object error)
  | None =>
  if bool_decide (max_operations (gs_limits (au_state a)) <
       saturating_add usize_max (Z.of_nat (size (au_pending a))) (Z.of_nat (length operations)))
  then reject_compound e a command (RT_Admission AE_OperationsExhausted)
  else match compound_charge operations (au_large_mtu a) 0 with
  | None => reject_compound e a command (RT_Wire WF_CreditCharge)
  | Some required =>
  if bool_decide (gs_available_credits (au_state a) < required)
  then e <| en_waiting_compound := Some command |>
  else match admit_compound a (ca_deadline command) operations [] with
  | (a, Err error) => reject_compound e a command error
  | (a, Ok admitted) =>
  match frame, admitted with
  | Some frame, (key, _) :: _ =>
      let keys := admitted.*1 in
      let '(a, fatal) := foldl install_member (a, en_fatal e) admitted in
      let '(a, token) := new_token a in
      let submissions := (fun key => mkSubmission key None) <$> keys in
      e <| en_authority := reply a (ca_acknowledge command) (Rp_Submissions (Ok submissions)) |>
        <| en_fatal := fatal |> <| en_waiting_compound := None |>
        <| en_send_queue := en_send_queue e ++ [mkWrite key keys frame token] |>
  | _, _ => reject_compound e (abort_compound a admitted) command (RT_Wire WF_PrepareCompound)
  end end end end end.

(** ** Control *)

Inductive ControlCommand :=
| CC_CreateObject (parent : ObjectToken) (kind : ObjectKind) (r : Sender)
| CC_LoseObjectGeneration (r : Sender)
| CC_BeginObjectRecovery (object : ObjectToken) (r : Sender)
| CC_PublishObjectReplacement (object : ObjectToken) (r : Sender)
| CC_FailObjectRecovery (object : ObjectToken) (r : Sender)
| CC_InstallNotifications
| CC_AwaitOperation (key : RequestKey) (r : Sender)
| CC_PreauthSnapshot (r : Sender)
| CC_ResetPreauthToNegotiate (r : Sender)
| CC_Negotiated (large_mtu : bool) (r : Sender)
| CC_SessionStarted (r : Sender)
| CC_SessionEnded (r : Sender)
| CC_Cancel (key : RequestKey) (now : MonotonicTime)
| CC_Close (deadline : MonotonicTime) (r : Sender).

Definition map_err {A} (r : result ObjectError A) : result RuntimeError A :=
  match r with Ok a => Ok a | Err e => Err (RT_Object e) end.

(** What a call into the wire pipeline answers: an error, or a value (the pre-authentication
    hash, where one is asked for). *)
Abbreviation WireAnswer := (option (option bytes)).

Definition wire_reply (wire : WireAnswer) (fault : WireFault) : Reply :=
  Rp_Unit (match wire with Some _ => Ok tt | None => Err (RT_Wire fault) end).

Definition await_operation (a : RequestAuthority) (key : RequestKey) (r : Sender) : RequestAuthority :=
  match au_pending a !! key with
  | None => reply a r (Rp_Operation (Err (RT_UnknownRequest key)))
  | Some pending =>
      match pd_buffered pending with
      | Some result =>
          let a := if pd_draining pending
                   then a <| au_pending := <[key := pending <| pd_buffered := None |>
                                              <| pd_caller_completed := true |>]> (au_pending a) |>
                   else a <| au_pending := delete key (au_pending a) |> in
          reply a r (Rp_Operation result)
      | None =>
          if bool_decide (is_Some (pd_terminal pending)) || pd_caller_completed pending
          then reply a r (Rp_Operation (Err (RT_AlreadyAwaited key)))
          else a <| au_pending := <[key := pending <| pd_terminal := Some r |>]> (au_pending a) |>
      end
  end.

(** The effects of an event that may publish outcomes, applied to both tables. *)
Definition reduce_and_apply (a : RequestAuthority) (event : OwnerEvent) : RequestAuthority :=
  let '(a, effects) := au_reduce a event in
  apply_owner_effects (apply_operation_effects a effects) effects.

(** [send_queue.iter().position(..)] and [remove]. *)
Fixpoint take_queued (key : RequestKey) (queue : list WriteCommand)
    : option (WriteCommand * list WriteCommand) :=
  match queue with
  | [] => None
  | command :: rest =>
      if bool_decide (wc_key command = key) then Some (command, rest)
      else match take_queued key rest with
           | Some (found, rest) => Some (found, command :: rest)
           | None => None
           end
  end.

Definition control_cancel (e : Engine) (key : RequestKey) (now : MonotonicTime) : Engine :=
  let a := en_authority e in
  let '(a, queue, removed) :=
    match take_queued key (en_send_queue e) with
    | Some (command, rest) => (cancel_token a (wc_cancel_before_write command), rest, true)
    | None => (a, en_send_queue e, false)
    end in
  let a := match au_frame_cancellations a !! key with
           | Some token => cancel_token a token
           | None => a
           end in
  let committed := match gs_request (au_state a) key with
                   | Some request => rr_wire_committed request
                   | None => false
                   end in
  let a := if removed || committed || negb (bool_decide (is_Some (au_frame_cancellations a !! key)))
           then reduce_and_apply a (OE_Cancel key now)
           else match au_deferred a !! key with
                | Some _ => a
                | None => a <| au_deferred := <[key := now]> (au_deferred a) |>
                end in
  e <| en_authority := a |> <| en_send_queue := queue |>.

(** [wire] is the answer of the wire pipeline. The returned flag is [true] for a close. *)
Definition handle_control (e : Engine) (command : ControlCommand) (wire : WireAnswer) : Engine * bool :=
  let a := en_authority e in
  match command with
  | CC_CreateObject parent kind r =>
      let '(objects, token) := reg_create_child (au_objects a) parent kind in
      (e <| en_authority := reply (a <| au_objects := objects |>) r (Rp_Token (map_err token)) |>, false)
  | CC_LoseObjectGeneration r =>
      let '(objects, effects) := reg_lose_generation (au_objects a) in
      (e <| en_authority := reply (a <| au_objects := objects |>) r
             (Rp_Count (Ok (Z.of_nat (length effects)))) |>, false)
  | CC_BeginObjectRecovery object r =>
      let '(objects, done) := reg_begin_recovery (au_objects a) object in
      (e <| en_authority := reply (a <| au_objects := objects |>) r (Rp_Unit (map_err done)) |>, false)
  | CC_PublishObjectReplacement object r =>
      let '(objects, published) := reg_publish_replacement_revoking_descendants (au_objects a) object in
      let token := match published with
                   | Ok (OB_ReplacementPublished _ replacement, _) => Ok replacement
                   | Ok (OB_Revoked _, _) => Err (RT_Object OBE_Stale)
                   | Err error => Err (RT_Object error)
                   end in
      (e <| en_authority := reply (a <| au_objects := objects |>) r (Rp_Token token) |>, false)
  | CC_FailObjectRecovery object r =>
      let '(objects, failed) := reg_fail_recovery (au_objects a) object in
      let done := match failed with Ok _ => Ok tt | Err error => Err (RT_Object error) end in
      (e <| en_authority := reply (a <| au_objects := objects |>) r (Rp_Unit done) |>, false)
  | CC_InstallNotifications => (e <| en_authority := a <| au_notifications := true |> |>, false)
  | CC_AwaitOperation key r => (e <| en_authority := await_operation a key r |>, false)
  | CC_PreauthSnapshot r =>
      (e <| en_authority := reply a r (Rp_Preauth (match wire with
                                                   | Some hash => Ok hash
                                                   | None => Err (RT_Wire WF_PreauthSnapshot)
                                                   end)) |>, false)
  | CC_ResetPreauthToNegotiate r =>
      (e <| en_authority := reply a r (wire_reply wire WF_PreauthReset) |>, false)
  | CC_Negotiated large_mtu r =>
      let a := a <| au_large_mtu := large_mtu |> in
      let a := a <| au_state := gs_set_target_credits (au_state a)
                      (if large_mtu then au_target_credits a else 1) |> in
      (e <| en_authority := reply a r (wire_reply wire WF_NegotiatedPolicy) |>, false)
  | CC_SessionStarted r =>
      (e <| en_authority := reply a r (wire_reply wire WF_SessionStartedPolicy) |>, false)
  | CC_SessionEnded r => (e <| en_authority := reply a r (wire_reply wire WF_SessionEndedPolicy) |>, false)
  | CC_Cancel key now => (control_cancel e key now, false)
  | CC_Close deadline r =>
      (match en_close e with
       | None => e <| en_close := Some (mkClose deadline r) |>
       | Some _ => e <| en_authority := reply a r (Rp_Close (Err RT_Closed)) |>
       end, true)
  end.

(** ** Transport *)

Definition queue_member (a : RequestAuthority) (member : RequestKey) : RequestAuthority :=
  (au_reduce a (OE_Request member PG_Queued)).1.

(** [None] is the panic of [expect]: there is a frame to write, no write is active, and the
    write transport is gone. *)
Definition dispatch_next (e : Engine) : option Engine :=
  match en_active_write e, en_send_queue e with
  | Some _, _ | None, [] => Some e
  | None, command :: rest =>
      let a := foldl queue_member (en_authority e) (wc_members command) in
      let a := a <| au_frame_members := <[wc_key command := wc_members command]> (au_frame_members a) |>
                 <| au_frame_cancellations :=
                      <[wc_key command := wc_cancel_before_write command]> (au_frame_cancellations a) |> in
      if en_write e
      then Some (e <| en_authority := a |> <| en_send_queue := rest |>
                   <| en_write := false |> <| en_active_write := Some command |>)
      else None
  end.

Inductive PumpName := PN_Read | PN_Write.

Inductive IoEvent :=
| IO_WriteCancelled (key : RequestKey)
| IO_WriteProgress (key : RequestKey) (bytes : Z)
| IO_WriteComplete (key : RequestKey)
| IO_Failed (pump : PumpName) (network : option NetworkFailure) (code : Z)
| IO_Exited (pump : PumpName).

Definition members_of (a : RequestAuthority) (key : RequestKey) : list RequestKey :=
  default [key] (au_frame_members a !! key).

Definition progress_member (event : RequestProgress) (a : RequestAuthority) (member : RequestKey)
    : RequestAuthority := (au_reduce a (OE_Request member event)).1.

(** A cancellation that waited for the write to show whether anything was sent. *)
Definition settle_deferred (a : RequestAuthority) (key : RequestKey) : RequestAuthority :=
  match au_deferred a !! key with
  | Some now => reduce_and_apply (a <| au_deferred := delete key (au_deferred a) |>) (OE_Cancel key now)
  | None => a
  end.

Definition cancel_member (now : MonotonicTime) (a : RequestAuthority) (member : RequestKey)
    : RequestAuthority := reduce_and_apply a (OE_Cancel member now).

(** [event_full]: events are emitted and their lane is full. *)
Definition process_io (a : RequestAuthority) (fatal : option RuntimeError) (event : IoEvent)
    (event_full : bool) : RequestAuthority * option RuntimeError :=
  let emit fatal := if event_full then get_or_insert fatal RT_EventBackpressure else fatal in
  match event with
  | IO_WriteCancelled key =>
      let now := default time_zero (au_deferred a !! key) in
      let a := a <| au_deferred := delete key (au_deferred a) |> in
      let members := members_of a key in
      let a := a <| au_frame_members := delete key (au_frame_members a) |> in
      let a := foldl (cancel_member now) a members in
      (a <| au_frame_cancellations := delete key (au_frame_cancellations a) |>, fatal)
  | IO_WriteProgress key bytes =>
      let a := foldl (progress_member (PG_WriteProgress bytes)) a (members_of a key) in
      (settle_deferred a key, emit fatal)
  | IO_WriteComplete key =>
      let members := members_of a key in
      let a := a <| au_frame_members := delete key (au_frame_members a) |> in
      let a := foldl (progress_member PG_WriteComplete) a members in
      let a := settle_deferred a key in
      (a <| au_frame_cancellations := delete key (au_frame_cancellations a) |>, emit fatal)
  | IO_Failed pump network code =>
      (a, emit (Some (match network with
                      | Some failure => RT_Network failure
                      | None => RT_Transport (TF_Code code)
                      end)))
  | IO_Exited _ => (a, emit fatal)
  end.

(** One decoded message: an answer to a pending operation, a notification, or a response
    that came before its operation was installed. *)
Definition route_message (notify_full : bool) (acc : RequestAuthority * option RuntimeError)
    (message : CommandResponse) : RequestAuthority * option RuntimeError :=
  let '(a, fatal) := acc in
  let key := mkKey (gs_generation (au_state a)) (hd_message_id (cres_header message)) in
  if bool_decide (is_Some (au_pending a !! key)) then process_decoded_response a fatal message
  else if bool_decide (rk_message_id key = u64_max) then
    (a, if au_notifications a && notify_full then get_or_insert fatal RT_EventBackpressure else fatal)
  else if bool_decide (max_operations (gs_limits (au_state a)) <= Z.of_nat (size (au_early a)))
  then (a, Some (RT_Wire WF_EarlyResponse))
  else
    let fatal := if bool_decide (is_Some (au_early a !! key))
                 then Some (RT_Wire WF_EarlyResponse) else fatal in
    (a <| au_early := <[key := message]> (au_early a) |>, fatal).

Definition finish_prepared_inbound (a : RequestAuthority) (fatal : option RuntimeError)
    (inbound : PreparedInbound) (notify_full event_full : bool)
    : RequestAuthority * option RuntimeError :=
  let '(messages, fatal) := match ib_result inbound with
                            | Some messages => (messages, fatal)
                            | None => ([], Some (RT_Wire WF_DecodeIncoming))
                            end in
  let '(a, fatal) := foldl (route_message notify_full) (a, fatal) messages in
  (a, if event_full then get_or_insert fatal RT_EventBackpressure else fatal).

(** [process_or_enqueue_io] of an inbound frame. *)
Definition enqueue_inbound (e : Engine) : option Engine :=
  let sequence := en_next_inbound_sequence e in
  match checked_add u64_max sequence 1 with
  | None => Some (e <| en_fatal := Some (RT_Wire WF_InboundSequenceExhausted) |>)
  | Some next =>
      match ocq_reserve (en_inbound_order e) sequence with
      | None => None
      | Some order =>
          Some (e <| en_next_inbound_sequence := next |> <| en_inbound_order := order |>
                  <| en_inbound := en_inbound e ++ [sequence] |>)
      end
  end.

Definition publish_shutdown_reason (e : Engine) : Engine :=
  match en_shutdown_reason e with
  | Some _ => e
  | None =>
      e <| en_shutdown_reason := Some
             (if bool_decide (is_Some (en_close e)) then RT_Closed
              else default RT_Closed (en_fatal e)) |>
  end.

(** ** Events of the owner loop *)

Inductive WriteOutcome :=
| WO_Cancelled
| WO_Sent (result : option (option NetworkFailure * Z))
| WO_Panicked.

(** The futures of preparations are polled by the loop, and other calls of the wire pipeline
    are awaited by its handlers; a panic of one of them is not caught. [EV_WirePanicked] is a
    panic of an awaited call. *)
Inductive EngineEvent :=
| EV_Admission (command : AdmissionCommand)
| EV_Operation (command : OperationAdmission) (concurrent : bool) (frame : option SendFrame)
| EV_RetryOperation (concurrent : bool) (frame : option SendFrame)
| EV_Compound (command : CompoundAdmission) (frame : option SendFrame)
| EV_RetryCompound (frame : option SendFrame)
| EV_Prepared (preparation : Preparation) (result : option SendFrame)
| EV_Control (command : ControlCommand) (wire : WireAnswer)
| EV_ReadFailed (network : option NetworkFailure) (code : Z) (event_full : bool)
| EV_ReadPanicked
| EV_Inbound
| EV_InboundPrepared (sequence : Z) (result : option (list CommandResponse))
    (notify_full event_full : bool)
| EV_InboundPanicked (sequence : Z)
| EV_PreparationPanicked (preparation : Preparation)
| EV_WirePanicked
| EV_WriteProgress (bytes : Z) (event_full : bool)
| EV_WriteDone (unreported : Z) (outcome : WriteOutcome) (event_full : bool)
| EV_Dispatch
| EV_Deadline (now : MonotonicTime)
| EV_PublishReason.

(** The guards of the loop: an admission is taken only when none waits for credits, a
    compound only when no preparation is in flight, and a completion belongs to something
    that was started. *)
Definition ev_enabled (e : Engine) (event : EngineEvent) : bool :=
  match event with
  | EV_Operation _ _ _ =>
      bool_decide (en_waiting_operation e = None /\ en_waiting_compound e = None)
  | EV_RetryOperation _ _ => bool_decide (is_Some (en_waiting_operation e))
  | EV_Compound _ _ =>
      bool_decide (en_waiting_operation e = None /\ en_waiting_compound e = None)
      && ocq_is_empty (en_preparation_order e)
  | EV_RetryCompound _ =>
      bool_decide (is_Some (en_waiting_compound e)) && ocq_is_empty (en_preparation_order e)
  | EV_Prepared preparation _ | EV_PreparationPanicked preparation => bool_decide (preparation ∈ en_preparations e)
  | EV_InboundPrepared sequence _ _ _ | EV_InboundPanicked sequence => bool_decide (sequence ∈ en_inbound e)
  | EV_WriteProgress _ _ | EV_WriteDone _ _ _ => bool_decide (is_Some (en_active_write e))
  | EV_PublishReason => bool_decide (is_Some (en_fatal e))
  | _ => true
  end.

Definition with_io (e : Engine) (event : IoEvent) (event_full : bool) : Engine :=
  let '(a, fatal) := process_io (en_authority e) (en_fatal e) event event_full in
  e <| en_authority := a |> <| en_fatal := fatal |>.

Definition inbound_step (notify_full event_full : bool) (e : Engine) (inbound : PreparedInbound) : Engine :=
  let '(a, fatal) := finish_prepared_inbound (en_authority e) (en_fatal e) inbound notify_full event_full in
  e <| en_authority := a |> <| en_fatal := fatal |>.

Definition finish_write (e : Engine) (key : RequestKey) (outcome : WriteOutcome) (event_full : bool)
    : Engine :=
  match outcome with
  | WO_Cancelled => with_io (e <| en_write := true |>) (IO_WriteCancelled key) event_full
  | WO_Sent None => with_io (e <| en_write := true |>) (IO_WriteComplete key) event_full
  | WO_Sent (Some (network, code)) =>
      with_io (e <| en_write := true |>) (IO_Failed PN_Write network code) event_full
  | WO_Panicked => e <| en_fatal := Some (RT_Transport TF_PumpPanicked) |>
  end.

(** A preparation finished: what can be released is, in the order of admission. *)
Definition prepared_step (e : Engine) (preparation : Preparation) (result : option SendFrame) : option Engine :=
  match ocq_complete (en_preparation_order e) (pr_key preparation) (mkPrepared preparation result) with
  | None => None
  | Some (order, ready) =>
      Some (foldl finish_prepared_operation
              (e <| en_preparations := remove_one preparation (en_preparations e) |>
                 <| en_preparation_order := order |>) ready)
  end.

(** An inbound frame was decoded: what can be routed is, in the order of arrival. *)
Definition inbound_prepared_step (e : Engine) (sequence : Z) (result : option (list CommandResponse))
    (notify_full event_full : bool) : option Engine :=
  match ocq_complete (en_inbound_order e) sequence (mkInbound sequence result) with
  | None => None
  | Some (order, ready) =>
      Some (foldl (inbound_step notify_full event_full)
              (e <| en_inbound := remove_one sequence (en_inbound e) |>
                 <| en_inbound_order := order |>) ready)
  end.

Definition write_progress_step (e : Engine) (bytes : Z) (event_full : bool) : Engine :=
  match en_active_write e with
  | Some active =>
      if bool_decide (bytes > 0) then with_io e (IO_WriteProgress (wc_key active) bytes) event_full else e
  | None => e
  end.

Definition write_done_step (e : Engine) (unreported : Z) (outcome : WriteOutcome) (event_full : bool)
    : Engine :=
  match en_active_write e with
  | Some active =>
      let key := wc_key active in
      let e := e <| en_active_write := None |> in
      let e := if bool_decide (unreported > 0)
               then with_io e (IO_WriteProgress key unreported) event_full else e in
      finish_write e key outcome event_full
  | None => e
  end.

Definition deadline_step (e : Engine) (now : MonotonicTime) : Engine :=
  let a := reduce_and_apply (en_authority e) (OE_AdvanceTime now) in
  let e := e <| en_authority := a |> in
  if gs_unhealthy (au_state a)
  then publish_shutdown_reason (e <| en_fatal := Some (RT_Transport TF_GenerationUnhealthy) |>)
  else e.

(** One event of the loop; [None] is a panic of the owner task. *)
Definition eng_step (e : Engine) (event : EngineEvent) : option Engine :=
  match event with
  | EV_Admission command => Some (process_admission e command)
  | EV_Operation command concurrent frame => process_operation_admission e command concurrent frame
  | EV_RetryOperation concurrent frame =>
      match en_waiting_operation e with
      | Some command => process_operation_admission e command concurrent frame
      | None => Some e
      end
  | EV_Compound command frame => Some (process_compound_admission e command frame)
  | EV_RetryCompound frame =>
      match en_waiting_compound e with
      | Some command => Some (process_compound_admission e command frame)
      | None => Some e
      end
  | EV_Prepared preparation result => prepared_step e preparation result
  | EV_Control command wire =>
      let '(e, close) := handle_control e command wire in
      Some (if close then publish_shutdown_reason e else e)
  | EV_ReadFailed network code event_full =>
      Some (with_io e (IO_Failed PN_Read network code) event_full)
  | EV_ReadPanicked => Some (e <| en_fatal := Some (RT_Transport TF_PumpPanicked) |>)
  | EV_Inbound => enqueue_inbound e
  | EV_InboundPrepared sequence result notify_full event_full =>
      inbound_prepared_step e sequence result notify_full event_full
  | EV_InboundPanicked _ | EV_PreparationPanicked _ | EV_WirePanicked => None
  | EV_WriteProgress bytes event_full => Some (write_progress_step e bytes event_full)
  | EV_WriteDone unreported outcome event_full => Some (write_done_step e unreported outcome event_full)
  | EV_Dispatch => dispatch_next e
  | EV_Deadline now => Some (deadline_step e now)
  | EV_PublishReason => Some (publish_shutdown_reason e)
  end.

(** ** Shutdown *)

Definition fail_admission (error : RuntimeError) (a : RequestAuthority) (command : AdmissionCommand)
    : RequestAuthority :=
  reply (reply a (ac_terminal command) (Rp_Terminal (Err error)))
    (ac_acknowledge command) (Rp_Key (Err error)).

Definition fail_operation (error : RuntimeError) (a : RequestAuthority) (command : OperationAdmission)
    : RequestAuthority := reject_operation a command error.

Definition fail_compound (error : RuntimeError) (a : RequestAuthority) (command : CompoundAdmission)
    : RequestAuthority := reply a (ca_acknowledge command) (Rp_Submissions (Err error)).

(** [authority.terminals.drain()] and [authority.operation_pending.drain()]. *)
Definition drain_terminal (error : RuntimeError) (a : RequestAuthority) (key : RequestKey)
    : RequestAuthority :=
  match au_terminals a !! key with
  | Some terminal =>
      reply (a <| au_terminals := delete key (au_terminals a) |>) terminal (Rp_Terminal (Err error))
  | None => a
  end.

Definition drain_pending (error : RuntimeError) (a : RequestAuthority) (key : RequestKey)
    : RequestAuthority :=
  match au_pending a !! key with
  | Some pending =>
      reply_opt (a <| au_pending := delete key (au_pending a) |>) (pd_terminal pending)
        (Rp_Operation (Err error))
  | None => a
  end.

(** The commands still in the channels when the loop ends. Three of them are closed and drained;
    [control_rx] is dropped as it is, with the reply senders of the commands in it. *)
Record Channels := mkChannels {
  chn_control : list ControlCommand;
  chn_admissions : list AdmissionCommand;
  chn_operations : list OperationAdmission;
  chn_compounds : list CompoundAdmission
}.

Definition cancel_all (a : RequestAuthority) (tokens : list CancellationToken) : RequestAuthority :=
  a <| au_cancelled := list_to_set tokens ∪ au_cancelled a |>.

(** What the owner does after its loop, up to the report of the joined pumps: [finish] is
    the result of [finish_active_write] and [read_panicked] the flag of the loop. *)
Definition eng_shutdown (e : Engine) (channels : Channels) (read_panicked : bool) (finish : Z * Z * bool)
    : Engine * CloseReport :=
  let e := publish_shutdown_reason e in
  let error := default RT_Closed (en_shutdown_reason e) in
  let a := en_authority e in
  let a := cancel_all (a <| au_preparation_cancellations := ∅ |>)
             (hash_values (au_preparation_cancellations a)) in
  let a := foldl (fail_admission error) a (chn_admissions channels) in
  let a := foldl (fail_compound error) a (chn_compounds channels) in
  let a := foldl (fail_operation error) a (chn_operations channels) in
  let a := match en_waiting_operation e with Some c => fail_operation error a c | None => a end in
  let a := match en_waiting_compound e with Some c => fail_compound error a c | None => a end in
  let a := cancel_all a (wc_cancel_before_write <$> en_send_queue e) in
  let a := cancel_all a (hash_values (au_frame_cancellations a)) in
  let a := a <| au_objects := (reg_lose_generation (au_objects a)).1 |> in
  let a := reduce_and_apply a
    (OE_Disconnect match error with RT_Network failure => Some failure | _ => None end) in
  let a := foldl (drain_terminal error) a (hash_keys (au_terminals a)) in
  let a := foldl (drain_pending error) a (hash_keys (au_pending a)) in
  let '(write_joined, write_failed, timed_out) := finish in
  let report := mkCloseReport timed_out (gs_unresolved_callers (au_state a))
    ((if read_panicked then 0 else 1) + write_joined)
    ((if read_panicked then 1 else 0) + write_failed) in
  let a := match en_close e with
           | Some request => reply a (cq_reply request) (Rp_Close (Ok report))
           | None => a
           end in
  (e <| en_authority := a |> <| en_send_queue := [] |> <| en_waiting_operation := None |>
     <| en_waiting_compound := None |> <| en_close := None |>, report).

(** ** The start of a generation *)

Definition eng_new (generation : GenerationId) (initial_message_id initial_credits target_credits : Z)
    (limits : AdmissionLimits) (drain : Duration) : Engine :=
  mkEngine
    (mkAuthority (gs_new generation initial_message_id initial_credits 1 limits drain)
       (reg_new generation) ∅ ∅ ∅ ∅ ∅ ∅ ∅ false false target_credits [] ∅ 0)
    [] [] ocq_default [] ocq_default 0 None None None None true None None.
End engine.
