(* ===== verification/EngineInv.v ===== *)
(** The invariant of the connection owner's tables (crates/smb/src/runtime/engine.rs): how
    the pending operations follow the requests of the generation, and where every reply
    channel is. *)
From S2P Require Import Prelude Clock Reducer GenState GenInv GenReach GenPublish GenProps.
From S2P Require Import GenEffects ObjectState Bytes Header Operation PreparationOrder Engine.
Local Open Scope Z_scope.

(** ** Reply channels *)

Definition cnt (x : Sender) (s : option Sender) : Z := if bool_decide (s = Some x) then 1 else 0.

Fixpoint sent (x : Sender) (log : list (Sender * Reply)) : Z :=
  match log with [] => 0 | entry :: log => cnt x (Some entry.1) + sent x log end.

(** How often the authority has the channel [x]: in its tables, or replied on already. *)
Definition handles (x : Sender) (a : RequestAuthority) : Z :=
  map_sum (fun p => cnt x (pd_terminal p)) (au_pending a)
  + map_sum (fun s => cnt x (Some s)) (au_terminals a) + sent x (au_log a).

#[global] Arguments cnt : simpl never.

Lemma cnt_none x : cnt x None = 0.
Proof. done. Qed.

Lemma cnt_nonneg x s : 0 <= cnt x s.
Proof. unfold cnt. case_bool_decide; lia. Qed.

Lemma sent_app x l1 l2 : sent x (l1 ++ l2) = sent x l1 + sent x l2.
Proof. induction l1 as [|e l1 IH]; cbn; [done|]. rewrite IH. lia. Qed.

Lemma sent_nonneg x l : 0 <= sent x l.
Proof. induction l as [|e l IH]; cbn; [done|]. pose proof (cnt_nonneg x (Some e.1)). lia. Qed.

Lemma handles_reply x a s r : handles x (reply a s r) = handles x a + cnt x (Some s).
Proof. unfold handles, reply; cbn. rewrite sent_app. cbn. lia. Qed.

Lemma handles_reply_opt x a s r : handles x (reply_opt a s r) = handles x a + cnt x s.
Proof. destruct s; cbn [reply_opt]; [apply handles_reply|]. rewrite cnt_none. lia. Qed.

Lemma handles_fields x a a' :
  au_pending a' = au_pending a -> au_terminals a' = au_terminals a -> au_log a' = au_log a ->
  handles x a' = handles x a.
Proof. unfold handles. by intros -> -> ->. Qed.

Lemma handles_pending_put x a k p p' :
  au_pending a !! k = Some p ->
  handles x (a <| au_pending := <[k := p']> (au_pending a) |>)
  = handles x a - cnt x (pd_terminal p) + cnt x (pd_terminal p').
Proof. intros H. unfold handles; cbn. rewrite (map_sum_update _ _ k p) by done. lia. Qed.

Lemma handles_pending_new x a k p :
  au_pending a !! k = None ->
  handles x (a <| au_pending := <[k := p]> (au_pending a) |>) = handles x a + cnt x (pd_terminal p).
Proof. intros H. unfold handles; cbn. rewrite map_sum_insert by done. lia. Qed.

Lemma handles_pending_delete x a k p :
  au_pending a !! k = Some p ->
  handles x (a <| au_pending := delete k (au_pending a) |>) = handles x a - cnt x (pd_terminal p).
Proof. intros H. unfold handles; cbn. rewrite (map_sum_delete _ (au_pending a) k p) by done. lia. Qed.

Lemma handles_terminal_new x a k s :
  au_terminals a !! k = None ->
  handles x (a <| au_terminals := <[k := s]> (au_terminals a) |>) = handles x a + cnt x (Some s).
Proof. intros H. unfold handles; cbn. rewrite map_sum_insert by done. lia. Qed.

Lemma handles_terminal_delete x a k s :
  au_terminals a !! k = Some s ->
  handles x (a <| au_terminals := delete k (au_terminals a) |>) = handles x a - cnt x (Some s).
Proof. intros H. unfold handles; cbn. rewrite (map_sum_delete _ (au_terminals a) k s) by done. lia. Qed.

(** ** How a pending operation changes *)

(** The caller has its result, or will get it when it asks. *)
Definition settled (p : OperationPending) : Prop :=
  pd_terminal p = None /\ (is_Some (pd_buffered p) \/ pd_caller_completed p = true).

Definition same_caller (p p' : OperationPending) : Prop :=
  pd_terminal p' = pd_terminal p /\ pd_buffered p' = pd_buffered p /\
  pd_caller_completed p' = pd_caller_completed p.

Definition pd_evolves (p p' : OperationPending) : Prop :=
  pd_draining p' = pd_draining p /\ (settled p' \/ same_caller p p').

#[export] Instance same_caller_preorder : PreOrder same_caller.
Proof.
  split; [done|]. intros p1 p2 p3 (A1 & A2 & A3) (B1 & B2 & B3). unfold same_caller. intuition congruence.
Qed.

Lemma settled_same p p' : same_caller p p' -> settled p -> settled p'.
Proof. unfold settled. intros (-> & -> & ->). done. Qed.

#[export] Instance pd_evolves_preorder : PreOrder pd_evolves.
Proof.
  split.
  - intros p. split; [done|]. by right.
  - intros p1 p2 p3 [D1 H1] [D2 H2]. split; [congruence|].
    destruct H2 as [|H2]; [by left|]. destruct H1 as [H1|H1]; [left; by eapply settled_same|].
    right. by etrans.
Qed.

(** A step that moves reply channels from the tables to the log and touches nothing else
    the invariant speaks of. *)
Record moves (a a' : RequestAuthority) : Prop := {
  mv_state : au_state a' = au_state a;
  mv_early : au_early a' = au_early a;
  mv_deferred : au_deferred a' = au_deferred a;
  mv_terminals k s : au_terminals a' !! k = Some s -> au_terminals a !! k = Some s;
  mv_pending k p' : au_pending a' !! k = Some p' ->
    exists p, au_pending a !! k = Some p /\ pd_evolves p p';
  mv_handles x : handles x a' = handles x a
}.

#[export] Instance moves_preorder : PreOrder moves.
Proof.
  split.
  - intros a. split; try done. intros k p' H. by exists p'.
  - intros a1 a2 a3 [] []. split; try congruence; [naive_solver|].
    intros k p3 (p2 & H2 & E2)%mv_pending1. destruct (mv_pending0 k p2 H2) as (p1 & H1 & E1).
    exists p1. split; [done|]. by etrans.
Qed.

(** Every pending operation of [k] is settled. *)
Definition settled_at (a : RequestAuthority) (k : RequestKey) : Prop :=
  forall p, au_pending a !! k = Some p -> settled p.

Lemma moves_settled a a' k : moves a a' -> settled_at a k -> settled_at a' k.
Proof.
  intros M H p' Hp'. destruct (mv_pending _ _ M k p' Hp') as (p & Hp & _ & [|E]); [done|].
  eapply settled_same; eauto.
Qed.

Lemma moves_fold {B} (f : RequestAuthority -> B -> RequestAuthority) l a :
  (forall a b, moves a (f a b)) -> moves a (foldl f a l).
Proof.
  intros Hf. revert a. induction l as [|b l IH]; intros a; cbn; [done|]. etrans; [apply Hf|apply IH].
Qed.

Lemma moves_handles_reply a a' k s r :
  au_terminals a !! k = Some s -> a' = reply (a <| au_terminals := delete k (au_terminals a) |>) s r ->
  moves a a'.
Proof.
  intros Hk ->. split; try done.
  - intros k' s'. cbn. by intros [_ ?]%lookup_delete_Some.
  - intros k' p' H. by exists p'.
  - intros x. rewrite handles_reply, (handles_terminal_delete _ _ _ s) by done. lia.
Qed.

Lemma moves_reply_pending a k p s r (p' : option OperationPending) :
  au_pending a !! k = Some p -> pd_terminal p = Some s ->
  (forall q, p' = Some q -> pd_evolves p q /\ pd_terminal q = None) ->
  moves a (reply (a <| au_pending := partial_alter (fun _ => p') k (au_pending a) |>) s r).
Proof.
  intros Hk Hs Hp'. split; try done.
  - intros k' q. cbn. intros H. destruct (decide (k' = k)) as [->|Hne].
    + rewrite lookup_partial_alter_eq in H. exists p. split; [done|]. by apply Hp'.
    + rewrite lookup_partial_alter_ne in H by done. by exists q.
  - intros x. rewrite handles_reply. destruct p' as [q|].
    + change (partial_alter (fun _ => Some q) k (au_pending a)) with (<[k := q]> (au_pending a)).
      rewrite (handles_pending_put _ _ _ p) by done. destruct (Hp' q eq_refl) as [_ ->].
      rewrite Hs, cnt_none. lia.
    + change (partial_alter (fun _ => None) k (au_pending a)) with (delete k (au_pending a)).
      rewrite (handles_pending_delete _ _ _ p) by done. rewrite Hs. lia.
Qed.

(** Replacing an entry without touching its channel. *)
Lemma moves_put a k p p' :
  au_pending a !! k = Some p -> pd_terminal p' = pd_terminal p -> pd_evolves p p' ->
  moves a (a <| au_pending := <[k := p']> (au_pending a) |>).
Proof.
  intros Hk Ht E. split; try done.
  - intros k' q. cbn. rewrite lookup_insert. case_decide; [|by intros ?; exists q].
    intros [= <-]. subst. by exists p.
  - intros x. rewrite (handles_pending_put _ _ _ p), Ht by done. lia.
Qed.

(** ** Completing and publishing move channels to the log *)

Lemma complete_operation_moves a k r :
  moves a (complete_operation a k r) /\ settled_at (complete_operation a k r) k.
Proof.
  unfold complete_operation. destruct (au_pending a !! k) as [p|] eqn:Hk.
  2: { split; [done|]. intros p. by rewrite Hk. }
  set (pr := match r with Ok _ => _ | Err _ => _ end).
  assert (same_caller p pr.1 /\ pd_draining pr.1 = pd_draining p) as [Hs Hd].
  { subst pr. by destruct r as [c|]; [destruct (ores_request_raw c)|]. }
  destruct pr as [p1 r1]. cbn [fst] in *. destruct Hs as (Ht & Hb & Hc).
  destruct (pd_terminal p1) as [t|] eqn:E.
  - split.
    + apply (moves_reply_pending a k p t _ None); [done|congruence|done].
    + intros q. cbn. by rewrite lookup_delete_eq.
  - assert (settled (p1 <| pd_buffered := Some r1 |>)) as Hset by (split; [done|left; eauto]).
    match goal with |- moves _ ?b /\ _ =>
      replace b with (a <| au_pending := <[k := p1 <| pd_buffered := Some r1 |>]> (au_pending a) |>)
        by (cbn; by rewrite insert_delete_eq) end.
    split.
    + apply (moves_put a k p); [done|cbn; congruence|]. split; [done|]. by left.
    + intros q. cbn. rewrite lookup_insert_eq. by intros [= <-].
Qed.

Lemma cancel_rolled_back_moves a eff : moves a (cancel_rolled_back_preparation a eff).
Proof.
  destruct eff as [| | |k| | | | | | | | | | |]; try done. cbn.
  destruct (au_preparation_cancellations a !! k); [|done].
  split; try done. intros k' p' H. by exists p'.
Qed.

Lemma publish_outcome_moves a eff : moves a (publish_outcome a eff).
Proof.
  destruct eff as [| |k [|o| |]| | | | | | | | | | | |]; try done. cbn. case_bool_decide; [done|].
  destruct (au_pending a !! k) as [p|] eqn:Hk; [|done].
  destruct (pd_draining p) eqn:Hd; [|apply complete_operation_moves].
  destruct (pd_terminal p) as [t|] eqn:Ht.
  - apply (moves_reply_pending a k p t _ (Some (p <| pd_terminal := None |> <| pd_caller_completed := true |>)));
      [done..|]. intros q [= <-]. split; [|done]. split; [done|]. left. split; [done|]. by right.
  - apply (moves_put a k p); [done..|]. split; [done|]. left. split; [done|]. left. cbn. eauto.
Qed.

Lemma publish_outcome_settles a k o :
  o <> TO_Response -> settled_at (publish_outcome a (OF_Request k (Eff_Publish o))) k.
Proof.
  intros Ho. cbn. rewrite bool_decide_eq_false_2 by done.
  destruct (au_pending a !! k) as [p|] eqn:Hk; [|by intros p; rewrite Hk].
  destruct (pd_draining p) eqn:Hd; [|apply complete_operation_moves].
  destruct (pd_terminal p) as [t|] eqn:Ht; intros q; cbn; rewrite lookup_insert_eq; intros [= <-].
  - split; [done|]. by right.
  - split; [done|]. left. cbn. eauto.
Qed.

Lemma publish_outcomes_settle effs k o : forall a,
  OF_Request k (Eff_Publish o) ∈ effs -> o <> TO_Response ->
  settled_at (foldl publish_outcome a effs) k.
Proof.
  induction effs as [|eff effs IH]; intros a Hin Ho; [by apply not_elem_of_nil in Hin|].
  cbn [foldl]. apply elem_of_cons in Hin as [<-|Hin]; [|by apply IH].
  eapply moves_settled; [apply moves_fold, publish_outcome_moves|]. by apply publish_outcome_settles.
Qed.

Lemma apply_owner_effects_moves a effs : moves a (apply_owner_effects a effs).
Proof.
  apply moves_fold. clear a effs. intros a eff.
  destruct eff as [| |k [|o| |]| | | | | | | | | | | |]; try done. cbn.
  destruct (au_terminals a !! k) as [t|] eqn:Ht; [|done]. by eapply moves_handles_reply.
Qed.

(** Marking operations as draining changes the flag and nothing about their callers. *)
Record marks (effs : list OwnerEffect) (a a' : RequestAuthority) : Prop := {
  mk_state : au_state a' = au_state a;
  mk_early : au_early a' = au_early a;
  mk_deferred : au_deferred a' = au_deferred a;
  mk_terminals : au_terminals a' = au_terminals a;
  mk_pending k p' : au_pending a' !! k = Some p' ->
    exists p, au_pending a !! k = Some p /\ same_caller p p' /\
      (pd_draining p' = true -> pd_draining p = true \/ OF_BestEffortWireCancel k ∈ effs);
  mk_handles x : handles x a' = handles x a
}.

Lemma mark_draining_marks effs a : marks effs a (foldl mark_draining a effs).
Proof.
  assert (forall l a', l ⊆ effs -> marks effs a a' -> marks effs a (foldl mark_draining a' l)) as H.
  2: { apply H; [done|]. split; try done. intros k p' Hp. exists p'. split; [done|]. split; [done|]. by left. }
  induction l as [|eff l IH]; intros a' Hsub M; cbn [foldl]; [done|].
  apply IH; [intros y Hy; apply Hsub; by right|].
  destruct eff as [| | | | | | | |k| | | | | |]; try done. cbn.
  destruct (au_pending a' !! k) as [p|] eqn:Hk; [|done]. destruct M.
  split; try done.
  - intros k' q. cbn. rewrite lookup_insert. case_decide; [|apply mk_pending0].
    intros [= <-]. subst k'. destruct (mk_pending0 k p Hk) as (p0 & H0 & Hsc & Hdr).
    exists p0. split; [done|]. split; [exact Hsc|]. intros _. right. apply Hsub. by left.
  - intros x. rewrite (handles_pending_put _ _ _ p) by done. rewrite mk_handles0. cbn. lia.
Qed.

(** ** The invariant *)

(** The fields of a response fit their types. *)
Definition response_ok (m : CommandResponse) : Prop := in_range u16_max (hd_credit_request (cres_header m)).

Record au_inv (a : RequestAuthority) : Prop := {
  ai_state : inv (au_state a);
  ai_known k p : au_pending a !! k = Some p -> is_Some (caller_at (au_state a) k);
  ai_unsettled k p : au_pending a !! k = Some p -> ~ settled p ->
    caller_at (au_state a) k = Some CO_Open;
  ai_buffered k p : au_pending a !! k = Some p -> is_Some (pd_buffered p) -> pd_terminal p = None;
  ai_draining k p : au_pending a !! k = Some p -> pd_draining p = true -> settled p;
  ai_terminals k s : au_terminals a !! k = Some s -> is_Some (caller_at (au_state a) k);
  ai_early k m : au_early a !! k = Some m -> response_ok m;
  ai_deferred k t : au_deferred a !! k = Some t -> time_ok t
}.

Lemma ai_open a k p :
  au_inv a -> au_pending a !! k = Some p -> is_Some (pd_terminal p) -> caller_at (au_state a) k = Some CO_Open.
Proof. intros HI Hp Ht. apply (ai_unsettled _ HI k p Hp). intros [Hn _]. rewrite Hn in Ht. by destruct Ht. Qed.

(** An entry that comes from one of [p] by settling or keeping its caller. *)
Lemma buffered_evolves p p' :
  settled p' \/ same_caller p p' -> (is_Some (pd_buffered p) -> pd_terminal p = None) ->
  is_Some (pd_buffered p') -> pd_terminal p' = None.
Proof. intros [[? _]|(-> & -> & _)]; auto. Qed.

Lemma au_inv_moves a a' : moves a a' -> au_inv a -> au_inv a'.
Proof.
  intros [Ms Me Md Mt Mp _] []. split; rewrite ?Ms, ?Me, ?Md; try done.
  - intros k p' (p & Hp & _)%Mp. eauto.
  - intros k p' (p & Hp & _ & [Hs|Hs])%Mp H; [done|].
    eapply ai_unsettled0; [done|]. intros Hn. apply H. by eapply settled_same.
  - intros k p' (p & Hp & _ & Hs)%Mp. eapply buffered_evolves; eauto.
  - intros k p' (p & Hp & Hd & [Hs|Hs])%Mp H; [done|]. eapply settled_same; [done|].
    eapply ai_draining0; [done|congruence].
  - intros k s H%Mt. eauto.
Qed.

Section reduce.
Context `{!HashOrder RequestKey} `{!HashOrder Z}.

Lemma caller_at_keeps s e k : inv s -> is_Some (caller_at s k) -> is_Some (caller_at (gs_reduce s e).1 k).
Proof. unfold caller_at. rewrite !fmap_is_Some. apply gs_reduce_keeps. Qed.

(** A caller that is open before an event and not open after it has been published. *)
Lemma closed_is_published s e k :
  inv s -> caller_at s k = Some CO_Open -> caller_at (gs_reduce s e).1 k <> Some CO_Open ->
  exists o, OF_Request k (Eff_Publish o) ∈ (gs_reduce s e).2.
Proof.
  intros Hinv Ho Hc. destruct (gs_reduce_answers s e k Hinv) as (A & _).
  destruct (caller_at_keeps s e k Hinv) as [c Hc']; [by rewrite Ho|]. rewrite Hc' in *.
  rewrite Ho in A. destruct c as [|o]; [done|]. exists o. apply owner_publications_elem.
  rewrite A. cbn. by left.
Qed.

(** Applying the effects of an event to both tables keeps the invariant and the channels,
    when the event publishes no responses and drains only what it answers. *)
Lemma reduce_and_apply_ok a e :
  au_inv a -> event_ok e ->
  pub_in (fun _ o => o <> TO_Response) (gs_reduce (au_state a) e).2 ->
  drains_published (gs_reduce (au_state a) e).2 ->
  au_inv (reduce_and_apply a e) /\ (forall x, handles x (reduce_and_apply a e) = handles x a) /\
  au_state (reduce_and_apply a e) = (gs_reduce (au_state a) e).1.
Proof.
  intros HI Hok Hpub Hdr. unfold reduce_and_apply, au_reduce.
  pose proof (inv_reduce (au_state a) e (ai_state _ HI) Hok) as Hinv'.
  pose proof (fun k => caller_at_keeps (au_state a) e k (ai_state _ HI)) as Hkeep.
  pose proof (fun k => closed_is_published (au_state a) e k (ai_state _ HI)) as Hclosed.
  destruct (gs_reduce (au_state a) e) as [s' effs]. cbn [fst snd] in *.
  unfold apply_operation_effects.
  set (a1 := foldl cancel_rolled_back_preparation _ effs).
  assert (M1 : moves (a <| au_state := s' |>) a1) by apply moves_fold, cancel_rolled_back_moves.
  pose proof (mark_draining_marks effs a1) as M2. set (a2 := foldl mark_draining a1 effs) in *.
  assert (M3 : moves a2 (foldl publish_outcome a2 effs)) by apply moves_fold, publish_outcome_moves.
  assert (Hsettle : forall k o, OF_Request k (Eff_Publish o) ∈ effs ->
    settled_at (foldl publish_outcome a2 effs) k).
  { intros k o Hin. eapply publish_outcomes_settle; [done|]. by eapply Hpub. }
  set (a3 := foldl publish_outcome a2 effs) in *.
  assert (M4 : moves a3 (apply_owner_effects a3 effs)) by apply apply_owner_effects_moves.
  assert (Hsettle4 : forall k o, OF_Request k (Eff_Publish o) ∈ effs ->
    settled_at (apply_owner_effects a3 effs) k) by (intros; eapply moves_settled; eauto).
  set (a4 := apply_owner_effects a3 effs) in *. clearbody a1 a2 a3 a4.
  assert (Hst : au_state a4 = s').
  { by rewrite (mv_state _ _ M4), (mv_state _ _ M3), (mk_state _ _ _ M2), (mv_state _ _ M1). }
  (* the entry an entry of [a4] comes from *)
  assert (Hpre : forall k p4, au_pending a4 !! k = Some p4 -> exists p, au_pending a !! k = Some p /\
    (settled p4 \/ same_caller p p4 /\ (settled p -> settled p4)) /\
    (pd_draining p4 = true -> pd_draining p = true \/ OF_BestEffortWireCancel k ∈ effs)).
  { intros k p4 H4. destruct (mv_pending _ _ M4 k p4 H4) as (p3 & H3 & E3).
    destruct (mv_pending _ _ M3 k p3 H3) as (p2 & H2 & E2).
    destruct (mk_pending _ _ _ M2 k p2 H2) as (p1 & H1 & S1 & D1).
    destruct (mv_pending _ _ M1 k p1 H1) as (p0 & H0 & E0). cbn in H0.
    exists p0. split; [done|]. assert (E24 : pd_evolves p2 p4) by by etrans.
    destruct E24 as [Dr24 E24]. destruct E0 as [Dr0 E0]. split.
    - destruct E24 as [|E24]; [by left|]. destruct E0 as [E0|E0].
      + left. eapply settled_same; [exact E24|]. by eapply settled_same.
      + right. assert (same_caller p0 p4) by (etrans; [exact E0|]; by etrans).
        split; [done|]. by apply settled_same.
    - rewrite Dr24. intros Hd. destruct (D1 Hd) as [|]; [left; congruence|by right]. }
  split_and!; [| |exact Hst].
  - split; rewrite ?Hst; try done.
    + intros k p4 (p & Hp & _)%Hpre. apply Hkeep. by eapply ai_known.
    + intros k p4 H4 Ht. destruct (Hpre k p4 H4) as (p & Hp & [Hs|[_ Hs]] & _); [done|].
      assert (Ho : caller_at (au_state a) k = Some CO_Open) by (apply (ai_unsettled _ HI k p Hp); auto).
      destruct (decide (caller_at s' k = Some CO_Open)) as [|Hne]; [done|].
      destruct (Hclosed k Ho Hne) as [o Hin]. destruct Ht. by eapply Hsettle4.
    + intros k p4 H4. destruct (Hpre k p4 H4) as (p & Hp & Hs & _).
      eapply (buffered_evolves p); [naive_solver|by eapply ai_buffered].
    + intros k p4 H4 Hd. destruct (Hpre k p4 H4) as (p & Hp & [|[_ Hs]] & D); [done|].
      destruct (D Hd) as [Hdp|Hin]; [by apply Hs; eapply ai_draining|].
      destruct (Hdr k Hin) as (o & _ & Hino). by eapply Hsettle4.
    + intros k s. intros H. apply (mv_terminals _ _ M4) in H. apply (mv_terminals _ _ M3) in H.
      rewrite (mk_terminals _ _ _ M2) in H. apply (mv_terminals _ _ M1) in H. apply Hkeep.
      by eapply ai_terminals.
    + rewrite (mv_early _ _ M4), (mv_early _ _ M3), (mk_early _ _ _ M2), (mv_early _ _ M1). apply HI.
    + rewrite (mv_deferred _ _ M4), (mv_deferred _ _ M3), (mk_deferred _ _ _ M2), (mv_deferred _ _ M1).
      apply HI.
  - intros x. rewrite (mv_handles _ _ M4), (mv_handles _ _ M3), (mk_handles _ _ _ M2), (mv_handles _ _ M1).
    by apply handles_fields.
Qed.

(** A step keeps the invariant and takes in the reply channels that [g] counts. *)
Definition known (a : RequestAuthority) (k : RequestKey) : Prop := is_Some (caller_at (au_state a) k).

Definition takes (g : Sender -> Z) (a a' : RequestAuthority) : Prop :=
  au_inv a -> au_inv a' /\ (forall x, handles x a' = handles x a + g x) /\ (forall k, known a k -> known a' k).

Definition nothing : Sender -> Z := fun _ => 0.

Lemma takes_trans g1 g2 g a1 a2 a3 :
  takes g1 a1 a2 -> takes g2 a2 a3 -> (forall x, g x = g1 x + g2 x) -> takes g a1 a3.
Proof.
  intros T1 T2 Hg HI. destruct (T1 HI) as (I2 & H2 & K2). destruct (T2 I2) as (I3 & H3 & K3).
  split; [done|]. split; [|naive_solver]. intros x. rewrite H3, H2, Hg. lia.
Qed.

Lemma takes_refl a : takes nothing a a.
Proof. intros HI. split_and!; [done| |done]. intros x. unfold nothing. lia. Qed.

Lemma takes_nothing_trans a1 a2 a3 : takes nothing a1 a2 -> takes nothing a2 a3 -> takes nothing a1 a3.
Proof. intros T1 T2. by eapply takes_trans. Qed.

Lemma takes_then g a1 a2 a3 : takes nothing a1 a2 -> takes g a2 a3 -> takes g a1 a3.
Proof. intros T1 T2. eapply takes_trans; [done..|]. intros x. unfold nothing. lia. Qed.

Lemma takes_before g a1 a2 a3 : takes g a1 a2 -> takes nothing a2 a3 -> takes g a1 a3.
Proof. intros T1 T2. eapply takes_trans; [done..|]. intros x. unfold nothing. lia. Qed.

Lemma takes_fold {B} (P : B -> Prop) (f : RequestAuthority -> B -> RequestAuthority) l a :
  (forall a b, P b -> takes nothing a (f a b)) -> Forall P l -> takes nothing a (foldl f a l).
Proof.
  intros Hf Hl. revert a. induction Hl as [|b l Hb _ IH]; intros a; cbn; [apply takes_refl|].
  eapply takes_nothing_trans; [by apply Hf|apply IH].
Qed.

Lemma takes_reply a s r : takes (fun x => cnt x (Some s)) a (reply a s r).
Proof. intros []. split_and!; [by split| |done]. intros x. apply handles_reply. Qed.

Lemma takes_reply_opt a s r : takes (fun x => cnt x s) a (reply_opt a s r).
Proof.
  destruct s as [s|]; [apply takes_reply|]. intros HI. split_and!; [done| |done].
  intros x. cbn. rewrite cnt_none. lia.
Qed.

(** Changes to what the invariant does not speak of. *)
Lemma takes_fields a a' :
  au_state a' = au_state a -> au_pending a' = au_pending a -> au_terminals a' = au_terminals a ->
  au_log a' = au_log a -> au_early a' = au_early a -> au_deferred a' = au_deferred a ->
  takes nothing a a'.
Proof.
  intros Es Ep Et El Ee Ed []. split_and!.
  - split; rewrite ?Es, ?Ep, ?Et, ?Ee, ?Ed; done.
  - intros x. rewrite (handles_fields x a a') by done. unfold nothing. lia.
  - unfold known. by rewrite Es.
Qed.

(** The general step: an event, then moves that settle every request it published. *)
Lemma reduce_then_moves a e a' :
  event_ok e -> moves (au_reduce a e).1 a' ->
  (forall k o, OF_Request k (Eff_Publish o) ∈ (gs_reduce (au_state a) e).2 -> settled_at a' k) ->
  takes nothing a a'.
Proof.
  intros Hok M Hset HI. unfold au_reduce in M.
  pose proof (inv_reduce (au_state a) e (ai_state _ HI) Hok) as Hinv'.
  pose proof (fun k => caller_at_keeps (au_state a) e k (ai_state _ HI)) as Hkeep.
  pose proof (fun k => closed_is_published (au_state a) e k (ai_state _ HI)) as Hclosed.
  destruct (gs_reduce (au_state a) e) as [s' effs]. cbn [fst snd] in *.
  destruct M as [Ms Me Md Mt Mp Mh]. cbn in *. split_and!.
  - split; rewrite ?Ms, ?Me, ?Md; try done.
    + intros k p' (p & Hp & _)%Mp. apply Hkeep. by eapply ai_known.
    + intros k p' Hp' Ht. destruct (Mp k p' Hp') as (p & Hp & _ & [Hs|Hs]); [done|].
      assert (Ho : caller_at (au_state a) k = Some CO_Open).
      { apply (ai_unsettled _ HI k p Hp). intros Hn. apply Ht. by eapply settled_same. }
      destruct (decide (caller_at s' k = Some CO_Open)) as [|Hne]; [done|].
      destruct (Hclosed k Ho Hne) as [o Hin]. destruct Ht. by eapply Hset.
    + intros k p' (p & Hp & _ & Hs)%Mp. eapply buffered_evolves; [done|by eapply ai_buffered].
    + intros k p' Hp' Hd. destruct (Mp k p' Hp') as (p & Hp & Hdr & [|E]); [done|].
      eapply settled_same; [done|]. eapply ai_draining; [done..|congruence].
    + intros k s H%Mt. apply Hkeep. by eapply ai_terminals.
    + apply HI.
    + apply HI.
  - intros x. rewrite Mh. unfold nothing. rewrite Z.add_0_r. by apply handles_fields.
  - intros k. unfold known. rewrite Ms. apply Hkeep.
Qed.

(** An event whose publications, if any, are of requests with no waiting caller. *)
Lemma au_reduce_takes a e :
  event_ok e ->
  (forall k o, OF_Request k (Eff_Publish o) ∈ (gs_reduce (au_state a) e).2 -> settled_at a k) ->
  takes nothing a (au_reduce a e).1.
Proof.
  intros Hok H. eapply reduce_then_moves; [done|done|]. intros k o Hin.
  unfold au_reduce. destruct (gs_reduce (au_state a) e) eqn:E. cbn in *. by eapply H.
Qed.

Lemma moves_takes a a' : moves a a' -> takes nothing a a'.
Proof.
  intros M HI. split_and!; [by eapply au_inv_moves| |].
  - intros x. rewrite (mv_handles _ _ M). unfold nothing. lia.
  - intros k. unfold known. by rewrite (mv_state _ _ M).
Qed.

(** An operation whose request is not open has no waiting caller. *)
Lemma closed_idle a k p :
  au_inv a -> caller_at (au_state a) k <> Some CO_Open -> au_pending a !! k = Some p -> pd_terminal p = None.
Proof.
  intros HI Hc Hp. destruct (pd_terminal p) as [s|] eqn:Ht; [|done]. destruct Hc.
  apply (ai_open a k p HI Hp). rewrite Ht. eauto.
Qed.

(** Removing an operation and answering its caller. *)
Lemma drop_pending_moves a k r :
  let a' := match au_pending a !! k with
            | Some p => reply_opt (a <| au_pending := delete k (au_pending a) |>) (pd_terminal p) r
            | None => a
            end in
  moves a a' /\ au_pending a' = delete k (au_pending a).
Proof.
  cbv zeta. destruct (au_pending a !! k) as [p|] eqn:Hk; [|by rewrite delete_id].
  destruct (pd_terminal p) as [s|] eqn:Hs; (split; [|done]).
  - by apply (moves_reply_pending a k p s r None).
  - split; try done.
    + intros k' p'. cbn. intros [_ ?]%lookup_delete_Some. by exists p'.
    + intros x. cbn [reply_opt]. rewrite (handles_pending_delete _ _ _ p) by done. rewrite Hs, cnt_none. lia.
Qed.

(** Removing an operation whose caller waits for nothing. *)
Lemma takes_delete_idle a k :
  (au_inv a -> forall p, au_pending a !! k = Some p -> pd_terminal p = None) ->
  takes nothing a (a <| au_pending := delete k (au_pending a) |>).
Proof.
  intros Hs HI. specialize (Hs HI). revert HI.
  destruct (drop_pending_moves a k (Rp_Unit (Ok tt))) as [M _]. cbv zeta in M.
  destruct (au_pending a !! k) as [p|] eqn:Hk.
  - rewrite (Hs p eq_refl) in M. by apply moves_takes.
  - apply takes_fields; try done. cbn. by apply delete_id.
Qed.

Lemma au_reduce_state a e : (au_reduce a e).1 = a <| au_state := (gs_reduce (au_state a) e).1 |>.
Proof. unfold au_reduce. by destruct (gs_reduce _ _). Qed.

Lemma au_reduce_effects a e : (au_reduce a e).2 = (gs_reduce (au_state a) e).2.
Proof. unfold au_reduce. by destruct (gs_reduce _ _). Qed.

Lemma reduce_and_apply_takes a e :
  event_ok e -> pub_in (fun _ o => o <> TO_Response) (gs_reduce (au_state a) e).2 ->
  drains_published (gs_reduce (au_state a) e).2 -> takes nothing a (reduce_and_apply a e).
Proof.
  intros Hok Hp Hd HI. destruct (reduce_and_apply_ok a e HI Hok Hp Hd) as (I & H & Es).
  split_and!; [done| |].
  - intros x. rewrite H. unfold nothing. lia.
  - intros k. unfold known. rewrite Es. by apply caller_at_keeps, HI.
Qed.

Lemma cancel_takes a k now : time_ok now -> takes nothing a (reduce_and_apply a (OE_Cancel k now)).
Proof.
  intros Hnow. destruct (cancel_effects (au_state a) k now) as [Hp Hd].
  apply reduce_and_apply_takes; [done| |done]. intros k' o Hin. by apply Hp in Hin as [_ ?].
Qed.

Lemma advance_takes a now : time_ok now -> takes nothing a (reduce_and_apply a (OE_AdvanceTime now)).
Proof.
  intros Hnow. destruct (advance_loop_effects (S (heap_weight (gs_deadlines (au_state a)))) (au_state a) now [])
    as [Hp Hd]; [effects|effects|]. by apply reduce_and_apply_takes.
Qed.

Lemma disconnect_takes a network : takes nothing a (reduce_and_apply a (OE_Disconnect network)).
Proof.
  destruct (disconnect_effects (au_state a) network) as [Hp Hd]. by apply reduce_and_apply_takes.
Qed.

Lemma progress_takes event a k : takes nothing a (progress_member event a k).
Proof.
  apply au_reduce_takes; [done|]. intros k' o Hin. by apply request_event_effects in Hin.
Qed.

Lemma prepare_failed_takes a k : settled_at a k -> takes nothing a (au_reduce a (OE_PrepareFailed k)).1.
Proof.
  intros Hs. apply au_reduce_takes; [done|]. intros k' o Hin. by apply prepare_failed_effects in Hin as [-> _].
Qed.

Lemma publishes_response_false key effs :
  publishes_response key effs = false -> OF_Request key (Eff_Publish TO_Response) ∉ effs.
Proof.
  unfold publishes_response. intros H Hin. apply list_elem_of_In in Hin.
  rewrite <- not_true_iff_false, existsb_exists in H. apply H. eexists. split; [done|].
  by apply bool_decide_eq_true_2.
Qed.

Lemma process_decoded_response_takes a fatal m :
  response_ok m -> takes nothing a (process_decoded_response a fatal m).1.
Proof.
  intros Hm. unfold process_decoded_response. set (key := mkKey _ _).
  destruct (au_pending a !! key) as [p|] eqn:Hk; [|apply takes_refl].
  case_bool_decide.
  { destruct (hd_async_id (cres_header m)); [|apply takes_refl]. apply au_reduce_takes; [done|].
    intros k o Hin. by apply response_effects in Hin as (_ & _ & ?). }
  destruct (_ && _); [apply takes_refl|]. destruct (cres_recovery_hint m).
  { pose proof (reduce_then_moves a (OE_RecoveryHint key)) as T.
    pose proof (recovery_hint_effects (au_state a) key) as Hp.
    destruct (au_reduce a (OE_RecoveryHint key)) as [a1 effs] eqn:Ea. cbn [fst] in *.
    set (a2 := apply_owner_effects a1 effs).
    destruct (complete_operation_moves a2 key (Err (RT_Terminal TO_SessionInvalidated))) as [Mc Sc].
    apply T; [done| |].
    - etrans; [apply apply_owner_effects_moves|]. exact Mc.
    - intros k o Hin. apply Hp in Hin as [-> _]. exact Sc. }
  destruct (_ || _); [apply takes_refl|].
  pose proof (reduce_then_moves a (OE_Response key RV_Final (hd_credit_request (cres_header m)))) as T.
  pose proof (response_effects (au_state a) key RV_Final (hd_credit_request (cres_header m))) as Hp.
  pose proof (au_reduce_effects a (OE_Response key RV_Final (hd_credit_request (cres_header m)))) as Eeff.
  destruct (au_reduce a _) as [a1 effs] eqn:Ea. cbn [fst snd gs_reduce] in *. subst effs.
  set (effs := (gs_response _ _ _ _).2) in *.
  assert (M2 : moves a1 (apply_owner_effects a1 effs)) by apply apply_owner_effects_moves.
  set (a2 := apply_owner_effects a1 effs) in *.
  destruct (publishes_response key effs) eqn:Epub.
  - destruct (complete_operation_moves a2 key (Ok (mkOpResult key m None))) as [Mc Sc].
    apply T; [done|by etrans|]. intros k o Hin. apply Hp in Hin as (-> & _). exact Sc.
  - assert (T2 : takes nothing a a2).
    { apply T; [done|done|]. intros k o Hin. pose proof Hin as Hin2. apply Hp in Hin2 as (-> & -> & _).
      by apply publishes_response_false in Epub. }
    destruct (au_pending a2 !! key) as [p2|] eqn:Hk2; [|done].
    destruct (pd_draining p2) eqn:Hd; [|done]. cbn [fst].
    eapply takes_nothing_trans; [done|]. apply takes_delete_idle. intros HI q Hq.
    assert (q = p2) as -> by congruence. by eapply ai_draining.
Qed.
End reduce.
