(* ===== verification/EngineSteps.v ===== *)
(** Every event of the connection owner keeps its invariant and accounts for every reply
    channel (crates/smb/src/runtime/engine.rs). *)
From S2P Require Import Prelude Clock Reducer GenState GenInv GenReach GenPublish GenProps.
From S2P Require Import GenEffects ObjectState Bytes Header Operation PreparationOrder Engine.
From S2P Require Import EngineInv.
Local Open Scope Z_scope.

(** The arguments of commands, by their Rust types. *)
Definition deadline_ok (d : option MonotonicTime) : Prop := forall t, d = Some t -> time_ok t.

Definition operation_ok (o : TypedOperation) : Prop :=
  content_ok (creq_content (op_outgoing o)) /\ in_range u64_max (op_payload_bytes o).

Definition admission_ok (c : AdmissionCommand) : Prop :=
  in_range u64_max (ac_payload_bytes c) /\ in_range u16_max (ac_credit_charge c) /\ deadline_ok (ac_deadline c).

Definition op_admission_ok (c : OperationAdmission) : Prop :=
  operation_ok (oa_operation c) /\ deadline_ok (oa_deadline c).

Definition compound_ok (c : CompoundAdmission) : Prop :=
  Forall operation_ok (ca_operations c) /\ deadline_ok (ca_deadline c).

Lemma credit_charge_range o large_mtu charge :
  content_ok (creq_content (op_outgoing o)) -> op_credit_charge o large_mtu = Ok charge ->
  in_range u16_max charge.
Proof.
  intros Hok. unfold op_credit_charge. destruct large_mtu; cbn [negb]; [|intros [= <-]; ints].
  destruct (content_sizes_ok _ Hok) as [H1 H2]. set (size := Z.max _ _).
  assert (0 <= saturating_sub size 1 / credit_bytes).
  { apply Z.div_pos; [ints|unfold credit_bytes; lia]. }
  destruct (negb _); [intros [= <-]; ints|]. case_bool_decide; [|done]. intros [= <-]. ints.
Qed.

(** [same] closes the goals about variables a step does not assign. *)
Ltac same := repeat split.

(** [counts] closes the goals about counted channels. *)
Ltac counts := unfold nothing in *; intros; cbv beta in *; rewrite ?cnt_none in *; lia.

Section engine.
Context `{!HashOrder RequestKey} `{!HashOrder Z}.

(** ** Admission *)

(** Admission is refused and changes nothing, or it opens a request that was unknown. *)
Lemma admit_outcome a payload charge deadline :
  au_inv a -> event_ok (OE_Admit payload charge deadline) ->
  let r := au_reduce a (OE_Admit payload charge deadline) in
  takes nothing a r.1 /\ au_pending r.1 = au_pending a /\ au_terminals r.1 = au_terminals a /\
  au_early r.1 = au_early a /\
  ((exists error, r.2 = [OF_AdmissionRejected error]) \/
   (exists plan, r.2 = [OF_Admitted plan] /\ ~ known a (pp_key plan) /\
      caller_at (au_state r.1) (pp_key plan) = Some CO_Open)).
Proof.
  intros HI Hok. cbv zeta. rewrite au_reduce_effects.
  assert (Heff : takes nothing a (au_reduce a (OE_Admit payload charge deadline)).1).
  { apply au_reduce_takes; [done|]. cbn [gs_reduce]. destruct (gs_admit _ _ _ _) as [s' eff] eqn:E. cbn.
    intros k o Hin. apply list_elem_of_singleton in Hin as <-.
    destruct (gs_admit_cases (au_state a) payload charge deadline) as [[err Hc]|(n & _ & _ & Hc)]; congruence. }
  split; [done|]. rewrite au_reduce_state. split_and!; [done..|].
  cbn [gs_reduce]. destruct (gs_admit_cases (au_state a) payload charge deadline)
    as [[err ->]|(n & _ & Hn & ->)]; cbn [fst snd]; [left; eauto|]. right. eexists. split; [reflexivity|].
  cbn [pp_key]. pose proof (identity_fresh _ n (inv_identity _ (ai_state _ HI)) Hn) as Hfresh. split.
  - unfold known, caller_at. rewrite Hfresh. by intros [? [=]].
  - unfold caller_at, admitted, reserved. destruct deadline; gs_simpl; by rewrite lookup_insert_eq.
Qed.

Lemma unknown_absent a k : au_inv a -> ~ known a k -> au_pending a !! k = None /\ au_terminals a !! k = None.
Proof.
  intros HI Hk. split.
  - destruct (au_pending a !! k) eqn:E; [|done]. exfalso. apply Hk. by eapply ai_known.
  - destruct (au_terminals a !! k) eqn:E; [|done]. exfalso. apply Hk. by eapply ai_terminals.
Qed.

Lemma takes_install a k p :
  au_pending a !! k = None -> caller_at (au_state a) k = Some CO_Open -> pd_draining p = false ->
  pd_buffered p = None ->
  takes (fun x => cnt x (pd_terminal p)) a (a <| au_pending := <[k := p]> (au_pending a) |>).
Proof.
  intros Hk Ho Hd Hb HI. split_and!; [| |done].
  - destruct HI. split; cbn; try done.
    all: intros k' p'; rewrite lookup_insert; case_decide as E; [|eauto]; intros [= <-]; subst k'.
    + eauto.
    + done.
    + rewrite Hb. by intros [? [=]].
    + congruence.
  - intros x. by apply handles_pending_new.
Qed.

Lemma replay_early_takes a fatal k : takes nothing a (replay_early_response a fatal k).1.
Proof.
  unfold replay_early_response. destruct (au_early a !! k) as [m|] eqn:Hm; [|apply takes_refl].
  intros HI. assert (Hok : response_ok m) by by eapply ai_early.
  assert (T : takes nothing a (a <| au_early := delete k (au_early a) |>)).
  { clear HI. intros []. split_and!; [| |done].
    - split; cbn; try done. intros k' m' [_ ?]%lookup_delete_Some. eauto.
    - intros x. rewrite (handles_fields x a) by done. counts. }
  eapply takes_nothing_trans; [exact T| |exact HI]. by apply process_decoded_response_takes.
Qed.

Lemma reject_operation_takes a c e :
  takes (fun x => cnt x (oa_terminal c) + cnt x (Some (oa_acknowledge c))) a (reject_operation a c e).
Proof.
  unfold reject_operation. eapply takes_trans; [apply takes_reply_opt|apply takes_reply|done].
Qed.

(** ** The owner's invariant *)

Definition op_channels (x : Sender) (c : option OperationAdmission) : Z :=
  match c with Some c => cnt x (oa_terminal c) + cnt x (Some (oa_acknowledge c)) | None => 0 end.

Definition compound_channels (x : Sender) (c : option CompoundAdmission) : Z :=
  match c with Some c => cnt x (Some (ca_acknowledge c)) | None => 0 end.

Definition close_channels (x : Sender) (c : option CloseRequest) : Z :=
  match c with Some c => cnt x (Some (cq_reply c)) | None => 0 end.

Definition prep_channel (x : Sender) (p : Preparation) : Z := cnt x (Some (pr_acknowledge p)).
Definition prepared_channel (x : Sender) (p : PreparedOperation) : Z := prep_channel x (po_preparation p).

(** The acknowledgements of preparations that have not been released. *)
Definition prep_channels (x : Sender) (e : Engine) : Z :=
  list_sum (prep_channel x) (en_preparations e)
  + map_sum (prepared_channel x) (ocq_completed (en_preparation_order e)).

Definition eng_handles (x : Sender) (e : Engine) : Z :=
  handles x (en_authority e) + op_channels x (en_waiting_operation e)
  + compound_channels x (en_waiting_compound e) + close_channels x (en_close e) + prep_channels x e.

Definition inbound_ok (i : PreparedInbound) : Prop :=
  forall messages, ib_result i = Some messages -> Forall response_ok messages.

Record eng_inv (e : Engine) : Prop := {
  ei_authority : au_inv (en_authority e);
  ei_operation c : en_waiting_operation e = Some c -> op_admission_ok c;
  ei_compound c : en_waiting_compound e = Some c -> compound_ok c;
  ei_prep_keys : NoDup (pr_key <$> en_preparations e);
  ei_prep p : p ∈ en_preparations e ->
    pr_key p ∈ ocq_reserved (en_preparation_order e) /\
    ocq_completed (en_preparation_order e) !! pr_key p = None;
  ei_order k : k ∈ ocq_reserved (en_preparation_order e) -> known (en_authority e) k;
  ei_completed k : is_Some (ocq_completed (en_preparation_order e) !! k) ->
    k ∈ ocq_reserved (en_preparation_order e);
  ei_inbound_keys : NoDup (en_inbound e);
  ei_inbound s : s ∈ en_inbound e ->
    s ∈ ocq_reserved (en_inbound_order e) /\ ocq_completed (en_inbound_order e) !! s = None;
  ei_inbound_order s : s ∈ ocq_reserved (en_inbound_order e) -> s < en_next_inbound_sequence e;
  ei_inbound_completed s : is_Some (ocq_completed (en_inbound_order e) !! s) ->
    s ∈ ocq_reserved (en_inbound_order e);
  ei_inbound_ok : map_Forall (fun _ => inbound_ok) (ocq_completed (en_inbound_order e))
}.

Definition eng_takes (g : Sender -> Z) (e e' : Engine) : Prop :=
  eng_inv e -> eng_inv e' /\ (forall x, eng_handles x e' = eng_handles x e + g x).

(** The queues a step of the authority leaves alone. *)
Record same_queues (e e' : Engine) : Prop := {
  sq_preparations : en_preparations e' = en_preparations e;
  sq_order : en_preparation_order e' = en_preparation_order e;
  sq_inbound : en_inbound e' = en_inbound e;
  sq_inbound_order : en_inbound_order e' = en_inbound_order e;
  sq_sequence : en_next_inbound_sequence e' = en_next_inbound_sequence e
}.

(** The reply channels of the commands that wait in variables of the loop. *)
Definition waiting_channels (x : Sender) (e : Engine) : Z :=
  op_channels x (en_waiting_operation e) + compound_channels x (en_waiting_compound e)
  + close_channels x (en_close e).

Lemma eng_lift_vars g g' e e' :
  takes g (en_authority e) (en_authority e') -> same_queues e e' ->
  (forall c, en_waiting_operation e' = Some c -> op_admission_ok c) ->
  (forall c, en_waiting_compound e' = Some c -> compound_ok c) ->
  (forall x, g x + waiting_channels x e' = g' x + waiting_channels x e) ->
  eng_takes g' e e'.
Proof.
  intros T [] Hw Hc Hg HI. destruct HI as [Ia Io Ic Ip1 Ip2 Ik Ip3 In1 In2 In3 In5 In4].
  destruct (T Ia) as (Ia' & Hh & Hk). split.
  - split; rewrite ?sq_preparations0, ?sq_order0, ?sq_inbound0, ?sq_inbound_order0, ?sq_sequence0; try done.
    intros k Hin. by apply Hk, Ik.
  - intros x. unfold eng_handles, prep_channels, waiting_channels in *.
    rewrite sq_preparations0, sq_order0, Hh. specialize (Hg x). lia.
Qed.

(** The variables most steps leave alone. *)
Record same_vars (e e' : Engine) : Prop := {
  sv_queues : same_queues e e';
  sv_compound : en_waiting_compound e' = en_waiting_compound e;
  sv_close : en_close e' = en_close e
}.

Lemma eng_lift_waiting g g' e e' :
  takes g (en_authority e) (en_authority e') -> same_vars e e' ->
  (forall c, en_waiting_operation e' = Some c -> op_admission_ok c) ->
  (forall x, g x + op_channels x (en_waiting_operation e') = g' x + op_channels x (en_waiting_operation e)) ->
  eng_takes g' e e'.
Proof.
  intros T [Q Ec El] Hw Hg HI. refine (eng_lift_vars g g' e e' T Q Hw _ _ HI).
  - rewrite Ec. apply HI.
  - intros x. unfold waiting_channels. rewrite Ec, El. specialize (Hg x). lia.
Qed.

Lemma eng_lift g e e' :
  takes g (en_authority e) (en_authority e') -> same_vars e e' ->
  en_waiting_operation e' = en_waiting_operation e -> eng_takes g e e'.
Proof.
  intros T S W HI. eapply (eng_lift_waiting g); [done|done| |by intros x; rewrite W|done].
  rewrite W. apply HI.
Qed.

Lemma eng_takes_trans g1 g2 g e1 e2 e3 :
  eng_takes g1 e1 e2 -> eng_takes g2 e2 e3 -> (forall x, g x = g1 x + g2 x) -> eng_takes g e1 e3.
Proof.
  intros T1 T2 Hg HI. destruct (T1 HI) as [I2 H2]. destruct (T2 I2) as [I3 H3]. split; [done|].
  intros x. rewrite H3, H2, Hg. lia.
Qed.

Lemma eng_takes_fold {B} (P : B -> Prop) (g : B -> Sender -> Z) (f : Engine -> B -> Engine) l e :
  (forall e b, P b -> eng_takes (g b) e (f e b)) -> Forall P l ->
  eng_takes (fun x => list_sum (fun b => g b x) l) e (foldl f e l).
Proof.
  intros Hf Hl. revert e. induction Hl as [|b l Hb _ IH]; intros e; cbn.
  - intros HI. split; [done|]. intros x. lia.
  - eapply eng_takes_trans; [by apply Hf|apply IH|]. done.
Qed.



(** ** Admissions *)

Lemma admission_takes e c :
  admission_ok c ->
  eng_takes (fun x => cnt x (Some (ac_acknowledge c)) + cnt x (Some (ac_terminal c))) e (process_admission e c).
Proof.
  intros (Hp & Hc & Hd) HI. pose proof (ei_authority _ HI) as Ia. revert HI.
  destruct (admit_outcome (en_authority e) (ac_payload_bytes c) (ac_credit_charge c) (ac_deadline c) Ia)
    as (T & Ep & Et & _ & Hr); [done|].
  unfold process_admission. destruct (au_reduce _ _) as [a effs]. cbn [fst snd] in *.
  destruct Hr as [[err ->]|(plan & -> & Hun & Ho)]; cbn [head].
  - apply eng_lift; [|same|done]. cbn [en_authority].
    eapply takes_then; [exact T|].
    eapply takes_trans; [apply takes_reply|apply takes_reply|]. counts.
  - destruct (unknown_absent _ _ Ia Hun) as [_ Ht].
    apply eng_lift; [|same|done]. cbn [en_authority new_token].
    eapply takes_then; [exact T|].
    eapply (takes_trans (fun x => cnt x (Some (ac_terminal c)))).
    2: { eapply takes_then; [by apply takes_fields|apply takes_reply]. }
    2: { counts. }
    intros [] . split_and!; [| |done].
    + split; cbn; try done. intros k s. rewrite lookup_insert. case_decide; [|eauto].
      intros _. subst. rewrite Ho. eauto.
    + intros x. apply handles_terminal_new. by rewrite Et.
Qed.

Lemma fresh_not_reserved e k :
  eng_inv e -> ~ known (en_authority e) k -> k ∉ ocq_reserved (en_preparation_order e).
Proof. intros HI Hk Hin. apply Hk. by eapply ei_order. Qed.

Lemma precheck_ok a o payload charge :
  operation_ok o -> operation_precheck a o = Ok (payload, charge) ->
  in_range u64_max payload /\ in_range u16_max charge.
Proof.
  intros [Hc Hp]. unfold operation_precheck. destruct (match op_dependency o with Some _ => _ | None => _ end);
    [|done]. case_bool_decide; [done|]. destruct (op_credit_charge o (au_large_mtu a)) eqn:E; [|done].
  intros [= <- <-]. split; [done|]. by eapply credit_charge_range.
Qed.

(** Installing a new operation, replying to its submitter and replaying an early response. *)
Lemma install_takes a k p s r fatal :
  au_pending a !! k = None -> caller_at (au_state a) k = Some CO_Open -> pd_draining p = false ->
  pd_buffered p = None ->
  takes (fun x => cnt x (pd_terminal p) + cnt x (Some s)) a
    (replay_early_response (reply ((a <| au_pending := <[k := p]> (au_pending a) |>)
       <| au_next_token := au_next_token a + 1 |>) s r) fatal k).1.
Proof.
  intros Hk Ho Hd Hb. eapply takes_before; [|apply replay_early_takes].
  eapply takes_trans; [by apply takes_install| |].
  - eapply takes_then; [|apply takes_reply]. by apply takes_fields.
  - counts.
Qed.

(** A preparation is started: its key is reserved and its acknowledgement kept. *)
Lemma start_preparation_takes e a k order retain s (g : Sender -> Z) :
  eng_inv e -> ~ known (en_authority e) k -> takes g (en_authority e) a -> known a k ->
  ocq_reserve (en_preparation_order e) k = Some order ->
  let e' := e <| en_waiting_operation := None |> <| en_authority := a |> <| en_preparation_order := order |>
    <| en_preparations := en_preparations e ++ [mkPreparation k retain s] |> in
  eng_inv e' /\ (forall x, eng_handles x e' + op_channels x (en_waiting_operation e) =
    eng_handles x e + g x + cnt x (Some s)).
Proof.
  intros HI Hun T Hk Hres. cbv zeta.
  pose proof (fresh_not_reserved e k HI Hun) as Hnr. destruct HI as [Ia Io Ic Ip1 Ip2 Ik Ip3 In1 In2 In3 In5 In4].
  destruct (T Ia) as (Ia' & Hh & Hkn). unfold ocq_reserve in Hres. case_bool_decide; [done|].
  injection Hres as <-. split.
  - split; cbn -[known]; try done.
    + rewrite fmap_app. apply NoDup_app. split_and!; [done| |apply NoDup_singleton]. cbn.
      intros k' Hin ->%list_elem_of_singleton. apply list_elem_of_fmap in Hin as (q & -> & Hq).
      by apply Ip2 in Hq as [? _].
    + intros q [Hq|Hq]%elem_of_app; [destruct (Ip2 q Hq); set_solver|].
      apply list_elem_of_singleton in Hq as ->. cbn. split; [set_solver|].
      apply eq_None_not_Some. intros Hs. by apply Hnr, Ip3.
    + intros k' [->%elem_of_singleton|Hin]%elem_of_union; [done|]. by apply Hkn, Ik.
    + intros k' Hs. apply elem_of_union. right. by apply Ip3.
  - intros x. unfold eng_handles, prep_channels. cbn -[handles cnt op_channels prep_channel].
    rewrite list_sum_app, Hh. cbn -[handles cnt op_channels]. unfold prep_channel at 2. cbn -[handles cnt op_channels].
    change (op_channels x None) with 0. lia.
Qed.

Lemma operation_admission_takes e c concurrent frame e' :
  op_admission_ok c ->
  process_operation_admission e c concurrent frame = Some e' ->
  eng_takes (fun x => op_channels x (Some c) - op_channels x (en_waiting_operation e)) e e'.
Proof.
  intros [Hop Hdl] He' HI. revert He'. unfold process_operation_admission.
  pose proof (ei_authority _ HI) as Ia.
  destruct (operation_precheck (en_authority e) (oa_operation c)) as [[payload charge]|err] eqn:Epre.
  2: { intros [= <-]. revert HI. eapply eng_lift_waiting;
         [apply reject_operation_takes|same|done|]. intros x. cbn. lia. }
  destruct (precheck_ok _ _ _ _ Hop Epre) as [Hpay Hch]. case_bool_decide.
  { intros [= <-]. revert HI. eapply (eng_lift_waiting nothing); [apply takes_refl|same| |].
    - by intros c' [= <-].
    - intros x. cbn -[op_channels]. unfold nothing. lia. }
  destruct (admit_outcome (en_authority e) payload charge (oa_deadline c) Ia) as (T & Ep & Et & _ & Hr); [done|].
  destruct (au_reduce (en_authority e) _) as [a effs]. cbn [fst snd] in *.
  destruct Hr as [[error ->]|(plan & -> & Hun & Ho)]; cbn [head].
  { intros [= <-]. revert HI. eapply eng_lift_waiting;
      [eapply takes_then; [exact T|apply reject_operation_takes]|same|done|]. intros x. cbn. lia. }
  destruct (unknown_absent _ _ Ia Hun) as [Hk _]. set (key := pp_key plan) in *.
  assert (Hka : au_pending a !! key = None) by by rewrite Ep.
  destruct concurrent; cbn [negb].
  - destruct (ocq_reserve _ key) as [order|] eqn:Eo; [|done]. intros [= <-].
    match goal with |- eng_inv (?e0 <| en_preparation_order := _ |> <| en_preparations := _ |>) /\ _ =>
      set (a' := en_authority e0) end.
    destruct (start_preparation_takes e a' key order (creq_return_raw_data (op_outgoing (oa_operation c)))
      (oa_acknowledge c) (fun x => cnt x (oa_terminal c)) HI Hun) as [I' H'].
    + eapply takes_then; [exact T|]. eapply takes_before;
        [exact (takes_install a key (new_pending (oa_operation c) None (oa_terminal c)) Hka Ho eq_refl eq_refl)
        |by apply takes_fields].
    + unfold known. cbn. by rewrite Ho.
    + exact Eo.
    + split; [exact I'|]. intros x. specialize (H' x). unfold op_channels at 1. cbv beta. unfold a' in H'. cbn -[eng_handles cnt op_channels] in *. lia.
  - destruct frame as [frame|].
    + set (request_raw := first_segment _ frame). cbn [new_token].
      pose proof (install_takes a key (new_pending (oa_operation c) request_raw (oa_terminal c))
        (oa_acknowledge c) (Rp_Submission (Ok (mkSubmission key request_raw))) (en_fatal e) Hka Ho eq_refl eq_refl) as Ti.
      destruct (replay_early_response _ _ key) as [a2 fatal] eqn:Er. intros [= <-]. revert HI.
      eapply eng_lift_waiting; [eapply takes_then; [exact T|]|same|done|].
      * exact Ti.
      * intros x. cbn -[cnt]. lia.
    + intros [= <-]. revert HI. eapply eng_lift_waiting;
        [eapply takes_then; [exact T|eapply takes_then; [|apply reject_operation_takes]]|same|done|].
      * apply prepare_failed_takes. intros p Hp. congruence.
      * intros x. cbn. lia.
Qed.

(** The key of an admitted operation is not reserved yet. *)
Lemma operation_admission_some e c concurrent frame :
  eng_inv e -> op_admission_ok c -> process_operation_admission e c concurrent frame <> None.
Proof.
  intros HI [Hop Hdl]. pose proof (ei_authority _ HI) as Ia. unfold process_operation_admission.
  destruct (operation_precheck (en_authority e) (oa_operation c)) as [[payload charge]|err] eqn:Epre; [|done].
  destruct (precheck_ok _ _ _ _ Hop Epre) as [Hpay Hch]. case_bool_decide; [done|].
  destruct (admit_outcome (en_authority e) payload charge (oa_deadline c) Ia) as (_ & _ & _ & _ & Hr); [done|].
  destruct (au_reduce (en_authority e) _) as [a effs]. cbn [fst snd] in *.
  destruct Hr as [[error ->]|(plan & -> & Hun & Ho)]; cbn [head]; [done|].
  destruct concurrent; cbn [negb]; [|destruct frame; cbn [new_token]; [by case_match|done]].
  unfold ocq_reserve. rewrite bool_decide_eq_false_2; [done|]. exact (fresh_not_reserved e _ HI Hun).
Qed.

(** ** Finished preparations *)

Lemma gs_request_caller s k : caller_at s k = rr_caller <$> gs_request s k.
Proof. unfold caller_at, gs_request. by destruct (gs_requests s !! k). Qed.

Lemma finish_prepared_takes e prepared :
  eng_takes (fun x => prepared_channel x prepared) e (finish_prepared_operation e prepared).
Proof.
  intros HI. pose proof (ei_authority _ HI) as Ia. revert HI.
  unfold finish_prepared_operation. set (key := pr_key _). set (ack := pr_acknowledge _).
  set (a := (en_authority e) <| au_preparation_cancellations := _ |>).
  assert (T : takes nothing (en_authority e) a) by by apply takes_fields.
  destruct (T Ia) as (Ia' & _). clearbody a.
  assert (Hclosed : forall r, caller_at (au_state a) key <> Some CO_Open ->
    takes (fun x => cnt x (Some ack)) (en_authority e)
      (reply (a <| au_pending := delete key (au_pending a) |>) ack r)).
  { intros r Hc. eapply takes_then; [exact T|]. eapply takes_then; [|apply takes_reply].
    apply takes_delete_idle. intros _ p. by apply closed_idle. }
  pose proof (gs_request_caller (au_state a) key) as Hcaller.
  destruct (gs_request (au_state a) key) as [request|]; cbn [fmap option_fmap option_map] in Hcaller.
  2: { apply eng_lift; [apply Hclosed; by rewrite Hcaller|same|done]. }
  destruct (rr_caller request) as [|outcome].
  2: { apply eng_lift; [apply Hclosed; by rewrite Hcaller|same|done]. }
  destruct (po_result prepared) as [frame|].
  - set (raw := first_segment _ frame). destruct (au_pending a !! key) as [p|] eqn:Hp.
    2: { apply eng_lift; [|same|done]. eapply takes_then; [exact T|apply takes_reply]. }
    cbn [new_token].
    pose proof (replay_early_takes (reply (a <| au_pending := <[key := p <| pd_request_raw := raw |>]> (au_pending a) |>
      <| au_next_token := au_next_token a + 1 |>) ack (Rp_Submission (Ok (mkSubmission key raw))))
      (en_fatal e) key) as Tr.
    destruct (replay_early_response _ _ key) as [a2 fatal].
    apply eng_lift; [|same|done]. eapply takes_then; [exact T|]. eapply takes_before; [|exact Tr].
    eapply takes_then; [|apply takes_reply]. eapply takes_nothing_trans.
    + apply moves_takes, (moves_put a key p (p <| pd_request_raw := raw |>)); [done..|].
      split; [done|]. by right.
    + by apply takes_fields.
  - pose proof (drop_pending_moves (au_reduce a (OE_PrepareFailed key)).1 key
      (Rp_Operation (Err (RT_Wire WF_PrepareOutgoing)))) as [M Ep]. cbv zeta in M, Ep.
    apply eng_lift; [|same|done]. eapply takes_then; [exact T|]. eapply takes_then; [|apply takes_reply].
    eapply reduce_then_moves; [|exact M|]; [done|]. intros k o Hin.
    apply prepare_failed_effects in Hin as [-> _]. intros p Hp. rewrite Ep in Hp.
    by rewrite lookup_delete_eq in Hp.
Qed.

(** What is left after [remove_one] of a list with distinct keys has other keys. *)
Lemma remove_one_keys {A K} `{EqDecision A} (f : A -> K) x l :
  x ∈ l -> NoDup (f <$> l) ->
  NoDup (f <$> remove_one x l) /\ (forall y, y ∈ remove_one x l -> y ∈ l /\ f y <> f x).
Proof.
  intros Hin Hnd. pose proof (remove_one_perm x l Hin) as P. rewrite P in Hnd.
  apply NoDup_cons in Hnd as [Hx Hnd]. split; [done|]. intros y Hy. split.
  - rewrite P. by right.
  - intros E. apply Hx. rewrite <- E. apply list_elem_of_fmap. eauto.
Qed.

Lemma prepared_takes e p result :
  eng_inv e -> p ∈ en_preparations e ->
  exists e', prepared_step e p result = Some e' /\ eng_takes nothing e e'.
Proof.
  intros HI Hp. destruct (ei_prep _ HI p Hp) as [Hres Hcomp]. unfold prepared_step, ocq_complete.
  rewrite bool_decide_eq_false_2 by (by intros Hn). rewrite Hcomp, bool_decide_eq_false_2 by (by intros [? [=]]).
  set (q := en_preparation_order e) in *. set (v := mkPrepared p result).
  pose proof (ocq_drain_keeps (ocq_order q) (ocq_reserved q) (<[pr_key p := v]> (ocq_completed q)) []) as Hk.
  pose proof (fun x => ocq_drain_sum (prepared_channel x) (ocq_order q) (ocq_reserved q)
    (<[pr_key p := v]> (ocq_completed q)) []) as Hs.
  destruct (ocq_drain _ _ _ _) as [order ready]. cbn [fst] in Hk. eexists. split; [reflexivity|].
  destruct (remove_one_keys pr_key p _ Hp (ei_prep_keys _ HI)) as [Hnd Hrest].
  eapply (eng_takes_trans (fun x => - list_sum (prepared_channel x) ready)).
  2: { apply (eng_takes_fold (fun _ => True) (fun p x => prepared_channel x p)); [|by apply Forall_true].
       intros e' b _. apply finish_prepared_takes. }
  2: { intros x. exact (eq_sym (Z.add_opp_diag_l (list_sum (prepared_channel x) ready))). }
  clear HI. intros [Ia Io Ic Ip1 Ip2 Ik Ip3 In1 In2 In3 In5 In4]. split.
  - split; cbn -[known]; try done.
    + intros p' Hp'. destruct (Hrest p' Hp') as [Hin Hne]. destruct (Ip2 p' Hin) as [H1 H2].
      apply (Hk (pr_key p')); [done|]. by rewrite lookup_insert_ne.
    + intros k Hin. apply Ik. by apply (Hk k).
    + intros k [v' Hv']. apply (Hk k); [|eauto]. apply (Hk k) in Hv' as Hv2.
      rewrite lookup_insert in Hv2. case_decide; [by subst|]. apply Ip3. fold q. eauto.
  - intros x. specialize (Hs x). unfold eng_handles, prep_channels. cbn -[handles cnt op_channels compound_channels close_channels].
    rewrite (list_sum_perm (prep_channel x) _ _ (remove_one_perm p _ Hp)).
    rewrite (map_sum_insert _ (ocq_completed q) (pr_key p) v Hcomp) in Hs. cbn [list_sum] in *.
    change (prepared_channel x v) with (prep_channel x p) in Hs. fold q. lia.
Qed.

(** ** Compounds *)

(** A request that is open and has no operation yet. *)
Definition fresh (a : RequestAuthority) (k : RequestKey) : Prop :=
  caller_at (au_state a) k = Some CO_Open /\ au_pending a !! k = None.

Lemma reduce_moves_fresh a e a' k :
  au_inv a -> moves (au_reduce a e).1 a' ->
  (forall o, OF_Request k (Eff_Publish o) ∉ (gs_reduce (au_state a) e).2) -> fresh a k -> fresh a' k.
Proof.
  intros HI M Hn [Ho Hp]. split.
  - rewrite (mv_state _ _ M), au_reduce_state.
    destruct (decide (caller_at (gs_reduce (au_state a) e).1 k = Some CO_Open)) as [|Hne]; [done|].
    destruct (closed_is_published (au_state a) e k (ai_state _ HI) Ho Hne) as [o Hin]. by apply Hn in Hin.
  - destruct (au_pending a' !! k) as [p'|] eqn:Hp'; [|done].
    destruct (mv_pending _ _ M k p' Hp') as (p & Hq & _). rewrite au_reduce_state in Hq. cbn in Hq. congruence.
Qed.

Lemma process_decoded_fresh a fatal m k :
  au_inv a -> fresh a k -> fresh (process_decoded_response a fatal m).1 k.
Proof.
  intros HI Hf. unfold process_decoded_response. set (key := mkKey _ _).
  destruct (au_pending a !! key) as [p|] eqn:Hk; [|done].
  assert (Hne : k <> key) by (intros ->; destruct Hf; congruence).
  pose proof (fun e a' M Hn => reduce_moves_fresh a e a' k HI M Hn Hf) as R.
  case_bool_decide.
  { destruct (hd_async_id (cres_header m)) as [async|]; [|done].
    apply (R (OE_Response key (RV_Pending async) (hd_credit_request (cres_header m)))); [done|].
    by intros o (? & _)%response_effects. }
  destruct (_ && _); [done|]. destruct (cres_recovery_hint m).
  { specialize (R (OE_RecoveryHint key)). pose proof (recovery_hint_effects (au_state a) key) as Hp.
    destruct (au_reduce a (OE_RecoveryHint key)) as [a1 effs]. cbn [fst] in *.
    apply R; [|by intros o [? _]%Hp].
    etrans; [apply apply_owner_effects_moves|]. apply complete_operation_moves. }
  destruct (_ || _); [done|]. specialize (R (OE_Response key RV_Final (hd_credit_request (cres_header m)))).
  pose proof (response_effects (au_state a) key RV_Final (hd_credit_request (cres_header m))) as Hp.
  assert (Hn : forall o, OF_Request k (Eff_Publish o) ∉
    (gs_reduce (au_state a) (OE_Response key RV_Final (hd_credit_request (cres_header m)))).2)
    by (by intros o (? & _)%Hp).
  destruct (au_reduce a _) as [a1 effs]. cbn [fst] in *.
  assert (M2 : moves a1 (apply_owner_effects a1 effs)) by apply apply_owner_effects_moves.
  set (a2 := apply_owner_effects a1 effs) in *.
  destruct (publishes_response key effs).
  - apply R; [|done]. etrans; [done|]. apply complete_operation_moves.
  - specialize (R a2 M2 Hn). destruct (au_pending a2 !! key) as [p2|]; [|done].
    destruct (pd_draining p2); [|done]. destruct R as [Ho Hp2]. split; [done|].
    cbn. by rewrite lookup_delete_ne.
Qed.

Lemma replay_early_fresh a fatal key k :
  au_inv a -> fresh a k -> fresh (replay_early_response a fatal key).1 k.
Proof.
  intros HI Hf. unfold replay_early_response. destruct (au_early a !! key) as [m|]; [|done].
  apply process_decoded_fresh; [|done]. destruct HI. split; cbn; try done.
  intros k' m' [_ ?]%lookup_delete_Some. eauto.
Qed.

Lemma admit_fresh a payload charge deadline k :
  au_inv a -> fresh a k -> fresh (au_reduce a (OE_Admit payload charge deadline)).1 k.
Proof.
  intros HI. eapply reduce_moves_fresh; [done|done|]. intros o Hin. cbn [gs_reduce] in Hin.
  destruct (gs_admit_cases (au_state a) payload charge deadline) as [[err Hc]|(n & _ & _ & Hc)];
    rewrite Hc in Hin; by apply list_elem_of_singleton in Hin.
Qed.

Lemma abort_compound_takes a admitted :
  Forall (fun m => au_pending a !! m.1 = None) admitted ->
  takes nothing a (abort_compound a admitted).
Proof.
  revert a. induction admitted as [|m admitted IH]; intros a Hf; cbn; [apply takes_refl|].
  apply Forall_cons in Hf as [Hm Hf]. eapply takes_nothing_trans.
  - apply (prepare_failed_takes a m.1). intros p Hp. congruence.
  - apply IH. rewrite au_reduce_state. exact Hf.
Qed.

(** The members that were admitted: their requests are open, and distinct. *)
Definition members_ok (a : RequestAuthority) (admitted : list (RequestKey * TypedOperation)) : Prop :=
  Forall (fresh a) admitted.*1 /\ NoDup admitted.*1.

Lemma members_ok_pending a admitted :
  members_ok a admitted -> Forall (fun m => au_pending a !! m.1 = None) admitted.
Proof.
  intros [H _]. rewrite Forall_forall in H. apply Forall_forall. intros m Hin. apply (H m.1). apply list_elem_of_fmap. eauto.
Qed.

Lemma admit_compound_takes deadline operations : forall a admitted,
  au_inv a -> Forall operation_ok operations -> deadline_ok deadline -> members_ok a admitted ->
  let r := admit_compound a deadline operations admitted in
  takes nothing a r.1 /\ (forall l, r.2 = Ok l -> members_ok r.1 l).
Proof.
  induction operations as [|o operations IH]; intros a admitted HI Hops Hd Hm; cbn [admit_compound].
  { split; [apply takes_refl|]. by intros l [= <-]. }
  apply Forall_cons in Hops as [[Hc Hpay] Hops].
  pose proof (members_ok_pending a admitted Hm) as Hpend.
  destruct (op_credit_charge o (au_large_mtu a)) as [charge|] eqn:Ech.
  2: { split; [by apply abort_compound_takes|done]. }
  pose proof (credit_charge_range _ _ _ Hc Ech) as Hch.
  destruct (admit_outcome a (op_payload_bytes o) charge deadline HI) as (T & Ep & _ & _ & Hr); [done|].
  pose proof (fun k => admit_fresh a (op_payload_bytes o) charge deadline k HI) as Hfr.
  destruct (au_reduce a _) as [a1 effs]. cbn [fst snd] in *.
  destruct Hr as [[error ->]|(plan & -> & Hun & Ho)]; cbn [head].
  { split; [|done]. eapply takes_nothing_trans; [exact T|]. apply abort_compound_takes. by rewrite Ep. }
  destruct (T HI) as (I1 & _). destruct (unknown_absent _ _ HI Hun) as [Hk _].
  destruct (IH a1 (admitted ++ [(pp_key plan, o)]) I1 Hops Hd) as [T2 M2].
  { destruct Hm as [Hf Hnd]. split; rewrite fmap_app; cbn.
    - apply Forall_app. split; [by eapply Forall_impl|]. apply Forall_singleton. split; [done|]. by rewrite Ep.
    - apply NoDup_app. split_and!; [done| |apply NoDup_singleton].
      intros k Hin ->%list_elem_of_singleton. apply Hun. rewrite Forall_forall in Hf.
      destruct (Hf _ Hin) as [Hop _]. unfold known. by rewrite Hop. }
  split; [by eapply takes_nothing_trans|done].
Qed.

Lemma install_members_takes admitted : forall a fatal,
  members_ok a admitted -> au_inv a -> takes nothing a (foldl install_member (a, fatal) admitted).1.
Proof.
  induction admitted as [|[k o] admitted IH]; intros a fatal [Hf Hnd] HI; cbn [foldl]; [apply takes_refl|].
  cbn [fmap list_fmap fst] in Hf, Hnd. apply Forall_cons in Hf as [[Ho Hp] Hf]. apply NoDup_cons in Hnd as [Hk Hnd].
  unfold install_member at 2.
  set (a1 := a <| au_pending := _ |>).
  assert (T1 : takes nothing a a1).
  { eapply takes_trans; [exact (takes_install a k (new_pending o None None) Hp Ho eq_refl eq_refl)|apply takes_refl|]. counts. }
  destruct (T1 HI) as (I1 & _).
  pose proof (replay_early_takes a1 fatal k) as T2. destruct (T2 I1) as (I2 & _).
  pose proof (fun k' => replay_early_fresh a1 fatal k k' I1) as F2.
  destruct (replay_early_response a1 fatal k) as [a2 fatal2]. cbn [fst] in *.
  eapply takes_nothing_trans; [exact T1|]. eapply takes_nothing_trans; [exact T2|].
  apply IH; [|done]. split; [|done]. apply Forall_forall. intros k' Hin. apply F2.
  rewrite Forall_forall in Hf. destruct (Hf k' Hin) as [Ho' Hp']. split; [done|]. unfold a1. cbn.
  rewrite lookup_insert_ne; [done|]. by intros ->.
Qed.

Lemma reject_compound_takes e a c error :
  takes nothing (en_authority e) a ->
  eng_takes (fun x => compound_channels x (Some c) - compound_channels x (en_waiting_compound e)) e
    (reject_compound e a c error).
Proof.
  intros T HI. refine (eng_lift_vars (fun x => cnt x (Some (ca_acknowledge c))) _ _ _ _ _ _ _ _ HI).
  - eapply takes_then; [exact T|apply takes_reply].
  - same.
  - apply HI.
  - done.
  - intros x. unfold waiting_channels. cbn. lia.
Qed.

Lemma compound_admission_takes e c frame :
  compound_ok c ->
  eng_takes (fun x => compound_channels x (Some c) - compound_channels x (en_waiting_compound e)) e
    (process_compound_admission e c frame).
Proof.
  intros Hok HI. pose proof (ei_authority _ HI) as Ia. revert HI. unfold process_compound_admission.
  destruct (ca_operations c) as [|o os] eqn:Eops; [apply reject_compound_takes, takes_refl|].
  rewrite <- Eops. destruct (first_inactive _ _); [apply reject_compound_takes, takes_refl|].
  case_bool_decide; [apply reject_compound_takes, takes_refl|].
  destruct (compound_charge _ _ _); [|apply reject_compound_takes, takes_refl].
  case_bool_decide.
  { intros HI. refine (eng_lift_vars nothing _ _ _ _ _ _ _ _ HI);
      [apply takes_refl|same|apply HI|by intros c' [= <-]|]. intros x. unfold waiting_channels, nothing. cbn -[compound_channels]. lia. }
  destruct (admit_compound_takes (ca_deadline c) (ca_operations c) (en_authority e) [] Ia) as [T M];
    [apply Hok|apply Hok|split; [apply Forall_nil|apply NoDup_nil]; done|].
  destruct (admit_compound _ _ _ _) as [a [admitted|error]]; cbn [fst snd] in *;
    [|by apply reject_compound_takes].
  destruct (T Ia) as (Ia1 & _). specialize (M admitted eq_refl).
  assert (Ta : takes nothing (en_authority e) (abort_compound a admitted)).
  { eapply takes_nothing_trans; [exact T|]. by apply abort_compound_takes, members_ok_pending. }
  destruct frame as [frame|]; [|by apply reject_compound_takes].
  destruct admitted as [|[key o1] rest] eqn:Eadm; [by apply reject_compound_takes|]. rewrite <- Eadm in *.
  pose proof (install_members_takes admitted a (en_fatal e) M Ia1) as Ti.
  destruct (foldl install_member (a, en_fatal e) admitted) as [a2 fatal]. cbn [fst new_token] in *.
  intros HI. refine (eng_lift_vars (fun x => cnt x (Some (ca_acknowledge c))) _ _ _ _ _ _ _ _ HI).
  - eapply takes_then; [exact T|]. eapply takes_then; [exact Ti|].
    eapply takes_then; [|apply takes_reply]. by apply takes_fields.
  - same.
  - apply HI.
  - done.
  - intros x. unfold waiting_channels. cbn. lia.
Qed.
End engine.
