(* ===== verification/EngineTheorems.v ===== *)
(** Runs of the connection owner (crates/smb/src/runtime/engine.rs): control commands,
    transport events, time and shutdown account for every reply channel, so that every
    caller is answered exactly once. *)
From S2P Require Import Prelude Clock Reducer GenState GenInv GenReach GenPublish GenProps GenTheorems ObjectState.
From S2P Require Import Bytes Header Operation PreparationOrder GenEffects Engine EngineInv EngineSteps.
Local Open Scope Z_scope.

(** The reply channel of a control command. *)
Definition control_reply (c : ControlCommand) : option Sender :=
  match c with
  | CC_CreateObject _ _ r | CC_LoseObjectGeneration r | CC_BeginObjectRecovery _ r
  | CC_PublishObjectReplacement _ r | CC_FailObjectRecovery _ r | CC_AwaitOperation _ r
  | CC_PreauthSnapshot r | CC_ResetPreauthToNegotiate r | CC_Negotiated _ r
  | CC_SessionStarted r | CC_SessionEnded r | CC_Close _ r => Some r
  | CC_InstallNotifications | CC_Cancel _ _ => None
  end.

Definition control_ok (c : ControlCommand) : Prop :=
  match c with CC_Cancel _ now => time_ok now | _ => True end.

Section engine.
Context `{!HashOrder RequestKey} `{!HashOrder Z}.

(** ** Control *)

Lemma set_target_takes a t :
  takes nothing a (a <| au_state := gs_set_target_credits (au_state a) t |>).
Proof.
  intros []. split_and!; [split; try done| |done].
  - eapply (inv_quiet (au_state a)); [done|by apply quiet_fields| |apply ai_state].
    by eapply accounting_fields; [apply ai_state|..].
  - intros x. rewrite (handles_fields x a) by done. counts.
Qed.

(** A caller that asks for its result gets it, or becomes the one that waits for it. *)
Lemma await_takes a k r : takes (fun x => cnt x (Some r)) a (await_operation a k r).
Proof.
  intros HI. revert HI. unfold await_operation.
  destruct (au_pending a !! k) as [p|] eqn:Hp; [|apply takes_reply].
  destruct (pd_buffered p) as [result|] eqn:Hb.
  { intros HI. assert (Ht : pd_terminal p = None) by (apply (ai_buffered _ HI k p Hp); eauto). revert HI.
    eapply takes_then; [|apply takes_reply]. destruct (pd_draining p) eqn:Hd.
    - apply moves_takes, (moves_put a k p); [done..|]. split; [done|]. left. split; [done|]. by right.
    - apply takes_delete_idle. intros _ q Hq. congruence. }
  destruct (bool_decide (is_Some (pd_terminal p)) || pd_caller_completed p) eqn:Ew; [apply takes_reply|].
  apply orb_false_iff in Ew as [Ht%bool_decide_eq_false Hc]. apply eq_None_not_Some in Ht.
  intros HI. assert (Hn : ~ settled p) by (intros [_ [[? ?]|?]]; congruence). split_and!; [| |done].
  - pose proof (ai_unsettled _ HI k p Hp Hn) as Ho. pose proof (ai_draining _ HI k p Hp) as Hd. destruct HI.
    split; cbn; try done.
    all: intros k' p'; rewrite lookup_insert; case_decide as E; [|eauto]; intros [= <-]; subst k'.
    + eauto.
    + done.
    + cbn. rewrite Hb. by intros [? [=]].
    + cbn. intros Hdr. by destruct Hn; apply Hd.
  - intros x. rewrite (handles_pending_put _ _ _ p) by done. rewrite Ht, cnt_none. cbn. lia.
Qed.

Lemma defer_takes a k now :
  time_ok now -> takes nothing a (a <| au_deferred := <[k := now]> (au_deferred a) |>).
Proof.
  intros Hnow []. split_and!; [split; cbn; try done| |done].
  - intros k' t. rewrite lookup_insert. case_decide; [by intros [= <-]|eauto].
  - intros x. rewrite (handles_fields x a) by done. counts.
Qed.

Lemma control_cancel_takes e k now :
  time_ok now -> eng_takes nothing e (control_cancel e k now).
Proof.
  intros Hnow. unfold control_cancel.
  set (t := match take_queued k (en_send_queue e) with Some _ => _ | None => _ end).
  assert (T1 : takes nothing (en_authority e) t.1.1).
  { subst t. destruct (take_queued _ _) as [[]|]; [by apply takes_fields|apply takes_refl]. }
  destruct t as [[a queue] removed]. cbn [fst] in T1.
  set (a2 := match au_frame_cancellations a !! k with Some _ => _ | None => _ end).
  assert (T2 : takes nothing a a2).
  { subst a2. destruct (au_frame_cancellations a !! k); [by apply takes_fields|apply takes_refl]. }
  apply eng_lift; [|same|done]. eapply takes_then; [exact T1|]. eapply takes_then; [exact T2|].
  cbn [en_authority]. clearbody a2. cbv zeta. cbn.
  destruct (removed || _ || _).
  - by apply cancel_takes.
  - destruct (au_deferred a2 !! k); [apply takes_refl|]. by apply defer_takes.
Qed.

Lemma control_takes e c wire :
  control_ok c -> eng_takes (fun x => cnt x (control_reply c)) e (handle_control e c wire).1.
Proof.
  assert (Hreply : forall a r rep, takes nothing (en_authority e) a ->
    eng_takes (fun x => cnt x (Some r)) e (e <| en_authority := reply a r rep |>)).
  { intros a r rep T. apply eng_lift; [|same|done]. eapply takes_then; [exact T|apply takes_reply]. }
  intros Hok. destruct c; cbn [handle_control control_reply].
  - destruct (reg_create_child _ _ _). by apply Hreply, takes_fields.
  - destruct (reg_lose_generation _). by apply Hreply, takes_fields.
  - destruct (reg_begin_recovery _ _). by apply Hreply, takes_fields.
  - destruct (reg_publish_replacement_revoking_descendants _ _). by apply Hreply, takes_fields.
  - destruct (reg_fail_recovery _ _). by apply Hreply, takes_fields.
  - apply eng_lift; [|same|done]. by apply takes_fields.
  - apply eng_lift; [|same|done]. apply await_takes.
  - apply Hreply, takes_refl.
  - apply Hreply, takes_refl.
  - apply Hreply. eapply takes_nothing_trans; [|apply set_target_takes]. by apply takes_fields.
  - apply Hreply, takes_refl.
  - apply Hreply, takes_refl.
  - by apply control_cancel_takes.
  - destruct (en_close e) eqn:Hc; [apply Hreply, takes_refl|]. intros HI.
    refine (eng_lift_vars nothing _ _ _ _ _ _ _ _ HI); [apply takes_refl|same|apply HI|apply HI|].
    intros x. unfold waiting_channels, nothing. cbn. rewrite Hc. cbn. lia.
Qed.

(** ** Transport *)

Lemma progress_members_takes event a members :
  takes nothing a (foldl (progress_member event) a members).
Proof. apply (takes_fold (fun _ => True)); [|by apply Forall_true]. intros. apply progress_takes. Qed.

Lemma undefer_takes a k : takes nothing a (a <| au_deferred := delete k (au_deferred a) |>).
Proof.
  intros []. split_and!; [split; cbn; try done| |done].
  - intros k' t [_ ?]%lookup_delete_Some. eauto.
  - intros x. rewrite (handles_fields x a) by done. counts.
Qed.

Lemma settle_deferred_takes a k : takes nothing a (settle_deferred a k).
Proof.
  intros HI. revert HI. unfold settle_deferred. destruct (au_deferred a !! k) as [now|] eqn:Hd; [|apply takes_refl].
  intros HI. pose proof (ai_deferred _ HI k now Hd) as Hnow. revert HI.
  eapply takes_nothing_trans; [apply undefer_takes|]. by apply cancel_takes.
Qed.

Lemma io_takes a fatal event event_full : takes nothing a (process_io a fatal event event_full).1.
Proof.
  destruct event as [k|k n|k|p n c|p]; cbn [process_io fst]; [| | |apply takes_refl..].
  - intros HI. assert (Hnow : time_ok (default time_zero (au_deferred a !! k))).
    { destruct (au_deferred a !! k) eqn:Hd; cbn; [by eapply ai_deferred|]. unfold time_ok, time_zero. ints. }
    revert HI. set (now := default _ _) in *. clearbody now.
    eapply takes_nothing_trans; [apply (undefer_takes a k)|].
    set (a1 := a <| au_deferred := _ |>). clearbody a1.
    eapply (takes_nothing_trans _ (a1 <| au_frame_members := delete k (au_frame_members a1) |>));
      [by apply takes_fields|].
    set (a2 := a1 <| au_frame_members := _ |>).
    eapply takes_nothing_trans.
    + apply (takes_fold (fun _ => True) (cancel_member now) (members_of a1 k)); [|by apply Forall_true].
      intros a' m _. by apply cancel_takes.
    + by apply takes_fields.
  - eapply takes_nothing_trans; [apply progress_members_takes|apply settle_deferred_takes].
  - eapply (takes_nothing_trans _ (a <| au_frame_members := delete k (au_frame_members a) |>));
      [by apply takes_fields|].
    eapply takes_nothing_trans; [apply progress_members_takes|].
    eapply takes_nothing_trans; [apply settle_deferred_takes|]. by apply takes_fields.
Qed.

Lemma with_io_takes e event event_full : eng_takes nothing e (with_io e event event_full).
Proof.
  unfold with_io. pose proof (io_takes (en_authority e) (en_fatal e) event event_full) as T.
  destruct (process_io _ _ _ _) as [a fatal]. apply eng_lift; [exact T|same|done].
Qed.

Lemma dispatch_takes e e' : dispatch_next e = Some e' -> eng_takes nothing e e'.
Proof.
  assert (Hsame : forall e, eng_takes nothing e e).
  { intros e0 HI. split; [done|]. counts. }
  unfold dispatch_next. destruct (en_active_write e); [intros [= <-]; apply Hsame|].
  destruct (en_send_queue e) as [|c rest]; [intros [= <-]; apply Hsame|].
  destruct (en_write e); [|done]. intros [= <-]. apply eng_lift; [|same|done].
  eapply takes_nothing_trans; [apply (progress_members_takes PG_Queued)|]. by apply takes_fields.
Qed.

(** ** Inbound messages *)

Lemma route_takes notify_full acc m : response_ok m -> takes nothing acc.1 (route_message notify_full acc m).1.
Proof.
  intros Hm. destruct acc as [a fatal]. unfold route_message. set (key := mkKey _ _).
  case_bool_decide; [by apply process_decoded_response_takes|]. case_bool_decide; [apply takes_refl|].
  case_bool_decide; [apply takes_refl|]. cbn [fst]. intros []. split_and!; [split; cbn; try done| |done].
  - intros k' m'. rewrite lookup_insert. case_decide; [by intros [= <-]|eauto].
  - intros x. rewrite (handles_fields x a) by done. counts.
Qed.

Lemma routes_takes notify_full messages : forall acc,
  Forall response_ok messages -> takes nothing acc.1 (foldl (route_message notify_full) acc messages).1.
Proof.
  induction messages as [|m messages IH]; intros acc Hf; cbn [foldl]; [apply takes_refl|].
  apply Forall_cons in Hf as [Hm Hf]. eapply takes_nothing_trans; [by apply route_takes|by apply IH].
Qed.

Lemma inbound_step_takes notify_full event_full e i :
  inbound_ok i -> eng_takes nothing e (inbound_step notify_full event_full e i).
Proof.
  intros Hi. unfold inbound_step, finish_prepared_inbound.
  assert (exists messages fatal, match ib_result i with
      | Some messages => (messages, en_fatal e) | None => ([], Some (RT_Wire WF_DecodeIncoming)) end
      = (messages, fatal) /\ Forall response_ok messages) as (messages & fatal & -> & Hm).
  { destruct (ib_result i) eqn:E; eexists _, _; (split; [reflexivity|]); [by apply Hi|apply Forall_nil; done]. }
  pose proof (routes_takes notify_full messages (en_authority e, fatal) Hm) as T.
  destruct (foldl _ _ _) as [a fatal']. apply eng_lift; [exact T|same|done].
Qed.

Lemma inbound_takes notify_full event_full e s result :
  eng_inv e -> s ∈ en_inbound e -> inbound_ok (mkInbound s result) ->
  exists e', inbound_prepared_step e s result notify_full event_full = Some e' /\ eng_takes nothing e e'.
Proof.
  intros HI Hs Hi. destruct (ei_inbound _ HI s Hs) as [Hres Hcomp]. unfold inbound_prepared_step, ocq_complete.
  rewrite bool_decide_eq_false_2 by (by intros Hn). rewrite Hcomp, bool_decide_eq_false_2 by (by intros [? [=]]).
  set (q := en_inbound_order e) in *. set (v := mkInbound s result).
  assert (Hall : map_Forall (fun _ => inbound_ok) (<[s := v]> (ocq_completed q))).
  { apply map_Forall_insert_2; [done|apply HI]. }
  pose proof (ocq_drain_keeps (ocq_order q) (ocq_reserved q) (<[s := v]> (ocq_completed q)) []) as Hk.
  pose proof (ocq_drain_ready inbound_ok (ocq_order q) (ocq_reserved q) (<[s := v]> (ocq_completed q)) []
    Hall (Forall_nil_2 _)) as Hready.
  destruct (ocq_drain _ _ _ _) as [order ready]. cbn [fst snd] in *. eexists. split; [reflexivity|].
  assert (Hkeys : NoDup ((fun s => s) <$> en_inbound e)) by (rewrite list_fmap_id; apply HI).
  destruct (remove_one_keys (fun s => s) s _ Hs Hkeys) as [Hnd Hrest]. rewrite list_fmap_id in Hnd.
  eapply (eng_takes_trans nothing).
  2: { apply (eng_takes_fold inbound_ok (fun _ => nothing)); [|exact Hready].
       intros e' b Hb. by apply inbound_step_takes. }
  2: { intros x. clear. induction ready as [|i ready IH]; cbn; unfold nothing in *; lia. }
  clear HI. intros [Ia Io Ic Ip1 Ip2 Ik Ip3 In1 In2 In3 In5 In4]. split.
  - split; cbn -[known]; try done.
    + intros s' Hs'. destruct (Hrest s' Hs') as [Hin Hne]. destruct (In2 s' Hin) as [H1 H2].
      apply (Hk s'); [done|]. by rewrite lookup_insert_ne.
    + intros k Hin. apply In3. by apply (Hk k).
    + intros k [v' Hv']. apply (Hk k); [|eauto]. apply (Hk k) in Hv' as Hv2.
      rewrite lookup_insert in Hv2. case_decide; [by subst|]. apply In5. fold q. eauto.
    + intros k i Hi'. apply (Hk k) in Hi'. by eapply Hall.
  - intros x. unfold nothing. rewrite Z.add_0_r. reflexivity.
Qed.

Lemma enqueue_inbound_takes e :
  eng_inv e -> exists e', enqueue_inbound e = Some e' /\ eng_takes nothing e e'.
Proof.
  intros HI. unfold enqueue_inbound. destruct (checked_add u64_max _ 1) as [next|] eqn:En.
  2: { eexists. split; [reflexivity|]. apply eng_lift; [apply takes_refl|same|done]. }
  apply checked_add_Some in En as [_ ->]. unfold ocq_reserve.
  assert (Hnew : en_next_inbound_sequence e ∉ ocq_reserved (en_inbound_order e)).
  { intros Hin%(ei_inbound_order _ HI). lia. }
  rewrite bool_decide_eq_false_2 by done. eexists. split; [reflexivity|]. clear HI.
  intros [Ia Io Ic Ip1 Ip2 Ik Ip3 In1 In2 In3 In5 In4]. split.
  - split; cbn -[known]; try done.
    + apply NoDup_app. split_and!; [done| |apply NoDup_singleton].
      intros s Hin ->%list_elem_of_singleton. by apply In2 in Hin as [? _].
    + intros s [Hin|Hin%list_elem_of_singleton]%elem_of_app; [|subst s].
      * destruct (In2 s Hin). set_solver.
      * split; [set_solver|]. apply eq_None_not_Some. by intros Hc%In5.
    + intros s [Hin%elem_of_singleton|Hin%In3]%elem_of_union; lia.
    + intros s Hs. apply elem_of_union. right. by apply In5.
  - intros x. unfold nothing. rewrite Z.add_0_r. reflexivity.
Qed.
End engine.

(** What the connection owner promises (crates/smb/src/runtime/engine.rs): whom it answers and
    whom it does not, what it can panic on, and where it does not keep a promise. *)

(** The arguments of events, by their Rust types. *)
Definition ev_ok (event : EngineEvent) : Prop :=
  match event with
  | EV_Admission c => admission_ok c
  | EV_Operation c _ _ => op_admission_ok c
  | EV_Compound c _ => compound_ok c
  | EV_Control c _ => control_ok c
  | EV_InboundPrepared _ result _ _ => forall messages, result = Some messages -> Forall response_ok messages
  | EV_Deadline now => time_ok now
  | _ => True
  end.

(** The reply channels an event hands to the owner. *)
Definition given (x : Sender) (event : EngineEvent) : Z :=
  match event with
  | EV_Admission c => cnt x (Some (ac_acknowledge c)) + cnt x (Some (ac_terminal c))
  | EV_Operation c _ _ => op_channels x (Some c)
  | EV_Compound c _ => compound_channels x (Some c)
  | EV_Control c _ => cnt x (control_reply c)
  | _ => 0
  end.

Section engine.
Context `{!HashOrder RequestKey} `{!HashOrder Z}.

Lemma eng_takes_id e : eng_takes nothing e e.
Proof. intros HI. split; [done|]. counts. Qed.

Lemma eng_takes_then g e1 e2 e3 : eng_takes nothing e1 e2 -> eng_takes g e2 e3 -> eng_takes g e1 e3.
Proof. intros T1 T2. eapply eng_takes_trans; [done..|]. counts. Qed.

(** Assigning the variables that hold no channel. *)
Lemma eng_takes_vars e e' :
  en_authority e' = en_authority e -> same_vars e e' ->
  en_waiting_operation e' = en_waiting_operation e -> eng_takes nothing e e'.
Proof. intros Ea S W. apply eng_lift; [rewrite Ea; apply takes_refl|done..]. Qed.

Lemma publish_reason_takes e : eng_takes nothing e (publish_shutdown_reason e).
Proof.
  unfold publish_shutdown_reason. destruct (en_shutdown_reason e); [apply eng_takes_id|].
  apply eng_takes_vars; [done|same|done].
Qed.

Lemma finish_write_takes e k outcome event_full : eng_takes nothing e (finish_write e k outcome event_full).
Proof.
  destruct outcome as [|[[]|]|]; cbn [finish_write].
  1-3: eapply eng_takes_then; [|apply with_io_takes]; apply eng_takes_vars; [done|same|done].
  apply eng_takes_vars; [done|same|done].
Qed.

(** A panic of the owner: there is a frame to write and nobody has the write transport. *)
Definition write_lost (e : Engine) : Prop :=
  en_active_write e = None /\ en_write e = false /\ en_send_queue e <> [].

(** Every event keeps the invariant and accounts for the channels it hands in. *)
(** A panic of the wire pipeline inside the owner. *)
Definition pipeline_panic (event : EngineEvent) : Prop :=
  match event with EV_InboundPanicked _ | EV_PreparationPanicked _ | EV_WirePanicked => True | _ => False end.

Lemma eng_step_takes e event :
  eng_inv e -> ev_enabled e event = true -> ev_ok event ->
  match eng_step e event with
  | Some e' => eng_inv e' /\ forall x, eng_handles x e' = eng_handles x e + given x event
  | None => event = EV_Dispatch /\ write_lost e \/ pipeline_panic event
  end.
Proof.
  intros HI Hen Hok.
  assert (Hn : forall e', eng_takes nothing e e' -> eng_inv e' /\ forall x, eng_handles x e' = eng_handles x e + 0).
  { intros e' T. exact (T HI). }
  destruct event; cbn [eng_step ev_enabled ev_ok given] in *.
  - by apply admission_takes.
  - apply bool_decide_eq_true in Hen as [Hw Hc].
    destruct (process_operation_admission _ _ _ _) as [e'|] eqn:E.
    + destruct (operation_admission_takes e command concurrent frame e' Hok E HI) as [I H]. split; [done|].
      intros x. rewrite H, Hw. cbn [op_channels]. lia.
    + by destruct (operation_admission_some e command concurrent frame HI Hok).
  - apply bool_decide_eq_true in Hen as [c Hw]. rewrite Hw. pose proof (ei_operation _ HI c Hw) as Hc.
    destruct (process_operation_admission _ _ _ _) as [e'|] eqn:E.
    + destruct (operation_admission_takes e c concurrent frame e' Hc E HI) as [I H]. split; [done|].
      intros x. rewrite H, Hw. lia.
    + by destruct (operation_admission_some e c concurrent frame HI Hc).
  - apply andb_true_iff in Hen as [[_ Hw]%bool_decide_eq_true _].
    destruct (compound_admission_takes e command frame Hok HI) as [I H]. split; [done|].
    intros x. rewrite H, Hw. cbn [compound_channels]. lia.
  - apply andb_true_iff in Hen as [[c Hw]%bool_decide_eq_true _]. rewrite Hw.
    destruct (compound_admission_takes e c frame (ei_compound _ HI c Hw) HI) as [I H]. split; [done|].
    intros x. rewrite H, Hw. lia.
  - apply bool_decide_eq_true in Hen. destruct (prepared_takes e preparation result HI Hen) as (e' & -> & T).
    by apply Hn.
  - destruct (control_takes e command wire Hok HI) as [I H]. destruct (handle_control _ _ _) as [e' close].
    cbn [fst] in *. destruct close; [|done]. destruct (publish_reason_takes e' I) as [I' H']. split; [done|].
    intros x. rewrite H', H. counts.
  - apply Hn, with_io_takes.
  - apply Hn, eng_takes_vars; [done|same|done].
  - destruct (enqueue_inbound_takes e HI) as (e' & -> & T). by apply Hn.
  - apply bool_decide_eq_true in Hen.
    destruct (inbound_takes notify_full event_full e sequence result HI Hen) as (e' & -> & T); [done|].
    by apply Hn.
  - by right.
  - by right.
  - by right.
  - unfold write_progress_step. apply bool_decide_eq_true in Hen as [w ->]. apply Hn. case_bool_decide; [apply with_io_takes|apply eng_takes_id].
  - unfold write_done_step. apply bool_decide_eq_true in Hen as [w ->]. apply Hn.
    eapply (eng_takes_then _ _ (e <| en_active_write := None |>)); [apply eng_takes_vars; [done|same|done]|].
    eapply eng_takes_then; [|apply finish_write_takes]. case_bool_decide; [apply with_io_takes|apply eng_takes_id].
  - destruct (dispatch_next e) as [e'|] eqn:E; [by apply Hn, dispatch_takes|]. left. split; [done|].
    unfold dispatch_next in E. unfold write_lost. destruct (en_active_write e); [done|].
    destruct (en_send_queue e); [done|]. by destruct (en_write e).
  - apply Hn. unfold deadline_step. eapply eng_takes_then.
    + apply (eng_lift nothing e (e <| en_authority := reduce_and_apply (en_authority e) (OE_AdvanceTime now) |>));
        [by apply advance_takes|same|done].
    + destruct (gs_unhealthy _); [|apply eng_takes_id].
      eapply eng_takes_then; [|apply publish_reason_takes]. apply eng_takes_vars; [done|same|done].
  - apply Hn, publish_reason_takes.
Qed.

(** ** Shutdown *)

Definition control_given (x : Sender) (c : Channels) : Z := list_sum (fun c => cnt x (control_reply c)) (chn_control c).

(** What is in the channels that are drained. *)
Definition channels_given (x : Sender) (c : Channels) : Z :=
  list_sum (fun c => cnt x (Some (ac_acknowledge c)) + cnt x (Some (ac_terminal c))) (chn_admissions c)
  + list_sum (fun c => op_channels x (Some c)) (chn_operations c)
  + list_sum (fun c => compound_channels x (Some c)) (chn_compounds c).

Lemma takes_sum {B} (g : B -> Sender -> Z) (f : RequestAuthority -> B -> RequestAuthority) l : forall a,
  (forall a b, takes (g b) a (f a b)) -> takes (fun x => list_sum (fun b => g b x) l) a (foldl f a l).
Proof.
  induction l as [|b l IH]; intros a Hf; cbn [foldl list_sum]; [apply takes_refl|].
  eapply takes_trans; [apply Hf|by apply IH|done].
Qed.

Lemma fail_operation_takes error a c : takes (fun x => op_channels x (Some c)) a (fail_operation error a c).
Proof. apply reject_operation_takes. Qed.

Lemma drain_terminals error ks : forall a,
  let a' := foldl (drain_terminal error) a ks in
  moves a a' /\ au_pending a' = au_pending a /\
  (forall k, au_terminals a' !! k = if decide (k ∈ ks) then None else au_terminals a !! k).
Proof.
  induction ks as [|k0 ks IH]; intros a; cbn [foldl]; [done|].
  assert (moves a (drain_terminal error a k0) /\ au_pending (drain_terminal error a k0) = au_pending a /\
    (forall k, au_terminals (drain_terminal error a k0) !! k = if decide (k = k0) then None else au_terminals a !! k))
    as (M & Ep & Et).
  { unfold drain_terminal. destruct (au_terminals a !! k0) as [t|] eqn:Ht.
    - split; [by eapply moves_handles_reply|]. split; [done|]. intros k. cbn. rewrite lookup_delete.
      repeat case_decide; congruence.
    - split_and!; [done..|]. intros k. case_decide; congruence. }
  destruct (IH (drain_terminal error a k0)) as (M2 & Ep2 & Et2). split_and!; [by etrans|congruence|].
  intros k. rewrite Et2, Et. repeat case_decide; set_solver.
Qed.

Lemma drain_pendings error ks : forall a,
  let a' := foldl (drain_pending error) a ks in
  moves a a' /\ au_terminals a' = au_terminals a /\
  (forall k, au_pending a' !! k = if decide (k ∈ ks) then None else au_pending a !! k).
Proof.
  induction ks as [|k0 ks IH]; intros a; cbn [foldl]; [done|].
  destruct (drop_pending_moves a k0 (Rp_Operation (Err error))) as [M Ep]. cbv zeta in M, Ep.
  change (match au_pending a !! k0 with Some _ => _ | None => a end) with (drain_pending error a k0) in *.
  assert (Et : au_terminals (drain_pending error a k0) = au_terminals a).
  { unfold drain_pending. destruct (au_pending a !! k0) as [p|]; [|done]. by destruct (pd_terminal p). }
  destruct (IH (drain_pending error a k0)) as (M2 & Et2 & Ep2). split_and!; [by etrans|congruence|].
  intros k. rewrite Ep2, Ep, lookup_delete. repeat case_decide; set_solver.
Qed.

(** Draining both tables leaves every channel in the log. *)
Lemma drains_answer error a :
  let a1 := foldl (drain_terminal error) a (hash_keys (au_terminals a)) in
  let a2 := foldl (drain_pending error) a1 (hash_keys (au_pending a1)) in
  au_pending a2 = ∅ /\ au_terminals a2 = ∅ /\ au_state a2 = au_state a /\
  (forall x, sent x (au_log a2) = handles x a).
Proof.
  cbv zeta. destruct (drain_terminals error (hash_keys (au_terminals a)) a) as (M1 & _ & T1).
  set (a1 := foldl (drain_terminal error) a _) in *.
  destruct (drain_pendings error (hash_keys (au_pending a1)) a1) as (M2 & T2 & P2).
  set (a2 := foldl (drain_pending error) a1 _) in *.
  assert (Ep : au_pending a2 = ∅).
  { apply map_empty. intros k. rewrite P2. case_decide as E; [done|].
    rewrite elem_of_hash_keys in E. by apply eq_None_not_Some. }
  assert (Et : au_terminals a2 = ∅).
  { apply map_empty. intros k. rewrite T2, T1. case_decide as E; [done|].
    rewrite elem_of_hash_keys in E. by apply eq_None_not_Some. }
  split_and!; [done|done|by rewrite (mv_state _ _ M2), (mv_state _ _ M1)|].
  intros x. rewrite <- (mv_handles _ _ M1), <- (mv_handles _ _ M2). unfold handles. rewrite Ep, Et, !map_sum_empty. lia.
Qed.

(** The authority when shutdown is about to disconnect the generation. *)
Definition refused (e : Engine) (channels : Channels) (error : RuntimeError) : RequestAuthority :=
  let a := en_authority e in
  let a := cancel_all (a <| au_preparation_cancellations := ∅ |>) (hash_values (au_preparation_cancellations a)) in
  let a := foldl (fail_admission error) a (chn_admissions channels) in
  let a := foldl (fail_compound error) a (chn_compounds channels) in
  let a := foldl (fail_operation error) a (chn_operations channels) in
  let a := match en_waiting_operation e with Some c => fail_operation error a c | None => a end in
  let a := match en_waiting_compound e with Some c => fail_compound error a c | None => a end in
  let a := cancel_all a (wc_cancel_before_write <$> en_send_queue e) in
  let a := cancel_all a (hash_values (au_frame_cancellations a)) in
  a <| au_objects := (reg_lose_generation (au_objects a)).1 |>.

Lemma refused_takes (e : Engine) channels error :
  takes (fun x => op_channels x (en_waiting_operation e) + compound_channels x (en_waiting_compound e)
           + channels_given x channels) (en_authority e)
    (refused e channels error).
Proof.
  unfold refused. cbv zeta. set (a0 := en_authority e).
  set (a1 := cancel_all (a0 <| au_preparation_cancellations := ∅ |>) _).
  assert (T1 : takes nothing a0 a1) by by apply takes_fields. clearbody a1.
  set (a2 := foldl (fail_admission error) a1 _).
  assert (T2 : takes (fun x => list_sum (fun c => cnt x (Some (ac_acknowledge c)) + cnt x (Some (ac_terminal c)))
      (chn_admissions channels)) a1 a2).
  { apply (takes_sum (fun c x => cnt x (Some (ac_acknowledge c)) + cnt x (Some (ac_terminal c)))).
    intros a c. unfold fail_admission. eapply takes_trans; [apply takes_reply|apply takes_reply|]. counts. }
  clearbody a2. set (a3 := foldl (fail_compound error) a2 _).
  assert (T3 : takes (fun x => list_sum (fun c => compound_channels x (Some c)) (chn_compounds channels)) a2 a3).
  { apply (takes_sum (fun c x => compound_channels x (Some c))). intros. apply takes_reply. }
  clearbody a3. set (a4 := foldl (fail_operation error) a3 _).
  assert (T4 : takes (fun x => list_sum (fun c => op_channels x (Some c)) (chn_operations channels)) a3 a4).
  { apply (takes_sum (fun c x => op_channels x (Some c))). intros. apply fail_operation_takes. }
  clearbody a4. set (a5 := match en_waiting_operation e with Some _ => _ | None => a4 end).
  assert (T5 : takes (fun x => op_channels x (en_waiting_operation e)) a4 a5).
  { subst a5. destruct (en_waiting_operation e); [apply fail_operation_takes|apply takes_refl]. }
  clearbody a5. set (a6 := match en_waiting_compound e with Some _ => _ | None => a5 end).
  assert (T6 : takes (fun x => compound_channels x (en_waiting_compound e)) a5 a6).
  { subst a6. destruct (en_waiting_compound e); [apply takes_reply|apply takes_refl]. }
  clearbody a6. eapply takes_then; [exact T1|].
  eapply takes_trans; [exact T2|eapply takes_trans; [exact T3|eapply takes_trans; [exact T4|
    eapply takes_trans; [exact T5|eapply takes_before; [exact T6|]|]|]|]|].
  - by apply takes_fields.
  - intros x. reflexivity.
  - intros x. reflexivity.
  - intros x. reflexivity.
  - intros x. unfold channels_given. lia.
Qed.

Lemma disconnect_state a network :
  au_inv a ->
  au_state (reduce_and_apply a (OE_Disconnect network)) = (gs_disconnect (au_state a) network).1.
Proof.
  intros HI. destruct (disconnect_effects (au_state a) network) as [Hp Hd].
  by apply (reduce_and_apply_ok a (OE_Disconnect network)).
Qed.

(** After shutdown every channel the owner had, and every one that came in with the
    commands left in the channels, has been replied on, the acknowledgements of
    unfinished preparations apart. *)
Lemma shutdown_answers e channels read_panicked finish :
  eng_inv e ->
  let '(e', report) := eng_shutdown e channels read_panicked finish in
  au_pending (en_authority e') = ∅ /\ au_terminals (en_authority e') = ∅ /\
  clr_unresolved_requests report = 0 /\
  (forall x, sent x (au_log (en_authority e')) + prep_channels x e = eng_handles x e + channels_given x channels).
Proof.
  intros HI. unfold eng_shutdown. set (e1 := publish_shutdown_reason e).
  destruct (publish_reason_takes e HI) as [I1 H1]. fold e1 in I1, H1.
  assert (Hprep : forall x, prep_channels x e = prep_channels x e1).
  { intros x. unfold e1, publish_shutdown_reason. by destruct (en_shutdown_reason e). }
  clearbody e1. set (error := default RT_Closed _). set (network := match error with RT_Network _ => _ | _ => _ end).
  destruct (refused_takes e1 channels error (ei_authority _ I1)) as (I2 & H2 & _).
  cbv zeta. fold (refused e1 channels error). set (a2 := refused e1 channels error) in *. clearbody a2.
  destruct (disconnect_takes a2 network I2) as (_ & H3 & _). pose proof (disconnect_state a2 network I2) as Hst.
  set (a3 := reduce_and_apply a2 _) in *. clearbody a3.
  destruct (drains_answer error a3) as (Ep & Et & Es & Hl). cbv zeta in Ep, Et, Es, Hl.
  set (a4 := foldl (drain_pending error) _ _) in *. clearbody a4.
  destruct finish as [[joined failed] timed_out]. cbn [clr_unresolved_requests].
  assert (Hres : gs_unresolved_callers (au_state a4) = 0).
  { rewrite Es, Hst. apply disconnect_resolves, I2. }
  rewrite Hres. destruct (en_close e1) as [request|] eqn:Hc; (split_and!; [done..|]).
  all: intros x; specialize (H1 x); specialize (H2 x); specialize (H3 x); rewrite Hprep; unfold nothing in *.
  all: rewrite Z.add_0_r in H1; rewrite <- H1; unfold eng_handles; rewrite Hc.
  - cbn -[sent handles cnt op_channels compound_channels prep_channels].
    rewrite sent_app, Hl. cbn. lia.
  - cbn -[sent handles cnt op_channels compound_channels prep_channels]. rewrite Hl. lia.
Qed.

(** ** Runs *)

Fixpoint eng_run (e : Engine) (events : list EngineEvent) : option Engine :=
  match events with
  | [] => Some e
  | event :: events => match eng_step e event with Some e => eng_run e events | None => None end
  end.

(** Every event is enabled where it happens. *)
Fixpoint run_ok (e : Engine) (events : list EngineEvent) : Prop :=
  match events with
  | [] => True
  | event :: events =>
      ev_enabled e event = true /\ ev_ok event /\
      match eng_step e event with Some e => run_ok e events | None => True end
  end.

Lemma eng_inv_new g m c t limits drain :
  new_ok m c 1 limits drain -> eng_inv (eng_new g m c t limits drain).
Proof.
  intros Hnew. split; cbn; try done.
  all: try (intros ? Hin; exfalso; by apply elem_of_nil in Hin).
  all: try (intros ? Hin; exfalso; by apply elem_of_empty in Hin).
  all: try (intros ? [? Hs]; by rewrite lookup_empty in Hs).
  all: try apply NoDup_nil_2.
  split; cbn; try done. by apply inv_new.
Qed.

Lemma eng_run_takes events : forall e e',
  eng_inv e -> run_ok e events -> eng_run e events = Some e' ->
  eng_inv e' /\ forall x, eng_handles x e' = eng_handles x e + list_sum (given x) events.
Proof.
  induction events as [|event events IH]; intros e e' HI Hok Hrun; cbn in *.
  { injection Hrun as <-. split; [done|]. intros. lia. }
  destruct Hok as (Hen & Hev & Hok). pose proof (eng_step_takes e event HI Hen Hev) as Hs.
  destruct (eng_step e event) as [e1|]; [|done]. destruct Hs as [I1 H1].
  destruct (IH e1 e' I1 Hok Hrun) as [I2 H2]. split; [done|]. intros x. rewrite H2, H1. lia.
Qed.

Lemma run_ok_step e event events e' :
  ev_enabled e event = true -> ev_ok event -> eng_step e event = Some e' -> run_ok e' events ->
  run_ok e (event :: events).
Proof. intros Hen Hok Hs Hr. cbn [run_ok]. by rewrite Hs. Qed.

(** ** The write transport *)

(** Somebody has the write transport: the active write or the loop. *)
Definition write_owned (e : Engine) : Prop := en_active_write e = None -> en_write e = true.

Definition same_write (e e' : Engine) : Prop :=
  en_write e' = en_write e /\ en_active_write e' = en_active_write e.

Lemma same_write_owned e e' : same_write e e' -> write_owned e -> write_owned e'.
Proof. unfold write_owned. by intros [-> ->]. Qed.

Lemma same_write_fold {B} (f : Engine -> B -> Engine) l : forall e,
  (forall e b, same_write e (f e b)) -> same_write e (foldl f e l).
Proof.
  induction l as [|b l IH]; intros e Hf; cbn [foldl]; [done|].
  destruct (Hf e b) as [A1 A2], (IH (f e b) Hf) as [B1 B2]. split; congruence.
Qed.

(** [keeps_write] goes through the branches of a step. *)
Ltac keeps_write := repeat case_match; simplify_eq; done.

Lemma operation_admission_write e c concurrent frame e' :
  process_operation_admission e c concurrent frame = Some e' -> same_write e e'.
Proof. unfold process_operation_admission, new_token. intros H. keeps_write. Qed.

Lemma compound_admission_write e c frame : same_write e (process_compound_admission e c frame).
Proof. unfold process_compound_admission, reject_compound, new_token. keeps_write. Qed.

Lemma finish_prepared_write e p : same_write e (finish_prepared_operation e p).
Proof. unfold finish_prepared_operation, new_token. keeps_write. Qed.

Lemma handle_control_write e c wire : same_write e (handle_control e c wire).1.
Proof. unfold handle_control, control_cancel. keeps_write. Qed.

Lemma with_io_write e event event_full : same_write e (with_io e event event_full).
Proof. unfold with_io. keeps_write. Qed.

Lemma publish_reason_write e : same_write e (publish_shutdown_reason e).
Proof. unfold publish_shutdown_reason. keeps_write. Qed.

(** A write step did not panic. *)
Definition no_write_panic (event : EngineEvent) : Prop :=
  match event with EV_WriteDone _ WO_Panicked _ => False | _ => True end.

(** Neither a write step nor the wire pipeline panicked. *)
Definition no_panic_below (event : EngineEvent) : Prop := no_write_panic event /\ ~ pipeline_panic event.

Lemma eng_step_write e event e' :
  no_write_panic event -> write_owned e -> eng_step e event = Some e' -> write_owned e'.
Proof.
  intros Hnp Hw. assert (Hs : same_write e e' -> write_owned e') by (intros H; by eapply same_write_owned).
  destruct event; cbn [eng_step no_write_panic] in *.
  - intros [= <-]. apply Hs. unfold process_admission, new_token. keeps_write.
  - intros H. by eapply Hs, operation_admission_write.
  - destruct (en_waiting_operation e); intros H; [by eapply Hs, operation_admission_write|by simplify_eq].
  - intros [= <-]. apply Hs, compound_admission_write.
  - destruct (en_waiting_compound e); intros [= <-]; [apply Hs, compound_admission_write|done].
  - unfold prepared_step. destruct (ocq_complete _ _ _) as [[order ready]|]; [|done]. intros [= <-].
    eapply same_write_owned; [apply same_write_fold, finish_prepared_write|done].
  - pose proof (handle_control_write e command wire) as H. destruct (handle_control _ _ _) as [e1 close].
    cbn [fst] in H. apply same_write_owned in H; [|done]. intros [= <-]. destruct close; [|done].
    by eapply same_write_owned; [apply publish_reason_write|].
  - intros [= <-]. apply Hs, with_io_write.
  - by intros [= <-].
  - unfold enqueue_inbound. intros H. apply Hs. keeps_write.
  - unfold inbound_prepared_step. destruct (ocq_complete _ _ _) as [[order ready]|]; [|done]. intros [= <-].
    eapply same_write_owned; [apply same_write_fold|done].
    intros e1 i. unfold inbound_step. keeps_write.
  - done.
  - done.
  - done.
  - unfold write_progress_step. destruct (en_active_write e); intros [= <-]; [|done]. case_bool_decide; [|done]. apply Hs, with_io_write.
  - unfold write_done_step. destruct (en_active_write e) as [w|]; intros [= <-]; [|done].
    set (e1 := if bool_decide _ then _ else _). destruct outcome as [|[[]|]|]; cbn [finish_write]; [..|done].
    all: eapply same_write_owned; [apply with_io_write|]; by intros _.
  - unfold dispatch_next. intros H. repeat case_match; simplify_eq; done.
  - unfold deadline_step. intros [= <-]. destruct (gs_unhealthy _); [|done]. by eapply same_write_owned; [apply publish_reason_write|].
  - intros [= <-]. apply Hs, publish_reason_write.
Qed.

Lemma eng_run_total events : forall e,
  eng_inv e -> write_owned e -> run_ok e events -> Forall no_panic_below events ->
  exists e', eng_run e events = Some e'.
Proof.
  induction events as [|event events IH]; intros e HI Hw Hok Hnp; cbn in *; [eauto|].
  destruct Hok as (Hen & Hev & Hok). apply Forall_cons in Hnp as [[Hn Hp] Hnp].
  pose proof (eng_step_takes e event HI Hen Hev) as Hs.
  pose proof (fun e' => eng_step_write e event e' Hn Hw) as Hw'.
  destruct (eng_step e event) as [e1|]; [|destruct Hs as [(_ & Ha & Hb & _)|?]; [specialize (Hw Ha); congruence|done]].
  apply IH; [apply Hs|by apply Hw'|done..].
Qed.

Lemma pipeline_panic_ends events : forall e, Exists pipeline_panic events -> eng_run e events = None.
Proof.
  induction events as [|event events IH]; intros e He; [by inv He|]. cbn. apply Exists_cons in He as [He|He].
  - by destruct event.
  - destruct (eng_step e event); [by apply IH|done].
Qed.

(** ** What the owner promises *)

(** The channels that the owner drops without a reply when it stops: the acknowledgements of the
    preparations that are still in flight, and the replies of control commands that are still in
    their channel. *)
Definition dropped_at_shutdown (x : Sender) (e : Engine) (channels : Channels) : Z :=
  prep_channels x e + control_given x channels.

(** C3: no caller is answered twice, and a caller is answered unless the owner stops with its
    channel in one of two places. Take any run of the owner from a new generation in which it does not
    panic, and then its shutdown. The number of replies on a channel is the number of times the
    channel was handed to the owner, by an event of the run or in a command that is still in one
    of its four channels at shutdown, less the times it is dropped without a reply: as the
    acknowledgement of a preparation that is still in flight, or in a control command that
    is still in the control channel, which is not drained as the other three are. No request is
    unresolved. *)
Theorem every_caller_answered_once g m c t limits drain events e channels read_panicked finish x :
  new_ok m c 1 limits drain -> run_ok (eng_new g m c t limits drain) events ->
  eng_run (eng_new g m c t limits drain) events = Some e ->
  let '(e', report) := eng_shutdown e channels read_panicked finish in
  sent x (au_log (en_authority e'))
  = list_sum (given x) events + channels_given x channels + control_given x channels - dropped_at_shutdown x e channels /\
  clr_unresolved_requests report = 0.
Proof.
  intros Hnew Hok Hrun. destruct (eng_run_takes events _ e (eng_inv_new g m c t limits drain Hnew) Hok Hrun) as [HI Hh].
  pose proof (shutdown_answers e channels read_panicked finish HI) as H.
  destruct (eng_shutdown _ _ _ _) as [e' report]. destruct H as (_ & _ & Hr & H). split; [|done].
  specialize (H x). specialize (Hh x). unfold dropped_at_shutdown.
  assert (Hz : eng_handles x (eng_new g m c t limits drain) = 0)
    by (unfold eng_handles, handles, prep_channels; cbn; by rewrite !map_sum_empty).
  lia.
Qed.

(** C37: the owner does not panic on its own account. Every run of enabled events goes through,
    the assertions of both completion queues and the expectation that an idle owner has its write
    transport included, as long as two things below it do not panic: a write step, whose panic is
    caught but loses the transport, and the wire pipeline, whose preparations the owner polls and
    whose calls it awaits without catching a panic. A panic of the pipeline ends the owner in every state. *)
Theorem owner_panics_only_below g m c t limits drain events :
  new_ok m c 1 limits drain -> run_ok (eng_new g m c t limits drain) events ->
  (Forall no_panic_below events -> exists e, eng_run (eng_new g m c t limits drain) events = Some e) /\
  (Exists pipeline_panic events -> eng_run (eng_new g m c t limits drain) events = None).
Proof.
  intros Hnew Hok. split; [intros Hnp; apply eng_run_total; [by apply eng_inv_new|done|done|done]|apply pipeline_panic_ends].
Qed.

(** a write step that panics while another frame is queued takes the owner with it: the
    next dispatch finds no write transport before the loop looks at the failure. *)
Lemma write_panic_panics_owner e w unreported event_full :
  en_active_write e = Some w -> en_send_queue e <> [] -> en_write e = false ->
  exists e', eng_step e (EV_WriteDone unreported WO_Panicked event_full) = Some e' /\
    en_fatal e' = Some (RT_Transport TF_PumpPanicked) /\ eng_step e' EV_Dispatch = None.
Proof.
  intros Ha Hq Hw. cbn [eng_step]. unfold write_done_step. rewrite Ha. eexists. split; [reflexivity|]. split; [done|].
  set (e1 := if bool_decide _ then _ else _).
  assert (H : en_send_queue e1 = en_send_queue e /\ en_write e1 = false /\ en_active_write e1 = None).
  { unfold e1, with_io. case_bool_decide; [|done]. by destruct (process_io _ _ _ _). }
  destruct H as (E1 & E2 & E3). cbn [finish_write]. unfold dispatch_next. cbn. rewrite E3, E1, E2.
  by destruct (en_send_queue e).
Qed.
End engine.

(** ** Concrete runs *)

#[local] Instance key_order : HashOrder RequestKey := canonical_order RequestKey.
#[local] Instance sequence_order : HashOrder Z := canonical_order Z.

Definition sample_owner : Engine := eng_new 1 0 10 10 (mkLimits 10 1000) 5000000000.

(** A request is being written, a second one waits behind it. *)
Definition two_requests : list EngineEvent :=
  [EV_Admission (mkAdmission [] 10 1 None 1 2); EV_Dispatch;
   EV_Admission (mkAdmission [] 10 1 (Some 5) 3 4)].

(** [concrete_run] checks that the events of a literal run are enabled and well-typed. *)
Ltac concrete_step :=
  lazymatch goal with
  | |- run_ok _ (_ :: _) => eapply run_ok_step; [vm_compute; reflexivity| |vm_compute; reflexivity|concrete_step]
  | |- run_ok _ [] => exact I
  end.

Ltac concrete_run :=
  cbn [app]; concrete_step;
  cbn; unfold admission_ok, op_admission_ok, operation_ok, deadline_ok, content_ok, time_ok; cbn;
  repeat match goal with
  | |- _ /\ _ => split
  | |- forall t, _ = Some t -> _ => intros ? ?; simplify_eq
  | |- True => exact I
  | |- _ => ints
  end.

Lemma every_caller_answered_once_witness :
  exists e, eng_run sample_owner (two_requests ++ [EV_Deadline 5]) = Some e /\
    forall x, let '(e', report) := eng_shutdown e (mkChannels [CC_LoseObjectGeneration 7] [] [] [mkCompound [] None 9]) false (1, 0, false) in
    sent x (au_log (en_authority e')) = list_sum (given x) (two_requests ++ [EV_Deadline 5])
      + channels_given x (mkChannels [CC_LoseObjectGeneration 7] [] [] [mkCompound [] None 9]) - prep_channels x e /\
    clr_unresolved_requests report = 0.
Proof.
  set (events := two_requests ++ [EV_Deadline 5]). set (channels := mkChannels [CC_LoseObjectGeneration 7] [] [] [mkCompound [] None 9]).
  assert (Hok : run_ok sample_owner events) by (unfold events, two_requests; concrete_run).
  destruct (eng_run sample_owner events) as [e|] eqn:E; [|by vm_compute in E]. exists e. split; [done|]. intros x.
  assert (Hnew : new_ok 0 10 1 (mkLimits 10 1000) 5000000000) by concrete_new.
  pose proof (every_caller_answered_once 1 0 10 10 (mkLimits 10 1000) 5000000000 events e channels false (1, 0, false) x Hnew Hok E) as H.
  destruct (eng_shutdown _ _ _ _) as [e' report]. unfold dropped_at_shutdown in H. lia.
Defined.

(** The two callers of the requests and the caller of the compound get one reply each on this run, the caller of the control
    command none. *)
Example queued_control_is_dropped :
  match eng_run sample_owner (two_requests ++ [EV_Deadline 5]) with
  | Some e =>
      let '(e', _) := eng_shutdown e (mkChannels [CC_LoseObjectGeneration 7] [] [] [mkCompound [] None 9]) false (1, 0, false) in
      (fun x => sent x (au_log (en_authority e'))) <$> [2; 4; 9; 7] = [1; 1; 1; 0]
  | None => False
  end.
Proof. vm_compute. reflexivity. Qed.

Lemma owner_panics_only_below_witness :
  (exists e, eng_run sample_owner (two_requests ++ [EV_WriteDone 10 (WO_Sent None) false; EV_Dispatch]) = Some e) /\
  eng_run sample_owner [EV_Inbound; EV_InboundPanicked 0] = None.
Proof.
  split.
  - apply (owner_panics_only_below 1 0 10 10 (mkLimits 10 1000) 5000000000); [concrete_new|unfold two_requests; concrete_run|].
    repeat constructor; by intros [].
  - apply (owner_panics_only_below 1 0 10 10 (mkLimits 10 1000) 5000000000); [concrete_new| |right; left; exact I].
    eapply run_ok_step; [vm_compute; reflexivity|exact I|vm_compute; reflexivity|].
    cbn [run_ok]. split; [vm_compute; reflexivity|]. split; [exact I|]. exact I.
Defined.

(** a request whose deadline passes while its frame is queued is reported as timed out
    and its credits are given back, but the frame stays in the queue with its cancellation
    token untouched, and is written next. *)
Lemma expired_request_is_still_written :
  exists e w, eng_run sample_owner
      (two_requests ++ [EV_Deadline 5; EV_WriteDone 10 (WO_Sent None) false; EV_Dispatch]) = Some e /\
    (4, Rp_Terminal (Ok TO_TimedOut)) ∈ au_log (en_authority e) /\
    gs_available_credits (au_state (en_authority e)) = 9 /\
    en_active_write e = Some w /\ wc_key w = mkKey 1 1 /\
    wc_cancel_before_write w ∉ au_cancelled (en_authority e).
Proof.
  eexists _, _. split; [vm_compute; reflexivity|]. cbn [en_authority au_log]. split_and!.
  - right. right. left.
  - reflexivity.
  - reflexivity.
  - reflexivity.
  - apply (bool_decide_unpack _). vm_compute. exact I.
Qed.


(** Two operations submitted as one compound, and the first of them cancelled. *)
Definition cancelled_compound : list EngineEvent :=
  let operation := op_any_status (mkRequest (RC_Other Cmd_Create) None false) in
  [EV_Compound (mkCompound [operation; operation] None 1) (Some [[]]);
   EV_Control (CC_Cancel (mkKey 1 0) 3) None].

(** cancelling the first member of a queued compound removes the frame of all its
    members but cancels only the first: the second member stays open and pending, with no
    frame left that would send it and no deadline that would end it. *)
Lemma cancel_strands_compound_members :
  exists e, eng_run sample_owner cancelled_compound = Some e /\
    gs_terminal_outcome (au_state (en_authority e)) (mkKey 1 0) = Some TO_Cancelled /\
    caller_at (au_state (en_authority e)) (mkKey 1 1) = Some CO_Open /\
    is_Some (au_pending (en_authority e) !! mkKey 1 1) /\
    en_send_queue e = [] /\ en_active_write e = None /\ gs_deadlines (au_state (en_authority e)) = [].
Proof.
  eexists. split; [vm_compute; reflexivity|]. split_and!; try reflexivity. vm_compute. eauto.
Qed.
