(* ===== verification/RecoveryDriver.v ===== *)
(** The recovery driver (crates/smb/src/runtime/recovery_driver.rs): the task that reconnects a lost
    connection by what the coordinator of [Recovery] decides, the operations that wait for it in
    the queue of [ObjectState], and the calls that close it.

    The driver's two mutexes are never held together. A critical section of either is one event,
    and so is the choice a [select!] makes, so that the events of the recovering task, of the waiting
    operations and of the closing calls interleave wherever the code awaits. A call of [recover] is
    where its task stands ([RecoverTask]); a call of [resolve_dependency] that has to wait is an entry
    of [dv_waiters]; calls of [close] are counted by how far they got. The supervisor in connection.rs
    awaits one call of [recover] before it makes the next. *)
From S2P Require Import Prelude Clock Reducer ObjectState ObjectQueue Recovery Engine.
Local Open Scope Z_scope.

(** ** Data *)

Inductive GenerationExitCause := EX_ExplicitClose | EX_Transport (e : RuntimeError) | EX_HandlesDropped.

Record GenerationExit := mkExit { ge_generation : GenerationId; ge_cause : GenerationExitCause }.

Inductive RecoveryError :=
| RE_NotRecoverable | RE_Closed | RE_AttemptsExhausted | RE_StaleGeneration | RE_GenerationExhausted
| RE_MismatchedGeneration | RE_QueueFull | RE_DependencyNotConnection | RE_WaitTimedOut
| RE_WaitCancelled | RE_WaitFailed.

#[export] Instance RecoveryError_eq : EqDecision RecoveryError.
Proof. solve_decision. Defined.

(** The sender of a completion is named by the identity of its wait. *)
Record RecoveryAdmissions := mkAdmissions {
  ra_active_connection : ObjectToken;
  ra_recovering : bool;
  ra_queue : RecoveryQueue;
  ra_completions : gset Z
}.

#[export] Instance eta_RecoveryAdmissions : Eta RecoveryAdmissions := fun a =>
  mkAdmissions (ra_active_connection a) (ra_recovering a) (ra_queue a) (ra_completions a).

Abbreviation WaitResult := (result RecoveryError ObjectToken).

(** Where a call of [recover] stands: before it locks the coordinator, before [begin_recovery], at the
    head of the loop of [drive_attempts], before it tells the coordinator that it woke or what came
    of an attempt, and before it finishes or fails the waiters. *)
Inductive RecoverTask :=
| TK_Idle
| TK_Recover (generation next : GenerationId)
| TK_Begin (generation next : GenerationId) (effect : option RecoveryEffect)
| TK_Drive (next : GenerationId) (effect : option RecoveryEffect)
| TK_Wake (next : GenerationId) (at_ : MonotonicTime)
| TK_Attempted (next : GenerationId) (result : result RuntimeError ObjectToken)
| TK_Finish (replacement : ObjectToken)
| TK_Fail (error : RecoveryError).

(** Where a waiting call of [resolve_dependency] stands: in its [select!], with what has been sent on
    its channel, or past it and about to remove itself from the queue. *)
Inductive Waiter :=
| WA_Parked (deadline : MonotonicTime) (reply : option WaitResult)
| WA_Removing (error : RecoveryError).

Record RecoveryDriver := mkDriver {
  dv_coordinator : RecoveryCoordinator;
  dv_admissions : RecoveryAdmissions;
  dv_default_wait : Duration;
  dv_closed : bool;
  dv_task : RecoverTask;
  dv_waiters : gmap Z Waiter;
  dv_cancelled : nat;
  dv_reduced : nat
}.

#[export] Instance eta_RecoveryDriver : Eta RecoveryDriver := fun d =>
  mkDriver (dv_coordinator d) (dv_admissions d) (dv_default_wait d) (dv_closed d) (dv_task d)
    (dv_waiters d) (dv_cancelled d) (dv_reduced d).

Inductive DriverEvent :=
| DE_Recover (exit : GenerationExit)
| DE_TransportLost (now : MonotonicTime)
| DE_Begin
| DE_SawClosed
| DE_Slept
| DE_Woke (now : MonotonicTime)
| DE_Bootstrapped (result : result RuntimeError ObjectToken)
| DE_AttemptEnded (now : MonotonicTime) (jitter : Duration)
| DE_Ended
| DE_FinishRecovery
| DE_FailWaiters
| DE_Resolve (dependency : ObjectToken) (deadline : option MonotonicTime) (now : MonotonicTime)
| DE_Completed (id : Z)
| DE_Expired (id : Z) (now : MonotonicTime)
| DE_Cancelled (id : Z)
| DE_RemoveWait (id : Z)
| DE_Dropped (id : Z)
| DE_Close
| DE_CloseReduce
| DE_CloseFail
| DE_Abandon.

(** What the callers and the connection see. *)
Inductive DriverOutput :=
| DO_Recovered (r : result RecoveryError ObjectToken)
| DO_Published (replacement : ObjectToken)
| DO_Resolved (r : WaitResult)
| DO_Answered (id : Z) (r : WaitResult).

(** ** Operations *)

Definition driver_new (connection : ObjectToken) (policy : RecoveryPolicy) : RecoveryDriver :=
  mkDriver (rc_new (ot_generation connection) policy)
    (mkAdmissions connection false (rq_new (rp_max_waiting_operations policy)) ∅)
    (rp_total_timeout policy) false TK_Idle ∅ 0 0.

(** [RecoveryDriver::reduce] *)
Definition driver_reduce (d : RecoveryDriver) (event : RecoveryEvent) : RecoveryDriver * option RecoveryEffect :=
  let '(c, effect) := rc_reduce (dv_coordinator d) event in
  (d <| dv_coordinator := c |>, effect).

(** The sender's half of a completion: a call that is still in its [select!] gets the value. *)
Definition send (waiters : gmap Z Waiter) (id : Z) (r : WaitResult) : gmap Z Waiter :=
  match waiters !! id with
  | Some (WA_Parked deadline None) => <[id := WA_Parked deadline (Some r)]> waiters
  | _ => waiters
  end.

Fixpoint complete_waits (completions : gset Z) (waiters : gmap Z Waiter) (outcomes : list RecoveryWaitOutcome)
    (replacement : option ObjectToken) : gset Z * gmap Z Waiter :=
  match outcomes with
  | [] => (completions, waiters)
  | outcome :: outcomes =>
      let id := outcome_id outcome in
      if decide (id ∈ completions) then
        let r := match outcome, replacement with
                 | RW_Ready _, Some replacement => Ok replacement
                 | _, _ => Err RE_WaitFailed
                 end in
        complete_waits (completions ∖ {[ id ]}) (send waiters id r) outcomes replacement
      else complete_waits completions waiters outcomes replacement
  end.

Definition begin_recovery (a : RecoveryAdmissions) (generation : GenerationId)
    : RecoveryAdmissions * result RecoveryError unit :=
  if bool_decide (ot_generation (ra_active_connection a) ≠ generation) || ra_recovering a
  then (a, Err RE_StaleGeneration)
  else (a <| ra_recovering := true |>, Ok tt).

Definition finish_recovery (d : RecoveryDriver) (replacement : ObjectToken) : RecoveryDriver :=
  let a := dv_admissions d in
  let previous := ra_active_connection a in
  let queue := rq_publish_replacement (ra_queue a) (OB_ReplacementPublished previous replacement) in
  let '(queue, outcomes) := rq_release_dependency queue replacement in
  let '(completions, waiters) := complete_waits (ra_completions a) (dv_waiters d) outcomes (Some replacement) in
  d <| dv_admissions := mkAdmissions replacement false queue completions |> <| dv_waiters := waiters |>.

Definition fail_waiters (d : RecoveryDriver) : RecoveryDriver :=
  let a := dv_admissions d in
  let '(queue, outcomes) := rq_fail_all (ra_queue a) in
  let '(completions, waiters) := complete_waits (ra_completions a) (dv_waiters d) outcomes None in
  d <| dv_admissions := mkAdmissions (ra_active_connection a) false queue completions |> <| dv_waiters := waiters |>.

Definition remove_wait (a : RecoveryAdmissions) (id : Z) : RecoveryAdmissions :=
  a <| ra_queue := (rq_cancel (ra_queue a) id).1 |> <| ra_completions := ra_completions a ∖ {[ id ]} |>.

(** The part of [recover] before it takes a lock. *)
Definition recover_start (d : RecoveryDriver) (exit : GenerationExit) : result RecoveryError RecoverTask :=
  match ge_cause exit with
  | EX_Transport _ =>
      if dv_closed d then Err RE_Closed
      else match generation_checked_next (ge_generation exit) with
           | None => Err RE_GenerationExhausted
           | Some next => Ok (TK_Recover (ge_generation exit) next)
           end
  | _ => Err RE_NotRecoverable
  end.

(** What [drive_attempts] does after an attempt. A candidate of the wrong generation is closed. *)
Definition attempt_ended (d : RecoveryDriver) (next : GenerationId) (r : result RuntimeError ObjectToken)
    (now : MonotonicTime) (jitter : Duration) : RecoveryDriver * list DriverOutput :=
  match r with
  | Ok candidate =>
      if bool_decide (ot_generation candidate = next) then
        let '(d, published) := driver_reduce d (RCE_AttemptSucceeded next) in
        match published with
        | Some (RCF_PublishGeneration generation) =>
            if bool_decide (generation = next)
            then (d <| dv_task := TK_Finish candidate |>, [DO_Published candidate])
            else (d <| dv_task := TK_Fail RE_Closed |>, [])
        | _ => (d <| dv_task := TK_Fail RE_Closed |>, [])
        end
      else (d <| dv_task := TK_Fail RE_MismatchedGeneration |>, [])
  | Err RT_Closed => (d <| dv_task := TK_Fail RE_Closed |>, [])
  | Err _ =>
      let '(d, effect) := driver_reduce d (RCE_AttemptFailed now jitter) in
      (d <| dv_task := TK_Drive next effect |>, [])
  end.

(** The first critical section of [resolve_dependency]. *)
Definition resolve_dependency (d : RecoveryDriver) (dependency : ObjectToken) (deadline : option MonotonicTime)
    (now : MonotonicTime) : RecoveryDriver * list DriverOutput :=
  let a := dv_admissions d in
  if negb (ra_recovering a) then (d, [DO_Resolved (Ok dependency)])
  else if bool_decide (dependency ≠ ra_active_connection a) then (d, [DO_Resolved (Err RE_DependencyNotConnection)])
  else
    let deadline := default (time_add now (dv_default_wait d)) deadline in
    let '(queue, r) := rq_enqueue (ra_queue a) dependency (Some deadline) in
    let d' := d <| dv_admissions := a <| ra_queue := queue |> |> in
    match r with
    | Err RQE_Full => (d', [DO_Resolved (Err RE_QueueFull)])
    | Err RQE_IdExhausted => (d', [DO_Resolved (Err RE_WaitFailed)])
    | Ok id =>
        (d' <| dv_admissions := a <| ra_queue := queue |> <| ra_completions := {[ id ]} ∪ ra_completions a |> |>
            <| dv_waiters := <[id := WA_Parked deadline None]> (dv_waiters d) |>, [])
    end.

(** ** The steps *)

(** Steps of the call of [recover]. A sleep ends no earlier than its instant, and a [select!] of this
    call takes the branch of the closed token first. *)
Definition task_step (d : RecoveryDriver) (event : DriverEvent) : option (RecoveryDriver * list DriverOutput) :=
  match dv_task d, event with
  | TK_Idle, DE_Recover exit =>
      match recover_start d exit with
      | Ok task => Some (d <| dv_task := task |>, [])
      | Err error => Some (d, [DO_Recovered (Err error)])
      end
  | TK_Recover generation next, DE_TransportLost now =>
      match rc_state (dv_coordinator d) with
      | RS_Connected active =>
          if bool_decide (active = generation) then
            let '(d, effect) := driver_reduce d (RCE_TransportLost generation now) in
            Some (d <| dv_task := TK_Begin generation next effect |>, [])
          else Some (d <| dv_task := TK_Idle |>, [DO_Recovered (Err RE_StaleGeneration)])
      | _ => Some (d <| dv_task := TK_Idle |>, [DO_Recovered (Err RE_StaleGeneration)])
      end
  | TK_Begin generation next effect, DE_Begin =>
      match begin_recovery (dv_admissions d) generation with
      | (a, Ok _) => Some (d <| dv_admissions := a |> <| dv_task := TK_Drive next effect |>, [])
      | (a, Err error) => Some (d <| dv_admissions := a |> <| dv_task := TK_Idle |>, [DO_Recovered (Err error)])
      end
  | TK_Drive next (Some (RCF_ScheduleAttempt _ at_)), DE_SawClosed
  | TK_Drive next (Some (RCF_StartAttempt _ at_)), DE_SawClosed =>
      if dv_closed d then Some (d <| dv_task := TK_Fail RE_Closed |>, []) else None
  | TK_Drive next (Some (RCF_ScheduleAttempt _ at_)), DE_Slept =>
      if dv_closed d then None else Some (d <| dv_task := TK_Wake next at_ |>, [])
  | TK_Wake next at_, DE_Woke now =>
      if bool_decide (at_ <= now) then
        let '(d, effect) := driver_reduce d (RCE_Wake now) in
        Some (d <| dv_task := TK_Drive next effect |>, [])
      else None
  | TK_Drive next (Some (RCF_StartAttempt _ deadline)), DE_Bootstrapped r =>
      if dv_closed d then None else Some (d <| dv_task := TK_Attempted next r |>, [])
  | TK_Attempted next r, DE_AttemptEnded now jitter => Some (attempt_ended d next r now jitter)
  | TK_Drive next (Some RCF_RecoveryFailed), DE_Ended => Some (d <| dv_task := TK_Fail RE_AttemptsExhausted |>, [])
  | TK_Drive next (Some RCF_Closed), DE_Ended
  | TK_Drive next None, DE_Ended => Some (d <| dv_task := TK_Fail RE_Closed |>, [])
  | TK_Drive next (Some (RCF_PublishGeneration _)), DE_Ended => Some (d <| dv_task := TK_Fail RE_Closed |>, [])
  | TK_Finish replacement, DE_FinishRecovery =>
      Some ((finish_recovery d replacement) <| dv_task := TK_Idle |>, [DO_Recovered (Ok replacement)])
  | TK_Fail error, DE_FailWaiters => Some ((fail_waiters d) <| dv_task := TK_Idle |>, [DO_Recovered (Err error)])
  | _, _ => None
  end.

Definition is_task_event (event : DriverEvent) : bool :=
  match event with
  | DE_Recover _ | DE_TransportLost _ | DE_Begin | DE_SawClosed | DE_Slept | DE_Woke _ | DE_Bootstrapped _
  | DE_AttemptEnded _ _ | DE_Ended | DE_FinishRecovery | DE_FailWaiters => true
  | _ => false
  end.

(** Steps of the calls of [resolve_dependency], whose [select!] takes any branch that is ready, and
    of [close] and [abandon]. A waiting call may be dropped with its entry left in the queue. *)
Definition caller_step (d : RecoveryDriver) (event : DriverEvent) : option (RecoveryDriver * list DriverOutput) :=
  match event with
  | DE_Resolve dependency deadline now => Some (resolve_dependency d dependency deadline now)
  | DE_Completed id =>
      match dv_waiters d !! id with
      | Some (WA_Parked _ (Some r)) => Some (d <| dv_waiters := delete id (dv_waiters d) |>, [DO_Answered id r])
      | _ => None
      end
  | DE_Expired id now =>
      match dv_waiters d !! id with
      | Some (WA_Parked deadline _) =>
          if bool_decide (deadline <= now)
          then Some (d <| dv_waiters := <[id := WA_Removing RE_WaitTimedOut]> (dv_waiters d) |>, []) else None
      | _ => None
      end
  | DE_Cancelled id =>
      match dv_waiters d !! id with
      | Some (WA_Parked _ _) => Some (d <| dv_waiters := <[id := WA_Removing RE_WaitCancelled]> (dv_waiters d) |>, [])
      | _ => None
      end
  | DE_RemoveWait id =>
      match dv_waiters d !! id with
      | Some (WA_Removing error) =>
          Some (d <| dv_admissions := remove_wait (dv_admissions d) id |>
                  <| dv_waiters := delete id (dv_waiters d) |>, [DO_Answered id (Err error)])
      | _ => None
      end
  | DE_Dropped id =>
      match dv_waiters d !! id with
      | Some _ => Some (d <| dv_waiters := delete id (dv_waiters d) |>, [])
      | None => None
      end
  | DE_Close => Some (d <| dv_closed := true |> <| dv_cancelled := S (dv_cancelled d) |>, [])
  | DE_CloseReduce =>
      match dv_cancelled d with
      | O => None
      | S n => Some (((driver_reduce d RCE_Close).1) <| dv_cancelled := n |> <| dv_reduced := S (dv_reduced d) |>, [])
      end
  | DE_CloseFail =>
      match dv_reduced d with
      | O => None
      | S n => Some ((fail_waiters d) <| dv_reduced := n |>, [])
      end
  | DE_Abandon => Some (d <| dv_closed := true |>, [])
  | _ => None
  end.

Definition driver_step (d : RecoveryDriver) (event : DriverEvent) : option (RecoveryDriver * list DriverOutput) :=
  if is_task_event event then task_step d event else caller_step d event.

(** A schedule of events, each of which can happen when it does. *)
Fixpoint driver_run (d : RecoveryDriver) (events : list DriverEvent) : option (RecoveryDriver * list DriverOutput) :=
  match events with
  | [] => Some (d, [])
  | event :: events =>
      match driver_step d event with
      | None => None
      | Some (d, outputs) =>
          match driver_run d events with
          | None => None
          | Some (d, outputs') => Some (d, outputs ++ outputs')
          end
      end
  end.

(** What holds in every state of the recovery driver, and what its events do to the operations that wait. *)

(** ** The waits *)

(** The admissions and the waiting calls agree: a call that has not been answered is in the queue with its
    completion, everything in the queue waits for the active connection, and when no recovery is in
    progress nothing waits. *)
Record waits_inv (a : RecoveryAdmissions) (ws : gmap Z Waiter) : Prop := {
  wi_queue : queue_wf (ra_queue a);
  wi_completions : forall id, id ∈ ra_completions a <-> id ∈ wait_ids (ra_queue a);
  wi_dependencies : Forall (fun w => rw_dependency w = ra_active_connection a) (rq_waits (ra_queue a));
  wi_idle : ra_recovering a = false -> rq_waits (ra_queue a) = [];
  wi_parked : forall id deadline, ws !! id = Some (WA_Parked deadline None) -> id ∈ wait_ids (ra_queue a);
  wi_unanswered : forall id deadline r, ws !! id = Some (WA_Parked deadline (Some r)) -> id ∉ wait_ids (ra_queue a);
  wi_fresh : forall id n, is_Some (ws !! id) -> rq_next_id (ra_queue a) = Some n -> id < n
}.

(** What a call in its [select!] looks like once [r] has been sent to all that had no answer. *)
Definition answer (r : WaitResult) (w : Waiter) : Waiter :=
  match w with WA_Parked deadline None => WA_Parked deadline (Some r) | _ => w end.

Lemma send_lookup ws id r id' :
  send ws id r !! id' = if bool_decide (id = id') then answer r <$> ws !! id' else ws !! id'.
Proof.
  unfold send. case_bool_decide as E.
  - subst id'. destruct (ws !! id) as [[deadline [r'|]|e]|] eqn:Ew; rewrite ?Ew; try done.
    by rewrite lookup_insert_eq.
  - destruct (ws !! id) as [[deadline [r'|]|e]|]; try done. by rewrite lookup_insert_ne.
Qed.

Lemma complete_waits_spec repl r os : forall (C : gset Z) ws,
  NoDup (outcome_id <$> os) ->
  Forall (fun o => outcome_id o ∈ C) os ->
  Forall (fun o => match o, repl with RW_Ready _, Some t => Ok t | _, _ => Err RE_WaitFailed end = r) os ->
  let '(C', ws') := complete_waits C ws os repl in
  C' = C ∖ list_to_set (outcome_id <$> os) /\
  forall id, ws' !! id = if bool_decide (id ∈ outcome_id <$> os) then answer r <$> ws !! id else ws !! id.
Proof.
  induction os as [|o os IH]; intros C ws Hnd Hin Hr; cbn [complete_waits].
  { cbn. split; [set_solver|done]. }
  apply Forall_cons in Hin as [Ho Hin]. apply Forall_cons in Hr as [Er Hr].
  cbn in Hnd. apply NoDup_cons in Hnd as [Hni Hnd]. rewrite decide_True by done. rewrite Er.
  specialize (IH (C ∖ {[outcome_id o]}) (send ws (outcome_id o) r) Hnd).
  destruct (complete_waits _ _ os repl) as [C' ws']. destruct IH as [-> IH]; [|done|].
  { rewrite Forall_forall in Hin |- *. intros o' Ho'. apply elem_of_difference. split; [by apply Hin|].
    intros E. apply elem_of_singleton in E. apply Hni. rewrite <- E. by apply list_elem_of_fmap_2. }
  split; [cbn; set_solver|]. intros id. rewrite IH, send_lookup. cbn [fmap list_fmap].
  destruct (decide (outcome_id o = id)) as [<-|Hne].
  - rewrite (bool_decide_eq_false_2 (_ ∈ _ <$> os)) by done. rewrite !bool_decide_eq_true_2; [done|set_solver|done].
  - rewrite (bool_decide_eq_false_2 (outcome_id o = id)) by done.
    assert (E : id ∈ outcome_id o :: (outcome_id <$> os) <-> id ∈ outcome_id <$> os) by set_solver.
    by rewrite (bool_decide_ext _ _ E).
Qed.

Lemma retain_all leaves report waits :
  Forall (fun w => leaves w = true) waits -> retain leaves report waits = ([], (fun w => report (rw_id w)) <$> waits).
Proof.
  induction 1 as [|w waits Hw Hws IH]; [done|]. cbn [retain]. by rewrite IH, Hw.
Qed.

Lemma queue_ids_nodup q : queue_wf q -> NoDup (wait_ids q).
Proof.
  intros [_ Hs _ _]. induction Hs as [|x l Hs IH Hx]; constructor; [|done].
  intros Hin. rewrite Forall_forall in Hx. specialize (Hx x Hin). lia.
Qed.

(** Both ways a recovery ends empty the queue and answer every waiting call, with the same answer. *)
Lemma drain_waits a ws repl r active report :
  waits_inv a ws -> (forall id, outcome_id (report id) = id) ->
  (forall id, match report id, repl with RW_Ready _, Some t => Ok t | _, _ => Err RE_WaitFailed end = r) ->
  let os := (fun w => report (rw_id w)) <$> rq_waits (ra_queue a) in
  complete_waits (ra_completions a) ws os repl = (∅, answer r <$> ws) /\
  forall q, rq_capacity q = rq_capacity (ra_queue a) -> rq_next_id q = rq_next_id (ra_queue a) -> rq_waits q = [] ->
    waits_inv (mkAdmissions active false q ∅) (answer r <$> ws).
Proof.
  intros [I1 I2 I3 I4 I5 I6 I7] Hid Hr os.
  assert (Eids : outcome_id <$> os = wait_ids (ra_queue a)).
  { unfold os. rewrite <- list_fmap_compose. apply list_fmap_ext. intros ? w _. cbn. by rewrite Hid. }
  split.
  - pose proof (complete_waits_spec repl r os (ra_completions a) ws) as H.
    destruct (complete_waits _ ws os repl) as [C' ws']. destruct H as [-> H].
    + rewrite Eids. by apply queue_ids_nodup.
    + rewrite Forall_forall. intros o Ho. rewrite I2, <- Eids. by apply list_elem_of_fmap_2.
    + unfold os. rewrite Forall_fmap, Forall_forall. intros w _. apply Hr.
    + f_equal.
      * rewrite Eids. apply set_eq. intros id. rewrite elem_of_difference, I2, elem_of_list_to_set. set_solver.
      * apply map_eq. intros id. rewrite H, Eids, lookup_fmap. case_bool_decide as Hd; [done|].
        destruct (ws !! id) as [[deadline [r'|]|e]|] eqn:Ew; try done. by apply I5 in Ew.
  - intros q E1 E2 E3. split; cbn.
    + destruct I1 as [W1 W2 W3 W4]. split; rewrite ?E3, ?E1, ?E2; cbn.
      * lia.
      * constructor.
      * intros n Hn. destruct (W3 n Hn). by split.
      * done.
    + rewrite E3. set_solver.
    + by rewrite E3.
    + done.
    + intros id deadline. rewrite lookup_fmap. destruct (ws !! id) as [[d [r'|]|e]|]; done.
    + rewrite E3. set_solver.
    + intros id n Hs. rewrite E2. apply I7. rewrite lookup_fmap in Hs. by destruct (ws !! id); [|destruct Hs].
Qed.

Lemma fail_waiters_spec d :
  waits_inv (dv_admissions d) (dv_waiters d) ->
  exists q, fail_waiters d =
    d <| dv_admissions := mkAdmissions (ra_active_connection (dv_admissions d)) false q ∅ |>
      <| dv_waiters := answer (Err RE_WaitFailed) <$> dv_waiters d |> /\
    rq_next_id q = rq_next_id (ra_queue (dv_admissions d)) /\
    waits_inv (mkAdmissions (ra_active_connection (dv_admissions d)) false q ∅)
      (answer (Err RE_WaitFailed) <$> dv_waiters d).
Proof.
  intros I. destruct (drain_waits _ _ None (Err RE_WaitFailed) (ra_active_connection (dv_admissions d))
    RW_AncestorFailed I) as [E H]; [done..|].
  unfold fail_waiters, rq_fail_all. rewrite E. eexists. split; [reflexivity|]. split; [done|]. by apply H.
Qed.

Lemma finish_recovery_spec d t :
  waits_inv (dv_admissions d) (dv_waiters d) ->
  exists q, finish_recovery d t =
    d <| dv_admissions := mkAdmissions t false q ∅ |> <| dv_waiters := answer (Ok t) <$> dv_waiters d |> /\
    rq_next_id q = rq_next_id (ra_queue (dv_admissions d)) /\
    waits_inv (mkAdmissions t false q ∅) (answer (Ok t) <$> dv_waiters d).
Proof.
  intros I. destruct (drain_waits _ _ (Some t) (Ok t) t RW_Ready I) as [E H]; [done..|].
  pose proof (wi_dependencies _ _ I) as Hd.
  unfold finish_recovery, rq_release_dependency, rq_retain, rq_publish_replacement. cbn -[complete_waits].
  rewrite retain_all.
  - rewrite <- list_fmap_compose.
    rewrite (list_fmap_ext _ (fun w => RW_Ready (rw_id w))) by (intros ? w _; cbn; by case_bool_decide).
    rewrite E. eexists. split; [reflexivity|]. split; [done|]. by apply H.
  - rewrite Forall_fmap. eapply Forall_impl; [exact Hd|]. intros w Hw. cbn. rewrite Hw.
    rewrite (bool_decide_eq_true_2 (_ = ra_active_connection _)) by done. by apply bool_decide_eq_true_2.
Qed.

Lemma waits_inv_enqueue a ws deadline q id :
  waits_inv a ws -> ra_recovering a = true ->
  rq_enqueue (ra_queue a) (ra_active_connection a) (Some deadline) = (q, Ok id) ->
  waits_inv (a <| ra_queue := q |> <| ra_completions := {[ id ]} ∪ ra_completions a |>)
    (<[id := WA_Parked deadline None]> ws).
Proof.
  intros [I1 I2 I3 I4 I5 I6 I7] Hrec Henq.
  pose proof (rq_apply_wf (ra_queue a) (QO_Enqueue (ra_active_connection a) (Some deadline)) I1) as Hwf.
  cbn in Hwf. rewrite Henq in Hwf. cbn in Hwf.
  unfold rq_enqueue in Henq. case_bool_decide as Hcap; [done|].
  destruct (rq_next_id (ra_queue a)) as [n|] eqn:En; [|done]. injection Henq as <- <-.
  assert (Hni : n ∉ wait_ids (ra_queue a)).
  { destruct (qw_next _ I1 n En) as [_ Hlt]. rewrite Forall_forall in Hlt. intros Hin. specialize (Hlt n Hin). lia. }
  assert (Hids : forall i, i ∈ wait_ids (ra_queue a) ++ [n] <-> i ∈ wait_ids (ra_queue a) \/ i = n) by set_solver.
  split; cbn; try done.
  - intros i. rewrite fmap_app. cbn. rewrite Hids, elem_of_union, elem_of_singleton, I2. tauto.
  - rewrite Forall_app. split; [done|]. by repeat constructor.
  - congruence.
  - intros i dl. rewrite fmap_app. cbn. rewrite Hids. intros Hi. destruct (decide (i = n)) as [->|Hne]; [by right|].
    rewrite lookup_insert_ne in Hi by done. left. by eapply I5.
  - intros i dl r. rewrite fmap_app. cbn. rewrite Hids. intros Hi.
    destruct (decide (i = n)) as [->|Hne]; [by rewrite lookup_insert_eq in Hi|].
    rewrite lookup_insert_ne in Hi by done. specialize (I6 _ _ _ Hi). tauto.
  - intros i m Hi Hm. unfold checked_add in Hm. case_bool_decide; [|done]. injection Hm as <-.
    destruct (decide (i = n)) as [->|Hne]; [lia|]. rewrite lookup_insert_ne in Hi by done. specialize (I7 i n Hi eq_refl). lia.
Qed.

(** A call that is not answered by the queue can go whenever it likes. *)
Lemma waits_inv_move a ws ws' :
  waits_inv a ws ->
  (forall id w, ws' !! id = Some w -> match w with WA_Parked _ _ => ws !! id = Some w | _ => is_Some (ws !! id) end) ->
  waits_inv a ws'.
Proof.
  intros [I1 I2 I3 I4 I5 I6 I7] H. split; try done.
  - intros id deadline Hi. apply (I5 id deadline). by apply (H _ _ Hi).
  - intros id deadline r Hi. apply (I6 id deadline r). by apply (H _ _ Hi).
  - intros id n [w Hw]. apply I7. specialize (H id w Hw). destruct w; [by eexists|done].
Qed.

Lemma waits_inv_delete a ws id : waits_inv a ws -> waits_inv a (delete id ws).
Proof.
  intros I. apply (waits_inv_move _ _ _ I). intros i w Hi. apply lookup_delete_Some in Hi as [_ Hi].
  destruct w; [done|by eexists].
Qed.

Lemma waits_inv_removing a ws id e w :
  waits_inv a ws -> ws !! id = Some w -> waits_inv a (<[id := WA_Removing e]> ws).
Proof.
  intros I Hw. apply (waits_inv_move _ _ _ I). intros i w' Hi. apply lookup_insert_Some in Hi as [[<- <-]|[_ Hi]].
  - by eexists.
  - destruct w'; [done|by eexists].
Qed.

Lemma list_filter_all {A} (P : A -> Prop) `{!forall x, Decision (P x)} (l : list A) : Forall P l -> filter P l = l.
Proof. induction 1 as [|x l Hx _ IH]; [done|]. by rewrite filter_cons_True, IH. Qed.

Lemma wait_position_filter id waits :
  NoDup (rw_id <$> waits) ->
  match wait_position id waits with
  | None => id ∉ rw_id <$> waits
  | Some i => delete i waits = filter (fun w => rw_id w ≠ id) waits
  end.
Proof.
  induction waits as [|w waits IH]; intros Hnd; [cbn; set_solver|]. cbn [wait_position].
  apply NoDup_cons in Hnd as [Hni Hnd]. specialize (IH Hnd). case_bool_decide as Hw.
  - cbn [delete list_delete]. rewrite filter_cons_False by (intros H; by apply H). symmetry. apply list_filter_all.
    rewrite Forall_forall. intros w' Hw'. intros E. apply Hni. rewrite Hw, <- E. by apply list_elem_of_fmap_2.
  - destruct (wait_position id waits) as [i|]; cbn [fmap option_fmap option_map delete list_delete]; [|set_solver].
    rewrite filter_cons_True by done. f_equal. exact IH.
Qed.

Lemma rq_cancel_waits q id :
  queue_wf q -> rq_waits (rq_cancel q id).1 = filter (fun w => rw_id w ≠ id) (rq_waits q).
Proof.
  intros Hwf. pose proof (wait_position_filter id (rq_waits q) (queue_ids_nodup q Hwf)) as H. unfold rq_cancel.
  destruct (wait_position id (rq_waits q)) as [i|]; cbn; [done|]. symmetry. apply list_filter_all.
  rewrite Forall_forall. intros w Hw E. apply H. rewrite <- E. by apply list_elem_of_fmap_2.
Qed.

Lemma waits_inv_remove a ws id : waits_inv a ws -> waits_inv (remove_wait a id) (delete id ws).
Proof.
  intros I. pose proof I as [I1 I2 I3 I4 I5 I6 I7].
  pose proof (rq_cancel_drops (ra_queue a) id) as D. pose proof (queue_wf_drops _ _ _ D I1) as Hwf.
  assert (Hids : forall i, i ∈ wait_ids (rq_cancel (ra_queue a) id).1 <-> i ∈ wait_ids (ra_queue a) /\ i ≠ id).
  { intros i. rewrite (rq_cancel_waits _ _ I1), !list_elem_of_fmap. split.
    - intros (w & -> & Hw). apply list_elem_of_filter in Hw as [? ?]. split; [by exists w|done].
    - intros [(w & -> & Hw) Hne]. exists w. split; [done|]. by apply list_elem_of_filter. }
  split; unfold remove_wait; cbn -[rq_cancel]; try done.
  - intros i. rewrite Hids, elem_of_difference, elem_of_singleton, I2. tauto.
  - rewrite (rq_cancel_waits _ _ I1). by eapply Forall_sublist; [apply sublist_filter|].
  - intros Hrec. by rewrite (rq_cancel_waits _ _ I1), (I4 Hrec).
  - intros i deadline Hi. apply lookup_delete_Some in Hi as [Hne Hi]. apply Hids. split; [by eapply I5|done].
  - intros i deadline r Hi. apply lookup_delete_Some in Hi as [Hne Hi]. rewrite Hids. intros [Hin _]. by eapply I6.
  - intros i n Hi. rewrite (dr_next _ _ _ D). apply I7. destruct Hi as [w Hi].
    apply lookup_delete_Some in Hi as [_ Hi]. by eexists.
Qed.

(** ** The task *)

(** The task has begun a recovery and has not ended it. *)
Definition task_recovering (t : RecoverTask) : bool :=
  match t with TK_Idle | TK_Recover _ _ | TK_Begin _ _ _ => false | _ => true end.

(** What the coordinator is waiting for when the task holds this effect; [close] may have come in
    between. *)
Definition effect_of (effect : option RecoveryEffect) (s : RecoveryState) : Prop :=
  match effect with
  | Some (RCF_ScheduleAttempt _ at_) => s = RS_Closed \/ exists attempt total, s = RS_Waiting attempt at_ total
  | Some (RCF_StartAttempt _ _) => s = RS_Closed \/ exists attempt deadline total, s = RS_Connecting attempt deadline total
  | Some (RCF_PublishGeneration _) => False
  | _ => terminal_state s = true
  end.

Definition task_state (t : RecoverTask) (active : ObjectToken) (s : RecoveryState) : Prop :=
  match t with
  | TK_Idle | TK_Recover _ _ => forall g, s = RS_Connected g -> ot_generation active = g
  | TK_Begin generation _ effect => ot_generation active = generation /\ effect_of effect s
  | TK_Drive _ effect => effect_of effect s
  | TK_Wake _ at_ => s = RS_Closed \/ exists attempt total, s = RS_Waiting attempt at_ total
  | TK_Attempted _ _ => s = RS_Closed \/ exists attempt deadline total, s = RS_Connecting attempt deadline total
  | TK_Finish replacement => s = RS_Closed \/ s = RS_Connected (ot_generation replacement)
  | TK_Fail _ => forall g, s <> RS_Connected g
  end.

Record driver_inv (d : RecoveryDriver) : Prop := {
  di_waits : waits_inv (dv_admissions d) (dv_waiters d);
  di_recovering : ra_recovering (dv_admissions d) = true -> task_recovering (dv_task d) = true;
  di_task : task_state (dv_task d) (ra_active_connection (dv_admissions d)) (rc_state (dv_coordinator d))
}.

Lemma driver_inv_new connection policy : driver_inv (driver_new connection policy).
Proof.
  split; cbn; [|done|].
  - split; cbn; try done.
    + apply queue_wf_new.
    + set_solver.
    + intros id n [w Hw]. by rewrite lookup_empty in Hw.
  - by intros g [= ->].
Qed.

Lemma effect_of_closed effect s : effect_of effect s -> effect_of effect RS_Closed.
Proof. destruct effect as [[]|]; cbn; auto. Qed.

Lemma task_state_close t active c :
  task_state t active (rc_state c) -> task_state t active (rc_state (rc_reduce c RCE_Close).1).
Proof.
  intros H. assert (Hs : (rc_reduce c RCE_Close).1 = c \/ rc_state (rc_reduce c RCE_Close).1 = RS_Closed).
  { unfold rc_reduce. destruct (rc_state c); cbn; auto. }
  destruct Hs as [->| ->]; [done|].
  destruct t; cbn in *; try done; try (by left); [by split; [|eapply effect_of_closed]; apply H|by eapply effect_of_closed].
Qed.

Lemma resolve_dependency_inv d dependency deadline now :
  driver_inv d -> driver_inv (resolve_dependency d dependency deadline now).1.
Proof.
  intros I. pose proof I as [I1 I2 I3]. unfold resolve_dependency.
  destruct (ra_recovering (dv_admissions d)) eqn:Hrec; [|done]. cbn [negb].
  case_bool_decide as Hd; [done|]. subst dependency. set (dl := default _ deadline).
  destruct (rq_enqueue _ _ (Some dl)) as [q [id|e]] eqn:Eq.
  - split; cbn; [|by rewrite ?Hrec|done].
    pose proof (waits_inv_enqueue _ _ _ _ _ I1 Hrec Eq) as H. by destruct (dv_admissions d).
  - assert (q = ra_queue (dv_admissions d)) as ->.
    { unfold rq_enqueue in Eq. case_bool_decide; [congruence|]. by destruct (rq_next_id _); congruence. }
    destruct e; cbn; (split; cbn; [by destruct (dv_admissions d)|by rewrite ?Hrec|done]).
Qed.

Lemma caller_step_inv d e d' os : caller_step d e = Some (d', os) -> driver_inv d -> driver_inv d'.
Proof.
  intros Hs I. pose proof I as [I1 I2 I3]. destruct e; cbn -[fail_waiters resolve_dependency driver_reduce] in Hs; try done.
  - injection Hs as Hs. pose proof (resolve_dependency_inv d dependency deadline now I) as H. by rewrite Hs in H.
  - repeat (case_match; simplify_eq). split; cbn; [by apply waits_inv_delete|done..].
  - repeat (case_match; simplify_eq). split; cbn; [by eapply waits_inv_removing|done..].
  - repeat (case_match; simplify_eq). split; cbn; [by eapply waits_inv_removing|done..].
  - repeat (case_match; simplify_eq). split; cbn; [by apply waits_inv_remove|done..].
  - repeat (case_match; simplify_eq). split; cbn; [by apply waits_inv_delete|done..].
  - injection Hs as <- <-. by split.
  - destruct (dv_cancelled d); [done|]. injection Hs as <- <-. unfold driver_reduce.
    pose proof (task_state_close _ _ _ I3) as H. destruct (rc_reduce _ RCE_Close) as [c eff]. by split.
  - destruct (dv_reduced d); [done|]. injection Hs as <- <-. destruct (fail_waiters_spec d I1) as (q & -> & _ & Hq). by split.
  - injection Hs as <- <-. by split.
Qed.

(** What the coordinator answers to the task, whatever else has happened. *)
Lemma rc_wake_effect c at_ now :
  (rc_state c = RS_Closed \/ exists attempt total, rc_state c = RS_Waiting attempt at_ total) -> at_ <= now ->
  effect_of (rc_reduce c (RCE_Wake now)).2 (rc_state (rc_reduce c (RCE_Wake now)).1).
Proof.
  intros [E|(attempt & total & E)] Hn; unfold rc_reduce; rewrite E; cbn; [by rewrite E|].
  rewrite bool_decide_eq_true_2 by lia. case_bool_decide; cbn; [done|]. right. eauto.
Qed.

Lemma rc_failed_effect c now jitter :
  (rc_state c = RS_Closed \/ exists attempt deadline total, rc_state c = RS_Connecting attempt deadline total) ->
  effect_of (rc_reduce c (RCE_AttemptFailed now jitter)).2 (rc_state (rc_reduce c (RCE_AttemptFailed now jitter)).1).
Proof.
  intros [E|(attempt & deadline & total & E)]; unfold rc_reduce; rewrite E; cbn; [by rewrite E|].
  destruct (_ || _); cbn; [done|]. right. eauto.
Qed.

Lemma rc_succeeded_effect c next :
  (rc_state c = RS_Closed \/ exists attempt deadline total, rc_state c = RS_Connecting attempt deadline total) ->
  ((rc_reduce c (RCE_AttemptSucceeded next)).2 = None /\ rc_state (rc_reduce c (RCE_AttemptSucceeded next)).1 = RS_Closed) \/
  ((rc_reduce c (RCE_AttemptSucceeded next)).2 = Some (RCF_PublishGeneration next) /\
   rc_state (rc_reduce c (RCE_AttemptSucceeded next)).1 = RS_Connected next).
Proof. intros [E|(attempt & deadline & total & E)]; unfold rc_reduce; rewrite E; cbn; [left|right]; by rewrite ?E. Qed.

Lemma rc_lost_effect c generation now :
  rc_state c = RS_Connected generation ->
  effect_of (rc_reduce c (RCE_TransportLost generation now)).2 (rc_state (rc_reduce c (RCE_TransportLost generation now)).1).
Proof.
  intros E. unfold rc_reduce. rewrite E. cbn. rewrite bool_decide_eq_true_2 by done.
  case_bool_decide; cbn; [done|]. right. eauto.
Qed.

Lemma attempt_ended_inv d next r now jitter :
  driver_inv d -> dv_task d = TK_Attempted next r -> driver_inv (attempt_ended d next r now jitter).1.
Proof.
  intros [I1 I2 I3] Et. rewrite Et in I3. cbn in I3. unfold attempt_ended, driver_reduce.
  assert (Hf : forall c error, (forall g, rc_state c <> RS_Connected g) ->
    driver_inv (d <| dv_coordinator := c |> <| dv_task := TK_Fail error |>)) by (intros; by split).
  assert (Hn : forall g, rc_state (dv_coordinator d) <> RS_Connected g).
  { intros g E. destruct I3 as [E'|(? & ? & ? & E')]; congruence. }
  assert (Hd : forall t, d <| dv_task := t |> = d <| dv_coordinator := dv_coordinator d |> <| dv_task := t |>) by by destruct d.
  pose proof (rc_succeeded_effect _ next I3) as Hok. pose proof (rc_failed_effect _ now jitter I3) as Herr.
  destruct r as [candidate|e].
  - case_bool_decide as Hg; [|by rewrite Hd; apply Hf].
    destruct (rc_reduce _ (RCE_AttemptSucceeded next)) as [c eff]. cbn in Hok. destruct Hok as [[-> Hc]|[-> Hc]].
    + apply Hf. intros g. by rewrite Hc.
    + rewrite bool_decide_eq_true_2 by done. split; cbn; [done|done|]. right. by rewrite Hg.
  - assert (Hs : driver_inv (let '(d, effect) := (let '(c, effect) := rc_reduce (dv_coordinator d) (RCE_AttemptFailed now jitter) in
      (d <| dv_coordinator := c |>, effect)) in (d <| dv_task := TK_Drive next effect |>, @nil DriverOutput)).1).
    { destruct (rc_reduce _ (RCE_AttemptFailed now jitter)) as [c eff]. by split. }
    destruct e; try exact Hs. rewrite Hd. by apply Hf.
Qed.

(** [begin_recovery] does not fail: the task that lost its generation finds it active. *)
Lemma begin_recovery_ok d generation next effect :
  driver_inv d -> dv_task d = TK_Begin generation next effect ->
  begin_recovery (dv_admissions d) generation = ((dv_admissions d) <| ra_recovering := true |>, Ok tt).
Proof.
  intros [I1 I2 I3] Et. rewrite Et in I2, I3. destruct I3 as [Hg _]. unfold begin_recovery.
  rewrite bool_decide_eq_false_2 by (intros H; by apply H). destruct (ra_recovering _); [by specialize (I2 eq_refl)|done].
Qed.

Lemma waits_inv_recovering a ws : waits_inv a ws -> waits_inv (a <| ra_recovering := true |>) ws.
Proof. intros [I1 I2 I3 I4 I5 I6 I7]. by split. Qed.

Lemma task_step_inv d e d' os : task_step d e = Some (d', os) -> driver_inv d -> driver_inv d'.
Proof.
  intros Hs I. pose proof I as [I1 I2 I3]. unfold task_step in Hs. destruct (dv_task d) as [|g next|g next eff|next eff|next at_|next r|t|err] eqn:Et;
    cbn [task_state task_recovering] in I2, I3.
  - destruct e; try done. unfold recover_start in Hs. repeat (case_match; simplify_eq); try done; split; by cbn.
  - destruct e; try done. destruct (rc_state (dv_coordinator d)) as [active| | | |] eqn:Es;
      try (injection Hs as <- <-; split; cbn; [done|done|by rewrite Es]).
    case_bool_decide as Ha; [|injection Hs as <- <-; split; cbn; [done|done|by rewrite Es]].
    subst active. unfold driver_reduce in Hs. pose proof (rc_lost_effect _ g now Es) as Heff.
    destruct (rc_reduce _ _) as [c eff]. injection Hs as <- <-. split; cbn; [done|done|]. split; [by apply I3|done].
  - destruct e; try done. rewrite (begin_recovery_ok d g next eff I Et) in Hs. injection Hs as <- <-.
    split; cbn; [by apply waits_inv_recovering|done|apply I3].
  - assert (Hf : forall err, effect_of eff (rc_state (dv_coordinator d)) -> driver_inv (d <| dv_task := TK_Fail err |>)).
    { intros err H. split; cbn; [done|done|]. intros g E. rewrite E in H.
      destruct eff as [[]|]; cbn in H; try done; by destruct H as [?|?]; [|destruct_and?; naive_solver]. }
    destruct eff as [[]|]; destruct e; try done; repeat (case_match; simplify_eq);
      try (injection Hs as <- <-); try (by apply Hf); by split.
  - destruct e; try done. case_bool_decide; [|done]. unfold driver_reduce in Hs.
    pose proof (rc_wake_effect _ at_ now I3 H) as Heff. destruct (rc_reduce _ _) as [c eff]. injection Hs as <- <-. by split.
  - destruct e; try done. injection Hs as Hs. pose proof (attempt_ended_inv d next r now jitter I Et) as H. by rewrite Hs in H.
  - destruct e; try done. injection Hs as <- <-. destruct (finish_recovery_spec d t I1) as (q & -> & _ & Hq).
    split; cbn; [done|done|]. intros g E. destruct I3 as [E'|E']; congruence.
  - destruct e; try done. injection Hs as <- <-. destruct (fail_waiters_spec d I1) as (q & -> & _ & Hq).
    split; cbn; [done|done|]. intros g E. by apply I3 in E.
Qed.

Lemma driver_step_inv d e d' os : driver_step d e = Some (d', os) -> driver_inv d -> driver_inv d'.
Proof. unfold driver_step. destruct (is_task_event e); [apply task_step_inv|apply caller_step_inv]. Qed.

Lemma driver_run_inv events : forall d d' os, driver_run d events = Some (d', os) -> driver_inv d -> driver_inv d'.
Proof.
  induction events as [|e events IH]; intros d d' os Hr I; cbn in Hr; [congruence|].
  destruct (driver_step d e) as [[d1 o1]|] eqn:Es; [|done]. destruct (driver_run d1 events) as [[d2 o2]|] eqn:Er; [|done].
  injection Hr as <- <-. eapply IH; [exact Er|]. by eapply driver_step_inv.
Qed.

Lemma driver_run_app e1 : forall d e2,
  driver_run d (e1 ++ e2) =
  match driver_run d e1 with
  | None => None
  | Some (d1, o1) => match driver_run d1 e2 with None => None | Some (d2, o2) => Some (d2, o1 ++ o2) end
  end.
Proof.
  induction e1 as [|e e1 IH]; intros d e2; cbn [driver_run app].
  { by destruct (driver_run d e2) as [[]|]. }
  destruct (driver_step d e) as [[d1 o1]|]; [|done]. rewrite IH. destruct (driver_run d1 e1) as [[d2 o2]|]; [|done].
  destruct (driver_run d2 e2) as [[d3 o3]|]; [|done]. by rewrite app_assoc.
Qed.
