(* ===== verification/RecoveryDriverTheorems.v ===== *)
(** What the recovery driver promises: a recovery that has begun ends, nothing waits for one that has
    ended, and what a waiting operation is told. *)
From S2P Require Import Prelude Clock Reducer ObjectState ObjectQueue Recovery Engine RecoveryDriver.
Local Open Scope Z_scope.

(** ** How long a call of [recover] takes *)

Definition driver_event_ok (e : DriverEvent) : Prop :=
  match e with
  | DE_TransportLost now | DE_Woke now | DE_Resolve _ _ now | DE_Expired _ now => time_ok now
  | DE_AttemptEnded now jitter => time_ok now /\ duration_ok jitter
  | _ => True
  end.

Definition starts_recover (e : DriverEvent) : bool := match e with DE_Recover _ => true | _ => false end.

Definition drive_steps (effect : option RecoveryEffect) (left : Z) : Z :=
  match effect with
  | Some (RCF_ScheduleAttempt _ _) => 4 * left + 5
  | Some (RCF_StartAttempt _ _) => 4 * left + 7
  | _ => 2
  end.

(** The steps the task may still take: four for every attempt that is left. *)
Definition task_steps (d : RecoveryDriver) : Z :=
  let left := budget (dv_coordinator d) in
  match dv_task d with
  | TK_Idle => 0
  | TK_Recover _ _ => 4 * rp_max_attempts (rc_policy (dv_coordinator d)) + 7
  | TK_Begin _ _ effect => 1 + drive_steps effect left
  | TK_Drive _ effect => drive_steps effect left
  | TK_Wake _ _ => 4 * left + 4
  | TK_Attempted _ _ => 4 * left + 6
  | TK_Finish _ | TK_Fail _ => 1
  end.

Record policy_inv (policy : RecoveryPolicy) (d : RecoveryDriver) : Prop := {
  pi_policy : rc_policy (dv_coordinator d) = policy;
  pi_coordinator : recovery_inv (dv_coordinator d)
}.

Lemma budget_range c : recovery_inv c -> 0 <= rp_max_attempts (rc_policy c) ->
  0 <= budget c <= rp_max_attempts (rc_policy c).
Proof. unfold recovery_inv, budget. destruct (rc_state c); lia. Qed.

Lemma policy_inv_reduce policy d e :
  policy_ok policy -> policy_inv policy d -> event_times_ok e -> policy_inv policy (driver_reduce d e).1.
Proof.
  intros Hp [E I] He. unfold driver_reduce. pose proof (rc_reduce_policy (dv_coordinator d) e) as Ep.
  pose proof (rc_reduce_step (dv_coordinator d) e) as Hs. rewrite E in Hs. specialize (Hs Hp I He).
  destruct (rc_reduce _ e) as [c eff]. destruct Hs as [Hs _]. split; cbn in *; [congruence|done].
Qed.

(** What each answer of the coordinator leaves of the attempts. *)
Lemma drive_steps_wake policy c now :
  policy_ok policy -> rc_policy c = policy -> recovery_inv c -> time_ok now ->
  drive_steps (rc_reduce c (RCE_Wake now)).2 (budget (rc_reduce c (RCE_Wake now)).1) <= 4 * budget c + 3.
Proof.
  intros ([Hm _] & _) <- Hi Hn. pose proof (budget_range c Hi Hm) as Hb. revert Hb.
  unfold recovery_inv, budget in *. destruct c as [p []]; cbn in *; repeat case_bool_decide; cbn; lia.
Qed.

Lemma drive_steps_failed policy c now jitter :
  policy_ok policy -> rc_policy c = policy -> recovery_inv c ->
  drive_steps (rc_reduce c (RCE_AttemptFailed now jitter)).2 (budget (rc_reduce c (RCE_AttemptFailed now jitter)).1)
    <= 4 * budget c + 5.
Proof.
  intros ([Hm Hm'] & _) <- Hi. pose proof (budget_range c Hi Hm) as Hb. revert Hb.
  unfold recovery_inv, budget in *. destruct c as [p []]; cbn -[time_add rp_backoff] in *; try lia.
  case_bool_decide as Ha; cbn -[time_add rp_backoff]; [lia|].
  case_bool_decide; cbn -[time_add rp_backoff]; [lia|].
  rewrite wrapping_add_small by ints. lia.
Qed.

Lemma drive_steps_lost policy c g now :
  policy_ok policy -> rc_policy c = policy -> rc_state c = RS_Connected g ->
  drive_steps (rc_reduce c (RCE_TransportLost g now)).2 (budget (rc_reduce c (RCE_TransportLost g now)).1)
    <= 4 * rp_max_attempts policy + 5.
Proof.
  intros ([Hm Hm'] & _) <- E. unfold rc_reduce. rewrite E. cbn. rewrite bool_decide_eq_true_2 by done.
  case_bool_decide; cbn; [lia|]. unfold budget. cbn. lia.
Qed.

Lemma budget_close c : recovery_inv c -> 0 <= rp_max_attempts (rc_policy c) -> budget (rc_reduce c RCE_Close).1 <= budget c.
Proof.
  intros Hi Hm. pose proof (budget_range c Hi Hm). revert H. unfold rc_reduce, budget. destruct (rc_state c) eqn:E; cbn; rewrite ?E; lia.
Qed.

Lemma drive_steps_mono effect b b' : b' <= b -> drive_steps effect b' <= drive_steps effect b.
Proof. destruct effect as [[]|]; cbn; lia. Qed.

Lemma fail_waiters_coordinator d : dv_coordinator (fail_waiters d) = dv_coordinator d.
Proof. unfold fail_waiters. by destruct (rq_fail_all _), (complete_waits _ _ _ _). Qed.

Lemma fail_waiters_task d : dv_task (fail_waiters d) = dv_task d.
Proof. unfold fail_waiters. by destruct (rq_fail_all _), (complete_waits _ _ _ _). Qed.

Lemma finish_recovery_coordinator d t : dv_coordinator (finish_recovery d t) = dv_coordinator d.
Proof. unfold finish_recovery. by destruct (rq_release_dependency _ _), (complete_waits _ _ _ _). Qed.

Lemma resolve_dependency_frame d t deadline now :
  dv_coordinator (resolve_dependency d t deadline now).1 = dv_coordinator d /\
  dv_task (resolve_dependency d t deadline now).1 = dv_task d.
Proof. unfold resolve_dependency. by repeat case_match. Qed.

Lemma driver_reduce_eq d e :
  driver_reduce d e = (d <| dv_coordinator := (rc_reduce (dv_coordinator d) e).1 |>, (rc_reduce (dv_coordinator d) e).2).
Proof. unfold driver_reduce. by destruct (rc_reduce _ _). Qed.

(** Steps of the callers do not move the task, and leave it no more to do. *)
Lemma caller_step_frame policy d e d' os :
  policy_ok policy -> policy_inv policy d -> caller_step d e = Some (d', os) ->
  policy_inv policy d' /\ dv_task d' = dv_task d /\ task_steps d' <= task_steps d.
Proof.
  intros Hp I Hs. assert (Hsame : dv_coordinator d' = dv_coordinator d -> dv_task d' = dv_task d ->
    policy_inv policy d' /\ dv_task d' = dv_task d /\ task_steps d' <= task_steps d).
  { intros E1 E2. destruct I as [I1 I2]. split; [by split; rewrite E1|]. split; [done|].
    unfold task_steps. rewrite E1, E2. lia. }
  destruct e; cbn -[fail_waiters resolve_dependency driver_reduce] in Hs; try done.
  - injection Hs as Hs. destruct (resolve_dependency_frame d dependency deadline now) as [E1 E2].
    rewrite Hs in E1, E2. by apply Hsame.
  - repeat (case_match; simplify_eq). by apply Hsame.
  - repeat (case_match; simplify_eq). by apply Hsame.
  - repeat (case_match; simplify_eq). by apply Hsame.
  - repeat (case_match; simplify_eq). by apply Hsame.
  - repeat (case_match; simplify_eq). by apply Hsame.
  - injection Hs as <- <-. by apply Hsame.
  - destruct (dv_cancelled d); [done|]. pose proof (policy_inv_reduce policy d RCE_Close Hp I Logic.I) as I'.
    rewrite driver_reduce_eq in Hs, I'. injection Hs as <- <-. destruct I' as [P1 P2], I as [I1 I2], Hp as ([Hm _] & _).
    pose proof (budget_close (dv_coordinator d) I2 ltac:(by rewrite I1)) as Hb.
    split; [by split|]. split; [done|]. unfold task_steps. cbn -[rc_reduce] in *. rewrite P1, I1.
    destruct (dv_task d); try lia; pose proof (drive_steps_mono effect _ _ Hb); lia.
  - destruct (dv_reduced d); [done|]. injection Hs as <- <-. apply Hsame; cbn -[fail_waiters]; [apply fail_waiters_coordinator|apply fail_waiters_task].
  - injection Hs as <- <-. by apply Hsame.
Qed.

(** A step of the task takes one off what it has left to do. *)
Lemma attempt_ended_frame policy d next r now jitter :
  policy_ok policy -> policy_inv policy d -> dv_task d = TK_Attempted next r -> time_ok now -> duration_ok jitter ->
  let d' := (attempt_ended d next r now jitter).1 in
  policy_inv policy d' /\ dv_task d' ≠ TK_Idle /\ 0 <= task_steps d' < task_steps d.
Proof.
  intros Hp I Et Hn Hj. pose proof I as [I1 I2]. pose proof Hp as ([Hm _] & _). rewrite <- I1 in Hm.
  pose proof (budget_range _ I2 Hm) as Hb.
  assert (Hend : forall c t, recovery_inv c -> rc_policy c = policy -> task_steps (d <| dv_coordinator := c |> <| dv_task := t |>) = 1 ->
    t ≠ TK_Idle -> policy_inv policy (d <| dv_coordinator := c |> <| dv_task := t |>) /\
    dv_task (d <| dv_coordinator := c |> <| dv_task := t |>) ≠ TK_Idle /\
    0 <= task_steps (d <| dv_coordinator := c |> <| dv_task := t |>) < task_steps d).
  { intros c t Hc Ec Hs Ht. split; [by split|]. split; [done|]. rewrite Hs. unfold task_steps. rewrite Et. lia. }
  assert (Hd : forall t, d <| dv_task := t |> = d <| dv_coordinator := dv_coordinator d |> <| dv_task := t |>) by by destruct d.
  cbv zeta. unfold attempt_ended.
  pose proof (policy_inv_reduce policy d (RCE_AttemptSucceeded next) Hp I Logic.I) as Iok.
  pose proof (policy_inv_reduce policy d (RCE_AttemptFailed now jitter) Hp I (conj Hn Hj)) as Ierr.
  pose proof (drive_steps_failed policy (dv_coordinator d) now jitter Hp I1 I2) as Hdr.
  rewrite !driver_reduce_eq in *. destruct Iok as [O1 O2], Ierr as [R1 R2]. cbn -[rc_reduce] in O1, O2, R1, R2.
  destruct r as [candidate|e].
  - case_bool_decide; [|rewrite Hd; by apply Hend]. repeat case_match; simplify_eq; by apply Hend.
  - assert (Hs : forall t, t = TK_Drive next (rc_reduce (dv_coordinator d) (RCE_AttemptFailed now jitter)).2 ->
      let d' := d <| dv_coordinator := (rc_reduce (dv_coordinator d) (RCE_AttemptFailed now jitter)).1 |> <| dv_task := t |> in
      policy_inv policy d' /\ dv_task d' ≠ TK_Idle /\ 0 <= task_steps d' < task_steps d).
    { intros t ->. cbv zeta. split; [by split|]. split; [done|]. unfold task_steps at 1 2. cbn -[rc_reduce].
      rewrite I1, <- R1 in Hm. pose proof (budget_range _ R2 Hm) as Hb'. split.
      - destruct (rc_reduce _ (RCE_AttemptFailed now jitter)).2 as [[]|]; cbn -[rc_reduce]; lia.
      - unfold task_steps. rewrite Et. lia. }
    destruct e; try (by apply Hs). rewrite Hd. by apply Hend.
Qed.

Lemma task_steps_range policy d :
  policy_ok policy -> policy_inv policy d -> 0 <= task_steps d <= 4 * rp_max_attempts policy + 8.
Proof.
  intros ([Hm _] & _) [E I]. rewrite <- E in Hm. pose proof (budget_range _ I Hm) as Hb. unfold task_steps. rewrite E in *.
  destruct (dv_task d); try lia; destruct effect as [[]|]; cbn; lia.
Qed.

Lemma task_step_frame policy d e d' os :
  policy_ok policy -> policy_inv policy d -> driver_inv d -> driver_event_ok e -> task_step d e = Some (d', os) ->
  policy_inv policy d' /\ (starts_recover e = false -> task_steps d' < task_steps d).
Proof.
  intros Hp I Id He Hs. pose proof I as [I1 I2]. pose proof Hp as ([Hm _] & _). pose proof Hm as Hm'. rewrite <- I1 in Hm'.
  pose proof (budget_range _ I2 Hm') as Hb. unfold task_step in Hs.
  assert (Hmove : forall t, policy_inv policy (d <| dv_task := t |>)) by (intros; by split).
  destruct (dv_task d) as [|g next|g next eff|next eff|next at_|next r|t|err] eqn:Et.
  - destruct e; try done. unfold recover_start in Hs. split; [|done]. repeat (case_match; simplify_eq); try done; by apply Hmove.
  - destruct e; try done. unfold task_steps at 2. rewrite Et.
    destruct (rc_state (dv_coordinator d)) as [active| | | |] eqn:Es;
      try (injection Hs as <- <-; split; [by apply Hmove|]; intros _; unfold task_steps; cbn; lia).
    case_bool_decide as Ha; [subst active|injection Hs as <- <-; split; [by apply Hmove|]; intros _; unfold task_steps; cbn; lia].
    pose proof (policy_inv_reduce policy d (RCE_TransportLost g now) Hp I He) as Il.
    pose proof (drive_steps_lost policy (dv_coordinator d) g now Hp I1 Es) as Hl.
    rewrite driver_reduce_eq in Hs, Il. injection Hs as <- <-. destruct Il as [L1 L2]. split; [by split|].
    intros _. unfold task_steps. cbn -[rc_reduce]. rewrite I1. lia.
  - destruct e; try done. rewrite (begin_recovery_ok d g next eff Id Et) in Hs. injection Hs as <- <-. split; [by split|].
    intros _. unfold task_steps. rewrite Et. cbn. lia.
  - unfold task_steps at 2. rewrite Et.
    destruct eff as [[]|]; destruct e; try done; repeat (case_match; simplify_eq); try (injection Hs as <- <-);
      (split; [by apply Hmove|]); intros _; unfold task_steps; cbn; lia.
  - destruct e; try done. case_bool_decide; [|done].
    pose proof (policy_inv_reduce policy d (RCE_Wake now) Hp I He) as Il.
    pose proof (drive_steps_wake policy (dv_coordinator d) now Hp I1 I2 He) as Hl.
    rewrite driver_reduce_eq in Hs, Il. injection Hs as <- <-. destruct Il as [L1 L2]. split; [by split|].
    intros _. unfold task_steps. rewrite Et. cbn -[rc_reduce]. lia.
  - destruct e; try done. injection Hs as Hs. destruct He as [Hn Hj].
    destruct (attempt_ended_frame policy d next r now jitter Hp I Et Hn Hj) as (H1 & _ & H2). rewrite Hs in H1, H2. cbn [fst] in H1, H2. split; [done|lia].
  - destruct e; try done. injection Hs as <- <-. split; [by split; cbn -[finish_recovery]; rewrite finish_recovery_coordinator|].
    intros _. unfold task_steps. rewrite Et. cbn. lia.
  - destruct e; try done. injection Hs as <- <-. split; [by split; cbn -[fail_waiters]; rewrite fail_waiters_coordinator|].
    intros _. unfold task_steps. rewrite Et. cbn. lia.
Qed.

(** The steps of the task in a schedule. *)
Definition task_events (events : list DriverEvent) : Z := Z.of_nat (length (filter (fun e => is_task_event e) events)).

Lemma task_events_cons e events : task_events (e :: events) = (if is_task_event e then 1 else 0) + task_events events.
Proof. unfold task_events. rewrite filter_cons. destruct (is_task_event e); cbn [Is_true]; case_decide; cbn; (done || lia). Qed.

Lemma driver_run_steps policy events : policy_ok policy -> Forall driver_event_ok events -> forall d d' os,
  policy_inv policy d -> driver_inv d -> driver_run d events = Some (d', os) ->
  policy_inv policy d' /\
  (Forall (fun e => starts_recover e = false) events -> task_events events + task_steps d' <= task_steps d).
Proof.
  intros Hp Hev. induction Hev as [|e events He Hev IH]; intros d d' os I Id Hr; cbn in Hr.
  { simplify_eq. split; [done|]. intros _. change (task_events []) with 0. lia. }
  destruct (driver_step d e) as [[d1 o1]|] eqn:Es; [|done]. destruct (driver_run d1 events) as [[d2 o2]|] eqn:Er; [|done].
  injection Hr as <- <-. pose proof (driver_step_inv _ _ _ _ Es Id) as Id1. unfold driver_step in Es. rewrite task_events_cons.
  destruct (is_task_event e) eqn:Ee.
  - destruct (task_step_frame policy _ _ _ _ Hp I Id He Es) as [I1 Hlt]. destruct (IH d1 d2 o2 I1 Id1 Er) as [I2 Hle].
    split; [done|]. intros Hns. apply Forall_cons in Hns as [Hn Hns]. specialize (Hlt Hn). specialize (Hle Hns). lia.
  - destruct (caller_step_frame policy _ _ _ _ Hp I Es) as (I1 & _ & Hlt). destruct (IH d1 d2 o2 I1 Id1 Er) as [I2 Hle].
    split; [done|]. intros Hns. apply Forall_cons in Hns as [Hn Hns]. specialize (Hle Hns). lia.
Qed.

(** The task is never stuck: the next step of its call can happen, at any instant that is late enough. *)
Lemma task_can_step d t : driver_inv d -> dv_task d ≠ TK_Idle -> time_ok t ->
  exists e d' os, driver_step d e = Some (d', os) /\ is_task_event e = true /\ starts_recover e = false.
Proof.
  intros I Ht Hn. unfold driver_step. destruct (dv_task d) as [|g next|g next eff|next eff|next at_|next r|c|err] eqn:Et; [done|..].
  - exists (DE_TransportLost t). cbn [is_task_event]; unfold task_step; rewrite Et, driver_reduce_eq. repeat case_match; eauto.
  - exists DE_Begin. cbn [is_task_event]; unfold task_step; rewrite Et, (begin_recovery_ok d g next eff I Et). eauto.
  - destruct (dv_closed d) eqn:Ec; destruct eff as [[]|];
      first [exists DE_SawClosed; cbn [is_task_event]; unfold task_step; rewrite Et, Ec; by eauto | exists DE_Slept; cbn [is_task_event]; unfold task_step; rewrite Et, Ec; by eauto
            | exists (DE_Bootstrapped (Err (RT_Transport (TF_Code 0)))); cbn [is_task_event]; unfold task_step; rewrite Et, Ec; by eauto
            | exists DE_Ended; cbn [is_task_event]; unfold task_step; rewrite Et; by eauto].
  - exists (DE_Woke (Z.max t at_)). cbn [is_task_event]; unfold task_step; rewrite Et, bool_decide_eq_true_2, driver_reduce_eq by lia. eauto.
  - exists (DE_AttemptEnded t 0). cbn [is_task_event]; unfold task_step; rewrite Et. destruct (attempt_ended d next r t 0) as [d' os]. eauto.
  - exists DE_FinishRecovery. cbn [is_task_event]; unfold task_step; rewrite Et. eauto.
  - exists DE_FailWaiters. cbn [is_task_event]; unfold task_step; rewrite Et. eauto.
Qed.

(** ** What a waiting operation is told *)

Definition answered (os : list DriverOutput) : list Z :=
  omap (fun o => match o with DO_Answered id _ => Some id | _ => None end) os.

(** Every answer with a token comes after the publication of that token. *)
Definition published_first (os : list DriverOutput) : Prop :=
  forall o1 o2 id t, os = o1 ++ DO_Answered id (Ok t) :: o2 -> DO_Published t ∈ o1.

Record answers_inv (d : RecoveryDriver) (os : list DriverOutput) : Prop := {
  ai_nodup : NoDup (answered os);
  ai_gone : forall id, id ∈ answered os -> dv_waiters d !! id = None /\
    forall n, rq_next_id (ra_queue (dv_admissions d)) = Some n -> id < n;
  ai_reply : forall id deadline t, dv_waiters d !! id = Some (WA_Parked deadline (Some (Ok t))) -> DO_Published t ∈ os;
  ai_finish : forall t, dv_task d = TK_Finish t -> DO_Published t ∈ os;
  ai_first : published_first os
}.

Lemma published_first_snoc os o :
  published_first os -> (forall id t, o = DO_Answered id (Ok t) -> DO_Published t ∈ os) -> published_first (os ++ [o]).
Proof.
  intros H Ho o1 o2 id t E. destruct o2 as [|x o2 _] using rev_ind.
  - apply app_inj_tail in E as [-> ->]. by eapply Ho.
  - rewrite app_comm_cons, app_assoc in E. apply app_inj_tail in E as [E _]. by eapply H.
Qed.

(** Steps that answer nobody: the waits lose nothing but what they are told, and a token they are told
    has been published. *)
Lemma answers_inv_quiet d d' os o :
  answers_inv d os -> answered o = [] -> (forall id, is_Some (dv_waiters d' !! id) -> is_Some (dv_waiters d !! id) \/
     rq_next_id (ra_queue (dv_admissions d)) = Some id) ->
  (forall n, rq_next_id (ra_queue (dv_admissions d')) = Some n ->
     exists m, rq_next_id (ra_queue (dv_admissions d)) = Some m /\ m <= n) ->
  (forall id deadline t, dv_waiters d' !! id = Some (WA_Parked deadline (Some (Ok t))) ->
     dv_waiters d !! id = Some (WA_Parked deadline (Some (Ok t))) \/ DO_Published t ∈ os) ->
  (forall t, dv_task d' = TK_Finish t -> dv_task d = TK_Finish t \/ DO_Published t ∈ o) ->
  (length o <= 1)%nat -> answers_inv d' (os ++ o).
Proof.
  intros [A1 A2 A3 A4 A5] Ho Hw Hn Hr Ht Hl.
  assert (Ea : answered (os ++ o) = answered os) by (unfold answered in *; by rewrite omap_app, Ho, app_nil_r).
  split; rewrite ?Ea; try done.
  - intros id Hid. destruct (A2 id Hid) as [G1 G2]. split.
    + destruct (dv_waiters d' !! id) as [w|] eqn:E; [|done]. destruct (Hw id) as [[w' E']|E']; [by eexists|congruence|].
      specialize (G2 id E'). lia.
    + intros n En. destruct (Hn n En) as (m & Em & Hle). specialize (G2 m Em). lia.
  - intros id deadline t E. destruct (Hr _ _ _ E) as [E'|E']; set_solver.
  - intros t E. destruct (Ht t E) as [E'|E']; set_solver.
  - destruct o as [|x [|y o]]; cbn in Hl; [by rewrite app_nil_r| |lia]. apply published_first_snoc; [done|].
    by intros id t ->.
Qed.

(** Steps that answer one call, which is gone afterwards. *)
Lemma answers_inv_answer d d' os id w r :
  answers_inv d os -> waits_inv (dv_admissions d) (dv_waiters d) -> dv_waiters d !! id = Some w ->
  dv_waiters d' = delete id (dv_waiters d) ->
  rq_next_id (ra_queue (dv_admissions d')) = rq_next_id (ra_queue (dv_admissions d)) -> dv_task d' = dv_task d ->
  (forall t, r = Ok t -> DO_Published t ∈ os) -> answers_inv d' (os ++ [DO_Answered id r]).
Proof.
  intros [A1 A2 A3 A4 A5] W Hw Ew En Et Hr.
  assert (Ea : answered (os ++ [DO_Answered id r]) = answered os ++ [id]) by (unfold answered; by rewrite omap_app).
  split; rewrite ?Ea, ?Ew, ?En, ?Et.
  - apply NoDup_app. split; [done|]. split; [|apply NoDup_singleton]. intros i Hi Hin.
    apply list_elem_of_singleton in Hin as ->. destruct (A2 _ Hi). congruence.
  - intros i Hi. apply elem_of_app in Hi as [Hi|Hi].
    + destruct (A2 i Hi) as [G1 G2]. split; [|done]. by rewrite lookup_delete_None; right.
    + apply list_elem_of_singleton in Hi as ->. rewrite lookup_delete_eq. split; [done|].
      intros n E. eapply wi_fresh; [exact W|by eexists|done].
  - intros i deadline t E. apply lookup_delete_Some in E as [_ E]. specialize (A3 _ _ _ E). set_solver.
  - intros t E. specialize (A4 t E). set_solver.
  - apply published_first_snoc; [done|]. intros i t [= -> ->]. by apply Hr.
Qed.

Lemma answer_lookup r ws id : (answer r <$> ws : gmap Z Waiter) !! id = answer r <$> ws !! id.
Proof. apply lookup_fmap. Qed.

Lemma answer_some r (ws : gmap Z Waiter) id : is_Some ((answer r <$> ws) !! id) -> is_Some (ws !! id).
Proof. rewrite lookup_fmap. by destruct (ws !! id) as [w|]; [|intros [? ?]]. Qed.

Lemma answer_reply r ws id deadline t :
  (answer r <$> ws : gmap Z Waiter) !! id = Some (WA_Parked deadline (Some (Ok t))) ->
  ws !! id = Some (WA_Parked deadline (Some (Ok t))) \/ r = Ok t.
Proof.
  rewrite lookup_fmap. destruct (ws !! id) as [[dl [r'|]|e]|]; cbn; intros [= ->]; subst; auto.
Qed.

(** Closes the side conditions of the lemmas on answers. *)
Ltac quiet := cbn; first [done | lia | auto].

Lemma answers_inv_same d d' os o :
  answers_inv d os -> answered o = [] -> (length o <= 1)%nat -> dv_waiters d' = dv_waiters d ->
  rq_next_id (ra_queue (dv_admissions d')) = rq_next_id (ra_queue (dv_admissions d)) ->
  (forall t, dv_task d' = TK_Finish t -> dv_task d = TK_Finish t \/ DO_Published t ∈ o) -> answers_inv d' (os ++ o).
Proof.
  intros A Ho Hl Ew En Ht. apply (answers_inv_quiet d d' os o A Ho); rewrite ?Ew, ?En; auto.
  intros n E. exists n. by split; [|lia].
Qed.

Lemma answers_inv_drained d d' os o r :
  answers_inv d os -> answered o = [] -> (length o <= 1)%nat -> dv_waiters d' = answer r <$> dv_waiters d ->
  rq_next_id (ra_queue (dv_admissions d')) = rq_next_id (ra_queue (dv_admissions d)) ->
  (forall t, r = Ok t -> DO_Published t ∈ os) ->
  (forall t, dv_task d' = TK_Finish t -> dv_task d = TK_Finish t) -> answers_inv d' (os ++ o).
Proof.
  intros A Ho Hl Ew En Hr Ht. apply (answers_inv_quiet d d' os o A Ho); rewrite ?Ew, ?En; auto.
  - intros id Hs. left. by eapply answer_some.
  - intros n E. exists n. by split; [|lia].
  - intros id deadline t E. destruct (answer_reply _ _ _ _ _ E) as [E'|E']; [by left|]. right. by apply Hr.
Qed.

Lemma rq_enqueue_next q t deadline q' r :
  rq_enqueue q t deadline = (q', r) ->
  (forall n, rq_next_id q' = Some n -> exists m, rq_next_id q = Some m /\ m <= n) /\
  (forall id, r = Ok id -> rq_next_id q = Some id).
Proof.
  unfold rq_enqueue. case_bool_decide; [intros [= <- <-]; split; [intros n E; exists n; by split; [|lia]|done]|].
  destruct (rq_next_id q) as [m|] eqn:Em; intros [= <- <-]; cbn; [|by rewrite Em]. split; [|by intros id [= ->]].
  intros n. unfold checked_add. case_bool_decide; [|done]. intros [= <-]. exists m. by split; [|lia].
Qed.

Lemma resolve_dependency_answers d t deadline now os :
  answers_inv d os ->
  answers_inv (resolve_dependency d t deadline now).1 (os ++ (resolve_dependency d t deadline now).2).
Proof.
  intros A. unfold resolve_dependency. destruct (negb _); [apply (answers_inv_same d); quiet|].
  case_bool_decide; [apply (answers_inv_same d); quiet|].
  destruct (rq_enqueue _ _ _) as [q r] eqn:Eq. destruct (rq_enqueue_next _ _ _ _ _ Eq) as [En Eid].
  assert (Hno : forall o, answered o = [] -> (length o <= 1)%nat -> answers_inv (d <| dv_admissions := (dv_admissions d) <| ra_queue := q |> |>) (os ++ o)).
  { intros o Ho Hl. apply (answers_inv_quiet d _ os o A Ho); auto. }
  destruct r as [id|[]]; [|by apply Hno..]. cbn [fst snd].
  apply (answers_inv_quiet d _ os [] A); cbn; auto.
  - intros i [w Hi]. destruct (decide (i = id)) as [->|Hne]; [right; by apply Eid|]. left.
    rewrite lookup_insert_ne in Hi by done. by eexists.
  - intros i dl t' Hi. destruct (decide (i = id)) as [->|Hne]; [by rewrite lookup_insert_eq in Hi|].
    rewrite lookup_insert_ne in Hi by done. by left.
Qed.

Lemma caller_step_answers d e d' o os :
  caller_step d e = Some (d', o) -> driver_inv d -> answers_inv d os -> answers_inv d' (os ++ o).
Proof.
  intros Hs [W _ _] A. destruct e; cbn -[fail_waiters resolve_dependency driver_reduce] in Hs; try done.
  - injection Hs as Hs. pose proof (resolve_dependency_answers d dependency deadline now os A) as H. by rewrite Hs in H.
  - destruct (dv_waiters d !! id) as [[dl [r|]|e]|] eqn:Ew; try done. injection Hs as <- <-.
    eapply answers_inv_answer; try done. intros t ->. by eapply ai_reply.
  - destruct (dv_waiters d !! id) as [[dl r|e]|] eqn:Ew; try done. case_bool_decide; [|done]. injection Hs as <- <-.
    apply (answers_inv_quiet d _ os [] A); cbn; auto; [|by intros n E; exists n; split; [|lia]|].
    + intros i [w Hi]. left. apply lookup_insert_Some in Hi as [[<- _]|[_ Hi]]; by eexists.
    + intros i dl' t Hi. apply lookup_insert_Some in Hi as [[_ ?]|[_ Hi]]; [done|by left].
  - destruct (dv_waiters d !! id) as [[dl r|e]|] eqn:Ew; try done. injection Hs as <- <-.
    apply (answers_inv_quiet d _ os [] A); cbn; auto; [|by intros n E; exists n; split; [|lia]|].
    + intros i [w Hi]. left. apply lookup_insert_Some in Hi as [[<- _]|[_ Hi]]; by eexists.
    + intros i dl' t Hi. apply lookup_insert_Some in Hi as [[_ ?]|[_ Hi]]; [done|by left].
  - destruct (dv_waiters d !! id) as [[dl r|e]|] eqn:Ew; try done. injection Hs as <- <-.
    eapply answers_inv_answer; try done. cbn. by rewrite (dr_next _ _ _ (rq_cancel_drops _ id)).
  - destruct (dv_waiters d !! id) as [w|] eqn:Ew; [|done]. injection Hs as <- <-.
    apply (answers_inv_quiet d _ os [] A); cbn; auto; [|by intros n E; exists n; split; [|lia]|].
    + intros i [w' Hi]. left. apply lookup_delete_Some in Hi as [_ Hi]. by eexists.
    + intros i dl t Hi. apply lookup_delete_Some in Hi as [_ Hi]. by left.
  - injection Hs as <- <-. apply (answers_inv_same d); quiet.
  - destruct (dv_cancelled d); [done|]. rewrite driver_reduce_eq in Hs. injection Hs as <- <-.
    apply (answers_inv_same d); quiet.
  - destruct (dv_reduced d); [done|]. injection Hs as <- <-. destruct (fail_waiters_spec d W) as (q & -> & En & Hq).
    apply (answers_inv_drained d _ _ _ (Err RE_WaitFailed)); quiet.
  - injection Hs as <- <-. apply (answers_inv_same d); quiet.
Qed.

Lemma attempt_ended_answers d next r now jitter os :
  answers_inv d os -> answers_inv (attempt_ended d next r now jitter).1 (os ++ (attempt_ended d next r now jitter).2).
Proof.
  intros A.
  assert (Hs : forall c t o, answered o = [] -> (length o <= 1)%nat -> (forall x, t = TK_Finish x -> DO_Published x ∈ o) ->
    answers_inv (d <| dv_coordinator := c |> <| dv_task := t |>) (os ++ o)).
  { intros c t o Ho Hl Ht. apply (answers_inv_same d); auto. }
  assert (Hd : forall t, d <| dv_task := t |> = d <| dv_coordinator := dv_coordinator d |> <| dv_task := t |>) by by destruct d.
  unfold attempt_ended. rewrite !driver_reduce_eq. destruct r as [candidate|e].
  - case_bool_decide; [|rewrite Hd; apply Hs; quiet].
    destruct (rc_reduce _ _).2 as [[]|]; try (apply Hs; quiet). case_bool_decide; [|apply Hs; quiet].
    apply Hs; try done. intros x [= ->]. set_solver.
  - destruct e; apply Hs; quiet.
Qed.

Lemma task_step_answers d e d' o os :
  task_step d e = Some (d', o) -> driver_inv d -> answers_inv d os -> answers_inv d' (os ++ o).
Proof.
  intros Hs I A. pose proof I as [W _ _]. unfold task_step in Hs.
  assert (Hmove : forall c a t o, rq_next_id (ra_queue a) = rq_next_id (ra_queue (dv_admissions d)) -> answered o = [] -> (length o <= 1)%nat ->
    (forall x, t <> TK_Finish x) -> answers_inv (d <| dv_coordinator := c |> <| dv_admissions := a |> <| dv_task := t |>) (os ++ o)).
  { intros c a t o' En Ho Hl Ht. apply (answers_inv_same d); auto. intros x E. by apply Ht in E. }
  assert (H1 : forall t, d <| dv_task := t |> =
    d <| dv_coordinator := dv_coordinator d |> <| dv_admissions := dv_admissions d |> <| dv_task := t |>) by by destruct d.
  assert (H2 : forall c t, d <| dv_coordinator := c |> <| dv_task := t |> =
    d <| dv_coordinator := c |> <| dv_admissions := dv_admissions d |> <| dv_task := t |>) by by destruct d.
  destruct (dv_task d) as [|g next|g next eff|next eff|next at_|next r|t|err] eqn:Et.
  - destruct e; try done. destruct (recover_start d exit) as [t|error] eqn:Er; injection Hs as <- <-.
    + rewrite H1. apply Hmove; [done|done|cbn; lia|]. unfold recover_start in Er. intros x ->. by repeat case_match; simplify_eq.
    + apply (answers_inv_same d); quiet.
  - destruct e; try done. rewrite driver_reduce_eq in Hs.
    repeat (case_match; simplify_eq); try (rewrite H1; apply Hmove; quiet); rewrite H2; apply Hmove; quiet.
  - destruct e; try done. rewrite (begin_recovery_ok d g next eff I Et) in Hs. injection Hs as <- <-.
    apply (answers_inv_same d); quiet.
  - destruct eff as [[]|]; destruct e; try done; repeat (case_match; simplify_eq); try (injection Hs as <- <-);
      rewrite H1; apply Hmove; quiet.
  - destruct e; try done. case_bool_decide; [|done]. rewrite driver_reduce_eq in Hs. injection Hs as <- <-.
    rewrite H2; apply Hmove; quiet.
  - destruct e; try done. injection Hs as Hs. pose proof (attempt_ended_answers d next r now jitter os A) as H. by rewrite Hs in H.
  - destruct e; try done. injection Hs as <- <-. destruct (finish_recovery_spec d t W) as (q & -> & En & Hq).
    apply (answers_inv_drained d _ _ _ (Ok t)); auto; [|by cbn]. intros x [= ->]. by apply (ai_finish _ _ A).
  - destruct e; try done. injection Hs as <- <-. destruct (fail_waiters_spec d W) as (q & -> & En & Hq).
    apply (answers_inv_drained d _ _ _ (Err RE_WaitFailed)); quiet.
Qed.

Lemma driver_run_answers events : forall d d' os o,
  driver_run d events = Some (d', o) -> driver_inv d -> answers_inv d os -> answers_inv d' (os ++ o).
Proof.
  induction events as [|e events IH]; intros d d' os o Hr I A; cbn in Hr; [injection Hr as <- <-; by rewrite app_nil_r|].
  destruct (driver_step d e) as [[d1 o1]|] eqn:Es; [|done]. destruct (driver_run d1 events) as [[d2 o2]|] eqn:Er; [|done].
  injection Hr as <- <-. rewrite app_assoc. eapply IH; [exact Er|by eapply driver_step_inv|].
  unfold driver_step in Es. destruct (is_task_event e); [by eapply task_step_answers|by eapply caller_step_answers].
Qed.

Lemma answers_inv_new connection policy : answers_inv (driver_new connection policy) [].
Proof.
  split.
  - constructor.
  - cbn. set_solver.
  - done.
  - done.
  - intros o1 o2 id t E. by destruct o1.
Qed.

(** ** Properties *)

(** C1: a recovery that has begun ends, and nothing waits for one that has ended. In every state the
    driver can be in, whatever its callers and the closing calls do: a call of [recover] that has not
    returned has a next step that can happen; it takes at most four steps for every attempt of the
    policy and eight more; and an operation that waits without an answer waits for a recovery
    that is in progress. *)
Theorem recovery_ends_and_frees_its_waiters connection policy events d os :
  policy_ok policy -> Forall driver_event_ok events ->
  driver_run (driver_new connection policy) events = Some (d, os) ->
  (dv_task d ≠ TK_Idle ->
     exists e d' os', driver_step d e = Some (d', os') /\ is_task_event e = true /\ starts_recover e = false) /\
  (forall events' d' os', Forall driver_event_ok events' -> Forall (fun e => starts_recover e = false) events' ->
     driver_run d events' = Some (d', os') -> task_events events' <= 4 * rp_max_attempts policy + 8) /\
  (forall id deadline, dv_waiters d !! id = Some (WA_Parked deadline None) ->
     ra_recovering (dv_admissions d) = true /\ task_recovering (dv_task d) = true).
Proof.
  intros Hp Hev Hr. pose proof (driver_inv_new connection policy) as I0.
  pose proof (driver_run_inv _ _ _ _ Hr I0) as Id.
  assert (P0 : policy_inv policy (driver_new connection policy)) by by split.
  destruct (driver_run_steps policy events Hp Hev _ _ _ P0 I0 Hr) as [P _]. split; [|split].
  - intros Ht. by apply (task_can_step d 0).
  - intros events' d' os' Hev' Hns Hr'. destruct (driver_run_steps policy events' Hp Hev' _ _ _ P Id Hr') as [P' Hle].
    specialize (Hle Hns). pose proof (task_steps_range policy d Hp P). pose proof (task_steps_range policy d' Hp P'). lia.
  - intros id deadline Hw. destruct Id as [W Hrec _]. pose proof (wi_parked _ _ W _ _ Hw) as Hin.
    destruct (ra_recovering (dv_admissions d)) eqn:E; [by auto|]. by rewrite (wi_idle _ _ W E) in Hin; apply elem_of_nil in Hin.
Qed.

(** C2: an operation that waits for a recovery is answered at most once, and when it is told to go on it
    is given a connection that has been published before. *)
Theorem waiting_operations_get_published_connections connection policy events d os :
  driver_run (driver_new connection policy) events = Some (d, os) ->
  NoDup (answered os) /\ published_first os.
Proof.
  intros Hr. pose proof (driver_run_answers _ _ _ [] _ Hr (driver_inv_new _ _) (answers_inv_new _ _)) as [A1 _ _ _ A5]. done.
Qed.

(** Losing the transport of the generation in use always starts its recovery: a call of
    [recover] whose generation is the coordinator's begins, and does not leave the coordinator
    behind in a recovery that nobody drives. *)
Lemma lost_generation_is_recovered connection policy events d os generation next effect :
  driver_run (driver_new connection policy) events = Some (d, os) ->
  dv_task d = TK_Begin generation next effect ->
  exists d', driver_step d DE_Begin = Some (d', []) /\ dv_task d' = TK_Drive next effect /\
    ra_recovering (dv_admissions d') = true.
Proof.
  intros Hr Et. pose proof (driver_run_inv _ _ _ _ Hr (driver_inv_new _ _)) as I.
  exists (d <| dv_admissions := (dv_admissions d) <| ra_recovering := true |> |> <| dv_task := TK_Drive next effect |>).
  unfold driver_step. cbn [is_task_event]. unfold task_step. by rewrite Et, (begin_recovery_ok d generation next effect I Et).
Qed.

(** ** Witnesses: an operation waits while the second attempt succeeds *)

Definition sample_policy : RecoveryPolicy := mkPolicy 2 1000 10000 10 100 7 4.
Definition sample_connection : ObjectToken := mkToken 1 0 0.
Definition sample_replacement : ObjectToken := mkToken 2 0 0.

Definition sample_outage : list DriverEvent :=
  [DE_Recover (mkExit 1 (EX_Transport (RT_Transport (TF_Code 0)))); DE_TransportLost 5; DE_Begin;
   DE_Resolve sample_connection None 6; DE_Slept; DE_Woke 6; DE_Bootstrapped (Err (RT_Transport (TF_Code 0)));
   DE_AttemptEnded 7 3].
Definition sample_recovery : list DriverEvent :=
  [DE_Slept; DE_Woke 20; DE_Bootstrapped (Ok sample_replacement); DE_AttemptEnded 21 0; DE_FinishRecovery; DE_Completed 0].

Definition sample_driver : RecoveryDriver :=
  default (driver_new sample_connection sample_policy) (fst <$> driver_run (driver_new sample_connection sample_policy) sample_outage).

Lemma recovery_ends_and_frees_its_waiters_witness :
  dv_waiters sample_driver !! 0 = Some (WA_Parked 10006 None) /\ task_recovering (dv_task sample_driver) = true /\
  task_events sample_recovery <= 16.
Proof.
  destruct (recovery_ends_and_frees_its_waiters sample_connection sample_policy sample_outage sample_driver []) as (_ & Hb & Hw).
  - unfold policy_ok, duration_ok, duration_max. cbn. ints.
  - repeat constructor; cbn; unfold time_ok, duration_ok, duration_max; ints.
  - vm_compute. reflexivity.
  - split; [vm_compute; reflexivity|]. split.
    + by apply (Hw 0 10006); vm_compute.
    + destruct (driver_run sample_driver sample_recovery) as [[d' os']|] eqn:E; [|by vm_compute in E].
      refine (Hb _ d' os' _ _ E); repeat constructor; cbn; unfold time_ok, duration_ok, duration_max; ints.
Defined.

Lemma waiting_operations_get_published_connections_witness :
  exists d os, driver_run (driver_new sample_connection sample_policy) (sample_outage ++ sample_recovery) = Some (d, os) /\
  DO_Answered 0 (Ok sample_replacement) ∈ os /\ NoDup (answered os) /\ published_first os.
Proof.
  eexists _, _. split; [vm_compute; reflexivity|]. split; [set_solver|].
  eapply (waiting_operations_get_published_connections sample_connection sample_policy (sample_outage ++ sample_recovery)).
  vm_compute. reflexivity.
Defined.
