(* ===== verification/Stream.v ===== *)
(** Binary streams (crates/smb-dtyp/src/binrw_util): a cursor over bytes that is read and written
    at a position, the markers whose value is written back when it is known (pos_marker.rs), the
    helpers of helpers.rs and boolean.rs, and what the structures' layout attributes ask of a
    stream: alignment, limited streams, variants that are tried in order, counted lists.

    The attributes are read as [binrw] documents them. A call that fails leaves the reading or
    writing of the whole structure failed; an overflowing subtraction is a panic. *)
From S2P Require Import Prelude Effects Bytes.
Local Open Scope Z_scope.

(** ** Cursors *)

Record Stream := mkStream { st_data : bytes; st_pos : nat }.

#[export] Instance eta_Stream : Eta Stream := fun s => mkStream (st_data s) (st_pos s).

Inductive BinError := Bin_Eof | Bin_Assert | Bin_NoVariant | Bin_Custom.

#[export] Instance BinError_eq : EqDecision BinError.
Proof. solve_decision. Defined.

Definition bin (A : Type) : Type := eff Stream BinError A.

Definition stream_position : bin nat := fun s => Some (s, Ok (st_pos s)).

(** [seek(SeekFrom::Start(n))]; a position behind the end is allowed. *)
Definition seek_start (n : nat) : bin unit := fun s => Some (s <| st_pos := n |>, Ok tt).

(** [write_all]: overwrites what is there, extends the data, and fills a gap with zeros. *)
Definition overwrite (data : bytes) (pos : nat) (bs : bytes) : bytes :=
  take pos data ++ replicate (pos - length data) 0 ++ bs ++ drop (pos + length bs) data.

Definition write_all (bs : bytes) : bin unit := fun s =>
  Some (mkStream (overwrite (st_data s) (st_pos s) bs) (st_pos s + length bs), Ok tt).

Definition read_exact (n : nat) : bin bytes := fun s =>
  if (length (st_data s) <? st_pos s + n)%nat then Some (s, Err Bin_Eof)
  else Some (s <| st_pos := (st_pos s + n)%nat |>, Ok (take n (drop (st_pos s) (st_data s)))).

Definition bin_assert (b : bool) : bin unit := e_lift (if b then Ok tt else Err Bin_Assert).

(** ** Integers and flags *)

Definition put (n : nat) (v : Z) : bin unit := write_all (le_bytes n v).
Definition get (n : nat) : bin Z := bs ← read_exact n; mret (le_value bs).

(** [write_u48] and [read_u48] in a big-endian structure. *)
Definition write_u48 (v : Z) : bin unit := write_all (drop 2 (be_bytes 8 v)).
Definition read_u48 : bin Z := bs ← read_exact 6; mret (be_value (replicate 2 0 ++ bs)).

(** A field that is always written with one value; [get_const] also asserts it when it is read. *)
Definition get_const (n : nat) (v : Z) : bin unit := x ← get n; bin_assert (bool_decide (x = v)).

(** [Boolean] *)
Definition write_boolean (b : bool) : bin unit := put 1 (if b then 1 else 0).
Definition read_boolean : bin bool := v ← get 1; mret (bool_decide (v <> 0)).

(** [#[brw(repr(..))]] of an enum, by the table of its codes. *)
Definition get_enum {A} (n : nat) (of_code : Z -> option A) : bin A :=
  v ← get n; e_lift (ok_or Bin_NoVariant (of_code v)).

(** The enums whose variants are integer codes, as a class. *)
Class Repr (A : Type) := { repr_code : A -> Z; repr_all : list A }.

Definition repr_of_code {A} `{Repr A} (v : Z) : option A :=
  List.find (fun a => bool_decide (repr_code a = v)) repr_all.

Definition put_repr {A} `{Repr A} (n : nat) (a : A) : bin unit := put n (repr_code a).
Definition get_repr {A} `{Repr A} (n : nat) : bin A := get_enum n repr_of_code.

(** ** Structure *)

Definition padding (m pos : nat) : nat := (m - pos `mod` m) `mod` m.

(** [align_before = m] *)
Definition write_align (m : nat) : bin unit :=
  pos ← stream_position; write_all (replicate (padding m pos) 0).
Definition read_align (m : nat) : bin unit :=
  pos ← stream_position; seek_start (pos + padding m pos).

(** [map_stream = |s| s.take_seek(n)]: the value is read from a stream that ends after [n] bytes. *)
Definition take_seek {A} (n : nat) (r : bin A) : bin A := fun s =>
  match r (mkStream (take (st_pos s + n) (st_data s)) (st_pos s)) with
  | None => None
  | Some (s', res) => Some (s <| st_pos := st_pos s' |>, res)
  end.

(** The variants of an enum, tried in order from the same position. *)
Fixpoint read_variants {A} (variants : list (bin A)) : bin A := fun s =>
  match variants with
  | [] => Some (s, Err Bin_NoVariant)
  | r :: variants =>
      match r s with
      | None => None
      | Some (s', Ok a) => Some (s', Ok a)
      | Some (_, Err _) => read_variants variants s
      end
  end.

(** [count = n] *)
Fixpoint read_count {A} (n : nat) (r : bin A) : bin (list A) :=
  match n with
  | O => mret []
  | S n => a ← r; l ← read_count n r; mret (a :: l)
  end.

Fixpoint write_list {A} (w : A -> bin unit) (l : list A) : bin unit :=
  match l with
  | [] => mret tt
  | a :: l => _ ← w a; write_list w l
  end.

(** The count of a list of [n] items in a field of [w] bytes ([try_calc = len.try_into()]). *)
Definition put_count {A} (w : nat) (l : list A) : bin unit :=
  if bool_decide (zlen l < 256 ^ Z.of_nat w) then put w (zlen l) else e_lift (Err Bin_Custom).

(** [NullString] and [NullWideString], by the width of a unit: written with a null unit behind
    them, read up to one. *)
Definition write_null (w : nat) (s : list Z) : bin unit := _ ← write_list (put w) s; put w 0.

Fixpoint read_null_loop (w fuel : nat) : bin (list Z) :=
  match fuel with
  | O => e_panic
  | S fuel =>
      v ← get w;
      if bool_decide (v = 0) then mret [] else rest ← read_null_loop w fuel; mret (v :: rest)
  end.

Definition read_null (w : nat) : bin (list Z) := fun s => read_null_loop w (S (length (st_data s))) s.

(** [SizedWideString], by the size of its data in bytes. An odd size is refused when it is read, and so
    is the size of an empty string. *)
Definition wide_size (s : list Z) : Z := 2 * zlen s.

(** [try_calc = buffer.size().try_into()] *)
Definition put_wide_size (w : nat) (s : list Z) : bin unit :=
  if bool_decide (wide_size s < 256 ^ Z.of_nat w) then put w (wide_size s) else e_lift (Err Bin_Custom).

Definition write_sized_wide (s : list Z) : bin unit := write_list (put 2) s.
Definition read_sized_wide (size : Z) : bin (list Z) :=
  if bool_decide (size mod 2 <> 0) then e_lift (Err Bin_Custom)
  else if bool_decide (size = 0) then e_lift (Err Bin_Custom)
  else read_count (Z.to_nat (size / 2)) (get 2).

(** [until_eof] on bytes. *)
Definition bytes_until_eof : bin bytes := fun s =>
  Some (s <| st_pos := Nat.max (st_pos s) (length (st_data s)) |>, Ok (drop (st_pos s) (st_data s))).

(** [#[br(if(c))]] and the writing of an [Option]. *)
Definition get_if {A} (c : bool) (r : bin A) : bin (option A) :=
  if c then a ← r; mret (Some a) else mret None.
Definition put_opt {A} (w : A -> bin unit) (o : option A) : bin unit :=
  match o with Some a => w a | None => mret tt end.

(** [binread_if_has_data] *)
Definition binread_if_has_data {A} (r : bin A) : bin (option A) := fun s =>
  if (length (st_data s) <? st_pos s)%nat then None
  else get_if (st_pos s <? length (st_data s))%nat r s.

(** ** Markers

    [PosMarker<T>], by the width of [T] and the position it was written at. *)

Record PosMarker := mkMarker { pm_width : nat; pm_pos : nat }.

(** Writing a fresh marker writes the default of [T]. *)
Definition put_marker (n : nat) : bin PosMarker :=
  pos ← stream_position; _ ← put n 0; mret (mkMarker n pos).

(** Reading one keeps its position and its value. *)
Definition get_marker (n : nat) : bin (PosMarker * Z) :=
  pos ← stream_position; v ← get n; mret (mkMarker n pos, v).

Definition write_back (m : PosMarker) (v : Z) : bin unit :=
  return_to ← stream_position;
  _ ← seek_start (pm_pos m);
  _ ← e_lift (if bool_decide (0 <= v < 256 ^ Z.of_nat (pm_width m)) then Ok tt else Err Bin_Custom);
  _ ← put (pm_width m) v;
  seek_start return_to.

Definition write_hero (value : bin unit) (write_size_to write_offset_to : option PosMarker)
    (offset_relative_to : option PosMarker) (size_plus offset_plus : Z) : bin unit :=
  start_offset ← stream_position;
  _ ← match write_offset_to with
      | None => mret tt
      | Some write_offset_at =>
          let base_offset_val := match offset_relative_to with Some base => pm_pos base | None => O end in
          if (start_offset <? base_offset_val)%nat then e_panic
          else write_back write_offset_at (Z.of_nat (start_offset - base_offset_val) + offset_plus)
      end;
  _ ← value;
  end_offset ← stream_position;
  match write_size_to with
  | None => mret tt
  | Some write_size_to => write_back write_size_to (Z.of_nat (end_offset - start_offset) + size_plus)
  end.

Definition write_roff_plus (value : bin unit) (offset : PosMarker) (plus : Z) : bin unit :=
  write_hero value None (Some offset) (Some offset) 0 plus.
Definition write_roff_b (value : bin unit) (offset base : PosMarker) : bin unit :=
  write_hero value None (Some offset) (Some base) 0 0.
Definition write_aoff (value : bin unit) (offset : PosMarker) : bin unit :=
  write_hero value None (Some offset) None 0 0.
Definition write_roff_size (value : bin unit) (offset size : PosMarker) : bin unit :=
  write_hero value (Some size) (Some offset) None 0 0.
Definition write_aoff_size (value : bin unit) (offset size : PosMarker) : bin unit :=
  write_hero value (Some size) (Some offset) None 0 0.
Definition write_roff_size_b_plus (value : bin unit) (offset size base : PosMarker) (plus : Z) : bin unit :=
  write_hero value (Some size) (Some offset) (Some base) 0 plus.
Definition write_size (value : bin unit) (size : PosMarker) : bin unit :=
  write_hero value (Some size) None None 0 0.
Definition write_size_plus (value : bin unit) (size : PosMarker) (extra_size : Z) : bin unit :=
  write_hero value (Some size) None None extra_size 0.

(** [seek_from(offset)] *)
Definition seek_from (m : PosMarker) (offset : Z) : bin unit := seek_start (pm_pos m + Z.to_nat offset).
