(* ===== verification/Codec.v ===== *)
(** Reasoning about layouts: what a writer appends to a stream, what a reader takes from it, and
    the class of types whose values are read back from what they are written as.

    [writes n w x]: at the end of a stream of [n] bytes, [w] appends [x]. [reads n r x a]: at
    position [n], [r] takes [x] and answers [a], whatever follows; [reads_to] asks that the stream
    ends after [x]. The bytes may depend on the position, since alignment and offsets do. *)
From S2P Require Import Prelude Effects Bytes Stream.
Local Open Scope Z_scope.

Definition at_end (data : bytes) : Stream := mkStream data (length data).

Definition writes (n : nat) (w : bin unit) (x : bytes) : Prop :=
  forall base, length base = n -> w (at_end base) = Some (at_end (base ++ x), Ok tt).

Definition reads {A} (n : nat) (r : bin A) (x : bytes) (a : A) : Prop :=
  forall pre post, length pre = n ->
    r (mkStream (pre ++ x ++ post) n) = Some (mkStream (pre ++ x ++ post) (n + length x), Ok a).

Definition reads_to {A} (n : nat) (r : bin A) (x : bytes) (a : A) : Prop :=
  forall pre, length pre = n -> r (mkStream (pre ++ x) n) = Some (mkStream (pre ++ x) (n + length x), Ok a).

Lemma reads_reads_to {A} n (r : bin A) x a : reads n r x a -> reads_to n r x a.
Proof. intros H pre Hn. specialize (H pre [] Hn). by rewrite !app_nil_r in H. Qed.

(** The same without saying where the reader stops: one that seeks may stop in front of the end. *)
Definition reads_any {A} (n : nat) (r : bin A) (x : bytes) (a : A) : Prop :=
  forall pre post, length pre = n -> exists pos,
    r (mkStream (pre ++ x ++ post) n) = Some (mkStream (pre ++ x ++ post) pos, Ok a).

Definition reads_to_any {A} (n : nat) (r : bin A) (x : bytes) (a : A) : Prop :=
  forall pre, length pre = n -> exists pos, r (mkStream (pre ++ x) n) = Some (mkStream (pre ++ x) pos, Ok a).

Lemma reads_reads_any {A} n (r : bin A) x a : reads n r x a -> reads_any n r x a.
Proof. intros H pre post Hn. eexists. by apply H. Qed.

Lemma reads_to_reads_any {A} n (r : bin A) x a : reads_to n r x a -> reads_to_any n r x a.
Proof. intros H pre Hn. eexists. by apply H. Qed.

Lemma reads_any_to_any {A} n (r : bin A) x a : reads_any n r x a -> reads_to_any n r x a.
Proof. intros H pre Hn. destruct (H pre [] Hn) as [pos Hp]. rewrite !app_nil_r in Hp. by exists pos. Qed.

(** ** Steps *)

Lemma run_bind {A B} (m : bin A) (f : A -> bin B) s s' a r :
  m s = Some (s', Ok a) -> f a s' = r -> (m ≫= f) s = r.
Proof. intros H <-. unfold mbind, eff_bind. by rewrite H. Qed.

Lemma writes_bind n w1 (w2 : unit -> bin unit) x y :
  writes n w1 x -> writes (n + length x) (w2 tt) y -> writes n (w1 ≫= w2) (x ++ y).
Proof.
  intros H1 H2 base Hn. eapply run_bind; [by apply H1|]. rewrite H2 by (rewrite length_app; lia).
  by rewrite app_assoc.
Qed.

Lemma writes_ret n : writes n (mret tt) [].
Proof. intros base _. by rewrite app_nil_r. Qed.

Lemma reads_bind {A B} n (r : bin A) (f : A -> bin B) x y a b :
  reads n r x a -> reads (n + length x) (f a) y b -> reads n (r ≫= f) (x ++ y) b.
Proof.
  intros H1 H2 pre post Hn. rewrite <- app_assoc. eapply run_bind; [by apply H1|].
  rewrite (app_assoc pre x), H2 by (rewrite length_app; lia). by rewrite length_app, Nat.add_assoc.
Qed.

Lemma reads_to_bind {A B} n (r : bin A) (f : A -> bin B) x y a b :
  reads n r x a -> reads_to (n + length x) (f a) y b -> reads_to n (r ≫= f) (x ++ y) b.
Proof.
  intros H1 H2 pre Hn. eapply run_bind; [by apply H1|].
  rewrite (app_assoc pre x), H2 by (rewrite length_app; lia). by rewrite length_app, Nat.add_assoc.
Qed.

Lemma reads_ret {A} n (a : A) : reads n (mret a) [] a.
Proof. intros pre post _. by rewrite Nat.add_0_r. Qed.

(** Steps that take no bytes. *)
Lemma reads_skip {A B} n (r : bin A) (f : A -> bin B) x a b :
  reads n r [] a -> reads n (f a) x b -> reads n (r ≫= f) x b.
Proof. intros H1 H2. apply (reads_bind n r f [] x a b H1). by rewrite Nat.add_0_r. Qed.

Lemma reads_to_skip {A B} n (r : bin A) (f : A -> bin B) x a b :
  reads n r [] a -> reads_to n (f a) x b -> reads_to n (r ≫= f) x b.
Proof. intros H1 H2. apply (reads_to_bind n r f [] x a b H1). by rewrite Nat.add_0_r. Qed.

Lemma reads_lift {A} n (a : A) : reads n (e_lift (Ok a)) [] a.
Proof. intros pre post _. by rewrite Nat.add_0_r. Qed.

Lemma reads_assert n (b : bool) : b = true -> reads n (bin_assert b) [] tt.
Proof. intros ->. apply reads_lift. Qed.

Lemma writes_assert n (b : bool) (w : bin unit) x : b = true -> writes n w x -> writes n (_ ← bin_assert b; w) x.
Proof. intros -> H base Hn. eapply run_bind; [reflexivity|]. by apply H. Qed.

Lemma reads_position n : reads n stream_position [] n.
Proof. intros pre post _. by rewrite Nat.add_0_r. Qed.

Lemma reads_any_bind {A B} n (r : bin A) (f : A -> bin B) x y a b :
  reads n r x a -> reads_any (n + length x) (f a) y b -> reads_any n (r ≫= f) (x ++ y) b.
Proof.
  intros H1 H2 pre post Hn. rewrite <- app_assoc.
  destruct (H2 (pre ++ x) post) as [pos Hp]; [rewrite length_app; lia|]. rewrite <- app_assoc in Hp.
  exists pos. eapply run_bind; [by apply H1|]. done.
Qed.

Lemma reads_any_skip {A B} n (r : bin A) (f : A -> bin B) x a b :
  reads n r [] a -> reads_any n (f a) x b -> reads_any n (r ≫= f) x b.
Proof. intros H1 H2. apply (reads_any_bind n r f [] x a b H1). by rewrite Nat.add_0_r. Qed.

Lemma reads_any_at {A} n m (r : bin A) x a : n = m -> reads_any n r x a -> reads_any m r x a.
Proof. by intros <-. Qed.

Lemma reads_to_any_at {A} n m (r : bin A) x a : n = m -> reads_to_any n r x a -> reads_to_any m r x a.
Proof. by intros <-. Qed.

Lemma reads_to_any_map {A B} n (r : bin A) (f : A -> B) x a : reads_to_any n r x a -> reads_to_any n (v ← r; mret (f v)) x (f a).
Proof. intros H pre Hn. destruct (H pre Hn) as [pos Hp]. exists pos. eapply run_bind; [exact Hp|]. done. Qed.

Lemma reads_any_map {A B} n (r : bin A) (f : A -> B) x a : reads_any n r x a -> reads_any n (v ← r; mret (f v)) x (f a).
Proof. intros H pre post Hn. destruct (H pre post Hn) as [pos Hp]. exists pos. eapply run_bind; [exact Hp|]. done. Qed.

(** A last step, from wherever the reader stopped. *)
Lemma reads_any_then {A B} n (r : bin A) (f : A -> bin B) x a b :
  reads_any n r x a -> (forall s, f a s = Some (s, Ok b)) -> reads_any n (r ≫= f) x b.
Proof. intros H Hf pre post Hn. destruct (H pre post Hn) as [pos Hp]. exists pos. eapply run_bind; [exact Hp|apply Hf]. Qed.

Lemma reads_any_ignore {A} n (r : bin A) x a : reads_any n r [] a -> reads_any n r x a.
Proof. intros H pre post Hn. exact (H pre (x ++ post) Hn). Qed.

(** A seek to where the stream already is. *)
Lemma reads_seek n k : k = n -> reads n (seek_start k) [] tt.
Proof. intros -> pre post _. by rewrite Nat.add_0_r. Qed.

(** A seek over the next bytes. *)
Lemma reads_seek_over n k x : k = (n + length x)%nat -> reads n (seek_start k) x tt.
Proof. by intros -> pre post _. Qed.

(** ** Bytes and integers *)

Lemma overwrite_end data bs : overwrite data (length data) bs = data ++ bs.
Proof. unfold overwrite. rewrite firstn_all, Nat.sub_diag, drop_ge by lia. cbn. by rewrite app_nil_r. Qed.

Lemma write_all_end data bs : write_all bs (at_end data) = Some (at_end (data ++ bs), Ok tt).
Proof. unfold write_all, at_end. cbn [st_data st_pos]. by rewrite overwrite_end, length_app. Qed.

Lemma writes_all n bs : writes n (write_all bs) bs.
Proof. intros base _. apply write_all_end. Qed.

Lemma writes_put n w v : writes n (put w v) (le_bytes w v).
Proof. apply writes_all. Qed.

Lemma reads_exact n x : reads n (read_exact (length x)) x x.
Proof.
  intros pre post Hn. unfold read_exact. cbn [st_data st_pos].
  destruct (Nat.ltb_spec (length (pre ++ x ++ post)) (n + length x)) as [H|_]; [rewrite !length_app in H; lia|].
  subst n. by rewrite drop_app_length, take_app_length.
Qed.

Lemma reads_exact' n k x : k = length x -> reads n (read_exact k) x x.
Proof. intros ->. apply reads_exact. Qed.

Lemma reads_map {A B} n (r : bin A) (f : A -> B) x a : reads n r x a -> reads n (v ← r; mret (f v)) x (f a).
Proof. intros H. rewrite <- (app_nil_r x). eapply reads_bind; [done|apply reads_ret]. Qed.

Lemma reads_get n w v : 0 <= v < 256 ^ Z.of_nat w -> reads n (get w) (le_bytes w v) v.
Proof.
  intros Hv. unfold get. rewrite <- (le_value_bytes w v Hv) at 2. apply reads_map.
  apply reads_exact'. by rewrite length_le_bytes.
Qed.

Lemma reads_get_const n w v : 0 <= v < 256 ^ Z.of_nat w -> reads n (get_const w v) (le_bytes w v) tt.
Proof.
  intros Hv. unfold get_const. rewrite <- (app_nil_r (le_bytes w v)).
  eapply reads_bind; [by apply reads_get|]. apply reads_assert. by rewrite bool_decide_eq_true_2.
Qed.

Lemma reads_enum {A} n w (of_code : Z -> option A) code a :
  0 <= code < 256 ^ Z.of_nat w -> of_code code = Some a -> reads n (get_enum w of_code) (le_bytes w code) a.
Proof.
  intros Hv Ha. unfold get_enum. rewrite <- (app_nil_r (le_bytes w code)).
  eapply reads_bind; [by apply reads_get|]. cbv beta. rewrite Ha. apply reads_lift.
Qed.

(** What a table of codes promises: every code stands for one variant. *)
Class ReprLaws (A : Type) `{Repr A} := repr_exact : forall a : A, repr_of_code (repr_code a) = Some a.

Lemma reads_repr {A} `{ReprLaws A} n w (a : A) :
  0 <= repr_code a < 256 ^ Z.of_nat w -> reads n (get_repr w) (le_bytes w (repr_code a)) a.
Proof. intros Hr. apply reads_enum; [done|apply repr_exact]. Qed.

Lemma writes_repr {A} `{Repr A} n w (a : A) : writes n (put_repr w a) (le_bytes w (repr_code a)).
Proof. apply writes_put. Qed.

Lemma writes_u48 n v : writes n (write_u48 v) (be_bytes 6 v).
Proof.
  unfold write_u48. replace (drop 2 (be_bytes 8 v)) with (be_bytes 6 v); [apply writes_all|].
  unfold be_bytes, le_bytes. reflexivity.
Qed.

Lemma le_value_zeros n l : le_value (l ++ replicate n 0) = le_value l.
Proof.
  induction l as [|b l IH]; cbn [app le_value]; [|by rewrite IH].
  induction n as [|n IH]; cbn [replicate le_value]; [done|by rewrite IH].
Qed.

Lemma be_value_zeros n bs : be_value (replicate n 0 ++ bs) = be_value bs.
Proof. unfold be_value. by rewrite reverse_app, reverse_replicate, le_value_zeros. Qed.

Lemma reads_u48 n v : 0 <= v < 2 ^ 48 -> reads n read_u48 (be_bytes 6 v) v.
Proof.
  intros Hv. unfold read_u48. replace v with (be_value (replicate 2 0 ++ be_bytes 6 v)) at 2.
  - apply (reads_map n (read_exact 6) (fun bs => be_value (replicate 2 0 ++ bs))). apply reads_exact'.
    by rewrite length_be_bytes.
  - rewrite be_value_zeros. apply be_value_bytes. change (256 ^ Z.of_nat 6) with (2 ^ 48). lia.
Qed.

Lemma reads_boolean n (b : bool) : reads n read_boolean (le_bytes 1 (if b then 1 else 0)) b.
Proof.
  pose proof (reads_map n (get 1) (fun v => bool_decide (v <> 0)) _ _ (reads_get n 1 (if b then 1 else 0) ltac:(destruct b; cbn; lia))) as H.
  by destruct b.
Qed.

(** ** Alignment, limits and variants *)

Lemma padding_aligned m pos : m <> O -> exists k, (pos + padding m pos = k * m)%nat.
Proof.
  intros Hm. unfold padding. pose proof (Nat.div_mod pos m Hm) as Hd. pose proof (Nat.mod_upper_bound pos m Hm).
  destruct (decide (pos `mod` m = 0)%nat) as [E|E].
  - exists (pos / m)%nat. rewrite E, Nat.sub_0_r, Nat.Div0.mod_same. lia.
  - exists (S (pos / m)). rewrite (Nat.mod_small (m - pos `mod` m)) by lia. lia.
Qed.

Lemma padding_lt m pos : m <> O -> (padding m pos < m)%nat.
Proof. intros Hm. unfold padding. by apply Nat.mod_upper_bound. Qed.

Lemma writes_align n m : writes n (write_align m) (replicate (padding m n) 0).
Proof.
  intros base Hn. unfold write_align. eapply run_bind; [reflexivity|]. cbn [st_pos at_end].
  rewrite Hn. apply write_all_end.
Qed.

Lemma reads_align n m : reads n (read_align m) (replicate (padding m n) 0) tt.
Proof. intros pre post _. by rewrite length_replicate. Qed.

Lemma reads_take_seek {A} n k (r : bin A) x a : reads_to n r x a -> k = length x -> reads n (take_seek k r) x a.
Proof.
  intros H -> pre post Hn. unfold take_seek. cbn [st_pos st_data].
  replace (take (n + length x) (pre ++ x ++ post)) with (pre ++ x).
  - by rewrite (H pre Hn).
  - rewrite app_assoc. subst n. rewrite <- length_app. by rewrite take_app_length.
Qed.

Lemma reads_take_seek_any {A} n k (r : bin A) x a : reads_to_any n r x a -> k = length x -> reads_any n (take_seek k r) x a.
Proof.
  intros H -> pre post Hn. destruct (H pre Hn) as [pos Hp]. exists pos. unfold take_seek. cbn [st_pos st_data].
  replace (take (n + length x) (pre ++ x ++ post)) with (pre ++ x).
  - by rewrite Hp.
  - rewrite app_assoc. subst n. rewrite <- length_app. by rewrite take_app_length.
Qed.

Lemma reads_until_eof n x : reads_to n bytes_until_eof x x.
Proof.
  intros pre Hn. unfold bytes_until_eof. subst n. cbn [st_pos st_data]. rewrite drop_app_length, length_app, Nat.max_r by lia. done.
Qed.

Lemma reads_to_map {A B} n (r : bin A) (f : A -> B) x a : reads_to n r x a -> reads_to n (v ← r; mret (f v)) x (f a).
Proof. intros H pre Hn. eapply run_bind; [by apply H|]. done. Qed.

Lemma reads_variants_head {A} n (r : bin A) rs x a : reads n r x a -> reads n (read_variants (r :: rs)) x a.
Proof. intros H pre post Hn. cbn [read_variants]. by rewrite H. Qed.

Lemma reads_to_variants_head {A} n (r : bin A) rs x a : reads_to n r x a -> reads_to n (read_variants (r :: rs)) x a.
Proof. intros H pre Hn. cbn [read_variants]. by rewrite H. Qed.

Lemma read_variants_next {A} (r : bin A) rs s s' e :
  r s = Some (s', Err e) -> read_variants (r :: rs) s = read_variants rs s.
Proof. intros H. cbn [read_variants]. by rewrite H. Qed.

Lemma reads_get_if {A} n (c : bool) (r : bin A) x (o : option A) :
  match o with Some a => c = true /\ reads n r x a | None => c = false /\ x = [] end -> reads n (get_if c r) x o.
Proof.
  destruct o as [a|]; intros [-> H]; cbn [get_if]; [|subst; apply reads_ret].
  by apply (reads_map n r Some).
Qed.

(** ** Segments

    A structure with markers is written field by field, and a marker is overwritten when what it
    stands for is known. [ends segs] is the end of a stream made of segments, one per field. *)

Definition ends (segs : list bytes) : Stream := at_end (concat segs).

Lemma ends_app segs x : at_end (concat segs ++ x) = ends (segs ++ [x]).
Proof. unfold ends. rewrite concat_app. cbn [concat]. by rewrite app_nil_r. Qed.

Lemma run_write segs w x :
  writes (length (concat segs)) w x -> w (ends segs) = Some (ends (segs ++ [x]), Ok tt).
Proof. intros H. unfold ends at 1. rewrite H by done. by rewrite ends_app. Qed.

Lemma run_put segs n v : put n v (ends segs) = Some (ends (segs ++ [le_bytes n v]), Ok tt).
Proof. apply run_write, writes_put. Qed.

Lemma run_assert b s : b = true -> bin_assert b s = Some (s, Ok tt).
Proof. by intros ->. Qed.

Lemma run_marker segs n :
  put_marker n (ends segs) = Some (ends (segs ++ [le_bytes n 0]), Ok (mkMarker n (length (concat segs)))).
Proof.
  unfold put_marker. eapply run_bind; [reflexivity|]. eapply run_bind; [apply run_put|]. done.
Qed.

Lemma concat_middle segs i (old : bytes) :
  segs !! i = Some old -> concat segs = concat (take i segs) ++ old ++ concat (drop (S i) segs).
Proof. intros Hi. rewrite <- (take_drop_middle segs i old Hi) at 1. by rewrite concat_app. Qed.

Lemma concat_insert segs i (old bs : bytes) :
  segs !! i = Some old -> concat (<[i:=bs]> segs) = concat (take i segs) ++ bs ++ concat (drop (S i) segs).
Proof.
  intros Hi. rewrite insert_take_drop by (by eapply lookup_lt_Some). by rewrite concat_app.
Qed.

Lemma overwrite_segment segs i old bs :
  segs !! i = Some old -> length bs = length old ->
  overwrite (concat segs) (length (concat (take i segs))) bs = concat (<[i:=bs]> segs).
Proof.
  intros Hi Hl. rewrite (concat_middle segs i old Hi), (concat_insert segs i old bs Hi). unfold overwrite.
  rewrite take_app_length, Hl, drop_app_add, drop_app_length.
  replace (_ - _)%nat with O by (rewrite length_app; lia). done.
Qed.

Lemma run_back i segs old w v :
  segs !! i = Some old -> length old = w -> 0 <= v < 256 ^ Z.of_nat w ->
  write_back (mkMarker w (length (concat (take i segs)))) v (ends segs) =
    Some (ends (<[i:=le_bytes w v]> segs), Ok tt).
Proof.
  intros Hi Hl Hv. unfold write_back. eapply run_bind; [reflexivity|]. eapply run_bind; [reflexivity|].
  cbn [pm_width pm_pos]. rewrite bool_decide_eq_true_2 by done. eapply run_bind; [reflexivity|].
  eapply run_bind; [reflexivity|]. unfold seek_start, ends, at_end. cbn [st_pos st_data].
  rewrite (overwrite_segment segs i old) by (rewrite ?length_le_bytes; done). do 2 f_equal.
  assert (Hlen : length (concat (<[i:=le_bytes w v]> segs)) = length (concat segs)).
  { rewrite (concat_insert segs i old _ Hi), !length_app, length_le_bytes.
    rewrite (concat_middle segs i old Hi). rewrite !length_app. lia. }
  by rewrite Hlen.
Qed.

(** A marker that is written back keeps the lengths, and so the positions, of all segments. *)
Lemma length_concat_lengths (l k : list bytes) : length <$> l = length <$> k -> length (concat l) = length (concat k).
Proof.
  revert k. induction l as [|a l IH]; intros [|b k] H; [done|done|done|]. injection H as H1 H2.
  cbn [concat]. rewrite !length_app. by rewrite H1, (IH k H2).
Qed.

Lemma lengths_insert (segs : list bytes) i old bs :
  segs !! i = Some old -> length bs = length old -> length <$> <[i:=bs]> segs = length <$> segs.
Proof. intros Hi Hl. rewrite list_fmap_insert, Hl. apply list_insert_id. by rewrite list_lookup_fmap, Hi. Qed.

Lemma lengths_take (l k : list bytes) j : length <$> l = length <$> k -> length (concat (take j l)) = length (concat (take j k)).
Proof. intros H. apply length_concat_lengths. by rewrite !fmap_take, H. Qed.

(** [write_hero] at the end of a stream: the offset marker is segment [i], the size marker
    segment [j]. *)
Definition hero_segments (segs : list bytes) (x : bytes) (offset : option (nat * nat * Z)) (size : option (nat * nat * Z))
    : list bytes :=
  let segs := match offset with Some (i, w, v) => <[i:=le_bytes w v]> segs | None => segs end in
  let segs := segs ++ [x] in
  match size with Some (j, w, v) => <[j:=le_bytes w v]> segs | None => segs end.

Definition offset_marked (segs : list bytes) (base : option PosMarker) (plus : Z) (offset : option (nat * nat * Z)) : Prop :=
  match offset with
  | None => True
  | Some (i, w, v) =>
      (exists old, segs !! i = Some old /\ length old = w) /\ 0 <= v < 256 ^ Z.of_nat w /\
      let b := match base with Some m => pm_pos m | None => O end in
      (b <= length (concat segs))%nat /\ v = Z.of_nat (length (concat segs)) - Z.of_nat b + plus
  end.

Definition size_marked (segs : list bytes) (x : bytes) (plus : Z) (size : option (nat * nat * Z)) : Prop :=
  match size with
  | None => True
  | Some (j, w, v) =>
      (exists old, segs !! j = Some old /\ length old = w) /\ 0 <= v < 256 ^ Z.of_nat w /\ v = zlen x + plus
  end.

Definition marker_at (segs : list bytes) (m : nat * nat * Z) : PosMarker :=
  mkMarker m.1.2 (length (concat (take m.1.1 segs))).

Lemma run_hero segs value x offset size base size_plus offset_plus :
  writes (length (concat segs)) value x ->
  offset_marked segs base offset_plus offset -> size_marked segs x size_plus size ->
  write_hero value (marker_at segs <$> size) (marker_at segs <$> offset) base size_plus offset_plus (ends segs) =
    Some (ends (hero_segments segs x offset size), Ok tt).
Proof.
  intros Hw Ho Hs. unfold write_hero, hero_segments. eapply run_bind; [reflexivity|]. cbn [st_pos ends at_end].
  set (segs1 := match offset with Some (i, w, v) => <[i:=le_bytes w v]> segs | None => segs end).
  assert (Hls : length <$> segs1 = length <$> segs).
  { subst segs1. destruct offset as [[[i w] v]|]; [|done]. destruct Ho as ((old & Hi & Hl) & _).
    apply (lengths_insert segs i old); [done|]. by rewrite length_le_bytes. }
  pose proof (length_concat_lengths _ _ Hls) as Hlen.
  eapply (run_bind _ _ _ (ends segs1)).
  { subst segs1. destruct offset as [[[i w] v]|]; cbn [fmap option_fmap option_map]; [|done].
    destruct Ho as ((old & Hi & Hl) & Hv & Hb & ->). set (b := match base with Some m => pm_pos m | None => O end) in *.
    destruct (Nat.ltb_spec (length (concat segs)) b) as [H|_]; [lia|]. unfold marker_at. cbn [fst snd].
    rewrite Nat2Z.inj_sub by done. by apply (run_back i segs old). }
  eapply run_bind; [apply run_write; by rewrite Hlen|]. eapply run_bind; [reflexivity|]. cbn [st_pos ends at_end].
  destruct size as [[[j w] v]|]; cbn [fmap option_fmap option_map]; [|done].
  destruct Hs as ((old & Hj & Hl) & Hv & ->).
  assert (Hsz : Z.of_nat (length (concat (segs1 ++ [x])) - length (concat segs)) = zlen x).
  { rewrite concat_app, length_app, Hlen. cbn [concat]. rewrite app_nil_r. unfold zlen. lia. }
  rewrite Hsz. clear Hsz.
  assert (Hj1 : exists old1, (segs1 ++ [x]) !! j = Some old1 /\ length old1 = w /\
    length (concat (take j (segs1 ++ [x]))) = length (concat (take j segs))).
  { assert (Hl1 : (length <$> segs1) !! j = Some w) by (rewrite Hls, list_lookup_fmap, Hj; by subst).
    rewrite list_lookup_fmap, fmap_Some in Hl1. destruct Hl1 as (old1 & H1 & H2). exists old1.
    pose proof (lookup_lt_Some _ _ _ H1). rewrite lookup_app_l, take_app_le by lia. split_and!; [done..|]. by apply lengths_take. }
  destruct Hj1 as (old1 & Hj1 & Hl1 & Hp). unfold marker_at. cbn [fst snd]. rewrite <- Hp.
  by apply (run_back j (segs1 ++ [x]) old1).
Qed.

(** The writers with markers, one by one. *)
Section markers.
Context (segs : list bytes) (value : bin unit) (x : bytes).
Context (Hw : writes (length (concat segs)) value x).
Let here : Z := Z.of_nat (length (concat segs)).

Lemma run_aoff i w old p :
  p = length (concat (take i segs)) -> segs !! i = Some old -> length old = w -> 0 <= here < 256 ^ Z.of_nat w ->
  write_aoff value (mkMarker w p) (ends segs) =
    Some (ends (<[i:=le_bytes w here]> segs ++ [x]), Ok tt).
Proof using Hw.
  intros -> Hi Hl Hv. apply (run_hero segs value x (Some (i, w, here)) None None 0 0); [done| |done].
  cbn. split_and!; [by exists old|lia..|unfold here; lia].
Qed.

Lemma run_roff_b i w old p base plus :
  p = length (concat (take i segs)) -> segs !! i = Some old -> length old = w -> (pm_pos base <= length (concat segs))%nat ->
  0 <= here - Z.of_nat (pm_pos base) + plus < 256 ^ Z.of_nat w ->
  write_hero value None (Some (mkMarker w p)) (Some base) 0 plus (ends segs) =
    Some (ends (<[i:=le_bytes w (here - Z.of_nat (pm_pos base) + plus)]> segs ++ [x]), Ok tt).
Proof using Hw.
  intros -> Hi Hl Hb Hv.
  apply (run_hero segs value x (Some (i, w, here - Z.of_nat (pm_pos base) + plus)) None (Some base) 0 plus); [done| |done].
  cbn. split_and!; [by exists old|lia..|unfold here; lia].
Qed.

Lemma run_size j w old p plus :
  p = length (concat (take j segs)) -> segs !! j = Some old -> length old = w -> 0 <= zlen x + plus < 256 ^ Z.of_nat w ->
  write_size_plus value (mkMarker w p) plus (ends segs) =
    Some (ends (<[j:=le_bytes w (zlen x + plus)]> (segs ++ [x])), Ok tt).
Proof using Hw.
  intros -> Hj Hl Hv. apply (run_hero segs value x None (Some (j, w, zlen x + plus)) None plus 0); [done..|].
  cbn. split_and!; [by exists old|lia..|done].
Qed.

Lemma run_offset_size i j w w' old old' p p' base plus :
  let b := match base with Some m => pm_pos m | None => O end in
  p = length (concat (take i segs)) -> p' = length (concat (take j segs)) ->
  segs !! i = Some old -> length old = w -> segs !! j = Some old' -> length old' = w' ->
  (b <= length (concat segs))%nat -> 0 <= here - Z.of_nat b + plus < 256 ^ Z.of_nat w -> 0 <= zlen x < 256 ^ Z.of_nat w' ->
  write_hero value (Some (mkMarker w' p')) (Some (mkMarker w p)) base 0 plus (ends segs) =
    Some (ends (<[j:=le_bytes w' (zlen x)]> (<[i:=le_bytes w (here - Z.of_nat b + plus)]> segs ++ [x])), Ok tt).
Proof using Hw.
  intros b -> -> Hi Hl Hj Hl' Hb Hv Hs.
  pose proof (run_hero segs value x (Some (i, w, here - Z.of_nat b + plus)) (Some (j, w', zlen x)) base 0 plus) as H.
  apply H; [done| |]; cbn.
  - split_and!; [by exists old|lia..|unfold here, b; lia].
  - split_and!; [by exists old'|lia..].
Qed.
End markers.

Lemma writes_at n m w x : n = m -> writes n w x -> writes m w x.
Proof. by intros <-. Qed.

Lemma reads_at {A} n m (r : bin A) x a : n = m -> reads n r x a -> reads m r x a.
Proof. by intros <-. Qed.

Lemma reads_to_at {A} n m (r : bin A) x a : n = m -> reads_to n r x a -> reads_to m r x a.
Proof. by intros <-. Qed.

Lemma writes_segs n w segs :
  (forall base, length base = n -> w (ends [base]) = Some (ends (base :: segs), Ok tt)) -> writes n w (concat segs).
Proof.
  intros H base Hn. specialize (H base Hn). unfold ends in H. cbn [concat] in H. by rewrite app_nil_r in H.
Qed.

Lemma reads_segs {A B} n (r : bin A) (f : A -> bin B) x segs a b :
  reads n r x a -> reads (n + length x) (f a) (concat segs) b -> reads n (r ≫= f) (concat (x :: segs)) b.
Proof. apply reads_bind. Qed.

Lemma reads_to_segs {A B} n (r : bin A) (f : A -> bin B) x segs a b :
  reads n r x a -> reads_to (n + length x) (f a) (concat segs) b -> reads_to n (r ≫= f) (concat (x :: segs)) b.
Proof. apply reads_to_bind. Qed.

Lemma reads_any_segs {A B} n (r : bin A) (f : A -> bin B) x segs a b :
  reads n r x a -> reads_any (n + length x) (f a) (concat segs) b -> reads_any n (r ≫= f) (concat (x :: segs)) b.
Proof. apply reads_any_bind. Qed.

Lemma reads_get_marker n w v : 0 <= v < 256 ^ Z.of_nat w -> reads n (get_marker w) (le_bytes w v) (mkMarker w n, v).
Proof.
  intros Hv. unfold get_marker. eapply reads_skip; [apply reads_position|].
  apply (reads_map n (get w) (fun v => (mkMarker w n, v))). by apply reads_get.
Qed.

(** ** Refusals

    [refuses n r x]: at position [n], in front of [x], [r] fails. *)

Definition refuses {A} (n : nat) (r : bin A) (x : bytes) : Prop :=
  forall pre post, length pre = n -> exists s e, r (mkStream (pre ++ x ++ post) n) = Some (s, Err e).

Lemma refuses_app {A} n (r : bin A) x y : refuses n r x -> refuses n r (x ++ y).
Proof. intros H pre post Hn. rewrite <- app_assoc. by apply H. Qed.

Lemma refuses_bind {A B} n (r : bin A) (f : A -> bin B) x : refuses n r x -> refuses n (r ≫= f) x.
Proof. intros H pre post Hn. destruct (H pre post Hn) as (s & e & He). exists s, e. unfold mbind, eff_bind. by rewrite He. Qed.

Lemma refuses_after {A B} n (r : bin A) (f : A -> bin B) x y a :
  reads n r x a -> refuses (n + length x) (f a) y -> refuses n (r ≫= f) (x ++ y).
Proof.
  intros H1 H2 pre post Hn. rewrite <- app_assoc. destruct (H2 (pre ++ x) post) as (s & e & He); [rewrite length_app; lia|].
  rewrite <- app_assoc in He. exists s, e. eapply run_bind; [by apply H1|]. done.
Qed.

Lemma refuses_skip {A B} n (r : bin A) (f : A -> bin B) x a :
  reads n r [] a -> refuses n (f a) x -> refuses n (r ≫= f) x.
Proof. intros H1 H2. apply (refuses_after n r f [] x a H1). by rewrite Nat.add_0_r. Qed.

Lemma refuses_segs {A B} n (r : bin A) (f : A -> bin B) x segs a :
  reads n r x a -> refuses (n + length x) (f a) (concat segs) -> refuses n (r ≫= f) (concat (x :: segs)).
Proof. apply refuses_after. Qed.

Lemma refuses_assert n b x : b = false -> refuses n (bin_assert b) x.
Proof. intros -> pre post _. by eexists _, _. Qed.

Lemma refuses_const n w v v' : 0 <= v' < 256 ^ Z.of_nat w -> v' <> v -> refuses n (get_const w v) (le_bytes w v').
Proof.
  intros Hv Hne. unfold get_const. rewrite <- (app_nil_r (le_bytes w v')).
  eapply refuses_after; [by apply reads_get|]. apply refuses_assert. by apply bool_decide_eq_false_2.
Qed.

Lemma refuses_enum {A} n w (of_code : Z -> option A) code :
  0 <= code < 256 ^ Z.of_nat w -> of_code code = None -> refuses n (get_enum w of_code) (le_bytes w code).
Proof.
  intros Hv Hn. unfold get_enum. rewrite <- (app_nil_r (le_bytes w code)).
  eapply refuses_after; [by apply reads_get|]. cbv beta. rewrite Hn. intros pre post _. by eexists _, _.
Qed.

Lemma reads_variants_next {A} n (r : bin A) rs x a :
  refuses n r x -> reads n (read_variants rs) x a -> reads n (read_variants (r :: rs)) x a.
Proof. intros H1 H2 pre post Hn. destruct (H1 pre post Hn) as (s & e & He). rewrite (read_variants_next _ _ _ _ _ He). by apply H2. Qed.

Lemma reads_to_any_variants_next {A} n (r : bin A) rs x a :
  refuses n r x -> reads_to_any n (read_variants rs) x a -> reads_to_any n (read_variants (r :: rs)) x a.
Proof.
  intros H1 H2 pre Hn. destruct (H1 pre [] Hn) as (s & e & He). rewrite app_nil_r in He.
  rewrite (read_variants_next _ _ _ _ _ He). by apply H2.
Qed.

Lemma reads_to_any_variants_head {A} n (r : bin A) rs x a : reads_to_any n r x a -> reads_to_any n (read_variants (r :: rs)) x a.
Proof. intros H pre Hn. destruct (H pre Hn) as [pos Hp]. exists pos. cbn [read_variants]. by rewrite Hp. Qed.

(** ** Lists *)

Lemma zlen_nat {A} (l : list A) : Z.to_nat (zlen l) = length l.
Proof. unfold zlen. apply Nat2Z.id. Qed.

Lemma list_law {A} (w : A -> bin unit) (r : bin A) (fits : A -> Prop) (size : A -> Z) :
  (forall n a, fits a -> exists x, writes n (w a) x /\ reads n r x a /\ zlen x <= size a) ->
  forall l n, Forall fits l ->
  exists x, writes n (write_list w l) x /\ reads n (read_count (length l) r) x l /\ zlen x <= foldr Z.add 0 (size <$> l).
Proof.
  intros Hlaw l. induction l as [|a l IH]; intros n Hl.
  - exists []. split_and!; [apply writes_ret|apply reads_ret|done].
  - apply Forall_cons in Hl as [Ha Hl]. destruct (Hlaw n a Ha) as (x & Hx1 & Hx2 & Hx3).
    destruct (IH (n + length x)%nat Hl) as (y & Hy1 & Hy2 & Hy3). exists (x ++ y). split_and!.
    + cbn [write_list]. by eapply writes_bind.
    + cbn [read_count length]. eapply reads_bind; [done|]. by apply (reads_map _ _ (cons a)).
    + cbn [fmap list_fmap foldr]. unfold zlen in *. rewrite length_app. lia.
Qed.

Lemma writes_count {A} n w (l : list A) : zlen l < 256 ^ Z.of_nat w -> writes n (put_count w l) (le_bytes w (zlen l)).
Proof. intros H. unfold put_count. rewrite bool_decide_eq_true_2 by done. apply writes_put. Qed.

(** A list of integers of [w] bytes. *)
Lemma ints_law n w l :
  Forall (fun v => 0 <= v < 256 ^ Z.of_nat w) l ->
  let x := concat (le_bytes w <$> l) in
  writes n (write_list (put w) l) x /\ reads n (read_count (length l) (get w)) x l /\ zlen x = Z.of_nat w * zlen l.
Proof.
  revert n. induction l as [|v l IH]; intros n Hl.
  - split_and!; [apply writes_ret|apply reads_ret|unfold zlen; cbn; lia].
  - apply Forall_cons in Hl as [Hv Hl]. destruct (IH (n + length (le_bytes w v))%nat Hl) as (H1 & H2 & H3). split_and!.
    + cbn [write_list fmap list_fmap concat]. eapply writes_bind; [apply writes_put|done].
    + cbn [read_count length fmap list_fmap concat]. eapply reads_bind; [by apply reads_get|]. by apply (reads_map _ _ (cons v)).
    + unfold zlen in *. cbn [fmap list_fmap concat length] in *. rewrite length_app, length_le_bytes. lia.
Qed.

(** A string of a known size, which is not empty. *)
Lemma wide_law n s :
  Forall (fun v => 0 <= v < 256 ^ Z.of_nat 2) s -> s <> [] ->
  exists x, writes n (write_sized_wide s) x /\ reads n (read_sized_wide (wide_size s)) x s /\ zlen x = wide_size s.
Proof.
  intros Hs Hne. destruct (ints_law n 2 s Hs) as (H1 & H2 & H3). exists (concat (le_bytes 2 <$> s)). split_and!; [done| |done].
  unfold read_sized_wide, wide_size. rewrite (Z.mul_comm 2), Z_mod_mult, Z_div_mult by lia.
  rewrite bool_decide_eq_false_2 by (by intros []). rewrite bool_decide_eq_false_2 by (destruct s; [done|unfold zlen; cbn; lia]).
  by rewrite zlen_nat.
Qed.

Lemma writes_wide_size n w s :
  wide_size s < 256 ^ Z.of_nat w -> writes n (put_wide_size w s) (le_bytes w (wide_size s)).
Proof. intros H. unfold put_wide_size. rewrite bool_decide_eq_true_2 by done. apply writes_put. Qed.

Lemma wide_size_nonneg s : 0 <= wide_size s.
Proof. unfold wide_size, zlen. lia. Qed.

Lemma null_law n w s :
  w <> O -> Forall (fun v => 0 < v < 256 ^ Z.of_nat w) s ->
  exists x, writes n (write_null w s) x /\ reads n (read_null w) x s /\ zlen x = Z.of_nat w * (zlen s + 1).
Proof.
  intros Hw Hs. destruct (ints_law n w s) as (H1 & _ & H3); [eapply Forall_impl; [exact Hs|]; cbn; lia|].
  exists (concat (le_bytes w <$> s) ++ le_bytes w 0). split_and!.
  - eapply writes_bind; [done|apply writes_put].
  - intros pre post Hn. unfold read_null. cbn [st_data].
    assert (Hf : (length s < S (length (pre ++ (concat (le_bytes w <$> s) ++ le_bytes w 0) ++ post)))%nat)
      by (unfold zlen in H3; rewrite !length_app; nia).
    revert Hf. generalize (S (length (pre ++ (concat (le_bytes w <$> s) ++ le_bytes w 0) ++ post))) as fuel. clear H1 H3.
    revert n pre Hn. induction Hs as [|v s Hv Hs IH]; intros n pre Hn [|fuel] Hf; [lia| |cbn in Hf; lia|].
    + cbn [fmap list_fmap concat app read_null_loop].
      eapply run_bind; [apply (reads_get n w 0); [lia|done]|]. done.
    + cbn [fmap list_fmap concat read_null_loop]. rewrite <- !(app_assoc (le_bytes w v)).
      eapply run_bind; [apply (reads_get n w v); [lia|done]|]. rewrite bool_decide_eq_false_2 by lia.
      rewrite (app_assoc pre), length_le_bytes.
      eapply run_bind; [apply IH; [rewrite length_app, length_le_bytes; lia|cbn in Hf; lia]|].
      unfold mret, eff_ret. do 3 f_equal. rewrite !length_app, !length_le_bytes. lia.
  - unfold zlen in *. rewrite length_app, length_le_bytes. lia.
Qed.

(** ** Automation

    [len] computes the lengths of segments; [emit] runs a writer over segments; [take_in] runs a
    reader over them. *)

#[export] Hint Rewrite @length_app @length_le_bytes @length_be_bytes @length_replicate : lens.

Ltac len :=
  unfold zlen in *; cbn [concat length take pm_pos pm_width] in *; autorewrite with lens in *;
  cbn [length Z.of_nat Pos.of_succ_nat] in *; try lia.

Create HintDb codec.
#[export] Hint Resolve writes_repr writes_put writes_all writes_align writes_u48 writes_ret : codec.
#[export] Hint Resolve reads_get_const reads_boolean reads_u48 reads_align reads_get reads_get_marker : codec.

Ltac seg_index p :=
  lazymatch p with length (concat ?l) => eval cbv [length] in (length l) end.

(** The premise [writes] of a run: a basic writer, or a hypothesis about the value. *)
Ltac writes_value :=
  solve [ match goal with H : writes _ _ _ |- _ => eapply writes_at; [|exact H]; solve [len] end
        | auto with codec nocore ].

Ltac range := ints_unfold; len; ints.

Ltac emit_value :=
  lazymatch goal with
  | |- write_aoff ?v (mkMarker ?w ?p) (ends ?segs) = _ =>
      let i := seg_index p in
      eapply (run_aoff segs v _ ltac:(writes_value) i w _ p); [len|reflexivity|apply length_le_bytes|range]
  | |- write_size_plus ?v (mkMarker ?w ?p) ?plus (ends ?segs) = _ =>
      let j := seg_index p in
      eapply (run_size segs v _ ltac:(writes_value) j w _ p plus); [len|reflexivity|apply length_le_bytes|range]
  | |- write_size ?v (mkMarker ?w ?p) (ends ?segs) = _ =>
      change (write_size v (mkMarker w p)) with (write_size_plus v (mkMarker w p) 0); emit_value
  | |- write_roff_b ?v ?o ?b (ends ?segs) = _ => unfold write_roff_b; emit_value
  | |- write_roff_plus ?v ?o ?b (ends ?segs) = _ => unfold write_roff_plus; emit_value
  | |- write_aoff_size _ _ _ _ = _ => unfold write_aoff_size; emit_value
  | |- write_roff_size _ _ _ _ = _ => unfold write_roff_size; emit_value
  | |- write_roff_size_b_plus _ _ _ _ _ _ = _ => unfold write_roff_size_b_plus; emit_value
  | |- write_hero ?v None (Some (mkMarker ?w ?p)) (Some ?b) 0 ?plus (ends ?segs) = _ =>
      let i := seg_index p in
      eapply (run_roff_b segs v _ ltac:(writes_value) i w _ p b plus); [len|reflexivity|apply length_le_bytes|range|range]
  | |- write_hero ?v (Some (mkMarker ?w' ?p')) (Some (mkMarker ?w ?p)) ?b 0 ?plus (ends ?segs) = _ =>
      let i := seg_index p in
      let j := seg_index p' in
      eapply (run_offset_size segs v _ ltac:(writes_value) i j w w' _ _ p p' b plus);
        [len|len|reflexivity|apply length_le_bytes|reflexivity|apply length_le_bytes|range|range|range]
  | |- mret tt _ = _ => unfold mret, eff_ret; reflexivity
  | |- _ => eapply run_write; writes_value
  end.

Ltac emit_step :=
  lazymatch goal with
  | |- (bin_assert _ ≫= _) _ = _ => eapply run_bind; [apply run_assert; first [done|by rewrite bool_decide_eq_true_2]|]
  | |- (put_marker _ ≫= _) _ = _ => eapply run_bind; [apply run_marker|]
  | |- (_ ≫= _) _ = _ => eapply run_bind; [emit_value|]
  end; cbn [app insert list_insert].

(** Two layouts that differ in how their offsets and sizes are written. *)
Ltac same_layout :=
  repeat first [ reflexivity | lazymatch goal with
    | |- le_bytes _ _ = le_bytes _ _ => f_equal; range
    | |- Some _ = Some _ => f_equal
    | |- (_, _) = (_, _) => f_equal
    | |- ends _ = ends _ => f_equal
    | |- _ :: _ = _ :: _ => f_equal
    | |- replicate _ _ = replicate _ _ => f_equal; f_equal; range
    end ].

Ltac emit :=
  let base := fresh "base" in
  let Hn := fresh "Hn" in
  apply writes_segs; intros base Hn; repeat emit_step;
  etransitivity; [emit_value|cbn [app insert list_insert]; same_layout].

Ltac reads_value :=
  solve [ auto with codec nocore
        | apply reads_repr; match goal with |- 0 <= repr_code ?a < _ => by destruct a end
        | apply reads_get; range | apply reads_get_const; range | apply reads_get_marker; range
        | match goal with H : reads _ _ _ _ |- _ => eapply reads_at; [|exact H]; solve [len] end ].

(** A step of a reader: it takes the next segment, or nothing. *)
Ltac take_step :=
  first
  [ eapply reads_segs; [reads_value|] | eapply reads_to_segs; [reads_value|] | eapply reads_any_segs; [reads_value|]
  | eapply reads_skip; [first [apply reads_lift|apply reads_assert; reflexivity]|]
  | eapply reads_any_skip; [first [apply reads_lift|apply reads_assert; reflexivity]|]
  | eapply reads_to_skip; [first [apply reads_lift|apply reads_assert; reflexivity]|] ]; cbv beta.
