(* ===== verification/Security.v ===== *)
(** Security types of MS-DTYP (crates/smb-dtyp/src/guid.rs, security/): GUIDs, security identifiers,
    access control entries and lists, and self-relative security descriptors, with their binary
    layouts and the order of the entries of a list. *)
From S2P Require Import Prelude Effects Bytes Stream Codec.
Local Open Scope Z_scope.

(** ** GUIDs *)

Record Guid := mkGuid { gu_0 : Z; gu_1 : Z; gu_2 : Z; gu_3 : bytes }.

#[export] Instance Guid_eq : EqDecision Guid.
Proof. solve_decision. Defined.

Definition write_guid (g : Guid) : bin unit :=
  _ ← put 4 (gu_0 g); _ ← put 2 (gu_1 g); _ ← put 2 (gu_2 g); write_all (gu_3 g).

Definition read_guid : bin Guid :=
  d0 ← get 4; d1 ← get 2; d2 ← get 2; d3 ← read_exact 8; mret (mkGuid d0 d1 d2 d3).

(** ** Security identifiers *)

Record SID := mkSid { sid_identifier_authority : Z; sid_sub_authority : list Z }.

#[export] Instance SID_eq : EqDecision SID.
Proof. solve_decision. Defined.

Definition write_sid (s : SID) : bin unit :=
  _ ← put 1 1;
  _ ← put_count 1 (sid_sub_authority s);
  _ ← write_u48 (sid_identifier_authority s);
  write_list (put 4) (sid_sub_authority s).

Definition read_sid : bin SID :=
  _ ← get_const 1 1;
  sub_authority_count ← get 1;
  identifier_authority ← read_u48;
  sub_authority ← read_count (Z.to_nat sub_authority_count) (get 4);
  mret (mkSid identifier_authority sub_authority).

(** ** Access control entries

    Access masks and flags are integers of their width; the bits without a name are kept. *)

Inductive AceType :=
| AT_AccessAllowed | AT_AccessDenied | AT_SystemAudit | AT_SystemAlarm | AT_AccessAllowedCompound
| AT_AccessAllowedObject | AT_AccessDeniedObject | AT_SystemAuditObject | AT_SystemAlarmObject
| AT_AccessAllowedCallback | AT_AccessDeniedCallback | AT_AccessAllowedCallbackObject
| AT_AccessDeniedCallbackObject | AT_SystemAuditCallback | AT_SystemAlarmCallback
| AT_SystemAuditCallbackObject | AT_SystemAlarmCallbackObject | AT_SystemMandatoryLabel
| AT_SystemResourceAttribute | AT_SystemScopedPolicyId.

#[export] Instance AceType_eq : EqDecision AceType.
Proof. solve_decision. Defined.

Definition all_ace_types : list AceType :=
  [AT_AccessAllowed; AT_AccessDenied; AT_SystemAudit; AT_SystemAlarm; AT_AccessAllowedCompound;
   AT_AccessAllowedObject; AT_AccessDeniedObject; AT_SystemAuditObject; AT_SystemAlarmObject;
   AT_AccessAllowedCallback; AT_AccessDeniedCallback; AT_AccessAllowedCallbackObject;
   AT_AccessDeniedCallbackObject; AT_SystemAuditCallback; AT_SystemAlarmCallback;
   AT_SystemAuditCallbackObject; AT_SystemAlarmCallbackObject; AT_SystemMandatoryLabel;
   AT_SystemResourceAttribute; AT_SystemScopedPolicyId].

Definition ace_type_code (t : AceType) : Z :=
  match t with
  | AT_AccessAllowed => 0 | AT_AccessDenied => 1 | AT_SystemAudit => 2 | AT_SystemAlarm => 3
  | AT_AccessAllowedCompound => 4 | AT_AccessAllowedObject => 5 | AT_AccessDeniedObject => 6
  | AT_SystemAuditObject => 7 | AT_SystemAlarmObject => 8 | AT_AccessAllowedCallback => 9
  | AT_AccessDeniedCallback => 10 | AT_AccessAllowedCallbackObject => 11
  | AT_AccessDeniedCallbackObject => 12 | AT_SystemAuditCallback => 13 | AT_SystemAlarmCallback => 14
  | AT_SystemAuditCallbackObject => 15 | AT_SystemAlarmCallbackObject => 16
  | AT_SystemMandatoryLabel => 17 | AT_SystemResourceAttribute => 18 | AT_SystemScopedPolicyId => 19
  end.

Definition ace_type_of_code (v : Z) : option AceType :=
  List.find (fun t => bool_decide (ace_type_code t = v)) all_ace_types.

Record AccessAce := mkAccessAce { aa_access_mask : Z; aa_sid : SID }.

Record AccessObjectAce := mkObjectAce {
  ao_access_mask : Z;
  ao_object_type : option Guid;
  ao_inherited_object_type : option Guid;
  ao_sid : SID
}.

Record AccessCallbackAce := mkCallbackAce { ac_access_mask : Z; ac_sid : SID; ac_application_data : bytes }.

Record AccessObjectCallbackAce := mkObjectCallbackAce { oc_object : AccessObjectAce; oc_application_data : bytes }.

Inductive ClaimSecurityAttributeType := CA_None | CA_Int64 | CA_Uint64 | CA_String | CA_SID | CA_Boolean | CA_OctetString.

#[export] Instance ClaimSecurityAttributeType_eq : EqDecision ClaimSecurityAttributeType.
Proof. solve_decision. Defined.

Definition claim_type_code (t : ClaimSecurityAttributeType) : Z :=
  match t with
  | CA_None => 0 | CA_Int64 => 1 | CA_Uint64 => 2 | CA_String => 3 | CA_SID => 4 | CA_Boolean => 5 | CA_OctetString => 6
  end.

Definition claim_type_of_code (v : Z) : option ClaimSecurityAttributeType :=
  List.find (fun t => bool_decide (claim_type_code t = v))
    [CA_None; CA_Int64; CA_Uint64; CA_String; CA_SID; CA_Boolean; CA_OctetString].

Record ClaimSecurityAttributeRelativeV1 := mkClaim {
  cl_value_type : ClaimSecurityAttributeType;
  cl_flags : Z;
  cl_value_count : Z;
  cl_value : bytes
}.

Record SystemResourceAttributeAce := mkResourceAce {
  ra_mask : Z;
  ra_sid : SID;
  ra_attribute_data : ClaimSecurityAttributeRelativeV1
}.

(** [SystemMandatoryLabel] holds a mask and a SID as an [AccessAce] does. *)
Inductive AceValue :=
| AV_AccessAllowed (a : AccessAce)
| AV_AccessDenied (a : AccessAce)
| AV_SystemAudit (a : AccessAce)
| AV_AccessAllowedObject (a : AccessObjectAce)
| AV_AccessDeniedObject (a : AccessObjectAce)
| AV_SystemAuditObject (a : AccessObjectAce)
| AV_AccessAllowedCallback (a : AccessCallbackAce)
| AV_AccessDeniedCallback (a : AccessCallbackAce)
| AV_AccessAllowedCallbackObject (a : AccessObjectCallbackAce)
| AV_AccessDeniedCallbackObject (a : AccessObjectCallbackAce)
| AV_SystemAuditCallback (a : AccessCallbackAce)
| AV_SystemAuditCallbackObject (a : AccessObjectCallbackAce)
| AV_SystemMandatoryLabel (a : AccessAce)
| AV_SystemResourceAttribute (a : SystemResourceAttributeAce)
| AV_SystemScopedPolicyId (a : AccessAce).

Definition ace_get_type (v : AceValue) : AceType :=
  match v with
  | AV_AccessAllowed _ => AT_AccessAllowed
  | AV_AccessDenied _ => AT_AccessDenied
  | AV_SystemAudit _ => AT_SystemAudit
  | AV_AccessAllowedObject _ => AT_AccessAllowedObject
  | AV_AccessDeniedObject _ => AT_AccessDeniedObject
  | AV_SystemAuditObject _ => AT_SystemAuditObject
  | AV_AccessAllowedCallback _ => AT_AccessAllowedCallback
  | AV_AccessDeniedCallback _ => AT_AccessDeniedCallback
  | AV_AccessAllowedCallbackObject _ => AT_AccessAllowedCallbackObject
  | AV_AccessDeniedCallbackObject _ => AT_AccessDeniedCallbackObject
  | AV_SystemAuditCallback _ => AT_SystemAuditCallback
  | AV_SystemAuditCallbackObject _ => AT_SystemAuditCallbackObject
  | AV_SystemMandatoryLabel _ => AT_SystemMandatoryLabel
  | AV_SystemResourceAttribute _ => AT_SystemResourceAttribute
  | AV_SystemScopedPolicyId _ => AT_SystemScopedPolicyId
  end.

Definition is_access_allowed (v : AceValue) : bool :=
  match ace_get_type v with
  | AT_AccessAllowed | AT_AccessAllowedObject | AT_AccessAllowedCallback | AT_AccessAllowedCallbackObject => true
  | _ => false
  end.

Definition is_access_denied (v : AceValue) : bool :=
  match ace_get_type v with
  | AT_AccessDenied | AT_AccessDeniedObject | AT_AccessDeniedCallback | AT_AccessDeniedCallbackObject => true
  | _ => false
  end.

Record ACE := mkAce { ace_flags : Z; ace_value : AceValue }.

Definition ace_header_size : Z := 4.

(** [AceFlags::inherited] *)
Definition ace_inherited (a : ACE) : bool := Z.testbit (ace_flags a) 4.

Definition write_access_ace (a : AccessAce) : bin unit :=
  _ ← put 4 (aa_access_mask a); write_sid (aa_sid a).
Definition read_access_ace : bin AccessAce :=
  mask ← get 4; sid ← read_sid; mret (mkAccessAce mask sid).

(** The flags of an object entry say which of its types are present. *)
Definition object_ace_flags (a : AccessObjectAce) : Z :=
  Z.b2z (bool_decide (is_Some (ao_object_type a))) + 2 * Z.b2z (bool_decide (is_Some (ao_inherited_object_type a))).

Definition write_object_ace (a : AccessObjectAce) : bin unit :=
  _ ← put 4 (ao_access_mask a);
  _ ← put 4 (object_ace_flags a);
  _ ← put_opt write_guid (ao_object_type a);
  _ ← put_opt write_guid (ao_inherited_object_type a);
  write_sid (ao_sid a).

Definition read_object_ace : bin AccessObjectAce :=
  mask ← get 4;
  flags ← get 4;
  object_type ← get_if (Z.testbit flags 0) read_guid;
  inherited_object_type ← get_if (Z.testbit flags 1) read_guid;
  sid ← read_sid;
  mret (mkObjectAce mask object_type inherited_object_type sid).

Definition write_callback_ace (a : AccessCallbackAce) : bin unit :=
  _ ← put 4 (ac_access_mask a); _ ← write_sid (ac_sid a); write_all (ac_application_data a).
Definition read_callback_ace : bin AccessCallbackAce :=
  mask ← get 4; sid ← read_sid; data ← bytes_until_eof; mret (mkCallbackAce mask sid data).

Definition write_object_callback_ace (a : AccessObjectCallbackAce) : bin unit :=
  _ ← write_object_ace (oc_object a); write_all (oc_application_data a).
Definition read_object_callback_ace : bin AccessObjectCallbackAce :=
  object ← read_object_ace; data ← bytes_until_eof; mret (mkObjectCallbackAce object data).

Definition write_claim (c : ClaimSecurityAttributeRelativeV1) : bin unit :=
  _ ← put_marker 4;
  _ ← put 2 (claim_type_code (cl_value_type c));
  _ ← put 2 0;
  _ ← put 2 (cl_flags c);
  _ ← put 4 (cl_value_count c);
  write_all (cl_value c).

Definition read_claim : bin ClaimSecurityAttributeRelativeV1 :=
  _ ← get_marker 4;
  value_type ← get_enum 2 claim_type_of_code;
  _ ← get 2;
  flags ← get 2;
  value_count ← get 4;
  value ← bytes_until_eof;
  mret (mkClaim value_type flags value_count value).

Definition write_resource_ace (a : SystemResourceAttributeAce) : bin unit :=
  _ ← put 4 (ra_mask a); _ ← write_sid (ra_sid a); write_claim (ra_attribute_data a).
Definition read_resource_ace : bin SystemResourceAttributeAce :=
  mask ← get 4; sid ← read_sid; data ← read_claim; mret (mkResourceAce mask sid data).

Definition write_ace_value (v : AceValue) : bin unit :=
  match v with
  | AV_AccessAllowed a | AV_AccessDenied a | AV_SystemAudit a | AV_SystemMandatoryLabel a
  | AV_SystemScopedPolicyId a => write_access_ace a
  | AV_AccessAllowedObject a | AV_AccessDeniedObject a | AV_SystemAuditObject a => write_object_ace a
  | AV_AccessAllowedCallback a | AV_AccessDeniedCallback a | AV_SystemAuditCallback a => write_callback_ace a
  | AV_AccessAllowedCallbackObject a | AV_AccessDeniedCallbackObject a
  | AV_SystemAuditCallbackObject a => write_object_callback_ace a
  | AV_SystemResourceAttribute a => write_resource_ace a
  end.

(** The types without a variant are refused. *)
Definition read_ace_value (t : AceType) : bin AceValue :=
  match t with
  | AT_AccessAllowed => a ← read_access_ace; mret (AV_AccessAllowed a)
  | AT_AccessDenied => a ← read_access_ace; mret (AV_AccessDenied a)
  | AT_SystemAudit => a ← read_access_ace; mret (AV_SystemAudit a)
  | AT_AccessAllowedObject => a ← read_object_ace; mret (AV_AccessAllowedObject a)
  | AT_AccessDeniedObject => a ← read_object_ace; mret (AV_AccessDeniedObject a)
  | AT_SystemAuditObject => a ← read_object_ace; mret (AV_SystemAuditObject a)
  | AT_AccessAllowedCallback => a ← read_callback_ace; mret (AV_AccessAllowedCallback a)
  | AT_AccessDeniedCallback => a ← read_callback_ace; mret (AV_AccessDeniedCallback a)
  | AT_AccessAllowedCallbackObject => a ← read_object_callback_ace; mret (AV_AccessAllowedCallbackObject a)
  | AT_AccessDeniedCallbackObject => a ← read_object_callback_ace; mret (AV_AccessDeniedCallbackObject a)
  | AT_SystemAuditCallback => a ← read_callback_ace; mret (AV_SystemAuditCallback a)
  | AT_SystemAuditCallbackObject => a ← read_object_callback_ace; mret (AV_SystemAuditCallbackObject a)
  | AT_SystemMandatoryLabel => a ← read_access_ace; mret (AV_SystemMandatoryLabel a)
  | AT_SystemResourceAttribute => a ← read_resource_ace; mret (AV_SystemResourceAttribute a)
  | AT_SystemScopedPolicyId => a ← read_access_ace; mret (AV_SystemScopedPolicyId a)
  | AT_SystemAlarm | AT_AccessAllowedCompound | AT_SystemAlarmObject | AT_SystemAlarmCallback
  | AT_SystemAlarmCallbackObject => e_lift (Err Bin_NoVariant)
  end.

Definition write_ace (a : ACE) : bin unit :=
  _ ← put 1 (ace_type_code (ace_get_type (ace_value a)));
  _ ← put 1 (ace_flags a);
  size ← put_marker 2;
  write_size_plus (write_ace_value (ace_value a)) size ace_header_size.

(** A size smaller than the header makes the subtraction overflow. *)
Definition read_ace : bin ACE :=
  ace_type ← get_enum 1 ace_type_of_code;
  flags ← get 1;
  size ← get_marker 2;
  if size.2 <? ace_header_size then e_panic
  else
    value ← take_seek (Z.to_nat (size.2 - ace_header_size)) (read_ace_value ace_type);
    mret (mkAce flags value).

(** ** Access control lists *)

Inductive AclRevision := AR_Nt4 | AR_DS.

#[export] Instance AclRevision_eq : EqDecision AclRevision.
Proof. solve_decision. Defined.

Definition acl_revision_code (r : AclRevision) : Z := match r with AR_Nt4 => 2 | AR_DS => 4 end.
Definition acl_revision_of_code (v : Z) : option AclRevision :=
  List.find (fun r => bool_decide (acl_revision_code r = v)) [AR_Nt4; AR_DS].

Record ACL := mkAcl { acl_revision : AclRevision; acl_ace : list ACE }.

Definition acl_header_size : Z := 8.

(** The number of entries is cut to 16 bits. *)
Definition write_acl (a : ACL) : bin unit :=
  _ ← put 1 (acl_revision_code (acl_revision a));
  _ ← put 1 0;
  size ← put_marker 2;
  _ ← put 2 (zlen (acl_ace a) mod 65536);
  _ ← put 2 0;
  write_size_plus (write_list write_ace (acl_ace a)) size acl_header_size.

Definition read_acl : bin ACL :=
  revision ← get_enum 1 acl_revision_of_code;
  _ ← get_const 1 0;
  _ ← get_marker 2;
  ace_count ← get 2;
  _ ← get_const 2 0;
  ace ← read_count (Z.to_nat ace_count) read_ace;
  mret (mkAcl revision ace).

(** [sort_aces_by]; [cmp] of booleans puts [false] first. *)
Definition sort_aces_by (a b : ACE) : comparison :=
  let cmp (x y : bool) := match x, y with false, true => Lt | true, false => Gt | _, _ => Eq end in
  if negb (bool_decide (ace_inherited a = ace_inherited b)) then cmp (ace_inherited a) (ace_inherited b)
  else if ace_inherited a then Eq
  else cmp (is_access_allowed (ace_value a)) (is_access_allowed (ace_value b)).

(** [sort_by], which is stable: an entry goes in front of the later ones that are not smaller. *)
Fixpoint insert_sorted (a : ACE) (l : list ACE) : list ACE :=
  match l with
  | [] => [a]
  | b :: l => match sort_aces_by a b with Gt => b :: insert_sorted a l | _ => a :: b :: l end
  end.

Definition sort_aces (l : list ACE) : list ACE := foldr insert_sorted [] l.

Definition order_aces (a : ACL) : ACL := mkAcl (acl_revision a) (sort_aces (acl_ace a)).

Fixpoint aces_sorted (l : list ACE) : bool :=
  match l with
  | a :: ((b :: _) as l) => match sort_aces_by a b with Gt => false | _ => aces_sorted l end
  | _ => true
  end.

Definition is_ace_sorted (a : ACL) : bool := aces_sorted (acl_ace a).

Definition insert_ace (a : ACL) (ace : ACE) : ACL := order_aces (mkAcl (acl_revision a) (acl_ace a ++ [ace])).

(** ** Security descriptors *)

Record SecurityDescriptor := mkSd {
  sd_sbz1 : Z;
  sd_control : Z;
  sd_owner_sid : option SID;
  sd_group_sid : option SID;
  sd_sacl : option ACL;
  sd_dacl : option ACL
}.

Definition control_dacl_present (c : Z) : bool := Z.testbit c 2.
Definition control_sacl_present (c : Z) : bool := Z.testbit c 4.
Definition control_self_relative (c : Z) : bool := Z.testbit c 15.

(** A member is written behind the others, and its offset from the start is written back. *)
Definition write_member {A} (w : A -> bin unit) (member : option A) (offset begin : PosMarker) : bin unit :=
  match member with Some a => write_roff_b (w a) offset begin | None => mret tt end.

Definition write_security_descriptor (d : SecurityDescriptor) : bin unit :=
  begin ← put_marker 0;
  _ ← put 1 1;
  _ ← put 1 (sd_sbz1 d);
  _ ← bin_assert (control_self_relative (sd_control d));
  _ ← put 2 (sd_control d);
  offset_owner ← put_marker 4;
  offset_group ← put_marker 4;
  offset_sacl ← put_marker 4;
  offset_dacl ← put_marker 4;
  _ ← write_member write_sid (sd_owner_sid d) offset_owner begin;
  _ ← write_member write_sid (sd_group_sid d) offset_group begin;
  _ ← bin_assert (bool_decide (bool_decide (is_Some (sd_sacl d)) = control_sacl_present (sd_control d)));
  _ ← write_member write_acl (sd_sacl d) offset_sacl begin;
  _ ← bin_assert (bool_decide (bool_decide (is_Some (sd_dacl d)) = control_dacl_present (sd_control d)));
  write_member write_acl (sd_dacl d) offset_dacl begin.

(** The members are read one behind the other; of their offsets only whether they are zero is used. *)
Definition read_security_descriptor : bin SecurityDescriptor :=
  _ ← get_marker 0;
  _ ← get_const 1 1;
  sbz1 ← get 1;
  control ← get 2;
  _ ← bin_assert (control_self_relative control);
  offset_owner ← get_marker 4;
  offset_group ← get_marker 4;
  offset_sacl ← get_marker 4;
  offset_dacl ← get_marker 4;
  owner_sid ← get_if (bool_decide (offset_owner.2 <> 0)) read_sid;
  group_sid ← get_if (bool_decide (offset_group.2 <> 0)) read_sid;
  sacl ← get_if (bool_decide (offset_sacl.2 <> 0)) read_acl;
  _ ← bin_assert (bool_decide (bool_decide (offset_sacl.2 <> 0) = control_sacl_present control));
  dacl ← get_if (bool_decide (offset_dacl.2 <> 0)) read_acl;
  _ ← bin_assert (bool_decide (bool_decide (offset_dacl.2 <> 0) = control_dacl_present control));
  mret (mkSd sbz1 control owner_sid group_sid sacl dacl).

(** ** Layouts *)

Record guid_ok (g : Guid) : Prop := {
  gk_0 : in_range u32_max (gu_0 g);
  gk_1 : in_range u16_max (gu_1 g);
  gk_2 : in_range u16_max (gu_2 g);
  gk_3 : length (gu_3 g) = 8%nat
}.

Lemma guid_law n g : guid_ok g -> exists x, writes n (write_guid g) x /\ reads n read_guid x g /\ zlen x = 16.
Proof.
  intros [H0 H1 H2 H3]. destruct g as [d0 d1 d2 d3]. cbn in H0, H1, H2, H3.
  exists (concat [le_bytes 4 d0; le_bytes 2 d1; le_bytes 2 d2; d3]). split_and!.
  - unfold write_guid. emit.
  - unfold read_guid. repeat take_step. eapply reads_segs; [by apply reads_exact'|]. apply reads_ret.
  - len.
Qed.

Lemma guid_law' n g : guid_ok g -> exists x, writes n (write_guid g) x /\ reads n read_guid x g /\ zlen x <= 16.
Proof. intros H. destruct (guid_law n g H) as (x & ? & ? & ?). exists x. split_and!; [done..|lia]. Qed.

Record sid_ok (s : SID) : Prop := {
  sk_authority : 0 <= sid_identifier_authority s < 2 ^ 48;
  sk_count : zlen (sid_sub_authority s) <= u8_max;
  sk_subs : Forall (in_range u32_max) (sid_sub_authority s)
}.

Definition sid_size (s : SID) : Z := 8 + 4 * zlen (sid_sub_authority s).

Definition sid_bytes (s : SID) : bytes :=
  concat [le_bytes 1 1; le_bytes 1 (zlen (sid_sub_authority s)); be_bytes 6 (sid_identifier_authority s);
    concat (le_bytes 4 <$> sid_sub_authority s)].

Lemma sid_writes_reads n s :
  sid_ok s -> writes n (write_sid s) (sid_bytes s) /\ reads n read_sid (sid_bytes s) s /\ zlen (sid_bytes s) = sid_size s.
Proof.
  intros [H1 H2 H3]. destruct s as [authority subs]. unfold sid_size, sid_bytes.
  cbn [sid_identifier_authority sid_sub_authority] in *.
  destruct (ints_law (n + 8) 4 subs) as (Hw & Hr & Hl).
  { eapply Forall_impl; [exact H3|]. intros v Hv. cbn. ints. }
  set (y := concat (le_bytes 4 <$> subs)) in *. clearbody y. split_and!.
  - unfold write_sid. cbn [sid_identifier_authority sid_sub_authority].
    pose proof (writes_count (n + 1) 1 subs ltac:(unfold zlen in *; cbn; ints)) as Hc. emit.
  - unfold read_sid. do 3 take_step. rewrite zlen_nat. take_step. apply reads_ret.
  - len.
Qed.

Lemma sid_law n s : sid_ok s -> exists x, writes n (write_sid s) x /\ reads n read_sid x s /\ zlen x = sid_size s.
Proof. intros H. exists (sid_bytes s). by apply sid_writes_reads. Qed.

Definition access_ace_ok (a : AccessAce) : Prop := in_range u32_max (aa_access_mask a) /\ sid_ok (aa_sid a).

Lemma access_ace_law n a :
  access_ace_ok a -> exists x, writes n (write_access_ace a) x /\ reads n read_access_ace x a /\ zlen x = 4 + sid_size (aa_sid a).
Proof.
  intros [H1 H2]. destruct a as [mask sid]. cbn [aa_access_mask aa_sid] in *.
  destruct (sid_law (n + 4) sid H2) as (y & Hw & Hr & Hl).
  exists (concat [le_bytes 4 mask; y]). split_and!.
  - unfold write_access_ace. cbn [aa_access_mask aa_sid]. emit.
  - unfold read_access_ace. do 2 take_step. apply reads_ret.
  - len.
Qed.

(** A value that is there or not, and the flag that says so. *)
Lemma opt_law {A} (w : A -> bin unit) (r : bin A) (fits : A -> Prop) (size : Z) n o :
  (forall n a, fits a -> exists x, writes n (w a) x /\ reads n r x a /\ zlen x = size) ->
  (forall a, o = Some a -> fits a) ->
  exists x, writes n (put_opt w o) x /\ reads n (get_if (bool_decide (is_Some o)) r) x o /\
    zlen x = if o then size else 0.
Proof.
  intros Hlaw Ho. destruct o as [a|].
  - destruct (Hlaw n a (Ho a eq_refl)) as (x & H1 & H2 & H3). exists x. split_and!; [done| |done].
    by apply reads_get_if.
  - exists []. split_and!; [apply writes_ret| |done]. by apply reads_get_if.
Qed.

Record object_ace_ok (a : AccessObjectAce) : Prop := {
  ok_mask : in_range u32_max (ao_access_mask a);
  ok_type : forall g, ao_object_type a = Some g -> guid_ok g;
  ok_inherited : forall g, ao_inherited_object_type a = Some g -> guid_ok g;
  ok_sid : sid_ok (ao_sid a)
}.

Definition object_ace_size (a : AccessObjectAce) : Z :=
  8 + (if ao_object_type a then 16 else 0) + (if ao_inherited_object_type a then 16 else 0) + sid_size (ao_sid a).

Lemma object_ace_law n a :
  object_ace_ok a ->
  exists x, writes n (write_object_ace a) x /\ reads n read_object_ace x a /\ zlen x = object_ace_size a.
Proof.
  intros [H1 H2 H3 H4]. destruct a as [mask ot it sid]. unfold object_ace_size.
  cbn [ao_access_mask ao_object_type ao_inherited_object_type ao_sid] in *.
  destruct (opt_law write_guid read_guid guid_ok 16 (n + 8) ot guid_law H2) as (x1 & Hw1 & Hr1 & Hl1).
  destruct (opt_law write_guid read_guid guid_ok 16 (n + 8 + length x1) it guid_law H3) as (x2 & Hw2 & Hr2 & Hl2).
  destruct (sid_law (n + 8 + length x1 + length x2) sid H4) as (x3 & Hw3 & Hr3 & Hl3).
  set (a := mkObjectAce mask ot it sid).
  assert (Hf : 0 <= object_ace_flags a < 256 ^ Z.of_nat 4 /\
    Z.testbit (object_ace_flags a) 0 = bool_decide (is_Some ot) /\
    Z.testbit (object_ace_flags a) 1 = bool_decide (is_Some it)).
  { unfold object_ace_flags, a. cbn [ao_object_type ao_inherited_object_type]. by destruct ot, it. }
  destruct Hf as (Hf1 & Hf2 & Hf3).
  exists (concat [le_bytes 4 mask; le_bytes 4 (object_ace_flags a); x1; x2; x3]). split_and!.
  - unfold write_object_ace. emit.
  - unfold read_object_ace. do 2 take_step. rewrite Hf2, Hf3. do 3 take_step. apply reads_ret.
  - len.
Qed.

Definition callback_ace_ok (a : AccessCallbackAce) : Prop := in_range u32_max (ac_access_mask a) /\ sid_ok (ac_sid a).

Lemma reads_to_end n (A : Type) (f : bytes -> A) x : reads_to n (d ← bytes_until_eof; mret (f d)) (concat [x]) (f x).
Proof. cbn. rewrite app_nil_r. intros pre Hn. eapply run_bind; [by apply reads_until_eof|]. done. Qed.

Lemma callback_ace_law n a :
  callback_ace_ok a ->
  exists x, writes n (write_callback_ace a) x /\ reads_to n read_callback_ace x a /\
    zlen x = 4 + sid_size (ac_sid a) + zlen (ac_application_data a).
Proof.
  intros [H1 H2]. destruct a as [mask sid data]. cbn [ac_access_mask ac_sid ac_application_data] in *.
  destruct (sid_law (n + 4) sid H2) as (y & Hw & Hr & Hl).
  exists (concat [le_bytes 4 mask; y; data]). split_and!.
  - unfold write_callback_ace. emit.
  - unfold read_callback_ace. do 2 take_step. apply (reads_to_end _ _ (mkCallbackAce mask sid)).
  - len.
Qed.

Lemma object_callback_ace_law n a :
  object_ace_ok (oc_object a) ->
  exists x, writes n (write_object_callback_ace a) x /\ reads_to n read_object_callback_ace x a /\
    zlen x = object_ace_size (oc_object a) + zlen (oc_application_data a).
Proof.
  intros H1. destruct a as [object data]. cbn [oc_object oc_application_data] in *.
  destruct (object_ace_law n object H1) as (y & Hw & Hr & Hl).
  exists (concat [y; data]). split_and!.
  - unfold write_object_callback_ace. emit.
  - unfold read_object_callback_ace. take_step. apply (reads_to_end _ _ (mkObjectCallbackAce object)).
  - len.
Qed.

Definition claim_ok (c : ClaimSecurityAttributeRelativeV1) : Prop :=
  in_range u16_max (cl_flags c) /\ in_range u32_max (cl_value_count c).

Lemma claim_law n c :
  claim_ok c -> exists x, writes n (write_claim c) x /\ reads_to n read_claim x c /\ zlen x = 14 + zlen (cl_value c).
Proof.
  intros [H1 H2]. destruct c as [t flags count v]. cbn [cl_flags cl_value_count cl_value] in *.
  exists (concat [le_bytes 4 0; le_bytes 2 (claim_type_code t); le_bytes 2 0; le_bytes 2 flags; le_bytes 4 count; v]).
  split_and!.
  - unfold write_claim. emit.
  - unfold read_claim. take_step. eapply reads_to_segs; [apply (reads_enum _ _ _ _ t); by destruct t|]. cbv beta.
    do 3 take_step. apply (reads_to_end _ _ (mkClaim t flags count)).
  - len.
Qed.

Definition resource_ace_ok (a : SystemResourceAttributeAce) : Prop :=
  in_range u32_max (ra_mask a) /\ sid_ok (ra_sid a) /\ claim_ok (ra_attribute_data a).

Lemma resource_ace_law n a :
  resource_ace_ok a ->
  exists x, writes n (write_resource_ace a) x /\ reads_to n read_resource_ace x a /\
    zlen x = 4 + sid_size (ra_sid a) + 14 + zlen (cl_value (ra_attribute_data a)).
Proof.
  intros (H1 & H2 & H3). destruct a as [mask sid claim]. cbn [ra_mask ra_sid ra_attribute_data] in *.
  destruct (sid_law (n + 4) sid H2) as (y & Hw & Hr & Hl).
  destruct (claim_law (n + 4 + length y) claim H3) as (z & Hw' & Hr' & Hl').
  exists (concat [le_bytes 4 mask; y; z]). split_and!.
  - unfold write_resource_ace. emit.
  - unfold read_resource_ace. do 2 take_step. cbn [concat]. rewrite app_nil_r. intros pre Hn.
    eapply run_bind; [eapply (reads_to_at (n + 4 + length y)); [len|done|exact Hn]|]. done.
  - len.
Qed.

(** ** Entries and lists *)

Definition ace_value_ok (v : AceValue) : Prop :=
  match v with
  | AV_AccessAllowed a | AV_AccessDenied a | AV_SystemAudit a | AV_SystemMandatoryLabel a
  | AV_SystemScopedPolicyId a => access_ace_ok a
  | AV_AccessAllowedObject a | AV_AccessDeniedObject a | AV_SystemAuditObject a => object_ace_ok a
  | AV_AccessAllowedCallback a | AV_AccessDeniedCallback a | AV_SystemAuditCallback a => callback_ace_ok a
  | AV_AccessAllowedCallbackObject a | AV_AccessDeniedCallbackObject a
  | AV_SystemAuditCallbackObject a => object_ace_ok (oc_object a)
  | AV_SystemResourceAttribute a => resource_ace_ok a
  end.

Definition ace_value_size (v : AceValue) : Z :=
  match v with
  | AV_AccessAllowed a | AV_AccessDenied a | AV_SystemAudit a | AV_SystemMandatoryLabel a
  | AV_SystemScopedPolicyId a => 4 + sid_size (aa_sid a)
  | AV_AccessAllowedObject a | AV_AccessDeniedObject a | AV_SystemAuditObject a => object_ace_size a
  | AV_AccessAllowedCallback a | AV_AccessDeniedCallback a
  | AV_SystemAuditCallback a => 4 + sid_size (ac_sid a) + zlen (ac_application_data a)
  | AV_AccessAllowedCallbackObject a | AV_AccessDeniedCallbackObject a
  | AV_SystemAuditCallbackObject a => object_ace_size (oc_object a) + zlen (oc_application_data a)
  | AV_SystemResourceAttribute a => 4 + sid_size (ra_sid a) + 14 + zlen (cl_value (ra_attribute_data a))
  end.

Lemma ace_value_law n v :
  ace_value_ok v ->
  exists x, writes n (write_ace_value v) x /\ reads_to n (read_ace_value (ace_get_type v)) x v /\ zlen x = ace_value_size v.
Proof.
  intros H. destruct v as [a|a|a|a|a|a|a|a|a|a|a|a|a|a|a]; cbn [ace_value_ok write_ace_value read_ace_value ace_get_type ace_value_size] in *;
    first
    [ destruct (access_ace_law n a H) as (x & H1 & H2%reads_reads_to & H3)
    | destruct (object_ace_law n a H) as (x & H1 & H2%reads_reads_to & H3)
    | destruct (callback_ace_law n a H) as (x & H1 & H2 & H3)
    | destruct (object_callback_ace_law n a H) as (x & H1 & H2 & H3)
    | destruct (resource_ace_law n a H) as (x & H1 & H2 & H3) ];
    exists x; (split_and!; [done|by apply reads_to_map|done]).
Qed.

Definition ace_size (a : ACE) : Z := ace_header_size + ace_value_size (ace_value a).

Record ace_ok (a : ACE) : Prop := {
  ae_flags : in_range u8_max (ace_flags a);
  ae_value : ace_value_ok (ace_value a);
  ae_size : ace_size a <= u16_max
}.

Lemma ace_law n a : ace_ok a -> exists x, writes n (write_ace a) x /\ reads n read_ace x a /\ zlen x <= ace_size a.
Proof.
  intros [H1 H2 H3]. destruct a as [flags v]. unfold ace_size, ace_header_size in *. cbn [ace_flags ace_value] in *.
  destruct (ace_value_law (n + 4) v H2) as (y & Hw & Hr & Hl).
  set (t := ace_get_type v) in *.
  assert (Ht : 0 <= ace_type_code t <= 19) by by destruct t.
  exists (concat [le_bytes 1 (ace_type_code t); le_bytes 1 flags; le_bytes 2 (zlen y + 4); y]). split_and!.
  - unfold write_ace, ace_header_size. emit.
  - unfold read_ace. eapply reads_segs; [apply (reads_enum _ _ _ _ t); [cbn; lia|by destruct t]|]. cbv beta.
    do 2 take_step. cbn [snd]. unfold ace_header_size. destruct (Z.ltb_spec (zlen y + 4) 4) as [|_]; [len|].
    eapply reads_segs; [|apply reads_ret]. apply reads_take_seek; [|len].
    eapply reads_to_at; [|exact Hr]. len.
  - len.
Qed.

Definition acl_size (a : ACL) : Z := acl_header_size + foldr Z.add 0 (ace_size <$> acl_ace a).

Record acl_ok (a : ACL) : Prop := {
  lk_aces : Forall ace_ok (acl_ace a);
  lk_count : zlen (acl_ace a) <= u16_max;
  lk_size : acl_size a <= u16_max
}.

(** The size that the header of a list declares. *)
Definition acl_declared_size (x : bytes) : Z := le_value (take 2 (drop 2 x)).

Lemma acl_sized_law n a :
  acl_ok a -> exists x, writes n (write_acl a) x /\ reads n read_acl x a /\ zlen x <= acl_size a /\ acl_declared_size x = zlen x.
Proof.
  intros [H1 H2 H3]. destruct a as [revision aces]. unfold acl_size, acl_header_size in *. cbn [acl_ace acl_revision] in *.
  destruct (list_law write_ace read_ace ace_ok ace_size ace_law aces (n + 8) H1) as (y & Hw & Hr & Hl).
  assert (Hc : zlen aces mod 65536 = zlen aces) by (apply Z.mod_small; unfold zlen in *; ints).
  exists (concat [le_bytes 1 (acl_revision_code revision); le_bytes 1 0; le_bytes 2 (zlen y + 8); le_bytes 2 (zlen aces);
    le_bytes 2 0; y]). split_and!.
  - unfold write_acl, acl_header_size. cbn [acl_ace acl_revision]. rewrite Hc. emit.
  - unfold read_acl. eapply reads_segs; [apply (reads_enum _ _ _ _ revision); by destruct revision|]. cbv beta.
    do 4 take_step. rewrite zlen_nat. take_step. apply reads_ret.
  - len.
  - unfold acl_declared_size. change (take 2 (drop 2 _)) with (le_bytes 2 (zlen y + 8)).
    rewrite le_value_bytes by (unfold zlen in *; cbn; ints). len.
Qed.

Lemma acl_law n a : acl_ok a -> exists x, writes n (write_acl a) x /\ reads n read_acl x a /\ zlen x <= acl_size a.
Proof. intros H. destruct (acl_sized_law n a H) as (x & ? & ? & ? & _). by exists x. Qed.

Lemma writes_inj n w x y : writes n w x -> writes n w y -> x = y.
Proof.
  intros Hx Hy. pose proof (Hx (replicate n 0) (length_replicate n 0)) as E. rewrite (Hy _ (length_replicate n 0)) in E.
  unfold at_end in E. injection E as E _. by apply app_inv_head in E.
Qed.

(** ** Descriptors *)

Lemma member_law {A} (w : A -> bin unit) (r : bin A) (fits : A -> Prop) (size : A -> Z) n o :
  (forall n a, fits a -> exists x, writes n (w a) x /\ reads n r x a /\ zlen x <= size a) ->
  (forall a, o = Some a -> fits a) ->
  exists x, writes n (put_opt w o) x /\ reads n (get_if (bool_decide (is_Some o)) r) x o /\
    zlen x <= from_option size 0 o.
Proof.
  intros Hlaw Ho. destruct o as [a|]; cbn [from_option].
  - destruct (Hlaw n a (Ho a eq_refl)) as (x & H1 & H2 & H3). exists x. split_and!; [done|by apply reads_get_if|done].
  - exists []. split_and!; [apply writes_ret|by apply reads_get_if|done].
Qed.

Lemma run_member {A} (w : A -> bin unit) o i segs x p base v :
  p = length (concat (take i segs)) ->
  writes (length (concat segs)) (put_opt w o) x -> segs !! i = Some (le_bytes 4 0) ->
  (pm_pos base <= length (concat segs))%nat ->
  v = (if o then Z.of_nat (length (concat segs)) - Z.of_nat (pm_pos base) else 0) -> 0 <= v < 256 ^ Z.of_nat 4 ->
  write_member w o (mkMarker 4 p) base (ends segs) =
    Some (ends (<[i:=le_bytes 4 v]> segs ++ [x]), Ok tt).
Proof.
  intros -> Hw Hi Hb Hv Hr. destruct o as [a|]; cbn [write_member].
  - unfold write_roff_b. subst v. erewrite (run_roff_b segs (w a) x Hw i 4 (le_bytes 4 0) _ base 0); [|done|done|apply length_le_bytes|done|lia].
    by rewrite Z.add_0_r.
  - subst v. rewrite list_insert_id by done. pose proof (run_write segs _ x Hw) as E. by rewrite <- E.
Qed.

Record sd_ok (d : SecurityDescriptor) : Prop := {
  dk_sbz1 : in_range u8_max (sd_sbz1 d);
  dk_control : in_range u16_max (sd_control d);
  dk_relative : control_self_relative (sd_control d) = true;
  dk_owner : forall s, sd_owner_sid d = Some s -> sid_ok s;
  dk_group : forall s, sd_group_sid d = Some s -> sid_ok s;
  dk_sacl : forall a, sd_sacl d = Some a -> acl_ok a;
  dk_dacl : forall a, sd_dacl d = Some a -> acl_ok a;
  dk_sacl_present : bool_decide (is_Some (sd_sacl d)) = control_sacl_present (sd_control d);
  dk_dacl_present : bool_decide (is_Some (sd_dacl d)) = control_dacl_present (sd_control d)
}.

Definition sd_size (d : SecurityDescriptor) : Z :=
  20 + from_option sid_size 0 (sd_owner_sid d) + from_option sid_size 0 (sd_group_sid d)
    + from_option acl_size 0 (sd_sacl d) + from_option acl_size 0 (sd_dacl d).

Lemma sid_law' n s : sid_ok s -> exists x, writes n (write_sid s) x /\ reads n read_sid x s /\ zlen x <= sid_size s.
Proof. intros H. destruct (sid_law n s H) as (x & ? & ? & ?). exists x. split_and!; [done..|lia]. Qed.

Lemma sid_size_le s : sid_ok s -> 8 <= sid_size s <= 1028.
Proof. intros [_ H _]. unfold sid_size, zlen in *. ints. Qed.

Lemma member_size {A} (size : A -> Z) (fits : A -> Prop) m (o : option A) :
  0 <= m -> (forall a, fits a -> 0 <= size a <= m) -> (forall a, o = Some a -> fits a) -> 0 <= from_option size 0 o <= m.
Proof. intros Hm Hs Ho. destruct o as [a|]; cbn; [|lia]. by apply Hs, Ho. Qed.

(** The offset that is written for a member. *)
Definition offset_of {A} (o : option A) (at_ : Z) : Z := if o then at_ else 0.

Lemma offset_of_zero {A} (o : option A) v : 0 < v -> bool_decide (offset_of o v <> 0) = bool_decide (is_Some o).
Proof.
  intros Hv. destruct o as [a|]; cbn [offset_of].
  - rewrite !bool_decide_eq_true_2; [done|done|lia].
  - rewrite !bool_decide_eq_false_2; [done| |naive_solver]. intros [? [=]].
Qed.

Ltac member_run i v E o :=
  lazymatch goal with
  | |- write_member ?w ?m (mkMarker 4 ?p) ?base (ends ?segs) = _ =>
      eapply (run_member w m i segs _ p base v);
        [len|writes_value|reflexivity|len|rewrite E; destruct o; cbn [offset_of]; len|cbn; ints]
  end.

Ltac member_step i v E o := eapply run_bind; [member_run i v E o|]; cbn [app insert list_insert].

(** The bytes of a descriptor, by the bytes of its members. *)
Definition sd_bytes (d : SecurityDescriptor) (x1 x2 x3 x4 : bytes) : bytes :=
  concat [le_bytes 0 0; le_bytes 1 1; le_bytes 1 (sd_sbz1 d); le_bytes 2 (sd_control d); le_bytes 4 (offset_of (sd_owner_sid d) 20);
    le_bytes 4 (offset_of (sd_group_sid d) (20 + zlen x1)); le_bytes 4 (offset_of (sd_sacl d) (20 + zlen x1 + zlen x2));
    le_bytes 4 (offset_of (sd_dacl d) (20 + zlen x1 + zlen x2 + zlen x3)); x1; x2; x3; x4].

Lemma sd_layout_law n d :
  sd_ok d -> exists x1 x2 x3 x4,
    writes n (write_security_descriptor d) (sd_bytes d x1 x2 x3 x4) /\
    reads n read_security_descriptor (sd_bytes d x1 x2 x3 x4) d /\
    20 <= zlen (sd_bytes d x1 x2 x3 x4) <= sd_size d /\
    (writes (n + 20) (put_opt write_sid (sd_owner_sid d)) x1 /\
     writes (n + 20 + length x1) (put_opt write_sid (sd_group_sid d)) x2 /\
     writes (n + 20 + length x1 + length x2) (put_opt write_acl (sd_sacl d)) x3 /\
     writes (n + 20 + length x1 + length x2 + length x3) (put_opt write_acl (sd_dacl d)) x4) /\
    zlen x1 <= 1028 /\ zlen x2 <= 1028 /\ zlen x3 <= u16_max.
Proof.
  intros [H1 H2 H3 H4 H5 H6 H7 H8 H9]. destruct d as [sbz1 control owner group sacl dacl].
  cbn [sd_sbz1 sd_control sd_owner_sid sd_group_sid sd_sacl sd_dacl] in *.
  destruct (member_law write_sid read_sid sid_ok sid_size (n + 20) owner sid_law' H4) as (x1 & Hw1 & Hr1 & Hl1).
  destruct (member_law write_sid read_sid sid_ok sid_size (n + 20 + length x1) group sid_law' H5) as (x2 & Hw2 & Hr2 & Hl2).
  destruct (member_law write_acl read_acl acl_ok acl_size (n + 20 + length x1 + length x2) sacl acl_law H6) as (x3 & Hw3 & Hr3 & Hl3).
  destruct (member_law write_acl read_acl acl_ok acl_size (n + 20 + length x1 + length x2 + length x3) dacl acl_law H7)
    as (x4 & Hw4 & Hr4 & Hl4).
  pose proof (member_size sid_size sid_ok 1028 owner ltac:(lia) ltac:(intros ? ?%sid_size_le; lia) H4) as Hs1.
  pose proof (member_size sid_size sid_ok 1028 group ltac:(lia) ltac:(intros ? ?%sid_size_le; lia) H5) as Hs2.
  assert (Hs3 : from_option acl_size 0 sacl <= u16_max).
  { destruct sacl as [a|]; cbn; [by destruct (H6 a eq_refl)|ints]. }
  remember (offset_of owner 20) as o1 eqn:E1. remember (offset_of group (20 + zlen x1)) as o2 eqn:E2.
  remember (offset_of sacl (20 + zlen x1 + zlen x2)) as o3 eqn:E3.
  remember (offset_of dacl (20 + zlen x1 + zlen x2 + zlen x3)) as o4 eqn:E4.
  assert (Ho : (in_range u32_max o1 /\ in_range u32_max o2) /\ (in_range u32_max o3 /\ in_range u32_max o4)).
  { subst o1 o2 o3 o4. unfold zlen in *. destruct owner, group, sacl, dacl; cbn [offset_of]; ints. }
  destruct Ho as [[? ?] [? ?]].
  exists x1, x2, x3, x4. unfold sd_bytes. cbn [sd_sbz1 sd_control sd_owner_sid sd_group_sid sd_sacl sd_dacl].
  rewrite <- E1, <- E2, <- E3, <- E4. split_and!.
  - apply writes_segs. intros base Hn. unfold write_security_descriptor.
    cbn [sd_sbz1 sd_control sd_owner_sid sd_group_sid sd_sacl sd_dacl]. do 3 emit_step. rewrite H3. do 6 emit_step.
    member_step 5%nat o1 E1 owner. member_step 6%nat o2 E2 group. emit_step. member_step 7%nat o3 E3 sacl. emit_step.
    member_run 8%nat o4 E4 dacl.
  - unfold read_security_descriptor. do 4 take_step. rewrite H3. do 5 take_step.
    cbn [snd]. subst o1 o2 o3 o4. unfold zlen. rewrite !offset_of_zero by lia. do 3 take_step. rewrite H8.
    eapply reads_skip; [apply reads_assert; by rewrite bool_decide_eq_true_2|]. take_step. rewrite H9.
    eapply reads_skip; [apply reads_assert; by rewrite bool_decide_eq_true_2|]. apply reads_ret.
  - len.
  - unfold sd_size. cbn [sd_owner_sid sd_group_sid sd_sacl sd_dacl]. len.
  - done.
  - done.
  - done.
  - done.
  - lia.
  - lia.
  - lia.
Qed.

Lemma sd_law n d :
  sd_ok d -> exists x, writes n (write_security_descriptor d) x /\ reads n read_security_descriptor x d /\ 20 <= zlen x <= sd_size d.
Proof. intros H. destruct (sd_layout_law n d H) as (x1 & x2 & x3 & x4 & ? & ? & ? & _). by exists (sd_bytes d x1 x2 x3 x4). Qed.
