(* ===== verification/SecurityTheorems.v ===== *)
(** What holds of the security types: descriptors survive their binary form, the offsets of a
    descriptor are not used when it is read, and the order of the entries of a list. *)
From S2P Require Import Prelude Effects Bytes Stream Codec Security.
Local Open Scope Z_scope.

(** ** Descriptors *)

(** What the header of a descriptor says of one of its members: the field at [field] holds the offset of the member from
    the start of the descriptor, or zero where there is no such member. Where it points lie the bytes that are written for
    the member, which satisfy [P]. *)
Definition lies_at {A} (n : nat) (x : bytes) (field : nat) (w : A -> bin unit) (member : option A) (P : bytes -> Prop) : Prop :=
  let offset := le_value (take 4 (drop field x)) in
  match member with
  | None => offset = 0
  | Some a => 20 <= offset /\ exists y rest, drop (Z.to_nat offset) x = y ++ rest /\ writes (n + Z.to_nat offset) (w a) y /\ P y
  end.

Lemma member_lies n x field before at_ {A} (w : A -> bin unit) member y rest (P : bytes -> Prop) :
  take 4 (drop field x) = le_bytes 4 (offset_of member at_) -> x = before ++ y ++ rest -> at_ = zlen before -> 20 <= at_ <= u32_max ->
  writes (n + length before) (put_opt w member) y -> (forall a, member = Some a -> writes (n + length before) (w a) y -> P y) ->
  lies_at n x field w member P.
Proof.
  intros Hf Hx Ha Hr Hw HP. unfold lies_at. rewrite Hf, le_value_bytes by (destruct member; cbn; ints). destruct member as [a|]; [|done].
  cbn [offset_of put_opt] in *. split; [lia|]. subst at_. rewrite zlen_nat. exists y, rest. split_and!; [|done|by apply (HP a)].
  by rewrite Hx, drop_app_length.
Qed.

(** What is written for a list declares its size. *)
Lemma acl_bytes_sized n a y : acl_ok a -> writes n (write_acl a) y -> acl_declared_size y = zlen y.
Proof. intros Ha Hw. destruct (acl_sized_law n a Ha) as (x & Hx & _ & _ & Hs). by rewrite <- (writes_inj n _ x y Hx Hw). Qed.

(** The header in front of the members. *)
Definition sd_header (d : SecurityDescriptor) (x1 x2 x3 : bytes) : bytes :=
  concat [le_bytes 0 0; le_bytes 1 1; le_bytes 1 (sd_sbz1 d); le_bytes 2 (sd_control d); le_bytes 4 (offset_of (sd_owner_sid d) 20);
    le_bytes 4 (offset_of (sd_group_sid d) (20 + zlen x1)); le_bytes 4 (offset_of (sd_sacl d) (20 + zlen x1 + zlen x2));
    le_bytes 4 (offset_of (sd_dacl d) (20 + zlen x1 + zlen x2 + zlen x3))].

(** C13: a well-formed security descriptor can be written anywhere in a stream, and reading there takes exactly the bytes that
    were written and answers the same descriptor: owner, group and both lists, whichever are present, with entries of every
    type, whatever follows. The reader of the crate takes the members one behind the other and uses of the offsets only whether
    they are zero, and the size of a list not at all, so that more is said for readers that do: each of the four offsets that are
    written back into the header is zero exactly for a member that is absent, and for a member that is present the distance from
    the start of the descriptor to where the bytes of that member lie; and the size that is written back into the header of a
    list is the number of bytes of the list, its header included. *)
Theorem security_descriptor_roundtrip n d :
  sd_ok d ->
  exists x, writes n (write_security_descriptor d) x /\ reads n read_security_descriptor x d /\ 20 <= zlen x <= sd_size d /\
    lies_at n x 4 write_sid (sd_owner_sid d) (fun _ => True) /\ lies_at n x 8 write_sid (sd_group_sid d) (fun _ => True) /\
    lies_at n x 12 write_acl (sd_sacl d) (fun y => acl_declared_size y = zlen y) /\
    lies_at n x 16 write_acl (sd_dacl d) (fun y => acl_declared_size y = zlen y).
Proof.
  intros H. destruct (sd_layout_law n d H) as (x1 & x2 & x3 & x4 & Hw & Hr & Hs & (H1 & H2 & H3 & H4) & L1 & L2 & L3).
  exists (sd_bytes d x1 x2 x3 x4). set (h := sd_header d x1 x2 x3). assert (Hh : length h = 20%nat) by done.
  assert (Hb : sd_bytes d x1 x2 x3 x4 = h ++ x1 ++ x2 ++ x3 ++ x4) by (unfold h, sd_header, sd_bytes; cbn [concat]; by rewrite !app_nil_r, <- !app_assoc).
  unfold zlen in *. split_and!; [done|done|lia|lia|..].
  - eapply (member_lies n _ 4 h 20 _ _ x1 (x2 ++ x3 ++ x4)); [done|exact Hb|by unfold zlen; rewrite Hh|ints|by rewrite Hh|done].
  - eapply (member_lies n _ 8 (h ++ x1) (20 + zlen x1) _ _ x2 (x3 ++ x4));
      [done|by rewrite Hb, <- !app_assoc|unfold zlen; rewrite length_app; lia|unfold zlen; ints|by rewrite length_app, Hh, Nat.add_assoc|done].
  - eapply (member_lies n _ 12 (h ++ x1 ++ x2) (20 + zlen x1 + zlen x2) _ _ x3 x4);
      [done|by rewrite Hb, <- !app_assoc|unfold zlen; rewrite !length_app; lia|unfold zlen; ints|by rewrite !length_app, Hh, !Nat.add_assoc|].
    intros a Ha. apply acl_bytes_sized. by apply (dk_sacl _ H).
  - eapply (member_lies n _ 16 (h ++ x1 ++ x2 ++ x3) (20 + zlen x1 + zlen x2 + zlen x3) _ _ x4 []);
      [done|by rewrite Hb, <- !app_assoc, app_nil_r|unfold zlen; rewrite !length_app; lia|unfold zlen; ints|by rewrite !length_app, Hh, !Nat.add_assoc|].
    intros a Ha. apply acl_bytes_sized. by apply (dk_dacl _ H).
Qed.

(** A descriptor whose group lies in front of its owner, with the offsets that say so. *)
Definition group_first (sbz1 control owner_offset group_offset : Z) (owner group : bytes) : bytes :=
  concat [le_bytes 1 1; le_bytes 1 sbz1; le_bytes 2 control; le_bytes 4 owner_offset; le_bytes 4 group_offset;
    le_bytes 4 0; le_bytes 4 0; group; owner].

(** the offsets of a descriptor are not followed. When the group lies in front of the owner, as
    its offsets say, the descriptor is read without an error and with owner and group exchanged. *)
Lemma descriptor_offsets_are_ignored n sbz1 control owner group :
  in_range u8_max sbz1 -> in_range u16_max control -> control_self_relative control = true ->
  control_sacl_present control = false -> control_dacl_present control = false ->
  sid_ok owner -> sid_ok group ->
  reads n read_security_descriptor (group_first sbz1 control (20 + sid_size group) 20 (sid_bytes owner) (sid_bytes group))
    (mkSd sbz1 control (Some group) (Some owner) None None).
Proof.
  intros H1 H2 H3 H4 H5 Hko Hkg. pose proof (sid_size_le group Hkg) as Hs.
  destruct (sid_writes_reads (n + 20) group Hkg) as (_ & Hg & Hl).
  destruct (sid_writes_reads (n + 20 + length (sid_bytes group)) owner Hko) as (_ & Ho & _). unfold group_first, read_security_descriptor.
  eapply reads_skip; [by apply (reads_get_marker n 0 0)|]. do 3 take_step. rewrite H3. do 5 take_step. cbn [snd].
  rewrite (bool_decide_eq_true_2 (20 + sid_size group <> 0)) by lia. cbn [get_if bool_decide].
  eapply reads_segs; [apply (reads_map _ read_sid Some); reads_value|].
  eapply reads_segs; [apply (reads_map _ read_sid Some); reads_value|].
  rewrite H4, H5. repeat take_step. apply reads_ret.
Qed.

(** ** The order of entries *)

(** The place an entry belongs to: explicit entries that do not allow access, explicit entries that
    do, inherited entries. *)
Definition ace_rank (a : ACE) : nat :=
  if ace_inherited a then 2 else if is_access_allowed (ace_value a) then 1 else 0.

Lemma sort_aces_by_rank a b : sort_aces_by a b = Nat.compare (ace_rank a) (ace_rank b).
Proof.
  unfold sort_aces_by, ace_rank.
  destruct (ace_inherited a), (ace_inherited b); cbn; [done|by destruct (is_access_allowed _)..|].
  by destruct (is_access_allowed (ace_value a)), (is_access_allowed (ace_value b)).
Qed.

Lemma ace_rank_le a : (ace_rank a <= 2)%nat.
Proof. unfold ace_rank. repeat case_match; lia. Qed.

Definition of_rank (k : nat) (l : list ACE) : list ACE := filter (fun a => ace_rank a = k) l.

Definition by_rank (l : list ACE) : list ACE := of_rank 0 l ++ of_rank 1 l ++ of_rank 2 l.

Lemma insert_sorted_skip a l l' :
  Forall (fun b => (ace_rank b < ace_rank a)%nat) l -> insert_sorted a (l ++ l') = l ++ insert_sorted a l'.
Proof.
  induction 1 as [|b l Hb _ IH]; [done|]. cbn [app insert_sorted]. rewrite sort_aces_by_rank.
  destruct (Nat.compare_spec (ace_rank a) (ace_rank b)); [lia|lia|]. by rewrite IH.
Qed.

Lemma insert_sorted_front a l :
  Forall (fun b => (ace_rank a <= ace_rank b)%nat) l -> insert_sorted a l = a :: l.
Proof.
  destruct 1 as [|b l Hb _]; [done|]. cbn [insert_sorted]. rewrite sort_aces_by_rank.
  destruct (Nat.compare_spec (ace_rank a) (ace_rank b)); [done|done|lia].
Qed.

Lemma of_rank_forall k l : Forall (fun b => ace_rank b = k) (of_rank k l).
Proof. apply Forall_forall. intros b Hb. by apply list_elem_of_filter in Hb as [? _]. Qed.

Lemma of_rank_cons k a l : of_rank k (a :: l) = if decide (ace_rank a = k) then a :: of_rank k l else of_rank k l.
Proof. done. Qed.

Lemma sort_aces_by_place l : sort_aces l = by_rank l.
Proof.
  induction l as [|a l IH]; [done|]. change (sort_aces (a :: l)) with (insert_sorted a (sort_aces l)). rewrite IH.
  pose proof (of_rank_forall 0 l) as H0. pose proof (of_rank_forall 1 l) as H1. pose proof (of_rank_forall 2 l) as H2.
  unfold by_rank. rewrite !of_rank_cons. pose proof (ace_rank_le a) as Ha.
  assert (Hc : ace_rank a = 0%nat \/ ace_rank a = 1%nat \/ ace_rank a = 2%nat) by lia.
  destruct Hc as [E|[E|E]]; rewrite E; repeat (case_decide; try (exfalso; lia)).
  - apply insert_sorted_front. rewrite !Forall_app. split_and!; (eapply Forall_impl; [done|]); cbn; intros b Hb; lia.
  - rewrite insert_sorted_skip by (eapply Forall_impl; [done|]; cbn; intros b Hb; lia).
    rewrite insert_sorted_front; [done|]. rewrite Forall_app. split; (eapply Forall_impl; [done|]); cbn; intros b Hb; lia.
  - rewrite app_assoc, insert_sorted_skip, insert_sorted_front; [by rewrite <- app_assoc| |].
    + eapply Forall_impl; [done|]. cbn. intros b Hb. lia.
    + rewrite Forall_app. split; (eapply Forall_impl; [done|]); cbn; intros b Hb; lia.
Qed.

Lemma aces_sorted_cons a l : aces_sorted (a :: l) = true <->
  match l with [] => True | b :: _ => (ace_rank a <= ace_rank b)%nat end /\ aces_sorted l = true.
Proof.
  destruct l as [|b l]; [naive_solver|]. cbn [aces_sorted]. rewrite sort_aces_by_rank.
  destruct (Nat.compare_spec (ace_rank a) (ace_rank b)); cbn; split; intros; naive_solver lia.
Qed.

(** A sorted list is left as it is. *)
Lemma sorted_fixed l : aces_sorted l = true -> sort_aces l = l.
Proof.
  induction l as [|a l IH]; [done|]. intros [Ha Hl]%aces_sorted_cons.
  change (sort_aces (a :: l)) with (insert_sorted a (sort_aces l)). rewrite IH by done.
  destruct l as [|b l]; [done|]. cbn [insert_sorted]. rewrite sort_aces_by_rank.
  destruct (Nat.compare_spec (ace_rank a) (ace_rank b)); [done|done|lia].
Qed.

Lemma sorted_app k l l' :
  Forall (fun b => ace_rank b = k) l -> Forall (fun b => (k <= ace_rank b)%nat) l' -> aces_sorted l' = true ->
  aces_sorted (l ++ l') = true.
Proof.
  intros Hl Hl' Hs. induction Hl as [|a l Ha Hl IH]; [done|]. cbn [app]. apply aces_sorted_cons. split; [|done].
  destruct l as [|b l]; cbn [app].
  - destruct l' as [|c l']; [done|]. apply Forall_cons in Hl' as [? _]. lia.
  - apply Forall_cons in Hl as [? _]. lia.
Qed.

Lemma by_rank_sorted l : aces_sorted (by_rank l) = true.
Proof.
  pose proof (of_rank_forall 0 l) as H0. pose proof (of_rank_forall 1 l) as H1. pose proof (of_rank_forall 2 l) as H2.
  unfold by_rank. apply (sorted_app 0); [done| |].
  - rewrite Forall_app. split; (eapply Forall_impl; [done|]); cbn; intros b Hb; lia.
  - apply (sorted_app 1); [done|eapply Forall_impl; [done|]; cbn; intros b Hb; lia|].
    rewrite <- (app_nil_r (of_rank 2 l)). by apply (sorted_app 2).
Qed.

Lemma by_rank_permutation l : by_rank l ≡ₚ l.
Proof.
  induction l as [|a l IH]; [done|]. unfold by_rank in *. rewrite !of_rank_cons. pose proof (ace_rank_le a) as Ha.
  assert (Hc : ace_rank a = 0%nat \/ ace_rank a = 1%nat \/ ace_rank a = 2%nat) by lia.
  transitivity (a :: of_rank 0 l ++ of_rank 1 l ++ of_rank 2 l); [|by f_equiv].
  destruct Hc as [E|[E|E]]; rewrite E; repeat (case_decide; try (exfalso; lia)); cbn [app]; [done|by rewrite <- Permutation_middle|].
  by rewrite !app_assoc, <- Permutation_middle.
Qed.

Lemma foldr_add_permutation (l k : list Z) : l ≡ₚ k -> foldr Z.add 0 l = foldr Z.add 0 k.
Proof. induction 1; cbn; lia. Qed.

Lemma acl_ok_permutation r l k : l ≡ₚ k -> acl_ok (mkAcl r l) <-> acl_ok (mkAcl r k).
Proof.
  intros Hp. assert (He : acl_size (mkAcl r l) = acl_size (mkAcl r k) /\ zlen l = zlen k).
  { unfold acl_size, zlen. cbn [acl_ace]. rewrite (foldr_add_permutation _ (ace_size <$> k)), Hp; [done|by rewrite Hp]. }
  destruct He as [E1 E2]. split; intros [H1 H2 H3]; cbn [acl_ace] in *; constructor; cbn [acl_ace]; (by rewrite <- ?Hp || by rewrite ?Hp || lia).
Qed.

Lemma of_rank_of_rank k j l : of_rank k (of_rank j l) = if decide (k = j) then of_rank k l else [].
Proof.
  unfold of_rank. rewrite list_filter_filter. case_decide as E.
  - subst j. apply list_filter_iff. naive_solver.
  - induction l as [|a l IH]; [done|]. rewrite filter_cons, decide_False; [done|naive_solver].
Qed.

(** Ordering keeps each group as it is. *)
Lemma of_rank_by_rank k l : of_rank k (by_rank l) = of_rank k l.
Proof.
  unfold by_rank. unfold of_rank at 1. rewrite !filter_app. fold (of_rank k (of_rank 0 l)) (of_rank k (of_rank 1 l)) (of_rank k (of_rank 2 l)).
  rewrite !of_rank_of_rank. repeat case_decide; try lia; rewrite ?app_nil_r; [done..|].
  unfold of_rank. symmetry. induction l as [|a l IH]; [done|]. rewrite filter_cons, decide_False; [done|].
  pose proof (ace_rank_le a). lia.
Qed.

Lemma of_rank_insert k l ace :
  of_rank k (by_rank (l ++ [ace])) = of_rank k l ++ (if decide (ace_rank ace = k) then [ace] else []).
Proof. rewrite of_rank_by_rank. unfold of_rank. rewrite filter_app. by rewrite filter_cons. Qed.

Lemma sorted_lookup l : aces_sorted l = true ->
  forall i j x y, (i < j)%nat -> l !! i = Some x -> l !! j = Some y -> (ace_rank x <= ace_rank y)%nat.
Proof.
  induction l as [|a l IH]; [done|]. intros [Ha Hl]%aces_sorted_cons [|i] [|j] x y Hij Hi Hj; [lia| |lia|].
  - injection Hi as <-. destruct l as [|b l]; [done|]. destruct j as [|j]; [by injection Hj as <-|].
    pose proof (IH Hl 0%nat (S j) b y ltac:(lia) eq_refl Hj). lia.
  - by apply (IH Hl i j); [lia|..].
Qed.

Lemma by_rank_lookup l i j x y :
  by_rank l !! i = Some x -> by_rank l !! j = Some y -> (i < j)%nat -> (ace_rank x <= ace_rank y)%nat.
Proof. intros Hi Hj Hij. eapply sorted_lookup; [apply by_rank_sorted|done..]. Qed.

Lemma allowed_not_denied v : is_access_denied v = true -> is_access_allowed v = false.
Proof. by destruct v. Qed.

(** Ordering an access control list puts its entries in three groups, explicit entries that do not
    allow access, explicit entries that allow it, and inherited entries, each in the order it had,
    so that no explicit denial comes behind an explicit permission. The result passes
    [is_ace_sorted], which holds of exactly the lists that ordering leaves as they are, it is a
    permutation, and an ordered list that could be written still can be. Inserting an entry in an
    ordered list puts it at the end of its group. *)
Lemma order_aces_groups a ace :
  acl_ace (order_aces a) = of_rank 0 (acl_ace a) ++ of_rank 1 (acl_ace a) ++ of_rank 2 (acl_ace a) /\
  acl_ace (order_aces a) ≡ₚ acl_ace a /\
  is_ace_sorted (order_aces a) = true /\ (is_ace_sorted a = true <-> order_aces a = a) /\
  (acl_ok a <-> acl_ok (order_aces a)) /\
  (forall k, of_rank k (acl_ace (insert_ace a ace)) =
     of_rank k (acl_ace a) ++ (if decide (ace_rank ace = k) then [ace] else [])) /\
  is_ace_sorted (insert_ace a ace) = true /\
  (forall i j x y, acl_ace (order_aces a) !! i = Some x -> acl_ace (order_aces a) !! j = Some y -> (i < j)%nat ->
     ace_inherited x = false -> is_access_allowed (ace_value x) = true -> is_access_denied (ace_value y) = true ->
     ace_inherited y = true).
Proof.
  unfold insert_ace, order_aces, is_ace_sorted. cbn [acl_ace acl_revision].
  rewrite !sort_aces_by_place. pose proof (by_rank_permutation (acl_ace a)) as Hp. split_and!.
  - done.
  - done.
  - apply by_rank_sorted.
  - rewrite <- sort_aces_by_place. split; [intros H; rewrite sorted_fixed by done; by destruct a|].
    intros E. rewrite <- E. cbn [acl_ace]. rewrite sort_aces_by_place. apply by_rank_sorted.
  - destruct a as [r l]. by apply acl_ok_permutation.
  - intros k. apply of_rank_insert.
  - apply by_rank_sorted.
  - intros i j x y Hi Hj Hij Hx1 Hx2 Hy. pose proof (by_rank_lookup _ i j x y Hi Hj Hij) as Hr.
    unfold ace_rank in Hr. rewrite Hx1, Hx2 in Hr. destruct (ace_inherited y); [done|].
    rewrite allowed_not_denied in Hr by done. lia.
Qed.

(** ** Witnesses *)

Definition sample_sid : SID := mkSid 5 [21; 782712087; 1002].
Definition sample_group : SID := mkSid 5 [32; 544].
Definition sample_ace : ACE := mkAce 3 (AV_AccessDenied (mkAccessAce 0x1f01ff sample_sid)).
Definition sample_object_ace : ACE :=
  mkAce 0 (AV_AccessAllowedCallbackObject (mkObjectCallbackAce
    (mkObjectAce 1 None (Some (mkGuid 1 2 3 [4; 5; 6; 7; 8; 9; 10; 11])) sample_group) [1; 2; 3])).
Definition sample_sd : SecurityDescriptor :=
  mkSd 0 0x8004 (Some sample_sid) (Some sample_group) None (Some (mkAcl AR_Nt4 [sample_ace; sample_object_ace])).

Lemma sample_sid_ok : sid_ok sample_sid.
Proof. constructor; [cbn; lia|vm_compute; done|]. repeat constructor; ints. Qed.

Lemma sample_group_ok : sid_ok sample_group.
Proof. constructor; [cbn; lia|vm_compute; done|]. repeat constructor; ints. Qed.

Lemma sample_sd_ok : sd_ok sample_sd.
Proof.
  constructor; [by vm_compute..| | | |intros a [= <-]|by vm_compute|by vm_compute].
  - intros s [= <-]. apply sample_sid_ok.
  - intros s [= <-]. apply sample_group_ok.
  - intros a [=].
  - constructor; [|by vm_compute|by vm_compute]. apply Forall_cons; split; [|apply Forall_cons; split; [|done]].
    + constructor; [by vm_compute| |by vm_compute]. split; [by vm_compute|apply sample_sid_ok].
    + constructor; [by vm_compute| |by vm_compute]. constructor; [by vm_compute|intros g [=]|intros g [= <-]|apply sample_group_ok].
      constructor; by vm_compute.
Qed.

Lemma security_descriptor_roundtrip_witness :
  exists x, writes 0 (write_security_descriptor sample_sd) x /\ reads 0 read_security_descriptor x sample_sd /\ 20 <= zlen x <= sd_size sample_sd /\
    lies_at 0 x 4 write_sid (sd_owner_sid sample_sd) (fun _ => True) /\ lies_at 0 x 8 write_sid (sd_group_sid sample_sd) (fun _ => True) /\
    lies_at 0 x 12 write_acl (sd_sacl sample_sd) (fun y => acl_declared_size y = zlen y) /\
    lies_at 0 x 16 write_acl (sd_dacl sample_sd) (fun y => acl_declared_size y = zlen y).
Proof. apply (security_descriptor_roundtrip 0 sample_sd). exact sample_sd_ok. Defined.

