(* ===== verification/ChainedList.v ===== *)
(** Chained lists (crates/smb-fscc/src/chained_list.rs): entries that each begin with the offset of
    the next one, zero in the last, and are aligned. *)
From S2P Require Import Prelude Effects Bytes Stream Codec.
Local Open Scope Z_scope.

Definition chained_item_prefix_size : Z := 4.

Section chained.
Context {T : Type} (offset_pad : nat) (write_item : T -> bin unit) (read_item : bin T).

(** The entries from some index on. The gap in front of the next entry is only sought over. *)
Fixpoint write_chained (values : list T) : bin unit :=
  match values with
  | [] => mret tt
  | item :: values =>
      position_before ← stream_position;
      _ ← put 4 0;
      _ ← write_item item;
      match values with
      | [] => mret tt
      | _ :: _ =>
          position_after_item ← stream_position;
          let position_after := (position_after_item + padding offset_pad position_after_item)%nat in
          let next_entry_offset := Z.of_nat (position_after - position_before) mod 2 ^ 32 in
          _ ← seek_start position_before;
          _ ← put 4 next_entry_offset;
          _ ← seek_start position_after;
          write_chained values
      end
  end.

Fixpoint read_chained_loop (fuel : nat) : bin (list T) :=
  match fuel with
  | O => e_panic
  | S fuel =>
      position_before ← stream_position;
      _ ← bin_assert (bool_decide (position_before `mod` offset_pad = 0)%nat);
      next_item_offset ← get 4;
      item ← read_item;
      if bool_decide (next_item_offset = 0) then mret [item]
      else
        _ ← seek_start (position_before + Z.to_nat next_item_offset);
        values ← read_chained_loop fuel;
        mret (item :: values)
  end.

(** Every turn reads an offset and moves on, so there are at most as many as bytes. *)
Definition read_chained : bin (list T) := fun s =>
  if bool_decide (st_pos s = length (st_data s)) then Some (s, Ok [])
  else read_chained_loop (S (length (st_data s))) s.

Lemma write_chained_more item item' l :
  write_chained (item :: item' :: l) =
    (position_before ← stream_position; _ ← put 4 0; _ ← write_item item; position_after_item ← stream_position;
     _ ← seek_start position_before;
     _ ← put 4 (Z.of_nat (position_after_item + padding offset_pad position_after_item - position_before) mod 2 ^ 32);
     _ ← seek_start (position_after_item + padding offset_pad position_after_item);
     write_chained (item' :: l)).
Proof. reflexivity. Qed.

(** ** Round trip *)

Context (fits : T -> Prop) (size : T -> Z) (Hpad : offset_pad <> O).
Context (Hlaw : forall n a, (n `mod` offset_pad = 0)%nat -> fits a ->
  exists x, writes (n + 4) (write_item a) x /\ reads_any (n + 4) read_item x a /\ zlen x <= size a).

Definition chained_size (l : list T) : Z := foldr Z.add 0 ((fun a => 4 + size a + Z.of_nat offset_pad) <$> l).

(** A position behind the end, as the gap in front of an entry leaves it. *)
Lemma write_all_gap base k bs :
  write_all bs (mkStream base (length base + k)) = Some (at_end (base ++ replicate k 0 ++ bs), Ok tt).
Proof.
  unfold write_all, overwrite, at_end. cbn [st_data st_pos]. rewrite take_ge, drop_ge by lia.
  replace (length base + k - length base)%nat with k by lia. rewrite app_nil_r. do 2 f_equal.
  rewrite !length_app, length_replicate. f_equal. lia.
Qed.

(** Writing over a segment and going on behind the end. *)
Lemma run_patch segs i old w v k (f : unit -> bin unit) :
  segs !! i = Some old -> length old = w ->
  (_ ← seek_start (length (concat (take i segs))); _ ← put w v; _ ← seek_start (length (concat segs) + k); f tt) (ends segs) =
    f tt (mkStream (concat (<[i:=le_bytes w v]> segs)) (length (concat (<[i:=le_bytes w v]> segs)) + k)).
Proof.
  intros Hi Hl.
  eapply run_bind; [reflexivity|]. eapply run_bind; [reflexivity|]. eapply run_bind; [reflexivity|]. cbn [st_pos st_data].
  rewrite (length_concat_lengths (<[i:=le_bytes w v]> segs) segs)
    by (apply (lengths_insert segs i old); [done|by rewrite length_le_bytes]).
  unfold ends, at_end. cbn [st_data]. by rewrite (overwrite_segment segs i old) by (rewrite ?length_le_bytes; done).
Qed.

Lemma chained_nonempty l : forall n k,
  l <> [] -> Forall (fun a => fits a /\ 4 + size a + Z.of_nat offset_pad < 2 ^ 32) l ->
  ((n + k) `mod` offset_pad = 0)%nat ->
  exists x, (forall base, length base = n ->
       write_chained l (mkStream base (n + k)) = Some (at_end (base ++ replicate k 0 ++ x), Ok tt)) /\
    (forall fuel, (length l <= fuel)%nat -> reads_any (n + k) (read_chained_loop fuel) x l) /\
    zlen x <= chained_size l /\ (length l <= length x)%nat.
Proof using Hlaw Hpad.
  induction l as [|item l IH]; intros n k Hne Hl Ha; [done|]. clear Hne. apply Forall_cons in Hl as [[Hf Hs] Hl].
  destruct (Hlaw (n + k) item Ha Hf) as (y & Hw & Hr & Hy).
  set (p := (n + k + 4 + length y)%nat). set (pad := padding offset_pad p).
  pose proof (padding_lt offset_pad p Hpad) as Hp. fold pad in Hp.
  assert (Hput : forall base, length base = n ->
    put 4 0 (mkStream base (n + k)) = Some (ends [base ++ replicate k 0; le_bytes 4 0], Ok tt)).
  { intros base <-. unfold put. rewrite write_all_gap. unfold ends. cbn [concat]. by rewrite app_nil_r, app_assoc. }
  destruct l as [|item' l].
  - exists (le_bytes 4 0 ++ y). split_and!.
    + intros base Hn. cbn [write_chained]. eapply run_bind; [reflexivity|]. eapply run_bind; [by apply Hput|].
      eapply run_bind; [apply run_write; eapply writes_at; [|exact Hw]; len|]. unfold ends. cbn [app concat].
      rewrite app_nil_r, <- !app_assoc. done.
    + intros [|fuel] Hfuel; [cbn in Hfuel; lia|]. cbn [read_chained_loop].
      eapply reads_any_skip; [apply reads_position|]. cbv beta.
      eapply reads_any_skip; [apply reads_assert; by rewrite bool_decide_eq_true_2|].
      eapply reads_any_bind; [by apply reads_get|]. cbv beta.
      apply (reads_any_map _ read_item (fun item => [item])). eapply reads_any_at; [|exact Hr]. len.
    + unfold chained_size. cbn [fmap list_fmap foldr]. len.
    + len.
  - destruct (IH p pad) as (x & Hx1 & Hx2 & Hx3 & Hx4); [done|done| |].
    { destruct (padding_aligned offset_pad p Hpad) as [q Hq]. fold pad in Hq. rewrite Hq. apply Nat.Div0.mod_mul. }
    set (off := Z.of_nat (4 + length y + pad)).
    assert (Hoff : 0 < off < 2 ^ 32) by (subst off; unfold zlen in *; lia).
    exists (le_bytes 4 off ++ y ++ replicate pad 0 ++ x). split_and!.
    + intros base Hn. rewrite write_chained_more. eapply run_bind; [reflexivity|]. eapply run_bind; [by apply Hput|].
      eapply run_bind; [apply run_write; eapply writes_at; [|exact Hw]; len|]. cbn [app].
      eapply run_bind; [reflexivity|]. cbn [st_pos ends at_end].
      set (segs := [base ++ replicate k 0; le_bytes 4 0; y]).
      assert (Hsl : length (concat segs) = p) by (subst segs p; len).
      replace (padding offset_pad (length (concat segs))) with pad by (by rewrite Hsl).
      replace (n + k)%nat with (length (concat (take 1 segs))) by (subst segs; len).
      change (mkStream (concat segs) (length (concat segs))) with (ends segs).
      rewrite (run_patch segs 1 (le_bytes 4 0) 4 _ pad (fun _ => write_chained (item' :: l))) by done.
      rewrite (length_concat_lengths (<[1%nat:=_]> segs) segs), Hsl
        by (apply (lengths_insert segs 1 (le_bytes 4 0)); [done|by rewrite !length_le_bytes]).
      assert (Hoff' : Z.of_nat (p + pad - length (concat (take 1 segs))) mod 2 ^ 32 = off).
      { replace (Z.of_nat (p + pad - length (concat (take 1 segs)))) with off by (subst segs off p; len).
        apply Z.mod_small. lia. }
      rewrite Hoff'. rewrite Hx1 by (subst segs p; cbn [insert list_insert]; len).
      subst segs. cbn [insert list_insert concat]. by rewrite app_nil_r, <- !app_assoc.
    + intros [|fuel] Hfuel pre post Hpre; [cbn in Hfuel; lia|]. cbn [read_chained_loop].
      assert (Hseek : (n + k + Z.to_nat off)%nat = (p + pad)%nat) by (subst off p; lia).
      destruct (Hr (pre ++ le_bytes 4 off) (replicate pad 0 ++ x ++ post)) as [pos1 H1]; [len|].
      destruct (Hx2 fuel ltac:(cbn [length] in *; lia) (((pre ++ le_bytes 4 off) ++ y) ++ replicate pad 0) post) as [pos2 H2];
        [subst p; len|].
      rewrite <- !app_assoc in H1. rewrite <- !app_assoc in H2. rewrite <- !app_assoc. exists pos2.
      eapply run_bind; [reflexivity|]. cbn [st_pos].
      eapply run_bind; [apply run_assert; by rewrite bool_decide_eq_true_2|].
      eapply run_bind; [apply (reads_get (n + k) 4 off); [cbn; lia|done]|]. rewrite length_le_bytes.
      eapply run_bind; [exact H1|]. rewrite bool_decide_eq_false_2 by lia. eapply run_bind; [reflexivity|].
      cbn [st_pos]. rewrite Hseek. eapply run_bind; [exact H2|]. done.
    + unfold chained_size in *. cbn [fmap list_fmap foldr] in *. len.
    + len.
Qed.

(** A list with entries may be followed by anything. *)
Lemma chained_nonempty_law n l :
  l <> [] -> Forall (fun a => fits a /\ 4 + size a + Z.of_nat offset_pad < 2 ^ 32) l -> (n `mod` offset_pad = 0)%nat ->
  exists x, writes n (write_chained l) x /\ reads_any n read_chained x l /\ zlen x <= chained_size l /\ x <> [].
Proof using Hlaw Hpad.
  intros Hne Hl Ha. destruct (chained_nonempty l n 0) as (x & H1 & H2 & H3 & H4); [done|done|by rewrite Nat.add_0_r|].
  assert (0 < length l)%nat by (destruct l; [done|cbn; lia]).
  exists x. split_and!; [| |done|destruct x; cbn [length] in *; [lia|done]].
  - intros base Hn. specialize (H1 base Hn). rewrite Nat.add_0_r in H1. subst n. apply H1.
  - intros pre post Hn. unfold read_chained. cbn [st_pos st_data].
    rewrite bool_decide_eq_false_2 by (rewrite !length_app; lia).
    specialize (H2 (S (length (pre ++ x ++ post)))). rewrite Nat.add_0_r in H2. apply H2; [|done].
    rewrite !length_app. lia.
Qed.

(** A list is written at an aligned position; it is read to the end of its stream. *)
Lemma chained_law n l :
  Forall (fun a => fits a /\ 4 + size a + Z.of_nat offset_pad < 2 ^ 32) l -> (n `mod` offset_pad = 0)%nat ->
  exists x, writes n (write_chained l) x /\ reads_to_any n read_chained x l /\ zlen x <= chained_size l /\
    (x = [] -> forall m, reads_to_any m read_chained [] l).
Proof using Hlaw Hpad.
  intros Hl Ha. destruct l as [|item l].
  - assert (He : forall m, reads_to_any m read_chained [] []).
    { intros m pre Hn. exists m. unfold read_chained. cbn [st_pos st_data].
      by rewrite bool_decide_eq_true_2 by (by rewrite app_nil_r). }
    exists []. split_and!; [apply writes_ret|apply He|done|done].
  - destruct (chained_nonempty_law n (item :: l)) as (x & H1 & H2 & H3 & H4); [done..|].
    exists x. split_and!; [done|by apply reads_any_to_any|done|done].
Qed.
End chained.

(** ** Termination *)

Section ends.
Context {T : Type} (offset_pad : nat) (read_item : bin T).
Context (Hkeeps : forall s s' r, read_item s = Some (s', r) -> st_data s' = st_data s).
Context (Htotal : forall s, read_item s <> None).

Lemma read_chained_loop_total fuel : forall s,
  bytes_ok (st_data s) -> (length (st_data s) - st_pos s < fuel)%nat -> read_chained_loop offset_pad read_item fuel s <> None.
Proof using Hkeeps Htotal.
  induction fuel as [|fuel IH]; intros s Hb Hs H; [lia|].
  cbn [read_chained_loop] in H. apply eff_bind_None in H as [H|(s1 & p & [= <- <-] & H)]; [done|].
  apply eff_bind_None in H as [H|(s2 & [] & H1 & H)]; [done|]. apply e_lift_Ok in H1 as [-> _].
  apply eff_bind_None in H as [H|(s3 & off & H3 & H)].
  { unfold get, read_exact in H. apply eff_bind_None in H as [H|(? & ? & _ & H)]; [by case_match|done]. }
  apply eff_bind_Ok in H3 as (s4 & bs & H3 & H4). unfold read_exact in H3.
  destruct (Nat.ltb_spec (length (st_data s)) (st_pos s + 4)) as [|Hlen]; [done|]. injection H3 as <- <-.
  apply eff_ret_Ok in H4 as [-> Hoff].
  apply eff_bind_None in H as [H|(s5 & item & H5 & H)]; [by apply Htotal in H|].
  apply Hkeeps in H5. cbn in H5. destruct (bool_decide (off = 0)) eqn:Eo; [done|]. apply bool_decide_eq_false in Eo.
  apply eff_bind_None in H as [H|(s6 & [] & [= <-] & H)]; [done|].
  apply eff_bind_None in H as [H|(? & ? & _ & H)]; [|done]. assert (Ho : 0 <= off).
  { subst off. apply le_value_bound. apply Forall_take, Forall_drop, Hb. }
  revert H. apply IH; cbn; rewrite H5; [done|lia].
Qed.

Lemma read_chained_total s : bytes_ok (st_data s) -> read_chained offset_pad read_item s <> None.
Proof using Hkeeps Htotal.
  intros Hb. unfold read_chained. case_bool_decide; [done|]. apply read_chained_loop_total; [done|]. lia.
Qed.
End ends.
