(* ===== verification/CreateContexts.v ===== *)
(** Create contexts (crates/smb-msg/src/create.rs): the extra requests and answers that travel with
    a CREATE, each a name and a payload, chained behind the fixed part of the message.

    The payloads of [ExtA] are those of crates/smb-fscc/src/common_info.rs, where the type of a
    list of attributes is itself a chained list. *)
From S2P Require Import Prelude Effects Bytes Header Stream Codec Security ChainedList.
Local Open Scope Z_scope.

(** ** File identifiers *)

Record FileId := mkFileId { fi_persistent : Z; fi_volatile : Z }.

#[export] Instance FileId_eq : EqDecision FileId.
Proof. solve_decision. Defined.

Definition write_file_id (f : FileId) : bin unit := _ ← put 8 (fi_persistent f); put 8 (fi_volatile f).
Definition read_file_id : bin FileId := p ← get 8; v ← get 8; mret (mkFileId p v).

(** ** Extended attributes *)

Record FileFullEaInformationInner := mkEa { ea_flags : Z; ea_name : bytes; ea_value : bytes }.

Definition write_ea (e : FileFullEaInformationInner) : bin unit :=
  _ ← put 1 (ea_flags e);
  _ ← put_count 1 (ea_name e);
  _ ← put 2 (zlen (ea_value e) mod 65536);
  _ ← write_null 1 (ea_name e);
  write_all (ea_value e).

Definition read_ea : bin FileFullEaInformationInner :=
  flags ← get 1;
  name_length ← get 1;
  value_length ← get 2;
  name ← read_null 1;
  _ ← bin_assert (bool_decide (zlen name = name_length));
  value ← read_exact (Z.to_nat value_length);
  mret (mkEa flags name value).

(** [FileFullEaInformation] is a chained list of the above. *)
Definition FileFullEaInformation : Type := list FileFullEaInformationInner.
Definition write_full_ea : FileFullEaInformation -> bin unit := write_chained 4 write_ea.
Definition read_full_ea : bin FileFullEaInformation := read_chained 4 read_ea.

(** ** Leases *)

Record RequestLeaseV1 := mkLeaseV1 { l1_lease_key : Z; l1_lease_state : Z }.

Record RequestLeaseV2 := mkLeaseV2 {
  l2_lease_key : Z;
  l2_lease_state : Z;
  l2_lease_flags : Z;
  l2_parent_lease_key : Z;
  l2_epoch : Z
}.

Inductive RequestLease := RqLsReqv1 (l : RequestLeaseV1) | RqLsReqv2 (l : RequestLeaseV2).

Definition write_lease_v1 (l : RequestLeaseV1) : bin unit :=
  _ ← put 16 (l1_lease_key l); _ ← put 4 (l1_lease_state l); _ ← put 4 0; put 8 0.

Definition read_lease_v1 : bin RequestLeaseV1 :=
  key ← get 16; state ← get 4; _ ← get_const 4 0; _ ← get_const 8 0; mret (mkLeaseV1 key state).

Definition write_lease_v2 (l : RequestLeaseV2) : bin unit :=
  _ ← put 16 (l2_lease_key l);
  _ ← put 4 (l2_lease_state l);
  _ ← put 4 (l2_lease_flags l);
  _ ← put 8 0;
  _ ← put 16 (l2_parent_lease_key l);
  _ ← put 2 (l2_epoch l);
  put 2 0.

Definition read_lease_v2 : bin RequestLeaseV2 :=
  key ← get 16;
  state ← get 4;
  flags ← get 4;
  _ ← get_const 8 0;
  parent ← get 16;
  epoch ← get 2;
  _ ← get 2;
  mret (mkLeaseV2 key state flags parent epoch).

Definition write_lease (l : RequestLease) : bin unit :=
  match l with RqLsReqv1 l => write_lease_v1 l | RqLsReqv2 l => write_lease_v2 l end.

Definition read_lease : bin RequestLease :=
  read_variants [l ← read_lease_v1; mret (RqLsReqv1 l); l ← read_lease_v2; mret (RqLsReqv2 l)].

(** ** Durable handles and the like *)

Record DurableHandleRequestV2 := mkDh2q { dq_timeout : Z; dq_flags : Z; dq_create_guid : Guid }.
Record DurableHandleReconnectV2 := mkDh2c { dc_file_id : FileId; dc_create_guid : Guid; dc_flags : Z }.
Record DH2QResp := mkDh2qResp { dr_timeout : Z; dr_flags : Z }.
Record QueryMaximalAccessResponse := mkMxac { mr_query_status : Status; mr_maximal_access : Z }.
Record QueryOnDiskIdResp := mkQfid { qr_file_id : Z; qr_volume_id : Z }.
Record AppInstanceVersion := mkAppVersion { av_high : Z; av_low : Z }.

Record SvhdxOpenDeviceContextV1 := mkSvhdxV1 {
  sv_version : Z;
  sv_has_initiator_id : bool;
  sv_initiator_id : Guid;
  sv_flags : Z;
  sv_originator_flags : Z;
  sv_open_request_id : Z;
  sv_initiator_host_name_length : Z;
  sv_initiator_host_name : list Z
}.

Record SvhdxOpenDeviceContextV2 := mkSvhdxV2 {
  sw_v1 : SvhdxOpenDeviceContextV1;
  sw_virtual_disk_properties_initialized : Z;
  sw_server_service_version : Z;
  sw_virtual_sector_size : Z;
  sw_physical_sector_size : Z;
  sw_virtual_size : Z
}.

Inductive SvhdxOpenDeviceContext := Svhdx_V1 (v : SvhdxOpenDeviceContextV1) | Svhdx_V2 (v : SvhdxOpenDeviceContextV2).

Definition write_dh2q (d : DurableHandleRequestV2) : bin unit :=
  _ ← put 4 (dq_timeout d); _ ← put 4 (dq_flags d); _ ← put 8 0; write_guid (dq_create_guid d).
Definition read_dh2q : bin DurableHandleRequestV2 :=
  timeout ← get 4; flags ← get 4; _ ← get 8; guid ← read_guid; mret (mkDh2q timeout flags guid).

Definition write_dh2c (d : DurableHandleReconnectV2) : bin unit :=
  _ ← write_file_id (dc_file_id d); _ ← write_guid (dc_create_guid d); put 4 (dc_flags d).
Definition read_dh2c : bin DurableHandleReconnectV2 :=
  file_id ← read_file_id; guid ← read_guid; flags ← get 4; mret (mkDh2c file_id guid flags).

Definition write_dh2q_resp (d : DH2QResp) : bin unit := _ ← put 4 (dr_timeout d); put 4 (dr_flags d).
Definition read_dh2q_resp : bin DH2QResp := timeout ← get 4; flags ← get 4; mret (mkDh2qResp timeout flags).

Definition write_mxac_resp (m : QueryMaximalAccessResponse) : bin unit :=
  _ ← put 4 (status_code (mr_query_status m)); put 4 (mr_maximal_access m).
Definition read_mxac_resp : bin QueryMaximalAccessResponse :=
  status ← get_enum 4 status_try_from; access ← get 4; mret (mkMxac status access).

Definition write_qfid_resp (q : QueryOnDiskIdResp) : bin unit :=
  _ ← put 8 (qr_file_id q); _ ← put 8 (qr_volume_id q); put 16 0.
Definition read_qfid_resp : bin QueryOnDiskIdResp :=
  file_id ← get 8; volume_id ← get 8; _ ← get 16; mret (mkQfid file_id volume_id).

Definition write_app_instance_id (g : Guid) : bin unit := _ ← put 2 20; _ ← put 2 0; write_guid g.
Definition read_app_instance_id : bin Guid := _ ← get_const 2 20; _ ← get 2; read_guid.

Definition write_app_instance_version (v : AppInstanceVersion) : bin unit :=
  _ ← put 2 24; _ ← put 2 0; _ ← put 2 0; _ ← put 4 0; _ ← put 8 (av_high v); put 8 (av_low v).
Definition read_app_instance_version : bin AppInstanceVersion :=
  _ ← get_const 2 24; _ ← get 2; _ ← get 2; _ ← get 4; high ← get 8; low ← get 8; mret (mkAppVersion high low).

Definition write_svhdx_v1 (v : SvhdxOpenDeviceContextV1) : bin unit :=
  _ ← put 4 (sv_version v);
  _ ← write_boolean (sv_has_initiator_id v);
  _ ← put 1 0;
  _ ← put 2 0;
  _ ← write_guid (sv_initiator_id v);
  _ ← put 4 (sv_flags v);
  _ ← put 4 (sv_originator_flags v);
  _ ← put 8 (sv_open_request_id v);
  _ ← put 2 (sv_initiator_host_name_length v);
  write_list (put 2) (sv_initiator_host_name v).

Definition read_svhdx_v1 : bin SvhdxOpenDeviceContextV1 :=
  version ← get 4;
  has_initiator_id ← read_boolean;
  _ ← get 1;
  _ ← get 2;
  initiator_id ← read_guid;
  flags ← get 4;
  originator_flags ← get 4;
  open_request_id ← get 8;
  length ← get 2;
  name ← read_count 63 (get 2);
  mret (mkSvhdxV1 version has_initiator_id initiator_id flags originator_flags open_request_id length name).

Definition write_svhdx_v2 (v : SvhdxOpenDeviceContextV2) : bin unit :=
  _ ← write_svhdx_v1 (sw_v1 v);
  _ ← put 4 (sw_virtual_disk_properties_initialized v);
  _ ← put 4 (sw_server_service_version v);
  _ ← put 4 (sw_virtual_sector_size v);
  _ ← put 4 (sw_physical_sector_size v);
  put 8 (sw_virtual_size v).

Definition read_svhdx_v2 : bin SvhdxOpenDeviceContextV2 :=
  v1 ← read_svhdx_v1;
  initialized ← get 4;
  version ← get 4;
  virtual_sector ← get 4;
  physical_sector ← get 4;
  size ← get 8;
  mret (mkSvhdxV2 v1 initialized version virtual_sector physical_sector size).

Definition write_svhdx (v : SvhdxOpenDeviceContext) : bin unit :=
  match v with Svhdx_V1 v => write_svhdx_v1 v | Svhdx_V2 v => write_svhdx_v2 v end.
Definition read_svhdx : bin SvhdxOpenDeviceContext :=
  read_variants [v ← read_svhdx_v1; mret (Svhdx_V1 v); v ← read_svhdx_v2; mret (Svhdx_V2 v)].

(** ** Names *)

Inductive CreateContextType :=
| CT_ExtA | CT_SecD | CT_DHnQ | CT_DHNc | CT_AlSi | CT_MxAc | CT_TWrp | CT_QFid | CT_RqLs
| CT_DH2Q | CT_DH2C | CT_AppInstId | CT_AppInstVer | CT_SvhdxOpenDev.

#[export] Instance CreateContextType_eq : EqDecision CreateContextType.
Proof. solve_decision. Defined.

Definition context_name (t : CreateContextType) : bytes :=
  match t with
  | CT_ExtA => [69; 120; 116; 65]
  | CT_SecD => [83; 101; 99; 68]
  | CT_DHnQ => [68; 72; 110; 81]
  | CT_DHNc => [68; 72; 78; 99]
  | CT_AlSi => [65; 108; 83; 105]
  | CT_MxAc => [77; 120; 65; 99]
  | CT_TWrp => [84; 87; 114; 112]
  | CT_QFid => [81; 70; 105; 100]
  | CT_RqLs => [82; 113; 76; 115]
  | CT_DH2Q => [68; 72; 50; 81]
  | CT_DH2C => [68; 72; 50; 67]
  | CT_AppInstId => [0x45; 0xBC; 0xA6; 0x6A; 0xEF; 0xA7; 0xF7; 0x4A; 0x90; 0x08; 0xFA; 0x46; 0x2E; 0x14; 0x4D; 0x74]
  | CT_AppInstVer => [0xB9; 0x82; 0xD0; 0xB7; 0x3B; 0x56; 0x07; 0x4F; 0xA0; 0x7B; 0x52; 0x4A; 0x81; 0x16; 0xA0; 0x10]
  | CT_SvhdxOpenDev => [0x9C; 0xCB; 0xCF; 0x9E; 0x04; 0xC1; 0xE6; 0x43; 0x98; 0x0E; 0x15; 0x8D; 0xA1; 0xF6; 0xEC; 0x83]
  end.

(** [CreateContextType::from_name] *)
Definition context_from_name (name : bytes) : option CreateContextType :=
  List.find (fun t => bool_decide (context_name t = name))
    [CT_ExtA; CT_SecD; CT_DHnQ; CT_DHNc; CT_AlSi; CT_MxAc; CT_TWrp; CT_QFid; CT_RqLs; CT_DH2Q; CT_DH2C; CT_AppInstId;
     CT_AppInstVer; CT_SvhdxOpenDev].

(** ** Payloads of requests *)

Inductive CreateContextRequestData :=
| CQ_ExtA (l : list FileFullEaInformation)
| CQ_SecD (d : SecurityDescriptor)
| CQ_DHnQ
| CQ_DHNc (durable_request : FileId)
| CQ_AlSi (allocation_size : Z)
| CQ_MxAc (timestamp : option Z)
| CQ_TWrp (timestamp : Z)
| CQ_QFid
| CQ_RqLs (l : RequestLease)
| CQ_DH2Q (d : DurableHandleRequestV2)
| CQ_DH2C (d : DurableHandleReconnectV2)
| CQ_AppInstId (g : Guid)
| CQ_AppInstVer (v : AppInstanceVersion)
| CQ_SvhdxOpenDev (v : SvhdxOpenDeviceContext).

Definition request_data_type (d : CreateContextRequestData) : CreateContextType :=
  match d with
  | CQ_ExtA _ => CT_ExtA | CQ_SecD _ => CT_SecD | CQ_DHnQ => CT_DHnQ | CQ_DHNc _ => CT_DHNc | CQ_AlSi _ => CT_AlSi
  | CQ_MxAc _ => CT_MxAc | CQ_TWrp _ => CT_TWrp | CQ_QFid => CT_QFid | CQ_RqLs _ => CT_RqLs | CQ_DH2Q _ => CT_DH2Q
  | CQ_DH2C _ => CT_DH2C | CQ_AppInstId _ => CT_AppInstId | CQ_AppInstVer _ => CT_AppInstVer
  | CQ_SvhdxOpenDev _ => CT_SvhdxOpenDev
  end.

Definition write_request_data (d : CreateContextRequestData) : bin unit :=
  match d with
  | CQ_ExtA l => write_chained 4 write_full_ea l
  | CQ_SecD d => write_security_descriptor d
  | CQ_DHnQ => put 16 0
  | CQ_DHNc f => write_file_id f
  | CQ_AlSi v => put 8 v
  | CQ_MxAc v => put_opt (put 8) v
  | CQ_TWrp v => put 8 v
  | CQ_QFid => mret tt
  | CQ_RqLs l => write_lease l
  | CQ_DH2Q d => write_dh2q d
  | CQ_DH2C d => write_dh2c d
  | CQ_AppInstId g => write_app_instance_id g
  | CQ_AppInstVer v => write_app_instance_version v
  | CQ_SvhdxOpenDev v => write_svhdx v
  end.

Definition read_request_data (name : bytes) : bin CreateContextRequestData :=
  match context_from_name name with
  | None => e_lift (Err Bin_NoVariant)
  | Some CT_ExtA => l ← read_chained 4 read_full_ea; mret (CQ_ExtA l)
  | Some CT_SecD => d ← read_security_descriptor; mret (CQ_SecD d)
  | Some CT_DHnQ => _ ← get 16; mret CQ_DHnQ
  | Some CT_DHNc => f ← read_file_id; mret (CQ_DHNc f)
  | Some CT_AlSi => v ← get 8; mret (CQ_AlSi v)
  | Some CT_MxAc => v ← binread_if_has_data (get 8); mret (CQ_MxAc v)
  | Some CT_TWrp => v ← get 8; mret (CQ_TWrp v)
  | Some CT_QFid => mret CQ_QFid
  | Some CT_RqLs => l ← read_lease; mret (CQ_RqLs l)
  | Some CT_DH2Q => d ← read_dh2q; mret (CQ_DH2Q d)
  | Some CT_DH2C => d ← read_dh2c; mret (CQ_DH2C d)
  | Some CT_AppInstId => g ← read_app_instance_id; mret (CQ_AppInstId g)
  | Some CT_AppInstVer => v ← read_app_instance_version; mret (CQ_AppInstVer v)
  | Some CT_SvhdxOpenDev => v ← read_svhdx; mret (CQ_SvhdxOpenDev v)
  end.

(** ** Payloads of responses *)

Inductive CreateContextResponseData :=
| CS_DHnQ
| CS_MxAc (m : QueryMaximalAccessResponse)
| CS_QFid (q : QueryOnDiskIdResp)
| CS_RqLs (l : RequestLease)
| CS_DH2Q (d : DH2QResp)
| CS_AppInstId (g : Guid)
| CS_AppInstVer (v : AppInstanceVersion)
| CS_SvhdxOpenDev (v : SvhdxOpenDeviceContext).

Definition response_data_type (d : CreateContextResponseData) : CreateContextType :=
  match d with
  | CS_DHnQ => CT_DHnQ | CS_MxAc _ => CT_MxAc | CS_QFid _ => CT_QFid | CS_RqLs _ => CT_RqLs | CS_DH2Q _ => CT_DH2Q
  | CS_AppInstId _ => CT_AppInstId | CS_AppInstVer _ => CT_AppInstVer | CS_SvhdxOpenDev _ => CT_SvhdxOpenDev
  end.

Definition write_response_data (d : CreateContextResponseData) : bin unit :=
  match d with
  | CS_DHnQ => put 8 0
  | CS_MxAc m => write_mxac_resp m
  | CS_QFid q => write_qfid_resp q
  | CS_RqLs l => write_lease l
  | CS_DH2Q d => write_dh2q_resp d
  | CS_AppInstId g => write_app_instance_id g
  | CS_AppInstVer v => write_app_instance_version v
  | CS_SvhdxOpenDev v => write_svhdx v
  end.

Definition read_response_data (name : bytes) : bin CreateContextResponseData :=
  match context_from_name name with
  | Some CT_DHnQ => _ ← get 8; mret CS_DHnQ
  | Some CT_MxAc => m ← read_mxac_resp; mret (CS_MxAc m)
  | Some CT_QFid => q ← read_qfid_resp; mret (CS_QFid q)
  | Some CT_RqLs => l ← read_lease; mret (CS_RqLs l)
  | Some CT_DH2Q => d ← read_dh2q_resp; mret (CS_DH2Q d)
  | Some CT_AppInstId => g ← read_app_instance_id; mret (CS_AppInstId g)
  | Some CT_AppInstVer => v ← read_app_instance_version; mret (CS_AppInstVer v)
  | Some CT_SvhdxOpenDev => v ← read_svhdx; mret (CS_SvhdxOpenDev v)
  | _ => e_lift (Err Bin_NoVariant)
  end.

(** ** Contexts

    The same structure for requests and responses, over the payloads of each. *)

Record CreateContext (D : Type) := mkContext { cx_name : bytes; cx_data : D }.
Arguments mkContext {D} cx_name cx_data.
Arguments cx_name {D} _.
Arguments cx_data {D} _.

Section context.
Context {D : Type} (write_data : D -> bin unit) (read_data : bytes -> bin D).

(** [u16::try_from(name.len()).unwrap()] *)
Definition write_context (c : CreateContext D) : bin unit :=
  name_offset ← put_marker 2;
  _ ← (if bool_decide (zlen (cx_name c) <= u16_max) then put 2 (zlen (cx_name c)) else e_panic);
  _ ← put 2 0;
  data_offset ← put_marker 2;
  data_length ← put_marker 4;
  _ ← write_align 8;
  _ ← write_roff_plus (write_all (cx_name c)) name_offset chained_item_prefix_size;
  _ ← write_align 8;
  write_roff_size_b_plus (write_data (cx_data c)) data_offset data_length name_offset chained_item_prefix_size.

(** [x as u64 - CHAINED_ITEM_PREFIX_SIZE as u64] *)
Definition minus_prefix (x : Z) : bin Z :=
  if x <? chained_item_prefix_size then e_panic else mret (x - chained_item_prefix_size).

(** The seek to the data is computed even when there is no data. *)
Definition read_context : bin (CreateContext D) :=
  name_offset ← get_marker 2;
  name_length ← get 2;
  _ ← get 2;
  data_offset ← get_marker 2;
  data_length ← get_marker 4;
  to_name ← minus_prefix name_offset.2;
  _ ← seek_from name_offset.1 to_name;
  _ ← read_align 8;
  name ← read_exact (Z.to_nat name_length);
  to_data ← minus_prefix data_offset.2;
  _ ← (if 0 <? data_length.2 then seek_from name_offset.1 to_data else mret tt);
  data ← take_seek (Z.to_nat data_length.2) (read_data name);
  _ ← bin_assert (bool_decide (data_offset.2 mod 8 = 0));
  mret (mkContext name data).

(** [ChainedItemList<CreateContext.., 8>] *)
Definition write_contexts : list (CreateContext D) -> bin unit := write_chained 8 write_context.
Definition read_contexts : bin (list (CreateContext D)) := read_chained 8 read_context.
End context.

(** The layouts of create contexts: every payload and every context is read back from what it is
    written as, except the versions that share a prefix. *)

(** ** Small structures *)

Definition file_id_ok (f : FileId) : Prop := in_range u64_max (fi_persistent f) /\ in_range u64_max (fi_volatile f).

Lemma file_id_law n f : file_id_ok f -> exists x, writes n (write_file_id f) x /\ reads n read_file_id x f /\ zlen x = 16.
Proof.
  intros [H1 H2]. destruct f as [p v]. cbn in H1, H2. exists (concat [le_bytes 8 p; le_bytes 8 v]). split_and!.
  - unfold write_file_id. emit.
  - unfold read_file_id. do 2 take_step. apply reads_ret.
  - len.
Qed.

Definition dh2q_ok (d : DurableHandleRequestV2) : Prop :=
  in_range u32_max (dq_timeout d) /\ in_range u32_max (dq_flags d) /\ guid_ok (dq_create_guid d).

Lemma dh2q_law n d : dh2q_ok d -> exists x, writes n (write_dh2q d) x /\ reads n read_dh2q x d /\ zlen x = 32.
Proof.
  intros (H1 & H2 & H3). destruct d as [t f g]. cbn in H1, H2, H3. destruct (guid_law (n + 16) g H3) as (y & Hw & Hr & Hl).
  exists (concat [le_bytes 4 t; le_bytes 4 f; le_bytes 8 0; y]). split_and!.
  - unfold write_dh2q. emit.
  - unfold read_dh2q. do 4 take_step. apply reads_ret.
  - len.
Qed.

Definition dh2c_ok (d : DurableHandleReconnectV2) : Prop :=
  file_id_ok (dc_file_id d) /\ guid_ok (dc_create_guid d) /\ in_range u32_max (dc_flags d).

Lemma dh2c_law n d : dh2c_ok d -> exists x, writes n (write_dh2c d) x /\ reads n read_dh2c x d /\ zlen x = 36.
Proof.
  intros (H1 & H2 & H3). destruct d as [f g v]. cbn in H1, H2, H3.
  destruct (file_id_law n f H1) as (y & Hw & Hr & Hl). destruct (guid_law (n + length y) g H2) as (z & Hw' & Hr' & Hl').
  exists (concat [y; z; le_bytes 4 v]). split_and!.
  - unfold write_dh2c. emit.
  - unfold read_dh2c. do 3 take_step. apply reads_ret.
  - len.
Qed.

Lemma dh2q_resp_law n d :
  in_range u32_max (dr_timeout d) /\ in_range u32_max (dr_flags d) ->
  exists x, writes n (write_dh2q_resp d) x /\ reads n read_dh2q_resp x d /\ zlen x = 8.
Proof.
  intros [H1 H2]. destruct d as [t f]. cbn in H1, H2. exists (concat [le_bytes 4 t; le_bytes 4 f]). split_and!.
  - unfold write_dh2q_resp. emit.
  - unfold read_dh2q_resp. do 2 take_step. apply reads_ret.
  - len.
Qed.

Lemma mxac_resp_law n m :
  in_range u32_max (mr_maximal_access m) ->
  exists x, writes n (write_mxac_resp m) x /\ reads n read_mxac_resp x m /\ zlen x = 8.
Proof.
  intros H. destruct m as [s a]. cbn in H. exists (concat [le_bytes 4 (status_code s); le_bytes 4 a]). split_and!.
  - unfold write_mxac_resp. emit.
  - unfold read_mxac_resp. eapply reads_segs; [apply (reads_enum _ _ _ _ s)|].
    + pose proof (status_code_range s). cbn. ints.
    + by apply status_codes_exact.
    + cbv beta. take_step. apply reads_ret.
  - len.
Qed.

Lemma qfid_resp_law n q :
  in_range u64_max (qr_file_id q) /\ in_range u64_max (qr_volume_id q) ->
  exists x, writes n (write_qfid_resp q) x /\ reads n read_qfid_resp x q /\ zlen x = 32.
Proof.
  intros [H1 H2]. destruct q as [f v]. cbn in H1, H2. exists (concat [le_bytes 8 f; le_bytes 8 v; le_bytes 16 0]). split_and!.
  - unfold write_qfid_resp. emit.
  - unfold read_qfid_resp. do 3 take_step. apply reads_ret.
  - len.
Qed.

Lemma app_instance_id_law n g :
  guid_ok g -> exists x, writes n (write_app_instance_id g) x /\ reads n read_app_instance_id x g /\ zlen x = 20.
Proof.
  intros H. destruct (guid_law (n + 4) g H) as (y & Hw & Hr & Hl).
  exists (concat [le_bytes 2 20; le_bytes 2 0; y]). split_and!.
  - unfold write_app_instance_id. emit.
  - unfold read_app_instance_id. do 2 take_step. cbn [concat]. rewrite app_nil_r. eapply reads_at; [|exact Hr]. len.
  - len.
Qed.

Lemma app_instance_version_law n v :
  in_range u64_max (av_high v) /\ in_range u64_max (av_low v) ->
  exists x, writes n (write_app_instance_version v) x /\ reads n read_app_instance_version x v /\ zlen x = 26.
Proof.
  intros [H1 H2]. destruct v as [h l]. cbn in H1, H2.
  exists (concat [le_bytes 2 24; le_bytes 2 0; le_bytes 2 0; le_bytes 4 0; le_bytes 8 h; le_bytes 8 l]). split_and!.
  - unfold write_app_instance_version. emit.
  - unfold read_app_instance_version. do 6 take_step. apply reads_ret.
  - len.
Qed.

(** ** Leases *)

Definition lease_v1_ok (l : RequestLeaseV1) : Prop := 0 <= l1_lease_key l < 2 ^ 128 /\ in_range u32_max (l1_lease_state l).

Lemma lease_v1_law n l :
  lease_v1_ok l -> exists x, writes n (write_lease_v1 l) x /\ reads n read_lease_v1 x l /\ zlen x = 32.
Proof.
  intros [H1 H2]. destruct l as [k s]. cbn in H1, H2.
  exists (concat [le_bytes 16 k; le_bytes 4 s; le_bytes 4 0; le_bytes 8 0]). split_and!.
  - unfold write_lease_v1. emit.
  - unfold read_lease_v1. do 4 take_step. apply reads_ret.
  - len.
Qed.

Record lease_v2_ok (l : RequestLeaseV2) : Prop := {
  l2k_key : 0 <= l2_lease_key l < 2 ^ 128;
  l2k_state : in_range u32_max (l2_lease_state l);
  l2k_flags : in_range u32_max (l2_lease_flags l);
  l2k_parent : 0 <= l2_parent_lease_key l < 2 ^ 128;
  l2k_epoch : in_range u16_max (l2_epoch l)
}.

Definition lease_v2_bytes (l : RequestLeaseV2) : bytes :=
  concat [le_bytes 16 (l2_lease_key l); le_bytes 4 (l2_lease_state l); le_bytes 4 (l2_lease_flags l); le_bytes 8 0;
    le_bytes 16 (l2_parent_lease_key l); le_bytes 2 (l2_epoch l); le_bytes 2 0].

Lemma lease_v2_law n l :
  lease_v2_ok l -> writes n (write_lease_v2 l) (lease_v2_bytes l) /\ reads n read_lease_v2 (lease_v2_bytes l) l.
Proof.
  intros [H1 H2 H3 H4 H5]. destruct l as [k s f p e]. cbn in H1, H2, H3, H4, H5. unfold lease_v2_bytes.
  cbn [l2_lease_key l2_lease_state l2_lease_flags l2_parent_lease_key l2_epoch]. split.
  - unfold write_lease_v2. emit.
  - unfold read_lease_v2. do 7 take_step. apply reads_ret.
Qed.

(** The first version refuses flags that are not zero. *)
Lemma lease_v1_refuses n l : lease_v2_ok l -> l2_lease_flags l <> 0 -> refuses n read_lease_v1 (lease_v2_bytes l).
Proof.
  intros [H1 H2 H3 H4 H5] Hf. unfold lease_v2_bytes, read_lease_v1.
  do 2 (eapply refuses_segs; [reads_value|]). cbn [concat]. apply refuses_app, refuses_bind, refuses_const; [cbn; ints|done].
Qed.

(** A lease is read back unless it is of the second version with no flags set. *)
Definition lease_ok (l : RequestLease) : Prop :=
  match l with RqLsReqv1 l => lease_v1_ok l | RqLsReqv2 l => lease_v2_ok l /\ l2_lease_flags l <> 0 end.

Lemma lease_law n l : lease_ok l -> exists x, writes n (write_lease l) x /\ reads n read_lease x l /\ 0 < zlen x <= 52.
Proof.
  intros H. destruct l as [l|l]; cbn [lease_ok write_lease] in *.
  - destruct (lease_v1_law n l H) as (x & Hw & Hr & Hl). exists x. split_and!; [done| |lia|lia].
    unfold read_lease. apply reads_variants_head. by apply (reads_map _ read_lease_v1 RqLsReqv1).
  - destruct H as [H Hf]. destruct (lease_v2_law n l H) as [Hw Hr]. exists (lease_v2_bytes l). split_and!; [done| | |].
    + unfold read_lease. apply reads_variants_next; [by apply refuses_bind, lease_v1_refuses|].
      by apply reads_variants_head, (reads_map n read_lease_v2 RqLsReqv2).
    + unfold lease_v2_bytes. len.
    + unfold lease_v2_bytes. len.
Qed.

(** ** Shared virtual disks *)

Record svhdx_v1_ok (v : SvhdxOpenDeviceContextV1) : Prop := {
  svk_version : in_range u32_max (sv_version v);
  svk_id : guid_ok (sv_initiator_id v);
  svk_flags : in_range u32_max (sv_flags v);
  svk_originator : in_range u32_max (sv_originator_flags v);
  svk_request : in_range u64_max (sv_open_request_id v);
  svk_length : in_range u16_max (sv_initiator_host_name_length v);
  svk_name : length (sv_initiator_host_name v) = 63%nat;
  svk_chars : Forall (in_range u16_max) (sv_initiator_host_name v)
}.

Lemma svhdx_v1_law n v :
  svhdx_v1_ok v -> exists x, writes n (write_svhdx_v1 v) x /\ reads n read_svhdx_v1 x v /\ zlen x = 168.
Proof.
  intros [H1 H2 H3 H4 H5 H6 H7 H8]. destruct v as [ver has id fl orig req ln name].
  cbn [sv_version sv_initiator_id sv_flags sv_originator_flags sv_open_request_id sv_initiator_host_name_length
    sv_initiator_host_name] in *.
  destruct (guid_law (n + 8) id H2) as (y & Hw & Hr & Hl).
  destruct (ints_law (n + 42) 2 name) as (Hw' & Hr' & Hl').
  { eapply Forall_impl; [exact H8|]. intros c Hc. cbn. ints. }
  set (z := concat (le_bytes 2 <$> name)) in *. clearbody z. rewrite H7 in Hr'.
  exists (concat [le_bytes 4 ver; le_bytes 1 (if has then 1 else 0); le_bytes 1 0; le_bytes 2 0; y; le_bytes 4 fl;
    le_bytes 4 orig; le_bytes 8 req; le_bytes 2 ln; z]). split_and!.
  - unfold write_svhdx_v1, write_boolean. emit.
  - unfold read_svhdx_v1. do 10 take_step. apply reads_ret.
  - unfold zlen in *. rewrite H7 in Hl'. len.
Qed.

Definition svhdx_ok (v : SvhdxOpenDeviceContext) : Prop := match v with Svhdx_V1 v => svhdx_v1_ok v | Svhdx_V2 _ => False end.

Lemma svhdx_law n v : svhdx_ok v -> exists x, writes n (write_svhdx v) x /\ reads n read_svhdx x v /\ zlen x = 168.
Proof.
  intros H. destruct v as [v|v]; [|done]. destruct (svhdx_v1_law n v H) as (x & Hw & Hr & Hl). exists x. split_and!; [done| |done].
  unfold read_svhdx. apply reads_variants_head. by apply (reads_map _ read_svhdx_v1 Svhdx_V1).
Qed.

(** ** Extended attributes *)

Record ea_ok (e : FileFullEaInformationInner) : Prop := {
  eak_flags : in_range u8_max (ea_flags e);
  eak_name : zlen (ea_name e) <= u8_max;
  eak_chars : Forall (fun b => 1 <= b <= 255) (ea_name e);
  eak_value : zlen (ea_value e) <= u16_max
}.

Definition ea_size (e : FileFullEaInformationInner) : Z := 5 + zlen (ea_name e) + zlen (ea_value e).

Lemma ea_law n e : ea_ok e -> exists x, writes n (write_ea e) x /\ reads n read_ea x e /\ zlen x <= ea_size e.
Proof.
  intros [H1 H2 H3 H4]. destruct e as [f nm v]. unfold ea_size. cbn [ea_flags ea_name ea_value] in *.
  assert (Hm : zlen v mod 65536 = zlen v) by (apply Z.mod_small; unfold zlen in *; ints).
  pose proof (writes_count (n + 1) 1 nm ltac:(unfold zlen in *; cbn; ints)) as Hc.
  destruct (null_law (n + 4) 1 nm) as (y & Hs & Hr & Hy); [done|eapply Forall_impl; [exact H3|]; cbn; lia|].
  exists (concat [le_bytes 1 f; le_bytes 1 (zlen nm); le_bytes 2 (zlen v); y; v]). split_and!.
  - unfold write_ea. cbn [ea_flags ea_name ea_value]. rewrite Hm. emit.
  - unfold read_ea. do 4 take_step. eapply reads_skip; [apply reads_assert; by rewrite bool_decide_eq_true_2|].
    rewrite zlen_nat. eapply reads_segs; [apply reads_exact|]. apply reads_ret.
  - len.
Qed.

(** A list of attributes as an entry of the outer list. *)
Definition full_ea_ok (l : FileFullEaInformation) : Prop :=
  l <> [] /\ Forall (fun e => ea_ok e /\ 4 + ea_size e + Z.of_nat 4 < 2 ^ 32) l.

Lemma ea_small e : ea_ok e -> 4 + ea_size e + Z.of_nat 4 < 2 ^ 32.
Proof. intros [_ H1 _ H2]. unfold ea_size. ints. Qed.

Lemma full_ea_law n l :
  (n `mod` 4 = 0)%nat -> full_ea_ok l ->
  exists x, writes (n + 4) (write_full_ea l) x /\ reads_any (n + 4) read_full_ea x l /\ zlen x <= chained_size 4 ea_size l.
Proof.
  intros Hn [Hne Hl].
  destruct (chained_nonempty_law 4 write_ea read_ea ea_ok ea_size) with (n := (n + 4)%nat) (l := l) as (x & H1 & H2 & H3 & _);
    [done| |done|done| |by exists x].
  - intros m a _ Ha. destruct (ea_law (m + 4) a Ha) as (x & H1 & H2%reads_reads_any & H3). by exists x.
  - rewrite <- (Nat.mul_1_l 4) at 1. by rewrite Nat.Div0.mod_add.
Qed.

(** ** Payloads *)

Lemma context_from_name_exact t : context_from_name (context_name t) = Some t.
Proof. by destruct t. Qed.

Definition request_data_ok (d : CreateContextRequestData) : Prop :=
  match d with
  | CQ_ExtA l => Forall (fun e => full_ea_ok e /\ 4 + chained_size 4 ea_size e + Z.of_nat 4 < 2 ^ 32) l
  | CQ_SecD d => sd_ok d
  | CQ_DHnQ | CQ_QFid => True
  | CQ_DHNc f => file_id_ok f
  | CQ_AlSi v | CQ_TWrp v => in_range u64_max v
  | CQ_MxAc v => from_option (in_range u64_max) True v
  | CQ_RqLs l => lease_ok l
  | CQ_DH2Q d => dh2q_ok d
  | CQ_DH2C d => dh2c_ok d
  | CQ_AppInstId g => guid_ok g
  | CQ_AppInstVer v => in_range u64_max (av_high v) /\ in_range u64_max (av_low v)
  | CQ_SvhdxOpenDev v => svhdx_ok v
  end.

(** What fits its fields: with leases and shared virtual disks of both versions. *)
Definition lease_fits (l : RequestLease) : Prop := match l with RqLsReqv1 l => lease_v1_ok l | RqLsReqv2 l => lease_v2_ok l end.
Definition svhdx_fits (v : SvhdxOpenDeviceContext) : Prop :=
  match v with
  | Svhdx_V1 v => svhdx_v1_ok v
  | Svhdx_V2 v =>
      svhdx_v1_ok (sw_v1 v) /\ in_range u32_max (sw_virtual_disk_properties_initialized v) /\
      in_range u32_max (sw_server_service_version v) /\ in_range u32_max (sw_virtual_sector_size v) /\
      in_range u32_max (sw_physical_sector_size v) /\ in_range u64_max (sw_virtual_size v)
  end.

(** A lease of the second version without flags is read as one of the first, and so is every disk of the second. *)
Definition misread_lease (l : RequestLease) : bool :=
  match l with RqLsReqv1 _ => false | RqLsReqv2 l => bool_decide (l2_lease_flags l = 0) end.
Definition misread_svhdx (v : SvhdxOpenDeviceContext) : bool := match v with Svhdx_V1 _ => false | Svhdx_V2 _ => true end.

Lemma lease_fits_ok l : lease_fits l -> misread_lease l = false -> lease_ok l.
Proof. destruct l; [done|]. intros H1 H2%bool_decide_eq_false. done. Qed.

Lemma svhdx_fits_ok v : svhdx_fits v -> misread_svhdx v = false -> svhdx_ok v.
Proof. by destruct v. Qed.

Definition request_data_fits (d : CreateContextRequestData) : Prop :=
  match d with CQ_RqLs l => lease_fits l | CQ_SvhdxOpenDev v => svhdx_fits v | _ => request_data_ok d end.
Definition misread_request_data (d : CreateContextRequestData) : bool :=
  match d with CQ_RqLs l => misread_lease l | CQ_SvhdxOpenDev v => misread_svhdx v | _ => false end.

Lemma request_data_fits_ok d : request_data_fits d -> misread_request_data d = false -> request_data_ok d.
Proof. destruct d; try done; [apply lease_fits_ok|apply svhdx_fits_ok]. Qed.

Definition request_data_size (d : CreateContextRequestData) : Z :=
  match d with
  | CQ_ExtA l => chained_size 4 (chained_size 4 ea_size) l
  | CQ_SecD d => sd_size d
  | CQ_DHnQ | CQ_DHNc _ => 16
  | CQ_AlSi _ | CQ_TWrp _ | CQ_MxAc _ => 8
  | CQ_QFid => 0
  | CQ_RqLs _ => 52
  | CQ_DH2Q _ => 32
  | CQ_DH2C _ => 36
  | CQ_AppInstId _ => 20
  | CQ_AppInstVer _ => 26
  | CQ_SvhdxOpenDev (Svhdx_V1 _) => 168
  | CQ_SvhdxOpenDev (Svhdx_V2 _) => 192
  end.

Lemma reads_has_data_none n : reads_to n (binread_if_has_data (get 8)) [] None.
Proof.
  intros pre Hn. unfold binread_if_has_data. cbn [st_data st_pos]. rewrite app_nil_r, Hn, Nat.ltb_irrefl. cbn.
  by rewrite Nat.add_0_r.
Qed.

Lemma reads_has_data_some n v : in_range u64_max v -> reads_to n (binread_if_has_data (get 8)) (le_bytes 8 v) (Some v).
Proof.
  intros Hv pre Hn. unfold binread_if_has_data. cbn [st_data st_pos]. rewrite length_app, length_le_bytes, Hn.
  destruct (Nat.ltb_spec (n + 8) n) as [|_]; [lia|]. destruct (Nat.ltb_spec n (n + 8)) as [_|]; [|lia].
  assert (Hr : reads n (get_if true (get 8)) (le_bytes 8 v) (Some v)).
  { apply reads_get_if. split; [done|]. apply reads_get. cbn. ints. }
  apply reads_reads_to in Hr. rewrite (Hr pre Hn). by rewrite length_le_bytes.
Qed.

(** What holds of a payload: it is read from a stream that ends behind it, and from anywhere when it
    has no bytes. *)
Definition payload_law {D} (n : nat) (w : bin unit) (r : bin D) (d : D) (size : Z) : Prop :=
  exists x, writes n w x /\ reads_to_any n r x d /\ zlen x <= size /\ (x = [] -> forall m, reads_to_any m r [] d).

(** A payload of a fixed layout, under the constructor of its context. *)
Lemma data_law {A D} n (r : bin A) (c : A -> D) (w : bin unit) (a : A) (size : Z) :
  (exists x, writes n w x /\ reads n r x a /\ 0 < zlen x <= size) -> payload_law n w (v ← r; mret (c v)) (c a) size.
Proof.
  intros (x & H1 & H2 & H3). exists x. split_and!; [done|by apply reads_to_any_map, reads_any_to_any, reads_reads_any|lia|].
  intros ->. unfold zlen in H3. cbn in H3. lia.
Qed.

Lemma law_le {A} n (w : bin unit) (r : bin A) a size :
  0 < size -> (exists x, writes n w x /\ reads n r x a /\ zlen x = size) -> exists x, writes n w x /\ reads n r x a /\ 0 < zlen x <= size.
Proof. intros Hs (x & H1 & H2 & H3). exists x. split_and!; [done..|lia|lia]. Qed.

Lemma int_law n w v : 0 <= v < 256 ^ Z.of_nat w -> exists x, writes n (put w v) x /\ reads n (get w) x v /\ zlen x = Z.of_nat w.
Proof. intros H. exists (le_bytes w v). split_and!; [apply writes_put|by apply reads_get|len]. Qed.

Lemma request_data_law n d :
  (n `mod` 8 = 0)%nat -> request_data_ok d ->
  payload_law n (write_request_data d) (read_request_data (context_name (request_data_type d))) d (request_data_size d).
Proof.
  intros Hn H. unfold read_request_data. rewrite context_from_name_exact.
  destruct d as [l|d| |f|v|v|v| |l|d|d|g|v|v]; cbn [request_data_type write_request_data request_data_ok request_data_size] in *.
  - destruct (chained_law 4 write_full_ea read_full_ea full_ea_ok (chained_size 4 ea_size)) with (n := n) (l := l) as (x & H1 & H2 & H3 & H4);
      [done|apply full_ea_law|done| |].
    { apply Nat.Lcm0.mod_divide in Hn as [q ->]. replace (q * 8)%nat with (q * 2 * 4)%nat by lia. apply Nat.Div0.mod_mul. }
    exists x. split_and!; [done|by apply reads_to_any_map|done|]. intros Hx m. apply reads_to_any_map. by apply H4.
  - apply data_law. destruct (sd_law n d H) as (x & H1 & H2 & H3). exists x. split_and!; [done..|lia|lia].
  - apply (data_law n (get 16) (fun _ => CQ_DHnQ) _ 0), law_le, int_law; done.
  - apply data_law, law_le; [done|]. apply file_id_law, H.
  - apply data_law, law_le; [done|]. apply int_law. cbn. ints.
  - destruct v as [v|]; cbn [put_opt from_option] in *.
    + exists (le_bytes 8 v). split_and!; [apply writes_put|by apply reads_to_any_map, reads_to_reads_any, reads_has_data_some|len|done].
    + exists []. split_and!; [apply writes_ret|apply reads_to_any_map, reads_to_reads_any, reads_has_data_none|done|].
      intros _ m. apply reads_to_any_map, reads_to_reads_any, reads_has_data_none.
  - apply data_law, law_le; [done|]. apply int_law. cbn. ints.
  - exists []. split_and!; [apply writes_ret|apply reads_any_to_any, reads_reads_any, reads_ret|done|].
    intros _ m. apply reads_any_to_any, reads_reads_any, reads_ret.
  - by apply data_law, lease_law.
  - apply data_law, law_le; [done|]. apply dh2q_law, H.
  - apply data_law, law_le; [done|]. apply dh2c_law, H.
  - apply data_law, law_le; [done|]. apply app_instance_id_law, H.
  - apply data_law, law_le; [done|]. apply app_instance_version_law, H.
  - destruct v as [v|v]; [|done]. apply data_law, law_le; [done|]. apply (svhdx_law n (Svhdx_V1 v)), H.
Qed.

Definition response_data_ok (d : CreateContextResponseData) : Prop :=
  match d with
  | CS_DHnQ => True
  | CS_MxAc m => in_range u32_max (mr_maximal_access m)
  | CS_QFid q => in_range u64_max (qr_file_id q) /\ in_range u64_max (qr_volume_id q)
  | CS_RqLs l => lease_ok l
  | CS_DH2Q d => in_range u32_max (dr_timeout d) /\ in_range u32_max (dr_flags d)
  | CS_AppInstId g => guid_ok g
  | CS_AppInstVer v => in_range u64_max (av_high v) /\ in_range u64_max (av_low v)
  | CS_SvhdxOpenDev v => svhdx_ok v
  end.

Definition response_data_fits (d : CreateContextResponseData) : Prop :=
  match d with CS_RqLs l => lease_fits l | CS_SvhdxOpenDev v => svhdx_fits v | _ => response_data_ok d end.
Definition misread_response_data (d : CreateContextResponseData) : bool :=
  match d with CS_RqLs l => misread_lease l | CS_SvhdxOpenDev v => misread_svhdx v | _ => false end.

Lemma response_data_fits_ok d : response_data_fits d -> misread_response_data d = false -> response_data_ok d.
Proof. destruct d; try done; [apply lease_fits_ok|apply svhdx_fits_ok]. Qed.

Lemma law_more {A} n (w : bin unit) (r : bin A) a size size' :
  size <= size' -> (exists x, writes n w x /\ reads n r x a /\ 0 < zlen x <= size) ->
  exists x, writes n w x /\ reads n r x a /\ 0 < zlen x <= size'.
Proof. intros Hle (x & H1 & H2 & H3). exists x. split_and!; [done..|lia|lia]. Qed.

(** The largest payload of a response is that of a shared virtual disk. *)
Lemma response_data_law n d :
  response_data_ok d ->
  payload_law n (write_response_data d) (read_response_data (context_name (response_data_type d))) d 168.
Proof.
  intros H. unfold read_response_data. rewrite context_from_name_exact.
  destruct d as [|m|q|l|d|g|v|v]; cbn [response_data_type write_response_data response_data_ok] in *.
  - apply (data_law n (get 8) (fun _ => CS_DHnQ) _ 0), (law_more _ _ _ _ 8), law_le, int_law; done.
  - apply data_law, (law_more _ _ _ _ 8), law_le, mxac_resp_law; done.
  - apply data_law, (law_more _ _ _ _ 32), law_le, qfid_resp_law; done.
  - apply data_law, (law_more _ _ _ _ 52), lease_law; done.
  - apply data_law, (law_more _ _ _ _ 8), law_le, dh2q_resp_law; done.
  - apply data_law, (law_more _ _ _ _ 20), law_le, app_instance_id_law; done.
  - apply data_law, (law_more _ _ _ _ 26), law_le, app_instance_version_law; done.
  - apply data_law, law_le, svhdx_law; done.
Qed.

(** ** Contexts *)

Lemma padding_zero m pos : (pos `mod` m = 0)%nat -> padding m pos = O.
Proof. intros H. unfold padding. rewrite H, Nat.sub_0_r. apply Nat.Div0.mod_same. Qed.

Section context.
Context {D : Type} (write_data : D -> bin unit) (read_data : bytes -> bin D).
Context (data_type : D -> CreateContextType) (data_ok : D -> Prop) (data_size : D -> Z).
Context (Hdata : forall n d, (n `mod` 8 = 0)%nat -> data_ok d ->
  payload_law n (write_data d) (read_data (context_name (data_type d))) d (data_size d)).

(** The name is the one of the payload, as the conversions make it. *)
Record context_ok (c : CreateContext D) : Prop := {
  cxk_name : cx_name c = context_name (data_type (cx_data c));
  cxk_data : data_ok (cx_data c);
  cxk_size : data_size (cx_data c) < 2 ^ 31
}.

Definition context_size (c : CreateContext D) : Z := 35 + data_size (cx_data c).

Lemma reads_minus_prefix n x : chained_item_prefix_size <= x -> reads n (minus_prefix x) [] (x - chained_item_prefix_size).
Proof. intros H. unfold minus_prefix. destruct (Z.ltb_spec x chained_item_prefix_size); [lia|apply reads_ret]. Qed.

Lemma context_law n c :
  (n `mod` 8 = 0)%nat -> context_ok c ->
  exists x, writes (n + 4) (write_context write_data c) x /\ reads_any (n + 4) (read_context read_data) x c /\
    zlen x <= context_size c.
Proof using Hdata.
  intros Hn [H1 H2 H3]. destruct c as [name d]. unfold context_size. cbn [cx_name cx_data] in *.
  assert (Hlen : zlen name <= 16) by (rewrite H1; by destruct (data_type d)).
  destruct (padding_aligned 8 (n + 16 + length name) ltac:(done)) as [q Hq].
  pose proof (padding_lt 8 (n + 16 + length name) ltac:(done)) as Hpad.
  remember (padding 8 (n + 16 + length name)) as pad eqn:Epad. symmetry in Epad.
  destruct (Hdata (n + 16 + length name + pad) d) as (y & Hw & Hr & Hy & He); [rewrite Hq; apply Nat.Div0.mod_mul|done|].
  rewrite <- H1 in Hr, He.
  assert (H16 : padding 8 (n + 16) = O).
  { apply padding_zero. replace (n + 16)%nat with (n + 2 * 8)%nat by lia. by rewrite Nat.Div0.mod_add. }
  assert (Hd8 : (16 + zlen name + Z.of_nat pad) mod 8 = 0).
  { apply Nat.Lcm0.mod_divide in Hn as [r ->].
    unfold zlen. replace (16 + Z.of_nat (length name) + Z.of_nat pad) with ((Z.of_nat q - Z.of_nat r) * 8) by lia. apply Z_mod_mult. }
  pose proof (writes_align (n + 16) 8) as Ha1. rewrite H16 in Ha1.
  pose proof (writes_align (n + 16 + length name) 8) as Ha2. rewrite Epad in Ha2.
  assert (Hc : writes (n + 6) (if bool_decide (zlen name <= u16_max) then put 2 (zlen name) else e_panic) (le_bytes 2 (zlen name))).
  { rewrite bool_decide_eq_true_2 by ints. apply writes_put. }
  pose proof (writes_all (n + 16) name) as Hnm.
  exists (concat [le_bytes 2 16; le_bytes 2 (zlen name); le_bytes 2 0; le_bytes 2 (16 + zlen name + Z.of_nat pad); le_bytes 4 (zlen y);
    replicate 0 0; name; replicate pad 0; y]). split_and!.
  - unfold write_context, chained_item_prefix_size. cbn [cx_name cx_data]. emit.
  - unfold read_context. do 5 take_step. cbn [fst snd].
    eapply reads_any_skip; [apply reads_minus_prefix; unfold chained_item_prefix_size; lia|].
    eapply reads_any_skip; [apply reads_seek; unfold chained_item_prefix_size; cbn [pm_pos]; len|].
    pose proof (reads_align (n + 16) 8) as Hal. rewrite H16 in Hal.
    eapply reads_any_segs; [eapply reads_at; [|exact Hal]; len|].
    eapply reads_any_segs; [apply reads_exact'; apply zlen_nat|].
    eapply reads_any_skip; [apply reads_minus_prefix; unfold chained_item_prefix_size; len|].
    destruct (Z.ltb_spec 0 (zlen y)) as [Hy0|Hy0].
    + eapply reads_any_segs; [apply reads_seek_over; unfold chained_item_prefix_size; cbn [pm_pos]; len|].
      cbn [concat]. rewrite app_nil_r. eapply reads_any_then.
      * apply reads_take_seek_any; [|by rewrite zlen_nat]. eapply reads_to_any_at; [|exact Hr]. len.
      * intros s. eapply run_bind; [apply run_assert; by rewrite bool_decide_eq_true_2|]. done.
    + assert (y = []) as -> by (destruct y; [done|unfold zlen in Hy0; cbn in Hy0; lia]).
      eapply reads_any_skip; [apply reads_ret|]. apply reads_any_ignore. eapply reads_any_then.
      * apply reads_take_seek_any; [by apply He|done].
      * intros s. eapply run_bind; [apply run_assert; by rewrite bool_decide_eq_true_2|]. done.
  - len.
Qed.
End context.

(** ** Lists of contexts *)

Section contexts.
Context {D : Type} (write_data : D -> bin unit) (read_data : bytes -> bin D).
Context (data_type : D -> CreateContextType) (data_ok : D -> Prop) (data_size : D -> Z).
Context (Hdata : forall n d, (n `mod` 8 = 0)%nat -> data_ok d ->
  payload_law n (write_data d) (read_data (context_name (data_type d))) d (data_size d)).

Lemma contexts_law n l :
  Forall (context_ok data_type data_ok data_size) l -> (n `mod` 8 = 0)%nat ->
  exists x, writes n (write_contexts write_data l) x /\ reads_to_any n (read_contexts read_data) x l /\
    zlen x <= chained_size 8 (context_size data_size) l.
Proof using Hdata.
  intros Hl Hn.
  destruct (chained_law 8 (write_context write_data) (read_context read_data) (context_ok data_type data_ok data_size)
    (context_size data_size)) with (n := n) (l := l) as (x & H1 & H2 & H3 & _); [done| | |done|by exists x].
  - intros m c Hm Hc. by apply (context_law write_data read_data data_type data_ok data_size Hdata).
  - eapply Forall_impl; [exact Hl|]. intros c Hc. split; [done|]. destruct Hc as [_ _ Hs]. unfold context_size. lia.
Qed.
End contexts.
