(* ===== verification/Negotiate.v ===== *)
(** Negotiation messages (crates/smb-msg/src/negotiate.rs): the NEGOTIATE request and response and
    the contexts that SMB 3.1.1 adds to them, with their layouts.

    A body is read and written behind the 64 bytes of a header, and its offsets count from there. *)
From S2P Require Import Prelude Effects Bytes Header Compression Crypto Dialects Stream Codec Security.
Local Open Scope Z_scope.

(** ** Codes *)

#[export] Instance Dialect_repr : Repr Dialect :=
  {| repr_code := dialect_code; repr_all := [Smb0202; Smb021; Smb030; Smb0302; Smb0311] |}.

Inductive NegotiateDialect := ND_Dialect (d : Dialect) | ND_Smb02Wildcard.

#[export] Instance NegotiateDialect_eq : EqDecision NegotiateDialect.
Proof. solve_decision. Defined.

#[export] Instance NegotiateDialect_repr : Repr NegotiateDialect := {|
  repr_code d := match d with ND_Dialect d => dialect_code d | ND_Smb02Wildcard => 0x02FF end;
  repr_all := [ND_Dialect Smb0202; ND_Dialect Smb021; ND_Dialect Smb030; ND_Dialect Smb0302; ND_Dialect Smb0311; ND_Smb02Wildcard]
|}.

(** [TryFrom<NegotiateDialect> for Dialect] *)
Definition dialect_try_from (d : NegotiateDialect) : option Dialect :=
  match d with ND_Dialect d => Some d | ND_Smb02Wildcard => None end.

Inductive NegotiateContextType :=
| NT_PreauthIntegrityCapabilities | NT_EncryptionCapabilities | NT_CompressionCapabilities
| NT_NetnameNegotiateContextId | NT_TransportCapabilities | NT_RdmaTransformCapabilities | NT_SigningCapabilities.

#[export] Instance NegotiateContextType_eq : EqDecision NegotiateContextType.
Proof. solve_decision. Defined.

#[export] Instance NegotiateContextType_repr : Repr NegotiateContextType := {|
  repr_code t := match t with
    | NT_PreauthIntegrityCapabilities => 1 | NT_EncryptionCapabilities => 2 | NT_CompressionCapabilities => 3
    | NT_NetnameNegotiateContextId => 5 | NT_TransportCapabilities => 6 | NT_RdmaTransformCapabilities => 7
    | NT_SigningCapabilities => 8 end;
  repr_all := [NT_PreauthIntegrityCapabilities; NT_EncryptionCapabilities; NT_CompressionCapabilities;
    NT_NetnameNegotiateContextId; NT_TransportCapabilities; NT_RdmaTransformCapabilities; NT_SigningCapabilities]
|}.

Inductive HashAlgorithm := Sha512.
#[export] Instance HashAlgorithm_repr : Repr HashAlgorithm := {| repr_code _ := 1; repr_all := [Sha512] |}.

#[export] Instance EncryptionCipher_repr : Repr EncryptionCipher := {|
  repr_code c := match c with Aes128Ccm => 1 | Aes128Gcm => 2 | Aes256Ccm => 3 | Aes256Gcm => 4 end;
  repr_all := [Aes128Ccm; Aes128Gcm; Aes256Ccm; Aes256Gcm]
|}.

#[export] Instance CompressionAlgorithm_repr : Repr CompressionAlgorithm :=
  {| repr_code := algorithm_code; repr_all := [AlgNone; LZNT1; LZ77; LZ77Huffman; PatternV1; LZ4] |}.

Inductive RdmaTransformId := RT_None | RT_Encryption | RT_Signing.
#[export] Instance RdmaTransformId_repr : Repr RdmaTransformId := {|
  repr_code t := match t with RT_None => 0 | RT_Encryption => 1 | RT_Signing => 2 end;
  repr_all := [RT_None; RT_Encryption; RT_Signing]
|}.

#[export] Instance SigningAlgorithmId_repr : Repr SigningAlgorithmId := {|
  repr_code a := match a with HmacSha256 => 0 | AesCmac => 1 | AesGmac => 2 end;
  repr_all := [HmacSha256; AesCmac; AesGmac]
|}.

(** ** Contexts *)

Record PreauthIntegrityCapabilities := mkPreauth { pi_hash_algorithms : list HashAlgorithm; pi_salt : bytes }.

Inductive NegotiateContextValue :=
| NV_PreauthIntegrityCapabilities (c : PreauthIntegrityCapabilities)
| NV_EncryptionCapabilities (ciphers : list EncryptionCipher)
| NV_CompressionCapabilities (c : CompressionCapabilities)
| NV_NetnameNegotiateContextId (netname : list Z)
| NV_TransportCapabilities (flags : Z)
| NV_RdmaTransformCapabilities (transforms : list RdmaTransformId)
| NV_SigningCapabilities (signing_algorithms : list SigningAlgorithmId).

(** [get_matching_type] *)
Definition get_matching_type (v : NegotiateContextValue) : NegotiateContextType :=
  match v with
  | NV_PreauthIntegrityCapabilities _ => NT_PreauthIntegrityCapabilities
  | NV_EncryptionCapabilities _ => NT_EncryptionCapabilities
  | NV_CompressionCapabilities _ => NT_CompressionCapabilities
  | NV_NetnameNegotiateContextId _ => NT_NetnameNegotiateContextId
  | NV_TransportCapabilities _ => NT_TransportCapabilities
  | NV_RdmaTransformCapabilities _ => NT_RdmaTransformCapabilities
  | NV_SigningCapabilities _ => NT_SigningCapabilities
  end.

Record NegotiateContext := mkNegotiateContext { nx_context_type : NegotiateContextType; nx_data : NegotiateContextValue }.

(** [until_eof] on units of two bytes: the units up to the first that is not complete. *)
Fixpoint units_until_eof_loop (fuel : nat) : bin (list Z) :=
  match fuel with
  | O => e_panic
  | S fuel => fun s =>
      match get 2 s with
      | None => None
      | Some (_, Err Bin_Eof) => Some (s, Ok [])
      | Some (s', Err e) => Some (s', Err e)
      | Some (s', Ok v) => (l ← units_until_eof_loop fuel; mret (v :: l)) s'
      end
  end.

Definition units_until_eof : bin (list Z) := fun s => units_until_eof_loop (S (length (st_data s))) s.

Definition write_preauth (c : PreauthIntegrityCapabilities) : bin unit :=
  _ ← put_count 2 (pi_hash_algorithms c);
  _ ← put_count 2 (pi_salt c);
  _ ← write_list (put_repr 2) (pi_hash_algorithms c);
  write_all (pi_salt c).

Definition read_preauth : bin PreauthIntegrityCapabilities :=
  hash_algorithm_count ← get 2;
  salt_length ← get 2;
  hash_algorithms ← read_count (Z.to_nat hash_algorithm_count) (get_repr 2);
  salt ← read_exact (Z.to_nat salt_length);
  mret (mkPreauth hash_algorithms salt).

(** A counted list of codes, as encryption and signing capabilities are. *)
Definition write_codes {A} `{Repr A} (l : list A) : bin unit := _ ← put_count 2 l; write_list (put_repr 2) l.
Definition read_codes {A} `{Repr A} : bin (list A) := count ← get 2; read_count (Z.to_nat count) (get_repr 2).

Definition write_compression_capabilities (c : CompressionCapabilities) : bin unit :=
  _ ← put_count 2 (caps_algorithms c);
  _ ← put 2 0;
  _ ← put 4 (caps_flags c);
  write_list (put_repr 2) (caps_algorithms c).

Definition read_compression_capabilities : bin CompressionCapabilities :=
  count ← get 2;
  _ ← get 2;
  flags ← get 4;
  algorithms ← read_count (Z.to_nat count) (get_repr 2);
  mret (mkCaps flags algorithms).

Definition write_rdma (transforms : list RdmaTransformId) : bin unit :=
  _ ← put_count 2 transforms; _ ← put 2 0; _ ← put 4 0; write_list (put_repr 2) transforms.
Definition read_rdma : bin (list RdmaTransformId) :=
  count ← get 2; _ ← get 2; _ ← get 4; read_count (Z.to_nat count) (get_repr 2).

Definition write_negotiate_value (v : NegotiateContextValue) : bin unit :=
  match v with
  | NV_PreauthIntegrityCapabilities c => write_preauth c
  | NV_EncryptionCapabilities l => write_codes l
  | NV_CompressionCapabilities c => write_compression_capabilities c
  | NV_NetnameNegotiateContextId name => write_sized_wide name
  | NV_TransportCapabilities flags => put 4 flags
  | NV_RdmaTransformCapabilities l => write_rdma l
  | NV_SigningCapabilities l => write_codes l
  end.

Definition read_negotiate_value (t : NegotiateContextType) : bin NegotiateContextValue :=
  match t with
  | NT_PreauthIntegrityCapabilities => c ← read_preauth; mret (NV_PreauthIntegrityCapabilities c)
  | NT_EncryptionCapabilities => l ← read_codes; mret (NV_EncryptionCapabilities l)
  | NT_CompressionCapabilities => c ← read_compression_capabilities; mret (NV_CompressionCapabilities c)
  | NT_NetnameNegotiateContextId => name ← units_until_eof; mret (NV_NetnameNegotiateContextId name)
  | NT_TransportCapabilities => flags ← get 4; mret (NV_TransportCapabilities flags)
  | NT_RdmaTransformCapabilities => l ← read_rdma; mret (NV_RdmaTransformCapabilities l)
  | NT_SigningCapabilities => l ← read_codes; mret (NV_SigningCapabilities l)
  end.

Definition write_negotiate_context (c : NegotiateContext) : bin unit :=
  _ ← write_align 8;
  _ ← put_repr 2 (nx_context_type c);
  data_length ← put_marker 2;
  _ ← put 4 0;
  write_size (write_negotiate_value (nx_data c)) data_length.

Definition read_negotiate_context : bin NegotiateContext :=
  _ ← read_align 8;
  context_type ← get_repr 2;
  data_length ← get_marker 2;
  _ ← get 4;
  data ← take_seek (Z.to_nat data_length.2) (read_negotiate_value context_type);
  mret (mkNegotiateContext context_type data).

(** ** Messages *)

Record NegotiateRequest := mkNegotiateRequest {
  nq_security_mode : Z;
  nq_capabilities : Z;
  nq_client_guid : Guid;
  nq_dialects : list Dialect;
  nq_negotiate_context_list : option (list NegotiateContext)
}.

(** The contexts, and the padding in front of them, are only there for SMB 3.1.1. *)
Definition write_negotiate_request (r : NegotiateRequest) : bin unit :=
  _ ← put 2 36;
  _ ← put_count 2 (nq_dialects r);
  _ ← put 2 (nq_security_mode r);
  _ ← put 2 0;
  _ ← put 4 (nq_capabilities r);
  _ ← write_guid (nq_client_guid r);
  negotiate_context_offset ← put_marker 4;
  _ ← put_count 2 (default [] (nq_negotiate_context_list r));
  _ ← put 2 0;
  _ ← write_list (put_repr 2) (nq_dialects r);
  if bool_decide (Smb0311 ∈ nq_dialects r) then
    _ ← write_align 8;
    write_aoff (put_opt (write_list write_negotiate_context) (nq_negotiate_context_list r)) negotiate_context_offset
  else mret tt.

Definition read_negotiate_request : bin NegotiateRequest :=
  _ ← get_const 2 36;
  dialect_count ← get 2;
  security_mode ← get 2;
  _ ← get 2;
  capabilities ← get 4;
  client_guid ← read_guid;
  negotiate_context_offset ← get_marker 4;
  negotiate_context_count ← get 2;
  _ ← get 2;
  dialects ← read_count (Z.to_nat dialect_count) (get_repr 2);
  negotiate_context_list ← get_if (bool_decide (Smb0311 ∈ dialects))
    (_ ← seek_start (Z.to_nat negotiate_context_offset.2);
     _ ← read_align 8;
     read_count (Z.to_nat negotiate_context_count) read_negotiate_context);
  mret (mkNegotiateRequest security_mode capabilities client_guid dialects negotiate_context_list).

Record NegotiateResponse := mkNegotiateResponse {
  ns_security_mode : Z;
  ns_dialect_revision : NegotiateDialect;
  ns_server_guid : Guid;
  ns_capabilities : Z;
  ns_max_transact_size : Z;
  ns_max_read_size : Z;
  ns_max_write_size : Z;
  ns_system_time : Z;
  ns_server_start_time : Z;
  ns_buffer : bytes;
  ns_negotiate_context_list : option (list NegotiateContext)
}.

Definition is_smb0311 (d : NegotiateDialect) : bool := bool_decide (d = ND_Dialect Smb0311).

Definition write_negotiate_response (r : NegotiateResponse) : bin unit :=
  _ ← put 2 65;
  _ ← put 2 (ns_security_mode r);
  _ ← put_repr 2 (ns_dialect_revision r);
  _ ← put_count 2 (default [] (ns_negotiate_context_list r));
  _ ← write_guid (ns_server_guid r);
  _ ← put 4 (ns_capabilities r);
  _ ← put 4 (ns_max_transact_size r);
  _ ← put 4 (ns_max_read_size r);
  _ ← put 4 (ns_max_write_size r);
  _ ← put 8 (ns_system_time r);
  _ ← put 8 (ns_server_start_time r);
  security_buffer_offset ← put_marker 2;
  _ ← put_count 2 (ns_buffer r);
  negotiate_context_offset ← put_marker 4;
  _ ← write_aoff (write_all (ns_buffer r)) security_buffer_offset;
  if is_smb0311 (ns_dialect_revision r) then
    _ ← write_align 8;
    write_aoff (put_opt (write_list write_negotiate_context) (ns_negotiate_context_list r)) negotiate_context_offset
  else mret tt.

Definition read_negotiate_response : bin NegotiateResponse :=
  _ ← get_const 2 65;
  security_mode ← get 2;
  dialect_revision ← get_repr 2;
  negotiate_context_count ← get 2;
  _ ← bin_assert (if is_smb0311 dialect_revision then bool_decide (0 < negotiate_context_count)
                  else bool_decide (negotiate_context_count = 0));
  server_guid ← read_guid;
  capabilities ← get 4;
  max_transact_size ← get 4;
  max_read_size ← get 4;
  max_write_size ← get 4;
  system_time ← get 8;
  server_start_time ← get 8;
  _ ← get 2;
  security_buffer_length ← get 2;
  negotiate_context_offset ← get_marker 4;
  buffer ← read_exact (Z.to_nat security_buffer_length);
  negotiate_context_list ← get_if (is_smb0311 dialect_revision)
    (_ ← seek_start (Z.to_nat negotiate_context_offset.2);
     _ ← read_align 8;
     read_count (Z.to_nat negotiate_context_count) read_negotiate_context);
  mret (mkNegotiateResponse security_mode dialect_revision server_guid capabilities max_transact_size max_read_size
    max_write_size system_time server_start_time buffer negotiate_context_list).

(** The layouts of negotiation: every context and both messages are read back from what they are
    written as. *)

(** ** Codes *)

#[export] Instance Dialect_laws : ReprLaws Dialect. Proof. by intros []. Qed.
#[export] Instance NegotiateDialect_laws : ReprLaws NegotiateDialect. Proof. by intros [[]|]. Qed.
#[export] Instance NegotiateContextType_laws : ReprLaws NegotiateContextType. Proof. by intros []. Qed.
#[export] Instance HashAlgorithm_laws : ReprLaws HashAlgorithm. Proof. by intros []. Qed.
#[export] Instance EncryptionCipher_laws : ReprLaws EncryptionCipher. Proof. by intros []. Qed.
#[export] Instance CompressionAlgorithm_laws : ReprLaws CompressionAlgorithm. Proof. by intros []. Qed.
#[export] Instance RdmaTransformId_laws : ReprLaws RdmaTransformId. Proof. by intros []. Qed.
#[export] Instance SigningAlgorithmId_laws : ReprLaws SigningAlgorithmId. Proof. by intros []. Qed.

(** A list of codes of two bytes. *)
Class ShortCodes (A : Type) `{Repr A} := short_codes : forall a : A, 0 <= repr_code a < 256 ^ Z.of_nat 2.

#[export] Instance Dialect_short : ShortCodes Dialect. Proof. by intros []. Qed.
#[export] Instance HashAlgorithm_short : ShortCodes HashAlgorithm. Proof. by intros []. Qed.
#[export] Instance EncryptionCipher_short : ShortCodes EncryptionCipher. Proof. by intros []. Qed.
#[export] Instance CompressionAlgorithm_short : ShortCodes CompressionAlgorithm. Proof. by intros []. Qed.
#[export] Instance RdmaTransformId_short : ShortCodes RdmaTransformId. Proof. by intros []. Qed.
#[export] Instance SigningAlgorithmId_short : ShortCodes SigningAlgorithmId. Proof. by intros []. Qed.

Lemma reprs_law {A} `{ReprLaws A, !ShortCodes A} n (l : list A) :
  exists x, writes n (write_list (put_repr 2) l) x /\ reads n (read_count (length l) (get_repr 2)) x l /\ zlen x = 2 * zlen l.
Proof.
  revert n. induction l as [|a l IH]; intros n.
  - exists []. split_and!; [apply writes_ret|apply reads_ret|done].
  - destruct (IH (n + 2)%nat) as (x & H1 & H2 & H3). exists (le_bytes 2 (repr_code a) ++ x). split_and!.
    + cbn [write_list]. eapply writes_bind; [apply writes_repr|done].
    + cbn [read_count length]. eapply reads_bind; [apply reads_repr, short_codes|]. by apply (reads_map _ _ (cons a)).
    + unfold zlen in *. cbn [length app]. rewrite length_app, length_le_bytes. lia.
Qed.

(** ** Values *)

Lemma units_until_eof_loop_law s fuel : forall n pre,
  length pre = n -> (length s < fuel)%nat -> Forall (in_range u16_max) s ->
  units_until_eof_loop fuel (mkStream (pre ++ concat (le_bytes 2 <$> s)) n) =
    Some (mkStream (pre ++ concat (le_bytes 2 <$> s)) (n + 2 * length s), Ok s).
Proof.
  revert fuel. induction s as [|v s IH]; intros [|fuel] n pre Hn Hf Hs; [lia| |lia|].
  - cbn [units_until_eof_loop fmap list_fmap concat]. unfold get, read_exact, mbind, eff_bind. cbn [st_data st_pos].
    rewrite app_nil_r. destruct (Nat.ltb_spec (length pre) (n + 2)) as [_|H]; [|lia]. by rewrite Nat.add_0_r.
  - apply Forall_cons in Hs as [Hv Hs]. cbn [units_until_eof_loop fmap list_fmap concat].
    rewrite (reads_get n 2 v ltac:(cbn; ints) pre _ Hn).
    rewrite app_assoc, length_le_bytes. eapply run_bind.
    + apply IH; [rewrite length_app, length_le_bytes; lia|cbn in Hf; lia|done].
    + unfold mret, eff_ret. do 3 f_equal. cbn [length]. lia.
Qed.

Lemma units_law n s :
  Forall (in_range u16_max) s ->
  exists x, writes n (write_sized_wide s) x /\ reads_to n units_until_eof x s /\ zlen x = 2 * zlen s.
Proof.
  intros Hs. destruct (ints_law n 2 s) as (H1 & _ & H3); [eapply Forall_impl; [exact Hs|]; intros v Hv; cbn; ints|].
  exists (concat (le_bytes 2 <$> s)). split_and!; [done| |done].
  intros pre Hn. unfold units_until_eof. cbn [st_data].
  assert (Hl : length (concat (le_bytes 2 <$> s)) = (2 * length s)%nat) by (unfold zlen in H3; lia).
  rewrite units_until_eof_loop_law; [by rewrite Hl|done|rewrite length_app; lia|done].
Qed.

Definition negotiate_value_size (v : NegotiateContextValue) : Z :=
  match v with
  | NV_PreauthIntegrityCapabilities c => 4 + 2 * zlen (pi_hash_algorithms c) + zlen (pi_salt c)
  | NV_EncryptionCapabilities l => 2 + 2 * zlen l
  | NV_CompressionCapabilities c => 8 + 2 * zlen (caps_algorithms c)
  | NV_NetnameNegotiateContextId name => 2 * zlen name
  | NV_TransportCapabilities _ => 4
  | NV_RdmaTransformCapabilities l => 8 + 2 * zlen l
  | NV_SigningCapabilities l => 2 + 2 * zlen l
  end.

(** The length of a context's data is a field of two bytes. *)
Record negotiate_value_ok (v : NegotiateContextValue) : Prop := {
  nvk_size : negotiate_value_size v <= u16_max;
  nvk_fields : match v with
    | NV_CompressionCapabilities c => in_range u32_max (caps_flags c)
    | NV_NetnameNegotiateContextId name => Forall (in_range u16_max) name
    | NV_TransportCapabilities flags => in_range u32_max flags
    | _ => True
    end
}.

Lemma codes_law {A} `{ReprLaws A, !ShortCodes A} n (l : list A) :
  2 + 2 * zlen l <= u16_max ->
  exists x, writes n (write_codes l) x /\ reads n read_codes x l /\ zlen x = 2 + 2 * zlen l.
Proof.
  intros Hl. destruct (reprs_law (n + 2) l) as (y & Hw & Hr & Hy).
  pose proof (writes_count n 2 l ltac:(unfold zlen in *; cbn; ints)) as Hc.
  exists (le_bytes 2 (zlen l) ++ y). split_and!.
  - eapply writes_bind; [done|by rewrite length_le_bytes].
  - eapply reads_bind; [apply reads_get; unfold zlen in *; cbn; ints|]. by rewrite zlen_nat, length_le_bytes.
  - unfold zlen in *. rewrite length_app, length_le_bytes. lia.
Qed.

Lemma preauth_law n c :
  negotiate_value_ok (NV_PreauthIntegrityCapabilities c) ->
  exists x, writes n (write_preauth c) x /\ reads n read_preauth x c /\
    zlen x = negotiate_value_size (NV_PreauthIntegrityCapabilities c).
Proof.
  intros [Hs _]. destruct c as [hs salt]. cbn [negotiate_value_size pi_hash_algorithms pi_salt] in *.
  destruct (reprs_law (n + 4) hs) as (y & Hw & Hr & Hy).
  pose proof (writes_count n 2 hs ltac:(unfold zlen in *; cbn; ints)) as Hc1.
  pose proof (writes_count (n + 2) 2 salt ltac:(unfold zlen in *; cbn; ints)) as Hc2.
  exists (concat [le_bytes 2 (zlen hs); le_bytes 2 (zlen salt); y; salt]). split_and!.
  - unfold write_preauth. cbn [pi_hash_algorithms pi_salt]. emit.
  - unfold read_preauth. do 2 take_step. rewrite !zlen_nat. take_step.
    eapply reads_segs; [apply reads_exact|]. apply reads_ret.
  - len.
Qed.

Lemma compression_capabilities_law n c :
  negotiate_value_ok (NV_CompressionCapabilities c) ->
  exists x, writes n (write_compression_capabilities c) x /\ reads n read_compression_capabilities x c /\
    zlen x = negotiate_value_size (NV_CompressionCapabilities c).
Proof.
  intros [Hs Hf]. destruct c as [flags l]. cbn [negotiate_value_size caps_algorithms caps_flags] in *.
  destruct (reprs_law (n + 8) l) as (y & Hw & Hr & Hy).
  pose proof (writes_count n 2 l ltac:(unfold zlen in *; cbn; ints)) as Hc.
  exists (concat [le_bytes 2 (zlen l); le_bytes 2 0; le_bytes 4 flags; y]). split_and!.
  - unfold write_compression_capabilities. cbn [caps_algorithms caps_flags]. emit.
  - unfold read_compression_capabilities. do 3 take_step. rewrite zlen_nat. take_step. apply reads_ret.
  - len.
Qed.

Lemma rdma_law n l :
  8 + 2 * zlen l <= u16_max -> exists x, writes n (write_rdma l) x /\ reads n read_rdma x l /\ zlen x = 8 + 2 * zlen l.
Proof.
  intros Hs. destruct (reprs_law (n + 8) l) as (y & Hw & Hr & Hy).
  pose proof (writes_count n 2 l ltac:(unfold zlen in *; cbn; ints)) as Hc.
  exists (concat [le_bytes 2 (zlen l); le_bytes 2 0; le_bytes 4 0; y]). split_and!.
  - unfold write_rdma. emit.
  - unfold read_rdma. do 3 take_step. rewrite zlen_nat. cbn [concat]. rewrite app_nil_r.
    eapply reads_at; [|exact Hr]. len.
  - len.
Qed.

(** A value under the constructor of its context. *)
Lemma value_law {A} n (w : bin unit) (r : bin A) (c : A -> NegotiateContextValue) a size :
  (exists x, writes n w x /\ reads n r x a /\ zlen x = size) ->
  exists x, writes n w x /\ reads_to n (v ← r; mret (c v)) x (c a) /\ zlen x = size.
Proof. intros (x & H1 & H2 & H3). exists x. split_and!; [done|by apply reads_reads_to, reads_map|done]. Qed.

Lemma negotiate_value_law n v :
  negotiate_value_ok v ->
  exists x, writes n (write_negotiate_value v) x /\ reads_to n (read_negotiate_value (get_matching_type v)) x v /\
    zlen x = negotiate_value_size v.
Proof.
  intros Hok. pose proof (nvk_size _ Hok) as Hs. pose proof (nvk_fields _ Hok) as Hf.
  destruct v as [c|l|c|name|flags|l|l]; cbn [write_negotiate_value get_matching_type read_negotiate_value].
  - by apply value_law, preauth_law.
  - by apply value_law, codes_law.
  - by apply value_law, compression_capabilities_law.
  - destruct (units_law n name Hf) as (x & H1 & H2 & H3). exists x. split_and!; [done|by apply reads_to_map|done].
  - apply value_law. exists (le_bytes 4 flags). split_and!; [apply writes_put|apply reads_get; cbn; ints|done].
  - by apply value_law, rdma_law.
  - by apply value_law, codes_law.
Qed.

(** ** Contexts *)

(** The type is that of the value, as the conversions make it. *)
Definition negotiate_context_ok (c : NegotiateContext) : Prop :=
  nx_context_type c = get_matching_type (nx_data c) /\ negotiate_value_ok (nx_data c).

Definition negotiate_context_size (c : NegotiateContext) : Z := 15 + negotiate_value_size (nx_data c).

Lemma negotiate_context_law n c :
  negotiate_context_ok c ->
  exists x, writes n (write_negotiate_context c) x /\ reads n read_negotiate_context x c /\ zlen x <= negotiate_context_size c.
Proof.
  intros [Ht Hv]. destruct c as [t v]. unfold negotiate_context_size. cbn [nx_context_type nx_data] in *. subst t.
  pose proof (nvk_size _ Hv) as Hs. pose proof (padding_lt 8 n ltac:(done)) as Hp.
  destruct (negotiate_value_law (n + padding 8 n + 8) v Hv) as (y & Hw & Hr & Hy).
  pose proof (writes_align n 8) as Ha. pose proof (reads_align n 8) as Hra.
  remember (padding 8 n) as pad eqn:Epad. clear Epad.
  exists (concat [replicate pad 0; le_bytes 2 (repr_code (get_matching_type v)); le_bytes 2 (zlen y); le_bytes 4 0; y]). split_and!.
  - unfold write_negotiate_context. cbn [nx_context_type nx_data]. emit.
  - unfold read_negotiate_context. take_step. eapply reads_segs; [apply reads_repr; by destruct v|].
    cbv beta. do 2 take_step. cbn [snd].
    eapply reads_segs; [apply reads_take_seek; [eapply reads_to_at; [|exact Hr]; len|apply zlen_nat]|]. apply reads_ret.
  - len.
Qed.

Definition negotiate_contexts_size (l : list NegotiateContext) : Z := foldr Z.add 0 (negotiate_context_size <$> l).

Lemma negotiate_contexts_law n l :
  Forall negotiate_context_ok l ->
  exists x, writes n (write_list write_negotiate_context l) x /\
    reads n (read_count (length l) read_negotiate_context) x l /\ zlen x <= negotiate_contexts_size l.
Proof. intros Hl. apply (list_law _ _ negotiate_context_ok negotiate_context_size); [|done]. intros. by apply negotiate_context_law. Qed.

(** ** Messages *)

(** Contexts are there exactly for SMB 3.1.1. *)
Definition contexts_ok (smb311 : bool) (o : option (list NegotiateContext)) : Prop :=
  match o with
  | Some l => smb311 = true /\ zlen l <= u16_max /\ Forall negotiate_context_ok l
  | None => smb311 = false
  end.

Record negotiate_request_ok (r : NegotiateRequest) : Prop := {
  nqk_mode : in_range u16_max (nq_security_mode r);
  nqk_capabilities : in_range u32_max (nq_capabilities r);
  nqk_guid : guid_ok (nq_client_guid r);
  nqk_dialects : zlen (nq_dialects r) <= u16_max;
  nqk_contexts : contexts_ok (bool_decide (Smb0311 ∈ nq_dialects r)) (nq_negotiate_context_list r)
}.

(** Where a body begins. *)
Definition body_start (n : nat) : Prop := (n `mod` 8 = 0)%nat /\ (n <= 64)%nat.

(** The contexts at the end of a message, behind their padding. *)
Lemma contexts_tail n l :
  Forall negotiate_context_ok l ->
  let pad := padding 8 n in
  exists x, writes n (write_align 8) (replicate pad 0) /\
    writes (n + pad) (put_opt (write_list write_negotiate_context) (Some l)) x /\
    forall offset, offset = (n + pad)%nat ->
      reads n (_ ← seek_start offset; _ ← read_align 8; read_count (length l) read_negotiate_context)
        (replicate pad 0 ++ x) l.
Proof.
  intros Hl pad. destruct (negotiate_contexts_law (n + pad) l Hl) as (x & H1 & H2 & _). exists x.
  split_and!; [apply writes_align|done|]. intros offset ->.
  eapply reads_bind; [apply reads_seek_over; by rewrite length_replicate|]. rewrite length_replicate.
  eapply reads_skip; [|exact H2]. pose proof (reads_align (n + pad) 8) as Ha.
  destruct (padding_aligned 8 n ltac:(done)) as [k Hk]. fold pad in Hk. rewrite Hk in Ha |- *.
  unfold padding in Ha. by rewrite Nat.Div0.mod_mul in Ha.
Qed.

Lemma negotiate_request_law n r :
  body_start n -> negotiate_request_ok r ->
  exists x, writes n (write_negotiate_request r) x /\ reads n read_negotiate_request x r.
Proof.
  intros [_ Hn] [H1 H2 H3 H4 H5]. destruct r as [mode caps guid ds cs].
  cbn [nq_security_mode nq_capabilities nq_client_guid nq_dialects nq_negotiate_context_list] in *.
  destruct (guid_law (n + 12) guid H3) as (g & Hgw & Hgr & Hgl).
  destruct (reprs_law (n + 36) ds) as (y & Hw & Hr & Hy).
  pose proof (writes_count (n + 2) 2 ds ltac:(unfold zlen in *; cbn; ints)) as Hc1.
  unfold write_negotiate_request, read_negotiate_request.
  cbn [nq_security_mode nq_capabilities nq_client_guid nq_dialects nq_negotiate_context_list].
  destruct cs as [cs|]; cbn [contexts_ok default] in *.
  - destruct H5 as (H5 & H6 & H7). destruct (contexts_tail (n + 36 + length y) cs H7) as (z & Ha & Hz & Hrz).
    pose proof (writes_count (n + 32) 2 cs ltac:(unfold zlen in *; cbn; ints)) as Hc2.
    remember (padding 8 (n + 36 + length y)) as pad eqn:Epad.
    pose proof (padding_lt 8 (n + 36 + length y) ltac:(done)) as Hp. rewrite <- Epad in Hp. clear Epad.
    exists (concat [le_bytes 2 36; le_bytes 2 (zlen ds); le_bytes 2 mode; le_bytes 2 0; le_bytes 4 caps; g;
      le_bytes 4 (Z.of_nat (n + 36 + length y + pad)); le_bytes 2 (zlen cs); le_bytes 2 0; y; replicate pad 0; z]). split.
    + rewrite H5. emit.
    + do 9 take_step. rewrite !zlen_nat. take_step. cbn [fst snd]. rewrite H5.
      cbn [concat]. rewrite app_nil_r, <- (app_nil_r (_ ++ z)).
      eapply reads_bind; [|apply reads_ret]. apply reads_get_if. split; [done|].
      eapply reads_at; [|apply Hrz]; len.
  - pose proof (writes_count (n + 32) 2 (@nil NegotiateContext) ltac:(unfold zlen in *; cbn; ints)) as Hc2.
    exists (concat [le_bytes 2 36; le_bytes 2 (zlen ds); le_bytes 2 mode; le_bytes 2 0; le_bytes 4 caps; g;
      le_bytes 4 0; le_bytes 2 0; le_bytes 2 0; y]). split.
    + rewrite H5. emit.
    + do 9 take_step. rewrite !zlen_nat. take_step. cbn [fst snd]. rewrite H5.
      eapply reads_skip; [by apply (reads_get_if _ _ _ [] None)|apply reads_ret].
Qed.

Record negotiate_response_fits (r : NegotiateResponse) : Prop := {
  nsk_mode : in_range u16_max (ns_security_mode r);
  nsk_guid : guid_ok (ns_server_guid r);
  nsk_capabilities : in_range u32_max (ns_capabilities r);
  nsk_transact : in_range u32_max (ns_max_transact_size r);
  nsk_read : in_range u32_max (ns_max_read_size r);
  nsk_write : in_range u32_max (ns_max_write_size r);
  nsk_time : in_range u64_max (ns_system_time r);
  nsk_start : in_range u64_max (ns_server_start_time r);
  nsk_buffer : zlen (ns_buffer r) <= u16_max;
  nsk_contexts : contexts_ok (is_smb0311 (ns_dialect_revision r)) (ns_negotiate_context_list r)
}.

Definition negotiate_response_ok (r : NegotiateResponse) : Prop :=
  negotiate_response_fits r /\ ns_negotiate_context_list r <> Some [].

Lemma negotiate_response_law n r :
  body_start n -> negotiate_response_ok r ->
  exists x, writes n (write_negotiate_response r) x /\ reads n read_negotiate_response x r.
Proof.
  intros [_ Hn] [[H1 H2 H3 H4 H5 H6 H7 H8 H9 H10] H11]. destruct r as [mode d guid caps mt mr mw time start buf cs].
  cbn [ns_security_mode ns_dialect_revision ns_server_guid ns_capabilities ns_max_transact_size ns_max_read_size
    ns_max_write_size ns_system_time ns_server_start_time ns_buffer ns_negotiate_context_list] in *.
  destruct (guid_law (n + 8) guid H2) as (g & Hgw & Hgr & Hgl).
  pose proof (writes_count (n + 58) 2 buf ltac:(unfold zlen in *; cbn; ints)) as Hc1.
  pose proof (writes_all (n + 64) buf) as Hb.
  unfold write_negotiate_response, read_negotiate_response.
  cbn [ns_security_mode ns_dialect_revision ns_server_guid ns_capabilities ns_max_transact_size ns_max_read_size
    ns_max_write_size ns_system_time ns_server_start_time ns_buffer ns_negotiate_context_list].
  assert (Hd : 0 <= repr_code d < 256 ^ Z.of_nat 2) by (by destruct d as [[]|]).
  destruct cs as [cs|]; cbn [contexts_ok default] in *.
  - destruct H10 as (H10 & H12 & H13). destruct (contexts_tail (n + 64 + length buf) cs H13) as (z & Ha & Hz & Hrz).
    pose proof (writes_count (n + 6) 2 cs ltac:(unfold zlen in *; cbn; ints)) as Hc2.
    remember (padding 8 (n + 64 + length buf)) as pad eqn:Epad.
    pose proof (padding_lt 8 (n + 64 + length buf) ltac:(done)) as Hp. rewrite <- Epad in Hp. clear Epad.
    exists (concat [le_bytes 2 65; le_bytes 2 mode; le_bytes 2 (repr_code d); le_bytes 2 (zlen cs); g; le_bytes 4 caps;
      le_bytes 4 mt; le_bytes 4 mr; le_bytes 4 mw; le_bytes 8 time; le_bytes 8 start; le_bytes 2 (Z.of_nat (n + 64));
      le_bytes 2 (zlen buf); le_bytes 4 (Z.of_nat (n + 64 + length buf + pad)); buf; replicate pad 0; z]). split.
    + rewrite H10. emit.
    + do 2 take_step. eapply reads_segs; [by apply reads_repr|]. cbv beta. take_step.
      eapply reads_skip; [apply reads_assert; rewrite H10; apply bool_decide_eq_true_2; destruct cs; [done|len]|].
      do 10 take_step. rewrite !zlen_nat. eapply reads_segs; [apply reads_exact|]. cbn [fst snd]. rewrite H10.
      cbn [concat]. rewrite app_nil_r, <- (app_nil_r (_ ++ z)).
      eapply reads_bind; [|apply reads_ret]. apply reads_get_if. split; [done|].
      eapply reads_at; [|apply Hrz]; len.
  - pose proof (writes_count (n + 6) 2 (@nil NegotiateContext) ltac:(unfold zlen in *; cbn; ints)) as Hc2.
    exists (concat [le_bytes 2 65; le_bytes 2 mode; le_bytes 2 (repr_code d); le_bytes 2 0; g; le_bytes 4 caps;
      le_bytes 4 mt; le_bytes 4 mr; le_bytes 4 mw; le_bytes 8 time; le_bytes 8 start; le_bytes 2 (Z.of_nat (n + 64));
      le_bytes 2 (zlen buf); le_bytes 4 0; buf]). split.
    + rewrite H10. emit.
    + do 2 take_step. eapply reads_segs; [by apply reads_repr|]. cbv beta. take_step.
      eapply reads_skip; [apply reads_assert; by rewrite H10|].
      do 10 take_step. rewrite !zlen_nat. eapply reads_segs; [apply reads_exact|]. cbn [fst snd]. rewrite H10.
      eapply reads_skip; [by apply (reads_get_if _ _ _ [] None)|apply reads_ret].
Qed.
