(* ===== verification/Fsctl.v ===== *)
(** File system controls (crates/smb-msg/src/ioctl/, dfsc.rs): the payloads of an IOCTL request, the
    sizes that credits are computed from, and the control codes a response type answers for. *)
From S2P Require Import Prelude Effects Bytes Header Compression Crypto Dialects Stream Codec Security Negotiate.
Local Open Scope Z_scope.

(** ** Control codes *)

Inductive FsctlCodes :=
| FC_DfsGetReferrals | FC_OffloadRead | FC_PipePeek | FC_PipeWait | FC_PipeTransceive | FC_SrvCopychunk
| FC_SrvEnumerateSnapshots | FC_SrvRequestResumeKey | FC_SrvReadHash | FC_SrvCopychunkWrite | FC_LmrRequestResiliency
| FC_QueryNetworkInterfaceInfo | FC_SetReparsePoint | FC_DfsGetReferralsEx | FC_FileLevelTrim | FC_ValidateNegotiateInfo
| FC_QueryAllocatedRanges.

#[export] Instance FsctlCodes_eq : EqDecision FsctlCodes.
Proof. solve_decision. Defined.

Definition fsctl_code (c : FsctlCodes) : Z :=
  match c with
  | FC_DfsGetReferrals => 0x00060194
  | FC_OffloadRead => 0x00094264
  | FC_PipePeek => 0x0011400C
  | FC_PipeWait => 0x00110018
  | FC_PipeTransceive => 0x0011C017
  | FC_SrvCopychunk => 0x001440F2
  | FC_SrvEnumerateSnapshots => 0x00144064
  | FC_SrvRequestResumeKey => 0x00140078
  | FC_SrvReadHash => 0x001441bb
  | FC_SrvCopychunkWrite => 0x001480F2
  | FC_LmrRequestResiliency => 0x001401D4
  | FC_QueryNetworkInterfaceInfo => 0x001401FC
  | FC_SetReparsePoint => 0x000900A4
  | FC_DfsGetReferralsEx => 0x000601B0
  | FC_FileLevelTrim => 0x00098208
  | FC_ValidateNegotiateInfo => 0x00140204
  | FC_QueryAllocatedRanges => 0x000940CF
  end.

(** ** Payloads *)

Record SrvCopychunkItem := mkChunk { ch_source_offset : Z; ch_target_offset : Z; ch_length : Z }.
Record SrvCopychunkCopy := mkCopychunk { cc_source_key : bytes; cc_chunks : list SrvCopychunkItem }.

Inductive SrvHashRetrievalType := HR_HashBased | HR_FileBased.
#[export] Instance SrvHashRetrievalType_repr : Repr SrvHashRetrievalType :=
  {| repr_code t := match t with HR_HashBased => 1 | HR_FileBased => 2 end; repr_all := [HR_HashBased; HR_FileBased] |}.

Record SrvReadHashReq := mkReadHash { rh_hash_version : Z; rh_hash_retrieval_type : SrvHashRetrievalType }.

Record ValidateNegotiateInfoRequest := mkValidate {
  va_capabilities : Z;
  va_guid : Guid;
  va_security_mode : Z;
  va_dialects : list Dialect
}.

Inductive ReferralLevel := RL_V1 | RL_V2 | RL_V3 | RL_V4.
#[export] Instance ReferralLevel_repr : Repr ReferralLevel :=
  {| repr_code l := match l with RL_V1 => 1 | RL_V2 => 2 | RL_V3 => 3 | RL_V4 => 4 end; repr_all := [RL_V1; RL_V2; RL_V3; RL_V4] |}.

Record ReqGetDfsReferral := mkReferral { rf_max_referral_level : ReferralLevel; rf_request_file_name : list Z }.
Record DfsRequestData := mkDfsData { dd_request_file_name : list Z; dd_site_name : list Z }.
Record ReqGetDfsReferralEx := mkReferralEx { rx_max_referral_level : Z; rx_request_flags : Z; rx_request_data : DfsRequestData }.
Record PipeWaitRequest := mkPipeWait { pw_timeout : Z; pw_timeout_specified : bool; pw_name : list Z }.
Record SetReparsePointRequest := mkReparse { rp_reparse_tag : Z; rp_reparse_guid : option Guid; rp_reparse_data : bytes }.
Record FileLevelTrimRange := mkTrimRange { tr_offset : Z; tr_length : Z }.
Record QueryAllocRangesItem := mkAllocRange { ar_offset : Z; ar_len : Z }.
Record OffloadReadRequest := mkOffload { of_flags : Z; of_token_time_to_live : Z; of_file_offset : Z; of_copy_length : Z }.

(** The buffer of an IOCTL request; the requests without a payload carry nothing. *)
Inductive IoctlReqData :=
| IO_PipePeek
| IO_SrvEnumerateSnapshots
| IO_SrvRequestResumeKey
| IO_QueryNetworkInterfaceInfo
| IO_SrvCopychunk (c : SrvCopychunkCopy)
| IO_SrvCopychunkWrite (c : SrvCopychunkCopy)
| IO_SrvReadHash (r : SrvReadHashReq)
| IO_LmrRequestResiliency (timeout : Z)
| IO_ValidateNegotiateInfo (v : ValidateNegotiateInfoRequest)
| IO_DfsGetReferrals (r : ReqGetDfsReferral)
| IO_PipeWait (p : PipeWaitRequest)
| IO_PipeTransceive (buffer : bytes)
| IO_SetReparsePoint (r : SetReparsePointRequest)
| IO_DfsGetReferralsEx (r : ReqGetDfsReferralEx)
| IO_FileLevelTrim (ranges : list FileLevelTrimRange)
| IO_QueryAllocatedRanges (r : QueryAllocRangesItem)
| IO_OffloadRead (r : OffloadReadRequest)
| IO_Ioctl (buffer : bytes).

(** [FsctlRequest::FSCTL_CODE]; a raw buffer has none. *)
Definition fsctl_of (d : IoctlReqData) : option FsctlCodes :=
  match d with
  | IO_PipePeek => Some FC_PipePeek
  | IO_SrvEnumerateSnapshots => Some FC_SrvEnumerateSnapshots
  | IO_SrvRequestResumeKey => Some FC_SrvRequestResumeKey
  | IO_QueryNetworkInterfaceInfo => Some FC_QueryNetworkInterfaceInfo
  | IO_SrvCopychunk _ => Some FC_SrvCopychunk
  | IO_SrvCopychunkWrite _ => Some FC_SrvCopychunkWrite
  | IO_SrvReadHash _ => Some FC_SrvReadHash
  | IO_LmrRequestResiliency _ => Some FC_LmrRequestResiliency
  | IO_ValidateNegotiateInfo _ => Some FC_ValidateNegotiateInfo
  | IO_DfsGetReferrals _ => Some FC_DfsGetReferrals
  | IO_PipeWait _ => Some FC_PipeWait
  | IO_PipeTransceive _ => Some FC_PipeTransceive
  | IO_SetReparsePoint _ => Some FC_SetReparsePoint
  | IO_DfsGetReferralsEx _ => Some FC_DfsGetReferralsEx
  | IO_FileLevelTrim _ => Some FC_FileLevelTrim
  | IO_QueryAllocatedRanges _ => Some FC_QueryAllocatedRanges
  | IO_OffloadRead _ => Some FC_OffloadRead
  | IO_Ioctl _ => None
  end.

(** ** Layouts *)

Definition write_chunk (c : SrvCopychunkItem) : bin unit :=
  _ ← put 8 (ch_source_offset c); _ ← put 8 (ch_target_offset c); _ ← put 4 (ch_length c); put 4 0.
Definition read_chunk : bin SrvCopychunkItem :=
  source ← get 8; target ← get 8; length ← get 4; _ ← get 4; mret (mkChunk source target length).

Definition srv_key_length : nat := 24.

Definition write_copychunk (c : SrvCopychunkCopy) : bin unit :=
  _ ← write_all (cc_source_key c); _ ← put_count 4 (cc_chunks c); _ ← put 4 0; write_list write_chunk (cc_chunks c).
Definition read_copychunk : bin SrvCopychunkCopy :=
  key ← read_exact srv_key_length;
  chunk_count ← get 4;
  _ ← get 4;
  chunks ← read_count (Z.to_nat chunk_count) read_chunk;
  mret (mkCopychunk key chunks).

Definition hash_version_ok (v : Z) : bool := (1 <=? v) && (v <=? 2).

Definition write_read_hash (r : SrvReadHashReq) : bin unit :=
  _ ← put 4 1;
  _ ← bin_assert (hash_version_ok (rh_hash_version r));
  _ ← put 4 (rh_hash_version r);
  put_repr 4 (rh_hash_retrieval_type r).
Definition read_read_hash : bin SrvReadHashReq :=
  _ ← get_const 4 1;
  version ← get 4;
  _ ← bin_assert (hash_version_ok version);
  kind ← get_repr 4;
  mret (mkReadHash version kind).

Definition write_resiliency (timeout : Z) : bin unit := _ ← put 4 timeout; put 4 0.
Definition read_resiliency : bin Z := timeout ← get 4; _ ← get 4; mret timeout.

Definition write_validate (v : ValidateNegotiateInfoRequest) : bin unit :=
  _ ← put 4 (va_capabilities v);
  _ ← write_guid (va_guid v);
  _ ← put 2 (va_security_mode v);
  write_codes (va_dialects v).
Definition read_validate : bin ValidateNegotiateInfoRequest :=
  capabilities ← get 4;
  guid ← read_guid;
  security_mode ← get 2;
  dialects ← read_codes;
  mret (mkValidate capabilities guid security_mode dialects).

Definition write_referral (r : ReqGetDfsReferral) : bin unit :=
  _ ← put_repr 2 (rf_max_referral_level r); write_null 2 (rf_request_file_name r).
Definition read_referral : bin ReqGetDfsReferral :=
  level ← get_repr 2; name ← read_null 2; mret (mkReferral level name).

(** [name.size() as u32] *)
Definition write_pipe_wait (p : PipeWaitRequest) : bin unit :=
  _ ← put 8 (pw_timeout p);
  _ ← put 4 (wide_size (pw_name p) mod 2 ^ 32);
  _ ← write_boolean (pw_timeout_specified p);
  _ ← put 1 0;
  write_sized_wide (pw_name p).
Definition read_pipe_wait : bin PipeWaitRequest :=
  timeout ← get 8;
  name_length ← get 4;
  timeout_specified ← read_boolean;
  _ ← get 1;
  name ← read_sized_wide name_length;
  mret (mkPipeWait timeout timeout_specified name).

(** A tag of a third party's has no high bit, and a GUID. *)
Definition has_reparse_guid (tag : Z) : bool := bool_decide (Z.land tag 0x80000000 = 0).

Definition write_reparse (r : SetReparsePointRequest) : bin unit :=
  _ ← bin_assert (eqb (has_reparse_guid (rp_reparse_tag r)) (bool_decide (is_Some (rp_reparse_guid r))));
  _ ← put 4 (rp_reparse_tag r);
  _ ← put 4 (zlen (rp_reparse_data r) mod 2 ^ 32);
  _ ← put_opt write_guid (rp_reparse_guid r);
  write_all (rp_reparse_data r).
Definition read_reparse : bin SetReparsePointRequest :=
  tag ← get 4;
  length ← get 4;
  guid ← get_if (has_reparse_guid tag) read_guid;
  data ← read_exact (Z.to_nat length);
  mret (mkReparse tag guid data).

Definition write_dfs_data (d : DfsRequestData) : bin unit :=
  _ ← put_wide_size 2 (dd_request_file_name d);
  _ ← write_sized_wide (dd_request_file_name d);
  _ ← put_wide_size 2 (dd_site_name d);
  write_sized_wide (dd_site_name d).
Definition read_dfs_data : bin DfsRequestData :=
  name_length ← get 2;
  name ← read_sized_wide name_length;
  site_length ← get 2;
  site ← read_sized_wide site_length;
  mret (mkDfsData name site).

Definition write_referral_ex (r : ReqGetDfsReferralEx) : bin unit :=
  _ ← put 2 (rx_max_referral_level r);
  _ ← put 2 (rx_request_flags r);
  request_data_length ← put_marker 4;
  write_size (write_dfs_data (rx_request_data r)) request_data_length.
Definition read_referral_ex : bin ReqGetDfsReferralEx :=
  level ← get 2;
  flags ← get 2;
  request_data_length ← get_marker 4;
  data ← take_seek (Z.to_nat request_data_length.2) read_dfs_data;
  mret (mkReferralEx level flags data).

Definition write_trim_range (r : FileLevelTrimRange) : bin unit := _ ← put 8 (tr_offset r); put 8 (tr_length r).
Definition read_trim_range : bin FileLevelTrimRange := o ← get 8; l ← get 8; mret (mkTrimRange o l).

(** [ranges.len() as u32] *)
Definition write_trim (ranges : list FileLevelTrimRange) : bin unit :=
  _ ← put 4 0; _ ← put 4 (zlen ranges mod 2 ^ 32); write_list write_trim_range ranges.
Definition read_trim : bin (list FileLevelTrimRange) :=
  _ ← get 4; num_ranges ← get 4; read_count (Z.to_nat num_ranges) read_trim_range.

Definition write_alloc_range (r : QueryAllocRangesItem) : bin unit := _ ← put 8 (ar_offset r); put 8 (ar_len r).
Definition read_alloc_range : bin QueryAllocRangesItem := o ← get 8; l ← get 8; mret (mkAllocRange o l).

Definition write_offload (r : OffloadReadRequest) : bin unit :=
  _ ← put 4 0x20;
  _ ← put 4 (of_flags r);
  _ ← put 4 (of_token_time_to_live r);
  _ ← put 4 0;
  _ ← put 8 (of_file_offset r);
  put 8 (of_copy_length r).
Definition read_offload : bin OffloadReadRequest :=
  _ ← get_const 4 0x20;
  flags ← get 4;
  ttl ← get 4;
  _ ← get 4;
  offset ← get 8;
  length ← get 8;
  mret (mkOffload flags ttl offset length).

Definition write_ioctl_data (d : IoctlReqData) : bin unit :=
  match d with
  | IO_PipePeek | IO_SrvEnumerateSnapshots | IO_SrvRequestResumeKey | IO_QueryNetworkInterfaceInfo => mret tt
  | IO_SrvCopychunk c | IO_SrvCopychunkWrite c => write_copychunk c
  | IO_SrvReadHash r => write_read_hash r
  | IO_LmrRequestResiliency timeout => write_resiliency timeout
  | IO_ValidateNegotiateInfo v => write_validate v
  | IO_DfsGetReferrals r => write_referral r
  | IO_PipeWait p => write_pipe_wait p
  | IO_PipeTransceive buffer => write_all buffer
  | IO_SetReparsePoint r => write_reparse r
  | IO_DfsGetReferralsEx r => write_referral_ex r
  | IO_FileLevelTrim ranges => write_trim ranges
  | IO_QueryAllocatedRanges r => write_alloc_range r
  | IO_OffloadRead r => write_offload r
  | IO_Ioctl buffer => write_all buffer
  end.

(** The reader of a control's payload. *)
Definition read_fsctl (c : FsctlCodes) : bin IoctlReqData :=
  match c with
  | FC_PipePeek => mret IO_PipePeek
  | FC_SrvEnumerateSnapshots => mret IO_SrvEnumerateSnapshots
  | FC_SrvRequestResumeKey => mret IO_SrvRequestResumeKey
  | FC_QueryNetworkInterfaceInfo => mret IO_QueryNetworkInterfaceInfo
  | FC_SrvCopychunk => c ← read_copychunk; mret (IO_SrvCopychunk c)
  | FC_SrvCopychunkWrite => c ← read_copychunk; mret (IO_SrvCopychunkWrite c)
  | FC_SrvReadHash => r ← read_read_hash; mret (IO_SrvReadHash r)
  | FC_LmrRequestResiliency => t ← read_resiliency; mret (IO_LmrRequestResiliency t)
  | FC_ValidateNegotiateInfo => v ← read_validate; mret (IO_ValidateNegotiateInfo v)
  | FC_DfsGetReferrals => r ← read_referral; mret (IO_DfsGetReferrals r)
  | FC_PipeWait => p ← read_pipe_wait; mret (IO_PipeWait p)
  | FC_PipeTransceive => b ← bytes_until_eof; mret (IO_PipeTransceive b)
  | FC_SetReparsePoint => r ← read_reparse; mret (IO_SetReparsePoint r)
  | FC_DfsGetReferralsEx => r ← read_referral_ex; mret (IO_DfsGetReferralsEx r)
  | FC_FileLevelTrim => l ← read_trim; mret (IO_FileLevelTrim l)
  | FC_QueryAllocatedRanges => r ← read_alloc_range; mret (IO_QueryAllocatedRanges r)
  | FC_OffloadRead => r ← read_offload; mret (IO_OffloadRead r)
  end.

Definition fsctl_order : list FsctlCodes :=
  [FC_PipePeek; FC_SrvEnumerateSnapshots; FC_SrvRequestResumeKey; FC_QueryNetworkInterfaceInfo; FC_SrvCopychunk;
   FC_SrvCopychunkWrite; FC_SrvReadHash; FC_LmrRequestResiliency; FC_ValidateNegotiateInfo; FC_DfsGetReferrals; FC_PipeWait;
   FC_PipeTransceive; FC_SetReparsePoint; FC_DfsGetReferralsEx; FC_FileLevelTrim; FC_QueryAllocatedRanges; FC_OffloadRead].

Definition is_fsctl (flags : Z) : bool := Z.testbit flags 0.

(** The variants whose assertion holds, in order, and then a raw buffer. *)
Definition read_ioctl_data (ctl_code flags : Z) : bin IoctlReqData :=
  read_variants
    ((read_fsctl <$> filter (fun c => ctl_code = fsctl_code c /\ is_fsctl flags = true) fsctl_order) ++
     [b ← bytes_until_eof; mret (IO_Ioctl b)]).

(** ** Sizes

    [get_bin_size] of each payload, [as u32]. *)

Definition get_size (d : IoctlReqData) : Z :=
  let size :=
    match d with
    | IO_PipePeek | IO_SrvEnumerateSnapshots | IO_SrvRequestResumeKey | IO_QueryNetworkInterfaceInfo => 0
    | IO_SrvCopychunk c | IO_SrvCopychunkWrite c => (24 + 4 + 4) + zlen (cc_chunks c) * 24
    | IO_SrvReadHash _ => 4 * 3
    | IO_LmrRequestResiliency _ => 4 * 2
    | IO_ValidateNegotiateInfo v => 4 + 16 + 2 + 2 + zlen (va_dialects v) * 2
    | IO_DfsGetReferrals r => 2 + (zlen (rf_request_file_name r) + 1) * 2
    | IO_PipeWait p => 8 + 4 + 1 + 1 + wide_size (pw_name p)
    | IO_PipeTransceive buffer => zlen buffer
    | IO_SetReparsePoint r => 4 + 4 + (if rp_reparse_guid r then 16 else 0) + zlen (rp_reparse_data r)
    | IO_DfsGetReferralsEx r =>
        2 * 2 + 4 + (2 * 2 + zlen (dd_request_file_name (rx_request_data r)) * 2 + zlen (dd_site_name (rx_request_data r)) * 2)
    | IO_FileLevelTrim ranges => 4 + 4 + zlen ranges * 16
    | IO_QueryAllocatedRanges _ => 8 * 2
    | IO_OffloadRead _ => 4 * 4 + 8 * 2
    | IO_Ioctl buffer => zlen buffer
    end in
  size mod 2 ^ 32.

(** ** Responses *)

(** The response types: those that [ioctl_req_data!] pairs with each request, and the second one that a hash request can be
    answered with, which no request is paired with. *)
Inductive FsctlResponseType :=
| RS_PipePeekResponse | RS_SrvEnumerateSnapshotsResponse | RS_SrvRequestResumeKey | RS_NetworkInterfacesInfo
| RS_SrvCopychunkResponse | RS_SrvReadHashRes | RS_LmrRequestResiliencyResponse | RS_ValidateNegotiateInfoResponse
| RS_RespGetDfsReferral | RS_PipeWaitResponse | RS_PipeTransceiveResponse | RS_SetReparsePointResponse
| RS_FileLevelTrimResponse | RS_QueryAllocRangesResult | RS_OffloadReadResponse | RS_SrvHashRetrieveHashBased.

(** [FsctlRequest::Response] *)
Definition response_of (c : FsctlCodes) : FsctlResponseType :=
  match c with
  | FC_PipePeek => RS_PipePeekResponse
  | FC_SrvEnumerateSnapshots => RS_SrvEnumerateSnapshotsResponse
  | FC_SrvRequestResumeKey => RS_SrvRequestResumeKey
  | FC_QueryNetworkInterfaceInfo => RS_NetworkInterfacesInfo
  | FC_SrvCopychunk | FC_SrvCopychunkWrite => RS_SrvCopychunkResponse
  | FC_SrvReadHash => RS_SrvReadHashRes
  | FC_LmrRequestResiliency => RS_LmrRequestResiliencyResponse
  | FC_ValidateNegotiateInfo => RS_ValidateNegotiateInfoResponse
  | FC_DfsGetReferrals | FC_DfsGetReferralsEx => RS_RespGetDfsReferral
  | FC_PipeWait => RS_PipeWaitResponse
  | FC_PipeTransceive => RS_PipeTransceiveResponse
  | FC_SetReparsePoint => RS_SetReparsePointResponse
  | FC_FileLevelTrim => RS_FileLevelTrimResponse
  | FC_QueryAllocatedRanges => RS_QueryAllocRangesResult
  | FC_OffloadRead => RS_OffloadReadResponse
  end.

(** [FsctlResponseContent::FSCTL_CODES] *)
Definition response_codes (t : FsctlResponseType) : list FsctlCodes :=
  match t with
  | RS_PipePeekResponse => [FC_PipePeek]
  | RS_SrvEnumerateSnapshotsResponse => [FC_SrvEnumerateSnapshots]
  | RS_SrvRequestResumeKey => [FC_SrvRequestResumeKey]
  | RS_NetworkInterfacesInfo => [FC_QueryNetworkInterfaceInfo]
  | RS_SrvCopychunkResponse => [FC_SrvCopychunk]
  | RS_SrvReadHashRes => [FC_SrvReadHash]
  | RS_LmrRequestResiliencyResponse => [FC_LmrRequestResiliency]
  | RS_ValidateNegotiateInfoResponse => [FC_ValidateNegotiateInfo]
  | RS_RespGetDfsReferral => [FC_DfsGetReferrals; FC_DfsGetReferralsEx]
  | RS_PipeWaitResponse => [FC_PipeWait]
  | RS_PipeTransceiveResponse => [FC_PipeTransceive]
  | RS_SetReparsePointResponse => [FC_SetReparsePoint]
  | RS_FileLevelTrimResponse => [FC_FileLevelTrim]
  | RS_QueryAllocRangesResult => [FC_QueryAllocatedRanges]
  | RS_OffloadReadResponse => [FC_OffloadRead]
  | RS_SrvHashRetrieveHashBased => [FC_SrvReadHash]
  end.

Inductive FsctlError := FE_MissingFsctlDefinition (ctl_code : Z) | FE_Bin (e : BinError).

(** [IoctlResponse::parse_fsctl], over the reader of the response type. *)
Definition parse_fsctl {T} (codes : list FsctlCodes) (read_response : bin T) (ctl_code : Z) (out_buffer : bytes)
    : option (result FsctlError T) :=
  if existsb (fun f => bool_decide (fsctl_code f = ctl_code)) codes then
    match read_response (mkStream out_buffer O) with
    | None => None
    | Some (_, Ok t) => Some (Ok t)
    | Some (_, Err e) => Some (Err (FE_Bin e))
    end
  else Some (Err (FE_MissingFsctlDefinition ctl_code)).

(** The payloads of IOCTL requests: each is read back from what it is written as, and takes as many
    bytes as its size says. *)

#[export] Instance SrvHashRetrievalType_laws : ReprLaws SrvHashRetrievalType. Proof. by intros []. Qed.
#[export] Instance ReferralLevel_laws : ReprLaws ReferralLevel. Proof. by intros []. Qed.
#[export] Instance ReferralLevel_short : ShortCodes ReferralLevel. Proof. by intros []. Qed.

(** ** What fits *)

Definition chunk_ok (c : SrvCopychunkItem) : Prop :=
  in_range u64_max (ch_source_offset c) /\ in_range u64_max (ch_target_offset c) /\ in_range u32_max (ch_length c).

Definition copychunk_ok (c : SrvCopychunkCopy) : Prop :=
  length (cc_source_key c) = srv_key_length /\ zlen (cc_chunks c) <= u32_max /\ Forall chunk_ok (cc_chunks c).

(** A name of units, whose size fits; a name that is read back is also not empty, since an empty one is refused. *)
Definition name_fits (max : Z) (s : list Z) : Prop := Forall (in_range u16_max) s /\ wide_size s <= max.
Definition name_ok (max : Z) (s : list Z) : Prop := Forall (in_range u16_max) s /\ s <> [] /\ wide_size s <= max.

Lemma name_fits_ok max s : name_fits max s -> bool_decide (s = []) = false -> name_ok max s.
Proof. intros [H1 H2] H%bool_decide_eq_false. done. Qed.

Definition trim_range_ok (r : FileLevelTrimRange) : Prop := in_range u64_max (tr_offset r) /\ in_range u64_max (tr_length r).

Definition ioctl_data_ok (d : IoctlReqData) : Prop :=
  match d with
  | IO_SrvCopychunk c | IO_SrvCopychunkWrite c => copychunk_ok c
  | IO_SrvReadHash r => 1 <= rh_hash_version r <= 2
  | IO_LmrRequestResiliency t => in_range u32_max t
  | IO_ValidateNegotiateInfo v =>
      in_range u32_max (va_capabilities v) /\ guid_ok (va_guid v) /\ in_range u16_max (va_security_mode v) /\
      2 + 2 * zlen (va_dialects v) <= u16_max
  | IO_DfsGetReferrals r => Forall (fun v => 1 <= v <= u16_max) (rf_request_file_name r)
  | IO_PipeWait p => in_range u64_max (pw_timeout p) /\ name_ok u32_max (pw_name p)
  | IO_SetReparsePoint r =>
      in_range u32_max (rp_reparse_tag r) /\ zlen (rp_reparse_data r) <= u32_max /\
      from_option guid_ok True (rp_reparse_guid r) /\ (has_reparse_guid (rp_reparse_tag r) = bool_decide (is_Some (rp_reparse_guid r)))
  | IO_DfsGetReferralsEx r =>
      in_range u16_max (rx_max_referral_level r) /\ in_range u16_max (rx_request_flags r) /\
      name_ok u16_max (dd_request_file_name (rx_request_data r)) /\ name_ok u16_max (dd_site_name (rx_request_data r))
  | IO_FileLevelTrim ranges => zlen ranges <= u32_max /\ Forall trim_range_ok ranges
  | IO_QueryAllocatedRanges r => in_range u64_max (ar_offset r) /\ in_range u64_max (ar_len r)
  | IO_OffloadRead r =>
      in_range u32_max (of_flags r) /\ in_range u32_max (of_token_time_to_live r) /\ in_range u64_max (of_file_offset r) /\
      in_range u64_max (of_copy_length r)
  | _ => True
  end.

(** What fits its fields, with names that may be empty. *)
Definition ioctl_data_fits (d : IoctlReqData) : Prop :=
  match d with
  | IO_PipeWait p => in_range u64_max (pw_timeout p) /\ name_fits u32_max (pw_name p)
  | IO_DfsGetReferralsEx r =>
      in_range u16_max (rx_max_referral_level r) /\ in_range u16_max (rx_request_flags r) /\
      name_fits u16_max (dd_request_file_name (rx_request_data r)) /\ name_fits u16_max (dd_site_name (rx_request_data r))
  | _ => ioctl_data_ok d
  end.

Definition unreadable_ioctl (d : IoctlReqData) : bool :=
  match d with
  | IO_PipeWait p => bool_decide (pw_name p = [])
  | IO_DfsGetReferralsEx r =>
      bool_decide (dd_request_file_name (rx_request_data r) = []) || bool_decide (dd_site_name (rx_request_data r) = [])
  | _ => false
  end.

Lemma ioctl_fits_ok d : ioctl_data_fits d -> unreadable_ioctl d = false -> ioctl_data_ok d.
Proof.
  destruct d; cbn [ioctl_data_fits unreadable_ioctl]; try done.
  - intros [H1 H2] H3. split; [done|by apply name_fits_ok].
  - intros (H1 & H2 & H3 & H4) [H5 H6]%orb_false_iff. split_and!; [done..|by apply name_fits_ok|by apply name_fits_ok].
Qed.

(** ** Payloads *)

Lemma units_fit s : Forall (in_range u16_max) s -> Forall (fun v => 0 <= v < 256 ^ Z.of_nat 2) s.
Proof. intros H. eapply Forall_impl; [exact H|]. intros v Hv. cbn. ints. Qed.

Lemma chunk_law n c : chunk_ok c -> exists x, writes n (write_chunk c) x /\ reads n read_chunk x c /\ zlen x = 24.
Proof.
  intros (H1 & H2 & H3). destruct c as [s t l]. cbn in H1, H2, H3.
  exists (concat [le_bytes 8 s; le_bytes 8 t; le_bytes 4 l; le_bytes 4 0]). split_and!.
  - unfold write_chunk. emit.
  - unfold read_chunk. do 4 take_step. apply reads_ret.
  - len.
Qed.

Lemma trim_range_law n r :
  trim_range_ok r -> exists x, writes n (write_trim_range r) x /\ reads n read_trim_range x r /\ zlen x = 16.
Proof.
  intros (H1 & H2). destruct r as [o l]. cbn in H1, H2. exists (concat [le_bytes 8 o; le_bytes 8 l]). split_and!.
  - unfold write_trim_range. emit.
  - unfold read_trim_range. do 2 take_step. apply reads_ret.
  - len.
Qed.

(** A list of structures of one size. *)
Lemma fixed_list_law {A} (w : A -> bin unit) (r : bin A) (fits : A -> Prop) (size : Z) :
  (forall n a, fits a -> exists x, writes n (w a) x /\ reads n r x a /\ zlen x = size) ->
  forall l n, Forall fits l ->
  exists x, writes n (write_list w l) x /\ reads n (read_count (length l) r) x l /\ zlen x = zlen l * size.
Proof.
  intros Hlaw l. induction l as [|a l IH]; intros n Hl.
  - exists []. split_and!; [apply writes_ret|apply reads_ret|done].
  - apply Forall_cons in Hl as [Ha Hl]. destruct (Hlaw n a Ha) as (x & Hx1 & Hx2 & Hx3).
    destruct (IH (n + length x)%nat Hl) as (y & Hy1 & Hy2 & Hy3). exists (x ++ y). split_and!.
    + cbn [write_list]. by eapply writes_bind.
    + cbn [read_count length]. eapply reads_bind; [done|]. by apply (reads_map _ _ (cons a)).
    + unfold zlen in *. cbn [length]. rewrite length_app. lia.
Qed.

Lemma copychunk_law n c :
  copychunk_ok c ->
  exists x, writes n (write_copychunk c) x /\ reads n read_copychunk x c /\ zlen x = 24 + 4 + 4 + zlen (cc_chunks c) * 24.
Proof.
  intros (H1 & H2 & H3). destruct c as [key chunks]. unfold srv_key_length in *. cbn [cc_source_key cc_chunks] in *.
  destruct (fixed_list_law _ _ _ _ chunk_law chunks (n + 32) H3) as (y & Hw & Hr & Hy).
  pose proof (writes_count (n + 24) 4 chunks ltac:(unfold zlen in *; cbn; ints)) as Hc. pose proof (writes_all n key) as Hk.
  exists (concat [key; le_bytes 4 (zlen chunks); le_bytes 4 0; y]). split_and!.
  - unfold write_copychunk. cbn [cc_source_key cc_chunks]. emit.
  - unfold read_copychunk, srv_key_length. rewrite <- H1. eapply reads_segs; [apply reads_exact|]. do 2 take_step.
    rewrite zlen_nat. take_step. apply reads_ret.
  - len.
Qed.

Lemma read_hash_law n r :
  1 <= rh_hash_version r <= 2 -> exists x, writes n (write_read_hash r) x /\ reads n read_read_hash x r /\ zlen x = 12.
Proof.
  intros H. destruct r as [v k]. cbn [rh_hash_version] in H.
  assert (Hv : hash_version_ok v = true) by (unfold hash_version_ok; apply andb_true_iff; split; lia).
  exists (concat [le_bytes 4 1; le_bytes 4 v; le_bytes 4 (repr_code k)]). split_and!.
  - unfold write_read_hash. cbn [rh_hash_version rh_hash_retrieval_type]. rewrite Hv. emit.
  - unfold read_read_hash. do 2 take_step. rewrite Hv. take_step. eapply reads_segs; [apply reads_repr; by destruct k|].
    apply reads_ret.
  - len.
Qed.

Lemma resiliency_law n t :
  in_range u32_max t -> exists x, writes n (write_resiliency t) x /\ reads n read_resiliency x t /\ zlen x = 8.
Proof.
  intros H. exists (concat [le_bytes 4 t; le_bytes 4 0]). split_and!.
  - unfold write_resiliency. emit.
  - unfold read_resiliency. do 2 take_step. apply reads_ret.
  - len.
Qed.

Lemma validate_law n v :
  ioctl_data_ok (IO_ValidateNegotiateInfo v) ->
  exists x, writes n (write_validate v) x /\ reads n read_validate x v /\ zlen x = 4 + 16 + 2 + 2 + zlen (va_dialects v) * 2.
Proof.
  intros (H1 & H2 & H3 & H4). destruct v as [caps guid mode ds]. cbn [va_capabilities va_guid va_security_mode va_dialects] in *.
  destruct (guid_law (n + 4) guid H2) as (g & Hgw & Hgr & Hgl). destruct (codes_law (n + 22) ds H4) as (y & Hw & Hr & Hy).
  exists (concat [le_bytes 4 caps; g; le_bytes 2 mode; y]). split_and!.
  - unfold write_validate. cbn [va_capabilities va_guid va_security_mode va_dialects]. emit.
  - unfold read_validate. do 4 take_step. apply reads_ret.
  - len.
Qed.

Lemma referral_law n r :
  ioctl_data_ok (IO_DfsGetReferrals r) ->
  exists x, writes n (write_referral r) x /\ reads n read_referral x r /\ zlen x = 2 + (zlen (rf_request_file_name r) + 1) * 2.
Proof.
  intros H. destruct r as [l s]. cbn [ioctl_data_ok rf_request_file_name rf_max_referral_level] in *.
  destruct (null_law (n + 2) 2 s) as (y & Hw & Hr & Hy); [done|eapply Forall_impl; [exact H|]; intros v Hv; cbn; ints|].
  exists (concat [le_bytes 2 (repr_code l); y]). split_and!.
  - unfold write_referral. emit.
  - unfold read_referral. eapply reads_segs; [apply reads_repr, short_codes|]. cbv beta. take_step. apply reads_ret.
  - len.
Qed.

Lemma pipe_wait_law n p :
  ioctl_data_ok (IO_PipeWait p) ->
  exists x, writes n (write_pipe_wait p) x /\ reads n read_pipe_wait x p /\ zlen x = 8 + 4 + 1 + 1 + wide_size (pw_name p).
Proof.
  intros (H1 & H2 & H3 & H4). destruct p as [t b s]. cbn [pw_timeout pw_timeout_specified pw_name] in *.
  destruct (wide_law (n + 14) s (units_fit s H2) H3) as (y & Hw & Hr & Hy).
  assert (Hm : wide_size s mod 2 ^ 32 = wide_size s) by (apply Z.mod_small; unfold wide_size, zlen in *; ints).
  pose proof (wide_size_nonneg s) as Hs.
  exists (concat [le_bytes 8 t; le_bytes 4 (wide_size s); le_bytes 1 (if b then 1 else 0); le_bytes 1 0; y]). split_and!.
  - unfold write_pipe_wait, write_boolean. cbn [pw_timeout pw_timeout_specified pw_name]. rewrite Hm. emit.
  - unfold read_pipe_wait. do 5 take_step. apply reads_ret.
  - len.
Qed.

Lemma reparse_law n r :
  ioctl_data_ok (IO_SetReparsePoint r) ->
  exists x, writes n (write_reparse r) x /\ reads n read_reparse x r /\
    zlen x = 4 + 4 + (if rp_reparse_guid r then 16 else 0) + zlen (rp_reparse_data r).
Proof.
  intros (H1 & H2 & H3 & H4). destruct r as [tag guid data]. cbn [rp_reparse_tag rp_reparse_guid rp_reparse_data] in *.
  assert (Hm : zlen data mod 2 ^ 32 = zlen data) by (apply Z.mod_small; unfold zlen in *; ints).
  assert (exists y, writes (n + 8) (put_opt write_guid guid) y /\
    reads (n + 8) (get_if (has_reparse_guid tag) read_guid) y guid /\ zlen y = if guid then 16 else 0) as (y & Hw & Hr & Hy).
  { destruct guid as [g|]; cbn [from_option put_opt] in *.
    - destruct (guid_law (n + 8) g H3) as (y & Hw & Hr & Hy). exists y. split_and!; [done| |done]. by apply reads_get_if.
    - exists []. split_and!; [apply writes_ret| |done]. by apply (reads_get_if _ _ _ [] None). }
  exists (concat [le_bytes 4 tag; le_bytes 4 (zlen data); y; data]). split_and!.
  - unfold write_reparse. cbn [rp_reparse_tag rp_reparse_guid rp_reparse_data]. rewrite Hm, <- H4, eqb_reflx. emit.
  - unfold read_reparse. do 2 take_step. rewrite zlen_nat. take_step. eapply reads_segs; [apply reads_exact|]. apply reads_ret.
  - len.
Qed.

Lemma dfs_data_law n d :
  name_ok u16_max (dd_request_file_name d) -> name_ok u16_max (dd_site_name d) ->
  exists x, writes n (write_dfs_data d) x /\ reads n read_dfs_data x d /\
    zlen x = 2 * 2 + zlen (dd_request_file_name d) * 2 + zlen (dd_site_name d) * 2.
Proof.
  intros (H1 & H2 & H3) (H4 & H5 & H6). destruct d as [s t]. cbn [dd_request_file_name dd_site_name] in *.
  destruct (wide_law (n + 2) s (units_fit s H1) H2) as (y & Hw & Hr & Hy).
  destruct (wide_law (n + 4 + length y) t (units_fit t H4) H5) as (z & Hw' & Hr' & Hz).
  pose proof (writes_wide_size n 2 s ltac:(cbn; ints)) as Hc. pose proof (writes_wide_size (n + 2 + length y) 2 t ltac:(cbn; ints)) as Hc'.
  pose proof (wide_size_nonneg s) as Hs. pose proof (wide_size_nonneg t) as Ht.
  exists (concat [le_bytes 2 (wide_size s); y; le_bytes 2 (wide_size t); z]). split_and!.
  - unfold write_dfs_data. cbn [dd_request_file_name dd_site_name]. emit.
  - unfold read_dfs_data. do 4 take_step. apply reads_ret.
  - unfold wide_size in *. len.
Qed.

Lemma referral_ex_law n r :
  ioctl_data_ok (IO_DfsGetReferralsEx r) ->
  exists x, writes n (write_referral_ex r) x /\ reads n read_referral_ex x r /\
    zlen x = 2 * 2 + 4 + (2 * 2 + zlen (dd_request_file_name (rx_request_data r)) * 2 + zlen (dd_site_name (rx_request_data r)) * 2).
Proof.
  intros (H1 & H2 & H3 & H4). destruct r as [l f d]. cbn [rx_max_referral_level rx_request_flags rx_request_data] in *.
  destruct (dfs_data_law (n + 8) d H3 H4) as (y & Hw & Hr & Hy).
  pose proof (proj2 (proj2 H3)) as H5. pose proof (proj2 (proj2 H4)) as H6. unfold wide_size in H5, H6.
  exists (concat [le_bytes 2 l; le_bytes 2 f; le_bytes 4 (zlen y); y]). split_and!.
  - unfold write_referral_ex. cbn [rx_max_referral_level rx_request_flags rx_request_data]. emit.
  - unfold read_referral_ex. do 3 take_step. cbn [snd]. rewrite zlen_nat.
    eapply reads_segs; [apply reads_take_seek; [apply reads_reads_to; eapply reads_at; [|exact Hr]; len|done]|]. apply reads_ret.
  - len.
Qed.

Lemma trim_law n l :
  ioctl_data_ok (IO_FileLevelTrim l) ->
  exists x, writes n (write_trim l) x /\ reads n read_trim x l /\ zlen x = 4 + 4 + zlen l * 16.
Proof.
  intros (H1 & H2). destruct (fixed_list_law _ _ _ _ trim_range_law l (n + 8) H2) as (y & Hw & Hr & Hy).
  assert (Hm : zlen l mod 2 ^ 32 = zlen l) by (apply Z.mod_small; unfold zlen in *; ints).
  exists (concat [le_bytes 4 0; le_bytes 4 (zlen l); y]). split_and!.
  - unfold write_trim. rewrite Hm. emit.
  - unfold read_trim. do 2 take_step. rewrite zlen_nat. cbn [concat]. rewrite app_nil_r. eapply reads_at; [|exact Hr]. len.
  - len.
Qed.

Lemma alloc_range_law n r :
  ioctl_data_ok (IO_QueryAllocatedRanges r) ->
  exists x, writes n (write_alloc_range r) x /\ reads n read_alloc_range x r /\ zlen x = 8 * 2.
Proof.
  intros (H1 & H2). destruct r as [o l]. cbn in H1, H2. exists (concat [le_bytes 8 o; le_bytes 8 l]). split_and!.
  - unfold write_alloc_range. emit.
  - unfold read_alloc_range. do 2 take_step. apply reads_ret.
  - len.
Qed.

Lemma offload_law n r :
  ioctl_data_ok (IO_OffloadRead r) ->
  exists x, writes n (write_offload r) x /\ reads n read_offload x r /\ zlen x = 4 * 4 + 8 * 2.
Proof.
  intros (H1 & H2 & H3 & H4). destruct r as [f t o l]. cbn in H1, H2, H3, H4.
  exists (concat [le_bytes 4 0x20; le_bytes 4 f; le_bytes 4 t; le_bytes 4 0; le_bytes 8 o; le_bytes 8 l]). split_and!.
  - unfold write_offload. emit.
  - unfold read_offload. do 6 take_step. apply reads_ret.
  - len.
Qed.

(** ** All payloads *)

(** What holds of a payload [d] with the control [c]. *)
Definition fsctl_law (n : nat) (d : IoctlReqData) (size : Z) : Prop :=
  exists x, writes n (write_ioctl_data d) x /\ (forall c, fsctl_of d = Some c -> reads_to n (read_fsctl c) x d) /\ zlen x = size.

Lemma fsctl_payload {A} n d c (r : bin A) (f : A -> IoctlReqData) (a : A) size :
  fsctl_of d = Some c -> d = f a -> read_fsctl c = (v ← r; mret (f v)) ->
  (exists x, writes n (write_ioctl_data d) x /\ reads n r x a /\ zlen x = size) -> fsctl_law n d size.
Proof.
  intros Hc -> Hr (x & H1 & H2 & H3). exists x. split_and!; [done| |done].
  intros c' Hc'. assert (c' = c) as -> by congruence. rewrite Hr. by apply reads_reads_to, reads_map.
Qed.

Lemma fsctl_empty n d c :
  fsctl_of d = Some c -> write_ioctl_data d = mret tt -> read_fsctl c = mret d -> fsctl_law n d 0.
Proof.
  intros Hc Hw Hr. exists []. rewrite Hw. split_and!; [apply writes_ret| |done].
  intros c' Hc'. assert (c' = c) as -> by congruence. rewrite Hr. apply reads_reads_to, reads_ret.
Qed.

Definition ioctl_data_size (d : IoctlReqData) : Z :=
  match d with
  | IO_PipePeek | IO_SrvEnumerateSnapshots | IO_SrvRequestResumeKey | IO_QueryNetworkInterfaceInfo => 0
  | IO_SrvCopychunk c | IO_SrvCopychunkWrite c => 24 + 4 + 4 + zlen (cc_chunks c) * 24
  | IO_SrvReadHash _ => 4 * 3
  | IO_LmrRequestResiliency _ => 4 * 2
  | IO_ValidateNegotiateInfo v => 4 + 16 + 2 + 2 + zlen (va_dialects v) * 2
  | IO_DfsGetReferrals r => 2 + (zlen (rf_request_file_name r) + 1) * 2
  | IO_PipeWait p => 8 + 4 + 1 + 1 + wide_size (pw_name p)
  | IO_PipeTransceive buffer => zlen buffer
  | IO_SetReparsePoint r => 4 + 4 + (if rp_reparse_guid r then 16 else 0) + zlen (rp_reparse_data r)
  | IO_DfsGetReferralsEx r =>
      2 * 2 + 4 + (2 * 2 + zlen (dd_request_file_name (rx_request_data r)) * 2 + zlen (dd_site_name (rx_request_data r)) * 2)
  | IO_FileLevelTrim ranges => 4 + 4 + zlen ranges * 16
  | IO_QueryAllocatedRanges _ => 8 * 2
  | IO_OffloadRead _ => 4 * 4 + 8 * 2
  | IO_Ioctl buffer => zlen buffer
  end.

Lemma get_size_eq d : get_size d = ioctl_data_size d mod 2 ^ 32.
Proof. by destruct d. Qed.

Lemma ioctl_data_law n d : ioctl_data_ok d -> fsctl_law n d (ioctl_data_size d).
Proof.
  intros H. destruct d as [| | | |c|c|r|t|v|r|p|b|r|r|l|r|r|b]; cbn [ioctl_data_size].
  1-4: by eapply fsctl_empty.
  - eapply fsctl_payload; [reflexivity..|]. by apply copychunk_law.
  - eapply fsctl_payload; [reflexivity..|]. by apply copychunk_law.
  - eapply fsctl_payload; [reflexivity..|]. by apply read_hash_law.
  - eapply fsctl_payload; [reflexivity..|]. by apply resiliency_law.
  - eapply fsctl_payload; [reflexivity..|]. by apply validate_law.
  - eapply fsctl_payload; [reflexivity..|]. by apply referral_law.
  - eapply fsctl_payload; [reflexivity..|]. by apply pipe_wait_law.
  - exists b. split_and!; [apply writes_all| |done]. intros c [= <-]. apply reads_to_map, reads_until_eof.
  - eapply fsctl_payload; [reflexivity..|]. by apply reparse_law.
  - eapply fsctl_payload; [reflexivity..|]. by apply referral_ex_law.
  - eapply fsctl_payload; [reflexivity..|]. by apply trim_law.
  - eapply fsctl_payload; [reflexivity..|]. by apply alloc_range_law.
  - eapply fsctl_payload; [reflexivity..|]. by apply offload_law.
  - exists b. split_and!; [apply writes_all|done|done].
Qed.

(** The variants of a request that carries its own code: the payload's reader comes first. *)

Lemma fsctl_variants c flags :
  is_fsctl flags = true -> filter (fun c' => fsctl_code c = fsctl_code c' /\ is_fsctl flags = true) fsctl_order = [c].
Proof. intros ->. by destruct c. Qed.

Lemma fsctl_variants_none ctl_code flags l :
  is_fsctl flags = false -> filter (fun c => ctl_code = fsctl_code c /\ is_fsctl flags = true) l = [].
Proof. intros Hf. induction l as [|c l IH]; [done|]. rewrite filter_cons_False; [done|]. intros [_ H]. congruence. Qed.

(** The control code and flags a request is sent with: the payload's own, or a device control. *)
Definition ioctl_codes_ok (ctl_code flags : Z) (d : IoctlReqData) : Prop :=
  match fsctl_of d with
  | Some c => ctl_code = fsctl_code c /\ is_fsctl flags = true
  | None => is_fsctl flags = false
  end.

Lemma read_ioctl_data_law n ctl_code flags d :
  ioctl_data_ok d -> ioctl_codes_ok ctl_code flags d ->
  exists x, writes n (write_ioctl_data d) x /\ reads_to n (read_ioctl_data ctl_code flags) x d /\ zlen x = ioctl_data_size d.
Proof.
  intros Hd Hc. destruct (ioctl_data_law n d Hd) as (x & H1 & H2 & H3). exists x. split_and!; [done| |done].
  unfold ioctl_codes_ok in Hc. unfold read_ioctl_data. destruct (fsctl_of d) as [c|] eqn:E.
  - destruct Hc as [-> Hf]. rewrite (fsctl_variants c flags Hf). cbn [fmap list_fmap app].
    apply reads_to_variants_head. by apply H2.
  - assert (exists b, d = IO_Ioctl b) as [b ->] by (destruct d; [discriminate..|by eexists]).
    assert (x = b) as ->.
    { specialize (H1 (replicate n 0) (length_replicate n 0)). cbn in H1. rewrite write_all_end in H1.
      unfold at_end in H1. injection H1 as H1 _. by apply app_inv_head in H1. }
    rewrite fsctl_variants_none by done. cbn [fmap list_fmap app]. apply reads_to_variants_head, reads_to_map, reads_until_eof.
Qed.
