(* ===== verification/TreeConnect.v ===== *)
(** Tree connects (crates/smb-msg/src/tree_connect.rs): the request, with the extension that carries
    a remoted identity, and the response.

    A request is made with no contexts; one that is read has those of its extension. *)
From S2P Require Import Prelude Effects Bytes Header Compression Crypto Dialects Stream Codec Security Negotiate Fsctl.
Local Open Scope Z_scope.

(** ** The remoted identity *)

Record SidAttrData := mkSidAttr { sa_sid_data : SID; sa_attr : Z }.
Record LuidAttrData := mkLuidAttr { la_luid : Z; la_attr : Z }.

Record RemotedIdentityTreeConnect := mkRemoted {
  ri_ticket_size : Z;
  ri_user : SidAttrData;
  ri_user_name : list Z;
  ri_domain : list Z;
  ri_groups : list SidAttrData;
  ri_restricted_groups : list SidAttrData;
  ri_privileges : list LuidAttrData;
  ri_primary_group : list SidAttrData;
  ri_owner : SID;
  ri_default_dacl : ACL;
  ri_device_groups : list SidAttrData;
  ri_user_claims : ClaimSecurityAttributeRelativeV1;
  ri_device_claims : ClaimSecurityAttributeRelativeV1
}.

Definition write_sid_attr (s : SidAttrData) : bin unit := _ ← write_sid (sa_sid_data s); put 4 (sa_attr s).
Definition read_sid_attr : bin SidAttrData := sid ← read_sid; attr ← get 4; mret (mkSidAttr sid attr).
Definition write_luid_attr (l : LuidAttrData) : bin unit := _ ← put 8 (la_luid l); put 4 (la_attr l).
Definition read_luid_attr : bin LuidAttrData := luid ← get 8; attr ← get 4; mret (mkLuidAttr luid attr).

(** [ArrayData]: a count and its items. *)
Definition write_array {A} (w : A -> bin unit) (l : list A) : bin unit := _ ← put_count 2 l; write_list w l.
Definition read_array {A} (r : bin A) : bin (list A) := lcount ← get 2; read_count (Z.to_nat lcount) r.

(** [BlobData]: the marker of the size is written as zero and not filled in; a reader takes that many bytes. *)
Definition write_blob {A} (w : A -> bin unit) (a : A) : bin unit := _ ← put_marker 2; w a.
Definition read_blob {A} (r : bin A) : bin A := size ← get_marker 2; take_seek (Z.to_nat size.2) r.

(** The ticket type is a marker as well, so that it is written as zero. *)
Definition write_remoted (r : RemotedIdentityTreeConnect) : bin unit :=
  ticket_type ← put_marker 2;
  _ ← put 2 (ri_ticket_size r);
  user_offset ← put_marker 2;
  user_name_offset ← put_marker 2;
  domain_offset ← put_marker 2;
  groups_offset ← put_marker 2;
  restricted_groups_offset ← put_marker 2;
  privileges_offset ← put_marker 2;
  primary_group_offset ← put_marker 2;
  owner_offset ← put_marker 2;
  default_dacl_offset ← put_marker 2;
  device_groups_offset ← put_marker 2;
  user_claims_offset ← put_marker 2;
  device_claims_offset ← put_marker 2;
  _ ← write_roff_b (write_sid_attr (ri_user r)) user_offset ticket_type;
  _ ← write_roff_b (write_null 2 (ri_user_name r)) user_name_offset ticket_type;
  _ ← write_roff_b (write_null 2 (ri_domain r)) domain_offset ticket_type;
  _ ← write_roff_b (write_array write_sid_attr (ri_groups r)) groups_offset ticket_type;
  _ ← write_roff_b (write_array write_sid_attr (ri_restricted_groups r)) restricted_groups_offset ticket_type;
  _ ← write_roff_b (write_array (write_blob write_luid_attr) (ri_privileges r)) privileges_offset ticket_type;
  _ ← write_roff_b (write_array write_sid_attr (ri_primary_group r)) primary_group_offset ticket_type;
  _ ← write_roff_b (write_blob write_sid (ri_owner r)) owner_offset ticket_type;
  _ ← write_roff_b (write_blob write_acl (ri_default_dacl r)) default_dacl_offset ticket_type;
  _ ← write_roff_b (write_array write_sid_attr (ri_device_groups r)) device_groups_offset ticket_type;
  _ ← write_roff_b (write_blob write_claim (ri_user_claims r)) user_claims_offset ticket_type;
  write_roff_b (write_blob write_claim (ri_device_claims r)) device_claims_offset ticket_type.

(** A value at an offset from the ticket's start. *)
Definition read_at_offset {A} (ticket_type : PosMarker) (offset : Z) (r : bin A) : bin A :=
  _ ← seek_from ticket_type offset; r.

Definition read_remoted : bin RemotedIdentityTreeConnect :=
  ticket_type ← get_marker 2;
  _ ← bin_assert (bool_decide (ticket_type.2 = 1));
  ticket_size ← get 2;
  user_offset ← get_marker 2;
  user_name_offset ← get_marker 2;
  domain_offset ← get_marker 2;
  groups_offset ← get_marker 2;
  restricted_groups_offset ← get_marker 2;
  privileges_offset ← get_marker 2;
  primary_group_offset ← get_marker 2;
  owner_offset ← get_marker 2;
  default_dacl_offset ← get_marker 2;
  device_groups_offset ← get_marker 2;
  user_claims_offset ← get_marker 2;
  device_claims_offset ← get_marker 2;
  user ← read_at_offset ticket_type.1 user_offset.2 read_sid_attr;
  user_name ← read_at_offset ticket_type.1 user_name_offset.2 (read_null 2);
  domain ← read_at_offset ticket_type.1 domain_offset.2 (read_null 2);
  groups ← read_at_offset ticket_type.1 groups_offset.2 (read_array read_sid_attr);
  restricted_groups ← read_at_offset ticket_type.1 restricted_groups_offset.2 (read_array read_sid_attr);
  privileges ← read_at_offset ticket_type.1 privileges_offset.2 (read_array (read_blob read_luid_attr));
  primary_group ← read_at_offset ticket_type.1 primary_group_offset.2 (read_array read_sid_attr);
  owner ← read_at_offset ticket_type.1 owner_offset.2 (read_blob read_sid);
  default_dacl ← read_at_offset ticket_type.1 default_dacl_offset.2 (read_blob read_acl);
  device_groups ← read_at_offset ticket_type.1 device_groups_offset.2 (read_array read_sid_attr);
  user_claims ← read_at_offset ticket_type.1 user_claims_offset.2 (read_blob read_claim);
  device_claims ← read_at_offset ticket_type.1 device_claims_offset.2 (read_blob read_claim);
  mret (mkRemoted ticket_size user user_name domain groups restricted_groups privileges primary_group owner default_dacl
    device_groups user_claims device_claims).

Record TreeConnectContext := mkTreeContext { tc_data_length : Z; tc_data : RemotedIdentityTreeConnect }.

Definition write_tree_context (c : TreeConnectContext) : bin unit :=
  _ ← put 2 1; _ ← put 2 (tc_data_length c); _ ← put 4 0; write_remoted (tc_data c).
Definition read_tree_context : bin TreeConnectContext :=
  _ ← get_const 2 1; data_length ← get 2; _ ← get 4; data ← read_remoted; mret (mkTreeContext data_length data).

(** ** Messages *)

Record TreeConnectRequest := mkTreeConnectRequest {
  tq_flags : Z;
  tq_buffer : list Z;
  tq_tree_connect_contexts : list TreeConnectContext
}.

(** [TreeConnectRequest::new] *)
Definition tree_connect_new (name : list Z) : TreeConnectRequest := mkTreeConnectRequest 0 name [].

Definition extension_present (flags : Z) : bool := Z.testbit flags 2.

(** The extension is written when there are contexts, whatever the flags say. *)
Definition write_tree_connect_request (r : TreeConnectRequest) : bin unit :=
  _ ← put 2 9;
  _ ← put 2 (tq_flags r);
  path_offset ← put_marker 2;
  _ ← put_wide_size 2 (tq_buffer r);
  match tq_tree_connect_contexts r with
  | [] => write_aoff (write_sized_wide (tq_buffer r)) path_offset
  | contexts =>
      tree_connect_context_offset ← put_marker 4;
      _ ← (if bool_decide (zlen contexts <= u16_max) then put 2 (zlen contexts) else e_panic);
      _ ← put 10 0;
      _ ← write_aoff (write_sized_wide (tq_buffer r)) path_offset;
      write_aoff (write_list write_tree_context contexts) tree_connect_context_offset
  end.

(** [seek_relative(true)]: from where the marker is, unless its value is zero. *)
Definition seek_relative (m : PosMarker * Z) : bin unit := if 0 <? m.2 then seek_from m.1 m.2 else mret tt.

Definition read_tree_connect_request : bin TreeConnectRequest :=
  _ ← get_const 2 9;
  flags ← get 2;
  _ ← get 2;
  path_length ← get 2;
  if extension_present flags then
    tree_connect_context_offset ← get_marker 4;
    count ← get 2;
    _ ← get 10;
    buffer ← read_sized_wide path_length;
    _ ← seek_relative tree_connect_context_offset;
    contexts ← read_count (Z.to_nat count) read_tree_context;
    mret (mkTreeConnectRequest flags buffer contexts)
  else
    buffer ← read_sized_wide path_length;
    mret (mkTreeConnectRequest flags buffer []).

Inductive ShareType := ST_Disk | ST_Pipe | ST_Print.
#[export] Instance ShareType_repr : Repr ShareType :=
  {| repr_code t := match t with ST_Disk => 1 | ST_Pipe => 2 | ST_Print => 3 end; repr_all := [ST_Disk; ST_Pipe; ST_Print] |}.

Record TreeConnectResponse := mkTreeConnectResponse {
  ts_share_type : ShareType;
  ts_share_flags : Z;
  ts_capabilities : Z;
  ts_maximal_access : Z
}.

Definition write_tree_connect_response (r : TreeConnectResponse) : bin unit :=
  _ ← put 2 16;
  _ ← put_repr 1 (ts_share_type r);
  _ ← put 1 0;
  _ ← put 4 (ts_share_flags r);
  _ ← put 4 (ts_capabilities r);
  put 4 (ts_maximal_access r).

Definition read_tree_connect_response : bin TreeConnectResponse :=
  _ ← get_const 2 16;
  share_type ← get_repr 1;
  _ ← get 1;
  share_flags ← get 4;
  capabilities ← get 4;
  maximal_access ← get 4;
  mret (mkTreeConnectResponse share_type share_flags capabilities maximal_access).

(** ** Round trip *)

#[export] Instance ShareType_laws : ReprLaws ShareType. Proof. by intros []. Qed.

(** A request without an extension. *)
Definition tree_connect_request_fits (r : TreeConnectRequest) : Prop :=
  in_range u16_max (tq_flags r) /\ name_fits u16_max (tq_buffer r) /\
  (extension_present (tq_flags r) = false -> tq_tree_connect_contexts r = []).
Definition tree_connect_request_ok (r : TreeConnectRequest) : Prop :=
  in_range u16_max (tq_flags r) /\ extension_present (tq_flags r) = false /\ name_ok u16_max (tq_buffer r) /\
  tq_tree_connect_contexts r = [].

Lemma tree_connect_request_law n r :
  body_start n -> tree_connect_request_ok r ->
  exists x, writes n (write_tree_connect_request r) x /\ reads n read_tree_connect_request x r.
Proof.
  intros [_ Hn] (H1 & H2 & (H3 & H4 & H5) & H6). destruct r as [flags s cs].
  cbn [tq_flags tq_buffer tq_tree_connect_contexts] in *. subst cs.
  destruct (wide_law (n + 8) s (units_fit s H3) H4) as (y & Hw & Hr & Hy).
  pose proof (writes_wide_size (n + 6) 2 s ltac:(cbn; ints)) as Hc. pose proof (wide_size_nonneg s) as Hs.
  exists (concat [le_bytes 2 9; le_bytes 2 flags; le_bytes 2 (Z.of_nat (n + 8)); le_bytes 2 (wide_size s); y]). split.
  - unfold write_tree_connect_request. cbn [tq_flags tq_buffer tq_tree_connect_contexts]. emit.
  - unfold read_tree_connect_request. do 4 take_step. rewrite H2. take_step. apply reads_ret.
Qed.

Lemma tree_connect_response_law n r :
  in_range u32_max (ts_share_flags r) -> in_range u32_max (ts_capabilities r) -> in_range u32_max (ts_maximal_access r) ->
  exists x, writes n (write_tree_connect_response r) x /\ reads n read_tree_connect_response x r.
Proof.
  intros H1 H2 H3. destruct r as [t f c a]. cbn [ts_share_flags ts_capabilities ts_maximal_access] in *.
  exists (concat [le_bytes 2 16; le_bytes 1 (repr_code t); le_bytes 1 0; le_bytes 4 f; le_bytes 4 c; le_bytes 4 a]). split.
  - unfold write_tree_connect_response. cbn [ts_share_type ts_share_flags ts_capabilities ts_maximal_access]. emit.
  - unfold read_tree_connect_response. take_step. eapply reads_segs; [apply reads_repr; by destruct t|]. cbv beta. do 4 take_step.
    apply reads_ret.
Qed.
