(* ===== verification/Messages.v ===== *)
(** Message bodies (crates/smb-msg/src/): the requests and responses of the commands, with their
    layouts, and the enums that choose a body by the command of the header (plain.rs).

    Flags and masks are integers of their width. Names are lists of UTF-16 units, times the
    integers they are sent as. *)
From S2P Require Import Prelude Effects Bytes Header Compression Crypto Dialects Stream Codec Security ChainedList.
From S2P Require Import CreateContexts Negotiate Fsctl TreeConnect.
Local Open Scope Z_scope.

(** A body of a fixed size with nothing in it, as those of LOGOFF, ECHO or CANCEL. *)
Definition write_empty (size : Z) : bin unit := _ ← put 2 size; put 2 0.
Definition read_empty (size : Z) : bin unit := _ ← get_const 2 size; _ ← get 2; mret tt.

(** [calc = u16::try_from(l.len()).unwrap()] *)
Definition put_count_or_panic {A} (w : nat) (l : list A) : bin unit :=
  if bool_decide (zlen l < 256 ^ Z.of_nat w) then put w (zlen l) else e_panic.

(** ** Session setup *)

Record SessionSetupRequest := mkSessionSetupRequest {
  sq_flags : Z;
  sq_security_mode : Z;
  sq_capabilities : Z;
  sq_previous_session_id : Z;
  sq_buffer : bytes
}.

Definition write_session_setup_request (r : SessionSetupRequest) : bin unit :=
  _ ← put 2 25;
  _ ← put 1 (sq_flags r);
  _ ← put 1 (sq_security_mode r);
  _ ← put 4 (sq_capabilities r);
  _ ← put 4 0;
  security_buffer_offset ← put_marker 2;
  _ ← put_count_or_panic 2 (sq_buffer r);
  _ ← put 8 (sq_previous_session_id r);
  write_aoff (write_all (sq_buffer r)) security_buffer_offset.

Definition read_session_setup_request : bin SessionSetupRequest :=
  _ ← get_const 2 25;
  flags ← get 1;
  security_mode ← get 1;
  capabilities ← get 4;
  _ ← get 4;
  _ ← get 2;
  security_buffer_length ← get 2;
  previous_session_id ← get 8;
  buffer ← read_exact (Z.to_nat security_buffer_length);
  mret (mkSessionSetupRequest flags security_mode capabilities previous_session_id buffer).

Record SessionSetupResponse := mkSessionSetupResponse { ss_session_flags : Z; ss_buffer : bytes }.

Definition write_session_setup_response (r : SessionSetupResponse) : bin unit :=
  _ ← put 2 9;
  _ ← put 2 (ss_session_flags r);
  security_buffer_offset ← put_marker 2;
  _ ← put_count_or_panic 2 (ss_buffer r);
  write_aoff (write_all (ss_buffer r)) security_buffer_offset.

Definition read_session_setup_response : bin SessionSetupResponse :=
  _ ← get_const 2 9;
  session_flags ← get 2;
  _ ← get 2;
  security_buffer_length ← get 2;
  buffer ← read_exact (Z.to_nat security_buffer_length);
  mret (mkSessionSetupResponse session_flags buffer).

(** ** Create and close *)

Inductive OplockLevel := OL_None | OL_II | OL_Exclusive | OL_Batch | OL_Lease.
#[export] Instance OplockLevel_repr : Repr OplockLevel := {|
  repr_code l := match l with OL_None => 0 | OL_II => 1 | OL_Exclusive => 8 | OL_Batch => 9 | OL_Lease => 0xFF end;
  repr_all := [OL_None; OL_II; OL_Exclusive; OL_Batch; OL_Lease] |}.

Inductive ImpersonationLevel := IL_Anonymous | IL_Identification | IL_Impersonation | IL_Delegate.
#[export] Instance ImpersonationLevel_repr : Repr ImpersonationLevel := {|
  repr_code l := match l with IL_Anonymous => 0 | IL_Identification => 1 | IL_Impersonation => 2 | IL_Delegate => 3 end;
  repr_all := [IL_Anonymous; IL_Identification; IL_Impersonation; IL_Delegate] |}.

Inductive CreateDisposition := CD_Superseded | CD_Open | CD_Create | CD_OpenIf | CD_Overwrite | CD_OverwriteIf.
#[export] Instance CreateDisposition_repr : Repr CreateDisposition := {|
  repr_code d := match d with CD_Superseded => 0 | CD_Open => 1 | CD_Create => 2 | CD_OpenIf => 3 | CD_Overwrite => 4
    | CD_OverwriteIf => 5 end;
  repr_all := [CD_Superseded; CD_Open; CD_Create; CD_OpenIf; CD_Overwrite; CD_OverwriteIf] |}.

Inductive CreateAction := CA_Superseded | CA_Opened | CA_Created | CA_Overwritten.
#[export] Instance CreateAction_repr : Repr CreateAction := {|
  repr_code a := match a with CA_Superseded => 0 | CA_Opened => 1 | CA_Created => 2 | CA_Overwritten => 3 end;
  repr_all := [CA_Superseded; CA_Opened; CA_Created; CA_Overwritten] |}.

Record CreateRequest := mkCreateRequest {
  cq_requested_oplock_level : OplockLevel;
  cq_impersonation_level : ImpersonationLevel;
  cq_desired_access : Z;
  cq_file_attributes : Z;
  cq_share_access : Z;
  cq_create_disposition : CreateDisposition;
  cq_create_options : Z;
  cq_name : list Z;
  cq_contexts : list (CreateContext CreateContextRequestData)
}.

Definition write_create_request (r : CreateRequest) : bin unit :=
  _ ← put 2 57;
  _ ← put 1 0;
  _ ← put_repr 1 (cq_requested_oplock_level r);
  _ ← put_repr 4 (cq_impersonation_level r);
  _ ← put 8 0;
  _ ← put 8 0;
  _ ← put 4 (cq_desired_access r);
  _ ← put 4 (cq_file_attributes r);
  _ ← put 4 (cq_share_access r);
  _ ← put_repr 4 (cq_create_disposition r);
  _ ← put 4 (cq_create_options r);
  name_offset ← put_marker 2;
  _ ← put_wide_size 2 (cq_name r);
  create_contexts_offset ← put_marker 4;
  create_contexts_length ← put_marker 4;
  _ ← write_align 8;
  _ ← write_aoff (write_sized_wide (cq_name r)) name_offset;
  _ ← write_align 8;
  write_roff_size (write_contexts write_request_data (cq_contexts r)) create_contexts_offset create_contexts_length.

Definition read_create_request : bin CreateRequest :=
  _ ← get_const 2 57;
  _ ← get 1;
  requested_oplock_level ← get_repr 1;
  impersonation_level ← get_repr 4;
  _ ← get 8;
  _ ← get 8;
  desired_access ← get 4;
  file_attributes ← get 4;
  share_access ← get 4;
  create_disposition ← get_repr 4;
  create_options ← get 4;
  _ ← get 2;
  name_length ← get 2;
  _ ← get 4;
  create_contexts_length ← get_marker 4;
  _ ← read_align 8;
  name ← read_sized_wide name_length;
  _ ← read_align 8;
  contexts ← take_seek (Z.to_nat create_contexts_length.2) (read_contexts read_request_data);
  mret (mkCreateRequest requested_oplock_level impersonation_level desired_access file_attributes share_access
    create_disposition create_options name contexts).

Record CreateResponse := mkCreateResponse {
  cs_oplock_level : OplockLevel;
  cs_flags : Z;
  cs_create_action : CreateAction;
  cs_creation_time : Z;
  cs_last_access_time : Z;
  cs_last_write_time : Z;
  cs_change_time : Z;
  cs_allocation_size : Z;
  cs_endof_file : Z;
  cs_file_attributes : Z;
  cs_file_id : FileId;
  cs_create_contexts : list (CreateContext CreateContextResponseData)
}.

Definition write_create_response (r : CreateResponse) : bin unit :=
  _ ← put 2 89;
  _ ← put_repr 1 (cs_oplock_level r);
  _ ← put 1 (cs_flags r);
  _ ← put_repr 4 (cs_create_action r);
  _ ← put 8 (cs_creation_time r);
  _ ← put 8 (cs_last_access_time r);
  _ ← put 8 (cs_last_write_time r);
  _ ← put 8 (cs_change_time r);
  _ ← put 8 (cs_allocation_size r);
  _ ← put 8 (cs_endof_file r);
  _ ← put 4 (cs_file_attributes r);
  _ ← put 4 0;
  _ ← write_file_id (cs_file_id r);
  create_contexts_offset ← put_marker 4;
  create_contexts_length ← put_marker 4;
  write_roff_size (write_contexts write_response_data (cs_create_contexts r)) create_contexts_offset create_contexts_length.

Definition read_create_response : bin CreateResponse :=
  _ ← get_const 2 89;
  oplock_level ← get_repr 1;
  flags ← get 1;
  create_action ← get_repr 4;
  creation_time ← get 8;
  last_access_time ← get 8;
  last_write_time ← get 8;
  change_time ← get 8;
  allocation_size ← get 8;
  endof_file ← get 8;
  file_attributes ← get 4;
  _ ← get 4;
  file_id ← read_file_id;
  create_contexts_offset ← get_marker 4;
  _ ← bin_assert (bool_decide (Z.land create_contexts_offset.2 7 = 0));
  create_contexts_length ← get_marker 4;
  _ ← seek_start (Z.to_nat create_contexts_offset.2);
  create_contexts ← take_seek (Z.to_nat create_contexts_length.2) (read_contexts read_response_data);
  mret (mkCreateResponse oplock_level flags create_action creation_time last_access_time last_write_time change_time
    allocation_size endof_file file_attributes file_id create_contexts).

(** A close always asks for the attributes. *)
Definition write_close_request (file_id : FileId) : bin unit :=
  _ ← put 2 24; _ ← put 2 1; _ ← put 4 0; write_file_id file_id.
Definition read_close_request : bin FileId := _ ← get_const 2 24; _ ← get_const 2 1; _ ← get 4; read_file_id.

Record CloseResponse := mkCloseResponse {
  co_flags : Z;
  co_creation_time : Z;
  co_last_access_time : Z;
  co_last_write_time : Z;
  co_change_time : Z;
  co_allocation_size : Z;
  co_endof_file : Z;
  co_file_attributes : Z
}.

Definition write_close_response (r : CloseResponse) : bin unit :=
  _ ← put 2 60;
  _ ← put 2 (co_flags r);
  _ ← put 4 0;
  _ ← put 8 (co_creation_time r);
  _ ← put 8 (co_last_access_time r);
  _ ← put 8 (co_last_write_time r);
  _ ← put 8 (co_change_time r);
  _ ← put 8 (co_allocation_size r);
  _ ← put 8 (co_endof_file r);
  put 4 (co_file_attributes r).

Definition read_close_response : bin CloseResponse :=
  _ ← get_const 2 60;
  flags ← get 2;
  _ ← get 4;
  creation_time ← get 8;
  last_access_time ← get 8;
  last_write_time ← get 8;
  change_time ← get 8;
  allocation_size ← get 8;
  endof_file ← get 8;
  file_attributes ← get 4;
  mret (mkCloseResponse flags creation_time last_access_time last_write_time change_time allocation_size endof_file
    file_attributes).

(** ** Flush, read and write *)

Definition write_flush_request (file_id : FileId) : bin unit :=
  _ ← put 2 24; _ ← put 2 0; _ ← put 4 0; write_file_id file_id.
Definition read_flush_request : bin FileId := _ ← get_const 2 24; _ ← get 2; _ ← get 4; read_file_id.

Inductive CommunicationChannel := CH_None | CH_RdmaV1 | CH_RdmaV1Invalidate.
#[export] Instance CommunicationChannel_eq : EqDecision CommunicationChannel.
Proof. solve_decision. Defined.
#[export] Instance CommunicationChannel_repr : Repr CommunicationChannel := {|
  repr_code c := match c with CH_None => 0 | CH_RdmaV1 => 1 | CH_RdmaV1Invalidate => 2 end;
  repr_all := [CH_None; CH_RdmaV1; CH_RdmaV1Invalidate] |}.

(** A channel that has to be [None]. *)
Definition get_no_channel : bin unit := channel ← get_repr 4; bin_assert (bool_decide (channel = CH_None)).

Record ReadRequest := mkReadRequest {
  rq_flags : Z;
  rq_length : Z;
  rq_offset : Z;
  rq_file_id : FileId;
  rq_minimum_count : Z
}.

Definition write_read_request (r : ReadRequest) : bin unit :=
  _ ← put 2 49;
  _ ← put 1 0;
  _ ← put 1 (rq_flags r);
  _ ← put 4 (rq_length r);
  _ ← put 8 (rq_offset r);
  _ ← write_file_id (rq_file_id r);
  _ ← put 4 (rq_minimum_count r);
  _ ← put_repr 4 CH_None;
  _ ← put 4 0;
  _ ← put 2 0;
  _ ← put 2 0;
  put 1 0.

Definition read_read_request : bin ReadRequest :=
  _ ← get_const 2 49;
  _ ← get 1;
  flags ← get 1;
  length ← get 4;
  offset ← get 8;
  file_id ← read_file_id;
  minimum_count ← get 4;
  _ ← get_no_channel;
  _ ← get_const 4 0;
  _ ← get_const 2 0;
  _ ← get_const 2 0;
  _ ← get 1;
  mret (mkReadRequest flags length offset file_id minimum_count).

Record ReadResponse := mkReadResponse { rs_data_offset : Z; rs_data_length : Z }.

Definition read_response_size : Z := 17.

(** The marker of the offset is written as zero and stays so: the data is not part of the structure. *)
Definition write_read_response (r : ReadResponse) : bin unit :=
  _ ← put 2 read_response_size;
  _ ← put_marker 1;
  _ ← put 1 0;
  _ ← put 4 (rs_data_length r mod 2 ^ 32);
  _ ← put 4 0;
  put 4 0.

Definition read_read_response : bin ReadResponse :=
  _ ← get_const 2 read_response_size;
  data_offset ← get_marker 1;
  _ ← bin_assert (64 + read_response_size - 1 <=? data_offset.2);
  _ ← get 1;
  data_length ← get 4;
  _ ← bin_assert (0 <? data_length);
  _ ← get_const 4 0;
  _ ← get 4;
  mret (mkReadResponse data_offset.2 data_length).

Record WriteRequest := mkWriteRequest { wq_length : Z; wq_offset : Z; wq_file_id : FileId; wq_flags : Z }.

(** The data is sent behind the message, where the offset points. *)
Definition write_write_request (r : WriteRequest) : bin unit :=
  _ ← put 2 49;
  data_offset ← put_marker 2;
  _ ← put 4 (wq_length r);
  _ ← put 8 (wq_offset r);
  _ ← write_file_id (wq_file_id r);
  _ ← put_repr 4 CH_None;
  _ ← put 4 0;
  _ ← put 2 0;
  _ ← put 2 0;
  _ ← put 4 (wq_flags r);
  write_aoff (mret tt) data_offset.

Definition read_write_request : bin WriteRequest :=
  _ ← get_const 2 49;
  _ ← get 2;
  length ← get 4;
  offset ← get 8;
  file_id ← read_file_id;
  _ ← get_no_channel;
  _ ← get_const 4 0;
  _ ← get_const 2 0;
  _ ← get_const 2 0;
  flags ← get 4;
  mret (mkWriteRequest length offset file_id flags).

Definition write_write_response (count : Z) : bin unit :=
  _ ← put 2 17; _ ← put 2 0; _ ← put 4 count; _ ← put 4 0; _ ← put 2 0; put 2 0.
Definition read_write_response : bin Z :=
  _ ← get_const 2 17; _ ← get 2; count ← get 4; _ ← get 4; _ ← get 2; _ ← get 2; mret count.

(** ** Locks *)

Record LockElement := mkLockElement { le_offset : Z; le_length : Z; le_flags : Z }.
Record LockRequest := mkLockRequest { lq_lock_sequence : Z; lq_file_id : FileId; lq_locks : list LockElement }.

Definition write_lock_element (l : LockElement) : bin unit :=
  _ ← put 8 (le_offset l); _ ← put 8 (le_length l); _ ← put 4 (le_flags l); put 4 0.
Definition read_lock_element : bin LockElement :=
  offset ← get 8; length ← get 8; flags ← get 4; _ ← get 4; mret (mkLockElement offset length flags).

Definition write_lock_request (r : LockRequest) : bin unit :=
  _ ← put 2 48;
  _ ← put_count 2 (lq_locks r);
  _ ← put 4 (lq_lock_sequence r);
  _ ← write_file_id (lq_file_id r);
  write_list write_lock_element (lq_locks r).
Definition read_lock_request : bin LockRequest :=
  _ ← get_const 2 48;
  lock_count ← get 2;
  lock_sequence ← get 4;
  file_id ← read_file_id;
  locks ← read_count (Z.to_nat lock_count) read_lock_element;
  mret (mkLockRequest lock_sequence file_id locks).

(** ** Controls *)

Record IoctlRequest := mkIoctlRequest {
  iq_ctl_code : Z;
  iq_file_id : FileId;
  iq_max_input_response : Z;
  iq_max_output_response : Z;
  iq_flags : Z;
  iq_buffer : IoctlReqData
}.

Definition write_ioctl_request (r : IoctlRequest) : bin unit :=
  _ ← put 2 57;
  _ ← put 2 0;
  _ ← put 4 (iq_ctl_code r);
  _ ← write_file_id (iq_file_id r);
  input_offset ← put_marker 4;
  input_count ← put_marker 4;
  _ ← put 4 (iq_max_input_response r);
  _ ← put 4 0;
  _ ← put 4 0;
  _ ← put 4 (iq_max_output_response r);
  _ ← put 4 (iq_flags r);
  _ ← put 4 0;
  write_aoff_size (write_ioctl_data (iq_buffer r)) input_offset input_count.

Definition read_ioctl_request : bin IoctlRequest :=
  _ ← get_const 2 57;
  _ ← get 2;
  ctl_code ← get 4;
  file_id ← read_file_id;
  _ ← get 4;
  input_count ← get_marker 4;
  max_input_response ← get 4;
  _ ← get_const 4 0;
  _ ← get_const 4 0;
  max_output_response ← get 4;
  flags ← get 4;
  _ ← get 4;
  buffer ← take_seek (Z.to_nat input_count.2) (read_ioctl_data ctl_code flags);
  mret (mkIoctlRequest ctl_code file_id max_input_response max_output_response flags buffer).

Record IoctlResponse := mkIoctlResponse { is_ctl_code : Z; is_file_id : FileId; is_in_buffer : bytes; is_out_buffer : bytes }.

Definition write_ioctl_response (r : IoctlResponse) : bin unit :=
  _ ← put 2 49;
  _ ← put 2 0;
  _ ← put 4 (is_ctl_code r);
  _ ← write_file_id (is_file_id r);
  input_offset ← put_marker 4;
  _ ← bin_assert (bool_decide (is_in_buffer r = []));
  _ ← put_count 4 (is_in_buffer r);
  output_offset ← put_marker 4;
  _ ← put_count 4 (is_out_buffer r);
  _ ← put 4 0;
  _ ← put 4 0;
  _ ← write_aoff (write_all (is_in_buffer r)) input_offset;
  write_aoff (write_all (is_out_buffer r)) output_offset.

Definition read_ioctl_response : bin IoctlResponse :=
  _ ← get_const 2 49;
  _ ← get 2;
  ctl_code ← get 4;
  file_id ← read_file_id;
  input_offset ← get_marker 4;
  input_count ← get 4;
  _ ← bin_assert (bool_decide (input_count = 0));
  output_offset ← get_marker 4;
  _ ← bin_assert (bool_decide (output_offset.2 = 0) || bool_decide (output_offset.2 = input_offset.2 + input_count));
  output_count ← get 4;
  _ ← get 4;
  _ ← get 4;
  _ ← seek_start (Z.to_nat input_offset.2);
  in_buffer ← read_exact (Z.to_nat input_count);
  _ ← seek_start (Z.to_nat output_offset.2);
  out_buffer ← read_exact (Z.to_nat output_count);
  mret (mkIoctlResponse ctl_code file_id in_buffer out_buffer).

(** The layouts of the bodies of sessions, files and controls: each is read back from what it is
    written as. *)

#[export] Instance OplockLevel_laws : ReprLaws OplockLevel. Proof. by intros []. Qed.
#[export] Instance ImpersonationLevel_laws : ReprLaws ImpersonationLevel. Proof. by intros []. Qed.
#[export] Instance CreateDisposition_laws : ReprLaws CreateDisposition. Proof. by intros []. Qed.
#[export] Instance CreateAction_laws : ReprLaws CreateAction. Proof. by intros []. Qed.
#[export] Instance CommunicationChannel_laws : ReprLaws CommunicationChannel. Proof. by intros []. Qed.

(** What holds of a body: it is read back from a message that ends behind it. *)
Definition body_law {A} (n : nat) (w : bin unit) (r : bin A) (a : A) : Prop :=
  exists x, writes n w x /\ reads_to_any n r x a.

Lemma body_exact {A} n (w : bin unit) (r : bin A) a : (exists x, writes n w x /\ reads n r x a) -> body_law n w r a.
Proof. intros (x & H1 & H2). exists x. split; [done|]. by apply reads_any_to_any, reads_reads_any. Qed.

Lemma body_any {A} n (w : bin unit) (r : bin A) a : (exists x, writes n w x /\ reads_any n r x a) -> body_law n w r a.
Proof. intros (x & H1 & H2). exists x. split; [done|]. by apply reads_any_to_any. Qed.

Lemma empty_law n size : in_range u16_max size -> body_law n (write_empty size) (read_empty size) tt.
Proof.
  intros H. apply body_exact. exists (concat [le_bytes 2 size; le_bytes 2 0]). split.
  - unfold write_empty. emit.
  - unfold read_empty. do 2 take_step. apply reads_ret.
Qed.

Lemma writes_count_or_panic {A} n w (l : list A) :
  zlen l < 256 ^ Z.of_nat w -> writes n (put_count_or_panic w l) (le_bytes w (zlen l)).
Proof. intros H. unfold put_count_or_panic. rewrite bool_decide_eq_true_2 by done. apply writes_put. Qed.

(** ** Session setup *)

Record session_setup_request_ok (r : SessionSetupRequest) : Prop := {
  sqk_flags : in_range u8_max (sq_flags r);
  sqk_mode : in_range u8_max (sq_security_mode r);
  sqk_capabilities : in_range u32_max (sq_capabilities r);
  sqk_previous : in_range u64_max (sq_previous_session_id r);
  sqk_buffer : zlen (sq_buffer r) <= u16_max
}.

Lemma session_setup_request_law n r :
  body_start n -> session_setup_request_ok r -> body_law n (write_session_setup_request r) read_session_setup_request r.
Proof.
  intros [_ Hn] [H1 H2 H3 H4 H5]. destruct r as [f m c p b].
  cbn [sq_flags sq_security_mode sq_capabilities sq_previous_session_id sq_buffer] in *. apply body_exact.
  pose proof (writes_count_or_panic (n + 14) 2 b ltac:(unfold zlen in *; cbn; ints)) as Hc. pose proof (writes_all (n + 24) b) as Hb.
  exists (concat [le_bytes 2 25; le_bytes 1 f; le_bytes 1 m; le_bytes 4 c; le_bytes 4 0; le_bytes 2 (Z.of_nat (n + 24));
    le_bytes 2 (zlen b); le_bytes 8 p; b]). split.
  - unfold write_session_setup_request. cbn [sq_flags sq_security_mode sq_capabilities sq_previous_session_id sq_buffer]. emit.
  - unfold read_session_setup_request. do 8 take_step. rewrite zlen_nat. eapply reads_segs; [apply reads_exact|]. apply reads_ret.
Qed.

Definition session_setup_response_ok (r : SessionSetupResponse) : Prop :=
  in_range u16_max (ss_session_flags r) /\ zlen (ss_buffer r) <= u16_max.

Lemma session_setup_response_law n r :
  body_start n -> session_setup_response_ok r -> body_law n (write_session_setup_response r) read_session_setup_response r.
Proof.
  intros [_ Hn] [H1 H2]. destruct r as [f b]. cbn [ss_session_flags ss_buffer] in *. apply body_exact.
  pose proof (writes_count_or_panic (n + 6) 2 b ltac:(unfold zlen in *; cbn; ints)) as Hc. pose proof (writes_all (n + 8) b) as Hb.
  exists (concat [le_bytes 2 9; le_bytes 2 f; le_bytes 2 (Z.of_nat (n + 8)); le_bytes 2 (zlen b); b]). split.
  - unfold write_session_setup_response. cbn [ss_session_flags ss_buffer]. emit.
  - unfold read_session_setup_response. do 4 take_step. rewrite zlen_nat. eapply reads_segs; [apply reads_exact|]. apply reads_ret.
Qed.

(** ** Create and close *)

Record create_request_with (name : list Z -> Prop) (data : CreateContextRequestData -> Prop) (r : CreateRequest) : Prop := {
  cqk_access : in_range u32_max (cq_desired_access r);
  cqk_attributes : in_range u32_max (cq_file_attributes r);
  cqk_share : in_range u32_max (cq_share_access r);
  cqk_options : in_range u32_max (cq_create_options r);
  cqk_name : name (cq_name r);
  cqk_contexts : Forall (context_ok request_data_type data request_data_size) (cq_contexts r);
  cqk_size : chained_size 8 (context_size request_data_size) (cq_contexts r) <= u32_max
}.

Definition create_request_ok : CreateRequest -> Prop := create_request_with (name_ok u16_max) request_data_ok.

Lemma body_aligned n k : body_start n -> (k `mod` 8 = 0)%nat -> ((n + k) `mod` 8 = 0)%nat.
Proof. intros [H _] Hk. by rewrite Nat.Div0.add_mod, H, Hk. Qed.

Lemma padding_multiple m k : (padding m (k * m) = 0)%nat.
Proof. unfold padding. by rewrite Nat.Div0.mod_mul, Nat.sub_0_r, Nat.Div0.mod_same. Qed.

Lemma create_request_law n r :
  body_start n -> create_request_ok r -> body_law n (write_create_request r) read_create_request r.
Proof.
  intros Hb [H1 H2 H3 H4 (H5 & H6 & H7) H8 H9]. pose proof (proj2 Hb) as Hn. destruct r as [o i a at_ sh d op s cs].
  cbn [cq_requested_oplock_level cq_impersonation_level cq_desired_access cq_file_attributes cq_share_access
    cq_create_disposition cq_create_options cq_name cq_contexts] in *. apply body_any.
  destruct (wide_law (n + 56) s (units_fit s H5) H6) as (y & Hw & Hr & Hy).
  pose proof (writes_wide_size (n + 46) 2 s ltac:(cbn; ints)) as Hc. pose proof (wide_size_nonneg s) as Hs.
  assert (Hp1 : padding 8 (n + 56) = O) by (apply padding_zero; by apply body_aligned).
  pose proof (writes_align (n + 56) 8) as Ha1. pose proof (reads_align (n + 56) 8) as Hra1. rewrite Hp1 in Ha1, Hra1.
  destruct (padding_aligned 8 (n + 56 + length y) ltac:(done)) as [q Hq].
  pose proof (writes_align (n + 56 + length y) 8) as Ha2. pose proof (reads_align (n + 56 + length y) 8) as Hra2.
  pose proof (padding_lt 8 (n + 56 + length y) ltac:(done)) as Hpad.
  remember (padding 8 (n + 56 + length y)) as pad eqn:Epad. clear Epad.
  destruct (contexts_law write_request_data read_request_data request_data_type request_data_ok request_data_size
    request_data_law (n + 56 + length y + pad) cs H8) as (z & Hzw & Hzr & Hz); [rewrite Hq; apply Nat.Div0.mod_mul|].
  exists (concat [le_bytes 2 57; le_bytes 1 0; le_bytes 1 (repr_code o); le_bytes 4 (repr_code i); le_bytes 8 0; le_bytes 8 0;
    le_bytes 4 a; le_bytes 4 at_; le_bytes 4 sh; le_bytes 4 (repr_code d); le_bytes 4 op; le_bytes 2 (Z.of_nat (n + 56));
    le_bytes 2 (wide_size s); le_bytes 4 (Z.of_nat (n + 56 + length y + pad)); le_bytes 4 (zlen z); replicate 0 0; y;
    replicate pad 0; z]). split.
  - unfold write_create_request. cbn [cq_requested_oplock_level cq_impersonation_level cq_desired_access cq_file_attributes
      cq_share_access cq_create_disposition cq_create_options cq_name cq_contexts]. emit.
  - unfold read_create_request. do 2 take_step. eapply reads_any_segs; [apply reads_repr; by destruct o|]. cbv beta.
    eapply reads_any_segs; [apply reads_repr; by destruct i|]. cbv beta. do 5 take_step.
    eapply reads_any_segs; [apply reads_repr; by destruct d|]. cbv beta. do 5 take_step.
    do 3 take_step. cbn [snd concat]. rewrite app_nil_r. eapply reads_any_then.
    + apply reads_take_seek_any; [eapply reads_to_any_at; [|exact Hzr]; len|apply zlen_nat].
    + done.
Qed.

Record create_response_with (data : CreateContextResponseData -> Prop) (r : CreateResponse) : Prop := {
  csk_flags : in_range u8_max (cs_flags r);
  csk_times : Forall (in_range u64_max) [cs_creation_time r; cs_last_access_time r; cs_last_write_time r; cs_change_time r];
  csk_sizes : Forall (in_range u64_max) [cs_allocation_size r; cs_endof_file r];
  csk_attributes : in_range u32_max (cs_file_attributes r);
  csk_file_id : file_id_ok (cs_file_id r);
  csk_contexts : Forall (context_ok response_data_type data (fun _ => 168)) (cs_create_contexts r);
  csk_size : chained_size 8 (context_size (fun _ => 168)) (cs_create_contexts r) <= u32_max
}.

Definition create_response_ok : CreateResponse -> Prop := create_response_with response_data_ok.

Lemma create_response_law n r :
  body_start n -> create_response_ok r -> body_law n (write_create_response r) read_create_response r.
Proof.
  intros Hb [H1 H2 H3 H4 H5 H6 H7]. pose proof (proj2 Hb) as Hn. destruct r as [o f ac ct la lw ch al eof at_ fid cs].
  cbn [cs_oplock_level cs_flags cs_create_action cs_creation_time cs_last_access_time cs_last_write_time cs_change_time
    cs_allocation_size cs_endof_file cs_file_attributes cs_file_id cs_create_contexts] in *.
  rewrite !Forall_cons in H2. rewrite !Forall_cons in H3. destruct H2 as (T1 & T2 & T3 & T4 & _). destruct H3 as (T5 & T6 & _). apply body_any.
  destruct (file_id_law (n + 64) fid H5) as (y & Hw & Hr & Hy).
  destruct (contexts_law write_response_data read_response_data response_data_type response_data_ok (fun _ => 168)
    (fun n d _ => response_data_law n d) (n + 88) cs H6) as (z & Hzw & Hzr & Hz); [by apply body_aligned|].
  assert (Hal : Z.land (Z.of_nat (n + 88)) 7 = 0).
  { change 7 with (Z.ones 3). rewrite Z.land_ones by lia. pose proof (body_aligned n 88 Hb ltac:(done)) as Ha.
    change (2 ^ 3) with (Z.of_nat 8). rewrite <- Nat2Z.inj_mod, Ha. done. }
  exists (concat [le_bytes 2 89; le_bytes 1 (repr_code o); le_bytes 1 f; le_bytes 4 (repr_code ac); le_bytes 8 ct; le_bytes 8 la;
    le_bytes 8 lw; le_bytes 8 ch; le_bytes 8 al; le_bytes 8 eof; le_bytes 4 at_; le_bytes 4 0; y;
    le_bytes 4 (Z.of_nat (n + 88)); le_bytes 4 (zlen z); z]). split.
  - unfold write_create_response. cbn [cs_oplock_level cs_flags cs_create_action cs_creation_time cs_last_access_time
      cs_last_write_time cs_change_time cs_allocation_size cs_endof_file cs_file_attributes cs_file_id cs_create_contexts]. emit.
  - unfold read_create_response. take_step. eapply reads_any_segs; [apply reads_repr; by destruct o|]. cbv beta. take_step.
    eapply reads_any_segs; [apply reads_repr; by destruct ac|]. cbv beta. do 10 take_step.
    eapply reads_any_skip; [apply reads_assert; by apply bool_decide_eq_true_2|]. take_step.
    eapply reads_any_skip; [apply reads_seek; cbn [snd]; len|].
    cbn [snd concat]. rewrite app_nil_r. eapply reads_any_then.
    + apply reads_take_seek_any; [eapply reads_to_any_at; [|exact Hzr]; len|apply zlen_nat].
    + done.
Qed.

Lemma close_request_law n f : file_id_ok f -> body_law n (write_close_request f) read_close_request f.
Proof.
  intros H. destruct (file_id_law (n + 8) f H) as (y & Hw & Hr & Hy). apply body_exact.
  exists (concat [le_bytes 2 24; le_bytes 2 1; le_bytes 4 0; y]). split.
  - unfold write_close_request. emit.
  - unfold read_close_request. do 3 take_step. cbn [concat]. rewrite app_nil_r. eapply reads_at; [|exact Hr]. len.
Qed.

Record close_response_ok (r : CloseResponse) : Prop := {
  cok_flags : in_range u16_max (co_flags r);
  cok_times : Forall (in_range u64_max) [co_creation_time r; co_last_access_time r; co_last_write_time r; co_change_time r];
  cok_sizes : Forall (in_range u64_max) [co_allocation_size r; co_endof_file r];
  cok_attributes : in_range u32_max (co_file_attributes r)
}.

Lemma close_response_law n r : close_response_ok r -> body_law n (write_close_response r) read_close_response r.
Proof.
  intros [H1 H2 H3 H4]. destruct r as [f ct la lw ch al eof at_].
  cbn [co_flags co_creation_time co_last_access_time co_last_write_time co_change_time co_allocation_size co_endof_file
    co_file_attributes] in *.
  rewrite !Forall_cons in H2. rewrite !Forall_cons in H3. destruct H2 as (T1 & T2 & T3 & T4 & _). destruct H3 as (T5 & T6 & _).
  apply body_exact.
  exists (concat [le_bytes 2 60; le_bytes 2 f; le_bytes 4 0; le_bytes 8 ct; le_bytes 8 la; le_bytes 8 lw; le_bytes 8 ch;
    le_bytes 8 al; le_bytes 8 eof; le_bytes 4 at_]). split.
  - unfold write_close_response. cbn [co_flags co_creation_time co_last_access_time co_last_write_time co_change_time
      co_allocation_size co_endof_file co_file_attributes]. emit.
  - unfold read_close_response. do 10 take_step. apply reads_ret.
Qed.

(** ** Flush, read and write *)

Lemma flush_request_law n f : file_id_ok f -> body_law n (write_flush_request f) read_flush_request f.
Proof.
  intros H. destruct (file_id_law (n + 8) f H) as (y & Hw & Hr & Hy). apply body_exact.
  exists (concat [le_bytes 2 24; le_bytes 2 0; le_bytes 4 0; y]). split.
  - unfold write_flush_request. emit.
  - unfold read_flush_request. do 3 take_step. cbn [concat]. rewrite app_nil_r. eapply reads_at; [|exact Hr]. len.
Qed.

Lemma reads_no_channel n : reads n get_no_channel (le_bytes 4 (repr_code CH_None)) tt.
Proof.
  unfold get_no_channel. rewrite <- (app_nil_r (le_bytes 4 _)). eapply reads_bind; [by apply reads_repr|]. by apply reads_assert.
Qed.

Record read_request_ok (r : ReadRequest) : Prop := {
  rqk_flags : in_range u8_max (rq_flags r);
  rqk_length : in_range u32_max (rq_length r);
  rqk_offset : in_range u64_max (rq_offset r);
  rqk_file_id : file_id_ok (rq_file_id r);
  rqk_minimum : in_range u32_max (rq_minimum_count r)
}.

Lemma read_request_law n r : read_request_ok r -> body_law n (write_read_request r) read_read_request r.
Proof.
  intros [H1 H2 H3 H4 H5]. destruct r as [f l o fid m]. cbn [rq_flags rq_length rq_offset rq_file_id rq_minimum_count] in *.
  destruct (file_id_law (n + 16) fid H4) as (y & Hw & Hr & Hy). apply body_exact.
  exists (concat [le_bytes 2 49; le_bytes 1 0; le_bytes 1 f; le_bytes 4 l; le_bytes 8 o; y; le_bytes 4 m;
    le_bytes 4 (repr_code CH_None); le_bytes 4 0; le_bytes 2 0; le_bytes 2 0; le_bytes 1 0]). split.
  - unfold write_read_request. cbn [rq_flags rq_length rq_offset rq_file_id rq_minimum_count]. emit.
  - unfold read_read_request. do 7 take_step. eapply reads_segs; [apply reads_no_channel|]. do 4 take_step. apply reads_ret.
Qed.

Record write_request_ok (r : WriteRequest) : Prop := {
  wqk_length : in_range u32_max (wq_length r);
  wqk_offset : in_range u64_max (wq_offset r);
  wqk_file_id : file_id_ok (wq_file_id r);
  wqk_flags : in_range u32_max (wq_flags r)
}.

Lemma write_request_law n r :
  body_start n -> write_request_ok r -> body_law n (write_write_request r) read_write_request r.
Proof.
  intros [_ Hn] [H1 H2 H3 H4]. destruct r as [l o fid f]. cbn [wq_length wq_offset wq_file_id wq_flags] in *.
  destruct (file_id_law (n + 16) fid H3) as (y & Hw & Hr & Hy). apply body_exact.
  pose proof (writes_ret (n + 48)) as Hz.
  exists (concat [le_bytes 2 49; le_bytes 2 (Z.of_nat (n + 48)); le_bytes 4 l; le_bytes 8 o; y;
    le_bytes 4 (repr_code CH_None); le_bytes 4 0; le_bytes 2 0; le_bytes 2 0; le_bytes 4 f; []]). split.
  - unfold write_write_request. cbn [wq_length wq_offset wq_file_id wq_flags]. emit.
  - unfold read_write_request. do 5 take_step. eapply reads_segs; [apply reads_no_channel|]. do 4 take_step. apply reads_ret.
Qed.

Lemma write_response_law n c : in_range u32_max c -> body_law n (write_write_response c) read_write_response c.
Proof.
  intros H. apply body_exact. exists (concat [le_bytes 2 17; le_bytes 2 0; le_bytes 4 c; le_bytes 4 0; le_bytes 2 0; le_bytes 2 0]). split.
  - unfold write_write_response. emit.
  - unfold read_write_response. do 6 take_step. apply reads_ret.
Qed.

(** ** Locks *)

Definition lock_element_ok (l : LockElement) : Prop :=
  in_range u64_max (le_offset l) /\ in_range u64_max (le_length l) /\ in_range u32_max (le_flags l).

Lemma lock_element_law n l :
  lock_element_ok l -> exists x, writes n (write_lock_element l) x /\ reads n read_lock_element x l /\ zlen x = 24.
Proof.
  intros (H1 & H2 & H3). destruct l as [o l f]. cbn [le_offset le_length le_flags] in *.
  exists (concat [le_bytes 8 o; le_bytes 8 l; le_bytes 4 f; le_bytes 4 0]). split_and!.
  - unfold write_lock_element. cbn [le_offset le_length le_flags]. emit.
  - unfold read_lock_element. do 4 take_step. apply reads_ret.
  - len.
Qed.

Record lock_request_ok (r : LockRequest) : Prop := {
  lqk_sequence : in_range u32_max (lq_lock_sequence r);
  lqk_file_id : file_id_ok (lq_file_id r);
  lqk_count : zlen (lq_locks r) <= u16_max;
  lqk_locks : Forall lock_element_ok (lq_locks r)
}.

Lemma lock_request_law n r : lock_request_ok r -> body_law n (write_lock_request r) read_lock_request r.
Proof.
  intros [H1 H2 H3 H4]. destruct r as [s fid l]. cbn [lq_lock_sequence lq_file_id lq_locks] in *. apply body_exact.
  destruct (file_id_law (n + 8) fid H2) as (y & Hw & Hr & Hy).
  destruct (fixed_list_law _ _ _ _ lock_element_law l (n + 24) H4) as (z & Hzw & Hzr & Hz).
  pose proof (writes_count (n + 2) 2 l ltac:(unfold zlen in *; cbn; ints)) as Hc.
  exists (concat [le_bytes 2 48; le_bytes 2 (zlen l); le_bytes 4 s; y; z]). split.
  - unfold write_lock_request. cbn [lq_lock_sequence lq_file_id lq_locks]. emit.
  - unfold read_lock_request. do 4 take_step. rewrite zlen_nat. take_step. apply reads_ret.
Qed.

(** ** Controls *)

Record ioctl_request_with (data : IoctlReqData -> Prop) (r : IoctlRequest) : Prop := {
  iqk_code : in_range u32_max (iq_ctl_code r);
  iqk_file_id : file_id_ok (iq_file_id r);
  iqk_input : in_range u32_max (iq_max_input_response r);
  iqk_output : in_range u32_max (iq_max_output_response r);
  iqk_flags : in_range u32_max (iq_flags r);
  iqk_buffer : data (iq_buffer r);
  iqk_codes : ioctl_codes_ok (iq_ctl_code r) (iq_flags r) (iq_buffer r);
  iqk_size : ioctl_data_size (iq_buffer r) <= u32_max
}.

Definition ioctl_request_ok : IoctlRequest -> Prop := ioctl_request_with ioctl_data_ok.

Lemma ioctl_request_law n r :
  body_start n -> ioctl_request_ok r -> body_law n (write_ioctl_request r) read_ioctl_request r.
Proof.
  intros [_ Hn] [H1 H2 H3 H4 H5 H6 H7 H8]. destruct r as [c fid mi mo f d].
  cbn [iq_ctl_code iq_file_id iq_max_input_response iq_max_output_response iq_flags iq_buffer] in *. apply body_exact.
  destruct (file_id_law (n + 8) fid H2) as (y & Hw & Hr & Hy).
  destruct (read_ioctl_data_law (n + 56) c f d H6 H7) as (z & Hzw & Hzr & Hz).
  exists (concat [le_bytes 2 57; le_bytes 2 0; le_bytes 4 c; y; le_bytes 4 (Z.of_nat (n + 56)); le_bytes 4 (zlen z); le_bytes 4 mi;
    le_bytes 4 0; le_bytes 4 0; le_bytes 4 mo; le_bytes 4 f; le_bytes 4 0; z]). split.
  - unfold write_ioctl_request.
    cbn [iq_ctl_code iq_file_id iq_max_input_response iq_max_output_response iq_flags iq_buffer]. emit.
  - unfold read_ioctl_request. do 12 take_step. cbn [snd].
    eapply reads_segs; [apply reads_take_seek; [eapply reads_to_at; [|exact Hzr]; len|apply zlen_nat]|]. apply reads_ret.
Qed.

Record ioctl_response_fits (r : IoctlResponse) : Prop := {
  isk_code : in_range u32_max (is_ctl_code r);
  isk_file_id : file_id_ok (is_file_id r);
  isk_out : zlen (is_out_buffer r) <= u32_max
}.

Definition ioctl_response_ok (r : IoctlResponse) : Prop := ioctl_response_fits r /\ is_in_buffer r = [].

Lemma ioctl_response_law n r :
  body_start n -> ioctl_response_ok r -> body_law n (write_ioctl_response r) read_ioctl_response r.
Proof.
  intros [_ Hn] [[H1 H2 H4] H3]. destruct r as [c fid i o]. cbn [is_ctl_code is_file_id is_in_buffer is_out_buffer] in *. subst i.
  destruct (file_id_law (n + 8) fid H2) as (y & Hw & Hr & Hy). apply body_exact.
  pose proof (writes_count (n + 28) 4 (@nil Z) ltac:(done)) as Hc1. change (zlen []) with 0 in Hc1.
  pose proof (writes_count (n + 36) 4 o ltac:(unfold zlen in *; cbn; ints)) as Hc2. pose proof (writes_all (n + 48) o) as Ho.
  exists (concat [le_bytes 2 49; le_bytes 2 0; le_bytes 4 c; y; le_bytes 4 (Z.of_nat (n + 48)); le_bytes 4 0;
    le_bytes 4 (Z.of_nat (n + 48)); le_bytes 4 (zlen o); le_bytes 4 0; le_bytes 4 0; []; o]). split.
  - unfold write_ioctl_response. cbn [is_ctl_code is_file_id is_in_buffer is_out_buffer]. emit.
  - unfold read_ioctl_response. do 6 take_step. eapply reads_skip; [by apply reads_assert|]. take_step.
    eapply reads_skip; [apply reads_assert; cbn [snd]; apply orb_true_intro; right; apply bool_decide_eq_true_2; lia|].
    do 3 take_step. eapply reads_skip; [apply reads_seek; cbn [snd]; len|]. eapply reads_segs; [apply (reads_exact' _ _ []); done|].
    eapply reads_skip; [apply reads_seek; cbn [snd]; len|]. rewrite zlen_nat. eapply reads_segs; [apply reads_exact|]. apply reads_ret.
Qed.
