(* ===== verification/Queries.v ===== *)
(** Queries and notifications (crates/smb-msg/src/query_dir.rs, notify.rs, info/, oplock.rs, error.rs,
    and the list items of smb-fscc/src/): directories, change notifications, information that is
    queried and set, oplock and lease breaks, and error responses. *)
From S2P Require Import Prelude Effects Bytes Header Compression Crypto Dialects Stream Codec Security.
From S2P Require Import ChainedList CreateContexts.
Local Open Scope Z_scope.

(** ** Directories *)

Inductive QueryDirectoryInfoClass :=
| QD_Directory | QD_FullDirectory | QD_IdFullDirectory | QD_BothDirectory | QD_IdBothDirectory | QD_Names
| QD_IdExtdDirectory | QD_Id64ExtdDirectory | QD_Id64ExtdBothDirectory | QD_IdAllExtdDirectory | QD_IdAllExtdBothDirectory.

#[export] Instance QueryDirectoryInfoClass_repr : Repr QueryDirectoryInfoClass := {|
  repr_code c := match c with
    | QD_Directory => 0x01 | QD_FullDirectory => 0x02 | QD_IdFullDirectory => 0x26 | QD_BothDirectory => 0x03
    | QD_IdBothDirectory => 0x25 | QD_Names => 0x0c | QD_IdExtdDirectory => 0x3c | QD_Id64ExtdDirectory => 0x4e
    | QD_Id64ExtdBothDirectory => 0x4f | QD_IdAllExtdDirectory => 0x50 | QD_IdAllExtdBothDirectory => 0x51 end;
  repr_all := [QD_Directory; QD_FullDirectory; QD_IdFullDirectory; QD_BothDirectory; QD_IdBothDirectory; QD_Names;
    QD_IdExtdDirectory; QD_Id64ExtdDirectory; QD_Id64ExtdBothDirectory; QD_IdAllExtdDirectory; QD_IdAllExtdBothDirectory]
|}.

Record QueryDirectoryRequest := mkQueryDirectoryRequest {
  dq_file_information_class : QueryDirectoryInfoClass;
  dq_flags : Z;
  dq_file_index : Z;
  dq_file_id : FileId;
  dq_output_buffer_length : Z;
  dq_file_name : list Z
}.

Definition index_specified (flags : Z) : bool := Z.testbit flags 2.

Definition write_query_directory_request (r : QueryDirectoryRequest) : bin unit :=
  _ ← put 2 33;
  _ ← put_repr 1 (dq_file_information_class r);
  _ ← put 1 (dq_flags r);
  _ ← bin_assert (index_specified (dq_flags r) || bool_decide (dq_file_index r = 0));
  _ ← put 4 (dq_file_index r);
  _ ← write_file_id (dq_file_id r);
  file_name_offset ← put_marker 2;
  _ ← put_wide_size 2 (dq_file_name r);
  _ ← put 4 (dq_output_buffer_length r);
  write_aoff (write_sized_wide (dq_file_name r)) file_name_offset.

Definition read_query_directory_request : bin QueryDirectoryRequest :=
  _ ← get_const 2 33;
  class ← get_repr 1;
  flags ← get 1;
  file_index ← get 4;
  file_id ← read_file_id;
  file_name_offset ← get_marker 2;
  file_name_length ← get 2;
  output_buffer_length ← get 4;
  _ ← seek_start (Z.to_nat file_name_offset.2);
  file_name ← read_sized_wide file_name_length;
  mret (mkQueryDirectoryRequest class flags file_index file_id output_buffer_length file_name).

(** Bytes at an offset, limited to their length. *)
Definition read_bytes_at (offset length : Z) : bin bytes :=
  _ ← seek_start (Z.to_nat offset); take_seek (Z.to_nat length) bytes_until_eof.

Definition write_query_directory_response (output_buffer : bytes) : bin unit :=
  _ ← put 2 9;
  output_buffer_offset ← put_marker 2;
  _ ← put_count 4 output_buffer;
  write_aoff (write_all output_buffer) output_buffer_offset.
Definition read_query_directory_response : bin bytes :=
  _ ← get_const 2 9;
  output_buffer_offset ← get_marker 2;
  output_buffer_length ← get 4;
  read_bytes_at output_buffer_offset.2 output_buffer_length.

(** ** Change notifications *)

Record ChangeNotifyRequest := mkChangeNotifyRequest {
  nn_flags : Z;
  nn_output_buffer_length : Z;
  nn_file_id : FileId;
  nn_completion_filter : Z
}.

Definition write_change_notify_request (r : ChangeNotifyRequest) : bin unit :=
  _ ← put 2 32;
  _ ← put 2 (nn_flags r);
  _ ← put 4 (nn_output_buffer_length r);
  _ ← write_file_id (nn_file_id r);
  _ ← put 4 (nn_completion_filter r);
  put 4 0.
Definition read_change_notify_request : bin ChangeNotifyRequest :=
  _ ← get_const 2 32;
  flags ← get 2;
  output_buffer_length ← get 4;
  file_id ← read_file_id;
  completion_filter ← get 4;
  _ ← get 4;
  mret (mkChangeNotifyRequest flags output_buffer_length file_id completion_filter).

Inductive NotifyAction :=
| NA_Added | NA_Removed | NA_Modified | NA_RenamedOldName | NA_RenamedNewName | NA_AddedStream | NA_RemovedStream
| NA_ModifiedStream | NA_RemovedByDelete | NA_IdNotTunnelled | NA_TunnelledIdCollision.
#[export] Instance NotifyAction_repr : Repr NotifyAction := {|
  repr_code a := match a with
    | NA_Added => 1 | NA_Removed => 2 | NA_Modified => 3 | NA_RenamedOldName => 4 | NA_RenamedNewName => 5
    | NA_AddedStream => 6 | NA_RemovedStream => 7 | NA_ModifiedStream => 8 | NA_RemovedByDelete => 9
    | NA_IdNotTunnelled => 10 | NA_TunnelledIdCollision => 11 end;
  repr_all := [NA_Added; NA_Removed; NA_Modified; NA_RenamedOldName; NA_RenamedNewName; NA_AddedStream; NA_RemovedStream;
    NA_ModifiedStream; NA_RemovedByDelete; NA_IdNotTunnelled; NA_TunnelledIdCollision] |}.

Record FileNotifyInformation := mkNotify { fn_action : NotifyAction; fn_file_name : list Z }.

Definition write_notify (f : FileNotifyInformation) : bin unit :=
  _ ← put_repr 4 (fn_action f); _ ← put_wide_size 4 (fn_file_name f); write_sized_wide (fn_file_name f).
Definition read_notify : bin FileNotifyInformation :=
  action ← get_repr 4; length ← get 4; name ← read_sized_wide length; mret (mkNotify action name).

(** Nothing is written for an empty list, and the offset and the length stay zero. *)
Definition write_change_notify_response (buffer : list FileNotifyInformation) : bin unit :=
  _ ← put 2 9;
  output_buffer_offset ← put_marker 2;
  output_buffer_length ← put_marker 4;
  match buffer with
  | [] => mret tt
  | _ => write_aoff_size (write_chained 4 write_notify buffer) output_buffer_offset output_buffer_length
  end.
Definition read_change_notify_response : bin (list FileNotifyInformation) :=
  _ ← get_const 2 9;
  output_buffer_offset ← get_marker 2;
  output_buffer_length ← get_marker 4;
  _ ← seek_start (Z.to_nat output_buffer_offset.2);
  take_seek (Z.to_nat output_buffer_length.2) (read_chained 4 read_notify).

(** The only notification of a server. *)
Definition write_server_notification (structure_size : Z) : bin unit :=
  _ ← put 2 structure_size; _ ← put 2 0; _ ← put 4 0; put 4 0.
Definition read_server_notification : bin Z :=
  structure_size ← get 2;
  _ ← get 2;
  _ ← get_enum 4 (fun v => if bool_decide (v = 0) then Some tt else None);
  _ ← get 4;
  mret structure_size.

(** ** Information *)

Inductive InfoType := IT_File | IT_FileSystem | IT_Security | IT_Quota.
#[export] Instance InfoType_eq : EqDecision InfoType.
Proof. solve_decision. Defined.
#[export] Instance InfoType_repr : Repr InfoType := {|
  repr_code t := match t with IT_File => 1 | IT_FileSystem => 2 | IT_Security => 3 | IT_Quota => 4 end;
  repr_all := [IT_File; IT_FileSystem; IT_Security; IT_Quota] |}.

Inductive QueryFileInfoClass :=
| QF_Access | QF_Alignment | QF_All | QF_AlternateName | QF_AttributeTag | QF_Basic | QF_Compression | QF_Ea | QF_FullEa
| QF_Id | QF_Internal | QF_Mode | QF_NetworkOpen | QF_NormalizedName | QF_Pipe | QF_PipeLocal | QF_PipeRemote
| QF_Position | QF_Standard | QF_Stream.
#[export] Instance QueryFileInfoClass_eq : EqDecision QueryFileInfoClass.
Proof. solve_decision. Defined.
#[export] Instance QueryFileInfoClass_repr : Repr QueryFileInfoClass := {|
  repr_code c := match c with
    | QF_Access => 8 | QF_Alignment => 17 | QF_All => 18 | QF_AlternateName => 21 | QF_AttributeTag => 35 | QF_Basic => 4
    | QF_Compression => 28 | QF_Ea => 7 | QF_FullEa => 15 | QF_Id => 59 | QF_Internal => 6 | QF_Mode => 16
    | QF_NetworkOpen => 34 | QF_NormalizedName => 48 | QF_Pipe => 23 | QF_PipeLocal => 24 | QF_PipeRemote => 25
    | QF_Position => 14 | QF_Standard => 5 | QF_Stream => 22 end;
  repr_all := [QF_Access; QF_Alignment; QF_All; QF_AlternateName; QF_AttributeTag; QF_Basic; QF_Compression; QF_Ea; QF_FullEa;
    QF_Id; QF_Internal; QF_Mode; QF_NetworkOpen; QF_NormalizedName; QF_Pipe; QF_PipeLocal; QF_PipeRemote; QF_Position;
    QF_Standard; QF_Stream] |}.

Inductive QueryFileSystemInfoClass :=
| QS_FsAttribute | QS_FsControl | QS_FsDevice | QS_FsFullSize | QS_FsObjectId | QS_FsSectorSize | QS_FsSize | QS_FsVolume.
#[export] Instance QueryFileSystemInfoClass_eq : EqDecision QueryFileSystemInfoClass.
Proof. solve_decision. Defined.
#[export] Instance QueryFileSystemInfoClass_repr : Repr QueryFileSystemInfoClass := {|
  repr_code c := match c with
    | QS_FsAttribute => 5 | QS_FsControl => 6 | QS_FsDevice => 4 | QS_FsFullSize => 7 | QS_FsObjectId => 8
    | QS_FsSectorSize => 11 | QS_FsSize => 3 | QS_FsVolume => 1 end;
  repr_all := [QS_FsAttribute; QS_FsControl; QS_FsDevice; QS_FsFullSize; QS_FsObjectId; QS_FsSectorSize; QS_FsSize; QS_FsVolume] |}.

Inductive QueryInfoClass :=
| QIC_File (c : QueryFileInfoClass) | QIC_FileSystem (c : QueryFileSystemInfoClass) | QIC_Empty.

#[export] Instance QueryInfoClass_eq : EqDecision QueryInfoClass.
Proof. solve_decision. Defined.

Definition write_query_info_class (info_type : InfoType) (c : QueryInfoClass) : bin unit :=
  match c with
  | QIC_File c => _ ← bin_assert (bool_decide (info_type = IT_File)); put_repr 1 c
  | QIC_FileSystem c => _ ← bin_assert (bool_decide (info_type = IT_FileSystem)); put_repr 1 c
  | QIC_Empty => put 1 0
  end.

Definition read_query_info_class (info_type : InfoType) : bin QueryInfoClass :=
  read_variants
    [_ ← bin_assert (bool_decide (info_type = IT_File)); c ← get_repr 1; mret (QIC_File c);
     _ ← bin_assert (bool_decide (info_type = IT_FileSystem)); c ← get_repr 1; mret (QIC_FileSystem c);
     _ ← get_const 1 0; mret QIC_Empty].

(** Items of the lists of extended attributes and quotas. *)
Definition write_get_ea (name : bytes) : bin unit := _ ← put_count 1 name; write_null 1 name.
Definition read_get_ea : bin bytes := length ← get 1; take_seek (Z.to_nat length + 1) (read_null 1).

Definition write_get_quota (sid : SID) : bin unit := sid_length ← put_marker 4; write_size (write_sid sid) sid_length.
Definition read_get_quota : bin SID := sid_length ← get_marker 4; take_seek (Z.to_nat sid_length.2) read_sid.

Record FileQuotaInformation := mkQuota {
  qu_change_time : Z;
  qu_quota_used : Z;
  qu_quota_threshold : Z;
  qu_quota_limit : Z;
  qu_sid : SID
}.

Definition write_quota (q : FileQuotaInformation) : bin unit :=
  sid_length ← put_marker 4;
  _ ← put 8 (qu_change_time q);
  _ ← put 8 (qu_quota_used q);
  _ ← put 8 (qu_quota_threshold q);
  _ ← put 8 (qu_quota_limit q);
  write_size (write_sid (qu_sid q)) sid_length.
Definition read_quota : bin FileQuotaInformation :=
  sid_length ← get_marker 4;
  change_time ← get 8;
  used ← get 8;
  threshold ← get 8;
  limit ← get 8;
  sid ← take_seek (Z.to_nat sid_length.2) read_sid;
  mret (mkQuota change_time used threshold limit sid).

Record QueryQuotaInfo := mkQueryQuota {
  qq_return_single : bool;
  qq_restart_scan : bool;
  qq_get_quota_info_content : option (list SID);
  qq_sid : option SID
}.

(** One of the two is there. *)
Definition quota_choice (content : option (list SID)) (sid : option SID) : bool :=
  negb (eqb (bool_decide (content = None)) (bool_decide (sid = None))).

Definition write_query_quota (q : QueryQuotaInfo) : bin unit :=
  _ ← write_boolean (qq_return_single q);
  _ ← write_boolean (qq_restart_scan q);
  _ ← put 2 0;
  sid_list_length ← put_marker 4;
  start_sid_length ← put_marker 4;
  _ ← put_marker 4;
  _ ← (match qq_get_quota_info_content q with
       | Some (sid :: sids) => write_size (write_chained 4 write_get_quota (sid :: sids)) sid_list_length
       | _ => mret tt
       end);
  _ ← bin_assert (quota_choice (qq_get_quota_info_content q) (qq_sid q));
  match qq_sid q with
  | Some sid => write_size (write_sid sid) start_sid_length
  | None => mret tt
  end.

Definition read_query_quota : bin QueryQuotaInfo :=
  return_single ← read_boolean;
  restart_scan ← read_boolean;
  _ ← get 2;
  sid_list_length ← get_marker 4;
  start_sid_length ← get_marker 4;
  start_sid_offset ← get_marker 4;
  content ← get_if (0 <? sid_list_length.2) (take_seek (Z.to_nat sid_list_length.2) (read_chained 4 read_get_quota));
  sid ← get_if (0 <? start_sid_length.2)
    (pos ← stream_position; _ ← seek_start (pos + Z.to_nat start_sid_offset.2); read_sid);
  _ ← bin_assert (quota_choice content sid);
  mret (mkQueryQuota return_single restart_scan content sid).

Inductive GetInfoRequestData := GI_Quota (q : QueryQuotaInfo) | GI_EaInfo (values : list bytes) | GI_None.

Definition wants_ea (c : QueryInfoClass) (info_type : InfoType) : bool :=
  bool_decide (c = QIC_File QF_FullEa) && bool_decide (info_type = IT_File).

Definition write_get_info_data (c : QueryInfoClass) (info_type : InfoType) (d : GetInfoRequestData) : bin unit :=
  match d with
  | GI_Quota q => _ ← bin_assert (bool_decide (info_type = IT_Quota)); write_query_quota q
  | GI_EaInfo l => _ ← bin_assert (wants_ea c info_type); write_chained 4 write_get_ea l
  | GI_None => mret tt
  end.

Definition read_get_info_data (c : QueryInfoClass) (info_type : InfoType) : bin GetInfoRequestData :=
  read_variants
    [_ ← bin_assert (bool_decide (info_type = IT_Quota)); q ← read_query_quota; mret (GI_Quota q);
     _ ← bin_assert (wants_ea c info_type); l ← read_chained 4 read_get_ea; mret (GI_EaInfo l);
     _ ← bin_assert (bool_decide (info_type <> IT_Quota) && negb (wants_ea c info_type)); mret GI_None].

Record QueryInfoRequest := mkQueryInfoRequest {
  gi_info_type : InfoType;
  gi_info_class : QueryInfoClass;
  gi_output_buffer_length : Z;
  gi_additional_info : Z;
  gi_flags : Z;
  gi_file_id : FileId;
  gi_data : GetInfoRequestData
}.

Definition write_query_info_request (r : QueryInfoRequest) : bin unit :=
  _ ← put 2 41;
  _ ← put_repr 1 (gi_info_type r);
  _ ← write_query_info_class (gi_info_type r) (gi_info_class r);
  _ ← put 4 (gi_output_buffer_length r);
  input_buffer_offset ← put_marker 2;
  _ ← put 2 0;
  input_buffer_length ← put_marker 4;
  _ ← put 4 (gi_additional_info r);
  _ ← put 4 (gi_flags r);
  _ ← write_file_id (gi_file_id r);
  write_aoff_size (write_get_info_data (gi_info_class r) (gi_info_type r) (gi_data r)) input_buffer_offset input_buffer_length.

Definition read_query_info_request : bin QueryInfoRequest :=
  _ ← get_const 2 41;
  info_type ← get_repr 1;
  info_class ← read_query_info_class info_type;
  output_buffer_length ← get 4;
  _ ← get 2;
  _ ← get 2;
  input_buffer_length ← get_marker 4;
  additional_info ← get 4;
  flags ← get 4;
  file_id ← read_file_id;
  data ← take_seek (Z.to_nat input_buffer_length.2) (read_get_info_data info_class info_type);
  mret (mkQueryInfoRequest info_type info_class output_buffer_length additional_info flags file_id data).

Definition write_query_info_response (data : bytes) : bin unit :=
  _ ← put 2 9;
  output_buffer_offset ← put_marker 2;
  output_buffer_length ← put_marker 4;
  write_aoff_size (write_all data) output_buffer_offset output_buffer_length.
Definition read_query_info_response : bin bytes :=
  _ ← get_const 2 9;
  output_buffer_offset ← get_marker 2;
  output_buffer_length ← get_marker 4;
  read_bytes_at output_buffer_offset.2 output_buffer_length.2.

(** [query_info_data!]: what is queried or set, by its type. The information of files and of file
    systems stays raw. *)
Inductive InfoData :=
| ID_File (raw : bytes) | ID_FileSystem (raw : bytes) | ID_Security (d : SecurityDescriptor)
| ID_Quota (l : list FileQuotaInformation).

Definition info_type (d : InfoData) : InfoType :=
  match d with ID_File _ => IT_File | ID_FileSystem _ => IT_FileSystem | ID_Security _ => IT_Security | ID_Quota _ => IT_Quota end.

Definition write_info_data (d : InfoData) : bin unit :=
  match d with
  | ID_File raw | ID_FileSystem raw => write_all raw
  | ID_Security d => write_security_descriptor d
  | ID_Quota l => write_chained 4 write_quota l
  end.

Definition read_info_data (t : InfoType) : bin InfoData :=
  match t with
  | IT_File => raw ← bytes_until_eof; mret (ID_File raw)
  | IT_FileSystem => raw ← bytes_until_eof; mret (ID_FileSystem raw)
  | IT_Security => d ← read_security_descriptor; mret (ID_Security d)
  | IT_Quota => l ← read_chained 4 read_quota; mret (ID_Quota l)
  end.

(** [QueryInfoResponse::parse] *)
Definition parse_info (t : InfoType) (data : bytes) : option (Stream * result BinError InfoData) :=
  read_info_data t (mkStream data O).

Inductive SetFileInfoClass :=
| SF_Allocation | SF_Basic | SF_Disposition | SF_EndOfFile | SF_FullEa | SF_Link | SF_Mode | SF_Pipe | SF_Position
| SF_Rename | SF_ShortName | SF_ValidDataLength.
#[export] Instance SetFileInfoClass_repr : Repr SetFileInfoClass := {|
  repr_code c := match c with
    | SF_Allocation => 19 | SF_Basic => 4 | SF_Disposition => 13 | SF_EndOfFile => 20 | SF_FullEa => 15 | SF_Link => 11
    | SF_Mode => 16 | SF_Pipe => 23 | SF_Position => 14 | SF_Rename => 10 | SF_ShortName => 40 | SF_ValidDataLength => 39 end;
  repr_all := [SF_Allocation; SF_Basic; SF_Disposition; SF_EndOfFile; SF_FullEa; SF_Link; SF_Mode; SF_Pipe; SF_Position;
    SF_Rename; SF_ShortName; SF_ValidDataLength] |}.

Inductive SetFileSystemInfoClass := SY_FsControl | SY_FsObjectId.
#[export] Instance SetFileSystemInfoClass_repr : Repr SetFileSystemInfoClass := {|
  repr_code c := match c with SY_FsControl => 6 | SY_FsObjectId => 8 end; repr_all := [SY_FsControl; SY_FsObjectId] |}.

Inductive SetInfoClass :=
| SI_File (c : SetFileInfoClass) | SI_FileSystem (c : SetFileSystemInfoClass) | SI_Security | SI_Quota.

Definition write_set_info_class (c : SetInfoClass) : bin unit :=
  match c with SI_File c => put_repr 1 c | SI_FileSystem c => put_repr 1 c | SI_Security | SI_Quota => put 1 0 end.

Definition read_set_info_class : bin SetInfoClass :=
  read_variants
    [c ← get_repr 1; mret (SI_File c); c ← get_repr 1; mret (SI_FileSystem c); _ ← get_const 1 0; mret SI_Security;
     _ ← get_const 1 0; mret SI_Quota].

Record SetInfoRequest := mkSetInfoRequest {
  si_info_class : SetInfoClass;
  si_additional_information : Z;
  si_file_id : FileId;
  si_data : InfoData
}.

(** [SetInfoData::to_req]; [None] is its panic. *)
Definition to_req (data : InfoData) (info_class : SetInfoClass) (file_id : FileId) (additional_info : Z) : option SetInfoRequest :=
  match info_class, data with
  | SI_File _, ID_File _ | SI_FileSystem _, ID_FileSystem _ | SI_Security, ID_Security _ | SI_Quota, ID_Quota _ =>
      Some (mkSetInfoRequest info_class additional_info file_id data)
  | _, _ => None
  end.

Definition write_set_info_request (r : SetInfoRequest) : bin unit :=
  _ ← put 2 33;
  _ ← put_repr 1 (info_type (si_data r));
  _ ← write_set_info_class (si_info_class r);
  buffer_length ← put_marker 4;
  buffer_offset ← put_marker 2;
  _ ← put 2 0;
  _ ← put 4 (si_additional_information r);
  _ ← write_file_id (si_file_id r);
  write_aoff_size (write_info_data (si_data r)) buffer_offset buffer_length.

Definition read_set_info_request : bin SetInfoRequest :=
  _ ← get_const 2 33;
  info_type ← get_repr 1;
  info_class ← read_set_info_class;
  buffer_length ← get_marker 4;
  _ ← get 2;
  _ ← get 2;
  additional_information ← get 4;
  file_id ← read_file_id;
  data ← take_seek (Z.to_nat buffer_length.2) (read_info_data info_type);
  mret (mkSetInfoRequest info_class additional_information file_id data).

(** ** Breaks *)

Record OplockBreakMsg := mkOplockBreak { ob_oplock_level : Z; ob_file_id : FileId }.

Definition write_oplock_break (m : OplockBreakMsg) : bin unit :=
  _ ← put 2 24; _ ← put 1 (ob_oplock_level m); _ ← put 1 0; _ ← put 4 0; write_file_id (ob_file_id m).
Definition read_oplock_break : bin OplockBreakMsg :=
  _ ← get_const 2 24; level ← get 1; _ ← get 1; _ ← get 4; file_id ← read_file_id; mret (mkOplockBreak level file_id).

Record LeaseBreakNotify := mkLeaseBreakNotify {
  lb_new_epoch : Z;
  lb_ack_required : Z;
  lb_lease_key : Guid;
  lb_current_lease_state : Z;
  lb_new_lease_state : Z
}.

Definition write_lease_break_notify (m : LeaseBreakNotify) : bin unit :=
  _ ← put 2 44;
  _ ← put 2 (lb_new_epoch m);
  _ ← put 4 (lb_ack_required m);
  _ ← write_guid (lb_lease_key m);
  _ ← put 4 (lb_current_lease_state m);
  _ ← put 4 (lb_new_lease_state m);
  _ ← put 4 0;
  _ ← put 4 0;
  put 4 0.
Definition read_lease_break_notify : bin LeaseBreakNotify :=
  _ ← get_const 2 44;
  new_epoch ← get 2;
  ack_required ← get 4;
  lease_key ← read_guid;
  current_lease_state ← get 4;
  new_lease_state ← get 4;
  _ ← get_const 4 0;
  _ ← get_const 4 0;
  _ ← get_const 4 0;
  mret (mkLeaseBreakNotify new_epoch ack_required lease_key current_lease_state new_lease_state).

Record LeaseBreakAckResponse := mkLeaseBreakAck { lk_lease_key : Guid; lk_lease_state : Z }.

Definition write_lease_break_ack (m : LeaseBreakAckResponse) : bin unit :=
  _ ← put 2 36; _ ← put 2 0; _ ← put 4 0; _ ← write_guid (lk_lease_key m); _ ← put 4 (lk_lease_state m); put 8 0.
Definition read_lease_break_ack : bin LeaseBreakAckResponse :=
  _ ← get_const 2 36; _ ← get 2; _ ← get 4; key ← read_guid; state ← get 4; _ ← get 8; mret (mkLeaseBreakAck key state).

(** ** Errors *)

Inductive ErrorId := EI_Default | EI_ShareRedirect.
#[export] Instance ErrorId_eq : EqDecision ErrorId.
Proof. solve_decision. Defined.
#[export] Instance ErrorId_repr : Repr ErrorId := {|
  repr_code i := match i with EI_Default => 0 | EI_ShareRedirect => 0x72645253 end; repr_all := [EI_Default; EI_ShareRedirect] |}.

Record ErrorResponseContext := mkErrorContext { ex_error_id : ErrorId; ex_error_data : bytes }.

Definition write_error_context (c : ErrorResponseContext) : bin unit :=
  _ ← write_align 8; _ ← put_count 4 (ex_error_data c); _ ← put_repr 4 (ex_error_id c); write_all (ex_error_data c).
Definition read_error_context : bin ErrorResponseContext :=
  _ ← read_align 8;
  error_data_length ← get 4;
  error_id ← get_repr 4;
  error_data ← read_exact (Z.to_nat error_data_length);
  mret (mkErrorContext error_id error_data).

Definition write_error_response (error_data : list ErrorResponseContext) : bin unit :=
  _ ← put 2 9;
  _ ← put_count 1 error_data;
  _ ← put 1 0;
  byte_count ← put_marker 4;
  write_size (write_list write_error_context error_data) byte_count.
Definition read_error_response : bin (list ErrorResponseContext) :=
  _ ← get_const 2 9;
  error_context_count ← get 1;
  _ ← get 1;
  byte_count ← get_marker 4;
  take_seek (Z.to_nat byte_count.2) (read_count (Z.to_nat error_context_count) read_error_context).

(** [ErrorResponse::find_context] and [as_u32], [as_u64] of a context, by the width. *)
Definition find_context (id : ErrorId) (l : list ErrorResponseContext) : option ErrorResponseContext :=
  List.find (fun c => bool_decide (ex_error_id c = id)) l.
Definition as_uint (w : nat) (c : ErrorResponseContext) : option Z :=
  if bool_decide (length (ex_error_data c) = w) then Some (le_value (ex_error_data c)) else None.
