(* ===== verification/QueryProps.v ===== *)
(** The layouts of queries and notifications: each is read back from what it is written as, except
    what shares its code or its size with something else. *)
From S2P Require Import Prelude Effects Bytes Header Compression Crypto Dialects Stream Codec Security ChainedList.
From S2P Require Import CreateContexts Negotiate Fsctl TreeConnect Messages Queries.
Local Open Scope Z_scope.

#[export] Instance QueryDirectoryInfoClass_laws : ReprLaws QueryDirectoryInfoClass. Proof. by intros []. Qed.
#[export] Instance NotifyAction_laws : ReprLaws NotifyAction. Proof. by intros []. Qed.
#[export] Instance InfoType_laws : ReprLaws InfoType. Proof. by intros []. Qed.
#[export] Instance QueryFileInfoClass_laws : ReprLaws QueryFileInfoClass. Proof. by intros []. Qed.
#[export] Instance QueryFileSystemInfoClass_laws : ReprLaws QueryFileSystemInfoClass. Proof. by intros []. Qed.
#[export] Instance SetFileInfoClass_laws : ReprLaws SetFileInfoClass. Proof. by intros []. Qed.
#[export] Instance SetFileSystemInfoClass_laws : ReprLaws SetFileSystemInfoClass. Proof. by intros []. Qed.
#[export] Instance ErrorId_laws : ReprLaws ErrorId. Proof. by intros []. Qed.

(** ** Directories *)

Record query_directory_request_with (name : list Z -> Prop) (r : QueryDirectoryRequest) : Prop := {
  dqk_flags : in_range u8_max (dq_flags r);
  dqk_index : in_range u32_max (dq_file_index r);
  dqk_specified : index_specified (dq_flags r) || bool_decide (dq_file_index r = 0) = true;
  dqk_file_id : file_id_ok (dq_file_id r);
  dqk_length : in_range u32_max (dq_output_buffer_length r);
  dqk_name : name (dq_file_name r)
}.

Definition query_directory_request_ok : QueryDirectoryRequest -> Prop := query_directory_request_with (name_ok u16_max).

Lemma query_directory_request_law n r :
  body_start n -> query_directory_request_ok r -> body_law n (write_query_directory_request r) read_query_directory_request r.
Proof.
  intros [_ Hn] [H1 H2 H3 H4 H5 (H6 & H7 & H8)]. destruct r as [c f i fid ol s].
  cbn [dq_file_information_class dq_flags dq_file_index dq_file_id dq_output_buffer_length dq_file_name] in *. apply body_exact.
  destruct (file_id_law (n + 8) fid H4) as (y & Hw & Hr & Hy).
  destruct (wide_law (n + 32) s (units_fit s H6) H7) as (z & Hzw & Hzr & Hz).
  pose proof (writes_wide_size (n + 26) 2 s ltac:(cbn; ints)) as Hc. pose proof (wide_size_nonneg s) as Hs.
  exists (concat [le_bytes 2 33; le_bytes 1 (repr_code c); le_bytes 1 f; le_bytes 4 i; y; le_bytes 2 (Z.of_nat (n + 32));
    le_bytes 2 (wide_size s); le_bytes 4 ol; z]). split.
  - unfold write_query_directory_request.
    cbn [dq_file_information_class dq_flags dq_file_index dq_file_id dq_output_buffer_length dq_file_name]. rewrite H3. emit.
  - unfold read_query_directory_request. take_step. eapply reads_segs; [apply reads_repr; by destruct c|]. cbv beta. do 6 take_step.
    eapply reads_skip; [apply reads_seek; cbn [snd]; len|]. take_step. apply reads_ret.
Qed.

Lemma reads_bytes_at n x offset size :
  offset = Z.of_nat n -> size = zlen x -> reads n (read_bytes_at offset size) x x.
Proof.
  intros -> ->. unfold read_bytes_at. rewrite Nat2Z.id, zlen_nat. eapply reads_skip; [by apply reads_seek|].
  by apply reads_take_seek; [apply reads_until_eof|].
Qed.

Lemma query_directory_response_law n b :
  body_start n -> zlen b <= u32_max -> body_law n (write_query_directory_response b) read_query_directory_response b.
Proof.
  intros [_ Hn] H. apply body_exact.
  pose proof (writes_count (n + 4) 4 b ltac:(unfold zlen in *; cbn; ints)) as Hc. pose proof (writes_all (n + 8) b) as Hb.
  exists (concat [le_bytes 2 9; le_bytes 2 (Z.of_nat (n + 8)); le_bytes 4 (zlen b); b]). split.
  - unfold write_query_directory_response. emit.
  - unfold read_query_directory_response. do 3 take_step. cbn [snd concat]. rewrite app_nil_r. apply reads_bytes_at; len.
Qed.

Lemma query_info_response_law n b :
  body_start n -> zlen b <= u32_max -> body_law n (write_query_info_response b) read_query_info_response b.
Proof.
  intros [_ Hn] H. apply body_exact. pose proof (writes_all (n + 8) b) as Hb.
  exists (concat [le_bytes 2 9; le_bytes 2 (Z.of_nat (n + 8)); le_bytes 4 (zlen b); b]). split.
  - unfold write_query_info_response. emit.
  - unfold read_query_info_response. do 3 take_step. cbn [snd concat]. rewrite app_nil_r. apply reads_bytes_at; len.
Qed.

(** ** Change notifications *)

Record change_notify_request_ok (r : ChangeNotifyRequest) : Prop := {
  nnk_flags : in_range u16_max (nn_flags r);
  nnk_length : in_range u32_max (nn_output_buffer_length r);
  nnk_file_id : file_id_ok (nn_file_id r);
  nnk_filter : in_range u32_max (nn_completion_filter r)
}.

Lemma change_notify_request_law n r :
  change_notify_request_ok r -> body_law n (write_change_notify_request r) read_change_notify_request r.
Proof.
  intros [H1 H2 H3 H4]. destruct r as [f l fid c]. cbn [nn_flags nn_output_buffer_length nn_file_id nn_completion_filter] in *.
  destruct (file_id_law (n + 8) fid H3) as (y & Hw & Hr & Hy). apply body_exact.
  exists (concat [le_bytes 2 32; le_bytes 2 f; le_bytes 4 l; y; le_bytes 4 c; le_bytes 4 0]). split.
  - unfold write_change_notify_request. cbn [nn_flags nn_output_buffer_length nn_file_id nn_completion_filter]. emit.
  - unfold read_change_notify_request. do 6 take_step. apply reads_ret.
Qed.

(** The size of a notification leaves room for the offset of the next. *)
Definition notify_ok (f : FileNotifyInformation) : Prop := name_ok u16_max (fn_file_name f).
Definition notify_size (f : FileNotifyInformation) : Z := 8 + wide_size (fn_file_name f).

Lemma notify_law n f :
  notify_ok f -> exists x, writes n (write_notify f) x /\ reads n read_notify x f /\ zlen x <= notify_size f.
Proof.
  intros (H1 & H2 & H3). unfold notify_size. destruct f as [a s]. cbn [fn_action fn_file_name] in *.
  destruct (wide_law (n + 8) s (units_fit s H1) H2) as (z & Hzw & Hzr & Hz).
  pose proof (writes_wide_size (n + 4) 4 s ltac:(cbn; ints)) as Hc. pose proof (wide_size_nonneg s) as Hs.
  exists (concat [le_bytes 4 (repr_code a); le_bytes 4 (wide_size s); z]). split_and!.
  - unfold write_notify. cbn [fn_action fn_file_name]. emit.
  - unfold read_notify. eapply reads_segs; [apply reads_repr; by destruct a|]. cbv beta. do 2 take_step. apply reads_ret.
  - len.
Qed.

(** A chained list of items of an exact layout. *)
Lemma chained_items {T} (write_item : T -> bin unit) (read_item : bin T) (fits : T -> Prop) (size : T -> Z) n l :
  (forall n a, fits a -> exists x, writes n (write_item a) x /\ reads n read_item x a /\ zlen x <= size a) ->
  Forall (fun a => fits a /\ 4 + size a + Z.of_nat 4 < 2 ^ 32) l -> (n `mod` 4 = 0)%nat ->
  exists x, writes n (write_chained 4 write_item l) x /\ reads_to_any n (read_chained 4 read_item) x l /\
    zlen x <= chained_size 4 size l.
Proof.
  intros Hlaw Hl Hn.
  destruct (chained_law 4 write_item read_item fits size) with (n := n) (l := l) as (x & H1 & H2 & H3 & _); [done| |done|done|by exists x].
  intros m a _ Ha. destruct (Hlaw (m + 4)%nat a Ha) as (x & H1 & H2 & H3). exists x. split_and!; [done|by apply reads_reads_any|done].
Qed.

Lemma mod8_mod4 n : (n `mod` 8 = 0)%nat -> (n `mod` 4 = 0)%nat.
Proof. intros H. apply Nat.Lcm0.mod_divide in H as [q ->]. replace (q * 8)%nat with (q * 2 * 4)%nat by lia. apply Nat.Div0.mod_mul. Qed.

(** No changes: the reader goes to the start of the message and finds an empty buffer there. *)
Lemma no_changes_law n : body_law n (write_change_notify_response []) read_change_notify_response [].
Proof.
  exists (concat [le_bytes 2 9; le_bytes 2 0; le_bytes 4 0]). split.
  - unfold write_change_notify_response. emit.
  - intros pre Hn. exists O. unfold read_change_notify_response. cbn [concat].
    eapply run_bind; [by apply reads_get_const|]. rewrite (app_assoc pre). eapply run_bind; [apply reads_get_marker; [done|len]|].
    rewrite (app_assoc (pre ++ _)). eapply run_bind; [apply reads_get_marker; [done|len]|]. done.
Qed.

Lemma change_notify_response_law n l :
  body_start n -> Forall notify_ok l -> chained_size 4 notify_size l <= u32_max ->
  body_law n (write_change_notify_response l) read_change_notify_response l.
Proof.
  intros Hb Hl Hsize. pose proof (proj2 Hb) as Hn. destruct (decide (l = [])) as [->|Hne]; [apply no_changes_law|]. apply body_any.
  destruct (chained_items write_notify read_notify notify_ok notify_size (n + 8) l) as (z & Hzw & Hzr & Hz).
  - intros. by apply notify_law.
  - eapply Forall_impl; [exact Hl|]. intros f Hf. split; [done|]. destruct Hf as (_ & _ & Hs). unfold notify_size. cbn. ints.
  - apply mod8_mod4. by apply body_aligned.
  - exists (concat [le_bytes 2 9; le_bytes 2 (Z.of_nat (n + 8)); le_bytes 4 (zlen z); z]). split.
    + unfold write_change_notify_response. destruct l as [|f l]; [done|]. emit.
    + unfold read_change_notify_response. do 3 take_step. cbn [snd].
      eapply reads_any_skip; [apply reads_seek; len|]. cbn [concat]. rewrite app_nil_r.
      apply reads_take_seek_any; [eapply reads_to_any_at; [|exact Hzr]; len|apply zlen_nat].
Qed.

Lemma server_notification_law n s :
  in_range u16_max s -> body_law n (write_server_notification s) read_server_notification s.
Proof.
  intros H. apply body_exact. exists (concat [le_bytes 2 s; le_bytes 2 0; le_bytes 4 0; le_bytes 4 0]). split.
  - unfold write_server_notification. emit.
  - unfold read_server_notification. do 2 take_step. eapply reads_segs; [by apply reads_enum|]. cbv beta. take_step. apply reads_ret.
Qed.

(** ** Information *)

(** A class goes with its type; no class goes with any. *)
Definition query_class_ok (t : InfoType) (c : QueryInfoClass) : Prop :=
  match c with QIC_File _ => t = IT_File | QIC_FileSystem _ => t = IT_FileSystem | QIC_Empty => True end.

Lemma query_info_class_law n t c :
  query_class_ok t c ->
  exists x, writes n (write_query_info_class t c) x /\ reads n (read_query_info_class t) x c /\ zlen x = 1.
Proof.
  intros H. destruct c as [c|c|]; cbn [query_class_ok write_query_info_class] in *.
  - subst t. exists (le_bytes 1 (repr_code c)). split_and!; [|apply reads_variants_head|done].
    + apply writes_assert; [done|apply writes_repr].
    + eapply reads_skip; [by apply reads_assert|]. apply reads_map, reads_repr. by destruct c.
  - subst t. exists (le_bytes 1 (repr_code c)). split_and!; [| |done].
    + apply writes_assert; [done|apply writes_repr].
    + apply reads_variants_next; [by apply refuses_bind, refuses_assert|]. apply reads_variants_head.
      eapply reads_skip; [by apply reads_assert|]. apply reads_map, reads_repr. by destruct c.
  - exists (le_bytes 1 0). split_and!; [apply writes_put| |done].
    assert (Hr : forall A `{Repr A} (b : bool) (f : A -> QueryInfoClass), repr_of_code (A:=A) 0 = None ->
      refuses n (_ ← bin_assert b; v ← get_repr 1; mret (f v)) (le_bytes 1 0)).
    { intros A ? [] f Hf; [|by apply refuses_bind, refuses_assert]. eapply refuses_skip; [by apply reads_assert|].
      apply refuses_bind. unfold get_repr. by apply refuses_enum. }
    do 2 (apply reads_variants_next; [by apply Hr|]). apply reads_variants_head. apply (reads_map n (get_const 1 0) (fun _ => QIC_Empty) _ tt).
    by apply reads_get_const.
Qed.

Definition get_ea_ok (name : bytes) : Prop := zlen name <= u8_max /\ Forall (fun b => 1 <= b <= 255) name.

Lemma get_ea_law n name :
  get_ea_ok name -> exists x, writes n (write_get_ea name) x /\ reads n read_get_ea x name /\ zlen x <= 257.
Proof.
  intros [H1 H2]. destruct (null_law (n + 1) 1 name) as (y & Hw & Hr & Hy); [done|eapply Forall_impl; [exact H2|]; cbn; lia|].
  pose proof (writes_count n 1 name ltac:(unfold zlen in *; cbn; ints)) as Hc.
  exists (concat [le_bytes 1 (zlen name); y]). split_and!.
  - unfold write_get_ea. emit.
  - unfold read_get_ea. take_step. rewrite zlen_nat. cbn [concat]. rewrite app_nil_r.
    apply reads_take_seek; [apply reads_reads_to; eapply reads_at; [|exact Hr]; len|len].
  - unfold u8_max in *. len.
Qed.

Lemma get_quota_law n sid :
  sid_ok sid -> exists x, writes n (write_get_quota sid) x /\ reads n read_get_quota x sid /\ zlen x <= 1032.
Proof.
  intros H. destruct (sid_law (n + 4) sid H) as (y & Hw & Hr & Hy). pose proof (sid_size_le sid H) as Hs.
  exists (concat [le_bytes 4 (zlen y); y]). split_and!.
  - unfold write_get_quota. emit.
  - unfold read_get_quota. take_step. cbn [snd]. rewrite zlen_nat. cbn [concat]. rewrite app_nil_r.
    apply reads_take_seek; [apply reads_reads_to; eapply reads_at; [|exact Hr]; len|done].
  - len.
Qed.

Record quota_ok (q : FileQuotaInformation) : Prop := {
  quk_fields : Forall (in_range u64_max) [qu_change_time q; qu_quota_used q; qu_quota_threshold q; qu_quota_limit q];
  quk_sid : sid_ok (qu_sid q)
}.

Lemma quota_law n q : quota_ok q -> exists x, writes n (write_quota q) x /\ reads n read_quota x q /\ zlen x <= 1064.
Proof.
  intros [H1 H2]. destruct q as [t u th l sid]. cbn [qu_change_time qu_quota_used qu_quota_threshold qu_quota_limit qu_sid] in *.
  rewrite !Forall_cons in H1. destruct H1 as (T1 & T2 & T3 & T4 & _).
  destruct (sid_law (n + 36) sid H2) as (y & Hw & Hr & Hy). pose proof (sid_size_le sid H2) as Hs.
  exists (concat [le_bytes 4 (zlen y); le_bytes 8 t; le_bytes 8 u; le_bytes 8 th; le_bytes 8 l; y]). split_and!.
  - unfold write_quota. cbn [qu_change_time qu_quota_used qu_quota_threshold qu_quota_limit qu_sid]. emit.
  - unfold read_quota. do 5 take_step. cbn [snd]. rewrite zlen_nat.
    eapply reads_segs; [apply reads_take_seek; [apply reads_reads_to; eapply reads_at; [|exact Hr]; len|done]|]. apply reads_ret.
  - len.
Qed.

(** One of a list of identifiers, which is not empty, and a single one. *)
Definition query_quota_size (q : QueryQuotaInfo) : Z :=
  16 + match qq_get_quota_info_content q with Some l => chained_size 4 (fun _ => 1032) l | None => 1028 end.

Definition query_quota_ok (q : QueryQuotaInfo) : Prop :=
  match qq_get_quota_info_content q, qq_sid q with
  | Some l, None => l <> [] /\ Forall sid_ok l /\ query_quota_size q <= u32_max
  | None, Some sid => sid_ok sid
  | _, _ => False
  end.

Lemma query_quota_law n q :
  (n `mod` 4 = 0)%nat -> query_quota_ok q ->
  exists x, writes n (write_query_quota q) x /\ reads_any n read_query_quota x q /\ zlen x <= query_quota_size q.
Proof.
  intros Hn H. destruct q as [rs rst o sid]. unfold query_quota_ok, query_quota_size, write_query_quota, read_query_quota in *.
  cbn [qq_return_single qq_restart_scan qq_get_quota_info_content qq_sid] in *. unfold write_boolean.
  destruct o as [l|], sid as [sid|]; [done| | |done].
  - destruct H as (Hne & Hl & Hs).
    destruct (chained_items write_get_quota read_get_quota sid_ok (fun _ => 1032) (n + 16) l) as (z & Hzw & Hzr & Hz).
    { intros. by apply get_quota_law. }
    { eapply Forall_impl; [exact Hl|]. intros s Hs'. split; [done|]. lia. }
    { by rewrite <- Nat.Div0.add_mod_idemp_l, Hn. }
    destruct l as [|s l]; [done|]. assert (Hz0 : 0 < zlen z).
    { destruct z; [|unfold zlen; cbn; lia]. exfalso. specialize (Hzr (replicate (n + 16) 0) (length_replicate _ _)).
      destruct Hzr as [pos Hp]. unfold read_chained in Hp. cbn [st_pos st_data] in Hp.
      rewrite bool_decide_eq_true_2 in Hp by (by rewrite app_nil_r, length_replicate). discriminate. }
    exists (concat [le_bytes 1 (if rs then 1 else 0); le_bytes 1 (if rst then 1 else 0); le_bytes 2 0; le_bytes 4 (zlen z);
      le_bytes 4 0; le_bytes 4 0; z]). split_and!.
    + emit.
    + do 6 take_step. cbn [snd]. cbn [concat]. rewrite app_nil_r.
      destruct (Z.ltb_spec 0 (zlen z)) as [_|]; [|lia]. cbn [get_if].
      eapply (reads_any_then _ _ _ _ (Some (s :: l))); [|intros st; by apply (run_bind _ _ st st None)].
      eapply reads_any_then; [apply reads_take_seek_any; [eapply reads_to_any_at; [|exact Hzr]; len|apply zlen_nat]|done].
    + len.
  - destruct (sid_law (n + 16) sid H) as (y & Hw & Hr & Hy). pose proof (sid_size_le sid H) as Hs.
    exists (concat [le_bytes 1 (if rs then 1 else 0); le_bytes 1 (if rst then 1 else 0); le_bytes 2 0; le_bytes 4 0;
      le_bytes 4 (zlen y); le_bytes 4 0; y]). split_and!.
    + emit.
    + apply reads_reads_any. do 6 take_step. cbn [snd].
      eapply reads_skip; [by apply (reads_get_if _ false _ [] None)|].
      eapply reads_segs; [apply (reads_get_if _ _ _ _ (Some sid)); split; [apply Z.ltb_lt; unfold zlen in *; lia|]|].
      * eapply reads_skip; [apply reads_position|]. eapply reads_skip; [apply reads_seek; cbn; lia|]. eapply reads_at; [|exact Hr]. len.
      * eapply reads_skip; [by apply reads_assert|]. apply reads_ret.
    + len.
Qed.

Definition get_info_data_ok (c : QueryInfoClass) (t : InfoType) (d : GetInfoRequestData) : Prop :=
  match d with
  | GI_Quota q => t = IT_Quota /\ query_quota_ok q
  | GI_EaInfo l => wants_ea c t = true /\ Forall get_ea_ok l /\ chained_size 4 (fun _ => 257) l <= u32_max
  | GI_None => t <> IT_Quota /\ wants_ea c t = false
  end.

Lemma quota_fits q : query_quota_ok q -> query_quota_size q <= u32_max.
Proof.
  unfold query_quota_ok, query_quota_size. destruct (qq_get_quota_info_content q), (qq_sid q); try done. by intros (_ & _ & H).
Qed.

Lemma get_info_data_law n c t d :
  (n `mod` 4 = 0)%nat -> get_info_data_ok c t d ->
  exists x, writes n (write_get_info_data c t d) x /\ reads_to_any n (read_get_info_data c t) x d /\ zlen x <= u32_max.
Proof.
  intros Hn H. unfold read_get_info_data. destruct d as [q|l|]; cbn [get_info_data_ok write_get_info_data] in *.
  - destruct H as [-> H]. pose proof (quota_fits q H) as Hs. destruct (query_quota_law n q Hn H) as (x & H1 & H2 & H3).
    exists x. split_and!; [by apply writes_assert| |lia]. apply reads_to_any_variants_head, reads_any_to_any.
    eapply reads_any_skip; [by apply reads_assert|]. by apply reads_any_map.
  - destruct H as (H1 & H2 & H3).
    destruct (chained_items write_get_ea read_get_ea get_ea_ok (fun _ => 257) n l) as (x & Hw & Hr & Hs); [|..|done|].
    { intros. by apply get_ea_law. }
    { eapply Forall_impl; [exact H2|]. intros s Hs'. split; [done|]. lia. }
    exists x. split_and!; [by apply writes_assert| |lia].
    assert (Ht : t = IT_File) by (unfold wants_ea in H1; by apply andb_true_iff in H1 as [_ ->%bool_decide_eq_true]). subst t.
    apply reads_to_any_variants_next; [by apply refuses_bind, refuses_assert|]. apply reads_to_any_variants_head.
    rewrite H1. by apply (reads_to_any_map n (read_chained 4 read_get_ea) GI_EaInfo).
  - destruct H as [H1 H2]. exists []. split_and!; [apply writes_ret| |done].
    apply reads_to_any_variants_next; [by apply refuses_bind, refuses_assert, bool_decide_eq_false_2|].
    apply reads_to_any_variants_next; [by apply refuses_bind, refuses_assert|]. apply reads_to_any_variants_head.
    apply reads_any_to_any, reads_reads_any. eapply reads_skip; [apply reads_assert|apply reads_ret].
    by rewrite bool_decide_eq_true_2, H2.
Qed.

Record query_info_request_ok (r : QueryInfoRequest) : Prop := {
  gik_class : query_class_ok (gi_info_type r) (gi_info_class r);
  gik_length : in_range u32_max (gi_output_buffer_length r);
  gik_additional : in_range u32_max (gi_additional_info r);
  gik_flags : in_range u32_max (gi_flags r);
  gik_file_id : file_id_ok (gi_file_id r);
  gik_data : get_info_data_ok (gi_info_class r) (gi_info_type r) (gi_data r)
}.

Lemma query_info_request_law n r :
  body_start n -> query_info_request_ok r -> body_law n (write_query_info_request r) read_query_info_request r.
Proof.
  intros Hb [H1 H2 H3 H4 H5 H6]. pose proof (proj2 Hb) as Hn. destruct r as [t c ol ai f fid d].
  cbn [gi_info_type gi_info_class gi_output_buffer_length gi_additional_info gi_flags gi_file_id gi_data] in *. apply body_any.
  destruct (query_info_class_law (n + 3) t c H1) as (k & Hkw & Hkr & Hk).
  destruct (file_id_law (n + 24) fid H5) as (y & Hw & Hr & Hy).
  destruct (get_info_data_law (n + 40) c t d) as (z & Hzw & Hzr & Hz); [by apply mod8_mod4, body_aligned|done|].
  exists (concat [le_bytes 2 41; le_bytes 1 (repr_code t); k; le_bytes 4 ol; le_bytes 2 (Z.of_nat (n + 40)); le_bytes 2 0;
    le_bytes 4 (zlen z); le_bytes 4 ai; le_bytes 4 f; y; z]). split.
  - unfold write_query_info_request.
    cbn [gi_info_type gi_info_class gi_output_buffer_length gi_additional_info gi_flags gi_file_id gi_data]. emit.
  - unfold read_query_info_request. take_step. eapply reads_any_segs; [apply reads_repr; by destruct t|]. cbv beta. do 8 take_step.
    cbn [snd concat]. rewrite app_nil_r. eapply reads_any_then; [|done].
    apply reads_take_seek_any; [eapply reads_to_any_at; [|exact Hzr]; len|apply zlen_nat].
Qed.

Definition info_data_ok (d : InfoData) : Prop :=
  match d with
  | ID_File raw | ID_FileSystem raw => zlen raw <= u32_max
  | ID_Security d => sd_ok d /\ sd_size d <= u32_max
  | ID_Quota l => Forall quota_ok l /\ chained_size 4 (fun _ => 1064) l <= u32_max
  end.

Lemma info_data_law n d :
  (n `mod` 4 = 0)%nat -> info_data_ok d ->
  exists x, writes n (write_info_data d) x /\ reads_to_any n (read_info_data (info_type d)) x d /\ zlen x <= u32_max.
Proof.
  intros Hn H. destruct d as [raw|raw|d|l]; cbn [info_data_ok write_info_data info_type read_info_data] in *.
  - exists raw. split_and!; [apply writes_all|apply reads_to_any_map, reads_to_reads_any, reads_until_eof|done].
  - exists raw. split_and!; [apply writes_all|apply reads_to_any_map, reads_to_reads_any, reads_until_eof|done].
  - destruct H as [H1 H2]. destruct (sd_law n d H1) as (x & Hw & Hr & Hx). exists x. split_and!; [done| |lia].
    apply reads_to_any_map, reads_any_to_any, reads_reads_any. done.
  - destruct H as [H1 H2]. destruct (chained_items write_quota read_quota quota_ok (fun _ => 1064) n l) as (x & Hw & Hr & Hx); [|..|done|].
    { intros. by apply quota_law. }
    { eapply Forall_impl; [exact H1|]. intros s Hs'. split; [done|]. lia. }
    exists x. split_and!; [done|by apply reads_to_any_map|lia].
Qed.

(** The class of a quota is read back as that of a security descriptor. *)
Definition set_class_ok (c : SetInfoClass) : Prop := match c with SI_Quota => False | _ => True end.

Lemma set_info_class_law n c :
  set_class_ok c -> exists x, writes n (write_set_info_class c) x /\ reads n read_set_info_class x c /\ zlen x = 1.
Proof.
  intros H. unfold read_set_info_class. destruct c as [c|c| |]; cbn [set_class_ok write_set_info_class] in *.
  - exists (le_bytes 1 (repr_code c)). split_and!; [apply writes_repr| |done].
    apply reads_variants_head, reads_map, reads_repr. by destruct c.
  - exists (le_bytes 1 (repr_code c)). split_and!; [apply writes_repr| |done].
    apply reads_variants_next; [apply refuses_bind; unfold get_repr; apply refuses_enum; by destruct c|].
    apply reads_variants_head, reads_map, reads_repr. by destruct c.
  - exists (le_bytes 1 0). split_and!; [apply writes_put| |done].
    do 2 (apply reads_variants_next; [apply refuses_bind; unfold get_repr; by apply refuses_enum|]).
    apply reads_variants_head, (reads_map n (get_const 1 0) (fun _ => SI_Security) _ tt). by apply reads_get_const.
  - done.
Qed.

Record set_info_request_with (class : SetInfoClass -> Prop) (r : SetInfoRequest) : Prop := {
  sik_class : class (si_info_class r);
  sik_additional : in_range u32_max (si_additional_information r);
  sik_file_id : file_id_ok (si_file_id r);
  sik_data : info_data_ok (si_data r)
}.

Definition set_info_request_ok : SetInfoRequest -> Prop := set_info_request_with set_class_ok.

Lemma set_info_request_law n r :
  body_start n -> set_info_request_ok r -> body_law n (write_set_info_request r) read_set_info_request r.
Proof.
  intros Hb [H1 H2 H3 H4]. pose proof (proj2 Hb) as Hn. destruct r as [c ai fid d].
  cbn [si_info_class si_additional_information si_file_id si_data] in *. apply body_any.
  destruct (set_info_class_law (n + 3) c H1) as (k & Hkw & Hkr & Hk).
  destruct (file_id_law (n + 16) fid H3) as (y & Hw & Hr & Hy).
  destruct (info_data_law (n + 32) d) as (z & Hzw & Hzr & Hz); [by apply mod8_mod4, body_aligned|done|].
  exists (concat [le_bytes 2 33; le_bytes 1 (repr_code (info_type d)); k; le_bytes 4 (zlen z); le_bytes 2 (Z.of_nat (n + 32));
    le_bytes 2 0; le_bytes 4 ai; y; z]). split.
  - unfold write_set_info_request. cbn [si_info_class si_additional_information si_file_id si_data]. emit.
  - unfold read_set_info_request. take_step. eapply reads_any_segs; [apply reads_repr; by destruct d|]. cbv beta. do 6 take_step.
    cbn [snd concat]. rewrite app_nil_r. eapply reads_any_then; [|done].
    apply reads_take_seek_any; [eapply reads_to_any_at; [|exact Hzr]; len|apply zlen_nat].
Qed.

(** ** Breaks *)

Definition oplock_break_ok (m : OplockBreakMsg) : Prop := in_range u8_max (ob_oplock_level m) /\ file_id_ok (ob_file_id m).

(** What is written and read of a structure, behind its size. *)
Definition sized_law {A} (n : nat) (size : Z) (w : bin unit) (r : bin A) (a : A) : Prop :=
  exists y, writes n w (le_bytes 2 size ++ y) /\ reads n r (le_bytes 2 size ++ y) a.

Lemma oplock_break_law n m : oplock_break_ok m -> sized_law n 24 (write_oplock_break m) read_oplock_break m.
Proof.
  intros [H1 H2]. destruct m as [l fid]. cbn [ob_oplock_level ob_file_id] in *.
  destruct (file_id_law (n + 8) fid H2) as (y & Hw & Hr & Hy).
  exists (concat [le_bytes 1 l; le_bytes 1 0; le_bytes 4 0; y]).
  change (le_bytes 2 24 ++ concat ?l) with (concat (le_bytes 2 24 :: l)). split.
  - unfold write_oplock_break. cbn [ob_oplock_level ob_file_id]. emit.
  - unfold read_oplock_break. do 5 take_step. apply reads_ret.
Qed.

Record lease_break_notify_ok (m : LeaseBreakNotify) : Prop := {
  lbk_epoch : in_range u16_max (lb_new_epoch m);
  lbk_ack : in_range u32_max (lb_ack_required m);
  lbk_key : guid_ok (lb_lease_key m);
  lbk_current : in_range u32_max (lb_current_lease_state m);
  lbk_new : in_range u32_max (lb_new_lease_state m)
}.

Lemma lease_break_notify_law n m :
  lease_break_notify_ok m -> sized_law n 44 (write_lease_break_notify m) read_lease_break_notify m.
Proof.
  intros [H1 H2 H3 H4 H5]. destruct m as [e a k c s].
  cbn [lb_new_epoch lb_ack_required lb_lease_key lb_current_lease_state lb_new_lease_state] in *.
  destruct (guid_law (n + 8) k H3) as (y & Hw & Hr & Hy).
  exists (concat [le_bytes 2 e; le_bytes 4 a; y; le_bytes 4 c; le_bytes 4 s; le_bytes 4 0; le_bytes 4 0; le_bytes 4 0]).
  change (le_bytes 2 44 ++ concat ?l) with (concat (le_bytes 2 44 :: l)). split.
  - unfold write_lease_break_notify.
    cbn [lb_new_epoch lb_ack_required lb_lease_key lb_current_lease_state lb_new_lease_state]. emit.
  - unfold read_lease_break_notify. do 9 take_step. apply reads_ret.
Qed.

Definition lease_break_ack_ok (m : LeaseBreakAckResponse) : Prop := guid_ok (lk_lease_key m) /\ in_range u32_max (lk_lease_state m).

Lemma lease_break_ack_law n m : lease_break_ack_ok m -> sized_law n 36 (write_lease_break_ack m) read_lease_break_ack m.
Proof.
  intros [H1 H2]. destruct m as [k s]. cbn [lk_lease_key lk_lease_state] in *.
  destruct (guid_law (n + 8) k H1) as (y & Hw & Hr & Hy).
  exists (concat [le_bytes 2 0; le_bytes 4 0; y; le_bytes 4 s; le_bytes 8 0]).
  change (le_bytes 2 36 ++ concat ?l) with (concat (le_bytes 2 36 :: l)). split.
  - unfold write_lease_break_ack. cbn [lk_lease_key lk_lease_state]. emit.
  - unfold read_lease_break_ack. do 6 take_step. apply reads_ret.
Qed.

(** ** Errors *)

Definition error_context_ok (c : ErrorResponseContext) : Prop := zlen (ex_error_data c) <= u16_max.

Lemma error_context_law n c :
  error_context_ok c -> exists x, writes n (write_error_context c) x /\ reads n read_error_context x c /\ zlen x <= 15 + u16_max.
Proof.
  intros H. destruct c as [i d]. unfold error_context_ok in H. cbn [ex_error_id ex_error_data] in *.
  pose proof (padding_lt 8 n ltac:(done)) as Hp. pose proof (writes_align n 8) as Ha. pose proof (reads_align n 8) as Hra.
  remember (padding 8 n) as pad eqn:Epad. clear Epad.
  pose proof (writes_count (n + pad) 4 d ltac:(unfold zlen in *; cbn; ints)) as Hc.
  exists (concat [replicate pad 0; le_bytes 4 (zlen d); le_bytes 4 (repr_code i); d]). split_and!.
  - unfold write_error_context. cbn [ex_error_id ex_error_data]. emit.
  - unfold read_error_context. do 2 take_step. eapply reads_segs; [apply reads_repr; by destruct i|]. cbv beta. rewrite zlen_nat.
    eapply reads_segs; [apply reads_exact|]. apply reads_ret.
  - len.
Qed.

Definition error_response_ok (l : list ErrorResponseContext) : Prop := zlen l <= u8_max /\ Forall error_context_ok l.

Lemma sum_bound {A} (l : list A) (v : Z) : foldr Z.add 0 ((fun _ => v) <$> l) = zlen l * v.
Proof. induction l as [|a l IH]; [done|]. cbn [fmap list_fmap foldr]. rewrite IH. unfold zlen. cbn [length]. lia. Qed.

Lemma error_response_law n l : error_response_ok l -> sized_law n 9 (write_error_response l) read_error_response l.
Proof.
  intros [H1 H2].
  destruct (list_law write_error_context read_error_context error_context_ok (fun _ => 15 + u16_max)) with (l := l) (n := (n + 8)%nat)
    as (z & Hzw & Hzr & Hz); [intros; by apply error_context_law|done|]. rewrite sum_bound in Hz.
  assert (Hz32 : zlen z <= u32_max) by (unfold u8_max, u16_max in *; ints).
  pose proof (writes_count (n + 2) 1 l ltac:(unfold zlen in *; cbn; ints)) as Hc.
  exists (concat [le_bytes 1 (zlen l); le_bytes 1 0; le_bytes 4 (zlen z); z]).
  change (le_bytes 2 9 ++ concat ?l) with (concat (le_bytes 2 9 :: l)). split.
  - unfold write_error_response. emit.
  - unfold read_error_response. do 4 take_step. cbn [snd]. rewrite !zlen_nat. cbn [concat]. rewrite app_nil_r.
    apply reads_take_seek; [apply reads_reads_to; eapply reads_at; [|exact Hzr]; len|done].
Qed.
