(* ===== verification/Content.v ===== *)
(** Message contents (crates/smb-msg/src/plain.rs): the enums of the bodies of requests and of
    responses, and how the body is chosen by the command of the header. *)
From S2P Require Import Prelude Effects Bytes Header Compression Crypto Dialects Stream Codec Security ChainedList.
From S2P Require Import CreateContexts Negotiate Fsctl TreeConnect Messages Queries QueryProps.
Local Open Scope Z_scope.

Inductive RequestContent :=
| Rq_Negotiate (r : NegotiateRequest)
| Rq_SessionSetup (r : SessionSetupRequest)
| Rq_Logoff
| Rq_TreeConnect (r : TreeConnectRequest)
| Rq_TreeDisconnect
| Rq_Create (r : CreateRequest)
| Rq_Close (file_id : FileId)
| Rq_Flush (file_id : FileId)
| Rq_Read (r : ReadRequest)
| Rq_Write (r : WriteRequest)
| Rq_Lock (r : LockRequest)
| Rq_Ioctl (r : IoctlRequest)
| Rq_Echo
| Rq_QueryDirectory (r : QueryDirectoryRequest)
| Rq_ChangeNotify (r : ChangeNotifyRequest)
| Rq_QueryInfo (r : QueryInfoRequest)
| Rq_SetInfo (r : SetInfoRequest)
| Rq_Cancel
| Rq_OplockBreakAck (m : OplockBreakMsg)
| Rq_LeaseBreakAck (m : LeaseBreakAckResponse).

(** [RequestContent::associated_cmd] *)
Definition request_command (c : RequestContent) : Command :=
  match c with
  | Rq_Negotiate _ => Cmd_Negotiate
  | Rq_SessionSetup _ => Cmd_SessionSetup
  | Rq_Logoff => Cmd_Logoff
  | Rq_TreeConnect _ => Cmd_TreeConnect
  | Rq_TreeDisconnect => Cmd_TreeDisconnect
  | Rq_Create _ => Cmd_Create
  | Rq_Close _ => Cmd_Close
  | Rq_Flush _ => Cmd_Flush
  | Rq_Read _ => Cmd_Read
  | Rq_Write _ => Cmd_Write
  | Rq_Lock _ => Cmd_Lock
  | Rq_Ioctl _ => Cmd_Ioctl
  | Rq_Echo => Cmd_Echo
  | Rq_QueryDirectory _ => Cmd_QueryDirectory
  | Rq_ChangeNotify _ => Cmd_ChangeNotify
  | Rq_QueryInfo _ => Cmd_QueryInfo
  | Rq_SetInfo _ => Cmd_SetInfo
  | Rq_Cancel => Cmd_Cancel
  | Rq_OplockBreakAck _ | Rq_LeaseBreakAck _ => Cmd_OplockBreak
  end.

Definition write_request_content (c : RequestContent) : bin unit :=
  match c with
  | Rq_Negotiate r => write_negotiate_request r
  | Rq_SessionSetup r => write_session_setup_request r
  | Rq_Logoff | Rq_TreeDisconnect | Rq_Echo | Rq_Cancel => write_empty 4
  | Rq_TreeConnect r => write_tree_connect_request r
  | Rq_Create r => write_create_request r
  | Rq_Close f => write_close_request f
  | Rq_Flush f => write_flush_request f
  | Rq_Read r => write_read_request r
  | Rq_Write r => write_write_request r
  | Rq_Lock r => write_lock_request r
  | Rq_Ioctl r => write_ioctl_request r
  | Rq_QueryDirectory r => write_query_directory_request r
  | Rq_ChangeNotify r => write_change_notify_request r
  | Rq_QueryInfo r => write_query_info_request r
  | Rq_SetInfo r => write_set_info_request r
  | Rq_OplockBreakAck m => write_oplock_break m
  | Rq_LeaseBreakAck m => write_lease_break_ack m
  end.

(** The variants whose assertion on the command holds, in the order of the enum. *)
Definition request_variants (c : Command) : list (bin RequestContent) :=
  match c with
  | Cmd_Negotiate => [r ← read_negotiate_request; mret (Rq_Negotiate r)]
  | Cmd_SessionSetup => [r ← read_session_setup_request; mret (Rq_SessionSetup r)]
  | Cmd_Logoff => [_ ← read_empty 4; mret Rq_Logoff]
  | Cmd_TreeConnect => [r ← read_tree_connect_request; mret (Rq_TreeConnect r)]
  | Cmd_TreeDisconnect => [_ ← read_empty 4; mret Rq_TreeDisconnect]
  | Cmd_Create => [r ← read_create_request; mret (Rq_Create r)]
  | Cmd_Close => [r ← read_close_request; mret (Rq_Close r)]
  | Cmd_Flush => [r ← read_flush_request; mret (Rq_Flush r)]
  | Cmd_Read => [r ← read_read_request; mret (Rq_Read r)]
  | Cmd_Write => [r ← read_write_request; mret (Rq_Write r)]
  | Cmd_Lock => [r ← read_lock_request; mret (Rq_Lock r)]
  | Cmd_Ioctl => [r ← read_ioctl_request; mret (Rq_Ioctl r)]
  | Cmd_Echo => [_ ← read_empty 4; mret Rq_Echo]
  | Cmd_QueryDirectory => [r ← read_query_directory_request; mret (Rq_QueryDirectory r)]
  | Cmd_ChangeNotify => [r ← read_change_notify_request; mret (Rq_ChangeNotify r)]
  | Cmd_QueryInfo => [r ← read_query_info_request; mret (Rq_QueryInfo r)]
  | Cmd_SetInfo => [r ← read_set_info_request; mret (Rq_SetInfo r)]
  | Cmd_Cancel => [_ ← read_empty 4; mret Rq_Cancel]
  | Cmd_OplockBreak => [m ← read_oplock_break; mret (Rq_OplockBreakAck m); m ← read_lease_break_ack; mret (Rq_LeaseBreakAck m)]
  | Cmd_ServerToClientNotification => []
  end.

Definition read_request_content (c : Command) : bin RequestContent := read_variants (request_variants c).

Inductive ResponseContent :=
| Rs_Negotiate (r : NegotiateResponse)
| Rs_SessionSetup (r : SessionSetupResponse)
| Rs_Logoff
| Rs_TreeConnect (r : TreeConnectResponse)
| Rs_TreeDisconnect
| Rs_Create (r : CreateResponse)
| Rs_Close (r : CloseResponse)
| Rs_Flush
| Rs_Read (r : ReadResponse)
| Rs_Write (count : Z)
| Rs_Lock
| Rs_Ioctl (r : IoctlResponse)
| Rs_Echo
| Rs_QueryDirectory (output_buffer : bytes)
| Rs_ChangeNotify (buffer : list FileNotifyInformation)
| Rs_QueryInfo (data : bytes)
| Rs_SetInfo
| Rs_OplockBreakNotify (m : OplockBreakMsg)
| Rs_LeaseBreakNotify (m : LeaseBreakNotify)
| Rs_OplockBreak (m : OplockBreakMsg)
| Rs_LeaseBreak (m : LeaseBreakAckResponse)
| Rs_ServerToClientNotification (structure_size : Z)
| Rs_Error (error_data : list ErrorResponseContext).

(** [ResponseContent::associated_cmd]; [None] is its panic. *)
Definition response_command (c : ResponseContent) : option Command :=
  match c with
  | Rs_Negotiate _ => Some Cmd_Negotiate
  | Rs_SessionSetup _ => Some Cmd_SessionSetup
  | Rs_Logoff => Some Cmd_Logoff
  | Rs_TreeConnect _ => Some Cmd_TreeConnect
  | Rs_TreeDisconnect => Some Cmd_TreeDisconnect
  | Rs_Create _ => Some Cmd_Create
  | Rs_Close _ => Some Cmd_Close
  | Rs_Flush => Some Cmd_Flush
  | Rs_Read _ => Some Cmd_Read
  | Rs_Write _ => Some Cmd_Write
  | Rs_Lock => Some Cmd_Lock
  | Rs_Ioctl _ => Some Cmd_Ioctl
  | Rs_Echo => Some Cmd_Echo
  | Rs_QueryDirectory _ => Some Cmd_QueryDirectory
  | Rs_ChangeNotify _ => Some Cmd_ChangeNotify
  | Rs_QueryInfo _ => Some Cmd_QueryInfo
  | Rs_SetInfo => Some Cmd_SetInfo
  | Rs_OplockBreakNotify _ | Rs_LeaseBreakNotify _ | Rs_OplockBreak _ | Rs_LeaseBreak _ => Some Cmd_OplockBreak
  | Rs_ServerToClientNotification _ => Some Cmd_ServerToClientNotification
  | Rs_Error _ => None
  end.

Definition write_response_content (c : ResponseContent) : bin unit :=
  match c with
  | Rs_Negotiate r => write_negotiate_response r
  | Rs_SessionSetup r => write_session_setup_response r
  | Rs_Logoff | Rs_TreeDisconnect | Rs_Flush | Rs_Lock | Rs_Echo => write_empty 4
  | Rs_TreeConnect r => write_tree_connect_response r
  | Rs_Create r => write_create_response r
  | Rs_Close r => write_close_response r
  | Rs_Read r => write_read_response r
  | Rs_Write count => write_write_response count
  | Rs_Ioctl r => write_ioctl_response r
  | Rs_QueryDirectory b => write_query_directory_response b
  | Rs_ChangeNotify l => write_change_notify_response l
  | Rs_QueryInfo d => write_query_info_response d
  | Rs_SetInfo => put 2 2
  | Rs_OplockBreakNotify m | Rs_OplockBreak m => write_oplock_break m
  | Rs_LeaseBreakNotify m => write_lease_break_notify m
  | Rs_LeaseBreak m => write_lease_break_ack m
  | Rs_ServerToClientNotification size => write_server_notification size
  | Rs_Error l => write_error_response l
  end.

(** The variants of a command. Those of an oplock break are told apart by their sizes. *)
Definition response_variants (c : Command) : list (bin ResponseContent) :=
  match c with
  | Cmd_Negotiate => [r ← read_negotiate_response; mret (Rs_Negotiate r)]
  | Cmd_SessionSetup => [r ← read_session_setup_response; mret (Rs_SessionSetup r)]
  | Cmd_Logoff => [_ ← read_empty 4; mret Rs_Logoff]
  | Cmd_TreeConnect => [r ← read_tree_connect_response; mret (Rs_TreeConnect r)]
  | Cmd_TreeDisconnect => [_ ← read_empty 4; mret Rs_TreeDisconnect]
  | Cmd_Create => [r ← read_create_response; mret (Rs_Create r)]
  | Cmd_Close => [r ← read_close_response; mret (Rs_Close r)]
  | Cmd_Flush => [_ ← read_empty 4; mret Rs_Flush]
  | Cmd_Read => [r ← read_read_response; mret (Rs_Read r)]
  | Cmd_Write => [r ← read_write_response; mret (Rs_Write r)]
  | Cmd_Lock => [_ ← read_empty 4; mret Rs_Lock]
  | Cmd_Ioctl => [r ← read_ioctl_response; mret (Rs_Ioctl r)]
  | Cmd_Echo => [_ ← read_empty 4; mret Rs_Echo]
  | Cmd_QueryDirectory => [b ← read_query_directory_response; mret (Rs_QueryDirectory b)]
  | Cmd_ChangeNotify => [l ← read_change_notify_response; mret (Rs_ChangeNotify l)]
  | Cmd_QueryInfo => [d ← read_query_info_response; mret (Rs_QueryInfo d)]
  | Cmd_SetInfo => [_ ← get_const 2 2; mret Rs_SetInfo]
  | Cmd_OplockBreak =>
      [m ← read_oplock_break; mret (Rs_OplockBreakNotify m); m ← read_lease_break_notify; mret (Rs_LeaseBreakNotify m);
       m ← read_oplock_break; mret (Rs_OplockBreak m); m ← read_lease_break_ack; mret (Rs_LeaseBreak m)]
  | Cmd_ServerToClientNotification => [s ← read_server_notification; mret (Rs_ServerToClientNotification s)]
  | Cmd_Cancel => []
  end.

(** An error is the last variant, for any command. *)
Definition read_response_content (c : Command) : bin ResponseContent :=
  read_variants (response_variants c ++ [l ← read_error_response; mret (Rs_Error l)]).

(** ** Bodies in messages

    A body is written and read behind the 64 bytes of its header. *)

(** The bytes of a body, if its writer does not fail. *)
Definition encode_body (w : bin unit) : option bytes :=
  match w (mkStream (replicate 64 0) 64) with
  | Some (s, Ok _) => Some (drop 64 (st_data s))
  | _ => None
  end.

Definition decode_body {A} (r : bin A) (message : bytes) : option (result BinError A) :=
  match r (mkStream message 64) with Some (_, res) => Some res | None => None end.

(** [PlainRequest]: a header without the server-to-client flag, and a content of its command. *)
Definition read_plain_request (message : bytes) : option (result BinError (Header * RequestContent)) :=
  match read_header message with
  | None => Some (Err Bin_Custom)
  | Some (header, _) =>
      if flag_server_to_redir (hd_flags header) then Some (Err Bin_Assert)
      else match decode_body (read_request_content (hd_command header)) message with
           | None => None
           | Some (Err e) => Some (Err e)
           | Some (Ok content) => Some (Ok (header, content))
           end
  end.

(** How the body of a response is read: what [PlainResponse] does behind its header. *)
Definition response_reader (header : Header) (message : bytes) : option (option ResponseContent) :=
  match decode_body (read_response_content (hd_command header)) message with
  | Some (Ok content) => Some (Some content)
  | Some (Err _) => Some None
  | None => None
  end.

(** The contents of messages: every request and every response that fits its fields and is not one of those that
    are listed here as misread is read back from what it is written as. *)

(** ** Requests *)

(** Fields are in the range of their types, lengths and counts fit the fields they are written to, strings that end with
    a null have none inside, and parts of a request that depend on each other agree: contexts are there for SMB 3.1.1 only,
    the code of a control is the one of its payload, the class of a query is the one of its data. *)
Definition request_fits (c : RequestContent) : Prop :=
  match c with
  | Rq_Negotiate r => negotiate_request_ok r
  | Rq_SessionSetup r => session_setup_request_ok r
  | Rq_TreeConnect r => tree_connect_request_fits r
  | Rq_Create r => create_request_with (name_fits u16_max) request_data_fits r
  | Rq_Close f | Rq_Flush f => file_id_ok f
  | Rq_Read r => read_request_ok r
  | Rq_Write r => write_request_ok r
  | Rq_Lock r => lock_request_ok r
  | Rq_Ioctl r => ioctl_request_with ioctl_data_fits r
  | Rq_QueryDirectory r => query_directory_request_with (name_fits u16_max) r
  | Rq_ChangeNotify r => change_notify_request_ok r
  | Rq_QueryInfo r => query_info_request_ok r
  | Rq_SetInfo r => set_info_request_with (fun _ => True) r
  | Rq_OplockBreakAck m => oplock_break_ok m
  | Rq_LeaseBreakAck m => lease_break_ack_ok m
  | Rq_Logoff | Rq_TreeDisconnect | Rq_Echo | Rq_Cancel => True
  end.

(** The requests that the client can write and that the reader of the same crate does not read back: those with an empty
    name, which is refused, with an extension of TREE CONNECT, with a lease of the second version without flags or
    a shared virtual disk of the second version, which are read as the first, and those that set quotas, which are read as
    setting a security descriptor. *)
Definition misread_request (c : RequestContent) : bool :=
  match c with
  | Rq_TreeConnect r => extension_present (tq_flags r) || bool_decide (tq_buffer r = [])
  | Rq_Create r => bool_decide (cq_name r = []) || existsb (fun x => misread_request_data (cx_data x)) (cq_contexts r)
  | Rq_Ioctl r => unreadable_ioctl (iq_buffer r)
  | Rq_QueryDirectory r => bool_decide (dq_file_name r = [])
  | Rq_SetInfo r => match si_info_class r with SI_Quota => true | _ => false end
  | _ => false
  end.

Definition request_content_ok (c : RequestContent) : Prop :=
  match c with
  | Rq_TreeConnect r => tree_connect_request_ok r
  | Rq_Create r => create_request_ok r
  | Rq_Ioctl r => ioctl_request_ok r
  | Rq_QueryDirectory r => query_directory_request_ok r
  | Rq_SetInfo r => set_info_request_ok r
  | _ => request_fits c
  end.

Lemma existsb_false {A} (f : A -> bool) l : existsb f l = false -> Forall (fun a => f a = false) l.
Proof. induction l as [|a l IH]; [done|]. cbn. intros [H1 H2]%orb_false_iff. constructor; [done|by apply IH]. Qed.

(** Contexts with a payload that fits and is not misread. *)
Lemma contexts_fit_ok {D} (type : D -> CreateContextType) (fits ok : D -> Prop) size misread (l : list (CreateContext D)) :
  (forall d, fits d -> misread d = false -> ok d) -> Forall (context_ok type fits size) l ->
  existsb (fun x => misread (cx_data x)) l = false -> Forall (context_ok type ok size) l.
Proof.
  intros Hd Hl Hm%existsb_false. rewrite Forall_forall in *. intros c Hc. destruct (Hl c Hc) as [H1 H2 H3].
  constructor; [done| |done]. apply Hd; [done|]. by apply Hm.
Qed.

Lemma request_fits_ok c : request_fits c -> misread_request c = false -> request_content_ok c.
Proof.
  destruct c as [r|r| |r| |r|f|f|r|r|r|r| |r|r|r|r| |m|m]; cbn [request_fits misread_request request_content_ok]; try done.
  - intros (H1 & H2 & H3) [H4 H5]%orb_false_iff. split_and!; [done..|by apply name_fits_ok|by apply H3].
  - intros [] [H1 H2]%orb_false_iff. constructor; [done..|by apply name_fits_ok| |done].
    by eapply contexts_fit_ok; [apply request_data_fits_ok|..].
  - intros [] H. constructor; try done. by apply ioctl_fits_ok.
  - intros [] H. constructor; [done..|by apply name_fits_ok].
  - intros [] H. constructor; [by destruct (si_info_class r)|done..].
Qed.

(** The only variant of a command, or its first. *)
Lemma first_variant {A C} n (w : bin unit) (r : bin A) (f : A -> C) a rs :
  body_law n w r a -> body_law n w (read_variants ((v ← r; mret (f v)) :: rs)) (f a).
Proof. intros (x & H1 & H2). exists x. split; [done|]. by apply reads_to_any_variants_head, reads_to_any_map. Qed.

(** A structure of another size is no match. *)
Lemma size_refused {A C} n size size' (f : unit -> bin A) (g : A -> bin C) y :
  0 <= size' < 65536 -> size' <> size -> refuses n ((get_const 2 size ≫= f) ≫= g) (le_bytes 2 size' ++ y).
Proof. intros H1 H2. by apply refuses_bind, refuses_bind, refuses_app, refuses_const. Qed.

Lemma sized_body {A} n size (w : bin unit) (r : bin A) a : sized_law n size w r a -> body_law n w r a.
Proof. intros (y & H1 & H2). apply body_exact. by exists (le_bytes 2 size ++ y). Qed.

Lemma read_request_variants n w c a : body_law n w (read_variants (request_variants c)) a -> body_law n w (read_request_content c) a.
Proof. done. Qed.

Lemma request_content_law n c :
  body_start n -> request_content_ok c -> body_law n (write_request_content c) (read_request_content (request_command c)) c.
Proof.
  intros Hb H.
  assert (He : forall (k : RequestContent), body_law n (write_empty 4) (read_variants [_ ← read_empty 4; mret k]) k).
  { intros k. by apply (first_variant n _ (read_empty 4) (fun _ => k) tt), empty_law. }
  apply read_request_variants.
  destruct c as [r|r| |r| |r|f|f|r|r|r|r| |r|r|r|r| |m|m]; cbn [request_command request_variants write_request_content request_content_ok request_fits] in *;
    [..|destruct (lease_break_ack_law n m H) as (y & H1 & H2); exists (le_bytes 2 36 ++ y); split; [done|];
        apply reads_to_any_variants_next; [by apply size_refused|];
        by apply reads_to_any_variants_head, reads_to_any_map, reads_any_to_any, reads_reads_any];
    try apply He; apply first_variant.
  - by apply body_exact, negotiate_request_law.
  - by apply session_setup_request_law.
  - by apply body_exact, tree_connect_request_law.
  - by apply create_request_law.
  - by apply close_request_law.
  - by apply flush_request_law.
  - by apply read_request_law.
  - by apply write_request_law.
  - by apply lock_request_law.
  - by apply ioctl_request_law.
  - by apply query_directory_request_law.
  - by apply change_notify_request_law.
  - by apply query_info_request_law.
  - by apply set_info_request_law.
  - by apply (sized_body n 24), oplock_break_law.
Qed.

(** ** Responses *)

Definition response_fits (c : ResponseContent) : Prop :=
  match c with
  | Rs_Negotiate r => negotiate_response_fits r
  | Rs_SessionSetup r => session_setup_response_ok r
  | Rs_TreeConnect r =>
      in_range u32_max (ts_share_flags r) /\ in_range u32_max (ts_capabilities r) /\ in_range u32_max (ts_maximal_access r)
  | Rs_Create r => create_response_with response_data_fits r
  | Rs_Close r => close_response_ok r
  | Rs_Write count => in_range u32_max count
  | Rs_Ioctl r => ioctl_response_fits r
  | Rs_QueryDirectory b | Rs_QueryInfo b => zlen b <= u32_max
  | Rs_ChangeNotify l =>
      Forall (fun f => name_fits u16_max (fn_file_name f)) l /\ chained_size 4 notify_size l <= u32_max
  | Rs_OplockBreakNotify m | Rs_OplockBreak m => oplock_break_ok m
  | Rs_LeaseBreakNotify m => lease_break_notify_ok m
  | Rs_LeaseBreak m => lease_break_ack_ok m
  | Rs_ServerToClientNotification size => in_range u16_max size
  | Rs_Error l => error_response_ok l
  | Rs_Logoff | Rs_TreeDisconnect | Rs_Flush | Rs_Lock | Rs_Echo | Rs_SetInfo => True
  | Rs_Read r => in_range u8_max (rs_data_offset r) /\ in_range u32_max (rs_data_length r)
  end.

(** The responses that are not read back from what the writer of the same crate writes for them: a READ, whose data offset
    is written as zero and refused, the response to an oplock acknowledgment, which is read as a notification, an IOCTL
    with an input buffer, which the writer refuses, a NEGOTIATE of SMB 3.1.1 with an empty list of contexts, notifications
    without a name, and contexts as in requests. An error response is not written for a command. *)
Definition misread_response (c : ResponseContent) : bool :=
  match c with
  | Rs_Negotiate r => match ns_negotiate_context_list r with Some [] => true | _ => false end
  | Rs_Create r => existsb (fun x => misread_response_data (cx_data x)) (cs_create_contexts r)
  | Rs_Ioctl r => negb (bool_decide (is_in_buffer r = []))
  | Rs_ChangeNotify l => existsb (fun f => bool_decide (fn_file_name f = [])) l
  | Rs_Read _ | Rs_OplockBreak _ | Rs_Error _ => true
  | _ => false
  end.

Definition response_content_ok (c : ResponseContent) : Prop :=
  match c with
  | Rs_Negotiate r => negotiate_response_ok r
  | Rs_Create r => create_response_ok r
  | Rs_Ioctl r => ioctl_response_ok r
  | Rs_ChangeNotify l => Forall notify_ok l /\ chained_size 4 notify_size l <= u32_max
  | Rs_Read _ | Rs_OplockBreak _ | Rs_Error _ => False
  | _ => response_fits c
  end.

Lemma response_fits_ok c : response_fits c -> misread_response c = false -> response_content_ok c.
Proof.
  destruct c as [r|r| |r| |r|r| |r|k| |r| |b|l|b| |m|m|m|m|s|l]; cbn [response_fits misread_response response_content_ok]; try done.
  - intros H1 H2. split; [done|]. intros H3. by rewrite H3 in H2.
  - intros [] H. constructor; [done..| |done]. by eapply contexts_fit_ok; [apply response_data_fits_ok|..].
  - intros H1 H2%negb_false_iff%bool_decide_eq_true. done.
  - intros [H1 H2] H3%existsb_false. split; [|done]. rewrite Forall_forall in *. intros f Hf. apply name_fits_ok; [by apply H1|by apply H3].
Qed.

Lemma response_content_law n c command :
  body_start n -> response_content_ok c -> response_command c = Some command ->
  body_law n (write_response_content c) (read_response_content command) c.
Proof.
  intros Hb H Hc. unfold read_response_content.
  assert (He : forall (k : ResponseContent) rs, body_law n (write_empty 4) (read_variants ((_ ← read_empty 4; mret k) :: rs)) k).
  { intros k rs. by apply (first_variant n _ (read_empty 4) (fun _ => k) tt), empty_law. }
  destruct c as [r|r| |r| |r|r| |r|k| |r| |b|l|b| |m|m|m|m|s|l]; cbn [response_content_ok response_fits response_command] in H, Hc; try done;
    injection Hc as <-; cbn [response_variants write_response_content app]; try apply He.
  - by apply first_variant, body_exact, negotiate_response_law.
  - by apply first_variant, session_setup_response_law.
  - apply first_variant, body_exact. destruct H as (H1 & H2 & H3). by apply tree_connect_response_law.
  - by apply first_variant, create_response_law.
  - by apply first_variant, close_response_law.
  - by apply first_variant, write_response_law.
  - by apply first_variant, ioctl_response_law.
  - by apply first_variant, query_directory_response_law.
  - apply first_variant. destruct H. by apply change_notify_response_law.
  - by apply first_variant, query_info_response_law.
  - apply (first_variant n _ (get_const 2 2) (fun _ => Rs_SetInfo) tt), body_exact.
    exists (le_bytes 2 2). split; [apply writes_put|by apply reads_get_const].
  - by apply first_variant, (sized_body n 24), oplock_break_law.
  - destruct (lease_break_notify_law n m H) as (y & H1 & H2). exists (le_bytes 2 44 ++ y). split; [done|].
    apply reads_to_any_variants_next; [by apply size_refused|].
    by apply reads_to_any_variants_head, reads_to_any_map, reads_any_to_any, reads_reads_any.
  - destruct (lease_break_ack_law n m H) as (y & H1 & H2). exists (le_bytes 2 36 ++ y). split; [done|].
    do 3 (apply reads_to_any_variants_next; [by apply size_refused|]).
    by apply reads_to_any_variants_head, reads_to_any_map, reads_any_to_any, reads_reads_any.
  - by apply first_variant, server_notification_law.
Qed.

(** ** Errors *)

(** The commands whose own response has the size of an error response, or no fixed size. *)
Definition error_shadowed (c : Command) : bool :=
  match c with
  | Cmd_SessionSetup | Cmd_QueryDirectory | Cmd_ChangeNotify | Cmd_QueryInfo | Cmd_ServerToClientNotification => true
  | _ => false
  end.

Lemma error_response_content_law n command l :
  error_shadowed command = false -> error_response_ok l ->
  body_law n (write_error_response l) (read_response_content command) (Rs_Error l).
Proof.
  intros Hc Hl. destruct (error_response_law n l Hl) as (y & H1 & H2). exists (le_bytes 2 9 ++ y). split; [done|].
  unfold read_response_content.
  assert (Hv : reads_to_any n (read_variants [v ← read_error_response; mret (Rs_Error v)]) (le_bytes 2 9 ++ y) (Rs_Error l)).
  { by apply reads_to_any_variants_head, reads_to_any_map, reads_any_to_any, reads_reads_any. }
  destruct command; try discriminate Hc; cbn [response_variants app]; try exact Hv;
    repeat (apply reads_to_any_variants_next;
      [first [by apply size_refused | by apply refuses_bind, refuses_app, refuses_const]|]); exact Hv.
Qed.
