(* ===== verification/ContentTheorems.v ===== *)
(** What holds of messages as a whole: their headers and bodies together, the sizes that credits are
    charged for, and the bodies that are read as something else. *)
From S2P Require Import Prelude Effects Bytes Header Compression WireOut Crypto Dialects Session Wire Stream Codec.
From S2P Require Import Security ChainedList CreateContexts Negotiate Fsctl TreeConnect Messages Queries QueryProps.
From S2P Require Import Content.
Local Open Scope Z_scope.

(** ** Bodies in messages *)

Lemma body_start_header : body_start 64.
Proof. by split. Qed.

Lemma encode_body_writes w x : writes 64 w x -> encode_body w = Some x.
Proof.
  intros H. unfold encode_body. change (mkStream (replicate 64 0) 64) with (at_end (replicate 64 0)).
  rewrite (H (replicate 64 0) eq_refl). unfold at_end. cbn [st_data]. f_equal.
Qed.

Lemma decode_body_reads {A} (r : bin A) header x a : length header = 64%nat -> reads_to_any 64 r x a -> decode_body r (header ++ x) = Some (Ok a).
Proof. intros Hl H. destruct (H header Hl) as [pos Hp]. unfold decode_body. by rewrite Hp. Qed.

(** The same where more follows. *)
Lemma decode_body_reads_any {A} (r : bin A) header x rest a :
  length header = 64%nat -> reads_any 64 r x a -> decode_body r (header ++ x ++ rest) = Some (Ok a).
Proof. intros Hl H. destruct (H header rest Hl) as [pos Hp]. unfold decode_body. by rewrite Hp. Qed.


(** The body of a READ response as a server sends it: the data lies at an offset behind the body. *)
Definition server_read_body (offset len : Z) : bytes :=
  concat [le_bytes 2 17; le_bytes 1 offset; le_bytes 1 0; le_bytes 4 len; le_bytes 4 0; le_bytes 4 0].

Lemma server_read_law n offset len :
  80 <= offset <= u8_max -> 1 <= len <= u32_max -> reads n read_read_response (server_read_body offset len) (mkReadResponse offset len).
Proof.
  intros Ho Hl. unfold read_read_response, server_read_body, read_response_size.
  do 2 take_step. eapply reads_skip; [apply reads_assert; cbn [snd]; apply Z.leb_le; lia|]. do 2 take_step.
  eapply reads_skip; [apply reads_assert; apply Z.ltb_lt; lia|]. do 2 take_step. apply reads_ret.
Qed.


(** ** Errors *)

(** The body of an error without data. *)
Definition plain_error : bytes := concat [le_bytes 2 9; le_bytes 1 0; le_bytes 1 0; le_bytes 4 0].

Lemma writes_plain_error n : writes n (write_error_response []) plain_error.
Proof.
  pose proof (writes_count (n + 2) 1 (@nil ErrorResponseContext) ltac:(done)) as Hc. pose proof (writes_ret (n + 8)) as Hr.
  change plain_error with (concat [le_bytes 2 9; le_bytes 1 0; le_bytes 1 0; le_bytes 4 0; []]). unfold write_error_response. emit.
Qed.

(** The response a command gives with nothing in it. *)
Definition empty_response (c : Command) : option ResponseContent :=
  match c with
  | Cmd_SessionSetup => Some (Rs_SessionSetup (mkSessionSetupResponse 0 []))
  | Cmd_QueryDirectory => Some (Rs_QueryDirectory [])
  | Cmd_ChangeNotify => Some (Rs_ChangeNotify [])
  | Cmd_QueryInfo => Some (Rs_QueryInfo [])
  | _ => None
  end.

Lemma plain_error_run (command : Command) (content : ResponseContent) header :
  empty_response command = Some content -> length header = 64%nat ->
  decode_body (read_response_content command) (header ++ plain_error) = Some (Ok content).
Proof.
  intros He Hl. do 65 (destruct header as [|? header]; [try discriminate Hl|]); [|discriminate Hl].
  destruct command; try discriminate He; injection He as <-; vm_compute; reflexivity.
Qed.

(** C12: an error response is read as one for the commands whose own response has another size. For a
    session setup, a directory query, a change notification and a query of information it has not:
    an error without data is read as a successful response with nothing in it. *)
Theorem error_response_read header command :
  length header = 64%nat ->
  (forall l, error_shadowed command = false -> error_response_ok l ->
     exists body, encode_body (write_error_response l) = Some body /\
       decode_body (read_response_content command) (header ++ body) = Some (Ok (Rs_Error l))) /\
  (forall content, empty_response command = Some content ->
     encode_body (write_error_response []) = Some plain_error /\
     decode_body (read_response_content command) (header ++ plain_error) = Some (Ok content)).
Proof.
  intros Hl. split.
  - intros l Hc Ho. destruct (error_response_content_law 64 command l Hc Ho) as (x & Hw & Hr). exists x.
    split; [by apply encode_body_writes|by apply decode_body_reads].
  - intros content He. split; [apply encode_body_writes, writes_plain_error|by apply plain_error_run].
Qed.

(** ** Variants *)

Lemma lease_read_as_first n l :
  lease_v2_ok l -> l2_lease_flags l = 0 ->
  reads_any n read_lease (lease_v2_bytes l) (RqLsReqv1 (mkLeaseV1 (l2_lease_key l) (l2_lease_state l))).
Proof.
  intros [H1 H2 H3 H4 H5] Hf pre post Hn. unfold lease_v2_bytes. rewrite Hf.
  destruct (lease_v1_law n (mkLeaseV1 (l2_lease_key l) (l2_lease_state l))) as (x & Hw & Hr & _); [by split|].
  assert (x = concat [le_bytes 16 (l2_lease_key l); le_bytes 4 (l2_lease_state l); le_bytes 4 0; le_bytes 8 0]) as ->.
  { assert (Hw' : writes n (write_lease_v1 (mkLeaseV1 (l2_lease_key l) (l2_lease_state l)))
      (concat [le_bytes 16 (l2_lease_key l); le_bytes 4 (l2_lease_state l); le_bytes 4 0; le_bytes 8 0])).
    { unfold write_lease_v1. cbn [l1_lease_key l1_lease_state]. emit. }
    specialize (Hw pre Hn). rewrite (Hw' pre Hn) in Hw. unfold at_end in Hw. injection Hw as Hw _. by apply app_inv_head in Hw. }
  cbn [concat] in *. rewrite !app_nil_r, <- !app_assoc in *.
  pose proof (reads_variants_head n (l ← read_lease_v1; mret (RqLsReqv1 l)) [l ← read_lease_v2; mret (RqLsReqv2 l)] _ _ (reads_map n _ RqLsReqv1 _ _ Hr)) as Hv.
  specialize (Hv pre (le_bytes 16 (l2_parent_lease_key l) ++ le_bytes 2 (l2_epoch l) ++ le_bytes 2 0 ++ post) Hn).
  rewrite <- !app_assoc in Hv. eexists. exact Hv.
Qed.

(** where two variants of an enum have the same layout the first one is read: the response to the
    acknowledgment of an oplock break is read as a new notification, a lease of the second version
    without flags as one of the first, without its parent key and epoch, and the class of a quota
    that is set as that of a security descriptor. What a server writes for a read is refused. *)
Lemma shadowed_variants n m l r :
  (oplock_break_ok m ->
     body_law n (write_response_content (Rs_OplockBreak m)) (read_response_content Cmd_OplockBreak) (Rs_OplockBreakNotify m)) /\
  (lease_v2_ok l -> l2_lease_flags l = 0 ->
     exists x, writes n (write_lease (RqLsReqv2 l)) x /\
       reads_any n read_lease x (RqLsReqv1 (mkLeaseV1 (l2_lease_key l) (l2_lease_state l)))) /\
  (exists x, writes n (write_set_info_class SI_Quota) x /\ reads n read_set_info_class x SI_Security) /\
  (exists x, writes n (write_read_response r) x /\ refuses n read_read_response x).
Proof.
  split_and!.
  - intros H. by apply first_variant, (sized_body n 24), oplock_break_law.
  - intros H1 H2. exists (lease_v2_bytes l). split; [by apply lease_v2_law|by apply lease_read_as_first].
  - destruct (set_info_class_law n SI_Security I) as (x & H1 & H2 & _). by exists x.
  - exists (concat [le_bytes 2 17; le_bytes 1 0; le_bytes 1 0; le_bytes 4 (rs_data_length r mod 2 ^ 32); le_bytes 4 0; le_bytes 4 0]).
    split; [unfold write_read_response, read_response_size; emit|]. unfold read_read_response.
    do 2 (eapply refuses_segs; [reads_value|]). by apply refuses_bind, refuses_assert.
Qed.

(** ** Controls *)

(** the size of a control's payload that credits are charged for is the number of bytes it is encoded
    in, for every kind of payload. *)
Lemma ioctl_size_is_encoded n d :
  ioctl_data_ok d ->
  exists x, writes n (write_ioctl_data d) x /\ get_size d = zlen x mod 2 ^ 32 /\ (zlen x <= u32_max -> get_size d = zlen x).
Proof.
  intros H. destruct (ioctl_data_law n d H) as (x & H1 & _ & H2). exists x. rewrite get_size_eq, H2. split_and!; [done..|].
  intros Hs. apply Z.mod_small. rewrite <- H2. unfold zlen in *. ints.
Qed.

(** ** Witnesses *)

Definition sample_guid : Guid := mkGuid 1 2 3 [4; 5; 6; 7; 8; 9; 10; 11].

Definition sample_create : RequestContent :=
  Rq_Create (mkCreateRequest OL_None IL_Impersonation 0x100081 0 7 CD_Open 0x20 [104; 101; 108; 108; 111]
    [mkContext (context_name CT_DH2Q) (CQ_DH2Q (mkDh2q 0 0 sample_guid)); mkContext (context_name CT_MxAc) (CQ_MxAc None);
     mkContext (context_name CT_QFid) CQ_QFid]).

Definition sample_message_header (c : Command) (flags : Z) : Header := mkHeader 1 0 c 1 flags 0 5 (Some 7) None 9 0.

Lemma sample_message_header_ok c (flags : Z) : flags = 0 \/ flags = 1 -> header_ok (sample_message_header c flags).
Proof. intros [->| ->]; (split; cbn; try ints; split; [done|]; exists 7; split; [done|ints]). Qed.

Lemma sample_guid_ok : guid_ok sample_guid.
Proof. constructor; by vm_compute. Qed.

Lemma sample_create_fits : request_fits sample_create.
Proof.
  constructor; [by vm_compute..| | |by vm_compute].
  - split; [|by vm_compute]. repeat (apply Forall_cons; split; [by vm_compute|]). done.
  - repeat (apply Forall_cons; split; [constructor; [done| |by vm_compute]|]); [|done..].
    split; [by vm_compute|split; [by vm_compute|apply sample_guid_ok]].
Qed.


Definition sample_response : ResponseContent :=
  Rs_ChangeNotify [mkNotify NA_Added [97; 98; 99]; mkNotify NA_Removed [100]].


(** ** What is misread *)

(** What is read of a request that is written with a plain header. *)
Definition read_of_written (content : RequestContent) : option (result BinError RequestContent) :=
  match write_plain_request (mkPlainRequest (sample_message_header (request_command content) 0) (encode_body (write_request_content content))) with
  | Some message =>
      match read_plain_request message with
      | Some (Ok (_, c)) => Some (Ok c)
      | Some (Err e) => Some (Err e)
      | None => None
      end
  | None => None
  end.

Definition sample_open (name : list Z) (contexts : list (CreateContext CreateContextRequestData)) : RequestContent :=
  Rq_Create (mkCreateRequest OL_None IL_Impersonation 0x100081 0 7 CD_Open 0x20 name contexts).

(** The root of a share is opened by an empty name: the request is written, and would be refused. *)
Example empty_names_are_not_read :
  misread_request (sample_open [] []) = true /\ (exists e, read_of_written (sample_open [] []) = Some (Err e)) /\
  (exists e, read_of_written (Rq_QueryDirectory (mkQueryDirectoryRequest QD_Directory 0 0 (mkFileId 1 2) 100 [])) = Some (Err e)).
Proof. split; [done|]. split; eexists; vm_compute; reflexivity. Qed.

(** A lease of the second version without flags becomes one of the first. *)
Example lease_loses_version :
  read_of_written (sample_open [97] [mkContext (context_name CT_RqLs) (CQ_RqLs (RqLsReqv2 (mkLeaseV2 1 2 0 3 4)))]) =
    Some (Ok (sample_open [97] [mkContext (context_name CT_RqLs) (CQ_RqLs (RqLsReqv1 (mkLeaseV1 1 2)))])).
Proof. vm_compute. reflexivity. Qed.

(** A SET_INFO of quotas is not read as one. *)
Example quotas_are_not_set :
  let request := Rq_SetInfo (mkSetInfoRequest SI_Quota 0 (mkFileId 1 2) (ID_Quota [])) in
  misread_request request = true /\
  read_of_written request = Some (Ok (Rq_SetInfo (mkSetInfoRequest SI_Security 0 (mkFileId 1 2) (ID_Quota [])))).
Proof. split; [done|]. vm_compute. reflexivity. Qed.

(** A CREATE response from a peer whose context has the offset zero panics its reader where overflow is checked. *)
Example create_context_offset_panics :
  let body := concat [le_bytes 2 89; [0; 0]; le_bytes 4 1; replicate 48 0; le_bytes 4 0; le_bytes 4 0; replicate 16 0;
    le_bytes 4 152; le_bytes 4 16; replicate 16 0] in
  response_reader (sample_message_header Cmd_Create 1) (replicate 64 0 ++ body) = None.
Proof. vm_compute. reflexivity. Qed.

Lemma error_response_read_witness :
  decode_body (read_response_content Cmd_SessionSetup) (replicate 64 0 ++ plain_error) =
    Some (Ok (Rs_SessionSetup (mkSessionSetupResponse 0 []))).
Proof. apply (error_response_read (replicate 64 0) Cmd_SessionSetup); reflexivity. Defined.

