(* ===== verification/FileInfo.v ===== *)
(** File and file system information (crates/smb-fscc/src/common_info.rs, query_file_info.rs, set_file_info.rs,
    filesystem_info.rs, info_classes.rs; smb-dtyp/src/binrw_util/file_time.rs): the structures that are queried and
    set, each a record with its writer and its reader, and the enums that [file_info_classes!] generates from a
    table of classes. *)
From S2P Require Import Prelude Effects Bytes Header Stream Codec Security ChainedList CreateContexts Fsctl Messages.
From S2P Require Import Queries QueryProps.
Local Open Scope Z_scope.

(** ** Times

    [FileTime]: units of 100 nanoseconds since 1601. A date is the nanoseconds since then, which
    [date_time] computes in 64 bits. *)

Definition scale_value_to_nanos : Z := 100.
Definition scale_value_to_secs : Z := 1000000000 / scale_value_to_nanos.

(** [None] is the panic of a checked build; a release build goes on with the wrapped product. *)
Definition date_time (value : Z) : option Z :=
  if bool_decide (value * scale_value_to_nanos <= u64_max) then Some (value * scale_value_to_nanos) else None.
Definition date_time_wrapped (value : Z) : Z := (value * scale_value_to_nanos) mod 2 ^ 64.

(** [is_zero] *)
Definition file_time_is_zero (value : Z) : bool := bool_decide (value = 0).

(** [since_epoch]: seconds and nanoseconds *)
Definition since_epoch (value : Z) : Z * Z :=
  (value / scale_value_to_secs, value mod scale_value_to_secs * scale_value_to_nanos).

(** [From<PrimitiveDateTime>], of the nanoseconds since 1601 *)
Definition from_date_time (nanoseconds : Z) : Z := nanoseconds mod 2 ^ 64 / scale_value_to_nanos.

(** ** Information for queries and for setting (common_info.rs) *)

Record FileBasicInformation := mkBasic {
  bi_creation_time : Z;
  bi_last_access_time : Z;
  bi_last_write_time : Z;
  bi_change_time : Z;
  bi_file_attributes : Z
}.

Definition write_basic (b : FileBasicInformation) : bin unit :=
  _ ← put 8 (bi_creation_time b);
  _ ← put 8 (bi_last_access_time b);
  _ ← put 8 (bi_last_write_time b);
  _ ← put 8 (bi_change_time b);
  _ ← put 4 (bi_file_attributes b);
  put 4 0.
Definition read_basic : bin FileBasicInformation :=
  creation ← get 8;
  access ← get 8;
  write ← get 8;
  change ← get 8;
  attributes ← get 4;
  _ ← get 4;
  mret (mkBasic creation access write change attributes).

Inductive PipeReadMode := PR_Stream | PR_Message.
#[export] Instance PipeReadMode_repr : Repr PipeReadMode := {|
  repr_code m := match m with PR_Stream => 0 | PR_Message => 1 end; repr_all := [PR_Stream; PR_Message] |}.
Inductive PipeCompletionMode := PC_Queue | PC_Complete.
#[export] Instance PipeCompletionMode_repr : Repr PipeCompletionMode := {|
  repr_code m := match m with PC_Queue => 0 | PC_Complete => 1 end; repr_all := [PC_Queue; PC_Complete] |}.

Record FilePipeInformation := mkPipe { pp_read_mode : PipeReadMode; pp_completion_mode : PipeCompletionMode }.

Definition write_pipe (p : FilePipeInformation) : bin unit :=
  _ ← put_repr 4 (pp_read_mode p); put_repr 4 (pp_completion_mode p).
Definition read_pipe : bin FilePipeInformation :=
  read_mode ← get_repr 4; completion_mode ← get_repr 4; mret (mkPipe read_mode completion_mode).

(** [FileNameInformation], and the types that only wrap it: alternate, normalized and short names. *)
Definition write_name (file_name : list Z) : bin unit := _ ← put_wide_size 4 file_name; write_sized_wide file_name.
Definition read_name : bin (list Z) := file_name_length ← get 4; read_sized_wide file_name_length.

Inductive ReparseTag :=
| RT_ReservedZero | RT_ReservedOne | RT_ReservedTwo | RT_MountPoint | RT_HSM | RT_DriveExtender | RT_HSM2 | RT_SIS
| RT_WIM | RT_CSV | RT_DFS | RT_FilterManager | RT_Symlink | RT_IISCache | RT_DFSR | RT_Dedup | RT_Appxstrm | RT_NFS
| RT_FilePlaceholder | RT_DFM | RT_WOF | RT_WCI | RT_Wci1 | RT_GlobalReparse | RT_Cloud | RT_Cloud1 | RT_Cloud2
| RT_Cloud3 | RT_Cloud4 | RT_Cloud5 | RT_Cloud6 | RT_Cloud7 | RT_Cloud8 | RT_Cloud9 | RT_CloudA | RT_CloudB
| RT_CloudC | RT_CloudD | RT_CloudE | RT_CloudF | RT_Appexeclink | RT_Projfs | RT_LxSymlink | RT_StorageSync
| RT_StorageSyncFolder | RT_WciTombstone | RT_Unhandled | RT_Onedrive | RT_ProjfsTombstone | RT_AfUnix | RT_LxFifo
| RT_LxChr | RT_LxBlk | RT_WciLink | RT_WciLink1.
#[export] Instance ReparseTag_eq : EqDecision ReparseTag.
Proof. solve_decision. Defined.
#[export] Instance ReparseTag_repr : Repr ReparseTag := {|
  repr_code t := match t with
    | RT_ReservedZero => 0x00000000 | RT_ReservedOne => 0x00000001 | RT_ReservedTwo => 0x00000002
    | RT_MountPoint => 0xa0000003 | RT_HSM => 0xc0000004 | RT_DriveExtender => 0x80000005 | RT_HSM2 => 0x80000006
    | RT_SIS => 0x80000007 | RT_WIM => 0x80000008 | RT_CSV => 0x80000009 | RT_DFS => 0x8000000a
    | RT_FilterManager => 0x8000000b | RT_Symlink => 0xa000000c | RT_IISCache => 0xa0000010 | RT_DFSR => 0x80000012
    | RT_Dedup => 0x80000013 | RT_Appxstrm => 0xc0000014 | RT_NFS => 0x80000014 | RT_FilePlaceholder => 0x80000015
    | RT_DFM => 0x80000016 | RT_WOF => 0x80000017 | RT_WCI => 0x80000018 | RT_Wci1 => 0x90001018
    | RT_GlobalReparse => 0xa0000019 | RT_Cloud => 0x9000001a | RT_Cloud1 => 0x9000101a | RT_Cloud2 => 0x9000201a
    | RT_Cloud3 => 0x9000301a | RT_Cloud4 => 0x9000401a | RT_Cloud5 => 0x9000501a | RT_Cloud6 => 0x9000601a
    | RT_Cloud7 => 0x9000701a | RT_Cloud8 => 0x9000801a | RT_Cloud9 => 0x9000901a | RT_CloudA => 0x9000a01a
    | RT_CloudB => 0x9000b01a | RT_CloudC => 0x9000c01a | RT_CloudD => 0x9000d01a | RT_CloudE => 0x9000e01a
    | RT_CloudF => 0x9000f01a | RT_Appexeclink => 0x8000001b | RT_Projfs => 0x9000001c | RT_LxSymlink => 0xa000001d
    | RT_StorageSync => 0x8000001e | RT_StorageSyncFolder => 0x90000027 | RT_WciTombstone => 0xa000001f
    | RT_Unhandled => 0x80000020 | RT_Onedrive => 0x80000021 | RT_ProjfsTombstone => 0xa0000022
    | RT_AfUnix => 0x80000023 | RT_LxFifo => 0x80000024 | RT_LxChr => 0x80000025 | RT_LxBlk => 0x80000026
    | RT_WciLink => 0xa0000027 | RT_WciLink1 => 0xa0001027
    end;
  repr_all := [
    RT_ReservedZero; RT_ReservedOne; RT_ReservedTwo; RT_MountPoint; RT_HSM; RT_DriveExtender; RT_HSM2; RT_SIS;
    RT_WIM; RT_CSV; RT_DFS; RT_FilterManager; RT_Symlink; RT_IISCache; RT_DFSR; RT_Dedup; RT_Appxstrm; RT_NFS;
    RT_FilePlaceholder; RT_DFM; RT_WOF; RT_WCI; RT_Wci1; RT_GlobalReparse; RT_Cloud; RT_Cloud1; RT_Cloud2; RT_Cloud3;
    RT_Cloud4; RT_Cloud5; RT_Cloud6; RT_Cloud7; RT_Cloud8; RT_Cloud9; RT_CloudA; RT_CloudB; RT_CloudC; RT_CloudD;
    RT_CloudE; RT_CloudF; RT_Appexeclink; RT_Projfs; RT_LxSymlink; RT_StorageSync; RT_StorageSyncFolder;
    RT_WciTombstone; RT_Unhandled; RT_Onedrive; RT_ProjfsTombstone; RT_AfUnix; RT_LxFifo; RT_LxChr; RT_LxBlk;
    RT_WciLink; RT_WciLink1] |}.

(** ** Information for queries (query_file_info.rs)

    A structure of a single integer is that integer: access rights, the size of the extended attributes, the index
    number, the position, the mode. *)

Inductive FileAlignmentInformation :=
| FA_Byte | FA_Word | FA_Long | FA_Quad | FA_Octa | FA_32Byte | FA_64Byte | FA_128Byte | FA_256Byte | FA_512Byte.
#[export] Instance FileAlignmentInformation_repr : Repr FileAlignmentInformation := {|
  repr_code a := match a with
    | FA_Byte => 0 | FA_Word => 1 | FA_Long => 3 | FA_Quad => 7 | FA_Octa => 0xf | FA_32Byte => 0x1f | FA_64Byte => 0x3f
    | FA_128Byte => 0x7f | FA_256Byte => 0xff | FA_512Byte => 0x1ff end;
  repr_all := [FA_Byte; FA_Word; FA_Long; FA_Quad; FA_Octa; FA_32Byte; FA_64Byte; FA_128Byte; FA_256Byte; FA_512Byte] |}.

Record FileStandardInformation := mkStandard {
  sn_allocation_size : Z;
  sn_end_of_file : Z;
  sn_number_of_links : Z;
  sn_delete_pending : bool;
  sn_directory : bool
}.

Definition write_standard (s : FileStandardInformation) : bin unit :=
  _ ← put 8 (sn_allocation_size s);
  _ ← put 8 (sn_end_of_file s);
  _ ← put 4 (sn_number_of_links s);
  _ ← write_boolean (sn_delete_pending s);
  _ ← write_boolean (sn_directory s);
  put 2 0.
Definition read_standard : bin FileStandardInformation :=
  allocation_size ← get 8;
  end_of_file ← get 8;
  number_of_links ← get 4;
  delete_pending ← read_boolean;
  directory ← read_boolean;
  _ ← get 2;
  mret (mkStandard allocation_size end_of_file number_of_links delete_pending directory).

Record FileAllInformation := mkAll {
  al_basic : FileBasicInformation;
  al_standard : FileStandardInformation;
  al_internal : Z;
  al_ea : Z;
  al_access : Z;
  al_position : Z;
  al_mode : Z;
  al_alignment : FileAlignmentInformation;
  al_name : list Z
}.

Definition write_all_information (a : FileAllInformation) : bin unit :=
  _ ← write_basic (al_basic a);
  _ ← write_standard (al_standard a);
  _ ← put 8 (al_internal a);
  _ ← put 4 (al_ea a);
  _ ← put 4 (al_access a);
  _ ← put 8 (al_position a);
  _ ← put 4 (al_mode a);
  _ ← put_repr 4 (al_alignment a);
  write_name (al_name a).
Definition read_all_information : bin FileAllInformation :=
  basic ← read_basic;
  standard ← read_standard;
  internal ← get 8;
  ea ← get 4;
  access ← get 4;
  position ← get 8;
  mode ← get 4;
  alignment ← get_repr 4;
  name ← read_name;
  mret (mkAll basic standard internal ea access position mode alignment name).

Record FileAttributeTagInformation := mkAttributeTag { at_file_attributes : Z; at_reparse_tag : ReparseTag }.

Definition write_attribute_tag (a : FileAttributeTagInformation) : bin unit :=
  _ ← put 4 (at_file_attributes a); put_repr 4 (at_reparse_tag a).
Definition read_attribute_tag : bin FileAttributeTagInformation :=
  attributes ← get 4; tag ← get_repr 4; mret (mkAttributeTag attributes tag).

Inductive FileCompressionFormat := CF_None | CF_Lznt1.
#[export] Instance FileCompressionFormat_repr : Repr FileCompressionFormat := {|
  repr_code f := match f with CF_None => 0 | CF_Lznt1 => 2 end; repr_all := [CF_None; CF_Lznt1] |}.

Record FileCompressionInformation := mkCompression {
  cf_compressed_file_size : Z;
  cf_compression_format : FileCompressionFormat;
  cf_compression_unit : Z;
  cf_chunk_shift : Z;
  cf_cluster_shift : Z
}.

Definition write_compression (c : FileCompressionInformation) : bin unit :=
  _ ← put 8 (cf_compressed_file_size c);
  _ ← put_repr 2 (cf_compression_format c);
  _ ← put 1 (cf_compression_unit c);
  _ ← put 1 (cf_chunk_shift c);
  _ ← put 1 (cf_cluster_shift c);
  write_all (replicate 3 0).
Definition read_compression : bin FileCompressionInformation :=
  size ← get 8;
  format ← get_repr 2;
  unit ← get 1;
  chunk_shift ← get 1;
  cluster_shift ← get 1;
  _ ← read_exact 3;
  mret (mkCompression size format unit chunk_shift cluster_shift).

Record FileIdInformation := mkIdInformation { ii_volume_serial_number : Z; ii_file_id : Z }.

Definition write_id_information (i : FileIdInformation) : bin unit :=
  _ ← put 8 (ii_volume_serial_number i); put 16 (ii_file_id i).
Definition read_id_information : bin FileIdInformation := volume ← get 8; id ← get 16; mret (mkIdInformation volume id).

Record FileNetworkOpenInformation := mkNetworkOpen {
  no_creation_time : Z;
  no_last_access_time : Z;
  no_last_write_time : Z;
  no_change_time : Z;
  no_allocation_size : Z;
  no_end_of_file : Z;
  no_file_attributes : Z
}.

Definition write_network_open (f : FileNetworkOpenInformation) : bin unit :=
  _ ← put 8 (no_creation_time f);
  _ ← put 8 (no_last_access_time f);
  _ ← put 8 (no_last_write_time f);
  _ ← put 8 (no_change_time f);
  _ ← put 8 (no_allocation_size f);
  _ ← put 8 (no_end_of_file f);
  _ ← put 4 (no_file_attributes f);
  put 4 0.
Definition read_network_open : bin FileNetworkOpenInformation :=
  creation ← get 8;
  access ← get 8;
  write ← get 8;
  change ← get 8;
  allocation_size ← get 8;
  end_of_file ← get 8;
  attributes ← get 4;
  _ ← get 4;
  mret (mkNetworkOpen creation access write change allocation_size end_of_file attributes).

Inductive NamedPipeType := NT_ByteStream | NT_Message.
#[export] Instance NamedPipeType_repr : Repr NamedPipeType := {|
  repr_code t := match t with NT_ByteStream => 0 | NT_Message => 1 end; repr_all := [NT_ByteStream; NT_Message] |}.
Inductive NamedPipeConfiguration := NC_Inbound | NC_Outbound | NC_FullDuplex.
#[export] Instance NamedPipeConfiguration_repr : Repr NamedPipeConfiguration := {|
  repr_code c := match c with NC_Inbound => 0 | NC_Outbound => 1 | NC_FullDuplex => 2 end;
  repr_all := [NC_Inbound; NC_Outbound; NC_FullDuplex] |}.
Inductive NamedPipeState := NS_Disconnected | NS_Listening | NS_Connected | NS_Closing.
#[export] Instance NamedPipeState_repr : Repr NamedPipeState := {|
  repr_code s := match s with NS_Disconnected => 1 | NS_Listening => 2 | NS_Connected => 3 | NS_Closing => 4 end;
  repr_all := [NS_Disconnected; NS_Listening; NS_Connected; NS_Closing] |}.
Inductive NamedPipeEnd := NE_Client | NE_Server.
#[export] Instance NamedPipeEnd_repr : Repr NamedPipeEnd := {|
  repr_code e := match e with NE_Client => 0 | NE_Server => 1 end; repr_all := [NE_Client; NE_Server] |}.

Record FilePipeLocalInformation := mkPipeLocal {
  pl_named_pipe_type : NamedPipeType;
  pl_named_pipe_configuration : NamedPipeConfiguration;
  pl_maximum_instances : Z;
  pl_current_instances : Z;
  pl_inbound_quota : Z;
  pl_read_data_available : Z;
  pl_outbound_quota : Z;
  pl_write_quota_available : Z;
  pl_named_pipe_state : NamedPipeState;
  pl_named_pipe_end : NamedPipeEnd
}.

Definition write_pipe_local (p : FilePipeLocalInformation) : bin unit :=
  _ ← put_repr 4 (pl_named_pipe_type p);
  _ ← put_repr 4 (pl_named_pipe_configuration p);
  _ ← put 4 (pl_maximum_instances p);
  _ ← put 4 (pl_current_instances p);
  _ ← put 4 (pl_inbound_quota p);
  _ ← put 4 (pl_read_data_available p);
  _ ← put 4 (pl_outbound_quota p);
  _ ← put 4 (pl_write_quota_available p);
  _ ← put_repr 4 (pl_named_pipe_state p);
  put_repr 4 (pl_named_pipe_end p).
Definition read_pipe_local : bin FilePipeLocalInformation :=
  type ← get_repr 4;
  configuration ← get_repr 4;
  maximum ← get 4;
  current ← get 4;
  inbound ← get 4;
  available ← get 4;
  outbound ← get 4;
  write_quota ← get 4;
  state ← get_repr 4;
  pipe_end ← get_repr 4;
  mret (mkPipeLocal type configuration maximum current inbound available outbound write_quota state pipe_end).

Record FilePipeRemoteInformation := mkPipeRemote { pr_collect_data_time : Z; pr_maximum_collection_count : Z }.

Definition write_pipe_remote (p : FilePipeRemoteInformation) : bin unit :=
  _ ← put 8 (pr_collect_data_time p); put 4 (pr_maximum_collection_count p).
Definition read_pipe_remote : bin FilePipeRemoteInformation := time ← get 8; count ← get 4; mret (mkPipeRemote time count).

Record FileStreamInformationInner := mkStreamInformation {
  sm_stream_size : Z;
  sm_stream_allocation_size : Z;
  sm_stream_name : list Z
}.

Definition write_stream_information (s : FileStreamInformationInner) : bin unit :=
  _ ← put_wide_size 4 (sm_stream_name s);
  _ ← put 8 (sm_stream_size s);
  _ ← put 8 (sm_stream_allocation_size s);
  write_sized_wide (sm_stream_name s).
Definition read_stream_information : bin FileStreamInformationInner :=
  stream_name_length ← get 4;
  size ← get 8;
  allocation_size ← get 8;
  name ← read_sized_wide stream_name_length;
  mret (mkStreamInformation size allocation_size name).

(** ** Information for setting (set_file_info.rs)

    End of file, allocation and valid data length are integers, a disposition is a boolean. *)

Definition disposition_default : bool := true.

Record FileRenameInformation := mkRename {
  rn_replace_if_exists : bool;
  rn_root_directory : Z;
  rn_file_name : list Z
}.

Definition write_rename (r : FileRenameInformation) : bin unit :=
  _ ← write_boolean (rn_replace_if_exists r);
  _ ← put 1 0;
  _ ← put 2 0;
  _ ← put 4 0;
  _ ← put 8 (rn_root_directory r);
  _ ← put_wide_size 4 (rn_file_name r);
  write_sized_wide (rn_file_name r).
Definition read_rename : bin FileRenameInformation :=
  replace ← read_boolean;
  _ ← get 1;
  _ ← get 2;
  _ ← get 4;
  root_directory ← get 8;
  file_name_length ← get 4;
  file_name ← read_sized_wide file_name_length;
  mret (mkRename replace root_directory file_name).

Record FileLinkInformation := mkLink { lk_replace_if_exists : bool; lk_file_name : list Z }.

Definition write_link (l : FileLinkInformation) : bin unit :=
  _ ← write_boolean (lk_replace_if_exists l);
  _ ← put 1 0;
  _ ← put 2 0;
  _ ← put 4 0;
  _ ← put 8 0;
  _ ← put_wide_size 4 (lk_file_name l);
  write_sized_wide (lk_file_name l).
Definition read_link : bin FileLinkInformation :=
  replace ← read_boolean;
  _ ← get 1;
  _ ← get 2;
  _ ← get 4;
  _ ← get_const 8 0;
  file_name_length ← get 4;
  file_name ← read_sized_wide file_name_length;
  mret (mkLink replace file_name).

(** ** File systems (filesystem_info.rs) *)

Record FileFsAttributeInformation := mkFsAttribute {
  fa_attributes : Z;
  fa_maximum_component_name_length : Z;
  fa_file_system_name : list Z
}.

(** [calc = name.size() as u32] *)
Definition put_wide_size_wrapped (w : nat) (s : list Z) : bin unit := put w (wide_size s mod 256 ^ Z.of_nat w).

Definition write_fs_attribute (a : FileFsAttributeInformation) : bin unit :=
  _ ← put 4 (fa_attributes a);
  _ ← put 4 (fa_maximum_component_name_length a);
  _ ← put_wide_size_wrapped 4 (fa_file_system_name a);
  write_sized_wide (fa_file_system_name a).
Definition read_fs_attribute : bin FileFsAttributeInformation :=
  attributes ← get 4;
  maximum ← get 4;
  file_system_name_length ← get 4;
  name ← read_sized_wide file_system_name_length;
  mret (mkFsAttribute attributes maximum name).

Record FileFsControlInformation := mkFsControl {
  fo_free_space_start_filtering : Z;
  fo_free_space_threshold : Z;
  fo_free_space_stop_filtering : Z;
  fo_default_quota_threshold : Z;
  fo_default_quota_limit : Z;
  fo_file_system_control_flags : Z
}.

Definition write_fs_control (c : FileFsControlInformation) : bin unit :=
  _ ← put 8 (fo_free_space_start_filtering c);
  _ ← put 8 (fo_free_space_threshold c);
  _ ← put 8 (fo_free_space_stop_filtering c);
  _ ← put 8 (fo_default_quota_threshold c);
  _ ← put 8 (fo_default_quota_limit c);
  put 4 (fo_file_system_control_flags c).
Definition read_fs_control : bin FileFsControlInformation :=
  start ← get 8;
  threshold ← get 8;
  stop ← get 8;
  quota_threshold ← get 8;
  quota_limit ← get 8;
  flags ← get 4;
  mret (mkFsControl start threshold stop quota_threshold quota_limit flags).

Inductive FsDeviceType := FD_CdRom | FD_Disk.
#[export] Instance FsDeviceType_repr : Repr FsDeviceType := {|
  repr_code t := match t with FD_CdRom => 2 | FD_Disk => 7 end; repr_all := [FD_CdRom; FD_Disk] |}.

Record FileFsDeviceInformation := mkFsDevice { fd_device_type : FsDeviceType; fd_characteristics : Z }.

Definition write_fs_device (d : FileFsDeviceInformation) : bin unit :=
  _ ← put_repr 4 (fd_device_type d); put 4 (fd_characteristics d).
Definition read_fs_device : bin FileFsDeviceInformation :=
  device_type ← get_repr 4; characteristics ← get 4; mret (mkFsDevice device_type characteristics).

Record FileFsFullSizeInformation := mkFsFullSize {
  fz_total_allocation_units : Z;
  fz_caller_available_allocation_units : Z;
  fz_actual_available_allocation_units : Z;
  fz_sectors_per_allocation_unit : Z;
  fz_bytes_per_sector : Z
}.

Definition write_fs_full_size (f : FileFsFullSizeInformation) : bin unit :=
  _ ← put 8 (fz_total_allocation_units f);
  _ ← put 8 (fz_caller_available_allocation_units f);
  _ ← put 8 (fz_actual_available_allocation_units f);
  _ ← put 4 (fz_sectors_per_allocation_unit f);
  put 4 (fz_bytes_per_sector f).
Definition read_fs_full_size : bin FileFsFullSizeInformation :=
  total ← get 8; caller ← get 8; actual ← get 8; sectors ← get 4; bytes ← get 4;
  mret (mkFsFullSize total caller actual sectors bytes).

Record FileFsObjectIdInformation := mkFsObjectId { fj_object_id : Guid; fj_extended_info : bytes }.

Definition write_fs_object_id (o : FileFsObjectIdInformation) : bin unit :=
  _ ← write_guid (fj_object_id o); write_all (fj_extended_info o).
Definition read_fs_object_id : bin FileFsObjectIdInformation :=
  object_id ← read_guid; extended_info ← read_exact 48; mret (mkFsObjectId object_id extended_info).

Record FileFsSectorSizeInformation := mkFsSectorSize {
  fk_logical_bytes_per_sector : Z;
  fk_physical_bytes_per_sector : Z;
  fk_physical_bytes_per_sector_for_performance : Z;
  fk_effective_physical_bytes_per_sector_for_atomicity : Z;
  fk_flags : Z;
  fk_byte_offset_for_sector_alignment : Z;
  fk_byte_offset_for_partition_alignment : Z
}.

Definition write_fs_sector_size (f : FileFsSectorSizeInformation) : bin unit :=
  _ ← put 4 (fk_logical_bytes_per_sector f);
  _ ← put 4 (fk_physical_bytes_per_sector f);
  _ ← put 4 (fk_physical_bytes_per_sector_for_performance f);
  _ ← put 4 (fk_effective_physical_bytes_per_sector_for_atomicity f);
  _ ← put 4 (fk_flags f);
  _ ← put 4 (fk_byte_offset_for_sector_alignment f);
  put 4 (fk_byte_offset_for_partition_alignment f).
Definition read_fs_sector_size : bin FileFsSectorSizeInformation :=
  logical ← get 4; physical ← get 4; performance ← get 4; atomicity ← get 4; flags ← get 4; sector ← get 4; partition ← get 4;
  mret (mkFsSectorSize logical physical performance atomicity flags sector partition).

Record FileFsSizeInformation := mkFsSize {
  fs_total_allocation_units : Z;
  fs_available_allocation_units : Z;
  fs_sectors_per_allocation_unit : Z;
  fs_bytes_per_sector : Z
}.

Definition write_fs_size (f : FileFsSizeInformation) : bin unit :=
  _ ← put 8 (fs_total_allocation_units f);
  _ ← put 8 (fs_available_allocation_units f);
  _ ← put 4 (fs_sectors_per_allocation_unit f);
  put 4 (fs_bytes_per_sector f).
Definition read_fs_size : bin FileFsSizeInformation :=
  total ← get 8; available ← get 8; sectors ← get 4; bytes ← get 4; mret (mkFsSize total available sectors bytes).

Record FileFsVolumeInformation := mkFsVolume {
  fv_volume_creation_time : Z;
  fv_volume_serial_number : Z;
  fv_supports_objects : bool;
  fv_volume_label : list Z
}.

Definition write_fs_volume (v : FileFsVolumeInformation) : bin unit :=
  _ ← put 8 (fv_volume_creation_time v);
  _ ← put 4 (fv_volume_serial_number v);
  _ ← put_wide_size_wrapped 4 (fv_volume_label v);
  _ ← write_boolean (fv_supports_objects v);
  _ ← put 1 0;
  write_sized_wide (fv_volume_label v).
Definition read_fs_volume : bin FileFsVolumeInformation :=
  creation_time ← get 8;
  serial_number ← get 4;
  volume_label_length ← get 4;
  supports_objects ← read_boolean;
  _ ← get 1;
  label ← read_sized_wide volume_label_length;
  mret (mkFsVolume creation_time serial_number supports_objects label).

(** The layouts of file and file system information: each value is read back from what it is written as. *)

#[export] Instance PipeReadMode_laws : ReprLaws PipeReadMode. Proof. by intros []. Qed.
#[export] Instance PipeCompletionMode_laws : ReprLaws PipeCompletionMode. Proof. by intros []. Qed.
#[export] Instance ReparseTag_laws : ReprLaws ReparseTag. Proof. by intros []. Qed.
#[export] Instance FileAlignmentInformation_laws : ReprLaws FileAlignmentInformation. Proof. by intros []. Qed.
#[export] Instance FileCompressionFormat_laws : ReprLaws FileCompressionFormat. Proof. by intros []. Qed.
#[export] Instance NamedPipeType_laws : ReprLaws NamedPipeType. Proof. by intros []. Qed.
#[export] Instance NamedPipeConfiguration_laws : ReprLaws NamedPipeConfiguration. Proof. by intros []. Qed.
#[export] Instance NamedPipeState_laws : ReprLaws NamedPipeState. Proof. by intros []. Qed.
#[export] Instance NamedPipeEnd_laws : ReprLaws NamedPipeEnd. Proof. by intros []. Qed.
#[export] Instance FsDeviceType_laws : ReprLaws FsDeviceType. Proof. by intros []. Qed.

(** A value is read back from what it is written as, which has [size] bytes. *)
Definition layout_law {A} (n : nat) (w : bin unit) (r : bin A) (a : A) (size : Z) : Prop :=
  exists x, writes n w x /\ reads n r x a /\ zlen x = size.

(** [layout] finds the bytes of a structure by running its writer, and runs its reader over them. *)
Ltac layout := eexists (concat _); split_and!; [emit|repeat take_step; apply reads_ret|len].

(** [fields] takes the ranges of a record's fields apart. *)
Ltac fields :=
  repeat match goal with
  | H : Forall _ (_ :: _) |- _ => apply Forall_cons in H as [? H]
  | H : Forall _ [] |- _ => clear H
  | H : _ /\ _ |- _ => destruct H
  end.

(** [fixed] proves the law of a structure of integers and enums. *)
Ltac fixed := intros; fields; unfold layout_law; layout.

Definition u64s (l : list Z) : Prop := Forall (in_range u64_max) l.
Definition u32s (l : list Z) : Prop := Forall (in_range u32_max) l.
Definition u8s (l : list Z) : Prop := Forall (in_range u8_max) l.

Definition basic_ok (b : FileBasicInformation) : Prop :=
  u64s [bi_creation_time b; bi_last_access_time b; bi_last_write_time b; bi_change_time b] /\ u32s [bi_file_attributes b].

Lemma basic_law n b : basic_ok b -> layout_law n (write_basic b) read_basic b 40.
Proof. destruct b. unfold basic_ok, u64s, u32s, write_basic, read_basic. cbn. fixed. Qed.

Lemma pipe_law n p : layout_law n (write_pipe p) read_pipe p 8.
Proof. destruct p. unfold write_pipe, read_pipe. cbn. layout. Qed.

(** A name is not empty: no reader takes an empty one. *)
Lemma name_law n s : name_ok u32_max s -> layout_law n (write_name s) read_name s (4 + wide_size s).
Proof.
  intros (H1 & H2 & H3). destruct (wide_law (n + 4) s (units_fit s H1) H2) as (z & Hw & Hr & Hz).
  pose proof (writes_wide_size n 4 s ltac:(cbn; ints)) as Hc. pose proof (wide_size_nonneg s) as Hs.
  exists (concat [le_bytes 4 (wide_size s); z]). split_and!; [unfold write_name; emit| |len].
  unfold read_name. take_step. cbn [concat]. rewrite app_nil_r. eapply reads_at; [|exact Hr]. len.
Qed.

Definition standard_ok (s : FileStandardInformation) : Prop :=
  u64s [sn_allocation_size s; sn_end_of_file s] /\ u32s [sn_number_of_links s].

Lemma standard_law n s : standard_ok s -> layout_law n (write_standard s) read_standard s 24.
Proof. destruct s. unfold standard_ok, u64s, u32s, write_standard, read_standard, write_boolean. cbn. fixed. Qed.

Record all_ok (a : FileAllInformation) : Prop := {
  alk_basic : basic_ok (al_basic a);
  alk_standard : standard_ok (al_standard a);
  alk_long : u64s [al_internal a; al_position a];
  alk_ints : u32s [al_ea a; al_access a; al_mode a];
  alk_name : name_ok u32_max (al_name a)
}.

Lemma all_law n a : all_ok a -> layout_law n (write_all_information a) read_all_information a (100 + wide_size (al_name a)).
Proof.
  destruct a as [b s i e ac p m al nm]. intros [Hb Hs H1 H2 Hn]. cbn in *. unfold u64s, u32s in *. fields.
  destruct (basic_law n b Hb) as (x & Hxw & Hxr & Hx). destruct (standard_law (n + 40) s Hs) as (y & Hyw & Hyr & Hy).
  destruct (name_law (n + 96) nm Hn) as (z & Hzw & Hzr & Hz). unfold layout_law, write_all_information, read_all_information. cbn.
  layout.
Qed.

Definition attribute_tag_ok (a : FileAttributeTagInformation) : Prop := u32s [at_file_attributes a].

Lemma attribute_tag_law n a : attribute_tag_ok a -> layout_law n (write_attribute_tag a) read_attribute_tag a 8.
Proof. destruct a. unfold attribute_tag_ok, u32s, write_attribute_tag, read_attribute_tag. cbn. fixed. Qed.

Definition compression_ok (c : FileCompressionInformation) : Prop :=
  u64s [cf_compressed_file_size c] /\ u8s [cf_compression_unit c; cf_chunk_shift c; cf_cluster_shift c].

Lemma compression_law n c : compression_ok c -> layout_law n (write_compression c) read_compression c 16.
Proof.
  destruct c. unfold compression_ok, u64s, u8s, write_compression, read_compression. cbn. intros. fields.
  pose proof (reads_exact (n + 13) [0; 0; 0]) as HR. layout.
Qed.

Definition id_information_ok (i : FileIdInformation) : Prop := u64s [ii_volume_serial_number i] /\ 0 <= ii_file_id i < 2 ^ 128.

Lemma id_information_law n i : id_information_ok i -> layout_law n (write_id_information i) read_id_information i 24.
Proof. destruct i. unfold id_information_ok, u64s, write_id_information, read_id_information. cbn. fixed. Qed.

Definition network_open_ok (f : FileNetworkOpenInformation) : Prop :=
  u64s [no_creation_time f; no_last_access_time f; no_last_write_time f; no_change_time f; no_allocation_size f; no_end_of_file f] /\
  u32s [no_file_attributes f].

Lemma network_open_law n f : network_open_ok f -> layout_law n (write_network_open f) read_network_open f 56.
Proof. destruct f. unfold network_open_ok, u64s, u32s, write_network_open, read_network_open. cbn. fixed. Qed.

Definition pipe_local_ok (p : FilePipeLocalInformation) : Prop :=
  u32s [pl_maximum_instances p; pl_current_instances p; pl_inbound_quota p; pl_read_data_available p; pl_outbound_quota p;
    pl_write_quota_available p].

Lemma pipe_local_law n p : pipe_local_ok p -> layout_law n (write_pipe_local p) read_pipe_local p 40.
Proof. destruct p. unfold pipe_local_ok, u32s, write_pipe_local, read_pipe_local. cbn. fixed. Qed.

Definition pipe_remote_ok (p : FilePipeRemoteInformation) : Prop :=
  u64s [pr_collect_data_time p] /\ u32s [pr_maximum_collection_count p].

Lemma pipe_remote_law n p : pipe_remote_ok p -> layout_law n (write_pipe_remote p) read_pipe_remote p 12.
Proof. destruct p. unfold pipe_remote_ok, u64s, u32s, write_pipe_remote, read_pipe_remote. cbn. fixed. Qed.

(** A structure of a name behind fixed fields: the law of the name at its position. *)
Lemma wide_at m n s : name_ok u32_max s ->
  writes m (put_wide_size 4 s) (le_bytes 4 (wide_size s)) /\
  writes m (put_wide_size_wrapped 4 s) (le_bytes 4 (wide_size s)) /\ 0 <= wide_size s <= u32_max /\
  exists z, writes n (write_sized_wide s) z /\ reads n (read_sized_wide (wide_size s)) z s /\ zlen z = wide_size s.
Proof.
  intros (H1 & H2 & H3). destruct (wide_law n s (units_fit s H1) H2) as (z & Hw & Hr & Hz). pose proof (wide_size_nonneg s).
  split_and!; [| |lia|lia|by exists z].
  - apply writes_wide_size. cbn. ints.
  - unfold put_wide_size_wrapped. rewrite Z.mod_small by (cbn; ints). apply writes_put.
Qed.

(** [named n l o s]: the length of [s] is [l] bytes behind [n], and [s] itself [o]. *)
Ltac named n l o s :=
  match goal with H : name_ok _ s |- _ => destruct (wide_at (n + l) (n + o) s H) as (? & ? & [] & ? & ? & ? & ?) end.

Definition stream_information_ok (s : FileStreamInformationInner) : Prop :=
  u64s [sm_stream_size s; sm_stream_allocation_size s] /\ name_ok u32_max (sm_stream_name s).

Lemma stream_information_law n s :
  stream_information_ok s ->
  layout_law n (write_stream_information s) read_stream_information s (20 + wide_size (sm_stream_name s)).
Proof.
  destruct s as [a b nm]. unfold stream_information_ok, u64s, layout_law, write_stream_information, read_stream_information. cbn.
  intros []. fields. named n 0%nat 20%nat nm. layout.
Qed.

Definition rename_ok (r : FileRenameInformation) : Prop := u64s [rn_root_directory r] /\ name_ok u32_max (rn_file_name r).

Lemma rename_law n r : rename_ok r -> layout_law n (write_rename r) read_rename r (20 + wide_size (rn_file_name r)).
Proof.
  destruct r as [b d nm]. unfold rename_ok, u64s, layout_law, write_rename, read_rename, write_boolean. cbn.
  intros []. fields. named n 16%nat 20%nat nm. layout.
Qed.

Definition link_ok (l : FileLinkInformation) : Prop := name_ok u32_max (lk_file_name l).

Lemma link_law n l : link_ok l -> layout_law n (write_link l) read_link l (20 + wide_size (lk_file_name l)).
Proof.
  destruct l as [b nm]. unfold link_ok, layout_law, write_link, read_link, write_boolean. cbn.
  intros H. named n 16%nat 20%nat nm. layout.
Qed.

Definition fs_attribute_ok (a : FileFsAttributeInformation) : Prop :=
  u32s [fa_attributes a; fa_maximum_component_name_length a] /\ name_ok u32_max (fa_file_system_name a).

Lemma fs_attribute_law n a :
  fs_attribute_ok a -> layout_law n (write_fs_attribute a) read_fs_attribute a (12 + wide_size (fa_file_system_name a)).
Proof.
  destruct a as [a m nm]. unfold fs_attribute_ok, u32s, layout_law, write_fs_attribute, read_fs_attribute. cbn.
  intros []. fields. named n 8%nat 12%nat nm. layout.
Qed.

Definition fs_control_ok (c : FileFsControlInformation) : Prop :=
  u64s [fo_free_space_start_filtering c; fo_free_space_threshold c; fo_free_space_stop_filtering c; fo_default_quota_threshold c;
    fo_default_quota_limit c] /\ u32s [fo_file_system_control_flags c].

Lemma fs_control_law n c : fs_control_ok c -> layout_law n (write_fs_control c) read_fs_control c 44.
Proof. destruct c. unfold fs_control_ok, u64s, u32s, write_fs_control, read_fs_control. cbn. fixed. Qed.

Definition fs_device_ok (d : FileFsDeviceInformation) : Prop := u32s [fd_characteristics d].

Lemma fs_device_law n d : fs_device_ok d -> layout_law n (write_fs_device d) read_fs_device d 8.
Proof. destruct d. unfold fs_device_ok, u32s, write_fs_device, read_fs_device. cbn. fixed. Qed.

Definition fs_full_size_ok (f : FileFsFullSizeInformation) : Prop :=
  u64s [fz_total_allocation_units f; fz_caller_available_allocation_units f; fz_actual_available_allocation_units f] /\
  u32s [fz_sectors_per_allocation_unit f; fz_bytes_per_sector f].

Lemma fs_full_size_law n f : fs_full_size_ok f -> layout_law n (write_fs_full_size f) read_fs_full_size f 32.
Proof. destruct f. unfold fs_full_size_ok, u64s, u32s, write_fs_full_size, read_fs_full_size. cbn. fixed. Qed.

Definition fs_object_id_ok (o : FileFsObjectIdInformation) : Prop :=
  guid_ok (fj_object_id o) /\ length (fj_extended_info o) = 48%nat.

Lemma fs_object_id_law n o : fs_object_id_ok o -> layout_law n (write_fs_object_id o) read_fs_object_id o 64.
Proof.
  destruct o as [g x]. unfold fs_object_id_ok, layout_law, write_fs_object_id, read_fs_object_id. cbn [fj_object_id fj_extended_info].
  intros [H1 H2]. destruct (guid_law n g H1) as (y & Hw & Hr & Hy). pose proof (reads_exact' (n + 16) 48 x (eq_sym H2)) as Hx.
  exists (concat [y; x]). split_and!; [emit|do 2 take_step; apply reads_ret|len].
Qed.

Definition fs_sector_size_ok (f : FileFsSectorSizeInformation) : Prop :=
  u32s [fk_logical_bytes_per_sector f; fk_physical_bytes_per_sector f; fk_physical_bytes_per_sector_for_performance f;
    fk_effective_physical_bytes_per_sector_for_atomicity f; fk_flags f; fk_byte_offset_for_sector_alignment f;
    fk_byte_offset_for_partition_alignment f].

Lemma fs_sector_size_law n f : fs_sector_size_ok f -> layout_law n (write_fs_sector_size f) read_fs_sector_size f 28.
Proof. destruct f. unfold fs_sector_size_ok, u32s, write_fs_sector_size, read_fs_sector_size. cbn. fixed. Qed.

Definition fs_size_ok (f : FileFsSizeInformation) : Prop :=
  u64s [fs_total_allocation_units f; fs_available_allocation_units f] /\ u32s [fs_sectors_per_allocation_unit f; fs_bytes_per_sector f].

Lemma fs_size_law n f : fs_size_ok f -> layout_law n (write_fs_size f) read_fs_size f 24.
Proof. destruct f. unfold fs_size_ok, u64s, u32s, write_fs_size, read_fs_size. cbn. fixed. Qed.

Definition fs_volume_ok (v : FileFsVolumeInformation) : Prop :=
  u64s [fv_volume_creation_time v] /\ u32s [fv_volume_serial_number v] /\ name_ok u32_max (fv_volume_label v).

Lemma fs_volume_law n v : fs_volume_ok v -> layout_law n (write_fs_volume v) read_fs_volume v (18 + wide_size (fv_volume_label v)).
Proof.
  destruct v as [t s o nm]. unfold fs_volume_ok, u64s, u32s, layout_law, write_fs_volume, read_fs_volume, write_boolean. cbn.
  intros (? & ? & ?). fields. named n 12%nat 18%nat nm. layout.
Qed.
