(* ===== verification/DirectoryInfo.v ===== *)
(** Directory entries (crates/smb-fscc/src/directory_info.rs; smb-dtyp/src/binrw_util/fixed_string.rs): the structures of
    a directory listing. All but two come from the macro [query_dir_type!], which puts the fields of a structure
    of its own between fields that are shared; it is the section below, over those fields. *)
From S2P Require Import Prelude Effects Bytes Header Stream Codec Security ChainedList CreateContexts Fsctl Messages.
From S2P Require Import Queries QueryProps FileInfo.
Local Open Scope Z_scope.

(** ** Fixed strings *)

(** [BaseFixedString::from_slice] *)
Definition from_slice (n : nat) (slice : list Z) : list Z := take n slice ++ replicate (n - length slice) 0.

(** [FromStr], by the length of the string in bytes and its units *)
Definition fixed_from_str (n : nat) (len : Z) (units : list Z) : option (list Z) :=
  if bool_decide (len > Z.of_nat n) then None else Some (from_slice n units).

(** [FileName83], a [FixedWideString<12>] *)
Definition write_name83 (s : list Z) : bin unit := write_list (put 2) s.
Definition read_name83 : bin (list Z) := read_count 12 (get 2).

(** ** Entries *)

Record FileDirectoryInformation := mkDirectoryInformation {
  di_file_index : Z;
  di_creation_time : Z;
  di_last_access_time : Z;
  di_last_write_time : Z;
  di_change_time : Z;
  di_end_of_file : Z;
  di_allocation_size : Z;
  di_file_attributes : Z;
  di_file_name : list Z
}.

Definition write_directory_information (d : FileDirectoryInformation) : bin unit :=
  _ ← put 4 (di_file_index d);
  _ ← put 8 (di_creation_time d);
  _ ← put 8 (di_last_access_time d);
  _ ← put 8 (di_last_write_time d);
  _ ← put 8 (di_change_time d);
  _ ← put 8 (di_end_of_file d);
  _ ← put 8 (di_allocation_size d);
  _ ← put 4 (di_file_attributes d);
  _ ← put_wide_size 4 (di_file_name d);
  write_sized_wide (di_file_name d).
Definition read_directory_information : bin FileDirectoryInformation :=
  file_index ← get 4;
  creation ← get 8;
  access ← get 8;
  write ← get 8;
  change ← get 8;
  end_of_file ← get 8;
  allocation_size ← get 8;
  attributes ← get 4;
  file_name_length ← get 4;
  file_name ← read_sized_wide file_name_length;
  mret (mkDirectoryInformation file_index creation access write change end_of_file allocation_size attributes file_name).

Record FileNamesInformation := mkNamesInformation { ni_file_index : Z; ni_file_name : list Z }.

Definition write_names_information (i : FileNamesInformation) : bin unit :=
  _ ← put 4 (ni_file_index i); _ ← put_wide_size 4 (ni_file_name i); write_sized_wide (ni_file_name i).
Definition read_names_information : bin FileNamesInformation :=
  file_index ← get 4;
  file_name_length ← get 4;
  file_name ← read_sized_wide file_name_length;
  mret (mkNamesInformation file_index file_name).

(** [FileAttributes::reparse_point] *)
Definition reparse_point (attributes : Z) : bool := Z.testbit attributes 10.

(** [query_dir_type!]: the fields of a structure's own are [Fields]. *)
Record DirType (Fields : Type) := mkDirType {
  dt_file_index : Z;
  dt_creation_time : Z;
  dt_last_access_time : Z;
  dt_last_write_time : Z;
  dt_change_time : Z;
  dt_end_of_file : Z;
  dt_allocation_size : Z;
  dt_file_attributes : Z;
  dt_ea_size : option Z;
  dt_reparse_tag : option ReparseTag;
  dt_fields : Fields;
  dt_file_name : list Z
}.
Arguments mkDirType {Fields}.
Arguments dt_file_index {Fields}.
Arguments dt_creation_time {Fields}.
Arguments dt_last_access_time {Fields}.
Arguments dt_last_write_time {Fields}.
Arguments dt_change_time {Fields}.
Arguments dt_end_of_file {Fields}.
Arguments dt_allocation_size {Fields}.
Arguments dt_file_attributes {Fields}.
Arguments dt_ea_size {Fields}.
Arguments dt_reparse_tag {Fields}.
Arguments dt_fields {Fields}.
Arguments dt_file_name {Fields}.

Definition is_some {A} (o : option A) : bool := match o with Some _ => true | None => false end.

Section dir_type.
Context {Fields : Type} (write_fields : Fields -> bin unit) (read_fields : bin Fields).

Definition write_dir_type (d : DirType Fields) : bin unit :=
  _ ← put 4 (dt_file_index d);
  _ ← put 8 (dt_creation_time d);
  _ ← put 8 (dt_last_access_time d);
  _ ← put 8 (dt_last_write_time d);
  _ ← put 8 (dt_change_time d);
  _ ← put 8 (dt_end_of_file d);
  _ ← put 8 (dt_allocation_size d);
  _ ← put 4 (dt_file_attributes d);
  _ ← put_wide_size 4 (dt_file_name d);
  _ ← bin_assert (xorb (is_some (dt_reparse_tag d)) (is_some (dt_ea_size d)));
  _ ← put_opt (put 4) (dt_ea_size d);
  _ ← bin_assert (eqb (is_some (dt_reparse_tag d)) (reparse_point (dt_file_attributes d)));
  _ ← put_opt (put_repr 4) (dt_reparse_tag d);
  _ ← write_fields (dt_fields d);
  write_sized_wide (dt_file_name d).

(** The size of the extended attributes and the tag of a reparse point are the same field. *)
Definition read_dir_type : bin (DirType Fields) :=
  file_index ← get 4;
  creation ← get 8;
  access ← get 8;
  write ← get 8;
  change ← get 8;
  end_of_file ← get 8;
  allocation_size ← get 8;
  attributes ← get 4;
  file_name_length ← get 4;
  ea_size ← get_if (negb (reparse_point attributes)) (get 4);
  reparse_tag ← get_if (reparse_point attributes) (get_repr 4);
  fields ← read_fields;
  file_name ← read_sized_wide file_name_length;
  mret (mkDirType file_index creation access write change end_of_file allocation_size attributes ea_size reparse_tag fields
    file_name).

End dir_type.

(** A short name goes with its length and a reserved byte. *)
Record ShortName := mkShortName { sh_short_name_length : Z; sh_short_name : list Z }.

Definition write_short_name (s : ShortName) : bin unit :=
  _ ← put 1 (sh_short_name_length s); _ ← put 1 0; write_name83 (sh_short_name s).
Definition read_short_name : bin ShortName :=
  length ← get 1; _ ← get 1; name ← read_name83; mret (mkShortName length name).

Definition FileFullDirectoryInformation : Type := DirType unit.
Definition write_full_directory : FileFullDirectoryInformation -> bin unit := write_dir_type mret.
Definition read_full_directory : bin FileFullDirectoryInformation := read_dir_type (mret tt).

Definition FileBothDirectoryInformation : Type := DirType ShortName.
Definition write_both_directory : FileBothDirectoryInformation -> bin unit := write_dir_type write_short_name.
Definition read_both_directory : bin FileBothDirectoryInformation := read_dir_type read_short_name.

Record Id64ExtdFields := mkId64Extd { xd_reparse_point_tag : Z; xd_file_id : Z }.

Definition write_id64_extd (f : Id64ExtdFields) : bin unit := _ ← put 4 (xd_reparse_point_tag f); put 8 (xd_file_id f).
Definition read_id64_extd : bin Id64ExtdFields := tag ← get 4; id ← get 8; mret (mkId64Extd tag id).

Definition FileId64ExtdDirectoryInformation : Type := DirType Id64ExtdFields.
Definition write_id64_extd_directory : FileId64ExtdDirectoryInformation -> bin unit := write_dir_type write_id64_extd.
Definition read_id64_extd_directory : bin FileId64ExtdDirectoryInformation := read_dir_type read_id64_extd.

Record Id64ExtdBothFields := mkId64ExtdBoth { xb_reparse_point_tag : Z; xb_file_id : Z; xb_short_name : ShortName }.

Definition write_id64_extd_both (f : Id64ExtdBothFields) : bin unit :=
  _ ← put 4 (xb_reparse_point_tag f); _ ← put 8 (xb_file_id f); write_short_name (xb_short_name f).
Definition read_id64_extd_both : bin Id64ExtdBothFields :=
  tag ← get 4; id ← get 8; name ← read_short_name; mret (mkId64ExtdBoth tag id name).

Definition FileId64ExtdBothDirectoryInformation : Type := DirType Id64ExtdBothFields.
Definition write_id64_extd_both_directory : FileId64ExtdBothDirectoryInformation -> bin unit :=
  write_dir_type write_id64_extd_both.
Definition read_id64_extd_both_directory : bin FileId64ExtdBothDirectoryInformation := read_dir_type read_id64_extd_both.

Record IdAllExtdFields := mkIdAllExtd { xa_reparse_point_tag : Z; xa_file_id : Z; xa_file_id_128 : Z }.

Definition write_id_all_extd (f : IdAllExtdFields) : bin unit :=
  _ ← put 4 (xa_reparse_point_tag f); _ ← put 8 (xa_file_id f); put 16 (xa_file_id_128 f).
Definition read_id_all_extd : bin IdAllExtdFields :=
  tag ← get 4; id ← get 8; id_128 ← get 16; mret (mkIdAllExtd tag id id_128).

Definition FileIdAllExtdDirectoryInformation : Type := DirType IdAllExtdFields.
Definition write_id_all_extd_directory : FileIdAllExtdDirectoryInformation -> bin unit := write_dir_type write_id_all_extd.
Definition read_id_all_extd_directory : bin FileIdAllExtdDirectoryInformation := read_dir_type read_id_all_extd.

Record IdAllExtdBothFields := mkIdAllExtdBoth {
  xo_reparse_point_tag : Z;
  xo_file_id : Z;
  xo_file_id_128 : Z;
  xo_short_name : ShortName
}.

Definition write_id_all_extd_both (f : IdAllExtdBothFields) : bin unit :=
  _ ← put 4 (xo_reparse_point_tag f);
  _ ← put 8 (xo_file_id f);
  _ ← put 16 (xo_file_id_128 f);
  write_short_name (xo_short_name f).
Definition read_id_all_extd_both : bin IdAllExtdBothFields :=
  tag ← get 4; id ← get 8; id_128 ← get 16; name ← read_short_name; mret (mkIdAllExtdBoth tag id id_128 name).

Definition FileIdAllExtdBothDirectoryInformation : Type := DirType IdAllExtdBothFields.
Definition write_id_all_extd_both_directory : FileIdAllExtdBothDirectoryInformation -> bin unit :=
  write_dir_type write_id_all_extd_both.
Definition read_id_all_extd_both_directory : bin FileIdAllExtdBothDirectoryInformation := read_dir_type read_id_all_extd_both.

Record IdBothFields := mkIdBoth { xi_short_name : ShortName; xi_file_id : Z }.

Definition write_id_both (f : IdBothFields) : bin unit :=
  _ ← write_short_name (xi_short_name f); _ ← put 2 0; put 8 (xi_file_id f).
Definition read_id_both : bin IdBothFields := name ← read_short_name; _ ← get 2; id ← get 8; mret (mkIdBoth name id).

Definition FileIdBothDirectoryInformation : Type := DirType IdBothFields.
Definition write_id_both_directory : FileIdBothDirectoryInformation -> bin unit := write_dir_type write_id_both.
Definition read_id_both_directory : bin FileIdBothDirectoryInformation := read_dir_type read_id_both.

Record IdExtdFields := mkIdExtd { xe_reparse_point_tag : Z; xe_file_id : Z }.

Definition write_id_extd (f : IdExtdFields) : bin unit := _ ← put 4 (xe_reparse_point_tag f); put 16 (xe_file_id f).
Definition read_id_extd : bin IdExtdFields := tag ← get 4; id ← get 16; mret (mkIdExtd tag id).

Definition FileIdExtdDirectoryInformation : Type := DirType IdExtdFields.
Definition write_id_extd_directory : FileIdExtdDirectoryInformation -> bin unit := write_dir_type write_id_extd.
Definition read_id_extd_directory : bin FileIdExtdDirectoryInformation := read_dir_type read_id_extd.

(** The file identifier behind a reserved integer. *)
Definition write_id_full (file_id : Z) : bin unit := _ ← put 4 0; put 8 file_id.
Definition read_id_full : bin Z := _ ← get 4; get 8.

Definition FileIdFullDirectoryInformation : Type := DirType Z.
Definition write_id_full_directory : FileIdFullDirectoryInformation -> bin unit := write_dir_type write_id_full.
Definition read_id_full_directory : bin FileIdFullDirectoryInformation := read_dir_type read_id_full.

(** The layouts of directory entries, and what a listing makes of them. *)

Lemma name_ok_le a b s : a <= b -> name_ok a s -> name_ok b s.
Proof. intros H (H1 & H2 & H3). split_and!; [done|done|lia]. Qed.

Record directory_information_ok (d : FileDirectoryInformation) : Prop := {
  dik_long : u64s [di_creation_time d; di_last_access_time d; di_last_write_time d; di_change_time d; di_end_of_file d;
    di_allocation_size d];
  dik_ints : u32s [di_file_index d; di_file_attributes d];
  dik_name : name_ok u16_max (di_file_name d)
}.

Lemma directory_information_law n d :
  directory_information_ok d ->
  layout_law n (write_directory_information d) read_directory_information d (60 + wide_size (di_file_name d)).
Proof.
  destruct d as [i c a w ch e al fa nm]. intros [H1 H2 H3]. apply (name_ok_le _ u32_max) in H3; [|done].
  unfold u64s, u32s, layout_law, write_directory_information, read_directory_information in *. cbn in *. fields.
  named n 56%nat 60%nat nm. layout.
Qed.

Definition names_information_ok (i : FileNamesInformation) : Prop :=
  u32s [ni_file_index i] /\ name_ok u16_max (ni_file_name i).

Lemma names_information_law n i :
  names_information_ok i -> layout_law n (write_names_information i) read_names_information i (8 + wide_size (ni_file_name i)).
Proof.
  destruct i as [i nm]. unfold names_information_ok, u32s. cbn. intros [H1 H2].
  apply (name_ok_le _ u32_max) in H2; [|done].
  unfold layout_law, write_names_information, read_names_information. cbn. fields. named n 4%nat 8%nat nm. layout.
Qed.

(** ** [query_dir_type!] *)

#[local] Arguments get_if : simpl never.
#[local] Arguments reparse_point : simpl never.
#[local] Arguments write_sized_wide : simpl never.

Section dir_type.
Context {Fields : Type} (write_fields : Fields -> bin unit) (read_fields : bin Fields) (fields_ok : Fields -> Prop) (size : Z).
Context (Hfields : forall n f, fields_ok f -> layout_law n (write_fields f) read_fields f size).

(** The attributes say which of the two the shared field holds. *)
Record dir_type_ok (d : DirType Fields) : Prop := {
  dtk_long : u64s [dt_creation_time d; dt_last_access_time d; dt_last_write_time d; dt_change_time d; dt_end_of_file d;
    dt_allocation_size d];
  dtk_ints : u32s [dt_file_index d; dt_file_attributes d];
  dtk_shared : match dt_ea_size d, dt_reparse_tag d with
    | Some ea_size, None => in_range u32_max ea_size /\ reparse_point (dt_file_attributes d) = false
    | None, Some _ => reparse_point (dt_file_attributes d) = true
    | _, _ => False end;
  dtk_fields : fields_ok (dt_fields d);
  dtk_name : name_ok u16_max (dt_file_name d)
}.

Definition dir_type_size (d : DirType Fields) : Z := 64 + size + wide_size (dt_file_name d).

Lemma dir_type_law n d :
  dir_type_ok d -> layout_law n (write_dir_type write_fields d) (read_dir_type read_fields) d (dir_type_size d).
Proof using Hfields.
  destruct d as [i c a w ch e al fa ea tag f nm]. intros [H1 H2 H3 H4 H5].
  apply (name_ok_le _ u32_max) in H5; [|done].
  unfold u64s, u32s, layout_law, write_dir_type, read_dir_type, dir_type_size in *. cbn in *. fields.
  destruct (Hfields (n + 64) f H4) as (y & Hyw & Hyr & Hy).
  destruct (wide_at (n + 56) (n + 64 + length y) nm ltac:(done)) as (? & ? & [] & ? & ? & ? & ?).
  destruct ea as [ea|], tag as [tag|]; [done| | |done].
  - destruct H3 as [H3 Hp].
    assert (Hg : reads (n + 60) (get_if (negb (reparse_point fa)) (get 4)) (le_bytes 4 ea) (Some ea))
      by (apply reads_get_if; rewrite Hp; split; [done|apply reads_get; range]).
    assert (Hg' : forall m, reads m (get_if (reparse_point fa) (get_repr (A:=ReparseTag) 4)) [] None)
      by (intros m; by apply reads_get_if).
    eexists (concat _). split_and!; [cbn [put_opt is_some]; rewrite Hp; emit| |len].
    do 10 take_step. eapply reads_skip; [apply Hg'|]. do 2 take_step. apply reads_ret.
  - assert (Hg : reads (n + 60) (get_if (reparse_point fa) (get_repr 4)) (le_bytes 4 (repr_code tag)) (Some tag))
      by (apply reads_get_if; rewrite H3; split; [done|apply reads_repr; by destruct tag]).
    assert (Hg' : forall m, reads m (get_if (negb (reparse_point fa)) (get 4)) [] None)
      by (intros m; apply reads_get_if; by rewrite H3).
    eexists (concat _). split_and!; [cbn [put_opt is_some]; rewrite H3; emit| |len].
    do 9 take_step. eapply reads_skip; [apply Hg'|]. do 3 take_step. apply reads_ret.
Qed.
End dir_type.

(** ** The fields of the structures *)

Definition short_name_ok (s : ShortName) : Prop :=
  u8s [sh_short_name_length s] /\ length (sh_short_name s) = 12%nat /\ Forall (in_range u16_max) (sh_short_name s).

Lemma short_name_law n s : short_name_ok s -> layout_law n (write_short_name s) read_short_name s 26.
Proof.
  destruct s as [l s]. unfold short_name_ok, u8s, layout_law, write_short_name, read_short_name, write_name83, read_name83.
  cbn [sh_short_name_length sh_short_name]. intros (H1 & H2 & H3). fields.
  destruct (ints_law (n + 2) 2 s (units_fit s H3)) as (Hw & Hr & Hz). unfold zlen in Hr. rewrite H2 in Hr. layout.
Qed.

Definition id64_extd_ok (f : Id64ExtdFields) : Prop := u32s [xd_reparse_point_tag f] /\ u64s [xd_file_id f].
Definition id64_extd_both_ok (f : Id64ExtdBothFields) : Prop :=
  u32s [xb_reparse_point_tag f] /\ u64s [xb_file_id f] /\ short_name_ok (xb_short_name f).
Definition id_all_extd_ok (f : IdAllExtdFields) : Prop :=
  u32s [xa_reparse_point_tag f] /\ u64s [xa_file_id f] /\ 0 <= xa_file_id_128 f < 2 ^ 128.
Definition id_all_extd_both_ok (f : IdAllExtdBothFields) : Prop :=
  u32s [xo_reparse_point_tag f] /\ u64s [xo_file_id f] /\ 0 <= xo_file_id_128 f < 2 ^ 128 /\ short_name_ok (xo_short_name f).
Definition id_both_ok (f : IdBothFields) : Prop := short_name_ok (xi_short_name f) /\ u64s [xi_file_id f].
Definition id_extd_ok (f : IdExtdFields) : Prop := u32s [xe_reparse_point_tag f] /\ 0 <= xe_file_id f < 2 ^ 128.

Lemma id64_extd_law n f : id64_extd_ok f -> layout_law n (write_id64_extd f) read_id64_extd f 12.
Proof. destruct f. unfold id64_extd_ok, u32s, u64s, write_id64_extd, read_id64_extd. cbn. fixed. Qed.

(** The short name behind [o] bytes. *)
Ltac short n o s :=
  match goal with H : short_name_ok s |- _ => destruct (short_name_law (n + o) s H) as (? & ? & ? & ?) end.

Lemma id64_extd_both_law n f : id64_extd_both_ok f -> layout_law n (write_id64_extd_both f) read_id64_extd_both f 38.
Proof.
  destruct f as [t i s]. unfold id64_extd_both_ok, u32s, u64s, layout_law, write_id64_extd_both, read_id64_extd_both. cbn.
  intros (? & ? & ?). fields. short n 12%nat s. layout.
Qed.

Lemma id_all_extd_law n f : id_all_extd_ok f -> layout_law n (write_id_all_extd f) read_id_all_extd f 28.
Proof. destruct f. unfold id_all_extd_ok, u32s, u64s, write_id_all_extd, read_id_all_extd. cbn. fixed. Qed.

Lemma id_all_extd_both_law n f : id_all_extd_both_ok f -> layout_law n (write_id_all_extd_both f) read_id_all_extd_both f 54.
Proof.
  destruct f as [t i j s]. unfold id_all_extd_both_ok, u32s, u64s, layout_law, write_id_all_extd_both, read_id_all_extd_both. cbn.
  intros (? & ? & ? & ?). fields. short n 28%nat s. layout.
Qed.

Lemma id_both_law n f : id_both_ok f -> layout_law n (write_id_both f) read_id_both f 36.
Proof.
  destruct f as [s i]. unfold id_both_ok, u64s, layout_law, write_id_both, read_id_both. cbn.
  intros [? ?]. fields. short n 0%nat s. layout.
Qed.

Lemma id_extd_law n f : id_extd_ok f -> layout_law n (write_id_extd f) read_id_extd f 20.
Proof. destruct f. unfold id_extd_ok, u32s, write_id_extd, read_id_extd. cbn. fixed. Qed.

Lemma id_full_law n i : in_range u64_max i -> layout_law n (write_id_full i) read_id_full i 12.
Proof.
  intros H. exists (concat [le_bytes 4 0; le_bytes 8 i]). split_and!; [unfold write_id_full; emit| |len].
  unfold read_id_full. take_step. cbn [concat]. rewrite app_nil_r. apply reads_get. range.
Qed.

Lemma no_fields_law n u : True -> layout_law n (mret u) (mret ()) u 0.
Proof. intros _. destruct u. exists []. split_and!; [apply writes_ret|apply reads_ret|done]. Qed.
