(* ===== verification/InfoClasses.v ===== *)
(** Information classes (crates/smb-fscc/src/info_classes.rs, smb-msg/src/info/common.rs): the macro
    [file_info_classes!] turns a table of classes into an enum with a variant for each, conversions between the enum
    and the types of its variants, and a reader that is told the class.

    A table is an instance of [InfoClasses]: the type of the values of each class, with their writer and reader. What the
    macro generates is defined once over it. *)
From S2P Require Import Prelude Effects Bytes Header Stream Codec Security ChainedList CreateContexts Fsctl Messages.
From S2P Require Import Queries QueryProps FileInfo DirectoryInfo.
Local Open Scope Z_scope.

Class InfoClasses (C : Type) := {
  ic_repr :: Repr C;
  ic_eq :: EqDecision C;
  info_value : C -> Type;
  write_value : forall c, info_value c -> bin unit;
  read_value : forall c, bin (info_value c)
}.

(** [SmbFsccError::UnexpectedInformationType], with the codes of the classes *)
Record SmbFsccError := UnexpectedInformationType { ue_expected : Z; ue_actual : Z }.

Section classes.
Context {C : Type} `{InfoClasses C}.

(** The enum: a class and a value of its type. [FileInfoType::class] is the class. *)
Record Info := mkInfo { info_class : C; info_content : info_value info_class }.

Definition write_info (i : Info) : bin unit := write_value (info_class i) (info_content i).

(** A variant of the enum: [pre_assert(matches!(c, ..))] and then the value. *)
Definition read_variant (c variant : C) : bin Info :=
  _ ← bin_assert (bool_decide (c = variant)); v ← read_value variant; mret (mkInfo variant v).

(** The variants are tried in the order of the table. *)
Definition read_info (c : C) : bin Info := read_variants (read_variant c <$> repr_all).

(** [From] of the value type of a class, and [TryFrom] *)
Definition info_from (c : C) (v : info_value c) : Info := mkInfo c v.

Definition info_try_from (c : C) (i : Info) : result SmbFsccError (info_value c) :=
  match decide (info_class i = c) with
  | left e => Ok (eq_rect (info_class i) info_value (info_content i) c e)
  | right _ => Err (UnexpectedInformationType (repr_code c) (repr_code (info_class i)))
  end.

(** [Raw..::from]; [None] is the panic of its [unwrap]. *)
Definition raw_from (i : Info) : option bytes :=
  match write_info i (mkStream [] O) with Some (s, Ok _) => Some (st_data s) | _ => None end.

(** [Raw..::parse] *)
Definition raw_parse (data : bytes) (class : C) : option (result BinError Info) := snd <$> read_info class (mkStream data O).

(** A query for the type of a class, as [query_info_with_options] uses it: [None] is a panic. *)
Definition parse_value (c : C) (data : bytes) : option (result (BinError + SmbFsccError) (info_value c)) :=
  match raw_parse data c with
  | None => None
  | Some (Err e) => Some (Err (inl e))
  | Some (Ok i) => Some match info_try_from c i with Ok v => Ok v | Err e => Err (inr e) end
  end.

End classes.
Arguments Info C {_}.

(** ** The tables *)

(** [QueryFileInfo] *)
Definition query_file_value (c : QueryFileInfoClass) : Type :=
  match c with
  | QF_Access | QF_Ea | QF_Internal | QF_Mode | QF_Position => Z
  | QF_Alignment => FileAlignmentInformation
  | QF_All => FileAllInformation
  | QF_AlternateName | QF_NormalizedName => list Z
  | QF_AttributeTag => FileAttributeTagInformation
  | QF_Basic => FileBasicInformation
  | QF_Compression => FileCompressionInformation
  | QF_FullEa => FileFullEaInformation
  | QF_Id => FileIdInformation
  | QF_NetworkOpen => FileNetworkOpenInformation
  | QF_Pipe => FilePipeInformation
  | QF_PipeLocal => FilePipeLocalInformation
  | QF_PipeRemote => FilePipeRemoteInformation
  | QF_Standard => FileStandardInformation
  | QF_Stream => list FileStreamInformationInner
  end.

Definition write_query_file_value (c : QueryFileInfoClass) : query_file_value c -> bin unit :=
  match c with
  | QF_Access | QF_Ea | QF_Mode => put 4
  | QF_Internal | QF_Position => put 8
  | QF_Alignment => put_repr 4
  | QF_All => write_all_information
  | QF_AlternateName | QF_NormalizedName => write_name
  | QF_AttributeTag => write_attribute_tag
  | QF_Basic => write_basic
  | QF_Compression => write_compression
  | QF_FullEa => write_full_ea
  | QF_Id => write_id_information
  | QF_NetworkOpen => write_network_open
  | QF_Pipe => write_pipe
  | QF_PipeLocal => write_pipe_local
  | QF_PipeRemote => write_pipe_remote
  | QF_Standard => write_standard
  | QF_Stream => write_chained 8 write_stream_information
  end.

Definition read_query_file_value (c : QueryFileInfoClass) : bin (query_file_value c) :=
  match c with
  | QF_Access | QF_Ea | QF_Mode => get 4
  | QF_Internal | QF_Position => get 8
  | QF_Alignment => get_repr 4
  | QF_All => read_all_information
  | QF_AlternateName | QF_NormalizedName => read_name
  | QF_AttributeTag => read_attribute_tag
  | QF_Basic => read_basic
  | QF_Compression => read_compression
  | QF_FullEa => read_full_ea
  | QF_Id => read_id_information
  | QF_NetworkOpen => read_network_open
  | QF_Pipe => read_pipe
  | QF_PipeLocal => read_pipe_local
  | QF_PipeRemote => read_pipe_remote
  | QF_Standard => read_standard
  | QF_Stream => read_chained 8 read_stream_information
  end.

#[export] Instance query_file_info : InfoClasses QueryFileInfoClass :=
  {| info_value := query_file_value; write_value := write_query_file_value; read_value := read_query_file_value |}.

(** [SetFileInfo] *)
#[export] Instance SetFileInfoClass_eq : EqDecision SetFileInfoClass.
Proof. solve_decision. Defined.

Definition set_file_value (c : SetFileInfoClass) : Type :=
  match c with
  | SF_Allocation | SF_EndOfFile | SF_Mode | SF_Position | SF_ValidDataLength => Z
  | SF_Basic => FileBasicInformation
  | SF_Disposition => bool
  | SF_FullEa => FileFullEaInformation
  | SF_Link => FileLinkInformation
  | SF_Pipe => FilePipeInformation
  | SF_Rename => FileRenameInformation
  | SF_ShortName => list Z
  end.

Definition write_set_file_value (c : SetFileInfoClass) : set_file_value c -> bin unit :=
  match c with
  | SF_Allocation | SF_EndOfFile | SF_Position | SF_ValidDataLength => put 8
  | SF_Mode => put 4
  | SF_Basic => write_basic
  | SF_Disposition => write_boolean
  | SF_FullEa => write_full_ea
  | SF_Link => write_link
  | SF_Pipe => write_pipe
  | SF_Rename => write_rename
  | SF_ShortName => write_name
  end.

Definition read_set_file_value (c : SetFileInfoClass) : bin (set_file_value c) :=
  match c with
  | SF_Allocation | SF_EndOfFile | SF_Position | SF_ValidDataLength => get 8
  | SF_Mode => get 4
  | SF_Basic => read_basic
  | SF_Disposition => read_boolean
  | SF_FullEa => read_full_ea
  | SF_Link => read_link
  | SF_Pipe => read_pipe
  | SF_Rename => read_rename
  | SF_ShortName => read_name
  end.

#[export] Instance set_file_info : InfoClasses SetFileInfoClass :=
  {| info_value := set_file_value; write_value := write_set_file_value; read_value := read_set_file_value |}.

(** [QueryFileSystemInfo] *)
Definition query_fs_value (c : QueryFileSystemInfoClass) : Type :=
  match c with
  | QS_FsAttribute => FileFsAttributeInformation
  | QS_FsControl => FileFsControlInformation
  | QS_FsDevice => FileFsDeviceInformation
  | QS_FsFullSize => FileFsFullSizeInformation
  | QS_FsObjectId => FileFsObjectIdInformation
  | QS_FsSectorSize => FileFsSectorSizeInformation
  | QS_FsSize => FileFsSizeInformation
  | QS_FsVolume => FileFsVolumeInformation
  end.

Definition write_query_fs_value (c : QueryFileSystemInfoClass) : query_fs_value c -> bin unit :=
  match c with
  | QS_FsAttribute => write_fs_attribute
  | QS_FsControl => write_fs_control
  | QS_FsDevice => write_fs_device
  | QS_FsFullSize => write_fs_full_size
  | QS_FsObjectId => write_fs_object_id
  | QS_FsSectorSize => write_fs_sector_size
  | QS_FsSize => write_fs_size
  | QS_FsVolume => write_fs_volume
  end.

Definition read_query_fs_value (c : QueryFileSystemInfoClass) : bin (query_fs_value c) :=
  match c with
  | QS_FsAttribute => read_fs_attribute
  | QS_FsControl => read_fs_control
  | QS_FsDevice => read_fs_device
  | QS_FsFullSize => read_fs_full_size
  | QS_FsObjectId => read_fs_object_id
  | QS_FsSectorSize => read_fs_sector_size
  | QS_FsSize => read_fs_size
  | QS_FsVolume => read_fs_volume
  end.

#[export] Instance query_fs_info : InfoClasses QueryFileSystemInfoClass :=
  {| info_value := query_fs_value; write_value := write_query_fs_value; read_value := read_query_fs_value |}.

(** [SetFileSystemInfo] *)
#[export] Instance SetFileSystemInfoClass_eq : EqDecision SetFileSystemInfoClass.
Proof. solve_decision. Defined.

Definition set_fs_value (c : SetFileSystemInfoClass) : Type :=
  match c with SY_FsControl => FileFsControlInformation | SY_FsObjectId => FileFsObjectIdInformation end.

Definition write_set_fs_value (c : SetFileSystemInfoClass) : set_fs_value c -> bin unit :=
  match c with SY_FsControl => write_fs_control | SY_FsObjectId => write_fs_object_id end.

Definition read_set_fs_value (c : SetFileSystemInfoClass) : bin (set_fs_value c) :=
  match c with SY_FsControl => read_fs_control | SY_FsObjectId => read_fs_object_id end.

#[export] Instance set_fs_info : InfoClasses SetFileSystemInfoClass :=
  {| info_value := set_fs_value; write_value := write_set_fs_value; read_value := read_set_fs_value |}.

(** [QueryDirectoryInfo] *)
#[export] Instance QueryDirectoryInfoClass_eq : EqDecision QueryDirectoryInfoClass.
Proof. solve_decision. Defined.

(** [CHAINED_ALIGNMENT] *)
Definition chained_alignment : nat := 8.

Definition query_directory_value (c : QueryDirectoryInfoClass) : Type :=
  match c with
  | QD_Directory => FileDirectoryInformation
  | QD_FullDirectory => FileFullDirectoryInformation
  | QD_IdFullDirectory => FileIdFullDirectoryInformation
  | QD_BothDirectory => FileBothDirectoryInformation
  | QD_IdBothDirectory => FileIdBothDirectoryInformation
  | QD_Names => FileNamesInformation
  | QD_IdExtdDirectory => FileIdExtdDirectoryInformation
  | QD_Id64ExtdDirectory => FileId64ExtdDirectoryInformation
  | QD_Id64ExtdBothDirectory => FileId64ExtdBothDirectoryInformation
  | QD_IdAllExtdDirectory => FileIdAllExtdDirectoryInformation
  | QD_IdAllExtdBothDirectory => FileIdAllExtdBothDirectoryInformation
  end.

Definition write_query_directory_value (c : QueryDirectoryInfoClass) : query_directory_value c -> bin unit :=
  match c with
  | QD_Directory => write_directory_information
  | QD_FullDirectory => write_full_directory
  | QD_IdFullDirectory => write_id_full_directory
  | QD_BothDirectory => write_both_directory
  | QD_IdBothDirectory => write_id_both_directory
  | QD_Names => write_names_information
  | QD_IdExtdDirectory => write_id_extd_directory
  | QD_Id64ExtdDirectory => write_id64_extd_directory
  | QD_Id64ExtdBothDirectory => write_id64_extd_both_directory
  | QD_IdAllExtdDirectory => write_id_all_extd_directory
  | QD_IdAllExtdBothDirectory => write_id_all_extd_both_directory
  end.

Definition read_query_directory_value (c : QueryDirectoryInfoClass) : bin (query_directory_value c) :=
  match c with
  | QD_Directory => read_directory_information
  | QD_FullDirectory => read_full_directory
  | QD_IdFullDirectory => read_id_full_directory
  | QD_BothDirectory => read_both_directory
  | QD_IdBothDirectory => read_id_both_directory
  | QD_Names => read_names_information
  | QD_IdExtdDirectory => read_id_extd_directory
  | QD_Id64ExtdDirectory => read_id64_extd_directory
  | QD_Id64ExtdBothDirectory => read_id64_extd_both_directory
  | QD_IdAllExtdDirectory => read_id_all_extd_directory
  | QD_IdAllExtdBothDirectory => read_id_all_extd_both_directory
  end.

#[export] Instance query_directory_info : InfoClasses QueryDirectoryInfoClass :=
  {| info_value := query_directory_value; write_value := write_query_directory_value; read_value := read_query_directory_value |}.

(** The laws of the tables of information classes: a value of a class is read back by the reader of its class. *)

(** What the fields of a value have to fit. *)
Class InfoRanges (C : Type) `{InfoClasses C} := value_ok : forall c : C, info_value c -> Prop.

Class InfoLaws (C : Type) `{InfoRanges C} :=
  value_law : forall c (v : info_value c), value_ok c v -> body_law 0 (write_value c v) (read_value c) v.

Lemma layout_body {A} (w : bin unit) (r : bin A) a size : layout_law 0 w r a size -> body_law 0 w r a.
Proof. intros (x & H1 & H2 & _). apply body_exact. by exists x. Qed.

(** A list of items at the start of a buffer. *)
Lemma chained_body {T} pad (write_item : T -> bin unit) (read_item : bin T) (fits : T -> Prop) (size : T -> Z) l :
  pad <> O ->
  (forall n a, fits a -> exists x, writes n (write_item a) x /\ reads n read_item x a /\ zlen x <= size a) ->
  Forall (fun a => fits a /\ 4 + size a + Z.of_nat pad < 2 ^ 32) l ->
  body_law 0 (write_chained pad write_item l) (read_chained pad read_item) l.
Proof.
  intros Hpad Hlaw Hl.
  destruct (chained_law pad write_item read_item fits size) with (n := O) (l := l) as (x & H1 & H2 & _);
    [done| |done|apply Nat.Div0.mod_0_l|by exists x].
  intros m a _ Ha. destruct (Hlaw (m + 4)%nat a Ha) as (x & H1 & H2 & H3). exists x. split_and!; [done|by apply reads_reads_any|done].
Qed.

Lemma layout_item {A} n (w : bin unit) (r : bin A) a size :
  layout_law n w r a size -> exists x, writes n w x /\ reads n r x a /\ zlen x <= size.
Proof. intros (x & H1 & H2 & H3). exists x. split_and!; [done|done|lia]. Qed.

Lemma put_body w v : 0 <= v < 256 ^ Z.of_nat w -> body_law 0 (put w v) (get w) v.
Proof. intros H. apply body_exact. exists (le_bytes w v). split; [apply writes_put|by apply reads_get]. Qed.

Lemma full_ea_body l : Forall ea_ok l -> body_law 0 (write_full_ea l) read_full_ea l.
Proof.
  intros H. apply (chained_body 4 write_ea read_ea ea_ok ea_size); [done|intros; by apply ea_law|].
  eapply Forall_impl; [exact H|]. intros e He. split; [done|by apply ea_small].
Qed.

(** ** Files *)

Definition stream_ok (s : FileStreamInformationInner) : Prop :=
  stream_information_ok s /\ wide_size (sm_stream_name s) <= u16_max.

#[export] Instance query_file_ranges : InfoRanges QueryFileInfoClass := fun c =>
  match c return query_file_value c -> Prop with
  | QF_Access | QF_Ea | QF_Mode => in_range u32_max
  | QF_Internal | QF_Position => in_range u64_max
  | QF_Alignment | QF_Pipe => fun _ => True
  | QF_All => all_ok
  | QF_AlternateName | QF_NormalizedName => name_ok u32_max
  | QF_AttributeTag => attribute_tag_ok
  | QF_Basic => basic_ok
  | QF_Compression => compression_ok
  | QF_FullEa => Forall ea_ok
  | QF_Id => id_information_ok
  | QF_NetworkOpen => network_open_ok
  | QF_PipeLocal => pipe_local_ok
  | QF_PipeRemote => pipe_remote_ok
  | QF_Standard => standard_ok
  | QF_Stream => Forall stream_ok
  end.

#[export] Instance set_file_ranges : InfoRanges SetFileInfoClass := fun c =>
  match c return set_file_value c -> Prop with
  | SF_Allocation | SF_EndOfFile | SF_Position | SF_ValidDataLength => in_range u64_max
  | SF_Mode => in_range u32_max
  | SF_Basic => basic_ok
  | SF_Disposition | SF_Pipe => fun _ => True
  | SF_FullEa => Forall ea_ok
  | SF_Link => link_ok
  | SF_Rename => rename_ok
  | SF_ShortName => name_ok u32_max
  end.

#[export] Instance query_fs_ranges : InfoRanges QueryFileSystemInfoClass := fun c =>
  match c return query_fs_value c -> Prop with
  | QS_FsAttribute => fs_attribute_ok
  | QS_FsControl => fs_control_ok
  | QS_FsDevice => fs_device_ok
  | QS_FsFullSize => fs_full_size_ok
  | QS_FsObjectId => fs_object_id_ok
  | QS_FsSectorSize => fs_sector_size_ok
  | QS_FsSize => fs_size_ok
  | QS_FsVolume => fs_volume_ok
  end.

#[export] Instance set_fs_ranges : InfoRanges SetFileSystemInfoClass := fun c =>
  match c return set_fs_value c -> Prop with SY_FsControl => fs_control_ok | SY_FsObjectId => fs_object_id_ok end.

#[export] Instance query_directory_ranges : InfoRanges QueryDirectoryInfoClass := fun c =>
  match c return query_directory_value c -> Prop with
  | QD_Directory => directory_information_ok
  | QD_FullDirectory => dir_type_ok (fun _ => True)
  | QD_IdFullDirectory => dir_type_ok (in_range u64_max)
  | QD_BothDirectory => dir_type_ok short_name_ok
  | QD_IdBothDirectory => dir_type_ok id_both_ok
  | QD_Names => names_information_ok
  | QD_IdExtdDirectory => dir_type_ok id_extd_ok
  | QD_Id64ExtdDirectory => dir_type_ok id64_extd_ok
  | QD_Id64ExtdBothDirectory => dir_type_ok id64_extd_both_ok
  | QD_IdAllExtdDirectory => dir_type_ok id_all_extd_ok
  | QD_IdAllExtdBothDirectory => dir_type_ok id_all_extd_both_ok
  end.

Create HintDb info_laws.
#[export] Hint Resolve basic_law pipe_law name_law standard_law all_law attribute_tag_law compression_law id_information_law
  network_open_law pipe_local_law pipe_remote_law rename_law link_law fs_attribute_law fs_control_law fs_device_law
  fs_full_size_law fs_object_id_law fs_sector_size_law fs_size_law fs_volume_law : info_laws.

(** [at_class]: the goal and the ranges of a value at its class. *)
Ltac at_class :=
  unfold value_ok, write_value, read_value, query_file_ranges, query_file_info, set_file_ranges, set_file_info,
    query_fs_ranges, query_fs_info, set_fs_ranges, set_fs_info, query_directory_ranges, query_directory_info in *;
  cbn [write_query_file_value read_query_file_value write_set_file_value read_set_file_value write_query_fs_value
    read_query_fs_value write_set_fs_value read_set_fs_value write_query_directory_value read_query_directory_value
    info_value query_file_value set_file_value query_fs_value set_fs_value query_directory_value] in *.

(** A class whose values have one layout. *)
Ltac class_law :=
  lazymatch goal with
  | |- body_law _ (put _ _) _ _ => apply put_body; range
  | |- body_law _ (write_full_ea _) _ _ => by apply full_ea_body
  | |- _ => eapply layout_body; solve [eauto with info_laws nocore]
  end.

#[export] Instance query_file_laws : InfoLaws QueryFileInfoClass.
Proof.
  intros c v. destruct c; at_class; intros H; try class_law.
  - apply body_exact. exists (le_bytes 4 (repr_code (A:=FileAlignmentInformation) v)). split; [apply writes_repr|].
    apply reads_repr. by destruct v.
  - apply (chained_body 8 _ _ stream_ok (fun s => 20 + wide_size (sm_stream_name s))); [done| |].
    + intros n s [Hs _]. by apply layout_item, stream_information_law.
    + eapply Forall_impl; [exact H|]. intros s [Hs1 Hs2]. split; [done|]. cbn. ints.
Qed.

#[export] Instance set_file_laws : InfoLaws SetFileInfoClass.
Proof.
  intros c v. destruct c; at_class; intros H; try class_law.
  apply body_exact. eexists. split; [apply writes_put|apply reads_boolean].
Qed.

(** ** File systems *)

#[export] Instance query_fs_laws : InfoLaws QueryFileSystemInfoClass.
Proof. intros c v. destruct c; at_class; intros H; class_law. Qed.

#[export] Instance set_fs_laws : InfoLaws SetFileSystemInfoClass.
Proof. intros c v. destruct c; at_class; intros H; class_law. Qed.

(** ** Directories *)

(** An entry of any class, at any position of a page; none is larger than 118 bytes and its name. *)
Lemma entry_law c n (v : query_directory_value c) :
  value_ok c v -> exists x, writes n (write_value c v) x /\ reads n (read_value c) x v /\ zlen x <= 118 + u16_max.
Proof.
  assert (Hd : forall F (w : F -> bin unit) (r : bin F) ok size d, (forall n f, ok f -> layout_law n (w f) r f size) -> size <= 54 ->
    dir_type_ok ok d -> exists x, writes n (write_dir_type w d) x /\ reads n (read_dir_type r) x d /\ zlen x <= 118 + u16_max).
  { intros F w r ok size d Hlaw Hs Hok. destruct (dir_type_law w r ok size Hlaw n d Hok) as (x & H1 & H2 & H3).
    exists x. split_and!; [done|done|]. destruct Hok as [_ _ _ _ (_ & _ & ?)]. unfold dir_type_size in H3. lia. }
  destruct c; at_class; intros H.
  - destruct (directory_information_law n v H) as (x & H1 & H2 & H3), H as [_ _ (_ & _ & ?)]. exists x. split_and!; [done|done|lia].
  - by eapply Hd; [apply no_fields_law| |].
  - by eapply Hd; [apply id_full_law| |].
  - by eapply Hd; [apply short_name_law| |].
  - by eapply Hd; [apply id_both_law| |].
  - destruct (names_information_law n v H) as (x & H1 & H2 & H3), H as [_ (_ & _ & ?)]. exists x. split_and!; [done|done|lia].
  - by eapply Hd; [apply id_extd_law| |].
  - by eapply Hd; [apply id64_extd_law| |].
  - by eapply Hd; [apply id64_extd_both_law| |].
  - by eapply Hd; [apply id_all_extd_law| |].
  - by eapply Hd; [apply id_all_extd_both_law| |].
Qed.

(** A page of entries. *)
Lemma page_body c (l : list (query_directory_value c)) :
  Forall (value_ok c) l ->
  body_law 0 (write_chained chained_alignment (write_value c) l) (read_chained chained_alignment (read_value c)) l.
Proof.
  intros H. apply (chained_body chained_alignment _ _ (value_ok c) (fun _ => 118 + u16_max)); [done|intros n v; apply entry_law|].
  eapply Forall_impl; [exact H|]. intros v Hv. by split.
Qed.
