(* ===== verification/Dfs.v ===== *)
(** Referrals of the distributed file system (crates/smb-msg/src/dfsc.rs): the response to a request for a referral, its
    entries of four versions, and where their names are found. The names of an entry lie behind all the entries; an entry
    has their offsets from its own start. The response has no writer, its entries do. *)
From S2P Require Import Prelude Effects Bytes Header Stream Codec.
Local Open Scope Z_scope.

Inductive DfsServerType := DS_NonRoot | DS_Root.
#[export] Instance DfsServerType_repr : Repr DfsServerType := {|
  repr_code t := match t with DS_NonRoot => 0 | DS_Root => 1 end; repr_all := [DS_NonRoot; DS_Root] |}.

(** [ReferralEntry::COMMON_PART_SIZE], the version and the size, and [EntryV3Value::OFFSET_FROM_ENTRY_START] *)
Definition common_part_size : Z := 4.
Definition offset_from_entry_start : Z := 12.

Record ReferralEntryValueV1 := mkReferralV1 { v1_server_type : DfsServerType; v1_share_name : list Z }.

(** The names of an entry: of version 2, and the [EntryV3V4DfsPaths] of versions 3 and 4. *)
Record DfsPaths := mkDfsPaths { dp_dfs_path : list Z; dp_dfs_alternate_path : list Z; dp_network_address : list Z }.

Record ReferralEntryValueV2 := mkReferralV2 { v2_server_type : DfsServerType; v2_time_to_live : Z; v2_paths : DfsPaths }.

Record EntryV3DCRefs := mkDCRefs {
  dr_number_of_expanded_names : Z;
  dr_special_name : list Z;
  dr_expanded_names : list (list Z)
}.

Inductive EntryV3Value := V3_DfsPath (p : DfsPaths) | V3_NetworkAddress (r : EntryV3DCRefs).

Record ReferralEntryValueV3 := mkReferralV3 {
  v3_server_type : DfsServerType;
  v3_referral_entry_flags : Z;
  v3_time_to_live : Z;
  v3_value : EntryV3Value
}.

Record ReferralEntryValueV4 := mkReferralV4 {
  v4_server_type : DfsServerType;
  v4_referral_entry_flags : Z;
  v4_time_to_live : Z;
  v4_refs : DfsPaths
}.

Inductive ReferralEntryValue :=
| RV_V1 (v : ReferralEntryValueV1) | RV_V2 (v : ReferralEntryValueV2) | RV_V3 (v : ReferralEntryValueV3)
| RV_V4 (v : ReferralEntryValueV4).

Definition get_version (v : ReferralEntryValue) : Z :=
  match v with RV_V1 _ => 1 | RV_V2 _ => 2 | RV_V3 _ => 3 | RV_V4 _ => 4 end.

Record RespGetDfsReferral := mkDfsResponse {
  rd_path_consumed : Z;
  rd_referral_header_flags : Z;
  rd_referral_entries : list ReferralEntryValue
}.

(** ** Readers *)

(** An offset that is at least [least]. *)
Definition get_offset (least : Z) : bin Z := offset ← get 2; _ ← bin_assert (least <=? offset); mret offset.

(** The name at an offset from the entry, [least] bytes of which lie in front of [start]. *)
Definition name_at (start : nat) (least offset : Z) : bin (list Z) :=
  _ ← seek_start (start + Z.to_nat (offset - least)); read_null 2.

Definition read_referral_v1 : bin ReferralEntryValueV1 :=
  server_type ← get_repr 2; _ ← get 2; share_name ← read_null 2; mret (mkReferralV1 server_type share_name).

Definition read_referral_v2 : bin ReferralEntryValueV2 :=
  start ← stream_position;
  server_type ← get_repr 2;
  _ ← get 2;
  _ ← get 4;
  time_to_live ← get 4;
  dfs_path_offset ← get_offset common_part_size;
  dfs_alternate_path_offset ← get_offset common_part_size;
  network_address_offset ← get_offset common_part_size;
  restore_position ← stream_position;
  dfs_path ← name_at start common_part_size dfs_path_offset;
  dfs_alternate_path ← name_at start common_part_size dfs_alternate_path_offset;
  network_address ← name_at start common_part_size network_address_offset;
  _ ← seek_start restore_position;
  mret (mkReferralV2 server_type time_to_live (mkDfsPaths dfs_path dfs_alternate_path network_address)).

(** [EntryV3V4DfsPaths] *)
Definition read_dfs_paths : bin DfsPaths :=
  start ← stream_position;
  dfs_path_offset ← get_offset offset_from_entry_start;
  dfs_alternate_path_offset ← get_offset offset_from_entry_start;
  network_address_offset ← get_offset offset_from_entry_start;
  _ ← get 16;
  restore_position ← stream_position;
  dfs_path ← name_at start offset_from_entry_start dfs_path_offset;
  dfs_alternate_path ← name_at start offset_from_entry_start dfs_alternate_path_offset;
  network_address ← name_at start offset_from_entry_start network_address_offset;
  _ ← seek_start restore_position;
  mret (mkDfsPaths dfs_path dfs_alternate_path network_address).

Definition read_dc_refs : bin EntryV3DCRefs :=
  start ← stream_position;
  special_name_offset ← get_offset offset_from_entry_start;
  number_of_expanded_names ← get 2;
  expanded_name_offset ← get_offset offset_from_entry_start;
  restore_position ← stream_position;
  special_name ← name_at start offset_from_entry_start special_name_offset;
  _ ← seek_start (start + Z.to_nat (expanded_name_offset - offset_from_entry_start));
  expanded_names ← read_count (Z.to_nat number_of_expanded_names) (read_null 2);
  _ ← seek_start restore_position;
  mret (mkDCRefs number_of_expanded_names special_name expanded_names).

(** [ReferralEntryFlags::name_list_referral] *)
Definition name_list_referral (flags : Z) : bool := Z.testbit flags 1.

Definition read_v3_value (flags : Z) : bin EntryV3Value :=
  read_variants
    [_ ← bin_assert (name_list_referral flags); p ← read_dfs_paths; mret (V3_DfsPath p);
     _ ← bin_assert (negb (name_list_referral flags)); r ← read_dc_refs; mret (V3_NetworkAddress r)].

Definition read_referral_v3 : bin ReferralEntryValueV3 :=
  server_type ← get_repr 2;
  flags ← get 2;
  time_to_live ← get 4;
  value ← read_v3_value flags;
  mret (mkReferralV3 server_type flags time_to_live value).

(** [ReferralEntryFlagsV4::target_set_boundary], the only flag of version 4 *)
Definition target_set_boundary : Z := 4.

Definition read_referral_v4 : bin ReferralEntryValueV4 :=
  server_type ← get_repr 2;
  flags ← get 2;
  _ ← bin_assert (bool_decide (Z.land flags (65535 - target_set_boundary) = 0));
  time_to_live ← get 4;
  refs ← read_dfs_paths;
  mret (mkReferralV4 server_type flags time_to_live refs).

Definition read_referral_value (version : Z) : bin ReferralEntryValue :=
  read_variants
    [_ ← bin_assert (bool_decide (version = 1)); v ← read_referral_v1; mret (RV_V1 v);
     _ ← bin_assert (bool_decide (version = 2)); v ← read_referral_v2; mret (RV_V2 v);
     _ ← bin_assert (bool_decide (version = 3)); v ← read_referral_v3; mret (RV_V3 v);
     _ ← bin_assert (bool_decide (version = 4)); v ← read_referral_v4; mret (RV_V4 v)].

(** [ReferralEntry]: the size is read and not used. *)
Definition read_referral_entry : bin ReferralEntryValue := version ← get 2; _ ← get 2; read_referral_value version.

Definition read_dfs_response : bin RespGetDfsReferral :=
  path_consumed ← get 2;
  number_of_referrals ← get 2;
  referral_header_flags ← get 4;
  entries ← read_count (Z.to_nat number_of_referrals) read_referral_entry;
  mret (mkDfsResponse path_consumed referral_header_flags entries).

(** ** Writers *)

(** [write_roff_b_plus] from a start that has no bytes of its own *)
Definition write_name_from (start : nat) (plus : Z) (offset : PosMarker) (name : list Z) : bin unit :=
  write_hero (write_null 2 name) None (Some offset) (Some (mkMarker 0 start)) 0 plus.

Definition write_referral_v2 (v : ReferralEntryValueV2) : bin unit :=
  start ← stream_position;
  _ ← put_repr 2 (v2_server_type v);
  _ ← put 2 0;
  _ ← put 4 0;
  _ ← put 4 (v2_time_to_live v);
  dfs_path_offset ← put_marker 2;
  dfs_alternate_path_offset ← put_marker 2;
  network_address_offset ← put_marker 2;
  _ ← write_name_from start common_part_size dfs_path_offset (dp_dfs_path (v2_paths v));
  _ ← write_name_from start common_part_size dfs_alternate_path_offset (dp_dfs_alternate_path (v2_paths v));
  write_name_from start common_part_size network_address_offset (dp_network_address (v2_paths v)).

Definition write_dfs_paths (p : DfsPaths) : bin unit :=
  start ← stream_position;
  dfs_path_offset ← put_marker 2;
  dfs_alternate_path_offset ← put_marker 2;
  network_address_offset ← put_marker 2;
  _ ← put 16 0;
  _ ← write_name_from start common_part_size dfs_path_offset (dp_dfs_path p);
  _ ← write_name_from start common_part_size dfs_alternate_path_offset (dp_dfs_alternate_path p);
  write_name_from start common_part_size network_address_offset (dp_network_address p).

Definition write_dc_refs (r : EntryV3DCRefs) : bin unit :=
  _ ← put_marker 2;
  _ ← put 2 (dr_number_of_expanded_names r);
  _ ← put_marker 2;
  _ ← write_null 2 (dr_special_name r);
  write_list (write_null 2) (dr_expanded_names r).

Definition write_referral_value (v : ReferralEntryValue) : bin unit :=
  match v with
  | RV_V1 v => _ ← put_repr 2 (v1_server_type v); _ ← put 2 0; write_null 2 (v1_share_name v)
  | RV_V2 v => write_referral_v2 v
  | RV_V3 v =>
      _ ← put_repr 2 (v3_server_type v);
      _ ← put 2 (v3_referral_entry_flags v);
      _ ← put 4 (v3_time_to_live v);
      match v3_value v with V3_DfsPath p => write_dfs_paths p | V3_NetworkAddress r => write_dc_refs r end
  | RV_V4 v =>
      _ ← put_repr 2 (v4_server_type v);
      _ ← put 2 (v4_referral_entry_flags v);
      _ ← put 4 (v4_time_to_live v);
      write_dfs_paths (v4_refs v)
  end.

Definition write_referral_entry (v : ReferralEntryValue) : bin unit :=
  _ ← put 2 (get_version v);
  size ← put_marker 2;
  write_size_plus (write_referral_value v) size common_part_size.

(** What a referral response is read as: the names of its entries are found where their offsets say. And what goes wrong:
    the two kinds of an entry of version 3 are told apart the wrong way round, and the writers of the names and their
    reader disagree about where an entry starts. *)

#[export] Instance DfsServerType_laws : ReprLaws DfsServerType. Proof. by intros []. Qed.

(** [x] stands at position [p] of a buffer. *)
Definition here (data : bytes) (p : nat) (x : bytes) : Prop := exists pre post, data = pre ++ x ++ post /\ length pre = p.

(** A name that ends with a null stands at position [p]. *)
Definition name_here (data : bytes) (p : nat) (name : list Z) : Prop :=
  exists q, read_null 2 (mkStream data p) = Some (mkStream data q, Ok name).

Lemma here_app data p x y : here data p (x ++ y) -> here data p x /\ here data (p + length x) y.
Proof.
  intros (pre & post & -> & <-). split.
  - exists pre, (y ++ post). by rewrite <- app_assoc.
  - exists (pre ++ x), post. by rewrite length_app, <- !app_assoc.
Qed.

Lemma run_here {A} data p (r : bin A) x a :
  reads p r x a -> here data p x -> r (mkStream data p) = Some (mkStream data (p + length x), Ok a).
Proof. intros Hr (pre & post & -> & Hp). by apply Hr. Qed.

Lemma reads_offset n least o : in_range u16_max o -> least <= o -> reads n (get_offset least) (le_bytes 2 o) o.
Proof.
  intros H1 H2. unfold get_offset. rewrite <- (app_nil_r (le_bytes 2 o)). eapply reads_bind; [apply reads_get; cbn; ints|].
  apply (reads_map _ (bin_assert _) (fun _ => o) _ tt), reads_assert. lia.
Qed.

Lemma run_name data p start least o name (H : least <= o) :
  p = (start + Z.to_nat (o - least))%nat -> name_here data p name ->
  forall q, exists q', name_at start least o (mkStream data q) = Some (mkStream data q', Ok name).
Proof. intros -> [q' Hq] q. exists q'. unfold name_at. by eapply run_bind. Qed.

(** ** Entries of version 4 *)

(** An entry as a server lays it out: [re_offset] are the offsets of its three names from its start. *)
Record Referral := mkReferralLayout {
  re_server_type : DfsServerType;
  re_boundary : bool;
  re_time_to_live : Z;
  re_offset : Z * Z * Z;
  re_service_site_guid : Z;
  re_paths : DfsPaths
}.

Definition re_flags (r : Referral) : Z := if re_boundary r then target_set_boundary else 0.

(** The offsets and the identifier. *)
Definition paths_part (r : Referral) : list bytes :=
  let '(o1, o2, o3) := re_offset r in [le_bytes 2 o1; le_bytes 2 o2; le_bytes 2 o3; le_bytes 16 (re_service_site_guid r)].

Definition fixed_part (r : Referral) : bytes :=
  concat (le_bytes 2 4 :: le_bytes 2 34 :: le_bytes 2 (repr_code (re_server_type r)) :: le_bytes 2 (re_flags r) ::
    le_bytes 4 (re_time_to_live r) :: paths_part r).

Record referral_at (data : bytes) (p : nat) (r : Referral) : Prop := {
  ra_ttl : in_range u32_max (re_time_to_live r);
  ra_guid : 0 <= re_service_site_guid r < 2 ^ 128;
  ra_offsets : let '(o1, o2, o3) := re_offset r in
    Forall (fun o => in_range u16_max o /\ offset_from_entry_start <= o) [o1; o2; o3];
  ra_fixed : here data p (fixed_part r);
  ra_names : let '(o1, o2, o3) := re_offset r in
    name_here data (p + Z.to_nat o1) (dp_dfs_path (re_paths r)) /\
    name_here data (p + Z.to_nat o2) (dp_dfs_alternate_path (re_paths r)) /\
    name_here data (p + Z.to_nat o3) (dp_network_address (re_paths r))
}.

Definition referral_value (r : Referral) : ReferralEntryValue :=
  RV_V4 (mkReferralV4 (re_server_type r) (re_flags r) (re_time_to_live r) (re_paths r)).

(** A step that reads the next segment of a part of the buffer. *)
Ltac read_here H :=
  let Hx := fresh "Hx" in
  cbn [concat] in H; apply here_app in H as [Hx H]; rewrite length_le_bytes in H;
  eapply run_bind; [eapply run_here; [|exact Hx]|rewrite length_le_bytes]; cycle 1; cbv beta.

Lemma run_dfs_paths data p r :
  (12 <= p)%nat -> 0 <= re_service_site_guid r < 2 ^ 128 ->
  (let '(o1, o2, o3) := re_offset r in
    Forall (fun o => in_range u16_max o /\ offset_from_entry_start <= o) [o1; o2; o3] /\
    name_here data (p - 12 + Z.to_nat o1) (dp_dfs_path (re_paths r)) /\
    name_here data (p - 12 + Z.to_nat o2) (dp_dfs_alternate_path (re_paths r)) /\
    name_here data (p - 12 + Z.to_nat o3) (dp_network_address (re_paths r))) ->
  here data p (concat (paths_part r)) -> read_dfs_paths (mkStream data p) = Some (mkStream data (p + 22), Ok (re_paths r)).
Proof.
  destruct r as [st b ttl [[o1 o2] o3] g [n1 n2 n3]]. unfold paths_part, offset_from_entry_start.
  cbn [re_offset re_service_site_guid re_paths dp_dfs_path dp_dfs_alternate_path dp_network_address].
  intros Hp Hg (Ho & H1 & H2 & H3) Hh. rewrite !Forall_cons in Ho. destruct Ho as ([] & [] & [] & _).
  assert (Hname : forall o name, 12 <= o -> name_here data (p - 12 + Z.to_nat o) name ->
    forall q, exists q', name_at p 12 o (mkStream data q) = Some (mkStream data q', Ok name)).
  { intros o name Ho Hn. eapply run_name; [done| |exact Hn]. lia. }
  unfold read_dfs_paths, offset_from_entry_start. eapply run_bind; [reflexivity|]. cbn [st_pos].
  read_here Hh; [|by apply reads_offset]. read_here Hh; [|by apply reads_offset]. read_here Hh; [|by apply reads_offset].
  read_here Hh; [|apply reads_get; cbn; lia]. eapply run_bind; [reflexivity|]. cbn [st_pos].
  edestruct (Hname o1 n1) as [q1 E1]; [done..|]. eapply run_bind; [exact E1|].
  edestruct (Hname o2 n2) as [q2 E2]; [done..|]. eapply run_bind; [exact E2|].
  edestruct (Hname o3 n3) as [q3 E3]; [done..|]. eapply run_bind; [exact E3|].
  eapply run_bind; [reflexivity|]. unfold mret, eff_ret. repeat f_equal.
  change (mkStream data (p + 2 + 2 + 2 + 16) = mkStream data (p + 22)). f_equal. lia.
Qed.

Lemma run_referral data p r :
  referral_at data p r -> read_referral_entry (mkStream data p) = Some (mkStream data (p + 34), Ok (referral_value r)).
Proof.
  intros [Ht Hg Ho Hh Hn]. unfold read_referral_entry, fixed_part in *. read_here Hh; [|by apply reads_get].
  read_here Hh; [|by apply reads_get]. unfold read_referral_value.
  do 3 (erewrite read_variants_next by reflexivity). cbn [read_variants].
  replace (_ : bin ReferralEntryValue) with (v ← read_referral_v4; mret (RV_V4 v)) by reflexivity.
  assert (H4 : read_referral_v4 (mkStream data (p + 2 + 2)) = Some (mkStream data (p + 34),
    Ok (mkReferralV4 (re_server_type r) (re_flags r) (re_time_to_live r) (re_paths r)))); [|by rewrite (run_bind _ _ _ _ _ _ H4 eq_refl)].
  unfold read_referral_v4. read_here Hh; [|apply reads_repr; by destruct (re_server_type r)].
  read_here Hh; [|apply reads_get; by unfold re_flags; destruct (re_boundary r)].
  eapply run_bind; [apply run_assert; by unfold re_flags; destruct (re_boundary r)|].
  read_here Hh; [|apply reads_get; unfold in_range in *; cbn; ints].
  eapply run_bind; [apply (run_dfs_paths _ _ r)|].
  - lia.
  - done.
  - destruct (re_offset r) as [[o1 o2] o3]. split; [done|].
    by replace (p + 2 + 2 + 2 + 2 + 4 - 12)%nat with p by lia.
  - exact Hh.
  - unfold mret, eff_ret. do 3 f_equal. lia.
Qed.

Lemma run_referrals data rs : forall p,
  (forall i r, rs !! i = Some r -> referral_at data (p + 34 * i) r) ->
  read_count (length rs) read_referral_entry (mkStream data p) =
    Some (mkStream data (p + 34 * length rs), Ok (referral_value <$> rs)).
Proof.
  induction rs as [|r rs IH]; intros p H.
  - unfold read_count, mret, eff_ret. cbn. by rewrite Nat.add_0_r.
  - cbn [length read_count]. eapply run_bind; [apply run_referral|].
    + specialize (H O r eq_refl). by rewrite Nat.mul_0_r, Nat.add_0_r in H.
    + eapply run_bind; [apply IH|unfold mret, eff_ret; do 3 f_equal; lia].
      intros i r' Hi. specialize (H (S i) r' Hi). by replace (p + 34 + 34 * i)%nat with (p + 34 * S i)%nat by lia.
Qed.

(** C23: a referral response of version 4 is understood wherever the server puts the names: the reader answers, for every
    entry and in order, the flags and the time to live of the entry and the three names that stand in the buffer at the
    entry's offsets, and no name of one entry is taken for another's. *)
Theorem dfs_referrals_are_found data consumed flags rs :
  in_range u16_max consumed -> in_range u32_max flags -> zlen rs <= u16_max ->
  here data 0 (concat [le_bytes 2 consumed; le_bytes 2 (zlen rs); le_bytes 4 flags]) ->
  (forall i r, rs !! i = Some r -> referral_at data (8 + 34 * i) r) ->
  exists s, read_dfs_response (mkStream data 0) = Some (s, Ok (mkDfsResponse consumed flags (referral_value <$> rs))).
Proof.
  intros H1 H2 H3 Hh Hr. eexists. unfold read_dfs_response.
  read_here Hh; [|apply reads_get; cbn; ints]. read_here Hh; [|apply reads_get; cbn; unfold zlen in *; ints].
  read_here Hh; [|apply reads_get; cbn; ints]. rewrite zlen_nat.
  eapply run_bind; [exact (run_referrals data rs 8 Hr)|reflexivity].
Qed.

Definition referral_example : Referral :=
  mkReferralLayout DS_NonRoot true 1800 (34, 34, 38) 0 (mkDfsPaths [97] [97] [98; 99]).
Definition response_example : bytes :=
  concat [le_bytes 2 4; le_bytes 2 1; le_bytes 4 2] ++ fixed_part referral_example ++ [97; 0; 0; 0; 98; 0; 99; 0; 0; 0].

Lemma dfs_referrals_are_found_witness :
  exists s, read_dfs_response (mkStream response_example 0) = Some (s, Ok (mkDfsResponse 4 2 [referral_value referral_example])).
Proof.
  apply (dfs_referrals_are_found response_example 4 2 [referral_example]).
  - split; done.
  - split; done.
  - done.
  - by eexists [], _.
  - intros [|[]] r [= <-]. split.
    + split; done.
    + split; done.
    + repeat constructor; done.
    + by eexists (take 8 response_example), [97; 0; 0; 0; 98; 0; 99; 0; 0; 0].
    + vm_compute. split_and!; eexists; reflexivity.
Defined.

(** An entry of version 3 whose flag says that it is not a list of names, which is when MS-DFSC and the comments have it carry
    paths, is never read as paths, and one whose flag says that it is a list never as a list. *)
Lemma v3_kinds_are_swapped flags s s' v :
  read_v3_value flags s = Some (s', Ok v) ->
  if name_list_referral flags then exists p, v = V3_DfsPath p else exists r, v = V3_NetworkAddress r.
Proof.
  unfold read_v3_value, read_variants, bin_assert, mbind, eff_bind, e_lift. destruct (name_list_referral flags); cbn [negb].
  - destruct (read_dfs_paths s) as [[s1 [p|e]]|]; [|discriminate..]. intros [= _ <-]. by exists p.
  - destruct (read_dc_refs s) as [[s1 [r|e]]|]; [|discriminate..]. intros [= _ <-]. by exists r.
Qed.

(** The names of an entry that is written are looked for in front of where they were put: two are lost, and the path comes
    back as the address. *)
Example written_paths_are_lost :
  let v := mkReferralV4 DS_NonRoot 0 1800 (mkDfsPaths [97] [98] [99]) in
  exists s s', write_referral_entry (RV_V4 v) (mkStream [] O) = Some (s, Ok tt) /\
    read_referral_entry (mkStream (st_data s) O) = Some (s', Ok (RV_V4 (mkReferralV4 DS_NonRoot 0 1800 (mkDfsPaths [] [] [97])))).
Proof.
  exists (at_end ([4; 0; 46; 0; 0; 0; 0; 0; 8; 7; 0; 0; 26; 0; 30; 0; 34; 0] ++ replicate 16 0 ++ [97; 0; 0; 0; 98; 0; 0; 0; 99; 0; 0; 0])).
  exists (mkStream ([4; 0; 46; 0; 0; 0; 0; 0; 8; 7; 0; 0; 26; 0; 30; 0; 34; 0] ++ replicate 16 0 ++ [97; 0; 0; 0; 98; 0; 0; 0; 99; 0; 0; 0]) 34).
  split; vm_compute; reflexivity.
Qed.
