(* ===== verification/FsctlResponses.v ===== *)
(** The payloads of IOCTL responses (crates/smb-msg/src/ioctl/fsctl.rs, smb-dtyp/src/binrw_util/multi_sz.rs): a structure for each
    control, with its writer and its reader. *)
From S2P Require Import Prelude Effects Bytes Header Compression Crypto Dialects Stream Codec Security ChainedList.
From S2P Require Import CreateContexts Negotiate Fsctl Messages Queries QueryProps FileInfo DirectoryInfo InfoClasses.
From S2P Require Import Dfs.
Local Open Scope Z_scope.

(** ** Lists without a count *)

(** [until_eof]: the items up to the first that is cut off by the end. *)
Fixpoint until_eof_loop {A} (r : bin A) (fuel : nat) : bin (list A) := fun s =>
  match fuel with
  | O => None
  | S fuel =>
      match r s with
      | None => None
      | Some (s', Ok a) => (l ← until_eof_loop r fuel; mret (a :: l)) s'
      | Some (s', Err Bin_Eof) => Some (s', Ok [])
      | Some (s', Err e) => Some (s', Err e)
      end
  end.

(** Every item takes a byte. *)
Definition read_until_eof {A} (r : bin A) : bin (list A) := fun s => until_eof_loop r (S (length (st_data s))) s.

(** [MultiWSz]: strings up to an empty one *)
Definition write_multi_wsz (strings : list (list Z)) : bin unit := _ ← write_list (write_null 2) strings; write_null 2 [].

Fixpoint multi_wsz_loop (fuel : nat) : bin (list (list Z)) :=
  match fuel with
  | O => e_panic
  | S fuel =>
      string ← read_null 2;
      match string with
      | [] => mret []
      | _ :: _ => strings ← multi_wsz_loop fuel; mret (string :: strings)
      end
  end.

Definition read_multi_wsz : bin (list (list Z)) := fun s => multi_wsz_loop (S (length (st_data s))) s.

(** ** Payloads *)

Record SrvRequestResumeKey := mkResumeKey { rk_resume_key : bytes; rk_context : bytes }.

Definition write_resume_key (k : SrvRequestResumeKey) : bin unit :=
  _ ← write_all (rk_resume_key k);
  _ ← put 4 0;
  _ ← bin_assert (bool_decide (length (rk_context k) = O));
  write_all (rk_context k).
Definition read_resume_key : bin SrvRequestResumeKey :=
  resume_key ← read_exact srv_key_length;
  context_length ← get 4;
  context ← read_exact (Z.to_nat context_length);
  mret (mkResumeKey resume_key context).

Record SrvCopychunkResponse := mkCopychunkResponse {
  cr_chunks_written : Z;
  cr_chunk_bytes_written : Z;
  cr_total_bytes_written : Z
}.

Definition write_copychunk_response (r : SrvCopychunkResponse) : bin unit :=
  _ ← put 4 (cr_chunks_written r); _ ← put 4 (cr_chunk_bytes_written r); put 4 (cr_total_bytes_written r).
Definition read_copychunk_response : bin SrvCopychunkResponse :=
  chunks ← get 4; bytes ← get 4; total ← get 4; mret (mkCopychunkResponse chunks bytes total).

(** The markers of the blob are fields that the writer leaves zero. *)
Record SrvReadHashRes := mkReadHashRes {
  hr_hash_version : Z;
  hr_source_file_change_time : Z;
  hr_source_file_size : Z;
  hr_hash_blob_length : Z;
  hr_hash_blob_offset : Z;
  hr_dirty : Z;
  hr_source_file_name : bytes
}.

Definition write_read_hash_res (r : SrvReadHashRes) : bin unit :=
  _ ← put 4 1;
  _ ← bin_assert (hash_version_ok (hr_hash_version r));
  _ ← put 4 (hr_hash_version r);
  _ ← put 8 (hr_source_file_change_time r);
  _ ← put 8 (hr_source_file_size r);
  _ ← put_marker 4;
  _ ← put_marker 4;
  _ ← put 2 (hr_dirty r);
  _ ← put_count 2 (hr_source_file_name r);
  write_all (hr_source_file_name r).
Definition read_read_hash_res : bin SrvReadHashRes :=
  _ ← get_const 4 1;
  version ← get 4;
  _ ← bin_assert (hash_version_ok version);
  change_time ← get 8;
  size ← get 8;
  blob_length ← get_marker 4;
  blob_offset ← get_marker 4;
  dirty ← get 2;
  source_file_name_length ← get 2;
  name ← read_exact (Z.to_nat source_file_name_length);
  mret (mkReadHashRes version change_time size blob_length.2 blob_offset.2 dirty name).

Record SrvHashRetrieveHashBased := mkHashBased { hb_offset : Z; hb_blob : bytes }.

Definition write_hash_based (h : SrvHashRetrieveHashBased) : bin unit :=
  _ ← put 8 (hb_offset h); _ ← put_count 4 (hb_blob h); _ ← put 4 0; write_all (hb_blob h).
Definition read_hash_based : bin SrvHashRetrieveHashBased :=
  offset ← get 8; buffer_length ← get 4; _ ← get 4; blob ← read_exact (Z.to_nat buffer_length); mret (mkHashBased offset blob).

Record SrvHashRetrieveFileBased := mkFileBased { hf_file_data_offset : Z; hf_file_data_length : Z; hf_buffer : bytes }.

Definition write_file_based (h : SrvHashRetrieveFileBased) : bin unit :=
  _ ← put 8 (hf_file_data_offset h);
  _ ← put 8 (hf_file_data_length h);
  _ ← put_count 4 (hf_buffer h);
  _ ← put 4 0;
  write_all (hf_buffer h).
Definition read_file_based : bin SrvHashRetrieveFileBased :=
  offset ← get 8;
  length ← get 8;
  buffer_length ← get 4;
  _ ← get 4;
  buffer ← read_exact (Z.to_nat buffer_length);
  mret (mkFileBased offset length buffer).

(** ** Network interfaces *)

Inductive SocketAddrStorage :=
| SA_V4 (port address : Z)
| SA_V6 (port flow_info address scope_id : Z).

Definition write_sockaddr (a : SocketAddrStorage) : bin unit :=
  match a with
  | SA_V4 port address => _ ← write_all [2; 0]; _ ← put 2 port; _ ← put 4 address; write_all (replicate 120 0)
  | SA_V6 port flow_info address scope_id =>
      _ ← write_all [0x17; 0];
      _ ← put 2 port;
      _ ← put 4 flow_info;
      _ ← put 16 address;
      _ ← put 4 scope_id;
      write_all (replicate 100 0)
  end.

(** [magic(..)] *)
Definition read_magic (magic : bytes) : bin unit :=
  bs ← read_exact (length magic); e_lift (if bool_decide (bs = magic) then Ok tt else Err Bin_Custom).

Definition read_sockaddr : bin SocketAddrStorage :=
  read_variants
    [_ ← read_magic [2; 0]; port ← get 2; address ← get 4; _ ← read_exact 120; mret (SA_V4 port address);
     _ ← read_magic [0x17; 0]; port ← get 2; flow_info ← get 4; address ← get 16; scope_id ← get 4; _ ← read_exact 100;
     mret (SA_V6 port flow_info address scope_id)].

(** [socket_addr] on a little-endian machine: the address by its value, the port, and the rest of a version 6 address. *)
Definition socket_addr (a : SocketAddrStorage) : Z * Z * option (Z * Z) :=
  match a with
  | SA_V4 port address => (be_value (le_bytes 4 address), port, None)
  | SA_V6 port flow_info address scope_id => (be_value (le_bytes 16 address), port, Some (flow_info, scope_id))
  end.

Record NetworkInterfaceInfo := mkInterface {
  if_index : Z;
  if_capability : Z;
  if_link_speed : Z;
  if_sockaddr : SocketAddrStorage
}.

Definition write_interface (i : NetworkInterfaceInfo) : bin unit :=
  _ ← put 4 (if_index i);
  _ ← put 4 (if_capability i);
  _ ← put 4 0;
  _ ← put 8 (if_link_speed i);
  write_sockaddr (if_sockaddr i).
Definition read_interface : bin NetworkInterfaceInfo :=
  index ← get 4; capability ← get 4; _ ← get 4; link_speed ← get 8; sockaddr ← read_sockaddr;
  mret (mkInterface index capability link_speed sockaddr).

(** ** Others *)

Record ValidateNegotiateInfoResponse := mkValidateResponse {
  vr_capabilities : Z;
  vr_guid : Guid;
  vr_security_mode : Z;
  vr_dialect : Dialect
}.

Definition write_validate_response (v : ValidateNegotiateInfoResponse) : bin unit :=
  _ ← put 4 (vr_capabilities v); _ ← write_guid (vr_guid v); _ ← put 2 (vr_security_mode v); put_repr 2 (vr_dialect v).
Definition read_validate_response : bin ValidateNegotiateInfoResponse :=
  capabilities ← get 4; guid ← read_guid; security_mode ← get 2; dialect ← get_repr 2;
  mret (mkValidateResponse capabilities guid security_mode dialect).

Record PipePeekResponse := mkPipePeek {
  pk_named_pipe_state : NamedPipeState;
  pk_number_of_messages : Z;
  pk_message_length : Z;
  pk_data : bytes
}.

(** [calc = data.len() as u32] *)
Definition write_pipe_peek (p : PipePeekResponse) : bin unit :=
  _ ← put_repr 4 (pk_named_pipe_state p);
  _ ← put 4 (zlen (pk_data p) mod 2 ^ 32);
  _ ← put 4 (pk_number_of_messages p);
  _ ← put 4 (pk_message_length p);
  write_all (pk_data p).
Definition read_pipe_peek : bin PipePeekResponse :=
  state ← get_repr 4;
  read_data_available ← get 4;
  messages ← get 4;
  message_length ← get 4;
  data ← read_exact (Z.to_nat read_data_available);
  mret (mkPipePeek state messages message_length data).

Record SrvEnumerateSnapshotsResponse := mkSnapshots {
  ss_number_of_snap_shots : Z;
  ss_number_of_snap_shots_returned : Z;
  ss_snap_shots : list (list Z)
}.

Definition write_snapshots (r : SrvEnumerateSnapshotsResponse) : bin unit :=
  _ ← put 4 (ss_number_of_snap_shots r);
  _ ← put 4 (ss_number_of_snap_shots_returned r);
  snap_shot_array_size ← put_marker 4;
  write_size (write_multi_wsz (ss_snap_shots r)) snap_shot_array_size.
Definition read_snapshots : bin SrvEnumerateSnapshotsResponse :=
  number ← get 4;
  returned ← get 4;
  snap_shot_array_size ← get_marker 4;
  snap_shots ← take_seek (Z.to_nat snap_shot_array_size.2) read_multi_wsz;
  mret (mkSnapshots number returned snap_shots).

Record OffloadReadResponse := mkOffloadResponse {
  ol_all_zero_beyond_current_range : bool;
  ol_padding : Z;
  ol_padding2 : Z;
  ol_transfer_length : Z;
  ol_token : bytes
}.

Definition write_offload_response (o : OffloadReadResponse) : bin unit :=
  _ ← put 4 528;
  _ ← write_boolean (ol_all_zero_beyond_current_range o);
  _ ← put 1 (ol_padding o);
  _ ← put 2 (ol_padding2 o);
  _ ← put 8 (ol_transfer_length o);
  write_all (ol_token o).
Definition read_offload_response : bin OffloadReadResponse :=
  _ ← get_const 4 528;
  all_zero ← read_boolean;
  padding ← get 1;
  padding2 ← get 2;
  transfer_length ← get 8;
  token ← read_exact 512;
  mret (mkOffloadResponse all_zero padding padding2 transfer_length token).

(** ** The response types *)

Definition response_value (t : FsctlResponseType) : Type :=
  match t with
  | RS_PipePeekResponse => PipePeekResponse
  | RS_SrvEnumerateSnapshotsResponse => SrvEnumerateSnapshotsResponse
  | RS_SrvRequestResumeKey => SrvRequestResumeKey
  | RS_NetworkInterfacesInfo => list NetworkInterfaceInfo
  | RS_SrvCopychunkResponse => SrvCopychunkResponse
  | RS_SrvReadHashRes => SrvReadHashRes
  | RS_LmrRequestResiliencyResponse | RS_PipeWaitResponse | RS_SetReparsePointResponse => unit
  | RS_ValidateNegotiateInfoResponse => ValidateNegotiateInfoResponse
  | RS_RespGetDfsReferral => RespGetDfsReferral
  | RS_PipeTransceiveResponse => bytes
  | RS_FileLevelTrimResponse => Z
  | RS_QueryAllocRangesResult => list QueryAllocRangesItem
  | RS_OffloadReadResponse => OffloadReadResponse
  | RS_SrvHashRetrieveHashBased => SrvHashRetrieveHashBased
  end.

(** The writer of a referral response panics. *)
Definition write_response_value (t : FsctlResponseType) : response_value t -> bin unit :=
  match t with
  | RS_PipePeekResponse => write_pipe_peek
  | RS_SrvEnumerateSnapshotsResponse => write_snapshots
  | RS_SrvRequestResumeKey => write_resume_key
  | RS_NetworkInterfacesInfo => write_chained 4 write_interface
  | RS_SrvCopychunkResponse => write_copychunk_response
  | RS_SrvReadHashRes => write_read_hash_res
  | RS_LmrRequestResiliencyResponse | RS_PipeWaitResponse | RS_SetReparsePointResponse => mret
  | RS_ValidateNegotiateInfoResponse => write_validate_response
  | RS_RespGetDfsReferral => fun _ => e_panic
  | RS_PipeTransceiveResponse => write_all
  | RS_FileLevelTrimResponse => put 4
  | RS_QueryAllocRangesResult => write_list write_alloc_range
  | RS_OffloadReadResponse => write_offload_response
  | RS_SrvHashRetrieveHashBased => write_hash_based
  end.

Definition read_response_value (t : FsctlResponseType) : bin (response_value t) :=
  match t with
  | RS_PipePeekResponse => read_pipe_peek
  | RS_SrvEnumerateSnapshotsResponse => read_snapshots
  | RS_SrvRequestResumeKey => read_resume_key
  | RS_NetworkInterfacesInfo => read_chained 4 read_interface
  | RS_SrvCopychunkResponse => read_copychunk_response
  | RS_SrvReadHashRes => read_read_hash_res
  | RS_LmrRequestResiliencyResponse | RS_PipeWaitResponse | RS_SetReparsePointResponse => mret tt
  | RS_ValidateNegotiateInfoResponse => read_validate_response
  | RS_RespGetDfsReferral => read_dfs_response
  | RS_PipeTransceiveResponse => bytes_until_eof
  | RS_FileLevelTrimResponse => get 4
  | RS_QueryAllocRangesResult => read_until_eof read_alloc_range
  | RS_OffloadReadResponse => read_offload_response
  | RS_SrvHashRetrieveHashBased => read_hash_based
  end.

(** The layouts of IOCTL responses: each is read back from what it is written as. *)

(** ** Lists without a count *)

Section until_eof.
Context {A : Type} (w : A -> bin unit) (r : bin A) (fits : A -> Prop) (size : nat) (Hsize : size <> O).
Context (Hlaw : forall n a, fits a -> exists x, writes n (w a) x /\ reads n r x a /\ length x = size).
Context (Heof : forall data, r (at_end data) = Some (at_end data, Err Bin_Eof)).

Lemma until_eof_law n l :
  Forall fits l -> exists x, writes n (write_list w l) x /\ reads_to n (read_until_eof r) x l.
Proof using Hsize Hlaw Heof.
  assert (H : Forall fits l -> forall n, exists x, writes n (write_list w l) x /\
    forall fuel, (length x < fuel)%nat -> reads_to n (until_eof_loop r fuel) x l).
  { intros Hl. induction Hl as [|a l Ha Hl IH]; clear n; intros n.
    - exists []. split; [apply writes_ret|]. intros [|fuel] Hf pre <-; [lia|]. cbn [until_eof_loop]. rewrite app_nil_r.
      change (mkStream pre (length pre)) with (at_end pre). rewrite Heof. unfold at_end. by rewrite Nat.add_0_r.
    - destruct (Hlaw n a Ha) as (x & Hw & Hr & Hx), (IH (n + length x)%nat) as (y & Hyw & Hyr). exists (x ++ y). split.
      + by eapply writes_bind.
      + intros [|fuel] Hf pre Hn; [lia|]. cbn [until_eof_loop]. rewrite (Hr pre y Hn), (app_assoc pre). rewrite length_app in Hf.
        eapply run_bind; [apply Hyr; [lia|rewrite length_app; lia]|]. unfold mret, eff_ret. by rewrite length_app, Nat.add_assoc. }
  intros Hl. destruct (H Hl n) as (x & Hw & Hr). exists x. split; [done|]. intros pre Hn. unfold read_until_eof. cbn [st_data].
  apply Hr; [rewrite length_app; lia|done].
Qed.
End until_eof.

(** A string of a list is not empty: the list would end there. *)
Definition multi_ok (strings : list (list Z)) : Prop := Forall (fun s => s <> [] /\ Forall (fun v => 0 < v <= u16_max) s) strings.

Definition multi_size (strings : list (list Z)) : Z := 2 + foldr (fun s n => 2 * (zlen s + 1) + n) 0 strings.

Lemma null_wide n s : Forall (fun v => 0 < v <= u16_max) s ->
  exists x, writes n (write_null 2 s) x /\ reads n (read_null 2) x s /\ zlen x = 2 * (zlen s + 1).
Proof. intros H. apply null_law; [done|]. eapply Forall_impl; [exact H|]. intros v Hv. cbn. unfold u16_max in *. lia. Qed.

Lemma multi_wsz_law n strings :
  multi_ok strings ->
  exists x, writes n (write_multi_wsz strings) x /\ reads n read_multi_wsz x strings /\ zlen x = multi_size strings.
Proof.
  assert (H : multi_ok strings -> forall n, exists x, writes n (write_multi_wsz strings) x /\
    (forall fuel, (length strings < fuel)%nat -> reads n (multi_wsz_loop fuel) x strings) /\ zlen x = multi_size strings /\
    (length strings < length x)%nat).
  { intros Hl. induction Hl as [|s l [Hne Hs] Hl IH]; clear n; intros n.
    - destruct (null_wide n [] ltac:(done)) as (x & Hw & Hr & Hx). exists x. split_and!; [| |done|unfold zlen in Hx; cbn in *; lia].
      + rewrite <- (app_nil_l x). eapply writes_bind; [apply writes_ret|]. by rewrite Nat.add_0_r.
      + intros [|fuel] Hf; [cbn in Hf; lia|]. cbn [multi_wsz_loop]. rewrite <- (app_nil_r x).
        eapply reads_bind; [exact Hr|apply reads_ret].
    - destruct (null_wide n s Hs) as (x & Hw & Hr & Hx), (IH (n + length x)%nat) as (y & Hyw & Hyr & Hy & Hlen).
      exists (x ++ y). split_and!.
      + unfold write_multi_wsz. cbn [write_list]. intros base Hn. specialize (Hyw (base ++ x) ltac:(rewrite length_app; lia)).
        rewrite <- app_assoc in Hyw. rewrite <- Hyw. unfold write_multi_wsz, mbind, eff_bind. by rewrite (Hw base Hn).
      + intros [|fuel] Hf; [cbn in Hf; lia|]. cbn [multi_wsz_loop]. eapply reads_bind; [exact Hr|]. destruct s as [|v s]; [done|].
        apply reads_map, Hyr. cbn in Hf. lia.
      + cbn [multi_size foldr]. unfold multi_size in *. cbn [foldr]. unfold zlen in *. rewrite length_app. lia.
      + unfold zlen in Hx. rewrite length_app. cbn. lia. }
  intros Hl. destruct (H Hl n) as (x & Hw & Hr & Hx & Hlen). exists x. split_and!; [done| |done]. intros pre post Hn.
  unfold read_multi_wsz. cbn [st_data]. apply Hr; [rewrite !length_app; lia|done].
Qed.

(** ** Payloads *)

Lemma reads_count_bytes n size (b : bytes) : size = zlen b -> reads n (read_exact (Z.to_nat size)) b b.
Proof. intros ->. rewrite zlen_nat. apply reads_exact. Qed.

(** [counted n c o b]: the length of [b] is [c] bytes behind [n], and [b] itself [o]. *)
Ltac counted n w c o b :=
  pose proof (writes_count (n + c) w b ltac:(unfold zlen in *; cbn; ints));
  pose proof (writes_all (n + o) b); pose proof (reads_count_bytes (n + o) (zlen b) b eq_refl).

Definition resume_key_ok (k : SrvRequestResumeKey) : Prop := length (rk_resume_key k) = srv_key_length /\ rk_context k = [].

Lemma resume_key_law n k : resume_key_ok k -> layout_law n (write_resume_key k) read_resume_key k 28.
Proof.
  destruct k as [k c]. unfold resume_key_ok, srv_key_length, layout_law, write_resume_key, read_resume_key.
  cbn [rk_resume_key rk_context]. intros [Hk ->]. pose proof (reads_exact' n 24 k (eq_sym Hk)) as Hr.
  pose proof (reads_exact (n + 28) []) as Hc. cbn [length] in Hc. exists (concat [k; le_bytes 4 0; []]). split_and!.
  - emit.
  - unfold srv_key_length. do 3 take_step. apply reads_ret.
  - len.
Qed.

Definition copychunk_response_ok (r : SrvCopychunkResponse) : Prop :=
  u32s [cr_chunks_written r; cr_chunk_bytes_written r; cr_total_bytes_written r].

Lemma copychunk_response_law n r :
  copychunk_response_ok r -> layout_law n (write_copychunk_response r) read_copychunk_response r 12.
Proof. destruct r. unfold copychunk_response_ok, u32s, write_copychunk_response, read_copychunk_response. cbn. fixed. Qed.

Record read_hash_res_ok (r : SrvReadHashRes) : Prop := {
  hrk_version : hash_version_ok (hr_hash_version r) = true;
  hrk_long : u64s [hr_source_file_change_time r; hr_source_file_size r];
  hrk_dirty : in_range u16_max (hr_dirty r);
  hrk_name : zlen (hr_source_file_name r) <= u16_max
}.

(** The markers are never filled in: they are read as zero whatever they were. *)
Definition without_blob (r : SrvReadHashRes) : SrvReadHashRes :=
  mkReadHashRes (hr_hash_version r) (hr_source_file_change_time r) (hr_source_file_size r) 0 0 (hr_dirty r) (hr_source_file_name r).

Lemma read_hash_res_law n r :
  read_hash_res_ok r ->
  layout_law n (write_read_hash_res r) read_read_hash_res (without_blob r) (36 + zlen (hr_source_file_name r)).
Proof.
  destruct r as [v t s bl bo d nm]. intros [H1 H2 H4 H5]. unfold without_blob. unfold u64s, layout_law, write_read_hash_res, read_read_hash_res in *.
  cbn [hr_hash_version hr_source_file_change_time hr_source_file_size hr_hash_blob_length hr_hash_blob_offset hr_dirty
    hr_source_file_name] in *. fields.
  assert (Hv : 0 <= v < 2 ^ 32) by (unfold hash_version_ok in H1; lia). counted n 2%nat 34%nat 36%nat nm. rewrite H1.
  exists (concat [le_bytes 4 1; le_bytes 4 v; le_bytes 8 t; le_bytes 8 s; le_bytes 4 0; le_bytes 4 0; le_bytes 2 d;
    le_bytes 2 (zlen nm); nm]). split_and!; [emit| |len].
  do 2 take_step. eapply reads_skip; [by apply reads_assert|]. do 7 take_step. apply reads_ret.
Qed.

Definition hash_based_ok (h : SrvHashRetrieveHashBased) : Prop := u64s [hb_offset h] /\ zlen (hb_blob h) <= u32_max.

Lemma hash_based_law n h : hash_based_ok h -> layout_law n (write_hash_based h) read_hash_based h (16 + zlen (hb_blob h)).
Proof.
  destruct h as [o b]. unfold hash_based_ok, u64s, layout_law, write_hash_based, read_hash_based. cbn [hb_offset hb_blob].
  intros [H1 H2]. fields. counted n 4%nat 8%nat 16%nat b. layout.
Qed.

Definition sockaddr_ok (a : SocketAddrStorage) : Prop :=
  match a with
  | SA_V4 port address => in_range u16_max port /\ in_range u32_max address
  | SA_V6 port flow_info address scope_id =>
      in_range u16_max port /\ in_range u32_max flow_info /\ 0 <= address < 2 ^ 128 /\ in_range u32_max scope_id
  end.

Lemma reads_magic n m : reads n (read_magic m) m tt.
Proof.
  unfold read_magic. rewrite <- (app_nil_r m) at 2. eapply reads_bind; [apply reads_exact|].
  rewrite bool_decide_eq_true_2 by done. apply reads_lift.
Qed.

Lemma refuses_magic n m m' : length m = length m' -> m <> m' -> refuses n (read_magic m) m'.
Proof.
  intros Hl Hm. unfold read_magic. rewrite Hl. rewrite <- (app_nil_r m') at 2. eapply refuses_after; [apply reads_exact|].
  rewrite bool_decide_eq_false_2 by done. intros pre post _. by eexists _, _.
Qed.

Lemma sockaddr_law n a : sockaddr_ok a -> layout_law n (write_sockaddr a) read_sockaddr a 128.
Proof.
  unfold layout_law, read_sockaddr. destruct a as [p a|p f a s]; cbn [sockaddr_ok write_sockaddr].
  - intros []. pose proof (reads_magic n [2; 0]). pose proof (reads_exact' (n + 8) 120 (replicate 120 0) ltac:(by rewrite length_replicate)).
    exists (concat [[2; 0]; le_bytes 2 p; le_bytes 4 a; replicate 120 0]). split_and!; [emit| |len].
    apply reads_variants_head. do 4 take_step. apply reads_ret.
  - intros (? & ? & ? & ?). pose proof (reads_magic n [0x17; 0]).
    pose proof (reads_exact' (n + 28) 100 (replicate 100 0) ltac:(by rewrite length_replicate)).
    exists (concat [[0x17; 0]; le_bytes 2 p; le_bytes 4 f; le_bytes 16 a; le_bytes 4 s; replicate 100 0]). split_and!; [emit| |len].
    apply reads_variants_next; [apply refuses_bind, refuses_app; by apply refuses_magic|]. apply reads_variants_head.
    do 6 take_step. apply reads_ret.
Qed.

Definition interface_ok (i : NetworkInterfaceInfo) : Prop :=
  u32s [if_index i; if_capability i] /\ u64s [if_link_speed i] /\ sockaddr_ok (if_sockaddr i).

Lemma interface_law n i : interface_ok i -> layout_law n (write_interface i) read_interface i 148.
Proof.
  destruct i as [i c l a]. unfold interface_ok, u32s, u64s, layout_law, write_interface, read_interface.
  cbn [if_index if_capability if_link_speed if_sockaddr]. intros (H1 & H2 & H3). fields.
  destruct (sockaddr_law (n + 20) a H3) as (y & Hw & Hr & Hy). layout.
Qed.

Definition validate_response_ok (v : ValidateNegotiateInfoResponse) : Prop :=
  u32s [vr_capabilities v] /\ guid_ok (vr_guid v) /\ in_range u16_max (vr_security_mode v).

Lemma validate_response_law n v : validate_response_ok v -> layout_law n (write_validate_response v) read_validate_response v 24.
Proof.
  destruct v as [c g m d]. unfold validate_response_ok, u32s, layout_law, write_validate_response, read_validate_response.
  cbn [vr_capabilities vr_guid vr_security_mode vr_dialect]. intros (H1 & H2 & H3). fields.
  destruct (guid_law (n + 4) g H2) as (y & Hw & Hr & Hy). layout.
Qed.

Definition pipe_peek_ok (p : PipePeekResponse) : Prop :=
  u32s [pk_number_of_messages p; pk_message_length p] /\ zlen (pk_data p) <= u32_max.

Lemma pipe_peek_law n p : pipe_peek_ok p -> layout_law n (write_pipe_peek p) read_pipe_peek p (16 + zlen (pk_data p)).
Proof.
  destruct p as [s m l d]. unfold pipe_peek_ok, u32s, layout_law, write_pipe_peek, read_pipe_peek.
  cbn [pk_named_pipe_state pk_number_of_messages pk_message_length pk_data]. intros [H1 H2]. fields.
  rewrite Z.mod_small by (unfold zlen in *; ints). pose proof (writes_all (n + 16) d).
  pose proof (reads_count_bytes (n + 16) (zlen d) d eq_refl). layout.
Qed.

Definition snapshots_ok (r : SrvEnumerateSnapshotsResponse) : Prop :=
  u32s [ss_number_of_snap_shots r; ss_number_of_snap_shots_returned r] /\ multi_ok (ss_snap_shots r) /\
  multi_size (ss_snap_shots r) <= u32_max.

Lemma snapshots_law n r :
  snapshots_ok r -> layout_law n (write_snapshots r) read_snapshots r (12 + multi_size (ss_snap_shots r)).
Proof.
  destruct r as [a b l]. unfold snapshots_ok, u32s, layout_law, write_snapshots, read_snapshots.
  cbn [ss_number_of_snap_shots ss_number_of_snap_shots_returned ss_snap_shots]. intros (H1 & H2 & H3). fields.
  destruct (multi_wsz_law (n + 12) l H2) as (y & Hw & Hr & Hy).
  exists (concat [le_bytes 4 a; le_bytes 4 b; le_bytes 4 (zlen y); y]). split_and!; [emit| |len].
  do 3 take_step. cbn [snd]. rewrite zlen_nat.
  eapply reads_segs; [apply reads_take_seek; [apply reads_reads_to; eapply reads_at; [|exact Hr]; len|done]|]. apply reads_ret.
Qed.

Definition offload_response_ok (o : OffloadReadResponse) : Prop :=
  u8s [ol_padding o] /\ in_range u16_max (ol_padding2 o) /\ u64s [ol_transfer_length o] /\ length (ol_token o) = 512%nat.

Lemma offload_response_law n o : offload_response_ok o -> layout_law n (write_offload_response o) read_offload_response o 528.
Proof.
  destruct o as [z p q t k]. unfold offload_response_ok, u8s, u64s, layout_law, write_offload_response, read_offload_response, write_boolean.
  cbn [ol_all_zero_beyond_current_range ol_padding ol_padding2 ol_transfer_length ol_token]. intros (H1 & H2 & H3 & H4). fields.
  pose proof (writes_all (n + 16) k). pose proof (reads_exact' (n + 16) 512 k (eq_sym H4)). layout.
Qed.

Definition alloc_range_ok (r : QueryAllocRangesItem) : Prop := u64s [ar_offset r; ar_len r].

Lemma alloc_ranges_law n l :
  Forall alloc_range_ok l -> exists x, writes n (write_list write_alloc_range l) x /\ reads_to n (read_until_eof read_alloc_range) x l.
Proof.
  apply (until_eof_law _ _ alloc_range_ok 16); [done| |].
  - intros m [o k] H. unfold alloc_range_ok, u64s, write_alloc_range, read_alloc_range in *. cbn in *. fields.
    exists (concat [le_bytes 8 o; le_bytes 8 k]). split_and!; [emit|do 2 take_step; apply reads_ret|len].
  - intros data. unfold read_alloc_range, get, read_exact, at_end, mbind, eff_bind. cbn [st_data st_pos].
    by destruct (Nat.ltb_spec (length data) (length data + 8)); [|lia].
Qed.

(** What becomes of an IOCTL response: the payload of every control is read back by the control that asked for it and refused
    for every other, and which answers of a server cannot be read. *)

(** Referral responses have no writer. *)
Definition response_value_ok (t : FsctlResponseType) : response_value t -> Prop :=
  match t with
  | RS_PipePeekResponse => pipe_peek_ok
  | RS_SrvEnumerateSnapshotsResponse => snapshots_ok
  | RS_SrvRequestResumeKey => resume_key_ok
  | RS_NetworkInterfacesInfo => Forall interface_ok
  | RS_SrvCopychunkResponse => copychunk_response_ok
  | RS_SrvReadHashRes => read_hash_res_ok
  | RS_LmrRequestResiliencyResponse | RS_PipeWaitResponse | RS_SetReparsePointResponse => fun _ => True
  | RS_ValidateNegotiateInfoResponse => validate_response_ok
  | RS_RespGetDfsReferral => fun _ => False
  | RS_PipeTransceiveResponse => fun _ => True
  | RS_FileLevelTrimResponse => in_range u32_max
  | RS_QueryAllocRangesResult => Forall alloc_range_ok
  | RS_OffloadReadResponse => offload_response_ok
  | RS_SrvHashRetrieveHashBased => hash_based_ok
  end.

(** What comes back of a payload: all of it, but for the two markers of a hash response. *)
Definition comes_back (t : FsctlResponseType) : response_value t -> response_value t :=
  match t with
  | RS_SrvReadHashRes => without_blob
  | _ => fun v => v
  end.

Lemma response_value_law t v :
  response_value_ok t v -> body_law 0 (write_response_value t v) (read_response_value t) (comes_back t v).
Proof.
  destruct t; cbn [response_value_ok write_response_value read_response_value response_value comes_back] in *; intros H.
  - eapply layout_body. by apply pipe_peek_law.
  - eapply layout_body. by apply snapshots_law.
  - eapply layout_body. by apply resume_key_law.
  - apply (chained_body 4 _ _ interface_ok (fun _ => 148)); [done|intros; by apply layout_item, interface_law|].
    eapply Forall_impl; [exact H|]. by intros.
  - eapply layout_body. by apply copychunk_response_law.
  - eapply layout_body. by apply read_hash_res_law.
  - eapply layout_body. by apply no_fields_law.
  - eapply layout_body. by apply validate_response_law.
  - done.
  - eapply layout_body. by apply no_fields_law.
  - exists v. split; [apply writes_all|]. apply reads_to_reads_any, reads_until_eof.
  - eapply layout_body. by apply no_fields_law.
  - apply put_body. range.
  - destruct (alloc_ranges_law 0 v H) as (x & Hw & Hr). exists x. split; [done|]. by apply reads_to_reads_any.
  - eapply layout_body. by apply offload_response_law.
  - eapply layout_body. by apply hash_based_law.
Qed.

Lemma paired_response_parsed {T} c (read : bin T) buffer :
  parse_fsctl (response_codes (response_of c)) read (fsctl_code c) buffer =
    if bool_decide (c = FC_SrvCopychunkWrite) then Some (Err (FE_MissingFsctlDefinition (fsctl_code FC_SrvCopychunkWrite)))
    else match read (mkStream buffer O) with
         | None => None
         | Some (_, Ok t) => Some (Ok t)
         | Some (_, Err e) => Some (Err (FE_Bin e))
         end.
Proof. by destruct c. Qed.

(** C24: the payload of a control's response, of every type but the referral response (whose writer panics) and whose fields
    fit their widths, is written, and read back when the response carries a code that its type lists: unchanged, but
    for the blob length and offset of a hash response, markers that the writer never fills in and that come back
    zero. A response with a code that the type does not list is refused, whatever it carries, before its payload is looked at.
    So the answer to every control is read by the type that goes with its request, but for one: the answer to
    [FSCTL_SRV_COPYCHUNK_WRITE] is refused as one of an unknown control, because [SrvCopychunkResponse] lists only
    [FSCTL_SRV_COPYCHUNK], although its documentation and the table of requests name both.
    (A resume key has no context, since the writer refuses one, and no name of a list of snapshots is empty, since the
    list would end there.) *)
Theorem control_responses_are_read_back t v :
  response_value_ok t v ->
  exists raw, write_response_value t v (mkStream [] O) = Some (at_end raw, Ok tt) /\
    (forall c, c ∈ response_codes t ->
       parse_fsctl (response_codes t) (read_response_value t) (fsctl_code c) raw = Some (Ok (comes_back t v))) /\
    (forall code out, (forall c, c ∈ response_codes t -> fsctl_code c <> code) ->
      parse_fsctl (response_codes t) (read_response_value t) code out = Some (Err (FE_MissingFsctlDefinition code))) /\
    forall c, response_of c = t ->
      parse_fsctl (response_codes t) (read_response_value t) (fsctl_code c) raw =
        Some (if bool_decide (c = FC_SrvCopychunkWrite) then Err (FE_MissingFsctlDefinition (fsctl_code FC_SrvCopychunkWrite))
              else Ok (comes_back t v)).
Proof.
  intros Hv. destruct (response_value_law t v Hv) as (x & Hw & Hr). exists x. split_and!.
  - exact (Hw [] eq_refl).
  - intros c Hc. unfold parse_fsctl. destruct (Hr [] eq_refl) as [pos Hp]. cbn [app] in Hp. rewrite Hp.
    destruct (existsb _ _) eqn:E; [done|]. exfalso. apply not_true_iff_false in E. apply E, existsb_exists. exists c.
    split; [by apply list_elem_of_In|by apply bool_decide_eq_true_2].
  - intros code out Hc. unfold parse_fsctl. destruct (existsb _ _) eqn:E; [|done]. exfalso.
    apply existsb_exists in E as (c & Hin & Hd). apply bool_decide_eq_true_1 in Hd. apply (Hc c); [by apply list_elem_of_In|done].
  - intros c <-. destruct (Hr [] eq_refl) as [pos Hp]. cbn [app] in Hp. rewrite paired_response_parsed, Hp. by destruct (bool_decide _).
Qed.

Lemma control_responses_are_read_back_witness :
  exists raw, parse_fsctl (response_codes RS_SrvCopychunkResponse) (read_response_value RS_SrvCopychunkResponse)
      (fsctl_code FC_SrvCopychunk) raw = Some (Ok (mkCopychunkResponse 10 0 10417096)) /\
    parse_fsctl (response_codes RS_SrvCopychunkResponse) (read_response_value RS_SrvCopychunkResponse)
      (fsctl_code FC_SrvCopychunkWrite) raw = Some (Err (FE_MissingFsctlDefinition (fsctl_code FC_SrvCopychunkWrite))).
Proof.
  destruct (control_responses_are_read_back RS_SrvCopychunkResponse (mkCopychunkResponse 10 0 10417096)) as (raw & _ & _ & _ & H).
  - repeat constructor; vm_compute; discriminate.
  - exists raw. split; [exact (H FC_SrvCopychunk eq_refl)|exact (H FC_SrvCopychunkWrite eq_refl)].
Defined.

(** A pipe that holds five bytes, of which the answer had room for two: the length is that of what the pipe holds. *)
Example partial_peek_is_refused :
  snd <$> read_pipe_peek (mkStream (concat [le_bytes 4 (repr_code NS_Connected); le_bytes 4 5; le_bytes 4 0; le_bytes 4 0; [104; 105]]) 0) =
    Some (Err Bin_Eof).
Proof. reflexivity. Qed.
