(* ===== verification/Tree.v ===== *)
(** Shares (crates/smb/src/tree.rs): connecting a tree, reconnecting it when its session has been
    replaced, and executing requests on it.

    [TreeContext] is shared by every task that uses the share, so that each load and store of one of its
    atomics is a call, and so is what the share asks of its session ([SessionContext]). A guard that a
    function drops on every return ([TreeRecoveryFlag], the lock of [recovery]) is a call at the end
    of the function. The calls of [Resource] are in the same type. *)
From S2P Require Import Prelude Effects Async Clock Reducer Bytes Header Crypto ObjectState Recovery Operation Dialects.
From S2P Require Import Stream Codec Security CreateContexts Fsctl TreeConnect Messages Queries Session Content.
Local Open Scope Z_scope.
Local Open Scope async_scope.

(** ** Data *)

(** The errors of the crate that trees and resources return; [OE_Upstream] is any error that the session
    below answers. *)
Inductive ShareError :=
| OE_InvalidMessage
| OE_InvalidState
| OE_InvalidArgument
| OE_StaleObject
| OE_ShareRecoveryQueueFull
| OE_ShareRecoveryWaitTimedOut
| OE_ResourceRecoveryWaitTimedOut
| OE_Cancelled
| OE_JoinError
| OE_UnsupportedOperation
| OE_MissingPermissions
| OE_ParsingError
| OE_EventQueueOverflow
| OE_BufferTooSmall (required : option Z) (provided : Z)
| OE_UnexpectedMessageStatus (status : Z)
| OE_SmbMsgError
| OE_BinRWError
(** The panic of an [unreachable!], or of a reader. *)
| OE_Panic
| OE_Upstream (e : Error).

(** What a [ConnectionInfo] holds, with the sizes and the recovery policy that [Dialects] leaves out. *)
Record Settings := mkSettings {
  se_info : ConnectionInfo;
  se_auto_reconnect : RecoveryPolicy;
  se_timeout : Duration;
  se_default_transaction_size : Z;
  se_max_transact_size : Z;
  se_max_read_size : Z;
  se_max_write_size : Z;
  se_capabilities : Z
}.

Record TreeConnectInfo := mkTreeInfo {
  ti_share_type : ShareType;
  ti_share_flags : Z;
  ti_capabilities : Z
}.

Record TreeGeneration := mkTreeGeneration {
  tg_tree_id : Z;
  tg_info : TreeConnectInfo;
  tg_session : ObjectToken;
  tg_object : ObjectToken
}.

Record FileGeneration := mkFileGeneration {
  fg_file_id : FileId;
  fg_object : ObjectToken;
  fg_share : ObjectToken
}.

(** [CommandRequest], without what only the runtime reads. *)
Record Request := mkObjectRequest {
  cmd_header : Header;
  cmd_content : RequestContent;
  cmd_additional_data : option bytes;
  cmd_channel_id : option Z;
  cmd_security : option Protection
}.

#[export] Instance eta_Request : Eta Request := fun r =>
  mkObjectRequest (cmd_header r) (cmd_content r) (cmd_additional_data r) (cmd_channel_id r) (cmd_security r).

Abbreviation Response := (CommandResponse ResponseContent).

(** [ResponseOptions]; of a cancellation token only whether there is one. *)
Record Options := mkCallOptions {
  os_status : list Status;
  os_cmd : option Command;
  os_allow_async : bool;
  os_async_cancel : bool;
  os_timeout : option Duration
}.

#[export] Instance eta_Options : Eta Options := fun o =>
  mkCallOptions (os_status o) (os_cmd o) (os_allow_async o) (os_async_cancel o) (os_timeout o).

Inductive JoinOutcome :=
| JO_Finished (r : result ShareError unit)
| JO_Panicked
| JO_Deadline
| JO_Cancelled.

(** ** Calls *)

Inductive Call :=
(** of the session *)
| C_ConnInfo
| C_SessionObject
| C_SendRecv (m : Request)
| C_SendOnCurrentSession (m : Request)
| C_ExecuteFor (m : Request) (options : Options) (dependency : ObjectToken) (replay : ReplayPolicy)
| C_CreateChild (kind : ObjectKind)
| C_CreateChildOnCurrentSession (kind : ObjectKind)
| C_CreateObject (parent : ObjectToken) (kind : ObjectKind)
| C_RegisterShare
| C_RegisterOplockSlot (file_id : FileId) (level : OplockLevel) (object : ObjectToken)
(** of the shared state of the tree *)
| C_LoadGeneration
| C_StoreGeneration (g : TreeGeneration)
| C_LoadClosed
| C_SwapClosed
| C_LoadRecovering
| C_StoreRecovering (b : bool)
| C_LockRecovery
| C_UnlockRecovery
| C_TryAcquireSlot
| C_ReleaseSlot
| C_SpawnReconnect
| C_JoinReconnect (task : nat) (timeout : option Duration) (cancellation : bool)
(** of the shared state of a resource *)
| C_LoadOpen
| C_SwapOpen
| C_LoadFile
| C_StoreFile (g : FileGeneration)
| C_LockFile
| C_UnlockFile
| C_ReplaceOplockSlot (file_id : FileId) (object : ObjectToken)
| C_Sleep (d : Duration)
(** a call raced with a deadline *)
| C_Race (c : Call).

Fixpoint answer (c : Call) : Type :=
  match c with
  | C_ConnInfo => Settings
  | C_SessionObject | C_CreateChild _ | C_CreateChildOnCurrentSession _ | C_CreateObject _ _ =>
      result ShareError ObjectToken
  | C_SendRecv _ | C_SendOnCurrentSession _ | C_ExecuteFor _ _ _ _ => result ShareError Response
  | C_LoadGeneration => TreeGeneration
  | C_LoadClosed | C_SwapClosed | C_LoadRecovering | C_TryAcquireSlot | C_LoadOpen | C_SwapOpen => bool
  | C_SpawnReconnect => nat
  | C_JoinReconnect _ _ _ => JoinOutcome
  | C_LoadFile => FileGeneration
  | C_Race c => option (answer c)
  | _ => unit
  end.

(** Loads, stores and spawns do not await. *)
Definition awaits (c : Call) : bool :=
  match c with
  | C_SendRecv _ | C_SendOnCurrentSession _ | C_ExecuteFor _ _ _ _ | C_CreateChild _
  | C_CreateChildOnCurrentSession _ | C_CreateObject _ _ | C_RegisterShare | C_RegisterOplockSlot _ _ _
  | C_LockRecovery | C_JoinReconnect _ _ _ | C_LockFile | C_Sleep _ => true
  | _ => false
  end.

Abbreviation io A := (async Call answer (result ShareError A)).
Definition call (c : Call) : async Call answer (answer c) := issue c.

(** [run_bounded_attempt] (session/recovery_attempt.rs) *)
Definition run_bounded_attempt {A} (p : io A) : async Call answer (option (result ShareError A)) :=
  bounded (ans := answer) awaits C_Race (fun c r => r) p.

(** ** Requests *)

(** [CommandRequest::new], [ResponseOptions::new] *)
Definition request_new (content : RequestContent) : Request :=
  mkObjectRequest (mkHeader 0 (status_code St_Success) (request_command content) 0 0 0 u64_max (Some 0) None 0 0)
    content None None None.
Definition options_new : Options := mkCallOptions [St_Success] None false false None.

(** ** Validation of a connected share *)

(** The bits of [ShareFlags]. *)
Definition sh_dfs (flags : Z) : bool := Z.testbit flags 0.
Definition sh_encrypt_data (flags : Z) : bool := Z.testbit flags 15.

Definition get_share_flags_mask (d : Dialect) : Z :=
  let bit (b : bool) (n : Z) := if b then Z.shiftl 1 n else 0 in
  foldr Z.lor 0
    [Z.shiftl 15 4; bit true 0; bit true 1; bit true 8; bit true 9; bit true 10; bit true 11; bit true 12;
     bit true 18; bit true 21; bit (bool_decide (dialect_code Smb0202 < dialect_code d)) 13;
     bit (bool_decide (dialect_code Smb021 <= dialect_code d)) 14; bit (is_smb3 d) 15;
     bit (bool_decide (dialect_code Smb0311 <= dialect_code d)) 20].

Definition validate_tree_connect (content : TreeConnectResponse) (conn_info : Settings)
    : result ShareError TreeConnectInfo :=
  let dialect := ci_dialect (se_info conn_info) in
  if bool_decide (Z.land (Z.lxor u32_max (get_tree_connect_caps_mask dialect)) (ts_capabilities content) ≠ 0)
  then Err OE_InvalidMessage
  else if bool_decide (Z.land (Z.lxor u32_max (get_share_flags_mask dialect)) (ts_share_flags content) ≠ 0)
  then Err OE_InvalidMessage
  else if sh_encrypt_data (ts_share_flags content) && em_is_disabled (cfg_encryption_mode (ci_config (se_info conn_info)))
  then Err OE_InvalidMessage
  else Ok (mkTreeInfo (ts_share_type content) (ts_share_flags content) (ts_capabilities content)).

(** [to_treeconnect] *)
Definition to_treeconnect (r : Response) : result ShareError TreeConnectResponse :=
  match ps_content (cp_message r) with Rs_TreeConnect c => Ok c | _ => Err OE_SmbMsgError end.

Definition option_ok {A} (e : ShareError) (o : option A) : result ShareError A :=
  match o with Some a => Ok a | None => Err e end.

(** ** The context of a tree *)

Record TreeContext := mkTreeContext {
  th_generation : TreeGeneration;
  th_closed : bool;
  th_recovery_slots : Z;
  th_recovering : bool
}.

#[export] Instance eta_TreeContext : Eta TreeContext := fun t =>
  mkTreeContext (th_generation t) (th_closed t) (th_recovery_slots t) (th_recovering t).

Definition tree_context_new (upstream_info : Settings) (g : TreeGeneration) : TreeContext :=
  mkTreeContext g false (rp_max_waiting_operations (se_auto_reconnect upstream_info)) false.

Section tree.
(** The name of the share in UTF-16. *)
Context (tree_name : list Z).

(** [Tree::connect]: what it returns is a new context. *)
Definition tree_connect (conn_info : Settings) : io TreeContext :=
  response <-? call (C_SendRecv (request_new (Rq_TreeConnect (tree_connect_new tree_name))));
  content <-? a_lift (to_treeconnect response);
  info <-? a_lift (validate_tree_connect content conn_info);
  tree_id <-? a_lift (option_ok OE_InvalidMessage (hd_tree_id (ps_header (cp_message response))));
  object <-? call (C_CreateChild OK_Share);
  session <-? call C_SessionObject;
  upstream_info <-- call C_ConnInfo;
  _ <-- call C_RegisterShare;
  mret (Ok (tree_context_new upstream_info (mkTreeGeneration tree_id info session object))).

(** One attempt of [reconnect]. *)
Definition reconnect_attempt (conn_info : Settings) (session : ObjectToken) : io TreeGeneration :=
  response <-? call (C_SendOnCurrentSession (request_new (Rq_TreeConnect (tree_connect_new tree_name))));
  content <-? a_lift (to_treeconnect response);
  info <-? a_lift (validate_tree_connect content conn_info);
  tree_id <-? a_lift (option_ok OE_InvalidMessage (hd_tree_id (ps_header (cp_message response))));
  object <-? call (C_CreateChildOnCurrentSession OK_Share);
  mret (Ok (mkTreeGeneration tree_id info session object)).

Fixpoint reconnect_attempts (conn_info : Settings) (session : ObjectToken) (attempts : nat)
    (last_error : option ShareError) : io TreeGeneration :=
  match attempts with
  | O => mret (Err (default OE_InvalidState last_error))
  | S attempts =>
      r <-- run_bounded_attempt (reconnect_attempt conn_info session);
      match r with
      | Some (Ok candidate) => mret (Ok candidate)
      | Some (Err error) => reconnect_attempts conn_info session attempts (Some error)
      | None => reconnect_attempts conn_info session attempts (Some OE_ShareRecoveryWaitTimedOut)
      end
  end.

(** What [reconnect] does while [TreeRecoveryFlag] is up. *)
Definition reconnect_recovering (session : ObjectToken) : io unit :=
  conn_info <-- call C_ConnInfo;
  candidate <-? reconnect_attempts conn_info session (Z.to_nat (rp_max_attempts (se_auto_reconnect conn_info))) None;
  closed <-- call C_LoadClosed;
  if closed then mret (Err OE_InvalidState)
  else _ <-- call (C_StoreGeneration candidate); mret (Ok tt).

(** What [reconnect] does while it has the lock of [recovery]. *)
Definition reconnect_owned : io unit :=
  closed <-- call C_LoadClosed;
  if closed then mret (Err OE_InvalidState)
  else
    previous <-- call C_LoadGeneration;
    session <-? call C_SessionObject;
    if bool_decide (tg_session previous = session) then mret (Ok tt)
    else
      _ <-- call (C_StoreRecovering true);
      r <-- reconnect_recovering session;
      _ <-- call (C_StoreRecovering false);
      mret r.

Definition reconnect : io unit :=
  _ <-- call C_LockRecovery;
  r <-- reconnect_owned;
  _ <-- call C_UnlockRecovery;
  mret r.

(** The task that [wait_for_reconnect] spawns: it drops its permit when it ends. *)
Definition reconnect_task : io unit :=
  r <-- reconnect;
  _ <-- call C_ReleaseSlot;
  mret r.

End tree.

Definition wait_for_reconnect (timeout : option Duration) (cancellation : bool) : io unit :=
  generation <-- call C_LoadGeneration;
  recovering <-- call C_LoadRecovering;
  current <-? (if recovering then mret (Ok false) : io bool
               else session <-? call C_SessionObject; mret (Ok (bool_decide (tg_session generation = session))) : io bool);
  if current then mret (Ok tt)
  else
    permit <-- call C_TryAcquireSlot;
    if permit then
      replay <-- call C_SpawnReconnect;
      outcome <-- call (C_JoinReconnect replay timeout cancellation);
      mret match outcome with
           | JO_Finished r => r
           | JO_Panicked => Err OE_JoinError
           | JO_Deadline => Err OE_ShareRecoveryWaitTimedOut
           | JO_Cancelled => Err OE_Cancelled
           end
    else mret (Err OE_ShareRecoveryQueueFull).

Definition tree_prepare (msg : Request) : io (Request * TreeGeneration) :=
  closed <-- call C_LoadClosed;
  if closed then mret (Err OE_InvalidState)
  else
    generation <-- call C_LoadGeneration;
    mret (Ok
      (if flag_async_command (hd_flags (cmd_header msg)) then msg
       else
         let msg := msg <| cmd_header := (cmd_header msg) <| hd_tree_id := Some (tg_tree_id generation) |> |> in
         match cmd_security msg with
         | None => if sh_encrypt_data (ti_share_flags (tg_info generation))
                   then msg <| cmd_security := Some Pr_Encrypt |> else msg
         | Some _ => msg
         end,
       generation)).

(** What [execute_for_with_replay] checks of a response. *)
Definition check_response (generation : TreeGeneration) (incoming : Response) : result ShareError unit :=
  let header := ps_header (cp_message incoming) in
  if negb (flag_async_command (hd_flags header)) && bool_decide (default 0 (hd_tree_id header) ≠ tg_tree_id generation)
  then Err OE_InvalidMessage
  else if negb (mf_encrypted (cp_form incoming)) && sh_encrypt_data (ti_share_flags (tg_info generation))
  then Err OE_InvalidMessage
  else Ok tt.

Definition execute_for_with_replay (msg : Request) (options : Options) (dependency : ObjectToken)
    (replay : ReplayPolicy) : io Response :=
  prepared <-? tree_prepare msg;
  incoming <-? call (C_ExecuteFor prepared.1 options dependency replay);
  _ <-? a_lift (check_response prepared.2 incoming);
  mret (Ok incoming).

Definition execute_for (msg : Request) (options : Options) (dependency : ObjectToken) : io Response :=
  execute_for_with_replay msg options dependency RPol_NeverReplay.

Definition execute (msg : Request) (options : Options) : io Response :=
  timeout <-- match os_timeout options with
              | Some timeout => mret timeout
              | None => conn_info <-- call C_ConnInfo; mret (se_timeout conn_info)
              end : async Call answer Duration;
  _ <-? wait_for_reconnect (Some timeout) (os_async_cancel options);
  generation <-- call C_LoadGeneration;
  execute_for msg options (tg_object generation).

Definition current_share_object : io ObjectToken :=
  conn_info <-- call C_ConnInfo;
  _ <-? wait_for_reconnect (Some (se_timeout conn_info)) false;
  generation <-- call C_LoadGeneration;
  mret (Ok (tg_object generation)).

Definition create_resource_object_for (share : ObjectToken) : io ObjectToken := call (C_CreateObject share OK_Resource).

Definition send_recv_for (content : RequestContent) (dependency : ObjectToken) : io Response :=
  execute_for (request_new content) options_new dependency.

Definition execute_content (content : RequestContent) (options : Options) : io Response :=
  execute (request_new content) options.

(** [TreeContext::_disconnect] *)
Definition send_disconnect (tree_id : Z) (encrypt : bool) (object : ObjectToken) : io unit :=
  let message := request_new Rq_TreeDisconnect in
  let message := if encrypt then message <| cmd_security := Some Pr_Encrypt |> else message in
  let message := message <| cmd_header := (cmd_header message) <| hd_tree_id := Some tree_id |> |> in
  _ <-? call (C_ExecuteFor message (options_new <| os_cmd := Some (request_command (cmd_content message)) |>) object
                RPol_NeverReplay);
  mret (Ok tt).

Definition disconnect : io unit :=
  closed <-- call C_SwapClosed;
  if closed then mret (Ok tt)
  else
    generation <-- call C_LoadGeneration;
    send_disconnect (tg_tree_id generation) (sh_encrypt_data (ti_share_flags (tg_info generation))) (tg_object generation).

Definition tree_info : io TreeConnectInfo :=
  closed <-- call C_LoadClosed;
  if closed then mret (Err OE_InvalidState)
  else generation <-- call C_LoadGeneration; mret (Ok (tg_info generation)).

Definition continuously_available : io bool :=
  info <-? tree_info;
  mret (Ok (Z.testbit (ti_capabilities info) 4)).
