(* ===== verification/Resource.v ===== *)
(** Opened resources (crates/smb/src/resource.rs, resource/file.rs, resource/pipe.rs): how a CREATE is
    put together and its answer checked, how a durable open is reconnected when its share was
    replaced, and the operations on a handle. The calls are those of [Tree]. *)
From S2P Require Import Prelude Effects Async Clock Reducer Bytes Header Crypto ObjectState Recovery Operation Dialects.
From S2P Require Import Stream Codec Security CreateContexts Fsctl TreeConnect Messages Queries Session Content Tree.
Local Open Scope Z_scope.
Local Open Scope async_scope.

(** ** Data *)

Record DurableOpenRequest := mkDurableRequest { do_timeout : Z; do_create_guid : Guid; do_persistent : bool }.
Record DurableOpenGrant := mkDurableGrant { dg_timeout : Z; dg_persistent : bool; dg_create_guid : Guid }.

(** [DurableOpenRequest::persistent] *)
Definition durable_persistent (timeout : Z) (create_guid : Guid) : DurableOpenRequest :=
  mkDurableRequest timeout create_guid true.

Record FileCreateArgs := mkCreateArgs {
  ca_disposition : CreateDisposition;
  ca_attributes : Z;
  ca_options : Z;
  ca_desired_access : Z;
  ca_lease_request : option RequestLease;
  ca_durable_request : option DurableOpenRequest;
  ca_timewarp : option Z
}.

#[export] Instance eta_FileCreateArgs : Eta FileCreateArgs := fun a =>
  mkCreateArgs (ca_disposition a) (ca_attributes a) (ca_options a) (ca_desired_access a) (ca_lease_request a)
    (ca_durable_request a) (ca_timewarp a).

(** The bits of [FileAccessMask]. *)
Definition am_file_read_data (mask : Z) : bool := Z.testbit mask 0.
Definition am_file_write_data (mask : Z) : bool := Z.testbit mask 1.
Definition am_delete : Z := Z.shiftl 1 16.
Definition am_generic_write : Z := Z.shiftl 1 30.
Definition am_generic_read : Z := Z.shiftl 1 31.

Definition make_open_existing (access : Z) : FileCreateArgs := mkCreateArgs CD_Open 0 0 access None None None.
Definition make_create_new (attributes options : Z) : FileCreateArgs :=
  mkCreateArgs CD_Create attributes options (Z.lor am_generic_read (Z.lor am_generic_write am_delete)) None None None.
Definition make_overwrite (attributes options : Z) : FileCreateArgs :=
  mkCreateArgs CD_OverwriteIf attributes options (Z.lor am_generic_read (Z.lor am_generic_write am_delete)) None None None.
Definition make_pipe : FileCreateArgs := mkCreateArgs CD_Open 0 0 (Z.lor am_generic_read am_generic_write) None None None.
Definition with_durable (a : FileCreateArgs) (request : DurableOpenRequest) : FileCreateArgs :=
  a <| ca_durable_request := Some request |>.
Definition with_timewarp (a : FileCreateArgs) (timestamp : Z) : FileCreateArgs := a <| ca_timewarp := Some timestamp |>.

Record OpenedFacts := mkFacts {
  of_created : Z;
  of_accessed : Z;
  of_written : Z;
  of_changed : Z;
  of_end_of_file : Z;
  of_attributes : Z;
  of_reparse_point : bool;
  of_on_disk_id : option (Z * Z)
}.

(** [OpenedFacts::file_id], [OpenedFacts::volume_id] *)
Definition facts_file_id (f : OpenedFacts) : option Z :=
  match of_on_disk_id f with
  | Some (file_id, _) => if bool_decide (file_id ≠ 0) then Some file_id else None
  | None => None
  end.
Definition facts_volume_id (f : OpenedFacts) : option Z := snd <$> of_on_disk_id f.

(** [OplockSlot] (lease.rs) *)
Record OplockSlot := mkSlot { sl_file_id : FileId; sl_level : OplockLevel; sl_object : ObjectToken }.

(** The generation is the one the handle was opened with; it is shared and replaced by reconnects. *)
Record ResourceHandle := mkHandle {
  rh_name : list Z;
  rh_generation : FileGeneration;
  rh_access : Z;
  rh_durable_granted : option DurableOpenGrant;
  rh_oplock_slot : option OplockSlot;
  rh_conn_info : Settings;
  rh_opened : OpenedFacts
}.

Inductive Resource :=
| R_File (handle : ResourceHandle) (end_of_file : Z)
| R_Directory (handle : ResourceHandle)
| R_Pipe (handle : ResourceHandle).

Definition resource_handle (r : Resource) : ResourceHandle :=
  match r with R_File h _ | R_Directory h | R_Pipe h => h end.

(** ** Opening *)

Definition validate_durable_request (request : DurableOpenRequest) (smb3 persistent_handles continuous_availability : bool)
    : result ShareError unit :=
  if negb smb3 then Err OE_UnsupportedOperation
  else if do_persistent request && (negb persistent_handles || negb continuous_availability)
  then Err OE_UnsupportedOperation else Ok tt.

Definition requested_oplock_level (a : FileCreateArgs) : OplockLevel :=
  match ca_lease_request a, ca_durable_request a with
  | Some _, _ => OL_Lease
  | None, Some _ => OL_Batch
  | None, None => OL_None
  end.

Definition validate_create_parent_epoch (captured current : ObjectToken) : result ShareError unit :=
  if bool_decide (captured = current) then Ok tt else Err OE_StaleObject.

(** [impl From<T> for CreateContextRequest] *)
Definition create_context (d : CreateContextRequestData) : CreateContext CreateContextRequestData :=
  mkContext (context_name (request_data_type d)) d.

(** [DurableHandleV2Flags::with_persistent], [persistent] *)
Definition durable_flags (persistent : bool) : Z := if persistent then Z.shiftl 1 1 else 0.
Definition flag_persistent (flags : Z) : bool := Z.testbit flags 1.

Definition create_contexts (a : FileCreateArgs) : list (CreateContext CreateContextRequestData) :=
  [create_context (CQ_MxAc None); create_context CQ_QFid]
  ++ (match ca_timewarp a with Some timestamp => [create_context (CQ_TWrp timestamp)] | None => [] end)
  ++ (match ca_lease_request a with Some lease => [create_context (CQ_RqLs lease)] | None => [] end)
  ++ (match ca_durable_request a with
      | Some request => [create_context (CQ_DH2Q
          (mkDh2q (do_timeout request) (durable_flags (do_persistent request)) (do_create_guid request)))]
      | None => []
      end).

(** [CreateContextResponseData::first_mxac], [first_dh2q], [first_qfid] *)
Fixpoint first_context {A} (pick : CreateContextResponseData -> option A)
    (l : list (CreateContext CreateContextResponseData)) : option A :=
  match l with
  | [] => None
  | c :: l => match pick (cx_data c) with Some a => Some a | None => first_context pick l end
  end.
Definition first_mxac := first_context (fun d => match d with CS_MxAc m => Some m | _ => None end).
Definition first_dh2q := first_context (fun d => match d with CS_DH2Q r => Some r | _ => None end).
Definition first_qfid := first_context (fun d => match d with CS_QFid q => Some q | _ => None end).

(** [QueryMaximalAccessResponse::maximal_access] *)
Definition maximal_access (m : QueryMaximalAccessResponse) : option Z :=
  if bool_decide (mr_query_status m = St_Success) then Some (mr_maximal_access m) else None.

Definition to_create (r : Response) : result ShareError CreateResponse :=
  match ps_content (cp_message r) with Rs_Create c => Ok c | _ => Err OE_SmbMsgError end.

(** [HeaderFlags::set_dfs_operation] on flags that do not have it *)
Definition set_dfs_operation (m : Request) (is_dfs : bool) : Request :=
  if is_dfs then m <| cmd_header := (cmd_header m) <| hd_flags := Z.lor (hd_flags (cmd_header m)) (Z.shiftl 1 28) |> |>
  else m.

Definition create_request (name : list Z) (a : FileCreateArgs) (share_type : ShareType) : CreateRequest :=
  mkCreateRequest (requested_oplock_level a) IL_Impersonation (ca_desired_access a) (ca_attributes a)
    (match share_type with ST_Disk => 7 | _ => 0 end) (ca_disposition a) (ca_options a) name (create_contexts a).

(** What [create] makes of the durable context of the response. *)
Definition durable_grant (a : FileCreateArgs) (response : CreateResponse) : result ShareError (option DurableOpenGrant) :=
  match ca_durable_request a with
  | None => Ok None
  | Some request =>
      match first_dh2q (cs_create_contexts response) with
      | None => Err OE_UnsupportedOperation
      | Some granted =>
          let persistent := flag_persistent (dr_flags granted) in
          if do_persistent request && negb persistent then Err OE_UnsupportedOperation
          else Ok (Some (mkDurableGrant (dr_timeout granted) persistent (do_create_guid request)))
      end
  end.

Definition opened_facts (response : CreateResponse) : OpenedFacts :=
  mkFacts (cs_creation_time response) (cs_last_access_time response) (cs_last_write_time response)
    (cs_change_time response) (cs_endof_file response) (cs_file_attributes response) (Z.testbit (cs_flags response) 0)
    ((fun q => (qr_file_id q, qr_volume_id q)) <$> first_qfid (cs_create_contexts response)).

Definition oplock_granted (level : OplockLevel) : bool :=
  match level with OL_II | OL_Exclusive | OL_Batch => true | OL_None | OL_Lease => false end.

(** The checks of [create] before anything is sent. *)
Definition validate_create (name : list Z) (a : FileCreateArgs) (conn_info : Settings) (share_type : ShareType) : io unit :=
  if match share_type with ST_Print => match ca_disposition a with CD_Create => false | _ => true end | _ => false end
  then mret (Err OE_InvalidArgument)
  else if match name with 92 :: _ => true | _ => false end then mret (Err OE_InvalidArgument)
  else match ca_durable_request a with
       | None => mret (Ok tt)
       | Some request =>
           continuous <-? continuously_available;
           a_lift (validate_durable_request request (is_smb3 (np_dialect_rev (ci_negotiation (se_info conn_info))))
                     (Z.testbit (se_capabilities conn_info) 4) continuous)
       end.

(** The part of [create] behind its response. *)
Definition open_resource (name : list Z) (a : FileCreateArgs) (conn_info : Settings) (share_type : ShareType)
    (share : ObjectToken) (response : CreateResponse) : io Resource :=
  let access := default u32_max (first_mxac (cs_create_contexts response) ≫= maximal_access) in
  durable_granted <-? a_lift (durable_grant a response);
  object <-? create_resource_object_for share;
  oplock_slot <-- (if oplock_granted (cs_oplock_level response) then
                     _ <-- call (C_RegisterOplockSlot (cs_file_id response) (cs_oplock_level response) object);
                     mret (Some (mkSlot (cs_file_id response) (cs_oplock_level response) object))
                   else mret None : async Call answer (option OplockSlot));
  let handle := mkHandle name (mkFileGeneration (cs_file_id response) object share) access durable_granted
                  oplock_slot conn_info (opened_facts response) in
  mret (if Z.testbit (cs_file_attributes response) 4 then Ok (R_Directory handle)
        else match share_type with
             | ST_Disk => Ok (R_File handle (cs_endof_file response))
             | ST_Pipe => Ok (R_Pipe handle)
             | ST_Print => Err OE_UnsupportedOperation
             end).

(** [Resource::create] *)
Definition resource_create (name : list Z) (a : FileCreateArgs) (conn_info : Settings) (share_type : ShareType)
    (is_dfs : bool) : io Resource :=
  _ <-? validate_create name a conn_info share_type;
  let msg := set_dfs_operation (request_new (Rq_Create (create_request name a share_type))) is_dfs in
  share <-? current_share_object;
  response <-? execute_for_with_replay msg (options_new <| os_allow_async := true |>) share RPol_NeverReplay;
  current <-? current_share_object;
  _ <-? a_lift (validate_create_parent_epoch share current);
  response <-? a_lift (to_create response);
  open_resource name a conn_info share_type share response.

(** [Tree::create] *)
Definition tree_create (file_name : list Z) (a : FileCreateArgs) : io Resource :=
  info <-? tree_info;
  conn_info <-- call C_ConnInfo;
  resource_create file_name a conn_info (ti_share_type info) (sh_dfs (ti_share_flags info)).

(** ** Reconnecting *)

Definition belongs_to (g : FileGeneration) (share : ObjectToken) : bool := bool_decide (fg_share g = share).

Section handle.
Context (h : ResourceHandle).

(** The delay before an attempt of [ensure_current]. *)
Definition durable_delay (attempt : Z) : Duration :=
  let policy := se_auto_reconnect (rh_conn_info h) in
  let shift := Z.min (saturating_sub attempt 2) 31 in
  Z.min (duration_saturating_mul (rp_initial_backoff policy) (Z.shiftl 1 shift)) (rp_maximum_backoff policy).

Definition reconnect_request (grant : DurableOpenGrant) (previous : FileGeneration) : CreateRequest :=
  mkCreateRequest OL_None IL_Impersonation 0 0 0 CD_Open 0 []
    [create_context (CQ_DH2C (mkDh2c (fg_file_id previous) (dg_create_guid grant) (durable_flags (dg_persistent grant))))].

Definition durable_attempt (grant : DurableOpenGrant) (previous : FileGeneration) : io (option FileGeneration) :=
  share <-? current_share_object;
  if belongs_to previous share then mret (Ok None)
  else
    response <-? execute (request_new (Rq_Create (reconnect_request grant previous)))
                   (options_new <| os_allow_async := true |>);
    response <-? a_lift (to_create response);
    current <-? current_share_object;
    if bool_decide (current ≠ share) then mret (Err OE_InvalidState)
    else
      object <-? create_resource_object_for share;
      mret (Ok (Some (mkFileGeneration (cs_file_id response) object share))).

(** What [ensure_current] does with a reconnected open. *)
Definition publish_file (candidate : FileGeneration) : async Call answer unit :=
  _ <-- (match rh_oplock_slot h with
         | Some slot =>
             _ <-- call (C_ReplaceOplockSlot (fg_file_id candidate) (fg_object candidate));
             call (C_RegisterOplockSlot (fg_file_id candidate) (sl_level slot) (fg_object candidate))
         | None => mret tt
         end : async Call answer unit);
  call (C_StoreFile candidate).

Fixpoint durable_attempts (grant : DurableOpenGrant) (attempts : nat) (attempt : Z) (last_error : option ShareError)
    : io unit :=
  match attempts with
  | O => mret (Err (default OE_InvalidState last_error))
  | S attempts =>
      _ <-- (if bool_decide (attempt > 1) then call (C_Sleep (durable_delay attempt)) else mret tt : async Call answer unit);
      previous <-- call C_LoadFile;
      r <-- run_bounded_attempt (durable_attempt grant previous);
      match r with
      | Some (Ok (Some candidate)) => _ <-- publish_file candidate; mret (Ok tt)
      | Some (Ok None) => mret (Ok tt)
      | Some (Err error) => durable_attempts grant attempts (attempt + 1) (Some error)
      | None => durable_attempts grant attempts (attempt + 1) (Some OE_ResourceRecoveryWaitTimedOut)
      end
  end.

Definition ensure_current : io unit :=
  share <-? current_share_object;
  generation <-- call C_LoadFile;
  if belongs_to generation share then mret (Ok tt)
  else match rh_durable_granted h with
       | None => mret (Err OE_InvalidState)
       | Some grant =>
           _ <-- call C_LockFile;
           r <-- durable_attempts grant (Z.to_nat (rp_max_attempts (se_auto_reconnect (rh_conn_info h)))) 1 None;
           _ <-- call C_UnlockFile;
           mret r
       end.

(** ** Operations on a handle *)

Definition handle_file_id : io FileId :=
  open <-- call C_LoadOpen;
  if open then
    _ <-? ensure_current;
    generation <-- call C_LoadFile;
    mret (Ok (fg_file_id generation))
  else mret (Err OE_InvalidState).

(** [execute_request_with_replay], [execute_content] and [send_receive] of a handle *)
Definition handle_execute_with_replay (m : Request) (options : Options) (replay : ReplayPolicy) : io Response :=
  _ <-? ensure_current;
  generation <-- call C_LoadFile;
  execute_for_with_replay m options (fg_object generation) replay.

Definition handle_execute_content (content : RequestContent) (options : Options) : io Response :=
  _ <-? ensure_current;
  generation <-- call C_LoadFile;
  execute_for (request_new content) options (fg_object generation).

Definition handle_send_receive (content : RequestContent) : io Response :=
  _ <-? ensure_current;
  generation <-- call C_LoadFile;
  send_recv_for content (fg_object generation).

Definition calc_transact_size (requested : option Z) : Z :=
  let max_transact_size := se_max_transact_size (rh_conn_info h) in
  match requested with
  | Some requested_length => if bool_decide (requested_length > max_transact_size) then max_transact_size
                             else requested_length mod 2 ^ 32
  | None => Z.min max_transact_size (se_default_transaction_size (rh_conn_info h))
  end.

(** The size a BUFFER_OVERFLOW or an INFO_LENGTH_MISMATCH reports in the context of its error body. *)
Definition required_size (status : Status) (content : ResponseContent) : result ShareError (option Z) :=
  match content with
  | Rs_Error contexts =>
      match find_context EI_Default contexts with
      | None => Ok None
      | Some ctx =>
          match Queries.as_uint (match status with St_BufferOverflow => 4 | _ => 8 end)%nat ctx with
          | Some n => Ok (Some n)
          | None => Err OE_SmbMsgError
          end
      end
  | _ => Ok None
  end.

(** What [query_common] makes of a response. *)
Definition query_answer (info_type : InfoType) (buffer_length : Z) (response : Response) : result ShareError InfoData :=
  let content := ps_content (cp_message response) in
  match status_try_from (hd_status (ps_header (cp_message response))) with
  | None => Err OE_InvalidMessage
  | Some St_Success =>
      match content with
      | Rs_QueryInfo data =>
          match parse_info info_type data with
          | Some (_, Ok d) => Ok d
          | Some (_, Err _) => Err OE_SmbMsgError
          | None => Err OE_Panic
          end
      | _ => Err OE_SmbMsgError
      end
  | Some (St_BufferOverflow as status) | Some (St_InfoLengthMismatch as status) =>
      match required_size status content with
      | Ok required => Err (OE_BufferTooSmall required buffer_length)
      | Err e => Err e
      end
  | Some St_BufferTooSmall => Err (OE_BufferTooSmall None buffer_length)
  | Some _ => Err OE_Panic
  end.

Definition query_common (req : QueryInfoRequest) (output_buffer_length : option Z) : io InfoData :=
  let buffer_length := calc_transact_size output_buffer_length in
  let req := mkQueryInfoRequest (gi_info_type req) (gi_info_class req) buffer_length (gi_additional_info req)
               (gi_flags req) (gi_file_id req) (gi_data req) in
  response <-? handle_execute_content (Rq_QueryInfo req)
    (options_new <| os_status := [St_Success; St_BufferOverflow; St_BufferTooSmall; St_InfoLengthMismatch] |>);
  a_lift (query_answer (gi_info_type req) buffer_length response).

Definition set_info_common (data : InfoData) (cls : SetInfoClass) (additional_info : Z) : io unit :=
  file_id <-? handle_file_id;
  match to_req data cls file_id additional_info with
  | None => mret (Err OE_Panic)
  | Some req =>
      response <-? handle_send_receive (Rq_SetInfo req);
      mret match ps_content (cp_message response) with Rs_SetInfo => Ok tt | _ => Err OE_SmbMsgError end
  end.

Definition query_security_info_with_options (additional_info : Z) (output_buffer_length : option Z) : io SecurityDescriptor :=
  file_id <-? handle_file_id;
  data <-? query_common (mkQueryInfoRequest IT_Security QIC_Empty 0 additional_info 0 file_id GI_None) output_buffer_length;
  mret match data with ID_Security d => Ok d | _ => Err OE_SmbMsgError end.

Record FileOperationOptions := mkFileOptions {
  fo_timeout : option Duration;
  fo_cancellation : bool;
  fo_replay : ReplayPolicy
}.

(** [with_timeout] and [with_cancellation_token] where there is one *)
Definition with_operation (o : Options) (operation : FileOperationOptions) : Options :=
  o <| os_timeout := match fo_timeout operation with Some t => Some t | None => os_timeout o end |>
    <| os_async_cancel := fo_cancellation operation || os_async_cancel o |>.

(** [fsctl_with_operation], over the codes and the reader of the response type *)
Definition fsctl_with_operation {T} (code : FsctlCodes) (codes : list FsctlCodes) (read_response : bin T)
    (request : IoctlReqData) (max_output_response : Z) (operation : FileOperationOptions) : io T :=
  file_id <-? handle_file_id;
  let request := request_new (Rq_Ioctl (mkIoctlRequest (fsctl_code code) file_id 0 max_output_response 1 request)) in
  response <-? handle_execute_with_replay request (with_operation (options_new <| os_allow_async := true |>) operation)
                 (fo_replay operation);
  mret match ps_content (cp_message response) with
       | Rs_Ioctl r =>
           match parse_fsctl codes read_response (is_ctl_code r) (is_out_buffer r) with
           | Some (Ok t) => Ok t
           | Some (Err _) => Err OE_SmbMsgError
           | None => Err OE_Panic
           end
       | _ => Err OE_SmbMsgError
       end.

(** [fsctl_with_options] *)
Definition fsctl_with_options {T} (code : FsctlCodes) (codes : list FsctlCodes) (read_response : bin T)
    (request : IoctlReqData) (max_output_response : Z) : io T :=
  fsctl_with_operation code codes read_response request max_output_response (mkFileOptions None false RPol_NeverReplay).

(** [_ioctl], which goes through the share and not through the handle *)
Definition resource_ioctl (ctl_code : Z) (req_data : IoctlReqData) (max_in max_out flags : Z) : io IoctlResponse :=
  file_id <-? handle_file_id;
  response <-? execute_content (Rq_Ioctl (mkIoctlRequest ctl_code file_id max_in max_out flags req_data))
                 (options_new <| os_allow_async := true |>);
  mret match ps_content (cp_message response) with Rs_Ioctl r => Ok r | _ => Err OE_SmbMsgError end.

Definition set_security_info (info : SecurityDescriptor) (additional_info : Z) : io unit :=
  set_info_common (ID_Security info) SI_Security additional_info.

(** [query_info_with_options], over the class and the parser of the information *)
Definition query_info_with_options {T} (class : QueryFileInfoClass) (parse : bytes -> result ShareError T) (flags : Z)
    (output_buffer_length : option Z) : io T :=
  file_id <-? handle_file_id;
  data <-? query_common (mkQueryInfoRequest IT_File (QIC_File class) 0 0 flags file_id GI_None) output_buffer_length;
  mret match data with ID_File raw => parse raw | _ => Err OE_SmbMsgError end.

Definition resource_close : io unit :=
  _ <-? ensure_current;
  open <-- call C_SwapOpen;
  if open then
    generation <-- call C_LoadFile;
    _ <-? send_recv_for (Rq_Close (fg_file_id generation)) (fg_object generation);
    mret (Ok tt)
  else mret (Err OE_InvalidState).

(** ** Files *)

(** [ReadResponse::data_range]: [WireRange::validate] with the alignment of a byte. *)
Definition data_range (r : ReadResponse) (member_len : Z) : result ShareError (Z * Z) :=
  if bool_decide (rs_data_offset r < header_struct_size + read_response_size - 1) then Err OE_InvalidMessage
  else match checked_add usize_max (rs_data_offset r) (rs_data_length r) with
       | None => Err OE_InvalidMessage
       | Some end_ => if bool_decide (end_ > member_len) then Err OE_InvalidMessage else Ok (rs_data_offset r, end_)
       end.

(** [response.raw.slice(range)] *)
Definition slice (raw : bytes) (range : Z * Z) : bytes :=
  take (Z.to_nat (range.2 - range.1)) (drop (Z.to_nat range.1) raw).

Definition read_data (response : Response) : result ShareError bytes :=
  match ps_content (cp_message response) with
  | Rs_Read content =>
      match data_range content (zlen (cp_raw response)) with
      | Ok range => Ok (slice (cp_raw response) range)
      | Err e => Err e
      end
  | _ => Err OE_InvalidMessage
  end.

Definition read_flags (unbuffered : bool) : Z :=
  let info := se_info (rh_conn_info h) in
  Z.lor (if cfg_compression_enabled (ci_config info) && supports_compression (ci_dialect info) then 2 else 0)
    (if unbuffered && bool_decide (dialect_code Smb0302 <= dialect_code (np_dialect_rev (ci_negotiation info))) then 1 else 0).

Definition send_read_request_with_options (length pos : Z) (channel : option Z) (unbuffered : bool)
    (operation : FileOperationOptions) : io Response :=
  file_id <-? handle_file_id;
  let request := (request_new (Rq_Read (mkReadRequest (read_flags unbuffered) length pos file_id 1)))
                   <| cmd_channel_id := channel |> in
  let options := with_operation (mkCallOptions [St_Success; St_EndOfFile] (Some Cmd_Read) true false None) operation in
  handle_execute_with_replay request options (fo_replay operation).

Definition read_block_bytes_with_options (max_len pos : Z) (channel : option Z) (unbuffered : bool)
    (options : FileOperationOptions) : io bytes :=
  if bool_decide (max_len = 0) then mret (Ok [])
  else if negb (am_file_read_data (rh_access h)) then mret (Err OE_MissingPermissions)
  else
    response <-? send_read_request_with_options max_len pos channel unbuffered options;
    mret match status_try_from (hd_status (ps_header (cp_message response))) with
         | None => Err OE_SmbMsgError
         | Some St_EndOfFile => Ok []
         | Some _ => read_data response
         end.

Definition to_write (response : Response) (e : ShareError) : result ShareError Z :=
  match ps_content (cp_message response) with Rs_Write count => Ok count | _ => Err e end.

Definition write_block_zc_with_options (buf : bytes) (pos : Z) (channel : option Z) (operation : FileOperationOptions) : io Z :=
  if bool_decide (buf = []) then mret (Ok 0)
  else if negb (am_file_write_data (rh_access h)) then mret (Err OE_MissingPermissions)
  else
    file_id <-? handle_file_id;
    let outgoing := (request_new (Rq_Write (mkWriteRequest (zlen buf mod 2 ^ 32) pos file_id 0)))
                      <| cmd_additional_data := Some buf |> <| cmd_channel_id := channel |> in
    response <-? handle_execute_with_replay outgoing (with_operation (options_new <| os_allow_async := true |>) operation)
                   (fo_replay operation);
    a_lift (to_write response OE_InvalidMessage).

(** The error of [flush] is an [io::Error] around the one of the crate. *)
Definition file_flush : io unit :=
  file_id <-? handle_file_id;
  _ <-? handle_execute_content (Rq_Flush file_id) (options_new <| os_allow_async := true |>);
  mret (Ok tt).

(** ** Pipes *)

Definition pipe_read_bytes_with_options (max_len : Z) (operation : FileOperationOptions) : io bytes :=
  if bool_decide (max_len = 0) then mret (Ok [])
  else
    file_id <-? handle_file_id;
    let request := request_new (Rq_Read (mkReadRequest 0 max_len 0 file_id 0)) in
    response <-? handle_execute_with_replay request (with_operation (options_new <| os_allow_async := true |>) operation)
                   (fo_replay operation);
    a_lift (read_data response).

Definition pipe_write_bytes_with_options (data : bytes) (operation : FileOperationOptions) : io Z :=
  if bool_decide (data = []) then mret (Ok 0)
  else if bool_decide (zlen data > u32_max) then mret (Err OE_ParsingError)
  else
    file_id <-? handle_file_id;
    let request := (request_new (Rq_Write (mkWriteRequest (zlen data) 0 file_id 0))) <| cmd_additional_data := Some data |> in
    response <-? handle_execute_with_replay request (with_operation (options_new <| os_allow_async := true |>) operation)
                   (fo_replay operation);
    a_lift (to_write response OE_SmbMsgError).

(** The response of FSCTL_PIPE_TRANSCEIVE is the rest of the buffer. *)
Definition transact_bytes (request : bytes) (max_response : Z) (operation : FileOperationOptions) : io bytes :=
  fsctl_with_operation FC_PipeTransceive [FC_PipeTransceive] bytes_until_eof (IO_PipeTransceive request) max_response operation.

End handle.
