(* ===== verification/TreeProps.v ===== *)
(** The operations on a share and on its resources, and what they have in common. [ShareDiscipline] says what a
    discipline has to know of the calls that all of them are made of; every operation then follows it.
    The first such discipline: each request that is sent is one of a published generation of the
    tree, encrypted when the share demands it. *)
From S2P Require Import Prelude Effects Async Clock Reducer Bytes Header Crypto ObjectState Recovery Operation Dialects.
From S2P Require Import Stream Codec Security CreateContexts Fsctl TreeConnect Messages Queries Session Content Tree Resource.
Local Open Scope Z_scope.
Local Open Scope async_scope.

#[global] Arguments flag_async_command : simpl never.
#[global] Arguments sh_encrypt_data : simpl never.

Lemma runs_call_Some c events (r : answer c) : runs (call c) events (Some r) -> events = [Ev c r].
Proof. apply (runs_issue_Some (ans := answer)). Qed.

Lemma follows_call {S B} (allowed : S -> Call -> Prop) possible (next : S -> forall c, answer c -> S) c
    (f : answer c -> async Call answer B) s Q :
  allowed s c -> (forall r, follows allowed possible next (next s c r) (f r) Q) ->
  follows allowed possible next s (then_bind (call c) f) Q.
Proof. intros H1 H2. by split; [|intros r _]. Qed.

Ltac call_in H := match type of H with runs (call ?c) ?events (Some ?r) => apply (runs_call_Some c events r) in H end.

(** ** Operations *)

(** The operations of a share that a task may run; their value is not looked at. *)
Definition as_task {A} (p : io A) : io unit :=
  then_bind p (fun r => mret match r with Ok _ => Ok tt | Err e => Err e end).

Inductive share_operation : io unit -> Prop :=
| so_execute content options : share_operation (as_task (execute (request_new content) options))
| so_execute_for content options dependency : share_operation (as_task (execute_for (request_new content) options dependency))
| so_disconnect : share_operation (as_task disconnect)
| so_create name a : share_operation (as_task (tree_create name a))
| so_query h req n : share_operation (as_task (query_common h req n))
| so_query_security h info n : share_operation (as_task (query_security_info_with_options h info n))
| so_set_info h data cls info : share_operation (as_task (set_info_common h data cls info))
| so_fsctl {T} h code codes (read : bin T) request n operation :
    share_operation (as_task (fsctl_with_operation h code codes read request n operation))
| so_ioctl h code data max_in max_out flags : share_operation (as_task (resource_ioctl h code data max_in max_out flags))
| so_query_info {T} h class (parse : bytes -> result ShareError T) flags n :
    share_operation (as_task (query_info_with_options h class parse flags n))
| so_set_security h info n : share_operation (as_task (set_security_info h info n))
| so_close h : share_operation (as_task (resource_close h))
| so_read h n pos channel unbuffered operation :
    share_operation (as_task (read_block_bytes_with_options h n pos channel unbuffered operation))
| so_write h data pos channel operation : share_operation (as_task (write_block_zc_with_options h data pos channel operation))
| so_flush h : share_operation (as_task (file_flush h))
| so_pipe_read h n operation : share_operation (as_task (pipe_read_bytes_with_options h n operation))
| so_pipe_write h data operation : share_operation (as_task (pipe_write_bytes_with_options h data operation))
| so_transact h data n operation : share_operation (as_task (transact_bytes h data n operation)).

(** ** Disciplines of the operations *)

(** Calls that only ask the session for an object or look at the state of a resource. *)
Definition neutral (c : Call) : bool :=
  match c with
  | C_ConnInfo | C_SessionObject | C_CreateChild _ | C_CreateChildOnCurrentSession _ | C_CreateObject _ _ | C_RegisterShare
  | C_RegisterOplockSlot _ _ _ | C_LoadGeneration | C_LoadClosed | C_LoadRecovering | C_LoadOpen | C_SwapOpen | C_LoadFile
  | C_StoreFile _ | C_ReplaceOplockSlot _ _ | C_Sleep _ => true
  | _ => false
  end.

(** [keeps_at I p]: [p] follows the discipline, and [I] holds wherever it can be dropped and when it returns. *)
Abbreviation keeps_at allowed possible next I := (keeps (stable awaits I allowed) possible next I).

Class ShareDiscipline {S} (allowed : S -> Call -> Prop) (possible : S -> forall c, answer c -> Prop)
    (next : S -> forall c, answer c -> S) (I : S -> Prop) : Prop := {
  sd_bounded {A} (p : io A) : keeps_at allowed possible next I p -> keeps_at allowed possible next I (run_bounded_attempt p);
  sd_neutral c : neutral c = true -> keeps_at allowed possible next I (call c);
  sd_wait timeout cancellation : keeps_at allowed possible next I (wait_for_reconnect timeout cancellation);
  sd_execute m options dependency replay :
    cmd_security m = None -> flag_async_command (hd_flags (cmd_header m)) = false ->
    keeps_at allowed possible next I (execute_for_with_replay m options dependency replay);
  sd_disconnect : keeps_at allowed possible next I disconnect
}.

(** What a discipline has to know besides of the operations that bring a resource up to date. They hold a lock while they
    await, so that [I] need not hold there. *)
Class FileDiscipline {S} (allowed : S -> Call -> Prop) (possible : S -> forall c, answer c -> Prop)
    (next : S -> forall c, answer c -> S) (I : S -> Prop) : Prop :=
  fd_ensure h : keeps allowed possible next I (ensure_current h).

Create HintDb keeps.

(** [keeping] goes through a call, its branches and what it is bound to. *)
Ltac keeping :=
  repeat match goal with
    | |- forall _, _ => intros ?
    | |- keeps _ _ _ _ (then_bind _ _) => apply keeps_then
    | |- keeps _ _ _ _ (try_bind _ _) => apply keeps_try
    | |- keeps _ _ _ _ (a_ret _) => apply keeps_ret
    | |- keeps _ _ _ _ (mret _) => apply keeps_ret
    | |- keeps _ _ _ _ (a_lift _) => apply keeps_ret
    | |- keeps _ _ _ _ (let _ := _ in _) => cbv zeta
    | |- keeps _ _ _ _ (if ?b then _ else _) => destruct b
    | |- keeps _ _ _ _ (match ?x with _ => _ end) => destruct x
    | |- keeps _ _ _ _ _ => solve [eauto with keeps]
    end.

Section operations.
Context {S} {allowed : S -> Call -> Prop} {possible : S -> forall c, answer c -> Prop}.
Context {next : S -> forall c, answer c -> S} {I : S -> Prop} `{D : !ShareDiscipline allowed possible next I}.

#[local] Abbreviation kept := (keeps_at allowed possible next I).
#[local] Hint Resolve sd_bounded sd_wait sd_disconnect : keeps.
#[local] Hint Extern 2 (keeps _ _ _ _ (call _)) => apply sd_neutral; reflexivity : keeps.
#[local] Hint Extern 4 (keeps _ _ _ _ (execute_for_with_replay _ _ _ _)) => apply sd_execute; [reflexivity|reflexivity] : keeps.

Lemma execute_for_keeps content options dependency : kept (execute_for (request_new content) options dependency).
Proof. unfold execute_for. keeping. Qed.
#[local] Hint Resolve execute_for_keeps : keeps.

Lemma execute_keeps content options : kept (execute (request_new content) options).
Proof. unfold execute. keeping. Qed.
Lemma current_share_object_keeps : kept current_share_object.
Proof. unfold current_share_object. keeping. Qed.
Lemma send_recv_for_keeps content dependency : kept (send_recv_for content dependency).
Proof. unfold send_recv_for. keeping. Qed.
Lemma create_resource_object_for_keeps share : kept (create_resource_object_for share).
Proof. unfold create_resource_object_for. keeping. Qed.
Lemma tree_info_keeps : kept tree_info.
Proof. unfold tree_info. keeping. Qed.
#[local] Hint Resolve execute_keeps current_share_object_keeps send_recv_for_keeps
  create_resource_object_for_keeps tree_info_keeps : keeps.
Lemma continuously_available_keeps : kept continuously_available.
Proof. unfold continuously_available. keeping. Qed.
#[local] Hint Resolve continuously_available_keeps : keeps.

(** ** Resources *)

Lemma resource_create_keeps name a conn_info share_type is_dfs : kept (resource_create name a conn_info share_type is_dfs).
Proof.
  unfold resource_create, validate_create, open_resource. keeping.
  all: apply sd_execute; by destruct is_dfs.
Qed.
#[local] Hint Resolve resource_create_keeps : keeps.

Lemma durable_attempts_keeps h grant n k last : kept (durable_attempts h grant n k last).
Proof.
  assert (Ha : forall grant previous, kept (durable_attempt grant previous))
    by (intros; unfold durable_attempt; keeping).
  revert k last. induction n as [|n IH]; intros k last; cbn [durable_attempts]; unfold publish_file; keeping.
Qed.

Context {F : FileDiscipline allowed possible next I}.

Lemma kept_plain {A} (p : async Call answer A) : kept p -> keeps allowed possible next I p.
Proof. intros H s Hs. eapply follows_allow; [|by apply H]. by intros ? ? []. Qed.

#[local] Hint Resolve fd_ensure : keeps.
#[local] Hint Extern 5 (keeps _ _ _ _ _) => apply kept_plain : keeps.
#[local] Abbreviation kept_on := (keeps allowed possible next I).

Lemma handle_file_id_keeps h : kept_on (handle_file_id h).
Proof. unfold handle_file_id. keeping. Qed.
Lemma handle_execute_content_keeps h content options : kept_on (handle_execute_content h content options).
Proof. unfold handle_execute_content. keeping. Qed.
Lemma handle_send_receive_keeps h content : kept_on (handle_send_receive h content).
Proof. unfold handle_send_receive. keeping. Qed.
Lemma handle_execute_with_replay_keeps h m options replay :
  cmd_security m = None -> flag_async_command (hd_flags (cmd_header m)) = false ->
  kept_on (handle_execute_with_replay h m options replay).
Proof. intros. unfold handle_execute_with_replay. keeping. by apply kept_plain, sd_execute. Qed.
#[local] Hint Resolve handle_file_id_keeps handle_execute_content_keeps handle_send_receive_keeps : keeps.
#[local] Hint Extern 4 (keeps _ _ _ _ (handle_execute_with_replay _ _ _ _)) =>
  apply handle_execute_with_replay_keeps; [reflexivity|reflexivity] : keeps.

Lemma query_common_keeps h req n : kept_on (query_common h req n).
Proof. unfold query_common. keeping. Qed.
Lemma fsctl_with_operation_keeps {T} h code codes (read : bin T) request n operation :
  kept_on (fsctl_with_operation h code codes read request n operation).
Proof. unfold fsctl_with_operation. keeping. Qed.
Lemma send_read_request_keeps h n pos channel unbuffered operation :
  kept_on (send_read_request_with_options h n pos channel unbuffered operation).
Proof. unfold send_read_request_with_options. keeping. Qed.
#[local] Hint Resolve query_common_keeps @fsctl_with_operation_keeps send_read_request_keeps : keeps.

Lemma tree_create_keeps name a : kept_on (tree_create name a).
Proof. unfold tree_create. keeping. Qed.
#[local] Hint Resolve tree_create_keeps : keeps.

Lemma operation_keeps p : share_operation p -> kept_on p.
Proof.
  intros H. destruct H; unfold as_task, query_security_info_with_options, set_security_info, set_info_common, resource_close, resource_ioctl,
    execute_content, query_info_with_options,
    read_block_bytes_with_options, write_block_zc_with_options, file_flush, pipe_read_bytes_with_options,
    pipe_write_bytes_with_options, transact_bytes; keeping.
Qed.

End operations.

(** ** Requests are protected *)

(** [m] is a request on the tree of generation [g], encrypted when the share demands it. *)
Definition protected_for (g : TreeGeneration) (m : Request) : Prop :=
  hd_tree_id (cmd_header m) = Some (tg_tree_id g) /\
  (sh_encrypt_data (ti_share_flags (tg_info g)) = true -> cmd_security m = Some Pr_Encrypt).

(** A request may be sent when a generation that was loaded before it fits; outside of a tree only a
    TREE_CONNECT is sent. *)
Fixpoint sends_allowed (known : list TreeGeneration) (c : Call) : Prop :=
  match c with
  | C_ExecuteFor m _ _ _ => exists g, g ∈ known /\ protected_for g m
  | C_SendRecv m | C_SendOnCurrentSession m => exists name, m = request_new (Rq_TreeConnect (tree_connect_new name))
  | C_Race c => sends_allowed known c
  | _ => True
  end.

Fixpoint learn (known : list TreeGeneration) (c : Call) : answer c -> list TreeGeneration :=
  match c return answer c -> list TreeGeneration with
  | C_LoadGeneration => fun g => g :: known
  | C_Race c => fun r => match r with Some r => learn known c r | None => known end
  | _ => fun _ => known
  end.

Definition any_answer (known : list TreeGeneration) (c : Call) (r : answer c) : Prop := True.

(** [sends p]: whatever was loaded before, [p] sends nothing but what is allowed. *)
Abbreviation sends := (keeps_at sends_allowed any_answer learn (fun _ => True)).

Lemma bounded_keeps_sends {A} (p : io A) : sends p -> sends (run_bounded_attempt p).
Proof.
  apply keeps_bounded; [done| |done]. intros known c r x E _. split; [done|]. cbn in *. by rewrite E.
Qed.

Lemma sends_call c : (forall known, sends_allowed known c) -> sends (call c).
Proof. intros H. apply keeps_issue. intros known _. by repeat split. Qed.
Lemma tree_prepare_follows m known (Q : list TreeGeneration -> result ShareError (Request * TreeGeneration) -> Prop) :
  cmd_security m = None -> flag_async_command (hd_flags (cmd_header m)) = false ->
  (forall known' g m', g ∈ known' -> protected_for g m' -> Q known' (Ok (m', g))) ->
  (forall known' e, Q known' (Err e)) ->
  follows (stable awaits (fun _ => True) sends_allowed) any_answer learn known (tree_prepare m) Q.
Proof.
  intros Hs Hf HQ He. unfold tree_prepare. cbn. split; [done|]. intros [|] _; cbn; [apply He|]. split; [done|].
  intros g _. rewrite Hf. cbn. rewrite Hs. apply HQ; [by left|].
  destruct (sh_encrypt_data (ti_share_flags (tg_info g))) eqn:E; split; cbn; try done. by rewrite E.
Qed.

Lemma execute_for_with_replay_sends m options dependency replay :
  cmd_security m = None -> flag_async_command (hd_flags (cmd_header m)) = false ->
  sends (execute_for_with_replay m options dependency replay).
Proof.
  intros Hs Hf known _. unfold execute_for_with_replay.
  apply (follows_try _ _ _ _ _ _ (fun known r => match r with Ok (m', g) => g ∈ known /\ protected_for g m' | Err _ => True end)).
  - apply tree_prepare_follows; auto.
  - intros known' [m' g] [Hin Hg]. cbn. split; [by split; [exists g|]|]. intros [r|e] _; cbn; [|done].
    by destruct (check_response g r).
  - done.
Qed.
#[local] Hint Resolve bounded_keeps_sends : keeps.
#[local] Hint Extern 2 (keeps _ _ _ _ (call (C_SendOnCurrentSession _))) => apply sends_call; intros ?; eexists; reflexivity : keeps.
#[local] Hint Extern 3 (keeps _ _ _ _ (call _)) => apply sends_call; intros ?; exact Logic.I : keeps.

Lemma disconnect_sends : sends disconnect.
Proof.
  unfold disconnect. apply keeps_then; [keeping|]. intros [|]; [keeping|].
  intros known _. cbn. split; [done|]. intros g _. unfold send_disconnect.
  destruct (sh_encrypt_data (ti_share_flags (tg_info g))) eqn:E; cbn; (split; [|by intros [] _]);
    (split; [|done]; exists g; split; [by left|split; [done|by rewrite ?E]]).
Qed.

Lemma reconnect_sends name : sends (reconnect name).
Proof.
  assert (Ha : forall conn_info session, sends (reconnect_attempt name conn_info session))
    by (intros; unfold reconnect_attempt; keeping).
  assert (Hl : forall conn_info session n last, sends (reconnect_attempts name conn_info session n last)).
  { intros conn_info session n. induction n as [|n IH]; intros last; cbn [reconnect_attempts]; keeping. }
  unfold reconnect, reconnect_owned, reconnect_recovering. keeping.
Qed.

#[export] Instance sends_discipline : ShareDiscipline sends_allowed any_answer learn (fun _ => True).
Proof.
  split.
  - apply @bounded_keeps_sends.
  - intros c H. apply sends_call. by destruct c.
  - intros timeout cancellation. unfold wait_for_reconnect. keeping.
  - apply execute_for_with_replay_sends.
  - apply disconnect_sends.
Qed.

#[export] Instance sends_files : FileDiscipline sends_allowed any_answer learn (fun _ => True).
Proof.
  intros h. pose proof (fun grant n k last => durable_attempts_keeps (I := fun _ => True) (possible := any_answer) h grant n k last) as Ha.
  pose proof (current_share_object_keeps (I := fun _ => True) (possible := any_answer)) as Hs. intros known Hk.
  eapply (follows_allow (stable awaits (fun _ => True) sends_allowed)); [by intros ? ? []|]. revert known Hk.
  change (sends (ensure_current h)). unfold ensure_current. keeping.
Qed.
