(* ===== verification/TreeSystem.v ===== *)
(** The tasks that share a tree, interleaved: the memory of a [TreeContext], the lock of its recovery and its
    permits, the lock of each resource opened on it, and any number of tasks that run the operations of [Tree] and [Resource] on it. A step is
    one call of one task, the start of an operation, its end, or a future that is dropped while
    it awaits, with the guards it holds. What the session below answers is up to the environment. *)
From S2P Require Import Prelude Effects Async Clock Reducer ObjectState Recovery Bytes Header Operation Crypto Dialects.
From S2P Require Import Session Stream Codec Security CreateContexts Fsctl TreeConnect Messages Queries Content Tree.
From S2P Require Import Resource TreeProps.
Local Open Scope Z_scope.
Local Open Scope async_scope.

(** ** Guards *)

(** What a task holds: the lock, the flag [TreeRecoveryFlag], a permit; whether it was spawned with one; the
    tasks that it spawned, the answers to its TREE_CONNECTs and the settings it has loaded; the resource that its
    operation is on, if it is one of a resource, and whether it holds the lock of that resource. *)
Record Held := mkHeld {
  hl_lock : bool;
  hl_flag : bool;
  hl_permit : bool;
  hl_spawned : bool;
  hl_children : list nat;
  hl_answers : list Response;
  hl_settings : list Settings;
  hl_file : nat;
  hl_file_lock : bool
}.

#[export] Instance eta_Held : Eta Held := fun h =>
  mkHeld (hl_lock h) (hl_flag h) (hl_permit h) (hl_spawned h) (hl_children h) (hl_answers h) (hl_settings h) (hl_file h)
    (hl_file_lock h).

Definition nothing_held (spawned : bool) (file : nat) : Held := mkHeld false false spawned spawned [] [] [] file false.

(** A generation that answers a TREE_CONNECT and was validated against loaded settings. *)
Definition validated (answers : list Response) (settings : list Settings) (g : TreeGeneration) : Prop :=
  exists response content conn_info,
    response ∈ answers /\ conn_info ∈ settings /\ to_treeconnect response = Ok content /\
    validate_tree_connect content conn_info = Ok (tg_info g) /\
    hd_tree_id (ps_header (cp_message response)) = Some (tg_tree_id g).

(** The protocol of the locks, the flag and the permits. *)
Fixpoint lock_allowed (h : Held) (c : Call) : Prop :=
  match c with
  | C_LockRecovery => hl_lock h = false /\ hl_file_lock h = false
  | C_UnlockRecovery => hl_lock h = true /\ hl_flag h = false
  | C_StoreRecovering b => hl_lock h = true /\ hl_flag h = negb b
  | C_StoreGeneration g => hl_flag h = true /\ validated (hl_answers h) (hl_settings h) g
  | C_TryAcquireSlot => hl_permit h = false /\ hl_spawned h = false
  | C_SpawnReconnect => hl_permit h = true /\ hl_spawned h = false
  | C_ReleaseSlot => hl_permit h = true /\ hl_lock h = false
  | C_JoinReconnect t _ _ => hl_lock h = false /\ hl_spawned h = false /\ t ∈ hl_children h
  | C_LockFile => hl_lock h = false /\ hl_spawned h = false /\ hl_file_lock h = false
  | C_UnlockFile => hl_file_lock h = true
  | C_Race c => lock_allowed h c
  | _ => True
  end.

(** The answers to a TREE_CONNECT of a recovery and the settings that a call brings. *)
Fixpoint connect_answers (c : Call) : answer c -> list Response :=
  match c return answer c -> list Response with
  | C_SendOnCurrentSession _ => fun r => match r with Ok r => [r] | Err _ => [] end
  | C_Race c => fun r => match r with Some r => connect_answers c r | None => [] end
  | _ => fun _ => []
  end.

Fixpoint loaded_settings (c : Call) : answer c -> list Settings :=
  match c return answer c -> list Settings with
  | C_ConnInfo => fun r => [r]
  | C_Race c => fun r => match r with Some r => loaded_settings c r | None => [] end
  | _ => fun _ => []
  end.

Fixpoint held_next (h : Held) (c : Call) : answer c -> Held :=
  match c return answer c -> Held with
  | C_LockRecovery => fun _ => h <| hl_lock := true |>
  | C_UnlockRecovery => fun _ => h <| hl_lock := false |>
  | C_StoreRecovering b => fun _ => h <| hl_flag := b |>
  | C_TryAcquireSlot => fun r => h <| hl_permit := r |>
  | C_ReleaseSlot => fun _ => h <| hl_permit := false |>
  | C_SpawnReconnect => fun t => h <| hl_permit := false |> <| hl_children := t :: hl_children h |>
  | C_SendOnCurrentSession _ => fun r => match r with Ok r => h <| hl_answers := r :: hl_answers h |> | Err _ => h end
  | C_ConnInfo => fun r => h <| hl_settings := r :: hl_settings h |>
  | C_LockFile => fun _ => h <| hl_file_lock := true |>
  | C_UnlockFile => fun _ => h <| hl_file_lock := false |>
  | C_Race c => fun r => match r with Some r => held_next h c r | None => h end
  | _ => fun _ => h
  end.

Definition any_held (h : Held) (c : Call) (r : answer c) : Prop := True.

(** ** The system *)

Record Task := mkTask { tk_held : Held; tk_program : io unit }.

Record System := mkSystem {
  sy_context : TreeContext;
  sy_holder : option nat;
  sy_tasks : gmap nat Task;
  sy_finished : gmap nat (result ShareError unit);
  sy_next : nat;
  sy_answers : list Response;
  sy_settings : list Settings
}.

#[export] Instance eta_System : Eta System := fun s =>
  mkSystem (sy_context s) (sy_holder s) (sy_tasks s) (sy_finished s) (sy_next s) (sy_answers s)
    (sy_settings s).

(** A connected tree, with the answer and the settings it was connected with. *)
Definition system_new (context : TreeContext) (answers : list Response) (settings : list Settings) : System :=
  mkSystem context None ∅ ∅ O answers settings.

(** The lock of a resource is free when no task holds it. *)
Definition file_free (s : System) (file : nat) : Prop :=
  forall t task, sy_tasks s !! t = Some task -> hl_file_lock (tk_held task) = true -> hl_file (tk_held task) <> file.

Definition task_file (s : System) (t : nat) : nat :=
  match sy_tasks s !! t with Some task => hl_file (tk_held task) | None => O end.

(** What a call of task [t] may be answered, and what it makes of the context and of the lock. *)
Fixpoint call_step (t : nat) (s : System) (c : Call) : answer c -> TreeContext -> option nat -> Prop :=
  let context := sy_context s in
  let holder := sy_holder s in
  match c return answer c -> TreeContext -> option nat -> Prop with
  | C_LoadGeneration => fun g context' holder' => g = th_generation context /\ context' = context /\ holder' = holder
  | C_StoreGeneration g => fun _ context' holder' => context' = context <| th_generation := g |> /\ holder' = holder
  | C_LoadClosed => fun r context' holder' => r = th_closed context /\ context' = context /\ holder' = holder
  | C_SwapClosed => fun r context' holder' =>
      r = th_closed context /\ context' = context <| th_closed := true |> /\ holder' = holder
  | C_LoadRecovering => fun r context' holder' => r = th_recovering context /\ context' = context /\ holder' = holder
  | C_StoreRecovering b => fun _ context' holder' => context' = context <| th_recovering := b |> /\ holder' = holder
  | C_LockRecovery => fun _ context' holder' => holder = None /\ context' = context /\ holder' = Some t
  | C_UnlockRecovery => fun _ context' holder' => context' = context /\ holder' = None
  | C_TryAcquireSlot => fun r context' holder' =>
      r = bool_decide (0 < th_recovery_slots context) /\
      context' = (if r then context <| th_recovery_slots := th_recovery_slots context - 1 |> else context) /\ holder' = holder
  | C_ReleaseSlot => fun _ context' holder' =>
      context' = context <| th_recovery_slots := th_recovery_slots context + 1 |> /\ holder' = holder
  | C_SpawnReconnect => fun _ _ _ => False
  | C_LockFile => fun _ context' holder' => file_free s (task_file s t) /\ context' = context /\ holder' = holder
  | C_JoinReconnect child timeout cancellation => fun r context' holder' =>
      match r with
      | JO_Finished r => sy_finished s !! child = Some r
      | JO_Panicked => sy_tasks s !! child = None /\ sy_finished s !! child = None
      | JO_Deadline => is_Some timeout
      | JO_Cancelled => cancellation = true
      end /\ context' = context /\ holder' = holder
  | C_Race c => fun r context' holder' =>
      match r with
      | Some r => call_step t s c r context' holder'
      | None => context' = context /\ holder' = holder
      end
  | _ => fun _ context' holder' => context' = context /\ holder' = holder
  end.

(** Dropping a task drops its guards. *)
Definition drop_guards (h : Held) (context : TreeContext) (holder : option nat) : TreeContext * option nat :=
  let context := if hl_flag h then context <| th_recovering := false |> else context in
  let context := if hl_permit h then context <| th_recovery_slots := th_recovery_slots context + 1 |> else context in
  (context, if hl_lock h then None else holder).

Section steps.
Context (tree_name : list Z).

Inductive sys_step (s : System) : System -> Prop :=
| step_start p file :
    share_operation p \/ p = reconnect tree_name ->
    sys_step s (s <| sy_tasks := <[sy_next s := mkTask (nothing_held false file) p]> (sy_tasks s) |> <| sy_next := S (sy_next s) |>)
| step_call t held c k r context holder :
    sy_tasks s !! t = Some (mkTask held (a_call c k)) -> call_step t s c r context holder ->
    sys_step s (s <| sy_context := context |> <| sy_holder := holder |>
                  <| sy_tasks := <[t := mkTask (held_next held c r) (k r)]> (sy_tasks s) |>
                  <| sy_answers := connect_answers c r ++ sy_answers s |>
                  <| sy_settings := loaded_settings c r ++ sy_settings s |>)
| step_spawn t held k :
    sy_tasks s !! t = Some (mkTask held (a_call C_SpawnReconnect k)) ->
    sys_step s (s <| sy_tasks := <[sy_next s := mkTask (nothing_held true O) (reconnect_task tree_name)]>
                                   (<[t := mkTask (held_next held C_SpawnReconnect (sy_next s)) (k (sy_next s))]> (sy_tasks s)) |>
                  <| sy_next := S (sy_next s) |>)
| step_return t held r :
    sy_tasks s !! t = Some (mkTask held (a_ret r)) ->
    sys_step s (s <| sy_tasks := delete t (sy_tasks s) |> <| sy_finished := <[t := r]> (sy_finished s) |>)
| step_drop t held c k :
    sy_tasks s !! t = Some (mkTask held (a_call c k)) -> awaits c = true \/ (exists c', c = C_Race c') ->
    sys_step s (s <| sy_context := (drop_guards held (sy_context s) (sy_holder s)).1 |>
                  <| sy_holder := (drop_guards held (sy_context s) (sy_holder s)).2 |>
                  <| sy_tasks := delete t (sy_tasks s) |>).

Inductive reachable (s : System) : System -> Prop :=
| reach_refl : reachable s s
| reach_step s' s'' : reachable s s' -> sys_step s' s'' -> reachable s s''.

End steps.

(** The operations of a share follow the protocol of its lock, its flag and its permits, and what that keeps true of
    every state of the tasks that share it. *)

(** ** Operations follow the protocol *)

(** The guards of a task, apart from what it remembers. *)
Definition guards (lock flag permit spawned file : bool) (h : Held) : Prop :=
  hl_lock h = lock /\ hl_flag h = flag /\ hl_permit h = permit /\ hl_spawned h = spawned /\ hl_file_lock h = file.

Abbreviation locked lock flag permit spawned file :=
  (keeps_at lock_allowed any_held held_next (guards lock flag permit spawned file)).

Lemma bounded_locked {A} lock flag permit spawned file (p : io A) :
  locked lock flag permit spawned file p -> locked lock flag permit spawned file (run_bounded_attempt p).
Proof.
  apply keeps_bounded; [done| |].
  - intros h c r x E _. split; [done|]. cbn in *. by rewrite E.
  - intros h c r Hh _ E. cbn in *. by rewrite E.
Qed.

Lemma locked_issue lock flag permit spawned file c :
  (forall h, guards lock flag permit spawned file h -> lock_allowed h c /\ forall r, guards lock flag permit spawned file (held_next h c r)) ->
  locked lock flag permit spawned file (call c).
Proof. intros Hc. apply keeps_issue. intros h Hh. destruct (Hc h Hh) as [H1 H2]. split; [by split|auto]. Qed.

Lemma locked_call lock flag permit spawned file c : neutral c = true -> locked lock flag permit spawned file (call c).
Proof. intros Hc. apply locked_issue. intros h Hh. split; [by destruct c|]. intros r. by destruct c. Qed.

(** Calls that ask the server. *)
Lemma locked_send lock flag permit spawned file m : locked lock flag permit spawned file (call (C_SendOnCurrentSession m)).
Proof. apply locked_issue. intros h Hh. split; [done|]. by intros [r|e]. Qed.
Lemma locked_execute lock flag permit spawned file m options dependency replay :
  locked lock flag permit spawned file (call (C_ExecuteFor m options dependency replay)).
Proof. by apply locked_issue. Qed.
Lemma locked_swap lock flag permit spawned file : locked lock flag permit spawned file (call C_SwapClosed).
Proof. by apply locked_issue. Qed.

#[local] Hint Resolve bounded_locked locked_send locked_execute locked_swap : keeps.
#[local] Hint Extern 2 (keeps _ _ _ _ (call _)) => apply locked_call; reflexivity : keeps.

Abbreviation idle file := (guards false false false false file).

Lemma wait_for_reconnect_locked file timeout cancellation : locked false false false false file (wait_for_reconnect timeout cancellation).
Proof.
  intros h Hh. unfold wait_for_reconnect. cbn. split; [done|]. intros g _. split; [done|]. intros recovering _. cbn.
  destruct recovering; cbn; [|split; [done|]; intros [session|e] _; cbn; [|done]; destruct (bool_decide _); cbn; [done|]].
  all: destruct Hh as (H1 & H2 & H3 & H4 & H5); split; [done|]; intros [|] _; cbn; [|done].
  all: split; [done|]; intros t _; cbn; (split; [|by intros r _]).
  all: repeat split; cbn; try done; by left.
Qed.

Lemma execute_locked file m options dependency replay : locked false false false false file (execute_for_with_replay m options dependency replay).
Proof.
  unfold execute_for_with_replay, tree_prepare. keeping.
Qed.

Lemma disconnect_locked file : locked false false false false file disconnect.
Proof.
  unfold disconnect, send_disconnect. keeping.
Qed.

(** ** Reconnecting *)

(** What an attempt returns was validated. *)
Definition attempt_ok (permit spawned : bool) (conn_info : Settings) (h : Held) (r : result ShareError TreeGeneration) : Prop :=
  guards true true permit spawned false h /\ conn_info ∈ hl_settings h /\
  forall g, r = Ok g -> validated (hl_answers h) (hl_settings h) g.

Abbreviation lock_follows I := (follows (stable awaits I lock_allowed) any_held held_next).

Lemma reconnect_attempt_follows name conn_info session permit spawned h :
  guards true true permit spawned false h -> conn_info ∈ hl_settings h ->
  lock_follows (fun h => guards true true permit spawned false h /\ conn_info ∈ hl_settings h) h
    (reconnect_attempt name conn_info session) (attempt_ok permit spawned conn_info).
Proof.
  intros Hh Hc. unfold reconnect_attempt. cbn. split; [done|]. intros [r|e] _; cbn; [|by split_and!].
  destruct (to_treeconnect r) as [content|e] eqn:E1; cbn; [|by split_and!].
  destruct (validate_tree_connect content conn_info) as [info|e] eqn:E2; cbn; [|by split_and!].
  destruct (hd_tree_id (ps_header (cp_message r))) as [tree_id|] eqn:E3; cbn; [|by split_and!].
  split; [done|]. intros [object|e] _; cbn; [|by split_and!]. split_and!; [done|done|].
  intros g [= <-]. exists r, content, conn_info. split_and!; [by left|done..].
Qed.

Lemma reconnect_attempts_follows name conn_info session permit spawned n last h :
  guards true true permit spawned false h -> conn_info ∈ hl_settings h ->
  follows lock_allowed any_held held_next h (reconnect_attempts name conn_info session n last)
    (attempt_ok permit spawned conn_info).
Proof.
  revert h last. induction n as [|n IH]; intros h last Hh Hc; cbn [reconnect_attempts]; [by split_and!|].
  apply (follows_then _ _ _ _ _ _ (fun h r => guards true true permit spawned false h /\ conn_info ∈ hl_settings h /\
    forall g, r = Some (Ok g) -> validated (hl_answers h) (hl_settings h) g)).
  - eapply (follows_allow (stable awaits (fun h => guards true true permit spawned false h /\ conn_info ∈ hl_settings h) lock_allowed));
      [by intros ? ? []|].
    apply (follows_bounded (ans := answer) awaits C_Race (fun c r => r) lock_allowed any_held held_next)
      with (P := attempt_ok permit spawned conn_info).
    + done.
    + intros h' c r x E _. split; [done|]. cbn in *. by rewrite E.
    + intros h' a (H1 & H2 & H3). split_and!; [done|done|]. intros g [= ->]. by apply H3.
    + intros h' c r [H1 H2] _ E. cbn in *. rewrite E. by split_and!.
    + by apply reconnect_attempt_follows.
  - intros h' [[g|e]|] (H1 & H2 & H3); [|by apply IH..]. split_and!; [done|done|]. intros g' [= <-]. by apply H3.
Qed.

Lemma reconnect_recovering_follows name session permit spawned h :
  guards true true permit spawned false h ->
  follows lock_allowed any_held held_next h (reconnect_recovering name session) (fun h _ => guards true true permit spawned false h).
Proof.
  intros Hh. unfold reconnect_recovering. apply follows_call; [done|]. intros conn_info.
  eapply follows_try; [apply reconnect_attempts_follows; [done|by left]| |].
  - intros h' g (E1 & E2 & E3). apply follows_call; [done|]. intros [|]; [done|]. apply follows_call; [|done].
    destruct E1 as (F1 & F2 & F3 & F4 & F5). split; [done|]. by apply E3.
  - by intros h' e (E1 & E2 & E3).
Qed.

Lemma reconnect_follows name permit spawned h :
  guards false false permit spawned false h ->
  follows lock_allowed any_held held_next h (reconnect name) (fun h _ => guards false false permit spawned false h).
Proof.
  intros (H1 & H2 & H3 & H4 & H5). unfold reconnect. apply follows_call; [done|]. intros [].
  apply (follows_then _ _ _ _ _ _ (fun h _ => guards true false permit spawned false h));
    [|intros h' r (E1 & E2 & E3 & E4 & E5); by apply follows_call].
  unfold reconnect_owned. apply follows_call; [done|]. intros [|]; [done|]. apply follows_call; [done|]. intros previous.
  split; [done|]. intros [session|e] _; [|done]. cbn [mbind async_bind async_bind_def issue]. case_bool_decide; [done|].
  apply follows_call; [done|]. intros [].
  apply (follows_then _ _ _ _ _ _ (fun h _ => guards true true permit spawned false h));
    [by apply reconnect_recovering_follows|intros h' r (E1 & E2 & E3 & E4 & E5); by apply follows_call].
Qed.

Lemma reconnect_task_follows name :
  follows lock_allowed any_held held_next (nothing_held true O) (reconnect_task name)
    (fun h _ => guards false false false true false h).
Proof.
  eapply follows_then; [by apply (reconnect_follows name true true)|].
  intros h r (H1 & H2 & H3 & H4 & H5). cbn. split; [done|]. by intros _ _.
Qed.

#[export] Instance lock_discipline file : ShareDiscipline lock_allowed any_held held_next (idle file).
Proof.
  split.
  - intros A p. apply bounded_locked.
  - apply locked_call.
  - apply wait_for_reconnect_locked.
  - intros m options dependency replay _ _. apply execute_locked.
  - apply disconnect_locked.
Qed.

Lemma plain {A} I (p : async Call answer A) : keeps_at lock_allowed any_held held_next I p -> keeps lock_allowed any_held held_next I p.
Proof. intros H h Hh. eapply follows_allow; [|by apply H]. by intros ? ? []. Qed.

(** A resource is brought up to date under its lock, which is not taken twice. *)
#[export] Instance lock_files : FileDiscipline lock_allowed any_held held_next (idle false).
Proof.
  intros h. unfold ensure_current. apply keeps_try; [apply plain, current_share_object_keeps|]. intros share.
  apply keeps_then; [by apply plain, locked_call|]. intros g. destruct (belongs_to g share); [apply keeps_ret|].
  destruct (rh_durable_granted h) as [grant|]; [|apply keeps_ret].
  intros held (H1 & H2 & H3 & H4 & H5). apply follows_call; [by repeat split|]. intros [].
  apply (follows_then _ _ _ _ _ _ (fun held _ => idle true held)); [|intros held' r (E1 & E2 & E3 & E4 & E5); apply follows_call; [done|]; by intros []].
  by apply (plain (idle true) _ (durable_attempts_keeps (I := idle true) h grant _ 1 None)).
Qed.

(** Every operation that a task starts with follows the protocol and ends with nothing held. *)
Lemma task_follows name p file :
  share_operation p \/ p = reconnect name ->
  follows lock_allowed any_held held_next (nothing_held false file) p (fun h _ => guards false false false false false h).
Proof.
  intros [Hp| ->]; [by apply (operation_keeps (I := idle false))|by apply reconnect_follows].
Qed.

(** ** What a call does to the guards and to the memory *)

Definition one (b : bool) : Z := if b then 1 else 0.

Record call_effect (t : nat) (s : System) (h h' : Held) (context : TreeContext) (holder : option nat) : Prop := {
  ce_lock : (hl_lock h' = hl_lock h /\ holder = sy_holder s) \/
            (hl_lock h = false /\ hl_lock h' = true /\ sy_holder s = None /\ holder = Some t /\ hl_flag h' = hl_flag h) \/
            (hl_lock h = true /\ hl_lock h' = false /\ holder = None /\ hl_flag h' = false /\ hl_flag h = false);
  ce_flag : (hl_flag h' = hl_flag h /\ th_recovering context = th_recovering (sy_context s)) \/
            (hl_flag h' = negb (hl_flag h) /\ hl_lock h = true /\ hl_lock h' = true /\ th_recovering context = hl_flag h');
  ce_slots : th_recovery_slots context + one (hl_permit h') = th_recovery_slots (sy_context s) + one (hl_permit h);
  ce_nonneg : 0 <= th_recovery_slots (sy_context s) -> 0 <= th_recovery_slots context;
  ce_spawned : hl_spawned h' = hl_spawned h;
  ce_children : hl_children h' = hl_children h;
  ce_generation : th_generation context = th_generation (sy_context s) \/
                  validated (hl_answers h) (hl_settings h) (th_generation context);
  ce_closed : th_closed (sy_context s) = true -> th_closed context = true;
  ce_file : hl_file h' = hl_file h;
  ce_file_lock : hl_file_lock h' = true -> hl_file_lock h = true \/ file_free s (task_file s t)
}.

Lemma call_step_effect t s h c r context holder :
  lock_allowed h c -> call_step t s c r context holder -> call_effect t s h (held_next h c r) context holder.
Proof.
  induction c; cbn [lock_allowed call_step held_next answer] in *; intros Ha Hs.
  all: try (destruct r; cbn in Hs).
  all: repeat match goal with H : _ /\ _ |- _ => destruct H end; subst; try done.
  all: try (by auto).
  all: try (split; cbn; by auto).
  - split; cbn; auto. right. split_and!; [by destruct b, (hl_flag h)|done..].
  - split; cbn; auto. right. left. auto.
  - split; cbn; auto. right. right. auto.
  - match goal with E : true = _ |- _ => symmetry in E; apply bool_decide_eq_true in E end.
    split; cbn; auto; [|lia]. match goal with E : hl_permit _ = _ |- _ => rewrite E end. cbn. lia.
  - split; cbn; auto. match goal with E : hl_permit _ = _ |- _ => rewrite E end. done.
  - split; cbn; auto; [|lia]. match goal with E : hl_permit _ = _ |- _ => rewrite E end. cbn. lia.
Qed.

(** ** The invariant of the system *)

Definition permits (tasks : gmap nat Task) : Z := map_sum (fun task => one (hl_permit (tk_held task))) tasks.

Definition task_ok (task : Task) : Prop :=
  follows lock_allowed any_held held_next (tk_held task) (tk_program task)
    (fun h _ => guards false false false (hl_spawned (tk_held task)) false h).

(** What the memory says of the guards that a task holds. *)
Record task_inv (s : System) (t : nat) (task : Task) : Prop := {
  ti_ok : task_ok task;
  ti_lock : hl_lock (tk_held task) = true -> sy_holder s = Some t;
  ti_flag : hl_flag (tk_held task) = true -> hl_lock (tk_held task) = true /\ th_recovering (sy_context s) = true;
  ti_id : (t < sy_next s)%nat;
  ti_children : forall c, c ∈ hl_children (tk_held task) ->
    (c < sy_next s)%nat /\ forall task', sy_tasks s !! c = Some task' -> hl_spawned (tk_held task') = true;
  ti_answers : hl_answers (tk_held task) ⊆ sy_answers s;
  ti_settings : hl_settings (tk_held task) ⊆ sy_settings s
}.

(** The lock of a resource is held by one task at most. *)
Definition files_exclusive (tasks : gmap nat Task) : Prop :=
  forall t t' task task', tasks !! t = Some task -> tasks !! t' = Some task' ->
    hl_file_lock (tk_held task) = true -> hl_file_lock (tk_held task') = true ->
    hl_file (tk_held task) = hl_file (tk_held task') -> t = t'.

Record sys_inv (max : Z) (s : System) : Prop := {
  si_tasks : forall t task, sy_tasks s !! t = Some task -> task_inv s t task;
  si_holder : forall t, sy_holder s = Some t -> exists task, sy_tasks s !! t = Some task /\ hl_lock (tk_held task) = true;
  si_recovering : th_recovering (sy_context s) = true ->
    exists t task, sy_tasks s !! t = Some task /\ hl_flag (tk_held task) = true;
  si_slots : th_recovery_slots (sy_context s) + permits (sy_tasks s) = max;
  si_nonneg : 0 <= th_recovery_slots (sy_context s);
  si_finished : forall t, is_Some (sy_finished s !! t) -> (t < sy_next s)%nat;
  si_generation : validated (sy_answers s) (sy_settings s) (th_generation (sy_context s));
  si_files : files_exclusive (sy_tasks s)
}.

Lemma files_kept (tasks tasks' : gmap nat Task) :
  files_exclusive tasks ->
  (forall t task', tasks' !! t = Some task' -> hl_file_lock (tk_held task') = true ->
     exists task, tasks !! t = Some task /\ hl_file_lock (tk_held task) = true /\ hl_file (tk_held task) = hl_file (tk_held task')) ->
  files_exclusive tasks'.
Proof.
  intros He H t t' task task' Ht Ht' L L' Hf. destruct (H _ _ Ht L) as (x & Hx & Lx & Fx).
  destruct (H _ _ Ht' L') as (y & Hy & Ly & Fy). eapply He; [exact Hx|exact Hy|done|done|congruence].
Qed.

Lemma validated_mono answers answers' settings settings' g :
  answers ⊆ answers' -> settings ⊆ settings' -> validated answers settings g -> validated answers' settings' g.
Proof. intros H1 H2 (r & c & i & Hr & Hi & H). exists r, c, i. auto. Qed.

(** Holding the lock or the flag is exclusive. *)
Lemma lock_unique max s t t' task task' :
  sys_inv max s -> sy_tasks s !! t = Some task -> sy_tasks s !! t' = Some task' ->
  hl_lock (tk_held task) = true -> hl_lock (tk_held task') = true -> t = t'.
Proof.
  intros I H H' L L'. pose proof (ti_lock _ _ _ (si_tasks _ _ I _ _ H) L).
  pose proof (ti_lock _ _ _ (si_tasks _ _ I _ _ H') L'). congruence.
Qed.

Lemma system_new_inv context answers settings :
  th_recovering context = false -> 0 <= th_recovery_slots context -> validated answers settings (th_generation context) ->
  sys_inv (th_recovery_slots context) (system_new context answers settings).
Proof.
  intros H1 H2 H3. split; cbn; try done.
  - rewrite H1. done.
  - unfold permits. rewrite map_sum_empty. lia.
  - by intros t [? [=]].
Qed.

Lemma start_inv name max s p file :
  share_operation p \/ p = reconnect name -> sys_inv max s ->
  sys_inv max (s <| sy_tasks := <[sy_next s := mkTask (nothing_held false file) p]> (sy_tasks s) |> <| sy_next := S (sy_next s) |>).
Proof.
  intros Hp [I1 I2 I3 I4 I5 I6 I7 I8].
  assert (Hfresh : sy_tasks s !! sy_next s = None).
  { destruct (sy_tasks s !! sy_next s) as [task|] eqn:E; [|done]. pose proof (ti_id _ _ _ (I1 _ _ E)). lia. }
  split; cbn; try done.
  - intros t task [[<- <-]|[Hne Hl]]%lookup_insert_Some.
    + split; cbn; try done; [by apply (task_follows name)|lia|by intros c Hc%elem_of_nil|by intros c Hc%elem_of_nil..].
    + destruct (I1 _ _ Hl) as [J1 J2 J3 J4 J5 J6 J7]. split; cbn; try done; [lia|].
      intros c Hc. destruct (J5 c Hc) as [Hlt Hs]. split; [lia|].
      intros task' [[<- <-]|[_ Hl']]%lookup_insert_Some; [lia|by apply Hs].
  - intros t Ht. destruct (I2 t Ht) as (task & Hl & H). exists task. rewrite lookup_insert_ne by congruence. done.
  - intros Hr. destruct (I3 Hr) as (t & task & Hl & H). exists t, task. rewrite lookup_insert_ne by congruence. done.
  - unfold permits in *. rewrite map_sum_insert by done. cbn. lia.
  - intros t Ht. specialize (I6 t Ht). lia.
  - apply (files_kept _ _ I8). intros t task [[<- <-]|[_ Hl]]%lookup_insert_Some; [done|]. by exists task.
Qed.

Lemma return_inv max s t held r :
  sy_tasks s !! t = Some (mkTask held (a_ret r)) -> sys_inv max s ->
  sys_inv max (s <| sy_tasks := delete t (sy_tasks s) |> <| sy_finished := <[t := r]> (sy_finished s) |>).
Proof.
  intros Ht [I1 I2 I3 I4 I5 I6 I7 I8]. destruct (I1 _ _ Ht) as [(G1 & G2 & G3 & G4 & G5) J2 J3 J4 J5 J6 J7]. cbn in *. split; cbn; try done.
  - intros t' task [Hne Hl]%lookup_delete_Some. destruct (I1 _ _ Hl) as [K1 K2 K3 K4 K5 K6 K7]. split; cbn; try done.
    intros c Hc. destruct (K5 c Hc) as [Hlt Hs]. split; [done|]. intros task' [_ Hl']%lookup_delete_Some. by apply Hs.
  - intros t' Ht'. destruct (I2 t' Ht') as (task & Hl & H). exists task. rewrite lookup_delete_ne; [done|].
    intros <-. rewrite Ht in Hl. injection Hl as <-. cbn in H. congruence.
  - intros Hr. destruct (I3 Hr) as (t' & task & Hl & H). exists t', task. rewrite lookup_delete_ne; [done|].
    intros <-. rewrite Ht in Hl. injection Hl as <-. cbn in H. congruence.
  - unfold permits in *. rewrite (map_sum_delete _ _ _ _ Ht) in I4. cbn in I4. rewrite G3 in I4. cbn in I4. lia.
  - intros t' [x [[<- <-]|[_ Hl]]%lookup_insert_Some]; [done|]. apply I6. eauto.
  - apply (files_kept _ _ I8). intros t' task [_ Hl]%lookup_delete_Some. by exists task.
Qed.

#[local] Arguments drop_guards : simpl never.

Lemma drop_inv max s t held p :
  sy_tasks s !! t = Some (mkTask held p) -> sys_inv max s ->
  sys_inv max (s <| sy_context := (drop_guards held (sy_context s) (sy_holder s)).1 |>
                 <| sy_holder := (drop_guards held (sy_context s) (sy_holder s)).2 |>
                 <| sy_tasks := delete t (sy_tasks s) |>).
Proof.
  intros Ht I. pose proof (fun t' task' => lock_unique max s t t' _ task' I Ht) as Huniq.
  destruct I as [I1 I2 I3 I4 I5 I6 I7 I8]. destruct (I1 _ _ Ht) as [J1 J2 J3 J4 J5 J6 J7]. cbn in *.
  assert (Hr : th_recovering (drop_guards held (sy_context s) (sy_holder s)).1
               = if hl_flag held then false else th_recovering (sy_context s))
    by (unfold drop_guards; by destruct (hl_flag held), (hl_permit held)).
  assert (Hs : th_recovery_slots (drop_guards held (sy_context s) (sy_holder s)).1
               = th_recovery_slots (sy_context s) + one (hl_permit held))
    by (unfold drop_guards; destruct (hl_flag held), (hl_permit held); cbn; lia).
  assert (Hg : th_generation (drop_guards held (sy_context s) (sy_holder s)).1 = th_generation (sy_context s))
    by (unfold drop_guards; by destruct (hl_flag held), (hl_permit held)).
  assert (Hh : (drop_guards held (sy_context s) (sy_holder s)).2 = if hl_lock held then None else sy_holder s) by done.
  split; cbn; try done.
  - intros t' task [Hne Hl]%lookup_delete_Some. destruct (I1 _ _ Hl) as [K1 K2 K3 K4 K5 K6 K7]. split; cbn; try done.
    + intros L. rewrite Hh. destruct (hl_lock held) eqn:E; [|by apply K2]. by destruct Hne; apply (Huniq _ _ Hl).
    + intros F. destruct (K3 F) as [L R]. split; [done|]. rewrite Hr. destruct (hl_flag held) eqn:E; [|done].
      destruct Hne. apply (Huniq _ _ Hl); [by apply J3|done].
    + intros c Hc. destruct (K5 c Hc) as [Hlt Hsp]. split; [done|]. intros task' [_ Hl']%lookup_delete_Some. by apply Hsp.
  - intros t'. rewrite Hh. destruct (hl_lock held) eqn:E; [done|]. intros Ht'. destruct (I2 t' Ht') as (task & Hl & H). exists task.
    rewrite lookup_delete_ne; [done|]. intros <-. rewrite Ht in Hl. injection Hl as <-. cbn in H. congruence.
  - rewrite Hr. destruct (hl_flag held) eqn:E; [done|]. intros R. destruct (I3 R) as (t' & task & Hl & H). exists t', task.
    rewrite lookup_delete_ne; [done|]. intros <-. rewrite Ht in Hl. injection Hl as <-. cbn in H. congruence.
  - unfold permits in *. rewrite (map_sum_delete _ _ _ _ Ht) in I4. cbn in I4. lia.
  - unfold one in Hs. destruct (hl_permit held); lia.
  - by rewrite Hg.
  - apply (files_kept _ _ I8). intros t' task [_ Hl]%lookup_delete_Some. by exists task.
Qed.

Lemma connect_answers_next h c r : hl_answers (held_next h c r) = connect_answers c r ++ hl_answers h.
Proof. induction c; cbn in *; try done; by destruct r. Qed.
Lemma loaded_settings_next h c r : hl_settings (held_next h c r) = loaded_settings c r ++ hl_settings h.
Proof. induction c; cbn in *; try done; by destruct r. Qed.

(** A task takes the lock of its resource only when no other has it. *)
Lemma call_files s t held (c : Call) (k : answer c -> io unit) held' p :
  sy_tasks s !! t = Some (mkTask held (a_call c k)) -> files_exclusive (sy_tasks s) -> hl_file held' = hl_file held ->
  (hl_file_lock held' = true -> hl_file_lock held = true \/ file_free s (task_file s t)) ->
  files_exclusive (<[t := mkTask held' p]> (sy_tasks s)).
Proof.
  intros Ht He Hf Hl.
  assert (Hother : forall t' task, t <> t' -> sy_tasks s !! t' = Some task -> hl_file_lock held' = true ->
    hl_file_lock (tk_held task) = true -> hl_file held' = hl_file (tk_held task) -> False).
  { intros t' task Hne Ht' L L' F. destruct (Hl L) as [L0|Hfree]; [apply Hne; by eapply (He t t'); [done|done|..|by rewrite <- F, Hf]|].
    apply (Hfree _ _ Ht' L'). unfold task_file. rewrite Ht. cbn. congruence. }
  intros t1 t2 task1 task2 [[<- <-]|[N1 H1]]%lookup_insert_Some [[<- <-]|[N2 H2]]%lookup_insert_Some L1 L2 F; cbn in *.
  - done.
  - exfalso. by apply (Hother t2 task2).
  - exfalso. by apply (Hother t1 task1).
  - by eapply He.
Qed.

Lemma call_inv max s t held c k r context holder :
  sy_tasks s !! t = Some (mkTask held (a_call c k)) -> call_step t s c r context holder -> sys_inv max s ->
  sys_inv max (s <| sy_context := context |> <| sy_holder := holder |>
                 <| sy_tasks := <[t := mkTask (held_next held c r) (k r)]> (sy_tasks s) |>
                 <| sy_answers := connect_answers c r ++ sy_answers s |>
                 <| sy_settings := loaded_settings c r ++ sy_settings s |>).
Proof.
  intros Ht Hc I. pose proof (fun t' task' => lock_unique max s t t' _ task' I Ht) as Huniq.
  destruct I as [I1 I2 I3 I4 I5 I6 I7 I8]. destruct (I1 _ _ Ht) as [[Ha Hk] J2 J3 J4 J5 J6 J7]. cbn [tk_held tk_program] in *.
  destruct (call_step_effect _ _ _ _ _ _ _ Ha Hc) as [E1 E2 E3 E4 E5 E6 E7 _ E8 E9].
  assert (Hsp : forall t' task', <[t := mkTask (held_next held c r) (k r)]> (sy_tasks s) !! t' = Some task' ->
            exists task, sy_tasks s !! t' = Some task /\ hl_spawned (tk_held task) = hl_spawned (tk_held task')).
  { intros t' task' [[<- <-]|[_ Hl]]%lookup_insert_Some; [|by eauto]. exists (mkTask held (a_call c k)). by split. }
  split; cbn; try done.
  - intros t' task [[<- <-]|[Hne Hl]]%lookup_insert_Some.
    + split; cbn.
      * unfold task_ok. cbn. rewrite E5. by apply Hk.
      * destruct E1 as [[-> ->]|[(_ & _ & _ & -> & _)|(_ & -> & _)]]; [done|done|done].
      * intros F. destruct E2 as [[F' R']|(F' & L1 & L2 & R')].
        -- rewrite F' in F. destruct (J3 F) as [L R]. rewrite R'. split; [|done].
           destruct E1 as [[-> _]|[(L' & _)|(_ & _ & _ & F1 & _)]]; congruence.
        -- by rewrite R'.
      * done.
      * intros c0. rewrite E6. intros Hin. destruct (J5 c0 Hin) as [Hlt Hs]. split; [done|].
        intros task' Hl. destruct (Hsp _ _ Hl) as (task0 & Hl0 & <-). by apply Hs.
      * rewrite connect_answers_next. set_solver.
      * rewrite loaded_settings_next. set_solver.
    + destruct (I1 _ _ Hl) as [K1 K2 K3 K4 K5 K6 K7]. split; cbn; [done| | |done| |set_solver|set_solver].
      * intros L. destruct E1 as [[_ ->]|[(_ & _ & Hn & _ & _)|(L1 & _)]]; [by apply K2|rewrite K2 in Hn; done|].
        by destruct Hne; apply (Huniq _ _ Hl).
      * intros F. destruct (K3 F) as [L R]. split; [done|]. destruct E2 as [[_ ->]|(_ & L1 & _)]; [done|].
        by destruct Hne; apply (Huniq _ _ Hl).
      * intros c0 Hin. destruct (K5 c0 Hin) as [Hlt Hs]. split; [done|].
        intros task' Hl'. destruct (Hsp _ _ Hl') as (task0 & Hl0 & <-). by apply Hs.
  - intros t' Ht'. destruct E1 as [[E ->]|[(_ & L & _ & -> & _)|(_ & _ & -> & _)]]; [|injection Ht' as <-|done].
    + destruct (I2 t' Ht') as (task & Hl & H). destruct (decide (t = t')) as [<-|Hne].
      * rewrite Ht in Hl. injection Hl as <-. eexists. rewrite lookup_insert_eq. split; [done|]. cbn in *. congruence.
      * exists task. by rewrite lookup_insert_ne.
    + eexists. rewrite lookup_insert_eq. by split.
  - intros R. destruct E2 as [[F R']|(F & L1 & L2 & R')].
    + rewrite R' in R. destruct (I3 R) as (t' & task & Hl & H). destruct (decide (t = t')) as [<-|Hne].
      * rewrite Ht in Hl. injection Hl as <-. eexists t, _. rewrite lookup_insert_eq. split; [done|]. cbn in *. congruence.
      * exists t', task. by rewrite lookup_insert_ne.
    + eexists t, _. rewrite lookup_insert_eq. split; [done|]. cbn. congruence.
  - unfold permits in *. rewrite (map_sum_update _ _ _ _ _ Ht). cbn. lia.
  - auto.
  - destruct E7 as [->|E7].
    + eapply validated_mono; [..|exact I7]; set_solver.
    + eapply validated_mono; [..|exact E7]; set_solver.
  - by apply (call_files s t held c k).
Qed.

Lemma spawn_inv name max s t held k :
  sy_tasks s !! t = Some (mkTask held (a_call C_SpawnReconnect k)) -> sys_inv max s ->
  sys_inv max (s <| sy_tasks := <[sy_next s := mkTask (nothing_held true O) (reconnect_task name)]>
                      (<[t := mkTask (held_next held C_SpawnReconnect (sy_next s)) (k (sy_next s))]> (sy_tasks s)) |>
                 <| sy_next := S (sy_next s) |>).
Proof.
  intros Ht [I1 I2 I3 I4 I5 I6 I7 I8]. destruct (I1 _ _ Ht) as [[[Ha Hs] Hk] J2 J3 J4 J5 J6 J7].
  cbn [tk_held tk_program] in *.
  assert (Hfresh : sy_tasks s !! sy_next s = None).
  { destruct (sy_tasks s !! sy_next s) as [task|] eqn:E; [|done]. pose proof (ti_id _ _ _ (I1 _ _ E)). lia. }
  assert (Hne : t ≠ sy_next s) by congruence.
  assert (Hchild : forall c, (forall task, sy_tasks s !! c = Some task -> hl_spawned (tk_held task) = true) ->
    forall task', <[sy_next s := mkTask (nothing_held true O) (reconnect_task name)]>
                    (<[t := mkTask (held_next held C_SpawnReconnect (sy_next s)) (k (sy_next s))]> (sy_tasks s)) !! c = Some task' ->
    hl_spawned (tk_held task') = true).
  { intros c Hc task' [[<- <-]|[_ [[<- <-]|[_ Hl]]%lookup_insert_Some]]%lookup_insert_Some; [done| |by apply Hc].
    by apply (Hc _ Ht). }
  split; cbn; try done.
  - intros t' task [[<- <-]|[Hne1 [[<- <-]|[Hne2 Hl]]%lookup_insert_Some]]%lookup_insert_Some.
    + split; cbn; try done; [by apply reconnect_task_follows|lia|by intros c Hc%elem_of_nil..].
    + split; cbn; try done; [by apply (Hk (sy_next s))|lia|].
      intros c [->|Hc]%elem_of_cons.
      * split; [lia|]. apply Hchild. by rewrite Hfresh.
      * destruct (J5 c Hc) as [Hlt Hsp]. split; [lia|]. by apply Hchild.
    + destruct (I1 _ _ Hl) as [K1 K2 K3 K4 K5 K6 K7]. split; cbn; try done; [lia|].
      intros c Hc. destruct (K5 c Hc) as [Hlt Hsp]. split; [lia|]. by apply Hchild.
  - intros t' Ht'. destruct (I2 t' Ht') as (task & Hl & H). rewrite lookup_insert_ne by congruence.
    destruct (decide (t = t')) as [<-|Hne']; [|by exists task; rewrite lookup_insert_ne].
    rewrite Ht in Hl. injection Hl as <-. eexists. rewrite lookup_insert_eq. by split.
  - intros R. destruct (I3 R) as (t' & task & Hl & H).
    destruct (decide (t = t')) as [<-|Hne'].
    + rewrite Ht in Hl. injection Hl as <-. eexists t, _. rewrite lookup_insert_ne, lookup_insert_eq by done. by split.
    + exists t', task. rewrite !lookup_insert_ne by congruence. done.
  - unfold permits in *. rewrite map_sum_insert by (rewrite lookup_insert_ne by done; done).
    rewrite (map_sum_update _ _ _ _ _ Ht). cbn [tk_held held_next nothing_held hl_permit one]. rewrite Ha. cbn. lia.
  - intros t' Ht'. specialize (I6 t' Ht'). lia.
  - apply (files_kept _ _ I8). intros t' task' [[<- <-]|[_ [[<- <-]|[_ Hl]]%lookup_insert_Some]]%lookup_insert_Some; cbn; [done| |by exists task'].
    intros L. eexists. split; [exact Ht|]. by split.
Qed.

Lemma sys_step_inv name max s s' : sys_step name s s' -> sys_inv max s -> sys_inv max s'.
Proof.
  intros Hs I. destruct Hs as [p file Hp|t held c k r context holder Ht Hc|t held k Ht|t held r Ht|t held c k Ht _].
  - by apply (start_inv name).
  - by eapply call_inv.
  - by eapply spawn_inv.
  - by eapply return_inv.
  - by eapply drop_inv.
Qed.

Lemma system_reachable_inv name max s s' : reachable name s s' -> sys_inv max s -> sys_inv max s'.
Proof. induction 1; [done|]. intros I. eapply sys_step_inv; eauto. Qed.

(** Closing is final. *)
Lemma reachable_closed name max s s' :
  reachable name s s' -> sys_inv max s -> th_closed (sy_context s) = true -> th_closed (sy_context s') = true.
Proof.
  induction 1 as [|s' s'' Hr IH Hs]; [done|]. intros I Hc. specialize (IH I Hc).
  pose proof (system_reachable_inv _ _ _ _ Hr I) as I'.
  destruct Hs as [p file Hp|t held c k r context holder Ht Hs|t held k Ht|t held r Ht|t held c k Ht _]; cbn; try done.
  - destruct (si_tasks _ _ I' _ _ Ht) as [[Ha _] _ _ _ _ _ _]. by apply (ce_closed _ _ _ _ _ _ (call_step_effect _ _ _ _ _ _ _ Ha Hs)).
  - unfold drop_guards. by destruct (hl_flag held), (hl_permit held).
Qed.
