(* ===== verification/TreeTheorems.v ===== *)
(** What holds of a share, whatever tasks use it: its traffic is protected, its shared state stays consistent, and its
    tasks do not wait for each other in a circle. *)
From S2P Require Import Prelude Effects Async Clock Reducer ObjectState Recovery Bytes Header Operation Crypto Dialects.
From S2P Require Import Session Stream Codec Security CreateContexts Fsctl TreeConnect Messages Queries Content Tree.
From S2P Require Import Resource TreeProps TreeSystem.
Local Open Scope Z_scope.
Local Open Scope async_scope.

(** ** Traffic *)

Fixpoint unraced (c : Call) : Call := match c with C_Race c => unraced c | c => c end.

(** The generations that a run has loaded. *)
Definition loaded (events : list (event Call answer)) : list TreeGeneration := after learn [] events.

Lemma any_answer_all known events : possible_all any_answer learn known events.
Proof. revert known. by induction events as [|e events IH]; intros known; cbn; [|split]. Qed.

Definition request_allowed (known : list TreeGeneration) (c : Call) : Prop :=
  match unraced c with
  | C_ExecuteFor m _ _ _ => exists g, g ∈ known /\ protected_for g m
  | C_SendRecv m | C_SendOnCurrentSession m => exists name, m = request_new (Rq_TreeConnect (tree_connect_new name))
  | _ => True
  end.

Lemma sends_allowed_unraced known c : sends_allowed known c -> request_allowed known c.
Proof. by induction c. Qed.

(** A response that belongs to the tree of [g], encrypted when the share demands it. *)
Definition accepted_for (g : TreeGeneration) (incoming : Response) : Prop :=
  (flag_async_command (hd_flags (ps_header (cp_message incoming))) = false ->
     default 0 (hd_tree_id (ps_header (cp_message incoming))) = tg_tree_id g) /\
  (sh_encrypt_data (ti_share_flags (tg_info g)) = true -> mf_encrypted (cp_form incoming) = true).

Lemma check_response_accepts g incoming : check_response g incoming = Ok tt -> accepted_for g incoming.
Proof.
  unfold check_response, accepted_for. destruct (flag_async_command _) eqn:Ea; cbn.
  - destruct (negb _ && _) eqn:E; [done|]. intros _. split; [done|]. intros Hs. rewrite Hs in E.
    by destruct (mf_encrypted _).
  - case_bool_decide as Ht; [done|]. destruct (negb _ && _) eqn:E; [done|]. intros _.
    split; [intros _; destruct (decide (default 0 (hd_tree_id (ps_header (cp_message incoming))) = tg_tree_id g)); [done|contradiction]|].
    intros Hs. rewrite Hs in E. by destruct (mf_encrypted _).
Qed.

Lemma execute_accepts m options dependency replay known :
  cmd_security m = None -> flag_async_command (hd_flags (cmd_header m)) = false ->
  follows (stable awaits (fun _ => True) sends_allowed) any_answer learn known
    (execute_for_with_replay m options dependency replay)
    (fun known r => forall incoming, r = Ok incoming -> exists g, g ∈ known /\ accepted_for g incoming).
Proof.
  intros Hs Hf. unfold execute_for_with_replay.
  apply (follows_try _ _ _ _ _ _ (fun known r => match r with Ok (m', g) => g ∈ known /\ protected_for g m' | Err _ => True end));
    [by apply tree_prepare_follows| |done].
  intros known' [m' g] [Hin Hg]. cbn. split; [by split; [exists g|]|]. intros [r|e] _; cbn; [|done].
  destruct (check_response g r) as [[]|e] eqn:E; cbn; [|done]. intros incoming [= <-]. exists g. split; [done|].
  by apply check_response_accepts.
Qed.

(** C8: what is sent and what is accepted on a share. Whatever the environment answers, each request that an
    operation of the share or a reconnect sends carries the tree id of a generation that was published before,
    and is encrypted when that generation's share demands encryption; outside of a tree nothing but a
    TREE_CONNECT is sent. A response is only given to a caller when it carries the tree id of such a
    generation (unless it is asynchronous) and was encrypted when the share demands it. *)
Theorem share_traffic_is_protected :
  (forall p events o before c r after,
     share_operation p \/ (exists name, p = reconnect name) ->
     runs p events o -> events = before ++ Ev c r :: after -> request_allowed (loaded before) c) /\
  (forall m options dependency replay events incoming,
     cmd_security m = None -> flag_async_command (hd_flags (cmd_header m)) = false ->
     runs (execute_for_with_replay m options dependency replay) events (Some (Ok incoming)) ->
     exists g, g ∈ loaded events /\ accepted_for g incoming).
Proof.
  split.
  - intros p events o before c r after Hp Hr He.
    assert (Hf : follows sends_allowed any_answer learn [] p (fun _ _ => True)).
    { destruct Hp as [Hp|[name ->]]; [by apply (operation_keeps (I := fun _ => True))|].
      eapply follows_allow; [|by apply reconnect_sends]. by intros ? ? []. }
    apply sends_allowed_unraced. exact (follows_allowed _ _ _ _ _ _ _ _ _ _ _ Hf Hr (any_answer_all _ _) He).
  - intros m options dependency replay events incoming Hs Hf Hr.
    exact (follows_returns _ _ _ _ _ _ _ _ (execute_accepts m options dependency replay [] Hs Hf) Hr (any_answer_all _ _) _ eq_refl).
Qed.

(** ** The state of a share *)

(** The answers to the TREE_CONNECT of [Tree::connect]. *)
Definition sent_answers (events : list (event Call answer)) : list Response :=
  flat_map (fun e => match e with Ev (C_SendRecv _) (Ok r) => [r] | _ => [] end) events.

Lemma tree_connect_context name conn_info events context :
  runs (tree_connect name conn_info) events (Some (Ok context)) ->
  th_recovering context = false /\ th_closed context = false /\
  validated (sent_answers events) [conn_info] (th_generation context).
Proof.
  unfold tree_connect. cbn. intros [[_ [=]]|(r & events1 & -> & H)]. cbn. destruct r as [r|e]; [|by destruct H as [[_ [=]]|[_ [=]]]].
  cbn in *. destruct (to_treeconnect r) as [content|e] eqn:E1; cbn in H; [|by destruct H as [[_ [=]]|[_ [=]]]].
  destruct (validate_tree_connect content conn_info) as [info|e] eqn:E2; cbn in H; [|by destruct H as [[_ [=]]|[_ [=]]]].
  destruct (hd_tree_id _) as [tree_id|] eqn:E3; cbn in H; [|by destruct H as [[_ [=]]|[_ [=]]]].
  destruct H as [[_ [=]]|(object & events2 & -> & H)]. destruct object as [object|e]; [|by destruct H as [[_ [=]]|[_ [=]]]].
  cbn in H. destruct H as [[_ [=]]|(session & events3 & -> & H)]. destruct session as [session|e]; [|by destruct H as [[_ [=]]|[_ [=]]]].
  cbn in H. destruct H as [[_ [=]]|(info' & events4 & -> & H)]. destruct H as [[_ [=]]|(u & events5 & -> & H)].
  destruct H as [[_ [=]]|[-> [= ->]]]. cbn. split_and!; [done|done|].
  exists r, content, conn_info. split_and!; [by left|by left|done..].
Qed.

(** The share of a connected tree and the tasks that use it. *)
Definition connected_system (conn_info : Settings) (events : list (event Call answer)) (context : TreeContext) : System :=
  system_new context (sent_answers events) [conn_info].

(** The task [t] waits for the task [t']: for the lock of the recovery that [t'] holds, for the lock of its resource that [t']
    holds, or for [t'] to end. *)
Definition waits_for (s : System) (t t' : nat) : Prop :=
  exists held c k, sy_tasks s !! t = Some (mkTask held (a_call c k)) /\
    match unraced c with
    | C_LockRecovery => sy_holder s = Some t'
    | C_LockFile => exists task, sy_tasks s !! t' = Some task /\ hl_file_lock (tk_held task) = true /\ hl_file (tk_held task) = hl_file held
    | C_JoinReconnect child _ _ => child = t' /\ is_Some (sy_tasks s !! t')
    | _ => False
    end.

Lemma lock_allowed_unraced h c : lock_allowed h c -> lock_allowed h (unraced c).
Proof. by induction c. Qed.

(** How far a task is from one that waits for none: a task that holds the lock of the recovery waits for none, a spawned
    reconnect for such a task only, a task that holds the lock of its resource for a reconnect only. *)
Definition wait_rank (h : Held) : nat :=
  if hl_lock h then 0 else if hl_spawned h then 1 else if hl_file_lock h then 2 else 3.

Lemma waits_for_rank max s t t' task :
  sys_inv max s -> waits_for s t t' -> sy_tasks s !! t = Some task ->
  exists task', sy_tasks s !! t' = Some task' /\ (wait_rank (tk_held task') < wait_rank (tk_held task))%nat.
Proof.
  intros I (held & c & k & Ht & Hw) Hl. rewrite Ht in Hl. injection Hl as <-.
  destruct (si_tasks _ _ I _ _ Ht) as [[Ha _] _ _ _ Hc _ _]. cbn in *. apply lock_allowed_unraced in Ha. unfold wait_rank.
  destruct (unraced c); try done.
  - destruct (si_holder _ _ I _ Hw) as (task' & Hl & L). exists task'. split; [done|]. destruct Ha as [-> _]. rewrite L.
    destruct (hl_spawned held), (hl_file_lock held); lia.
  - destruct Hw as [-> [task' Hl]]. destruct Ha as (-> & -> & Hin). destruct (Hc _ Hin) as [_ Hs]. exists task'. split; [done|].
    rewrite (Hs _ Hl). destruct (hl_lock (tk_held task')), (hl_file_lock held); lia.
  - destruct Hw as (task' & Hl & L & F). destruct Ha as (-> & -> & ->). exists task'. split; [done|]. rewrite L.
    destruct (hl_lock (tk_held task')), (hl_spawned (tk_held task')); lia.
Qed.

(** Whether a task waits can be told. *)
Lemma waits_for_dec s t : (exists t', waits_for s t t') \/ forall t', ~ waits_for s t t'.
Proof.
  destruct (sy_tasks s !! t) as [[held [r|c k]]|] eqn:Ht.
  - right. intros t' (h & c & k & H & _). congruence.
  - destruct (unraced c) eqn:Ec;
      try (right; intros t' (h & c' & k' & H & Hw); rewrite Ht in H; injection H as <- <- _; by rewrite Ec in Hw).
    + destruct (sy_holder s) as [t'|] eqn:Eh.
      * left. exists t', held, c, k. by rewrite Ec.
      * right. intros t' (h & c' & k' & H & Hw). rewrite Ht in H. injection H as <- <- _. rewrite Ec in Hw. congruence.
    + destruct (sy_tasks s !! task) as [child|] eqn:El.
      * left. exists task, held, c, k. rewrite Ec. split; [done|]. split; [done|]. by exists child.
      * right. intros t' (h & c' & k' & H & Hw). rewrite Ht in H. injection H as <- <- _. rewrite Ec in Hw.
        destruct Hw as [<- [x Hx]]. congruence.
    + destruct (map_choose_or_empty (filter (fun x => hl_file_lock (tk_held x.2) = true /\ hl_file (tk_held x.2) = hl_file held) (sy_tasks s)))
        as [(t' & task & [Hl [L F]]%map_lookup_filter_Some)|He].
      * left. exists t', held, c, k. rewrite Ec. by split; [|exists task].
      * right. intros t' (h & c' & k' & H & Hw). rewrite Ht in H. injection H as <- <- _. rewrite Ec in Hw.
        destruct Hw as (task & Hl & L & F). apply (lookup_empty_Some t' task). rewrite <- He. by apply map_lookup_filter_Some.
  - right. intros t' (h & c & k & H & _). congruence.
Qed.

(** Following the waits from a task of rank [n] ends after [n] steps at most. *)
Lemma waits_end max s n : forall t task, sys_inv max s -> sy_tasks s !! t = Some task -> (wait_rank (tk_held task) <= n)%nat ->
  exists m t', (m <= n)%nat /\ nsteps (waits_for s) m t t' /\ forall t'', ~ waits_for s t' t''.
Proof.
  induction n as [|n IH]; intros t task I Ht Hn.
  - exists 0%nat, t. split_and!; [done|constructor|]. intros t'' W. destruct (waits_for_rank _ _ _ _ _ I W Ht) as (task' & _ & H). lia.
  - destruct (waits_for_dec s t) as [[t1 W]|H]; [|exists 0%nat, t; split_and!; [lia|constructor|done]].
    destruct (waits_for_rank _ _ _ _ _ I W Ht) as (task1 & Ht1 & H).
    destruct (IH t1 task1 I Ht1 ltac:(lia)) as (m & t' & Hm & Hs & He). exists (S m), t'. split_and!; [lia|by econstructor|done].
Qed.

Lemma waits_tc_rank max s t t' task :
  sys_inv max s -> tc (waits_for s) t t' -> sy_tasks s !! t = Some task ->
  exists task', sy_tasks s !! t' = Some task' /\ (wait_rank (tk_held task') < wait_rank (tk_held task))%nat.
Proof.
  intros I W. revert task. induction W as [t t' W|t t1 t' W _ IH]; intros task Ht; [by eapply waits_for_rank|].
  destruct (waits_for_rank _ _ _ _ _ I W Ht) as (task1 & Ht1 & H1). destruct (IH task1 Ht1) as (task' & Ht' & H'). exists task'. split; [done|lia].
Qed.

(** C9: the state that the tasks of a share have in common stays consistent. Take a connected tree and any
    interleaving of operations, reconnects, dropped futures and answers of the session: at most one task is inside the
    recovery; [recovering] is up exactly while a task is reconnecting; no permit is lost; the generation that
    requests are sent on answers a TREE_CONNECT whose capabilities and flags were validated; and
    a tree that has been closed stays closed. *)
Theorem share_state_stays_consistent name conn_info events context s s' :
  runs (tree_connect name conn_info) events (Some (Ok context)) -> 0 <= th_recovery_slots context ->
  reachable name (connected_system conn_info events context) s -> reachable name s s' ->
  (forall t t' task task', sy_tasks s !! t = Some task -> sy_tasks s !! t' = Some task' ->
     hl_lock (tk_held task) = true -> hl_lock (tk_held task') = true -> t = t') /\
  (th_recovering (sy_context s) = true <-> exists t task, sy_tasks s !! t = Some task /\ hl_flag (tk_held task) = true) /\
  0 <= th_recovery_slots (sy_context s) /\
  th_recovery_slots (sy_context s) + permits (sy_tasks s) = th_recovery_slots context /\
  validated (sy_answers s) (sy_settings s) (th_generation (sy_context s)) /\
  (th_closed (sy_context s) = true -> th_closed (sy_context s') = true).
Proof.
  intros Hc Hs Hr Hr'. destruct (tree_connect_context _ _ _ _ Hc) as (H1 & H2 & H3).
  pose proof (system_reachable_inv _ _ _ _ Hr (system_new_inv _ _ _ H1 Hs H3)) as I. split_and!.
  - intros t t' task task'. by apply (lock_unique _ _ _ _ _ _ I).
  - split; [apply (si_recovering _ _ I)|]. intros (t & task & Ht & F). by apply (ti_flag _ _ _ (si_tasks _ _ I _ _ Ht)).
  - apply (si_nonneg _ _ I).
  - apply (si_slots _ _ I).
  - apply (si_generation _ _ I).
  - by apply (reachable_closed _ (th_recovery_slots context) _ _ Hr').
Qed.

(** C14: the tasks of a share cannot wait for each other in a circle. A task waits for another one when it asks for the
    lock of the recovery that the other holds, when it asks for the lock of its resource that the other holds while it
    brings the resource up to date, and when it joins the reconnect that the other one is. In every state that they can
    reach, the lock of a resource is held by one task at most, no task waits for itself, directly or through others, and
    from every task the waits lead in at most three steps to one that waits for none: an operation waits for the one that
    holds the lock of its resource, that one for the reconnect that it has spawned, and that one for the reconnect
    that holds the lock of the recovery. *)
Theorem share_tasks_cannot_deadlock name conn_info events context s :
  runs (tree_connect name conn_info) events (Some (Ok context)) -> 0 <= th_recovery_slots context ->
  reachable name (connected_system conn_info events context) s ->
  files_exclusive (sy_tasks s) /\
  (forall t, ~ tc (waits_for s) t t) /\
  (forall t task, sy_tasks s !! t = Some task ->
     exists n t', (n <= 3)%nat /\ nsteps (waits_for s) n t t' /\ forall t'', ~ waits_for s t' t'').
Proof.
  intros Hc Hs Hr. destruct (tree_connect_context _ _ _ _ Hc) as (H1 & H2 & H3).
  pose proof (system_reachable_inv _ _ _ _ Hr (system_new_inv _ _ _ H1 Hs H3)) as I. split_and!.
  - apply (si_files _ _ I).
  - intros t W. assert (exists task, sy_tasks s !! t = Some task) as [task Ht].
    { inversion W as [? ? (held & c & k & Ht & _)|? ? ? (held & c & k & Ht & _)]; eauto. }
    destruct (waits_tc_rank _ _ _ _ _ I W Ht) as (task' & Ht' & H). assert (task' = task) as -> by congruence. lia.
  - intros t task Ht. apply (waits_end _ _ 3 _ _ I Ht). unfold wait_rank. repeat case_match; lia.
Qed.

(** ** Witnesses *)

Definition sample_settings : Settings :=
  mkSettings (mkConnectionInfo (mkNegotiated true None None None Smb0311) Smb0311
                (mkConfig EM_Allowed SP_WhenRequired false false) PH_Unsupported)
    (mkPolicy 1 10 20 1 2 0 4) 30 65536 65536 65536 65536 16.

Definition sample_token (n : Z) : ObjectToken := mkToken 1 n 0.

(** An encrypted response on tree 7, and one that grants an encrypted share. *)
Definition sample_response (content : ResponseContent) : Response :=
  mkCommandResponse (mkPlainResponse (mkHeader 0 0 Cmd_TreeConnect 0 1 0 5 (Some 7) None 9 0) content) []
    (mkForm false true false false).
Definition sample_share : Response :=
  sample_response (Rs_TreeConnect (mkTreeConnectResponse ST_Disk (Z.shiftl 1 15) 0 0)).

Definition sample_generation (session : Z) : TreeGeneration :=
  mkTreeGeneration 7 (mkTreeInfo ST_Disk (Z.shiftl 1 15) 0) (sample_token session) (sample_token 3).

Definition sample_context : TreeContext := mkTreeContext (sample_generation 2) false 4 false.

Definition ev (c : Call) (r : answer c) : event Call answer := Ev c r.

Definition sample_connect : list (event Call answer) :=
  [ev (C_SendRecv (request_new (Rq_TreeConnect (tree_connect_new [])))) (Ok sample_share);
   ev (C_CreateChild OK_Share) (Ok (sample_token 3)); ev C_SessionObject (Ok (sample_token 2));
   ev C_ConnInfo sample_settings; ev C_RegisterShare tt].

(** [replay] gives a run the answers of its events. *)
Ltac replay := cbn; repeat (right; eexists _, _; split; [reflexivity|]; cbn); try (right; split; reflexivity).

Lemma sample_connected : runs (tree_connect [] sample_settings) sample_connect (Some (Ok sample_context)).
Proof. replay. Qed.

(** A task disconnects the tree. *)
Definition sample_system : System := connected_system sample_settings sample_connect sample_context.
Definition sample_closing : System :=
  sample_system <| sy_tasks := <[0%nat := mkTask (nothing_held false O) (as_task disconnect)]> ∅ |> <| sy_next := 1%nat |>.

Lemma sample_closes : exists s, reachable [] sample_system s /\ th_closed (sy_context s) = true.
Proof.
  eexists. split.
  - eapply reach_step; [eapply (reach_step _ _ sample_system); [apply reach_refl|eapply (step_start _ _ _ O); left; apply so_disconnect]|].
    eapply (step_call _ _ 0%nat _ C_SwapClosed _ false); [reflexivity|]. cbn. eauto.
  - reflexivity.
Qed.

Lemma share_traffic_is_protected_witness :
  exists events incoming g,
    runs (execute_for_with_replay (request_new (Rq_Flush (mkFileId 1 2))) options_new (sample_token 4) RPol_NeverReplay)
      events (Some (Ok incoming)) /\ g ∈ loaded events /\ accepted_for g incoming.
Proof.
  exists [ev C_LoadClosed false; ev C_LoadGeneration (sample_generation 2);
     ev (C_ExecuteFor ((request_new (Rq_Flush (mkFileId 1 2)))
           <| cmd_header := (cmd_header (request_new (Rq_Flush (mkFileId 1 2)))) <| hd_tree_id := Some 7 |> |>
           <| cmd_security := Some Pr_Encrypt |>) options_new (sample_token 4) RPol_NeverReplay)
       (Ok (sample_response Rs_Flush))], (sample_response Rs_Flush).
  match goal with |- exists g, runs ?p ?events ?o /\ _ => assert (Hr : runs p events o) by replay end.
  destruct (proj2 share_traffic_is_protected (request_new (Rq_Flush (mkFileId 1 2))) _ _ _ _ _ eq_refl eq_refl Hr)
    as (g & H1 & H2). by exists g.
Defined.

Lemma share_state_stays_consistent_witness :
  exists s, reachable [] sample_system s /\ th_closed (sy_context s) = true /\
    th_recovery_slots (sy_context s) + permits (sy_tasks s) = 4.
Proof.
  destruct sample_closes as (s & Hr & Hc). exists s.
  destruct (share_state_stays_consistent [] sample_settings sample_connect sample_context s s sample_connected)
    as (_ & _ & _ & Hs & _); [cbn; lia|exact Hr|apply reach_refl|]. by split_and!.
Defined.

(** Two tasks reconnect the tree: the first has the lock, the second waits for it. *)
Lemma sample_waits : exists s, reachable [] sample_system s /\ waits_for s 1 0.
Proof.
  eexists. split.
  - eapply reach_step; [eapply reach_step; [eapply (reach_step _ _ sample_system); [apply reach_refl|]|]|].
    + apply (step_start _ _ (reconnect []) O). by right.
    + apply (step_start _ _ (reconnect []) O). by right.
    + eapply (step_call _ _ 0%nat _ C_LockRecovery _ tt); [reflexivity|]. cbn. split_and!; reflexivity.
  - eexists _, C_LockRecovery, _. split; reflexivity.
Qed.

Lemma share_tasks_cannot_deadlock_witness :
  exists s, reachable [] sample_system s /\ waits_for s 1 0 /\ ~ waits_for s 0 1 /\
    exists n t', (n <= 3)%nat /\ nsteps (waits_for s) n 1%nat t' /\ forall t'', ~ waits_for s t' t''.
Proof.
  destruct sample_waits as (s & Hr & W). exists s.
  destruct (share_tasks_cannot_deadlock [] sample_settings sample_connect sample_context s sample_connected) as (_ & Hc & He);
    [cbn; lia|exact Hr|]. split_and!; [done|done| |].
  - intros W'. apply (Hc 0%nat). apply (tc_l _ _ 1%nat); [exact W'|apply tc_once, W].
  - destruct W as (held & c & k & Ht & _). exact (He _ _ Ht).
Defined.

(** ** Trees that are left behind *)

Definition sends_disconnect (e : event Call answer) : bool :=
  match unraced (ev_call e) with
  | C_ExecuteFor m _ _ _ => match cmd_content m with Rq_TreeDisconnect => true | _ => false end
  | _ => false
  end.

(** A tree that is closed while it is reconnected leaves the tree that the server has just connected: the reconnect
    fails, and nothing is sent to disconnect it. *)
Lemma closed_during_recovery_leaves_tree :
  exists events, runs (reconnect []) events (Some (Err OE_InvalidState)) /\
    existsb sends_disconnect events = false /\
    ev (C_Race (C_SendOnCurrentSession (request_new (Rq_TreeConnect (tree_connect_new []))))) (Some (Ok sample_share)) ∈ events.
Proof.
  exists [ev C_LockRecovery tt; ev C_LoadClosed false; ev C_LoadGeneration (sample_generation 2);
     ev C_SessionObject (Ok (sample_token 5)); ev (C_StoreRecovering true) tt; ev C_ConnInfo sample_settings;
     ev (C_Race (C_SendOnCurrentSession (request_new (Rq_TreeConnect (tree_connect_new []))))) (Some (Ok sample_share));
     ev (C_Race (C_CreateChildOnCurrentSession OK_Share)) (Some (Ok (sample_token 6)));
     ev C_LoadClosed true; ev (C_StoreRecovering false) tt; ev C_UnlockRecovery tt].
  split_and!; [replay|reflexivity|]. do 6 apply list_elem_of_further. apply list_elem_of_here.
Qed.
