(* ===== verification/ResourceTheorems.v ===== *)
(** What holds of opened resources: what an open that succeeds was granted, what one that fails leaves behind, how
    often and with what a durable open is reconnected, what a read returns, and what a query that
    overflows reports. *)
From S2P Require Import Prelude Effects Async Clock Reducer ObjectState Recovery Bytes Header Operation Crypto Dialects.
From S2P Require Import Session Stream Codec Security CreateContexts Fsctl TreeConnect Messages Queries QueryProps.
From S2P Require Import Content ContentTheorems Tree Resource TreeProps TreeTheorems.
Local Open Scope Z_scope.
Local Open Scope async_scope.

(** ** Opening *)

(** The request that [execute_for_with_replay] sends differs from the one it is given in its header and its
    protection only. *)
Lemma execute_sent m options dependency replay events incoming :
  runs (execute_for_with_replay m options dependency replay) events (Some (Ok incoming)) ->
  exists m' before, cmd_content m' = cmd_content m /\ events = before ++ [Ev (C_ExecuteFor m' options dependency replay) (Ok incoming)].
Proof.
  unfold execute_for_with_replay. intros (events1 & events2 & [m' g] & -> & H1 & H2)%runs_try_Ok.
  apply runs_try_Ok in H2 as (events3 & events4 & incoming' & -> & H2 & H3). call_in H2; subst.
  apply runs_try_Ok in H3 as (events5 & events6 & [] & -> & H3 & H4). apply runs_ret_Some in H4 as [-> [= <-]].
  apply runs_ret_Some in H3 as [-> _]. exists m', events1. split; [|done]. unfold tree_prepare in H1.
  apply runs_then_Some in H1 as (events1' & events2' & closed & -> & _ & H1).
  destruct closed; [by apply runs_ret_Some in H1 as [_ [=]]|].
  apply runs_then_Some in H1 as (events3' & events4' & g' & -> & _ & H1). apply runs_ret_Some in H1 as [_ [= <- <-]].
  destruct (flag_async_command _); [done|]. destruct (cmd_security _); [done|]. by destruct (sh_encrypt_data _).
Qed.

Lemma current_share_loaded events share :
  runs current_share_object events (Some (Ok share)) ->
  exists g before, events = before ++ [Ev C_LoadGeneration g] /\ share = tg_object g.
Proof.
  unfold current_share_object. intros (events1 & events2 & conn_info & -> & _ & H)%runs_then_Some.
  apply runs_try_Ok in H as (events3 & events4 & [] & -> & _ & H).
  apply runs_then_Some in H as (events5 & events6 & g & -> & H1 & H2). call_in H1; subst.
  apply runs_ret_Some in H2 as [-> [= <-]]. exists g, (events1 ++ events3). split; [by rewrite <- app_assoc|done].
Qed.

Lemma continuously_available_loaded events b :
  runs continuously_available events (Some (Ok b)) ->
  exists g, Ev C_LoadGeneration g ∈ events /\ b = Z.testbit (ti_capabilities (tg_info g)) 4.
Proof.
  unfold continuously_available, tree_info. intros (events1 & events2 & info & -> & H1 & H2)%runs_try_Ok.
  apply runs_ret_Some in H2 as [-> [= <-]]. apply runs_then_Some in H1 as (events3 & events4 & closed & -> & _ & H1).
  destruct closed; [by apply runs_ret_Some in H1 as [_ [=]]|].
  apply runs_then_Some in H1 as (events5 & events6 & g & -> & H1 & H2). call_in H1; subst.
  apply runs_ret_Some in H2 as [-> [= <-]]. exists g. split; [set_solver|done].
Qed.

(** What the answer to a CREATE has to say for an open with [a] to succeed, and what becomes of it. *)
Record opened_as (name : list Z) (a : FileCreateArgs) (share_type : ShareType) (share : ObjectToken)
    (response : CreateResponse) (resource : Resource) : Prop := {
  oa_name : rh_name (resource_handle resource) = name;
  oa_file : fg_file_id (rh_generation (resource_handle resource)) = cs_file_id response;
  oa_share : fg_share (rh_generation (resource_handle resource)) = share;
  oa_kind : match resource with
            | R_Directory _ => Z.testbit (cs_file_attributes response) 4 = true
            | R_File _ size => Z.testbit (cs_file_attributes response) 4 = false /\ share_type = ST_Disk /\ size = cs_endof_file response
            | R_Pipe _ => Z.testbit (cs_file_attributes response) 4 = false /\ share_type = ST_Pipe
            end;
  oa_not_durable : ca_durable_request a = None -> rh_durable_granted (resource_handle resource) = None;
  oa_durable : forall request, ca_durable_request a = Some request -> exists granted,
    first_dh2q (cs_create_contexts response) = Some granted /\
    rh_durable_granted (resource_handle resource)
      = Some (mkDurableGrant (dr_timeout granted) (flag_persistent (dr_flags granted)) (do_create_guid request)) /\
    (do_persistent request = true -> flag_persistent (dr_flags granted) = true)
}.

Lemma open_resource_as name a conn_info share_type share response events resource :
  runs (open_resource name a conn_info share_type share response) events (Some (Ok resource)) ->
  opened_as name a share_type share response resource.
Proof.
  unfold open_resource. cbv zeta. intros (events1 & events2 & durable & -> & H1 & H)%runs_try_Ok.
  apply runs_ret_Some in H1 as [_ H1]. apply runs_try_Ok in H as (events3 & events4 & object & -> & _ & H).
  apply runs_then_Some in H as (events5 & events6 & slot & -> & _ & H). apply runs_ret_Some in H as [_ H].
  assert (Hd : (ca_durable_request a = None -> durable = None) /\
    forall request, ca_durable_request a = Some request -> exists granted,
      first_dh2q (cs_create_contexts response) = Some granted /\
      durable = Some (mkDurableGrant (dr_timeout granted) (flag_persistent (dr_flags granted)) (do_create_guid request)) /\
      (do_persistent request = true -> flag_persistent (dr_flags granted) = true)).
  { unfold durable_grant in H1. destruct (ca_durable_request a) as [request|]; [|by injection H1 as <-].
    split; [done|]. intros request' [= <-]. destruct (first_dh2q _) as [granted|]; [|done]. exists granted.
    destruct (do_persistent request), (flag_persistent (dr_flags granted)) eqn:E; cbn in H1; by simplify_eq. }
  destruct Hd as [Hd1 Hd2]. destruct (Z.testbit (cs_file_attributes response) 4) eqn:E; [injection H as <-; by split|].
  destruct share_type; [| |done]; injection H as <-; by split.
Qed.

(** A load of the generation of the share. *)
Definition loads_generation (e : event Call answer) : bool := match ev_call e with C_LoadGeneration => true | _ => false end.

Lemma open_resource_loads_nothing name a conn_info share_type share response events resource :
  runs (open_resource name a conn_info share_type share response) events (Some (Ok resource)) ->
  existsb loads_generation events = false.
Proof.
  unfold open_resource. cbv zeta. intros (events1 & events2 & durable & -> & H1 & H)%runs_try_Ok.
  apply runs_ret_Some in H1 as [-> _]. apply runs_try_Ok in H as (events3 & events4 & object & -> & H1 & H).
  unfold create_resource_object_for in H1. call_in H1; subst.
  apply runs_then_Some in H as (events5 & events6 & slot & -> & H1 & H). apply runs_ret_Some in H as [-> _].
  destruct (oplock_granted _); [|by apply runs_ret_Some in H1 as [-> _]].
  apply runs_then_Some in H1 as (events7 & events8 & u & -> & H1 & H2). call_in H1; subst. by apply runs_ret_Some in H2 as [-> _].
Qed.


(** ** Opens that fail *)

Definition sends_close (c : Call) : bool :=
  match unraced c with
  | C_ExecuteFor m _ _ _ => match cmd_content m with Rq_Close _ => true | _ => false end
  | _ => false
  end.

Definition no_close (s : unit) (c : Call) : Prop := sends_close c = false.

Abbreviation closes_nothing := (keeps no_close (fun _ c (r : answer c) => True) (fun (s : unit) c (r : answer c) => s) (fun _ => True)).

Lemma closes_nothing_call c : sends_close c = false -> closes_nothing (call c).
Proof. intros Hc. apply keeps_issue. done. Qed.

#[local] Hint Extern 2 (keeps _ _ _ _ (call _)) => apply closes_nothing_call; reflexivity : keeps.

Lemma current_share_closes_nothing : closes_nothing current_share_object.
Proof. unfold current_share_object, wait_for_reconnect. keeping. Qed.

Lemma execute_closes_nothing m options dependency replay :
  (match cmd_content m with Rq_Close _ => true | _ => false end) = false ->
  closes_nothing (execute_for_with_replay m options dependency replay).
Proof.
  intros Hm s _. unfold execute_for_with_replay.
  apply (follows_try _ _ _ _ _ _ (fun _ r => forall m' g, r = Ok (m', g) -> cmd_content m' = cmd_content m)); [| |done].
  - unfold tree_prepare. cbn. split; [done|]. intros [|] _; cbn; [done|]. split; [done|]. intros g _ m' g' [= <- <-].
    destruct (flag_async_command _); [done|]. destruct (cmd_security _); [done|]. by destruct (sh_encrypt_data _).
  - intros [] [m' g] Hc. cbn. split; [unfold no_close, sends_close; cbn; by rewrite (Hc m' g)|].
    intros [r|e] _; cbn; [|done]. by destruct (check_response g r).
Qed.

Lemma create_closes_nothing name a conn_info share_type is_dfs : closes_nothing (resource_create name a conn_info share_type is_dfs).
Proof.
  pose proof current_share_closes_nothing. unfold resource_create, validate_create, open_resource, continuously_available,
    tree_info, create_resource_object_for. keeping. all: apply execute_closes_nothing; by destruct is_dfs.
Qed.

(** The answer that opens file 4 of the sample share, without the durable context. *)
Definition sample_created (attributes : Z) (contexts : list (CreateContext CreateContextResponseData)) : CreateResponse :=
  mkCreateResponse OL_None 0 CA_Opened 0 0 0 0 0 100 attributes (mkFileId 4 4) contexts.

Definition sample_args : FileCreateArgs :=
  with_durable (make_open_existing am_generic_read) (mkDurableRequest 60 (mkGuid 0 0 0 (replicate 8 0)) true).

Definition sample_current : list (event Call answer) :=
  [ev C_ConnInfo sample_settings; ev C_LoadGeneration (sample_generation 2); ev C_LoadRecovering false;
   ev C_SessionObject (Ok (sample_token 2)); ev C_LoadGeneration (sample_generation 2)].

(** The sample share is continuously available. *)
Definition sample_durable_generation : TreeGeneration :=
  mkTreeGeneration 7 (mkTreeInfo ST_Disk (Z.shiftl 1 15) 16) (sample_token 2) (sample_token 3).

Definition sample_open (contexts : list (CreateContext CreateContextResponseData)) : list (event Call answer) :=
  let m := request_new (Rq_Create (create_request [120] sample_args ST_Disk)) in
  [ev C_LoadClosed false; ev C_LoadGeneration sample_durable_generation] ++ sample_current ++
  [ev C_LoadClosed false; ev C_LoadGeneration (sample_generation 2);
   ev (C_ExecuteFor (m <| cmd_header := (cmd_header m) <| hd_tree_id := Some 7 |> |> <| cmd_security := Some Pr_Encrypt |>)
         (options_new <| os_allow_async := true |>) (sample_token 3) RPol_NeverReplay)
     (Ok (sample_response (Rs_Create (sample_created 0 contexts))))] ++ sample_current.

(** An open that fails after the server has opened the file leaves it open. [create] never sends a CLOSE, whatever
    it is answered; so when the answer does not grant the durable open that was asked for, the caller
    gets an error and no handle, and the file stays open on the server. *)
Lemma failed_open_is_not_closed :
  (forall name a conn_info share_type is_dfs events o before c r after,
     runs (resource_create name a conn_info share_type is_dfs) events o -> events = before ++ Ev c r :: after ->
     sends_close c = false) /\
  runs (resource_create [120] sample_args sample_settings ST_Disk false) (sample_open []) (Some (Err OE_UnsupportedOperation)).
Proof.
  split.
  - intros name a conn_info share_type is_dfs events o before c r after Hr He.
    assert (Hp : forall events, possible_all (fun _ c (r : answer c) => True) (fun (s : unit) c r => s) tt events)
      by (intros l; by induction l as [|e l IH]; cbn; [|split]).
    exact (follows_allowed _ _ _ _ _ _ _ _ _ _ _ (create_closes_nothing name a conn_info share_type is_dfs tt Logic.I) Hr (Hp _) He).
  - replay.
Qed.

(** ** Reconnecting a durable open *)

Section durable.
Context (h : ResourceHandle).

(** How many CREATEs may still be sent, the generations of the file that were loaded, and the file ids that CREATEs were
    answered with. *)
Record Reconnecting := mkReconnecting { rn_budget : nat; rn_files : list FileGeneration; rn_opened : list FileId }.

Definition asks_server (c : Call) : bool := match unraced c with C_ExecuteFor _ _ _ _ => true | _ => false end.

(** What [ensure_current] may ask for: with more than [n] of the budget left, the file it has loaded, with the identifier
    that was granted; and what it may publish. *)
Definition reconnect_allowed (n : nat) (s : Reconnecting) (c : Call) : Prop :=
  match unraced c with
  | C_ExecuteFor m _ _ _ =>
      (n < rn_budget s)%nat /\
      exists grant previous, rh_durable_granted h = Some grant /\ previous ∈ rn_files s /\
        cmd_content m = Rq_Create (reconnect_request grant previous)
  | C_SendRecv _ | C_SendOnCurrentSession _ => False
  | C_StoreFile g => fg_file_id g ∈ rn_opened s
  | _ => True
  end.

Definition spend (s : Reconnecting) (opened : list FileId) : Reconnecting :=
  mkReconnecting (rn_budget s - 1) (rn_files s) (opened ++ rn_opened s).

Fixpoint reconnecting (s : Reconnecting) (c : Call) : answer c -> Reconnecting :=
  match c return answer c -> Reconnecting with
  | C_ExecuteFor _ _ _ _ => fun r =>
      spend s match r with Ok r => match to_create r with Ok r => [cs_file_id r] | Err _ => [] end | Err _ => [] end
  | C_LoadFile => fun g => mkReconnecting (rn_budget s) (g :: rn_files s) (rn_opened s)
  | C_Race c => fun r => match r with Some r => reconnecting s c r | None => if asks_server c then spend s [] else s end
  | _ => fun _ => s
  end.

Definition any_reconnect (s : Reconnecting) (c : Call) (r : answer c) : Prop := True.

Abbreviation rfollows n I := (follows (stable awaits I (reconnect_allowed n)) any_reconnect reconnecting).
Abbreviation rkeeps n I := (keeps (stable awaits I (reconnect_allowed n)) any_reconnect reconnecting I).

Definition quiet (c : Call) : bool :=
  match c with
  | C_ExecuteFor _ _ _ _ | C_SendRecv _ | C_SendOnCurrentSession _ | C_StoreFile _ | C_LoadFile | C_Race _ => false
  | _ => true
  end.

Lemma quiet_call n I c : quiet c = true -> rkeeps n I (call c).
Proof. intros Hc. apply keeps_issue. intros s Hs. split; [by split; [destruct c|]|]. intros r _. by destruct c. Qed.
#[local] Hint Extern 2 (keeps _ _ _ _ (call _)) => apply quiet_call; reflexivity : keeps.

Lemma wait_quiet n I timeout cancellation : rkeeps n I (wait_for_reconnect timeout cancellation).
Proof. unfold wait_for_reconnect. keeping. Qed.
#[local] Hint Resolve wait_quiet : keeps.

Lemma current_share_quiet n I : rkeeps n I current_share_object.
Proof. unfold current_share_object. keeping. Qed.

Lemma follows_stable_weaken {A} n (I J : Reconnecting -> Prop) s (p : async Call answer A) Q :
  (forall s, J s -> I s) -> rfollows n J s p Q -> rfollows n I s p Q.
Proof. intros HI. apply follows_allow. intros s' c [H1 H2]. split; auto. Qed.

(** While an attempt runs: [n] CREATEs are left for those after it. *)
Definition left_for (n : nat) (previous : FileGeneration) (s : Reconnecting) : Prop :=
  (n <= rn_budget s)%nat /\ previous ∈ rn_files s.
Definition one_left (n : nat) (previous : FileGeneration) (s : Reconnecting) : Prop :=
  (n < rn_budget s)%nat /\ previous ∈ rn_files s.

Lemma one_left_for n previous s : one_left n previous s -> left_for n previous s.
Proof. intros [H1 H2]. split; [lia|done]. Qed.
#[local] Hint Resolve one_left_for : core.

(** The CREATE of an attempt. *)
Lemma execute_reconnect_follows n grant previous s :
  rh_durable_granted h = Some grant -> one_left n previous s ->
  rfollows n (left_for n previous) s
    (execute (request_new (Rq_Create (reconnect_request grant previous))) (options_new <| os_allow_async := true |>))
    (fun s r => left_for n previous s /\
       forall incoming response, r = Ok incoming -> to_create incoming = Ok response -> cs_file_id response ∈ rn_opened s).
Proof.
  intros Hg H1. unfold execute. apply (follows_then _ _ _ _ _ _ (fun s _ => one_left n previous s)).
  { cbn. by split; [split|intros conn_info _]. }
  intros s2 timeout H2. eapply follows_try; [eapply (follows_stable_weaken _ _ (one_left n previous)); [by auto|by apply wait_quiet]| |].
  2: { intros s' e H'. split; [by apply one_left_for|done]. }
  intros s3 [] H3. cbn. split; [done|]. intros g _. split; [done|]. intros [|] _; cbn; [by split; [apply one_left_for|]|].
  split; [done|]. intros g' _. destruct (sh_encrypt_data _); cbn.
  all: destruct H3 as [H3 H3']; split; [by split; [split; [done|exists grant, previous]|split; [lia|done]]|].
  all: intros [r|e] _; cbn; [|split; [split; cbn; [lia|done]|done]].
  all: destruct (check_response g' r); cbn; (split; [split; cbn; [lia|done]|]); [|done].
  all: intros incoming response [= <-] ->; set_solver.
Qed.

(** An attempt has one CREATE to send. *)
Lemma durable_attempt_follows n grant previous s :
  rh_durable_granted h = Some grant -> one_left n previous s ->
  rfollows n (left_for n previous) s (durable_attempt grant previous)
    (fun s r => (n <= rn_budget s)%nat /\ forall g, r = Ok (Some g) -> fg_file_id g ∈ rn_opened s).
Proof.
  intros Hg H1. unfold durable_attempt.
  eapply follows_try; [eapply (follows_stable_weaken _ _ (one_left n previous)); [by auto|by apply current_share_quiet]| |].
  2: { intros s' e [H' _]. split; [lia|done]. }
  intros s1 share H2. destruct (belongs_to previous share); [cbn; destruct H2; split; [lia|done]|].
  eapply follows_try; [by apply execute_reconnect_follows| |by intros s' e [[H' _] _]].
  intros s2 incoming [[H3 H4] H5]. destruct (to_create incoming) as [response|e] eqn:E; [|by split].
  specialize (H5 _ _ eq_refl E).
  set (K := fun s => left_for n previous s /\ cs_file_id response ∈ rn_opened s).
  assert (H6 : K s2) by by split. cbn [try_bind mbind async_bind async_bind_def a_lift].
  eapply follows_try; [eapply (follows_stable_weaken _ _ K); [by intros ? []|by apply current_share_quiet]| |by intros s' e [[H' _] _]].
  intros s4 current [[H7 H8] H9]. case_bool_decide; [by split|].
  eapply follows_try; [eapply (follows_stable_weaken _ _ K); [by intros ? []|by apply quiet_call]| |by intros s' e [[H' _] _]].
  intros s5 object [[H10 H11] H12]. split; [done|]. by intros g [= <-].
Qed.

Lemma durable_attempts_follows grant attempts k last s :
  rh_durable_granted h = Some grant -> (attempts <= rn_budget s)%nat ->
  follows (reconnect_allowed 0) any_reconnect reconnecting s (durable_attempts h grant attempts k last) (fun _ _ => True).
Proof.
  intros Hg. revert k last s. induction attempts as [|n IH]; intros k last s Hb; [done|]. cbn [durable_attempts].
  apply (follows_then _ _ _ _ _ _ (fun s _ => (S n <= rn_budget s)%nat)).
  { case_bool_decide; [|done]. by split; [|intros ? _]. }
  intros s1 _ H1. apply follows_call; [done|]. intros previous. cbn [reconnecting].
  apply (follows_then _ _ _ _ _ _ (fun s r => (n <= rn_budget s)%nat /\ forall g, r = Some (Ok (Some g)) -> fg_file_id g ∈ rn_opened s)).
  - eapply (follows_allow (stable awaits (left_for n previous) (reconnect_allowed n))).
    { intros s' c [H _]. revert H. unfold reconnect_allowed. destruct (unraced c); try done. intros [H2 H3]. split; [lia|done]. }
    apply (follows_bounded (ans := answer) awaits C_Race (fun c r => r) (reconnect_allowed n) any_reconnect reconnecting)
      with (P := fun s r => (n <= rn_budget s)%nat /\ forall g, r = Ok (Some g) -> fg_file_id g ∈ rn_opened s).
    + done.
    + intros s' c r x E _. split; [done|]. cbn in *. by rewrite E.
    + intros s' a [H2 H3]. split; [done|]. intros g [= ->]. by apply H3.
    + intros s' c r [H2 _] Ha E. cbn in *. rewrite E. split; [|done]. unfold asks_server.
      unfold reconnect_allowed in Ha. destruct (unraced c); cbn; try done. destruct Ha as [Ha _]. lia.
    + apply durable_attempt_follows; [done|]. split; cbn; [lia|by left].
  - intros s2 [[[g|]|e]|] [H2 H3]; [|done|by apply IH|by apply IH].
    specialize (H3 g eq_refl). unfold publish_file. destruct (rh_oplock_slot h); cbn.
    + by repeat (split; [done|]; intros ? _; cbn).
    + by split; [|intros ? _].
Qed.

Lemma ensure_current_follows :
  follows (reconnect_allowed 0) any_reconnect reconnecting
    (mkReconnecting (Z.to_nat (rp_max_attempts (se_auto_reconnect (rh_conn_info h)))) [] []) (ensure_current h) (fun _ _ => True).
Proof.
  unfold ensure_current. set (s0 := mkReconnecting _ _ _).
  eapply follows_try; [eapply (follows_allow (stable awaits (eq s0) (reconnect_allowed 0))); [by intros ? ? []|by apply current_share_quiet]| |done].
  intros s share <-. apply follows_call; [done|]. intros g. destruct (belongs_to g share); [done|].
  destruct (rh_durable_granted h) as [grant|] eqn:Hg; [|done]. apply follows_call; [done|]. intros [].
  eapply follows_then; [by apply durable_attempts_follows|]. intros s1 r _. by apply follows_call.
Qed.

(** What is spent is what was asked. *)
Lemma budget_spent s events Q (p : io unit) o :
  follows (reconnect_allowed 0) any_reconnect reconnecting s p Q -> runs p events o ->
  (length (List.filter (fun e => asks_server (ev_call e)) events) <= rn_budget s)%nat.
Proof.
  revert s events. induction p as [a|c k IH]; cbn; intros s events Hf Hr.
  - destruct Hr as [[-> _]|[-> _]]; cbn; lia.
  - destruct Hr as [[-> _]|(r & events' & -> & Hr)]; [cbn; lia|]. destruct Hf as [Ha Hk].
    specialize (IH r _ _ (Hk r Logic.I) Hr). cbn.
    assert (Hs : rn_budget (reconnecting s c r) = (rn_budget s - if asks_server c then 1 else 0)%nat).
    { clear. induction c; cbn; try lia. destruct r as [r|]; [by rewrite IHc|]. unfold asks_server. cbn. destruct (unraced c); cbn; lia. }
    unfold asks_server, reconnect_allowed in *. destruct (unraced c); cbn in *; lia.
Qed.

End durable.

(** The generations of the file that a run has loaded, and the file ids it was answered with. *)
Definition loaded_files (events : list (event Call answer)) : list FileGeneration :=
  rn_files (after reconnecting (mkReconnecting 0 [] []) events).
Definition opened_files (events : list (event Call answer)) : list FileId :=
  rn_opened (after reconnecting (mkReconnecting 0 [] []) events).

(** Neither depends on the budget. *)
Lemma after_budget n n' files opened events :
  rn_files (after reconnecting (mkReconnecting n files opened) events) = rn_files (after reconnecting (mkReconnecting n' files opened) events) /\
  rn_opened (after reconnecting (mkReconnecting n files opened) events) = rn_opened (after reconnecting (mkReconnecting n' files opened) events).
Proof.
  assert (Hs : forall c (r : answer c) n n' files opened, exists files' opened' m m',
    reconnecting (mkReconnecting n files opened) c r = mkReconnecting m files' opened' /\
    reconnecting (mkReconnecting n' files opened) c r = mkReconnecting m' files' opened').
  { clear. induction c; intros r n n' files opened; cbn; unfold spend; cbn; eauto 6.
    destruct r as [r|]; [by apply IHc|]. destruct (asks_server c); cbn; eauto 6. }
  revert n n' files opened. induction events as [|[c r] events IH]; intros n n' files opened; cbn; [done|].
  destruct (Hs c r n n' files opened) as (files' & opened' & m & m' & -> & ->). apply IH.
Qed.


(** ** Reading *)

Lemma handle_execute_sent h m options replay events incoming :
  runs (handle_execute_with_replay h m options replay) events (Some (Ok incoming)) ->
  exists m' dependency, cmd_content m' = cmd_content m /\ Ev (C_ExecuteFor m' options dependency replay) (Ok incoming) ∈ events.
Proof.
  unfold handle_execute_with_replay. intros (events1 & events2 & [] & -> & _ & H)%runs_try_Ok.
  apply runs_then_Some in H as (events3 & events4 & g & -> & _ & H).
  destruct (execute_sent _ _ _ _ _ _ H) as (m' & before & Hm & ->). exists m', (fg_object g). split; [done|]. set_solver.
Qed.

Lemma slice_length raw range : 0 <= range.1 <= range.2 -> range.2 <= zlen raw -> zlen (slice raw range) = range.2 - range.1.
Proof. unfold slice, zlen. intros H1 H2. rewrite length_take, length_drop. lia. Qed.

Lemma data_range_spec r n range : data_range r n = Ok range -> 0 <= rs_data_length r ->
  80 <= range.1 <= range.2 /\ range.2 <= n /\ range.2 - range.1 = rs_data_length r.
Proof.
  unfold data_range, checked_add. case_bool_decide as H1; [done|]. case_bool_decide as H2; [|done].
  case_bool_decide as H3; [done|]. intros [= <-] Hl. unfold header_struct_size, read_response_size in *. cbn. lia.
Qed.

(** what a read returns comes from the server, as it is. A read that succeeds returns nothing, or it was allowed by the
    access of the handle, sent one READ with the offset and the length that was asked for, and returns
    exactly the bytes that the answer points to, behind the headers and inside its frame. *)
Lemma read_returns_what_was_sent h max_len pos channel unbuffered options events data :
  runs (read_block_bytes_with_options h max_len pos channel unbuffered options) events (Some (Ok data)) ->
  data = [] \/
  am_file_read_data (rh_access h) = true /\
  exists m o dependency file_id incoming content range,
    Ev (C_ExecuteFor m o dependency (fo_replay options)) (Ok incoming) ∈ events /\
    cmd_content m = Rq_Read (mkReadRequest (read_flags h unbuffered) max_len pos file_id 1) /\
    ps_content (cp_message incoming) = Rs_Read content /\ data = slice (cp_raw incoming) range /\
    (0 <= rs_data_length content ->
       80 <= range.1 <= range.2 /\ range.2 <= zlen (cp_raw incoming) /\ zlen data = rs_data_length content).
Proof.
  unfold read_block_bytes_with_options. case_bool_decide; [intros [_ [= <-]]%runs_ret_Some; by left|].
  destruct (am_file_read_data (rh_access h)); cbn [negb]; [|by intros [_ [=]]%runs_ret_Some].
  intros (events1 & events2 & incoming & -> & H1 & H2)%runs_try_Ok. apply runs_ret_Some in H2 as [-> H2].
  destruct (status_try_from _) as [status|]; [|done].
  assert (data = [] \/ read_data incoming = Ok data) as [->|Hd]; [destruct status; auto; injection H2; auto|by left|]. right. split; [done|].
  unfold send_read_request_with_options in H1. apply runs_try_Ok in H1 as (events3 & events4 & file_id & -> & _ & H1). cbv zeta in H1.
  destruct (handle_execute_sent _ _ _ _ _ _ H1) as (m & dependency & Hm & Hin).
  unfold read_data in Hd. destruct (ps_content (cp_message incoming)) as [| | | | | | | |content| | | | | | | | | | | | | |] eqn:Ec; try done.
  destruct (data_range content (zlen (cp_raw incoming))) as [range|] eqn:Er; [|done]. injection Hd as <-.
  exists m, (with_operation (mkCallOptions [St_Success; St_EndOfFile] (Some Cmd_Read) true false None) options), dependency, file_id,
    incoming, content, range.
  split_and!; [set_solver|done|done|done|]. intros Hl. destruct (data_range_spec _ _ _ Er Hl) as (R1 & R2 & R3).
  split_and!; [lia|lia|done|]. rewrite slice_length; lia.
Qed.

(** ** Querying *)

(** The body of an error response is long enough for the fixed part of the answer to a query. *)
Lemma error_body_shape l body :
  error_response_ok l -> encode_body (write_error_response l) = Some body ->
  exists a b c d e f rest, body = 9 :: 0 :: a :: b :: c :: d :: e :: f :: rest.
Proof.
  intros Hl Hb. destruct (error_response_law 64 l Hl) as (y & Hw & Hr). rewrite (encode_body_writes _ _ Hw) in Hb. injection Hb as <-.
  assert (Hd : decode_body read_error_response (replicate 64 0 ++ le_bytes 2 9 ++ y) = Some (Ok l)).
  { apply decode_body_reads; [done|]. by apply reads_to_reads_any, reads_reads_to. }
  change (le_bytes 2 9) with [9; 0] in *.
  destruct y as [|a [|b [|c [|d [|e [|f rest]]]]]]; try (vm_compute in Hd; discriminate Hd). cbn. by eexists _, _, _, _, _, _, _.
Qed.

Lemma query_reads_error header a b c d e f rest :
  length header = 64%nat ->
  exists data, decode_body (read_response_content Cmd_QueryInfo) (header ++ 9 :: 0 :: a :: b :: c :: d :: e :: f :: rest)
    = Some (Ok (Rs_QueryInfo data)).
Proof.
  intros Hl. do 65 (destruct header as [|? header]; [try discriminate Hl|]); [|discriminate Hl].
  eexists. cbn -[le_value Z.to_nat]. reflexivity.
Qed.

(** A query whose answer does not fit never says how much would. The server reports the size in the error body of
    its answer, whatever contexts that has; the body is read as the successful answer of a query, in which the size is
    not looked for, so that the caller is told that the buffer is too small and not what is required. *)
Lemma overflow_hides_required_size header l body t n status :
  length header = 64%nat -> error_response_ok l -> encode_body (write_error_response l) = Some body ->
  status = St_BufferOverflow \/ status = St_InfoLengthMismatch ->
  exists content, decode_body (read_response_content Cmd_QueryInfo) (header ++ body) = Some (Ok content) /\
    forall h raw form, hd_status h = status_code status ->
      query_answer t n (mkCommandResponse (mkPlainResponse h content) raw form) = Err (OE_BufferTooSmall None n).
Proof.
  intros Hh Hl Hb Hs. destruct (error_body_shape _ _ Hl Hb) as (a & b & c & d & e & f & rest & ->).
  destruct (query_reads_error header a b c d e f rest Hh) as [data Hd]. exists (Rs_QueryInfo data). split; [done|].
  intros h raw form Hst. unfold query_answer. cbn [cp_message ps_header ps_content]. rewrite Hst.
  by destruct Hs as [-> | ->].
Qed.

(** ** Witnesses *)

Definition sample_grant : CreateContext CreateContextResponseData := mkContext (context_name CT_DH2Q) (CS_DH2Q (mkDh2qResp 60 2)).


Definition sample_handle : ResourceHandle :=
  mkHandle [120] (mkFileGeneration (mkFileId 4 4) (sample_token 8) (sample_token 3)) u32_max
    (Some (mkDurableGrant 60 true (mkGuid 0 0 0 (replicate 8 0)))) None sample_settings (opened_facts (sample_created 0 [])).

(** The share is still the one that the file was opened on. *)
Definition sample_ensured : list (event Call answer) :=
  sample_current ++ [ev C_LoadFile (rh_generation sample_handle)].


Definition sample_read_request : Request :=
  let m := request_new (Rq_Read (mkReadRequest 0 3 10 (mkFileId 4 4) 1)) in
  m <| cmd_header := (cmd_header m) <| hd_tree_id := Some 7 |> |> <| cmd_security := Some Pr_Encrypt |>.

Definition sample_read_answer : Response :=
  mkCommandResponse (cp_message (sample_response (Rs_Read (mkReadResponse 80 4)))) (replicate 80 0 ++ [1; 2; 3; 4])
    (mkForm false true false false).

(** Four bytes are returned where three were asked for. *)
Definition sample_reading : list (event Call answer) :=
  [ev C_LoadOpen true] ++ sample_ensured ++ [ev C_LoadFile (rh_generation sample_handle)] ++ sample_ensured ++
  [ev C_LoadFile (rh_generation sample_handle); ev C_LoadClosed false; ev C_LoadGeneration (sample_generation 2);
   ev (C_ExecuteFor sample_read_request (mkCallOptions [St_Success; St_EndOfFile] (Some Cmd_Read) true false None)
         (sample_token 8) RPol_NeverReplay) (Ok sample_read_answer)].

