(* ===== verification/Directory.v ===== *)
(** Directories (crates/smb/src/resource/directory.rs): the query of one page of entries, the stream that fetches the
    pages on demand, and watching a directory for changes.

    The stream is two tasks that share a channel and a [Notify]: the fetch loop, which asks the server for a page,
    sends its entries and parks until it is woken, and the consumer, which polls the channel and signals
    demand when it finds it empty. Their steps interleave. *)
From S2P Require Import Prelude Effects Async Clock Reducer ObjectState Recovery Bytes Header Operation Crypto Dialects.
From S2P Require Import Session Stream Codec Security ChainedList CreateContexts Fsctl TreeConnect Messages Queries.
From S2P Require Import Content Tree Resource.
Local Open Scope Z_scope.
Local Open Scope async_scope.

(** ** One page *)

(** [DirAccessMask::list_directory], the same bits as the access of the file *)
Definition list_directory (access : Z) : bool := Z.testbit access 0.

Section query.
Context {T : Type} (class : QueryDirectoryInfoClass) (read_item : bin T).
Context (h : ResourceHandle).

(** [QueryDirectoryResponse::read_output], over the reader of an entry *)
Definition read_output (output : bytes) : result ShareError (list T) :=
  match read_chained 8 read_item (mkStream output O) with
  | Some (_, Ok items) => Ok items
  | Some (_, Err _) => Err OE_BinRWError
  | None => Err OE_Panic
  end.

(** What [send_query] makes of a response. *)
Definition query_page (response : Response) : result ShareError (list T) :=
  match status_try_from (hd_status (ps_header (cp_message response))) with
  | None => Err OE_SmbMsgError
  | Some St_Success =>
      match ps_content (cp_message response) with
      | Rs_QueryDirectory output => read_output output
      | _ => Err OE_SmbMsgError
      end
  | Some St_NoMoreFiles => Ok []
  | Some St_InfoLengthMismatch => Err OE_InvalidArgument
  | Some St_InvalidInfoClass => Err (OE_UnexpectedMessageStatus (status_code St_InvalidInfoClass))
  | Some status => Err (OE_UnexpectedMessageStatus (status_code status))
  end.

(** A release build: the assertion on the buffer size is not compiled. *)
Definition send_query (pattern : list Z) (restart : bool) (buffer_size : Z) : io (list T) :=
  if negb (list_directory (rh_access h)) then mret (Err OE_MissingPermissions)
  else if bool_decide (buffer_size > se_max_transact_size (rh_conn_info h)) then mret (Err OE_InvalidArgument)
  else
    file_id <-? handle_file_id h;
    response <-? handle_execute_content h
      (Rq_QueryDirectory (mkQueryDirectoryRequest class (if restart then 1 else 0) 0 file_id buffer_size pattern))
      (mkCallOptions [St_Success; St_NoMoreFiles; St_InfoLengthMismatch; St_InvalidInfoClass] (Some Cmd_QueryDirectory)
         false true None);
    a_lift (query_page response).

(** The buffer size that [query_with_options] uses. *)
Definition query_buffer_size (buffer_size : Z) : Z := Z.min buffer_size (se_max_transact_size (rh_conn_info h)).

End query.

(** ** The stream of entries *)

Section stream.
Context {T : Type}.

Abbreviation Item := (result ShareError T).

(** Where the fetch loop stands: at a query, sending what is left of a page, parked, or at its end with the
    sender dropped. *)
Inductive FetchLoop := FL_Query (is_first : bool) | FL_Send (items : list Item) | FL_Wait | FL_Ended.

(** Where the consumer stands: between two polls, or in one, behind the receive and before it looks whether the
    channel is empty. *)
Inductive Consumer := CN_Idle | CN_Received | CN_Dropped.

Record PageStream := mkPages {
  pg_channel : list Item;
  pg_loop : FetchLoop;
  pg_demand : bool;
  pg_cancelled : bool;
  pg_consumer : Consumer
}.

#[export] Instance eta_PageStream : Eta PageStream := fun s =>
  mkPages (pg_channel s) (pg_loop s) (pg_demand s) (pg_cancelled s) (pg_consumer s).

Definition channel_capacity : nat := 1024.

(** [QueryDirectoryStream::new] *)
Definition pages_new : PageStream := mkPages [] (FL_Query true) false false CN_Idle.

Inductive PageEvent :=
| PE_Page (r : result ShareError (list T))
| PE_Send
| PE_Woken
| PE_Receive
| PE_SignalDemand
| PE_Drop.

Inductive PageOutput := PO_Item (i : Item) | PO_End.

(** What the loop does with the answer to a query. *)
Definition fetched (r : result ShareError (list T)) : FetchLoop :=
  match r with
  | Ok [] => FL_Ended
  | Ok items => FL_Send (Ok <$> items)
  | Err e => FL_Send [Err e]
  end.

(** [wait_for_demand] is biased towards the cancelled token; a permit of the [Notify] is stored until it is taken. *)
Definition page_step (s : PageStream) (event : PageEvent) : option (PageStream * list PageOutput) :=
  match event, pg_loop s with
  | PE_Page r, FL_Query _ => Some (s <| pg_loop := fetched r |>, [])
  | PE_Send, FL_Send [] => Some (s <| pg_loop := FL_Wait |>, [])
  | PE_Send, FL_Send (item :: items) =>
      match pg_consumer s with
      | CN_Dropped => Some (s <| pg_loop := FL_Ended |>, [])
      | _ => if bool_decide (length (pg_channel s) < channel_capacity)%nat
             then Some (s <| pg_channel := pg_channel s ++ [item] |> <| pg_loop := FL_Send items |>, []) else None
      end
  | PE_Woken, FL_Wait =>
      if pg_cancelled s then Some (s <| pg_loop := FL_Ended |>, [])
      else if pg_demand s then Some (s <| pg_demand := false |> <| pg_loop := FL_Query false |>, []) else None
  | PE_Receive, loop =>
      match pg_consumer s, pg_channel s, loop with
      | CN_Idle, item :: channel, _ => Some (s <| pg_channel := channel |> <| pg_consumer := CN_Received |>, [PO_Item item])
      | CN_Idle, [], FL_Ended => Some (s, [PO_End])
      | _, _, _ => None
      end
  | PE_SignalDemand, _ =>
      match pg_consumer s with
      | CN_Received =>
          Some (s <| pg_demand := match pg_channel s with [] => true | _ => pg_demand s end |> <| pg_consumer := CN_Idle |>, [])
      | _ => None
      end
  | PE_Drop, _ =>
      match pg_consumer s with
      | CN_Idle => Some (s <| pg_cancelled := true |> <| pg_demand := true |> <| pg_consumer := CN_Dropped |> <| pg_channel := [] |>, [])
      | _ => None
      end
  | _, _ => None
  end.

Fixpoint page_run (s : PageStream) (events : list PageEvent) : option (PageStream * list PageOutput) :=
  match events with
  | [] => Some (s, [])
  | event :: events =>
      match page_step s event with
      | None => None
      | Some (s, outputs) =>
          match page_run s events with
          | None => None
          | Some (s, outputs') => Some (s, outputs ++ outputs')
          end
      end
  end.

End stream.
Arguments PageStream T : clear implicits.
Arguments PageEvent T : clear implicits.
Arguments PageOutput T : clear implicits.
Arguments FetchLoop T : clear implicits.

(** ** Watching *)

Inductive DirectoryWatchResult :=
| WR_Notifications (l : list FileNotifyInformation)
| WR_NotifyEnumDir (provided_size : Z)
| WR_Cleanup
| WR_Cancelled
| WR_Error (e : ShareError).

(** [impl From<DirectoryWatchResult> for Result] *)
Definition watch_result (r : DirectoryWatchResult) : result ShareError (list FileNotifyInformation) :=
  match r with
  | WR_Notifications l => Ok l
  | WR_Cancelled | WR_Cleanup => Err OE_Cancelled
  | WR_Error e => Err e
  | WR_NotifyEnumDir provided_size => Err (OE_BufferTooSmall None provided_size)
  end.

(** What [_watch_options] makes of a response. *)
Definition watch_answer (output_buffer_length : Z) (response : Response) : DirectoryWatchResult :=
  let status := hd_status (ps_header (cp_message response)) in
  if bool_decide (status = status_code St_Success) then
    match ps_content (cp_message response) with
    | Rs_ChangeNotify buffer => WR_Notifications buffer
    | _ => WR_Error OE_SmbMsgError
    end
  else if bool_decide (status = status_code St_Cancelled) then WR_Cancelled
  else if bool_decide (status = status_code St_DeletePending) then WR_Cleanup
  else if bool_decide (status = status_code St_NotifyCleanup) then WR_Cleanup
  else if bool_decide (status = status_code St_NotifyEnumDir) then WR_NotifyEnumDir output_buffer_length
  else WR_Error (OE_UnexpectedMessageStatus status).

Definition watch_options (h : ResourceHandle) (filter : Z) (recursive : bool) (options : Options)
    : async Call answer DirectoryWatchResult :=
  if negb (list_directory (rh_access h)) then mret (WR_Error OE_MissingPermissions)
  else
    let output_buffer_length := calc_transact_size h None in
    file_id <-- handle_file_id h;
    match file_id with
    | Err e => mret (WR_Error e)
    | Ok file_id =>
        response <-- execute_content
          (Rq_ChangeNotify (mkChangeNotifyRequest (if recursive then 1 else 0) output_buffer_length file_id filter))
          (mkCallOptions [St_Success; St_Cancelled; St_DeletePending; St_NotifyCleanup; St_NotifyEnumDir] (Some Cmd_ChangeNotify)
             true (os_async_cancel options) (os_timeout options));
        mret match response with
             | Ok response => watch_answer output_buffer_length response
             | Err OE_Cancelled => WR_Cancelled
             | Err e => WR_Error e
             end
    end.

(** [publish_change_batch]: the channel, whether its receiver is there and whether the watch was cancelled; an overflow
    is reported with a send that waits for room. *)
Fixpoint publish_change_batch (capacity : nat) (closed : bool) (channel : list FileNotifyInformation)
    (items : list FileNotifyInformation) : list FileNotifyInformation * option ShareError * bool :=
  match items with
  | [] => (channel, None, true)
  | item :: items =>
      if closed then (channel, None, false)
      else if bool_decide (capacity <= length channel)%nat then (channel, Some OE_EventQueueOverflow, false)
      else publish_change_batch capacity closed (channel ++ [item]) items
  end.

(** What the stream of a directory's entries promises, for every interleaving of the fetch loop and the consumer. *)

Section stream.
Context {T : Type}.
Implicit Types (s : PageStream T) (events : list (PageEvent T)) (outputs : list (PageOutput T)).

(** ** Order *)

(** The entries of a page, or the error of its query. *)
Definition page_items (r : result ShareError (list T)) : list (result ShareError T) :=
  match r with Ok items => Ok <$> items | Err e => [Err e] end.

Definition fetched_items events : list (result ShareError T) :=
  flat_map (fun event => match event with PE_Page r => page_items r | _ => [] end) events.

Definition delivered outputs : list (result ShareError T) :=
  flat_map (fun output => match output with PO_Item i => [i] | PO_End => [] end) outputs.

(** What the loop still has to send. *)
Definition unsent s : list (result ShareError T) := match pg_loop s with FL_Send items => items | _ => [] end.

Definition empty_page (event : PageEvent T) : bool := match event with PE_Page (Ok []) => true | _ => false end.
Definition is_drop (event : PageEvent T) : bool := match event with PE_Drop => true | _ => false end.
Definition is_page (event : PageEvent T) : bool := match event with PE_Page _ => true | _ => false end.

Definition dropped s : bool := match pg_consumer s with CN_Dropped => true | _ => false end.
Definition ended s : bool := match pg_loop s with FL_Ended => true | _ => false end.

Lemma page_run_app s events1 events2 :
  page_run s (events1 ++ events2) =
    match page_run s events1 with
    | None => None
    | Some (s1, outputs1) =>
        match page_run s1 events2 with None => None | Some (s2, outputs2) => Some (s2, outputs1 ++ outputs2) end
    end.
Proof.
  revert s. induction events1 as [|e events1 IH]; intros s; cbn; [by destruct (page_run s events2) as [[]|]|].
  destruct (page_step s e) as [[s1 o]|]; [|done]. rewrite IH. destruct (page_run s1 events1) as [[s2 o2]|]; [|done].
  destruct (page_run s2 events2) as [[s3 o3]|]; [|done]. by rewrite app_assoc.
Qed.

(** ** The invariant *)

(** The channel is only empty for long while the loop has something to do; a dropped consumer has cancelled the loop. *)
Record pages_inv s : Prop := {
  pi_wakes : pg_loop s = FL_Wait \/ pg_loop s = FL_Send [] ->
    pg_channel s ≠ [] \/ pg_demand s = true \/ pg_consumer s = CN_Received;
  pi_dropped : dropped s = true -> pg_cancelled s = true /\ pg_demand s = true /\ pg_channel s = [];
  pi_cancelled : pg_cancelled s = true -> dropped s = true
}.

Lemma page_step_inv s event s' outputs : page_step s event = Some (s', outputs) -> pages_inv s -> pages_inv s'.
Proof.
  intros H [I1 I2 I3]. destruct s as [channel loop demand cancelled consumer]. unfold dropped in *.
  cbn [pg_channel pg_loop pg_demand pg_cancelled pg_consumer] in *. destruct event as [r| | | | |]; cbn in H.
  - destruct loop; [|done..]. injection H as <- <-. split; cbn; [|done|done].
    destruct r as [[|item items]|e]; cbn; intros [[=]|[=]].
  - destruct loop as [|[|item items]| |]; [done| | |done|done]; [injection H as <- <-; split; cbn; [|done|done]; intros _; by apply I1; right|].
    destruct consumer; [| |injection H as <- <-; split; cbn; [intros [[=]|[=]]|done|done]].
    all: case_bool_decide; [|done]; injection H as <- <-; split; cbn; [|done|done]; intros _; left; by destruct channel.
  - destruct loop; [done|done| |done]. destruct cancelled eqn:Ec; [injection H as <- <-; split; cbn; [intros [[=]|[=]]|done|done]|].
    destruct demand; [|done]. injection H as <- <-. split; cbn; [intros [[=]|[=]]| |done].
    intros Hd. by destruct (I2 Hd).
  - destruct consumer; [|by destruct loop..]. destruct channel as [|item channel].
    + destruct loop; [done..|]. injection H as <- <-. by split.
    + assert (Some (mkPages channel loop demand cancelled CN_Received, [PO_Item item]) = Some (s', outputs)) as [= <- <-] by by destruct loop.
      split; cbn; [by auto|done|]. intros Hc. by specialize (I3 Hc).
  - destruct consumer; [by destruct loop| |by destruct loop].
    assert (Some (mkPages channel loop (match channel with [] => true | _ => demand end) cancelled CN_Idle, []) = Some (s', outputs))
      as [= <- <-] by by destruct loop.
    split; cbn; [intros _; destruct channel; auto|done|]. intros Hc. by specialize (I3 Hc).
  - destruct consumer; [|by destruct loop..].
    assert (Some (mkPages [] loop true true CN_Dropped, []) = Some (s', outputs)) as [= <- <-] by by destruct loop.
    split; cbn; auto.
Qed.

Lemma page_run_inv s events s' outputs : page_run s events = Some (s', outputs) -> pages_inv s -> pages_inv s'.
Proof.
  revert s outputs. induction events as [|e events IH]; intros s outputs; cbn; [by intros [= <- <-]|].
  destruct (page_step s e) as [[s1 o]|] eqn:E; [|done]. destruct (page_run s1 events) as [[s2 o2]|] eqn:E2; [|done].
  intros [= <- <-] I. eapply IH; [exact E2|]. by eapply page_step_inv.
Qed.

Lemma pages_new_inv : pages_inv (@pages_new T).
Proof. split; cbn; [intros [[=]|[=]]|done|done]. Qed.

(** ** One step *)

(** Every entry is in the channel, still to be sent, or out. *)
Lemma page_step_items s event s' outputs :
  page_step s event = Some (s', outputs) -> dropped s' = false ->
  delivered outputs ++ pg_channel s' ++ unsent s' = pg_channel s ++ unsent s ++ fetched_items [event] /\ dropped s = false.
Proof.
  intros H Hd. destruct s as [channel loop demand cancelled consumer]. unfold dropped, unsent in *. cbn in *. rewrite app_nil_r.
  destruct event as [r| | | | |]; cbn in H.
  - destruct loop; [|done..]. injection H as <- <-. cbn in *. split; [|done]. by destruct r as [[|item items]|e].
  - destruct loop as [|[|item items]| |]; [done| | |done|done]; [injection H as <- <-; cbn in *; by rewrite app_nil_r|].
    destruct consumer; [| |by injection H as <- <-].
    all: case_bool_decide; [|done]; injection H as <- <-; cbn; by rewrite app_nil_r, <- app_assoc.
  - destruct loop; [done|done| |done]. destruct cancelled; [by injection H as <- <-|]. destruct demand; [|done]. by injection H as <- <-.
  - destruct consumer; [|by destruct loop..]. destruct channel as [|item channel].
    + destruct loop; [done..|]. by injection H as <- <-.
    + assert (Some (mkPages channel loop demand cancelled CN_Received, [PO_Item item]) = Some (s', outputs)) as [= <- <-] by by destruct loop.
      cbn. by rewrite app_nil_r.
  - destruct consumer; [by destruct loop| |by destruct loop].
    assert (Some (mkPages channel loop (match channel with [] => true | _ => demand end) cancelled CN_Idle, []) = Some (s', outputs))
      as [= <- <-] by by destruct loop. cbn. by rewrite app_nil_r.
  - destruct consumer; [|by destruct loop..].
    assert (Some (mkPages [] loop true true CN_Dropped, []) = Some (s', outputs)) as [= <- <-] by by destruct loop. done.
Qed.

(** The loop ends with an empty page, or because the consumer is gone. *)
Lemma page_step_ended s event s' outputs :
  page_step s event = Some (s', outputs) -> pages_inv s -> ended s' = true -> ended s = true \/ empty_page event = true \/ dropped s = true.
Proof.
  intros H [I1 I2 I3] He. destruct s as [channel loop demand cancelled consumer]. unfold ended, dropped in *. cbn in *.
  destruct event as [r| | | | |]; cbn in H.
  - destruct loop; [|done..]. injection H as <- <-. cbn in He. destruct r as [[|item items]|e]; cbn in *; auto.
  - destruct loop as [|[|item items]| |]; [done| | |done|done]; [by injection H as <- <-|].
    destruct consumer; [| |by auto]. all: case_bool_decide; [|done]; by injection H as <- <-.
  - destruct loop; [done|done| |done]. destruct cancelled; [by auto|]. destruct demand; [|done]. by injection H as <- <-.
  - destruct consumer; [|by destruct loop..]. destruct channel as [|item channel]; [destruct loop; by auto|].
    left. destruct loop; cbn in H; by injection H as <- <-.
  - left. destruct consumer; [by destruct loop| |by destruct loop]. destruct loop; cbn in H; by injection H as <- <-.
  - left. destruct consumer; [|by destruct loop..]. destruct loop; cbn in H; by injection H as <- <-.
Qed.

(** A consumer that is gone stays gone, and the loop asks for no other page. *)
Lemma page_step_dropped s event s' outputs :
  page_step s event = Some (s', outputs) -> pages_inv s -> dropped s = true ->
  dropped s' = true /\ ((exists first, pg_loop s' = FL_Query first) -> pg_loop s' = pg_loop s).
Proof.
  intros H [I1 I2 I3] Hd. destruct (I2 Hd) as (Hc & _). destruct s as [channel loop demand cancelled consumer]. unfold dropped in *.
  cbn in *. subst cancelled. destruct consumer; [done|done|]. destruct event as [r| | | | |]; cbn in H; try by destruct loop.
  - destruct loop; [|done..]. injection H as <- <-. split; [done|]. cbn. intros [first E]. by destruct r as [[|]|].
  - destruct loop as [|[|item items]| |]; [done| | |done|done]; injection H as <- <-; (split; [done|]); by intros [? [=]].
  - destruct loop; [done|done| |done]. injection H as <- <-. split; [done|]. by intros [? [=]].
Qed.

(** ** Runs *)

Lemma page_run_snoc (P : list (PageEvent T) -> PageStream T -> list (PageOutput T) -> Prop) :
  P [] pages_new [] ->
  (forall events s outputs event s' outputs', page_run pages_new events = Some (s, outputs) -> pages_inv s -> P events s outputs ->
     page_step s event = Some (s', outputs') -> P (events ++ [event]) s' (outputs ++ outputs')) ->
  forall events s outputs, page_run pages_new events = Some (s, outputs) -> P events s outputs.
Proof.
  intros H0 HS events. induction events as [|event events IH] using rev_ind; intros s outputs; [by intros [= <- <-]|].
  rewrite page_run_app. destruct (page_run pages_new events) as [[s1 o1]|] eqn:E; [|done]. cbn.
  destruct (page_step s1 event) as [[s2 o2]|] eqn:E2; [|done]. intros [= <- <-]. rewrite app_nil_r.
  eapply HS; [done| |by apply IH|done]. by eapply page_run_inv, pages_new_inv.
Qed.

Lemma dropped_loop s events s' outputs :
  page_run s events = Some (s', outputs) -> pages_inv s -> dropped s = true ->
  (length (List.filter is_page events) <= match pg_loop s with FL_Query _ => 1 | _ => 0 end)%nat.
Proof.
  revert s outputs. induction events as [|e events IH]; intros s outputs; cbn; [lia|].
  destruct (page_step s e) as [[s1 o]|] eqn:E; [|done]. destruct (page_run s1 events) as [[s2 o2]|] eqn:E2; [|done].
  intros [= <- _] I Hd. destruct (page_step_dropped _ _ _ _ E I Hd) as [Hd1 Hq].
  specialize (IH _ _ E2 (page_step_inv _ _ _ _ E I) Hd1). destruct e as [r| | | | |]; cbn [is_page length]; cycle 1.
  1-5: destruct (pg_loop s1) eqn:El; [|lia..]; by rewrite <- Hq by eauto.
  unfold page_step in E. destruct (pg_loop s) eqn:El; try done. injection E as <- <-. cbn in *. by destruct r as [[|]|]; cbn in *; lia.
Qed.

(** C17: the entries of a directory come out in order, each once. For every interleaving of the fetch loop and the consumer,
    what has been delivered, what is in the channel and what is still to be sent are the pages that the server
    has answered, in order; the stream ends when a page is empty or the consumer is gone, and not when a
    query fails. Once the consumer is gone no further page is asked for: when the consumer is dropped while a query is under
    way, that query may still be answered and nothing after it, and when it is dropped at any other moment (a page
    being sent, the loop waiting for demand, the loop over) not one page is fetched. *)
Theorem directory_stream_is_in_order events s outputs :
  page_run pages_new events = Some (s, outputs) ->
  (dropped s = false -> delivered outputs ++ pg_channel s ++ unsent s = fetched_items events) /\
  (ended s = true -> existsb empty_page events = true \/ dropped s = true) /\
  (forall events1 events2, events = events1 ++ PE_Drop :: events2 ->
     exists s1 outputs1, page_run pages_new events1 = Some (s1, outputs1) /\
       (length (List.filter is_page events2) <= match pg_loop s1 with FL_Query _ => 1 | _ => 0 end)%nat).
Proof.
  intros Hr. split_and!.
  - revert events s outputs Hr. apply (page_run_snoc (fun events s outputs => dropped s = false -> delivered outputs ++ pg_channel s ++ unsent s = fetched_items events)); [done|].
    intros events s outputs event s' outputs' _ _ IH Hs Hd. destruct (page_step_items _ _ _ _ Hs Hd) as [Hi Hd'].
    unfold delivered, fetched_items in *. rewrite !flat_map_app, <- (IH Hd'). rewrite <- !app_assoc. by rewrite Hi.
  - revert events s outputs Hr. apply (page_run_snoc (fun events s outputs => ended s = true -> existsb empty_page events = true \/ dropped s = true)); [done|].
    intros events s outputs event s' outputs' _ I IH Hs He. rewrite existsb_app. cbn.
    destruct (page_step_ended _ _ _ _ Hs I He) as [H|[H|H]].
    + destruct (IH H) as [H1|H1]; [left; by rewrite H1|right; by apply (page_step_dropped _ _ _ _ Hs I)].
    + left. rewrite H, !orb_true_r. done.
    + right. by apply (page_step_dropped _ _ _ _ Hs I).
  - intros events1 events2 ->. rewrite page_run_app in Hr. destruct (page_run pages_new events1) as [[s1 o1]|] eqn:E1; [|done].
    pose proof (page_run_inv _ _ _ _ E1 pages_new_inv) as I1. cbn [page_run] in Hr.
    destruct (page_step s1 PE_Drop) as [[s2 o2]|] eqn:E2; [|done]. pose proof (page_step_inv _ _ _ _ E2 I1) as I2.
    destruct (page_run s2 events2) as [[s3 o3]|] eqn:E3; [|done].
    assert (Hd : dropped s2 = true /\ pg_loop s2 = pg_loop s1).
    { unfold page_step in E2. destruct s1 as [channel [|[]| |] demand cancelled []]; try discriminate E2; by injection E2 as <- <-. }
    destruct Hd as [Hd Hl]. exists s1, o1. split; [done|]. rewrite <- Hl. exact (dropped_loop _ _ _ _ E3 I2 Hd).
Qed.

(** C18: the consumer and the fetch loop never wait for each other. Whenever the consumer waits for the next entry, it can be
    given one or the end of the stream, or the fetch loop has a step to take: the answer to its query, whatever it is, an
    entry to send, or the demand that wakes it. *)
Theorem directory_stream_never_stalls events s outputs :
  page_run pages_new events = Some (s, outputs) -> pg_consumer s = CN_Idle ->
  (exists s' output, page_step s PE_Receive = Some (s', [output])) \/
  (forall r, is_Some (page_step s (PE_Page r))) \/
  is_Some (page_step s PE_Send) \/ is_Some (page_step s PE_Woken).
Proof.
  intros Hr Hc. destruct (page_run_inv _ _ _ _ Hr pages_new_inv) as [I1 I2 I3].
  destruct s as [channel loop demand cancelled consumer]. cbn in *. subst consumer.
  destruct channel as [|item channel]; [|left; destruct loop; cbn; eauto].
  destruct loop as [first|[|item items]| |]; cbn; [by right; left; eauto|by right; right; left; eauto..| |by left; eauto].
  right. right. right. destruct cancelled; [by eauto|].
  destruct (I1 (or_introl eq_refl)) as [H|[->|H]]; [done|by eauto|done].
Qed.

End stream.

(** ** Witnesses *)

(** Two pages of entries, with the consumer faster than the loop; the second query fails. *)
Definition sample_pages : list (PageEvent Z) :=
  [PE_Page (Ok [1; 2]); PE_Send; PE_Receive; PE_SignalDemand; PE_Send; PE_Send; PE_Woken; PE_Receive; PE_SignalDemand;
   PE_Page (Err OE_InvalidArgument); PE_Send; PE_Send].

(** The consumer takes one entry of a page and goes; the loop, which waits for demand by then, is woken and ends. *)
Definition dropped_pages : list (PageEvent Z) :=
  [PE_Page (Ok [1]); PE_Send; PE_Receive; PE_SignalDemand; PE_Send].

Lemma directory_stream_is_in_order_witness :
  (exists s outputs, page_run pages_new sample_pages = Some (s, outputs) /\ ended s = false /\
    delivered outputs ++ pg_channel s ++ unsent s = [Ok 1; Ok 2; Err OE_InvalidArgument]) /\
  (forall events2 s outputs, page_run pages_new (dropped_pages ++ PE_Drop :: events2) = Some (s, outputs) ->
     length (List.filter is_page events2) = 0%nat) /\
  (exists s outputs, page_run pages_new (dropped_pages ++ [PE_Drop; PE_Woken]) = Some (s, outputs) /\ ended s = true).
Proof.
  split; [|split].
  - destruct (page_run pages_new sample_pages) as [[s outputs]|] eqn:E; [|discriminate E]. exists s, outputs.
    destruct (directory_stream_is_in_order sample_pages s outputs E) as [Ho _].
    vm_compute in E. injection E as <- <-. split; [reflexivity|]. split; [reflexivity|]. apply Ho. reflexivity.
  - intros events2 s outputs E. destruct (directory_stream_is_in_order _ s outputs E) as (_ & _ & H).
    destruct (H dropped_pages events2 eq_refl) as (s1 & outputs1 & E1 & H1). vm_compute in E1. injection E1 as <- <-. cbn in H1. lia.
  - eexists _, _. split; [vm_compute; reflexivity|reflexivity].
Defined.

Lemma directory_stream_never_stalls_witness :
  exists s, page_run pages_new sample_pages = Some (s, [PO_Item (Ok 1); PO_Item (Ok 2)]) /\
    ((exists s' output, page_step s PE_Receive = Some (s', [output])) \/ (forall r, is_Some (page_step s (PE_Page r))) \/
     is_Some (page_step s PE_Send) \/ is_Some (page_step s PE_Woken)).
Proof.
  eexists. split; [vm_compute; reflexivity|].
  eapply (directory_stream_never_stalls sample_pages); vm_compute; reflexivity.
Defined.

(** A query that fails again and again is streamed as errors without an end. *)
Lemma errors_never_end_stream e n :
  exists events s, page_run (@pages_new Z) events = Some (s, replicate n (PO_Item (Err e))) /\
    pg_loop s = FL_Query (bool_decide (n = 0%nat)) /\ pg_channel s = [] /\ pg_demand s = false /\
    pg_cancelled s = false /\ pg_consumer s = CN_Idle.
Proof.
  induction n as [|n (events & s & Hr & Hl & Hc & Hd & Hca & Hcn)]; [by exists [], pages_new|].
  exists (events ++ [PE_Page (Err e); PE_Send; PE_Receive; PE_SignalDemand; PE_Send; PE_Woken]), (mkPages [] (FL_Query false) false false CN_Idle).
  destruct s as [channel loop demand cancelled consumer]. cbn in *. subst.
  rewrite page_run_app, Hr. split; [|by repeat split]. cbn. f_equal. f_equal.
  symmetry. apply (replicate_cons_app n).
Qed.
