(* ===== verification/InfoTheorems.v ===== *)
(** What the information classes promise: values are read back by the class they were written for, a value that is
    read has the class that was asked for, which values no reader takes, and what becomes of times. *)
From S2P Require Import Prelude Effects Bytes Header Stream Codec Security ChainedList CreateContexts Fsctl Messages.
From S2P Require Import Queries QueryProps FileInfo DirectoryInfo InfoClasses Tree Resource Directory.
Local Open Scope Z_scope.

(** Every value of the table in its ranges is read back from its raw form. *)
Definition read_back (C : Type) `{InfoRanges C} : Prop :=
  forall c (v : info_value c), value_ok c v ->
    exists raw, raw_from (info_from c v) = Some raw /\ parse_value c raw = Some (Ok v).

(** What the reader of a table makes of the bytes of an answer, and of which types the result can be. *)
Definition read_as_asked (C : Type) `{InfoClasses C} : Prop :=
  forall (c : C) raw,
    raw_parse raw c =
      match read_value c (mkStream raw O) with
      | None => None
      | Some (_, Ok v) => Some (Ok (info_from c v))
      | Some (_, Err _) => Some (Err Bin_NoVariant)
      end /\
    forall i, raw_parse raw c = Some (Ok i) ->
      info_class i = c /\ (exists v, info_try_from c i = Ok v /\ i = info_from c v) /\
      forall c', c' <> c ->
        info_try_from c' i = Err (UnexpectedInformationType (repr_code c') (repr_code c)) /\ repr_code c' <> repr_code c.

Section conversions.
Context {C : Type} `{InfoClasses C, !ReprLaws C}.

Lemma repr_listed (c : C) : c ∈ repr_all (A:=C).
Proof using ReprLaws0. apply list_elem_of_In, (find_some _ _ (repr_exact c)). Qed.

Lemma repr_code_inj (c c' : C) : repr_code c = repr_code c' -> c = c'.
Proof using ReprLaws0. intros E. pose proof (repr_exact c) as Hc. rewrite E, repr_exact in Hc. by injection Hc as ->. Qed.

Lemma try_from_from c (v : info_value c) : info_try_from c (info_from c v) = Ok v.
Proof.
  unfold info_try_from, info_from. cbn [info_class info_content]. destruct (decide (c = c)) as [e|]; [|done].
  by rewrite (proof_irrel e eq_refl).
Qed.

(** The trial of the variants of the table comes to the reader of the class. *)
Lemma read_info_class c s :
  read_info c s =
    match read_value c s with
    | None => None
    | Some (s', Ok v) => Some (s', Ok (info_from c v))
    | Some (_, Err _) => Some (s, Err Bin_NoVariant)
    end.
Proof.
  unfold read_info, info_from. assert (Hn : forall l, (forall s' e, read_value c s = Some (s', Err e) ->
    read_variants (read_variant c <$> l) s = Some (s, Err Bin_NoVariant))).
  { intros l s' e He. induction l as [|variant l IH]; [done|]. cbn [fmap list_fmap read_variants]. rewrite IH.
    unfold read_variant, mbind, eff_bind, bin_assert. case_bool_decide as Hc; [subst variant|done].
    cbn [e_lift]. by rewrite He. }
  pose proof (repr_listed c) as Hc. induction (repr_all (A:=C)) as [|variant l IH]; [by apply not_elem_of_nil in Hc|].
  cbn [fmap list_fmap read_variants]. unfold read_variant at 1, bin_assert, mbind, eff_bind. case_bool_decide as Hv.
  - subst variant. cbn. destruct (read_value c s) as [[s' [v|e]]|] eqn:E; [done| |done]. by eapply Hn.
  - cbn. apply IH. apply elem_of_cons in Hc as [|]; done.
Qed.

Lemma try_from_other c (i : Info C) :
  info_class i <> c -> info_try_from c i = Err (UnexpectedInformationType (repr_code c) (repr_code (info_class i))).
Proof. intros Hc. unfold info_try_from. by destruct (decide _). Qed.

Lemma table_read_as_asked : read_as_asked C.
Proof using ReprLaws0.
  intros c raw. unfold raw_parse. rewrite read_info_class.
  split; [by destruct (read_value c (mkStream raw 0)) as [[s [v|e]]|]|].
  destruct (read_value c (mkStream raw 0)) as [[s [v|e]]|]; cbn; intros i [= <-]. split_and!; [done| |].
  - exists v. split; [apply try_from_from|done].
  - intros c' Hc. split; [apply (try_from_other c' (mkInfo c v)); cbn; congruence|]. intros E. by apply Hc, repr_code_inj.
Qed.
End conversions.

Lemma laws_read_back C `{InfoLaws C, !ReprLaws C} : read_back C.
Proof.
  intros c v Hv. destruct (value_law c v Hv) as (x & Hw & Hr). exists x. split.
  - unfold raw_from, write_info, info_from. cbn [info_class info_content].
    change (mkStream [] O) with (at_end []). by rewrite (Hw [] eq_refl).
  - destruct (Hr [] eq_refl) as [pos Hp]. unfold parse_value, raw_parse. cbn [app] in Hp.
    rewrite read_info_class, Hp. cbn [fmap option_fmap option_map snd]. by rewrite try_from_from.
Qed.

(** C21: every value of every information class that the client can query or set, whose fields fit their widths and whose
    names are not empty, is read back unchanged from the bytes it is written as, by the reader of its class; and a page of
    directory entries of any class is split into exactly the entries it was made of. *)
Theorem information_is_read_back :
  read_back QueryFileInfoClass /\ read_back SetFileInfoClass /\ read_back QueryFileSystemInfoClass /\
  read_back SetFileSystemInfoClass /\
  forall class (entries : list (query_directory_value class)), Forall (value_ok class) entries ->
    exists page, write_chained chained_alignment (write_value class) entries (mkStream [] O) = Some (at_end page, Ok tt) /\
      read_output (read_value class) page = Ok entries.
Proof.
  split_and!; try (apply laws_read_back; apply _). intros class l Hl. destruct (page_body class l Hl) as (x & Hw & Hr). exists x. split.
  - by apply (Hw [] eq_refl).
  - destruct (Hr [] eq_refl) as [pos Hp]. unfold read_output. cbn [app] in Hp. unfold chained_alignment in Hp. by rewrite Hp.
Qed.

(** C22: an answer is read as the class that was asked for and as no other. In each of the five tables the variants are tried in
    order, and the trial comes to the reader of the class that was asked for alone, whatever the bytes are: what it
    reads is a value of that class, and where it fails no other variant takes the bytes. The value converts to the type of
    its class unchanged, and to the type of any other class not at all: that is refused with the codes of the class expected
    and of the class that came, which are different. *)
Theorem information_has_class_asked :
  read_as_asked QueryFileInfoClass /\ read_as_asked SetFileInfoClass /\ read_as_asked QueryFileSystemInfoClass /\
  read_as_asked SetFileSystemInfoClass /\ read_as_asked QueryDirectoryInfoClass.
Proof. split_and!; apply table_read_as_asked. Qed.

(** A name that is empty is written and can never be read: the answer to a query for a volume that has no label, for a
    file system that has no name or for the name of a root directory is an error, although a length of zero is what the
    server writes for it. *)
Lemma empty_names_are_refused :
  (forall time serial objects, exists raw,
     raw_from (@info_from _ query_fs_info QS_FsVolume (mkFsVolume time serial objects [])) = Some raw /\
     parse_value QS_FsVolume raw = Some (Err (inl Bin_NoVariant))) /\
  (forall attributes maximum, exists raw,
     raw_from (@info_from _ query_fs_info QS_FsAttribute (mkFsAttribute attributes maximum [])) = Some raw /\
     parse_value QS_FsAttribute raw = Some (Err (inl Bin_NoVariant))) /\
  (exists raw, raw_from (@info_from _ query_file_info QF_AlternateName ([] : list Z)) = Some raw /\
     parse_value QF_AlternateName raw = Some (Err (inl Bin_NoVariant))) /\
  exists raw, raw_from (@info_from _ query_file_info QF_NormalizedName ([] : list Z)) = Some raw /\
    parse_value QF_NormalizedName raw = Some (Err (inl Bin_NoVariant)).
Proof.
  split_and!.
  - intros time serial objects. eexists. split; reflexivity.
  - intros attributes maximum. eexists. split; reflexivity.
  - eexists. split; reflexivity.
  - eexists. split; reflexivity.
Qed.

(** One entry whose reparse tag is not in the table hides the page it is on, with all its other entries. *)
Example unknown_reparse_tag_hides_page :
  exists page, read_output (read_value QD_FullDirectory) page = Err OE_BinRWError /\
    read_output (read_value QD_FullDirectory) (take 70 (replicate 4 0 ++ drop 4 page)) =
      Ok [mkDirType 0 0 0 0 0 0 0 0x20 (Some 0) None () [97]].
Proof.
  exists (concat [le_bytes 4 72; le_bytes 4 0; replicate 48 0; le_bytes 4 0x20; le_bytes 4 2; le_bytes 4 0; le_bytes 2 97; replicate 2 0;
    le_bytes 4 0; le_bytes 4 0; replicate 48 0; le_bytes 4 0x400; le_bytes 4 2; le_bytes 4 0xb0000001; le_bytes 2 98]).
  split; vm_compute; reflexivity.
Qed.

(** The conversions of times. [since_epoch] is exact for every value of the type. [date_time], which the printed forms use,
    is exact and undone by the conversion back exactly up to the value 184467440737095516 (the year 2185), and above it
    overflows, for instance on the largest signed value, with which servers say never. *)
Lemma file_time_conversions v :
  in_range u64_max v ->
  (let '(secs, nanos) := since_epoch v in secs * 1000000000 + nanos = v * 100 /\ 0 <= nanos < 1000000000) /\
  (v <= 184467440737095516 -> date_time v = Some (v * 100) /\ from_date_time (v * 100) = v) /\
  (184467440737095516 < v -> date_time v = None /\ date_time_wrapped v < v * 100).
Proof.
  unfold in_range, since_epoch, date_time, from_date_time, date_time_wrapped, scale_value_to_secs, scale_value_to_nanos.
  change (1000000000 / 100) with 10000000. intros Hv. split_and!.
  - pose proof (Z.div_mod v 10000000). lia.
  - pose proof (Z.mod_pos_bound v 10000000). lia.
  - pose proof (Z.mod_pos_bound v 10000000). lia.
  - intros H. split; [rewrite bool_decide_eq_true_2 by ints; done|]. rewrite Z.mod_small by lia. by apply Z.div_mul.
  - intros H. rewrite bool_decide_eq_false_2 by ints. split; [done|]. pose proof (Z.mod_pos_bound (v * 100) (2 ^ 64)). lia.
Qed.

