(* ===== verification/Ndr.v ===== *)
(** NDR64 (crates/smb-rpc/src/ndr64): values that are aligned before they are written, pointers that are written as a reference
    and their value, strings, and arrays, whose elements are gone through twice: first for the references and the plain
    fields, then for what the references stand for.

    The assertions of debug builds are left out, as in a release build. *)
From S2P Require Import Prelude Effects Bytes Stream Codec.
Local Open Scope Z_scope.

Definition ndr64_alignment : nat := 8.

(** ** Alignment ([NdrAlign]) *)

Definition write_aligned (to : nat) (w : bin unit) : bin unit := _ ← write_align to; w.
Definition read_aligned {A} (to : nat) (r : bin A) : bin A := _ ← read_align to; r.

(** [Ndr64Align] *)
Definition put_ndr (n : nat) (v : Z) : bin unit := write_aligned ndr64_alignment (put n v).
Definition get_ndr (n : nat) : bin Z := read_aligned ndr64_alignment (get n).

(** ** Pointers *)

Definition ref_id_unique_default : Z := 0x20000.
Definition null_ptr_ref_id : Z := 0.

Inductive NdrPtr (T : Type) := Uninit | RefIdRead (ref_id : Z) | Resolved (value : option T).
Arguments Uninit {T}.
Arguments RefIdRead {T} ref_id.
Arguments Resolved {T} value.

Inductive NdrPtrWriteStage := WS_NoArraySupport | WS_ArraySupportWriteRefId | WS_ArraySupportWriteData.

#[export] Instance NdrPtrWriteStage_eq : EqDecision NdrPtrWriteStage.
Proof. solve_decision. Defined.

(** [write_refid] and [write_data] of a stage *)
Definition write_refid (stage : NdrPtrWriteStage) : bool :=
  match stage with WS_NoArraySupport | WS_ArraySupportWriteRefId => true | WS_ArraySupportWriteData => false end.
Definition write_data (stage : NdrPtrWriteStage) : bool :=
  match stage with WS_NoArraySupport | WS_ArraySupportWriteData => true | WS_ArraySupportWriteRefId => false end.

Section pointer.
Context {T : Type} (write_value : T -> bin unit) (read_value : bin T).

(** The value of a reference. *)
Definition read_ptr_value (ref_id : Z) : bin (NdrPtr T) :=
  if bool_decide (ref_id <> null_ptr_ref_id)
  then value ← read_aligned ndr64_alignment read_value; mret (Resolved (Some value))
  else mret (Resolved None).

(** [NdrPtrReadMode::NoArraySupport] *)
Definition read_ptr : bin (NdrPtr T) := ref_id ← get_ndr 8; read_ptr_value ref_id.

(** [NdrPtrReadMode::WithArraySupport]: a parent that is not a reference is a panic. *)
Definition read_ptr_staged (parent : option (NdrPtr T)) : bin (NdrPtr T) :=
  match parent with
  | None => ref_id ← get_ndr 8; mret (RefIdRead ref_id)
  | Some (RefIdRead ref_id) => read_ptr_value ref_id
  | Some _ => e_panic
  end.

Definition write_ptr (stage : NdrPtrWriteStage) (p : NdrPtr T) : bin unit :=
  match p with
  | Resolved value =>
      _ ← (if write_refid stage
           then put_ndr 8 (match value with Some _ => ref_id_unique_default | None => null_ptr_ref_id end)
           else mret tt);
      if write_data stage
      then put_opt (fun v => write_aligned ndr64_alignment (write_value v)) value
      else mret tt
  | _ => e_panic
  end.

End pointer.

(** ** Strings

    [NdrString<u16>]: of the allocated length only the presence counts. *)
Definition write_ndr_string (data : list Z) : bin unit :=
  _ ← put_ndr 8 (zlen data);
  _ ← put_ndr 8 0;
  _ ← put_ndr 8 (zlen data);
  write_aligned ndr64_alignment (write_list (put 2) data).
Definition read_ndr_string : bin (list Z) :=
  _ ← get_ndr 8;
  offset ← get_ndr 8;
  _ ← bin_assert (bool_decide (offset = 0));
  actual_count ← get_ndr 8;
  read_aligned ndr64_alignment (read_count (Z.to_nat actual_count) (get 2)).

(** [FromStr], of the units of the string *)
Definition ndr_string_of (units : list Z) : list Z := units ++ [0].

(** ** Arrays *)

Section array.
Context {E : Type} (write_element : NdrPtrWriteStage -> E -> bin unit) (read_element : option E -> bin E).

Fixpoint resolve_elements (refs : list E) : bin (list E) :=
  match refs with
  | [] => mret []
  | refs_only :: refs =>
      element ← read_aligned ndr64_alignment (read_element (Some refs_only));
      elements ← resolve_elements refs;
      mret (element :: elements)
  end.

(** More elements than the array has are refused; fewer are not. *)
Definition read_ndr_array (count : Z) : bin (list E) :=
  max_count ← get_ndr 8;
  _ ← bin_assert (negb (bool_decide (count > max_count)));
  data ← read_count (Z.to_nat count) (read_aligned ndr64_alignment (read_element None));
  resolve_elements data.

Definition write_ndr_array (data : list E) : bin unit :=
  _ ← put_ndr 8 (zlen data);
  _ ← write_list (fun item => write_aligned ndr64_alignment (write_element WS_ArraySupportWriteRefId item)) data;
  write_list (fun item => write_aligned ndr64_alignment (write_element WS_ArraySupportWriteData item)) data.

End array.

(** [NdrArrayStructureElement]: a plain field of an element, which the second pass takes from the first. *)
Definition read_structure_element {T} (read_value : bin T) (prev : option T) : bin T :=
  match prev with Some v => mret v | None => read_aligned ndr64_alignment read_value end.

(** ** Round trips *)

Lemma aligned_law {A} n to (w : bin unit) (r : bin A) a :
  (forall m, exists x, writes m w x /\ reads m r x a) -> exists x, writes n (write_aligned to w) x /\ reads n (read_aligned to r) x a.
Proof.
  intros H. destruct (H (n + padding to n)%nat) as (x & Hw & Hr). exists (replicate (padding to n) 0 ++ x). split.
  - eapply writes_bind; [apply writes_align|]. by rewrite length_replicate.
  - eapply reads_bind; [apply reads_align|]. by rewrite length_replicate.
Qed.

Lemma ndr_law n w v : 0 <= v < 256 ^ Z.of_nat w -> exists x, writes n (put_ndr w v) x /\ reads n (get_ndr w) x v.
Proof. intros H. apply aligned_law. intros m. exists (le_bytes w v). split; [apply writes_put|by apply reads_get]. Qed.

(** Two writers and two readers in a row. *)
Lemma seq_law {A B} n (w1 : bin unit) (r1 : bin A) a w2 (r2 : A -> bin B) b :
  (exists x, writes n w1 x /\ reads n r1 x a) -> (forall m, exists y, writes m w2 y /\ reads m (r2 a) y b) ->
  exists z, writes n (_ ← w1; w2) z /\ reads n (v ← r1; r2 v) z b.
Proof.
  intros (x & Hw & Hr) H. destruct (H (n + length x)%nat) as (y & Hyw & Hyr). exists (x ++ y).
  split; [by eapply writes_bind|by eapply reads_bind].
Qed.

Lemma ret_law {A} n (a : A) : exists x, writes n (mret tt) x /\ reads n (mret a) x a.
Proof. exists []. split; [apply writes_ret|apply reads_ret]. Qed.

Lemma map_law {A B} n (w : bin unit) (r : bin A) (f : A -> B) a :
  (exists x, writes n w x /\ reads n r x a) -> exists x, writes n w x /\ reads n (v ← r; mret (f v)) x (f a).
Proof. intros (x & Hw & Hr). exists x. split; [done|by apply reads_map]. Qed.

Definition ndr_string_ok (data : list Z) : Prop := Forall (in_range u16_max) data /\ zlen data <= u64_max.

Lemma ndr_string_law n data : ndr_string_ok data -> exists x, writes n (write_ndr_string data) x /\ reads n read_ndr_string x data.
Proof.
  intros [H1 H2]. assert (Hz : 0 <= zlen data < 256 ^ Z.of_nat 8) by (unfold zlen in *; cbn; ints).
  unfold write_ndr_string, read_ndr_string. apply (seq_law _ _ _ (zlen data)); [by apply ndr_law|]. intros m1.
  apply (seq_law _ _ _ 0); [by apply ndr_law|]. intros m2. cbv beta. destruct (seq_law m2 (put_ndr 8 (zlen data)) (get_ndr 8) (zlen data)
    (write_aligned ndr64_alignment (write_list (put 2) data))
    (fun actual_count => read_aligned ndr64_alignment (read_count (Z.to_nat actual_count) (get 2))) data) as (x & Hw & Hr).
  - by apply ndr_law.
  - intros m3. apply aligned_law. intros m4. destruct (ints_law m4 2 data) as (Hw & Hr & _).
    { eapply Forall_impl; [exact H1|]. intros v Hv. unfold in_range, u16_max in Hv. cbn. lia. }
    rewrite zlen_nat. eexists. split; [exact Hw|exact Hr].
  - exists x. split; [done|]. by eapply reads_skip; [apply reads_assert|].
Qed.

Section pointer_laws.
Context {T : Type} (write_value : T -> bin unit) (read_value : bin T) (fits : T -> Prop).
Context (Hlaw : forall n v, fits v -> exists x, writes n (write_value v) x /\ reads n read_value x v).

Definition ptr_ok (p : NdrPtr T) : Prop := match p with Resolved o => from_option fits True o | _ => False end.

(** What the first pass over an array leaves of a pointer. *)
Definition ptr_ref (p : NdrPtr T) : NdrPtr T :=
  match p with Resolved (Some _) => RefIdRead ref_id_unique_default | Resolved None => RefIdRead null_ptr_ref_id | _ => p end.

Lemma ptr_value_law n value :
  from_option fits True value ->
  exists x, writes n (put_opt (fun v => write_aligned ndr64_alignment (write_value v)) value) x /\
    reads n (read_ptr_value read_value (match value with Some _ => ref_id_unique_default | None => null_ptr_ref_id end)) x (Resolved value).
Proof using Hlaw.
  intros H. destruct value as [v|]; cbn [from_option put_opt] in *; [|apply ret_law].
  unfold read_ptr_value. rewrite bool_decide_eq_true_2 by done. apply (map_law _ _ _ (fun v => Resolved (Some v))).
  apply aligned_law. intros m. by apply Hlaw.
Qed.

Lemma ptr_law n p : ptr_ok p -> exists x, writes n (write_ptr write_value WS_NoArraySupport p) x /\ reads n (read_ptr read_value) x p.
Proof using Hlaw.
  destruct p as [| |value]; [done..|]. intros H. cbn [write_ptr write_refid write_data]. unfold read_ptr.
  eapply seq_law; [by apply ndr_law; destruct value|]. intros m. by apply ptr_value_law.
Qed.

Lemma ptr_ref_law n p :
  ptr_ok p -> exists x, writes n (write_ptr write_value WS_ArraySupportWriteRefId p) x /\
    reads n (read_ptr_staged read_value None) x (ptr_ref p).
Proof.
  destruct p as [| |value]; [done..|]. intros _. cbn [write_ptr write_refid write_data read_ptr_staged].
  replace (ptr_ref (Resolved value)) with (@RefIdRead T (match value with Some _ => ref_id_unique_default | None => null_ptr_ref_id end))
    by (by destruct value).
  destruct (ndr_law n 8 (match value with Some _ => ref_id_unique_default | None => null_ptr_ref_id end)) as (x & Hw & Hr);
    [by destruct value|].
  exists (x ++ []). split; [eapply writes_bind; [done|apply writes_ret]|]. eapply reads_bind; [done|apply reads_ret].
Qed.

Lemma ptr_data_law n p :
  ptr_ok p -> exists x, writes n (write_ptr write_value WS_ArraySupportWriteData p) x /\
    reads n (read_ptr_staged read_value (Some (ptr_ref p))) x p.
Proof using Hlaw.
  destruct p as [| |value]; [done..|]. intros H. cbn [write_ptr write_refid write_data]. destruct (ptr_value_law n value H) as (x & Hw & Hr). exists x. split.
  - intros base Hn. unfold mbind, eff_bind, mret, eff_ret. by apply Hw.
  - by destruct value.
Qed.
End pointer_laws.

Section array_laws.
Context {E : Type} (write_element : NdrPtrWriteStage -> E -> bin unit) (read_element : option E -> bin E).
Context (fits : E -> Prop) (refs : E -> E).
Context (Hrefs : forall n e, fits e -> exists x, writes n (write_element WS_ArraySupportWriteRefId e) x /\
  reads n (read_element None) x (refs e)).
Context (Hdata : forall n e, fits e -> exists x, writes n (write_element WS_ArraySupportWriteData e) x /\
  reads n (read_element (Some (refs e))) x e).

Lemma array_refs_law n l : Forall fits l -> exists x,
  writes n (write_list (fun item => write_aligned ndr64_alignment (write_element WS_ArraySupportWriteRefId item)) l) x /\
  reads n (read_count (length l) (read_aligned ndr64_alignment (read_element None))) x (refs <$> l).
Proof using Hrefs.
  intros H. revert n. induction H as [|e l He Hl IH]; intros n; [apply ret_law|]. cbn [write_list length read_count].
  eapply seq_law; [apply aligned_law; intros m; by apply Hrefs|]. intros m. cbv beta. apply (map_law _ _ _ (cons (refs e))), IH.
Qed.

Lemma array_data_law n l : Forall fits l -> exists x,
  writes n (write_list (fun item => write_aligned ndr64_alignment (write_element WS_ArraySupportWriteData item)) l) x /\
  reads n (resolve_elements read_element (refs <$> l)) x l.
Proof using Hdata.
  intros H. revert n. induction H as [|e l He Hl IH]; intros n; [apply ret_law|]. cbn [write_list fmap list_fmap resolve_elements].
  eapply seq_law; [apply aligned_law; intros m; by apply Hdata|]. intros m. cbv beta. apply (map_law _ _ _ (cons e)), IH.
Qed.

Lemma ndr_array_law n l :
  Forall fits l -> zlen l <= u64_max ->
  exists x, writes n (write_ndr_array write_element l) x /\ reads n (read_ndr_array read_element (zlen l)) x l.
Proof using Hrefs Hdata.
  intros H Hl. unfold write_ndr_array, read_ndr_array. eapply seq_law; [apply ndr_law; unfold zlen in *; cbn; ints|].
  intros m. cbv beta. rewrite bool_decide_eq_false_2 by lia. rewrite zlen_nat.
  destruct (seq_law m _ _ (refs <$> l) _ (fun data => resolve_elements read_element data) l (array_refs_law m l H)
    (fun m' => array_data_law m' l H)) as (x & Hw & Hr).
  exists x. split; [done|]. by eapply reads_skip; [apply reads_assert|].
Qed.
End array_laws.
