(* ===== verification/Rpc.v ===== *)
(** Connection-oriented RPC (crates/smb-rpc/src/pdu.rs): the packets of requests and responses. A packet begins with a
    common header; the length of the whole packet is written back into it when the content has been written. *)
From S2P Require Import Prelude Effects Bytes Stream Codec Security.
Local Open Scope Z_scope.

Record DceRpcSyntaxId := mkSyntaxId { sy_uuid : Guid; sy_version : Z }.

#[export] Instance DceRpcSyntaxId_eq : EqDecision DceRpcSyntaxId.
Proof. solve_decision. Defined.

Definition write_syntax_id (s : DceRpcSyntaxId) : bin unit := _ ← write_guid (sy_uuid s); put 4 (sy_version s).
Definition read_syntax_id : bin DceRpcSyntaxId := uuid ← read_guid; version ← get 4; mret (mkSyntaxId uuid version).

(** [NDR64_SYNTAX_ID] and [BIND_TIME_NEGOTIATION] *)
Definition ndr64_syntax_id : DceRpcSyntaxId :=
  mkSyntaxId (mkGuid 0x71710533 0xbeba 0x4937 [0x83; 0x19; 0xb5; 0xdb; 0xef; 0x9c; 0xcc; 0x36]) 1.
Definition bind_time_negotiation : DceRpcSyntaxId := mkSyntaxId (mkGuid 0x6cb71c2c 0x9812 0x4540 [0x03; 0; 0; 0; 0; 0; 0; 0]) 2.

(** [BIND_TIME_NEGOTIATION_PREFIX]: the first three groups of the text of a GUID *)
Definition is_bind_time_negotiation (s : DceRpcSyntaxId) : bool :=
  bool_decide (gu_0 (sy_uuid s) = 0x6cb71c2c) && bool_decide (gu_1 (sy_uuid s) = 0x9812) && bool_decide (gu_2 (sy_uuid s) = 0x4540).

(** ** Contents *)

Record DcRpcCoPktBindContextElement := mkBindContext {
  bc_context_id : Z;
  bc_abstract_syntax : DceRpcSyntaxId;
  bc_transfer_syntaxes : list DceRpcSyntaxId
}.

(** [calc = len as u8] *)
Definition put_count8 {A} (l : list A) : bin unit := put 1 (zlen l mod 256).

Definition write_bind_context (c : DcRpcCoPktBindContextElement) : bin unit :=
  _ ← put 2 (bc_context_id c);
  _ ← put_count8 (bc_transfer_syntaxes c);
  _ ← put 1 0;
  _ ← write_syntax_id (bc_abstract_syntax c);
  write_list write_syntax_id (bc_transfer_syntaxes c).
Definition read_bind_context : bin DcRpcCoPktBindContextElement :=
  context_id ← get 2;
  num_transfer_syntaxes ← get 1;
  _ ← get 1;
  abstract_syntax ← read_syntax_id;
  transfer_syntaxes ← read_count (Z.to_nat num_transfer_syntaxes) read_syntax_id;
  mret (mkBindContext context_id abstract_syntax transfer_syntaxes).

Record DcRpcCoPktBind := mkBind {
  bd_max_xmit_frag : Z;
  bd_max_recv_frag : Z;
  bd_assoc_group_id : Z;
  bd_context_elements : list DcRpcCoPktBindContextElement
}.

Definition write_bind (b : DcRpcCoPktBind) : bin unit :=
  _ ← put 2 (bd_max_xmit_frag b);
  _ ← put 2 (bd_max_recv_frag b);
  _ ← put 4 (bd_assoc_group_id b);
  _ ← put_count8 (bd_context_elements b);
  _ ← put 1 0;
  _ ← put 2 0;
  write_list write_bind_context (bd_context_elements b).
Definition read_bind : bin DcRpcCoPktBind :=
  max_xmit_frag ← get 2;
  max_recv_frag ← get 2;
  assoc_group_id ← get 4;
  num_context_items ← get 1;
  _ ← get 1;
  _ ← get 2;
  context_elements ← read_count (Z.to_nat num_context_items) read_bind_context;
  mret (mkBind max_xmit_frag max_recv_frag assoc_group_id context_elements).

Inductive DceRpcCoPktBindAckDefResult := BR_Acceptance | BR_UserRejection | BR_ProviderRejection | BR_NegotiateAck.
#[export] Instance DefResult_eq : EqDecision DceRpcCoPktBindAckDefResult.
Proof. solve_decision. Defined.
#[export] Instance DefResult_repr : Repr DceRpcCoPktBindAckDefResult := {|
  repr_code r := match r with BR_Acceptance => 0 | BR_UserRejection => 1 | BR_ProviderRejection => 2 | BR_NegotiateAck => 3 end;
  repr_all := [BR_Acceptance; BR_UserRejection; BR_ProviderRejection; BR_NegotiateAck] |}.

Inductive DcRpcCoPktBindAckReason :=
| BA_NotSpecified | BA_AbstractSyntaxNotSupported | BA_ProposedTransferSyntaxesNotSupported | BA_LocalLimitExceeded.
#[export] Instance BindAckReason_repr : Repr DcRpcCoPktBindAckReason := {|
  repr_code r := match r with
    | BA_NotSpecified => 0 | BA_AbstractSyntaxNotSupported => 1 | BA_ProposedTransferSyntaxesNotSupported => 2
    | BA_LocalLimitExceeded => 3 end;
  repr_all := [BA_NotSpecified; BA_AbstractSyntaxNotSupported; BA_ProposedTransferSyntaxesNotSupported; BA_LocalLimitExceeded] |}.

Record DcRpcCoPktBindAckResult := mkBindAckResult {
  br_result : DceRpcCoPktBindAckDefResult;
  br_reason : DcRpcCoPktBindAckReason;
  br_syntax : DceRpcSyntaxId
}.

Definition write_bind_ack_result (r : DcRpcCoPktBindAckResult) : bin unit :=
  _ ← put_repr 2 (br_result r); _ ← put_repr 2 (br_reason r); write_syntax_id (br_syntax r).
Definition read_bind_ack_result : bin DcRpcCoPktBindAckResult :=
  result ← get_repr 2; reason ← get_repr 2; syntax ← read_syntax_id; mret (mkBindAckResult result reason syntax).

Record DcRpcCoPktBindAck := mkBindAck {
  ba_max_xmit_frag : Z;
  ba_max_recv_frag : Z;
  ba_assoc_group_id : Z;
  ba_port_spec : bytes;
  ba_results : list DcRpcCoPktBindAckResult
}.

(** [SizedAnsiString]: an empty one is refused. *)
Definition read_sized_ansi (size : Z) : bin bytes :=
  if bool_decide (size = 0) then e_lift (Err Bin_Custom) else read_count (Z.to_nat size) (get 1).

(** The alignment in front of the results is only read. *)
Definition write_bind_ack (b : DcRpcCoPktBindAck) : bin unit :=
  _ ← put 2 (ba_max_xmit_frag b);
  _ ← put 2 (ba_max_recv_frag b);
  _ ← put 4 (ba_assoc_group_id b);
  _ ← put 2 (zlen (ba_port_spec b) mod 65536);
  _ ← write_list (put 1) (ba_port_spec b);
  _ ← put_count8 (ba_results b);
  _ ← put 1 0;
  _ ← put 2 0;
  write_list write_bind_ack_result (ba_results b).
Definition read_bind_ack : bin DcRpcCoPktBindAck :=
  max_xmit_frag ← get 2;
  max_recv_frag ← get 2;
  assoc_group_id ← get 4;
  port_spec_len ← get 2;
  port_spec ← read_sized_ansi port_spec_len;
  _ ← read_align 4;
  num_results ← get 1;
  _ ← get 1;
  _ ← get 2;
  results ← read_count (Z.to_nat num_results) read_bind_ack_result;
  mret (mkBindAck max_xmit_frag max_recv_frag assoc_group_id port_spec results).

Inductive DceRpcCoPktBindRejectReason :=
| RJ_ReasonNotSpecified | RJ_TemporaryCongestion | RJ_LocalLimitExceeded | RJ_CalledPaddrUnknown | RJ_ProtocolVersionNotSupported
| RJ_DefaultContextNotSupported | RJ_UserDataNotReadable | RJ_NoPsapAvailable | RJ_AuthenticationTypeNotRecognized
| RJ_AuthenticationTypeNotSupported.
#[export] Instance BindRejectReason_repr : Repr DceRpcCoPktBindRejectReason := {|
  repr_code r := match r with
    | RJ_ReasonNotSpecified => 0 | RJ_TemporaryCongestion => 1 | RJ_LocalLimitExceeded => 2 | RJ_CalledPaddrUnknown => 3
    | RJ_ProtocolVersionNotSupported => 4 | RJ_DefaultContextNotSupported => 5 | RJ_UserDataNotReadable => 6
    | RJ_NoPsapAvailable => 7 | RJ_AuthenticationTypeNotRecognized => 8 | RJ_AuthenticationTypeNotSupported => 9 end;
  repr_all := [RJ_ReasonNotSpecified; RJ_TemporaryCongestion; RJ_LocalLimitExceeded; RJ_CalledPaddrUnknown;
    RJ_ProtocolVersionNotSupported; RJ_DefaultContextNotSupported; RJ_UserDataNotReadable; RJ_NoPsapAvailable;
    RJ_AuthenticationTypeNotRecognized; RJ_AuthenticationTypeNotSupported] |}.

(** A version is a pair of bytes. *)
Definition write_rpc_version (v : Z * Z) : bin unit := _ ← put 1 v.1; put 1 v.2.
Definition read_rpc_version : bin (Z * Z) := major ← get 1; minor ← get 1; mret (major, minor).

Record DcRpcCoPktBindNak := mkBindNak { bn_reason : DceRpcCoPktBindRejectReason; bn_protocols : list (Z * Z) }.

Definition write_bind_nak (b : DcRpcCoPktBindNak) : bin unit :=
  _ ← put_repr 2 (bn_reason b); _ ← put_count8 (bn_protocols b); write_list write_rpc_version (bn_protocols b).
Definition read_bind_nak : bin DcRpcCoPktBindNak :=
  reason ← get_repr 2;
  num_protocols ← get 1;
  protocols ← read_count (Z.to_nat num_protocols) read_rpc_version;
  mret (mkBindNak reason protocols).

Record DcRpcCoPktRequest := mkRpcRequest { rq_alloc_hint : Z; rq_context_id : Z; rq_opnum : Z; rq_stub_data : bytes }.

Definition write_rpc_request (r : DcRpcCoPktRequest) : bin unit :=
  _ ← put 4 (rq_alloc_hint r); _ ← put 2 (rq_context_id r); _ ← put 2 (rq_opnum r); write_all (rq_stub_data r).
Definition read_rpc_request : bin DcRpcCoPktRequest :=
  alloc_hint ← get 4; context_id ← get 2; opnum ← get 2; stub_data ← bytes_until_eof;
  mret (mkRpcRequest alloc_hint context_id opnum stub_data).

Record DcRpcCoPktResponse := mkRpcResponse { rs_context_id : Z; rs_cancel_count : Z; rs_stub_data : bytes }.

Definition write_rpc_response (r : DcRpcCoPktResponse) : bin unit :=
  _ ← put 4 0; _ ← put 2 (rs_context_id r); _ ← put 1 (rs_cancel_count r); _ ← put 1 0; write_all (rs_stub_data r).
Definition read_rpc_response : bin DcRpcCoPktResponse :=
  _ ← get 4; context_id ← get 2; cancel_count ← get 1; _ ← get 1; stub_data ← bytes_until_eof;
  mret (mkRpcResponse context_id cancel_count stub_data).

Record DcRpcCoPktFault := mkFault {
  ft_alloc_hint : Z;
  ft_context_id : Z;
  ft_cancel_count : Z;
  ft_reserved : Z;
  ft_status : Z;
  ft_reserved2 : Z
}.

Definition write_fault (f : DcRpcCoPktFault) : bin unit :=
  _ ← put 4 (ft_alloc_hint f);
  _ ← put 2 (ft_context_id f);
  _ ← put 1 (ft_cancel_count f);
  _ ← put 1 (ft_reserved f);
  _ ← put 4 (ft_status f);
  put 4 (ft_reserved2 f).
Definition read_fault : bin DcRpcCoPktFault :=
  alloc_hint ← get 4; context_id ← get 2; cancel_count ← get 1; reserved ← get 1; status ← get 4; reserved2 ← get 4;
  mret (mkFault alloc_hint context_id cancel_count reserved status reserved2).

(** ** Packets ([rpc_pkts!])

    A direction is a table of packet types with the contents of each. *)
Class PacketTypes (C T : Type) := {
  pt_repr :: Repr T;
  get_type : C -> T;
  write_content : C -> bin unit;
  read_content : T -> bin C
}.

Inductive DceRpcCoPktRequestType := PQ_Request | PQ_Bind.
#[export] Instance RequestType_repr : Repr DceRpcCoPktRequestType := {|
  repr_code t := match t with PQ_Request => 0 | PQ_Bind => 11 end; repr_all := [PQ_Request; PQ_Bind] |}.
Inductive DcRpcCoPktRequestContent := CQ_Request (r : DcRpcCoPktRequest) | CQ_Bind (b : DcRpcCoPktBind).

#[export] Instance request_types : PacketTypes DcRpcCoPktRequestContent DceRpcCoPktRequestType := {|
  get_type c := match c with CQ_Request _ => PQ_Request | CQ_Bind _ => PQ_Bind end;
  write_content c := match c with CQ_Request r => write_rpc_request r | CQ_Bind b => write_bind b end;
  read_content t := match t with
    | PQ_Request => r ← read_rpc_request; mret (CQ_Request r)
    | PQ_Bind => b ← read_bind; mret (CQ_Bind b) end
|}.

Inductive DceRpcCoPktResponseType := PS_Response | PS_Fault | PS_BindAck | PS_BindNak.
#[export] Instance ResponseType_repr : Repr DceRpcCoPktResponseType := {|
  repr_code t := match t with PS_Response => 2 | PS_Fault => 3 | PS_BindAck => 12 | PS_BindNak => 13 end;
  repr_all := [PS_Response; PS_Fault; PS_BindAck; PS_BindNak] |}.
Inductive DcRpcCoPktResponseContent :=
| PC_Response (r : DcRpcCoPktResponse) | PC_Fault (f : DcRpcCoPktFault) | PC_BindAck (b : DcRpcCoPktBindAck)
| PC_BindNak (b : DcRpcCoPktBindNak).

#[export] Instance response_types : PacketTypes DcRpcCoPktResponseContent DceRpcCoPktResponseType := {|
  get_type c := match c with
    | PC_Response _ => PS_Response | PC_Fault _ => PS_Fault | PC_BindAck _ => PS_BindAck | PC_BindNak _ => PS_BindNak end;
  write_content c := match c with
    | PC_Response r => write_rpc_response r | PC_Fault f => write_fault f | PC_BindAck b => write_bind_ack b
    | PC_BindNak b => write_bind_nak b end;
  read_content t := match t with
    | PS_Response => r ← read_rpc_response; mret (PC_Response r)
    | PS_Fault => f ← read_fault; mret (PC_Fault f)
    | PS_BindAck => b ← read_bind_ack; mret (PC_BindAck b)
    | PS_BindNak => b ← read_bind_nak; mret (PC_BindNak b) end
|}.

(** [DceRpcCoPktFlags] *)
Definition first_frag (flags : Z) : bool := Z.testbit flags 0.
Definition last_frag (flags : Z) : bool := Z.testbit flags 1.
Definition object_uuid (flags : Z) : bool := Z.testbit flags 7.

Record DceRpcCoPkt (C : Type) := mkPkt { pk_pfc_flags : Z; pk_packed_drep : Z; pk_call_id : Z; pk_content : C }.
Arguments mkPkt {C}.
Arguments pk_pfc_flags {C}.
Arguments pk_packed_drep {C}.
Arguments pk_call_id {C}.
Arguments pk_content {C}.

(** [DceRpcCo..Pkt::new] *)
Definition pkt_new {C} (content : C) (call_id flags packed_drep : Z) : DceRpcCoPkt C := mkPkt flags packed_drep call_id content.

Section packets.
Context {C T : Type} `{PacketTypes C T}.

Definition write_pkt (p : DceRpcCoPkt C) : bin unit :=
  pdu_start ← stream_position;
  _ ← put 1 5;
  _ ← put 1 0;
  _ ← put_repr 1 (get_type (pk_content p));
  _ ← put 1 (pk_pfc_flags p);
  _ ← put 4 (pk_packed_drep p);
  frag_length ← put_marker 2;
  _ ← put 2 0;
  _ ← put 4 (pk_call_id p);
  _ ← write_content (pk_content p);
  write_roff_b (mret tt) frag_length (mkMarker 0 pdu_start).

(** The content is read from the rest of the packet and as many bytes as the packet has in all. *)
Definition read_pkt : bin (DceRpcCoPkt C) :=
  _ ← get_const 1 5;
  _ ← get_const 1 0;
  ptype ← get_repr 1;
  pfc_flags ← get 1;
  _ ← bin_assert (negb (object_uuid pfc_flags));
  packed_drep ← get 4;
  frag_length ← get_marker 2;
  _ ← get_const 2 0;
  call_id ← get 4;
  content ← take_seek (Z.to_nat frag_length.2) (read_content ptype);
  mret (mkPkt pfc_flags packed_drep call_id content).

(** [TryInto<Vec<u8>>] and [TryFrom<&[u8]>] *)
Definition pkt_to_bytes (p : DceRpcCoPkt C) : option (result BinError bytes) :=
  match write_pkt p (mkStream [] O) with
  | None => None
  | Some (s, Ok _) => Some (Ok (st_data s))
  | Some (_, Err e) => Some (Err e)
  end.
Definition pkt_of_bytes (data : bytes) : option (result BinError (DceRpcCoPkt C)) := snd <$> read_pkt (mkStream data O).

End packets.

(** Round trips of RPC packets: the contents of both directions, and a packet that is the whole of a message. *)

(** A limit past the end of the data is none. *)
Lemma reads_to_take_seek {A} n k (r : bin A) x a : reads_to n r x a -> (length x <= k)%nat -> reads_to n (take_seek k r) x a.
Proof.
  intros H Hk base Hn. unfold take_seek. cbn [st_pos st_data]. rewrite take_ge by (rewrite length_app; lia).
  by rewrite (H base Hn).
Qed.

(** ** Values *)

Record syntax_ok (s : DceRpcSyntaxId) : Prop := { sy_uuid_ok : guid_ok (sy_uuid s); sy_version_ok : in_range u32_max (sy_version s) }.

Lemma syntax_law n s : syntax_ok s -> exists x, writes n (write_syntax_id s) x /\ reads n read_syntax_id x s /\ zlen x = 20.
Proof.
  destruct s as [uuid version]. intros [H1 H2]. cbn [sy_uuid sy_version] in *. destruct (guid_law n uuid H1) as (x & Hw & Hr & Hl).
  exists (concat [x; le_bytes 4 version]). split_and!; [unfold write_syntax_id; cbn [sy_uuid sy_version]; emit| |range].
  unfold read_syntax_id. do 2 take_step. apply reads_ret.
Qed.

Record bind_context_ok (c : DcRpcCoPktBindContextElement) : Prop := {
  bc_context_id_ok : in_range u16_max (bc_context_id c);
  bc_abstract_syntax_ok : syntax_ok (bc_abstract_syntax c);
  bc_transfer_syntaxes_ok : Forall syntax_ok (bc_transfer_syntaxes c);
  bc_count_ok : zlen (bc_transfer_syntaxes c) < 256
}.

Lemma syntax_law' n s : syntax_ok s -> exists x, writes n (write_syntax_id s) x /\ reads n read_syntax_id x s /\ zlen x <= 20.
Proof. intros H. destruct (syntax_law n s H) as (x & ? & ? & ?). exists x. split_and!; [done..|lia]. Qed.

Lemma writes_count8 {A} n (l : list A) : zlen l < 256 -> writes n (put_count8 l) (le_bytes 1 (zlen l)).
Proof. intros H. unfold put_count8. rewrite Z.mod_small by (unfold zlen in *; lia). apply writes_put. Qed.
#[local] Hint Resolve writes_count8 : codec.

(** Sizes of lists whose elements have at most [k] bytes. *)
Lemma foldr_const {A} (l : list A) k : foldr Z.add 0 ((fun _ => k) <$> l) = k * zlen l.
Proof. induction l as [|a l IH]; cbn [fmap list_fmap foldr]; [unfold zlen; cbn; lia|]. rewrite IH. unfold zlen. cbn [length]. lia. Qed.

Definition bind_context_size (c : DcRpcCoPktBindContextElement) : Z := 24 + 20 * zlen (bc_transfer_syntaxes c).

Lemma bind_context_law n c :
  bind_context_ok c ->
  exists x, writes n (write_bind_context c) x /\ reads n read_bind_context x c /\ zlen x <= bind_context_size c.
Proof.
  destruct c as [id abstract transfer]. intros [H1 H2 H3 H4]. cbn [bc_context_id bc_abstract_syntax bc_transfer_syntaxes] in *.
  destruct (syntax_law (n + 4) abstract H2) as (x & Hw & Hr & Hl).
  destruct (list_law write_syntax_id read_syntax_id syntax_ok (fun _ => 20) syntax_law' transfer (n + 24) H3) as (y & Hyw & Hyr & Hyl).
  rewrite foldr_const in Hyl. exists (concat [le_bytes 2 id; le_bytes 1 (zlen transfer); le_bytes 1 0; x; y]). split_and!.
  - unfold write_bind_context. cbn [bc_context_id bc_abstract_syntax bc_transfer_syntaxes]. emit.
  - unfold read_bind_context. do 4 take_step. rewrite zlen_nat. take_step. apply reads_ret.
  - unfold bind_context_size. cbn [bc_transfer_syntaxes]. range.
Qed.

Record bind_ok (b : DcRpcCoPktBind) : Prop := {
  bd_max_xmit_frag_ok : in_range u16_max (bd_max_xmit_frag b);
  bd_max_recv_frag_ok : in_range u16_max (bd_max_recv_frag b);
  bd_assoc_group_id_ok : in_range u32_max (bd_assoc_group_id b);
  bd_context_elements_ok : Forall bind_context_ok (bd_context_elements b);
  bd_count_ok : zlen (bd_context_elements b) < 256
}.

Definition bind_size (b : DcRpcCoPktBind) : Z := 12 + foldr Z.add 0 (bind_context_size <$> bd_context_elements b).

Lemma bind_law n b : bind_ok b -> exists x, writes n (write_bind b) x /\ reads n read_bind x b /\ zlen x <= bind_size b.
Proof.
  destruct b as [xmit recv group contexts]. intros [H1 H2 H3 H4 H5].
  cbn [bd_max_xmit_frag bd_max_recv_frag bd_assoc_group_id bd_context_elements] in *.
  destruct (list_law write_bind_context read_bind_context bind_context_ok bind_context_size bind_context_law contexts (n + 12) H4)
    as (y & Hyw & Hyr & Hyl).
  exists (concat [le_bytes 2 xmit; le_bytes 2 recv; le_bytes 4 group; le_bytes 1 (zlen contexts); le_bytes 1 0; le_bytes 2 0; y]).
  split_and!.
  - unfold write_bind. cbn [bd_max_xmit_frag bd_max_recv_frag bd_assoc_group_id bd_context_elements]. emit.
  - unfold read_bind. do 6 take_step. rewrite zlen_nat. take_step. apply reads_ret.
  - unfold bind_size. cbn [bd_context_elements]. range.
Qed.

Record bind_ack_result_ok (r : DcRpcCoPktBindAckResult) : Prop := { br_syntax_ok : syntax_ok (br_syntax r) }.

#[export] Instance DefResult_laws : ReprLaws DceRpcCoPktBindAckDefResult.
Proof. by intros []. Qed.
#[export] Instance BindAckReason_laws : ReprLaws DcRpcCoPktBindAckReason.
Proof. by intros []. Qed.
#[export] Instance BindRejectReason_laws : ReprLaws DceRpcCoPktBindRejectReason.
Proof. by intros []. Qed.

Lemma bind_ack_result_law n r :
  bind_ack_result_ok r -> exists x, writes n (write_bind_ack_result r) x /\ reads n read_bind_ack_result x r /\ zlen x <= 24.
Proof.
  destruct r as [result reason syntax]. intros [H]. cbn [br_syntax] in *.
  destruct (syntax_law (n + 4) syntax H) as (x & Hw & Hr & Hl).
  exists (concat [le_bytes 2 (repr_code result); le_bytes 2 (repr_code reason); x]). split_and!; [| |range].
  - unfold write_bind_ack_result. cbn [br_result br_reason br_syntax]. emit.
  - unfold read_bind_ack_result. do 3 take_step. apply reads_ret.
Qed.

(** The writer does not align the results: an acknowledgement is read back at positions where they are aligned anyway. *)
Record bind_ack_ok (n : nat) (b : DcRpcCoPktBindAck) : Prop := {
  ba_max_xmit_frag_ok : in_range u16_max (ba_max_xmit_frag b);
  ba_max_recv_frag_ok : in_range u16_max (ba_max_recv_frag b);
  ba_assoc_group_id_ok : in_range u32_max (ba_assoc_group_id b);
  ba_port_spec_ok : bytes_ok (ba_port_spec b);
  ba_port_spec_len_ok : 0 < zlen (ba_port_spec b) <= u16_max;
  ba_aligned_ok : padding 4 (n + 10 + length (ba_port_spec b)) = O;
  ba_results_ok : Forall bind_ack_result_ok (ba_results b);
  ba_count_ok : zlen (ba_results b) < 256
}.

Definition bind_ack_size (b : DcRpcCoPktBindAck) : Z := 14 + zlen (ba_port_spec b) + 24 * zlen (ba_results b).

Lemma ansi_law n s :
  bytes_ok s -> 0 < zlen s ->
  exists x, writes n (write_list (put 1) s) x /\ reads n (read_sized_ansi (zlen s)) x s /\ zlen x = zlen s.
Proof.
  intros H Hs. destruct (ints_law n 1 s) as (Hw & Hr & Hl).
  { eapply Forall_impl; [exact H|]. intros v Hv. unfold byte_ok in Hv. cbn. lia. }
  eexists. split_and!; [exact Hw| |lia]. unfold read_sized_ansi. rewrite bool_decide_eq_false_2 by lia. by rewrite zlen_nat.
Qed.

Lemma reads_no_align n m : padding m n = O -> reads n (read_align m) [] tt.
Proof. intros H. pose proof (reads_align n m) as Ha. by rewrite H in Ha. Qed.

Lemma bind_ack_law n b :
  bind_ack_ok n b -> exists x, writes n (write_bind_ack b) x /\ reads n read_bind_ack x b /\ zlen x <= bind_ack_size b.
Proof.
  destruct b as [xmit recv group port results]. intros [H1 H2 H3 H4 H5 H6 H7 H8].
  cbn [ba_max_xmit_frag ba_max_recv_frag ba_assoc_group_id ba_port_spec ba_results] in *.
  destruct (ansi_law (n + 10) port) as (x & Hw & Hr & Hl); [done|lia|].
  destruct (list_law _ _ bind_ack_result_ok (fun _ => 24) bind_ack_result_law results (n + 14 + length port) H7) as (y & Hyw & Hyr & Hyl).
  rewrite foldr_const in Hyl. assert (Hlen : length x = length port) by (unfold zlen in Hl; lia).
  exists (concat [le_bytes 2 xmit; le_bytes 2 recv; le_bytes 4 group; le_bytes 2 (zlen port); x; le_bytes 1 (zlen results);
    le_bytes 1 0; le_bytes 2 0; y]).
  split_and!.
  - unfold write_bind_ack. cbn [ba_max_xmit_frag ba_max_recv_frag ba_assoc_group_id ba_port_spec ba_results].
    rewrite Z.mod_small by range. emit.
  - unfold read_bind_ack. do 5 take_step. eapply reads_skip.
    { eapply reads_at; [|apply (reads_no_align _ _ H6)]. len. }
    do 3 take_step. rewrite zlen_nat. take_step. apply reads_ret.
  - unfold bind_ack_size. cbn [ba_port_spec ba_results]. range.
Qed.

Record bind_nak_ok (b : DcRpcCoPktBindNak) : Prop := {
  bn_protocols_ok : Forall (fun v => byte_ok v.1 /\ byte_ok v.2) (bn_protocols b);
  bn_count_ok : zlen (bn_protocols b) < 256
}.

Lemma version_law n (v : Z * Z) :
  byte_ok v.1 /\ byte_ok v.2 -> exists x, writes n (write_rpc_version v) x /\ reads n read_rpc_version x v /\ zlen x <= 2.
Proof.
  destruct v as [major minor]. unfold byte_ok. cbn [fst snd]. intros [H1 H2].
  exists (concat [le_bytes 1 major; le_bytes 1 minor]). split_and!; [unfold write_rpc_version; cbn [fst snd]; emit| |range].
  unfold read_rpc_version. do 2 take_step. apply reads_ret.
Qed.

Lemma bind_nak_law n b :
  bind_nak_ok b -> exists x, writes n (write_bind_nak b) x /\ reads n read_bind_nak x b /\ zlen x <= 3 + 2 * zlen (bn_protocols b).
Proof.
  destruct b as [reason protocols]. intros [H1 H2]. cbn [bn_protocols] in *.
  destruct (list_law _ _ _ (fun _ => 2) version_law protocols (n + 3) H1) as (y & Hyw & Hyr & Hyl). rewrite foldr_const in Hyl.
  exists (concat [le_bytes 2 (repr_code reason); le_bytes 1 (zlen protocols); y]). split_and!; [| |range].
  - unfold write_bind_nak. cbn [bn_reason bn_protocols]. emit.
  - unfold read_bind_nak. do 2 take_step. rewrite zlen_nat. take_step. apply reads_ret.
Qed.

Record rpc_request_ok (r : DcRpcCoPktRequest) : Prop := {
  rq_alloc_hint_ok : in_range u32_max (rq_alloc_hint r);
  rq_context_id_ok : in_range u16_max (rq_context_id r);
  rq_opnum_ok : in_range u16_max (rq_opnum r)
}.

(** The data goes to the end of the packet. *)
Lemma rpc_request_law n r :
  rpc_request_ok r ->
  exists x, writes n (write_rpc_request r) x /\ reads_to n read_rpc_request x r /\ zlen x <= 8 + zlen (rq_stub_data r).
Proof.
  destruct r as [hint context opnum data]. intros [H1 H2 H3]. cbn [rq_alloc_hint rq_context_id rq_opnum rq_stub_data] in *.
  exists (concat [le_bytes 4 hint; le_bytes 2 context; le_bytes 2 opnum; data]). split_and!; [| |range].
  - unfold write_rpc_request. cbn [rq_alloc_hint rq_context_id rq_opnum rq_stub_data]. emit.
  - unfold read_rpc_request. do 3 take_step. cbn [concat]. rewrite app_nil_r. apply reads_to_map, reads_until_eof.
Qed.

Record rpc_response_ok (r : DcRpcCoPktResponse) : Prop := {
  rs_context_id_ok : in_range u16_max (rs_context_id r);
  rs_cancel_count_ok : byte_ok (rs_cancel_count r)
}.

Lemma rpc_response_law n r :
  rpc_response_ok r ->
  exists x, writes n (write_rpc_response r) x /\ reads_to n read_rpc_response x r /\ zlen x <= 8 + zlen (rs_stub_data r).
Proof.
  destruct r as [context cancel data]. intros [H1 H2]. unfold byte_ok in *. cbn [rs_context_id rs_cancel_count rs_stub_data] in *.
  exists (concat [le_bytes 4 0; le_bytes 2 context; le_bytes 1 cancel; le_bytes 1 0; data]). split_and!; [| |range].
  - unfold write_rpc_response. cbn [rs_context_id rs_cancel_count rs_stub_data]. emit.
  - unfold read_rpc_response. do 4 take_step. cbn [concat]. rewrite app_nil_r. apply reads_to_map, reads_until_eof.
Qed.

Record fault_ok (f : DcRpcCoPktFault) : Prop := {
  ft_alloc_hint_ok : in_range u32_max (ft_alloc_hint f);
  ft_context_id_ok : in_range u16_max (ft_context_id f);
  ft_cancel_count_ok : byte_ok (ft_cancel_count f);
  ft_reserved_ok : byte_ok (ft_reserved f);
  ft_status_ok : in_range u32_max (ft_status f);
  ft_reserved2_ok : in_range u32_max (ft_reserved2 f)
}.

Lemma fault_law n f : fault_ok f -> exists x, writes n (write_fault f) x /\ reads n read_fault x f /\ zlen x <= 16.
Proof.
  destruct f as [hint context cancel reserved status reserved2]. intros [H1 H2 H3 H4 H5 H6]. unfold byte_ok in *.
  cbn [ft_alloc_hint ft_context_id ft_cancel_count ft_reserved ft_status ft_reserved2] in *.
  exists (concat [le_bytes 4 hint; le_bytes 2 context; le_bytes 1 cancel; le_bytes 1 reserved; le_bytes 4 status; le_bytes 4 reserved2]).
  split_and!; [| |range].
  - unfold write_fault. cbn [ft_alloc_hint ft_context_id ft_cancel_count ft_reserved ft_status ft_reserved2]. emit.
  - unfold read_fault. do 6 take_step. apply reads_ret.
Qed.

(** ** Packets *)

(** The contents start behind sixteen bytes. *)
Definition content_start : nat := 16.

(** What a direction promises of its contents: those that are [pt_ok] are read back by the reader of their type. *)
Class PacketLaws (C T : Type) `{PacketTypes C T} := {
  pt_ok : C -> Prop;
  pt_size : C -> Z;
  pt_type_exact : ReprLaws T;
  pt_type_small : forall t : T, 0 <= repr_code t < 256;
  pt_law : forall c, pt_ok c -> exists x, writes content_start (write_content c) x /\
    reads_to content_start (read_content (get_type c)) x c /\ zlen x <= pt_size c
}.

Definition request_content_ok (c : DcRpcCoPktRequestContent) : Prop :=
  match c with CQ_Request r => rpc_request_ok r | CQ_Bind b => bind_ok b end.
Definition request_content_size (c : DcRpcCoPktRequestContent) : Z :=
  match c with CQ_Request r => 8 + zlen (rq_stub_data r) | CQ_Bind b => bind_size b end.

#[export] Program Instance request_laws : PacketLaws DcRpcCoPktRequestContent DceRpcCoPktRequestType := {|
  pt_ok := request_content_ok; pt_size := request_content_size |}.
Next Obligation. by intros []. Qed.
Next Obligation. by intros []. Qed.
Next Obligation.
  intros [r|b] H; cbn [request_content_ok request_content_size get_type write_content read_content request_types] in *.
  - destruct (rpc_request_law content_start r H) as (x & Hw & Hr & Hl). exists x. split_and!; [done|by apply reads_to_map|done].
  - destruct (bind_law content_start b H) as (x & Hw & Hr & Hl). exists x. split_and!; [done|by apply reads_to_map, reads_reads_to|done].
Qed.

Definition response_content_ok (c : DcRpcCoPktResponseContent) : Prop :=
  match c with
  | PC_Response r => rpc_response_ok r | PC_Fault f => fault_ok f | PC_BindAck b => bind_ack_ok content_start b
  | PC_BindNak b => bind_nak_ok b
  end.
Definition response_content_size (c : DcRpcCoPktResponseContent) : Z :=
  match c with
  | PC_Response r => 8 + zlen (rs_stub_data r) | PC_Fault f => 16 | PC_BindAck b => bind_ack_size b
  | PC_BindNak b => 3 + 2 * zlen (bn_protocols b)
  end.

#[export] Program Instance response_laws : PacketLaws DcRpcCoPktResponseContent DceRpcCoPktResponseType := {|
  pt_ok := response_content_ok; pt_size := response_content_size |}.
Next Obligation. by intros []. Qed.
Next Obligation. by intros []. Qed.
Next Obligation.
  intros [r|f|b|b] H; cbn [response_content_ok response_content_size get_type write_content read_content response_types] in *.
  - destruct (rpc_response_law content_start r H) as (x & Hw & Hr & Hl). exists x. split_and!; [done|by apply reads_to_map|done].
  - destruct (fault_law content_start f H) as (x & Hw & Hr & Hl). exists x. split_and!; [done|by apply reads_to_map, reads_reads_to|done].
  - destruct (bind_ack_law content_start b H) as (x & Hw & Hr & Hl). exists x. split_and!; [done|by apply reads_to_map, reads_reads_to|done].
  - destruct (bind_nak_law content_start b H) as (x & Hw & Hr & Hl). exists x. split_and!; [done|by apply reads_to_map, reads_reads_to|done].
Qed.

Section packet_laws.
Context {C T : Type} `{PacketLaws C T}.

Record pkt_ok (p : DceRpcCoPkt C) : Prop := {
  pk_pfc_flags_ok : byte_ok (pk_pfc_flags p);
  pk_no_object_ok : object_uuid (pk_pfc_flags p) = false;
  pk_packed_drep_ok : in_range u32_max (pk_packed_drep p);
  pk_call_id_ok : in_range u32_max (pk_call_id p);
  pk_content_ok : pt_ok (pk_content p);
  pk_size_ok : Z.of_nat content_start + pt_size (pk_content p) <= u16_max
}.

(** The header of a packet of [k] bytes. *)
Definition pkt_header (p : DceRpcCoPkt C) (k : Z) : list bytes :=
  [le_bytes 1 5; le_bytes 1 0; le_bytes 1 (repr_code (get_type (pk_content p))); le_bytes 1 (pk_pfc_flags p);
   le_bytes 4 (pk_packed_drep p); le_bytes 2 k; le_bytes 2 0; le_bytes 4 (pk_call_id p)].

Lemma pkt_law p : pkt_ok p -> exists x,
  writes 0 (write_pkt p) x /\ reads_to 0 read_pkt x p /\
  zlen x <= Z.of_nat content_start + pt_size (pk_content p).
Proof.
  intros [H1 H2 H3 H4 H5 H6]. destruct (pt_law (pk_content p) H5) as (x & Hw & Hr & Hl).
  pose proof (pt_type_small (get_type (pk_content p))) as Ht. pose proof pt_type_exact as Hrepr.
  exists (concat (pkt_header p (16 + zlen x) ++ [x; []])). split_and!.
  - unfold write_pkt, pkt_header, content_start in *. apply writes_segs. intros base Hn. eapply run_bind; [reflexivity|].
    cbn [app st_pos ends at_end]. repeat emit_step. etransitivity; [emit_value|cbn [app insert list_insert]; same_layout].
  - destruct p as [flags drep id content]. cbn [pk_pfc_flags pk_packed_drep pk_call_id pk_content] in *.
    unfold read_pkt, pkt_header, byte_ok, content_start in *. cbn [pk_pfc_flags pk_packed_drep pk_call_id pk_content].
    do 2 take_step. eapply reads_to_segs; [by apply reads_repr|]. take_step.
    eapply reads_to_skip; [apply reads_assert; by rewrite H2|]. do 4 take_step. cbn [snd concat]. rewrite !app_nil_r.
    apply (reads_to_map _ _ (mkPkt _ _ _)), reads_to_take_seek; [|range]. eapply reads_to_at; [|exact Hr]. len.
  - unfold pkt_header, content_start in *. cbn [app]. range.
Qed.

(** A packet that is the whole of a message. *)
Lemma pkt_bytes_law p : pkt_ok p -> exists x, pkt_to_bytes p = Some (Ok x) /\ pkt_of_bytes x = Some (Ok p).
Proof.
  intros Hp. destruct (pkt_law p Hp) as (x & Hw & Hr & _). exists x. split.
  - unfold pkt_to_bytes. change (mkStream [] 0) with (at_end []). by rewrite (Hw [] eq_refl).
  - unfold pkt_of_bytes. pose proof (Hr [] eq_refl) as H'. cbn [app] in H'. by rewrite H'.
Qed.

End packet_laws.
