(* ===== verification/RpcCalls.v ===== *)
(** RPC calls (crates/smb-rpc/src/lib.rs, interface/base.rs): a call is a number, a writer of its input and a reader of its
    answer; a bound connection exchanges the bytes of one for the bytes of the other. The typed interfaces are written against
    the class of bound connections, the pipe of crates/smb/src/domain/rpc.rs is an instance of it. *)
From S2P Require Import Prelude Effects Async Bytes Stream Codec Rpc.
Local Open Scope Z_scope.
Local Open Scope async_scope.

(** A panic of the caller's own code is an error of its own. *)
Inductive SmbRpcError :=
| RE_SendReceiveError
| RE_InvalidResponseData
| RE_FailedToParseRpcResponse (e : BinError)
| RE_RemoteFault (status : Z)
| RE_Panic.

(** [RpcCall] *)
Class RpcCall (S R : Type) := {
  opnum : Z;
  write_input : S -> bin unit;
  read_output : bin R
}.
Arguments opnum S {R _}.

Section call.
Context {S R : Type} `{RpcCall S R}.

(** [RpcCall::serialize]: the error of a writer is unwrapped. *)
Definition serialize (s : S) : option bytes :=
  match write_input s (mkStream [] O) with
  | Some (stream, Ok _) => Some (st_data stream)
  | _ => None
  end.

(** [RpcCall::deserialize] *)
Definition deserialize (data : bytes) : result SmbRpcError R :=
  match read_output (mkStream data O) with
  | Some (_, Ok r) => Ok r
  | Some (_, Err e) => Err (RE_FailedToParseRpcResponse e)
  | None => Err RE_Panic
  end.

End call.

(** [BoundRpcConnection]: a call changes the connection. *)
Class BoundRpcConnection (C : Type) (ans : C -> Type) (T : Type) := {
  send_receive_raw : T -> Z -> bytes -> async C ans (T * result SmbRpcError bytes)
}.

Section interface.
Context {C : Type} {ans : C -> Type} {T : Type} `{BoundRpcConnection C ans T} {S R : Type} `{RpcCall S R}.

(** [BoundRpcConnection::send_receive] *)
Definition send_receive (connection : T) (stub_input : S) : async C ans (T * result SmbRpcError R) :=
  match serialize stub_input with
  | None => mret (connection, Err RE_Panic)
  | Some serialized_input =>
      r <-- send_receive_raw connection (opnum S) serialized_input;
      mret (r.1, match r.2 with Ok response => deserialize response | Err e => Err e end)
  end.

End interface.

(** [RpcInterface::SYNTAX_ID] of the interfaces *)
Definition srvsvc_syntax_id : DceRpcSyntaxId :=
  mkSyntaxId (Security.mkGuid 0x4b324fc8 0x1670 0x01d3 [0x12; 0x78; 0x5a; 0x47; 0xbf; 0x6e; 0xe1; 0x88]) 3.
Definition lsarpc_syntax_id : DceRpcSyntaxId :=
  mkSyntaxId (Security.mkGuid 0x12345778 0x1234 0xabcd [0xef; 0x00; 0x01; 0x23; 0x45; 0x67; 0x89; 0xab]) 0.
