(* ===== verification/RpcPipe.v ===== *)
(** RPC over a pipe (crates/smb/src/domain/rpc.rs): binding a pipe to an interface, and the exchange of one request for one
    reply. The operations of the pipe are calls answered by the environment. *)
From S2P Require Import Prelude Effects Async Clock Bytes Stream Codec Security Rpc RpcCalls.
Local Open Scope Z_scope.
Local Open Scope async_scope.

Section pipe.
(** The errors of the operations of a pipe. *)
Context {PipeError : Type}.

Inductive PipeCall :=
| PP_Remaining
| PP_Write (data : bytes) (timeout : option Duration)
| PP_Read (max_len : Z) (timeout : option Duration)
| PP_Transact (request : bytes) (max_response : Z)
| PP_Close.

Definition pipe_answer (c : PipeCall) : Type :=
  match c with
  | PP_Remaining => result PipeError (option Duration)
  | PP_Write _ _ => result PipeError Z
  | PP_Read _ _ | PP_Transact _ _ => result PipeError bytes
  | PP_Close => result PipeError unit
  end.

Inductive BindError :=
| BE_Pipe (e : PipeError)
| BE_InvalidMessage
| BE_BinRW (e : BinError)
| BE_Rpc (e : SmbRpcError)
| BE_UnsupportedOperation
| BE_Panic.

Definition pipe_io (A : Type) : Type := async PipeCall pipe_answer (result BindError A).

(** An operation of the pipe with its error converted. *)
Definition pipe_error {A} (r : result PipeError A) : result BindError A := match r with Ok a => Ok a | Err e => Err (BE_Pipe e) end.
Definition remaining : pipe_io (option Duration) := r <-- issue PP_Remaining; mret (pipe_error r).
Definition pipe_write (data : bytes) (timeout : option Duration) : pipe_io Z := r <-- issue (PP_Write data timeout); mret (pipe_error r).
Definition pipe_read (max_len : Z) (timeout : option Duration) : pipe_io bytes :=
  r <-- issue (PP_Read max_len timeout); mret (pipe_error r).
Definition pipe_close : pipe_io unit := r <-- issue PP_Close; mret (pipe_error r).

Record RpcPipeConnection := mkRpcPipe { rp_next_call_id : Z; rp_context_id : Z; rp_server_max_xmit_frag : Z }.

Definition packed_drep : Z := 0x10.
Definition start_call_id : Z := 2.
Definition default_fragment_limit : Z := 4280.

(** [DceRpcCoPktFlags::new().with_first_frag(true).with_last_frag(true)] *)
Definition single_fragment : Z := 3.

(** ** Binding *)

Definition make_bind_contexts (syntax_id : DceRpcSyntaxId) (transfer_syntaxes : list DceRpcSyntaxId)
    : list DcRpcCoPktBindContextElement :=
  imap (fun index syntax => mkBindContext (Z.of_nat index mod 65536) syntax_id [syntax]) transfer_syntaxes.

(** The loop of [accepted_context] over the results and the syntaxes. *)
Fixpoint select_context (index : Z) (pairs : list (DcRpcCoPktBindAckResult * DceRpcSyntaxId)) (selected : option Z)
    : result BindError (option Z) :=
  match pairs with
  | [] => Ok selected
  | (result, syntax) :: pairs =>
      if is_bind_time_negotiation syntax then select_context (index + 1) pairs selected
      else if bool_decide (br_result result <> BR_Acceptance) || bool_decide (br_syntax result <> syntax) then Err BE_InvalidMessage
      else select_context (index + 1) pairs (Some (index mod 65536))
  end.

Definition accepted_context (bind_ack : DcRpcCoPktBindAck) (transfer_syntaxes : list DceRpcSyntaxId) : result BindError Z :=
  if bool_decide (length (ba_results bind_ack) <> length transfer_syntaxes) then Err BE_InvalidMessage
  else match select_context 0 (zip (ba_results bind_ack) transfer_syntaxes) None with
       | Ok (Some context) => Ok context
       | Ok None => Err BE_InvalidMessage
       | Err e => Err e
       end.

Definition valid_envelope (reply : DceRpcCoPkt DcRpcCoPktResponseContent) : bool :=
  bool_decide (pk_packed_drep reply = packed_drep) && first_frag (pk_pfc_flags reply) && last_frag (pk_pfc_flags reply).

(** The bytes of a request of one fragment. *)
Definition request_bytes (content : DcRpcCoPktRequestContent) (call_id : Z) : option (result BinError bytes) :=
  pkt_to_bytes (pkt_new content call_id single_fragment packed_drep).

Definition bin_result {A} (r : option (result BinError A)) : result BindError A :=
  match r with Some (Ok a) => Ok a | Some (Err e) => Err (BE_BinRW e) | None => Err BE_Panic end.

Definition rpc_write_read (call_id : Z) (content : DcRpcCoPktRequestContent) : pipe_io (DceRpcCoPkt DcRpcCoPktResponseContent) :=
  request <-? a_lift (bin_result (request_bytes content call_id));
  timeout <-? remaining;
  written <-? pipe_write request timeout;
  if bool_decide (written <> zlen request) then mret (Err BE_InvalidMessage)
  else
    data <-? pipe_read default_fragment_limit timeout;
    reply <-? a_lift (bin_result (pkt_of_bytes data));
    if valid_envelope reply then mret (Ok reply) else mret (Err BE_InvalidMessage).

Definition transfer_syntaxes : list DceRpcSyntaxId := [ndr64_syntax_id; bind_time_negotiation].
Definition bind_request (syntax_id : DceRpcSyntaxId) : DcRpcCoPktBind :=
  mkBind default_fragment_limit default_fragment_limit 0 (make_bind_contexts syntax_id transfer_syntaxes).

(** [RpcPipeConnection::bind], by the syntax of the interface *)
Definition rpc_bind (syntax_id : DceRpcSyntaxId) : pipe_io RpcPipeConnection :=
  reply <-? rpc_write_read start_call_id (CQ_Bind (bind_request syntax_id));
  match pk_content reply with
  | PC_BindAck bind_ack =>
      context_id <-? a_lift (accepted_context bind_ack transfer_syntaxes);
      mret (Ok (mkRpcPipe (start_call_id + 1) context_id (ba_max_xmit_frag bind_ack)))
  | PC_Fault fault =>
      _ <-? pipe_close;
      mret (Err (BE_Rpc (RE_RemoteFault (ft_status fault))))
  | _ => mret (Err BE_InvalidMessage)
  end.

(** [ReplayPolicy] of the domain (domain/operation.rs) *)
Inductive DomainReplay := DR_Never | DR_IfUncommitted | DR_Idempotent | DR_DurableReconnectOnly.
#[export] Instance DomainReplay_eq : EqDecision DomainReplay.
Proof. solve_decision. Defined.

(** [Pipe::bind_rpc] *)
Definition bind_rpc (replay : DomainReplay) (syntax_id : DceRpcSyntaxId) : pipe_io RpcPipeConnection :=
  if bool_decide (replay <> DR_Never) then mret (Err BE_UnsupportedOperation) else rpc_bind syntax_id.

(** ** Calls *)

(** [ALLOC_HINT_NONE] *)
Definition alloc_hint_none : Z := 0.

Definition call_request (c : RpcPipeConnection) (opnum : Z) (stub_input : bytes) : DcRpcCoPktRequestContent :=
  CQ_Request (mkRpcRequest alloc_hint_none (rp_context_id c) opnum stub_input).

(** What a reply to a call of a connection gives. *)
Definition reply_data (context_id : Z) (data : bytes) : result SmbRpcError bytes :=
  match pkt_of_bytes data with
  | None => Err RE_Panic
  | Some (Err e) => Err (RE_FailedToParseRpcResponse e)
  | Some (Ok reply) =>
      if negb (valid_envelope reply) then Err RE_SendReceiveError
      else match pk_content reply with
           | PC_Response response =>
               if bool_decide (rs_context_id response <> context_id) then Err RE_SendReceiveError else Ok (rs_stub_data response)
           | PC_Fault fault => Err (RE_RemoteFault (ft_status fault))
           | _ => Err RE_SendReceiveError
           end
  end.

(** [send_receive_raw]: the identifier of the call is used up when its request was written, also where the exchange fails. *)
Definition rpc_send_receive_raw (c : RpcPipeConnection) (opnum : Z) (stub_input : bytes)
    : async PipeCall pipe_answer (RpcPipeConnection * result SmbRpcError bytes) :=
  match request_bytes (call_request c opnum stub_input) (rp_next_call_id c) with
  | None => mret (c, Err RE_Panic)
  | Some (Err _) => mret (c, Err RE_SendReceiveError)
  | Some (Ok request) =>
      match checked_add u32_max (rp_next_call_id c) 1 with
      | None => mret (c, Err RE_SendReceiveError)
      | Some next_call_id =>
          let c := mkRpcPipe next_call_id (rp_context_id c) (rp_server_max_xmit_frag c) in
          r <-- issue (PP_Transact request (rp_server_max_xmit_frag c));
          mret (c, match r with Ok data => reply_data (rp_context_id c) data | Err _ => Err RE_SendReceiveError end)
      end
  end.

#[export] Instance rpc_pipe_bound : BoundRpcConnection PipeCall pipe_answer RpcPipeConnection := {|
  send_receive_raw := rpc_send_receive_raw |}.

End pipe.
Arguments pipe_answer : clear implicits.
Arguments pipe_io : clear implicits.
Arguments BindError : clear implicits.
