(* ===== verification/Srvsvc.v ===== *)
(** The shares of a server (crates/smb-rpc/src/interface/srvsvc.rs): NetrShareEnum, its input and output structures. *)
From S2P Require Import Prelude Effects Async Bytes Stream Codec Ndr Rpc RpcCalls.
Local Open Scope Z_scope.
Local Open Scope async_scope.

(** ** Share types *)

Inductive ShareKind := SK_Disk | SK_PrintQ | SK_Device | SK_IPC.
#[export] Instance ShareKind_eq : EqDecision ShareKind.
Proof. solve_decision. Defined.

(** The bits of a [ShareType]: every value of the two bits is a kind. *)
Definition share_kind (t : Z) : ShareKind :=
  match Z.testbit t 1, Z.testbit t 0 with
  | false, false => SK_Disk | false, true => SK_PrintQ | true, false => SK_Device | true, true => SK_IPC
  end.
Definition share_special (t : Z) : bool := Z.testbit t 31.
Definition is_win_ipc (t : Z) : bool := bool_decide (share_kind t = SK_IPC) && share_special t.

(** ** Share information *)

Record ShareInfo0 := mkShareInfo0 { s0_netname : NdrPtr (list Z) }.
Record ShareInfo1 := mkShareInfo1 { s1_netname : NdrPtr (list Z); s1_share_type : Z; s1_remark : NdrPtr (list Z) }.

Definition write_share_info0 (stage : NdrPtrWriteStage) (s : ShareInfo0) : bin unit :=
  write_ptr write_ndr_string stage (s0_netname s).
Definition read_share_info0 (prev : option ShareInfo0) : bin ShareInfo0 :=
  netname ← read_ptr_staged read_ndr_string (s0_netname <$> prev); mret (mkShareInfo0 netname).

Definition write_share_info1 (stage : NdrPtrWriteStage) (s : ShareInfo1) : bin unit :=
  _ ← write_ptr write_ndr_string stage (s1_netname s);
  _ ← (if bool_decide (stage = WS_ArraySupportWriteRefId) then put_ndr 4 (s1_share_type s) else mret tt);
  write_ptr write_ndr_string stage (s1_remark s).
Definition read_share_info1 (prev : option ShareInfo1) : bin ShareInfo1 :=
  netname ← read_ptr_staged read_ndr_string (s1_netname <$> prev);
  share_type ← read_structure_element (get 4) (s1_share_type <$> prev);
  remark ← read_ptr_staged read_ndr_string (s1_remark <$> prev);
  mret (mkShareInfo1 netname share_type remark).

(** ** Containers *)

Section container.
Context {T : Type} (write_info : NdrPtrWriteStage -> T -> bin unit) (read_info : option T -> bin T).

(** A container is its buffer. The count of a pointer that is not resolved is a panic. *)
Definition ShareInfoContainer : Type := NdrPtr (list T).

Definition write_container (buffer : ShareInfoContainer) : bin unit :=
  match buffer with
  | Resolved o =>
      _ ← put_ndr 4 (match o with Some l => zlen l mod 2 ^ 32 | None => 0 end);
      write_ptr (write_ndr_array write_info) WS_NoArraySupport buffer
  | _ => e_panic
  end.
Definition read_container : bin ShareInfoContainer :=
  entries_read ← get_ndr 4;
  read_ptr (read_ndr_array read_info entries_read).

End container.

(** [ShareInfoLevel] *)
Inductive ShareInfoLevel := SL_Info0 | SL_Info1 | SL_Info2 | SL_Info501 | SL_Info502 | SL_Info503.
#[export] Instance ShareInfoLevel_eq : EqDecision ShareInfoLevel.
Proof. solve_decision. Defined.
#[export] Instance ShareInfoLevel_repr : Repr ShareInfoLevel := {|
  repr_code l := match l with
    | SL_Info0 => 0 | SL_Info1 => 1 | SL_Info2 => 2 | SL_Info501 => 501 | SL_Info502 => 502 | SL_Info503 => 503 end;
  repr_all := [SL_Info0; SL_Info1; SL_Info2; SL_Info501; SL_Info502; SL_Info503] |}.

Inductive ShareEnumUnion :=
| SE_Info0 (c : NdrPtr (@ShareInfoContainer ShareInfo0))
| SE_Info1 (c : NdrPtr (@ShareInfoContainer ShareInfo1)).

(** [ShareEnumUnion::level] *)
Definition union_level (u : ShareEnumUnion) : ShareInfoLevel :=
  match u with SE_Info0 _ => SL_Info0 | SE_Info1 _ => SL_Info1 end.

Definition write_union (u : ShareEnumUnion) : bin unit :=
  match u with
  | SE_Info0 c => _ ← put 8 0; write_ptr (write_container write_share_info0) WS_NoArraySupport c
  | SE_Info1 c => _ ← put 8 1; write_ptr (write_container write_share_info1) WS_NoArraySupport c
  end.
Definition read_union (level : ShareInfoLevel) : bin ShareEnumUnion :=
  read_variants
    [_ ← get_const 8 0; _ ← bin_assert (bool_decide (level = SL_Info0));
     c ← read_ptr (read_container read_share_info0); mret (SE_Info0 c);
     _ ← get_const 8 1; _ ← bin_assert (bool_decide (level = SL_Info1));
     c ← read_ptr (read_container read_share_info1); mret (SE_Info1 c)].

(** [ShareEnumStruct] is its union, with the level in front of it. *)
Definition write_share_enum (u : ShareEnumUnion) : bin unit :=
  _ ← write_aligned ndr64_alignment (put_repr 4 (union_level u));
  write_aligned ndr64_alignment (write_union u).
Definition read_share_enum : bin ShareEnumUnion :=
  level ← read_aligned ndr64_alignment (get_repr 4);
  read_aligned ndr64_alignment (read_union level).

(** ** NetrShareEnum *)

Record NetrShareEnumIn := mkShareEnumIn {
  ni_server_name : NdrPtr (list Z);
  ni_info_struct : ShareEnumUnion;
  ni_prefered_maximum_length : Z;
  ni_resume_handle : NdrPtr Z
}.

Record NetrShareEnumOut := mkShareEnumOut {
  no_info_struct : ShareEnumUnion;
  no_total_entries : Z;
  no_resume_handle : NdrPtr Z
}.

Definition write_share_enum_in (i : NetrShareEnumIn) : bin unit :=
  _ ← write_aligned 4 (write_ptr write_ndr_string WS_NoArraySupport (ni_server_name i));
  _ ← write_aligned 4 (write_share_enum (ni_info_struct i));
  _ ← write_aligned 4 (put 4 (ni_prefered_maximum_length i));
  write_aligned 4 (write_ptr (put 4) WS_NoArraySupport (ni_resume_handle i)).
Definition read_share_enum_in : bin NetrShareEnumIn :=
  server_name ← read_aligned 4 (read_ptr read_ndr_string);
  info_struct ← read_aligned 4 read_share_enum;
  prefered_maximum_length ← read_aligned 4 (get 4);
  resume_handle ← read_aligned 4 (read_ptr (get 4));
  mret (mkShareEnumIn server_name info_struct prefered_maximum_length resume_handle).

Definition write_share_enum_out (o : NetrShareEnumOut) : bin unit :=
  _ ← write_aligned 4 (write_share_enum (no_info_struct o));
  _ ← write_aligned 4 (put 4 (no_total_entries o));
  write_aligned 4 (write_ptr (put 4) WS_NoArraySupport (no_resume_handle o)).
Definition read_share_enum_out : bin NetrShareEnumOut :=
  info_struct ← read_aligned 4 read_share_enum;
  total_entries ← read_aligned 4 (get 4);
  resume_handle ← read_aligned 4 (read_ptr (get 4));
  mret (mkShareEnumOut info_struct total_entries resume_handle).

#[export] Instance netr_share_enum_call : RpcCall NetrShareEnumIn NetrShareEnumOut := {|
  opnum := 0xf; write_input := write_share_enum_in; read_output := read_share_enum_out |}.

(** The input of [netr_share_enum], of the units of the name of the server *)
Definition share_enum_input (server_name : list Z) : NetrShareEnumIn :=
  mkShareEnumIn (Resolved (Some (ndr_string_of server_name))) (SE_Info1 (Resolved (Some (Resolved None)))) u32_max (Resolved None).

(** What [netr_share_enum] makes of the output: a union of the other level has no shares. *)
Definition shares_of (output : NetrShareEnumOut) : result SmbRpcError (list ShareInfo1) :=
  match no_info_struct output with
  | SE_Info1 (Resolved None) => Err RE_InvalidResponseData
  | SE_Info1 (Resolved (Some (Resolved None))) => Err RE_InvalidResponseData
  | SE_Info1 (Resolved (Some (Resolved (Some shares)))) => Ok shares
  | SE_Info1 _ => Err RE_Panic
  | SE_Info0 _ => Ok []
  end.

Section service.
Context {C : Type} {ans : C -> Type} {T : Type} `{BoundRpcConnection C ans T}.

Definition netr_share_enum (bound_pipe : T) (server_name : list Z) : async C ans (T * result SmbRpcError (list ShareInfo1)) :=
  r <-- send_receive bound_pipe (share_enum_input server_name);
  mret (r.1, match r.2 with Ok output => shares_of output | Err e => Err e end).

End service.

(** ** Round trips *)

Record share_info1_ok (s : ShareInfo1) : Prop := {
  s1_netname_ok : ptr_ok ndr_string_ok (s1_netname s);
  s1_share_type_ok : in_range u32_max (s1_share_type s);
  s1_remark_ok : ptr_ok ndr_string_ok (s1_remark s)
}.

Definition share_info1_refs (s : ShareInfo1) : ShareInfo1 :=
  mkShareInfo1 (ptr_ref (s1_netname s)) (s1_share_type s) (ptr_ref (s1_remark s)).

Lemma share_info1_refs_law n s :
  share_info1_ok s -> exists x, writes n (write_share_info1 WS_ArraySupportWriteRefId s) x /\
    reads n (read_share_info1 None) x (share_info1_refs s).
Proof.
  intros [H1 H2 H3]. unfold write_share_info1, read_share_info1, share_info1_refs.
  eapply seq_law; [by eapply ptr_ref_law|]. intros m1. eapply seq_law; [apply ndr_law; range|].
  intros m2. cbv beta. apply (map_law _ _ _ (mkShareInfo1 _ _)). by eapply ptr_ref_law.
Qed.

Lemma share_info1_data_law n s :
  share_info1_ok s -> exists x, writes n (write_share_info1 WS_ArraySupportWriteData s) x /\
    reads n (read_share_info1 (Some (share_info1_refs s))) x s.
Proof.
  destruct s as [netname share_type remark]. intros [H1 H2 H3]. cbn [s1_netname s1_share_type s1_remark] in *.
  unfold write_share_info1, read_share_info1, share_info1_refs. cbn [fmap option_fmap option_map s1_netname s1_share_type s1_remark].
  eapply seq_law; [apply (ptr_data_law _ _ ndr_string_ok); [apply ndr_string_law|done]|]. intros m1.
  eapply seq_law; [apply ret_law|]. intros m2. cbv beta. apply (map_law _ _ _ (mkShareInfo1 _ _)).
  apply (ptr_data_law _ _ ndr_string_ok); [apply ndr_string_law|done].
Qed.

Definition shares_ok (l : list ShareInfo1) : Prop := Forall share_info1_ok l /\ zlen l <= u32_max.

Lemma container_law n (buffer : @ShareInfoContainer ShareInfo1) :
  ptr_ok shares_ok buffer ->
  exists x, writes n (write_container write_share_info1 buffer) x /\ reads n (read_container read_share_info1) x buffer.
Proof.
  destruct buffer as [| |o]; [done..|]. intros H. unfold write_container, read_container.
  destruct o as [l|]; cbn [ptr_ok from_option] in H.
  - destruct H as [H Hl]. rewrite Z.mod_small by (unfold zlen in *; ints).
    eapply seq_law; [apply ndr_law; unfold zlen in *; cbn; ints|]. intros m. cbv beta.
    apply (ptr_law _ _ (fun k => Forall share_info1_ok k /\ zlen k = zlen l)); [|by split].
    intros m' k [Hk Hlk]. rewrite <- Hlk. eapply ndr_array_law; [apply share_info1_refs_law|apply share_info1_data_law|done|]. ints.
  - eapply seq_law; [apply ndr_law; cbn; lia|]. intros m. cbv beta.
    by apply (ptr_law _ _ (fun _ => False)).
Qed.

Definition share_union_ok (u : ShareEnumUnion) : Prop :=
  match u with SE_Info1 c => ptr_ok (ptr_ok shares_ok) c | SE_Info0 _ => False end.

Lemma union_law n u : share_union_ok u -> exists x, writes n (write_union u) x /\ reads n (read_union (union_level u)) x u.
Proof.
  destruct u as [c|c]; [done|]. intros H. cbn [share_union_ok write_union union_level] in *.
  destruct (ptr_law (write_container write_share_info1) (read_container read_share_info1) (ptr_ok shares_ok) container_law (n + 8) c H)
    as (x & Hw & Hr).
  exists (le_bytes 8 1 ++ x). split.
  { eapply writes_bind; [apply writes_put|]. by rewrite length_le_bytes. }
  unfold read_union. apply reads_variants_next.
  { apply refuses_app, refuses_bind, refuses_const; [cbn; lia|done]. }
  apply reads_variants_head. eapply reads_bind; [apply reads_get_const; cbn; lia|]. rewrite length_le_bytes.
  eapply reads_skip; [by apply reads_assert|]. by apply reads_map.
Qed.

Lemma share_level_law n (l : ShareInfoLevel) : exists x, writes n (put_repr 4 l) x /\ reads n (get_repr 4) x l.
Proof.
  exists (le_bytes 4 (repr_code l)). split; [apply writes_repr|]. unfold get_repr.
  apply reads_enum; [destruct l; cbn; lia|by destruct l].
Qed.

Lemma share_enum_law n u : share_union_ok u -> exists x, writes n (write_share_enum u) x /\ reads n read_share_enum x u.
Proof.
  intros H. unfold write_share_enum, read_share_enum.
  eapply seq_law; [apply aligned_law; intros m; apply share_level_law|]. intros m. apply aligned_law. intros m'. by apply union_law.
Qed.

Lemma u32_law n v : in_range u32_max v -> exists x, writes n (put 4 v) x /\ reads n (get 4) x v.
Proof. intros H. exists (le_bytes 4 v). split; [apply writes_put|apply reads_get; range]. Qed.

Record share_enum_in_ok (i : NetrShareEnumIn) : Prop := {
  ni_server_name_ok : ptr_ok ndr_string_ok (ni_server_name i);
  ni_info_struct_ok : share_union_ok (ni_info_struct i);
  ni_prefered_maximum_length_ok : in_range u32_max (ni_prefered_maximum_length i);
  ni_resume_handle_ok : ptr_ok (in_range u32_max) (ni_resume_handle i)
}.

Lemma share_enum_in_law n i :
  share_enum_in_ok i -> exists x, writes n (write_share_enum_in i) x /\ reads n read_share_enum_in x i.
Proof.
  destruct i as [name info length resume]. intros [H1 H2 H3 H4]. unfold write_share_enum_in, read_share_enum_in.
  eapply seq_law; [apply aligned_law; intros m; by apply (ptr_law _ _ ndr_string_ok); [apply ndr_string_law|]|]. intros m.
  eapply seq_law; [apply aligned_law; intros m'; by apply share_enum_law|]. intros m'.
  eapply seq_law; [apply aligned_law; intros m''; by apply u32_law|]. intros m''. cbv beta. apply (map_law _ _ _ (mkShareEnumIn _ _ _)).
  apply aligned_law. intros k. by apply (ptr_law _ _ (in_range u32_max)); [apply u32_law|].
Qed.

(** ** The answer of a server

    The output of NetrShareEnum at level one as NDR64 has it and any server writes it: a pointer that is not null has the
    referent identifier the server picks for it, the array the maximum it was allocated with. *)

Record ServedShare := mkServed { sv_share : ShareInfo1; sv_netname_ref : Z; sv_remark_ref : Z }.

Record Referents := mkReferents { rf_container : Z; rf_buffer : Z; rf_resume : Z; rf_max_count : Z }.

Definition served_ref {T} (ref_id : Z) (p : NdrPtr T) : bin unit :=
  put_ndr 8 (match p with Resolved (Some _) => ref_id | _ => null_ptr_ref_id end).

Definition served_value {T} (write_value : T -> bin unit) (p : NdrPtr T) : bin unit :=
  match p with Resolved value => put_opt (fun v => write_aligned ndr64_alignment (write_value v)) value | _ => mret tt end.

Definition served_share_refs (s : ServedShare) : bin unit :=
  _ ← served_ref (sv_netname_ref s) (s1_netname (sv_share s));
  _ ← put_ndr 4 (s1_share_type (sv_share s));
  served_ref (sv_remark_ref s) (s1_remark (sv_share s)).

Definition served_share_values (s : ServedShare) : bin unit :=
  _ ← served_value write_ndr_string (s1_netname (sv_share s));
  served_value write_ndr_string (s1_remark (sv_share s)).

Definition served_array (max_count : Z) (l : list ServedShare) : bin unit :=
  _ ← put_ndr 8 max_count;
  _ ← write_list (fun s => write_aligned ndr64_alignment (served_share_refs s)) l;
  write_list (fun s => write_aligned ndr64_alignment (served_share_values s)) l.

(** The level, the level again as the tag of the union, the container, and what follows it. *)
Definition served_output (refs : Referents) (l : list ServedShare) (total : Z) (resume : NdrPtr Z) : bin unit :=
  _ ← write_aligned 4 (_ ← put_ndr 4 1;
    write_aligned ndr64_alignment (_ ← put 8 1; _ ← put_ndr 8 (rf_container refs);
      write_aligned ndr64_alignment (_ ← put_ndr 4 (zlen l); _ ← put_ndr 8 (rf_buffer refs);
        write_aligned ndr64_alignment (served_array (rf_max_count refs) l))));
  _ ← write_aligned 4 (put 4 total);
  write_aligned 4 (_ ← served_ref (rf_resume refs) resume; served_value (put 4) resume).

Definition ref_ok (ref_id : Z) : Prop := 0 < ref_id <= u64_max.

Record served_ok (s : ServedShare) : Prop := {
  sv_share_ok : share_info1_ok (sv_share s);
  sv_netname_ref_ok : ref_ok (sv_netname_ref s);
  sv_remark_ref_ok : ref_ok (sv_remark_ref s)
}.

Record referents_ok (refs : Referents) (l : list ServedShare) : Prop := {
  rf_container_ok : ref_ok (rf_container refs);
  rf_buffer_ok : ref_ok (rf_buffer refs);
  rf_resume_ok : ref_ok (rf_resume refs);
  rf_max_count_ok : zlen l <= rf_max_count refs <= u64_max;
  rf_shares_ok : Forall served_ok l /\ zlen l <= u32_max
}.

(** What the first pass makes of a pointer of a server. *)
Definition served_ref_of {T} (ref_id : Z) (p : NdrPtr T) : NdrPtr T :=
  RefIdRead (match p with Resolved (Some _) => ref_id | _ => null_ptr_ref_id end).

Lemma served_ref_law {T} (read_value : bin T) n ref_id p :
  ref_ok ref_id -> exists x, writes n (served_ref ref_id p) x /\ reads n (read_ptr_staged read_value None) x (served_ref_of ref_id p).
Proof.
  unfold ref_ok, served_ref, served_ref_of. intros H. cbn [read_ptr_staged]. apply (map_law _ _ _ RefIdRead), ndr_law.
  unfold u64_max, null_ptr_ref_id in *. destruct p as [| |[]]; cbn; lia.
Qed.

Section served_pointers.
Context {T : Type} (write_value : T -> bin unit) (read_value : bin T) (fits : T -> Prop).
Context (Hlaw : forall n v, fits v -> exists x, writes n (write_value v) x /\ reads n read_value x v).

Lemma served_value_law n ref_id p :
  ref_ok ref_id -> ptr_ok fits p ->
  exists x, writes n (served_value write_value p) x /\ reads n (read_ptr_staged read_value (Some (served_ref_of ref_id p))) x p.
Proof using Hlaw.
  unfold ref_ok. intros Hr Hp. destruct p as [| |[v|]]; [done..| |apply ret_law].
  cbn [served_value put_opt read_ptr_staged served_ref_of]. unfold read_ptr_value.
  rewrite bool_decide_eq_true_2 by (unfold null_ptr_ref_id; lia). apply (map_law _ _ _ (fun v => Resolved (Some v))).
  apply aligned_law. intros m. by apply Hlaw.
Qed.

Lemma served_ptr_law n ref_id p :
  ref_ok ref_id -> ptr_ok fits p ->
  exists x, writes n (_ ← served_ref ref_id p; served_value write_value p) x /\ reads n (read_ptr read_value) x p.
Proof using Hlaw.
  intros Hr Hp. unfold read_ptr, served_ref. eapply seq_law.
  - apply ndr_law. unfold ref_ok, u64_max, null_ptr_ref_id in *. destruct p as [| |[]]; cbn; lia.
  - intros m. cbv beta. exact (served_value_law m ref_id p Hr Hp).
Qed.
End served_pointers.

Definition served_refs_of (s : ServedShare) : ShareInfo1 :=
  mkShareInfo1 (served_ref_of (sv_netname_ref s) (s1_netname (sv_share s))) (s1_share_type (sv_share s))
    (served_ref_of (sv_remark_ref s) (s1_remark (sv_share s))).

Lemma served_share_refs_law n s :
  served_ok s -> exists x, writes n (served_share_refs s) x /\ reads n (read_share_info1 None) x (served_refs_of s).
Proof.
  intros [[H1 H2 H3] H4 H5]. unfold served_share_refs, read_share_info1, served_refs_of.
  eapply seq_law; [by apply served_ref_law|]. intros m1. eapply seq_law; [apply ndr_law; range|].
  intros m2. cbv beta. apply (map_law _ _ _ (mkShareInfo1 _ _)). by apply served_ref_law.
Qed.

Lemma served_share_values_law n s :
  served_ok s -> exists x, writes n (served_share_values s) x /\ reads n (read_share_info1 (Some (served_refs_of s))) x (sv_share s).
Proof.
  destruct s as [[netname share_type remark] r1 r2]. intros [[H1 H2 H3] H4 H5].
  unfold served_share_values, read_share_info1, served_refs_of. cbn [fmap option_fmap option_map sv_share sv_netname_ref sv_remark_ref s1_netname s1_share_type s1_remark] in *.
  eapply seq_law; [apply (served_value_law _ _ ndr_string_ok); [apply ndr_string_law|done..]|]. intros m1.
  cbn [read_structure_element]. cbv beta.
  change (exists y, writes m1 (served_value write_ndr_string remark) y /\
    reads m1 (remark ← read_ptr_staged read_ndr_string (Some (served_ref_of r2 remark)); mret (mkShareInfo1 netname share_type remark)) y
      (mkShareInfo1 netname share_type remark)).
  apply (map_law _ _ _ (mkShareInfo1 _ _)). apply (served_value_law _ _ ndr_string_ok); [apply ndr_string_law|done..].
Qed.

Lemma served_array_law n max_count l :
  Forall served_ok l -> zlen l <= max_count <= u64_max ->
  exists x, writes n (served_array max_count l) x /\ reads n (read_ndr_array read_share_info1 (zlen l)) x (sv_share <$> l).
Proof.
  intros Hl Hm. unfold served_array, read_ndr_array. eapply seq_law; [apply ndr_law; unfold zlen in *; cbn; ints|].
  intros m. cbv beta. rewrite bool_decide_eq_false_2 by lia. rewrite zlen_nat.
  destruct (seq_law m (write_list (fun s => write_aligned ndr64_alignment (served_share_refs s)) l)
    (read_count (length l) (read_aligned ndr64_alignment (read_share_info1 None))) (served_refs_of <$> l)
    (write_list (fun s => write_aligned ndr64_alignment (served_share_values s)) l)
    (fun data => resolve_elements read_share_info1 data) (sv_share <$> l)) as (x & Hw & Hr).
  - clear -Hl. revert m. induction Hl as [|s l Hs Hl IH]; intros m; [apply ret_law|]. cbn [write_list length read_count].
    eapply seq_law; [apply aligned_law; intros k; by apply served_share_refs_law|]. intros k. cbv beta.
    apply (map_law _ _ _ (cons (served_refs_of s))), IH.
  - clear -Hl. induction Hl as [|s l Hs Hl IH]; intros m; [apply ret_law|]. cbn [write_list fmap list_fmap resolve_elements].
    eapply seq_law; [apply aligned_law; intros k; by apply served_share_values_law|]. intros k. cbv beta.
    apply (map_law _ _ _ (cons (sv_share s))), IH.
  - exists x. split; [done|]. by eapply reads_skip; [apply reads_assert|].
Qed.

(** A pointer that is not null, with the reference a server picks for it. *)
Lemma served_some_law {T} n ref_id (w : bin unit) (r : bin T) v :
  ref_ok ref_id -> (forall m, exists x, writes m w x /\ reads m r x v) ->
  exists x, writes n (_ ← put_ndr 8 ref_id; write_aligned ndr64_alignment w) x /\ reads n (read_ptr r) x (Resolved (Some v)).
Proof.
  intros Hr H. apply (served_ptr_law (fun _ => w) r (fun u => u = v)) with (p := Resolved (Some v)); [|done|done].
  intros m u ->. apply H.
Qed.

Lemma served_container_law n refs l :
  referents_ok refs l ->
  exists x, writes n (_ ← put_ndr 4 (zlen l); _ ← put_ndr 8 (rf_buffer refs);
      write_aligned ndr64_alignment (served_array (rf_max_count refs) l)) x /\
    reads n (read_container read_share_info1) x (Resolved (Some (sv_share <$> l))).
Proof.
  intros [_ H2 _ H4 [H5 H6]]. unfold read_container. eapply seq_law; [apply ndr_law; unfold zlen in *; cbn; ints|].
  intros m. cbv beta. apply served_some_law; [done|]. intros m'. by apply served_array_law.
Qed.

Lemma served_output_law n refs l total resume :
  referents_ok refs l -> in_range u32_max total -> ptr_ok (in_range u32_max) resume ->
  exists x, writes n (served_output refs l total resume) x /\
    reads n read_share_enum_out x (mkShareEnumOut (SE_Info1 (Resolved (Some (Resolved (Some (sv_share <$> l)))))) total resume).
Proof.
  intros Hrefs Ht Hh. unfold served_output, read_share_enum_out, read_share_enum.
  eapply seq_law; [apply aligned_law; intros m|].
  - eapply seq_law; [apply aligned_law; intros k; exact (share_level_law k SL_Info1)|]. intros k. apply aligned_law. intros j.
    destruct (served_some_law (j + 8) _ _ _ _ (rf_container_ok _ _ Hrefs) (fun m => served_container_law m refs l Hrefs)) as (x & Hw & Hr).
    exists (le_bytes 8 1 ++ x). split; [eapply writes_bind; [apply writes_put|by rewrite length_le_bytes]|].
    unfold read_union. apply reads_variants_next; [apply refuses_app, refuses_bind, refuses_const; [cbn; lia|done]|].
    apply reads_variants_head. eapply reads_bind; [apply reads_get_const; cbn; lia|]. rewrite length_le_bytes.
    eapply reads_skip; [by apply reads_assert|]. by apply reads_map.
  - intros m. eapply seq_law; [apply aligned_law; intros m'; by apply u32_law|]. intros m'. cbv beta.
    apply (map_law _ _ _ (mkShareEnumOut _ _)). apply aligned_law. intros k.
    apply (served_ptr_law _ _ (in_range u32_max)); [apply u32_law|by destruct Hrefs|done].
Qed.
