(* ===== verification/Lsarpc.v ===== *)
(** Names of security identifiers (crates/smb-rpc/src/interface/lsarpc.rs): opening a policy, looking up identifiers, closing
    the policy. A name is the units of its buffer; replacing the units that are not UTF-16 is left out. *)
From S2P Require Import Prelude Effects Async Bytes Stream Codec Security Ndr Rpc RpcCalls.
Local Open Scope Z_scope.
Local Open Scope async_scope.

Record LsaHandle := mkLsaHandle { lh_attributes : Z; lh_uuid : bytes }.

Definition write_handle (h : LsaHandle) : bin unit := _ ← put 4 (lh_attributes h); write_all (lh_uuid h).
Definition read_handle : bin LsaHandle := attributes ← get 4; uuid ← read_exact 16; mret (mkLsaHandle attributes uuid).

(** [NtStatus] *)
Definition nt_success : Z := 0.
Definition nt_some_not_mapped : Z := 0x107.
Definition nt_none_mapped : Z := 0xC0000073.
Definition nt_is_success (status : Z) : bool := bool_decide (status = nt_success) || bool_decide (status = nt_some_not_mapped).

(** [PolicyAccessMask::LOOKUP_NAMES] *)
Definition policy_lookup_names : Z := 0x800.

(** ** LsarOpenPolicy2 *)

Record LsarOpenPolicy2In := mkOpenPolicyIn {
  op_system_name : NdrPtr (list Z);
  op_object_attributes_length : Z;
  op_root_dir : NdrPtr Z;
  op_object_name : NdrPtr Z;
  op_attributes : Z;
  op_security_descriptor : NdrPtr Z;
  op_security_qos : NdrPtr Z;
  op_desired_access : Z
}.
Record LsarOpenPolicy2Out := mkOpenPolicyOut { oo_policy_handle : LsaHandle; oo_status : Z }.

Definition write_open_policy_in (i : LsarOpenPolicy2In) : bin unit :=
  let byte_ptr p := write_aligned 4 (write_ptr (put 1) WS_NoArraySupport p) in
  _ ← write_aligned 4 (write_ptr write_ndr_string WS_NoArraySupport (op_system_name i));
  _ ← write_aligned 4 (put 4 (op_object_attributes_length i));
  _ ← byte_ptr (op_root_dir i);
  _ ← byte_ptr (op_object_name i);
  _ ← write_aligned 4 (put 4 (op_attributes i));
  _ ← byte_ptr (op_security_descriptor i);
  _ ← byte_ptr (op_security_qos i);
  write_aligned 4 (put 4 (op_desired_access i)).
Definition write_open_policy_out (o : LsarOpenPolicy2Out) : bin unit :=
  _ ← write_handle (oo_policy_handle o); put 4 (oo_status o).
Definition read_open_policy_out : bin LsarOpenPolicy2Out :=
  policy_handle ← read_handle; status ← get 4; mret (mkOpenPolicyOut policy_handle status).

#[export] Instance open_policy_call : RpcCall LsarOpenPolicy2In LsarOpenPolicy2Out := {|
  opnum := 44; write_input := write_open_policy_in; read_output := read_open_policy_out |}.

(** ** LsarLookupSids *)

(** [LsaSidEnumBuffer]: the references of all identifiers are in front of the identifiers. *)
Definition write_sid_enum (sids : list SID) : bin unit :=
  let count := zlen sids mod 2 ^ 32 in
  _ ← write_aligned 4 (put 4 count);
  _ ← put_ndr 8 ref_id_unique_default;
  _ ← put_ndr 8 count;
  _ ← write_list (fun _ => put_ndr 8 ref_id_unique_default) sids;
  write_list write_sid sids.

(** [LsaLookupLevel::LsapLookupWksta] *)
Definition lsap_lookup_wksta : Z := 1.

Record LsarLookupSidsIn := mkLookupSidsIn {
  li_policy_handle : LsaHandle;
  li_sids : list SID;
  li_translated_names_entries : Z;
  li_translated_names_names : NdrPtr Z;
  li_lookup_level : Z;
  li_mapped_count : Z
}.

Definition write_lookup_in (i : LsarLookupSidsIn) : bin unit :=
  _ ← write_handle (li_policy_handle i);
  _ ← write_aligned 4 (write_sid_enum (li_sids i));
  _ ← write_aligned 4 (put 4 (li_translated_names_entries i));
  _ ← write_aligned 4 (write_ptr (put 1) WS_NoArraySupport (li_translated_names_names i));
  _ ← write_aligned 4 (put 2 (li_lookup_level i));
  write_aligned 4 (put 4 (li_mapped_count i)).

Inductive SidNameUse :=
| SU_User | SU_Group | SU_Domain | SU_Alias | SU_WellKnownGroup | SU_DeletedAccount | SU_Invalid | SU_Unknown | SU_Computer
| SU_Label | SU_LogonSession.
#[export] Instance SidNameUse_eq : EqDecision SidNameUse.
Proof. solve_decision. Defined.
#[export] Instance SidNameUse_repr : Repr SidNameUse := {|
  repr_code u := match u with
    | SU_User => 1 | SU_Group => 2 | SU_Domain => 3 | SU_Alias => 4 | SU_WellKnownGroup => 5 | SU_DeletedAccount => 6
    | SU_Invalid => 7 | SU_Unknown => 8 | SU_Computer => 9 | SU_Label => 10 | SU_LogonSession => 11 end;
  repr_all := [SU_User; SU_Group; SU_Domain; SU_Alias; SU_WellKnownGroup; SU_DeletedAccount; SU_Invalid; SU_Unknown;
    SU_Computer; SU_Label; SU_LogonSession] |}.

(** [LsaUnicodeStringBuffer] *)
Definition write_unicode_buffer (chars : list Z) : bin unit :=
  _ ← put_ndr 8 (zlen chars); _ ← put_ndr 8 0; _ ← put_ndr 8 (zlen chars); write_list (put 2) chars.
Definition read_unicode_buffer : bin (list Z) :=
  max_count ← get_ndr 8;
  offset ← get_ndr 8;
  _ ← bin_assert (bool_decide (offset = 0));
  actual_count ← get_ndr 8;
  _ ← bin_assert (bool_decide (actual_count <= max_count));
  read_count (Z.to_nat actual_count) (get 2).

Record ParsedTranslatedName := mkParsedName { pn_use_type : SidNameUse; pn_name : option (list Z); pn_domain_index : Z }.
Record LsarLookupSidsOut := mkLookupSidsOut {
  lo_domains : list (option (list Z));
  lo_names : list ParsedTranslatedName;
  lo_mapped_count : Z;
  lo_status : Z
}.

Record DomainFixedPart := mkDomainPart { df_name_length : Z; df_name_ref_id : Z; df_sid_ref_id : Z }.
Record NameFixedPart := mkNamePart { nf_use_type : SidNameUse; nf_name_length : Z; nf_name_ref_id : Z; nf_domain_index : Z }.

(** A name whose buffer is there *)
Definition read_deferred_name (name_ref_id name_length : Z) : bin (option (list Z)) :=
  get_if (bool_decide (name_ref_id <> null_ptr_ref_id) && bool_decide (name_length > 0)) read_unicode_buffer.

Fixpoint read_each {A B} (r : A -> bin B) (l : list A) : bin (list B) :=
  match l with
  | [] => mret []
  | a :: l => b ← r a; bs ← read_each r l; mret (b :: bs)
  end.

Definition read_domain_part : bin DomainFixedPart :=
  name_length ← read_aligned 4 (get 2);
  _ ← read_aligned 4 (get 2);
  name_ref_id ← get_ndr 8;
  sid_ref_id ← get_ndr 8;
  mret (mkDomainPart name_length name_ref_id sid_ref_id).
Definition read_domain (part : DomainFixedPart) : bin (option (list Z)) :=
  name ← read_deferred_name (df_name_ref_id part) (df_name_length part);
  _ ← get_if (bool_decide (df_sid_ref_id part <> null_ptr_ref_id)) read_sid;
  mret name.

Definition parse_referenced_domain_list : bin (list (option (list Z))) :=
  entries ← get_ndr 4;
  domains_array_ref ← get_ndr 8;
  _ ← get_ndr 4;
  if bool_decide (domains_array_ref = null_ptr_ref_id) || bool_decide (entries = 0) then mret []
  else
    max_count ← get_ndr 8;
    fixed_parts ← read_count (Z.to_nat (Z.min entries max_count)) read_domain_part;
    read_each read_domain fixed_parts.

(** [i32] *)
Definition to_i32 (v : Z) : Z := if bool_decide (v < 2 ^ 31) then v else v - 2 ^ 32.

Definition read_name_part : bin NameFixedPart :=
  use_type ← read_aligned 4 (get_repr 2);
  name_length ← read_aligned 4 (get 2);
  _ ← read_aligned 4 (get 2);
  name_ref_id ← get_ndr 8;
  domain_index ← read_aligned 4 (get 4);
  mret (mkNamePart use_type name_length name_ref_id (to_i32 domain_index)).
Definition read_translated_name (part : NameFixedPart) : bin ParsedTranslatedName :=
  name ← read_deferred_name (nf_name_ref_id part) (nf_name_length part);
  mret (mkParsedName (nf_use_type part) name (nf_domain_index part)).

Definition parse_translated_names : bin (list ParsedTranslatedName) :=
  entries ← get_ndr 4;
  names_ref_id ← get_ndr 8;
  if bool_decide (names_ref_id = null_ptr_ref_id) || bool_decide (entries = 0) then mret []
  else
    max_count ← get_ndr 8;
    fixed_parts ← read_count (Z.to_nat (Z.min entries max_count)) read_name_part;
    read_each read_translated_name fixed_parts.

Definition read_lookup_out : bin LsarLookupSidsOut :=
  domains_ref_id ← get_ndr 8;
  domains ← (if bool_decide (domains_ref_id <> null_ptr_ref_id) then parse_referenced_domain_list else mret []);
  names ← parse_translated_names;
  mapped_count ← get_ndr 4;
  status ← get 4;
  mret (mkLookupSidsOut domains names mapped_count status).

#[export] Instance lookup_sids_call : RpcCall LsarLookupSidsIn LsarLookupSidsOut := {|
  opnum := 15; write_input := write_lookup_in; read_output := read_lookup_out |}.

(** ** LsarClose *)

Record LsarCloseIn := mkLsaCloseIn { lc_object_handle : LsaHandle }.
Record LsarCloseOut := mkLsaCloseOut { lx_object_handle : LsaHandle; lx_status : Z }.

Definition read_lsa_close_out : bin LsarCloseOut := handle ← read_handle; status ← get 4; mret (mkLsaCloseOut handle status).

#[export] Instance lsa_close_call : RpcCall LsarCloseIn LsarCloseOut := {|
  opnum := 0; write_input i := write_handle (lc_object_handle i); read_output := read_lsa_close_out |}.

(** ** The interface *)

Record TranslatedName := mkTranslatedName { tn_name : list Z; tn_domain : list Z; tn_sid_type : SidNameUse }.

(** [TranslatedName::full_name]: the domain, a backslash and the name *)
Definition full_name (t : TranslatedName) : list Z :=
  if bool_decide (tn_domain t = []) then tn_name t else tn_domain t ++ 92 :: tn_name t.

(** The name of one entry: the domain of an index that is not one is empty. *)
Definition translate (domains : list (option (list Z))) (entry : ParsedTranslatedName) : option TranslatedName :=
  match pn_name entry with
  | None => None
  | Some name =>
      if bool_decide (pn_use_type entry = SU_Unknown) then None
      else
        let domain := if bool_decide (pn_domain_index entry >= 0)
                      then default [] (default None (domains !! Z.to_nat (pn_domain_index entry))) else [] in
        Some (mkTranslatedName name domain (pn_use_type entry))
  end.

(** What [lookup_sids] makes of the output. *)
Definition translated_names (output : LsarLookupSidsOut) : result SmbRpcError (list (option TranslatedName)) :=
  if negb (nt_is_success (lo_status output)) && bool_decide (lo_status output <> nt_none_mapped) then Err RE_InvalidResponseData
  else if bool_decide (lo_mapped_count output > zlen (lo_names output)) then Err RE_InvalidResponseData
  else Ok (translate (lo_domains output) <$> lo_names output).

Definition open_policy_input (server_name : list Z) : LsarOpenPolicy2In :=
  mkOpenPolicyIn (Resolved (Some (ndr_string_of server_name))) 24 (Resolved None) (Resolved None) 0 (Resolved None) (Resolved None)
    policy_lookup_names.
Definition lookup_input (policy_handle : LsaHandle) (sids : list SID) : LsarLookupSidsIn :=
  mkLookupSidsIn policy_handle sids 0 (Resolved None) lsap_lookup_wksta 0.

Section service.
Context {C : Type} {ans : C -> Type} {T : Type} `{BoundRpcConnection C ans T}.

Definition open_policy2 (bound_pipe : T) (server_name : list Z) : async C ans (T * result SmbRpcError LsaHandle) :=
  r <-- send_receive bound_pipe (open_policy_input server_name);
  mret (r.1, match r.2 with
             | Ok output => if nt_is_success (oo_status output) then Ok (oo_policy_handle output) else Err RE_InvalidResponseData
             | Err e => Err e
             end).

Definition lookup_sids (bound_pipe : T) (policy_handle : LsaHandle) (sids : list SID)
    : async C ans (T * result SmbRpcError (list (option TranslatedName))) :=
  r <-- send_receive bound_pipe (lookup_input policy_handle sids);
  mret (r.1, match r.2 with Ok output => translated_names output | Err e => Err e end).

Definition lsa_close (bound_pipe : T) (policy_handle : LsaHandle) : async C ans (T * result SmbRpcError unit) :=
  r <-- send_receive bound_pipe (mkLsaCloseIn policy_handle);
  mret (r.1, match r.2 with
             | Ok output => if nt_is_success (lx_status output) then Ok tt else Err RE_InvalidResponseData
             | Err e => Err e
             end).

End service.

(** ** Answers *)

(** The layout of an answer with one domain and two names, of which the second is not known, as a server sends it. *)
Definition sample_lookup : bin unit :=
  let name_part (use length ref index : Z) := (
    _ ← write_aligned 4 (put 2 use); _ ← write_aligned 4 (put 2 length); _ ← write_aligned 4 (put 2 length);
    _ ← put_ndr 8 ref; write_aligned 4 (put 4 index)) in
  _ ← put_ndr 8 ref_id_unique_default;
  _ ← put_ndr 4 1; _ ← put_ndr 8 ref_id_unique_default; _ ← put_ndr 4 1; _ ← put_ndr 8 1;
  _ ← write_aligned 4 (put 2 4); _ ← write_aligned 4 (put 2 4); _ ← put_ndr 8 ref_id_unique_default; _ ← put_ndr 8 ref_id_unique_default;
  _ ← write_unicode_buffer [78; 84];
  _ ← write_sid (mkSid 5 [18]);
  _ ← put_ndr 4 2; _ ← put_ndr 8 ref_id_unique_default; _ ← put_ndr 8 2;
  _ ← name_part 5 6 ref_id_unique_default 0;
  _ ← name_part 8 0 null_ptr_ref_id 0xffffffff;
  _ ← write_unicode_buffer [83; 89; 83];
  _ ← put_ndr 4 1; put 4 nt_some_not_mapped.

(** A name that is known comes with its domain, one that is not is none, and each has the place of its identifier. *)
Example sample_names_are_looked_up :
  match sample_lookup (mkStream [] O) with
  | Some (s, Ok _) =>
      match deserialize (S := LsarLookupSidsIn) (st_data s) with
      | Ok output => translated_names output = Ok [Some (mkTranslatedName [83; 89; 83] [78; 84] SU_WellKnownGroup); None] /\
          full_name (mkTranslatedName [83; 89; 83] [78; 84] SU_WellKnownGroup) = [78; 84; 92; 83; 89; 83]
      | Err _ => False
      end
  | _ => False
  end.
Proof. by vm_compute. Qed.

(** How many identifiers were asked for is not compared with how many names came back: an answer without names is an empty
    list, whatever was asked, where every identifier should have an entry. *)
Lemma names_may_be_missing domains status :
  status = nt_none_mapped \/ nt_is_success status = true -> translated_names (mkLookupSidsOut domains [] 0 status) = Ok [].
Proof.
  intros H. unfold translated_names. cbn [lo_status lo_mapped_count lo_names].
  replace (negb (nt_is_success status) && bool_decide (status <> nt_none_mapped)) with false; [done|].
  destruct H as [H|H]; [by subst status|by rewrite H].
Qed.
