(* ===== verification/RpcTheorems.v ===== *)
(** What is proved of RPC over pipes: the packets, the binding of a pipe, the numbering of calls and the listing of shares. *)
From S2P Require Import Prelude Effects Async Clock Bytes Stream Codec Security Ndr Rpc RpcCalls RpcPipe Srvsvc.
Local Open Scope Z_scope.
Local Open Scope async_scope.

(** A packet of RPC that is written is read back, in both directions and for every content: its flags, its data
    representation, its call and its content. A request carries its data to the end of the packet, as a response does; of an
    acknowledged bind this holds where the name of its port leaves the results aligned, since the writer does not align them. *)
Lemma rpc_packets_are_read_back :
  (forall p : DceRpcCoPkt DcRpcCoPktRequestContent, pkt_ok p ->
    exists x, pkt_to_bytes p = Some (Ok x) /\ pkt_of_bytes x = Some (Ok p)) /\
  (forall p : DceRpcCoPkt DcRpcCoPktResponseContent, pkt_ok p ->
    exists x, pkt_to_bytes p = Some (Ok x) /\ pkt_of_bytes x = Some (Ok p)).
Proof. split; intros p; apply pkt_bytes_law. Qed.

(** A reply is read from the rest of its packet and sixteen bytes more, the size of the header: what follows a packet becomes
    data of its response. *)
Example trailing_bytes_become_data :
  let r := mkPkt single_fragment packed_drep 7 (PC_Response (mkRpcResponse 0 0 [1; 2; 3])) in
  match pkt_to_bytes r with
  | Some (Ok x) => reply_data 0 x = Ok [1; 2; 3] /\ reply_data 0 (x ++ [9; 9]) = Ok [1; 2; 3; 9; 9]
  | _ => False
  end.
Proof. by vm_compute. Qed.

(** ** Requests *)

Lemma request_pkt_ok content call_id :
  request_content_ok content -> in_range u32_max call_id -> 16 + request_content_size content <= u16_max ->
  pkt_ok (pkt_new content call_id single_fragment packed_drep).
Proof. intros H1 H2 H3. by split. Qed.

Lemma request_bytes_law content call_id :
  request_content_ok content -> in_range u32_max call_id -> 16 + request_content_size content <= u16_max ->
  exists x, request_bytes content call_id = Some (Ok x) /\
    pkt_of_bytes x = Some (Ok (mkPkt single_fragment packed_drep call_id content)).
Proof. intros H1 H2 H3. exact (pkt_bytes_law _ (request_pkt_ok content call_id H1 H2 H3)). Qed.

Lemma syntaxes_ok : Forall syntax_ok transfer_syntaxes.
Proof. repeat constructor; by vm_compute. Qed.

Lemma single_context_ok index syntax_id syntax :
  in_range u16_max index -> syntax_ok syntax_id -> syntax_ok syntax -> bind_context_ok (mkBindContext index syntax_id [syntax]).
Proof. intros H1 H2 H3. split; [exact H1|exact H2|by apply Forall_singleton|by vm_compute]. Qed.

Lemma bind_request_ok syntax_id : syntax_ok syntax_id -> bind_ok (bind_request syntax_id).
Proof.
  intros H. pose proof syntaxes_ok as Hs. apply Forall_cons in Hs as [Ha Hs]. apply Forall_cons in Hs as [Hs _].
  split; [by vm_compute..| |by vm_compute]. apply Forall_cons. split; [|apply Forall_singleton].
  - apply single_context_ok; [by vm_compute|exact H|exact Ha].
  - apply single_context_ok; [by vm_compute|exact H|exact Hs].
Qed.

Lemma bind_request_eq syntax_id : bind_request syntax_id =
  mkBind 4280 4280 0 [mkBindContext 0 syntax_id [ndr64_syntax_id]; mkBindContext 1 syntax_id [bind_time_negotiation]].
Proof. reflexivity. Qed.

Lemma bind_bytes_law syntax_id :
  syntax_ok syntax_id -> exists x, request_bytes (CQ_Bind (bind_request syntax_id)) start_call_id = Some (Ok x) /\
    pkt_of_bytes x = Some (Ok (mkPkt single_fragment packed_drep start_call_id (CQ_Bind (bind_request syntax_id)))).
Proof.
  intros Hs. apply request_bytes_law.
  - exact (bind_request_ok syntax_id Hs).
  - unfold in_range, u32_max, start_call_id. lia.
  - vm_compute. discriminate.
Qed.

(** ** Binding *)

Section binding.
Context {PipeError : Type}.

(** What a call on the pipe that succeeded was answered. *)
Lemma runs_pipe {A} c (f : pipe_answer PipeError c -> result (BindError PipeError) A) events a :
  runs (r <-- issue c; mret (f r)) events (Some (Ok a)) -> exists r, events = [Ev c r] /\ f r = Ok a.
Proof.
  intros H. apply runs_then_Some in H as (events1 & events2 & r & -> & H1 & H2). apply runs_issue_Some in H1 as ->.
  apply runs_ret_Some in H2 as [-> H2]. by exists r.
Qed.

Lemma pipe_error_Ok {A} (r : result PipeError A) a : pipe_error r = Ok a -> r = Ok a.
Proof. by destruct r; intros [= ->]. Qed.

Lemma bin_result_Ok {A} (r : option (result BinError A)) a : bin_result (PipeError := PipeError) r = Ok a -> r = Some (Ok a).
Proof. destruct r as [[?|?]|]; by intros [= ->]. Qed.

Lemma runs_write_read call_id content events reply :
  runs (rpc_write_read (PipeError := PipeError) call_id content) events (Some (Ok reply)) ->
  exists timeout request data,
    request_bytes content call_id = Some (Ok request) /\
    events = [Ev (PP_Remaining : PipeCall) (Ok timeout); Ev (PP_Write request timeout) (Ok (zlen request));
              Ev (PP_Read default_fragment_limit timeout) (Ok data)] /\
    pkt_of_bytes data = Some (Ok reply) /\ valid_envelope reply = true.
Proof.
  unfold rpc_write_read. intros H. apply runs_try_Ok in H as (e1 & rest1 & request & -> & H1 & H).
  apply runs_ret_Some in H1 as [-> H1]. apply bin_result_Ok in H1.
  apply runs_try_Ok in H as (e2 & rest2 & timeout & -> & H2 & H). apply runs_pipe in H2 as (r2 & -> & H2). apply pipe_error_Ok in H2 as ->.
  apply runs_try_Ok in H as (e3 & rest3 & written & -> & H3 & H). apply runs_pipe in H3 as (r3 & -> & H3). apply pipe_error_Ok in H3 as ->.
  case_bool_decide as Hw; [by apply runs_ret_Some in H as [_ [=]]|]. subst written.
  apply runs_try_Ok in H as (e4 & rest4 & data & -> & H4 & H). apply runs_pipe in H4 as (r4 & -> & H4). apply pipe_error_Ok in H4 as ->.
  apply runs_try_Ok in H as (e5 & rest5 & reply' & -> & H5 & H). apply runs_ret_Some in H5 as [-> H5]. apply bin_result_Ok in H5.
  destruct (valid_envelope reply') eqn:Hv; apply runs_ret_Some in H as [-> H]; [|done]. injection H as ->.
  exists timeout, request, data. done.
Qed.

Lemma accepted_context_Ok ack context :
  accepted_context (PipeError := PipeError) ack transfer_syntaxes = Ok context ->
  context = 0 /\ exists accepted other, ba_results ack = [accepted; other] /\ br_result accepted = BR_Acceptance /\
    br_syntax accepted = ndr64_syntax_id.
Proof.
  unfold accepted_context, transfer_syntaxes. case_bool_decide as Hl; [done|].
  destruct (ba_results ack) as [|accepted [|other [|? ?]]]; [done..| |done]. cbn [zip zip_with select_context].
  change (is_bind_time_negotiation ndr64_syntax_id) with false. change (is_bind_time_negotiation bind_time_negotiation) with true.
  cbv beta iota. case_bool_decide as H1; [done|]. case_bool_decide as H2; [done|]. cbn [orb]. intros [= <-].
  split; [done|]. by exists accepted, other.
Qed.

Lemma runs_bind_reply reply events connection :
  runs (match pk_content reply with
        | PC_BindAck bind_ack =>
            context_id <-? a_lift (accepted_context (PipeError := PipeError) bind_ack transfer_syntaxes);
            mret (Ok (mkRpcPipe (start_call_id + 1) context_id (ba_max_xmit_frag bind_ack)))
        | PC_Fault fault => _ <-? pipe_close; mret (Err (BE_Rpc (RE_RemoteFault (ft_status fault))))
        | _ => mret (Err BE_InvalidMessage)
        end) events (Some (Ok connection)) ->
  events = [] /\ exists ack accepted other, pk_content reply = PC_BindAck ack /\ ba_results ack = [accepted; other] /\
    br_result accepted = BR_Acceptance /\ br_syntax accepted = ndr64_syntax_id /\ connection = mkRpcPipe 3 0 (ba_max_xmit_frag ack).
Proof.
  intros H. destruct (pk_content reply) as [r|f|ack|b]; [by apply runs_ret_Some in H as [_ [=]]| | |by apply runs_ret_Some in H as [_ [=]]].
  { apply runs_try_Ok in H as (e2 & rest2 & ? & -> & _ & H). by apply runs_ret_Some in H as [_ [=]]. }
  apply runs_try_Ok in H as (e2 & rest2 & context & -> & H2 & H). apply runs_ret_Some in H2 as [-> H2]. apply runs_ret_Some in H as [-> H].
  injection H as <-. apply accepted_context_Ok in H2 as (-> & accepted & other & Hres & Ha1 & Ha2). split; [done|].
  exists ack, accepted, other. split_and!; [reflexivity|exact Hres|exact Ha1|exact Ha2|reflexivity].
Qed.

Lemma runs_bind_never (replay : DomainReplay) syntax_id events connection :
  runs (bind_rpc (PipeError := PipeError) replay syntax_id) events (Some (Ok connection)) ->
  replay = DR_Never /\ runs (rpc_bind (PipeError := PipeError) syntax_id) events (Some (Ok connection)).
Proof.
  unfold bind_rpc. case_bool_decide as Hrep; intros H; [by apply runs_ret_Some in H as [_ [=]]|]. split; [exact Hrep|exact H].
Qed.

Lemma runs_rpc_bind syntax_id events connection :
  runs (rpc_bind (PipeError := PipeError) syntax_id) events (Some (Ok connection)) -> exists reply,
    runs (rpc_write_read (PipeError := PipeError) start_call_id (CQ_Bind (bind_request syntax_id))) events (Some (Ok reply)) /\
    exists ack accepted other, pk_content reply = PC_BindAck ack /\ ba_results ack = [accepted; other] /\
      br_result accepted = BR_Acceptance /\ br_syntax accepted = ndr64_syntax_id /\ connection = mkRpcPipe 3 0 (ba_max_xmit_frag ack).
Proof.
  unfold rpc_bind. intros H. apply runs_try_Ok in H as (events1 & events2 & reply & -> & H1 & H2).
  apply runs_bind_reply in H2 as [-> H2]. exists reply. rewrite app_nil_r. split; [exact H1|exact H2].
Qed.

(** C25: a pipe is bound only as its server agreed to. Whatever the pipe answers, a bind that succeeds permits no replay, has
    written one packet, a bind of the interface asked for that offers NDR64 and the negotiation of features in contexts of
    their own, whole, and has read one reply, which is one fragment, has the data representation of the request, and
    acknowledges the bind with one result per context, of which the first accepts exactly NDR64. The connection speaks in that
    context, keeps the limit of the server and starts with the call after the bind. *)
Theorem bound_pipes_speak_ndr64 (replay : DomainReplay) syntax_id events connection :
  syntax_ok syntax_id ->
  runs (bind_rpc (PipeError := PipeError) replay syntax_id) events (Some (Ok connection)) ->
  replay = DR_Never /\ exists timeout request data reply ack accepted other,
    events = [Ev (PP_Remaining : PipeCall) (Ok timeout); Ev (PP_Write request timeout) (Ok (zlen request));
              Ev (PP_Read default_fragment_limit timeout) (Ok data)] /\
    pkt_of_bytes request = Some (Ok (mkPkt single_fragment packed_drep 2 (CQ_Bind (mkBind 4280 4280 0
      [mkBindContext 0 syntax_id [ndr64_syntax_id]; mkBindContext 1 syntax_id [bind_time_negotiation]])))) /\
    pkt_of_bytes data = Some (Ok reply) /\ valid_envelope reply = true /\
    pk_content reply = PC_BindAck ack /\ ba_results ack = [accepted; other] /\
    br_result accepted = BR_Acceptance /\ br_syntax accepted = ndr64_syntax_id /\
    connection = mkRpcPipe 3 0 (ba_max_xmit_frag ack).
Proof.
  intros Hs H. apply runs_bind_never in H as [Hrep H]. split; [exact Hrep|].
  apply runs_rpc_bind in H as (reply & H1 & ack & accepted & other & H).
  apply runs_write_read in H1 as (timeout & request & data & Hreq & Hev & Hdata & Hv).
  destruct (bind_bytes_law syntax_id Hs) as (x & Hx & Hp). rewrite Hx in Hreq. injection Hreq as ->. rewrite bind_request_eq in Hp.
  exists timeout, request, data, reply, ack, accepted, other. split; [exact Hev|]. split; [exact Hp|]. split; [exact Hdata|].
  split; [exact Hv|exact H].
Qed.

End binding.

(** A server that acknowledges every bind. *)
Definition sample_ack : DceRpcCoPkt DcRpcCoPktResponseContent :=
  mkPkt single_fragment packed_drep 2 (PC_BindAck (mkBindAck 4280 4280 1 [92; 112; 105; 112; 101; 0]
    [mkBindAckResult BR_Acceptance BA_NotSpecified ndr64_syntax_id; mkBindAckResult BR_NegotiateAck BA_NotSpecified bind_time_negotiation])).
Definition sample_server (c : PipeCall) : pipe_answer unit c :=
  match c with
  | PP_Remaining => Ok None
  | PP_Write data _ => Ok (zlen data)
  | PP_Read _ _ => match pkt_to_bytes sample_ack with Some (Ok x) => Ok x | _ => Err tt end
  | PP_Transact _ _ => Err tt
  | PP_Close => Ok tt
  end.

Lemma srvsvc_syntax_ok : syntax_ok srvsvc_syntax_id.
Proof. split; [split|]; by vm_compute. Qed.

Lemma bound_pipes_speak_ndr64_witness :
  exists events, runs (bind_rpc (PipeError := unit) DR_Never srvsvc_syntax_id) events (Some (Ok (mkRpcPipe 3 0 4280))) /\
    exists request timeout, Ev (PP_Write request timeout : PipeCall) (Ok (zlen request)) ∈ events.
Proof.
  assert (Hrun : exists events, play sample_server (bind_rpc (PipeError := unit) DR_Never srvsvc_syntax_id) = (events, Ok (mkRpcPipe 3 0 4280))).
  { eexists. vm_compute. reflexivity. }
  destruct Hrun as [events Hrun]. apply play_runs in Hrun. exists events. split; [exact Hrun|].
  destruct (bound_pipes_speak_ndr64 DR_Never srvsvc_syntax_id events _ srvsvc_syntax_ok Hrun)
    as (_ & timeout & request & data & reply & ack & accepted & other & Hev & _).
  exists request, timeout. rewrite Hev. apply list_elem_of_further, list_elem_of_here.
Defined.

(** ** Calls *)

Section calls.
Context {PipeError : Type}.

(** Calls one after the other on a connection. *)
Fixpoint rpc_calls (c : RpcPipeConnection) (calls : list (Z * bytes))
    : async PipeCall (pipe_answer PipeError) (RpcPipeConnection * list (result SmbRpcError bytes)) :=
  match calls with
  | [] => mret (c, [])
  | (opnum, input) :: calls =>
      r <-- rpc_send_receive_raw c opnum input;
      rs <-- rpc_calls r.1 calls;
      mret (rs.1, r.2 :: rs.2)
  end.

Definition call_ok (call : Z * bytes) : Prop := in_range u16_max call.1 /\ 24 + zlen call.2 <= u16_max.

Definition call_packet (context_id call_id : Z) (call : Z * bytes) : DceRpcCoPkt DcRpcCoPktRequestContent :=
  mkPkt single_fragment packed_drep call_id (CQ_Request (mkRpcRequest 0 context_id call.1 call.2)).

Lemma reply_data_Ok context_id data stub :
  reply_data context_id data = Ok stub -> exists flags id cancel,
    pkt_of_bytes data = Some (Ok (mkPkt flags packed_drep id (PC_Response (mkRpcResponse context_id cancel stub)))) /\
    first_frag flags = true /\ last_frag flags = true.
Proof.
  unfold reply_data. destruct (pkt_of_bytes data) as [[[flags drep id content]|e]|]; [|done..]. unfold valid_envelope.
  cbn [pk_packed_drep pk_pfc_flags pk_content]. case_bool_decide as Hd; [|done]. destruct (first_frag flags) eqn:Hf; [|done].
  destruct (last_frag flags) eqn:Hl; [|done]. cbn [andb negb]. destruct content as [[context cancel stub']|f|b|b]; [|done..].
  cbn [rs_context_id rs_stub_data]. case_bool_decide as Hc; [done|]. intros [= <-]. subst. by exists flags, id, cancel.
Qed.

(** One call: what is sent and what becomes of the answer. *)
Lemma runs_send_receive c call events c' r :
  in_range u16_max (rp_context_id c) -> call_ok call -> 0 <= rp_next_call_id c -> rp_next_call_id c < u32_max ->
  runs (rpc_send_receive_raw (PipeError := PipeError) c call.1 call.2) events (Some (c', r)) ->
  c' = mkRpcPipe (rp_next_call_id c + 1) (rp_context_id c) (rp_server_max_xmit_frag c) /\
  exists request answer, events = [Ev (PP_Transact request (rp_server_max_xmit_frag c) : PipeCall) answer] /\
    pkt_of_bytes request = Some (Ok (call_packet (rp_context_id c) (rp_next_call_id c) call)) /\
    r = match answer with Ok data => reply_data (rp_context_id c) data | Err _ => Err RE_SendReceiveError end.
Proof.
  intros Hc [Ho Hs] H1 H2. unfold rpc_send_receive_raw.
  destruct (request_bytes_law (call_request c call.1 call.2) (rp_next_call_id c)) as (request & -> & Hp).
  - split; [split; vm_compute; discriminate|exact Hc|exact Ho].
  - split; ints.
  - unfold call_request, request_content_size. cbn [rq_stub_data]. lia.
  - unfold checked_add. rewrite bool_decide_eq_true_2 by lia. intros H. apply runs_then_Some in H as (e1 & e2 & answer & -> & H & H').
    apply runs_issue_Some in H as ->. apply runs_ret_Some in H' as [-> [= <- <-]]. split; [done|]. by exists request, answer.
Qed.

(** C26: calls of a connection are numbered and answered one by one. Of a sequence of calls that fit a fragment and that the
    counter has numbers for, every call sends exactly one request, in the order of the calls, numbered one after the other from
    the next number of the connection, so that no number is used twice, whatever the earlier calls returned; the request is one
    fragment that carries the operation and the input of its call in the context of the connection. A call returns data only
    where the pipe answered, with one fragment in the same data representation that is a response in that context with exactly
    that data. The number of the response is not compared with the one of the request. *)
Theorem rpc_calls_are_numbered c calls events c' results :
  in_range u16_max (rp_context_id c) -> 0 <= rp_next_call_id c -> rp_next_call_id c + zlen calls <= u32_max -> Forall call_ok calls ->
  runs (rpc_calls c calls) events (Some (c', results)) ->
  c' = mkRpcPipe (rp_next_call_id c + zlen calls) (rp_context_id c) (rp_server_max_xmit_frag c) /\
  length events = length calls /\ length results = length calls /\
  forall i call, calls !! i = Some call -> exists request answer,
    events !! i = Some (Ev (PP_Transact request (rp_server_max_xmit_frag c) : PipeCall) answer) /\
    pkt_of_bytes request = Some (Ok (call_packet (rp_context_id c) (rp_next_call_id c + Z.of_nat i) call)) /\
    forall stub, results !! i = Some (Ok stub) -> exists data flags id cancel, answer = Ok data /\
      pkt_of_bytes data = Some (Ok (mkPkt flags packed_drep id (PC_Response (mkRpcResponse (rp_context_id c) cancel stub)))) /\
      first_frag flags = true /\ last_frag flags = true.
Proof.
  intros Hc. revert c events results Hc. induction calls as [|call calls IH]; intros c events results Hc H1 H2 Hok Hrun.
  - apply runs_ret_Some in Hrun as [-> [= <- <-]]. split; [|done]. unfold zlen. cbn. rewrite Z.add_0_r. by destruct c.
  - apply Forall_cons in Hok as [Hcall Hok]. destruct call as [opnum input]. cbn [rpc_calls] in Hrun.
    apply runs_then_Some in Hrun as (events1 & rest & [c1 r1] & -> & Hrun1 & Hrun).
    apply (runs_send_receive c (opnum, input)) in Hrun1 as (-> & request & answer & -> & Hreq & Hr1); [|done..|unfold zlen in *; cbn in *; lia].
    apply runs_then_Some in Hrun as (events2 & rest2 & [c2 rs] & -> & Hrun2 & Hrun). apply runs_ret_Some in Hrun as [-> [= <- <-]].
    cbn [fst] in Hrun2. set (c1 := mkRpcPipe _ _ _) in Hrun2.
    destruct (IH c1 events2 rs Hc ltac:(cbn; lia) ltac:(unfold zlen in *; cbn in *; lia) Hok Hrun2) as (-> & He & Hrs & Hi).
    unfold c1. cbn [fst snd rp_next_call_id rp_context_id rp_server_max_xmit_frag] in *. rewrite app_nil_r. split_and!.
    + f_equal. unfold zlen. cbn [length]. lia.
    + cbn. by rewrite He.
    + cbn. by rewrite Hrs.
    + intros [|i] call' Hl; cbn in Hl |- *.
      * injection Hl as <-. exists request, answer. split; [done|]. rewrite Z.add_0_r. split; [done|]. intros stub [= Hst].
        destruct answer as [data|e]; [|by rewrite Hst in Hr1]. symmetry in Hr1. rewrite Hst in Hr1.
        apply reply_data_Ok in Hr1 as (flags & id & cancel & Hr1). by exists data, flags, id, cancel.
      * replace (rp_next_call_id c + Z.of_nat (S i)) with (rp_next_call_id c + 1 + Z.of_nat i) by lia. by apply Hi.
Qed.

End calls.

(** A server that answers every request with a response. *)
Definition sample_reply : DceRpcCoPkt DcRpcCoPktResponseContent :=
  mkPkt single_fragment packed_drep 3 (PC_Response (mkRpcResponse 0 0 [7; 7])).
Definition sample_responder (c : PipeCall) : pipe_answer unit c :=
  match c with
  | PP_Remaining => Ok None
  | PP_Write data _ => Ok (zlen data)
  | PP_Read _ _ => Err tt
  | PP_Transact _ _ => match pkt_to_bytes sample_reply with Some (Ok x) => Ok x | _ => Err tt end
  | PP_Close => Ok tt
  end.

Lemma rpc_calls_are_numbered_witness :
  exists request answer events, runs (rpc_calls (PipeError := unit) (mkRpcPipe 3 0 4280) [(15, [1]); (44, [2; 3])]) events
      (Some (mkRpcPipe 5 0 4280, [Ok [7; 7]; Ok [7; 7]])) /\
    events !! 1%nat = Some (Ev (PP_Transact request 4280 : PipeCall) answer) /\
    pkt_of_bytes request = Some (Ok (call_packet 0 4 (44, [2; 3]))).
Proof.
  assert (Hrun : exists events, play sample_responder (rpc_calls (mkRpcPipe 3 0 4280) [(15, [1]); (44, [2; 3])]) =
    (events, (mkRpcPipe 5 0 4280, [Ok [7; 7]; Ok [7; 7]]))) by (eexists; vm_compute; reflexivity).
  destruct Hrun as [events Hrun]. apply play_runs in Hrun.
  destruct (rpc_calls_are_numbered (mkRpcPipe 3 0 4280) [(15, [1]); (44, [2; 3])] events _ _
    ltac:(split; vm_compute; discriminate) ltac:(vm_compute; discriminate) ltac:(vm_compute; discriminate)
    ltac:(repeat constructor; vm_compute; discriminate) Hrun) as (_ & _ & _ & H).
  destruct (H 1%nat (44, [2; 3]) eq_refl) as (request & answer & He & Hp & _). exists request, answer, events.
  split; [exact Hrun|]. split; [exact He|exact Hp].
Defined.

(** ** Shares *)

Section shares.
Context {PipeError : Type}.

Definition served_bytes (refs : Referents) (l : list ServedShare) (total : Z) (resume : NdrPtr Z) : bytes :=
  match served_output refs l total resume (mkStream [] O) with Some (s, Ok _) => st_data s | _ => [] end.

Lemma serialize_input name :
  ndr_string_ok (ndr_string_of name) -> exists input, serialize (share_enum_input name) = Some input /\
    exists s, read_share_enum_in (mkStream input O) = Some (s, Ok (share_enum_input name)).
Proof.
  intros H. destruct (share_enum_in_law 0 (share_enum_input name)) as (x & Hw & Hr).
  { split; [exact H|exact I|split; vm_compute; discriminate|exact I]. }
  exists x. split.
  - unfold serialize. cbn [write_input netr_share_enum_call]. change (mkStream [] 0) with (at_end []). by rewrite (Hw [] eq_refl).
  - eexists. pose proof (Hr [] [] eq_refl) as H'. cbn [app] in H'. rewrite app_nil_r in H'. exact H'.
Qed.

Lemma deserialize_output refs l total resume rest :
  referents_ok refs l -> in_range u32_max total -> ptr_ok (in_range u32_max) resume ->
  deserialize (S := NetrShareEnumIn) (served_bytes refs l total resume ++ rest) =
    Ok (mkShareEnumOut (SE_Info1 (Resolved (Some (Resolved (Some (sv_share <$> l)))))) total resume).
Proof.
  intros H1 H2 H3. destruct (served_output_law 0 refs l total resume H1 H2 H3) as (x & Hw & Hr). unfold served_bytes, deserialize.
  change (mkStream [] 0) with (at_end []). rewrite (Hw [] eq_refl).
  cbn [app st_data at_end read_output netr_share_enum_call]. pose proof (Hr [] rest eq_refl) as H'. cbn [app] in H'. by rewrite H'.
Qed.

(** The call of [netr_share_enum], with its one answer. *)
Lemma runs_share_enum c name input request reply :
  serialize (share_enum_input name) = Some input ->
  request_bytes (call_request c 15 input) (rp_next_call_id c) = Some (Ok request) -> rp_next_call_id c < u32_max ->
  let c' := mkRpcPipe (rp_next_call_id c + 1) (rp_context_id c) (rp_server_max_xmit_frag c) in
  runs (netr_share_enum (C := PipeCall) (ans := pipe_answer PipeError) c name)
    [Ev (PP_Transact request (rp_server_max_xmit_frag c) : PipeCall) (Ok reply)]
    (Some (c', match reply_data (rp_context_id c) reply with
               | Ok stub => match deserialize (S := NetrShareEnumIn) stub with Ok output => shares_of output | Err e => Err e end
               | Err e => Err e
               end)).
Proof.
  intros Hs Hr Hn. unfold netr_share_enum, send_receive. rewrite Hs. cbn [send_receive_raw rpc_pipe_bound opnum netr_share_enum_call].
  unfold rpc_send_receive_raw. rewrite Hr. unfold checked_add. rewrite bool_decide_eq_true_2 by lia.
  cbn [runs then_bind issue mbind async_bind async_bind_def]. right. exists (Ok reply), []. split; [reflexivity|]. right.
  split; [reflexivity|]. cbn [fst snd rp_context_id rp_next_call_id rp_server_max_xmit_frag]. by destruct (reply_data (rp_context_id c) reply).
Qed.

Lemma response_bytes_law flags context_id id stub :
  byte_ok flags -> object_uuid flags = false ->
  in_range u16_max context_id -> in_range u32_max id -> 24 + zlen stub <= u16_max ->
  exists x, pkt_to_bytes (mkPkt flags packed_drep id (PC_Response (mkRpcResponse context_id 0 stub))) = Some (Ok x) /\
    reply_data context_id x = if first_frag flags && last_frag flags then Ok stub else Err RE_SendReceiveError.
Proof.
  intros Hf Ho H1 H2 H3. destruct (pkt_bytes_law (mkPkt flags packed_drep id (PC_Response (mkRpcResponse context_id 0 stub))))
    as (x & Hx & Hp).
  - split; [exact Hf|exact Ho|split; vm_compute; discriminate|exact H2| |].
    + split; [exact H1|split; vm_compute; discriminate].
    + cbn [pk_content pt_size response_laws response_content_size rs_stub_data]. unfold content_start. lia.
  - exists x. split; [exact Hx|]. unfold reply_data, valid_envelope. rewrite Hp. cbn [pk_content pk_pfc_flags pk_packed_drep rs_context_id rs_stub_data].
    rewrite (bool_decide_eq_true_2 (packed_drep = packed_drep)) by done. cbn [andb].
    destruct (first_frag flags && last_frag flags); cbn [negb]; [|done].
    by rewrite bool_decide_eq_false_2 by (intros H; by apply H).
Qed.


End shares.

